(* ===== verification/_CoqProject ===== *)
-Q . S2P
Prelude.v
Types.v
Graph.v
Scope.v
Contracts.v
Validator.v
State.v
Scheduler.v
Json.v
Policy.v
Events.v
Idempotency.v
Artifacts.v
PlanStore.v
PlanStoreSpec.v
Temporal.v
Activities.v
Workflow.v
WorkflowSample.v
WorkflowLogic.v
WorkflowSpec.v
WorkflowParallel.v
WorkflowAttempts.v
WorkflowResult.v
WorkflowTermination.v
WorkflowContinue.v
WorkflowFindings.v
Runtime.v
RuntimeSpec.v
RuntimeRecovery.v
RuntimeStream.v
Decode.v
Debug.v
Metrics.v
MetricsSpec.v
MetricsExporter.v
MetricsExporterSpec.v
MetricsProgress.v
Calls.v
Process.v
ProcessSpec.v
ProcessWorkflow.v
ProcessWorkflowSpec.v
Ledger.v
LedgerSpec.v
Actions.v
ActionsSpec.v
Batch.v
BatchSpec.v
GoStrings.v
ConversationDB.v
Conversation.v
ConversationSpec.v
ConversationSample.v
ConversationHistory.v
ConversationReplay.v
ConversationSweep.v
ConversationStream.v
Router.v
RouterSpec.v
RouterOwner.v
