(* ===== verification/Prelude.v ===== *)
(** * GoAgent / AgentOS: the durable plan engine

    A plan (RunPlan) is a graph of agent runs.  The control plane validates it, drives
    it with a deterministic scheduler and an event-sourced reducer inside a durable
    workflow, and keeps plans, events, commands and audits in a store where every write
    carries an idempotency key.  Around it the control plane keeps processes with timers,
    governed actions, batch worksets and ledgers.  Beside plans and processes it keeps
    conversations, threads of runs whose events external producers deliver, and a router that
    starts runs at their backends and remembers which backend owns which run.  This library
    models the engine of internal/usecase/agentosplan, the plan and process workflows of
    agentos/temporal, the stores of internal/usecase/agentosprocess, agentosaction, agentosbatch
    and agentosledger, the conversation runtime of agentos/conversation and the router of
    internal/usecase/agentosruntime, over the data of agentos/control, agentos/process and
    agentos/core, and proves what makes them correct.

    ** Parts and files

    - [Prelude]: Go's errors, loops, fixed-width integers, time and sorting; shared
      lemmas, tactics and the hint database [go].
    - [Types]: the structs and constants of agentos/control/plan.go and types.go,
      agentos/core/types.go and signal.go, trace.go.
    - [Graph]: the graph algorithms of validator.go (topoSort, maxDepth,
      hasDependencyPath, sortEdges).
    - [Scope]: scope.go and signals.go.  [Contracts]: mapping_contract.go and
      artifact_contract.go.
    - [Validator]: validator.go and delta.go, from [Validate] and [ApplyDelta] down to
      the single checks; [valid_spec] says what a valid plan is, [executable] what its
      executable view promises to the scheduler.
    - [State]: state.go, the reducer [Apply] with all handlers and the restore from a
      durable status; [effect] is the same behaviour as a step relation, [reachable] its
      closure.
    - [Scheduler]: scheduler.go, one tick [Decide].
    - [Json]: [json.Marshal] of the durable structs, as document trees.
    - [Policy]: policy.go and approval.go (limits, timeouts, the approval gate).
    - [Events]: events.go, the public event of a reducer event and the idempotency keys
      of every operation.
    - [Idempotency]: idempotency.go, commands.go, audit.go and the records of
      contract.go.
    - [Artifacts]: artifacts.go and the encoding side of artifact_payload.go.
    - [PlanStore]: plan_store_memory.go, every operation; [PlanStoreSpec]: its invariant
      [store_ok], the history order [store_extends] and their theorems.
    - [Temporal]: the inputs and outputs of the plan activities, the calls of a workflow
      to the outside, the environment that answers them, and the monad [W].
      [Activities]: the activities of plan_activity.go, plan_artifacts.go and
      expansion.go.
    - [Workflow]: plan_workflow.go from [PlanWorkflow] down, with variables.go and the
      parts of workflow_versioning.go and search_attributes.go it calls.
      [WorkflowSample]: concrete environments.  [WorkflowLogic]: the program logic
      [along R m] (every execution of [m] takes the execution state along [R]) and the
      facts about calls that the theorems share.
    - [WorkflowSpec], [WorkflowParallel], [WorkflowAttempts], [WorkflowResult],
      [WorkflowTermination], [WorkflowContinue], [WorkflowFindings]: one group of
      workflow theorems each.
    - [Runtime]: plan_runtime.go, plan_stream.go, plan_command_reconciler.go and the
      configuration they read: every request of the runtime facade, the command outbox and
      its redelivery, the subscription goroutine, as programs of calls to the stores
      ([ControlStore]) and to the Temporal client.  [RuntimeSpec]: the system of requests
      and redeliveries, its invariant and the safety of the outbox.  [RuntimeRecovery]:
      what a recovery pass does, and commands reloaded from their rows.  [RuntimeStream]:
      what a subscriber receives.
    - [Decode]: [json.Unmarshal] of the structs that views decode.  [Debug]: debug.go, the
      debug traces of stored events.
    - [Metrics]: metrics.go and metric_sample.go, the projection of samples from events;
      [MetricsSpec]: batches and sample identities.  [MetricsExporter]:
      metrics_exporter.go and the Postgres sink; [MetricsExporterSpec]: what checkpoints and
      rows mean; [MetricsProgress]: when a pass catches up and when it never will.
    - [Calls]: programs of calls to shared stores ([calls]), their interleavings, and the
      logic for invariants of what they share.
    - [Process]: agentos/process/process.go and internal/usecase/agentosprocess, the memory
      store and the runtime over it; [ProcessSpec]: its records and retries.
      [ProcessWorkflow]: process_workflow.go and process_activity.go of agentos/temporal;
      [ProcessWorkflowSpec]: timers and results over executions that continue one another.
    - [Ledger], [Actions], [Batch]: ledger.go, action.go and batch.go of agentos/process with
      internal/usecase/agentosledger, agentosaction and agentosbatch, in a Module each
      because the packages use the same names; [LedgerSpec], [ActionsSpec], [BatchSpec]:
      their theorems.
    - [GoStrings]: strings.TrimSpace, over the bytes of UTF-8.
    - [ConversationDB]: the tables of conversations with their keys, checks and references
      (src/migrations) and the statements of the code as functions on them.
      [Conversation]: agentos/control/conversation.go and store.go, runtime.go and sweeper.go
      of agentos/conversation: requests, ingestion, projections, snapshots, subscriptions and
      sweeps.  [ConversationSpec]: the logic [tri] of transactions, the invariant [conv_ok]
      of the tables and the system of requests and sweeps.  [ConversationSample]: concrete
      requests.  [ConversationHistory], [ConversationReplay], [ConversationSweep],
      [ConversationStream]: one group of theorems each.
    - [Router]: router.go, run_backend_index.go and registry.go of
      internal/usecase/agentosruntime over run_backend_index_postgres.go of
      internal/repo/persistent: starts, signals, controls, queries and subscriptions as
      programs of statements and calls of backends.  [RouterSpec]: the invariant [index_ok] of
      the index and the system of requests; [RouterOwner]: what it promises.

    ** How the parts interact

    [Validate] turns a spec into an [ExecutablePlan]; [Decide] reads it with the
    reducer's public status and names the nodes to start or skip; the workflow feeds the
    outcome to [Apply] as events and hands the new status with one event, built by
    [PlanEventFromStateEvent], to the persistence activity, which stores both with
    [PersistPlanTransition].  An expansion goes through [ApplyDelta] and then through
    [Apply].  A blocked plan waits at the gate [NewPlanApprovalGate] built, which a
    signal decides.  The theorems follow these edges: the scheduler is proved against
    [executable], which [Validate_executable] discharges; [expansion_agrees] joins
    validator and reducer, [blocked_gate] policy and reducer, [accepted_event_published]
    reducer and publication, [durable_history] workflow, reducer and publication.

    Requests reach a plan through the runtime: it records a command in the store, hands it
    to the Temporal service and marks it delivered; the reconciler redelivers what was not
    marked.  The runtime is written against [ControlStore], of which the memory store is an
    instance, and its theorems against the laws of that interface.  Subscribers, debug views
    and metrics read the event streams that the workflow's transitions append to:
    [debug_traces_roundtrip] joins publication and view, [exported_exactly] the streams, the
    projection and the sink.

    The process workflow handles a message or a due timer by an activity, which runs a request
    of the process runtime; the requests of all processes, actions and worksets use their
    stores at the same time.  [process_records], [action_gates] and [workset_progress] hold for
    every such interleaving; [signal_retry] says what a retried activity finds.

    A conversation run is admitted with its user message; the backend that executes it delivers
    its events, which are appended to the thread and projected on the run and its messages in
    one transaction.  A start that finds the thread busy is stored and parked; the sweeper
    applies it when the thread is free, and ends runs that fell silent.  [messages_replay] joins
    the event log and the messages, [snapshot_then_stream] snapshots and subscriptions.

    The router claims a run in its index before it starts it and binds it afterwards, one
    statement at a time.  [runs_on_owner] says that the index and the backends agree however
    requests interleave, [ownership_permanent] that they go on agreeing, so that [start_once]
    holds at any later time.

    ** What the theorems show

    - Validation is exact: a spec is accepted if and only if it is a valid plan, its
      executable view is complete and topologically ordered, expansions are bounded and
      append-only.
    - The scheduler does what the join and trigger rules say, never deadlocks, never
      fails on its own and does not depend on the sorting algorithm.
    - The reducer keeps its public status a projection of its state, accounts budgets
      exactly, keeps the approval clock and gate consistent, loses no node, and can be
      stopped and restored anywhere.
    - Every event the reducer accepts can be published, and the keys of different
      operations never coincide.
    - The store has gapless, tenant-consistent event streams, append-only history,
      exactly-once appends and transitions, atomic transitions, a linearizable
      [CreatePlan], isolated reads, exact cursor paging and the outbox rule.
    - Artifacts are published exactly once and stay readable; the memory store does not
      compare the tenant of a read.
    - The workflow, in every environment: unless it ends with an error, what it persists is
      exactly the history of the reducer, each transition with its own event (an event of a
      node that cannot be persisted while the node is started is followed by the persisted
      failure of that node), and an error loses at most the last two events;
      the status it returns is the final one of that history; no more operations run at
      once than the plan allows; a node is launched at most once per attempt its retry
      policy grants; it returns after at most its iteration limit when it receives
      finitely many messages; continuing as a new execution keeps the state of a reducer
      that tracks its spec, the counters and the processed keys.
    - The outbox: a command marked delivered was handed to the service with its content,
      whatever fails or crashes, and starts carry a spec that the store had; on the in-memory
      store a recovery pass sends every valid command it lists, and nothing else; a
      signal reloaded from its row completes exactly when it has a payload.
    - A subscription delivers the stream after its cursor as it was when the live tail was
      attached, without gaps, duplicates or reordering, and then what the live channel brings:
      what the channel drops after that is missing.  The debug traces of stored events are the traces of the reducer events.
    - Metrics do not depend on the batches in which a stream is read; a checkpoint stands
      for samples that are in the sink, and the sink holds nothing else; an undisturbed
      pass reaches the end of a stream, unless one event publishes two artifacts of a node.
    - Processes: every status has its event and streams are gapless; a timer fires at most
      once over all executions, at the time computed in the first; the workflow returns what
      its last activity said.
    - Actions are ready or executed only with the dry run and approval they ask for; worksets
      count recorded results only and each once; ledger appends happen once and pages are
      exact.  A repeated request is answered with what it recorded.
    - Conversations: the tables stay well-formed whatever requests and sweeps come; deliveries
      and admissions happen once; messages are the replay of the event log; subscriptions
      have no gaps and continue a snapshot from its first event on; a sweep ends up to 32
      silent runs, the longest silent first, and applies up to 32 parked starts when at most
      one of them waits on each thread.
    - The router: a run has one owner for good, is claimed before it is started, is
      started and addressed there only, and is not
      started again once it was reported as started; a caller that names its account reaches no
      run of another one.
    - Behaviours the code has and a reader would not expect: every end of an
      execution cancels its running operations, also the continuation that goes on
      polling them; a retry signal resumes a paused plan, a
      failed input resolution is not counted as an attempt; an approval reopens an action in
      any state, a repeated completion is refused, concurrent chunk results are lost; a canceled conversation run
      cannot be stored, two starts parked on a thread stop every later sweep.  Timeouts are exact up to
      9223372036 seconds and overflow beyond; start requests are replayable only with a
      RequestedAt of whole microseconds and only while the topology is the original one.

    ** Modelling choices

    A method is a function on an explicit state; a mutating method returns the state
    after the call also when it fails.  [(value, error)] is [result]; an error keeps its
    sentinel and the format string of its text.  A nil-able pointer is an [option], a Go
    map a [gmap], a loop over a map is modelled by an order-independent fold or a sorted
    list.  [int32] and [int64] wrap where the code does arithmetic on them.
    [time.Time] is a count of nanoseconds, [time.Now] an argument.  Strings are byte
    strings taken to be valid UTF-8, so that encoding them loses nothing.

    Workflow code runs in the monad [W] over an execution record that holds the workflow's
    variables and the log of exchanges.  The Temporal SDK, the activities and the backends
    are a strategy [Env]: a function from the log to the next answer.  A theorem for
    all environments covers all interleavings of completions, failures, signals and
    clock readings, because workflow code is single-threaded between two calls.

    The runtime and the metrics exporter run beside others that use the same stores, so
    their code is a tree of calls ([prog], [xprog]); [does] and [xdoes] say what a call may
    do, failures before or after the effect included, and a step relation interleaves the
    calls of all parties.  The requests of the process, action and batch runtimes and of the router are the same
    over one type, [calls]: [safe] is the rely-guarantee logic of [Calls], a thread may fail
    at any call or never be scheduled again, and [take_turns] runs a concrete schedule.  The
    process workflow is such a program too, with the messages and timers that the SDK reports
    as answers.  Go code that dereferences a nil pointer is of type [panics];
    [float64] is the IEEE type of the standard library.

    A transaction of the conversation runtime is a function of the tables, the clock and fresh
    ids ([Tx]); a failed statement poisons it until a rollback, to its savepoint or as a whole.
    Transactions run one at a time, which is what serializable isolation promises for requests;
    the sweeper runs at the default isolation and relies on row locks, and what could happen
    between its statements is outside the model, as the locks are.  What may happen around a
    request (serialization failures, lost connections before or after the commit, other
    transactions between two attempts) is its [Weather].  A subscription is a program of
    listings, sends and waits over changing tables; the fuel of its loops bounds the pages and
    ticks, the theorems about what it sends hold for any fuel, and [catch_up_complete] says
    how much is enough.

    The loops of topoSort and hasDependencyPath run with fuel: one unit per key of the
    incoming-edge counts, and the number of edge targets plus one; [Graph] proves that
    this is enough, since a node enters the queue at most once.  The workflow's loop and
    the draining of a channel take fuel because the environment decides how long they
    run; [WorkflowTermination] proves that the iteration limit plus the number of
    messages plus two is enough, and that more fuel changes nothing.  The loop over the batches of a plan takes fuel too;
    [pass_catches_up] shows that one round per event and one more is enough.  The loop of the
    process workflow takes fuel for the events the SDK reports; its theorems are about every
    prefix of an execution and hold for any fuel.

    Code that is not part of the repository is an interface: the JSON Schema library
    ([JSONSchema]), the backends of runs ([router_does]), SHA-256 ([Sha256], and [ByteEncoding] over bytes), the expression compiler and evaluator, the
    artifact and capability catalogs, the verb %q ([GoQuote]), the text of times ([RFC3339]), the order of equal
    elements in [sort.Slice] ([SliceSort]), the order of a range over a map, and of Postgres the
    precision of instants ([PgTime]) and the order of text ([Collation]); its text columns
    refuse NUL bytes, which requests are taken not to contain.

    ** Not modelled

    Input resolution (ResolveRunInput of mapping.go and its trace; the workflow sees it as
    an activity answer), the description view, the schema and capability catalogs and
    the Temporal client facade of processes and triggers are not; nor are the rule-based
    selector of backends (a function that the router is given), the in-memory index of runs, the
    resource projections, which aggregate, and the drainer of the conversation outbox (a step
    takes a row off); HTTP, Postgres, CEL and LLM adapters are input/output, the row mapping of commands and the metric sink
    excepted.  The deep copies of the memory store are the
    identity here, so sharing between stored and live values is outside the model. *)

From stdpp Require Export base tactics strings list gmap sorting option countable pretty.
From stdpp Require Export relations.
From Stdlib Require Export ZArith Lia.

#[export] Set Default Goal Selector "!".

(** ** Notation *)

Declare Scope go_scope.
Delimit Scope go_scope with go.

(** Go's [==] and [!=] on comparable values, as booleans. *)
Notation "x == y" := (bool_decide (x = y))
  (at level 70, no associativity) : go_scope.
Notation "x != y" := (negb (bool_decide (x = y)))
  (at level 70, no associativity) : go_scope.
Open Scope go_scope.

(** ** Errors *)

(** The sentinel errors of agentos/core/errors.go that the modelled code wraps.
    [ErrOther] is an error that wraps none of them (one returned by code that is
    a parameter of the model). *)
Inductive sentinel :=
  | ErrInvalidRunSpec | ErrInvalidBackendRef | ErrBackendNotFound
  | ErrRunRouteNotFound | ErrInvalidSignal | ErrInvalidControlOperation
  | ErrInvalidStreamScope | ErrInvalidRunPlan | ErrInvalidPlanScope
  | ErrPlanRouteNotFound | ErrInvalidResourceRef | ErrInvalidProcess
  | ErrInvalidProcessScope | ErrProcessRouteNotFound | ErrCapabilityNotFound
  | ErrArtifactNotFound | ErrInvalidArtifact | ErrInvalidExpression | ErrInvalidPlanEvent
  | ErrInvalidRunEvent | ErrInvalidLedgerEntry | ErrInvalidLedgerScope
  | ErrInvalidGovernedAction | ErrInvalidGovernedActionScope | ErrInvalidWorkset
  | ErrInvalidWorksetScope | ErrInvalidTrigger | ErrInvalidTriggerScope
  | ErrInvalidTenantScope | ErrInvalidPrincipal | ErrInvalidAuthorizationRequest
  | ErrUnauthenticated | ErrForbidden | ErrOther.

(** An error value: the sentinel [errors.Is] finds in it, and the format string
    of the [fmt.Errorf] call that built it (its arguments are not kept). *)
Record go_error := Errorf { err_is : sentinel; err_format : string }.

#[global] Instance sentinel_eq_dec : EqDecision sentinel.
Proof. solve_decision. Defined.
#[global] Instance go_error_eq_dec : EqDecision go_error.
Proof. solve_decision. Defined.

(** [fmt.Errorf("...: %w", err)]: the wrapped sentinel stays visible. *)
Definition wrap_error (format : string) (e : go_error) : go_error := Errorf (err_is e) format.

(** The [(value, error)] return convention. *)
Inductive result (A : Type) :=
  | Ok (a : A)
  | Err (e : go_error).
Arguments Ok {_} _.
Arguments Err {_} _.

#[global] Instance result_ret : MRet result := @Ok.
#[global] Instance result_bind : MBind result := λ A B f m,
  match m with Ok a => f a | Err e => Err e end.
#[global] Instance result_fmap : FMap result := λ A B f m,
  match m with Ok a => Ok (f a) | Err e => Err e end.

(** [if err != nil { return fmt.Errorf(..., err) }] *)
Definition map_err {A} (f : go_error → go_error) (r : result A) : result A :=
  match r with Ok a => Ok a | Err e => Err (f e) end.

(** [if cond { return err }] *)
Definition fail_if (c : bool) (e : go_error) : result unit :=
  if c then Err e else Ok tt.

(** A [for] loop whose body may return an error: the first error ends it. *)
Fixpoint foldM {S A} (f : S → A → result S) (s : S) (l : list A) : result S :=
  match l with
  | [] => Ok s
  | a :: l => s' ← f s a; foldM f s' l
  end.

(** A [for] loop that only checks its elements. *)
Definition forM {A} (f : A → result unit) (l : list A) : result unit :=
  foldM (λ _ a, f a) tt l.

Definition is_ok {A} (r : result A) : bool :=
  match r with Ok _ => true | Err _ => false end.

(** ** Machine integers *)

(** Two's-complement wrap-around at [w] bits. *)
Definition wrap (w z : Z) : Z := ((z + 2 ^ (w - 1)) mod 2 ^ w - 2 ^ (w - 1))%Z.
Definition int32 : Z → Z := wrap 32.
Definition int64 : Z → Z := wrap 64.
Definition max_int32 : Z := 2147483647.
Definition max_int64 : Z := 9223372036854775807.

(** ** Time *)

(** [time.Time] as nanoseconds since the zero instant (January 1, year 1, UTC);
    [time.Duration] as a 64-bit count of nanoseconds. *)
Abbreviation time := Z (only parsing).
Definition zero_time : time := 0%Z.
Definition time_is_zero (t : time) : bool := t == zero_time.
Definition second : Z := 1000000000.
Definition microsecond : Z := 1000.

(** [time.Duration(n) * time.Second]: a 64-bit product. *)
Definition seconds (n : Z) : Z := int64 (n * second)%Z.
Definition time_add (t : time) (d : Z) : time := (t + d)%Z.
Definition time_before (t u : time) : bool := (t <? u)%Z.

(** [t.Round(d)]: the nearest multiple of [d], halfway values rounded up. *)
Definition time_round (t : time) (d : Z) : time :=
  let r := (t mod d)%Z in
  if (r + r <? d)%Z then (t - r)%Z else (t + (d - r))%Z.

(** ** Sorting *)

(** [sort.Strings]: bytewise order; equal elements are indistinguishable, so the
    result is a function of the multiset of elements. *)
Definition sort_strings (l : list string) : list string := merge_sort String.le l.

(** [sort.Slice] and [sort.SliceStable].  [sort.Slice] promises a sorted
    permutation and leaves the order of equal elements unspecified, so it is an
    interface with exactly that promise; the ordering [R x y] is
    [not (less y x)]. *)
Class SliceSort := {
  sort_slice : ∀ {A} (R : relation A) `{!RelDecision R}, list A → list A;
  sort_slice_perm : ∀ {A} (R : relation A) `{!RelDecision R} (l : list A),
    sort_slice R l ≡ₚ l;
  sort_slice_sorted : ∀ {A} (R : relation A) `{!RelDecision R, !Total R} (l : list A),
    Sorted R (sort_slice R l);
}.

(** The implementation used to evaluate the definitions on concrete inputs. *)
#[global] Instance merge_slice_sort : SliceSort := {|
  sort_slice A R _ := merge_sort R;
  sort_slice_perm A R _ := merge_sort_Permutation R;
  sort_slice_sorted A R _ _ := Sorted_merge_sort R;
|}.

(** ** Lemmas on results and loops *)

Lemma bind_Ok {A B} (f : A → result B) (m : result A) b :
  m ≫= f = Ok b ↔ ∃ a, m = Ok a ∧ f a = Ok b.
Proof. destruct m; cbn; naive_solver. Qed.

Lemma bind_Err {A B} (f : A → result B) (m : result A) e :
  m ≫= f = Err e ↔ m = Err e ∨ ∃ a, m = Ok a ∧ f a = Err e.
Proof. destruct m; cbn; naive_solver. Qed.

Lemma map_err_Ok {A} (f : go_error → go_error) (r : result A) a :
  map_err f r = Ok a ↔ r = Ok a.
Proof. destruct r; cbn; naive_solver. Qed.

Lemma fail_if_Ok c e u : fail_if c e = Ok u ↔ c = false.
Proof. destruct c, u; cbn; naive_solver. Qed.

Lemma fail_if_Err c e e' : fail_if c e = Err e' ↔ c = true ∧ e = e'.
Proof. destruct c; cbn; naive_solver. Qed.

Lemma foldM_app {S A} (f : S → A → result S) s l1 l2 :
  foldM f s (l1 ++ l2) = foldM f s l1 ≫= λ s', foldM f s' l2.
Proof.
  revert s. induction l1 as [|a l1 IH]; intros s; [done|].
  cbn. destruct (f s a); [apply IH|done].
Qed.

(** Invariant rule for loops that may fail. *)
Lemma foldM_inv {S A} (P : list A → S → Prop) (f : S → A → result S) l s s' :
  P [] s →
  (∀ done a s1 s2, P done s1 → f s1 a = Ok s2 → done ++ [a] `prefix_of` l →
     P (done ++ [a]) s2) →
  foldM f s l = Ok s' → P l s'.
Proof.
  intros H0 Hstep. cut (∀ r d s1, l = d ++ r → P d s1 → foldM f s1 r = Ok s' → P l s').
  { intros Hcut. by apply (Hcut l []). }
  clear s H0. induction r as [|a r IH]; intros d s1 Hl Hs Hf; cbn in Hf.
  { rewrite Hl, app_nil_r. by simplify_eq. }
  apply bind_Ok in Hf as (s2 & Hfa & Hf).
  assert (l = (d ++ [a]) ++ r) as Hl' by (by rewrite <-app_assoc).
  apply (IH (d ++ [a]) s2); [done| |done].
  eapply Hstep; [done..|]. by exists r.
Qed.

Lemma forM_Ok {A} (f : A → result unit) l u :
  forM f l = Ok u ↔ ∀ a, a ∈ l → f a = Ok tt.
Proof.
  destruct u. unfold forM. induction l as [|a l IH]; cbn.
  - split; [intros _ a Ha; by apply not_elem_of_nil in Ha|done].
  - split.
    + intros ([] & Ha & Hl)%bind_Ok x [->|Hx]%elem_of_cons; [done|].
      by eapply IH in Hl.
    + intros Hall. rewrite (Hall a) by left. cbn. apply IH. intros x Hx. apply Hall. by right.
Qed.

(** A loop that adds each element to a map under a key it must not have yet. *)
Lemma foldM_index {A} (key : A → string) (ok : A → Prop)
    (f : gmap string A → A → result (gmap string A)) :
  (∀ m a m', f m a = Ok m' ↔ ok a ∧ m !! key a = None ∧ m' = <[key a := a]> m) →
  ∀ l m m', foldM f m l = Ok m' ↔
    (∀ a, a ∈ l → ok a ∧ m !! key a = None) ∧ NoDup (key <$> l) ∧
    m' = list_to_map ((λ a, (key a, a)) <$> l) ∪ m.
Proof.
  intros Hf l. induction l as [|a l IH]; intros m m'; cbn [foldM].
  { cbn. rewrite (left_id_L ∅ (∪)). split; [|by intros (_ & _ & ->)].
    intros [= ->]. split; [by intros a ?%not_elem_of_nil|]. split; [constructor|done]. }
  rewrite bind_Ok. setoid_rewrite Hf. setoid_rewrite IH.
  rewrite fmap_cons, NoDup_cons. setoid_rewrite elem_of_cons. cbn [list_to_map fmap list_fmap].
  set (index := list_to_map ((λ a, (key a, a)) <$> l)).
  assert (key a ∉ key <$> l → index ∪ <[key a := a]> m = <[key a := a]> index ∪ m) as Heq.
  { intros Hin. rewrite <-insert_union_r; [by rewrite insert_union_l|].
    apply not_elem_of_list_to_map. by rewrite <-list_fmap_compose. }
  split.
  - intros (m1 & (Ha & Hm & ->) & Hall & Hnd & ->).
    assert (key a ∉ key <$> l) as Hni.
    { intros (b & Hb & Hin)%list_elem_of_fmap. destruct (Hall b Hin) as [_ Hl].
      rewrite Hb, lookup_insert_eq in Hl. done. }
    split; [|split; [done|by apply Heq]].
    intros b [->|Hin]; [done|]. destruct (Hall b Hin) as [Hb Hl]. split; [done|].
    by apply lookup_insert_None in Hl as [].
  - intros (Hall & [Hni Hnd] & ->). destruct (Hall a (or_introl eq_refl)) as [Ha Hm].
    eexists. split; [done|]. split; [|split; [done|symmetry; by apply Heq]].
    intros b Hin. destruct (Hall b (or_intror Hin)) as [Hb Hl]. split; [done|].
    apply lookup_insert_None. split; [done|].
    intros Hid. apply Hni. rewrite Hid. by apply list_elem_of_fmap_2.
Qed.

(** A loop that collects keys that must be distinct. *)
Lemma foldM_collect {A} (key : A → string) (ok : A → Prop)
    (f : gset string → A → result (gset string)) :
  (∀ s a s', f s a = Ok s' ↔ ok a ∧ (key a ∉ s) ∧ s' = {[key a]} ∪ s) →
  ∀ l s s', foldM f s l = Ok s' ↔
    (∀ a, a ∈ l → ok a ∧ key a ∉ s) ∧ NoDup (key <$> l) ∧ s' = list_to_set (key <$> l) ∪ s.
Proof.
  intros Hf l. induction l as [|a l IH]; intros s s'; cbn [foldM].
  { cbn. rewrite (left_id_L ∅ (∪)). split; [|by intros (_ & _ & ->)].
    intros [= ->]. split; [by intros a ?%not_elem_of_nil|]. split; [constructor|done]. }
  rewrite bind_Ok. setoid_rewrite Hf. setoid_rewrite IH.
  rewrite fmap_cons, NoDup_cons. setoid_rewrite elem_of_cons. cbn [list_to_set].
  assert (list_to_set (key <$> l) ∪ ({[key a]} ∪ s) =
          {[key a]} ∪ list_to_set (key <$> l) ∪ s) as Heq by set_solver.
  split.
  - intros (s1 & (Ha & Hs & ->) & Hall & Hnd & ->).
    split; [|split; [split; [|done]|by rewrite Heq]].
    + intros b [->|Hin]; [done|]. destruct (Hall b Hin) as [Hb Hni].
      rewrite not_elem_of_union in Hni. by destruct Hni.
    + intros (b & Hb & Hin)%list_elem_of_fmap. destruct (Hall b Hin) as [_ Hni].
      rewrite <-Hb, not_elem_of_union, elem_of_singleton in Hni. by destruct Hni.
  - intros (Hall & [Hni Hnd] & ->). destruct (Hall a (or_introl eq_refl)) as [Ha Hs].
    eexists. split; [done|]. split; [|split; [done|by rewrite Heq]].
    intros b Hin. destruct (Hall b (or_intror Hin)) as [Hb Hsb]. split; [done|].
    apply (list_elem_of_fmap_2 key) in Hin. rewrite not_elem_of_union, elem_of_singleton.
    split; [|done]. intros Heqb. by rewrite <-Heqb in Hni.
Qed.

Lemma is_ok_true {A} (r : result A) : is_ok r = true ↔ ∃ a, r = Ok a.
Proof. destruct r; cbn; naive_solver. Qed.

(** ** Lemmas on integers and time *)

Lemma wrap_small w z :
  (0 < w)%Z → (- 2 ^ (w - 1) ≤ z < 2 ^ (w - 1))%Z → wrap w z = z.
Proof.
  intros Hw Hz. unfold wrap.
  assert (2 ^ w = 2 * 2 ^ (w - 1))%Z as Hp.
  { rewrite <-Z.pow_succ_r by lia. f_equal. lia. }
  rewrite Z.mod_small by lia. lia.
Qed.

Lemma int64_small z :
  (- max_int64 - 1 ≤ z ≤ max_int64)%Z → int64 z = z.
Proof. intros H. apply wrap_small; unfold max_int64 in *; lia. Qed.

Lemma int32_small z :
  (- max_int32 - 1 ≤ z ≤ max_int32)%Z → int32 z = z.
Proof. intros H. apply wrap_small; unfold max_int32 in *; lia. Qed.

(** ** Lemmas on sorting *)

Lemma sort_strings_perm l : sort_strings l ≡ₚ l.
Proof. apply merge_sort_Permutation. Qed.

Lemma elem_of_sort_strings x l : x ∈ sort_strings l ↔ x ∈ l.
Proof. by rewrite sort_strings_perm. Qed.

Lemma NoDup_sort_strings l : NoDup (sort_strings l) ↔ NoDup l.
Proof. by rewrite sort_strings_perm. Qed.

Lemma sort_strings_sorted l : Sorted String.le (sort_strings l).
Proof. apply Sorted_merge_sort, _. Qed.

(** Two sorted permutations of one list are equal: sorting strings does not
    depend on the algorithm. *)
Lemma sort_strings_unique l1 l2 : l1 ≡ₚ l2 → sort_strings l1 = sort_strings l2.
Proof.
  intros Hp. apply (Sorted_unique String.le); try apply sort_strings_sorted.
  by rewrite !sort_strings_perm.
Qed.

Lemma elem_of_sort_slice `{!SliceSort} {A} (R : relation A) `{!RelDecision R} x l :
  x ∈ sort_slice R l ↔ x ∈ l.
Proof. by rewrite sort_slice_perm. Qed.

(** ** Tactics *)

(** Turns boolean hypotheses into propositions. *)
Ltac simplify_bool :=
  repeat match goal with
  | H : bool_decide _ = true |- _ => apply bool_decide_eq_true_1 in H
  | H : bool_decide _ = false |- _ => apply bool_decide_eq_false_1 in H
  | H : negb _ = true |- _ => apply negb_true_iff in H
  | H : negb _ = false |- _ => apply negb_false_iff in H
  | H : (_ || _) = false |- _ => apply orb_false_iff in H as [? ?]
  | H : (_ && _) = true |- _ => apply andb_true_iff in H as [? ?]
  | H : (_ <? _)%Z = true |- _ => apply Z.ltb_lt in H
  | H : (_ <? _)%Z = false |- _ => apply Z.ltb_ge in H
  | H : (_ <=? _)%Z = true |- _ => apply Z.leb_le in H
  | H : (_ <=? _)%Z = false |- _ => apply Z.leb_gt in H
  | H : (_ =? _)%Z = true |- _ => apply Z.eqb_eq in H
  | H : (_ =? _)%Z = false |- _ => apply Z.eqb_neq in H
  end.

(** Inverts a successful monadic computation: one hypothesis per bind, the guards
    as propositions. *)
Ltac inv_ok H :=
  lazymatch type of H with
  | Ok _ = Ok _ => injection H as H; try subst
  | Err _ = Ok _ => discriminate H
  | fail_if _ _ = Ok _ => apply fail_if_Ok in H
  | map_err _ _ = Ok _ => apply map_err_Ok in H; inv_ok H
  | (_ ≫= _) = Ok _ =>
      let a := fresh "r" in let Ha := fresh "Hr" in
      apply bind_Ok in H as (a & Ha & H); cbn beta in H; inv_ok Ha; inv_ok H
  | (if ?c then _ else _) = Ok _ =>
      let Hc := fresh "Hc" in destruct c eqn:Hc; inv_ok H
  | _ => idtac
  end.
Tactic Notation "go_inv" hyp(H) := inv_ok H; simplify_bool; simplify_eq.

Create HintDb go.
Create Rewrite HintDb go.
#[export] Hint Rewrite @bind_Ok fail_if_Ok @forM_Ok : go.
