(* ===== verification/Types.v ===== *)
(** * The data model of the control plane

    The structs of agentos/control/plan.go, agentos/control/types.go and
    agentos/core (types.go, signal.go) that the plan engine works on, field by
    field, with the string constants of their lifecycles.  Every record prefixes
    the Go field names with a short tag, because Rocq projections share one name
    space.  A Go map is an [option (gmap string _)] whose [None] is the nil map;
    a pointer to a struct is an [option]; a slice is a [list] (nil and empty
    slices are identified). *)

From S2P Require Import Prelude.

(** ** Maps *)

Abbreviation go_map A := (option (gmap string A)) (only parsing).

(** [m[k]] with its presence flag; a nil map reads as empty. *)
Definition map_get {A} (m : go_map A) (k : string) : option A := m ≫= (.!! k).

(** ** Structs that occur inside dynamic values *)

Record ArtifactRef := {
  ref_ArtifactID : string;
  ref_PlanID : string;
  ref_NodeID : string;
  ref_RunID : string;
  ref_Name : string;
  ref_Kind : string;
  ref_MediaType : string;
  ref_URI : string;
  ref_SizeBytes : Z;
  ref_Digest : string;
  ref_Metadata : go_map string;
  ref_CreatedAt : time;
}.

Definition ArtifactKindPlanDelta : string := "plan_delta".

Record BackendRef := {
  backend_Kind : string;
  backend_Name : string;
}.

Record PlanBudgetUsage := { usage_SpentCents : Z }.

Record PlanApprovalGate := {
  gate_Summary : string;
  gate_NodeIDs : list string;
  gate_RiskReason : string;
  gate_PolicyVersion : string;
  gate_RequestedAt : time;
  gate_ExpiresAt : time;
}.

Record PlanApprovalDecision := {
  dec_Approved : bool;
  dec_ActorID : string;
  dec_Reason : string;
  dec_PolicyVersion : string;
  dec_DecidedAt : time;
}.

(** ** internal/usecase/agentosplan/trace.go: debug traces carried by events *)

Record CapabilitySelectionTrace := {
  cst_Backend : BackendRef;
  cst_Capability : string;
  cst_Signals : list string;
  cst_Controls : list string;
  cst_HasInputSchema : bool;
  cst_HasOutputSchema : bool;
}.

Record InputMappingTrace := {
  imt_Target : string;
  imt_SourceNodeID : string;
  imt_SourceArtifact : string;
  imt_SourcePath : string;
  imt_Expression : string;
  imt_Required : bool;
}.

Record InputResolutionTrace := {
  irt_InputDigest : string;
  irt_InputKeys : list string;
  irt_MappingCount : Z;
  irt_Mappings : list InputMappingTrace;
}.

Record ConditionEvaluationTrace := {
  cet_Scope : string;
  cet_NodeID : string;
  cet_EdgeID : string;
  cet_From : string;
  cet_To : string;
  cet_Expression : string;
  cet_Result : bool;
  cet_On : string;
  cet_ParentState : string;
}.

(** ** Dynamic values *)

(** A struct, a slice of structs, or a value of a named or map type stored in an
    interface.  [VTimeText] is the RFC 3339 text of an instant, which is what a decoded
    document holds in the place of a [time.Time]. *)
Inductive go_value :=
  | VGate (gate : PlanApprovalGate)
  | VDecision (decision : PlanApprovalDecision)
  | VArtifacts (refs : list ArtifactRef)
  | VBudget (usage : PlanBudgetUsage)
  | VInputTrace (trace : InputResolutionTrace)
  | VCapability (trace : CapabilitySelectionTrace)
  | VConditions (traces : list ConditionEvaluationTrace)
  | VSignalType (signal : string)
  | VControlOperation (operation : string)
  | VTime (t : time)
  | VTimeText (t : time)
  | VStringMap (m : go_map string).

(** Values of type [any] as they occur in inputs, payloads and variables.
    [ANum] keeps the literal of a number, [ANilMap] is a nil map stored in the
    interface, [AOther] is a value of a type encoding/json refuses (a channel or a
    function). *)
#[warnings="-register-all"]
Inductive any :=
  | ANil
  | ABool (b : bool)
  | ANum (literal : string)
  | AString (s : string)
  | ASlice (l : list any)
  | AMap (m : gmap string any)
  | ANilMap
  | AValue (v : go_value)
  | AOther.

(** A [map[string]any] passed where an [any] is expected. *)
Definition any_of_map (m : go_map any) : any :=
  match m with None => ANilMap | Some m => AMap m end.

(** ** agentos/core *)

Record Signal := {
  sig_Type : string;
  sig_IdempotencyKey : string;
  sig_ActorID : string;
  sig_Payload : go_map any;
  sig_SentAt : time;
}.

Definition SignalPlanNodeRetry : string := "plan.node.retry".
Definition SignalPlanApprove : string := "plan.approve".
Definition SignalPlanReject : string := "plan.reject".
Definition SignalUserMessage : string := "user.message".
Definition SignalUserApproval : string := "user.approval".
Definition SignalUserReject : string := "user.reject".
Definition SignalToolResult : string := "tool.result".
Definition SignalHumanFeedback : string := "human.feedback".
Definition SignalConfigPatch : string := "config.patch".
Definition SignalMemoryPatch : string := "memory.patch".
Definition SignalStepModify : string := "step.modify".
Definition SignalExternalEvent : string := "event.external".
Definition SignalControlPause : string := "control.pause".
Definition SignalControlResume : string := "control.resume".
Definition SignalControlCancel : string := "control.cancel".

(** control.go *)
Record ControlRequest := {
  ctl_Operation : string;
  ctl_IdempotencyKey : string;
  ctl_RequestedAt : time;
  ctl_ActorID : string;
  ctl_Metadata : go_map string;
}.

Definition ControlPause : string := "pause".
Definition ControlResume : string := "resume".
Definition ControlCancel : string := "cancel".

Definition SignalPayloadNodeID : string := "node_id".
Definition SignalPayloadReason : string := "reason".

(** ** agentos/control/types.go *)

Record RunSpec := {
  run_RunID : string;
  run_ThreadID : string;
  run_AccountID : string;
  run_ProjectID : string;
  run_AgentID : string;
  run_ModelRef : string;
  run_SystemPrompt : string;
  run_UserMessage : string;
  run_IdempotencyKey : string;
  run_RequestedAt : time;
  run_Metadata : go_map string;
  run_Backend : BackendRef;
  run_Input : go_map any;
}.

(** ** agentos/control/plan.go: specifications *)

Record InputMapping := {
  im_Target : string;
  im_SourceNodeID : string;
  im_SourceArtifact : string;
  im_SourcePath : string;
  im_Expression : string;
  im_Required : bool;
}.

Record ArtifactSpec := {
  as_Name : string;
  as_Kind : string;
  as_MediaType : string;
  as_SchemaRef : string;
  as_Required : bool;
}.

Record CapabilityLimits := {
  lim_MaxBatchItems : Z;
  lim_MaxParallelRuns : Z;
  lim_BatchInputKey : string;
}.

(** JSON documents ([json.RawMessage]) are byte strings. *)
Record Capability := {
  cap_Backend : BackendRef;
  cap_Name : string;
  cap_Description : string;
  cap_InputSchema : string;
  cap_OutputSchema : string;
  cap_Signals : list string;
  cap_Controls : list string;
  cap_Streaming : bool;
  cap_Artifacts : list string;
  cap_Limits : CapabilityLimits;
}.

Record PlanPolicy := {
  pol_MaxNodes : Z;
  pol_MaxDepth : Z;
  pol_MaxExpansions : Z;
  pol_MaxIterations : Z;
  pol_MaxHistoryEvents : Z;
  pol_ContinueAsNewEvents : Z;
  pol_MaxParallelNodes : Z;
  pol_BudgetCents : Z;
  pol_TimeoutSeconds : Z;
  pol_ApprovalTimeoutSeconds : Z;
}.

Record NodePolicy := {
  npol_MaxAttempts : Z;
  npol_TimeoutSeconds : Z;
  npol_Join : string;
}.

Definition PlanJoinAll : string := "all".
Definition PlanJoinAny : string := "any".
Definition PlanJoinFirst : string := "first".

Definition EdgeOnSuccess : string := "success".
Definition EdgeOnError : string := "error".
Definition EdgeOnComplete : string := "complete".
Definition EdgeOnAlways : string := "always".

Record PlanNodeSpec := {
  node_NodeID : string;
  node_Capability : string;
  node_Peer : string;
  node_Run : RunSpec;
  node_Inputs : list InputMapping;
  node_Outputs : list ArtifactSpec;
  node_Conditions : list string;
  node_Policy : NodePolicy;
}.

Record PlanEdgeSpec := {
  edge_EdgeID : string;
  edge_From : string;
  edge_To : string;
  edge_On : string;
  edge_Condition : string;
  edge_InputMapping : list InputMapping;
}.

Record PlanDelta := {
  delta_Nodes : list PlanNodeSpec;
  delta_Edges : list PlanEdgeSpec;
}.

Record RunPlanSpec := {
  spec_PlanID : string;
  spec_ThreadID : string;
  spec_AccountID : string;
  spec_ProjectID : string;
  spec_IdempotencyKey : string;
  spec_RequestedAt : time;
  spec_Inputs : go_map any;
  spec_Metadata : go_map string;
  spec_Nodes : list PlanNodeSpec;
  spec_Edges : list PlanEdgeSpec;
  spec_Policy : PlanPolicy;
}.

Record PlanRef := {
  pref_PlanID : string;
  pref_AccountID : string;
  pref_ProjectID : string;
}.

(** ** agentos/control/plan.go: lifecycle views *)

Record PlanNodeStatus := {
  ns_NodeID : string;
  ns_RunID : string;
  ns_Backend : BackendRef;
  ns_LifecycleState : string;
  ns_Attempts : Z;
  ns_BudgetUsage : PlanBudgetUsage;
  ns_Reason : string;
  ns_Artifacts : list ArtifactRef;
  ns_StartedAt : time;
  ns_CompletedAt : time;
  ns_UpdatedAt : time;
}.

Record PlanApprovalStatus := {
  appr_LifecycleState : string;
  appr_Gate : PlanApprovalGate;
  appr_Decision : option PlanApprovalDecision;
}.

Definition PlanApprovalPending : string := "pending".
Definition PlanApprovalApproved : string := "approved".
Definition PlanApprovalRejected : string := "rejected".
Definition PlanApprovalStale : string := "stale".

Record RunPlanStatus := {
  st_PlanID : string;
  st_LifecycleState : string;
  st_Nodes : list PlanNodeStatus;
  st_ActiveRunIDs : list string;
  st_Artifacts : list ArtifactRef;
  st_Reason : string;
  st_BudgetUsage : PlanBudgetUsage;
  st_Metadata : go_map string;
  st_StartedAt : time;
  st_UpdatedAt : time;
  st_BlockedAt : time;
  st_Approval : option PlanApprovalStatus;
}.

Definition PlanLifecyclePending : string := "pending".
Definition PlanLifecycleRunning : string := "running".
Definition PlanLifecycleBlocked : string := "blocked".
Definition PlanLifecycleSucceeded : string := "succeeded".
Definition PlanLifecycleFailed : string := "failed".
Definition PlanLifecycleCanceled : string := "canceled".

Definition PlanNodePending : string := "pending".
Definition PlanNodeReady : string := "ready".
Definition PlanNodeRunning : string := "running".
Definition PlanNodeBlocked : string := "blocked".
Definition PlanNodeSkipped : string := "skipped".
Definition PlanNodeSucceeded : string := "succeeded".
Definition PlanNodeFailed : string := "failed".
Definition PlanNodeCanceled : string := "canceled".

(** ** agentos/core: the generic event *)

Record Event := {
  e_EventID : string;
  e_EventType : string;
  e_RunID : string;
  e_ProcessID : string;
  e_ThreadID : string;
  e_Sequence : Z;
  e_Timestamp : time;
  e_Source : string;
  e_Payload : go_map any;
}.

(** ** agentos/control/plan.go: events and query scopes *)

(** [PlanEvent], with the fields of the embedded [core.Event] first. *)
Record PlanEvent := {
  ev_EventID : string;
  ev_EventType : string;
  ev_RunID : string;
  ev_ProcessID : string;
  ev_ThreadID : string;
  ev_Sequence : Z;
  ev_Timestamp : time;
  ev_Source : string;
  ev_Payload : go_map any;
  ev_PlanID : string;
  ev_AccountID : string;
  ev_ProjectID : string;
  ev_NodeID : string;
  ev_ExternalEventID : string;
}.

Record PlanStreamScope := {
  ss_PlanID : string;
  ss_AccountID : string;
  ss_ProjectID : string;
  ss_NodeID : string;
  ss_RunID : string;
  ss_AfterSequence : Z;
}.

Record PlanEventScope := {
  es_PlanID : string;
  es_AccountID : string;
  es_ProjectID : string;
  es_NodeID : string;
  es_RunID : string;
  es_AfterSequence : Z;
  es_Limit : Z;
}.

Record PlanDebugTraceScope := {
  dts_PlanID : string;
  dts_AccountID : string;
  dts_ProjectID : string;
  dts_NodeID : string;
  dts_RunID : string;
  dts_AfterSequence : Z;
  dts_Limit : Z;
}.

Record PlanAuditScope := {
  aus_PlanID : string;
  aus_AccountID : string;
  aus_ProjectID : string;
  aus_NodeID : string;
  aus_RunID : string;
  aus_Action : string;
  aus_Limit : Z;
}.

Record PlanArtifactScope := {
  ars_PlanID : string;
  ars_AccountID : string;
  ars_ProjectID : string;
  ars_NodeID : string;
  ars_RunID : string;
  ars_ArtifactID : string;
  ars_Limit : Z;
}.

(** ** Zero values *)

(** The Go zero value of the structs the code builds with omitted fields. *)
Definition zero_BackendRef : BackendRef := {| backend_Kind := ""; backend_Name := "" |}.

Definition zero_RunSpec : RunSpec := {|
  run_RunID := ""; run_ThreadID := ""; run_AccountID := ""; run_ProjectID := "";
  run_AgentID := ""; run_ModelRef := ""; run_SystemPrompt := ""; run_UserMessage := "";
  run_IdempotencyKey := ""; run_RequestedAt := zero_time; run_Metadata := None;
  run_Backend := zero_BackendRef; run_Input := None |}.

Definition zero_NodePolicy : NodePolicy :=
  {| npol_MaxAttempts := 0; npol_TimeoutSeconds := 0; npol_Join := "" |}.

Definition zero_PlanNodeSpec : PlanNodeSpec := {|
  node_NodeID := ""; node_Capability := ""; node_Peer := ""; node_Run := zero_RunSpec;
  node_Inputs := []; node_Outputs := []; node_Conditions := [];
  node_Policy := zero_NodePolicy |}.

Definition zero_PlanEdgeSpec : PlanEdgeSpec := {|
  edge_EdgeID := ""; edge_From := ""; edge_To := ""; edge_On := "";
  edge_Condition := ""; edge_InputMapping := [] |}.

Definition zero_PlanDelta : PlanDelta := {| delta_Nodes := []; delta_Edges := [] |}.

Definition zero_InputResolutionTrace : InputResolutionTrace := {|
  irt_InputDigest := ""; irt_InputKeys := []; irt_MappingCount := 0; irt_Mappings := [] |}.

Definition zero_CapabilitySelectionTrace : CapabilitySelectionTrace := {|
  cst_Backend := zero_BackendRef; cst_Capability := ""; cst_Signals := []; cst_Controls := [];
  cst_HasInputSchema := false; cst_HasOutputSchema := false |}.

Definition zero_ControlRequest : ControlRequest := {|
  ctl_Operation := ""; ctl_IdempotencyKey := ""; ctl_RequestedAt := zero_time; ctl_ActorID := "";
  ctl_Metadata := None |}.

Definition zero_PlanBudgetUsage : PlanBudgetUsage := {| usage_SpentCents := 0 |}.

Definition zero_PlanNodeStatus : PlanNodeStatus := {|
  ns_NodeID := ""; ns_RunID := ""; ns_Backend := zero_BackendRef; ns_LifecycleState := "";
  ns_Attempts := 0; ns_BudgetUsage := zero_PlanBudgetUsage; ns_Reason := "";
  ns_Artifacts := []; ns_StartedAt := zero_time; ns_CompletedAt := zero_time;
  ns_UpdatedAt := zero_time |}.

Definition zero_PlanPolicy : PlanPolicy := {|
  pol_MaxNodes := 0; pol_MaxDepth := 0; pol_MaxExpansions := 0; pol_MaxIterations := 0;
  pol_MaxHistoryEvents := 0; pol_ContinueAsNewEvents := 0; pol_MaxParallelNodes := 0;
  pol_BudgetCents := 0; pol_TimeoutSeconds := 0; pol_ApprovalTimeoutSeconds := 0 |}.

Definition zero_RunPlanStatus : RunPlanStatus := {|
  st_PlanID := ""; st_LifecycleState := ""; st_Nodes := []; st_ActiveRunIDs := [];
  st_Artifacts := []; st_Reason := ""; st_BudgetUsage := zero_PlanBudgetUsage;
  st_Metadata := None; st_StartedAt := zero_time; st_UpdatedAt := zero_time;
  st_BlockedAt := zero_time; st_Approval := None |}.

Definition zero_RunPlanSpec : RunPlanSpec := {|
  spec_PlanID := ""; spec_ThreadID := ""; spec_AccountID := ""; spec_ProjectID := "";
  spec_IdempotencyKey := ""; spec_RequestedAt := zero_time; spec_Inputs := None;
  spec_Metadata := None; spec_Nodes := []; spec_Edges := [];
  spec_Policy := zero_PlanPolicy |}.
