(* ===== verification/Graph.v ===== *)
(** * Dependency graphs

    The graph routines of internal/usecase/agentosplan/validator.go: [topoSort]
    (Kahn's algorithm with a sorted queue), [maxDepth], [hasDependencyPath]
    (breadth-first search) and [sortEdges].  Module [Topo] shows that [topoSort]
    succeeds exactly on acyclic graphs and returns a topological order of the
    nodes; module [Depth] that [maxDepth] is the number of nodes of a longest
    dependency chain; module [Reach] that [hasDependencyPath] decides
    reachability.  Both loops take fuel, and the fuel the callers give is shown
    to be enough. *)

From S2P Require Import Prelude Types.

(** ** Definitions *)

(** [incoming[k]++] *)
Definition incr (m : gmap string Z) (k : string) : gmap string Z :=
  <[k := (default 0 (m !! k) + 1)%Z]> m.

(** [m[k] = append(m[k], v)] *)
Definition push {A} (m : gmap string (list A)) (k : string) (v : A) : gmap string (list A) :=
  <[k := default [] (m !! k) ++ [v]]> m.

(** [m[k]] for a map of slices: nil when the key is absent. *)
Definition get_list {A} (m : gmap string (list A)) (k : string) : list A :=
  default [] (m !! k).

Definition topo_incoming (nodeByID : gmap string PlanNodeSpec) (edges : list PlanEdgeSpec) :
    gmap string Z :=
  foldl (λ m e, incr m (edge_To e)) ((λ _, 0%Z) <$> nodeByID) edges.

Definition topo_children (edges : list PlanEdgeSpec) : gmap string (list string) :=
  sort_strings <$> foldl (λ m e, push m (edge_From e) (edge_To e)) ∅ edges.

(** The keys with count zero, sorted. *)
Definition topo_queue (incoming : gmap string Z) : list string :=
  sort_strings ((map_to_list (filter (λ kv, kv.2 = 0%Z) incoming)).*1).

(** The inner loop: one decrement per child, a child that reaches zero enters
    the queue, which is sorted again. *)
Fixpoint topo_release (children : list string) (incoming : gmap string Z)
    (queue : list string) : gmap string Z * list string :=
  match children with
  | [] => (incoming, queue)
  | child :: children =>
      let n := (default 0 (incoming !! child) - 1)%Z in
      topo_release children (<[child := n]> incoming)
        (if (n =? 0)%Z then sort_strings (queue ++ [child]) else queue)
  end.

(** The outer loop; [None] is fuel exhaustion. *)
Fixpoint topo_loop (fuel : nat) (children : gmap string (list string))
    (incoming : gmap string Z) (queue order : list string) : option (list string) :=
  match queue with
  | [] => Some order
  | current :: queue =>
      match fuel with
      | O => None
      | S fuel =>
          let '(incoming, queue) := topo_release (get_list children current) incoming queue in
          topo_loop fuel children incoming queue (order ++ [current])
      end
  end.

Definition err_cycle : go_error := Errorf ErrInvalidRunPlan "plan contains a cycle".

(** Every node enters the queue at most once, so one unit of fuel per key is
    enough ([Topo.topo_loop_total]). *)
Definition topoSort (nodeByID : gmap string PlanNodeSpec) (edges : list PlanEdgeSpec) :
    result (list string) :=
  let incoming := topo_incoming nodeByID edges in
  match topo_loop (size incoming) (topo_children edges) incoming (topo_queue incoming) [] with
  | None => Err (Errorf ErrOther "topoSort: out of fuel")
  | Some order => if length order != size nodeByID then Err err_cycle else Ok order
  end.

(** [if depth[edge.To] < current+1 { depth[edge.To] = current + 1 }] *)
Definition relax (current : Z) (depth : gmap string Z) (edge : PlanEdgeSpec) : gmap string Z :=
  if (default 0 (depth !! edge_To edge) <? current + 1)%Z
  then <[edge_To edge := (current + 1)%Z]> depth else depth.

Definition depth_step (edgesByFrom : gmap string (list PlanEdgeSpec))
    (acc : gmap string Z * Z) (nodeID : string) : gmap string Z * Z :=
  let '(depth, maxValue) := acc in
  let current := default 0%Z (depth !! nodeID) in
  let maxValue := if (maxValue <? current)%Z then current else maxValue in
  (foldl (relax current) depth (get_list edgesByFrom nodeID), maxValue).

Definition maxDepth (order : list string) (edgesByFrom : gmap string (list PlanEdgeSpec)) : Z :=
  let '(_, maxValue) := foldl (depth_step edgesByFrom) (∅, 0%Z) order in
  (maxValue + 1)%Z.

(** The scan of one node's edges: [None] when the target is found. *)
Fixpoint reach_scan (edges : list PlanEdgeSpec) (to : string) (visited : gset string)
    (queue : list string) : option (gset string * list string) :=
  match edges with
  | [] => Some (visited, queue)
  | edge :: edges =>
      if edge_To edge == to then None
      else if bool_decide (edge_To edge ∈ visited) then reach_scan edges to visited queue
      else reach_scan edges to ({[edge_To edge]} ∪ visited) (queue ++ [edge_To edge])
  end.

Fixpoint reach_loop (fuel : nat) (edgesByFrom : gmap string (list PlanEdgeSpec)) (to : string)
    (visited : gset string) (queue : list string) : option bool :=
  match queue with
  | [] => Some false
  | current :: queue =>
      match fuel with
      | O => None
      | S fuel =>
          match reach_scan (get_list edgesByFrom current) to visited queue with
          | None => Some true
          | Some (visited, queue) => reach_loop fuel edgesByFrom to visited queue
          end
      end
  end.

(** The nodes some edge points to. *)
Definition edge_targets (edgesByFrom : gmap string (list PlanEdgeSpec)) : gset string :=
  map_fold (λ _ es s, list_to_set (edge_To <$> es) ∪ s) ∅ edgesByFrom.

(** Only edge targets are enqueued, each once, after the source itself
    ([Reach.reach_loop_total]). *)
Definition hasDependencyPath (edgesByFrom : gmap string (list PlanEdgeSpec))
    (from to : string) : bool :=
  default false
    (reach_loop (S (size (edge_targets edgesByFrom))) edgesByFrom to {[from]} [from]).

(** The comparison of [sortEdges], as "not (less y x)". *)
Definition edge_le (x y : PlanEdgeSpec) : Prop :=
  if decide (edge_From x = edge_From y) then String.le (edge_To x) (edge_To y)
  else String.le (edge_From x) (edge_From y).

#[global] Instance edge_le_dec : RelDecision edge_le.
Proof. intros x y. unfold edge_le. case_decide; apply _. Defined.

Definition sortEdges `{!SliceSort} (edges : gmap string (list PlanEdgeSpec)) :
    gmap string (list PlanEdgeSpec) :=
  sort_slice edge_le <$> edges.

(** ** The dependency relation *)

(** [u] has an edge to [v]. *)
Definition depends (edges : list PlanEdgeSpec) (u v : string) : Prop :=
  ∃ e, e ∈ edges ∧ edge_From e = u ∧ edge_To e = v.

Definition acyclic (edges : list PlanEdgeSpec) : Prop :=
  ∀ v, ¬ tc (depends edges) v v.

(** Both endpoints of every edge are nodes. *)
Definition edges_within (nodeByID : gmap string PlanNodeSpec) (edges : list PlanEdgeSpec) : Prop :=
  ∀ e, e ∈ edges → is_Some (nodeByID !! edge_From e) ∧ is_Some (nodeByID !! edge_To e).

(** Every edge into an element of [order] comes from an earlier element. *)
Definition topo_ordered (edges : list PlanEdgeSpec) (order : list string) : Prop :=
  ∀ before v after, order = before ++ v :: after →
    ∀ u, depends edges u v → u ∈ before.

Lemma get_list_push {A} (m : gmap string (list A)) k k' v :
  get_list (push m k v) k' = if decide (k = k') then get_list m k ++ [v] else get_list m k'.
Proof.
  unfold get_list, push, get_list. case_decide as Hk; [subst; by rewrite lookup_insert_eq|].
  by rewrite lookup_insert_ne.
Qed.

(** ** Correctness of [topoSort] *)

Module Topo.

(** How often [v] occurs in [l]. *)
Definition occ (v : string) (l : list string) : Z := Z.of_nat (length (filter (v =.) l)).

(** The edges into [v] whose source is not in [done]. *)
Definition pending (edges : list PlanEdgeSpec) (done : list string) (v : string) : Z :=
  Z.of_nat (length (filter (λ e, edge_To e = v ∧ edge_From e ∉ done) edges)).

Lemma occ_nil v : occ v [] = 0%Z.
Proof. done. Qed.

Lemma occ_cons v x l : occ v (x :: l) = ((if decide (v = x) then 1 else 0) + occ v l)%Z.
Proof. unfold occ. rewrite filter_cons. case_decide; cbn; lia. Qed.

Lemma occ_nonneg v l : (0 ≤ occ v l)%Z.
Proof. unfold occ. lia. Qed.

Lemma occ_perm v l1 l2 : l1 ≡ₚ l2 → occ v l1 = occ v l2.
Proof. intros Hp. unfold occ. by rewrite Hp. Qed.

Lemma occ_elem v l : v ∈ l → (0 < occ v l)%Z.
Proof.
  intros (l1 & l2 & ->)%list_elem_of_split. unfold occ.
  rewrite filter_app, filter_cons, decide_True, length_app by done. cbn. lia.
Qed.

Lemma pending_nonneg edges done v : (0 ≤ pending edges done v)%Z.
Proof. unfold pending. lia. Qed.

Lemma pending_zero edges done v :
  pending edges done v = 0%Z ↔ ∀ u, depends edges u v → u ∈ done.
Proof.
  unfold pending. split.
  - intros Hz u (e & He & <- & Hto). destruct (decide (edge_From e ∈ done)); [done|].
    assert (e ∈ filter (λ e, edge_To e = v ∧ edge_From e ∉ done) edges) as Hin
      by (by apply list_elem_of_filter).
    destruct (filter _ edges); [by apply not_elem_of_nil in Hin|cbn in Hz; lia].
  - intros Hall. destruct (filter _ edges) as [|e l] eqn:Hf; [done|].
    assert (e ∈ e :: l) as Hin by left. rewrite <-Hf in Hin.
    apply list_elem_of_filter in Hin as [[Hto Hni] He].
    exfalso. apply Hni, Hall. by exists e.
Qed.

Lemma pending_snoc edges done u v :
  u ∉ done →
  pending edges done v =
    (pending edges (done ++ [u]) v +
     occ v (edge_To <$> filter (λ e, edge_From e = u) edges))%Z.
Proof.
  intros Hu. unfold pending, occ. induction edges as [|e edges IH]; [done|].
  assert (edge_From e ∉ done ++ [u] ↔ edge_From e ≠ u ∧ edge_From e ∉ done) as Hni
    by (rewrite not_elem_of_app, list_elem_of_singleton; tauto).
  rewrite !filter_cons. destruct (decide (edge_From e = u)) as [He|Hne]; cbn [fmap list_fmap];
    rewrite ?filter_cons; repeat case_decide; cbn [length]; try lia; exfalso; naive_solver.
Qed.

Lemma topo_incoming_lookup nodeByID edges v :
  edges_within nodeByID edges → is_Some (nodeByID !! v) →
  topo_incoming nodeByID edges !! v = Some (pending edges [] v).
Proof.
  intros Hw Hv. unfold topo_incoming.
  set (m := (λ _, 0%Z) <$> nodeByID). assert (m !! v = Some 0%Z) as Hm.
  { unfold m. rewrite lookup_fmap. by destruct Hv as [? ->]. }
  cut (∀ m n, m !! v = Some n →
    foldl (λ m e, incr m (edge_To e)) m edges !! v = Some (n + pending edges [] v)%Z).
  { intros Hcut. by rewrite (Hcut _ _ Hm). }
  clear. induction edges as [|e edges IH]; intros m n Hm; cbn.
  { rewrite Hm. f_equal. unfold pending. cbn. lia. }
  unfold pending. rewrite filter_cons. destruct (decide (edge_To e = v)) as [Ht|Hne].
  - rewrite decide_True by (split; [done|apply not_elem_of_nil]).
    rewrite (IH _ (n + 1)%Z) by (unfold incr; rewrite Ht, lookup_insert_eq, Hm; done).
    f_equal. unfold pending. cbn [length]. lia.
  - rewrite decide_False by naive_solver. rewrite (IH _ n); [done|].
    unfold incr. by rewrite lookup_insert_ne.
Qed.

Lemma topo_incoming_dom nodeByID edges :
  edges_within nodeByID edges → dom (topo_incoming nodeByID edges) = dom nodeByID.
Proof.
  intros Hw. unfold topo_incoming.
  assert (∀ e, e ∈ edges → edge_To e ∈ dom nodeByID) as Hto.
  { intros e He. apply elem_of_dom. by apply Hw in He as [_ ?]. }
  assert (dom ((λ _, 0%Z) <$> nodeByID) = dom nodeByID) as Hd by (by rewrite dom_fmap_L).
  clear Hw. revert Hd. generalize ((λ _ : PlanNodeSpec, 0%Z) <$> nodeByID) as m.
  induction edges as [|e edges IH]; intros m Hd; cbn; [done|].
  apply IH; [intros ??; apply Hto; by right|].
  unfold incr. rewrite dom_insert_L, Hd. specialize (Hto e ltac:(by left)). set_solver.
Qed.

Lemma topo_children_perm edges u :
  get_list (topo_children edges) u ≡ₚ edge_To <$> filter (λ e, edge_From e = u) edges.
Proof.
  unfold get_list, topo_children. rewrite lookup_fmap.
  transitivity (get_list (foldl (λ m e, push m (edge_From e) (edge_To e)) ∅ edges) u).
  { unfold get_list. destruct (_ !! u); cbn; [apply sort_strings_perm|done]. }
  cut (∀ m, get_list (foldl (λ m e, push m (edge_From e) (edge_To e)) m edges) u =
    get_list m u ++ (edge_To <$> filter (λ e, edge_From e = u) edges)).
  { intros ->. unfold get_list. by rewrite lookup_empty. }
  induction edges as [|e edges IH]; intros m; [by rewrite app_nil_r|].
  cbn [foldl]. rewrite IH, filter_cons. unfold get_list, push.
  destruct (decide (edge_From e = u)) as [<-|Hne].
  - rewrite lookup_insert_eq. cbn. by rewrite <-app_assoc.
  - by rewrite lookup_insert_ne.
Qed.

Section kahn.
Context (edges : list PlanEdgeSpec) (keys : gset string).

(** What the loop knows when [done] has been emitted and the counters still
    include [extra v] for each [v]. *)
Record kahn_state (extra : string → Z) (done queue : list string) (incoming : gmap string Z) : Prop := {
  ks_nodup : NoDup (done ++ queue);
  ks_within : ∀ v, v ∈ done ++ queue → v ∈ keys;
  ks_count : ∀ v, v ∈ keys → incoming !! v = Some (pending edges done v + extra v)%Z;
  ks_zero : ∀ v, v ∈ keys → v ∈ done ++ queue ↔ (pending edges done v + extra v = 0)%Z;
}.

Lemma topo_release_spec children done queue incoming incoming' queue' :
  (∀ v, v ∈ children → v ∈ keys) →
  kahn_state (λ v, occ v children) done queue incoming →
  topo_release children incoming queue = (incoming', queue') →
  kahn_state (λ _, 0%Z) done queue' incoming'.
Proof.
  revert queue incoming. induction children as [|c children IH];
    intros queue incoming Hsub Hks Hrel; cbn in Hrel.
  { simplify_eq. destruct Hks. by split. }
  destruct Hks as [Hnd Hin Hcnt Hz].
  assert (c ∈ keys) as Hc by (apply Hsub; left).
  pose proof (pending_nonneg edges done c) as Hp. pose proof (occ_nonneg c children) as Ho.
  assert (c ∉ done ++ queue) as Hcni.
  { rewrite (Hz c Hc), occ_cons, decide_True by done. lia. }
  rewrite (Hcnt c Hc), occ_cons, decide_True in Hrel by done. cbn in Hrel.
  revert Hrel. apply IH; [intros v Hv; apply Hsub; by right|].
  set (n := (pending edges done c + (1 + occ c children) - 1)%Z).
  assert (n = pending edges done c + occ c children)%Z as Hn by (unfold n; lia).
  assert (∀ v, v ∈ done ++ (if (n =? 0)%Z then sort_strings (queue ++ [c]) else queue) ↔
     v ∈ done ++ queue ∨ (v = c ∧ n = 0%Z)) as Hmem.
  { intros v. rewrite !elem_of_app. destruct (Z.eqb_spec n 0).
    - rewrite elem_of_sort_strings, elem_of_app, list_elem_of_singleton. tauto.
    - tauto. }
  split.
  - destruct (Z.eqb_spec n 0); [|done]. rewrite sort_strings_perm, (assoc_L (++)).
    apply NoDup_app. split; [done|]. split; [|apply NoDup_singleton].
    by intros x Hx ->%list_elem_of_singleton.
  - intros v [Hv|[-> _]]%Hmem; [by apply Hin|done].
  - intros v Hv. destruct (decide (v = c)) as [->|Hne].
    + by rewrite lookup_insert_eq, Hn.
    + rewrite lookup_insert_ne by done. by rewrite (Hcnt v Hv), occ_cons, decide_False.
  - intros v Hv. rewrite Hmem, (Hz v Hv), occ_cons.
    pose proof (pending_nonneg edges done v). pose proof (occ_nonneg v children).
    destruct (decide (v = c)) as [->|Hne]; [|intuition lia].
    split; [intros [?|[_ ?]]; lia|]. intros ?. right. split; [done|lia].
Qed.

Context (within : ∀ e, e ∈ edges → edge_To e ∈ keys).

(** One iteration: the emitted node and its children. *)
Lemma topo_step_spec done current queue incoming incoming' queue' :
  kahn_state (λ _, 0%Z) done (current :: queue) incoming →
  topo_release (get_list (topo_children edges) current) incoming queue = (incoming', queue') →
  kahn_state (λ _, 0%Z) (done ++ [current]) queue' incoming'.
Proof.
  intros [Hnd Hin Hcnt Hz] Hrel.
  pose proof (topo_children_perm edges current) as Hch.
  assert (current ∉ done) as Hni.
  { intros Hd. apply NoDup_app in Hnd as (_ & Hdis & _). by eapply Hdis; [|left]. }
  assert (∀ v, pending edges done v = (pending edges (done ++ [current]) v +
      occ v (get_list (topo_children edges) current)))%Z as Hpend.
  { intros v. rewrite (pending_snoc _ _ current) by done. by rewrite (occ_perm v _ _ Hch). }
  assert (∀ v, v ∈ (done ++ [current]) ++ queue ↔ v ∈ done ++ current :: queue) as Hmem.
  { intros v. by rewrite <-app_assoc. }
  eapply topo_release_spec; [| |exact Hrel].
  - intros v Hv. rewrite Hch in Hv.
    apply list_elem_of_fmap in Hv as (e & -> & [_ He]%list_elem_of_filter). by apply within.
  - split.
    + by rewrite <-app_assoc.
    + intros v Hv. by apply Hin, Hmem.
    + intros v Hv. rewrite (Hcnt v Hv), Hpend. f_equal. lia.
    + intros v Hv. rewrite Hmem, (Hz v Hv), Hpend. split; lia.
Qed.

(** The emitted list stays topologically ordered. *)
Lemma topo_ordered_snoc done v :
  topo_ordered edges done → (∀ u, depends edges u v → u ∈ done) →
  topo_ordered edges (done ++ [v]).
Proof.
  intros Hto Hv before w after Heq u Hu.
  destruct after as [|a after _] using rev_ind.
  - apply app_inj_tail in Heq as [<- ->]. by apply Hv.
  - rewrite (app_assoc before (w :: after) [a] : before ++ w :: after ++ [a] = _) in Heq.
    apply app_inj_tail in Heq as [-> _]. by eapply Hto.
Qed.

Lemma kahn_done_length extra done queue incoming :
  kahn_state extra done queue incoming → length done + length queue ≤ size keys.
Proof.
  intros [Hnd Hin _ _]. rewrite <-length_app.
  rewrite <-(size_list_to_set (C := gset string)) by done.
  apply subseteq_size. intros v. rewrite elem_of_list_to_set. apply Hin.
Qed.

(** The loop never runs out of fuel, and its result is a topological order that
    holds exactly the keys all of whose sources it holds. *)
Lemma topo_loop_spec fuel done queue incoming :
  kahn_state (λ _, 0%Z) done queue incoming →
  topo_ordered edges done →
  size keys ≤ fuel + length done →
  ∃ order, topo_loop fuel (topo_children edges) incoming queue done = Some order ∧
    NoDup order ∧ topo_ordered edges order ∧ (∀ v, v ∈ order → v ∈ keys) ∧
    (∀ v, v ∈ keys → (∀ u, depends edges u v → u ∈ order) → v ∈ order).
Proof.
  revert done queue incoming. induction fuel as [|fuel IH];
    intros done [|current queue] incoming Hks Hto Hfuel; cbn.
  1,3: exists done; destruct Hks as [Hnd Hin _ Hz]; rewrite app_nil_r in *;
    repeat split; [done..|]; intros v Hv Hall; apply Hz; [done|];
    rewrite Z.add_0_r; by apply pending_zero.
  - apply kahn_done_length in Hks. cbn in Hks. lia.
  - destruct (topo_release _ incoming queue) as [incoming' queue'] eqn:Hrel.
    apply IH.
    + by eapply topo_step_spec.
    + apply topo_ordered_snoc; [done|]. apply pending_zero.
      assert (current ∈ done ++ current :: queue) as Hc by (apply elem_of_app; right; left).
      pose proof Hc as Hk. apply (ks_within _ _ _ _ Hks) in Hk.
      apply (ks_zero _ _ _ _ Hks) in Hc; [lia|done].
    + rewrite length_app. cbn. lia.
Qed.
End kahn.

Section result.
Context (nodeByID : gmap string PlanNodeSpec) (edges : list PlanEdgeSpec).
Context (within : edges_within nodeByID edges).

Lemma kahn_init :
  kahn_state edges (dom nodeByID) (λ _, 0%Z) []
    (topo_queue (topo_incoming nodeByID edges)) (topo_incoming nodeByID edges).
Proof.
  set (incoming := topo_incoming nodeByID edges).
  assert (∀ v, v ∈ dom nodeByID → incoming !! v = Some (pending edges [] v)) as Hl.
  { intros v Hv%elem_of_dom. by apply topo_incoming_lookup. }
  assert (∀ v, v ∈ topo_queue incoming ↔ incoming !! v = Some 0%Z) as Hq.
  { intros v. unfold topo_queue. rewrite elem_of_sort_strings, list_elem_of_fmap. split.
    - intros ([k n] & -> & Hkn%elem_of_map_to_list). apply map_lookup_filter_Some in Hkn.
      by destruct Hkn as [? Hz]; cbn in *; subst.
    - intros Hv. exists (v, 0%Z). split; [done|]. apply elem_of_map_to_list.
      by apply map_lookup_filter_Some. }
  split; cbn.
  - unfold topo_queue. rewrite sort_strings_perm. apply NoDup_fst_map_to_list.
  - intros v Hv%Hq. rewrite <-(topo_incoming_dom nodeByID edges) by done.
    apply elem_of_dom. by eexists.
  - intros v Hv. by rewrite Z.add_0_r, Hl.
  - intros v Hv. rewrite Z.add_0_r, Hq, Hl by done. split; [by intros [=]|by intros ->].
Qed.

Lemma topo_loop_total :
  ∃ order,
    topo_loop (size (topo_incoming nodeByID edges)) (topo_children edges)
      (topo_incoming nodeByID edges) (topo_queue (topo_incoming nodeByID edges)) [] = Some order ∧
    NoDup order ∧ topo_ordered edges order ∧ (∀ v, v ∈ order → v ∈ dom nodeByID) ∧
    (∀ v, v ∈ dom nodeByID → (∀ u, depends edges u v → u ∈ order) → v ∈ order).
Proof.
  apply (topo_loop_spec edges (dom nodeByID)).
  - intros e He. apply elem_of_dom. by apply within in He as [_ ?].
  - apply kahn_init.
  - by intros [|??] ??.
  - cbn. rewrite <-(topo_incoming_dom nodeByID edges), size_dom by done. lia.
Qed.

(** The emitted list covers the nodes as soon as it is as long as the node set. *)
Lemma order_covers order :
  NoDup order → (∀ v, v ∈ order → v ∈ dom nodeByID) → length order = size nodeByID →
  ∀ v, v ∈ dom nodeByID → v ∈ order.
Proof.
  intros Hnd Hsub Hlen v Hv.
  assert ((list_to_set order : gset string) = dom nodeByID) as Heq.
  { apply set_subseteq_size_eq; [set_solver|]. rewrite size_list_to_set, size_dom by done. lia. }
  rewrite <-Heq in Hv. by apply elem_of_list_to_set in Hv.
Qed.

Lemma topoSort_Ok order :
  topoSort nodeByID edges = Ok order →
  NoDup order ∧ (∀ v, v ∈ order ↔ is_Some (nodeByID !! v)) ∧ topo_ordered edges order.
Proof.
  unfold topoSort. destruct topo_loop_total as (order' & -> & Hnd & Hto & Hsub & _).
  case_bool_decide as Hlen; cbn; intros [= <-].
  split; [done|]. split; [|done]. intros v. rewrite <-elem_of_dom.
  split; [apply Hsub|by apply order_covers].
Qed.

(** In an acyclic graph a set of nodes that is closed under "all my sources are
    in the set" holds every node. *)
Lemma acyclic_induction (P : string → Prop) :
  acyclic edges →
  (∀ v, is_Some (nodeByID !! v) → (∀ u, depends edges u v → P u) → P v) →
  ∀ v, is_Some (nodeByID !! v) → P v.
Proof.
  intros Hac Hstep v. assert (sn (flip (depends edges)) v) as Hsn.
  { apply tc_finite_sn.
    - cut (∀ x y, tc (flip (depends edges)) x y → tc (depends edges) y x).
      { intros Hc x Hx. by apply (Hac x), Hc. }
      intros x y. induction 1 as [x y Hxy|x y z Hxy _ IH]; [by apply tc_once|].
      eapply tc_r; [exact IH|exact Hxy].
    - exists (edge_From <$> edges). intros x Hx.
      assert (∃ w, depends edges x w) as (w & e & He & <- & _).
      { clear -Hx. induction Hx as [v x Hvx|? ? ? _ _ IH]; [by exists v|done]. }
      by apply list_elem_of_fmap_2. }
  induction Hsn as [v _ IH]. intros Hv. apply Hstep; [done|].
  intros u Hu. apply IH; [done|]. destruct Hu as (e & He & <- & _). by apply within.
Qed.

Lemma topoSort_complete : acyclic edges → ∃ order, topoSort nodeByID edges = Ok order.
Proof.
  intros Hac. unfold topoSort. destruct topo_loop_total as (order & -> & Hnd & _ & Hsub & Hcl).
  assert (∀ v, is_Some (nodeByID !! v) → v ∈ order) as Hall.
  { apply acyclic_induction; [done|]. intros v Hv Hu. apply Hcl; [by apply elem_of_dom|done]. }
  rewrite bool_decide_eq_true_2; [by eexists|].
  rewrite <-(size_list_to_set (C := gset string)) by done.
  rewrite <-(size_dom (D := gset string)). f_equal. apply set_eq. intros v.
  rewrite elem_of_list_to_set. split; [apply Hsub|]. intros Hv%elem_of_dom. by apply Hall.
Qed.

(** A topological order that holds every target rules out cycles. *)
Lemma topo_ordered_before order u v :
  topo_ordered edges order → (∀ e, e ∈ edges → edge_To e ∈ order) →
  tc (depends edges) u v →
  ∀ before after, order = before ++ v :: after → u ∈ before.
Proof.
  intros Hto Htgt. induction 1 as [u v Huv|u w v Huw _ IH]; intros before after Heq.
  { by eapply Hto. }
  specialize (IH _ _ Heq). apply list_elem_of_split in IH as (b1 & b2 & ->).
  apply elem_of_app. left. eapply Hto; [|done]. by rewrite Heq, <-app_assoc.
Qed.

Lemma topo_ordered_acyclic order :
  NoDup order → topo_ordered edges order → (∀ e, e ∈ edges → edge_To e ∈ order) → acyclic edges.
Proof.
  intros Hnd Hto Htgt v Hv.
  assert (v ∈ order) as (b & a & Heq)%list_elem_of_split.
  { assert (∃ e, e ∈ edges ∧ edge_To e = v) as (e & He & <-); [|by apply Htgt].
    clear -Hv. remember v as w eqn:Hw. clear Hw. induction Hv as [? ? (e & ? & _ & ?)|]; eauto. }
  pose proof (topo_ordered_before _ _ _ Hto Htgt Hv _ _ Heq) as Hb.
  rewrite Heq in Hnd. apply NoDup_app in Hnd as (_ & Hdis & _). by eapply Hdis; [|left].
Qed.

Lemma topoSort_acyclic order : topoSort nodeByID edges = Ok order → acyclic edges.
Proof.
  intros Hok. apply topoSort_Ok in Hok as (Hnd & Hdom & Hto).
  eapply topo_ordered_acyclic; [done..|]. intros e He. apply Hdom. by apply within in He as [_ ?].
Qed.

(** The only error [topoSort] can return is the cycle. *)
Lemma topoSort_Err e : topoSort nodeByID edges = Err e → e = err_cycle.
Proof.
  unfold topoSort. destruct topo_loop_total as (order & -> & _).
  case_match; naive_solver.
Qed.
End result.

End Topo.

(** ** Correctness of [maxDepth] *)

Module Depth.

(** A dependency chain: consecutive nodes are joined by an edge. *)
Fixpoint chain (edges : list PlanEdgeSpec) (l : list string) : Prop :=
  match l with
  | [] => True
  | u :: rest =>
      match rest with
      | [] => True
      | v :: _ => depends edges u v ∧ chain edges rest
      end
  end.

(** [edgesByFrom] lists the edges of [edges] under their source. *)
Definition indexes_from (edgesByFrom : gmap string (list PlanEdgeSpec))
    (edges : list PlanEdgeSpec) : Prop :=
  ∀ u e, e ∈ get_list edgesByFrom u ↔ e ∈ edges ∧ edge_From e = u.

Lemma chain_snoc edges l u v :
  chain edges (l ++ [u; v]) ↔ chain edges (l ++ [u]) ∧ depends edges u v.
Proof.
  induction l as [|w l IH]; cbn; [tauto|].
  destruct l as [|x l]; cbn in *; tauto.
Qed.

Lemma chain_app_l edges l1 l2 : chain edges (l1 ++ l2) → chain edges l1.
Proof.
  induction l1 as [|u l1 IH]; [done|]. destruct l1 as [|v l1]; [done|].
  cbn in *. tauto.
Qed.

Lemma chain_ancestors edges l v u :
  chain edges (l ++ [v]) → u ∈ l → tc (depends edges) u v.
Proof.
  revert v. induction l as [|w l IH] using rev_ind; intros v Hc Hu.
  { by apply not_elem_of_nil in Hu. }
  rewrite <-app_assoc in Hc. apply chain_snoc in Hc as [Hc Hwv].
  apply elem_of_app in Hu as [Hu| ->%list_elem_of_singleton]; [|by apply tc_once].
  eapply tc_r; [by apply IH|done].
Qed.

Section depth.
Context (edges : list PlanEdgeSpec) (edgesByFrom : gmap string (list PlanEdgeSpec)).
Context (indexed : indexes_from edgesByFrom edges).

Definition depth_of (depth : gmap string Z) (v : string) : Z := default 0%Z (depth !! v).

Lemma relax_lookup current depth e v :
  depth_of (relax current depth e) v =
    if decide (v = edge_To e) then Z.max (depth_of depth v) (current + 1) else depth_of depth v.
Proof.
  unfold relax, depth_of. case_decide as Hv; [subst|].
  - destruct (Z.ltb_spec (default 0%Z (depth !! edge_To e)) (current + 1));
      rewrite ?lookup_insert_eq; cbn; lia.
  - case_match; [by rewrite lookup_insert_ne|done].
Qed.

Lemma relax_all_lookup current depth es v :
  depth_of (foldl (relax current) depth es) v =
    if decide (v ∈ edge_To <$> es) then Z.max (depth_of depth v) (current + 1)
    else depth_of depth v.
Proof.
  revert depth. induction es as [|e es IH]; intros depth; cbn.
  { rewrite decide_False; [done|apply not_elem_of_nil]. }
  rewrite IH, relax_lookup. repeat case_decide; set_solver by lia.
Qed.

(** After the nodes of [done]: a recorded depth has a chain of that many edges,
    and bounds every chain that runs through [done]. *)
Record depth_state (done : list string) (depth : gmap string Z) (maxValue : Z) : Prop := {
  ds_sound : ∀ v, ∃ l, chain edges (l ++ [v]) ∧ Z.of_nat (length l) = depth_of depth v;
  ds_bound : ∀ l v, chain edges (l ++ [v]) → (∀ u, u ∈ l → u ∈ done) →
    (Z.of_nat (length l) ≤ depth_of depth v)%Z;
  ds_max_sound : ∃ l v, chain edges (l ++ [v]) ∧ Z.of_nat (length l) = maxValue;
  ds_max_bound : ∀ l v, chain edges (l ++ [v]) → (∀ u, u ∈ l ++ [v] → u ∈ done) →
    (Z.of_nat (length l) ≤ maxValue)%Z;
}.

(** Everything before the last node of a chain comes earlier in the order. *)
Lemma chain_before order before v after l u :
  topo_ordered edges order → order = before ++ v :: after →
  chain edges (l ++ [v]) → u ∈ l → u ∈ before.
Proof.
  intros Hto. revert before v after. induction l as [|x l IH] using rev_ind;
    intros before v after Heq Hch Hu; [by apply not_elem_of_nil in Hu|].
  rewrite <-app_assoc in Hch. apply chain_snoc in Hch as [Hch Hxv].
  assert (x ∈ before) as Hx by (by eapply Hto).
  apply elem_of_app in Hu as [Hu| ->%list_elem_of_singleton]; [|done].
  apply list_elem_of_split in Hx as (b1 & b2 & ->).
  apply elem_of_app. left. eapply (IH b1 x); [by rewrite Heq, <-app_assoc|done..].
Qed.

Section step.
Context (done : list string) (c : string) (depth : gmap string Z) (maxValue : Z).
Context (nodup : NoDup (done ++ [c])) (ordered : topo_ordered edges (done ++ [c])).
Context (state : depth_state done depth maxValue).

Lemma current_fresh : c ∉ done.
Proof.
  apply NoDup_app in nodup as (_ & Hdis & _). intros Hd. by eapply Hdis; [|left].
Qed.

Lemma chain_to_current l u : chain edges (l ++ [c]) → u ∈ l → u ∈ done.
Proof. intros. by eapply (chain_before (done ++ [c]) done c []). Qed.

Lemma chain_to_done l v u : v ∈ done → chain edges (l ++ [v]) → u ∈ l → u ∈ done.
Proof.
  intros (b & a & Hdone)%list_elem_of_split Hch Hu.
  assert (u ∈ b); [|rewrite Hdone; set_solver].
  eapply (chain_before (done ++ [c]) b v (a ++ [c])); [done| |done..].
  by rewrite Hdone, <-app_assoc.
Qed.

Lemma current_bound l : chain edges (l ++ [c]) → (Z.of_nat (length l) ≤ depth_of depth c)%Z.
Proof.
  intros Hch. apply (ds_bound _ _ _ state); [done|]. intros u. by apply chain_to_current.
Qed.

Lemma outgoing v : (v ∈ edge_To <$> get_list edgesByFrom c) ↔ depends edges c v.
Proof.
  rewrite list_elem_of_fmap. unfold depends. setoid_rewrite (indexed c). naive_solver.
Qed.

Let depth' : gmap string Z := foldl (relax (depth_of depth c)) depth (get_list edgesByFrom c).

Lemma step_sound v : ∃ l, chain edges (l ++ [v]) ∧ Z.of_nat (length l) = depth_of depth' v.
Proof.
  unfold depth'. rewrite relax_all_lookup. pose proof (ds_sound _ _ _ state) as Hs.
  case_decide as Hv; [|by apply Hs]. apply outgoing in Hv.
  destruct (Z.max_spec (depth_of depth v) (depth_of depth c + 1)) as [[_ ->]|[_ ->]]; [|apply Hs].
  destruct (Hs c) as (l & Hl & Hlen). exists (l ++ [c]). split.
  - rewrite <-app_assoc. by apply chain_snoc.
  - rewrite length_app. cbn. lia.
Qed.

Lemma step_bound l v :
  chain edges (l ++ [v]) → (∀ u, u ∈ l → u ∈ done ++ [c]) →
  (Z.of_nat (length l) ≤ depth_of depth' v)%Z.
Proof.
  intros Hch Hin. unfold depth'. rewrite relax_all_lookup.
  destruct (decide (c ∈ l)) as [Hcl|Hcl].
  - destruct l as [|x l _] using rev_ind; [by apply not_elem_of_nil in Hcl|].
    rewrite <-app_assoc in Hch. apply chain_snoc in Hch as [Hch Hxv].
    destruct (decide (x = c)) as [->|Hxc].
    + rewrite decide_True by (by apply outgoing).
      apply current_bound in Hch. rewrite length_app. cbn. lia.
    + exfalso. apply current_fresh. assert (x ∈ done) as Hx.
      { assert (x ∈ done ++ [c]) by (apply Hin; set_solver). set_solver. }
      eapply (chain_to_done l x); [done..|set_solver].
  - assert (Z.of_nat (length l) ≤ depth_of depth v)%Z.
    { apply (ds_bound _ _ _ state); [done|]. intros u Hu. specialize (Hin u Hu). set_solver. }
    case_decide; lia.
Qed.

Lemma depth_step_spec :
  depth_state (done ++ [c]) (depth_step edgesByFrom (depth, maxValue) c).1
    (depth_step edgesByFrom (depth, maxValue) c).2.
Proof.
  cbn. fold (depth_of depth c). split.
  - apply step_sound.
  - apply step_bound.
  - case_match; [|apply (ds_max_sound _ _ _ state)].
    destruct (ds_sound _ _ _ state c) as (l & ? & ?). by exists l, c.
  - intros l v Hch Hin. destruct (decide (v = c)) as [->|Hvc].
    + apply current_bound in Hch. destruct (Z.ltb_spec maxValue (depth_of depth c)); lia.
    + assert (v ∈ done) as Hv by (assert (v ∈ done ++ [c]) by (apply Hin; set_solver); set_solver).
      assert (Z.of_nat (length l) ≤ maxValue)%Z.
      { apply (ds_max_bound _ _ _ state l v Hch).
        intros u [Hu| ->%list_elem_of_singleton]%elem_of_app; [by eapply chain_to_done|done]. }
      destruct (Z.ltb_spec maxValue (depth_of depth c)); lia.
Qed.
End step.

Lemma depth_loop_spec order done depth maxValue :
  NoDup (done ++ order) → topo_ordered edges (done ++ order) →
  depth_state done depth maxValue →
  depth_state (done ++ order) (foldl (depth_step edgesByFrom) (depth, maxValue) order).1
    (foldl (depth_step edgesByFrom) (depth, maxValue) order).2.
Proof.
  revert done depth maxValue. induction order as [|c order IH]; intros done depth maxValue Hnd Hto Hst.
  { by rewrite app_nil_r. }
  cbn [foldl]. destruct (depth_step edgesByFrom (depth, maxValue) c) as [depth' max'] eqn:Hstep.
  assert (done ++ c :: order = (done ++ [c]) ++ order) as Heq by (by rewrite <-app_assoc).
  rewrite Heq in *. apply IH; [done..|].
  rewrite <-(f_equal fst Hstep : _ = depth'), <-(f_equal snd Hstep : _ = max').
  apply depth_step_spec; [by apply NoDup_app in Hnd as [? _]| |done].
  intros b v a Hb u Hu. eapply (Hto b v (a ++ order)); [|done].
  by rewrite Hb, <-app_assoc.
Qed.

(** [maxDepth] bounds every chain and is reached by one, when [order] is a
    topological order of the nodes. *)
Lemma maxDepth_spec order :
  NoDup order → topo_ordered edges order → order ≠ [] →
  (∀ l, chain edges l → (∀ u, u ∈ l → u ∈ order) →
     (Z.of_nat (length l) ≤ maxDepth order edgesByFrom)%Z) ∧
  (∃ l, chain edges l ∧ Z.of_nat (length l) = maxDepth order edgesByFrom).
Proof.
  intros Hnd Hto Hne. unfold maxDepth.
  destruct (foldl (depth_step edgesByFrom) (∅, 0%Z) order) as [depth maxValue] eqn:Hf.
  assert (depth_state order depth maxValue) as [_ _ (l & v & Hch & Hlen) Hmb].
  { change order with ([] ++ order).
    rewrite <-(f_equal fst Hf : _ = depth), <-(f_equal snd Hf : _ = maxValue).
    apply depth_loop_spec; [done..|]. split.
    - intros v. by exists [].
    - intros [|u l] v _ Hin; [done|]. by specialize (Hin u ltac:(by left)); apply not_elem_of_nil in Hin.
    - destruct order as [|v ?]; [done|]. by exists [], v.
    - intros l v _ Hin. specialize (Hin v ltac:(set_solver)). by apply not_elem_of_nil in Hin. }
  split.
  - intros k Hk Hin. destruct k as [|w k _] using rev_ind.
    { cbn. lia. }
    specialize (Hmb k w Hk Hin). rewrite length_app. cbn. lia.
  - exists (l ++ [v]). split; [done|]. rewrite length_app. cbn. lia.
Qed.
End depth.

End Depth.

(** ** Correctness of [hasDependencyPath] *)

Module Reach.

(** [edgesByFrom] has an edge from [u] to [v]. *)
Definition hop (edgesByFrom : gmap string (list PlanEdgeSpec)) (u v : string) : Prop :=
  v ∈ edge_To <$> get_list edgesByFrom u.

Lemma hop_targets edgesByFrom u v : hop edgesByFrom u v → v ∈ edge_targets edgesByFrom.
Proof.
  unfold hop, get_list, edge_targets. intros Hv.
  destruct (edgesByFrom !! u) as [es|] eqn:Hu; [|by apply not_elem_of_nil in Hv].
  cbn in Hv. rewrite <-(insert_delete_id _ _ _ Hu).
  rewrite map_fold_insert_L; [set_solver|set_solver|apply lookup_delete_eq].
Qed.

Lemma reach_scan_None edges to visited queue :
  reach_scan edges to visited queue = None ↔ to ∈ edge_To <$> edges.
Proof.
  revert visited queue. induction edges as [|e edges IH]; intros visited queue; cbn.
  { split; [done|by intros ?%not_elem_of_nil]. }
  rewrite elem_of_cons. case_bool_decide as He; [naive_solver|].
  case_bool_decide; rewrite IH; naive_solver.
Qed.

(** A completed scan has marked every target, and enqueued exactly the targets
    that were not marked. *)
Lemma reach_scan_Some edges to visited queue visited' queue' :
  reach_scan edges to visited queue = Some (visited', queue') →
  ∃ new, queue' = queue ++ new ∧ visited' = list_to_set new ∪ visited ∧ NoDup new ∧
    (∀ v, v ∈ new → (v ∉ visited) ∧ v ∈ edge_To <$> edges) ∧
    (∀ v, v ∈ edge_To <$> edges → v ∈ visited' ∧ v ≠ to).
Proof.
  revert visited queue. induction edges as [|e edges IH]; intros visited queue; cbn.
  { intros [= <- <-]. exists []. rewrite app_nil_r.
    split_and!; [done|set_solver|constructor|set_solver|set_solver]. }
  case_bool_decide as He; [done|]. case_bool_decide as Hvis; intros Hscan; apply IH in Hscan.
  - destruct Hscan as (new & -> & -> & Hnd & Hnew & Hall). exists new. set_solver.
  - destruct Hscan as (new & -> & -> & Hnd & Hnew & Hall). exists (edge_To e :: new).
    split_and!; [by rewrite <-app_assoc|set_solver| |set_solver|set_solver].
    constructor; [|done]. intros Hin. apply Hnew in Hin. set_solver.
Qed.

Section reach.
Context (edgesByFrom : gmap string (list PlanEdgeSpec)) (from to : string).

(** The search so far: every marked node is reachable, the queue is marked, and a
    marked node that has left the queue has only marked targets, none of them
    [to]. *)
Record reach_state (visited : gset string) (queue : list string) : Prop := {
  rs_source : from ∈ visited;
  rs_reach : ∀ v, v ∈ visited → rtc (hop edgesByFrom) from v;
  rs_within : visited ⊆ {[from]} ∪ edge_targets edgesByFrom;
  rs_queue : ∀ v, v ∈ queue → v ∈ visited;
  rs_closed : ∀ u v, u ∈ visited → u ∉ queue → hop edgesByFrom u v → v ∈ visited ∧ v ≠ to;
}.

(** Targets not marked yet, plus the nodes still to be processed. *)
Definition reach_measure (visited : gset string) (queue : list string) : nat :=
  size (edge_targets edgesByFrom ∖ visited) + length queue.

Lemma reach_step visited current queue visited' queue' :
  reach_state visited (current :: queue) →
  reach_scan (get_list edgesByFrom current) to visited queue = Some (visited', queue') →
  reach_state visited' queue' ∧
    reach_measure visited' queue' < reach_measure visited (current :: queue).
Proof.
  intros [Hsrc Hr Hw Hq Hcl] (new & -> & -> & Hnd & Hnew & Hall)%reach_scan_Some.
  assert (∀ v, v ∈ new → v ∈ edge_targets edgesByFrom) as Htgt.
  { intros v Hv. eapply (hop_targets _ current). by apply Hnew. }
  assert (current ∈ visited) as Hcur by (apply Hq; left).
  split; [split|].
  - set_solver.
  - intros v [Hv%elem_of_list_to_set|Hv]%elem_of_union; [|by apply Hr].
    eapply rtc_r; [by apply Hr|]. by apply Hnew.
  - set_solver.
  - set_solver.
  - intros u v Hu Huq Huv. rewrite elem_of_union, elem_of_list_to_set in Hu.
    destruct (decide (u = current)) as [->|Hne]; [by apply Hall|].
    destruct (Hcl u v) as [? ?]; [set_solver|set_solver|done|]. split; [set_solver|done].
  - unfold reach_measure. rewrite length_app. cbn [length].
    assert (edge_targets edgesByFrom ∖ visited =
      list_to_set new ∪ edge_targets edgesByFrom ∖ (list_to_set new ∪ visited)) as ->.
    { apply set_eq. intros v. destruct (decide (v ∈ new)); set_solver. }
    pose proof (size_union (C := gset string) (list_to_set new)
      (edge_targets edgesByFrom ∖ (list_to_set new ∪ visited)) ltac:(set_solver)) as Hsz.
    rewrite size_list_to_set in Hsz by done. lia.
Qed.

Lemma reach_found visited current queue :
  reach_state visited (current :: queue) →
  reach_scan (get_list edgesByFrom current) to visited queue = None →
  tc (hop edgesByFrom) from to.
Proof.
  intros [_ Hr _ Hq _] Hto%reach_scan_None.
  eapply tc_rtc_l; [apply Hr, Hq; left|]. by apply tc_once.
Qed.

(** An exhausted search has marked a set that is closed and avoids [to]. *)
Lemma reach_exhausted visited : reach_state visited [] → ¬ tc (hop edgesByFrom) from to.
Proof.
  intros [Hsrc _ _ _ Hcl] Htc.
  assert (∀ u v, tc (hop edgesByFrom) u v → u ∈ visited → v ∈ visited ∧ v ≠ to) as Hstep.
  { induction 1 as [u v Huv|u w v Huw _ IH]; intros Hu;
      [|apply IH]; apply (Hcl u); try done; apply not_elem_of_nil. }
  by destruct (Hstep _ _ Htc Hsrc) as [_ ?].
Qed.

Lemma reach_loop_spec fuel visited queue :
  reach_state visited queue → reach_measure visited queue ≤ fuel →
  ∃ b, reach_loop fuel edgesByFrom to visited queue = Some b ∧
    (b = true ↔ tc (hop edgesByFrom) from to).
Proof.
  revert visited queue. induction fuel as [|fuel IH];
    intros visited [|current queue] Hst Hfuel; cbn.
  1,3: exists false; split; [done|]; apply reach_exhausted in Hst; naive_solver.
  - unfold reach_measure in Hfuel. cbn in Hfuel. lia.
  - destruct (reach_scan _ to visited queue) as [[visited' queue']|] eqn:Hscan.
    + destruct (reach_step _ _ _ _ _ Hst Hscan) as [Hst' Hlt]. apply IH; [done|lia].
    + exists true. split; [done|]. split; [|done]. intros _. by eapply reach_found.
Qed.

Lemma reach_init : reach_state {[from]} [from].
Proof.
  split.
  - set_solver.
  - intros v ->%elem_of_singleton. apply rtc_refl.
  - set_solver.
  - intros v ->%list_elem_of_singleton. set_solver.
  - intros u v ->%elem_of_singleton Hu. exfalso. apply Hu. left.
Qed.

Lemma reach_loop_total :
  ∃ b, reach_loop (S (size (edge_targets edgesByFrom))) edgesByFrom to {[from]} [from] = Some b ∧
    (b = true ↔ tc (hop edgesByFrom) from to).
Proof.
  apply reach_loop_spec; [apply reach_init|]. unfold reach_measure. cbn.
  assert (size (edge_targets edgesByFrom ∖ {[from]}) ≤ size (edge_targets edgesByFrom)); [|lia].
  apply subseteq_size. set_solver.
Qed.

Lemma hasDependencyPath_spec :
  hasDependencyPath edgesByFrom from to = true ↔ tc (hop edgesByFrom) from to.
Proof. unfold hasDependencyPath. destruct reach_loop_total as (b & -> & Hb). done. Qed.
End reach.

(** When the index lists the edges of the plan, a hop is a dependency. *)
Lemma hop_depends edgesByFrom edges u v :
  Depth.indexes_from edgesByFrom edges → hop edgesByFrom u v ↔ depends edges u v.
Proof.
  intros Hidx. unfold hop, depends. rewrite list_elem_of_fmap. setoid_rewrite (Hidx u).
  naive_solver.
Qed.

Lemma hop_depends_tc edgesByFrom edges u v :
  Depth.indexes_from edgesByFrom edges → tc (hop edgesByFrom) u v ↔ tc (depends edges) u v.
Proof.
  intros Hidx. split; induction 1 as [? ? H|? ? ? H _ IH];
    try (by apply tc_once, (hop_depends _ _ _ _ Hidx));
    (eapply tc_l; [by apply (hop_depends _ _ _ _ Hidx)|done]).
Qed.

End Reach.
