(* ===== verification/Scope.v ===== *)
(** * Tenant scope, signal and control validation

    internal/usecase/agentosplan/scope.go (tenant scope of references, queries and
    appended events) and signals.go (signals owned by the plan control plane), and the
    control requests of agentos/core/control.go.  A Go pointer that may be nil is an
    [option]. *)

From S2P Require Import Prelude Types.

(** ** scope.go *)

Definition ValidatePlanRef (ref : PlanRef) : result unit :=
  fail_if (pref_PlanID ref == "") (Errorf ErrInvalidPlanScope "plan id is required");;
  fail_if (pref_AccountID ref == "") (Errorf ErrInvalidPlanScope "account id is required");;
  fail_if (pref_ProjectID ref == "") (Errorf ErrInvalidPlanScope "project id is required").

Definition ValidateRunPlanScope (spec : option RunPlanSpec) : result unit :=
  match spec with
  | None => Err (Errorf ErrInvalidRunPlan "run plan spec is required")
  | Some spec =>
      fail_if (spec_PlanID spec == "") (Errorf ErrInvalidRunPlan "plan id is required");;
      fail_if (spec_AccountID spec == "") (Errorf ErrInvalidRunPlan "account id is required");;
      fail_if (spec_ProjectID spec == "") (Errorf ErrInvalidRunPlan "project id is required")
  end.

Definition ValidatePlanStreamScope (scope : option PlanStreamScope) : result unit :=
  match scope with
  | None => Err (Errorf ErrInvalidPlanScope "plan stream scope is required")
  | Some s =>
      ValidatePlanRef {| pref_PlanID := ss_PlanID s; pref_AccountID := ss_AccountID s;
                         pref_ProjectID := ss_ProjectID s |}
  end.

Definition ValidatePlanEventScope (scope : option PlanEventScope) : result unit :=
  match scope with
  | None => Err (Errorf ErrInvalidPlanScope "plan event scope is required")
  | Some s =>
      ValidatePlanRef {| pref_PlanID := es_PlanID s; pref_AccountID := es_AccountID s;
                         pref_ProjectID := es_ProjectID s |};;
      fail_if (es_Limit s <? 0)%Z (Errorf ErrInvalidPlanScope "event limit must be non-negative")
  end.

Definition ValidatePlanDebugTraceScope (scope : option PlanDebugTraceScope) : result unit :=
  match scope with
  | None => Err (Errorf ErrInvalidPlanScope "plan debug trace scope is required")
  | Some s =>
      ValidatePlanRef {| pref_PlanID := dts_PlanID s; pref_AccountID := dts_AccountID s;
                         pref_ProjectID := dts_ProjectID s |};;
      fail_if (dts_Limit s <? 0)%Z
        (Errorf ErrInvalidPlanScope "debug trace limit must be non-negative")
  end.

Definition ValidatePlanAuditScope (scope : option PlanAuditScope) : result unit :=
  match scope with
  | None => Err (Errorf ErrInvalidPlanScope "plan audit scope is required")
  | Some s =>
      ValidatePlanRef {| pref_PlanID := aus_PlanID s; pref_AccountID := aus_AccountID s;
                         pref_ProjectID := aus_ProjectID s |};;
      fail_if (aus_Limit s <? 0)%Z (Errorf ErrInvalidPlanScope "audit limit must be non-negative")
  end.

Definition ValidatePlanArtifactScope (scope : option PlanArtifactScope) : result unit :=
  match scope with
  | None => Err (Errorf ErrInvalidPlanScope "plan artifact scope is required")
  | Some s =>
      ValidatePlanRef {| pref_PlanID := ars_PlanID s; pref_AccountID := ars_AccountID s;
                         pref_ProjectID := ars_ProjectID s |};;
      fail_if (ars_Limit s <? 0)%Z
        (Errorf ErrInvalidPlanScope "artifact limit must be non-negative")
  end.

Definition err_plan_route : go_error := Errorf ErrPlanRouteNotFound "%s".

Definition ValidatePlanTenantAccess (ref : PlanRef) (spec : option RunPlanSpec) : result unit :=
  ValidatePlanRef ref;;
  match spec with
  | None => Err err_plan_route
  | Some spec =>
      fail_if (spec_PlanID spec != pref_PlanID ref) err_plan_route;;
      fail_if (spec_AccountID spec != pref_AccountID ref) err_plan_route;;
      fail_if (spec_ProjectID spec != pref_ProjectID ref) err_plan_route
  end.

Definition ScopePlanEventToSpec (event : option PlanEvent) (spec : option RunPlanSpec) :
    result PlanEvent :=
  ValidateRunPlanScope spec;;
  match spec, event with
  | None, _ => Err (Errorf ErrInvalidRunPlan "run plan spec is required")
  | _, None => Err (Errorf ErrInvalidPlanEvent "plan event is required")
  | Some spec, Some scoped =>
      fail_if (ev_PlanID scoped == "") (Errorf ErrInvalidPlanEvent "plan id is required");;
      fail_if (ev_PlanID scoped != spec_PlanID spec)
        (Errorf ErrInvalidPlanEvent "event plan %q does not match stored plan %q");;
      fail_if ((ev_AccountID scoped != "") && (ev_AccountID scoped != spec_AccountID spec))
        (Errorf ErrInvalidPlanEvent "event account %q does not match stored plan account %q");;
      fail_if ((ev_ProjectID scoped != "") && (ev_ProjectID scoped != spec_ProjectID spec))
        (Errorf ErrInvalidPlanEvent "event project %q does not match stored plan project %q");;
      Ok {| scoped with ev_AccountID := spec_AccountID spec;
                        ev_ProjectID := spec_ProjectID spec |}
  end.

(** ** signals.go *)

(** [signal.Payload[key].(string)]: present and of string type. *)
Definition payload_string (signal : Signal) (key : string) : option string :=
  match map_get (sig_Payload signal) key with
  | Some (AString s) => Some s
  | _ => None
  end.

Definition PlanSignalNodeID (signal : option Signal) : result string :=
  match signal with
  | None => Err (Errorf ErrInvalidSignal "signal is required")
  | Some signal =>
      match payload_string signal SignalPayloadNodeID with
      | Some nodeID =>
          if nodeID == "" then Err (Errorf ErrInvalidSignal "payload.%s is required")
          else Ok nodeID
      | None => Err (Errorf ErrInvalidSignal "payload.%s is required")
      end
  end.

Definition PlanSignalReason (signal : option Signal) : string :=
  match signal with
  | None => ""
  | Some signal => default "" (payload_string signal SignalPayloadReason)
  end.

Definition supportedSignals : list string :=
  [SignalPlanApprove; SignalPlanReject; SignalUserMessage; SignalUserApproval;
   SignalUserReject; SignalToolResult; SignalHumanFeedback; SignalConfigPatch;
   SignalMemoryPatch].

Definition ValidatePlanSignal (signal : option Signal) : result unit :=
  match signal with
  | None => Err (Errorf ErrInvalidSignal "signal is required")
  | Some s =>
      fail_if (sig_Type s == "") (Errorf ErrInvalidSignal "type is required");;
      fail_if (sig_IdempotencyKey s == "")
        (Errorf ErrInvalidSignal "signal idempotency key is required");;
      fail_if (sig_ActorID s == "") (Errorf ErrInvalidSignal "signal actor id is required");;
      if sig_Type s == SignalPlanNodeRetry then (PlanSignalNodeID signal;; Ok tt)
      else if bool_decide (sig_Type s ∈ supportedSignals) then Ok tt
      else Err (Errorf ErrInvalidSignal "unsupported plan signal %q")
  end.

(** ** agentos/core/control.go *)

Definition ValidateControlRequest (req : option ControlRequest) : result unit :=
  match req with
  | None => Err (Errorf ErrInvalidControlOperation "control request is required")
  | Some req =>
      if bool_decide (ctl_Operation req ∈ [ControlPause; ControlResume; ControlCancel]) then Ok tt
      else Err (Errorf ErrInvalidControlOperation "%s")
  end.

(** ** Lemmas *)

Lemma ValidatePlanRef_Ok ref u :
  ValidatePlanRef ref = Ok u ↔
  pref_PlanID ref ≠ "" ∧ pref_AccountID ref ≠ "" ∧ pref_ProjectID ref ≠ "".
Proof.
  unfold ValidatePlanRef. rewrite bind_Ok. setoid_rewrite bind_Ok. setoid_rewrite fail_if_Ok.
  setoid_rewrite bool_decide_eq_false. naive_solver.
Qed.

Lemma ValidateRunPlanScope_Ok spec u :
  ValidateRunPlanScope (Some spec) = Ok u ↔
  spec_PlanID spec ≠ "" ∧ spec_AccountID spec ≠ "" ∧ spec_ProjectID spec ≠ "".
Proof.
  unfold ValidateRunPlanScope. rewrite bind_Ok. setoid_rewrite bind_Ok. setoid_rewrite fail_if_Ok.
  setoid_rewrite bool_decide_eq_false. naive_solver.
Qed.
