(* ===== verification/Contracts.v ===== *)
(** * Mapping and artifact contracts

    internal/usecase/agentosplan/mapping_contract.go (the shape of an input
    mapping) and artifact_contract.go (declared outputs, published artifacts,
    schema references), with the interfaces of contract.go they use.  The JSON
    Schema library is the class [JSONSchema]. *)

From S2P Require Import Prelude Types.

(** ** Interfaces *)

(** github.com/google/jsonschema-go, as used by [resolveRawSchema] and
    [validateRawSchema]: a schema document resolves or not, and a resolved schema
    accepts a value or not. *)
Class JSONSchema := {
  Resolved : Type;
  resolveRawSchema : string → result Resolved;
  schema_Validate : Resolved → any → result unit;
}.

Definition validateRawSchema `{!JSONSchema} (raw : string) (value : any) : result unit :=
  resolved ← resolveRawSchema raw;
  schema_Validate resolved value.

Definition validateRawSchemaSyntax `{!JSONSchema} (raw : string) : result unit :=
  resolveRawSchema raw;; Ok tt.

(** [ArtifactSchemaCatalog.GetArtifactSchema]: the document, or absent. *)
Definition ArtifactSchemaCatalog : Type := string → result (option string).

(** [ArtifactStore.Get], the only operation the contracts use: the stored payload
    of an artifact, [None] for a nil payload. *)
Definition ArtifactStoreGet : Type := PlanArtifactScope → result (ArtifactRef * option any).

(** ** mapping_contract.go *)

Inductive inputMappingSourceMode :=
  | inputMappingSourceExpression
  | inputMappingSourceArtifact
  | inputMappingSourcePlanInput.

Definition validateInputMappingShape (mapping : InputMapping) : result inputMappingSourceMode :=
  fail_if (im_Target mapping == "")
    (Errorf ErrInvalidRunPlan "%s input mapping target is required");;
  let hasExpression := im_Expression mapping != "" in
  let hasArtifact := im_SourceArtifact mapping != "" in
  let hasSourceNode := im_SourceNodeID mapping != "" in
  let hasSourcePath := im_SourcePath mapping != "" in
  if hasExpression then
    fail_if (hasArtifact || hasSourceNode || hasSourcePath)
      (Errorf ErrInvalidRunPlan "%s input mapping %q mixes expression with source fields");;
    Ok inputMappingSourceExpression
  else if hasArtifact then
    fail_if (negb hasSourceNode)
      (Errorf ErrInvalidArtifact
         "%s input mapping %q source_node_id is required for source_artifact %q");;
    Ok inputMappingSourceArtifact
  else if hasSourceNode then
    Err (Errorf ErrInvalidRunPlan "%s input mapping %q source_node_id requires source_artifact")
  else if hasSourcePath then Ok inputMappingSourcePlanInput
  else Err (Errorf ErrInvalidRunPlan "%s input mapping %q source is required").

(** ** artifact_contract.go *)

(** The error wraps [ErrInvalidArtifact] for every format. *)
Definition artifactContractError (format : string) : go_error := Errorf ErrInvalidArtifact format.

(** One iteration of [ValidateArtifactSpecs]: [seen] holds the names so far. *)
Definition validateArtifactSpec (seen : gset string) (spec : ArtifactSpec) : result (gset string) :=
  fail_if (as_Name spec == "") (artifactContractError "artifact name is required");;
  fail_if (as_Kind spec == "") (artifactContractError "artifact %q kind is required");;
  fail_if (bool_decide (as_Name spec ∈ seen)) (artifactContractError "duplicate artifact %q");;
  Ok ({[as_Name spec]} ∪ seen).

Definition ValidateArtifactSpecs (specs : list ArtifactSpec) : result unit :=
  foldM validateArtifactSpec ∅ specs;; Ok tt.

Definition validatePublishedArtifact (seenRefs : gset string) (ref : ArtifactRef) :
    result (gset string) :=
  fail_if (ref_Name ref == "") (artifactContractError "published artifact without name");;
  fail_if (ref_Kind ref == "") (artifactContractError "published artifact %q kind is required");;
  fail_if (bool_decide (ref_Name ref ∈ seenRefs))
    (artifactContractError "duplicate published artifact %q");;
  Ok ({[ref_Name ref]} ∪ seenRefs).

Definition validatePublishedArtifacts (refs : list ArtifactRef) : result (gset string) :=
  foldM validatePublishedArtifact ∅ refs.

Definition buildSpecByName (specs : list ArtifactSpec) : gmap string ArtifactSpec :=
  foldl (λ m spec, <[as_Name spec := spec]> m) ∅ specs.

Definition matchRefAgainstSpecs (specByName : gmap string ArtifactSpec) (ref : ArtifactRef) :
    result unit :=
  match specByName !! ref_Name ref with
  | None => Err (artifactContractError "published undeclared artifact %q")
  | Some spec =>
      fail_if (ref_Kind ref != as_Kind spec)
        (artifactContractError "artifact %q kind %q does not match declared kind %q");;
      fail_if ((as_MediaType spec != "") && (ref_MediaType ref != as_MediaType spec))
        (artifactContractError "artifact %q media type %q does not match declared media type %q")
  end.

Definition matchRefsAgainstSpecs (specByName : gmap string ArtifactSpec) (refs : list ArtifactRef) :
    result unit :=
  forM (matchRefAgainstSpecs specByName) refs.

(** The code ranges over the map in an unspecified order; every error it can
    return is the same value, so the order of the entries does not matter. *)
Definition checkRequiredArtifacts (specByName : gmap string ArtifactSpec) (seenRefs : gset string) :
    result unit :=
  forM (λ kv, fail_if (as_Required kv.2 && negb (bool_decide (as_Name kv.2 ∈ seenRefs)))
                (artifactContractError "required output artifact %q was not published"))
    (map_to_list specByName).

Definition ValidateArtifactsAgainstSpecs (specs : list ArtifactSpec) (refs : list ArtifactRef) :
    result unit :=
  ValidateArtifactSpecs specs;;
  seenRefs ← validatePublishedArtifacts refs;
  if bool_decide (specs = []) then Ok tt else
  let specByName := buildSpecByName specs in
  matchRefsAgainstSpecs specByName refs;;
  checkRequiredArtifacts specByName seenRefs.

Definition artifactSchema (catalog : option ArtifactSchemaCatalog) (spec : ArtifactSpec) :
    result string :=
  match catalog with
  | None =>
      Err (artifactContractError "artifact %q schema_ref %q requires an artifact schema catalog")
  | Some get =>
      raw ← get (as_SchemaRef spec);
      match raw with
      | None => Err (artifactContractError "artifact %q schema_ref %q was not found")
      | Some raw => Ok raw
      end
  end.

(** [err] replaced by [artifactContractError(...)], success kept. *)
Definition contract_wrap (r : result unit) (format : string) : result unit :=
  match r with
  | Ok u => Ok u
  | Err _ => Err (artifactContractError format)
  end.

Definition ValidateArtifactSchemaRefs `{!JSONSchema} (catalog : option ArtifactSchemaCatalog)
    (specs : list ArtifactSpec) : result unit :=
  forM (λ spec,
    if as_SchemaRef spec == "" then Ok tt else
    raw ← artifactSchema catalog spec;
    contract_wrap (validateRawSchemaSyntax raw) "artifact %q schema_ref %q is invalid: %s") specs.

(** [findArtifact] of mapping.go: the first reference with the name, of the node
    when one is named. *)
Definition findArtifact (refs : list ArtifactRef) (nodeID name : string) : option ArtifactRef :=
  list_find (λ ref, ref_Name ref = name ∧ (nodeID = "" ∨ ref_NodeID ref = nodeID)) refs ≫=
    λ found, Some found.2.

Definition storedArtifactPayload (get : ArtifactStoreGet) (plan : RunPlanSpec) (ref : ArtifactRef) :
    result (option any) :=
  found ← get {| ars_PlanID := spec_PlanID plan; ars_AccountID := spec_AccountID plan;
                 ars_ProjectID := spec_ProjectID plan; ars_NodeID := ""; ars_RunID := "";
                 ars_ArtifactID := ref_ArtifactID ref; ars_Limit := 0 |};
  Ok found.2.

Definition validateArtifactPayloadAgainstSchema `{!JSONSchema} (store : option ArtifactStoreGet)
    (catalog : option ArtifactSchemaCatalog) (plan : RunPlanSpec) (spec : ArtifactSpec)
    (refs : list ArtifactRef) : result unit :=
  match findArtifact refs "" (as_Name spec) with
  | None => Ok tt
  | Some ref =>
      fail_if (ref_ArtifactID ref == "")
        (artifactContractError "artifact %q schema_ref %q requires an artifact id");;
      match store with
      | None => Err (artifactContractError "artifact %q schema_ref %q requires an artifact store")
      | Some get =>
          raw ← artifactSchema catalog spec;
          payload ← storedArtifactPayload get plan ref;
          match payload with
          | None => Err (artifactContractError "artifact %q schema_ref %q requires stored payload")
          | Some payload =>
              contract_wrap (validateRawSchema raw payload)
                "artifact %q payload does not match schema_ref %q: %s"
          end
      end
  end.

Definition ValidateArtifactPayloadsAgainstSchemas `{!JSONSchema} (store : option ArtifactStoreGet)
    (catalog : option ArtifactSchemaCatalog) (plan : RunPlanSpec) (node : PlanNodeSpec)
    (refs : list ArtifactRef) : result unit :=
  forM (λ spec,
    if as_SchemaRef spec == "" then Ok tt
    else validateArtifactPayloadAgainstSchema store catalog plan spec refs) (node_Outputs node).
