(* ===== verification/Validator.v ===== *)
(** * The plan validator

    internal/usecase/agentosplan/validator.go: a [RunPlanSpec] becomes an
    [ExecutablePlan] or a validation error; delta.go: the bounded expansion of a
    running plan.  The expression language (CEL) and the capability catalog are
    the interfaces of contract.go.

    [valid_spec] states what a valid plan is without reference to the code, and
    [Validate_iff] shows that [Validate] accepts exactly these specs;
    [Validate_executable] that what it returns is a correct executable view. *)

From S2P Require Import Prelude Types Graph Scope Contracts.

(** ** Interfaces of contract.go *)

(** Variables an expression is evaluated with ([map[string]any]). *)
Abbreviation Vars := (go_map any) (only parsing).

(** [ExpressionCompiler.Compile], with [Expression.Evaluate] as the result. *)
Definition ExpressionCompiler : Type := string → result (Vars → result bool).

(** [CapabilityCatalog.GetCapability]. *)
Definition CapabilityCatalog : Type := BackendRef → string → result (option Capability).

(** ** Data *)

Record Validator := {
  v_Expressions : option ExpressionCompiler;
  v_Capabilities : option CapabilityCatalog;
  v_ArtifactSchemas : option ArtifactSchemaCatalog;
}.

Record ExecutablePlan := {
  ep_Spec : RunPlanSpec;
  ep_NodeByID : gmap string PlanNodeSpec;
  ep_EdgesByTo : gmap string (list PlanEdgeSpec);
  ep_EdgesByFrom : gmap string (list PlanEdgeSpec);
  ep_Order : list string;
}.

Definition defaultMaxNodes : Z := 256.
Definition defaultMaxDepth : Z := 32.
Definition defaultMaxExpansions : Z := 64.
Definition defaultBatchInputKey : string := "items".

(** ** The envelope *)

Definition normalizePolicy (policy : PlanPolicy) : PlanPolicy :=
  {| policy with
     pol_MaxNodes := if (pol_MaxNodes policy <=? 0)%Z then defaultMaxNodes else pol_MaxNodes policy;
     pol_MaxDepth := if (pol_MaxDepth policy <=? 0)%Z then defaultMaxDepth else pol_MaxDepth policy;
     pol_MaxExpansions := if (pol_MaxExpansions policy <=? 0)%Z then defaultMaxExpansions
                          else pol_MaxExpansions policy |}.

Definition validatePlanEnvelope (spec : RunPlanSpec) : result PlanPolicy :=
  ValidateRunPlanScope (Some spec);;
  let policy := normalizePolicy (spec_Policy spec) in
  fail_if ((0 <? pol_MaxHistoryEvents policy) &&
           (pol_MaxHistoryEvents policy <? pol_ContinueAsNewEvents policy))%Z
    (Errorf ErrInvalidRunPlan "continue-as-new events %d exceeds max history events %d");;
  fail_if (length (spec_Nodes spec) == 0) (Errorf ErrInvalidRunPlan "nodes are required");;
  fail_if (pol_MaxNodes policy <? Z.of_nat (length (spec_Nodes spec)))%Z
    (Errorf ErrInvalidRunPlan "node count %d exceeds max %d");;
  Ok policy.

(** ** Nodes *)

Definition validateNodeIdentity (node : PlanNodeSpec) : result unit :=
  fail_if (node_NodeID node == "") (Errorf ErrInvalidRunPlan "node id is required");;
  fail_if (run_RunID (node_Run node) == "")
    (Errorf ErrInvalidRunSpec "node %q run id is required");;
  fail_if ((backend_Kind (run_Backend (node_Run node)) == "") ||
           (backend_Name (run_Backend (node_Run node)) == ""))
    (Errorf ErrInvalidBackendRef "node %q backend is required");;
  fail_if (negb (bool_decide (npol_Join (node_Policy node) ∈
                                [""; PlanJoinAll; PlanJoinAny; PlanJoinFirst])))
    (Errorf ErrInvalidRunPlan "node %q has invalid join strategy %q").

Definition compileExpression (v : Validator) (expression : string) : result unit :=
  match v_Expressions v with
  | Some compile => if expression == "" then Ok tt else compile expression;; Ok tt
  | None => Ok tt
  end.

Definition validateNodeExpressions (v : Validator) (node : PlanNodeSpec) : result unit :=
  forM (λ condition, map_err (wrap_error "node %q: %w") (compileExpression v condition))
    (node_Conditions node);;
  forM (λ mapping,
    mode ← validateInputMappingShape mapping;
    match mode with
    | inputMappingSourceExpression =>
        map_err (wrap_error "node %q input %q: %w") (compileExpression v (im_Expression mapping))
    | _ => Ok tt
    end) (node_Inputs node).

(** The length of an array or slice, [None] for any other value. *)
Definition batchSize (value : any) : option Z :=
  match value with
  | ASlice l => Some (Z.of_nat (length l))
  | AValue (VArtifacts l) => Some (Z.of_nat (length l))
  | AValue (VConditions l) => Some (Z.of_nat (length l))
  | _ => None
  end.

Definition validateNodeBatchLimits (node : PlanNodeSpec) (capability : Capability) : result unit :=
  if (lim_MaxBatchItems (cap_Limits capability) =? 0)%Z then Ok tt else
  let key := if lim_BatchInputKey (cap_Limits capability) == "" then defaultBatchInputKey
             else lim_BatchInputKey (cap_Limits capability) in
  match map_get (run_Input (node_Run node)) key with
  | None => Err (Errorf ErrInvalidRunPlan "node %q batch input %q is required")
  | Some value =>
      match batchSize value with
      | None => Err (Errorf ErrInvalidRunPlan "node %q batch input %q must be an array")
      | Some size =>
          fail_if (lim_MaxBatchItems (cap_Limits capability) <? size)%Z
            (Errorf ErrInvalidRunPlan "node %q batch input %q has %d items, exceeds max %d")
      end
  end.

Definition validateNodeCapability `{!JSONSchema} (v : Validator) (node : PlanNodeSpec) :
    result unit :=
  if node_Capability node == "" then Ok tt else
  match v_Capabilities v with
  | None => Err (Errorf ErrCapabilityNotFound "node %q capability catalog is required")
  | Some getCapability =>
      found ← getCapability (run_Backend (node_Run node)) (node_Capability node);
      match found with
      | None => Err (Errorf ErrCapabilityNotFound "node %q capability %s/%s/%s")
      | Some capability =>
          (if 0 <? String.length (cap_InputSchema capability) then
             map_err (λ _, Errorf ErrInvalidRunPlan "node %q input schema: %w")
               (validateRawSchema (cap_InputSchema capability)
                  (any_of_map (run_Input (node_Run node))))
           else Ok tt);;
          validateNodeBatchLimits node capability
      end
  end.

Definition validateNode `{!JSONSchema} (v : Validator) (node : PlanNodeSpec) : result unit :=
  validateNodeIdentity node;;
  validateNodeExpressions v node;;
  ValidateArtifactSpecs (node_Outputs node);;
  ValidateArtifactSchemaRefs (v_ArtifactSchemas v) (node_Outputs node);;
  validateNodeCapability v node.

(** One iteration of [validateNodes]. *)
Definition validateNodes_step `{!JSONSchema} (v : Validator)
    (nodeByID : gmap string PlanNodeSpec) (node : PlanNodeSpec) :
    result (gmap string PlanNodeSpec) :=
  validateNode v node;;
  fail_if (bool_decide (is_Some (nodeByID !! node_NodeID node)))
    (Errorf ErrInvalidRunPlan "duplicate node %q");;
  Ok (<[node_NodeID node := node]> nodeByID).

Definition validateNodes `{!JSONSchema} (v : Validator) (spec : RunPlanSpec) :
    result (gmap string PlanNodeSpec) :=
  foldM (validateNodes_step v) ∅ (spec_Nodes spec).

(** ** Edges *)

Definition validateEdgeIdentity (edge : PlanEdgeSpec) (nodeByID : gmap string PlanNodeSpec) :
    result unit :=
  fail_if ((edge_From edge == "") || (edge_To edge == ""))
    (Errorf ErrInvalidRunPlan "edge endpoints are required");;
  fail_if (bool_decide (nodeByID !! edge_From edge = None))
    (Errorf ErrInvalidRunPlan "edge from unknown node %q");;
  fail_if (bool_decide (nodeByID !! edge_To edge = None))
    (Errorf ErrInvalidRunPlan "edge to unknown node %q");;
  fail_if (edge_From edge == edge_To edge) (Errorf ErrInvalidRunPlan "self edge on node %q");;
  fail_if (negb (bool_decide (edge_On edge ∈
                  [""; EdgeOnSuccess; EdgeOnError; EdgeOnComplete; EdgeOnAlways])))
    (Errorf ErrInvalidRunPlan "edge %q has invalid trigger %q").

(** [edgeIDs] is updated in place by the code, returned here. *)
Definition validateUniqueEdgeID (edge : PlanEdgeSpec) (edgeIDs : gset string) :
    result (gset string) :=
  if edge_EdgeID edge == "" then Ok edgeIDs else
  fail_if (bool_decide (edge_EdgeID edge ∈ edgeIDs))
    (Errorf ErrInvalidRunPlan "duplicate edge %q");;
  Ok ({[edge_EdgeID edge]} ∪ edgeIDs).

(** The body of the mapping loop of [validateEdge]. *)
Definition validateEdgeMapping (edge : PlanEdgeSpec) (mapping : InputMapping) : result unit :=
  mode ← validateInputMappingShape mapping;
  match mode with
  | inputMappingSourceArtifact =>
      fail_if (im_SourceNodeID mapping != edge_From edge)
        (Errorf ErrInvalidRunPlan "edge %q mapping source must match edge source")
  | _ => Ok tt
  end.

Definition validateEdge (v : Validator) (edge : PlanEdgeSpec)
    (nodeByID : gmap string PlanNodeSpec) (edgeIDs : gset string) : result (gset string) :=
  validateEdgeIdentity edge nodeByID;;
  edgeIDs ← validateUniqueEdgeID edge edgeIDs;
  (if edge_Condition edge != "" then
     map_err (wrap_error "edge %q: %w") (compileExpression v (edge_Condition edge))
   else Ok tt);;
  forM (validateEdgeMapping edge) (edge_InputMapping edge);;
  Ok edgeIDs.

(** The three maps [validateEdges] fills. *)
Record edge_index := EdgeIndex {
  ei_from : gmap string (list PlanEdgeSpec);
  ei_to : gmap string (list PlanEdgeSpec);
  ei_ids : gset string;
}.

Definition validateEdges_step (v : Validator) (nodeByID : gmap string PlanNodeSpec)
    (idx : edge_index) (edge : PlanEdgeSpec) : result edge_index :=
  edgeIDs ← validateEdge v edge nodeByID (ei_ids idx);
  Ok (EdgeIndex (push (ei_from idx) (edge_From edge) edge)
        (push (ei_to idx) (edge_To edge) edge) edgeIDs).

Definition validateEdges `{!SliceSort} (v : Validator) (spec : RunPlanSpec)
    (nodeByID : gmap string PlanNodeSpec) :
    result (gmap string (list PlanEdgeSpec) * gmap string (list PlanEdgeSpec)) :=
  idx ← foldM (validateEdges_step v nodeByID) (EdgeIndex ∅ ∅ ∅) (spec_Edges spec);
  Ok (sortEdges (ei_from idx), sortEdges (ei_to idx)).

(** ** Input mapping contracts *)

Definition nodeDeclaresArtifact (node : PlanNodeSpec) (name : string) : bool :=
  existsb (λ output, as_Name output == name) (node_Outputs node).

Definition validateArtifactMappingSource (node source : PlanNodeSpec) (mapping : InputMapping)
    (edgesByFrom : gmap string (list PlanEdgeSpec)) : result unit :=
  fail_if (node_NodeID source == node_NodeID node)
    (Errorf ErrInvalidRunPlan "node %q input %q cannot map an artifact from the same node");;
  fail_if (negb (nodeDeclaresArtifact source (im_SourceArtifact mapping)))
    (artifactContractError "artifact %q is not declared for mapping into node %q");;
  fail_if (negb (hasDependencyPath edgesByFrom (node_NodeID source) (node_NodeID node)))
    (Errorf ErrInvalidRunPlan "node %q input %q requires a dependency path from source node %q").

Definition validateNodeInputMappingContracts (node : PlanNodeSpec)
    (nodeByID : gmap string PlanNodeSpec) (edgesByFrom : gmap string (list PlanEdgeSpec)) :
    result unit :=
  forM (λ mapping,
    if im_SourceArtifact mapping == "" then Ok tt else
    match nodeByID !! im_SourceNodeID mapping with
    | None => Err (Errorf ErrInvalidRunPlan "node %q input %q source node %q is unknown")
    | Some source => validateArtifactMappingSource node source mapping edgesByFrom
    end) (node_Inputs node).

Definition validateEdgeInputMappingContracts (edge : PlanEdgeSpec)
    (nodeByID : gmap string PlanNodeSpec) : result unit :=
  let source := default zero_PlanNodeSpec (nodeByID !! edge_From edge) in
  forM (λ mapping,
    if im_SourceArtifact mapping == "" then Ok tt else
    fail_if (negb (nodeDeclaresArtifact source (im_SourceArtifact mapping)))
      (artifactContractError "artifact %q is not declared for edge %q mapping into node %q"))
    (edge_InputMapping edge).

Definition validateInputMappingContracts (spec : RunPlanSpec)
    (nodeByID : gmap string PlanNodeSpec) (edgesByFrom : gmap string (list PlanEdgeSpec)) :
    result unit :=
  forM (λ node, validateNodeInputMappingContracts node nodeByID edgesByFrom) (spec_Nodes spec);;
  forM (λ edge, validateEdgeInputMappingContracts edge nodeByID) (spec_Edges spec).

(** ** Validate *)

Definition Validate `{!JSONSchema, !SliceSort} (v : Validator) (spec : RunPlanSpec) :
    result ExecutablePlan :=
  policy ← validatePlanEnvelope spec;
  nodeByID ← validateNodes v spec;
  '(edgesByFrom, edgesByTo) ← validateEdges v spec nodeByID;
  order ← topoSort nodeByID (spec_Edges spec);
  validateInputMappingContracts spec nodeByID edgesByFrom;;
  fail_if (pol_MaxDepth policy <? maxDepth order edgesByFrom)%Z
    (Errorf ErrInvalidRunPlan "plan depth exceeds max %d");;
  Ok {| ep_Spec := spec; ep_NodeByID := nodeByID; ep_EdgesByTo := edgesByTo;
        ep_EdgesByFrom := edgesByFrom; ep_Order := order |}.

(** ** delta.go *)

(** The spec [ApplyDelta] validates: the delta appended to the current plan. *)
Definition append_delta (current : RunPlanSpec) (delta : PlanDelta) : RunPlanSpec :=
  {| current with spec_Nodes := spec_Nodes current ++ delta_Nodes delta;
                  spec_Edges := spec_Edges current ++ delta_Edges delta |}.

Definition ApplyDelta `{!JSONSchema, !SliceSort} (v : Validator) (current : RunPlanSpec)
    (delta : PlanDelta) (expansionCount : Z) : result (RunPlanSpec * ExecutablePlan) :=
  let policy := normalizePolicy (spec_Policy current) in
  fail_if (pol_MaxExpansions policy <=? expansionCount)%Z
    (Errorf ErrInvalidRunPlan "expansion count exceeds max %d");;
  let totalNodes := Z.of_nat (length (spec_Nodes current) + length (delta_Nodes delta)) in
  fail_if (max_int32 <? totalNodes)%Z (Errorf ErrInvalidRunPlan "too many nodes");;
  fail_if (pol_MaxNodes policy <? int32 totalNodes)%Z
    (Errorf ErrInvalidRunPlan "delta exceeds max nodes %d");;
  let next := append_delta current delta in
  plan ← Validate v next;
  Ok (next, plan).

(** ** What a valid plan is *)

Definition node_ids (spec : RunPlanSpec) : list string := node_NodeID <$> spec_Nodes spec.

(** The non-empty edge ids, in order. *)
Definition edge_ids (edges : list PlanEdgeSpec) : list string :=
  filter (.≠ "") (edge_EdgeID <$> edges).

(** An edge joins two distinct nodes of the plan under a known trigger; its
    condition compiles and its mappings are well formed. *)
Record valid_edge (v : Validator) (spec : RunPlanSpec) (edge : PlanEdgeSpec) : Prop := {
  ve_from : edge_From edge ∈ node_ids spec;
  ve_to : edge_To edge ∈ node_ids spec;
  ve_proper : edge_From edge ≠ edge_To edge;
  ve_trigger : edge_On edge ∈ [""; EdgeOnSuccess; EdgeOnError; EdgeOnComplete; EdgeOnAlways];
  ve_condition : compileExpression v (edge_Condition edge) = Ok tt;
  ve_mappings : ∀ m, m ∈ edge_InputMapping edge → validateEdgeMapping edge m = Ok tt;
}.

(** The artifact a mapping reads is declared by the node it names. *)
Definition declared_by (spec : RunPlanSpec) (nodeID artifact : string) : Prop :=
  ∃ source, source ∈ spec_Nodes spec ∧ node_NodeID source = nodeID ∧
    artifact ∈ as_Name <$> node_Outputs source.

Record valid_spec `{!JSONSchema} (v : Validator) (spec : RunPlanSpec) : Prop := {
  vs_scope : spec_PlanID spec ≠ "" ∧ spec_AccountID spec ≠ "" ∧ spec_ProjectID spec ≠ "";
  vs_history : (pol_MaxHistoryEvents (spec_Policy spec) ≤ 0 ∨
    pol_ContinueAsNewEvents (spec_Policy spec) ≤ pol_MaxHistoryEvents (spec_Policy spec))%Z;
  vs_nonempty : spec_Nodes spec ≠ [];
  vs_count : (Z.of_nat (length (spec_Nodes spec)) ≤
    pol_MaxNodes (normalizePolicy (spec_Policy spec)))%Z;
  vs_node : ∀ node, node ∈ spec_Nodes spec → validateNode v node = Ok tt;
  vs_node_ids : NoDup (node_ids spec);
  vs_edge : ∀ edge, edge ∈ spec_Edges spec → valid_edge v spec edge;
  vs_edge_ids : NoDup (edge_ids (spec_Edges spec));
  vs_acyclic : acyclic (spec_Edges spec);
  vs_depth : ∀ l, Depth.chain (spec_Edges spec) l → (∀ u, u ∈ l → u ∈ node_ids spec) →
    (Z.of_nat (length l) ≤ pol_MaxDepth (normalizePolicy (spec_Policy spec)))%Z;
  vs_inputs : ∀ node m, node ∈ spec_Nodes spec → m ∈ node_Inputs node →
    im_SourceArtifact m ≠ "" →
    declared_by spec (im_SourceNodeID m) (im_SourceArtifact m) ∧
    tc (depends (spec_Edges spec)) (im_SourceNodeID m) (node_NodeID node);
  vs_edge_inputs : ∀ edge m, edge ∈ spec_Edges spec → m ∈ edge_InputMapping edge →
    im_SourceArtifact m ≠ "" → declared_by spec (edge_From edge) (im_SourceArtifact m);
}.

(** ** What an executable view is *)

(** [nodeByID] lists the nodes under their ids. *)
Definition indexes_nodes (nodeByID : gmap string PlanNodeSpec) (nodes : list PlanNodeSpec) : Prop :=
  ∀ id node, nodeByID !! id = Some node ↔ node ∈ nodes ∧ node_NodeID node = id.

Definition indexes_to (edgesByTo : gmap string (list PlanEdgeSpec))
    (edges : list PlanEdgeSpec) : Prop :=
  ∀ v e, e ∈ get_list edgesByTo v ↔ e ∈ edges ∧ edge_To e = v.

Record executable (plan : ExecutablePlan) : Prop := {
  ex_nodes : indexes_nodes (ep_NodeByID plan) (spec_Nodes (ep_Spec plan));
  ex_from : Depth.indexes_from (ep_EdgesByFrom plan) (spec_Edges (ep_Spec plan));
  ex_to : indexes_to (ep_EdgesByTo plan) (spec_Edges (ep_Spec plan));
  ex_order_nodup : NoDup (ep_Order plan);
  ex_order_dom : ∀ v, v ∈ ep_Order plan ↔ v ∈ node_ids (ep_Spec plan);
  ex_order : topo_ordered (spec_Edges (ep_Spec plan)) (ep_Order plan);
}.

(** ** Lemmas: nodes *)

Definition nodes_by_id (nodes : list PlanNodeSpec) : gmap string PlanNodeSpec :=
  list_to_map ((λ node, (node_NodeID node, node)) <$> nodes).

Lemma nodes_by_id_spec nodes :
  NoDup (node_NodeID <$> nodes) → indexes_nodes (nodes_by_id nodes) nodes.
Proof.
  intros Hnd id node. unfold nodes_by_id.
  rewrite <-elem_of_list_to_map by (by rewrite <-list_fmap_compose).
  rewrite list_elem_of_fmap. naive_solver.
Qed.

Lemma indexes_nodes_is_Some nodeByID nodes id :
  indexes_nodes nodeByID nodes → is_Some (nodeByID !! id) ↔ id ∈ node_NodeID <$> nodes.
Proof.
  intros Hidx. unfold is_Some. setoid_rewrite (Hidx id). rewrite list_elem_of_fmap. naive_solver.
Qed.

Section validator.
Context `{!JSONSchema, !SliceSort}.
Implicit Types (v : Validator) (spec : RunPlanSpec).

Lemma validateNodes_step_iff v m node m' :
  validateNodes_step v m node = Ok m' ↔
  validateNode v node = Ok tt ∧ m !! node_NodeID node = None ∧
  m' = <[node_NodeID node := node]> m.
Proof.
  unfold validateNodes_step. generalize (validateNode v node). intros [[]|]; [|naive_solver].
  case_bool_decide as Hm; cbn; [|apply eq_None_not_Some in Hm; naive_solver].
  destruct Hm as [? Hm]. naive_solver.
Qed.

Lemma validateNodes_iff v spec m :
  validateNodes v spec = Ok m ↔
  (∀ node, node ∈ spec_Nodes spec → validateNode v node = Ok tt) ∧
  NoDup (node_ids spec) ∧ m = nodes_by_id (spec_Nodes spec).
Proof.
  unfold validateNodes.
  rewrite (foldM_index node_NodeID (λ node, validateNode v node = Ok tt)), (right_id_L ∅ (∪))
    by apply validateNodes_step_iff.
  setoid_rewrite lookup_empty. unfold node_ids, nodes_by_id. naive_solver.
Qed.

Lemma validateNode_id v node : validateNode v node = Ok tt → node_NodeID node ≠ "".
Proof. unfold validateNode, validateNodeIdentity. intros Hok. by go_inv Hok. Qed.

(** ** Lemmas: edges *)

Lemma get_list_foldl_push {A} (key : A → string) l m k :
  get_list (foldl (λ m a, push m (key a) a) m l) k =
    get_list m k ++ filter (λ a, key a = k) l.
Proof.
  revert m. induction l as [|a l IH]; intros m; cbn [foldl]; [by rewrite app_nil_r|].
  rewrite IH, filter_cons. unfold get_list, push. case_decide as Hk.
  - rewrite Hk, lookup_insert_eq. cbn. by rewrite <-app_assoc.
  - by rewrite lookup_insert_ne.
Qed.

Lemma get_list_sortEdges m k : get_list (sortEdges m) k ≡ₚ get_list m k.
Proof.
  unfold get_list, sortEdges. rewrite lookup_fmap. destruct (m !! k); cbn; [|done].
  apply sort_slice_perm.
Qed.

Lemma elem_of_sorted_index key (edges : list PlanEdgeSpec) k e :
  e ∈ get_list (sortEdges (foldl (λ m a, push m (key a) a) ∅ edges)) k ↔
  e ∈ edges ∧ key e = k.
Proof.
  rewrite get_list_sortEdges, get_list_foldl_push, elem_of_app, list_elem_of_filter.
  unfold get_list. rewrite lookup_empty. cbn. rewrite elem_of_nil. tauto.
Qed.

(** The checks of one edge that do not depend on the edges before it. *)
Definition edge_ok v (nodeByID : gmap string PlanNodeSpec) (edge : PlanEdgeSpec) : Prop :=
  validateEdgeIdentity edge nodeByID = Ok tt ∧
  compileExpression v (edge_Condition edge) = Ok tt ∧
  ∀ m, m ∈ edge_InputMapping edge → validateEdgeMapping edge m = Ok tt.

Lemma compileExpression_empty v : compileExpression v "" = Ok tt.
Proof. unfold compileExpression. by destruct (v_Expressions v). Qed.

Lemma validateEdge_iff v edge nodeByID ids ids' :
  validateEdge v edge nodeByID ids = Ok ids' ↔
  edge_ok v nodeByID edge ∧ validateUniqueEdgeID edge ids = Ok ids'.
Proof.
  unfold validateEdge, edge_ok.
  assert ((if edge_Condition edge != "" then
      map_err (wrap_error "edge %q: %w") (compileExpression v (edge_Condition edge))
      else Ok tt) = Ok tt ↔ compileExpression v (edge_Condition edge) = Ok tt) as Hc.
  { case_bool_decide as He; cbn; [|apply map_err_Ok].
    rewrite He. split; [intros _; apply compileExpression_empty|done]. }
  split.
  - intros ([] & Hid & (ids1 & Hu & ([] & Hcond%Hc & ([] & Hm & [= <-])%bind_Ok)%bind_Ok)%bind_Ok)%bind_Ok.
    rewrite forM_Ok in Hm. done.
  - intros ((Hid & Hcond%Hc & Hm) & Hu). rewrite Hid. cbn. rewrite Hu. cbn.
    apply bind_Ok. exists tt. split; [done|]. apply bind_Ok. exists tt. by rewrite forM_Ok.
Qed.

Lemma edge_ids_cons e edges : edge_ids (e :: edges) = edge_ids [e] ++ edge_ids edges.
Proof. unfold edge_ids. by rewrite <-filter_app. Qed.

Lemma edge_ids_single_NoDup e : NoDup (edge_ids [e]).
Proof. apply NoDup_filter. cbn. apply NoDup_singleton. Qed.

Lemma validateUniqueEdgeID_iff edge ids ids' :
  validateUniqueEdgeID edge ids = Ok ids' ↔
  (∀ id, id ∈ edge_ids [edge] → id ∉ ids) ∧ ids' = list_to_set (edge_ids [edge]) ∪ ids.
Proof.
  unfold validateUniqueEdgeID, edge_ids. cbn [fmap list_fmap]. rewrite filter_cons.
  rewrite (filter_nil _). case_bool_decide as He.
  - rewrite decide_False by auto. cbn. rewrite (left_id_L ∅ (∪)).
    setoid_rewrite elem_of_nil. naive_solver.
  - rewrite decide_True by done. setoid_rewrite list_elem_of_singleton. cbn.
    rewrite (right_id_L ∅ (∪)). case_bool_decide; cbn; naive_solver.
Qed.

Lemma validateEdges_step_iff v nodeByID idx e idx' :
  validateEdges_step v nodeByID idx e = Ok idx' ↔
  edge_ok v nodeByID e ∧ (∀ id, id ∈ edge_ids [e] → id ∉ ei_ids idx) ∧
  idx' = EdgeIndex (push (ei_from idx) (edge_From e) e) (push (ei_to idx) (edge_To e) e)
           (list_to_set (edge_ids [e]) ∪ ei_ids idx).
Proof.
  unfold validateEdges_step. rewrite bind_Ok. setoid_rewrite validateEdge_iff.
  setoid_rewrite validateUniqueEdgeID_iff. naive_solver.
Qed.

Lemma validateEdges_fold v nodeByID edges idx idx' :
  foldM (validateEdges_step v nodeByID) idx edges = Ok idx' ↔
  (∀ e, e ∈ edges → edge_ok v nodeByID e) ∧
  NoDup (edge_ids edges) ∧ (∀ id, id ∈ edge_ids edges → id ∉ ei_ids idx) ∧
  idx' = EdgeIndex (foldl (λ m e, push m (edge_From e) e) (ei_from idx) edges)
           (foldl (λ m e, push m (edge_To e) e) (ei_to idx) edges)
           (list_to_set (edge_ids edges) ∪ ei_ids idx).
Proof.
  revert idx. induction edges as [|e edges IH]; intros idx; cbn [foldM foldl].
  { cbn. rewrite (left_id_L ∅ (∪)). destruct idx; cbn. setoid_rewrite elem_of_nil.
    split; [|naive_solver]. intros [= <-]. split_and!; try done. constructor. }
  rewrite bind_Ok, edge_ids_cons. setoid_rewrite validateEdges_step_iff. setoid_rewrite IH.
  rewrite NoDup_app, list_to_set_app_L. setoid_rewrite elem_of_app. setoid_rewrite elem_of_cons.
  pose proof (edge_ids_single_NoDup e) as Hnd1.
  assert (list_to_set (edge_ids edges) ∪ (list_to_set (edge_ids [e]) ∪ ei_ids idx) =
    list_to_set (edge_ids [e]) ∪ list_to_set (edge_ids edges) ∪ ei_ids idx) as Hids by set_solver.
  split.
  - intros (idx1 & (Hok & Hfresh & ->) & Hall & Hnd & Hdis & ->). cbn in *. rewrite Hids.
    setoid_rewrite elem_of_union in Hdis. setoid_rewrite elem_of_list_to_set in Hdis.
    naive_solver.
  - intros (Hall & (_ & Hsep & Hnd) & Hdis & ->). rewrite <-Hids. eexists. split; [naive_solver|].
    cbn. setoid_rewrite elem_of_union. setoid_rewrite elem_of_list_to_set. naive_solver.
Qed.

Lemma validateEdges_iff v spec nodeByID from to :
  validateEdges v spec nodeByID = Ok (from, to) ↔
  (∀ e, e ∈ spec_Edges spec → edge_ok v nodeByID e) ∧ NoDup (edge_ids (spec_Edges spec)) ∧
  from = sortEdges (foldl (λ m e, push m (edge_From e) e) ∅ (spec_Edges spec)) ∧
  to = sortEdges (foldl (λ m e, push m (edge_To e) e) ∅ (spec_Edges spec)).
Proof.
  unfold validateEdges. rewrite bind_Ok. setoid_rewrite validateEdges_fold. cbn.
  setoid_rewrite (right_id_L ∅ (∪)). set_unfold. naive_solver.
Qed.

(** With the nodes indexed, the checks of an edge are those of [valid_edge]. *)
Lemma edge_ok_valid v spec e :
  NoDup (node_ids spec) → (∀ node, node ∈ spec_Nodes spec → node_NodeID node ≠ "") →
  edge_ok v (nodes_by_id (spec_Nodes spec)) e ↔ valid_edge v spec e.
Proof.
  intros Hnd Hids.
  assert (∀ id, nodes_by_id (spec_Nodes spec) !! id ≠ None ↔ id ∈ node_ids spec) as Hin.
  { intros id. rewrite not_eq_None_Some. by apply indexes_nodes_is_Some, nodes_by_id_spec. }
  assert (∀ id, id ∈ node_ids spec → id ≠ "") as Hne.
  { intros id (node & -> & Hnode)%list_elem_of_fmap. by apply Hids. }
  unfold edge_ok, validateEdgeIdentity. split.
  - intros (Hid & Hc & Hm). go_inv Hid.
    constructor; [by apply Hin|by apply Hin|done..].
  - intros [Hf Ht Hp Htr Hc Hm]. split; [|done].
    rewrite (bool_decide_eq_true_2 (edge_On e ∈ _)) by done.
    by rewrite !bool_decide_eq_false_2 by (done || by apply Hne || by apply Hin).
Qed.

(** ** Lemmas: mapping contracts *)

Lemma nodeDeclaresArtifact_true node name :
  nodeDeclaresArtifact node name = true ↔ name ∈ as_Name <$> node_Outputs node.
Proof.
  unfold nodeDeclaresArtifact. rewrite existsb_exists, list_elem_of_fmap.
  setoid_rewrite bool_decide_eq_true. setoid_rewrite <-list_elem_of_In. naive_solver.
Qed.

Section contracts.
Context (spec : RunPlanSpec) (nodeByID : gmap string PlanNodeSpec).
Context (edgesByFrom : gmap string (list PlanEdgeSpec)).
Context (nodes : indexes_nodes nodeByID (spec_Nodes spec)).
Context (edges : Depth.indexes_from edgesByFrom (spec_Edges spec)).
Context (no_cycle : acyclic (spec_Edges spec)).

Lemma declared_by_lookup id source name :
  nodeByID !! id = Some source →
  nodeDeclaresArtifact source name = true ↔ declared_by spec id name.
Proof.
  intros Hs. rewrite nodeDeclaresArtifact_true. apply nodes in Hs as Hs'. split.
  - intros Hd. exists source. naive_solver.
  - intros (s' & Hin & Hid & Hd). assert (nodeByID !! id = Some s') as Hs2 by (by apply nodes).
    by simplify_eq.
Qed.

Lemma artifact_source_iff node m :
  match nodeByID !! im_SourceNodeID m with
  | None => Err (Errorf ErrInvalidRunPlan "node %q input %q source node %q is unknown")
  | Some source => validateArtifactMappingSource node source m edgesByFrom
  end = Ok tt ↔
  declared_by spec (im_SourceNodeID m) (im_SourceArtifact m) ∧
  tc (depends (spec_Edges spec)) (im_SourceNodeID m) (node_NodeID node).
Proof.
  destruct (nodeByID !! im_SourceNodeID m) as [source|] eqn:Hs.
  - rewrite <-(declared_by_lookup _ _ _ Hs), <-(Reach.hop_depends_tc edgesByFrom) by done.
    rewrite <-Reach.hasDependencyPath_spec.
    apply nodes in Hs as [Hin <-]. unfold validateArtifactMappingSource.
    assert (hasDependencyPath edgesByFrom (node_NodeID source) (node_NodeID node) = true →
      node_NodeID source ≠ node_NodeID node) as Hne.
    { rewrite Reach.hasDependencyPath_spec, (Reach.hop_depends_tc _ _ _ _ edges).
      intros Htc Heq. rewrite Heq in Htc. by apply no_cycle in Htc. }
    destruct (nodeDeclaresArtifact _ _), (hasDependencyPath _ _ _);
      case_bool_decide; cbn; naive_solver.
  - split; [done|]. intros [(source & Hin & Hid & _) _].
    assert (nodeByID !! im_SourceNodeID m = Some source) by (by apply nodes). congruence.
Qed.

(** An artifact source is accepted when it is declared and upstream; that it is
    another node follows, because the plan has no cycle. *)
Lemma validateNodeInputMappingContracts_iff node :
  validateNodeInputMappingContracts node nodeByID edgesByFrom = Ok tt ↔
  ∀ m, m ∈ node_Inputs node → im_SourceArtifact m ≠ "" →
    declared_by spec (im_SourceNodeID m) (im_SourceArtifact m) ∧
    tc (depends (spec_Edges spec)) (im_SourceNodeID m) (node_NodeID node).
Proof.
  unfold validateNodeInputMappingContracts. rewrite forM_Ok.
  assert (∀ m, (if im_SourceArtifact m == "" then Ok tt else
      match nodeByID !! im_SourceNodeID m with
      | None => Err (Errorf ErrInvalidRunPlan "node %q input %q source node %q is unknown")
      | Some source => validateArtifactMappingSource node source m edgesByFrom
      end) = Ok tt ↔ (im_SourceArtifact m ≠ "" →
    declared_by spec (im_SourceNodeID m) (im_SourceArtifact m) ∧
    tc (depends (spec_Edges spec)) (im_SourceNodeID m) (node_NodeID node))) as Hm.
  { intros m. case_bool_decide as Ha; [naive_solver|].
    transitivity (declared_by spec (im_SourceNodeID m) (im_SourceArtifact m) ∧
      tc (depends (spec_Edges spec)) (im_SourceNodeID m) (node_NodeID node)); [|naive_solver].
    apply artifact_source_iff. }
  setoid_rewrite Hm. naive_solver.
Qed.

Lemma validateEdgeInputMappingContracts_iff edge :
  edge_From edge ∈ node_ids spec →
  validateEdgeInputMappingContracts edge nodeByID = Ok tt ↔
  ∀ m, m ∈ edge_InputMapping edge → im_SourceArtifact m ≠ "" →
    declared_by spec (edge_From edge) (im_SourceArtifact m).
Proof.
  intros [source Hs]%(indexes_nodes_is_Some _ _ _ nodes).
  unfold validateEdgeInputMappingContracts. rewrite Hs, forM_Ok. cbn.
  setoid_rewrite <-(declared_by_lookup _ source); [|done].
  split; intros Hall m Hm; specialize (Hall m Hm); case_bool_decide as Ha; try naive_solver.
  - by rewrite fail_if_Ok, negb_false_iff in Hall.
  - rewrite fail_if_Ok, negb_false_iff. by apply Hall.
Qed.
End contracts.

(** ** Correctness of [Validate] *)

Lemma validatePlanEnvelope_iff spec policy :
  validatePlanEnvelope spec = Ok policy ↔
  (spec_PlanID spec ≠ "" ∧ spec_AccountID spec ≠ "" ∧ spec_ProjectID spec ≠ "") ∧
  (pol_MaxHistoryEvents (spec_Policy spec) ≤ 0 ∨
     pol_ContinueAsNewEvents (spec_Policy spec) ≤ pol_MaxHistoryEvents (spec_Policy spec))%Z ∧
  spec_Nodes spec ≠ [] ∧
  (Z.of_nat (length (spec_Nodes spec)) ≤ pol_MaxNodes (normalizePolicy (spec_Policy spec)))%Z ∧
  policy = normalizePolicy (spec_Policy spec).
Proof.
  rewrite <-(ValidateRunPlanScope_Ok spec tt). unfold validatePlanEnvelope.
  destruct (ValidateRunPlanScope (Some spec)) as [[]|]; cbn [mbind result_bind]; [|naive_solver].
  change (pol_MaxHistoryEvents (normalizePolicy ?p)) with (pol_MaxHistoryEvents p).
  change (pol_ContinueAsNewEvents (normalizePolicy ?p)) with (pol_ContinueAsNewEvents p).
  set (norm := normalizePolicy (spec_Policy spec)). set (max := pol_MaxNodes norm).
  clearbody max norm. rewrite <-length_zero_iff_nil.
  destruct (Z.ltb_spec 0 (pol_MaxHistoryEvents (spec_Policy spec))),
    (Z.ltb_spec (pol_MaxHistoryEvents (spec_Policy spec))
       (pol_ContinueAsNewEvents (spec_Policy spec))),
    (decide (length (spec_Nodes spec) = 0)), (Z.ltb_spec max (Z.of_nat (length (spec_Nodes spec))));
    (rewrite ?(bool_decide_eq_true_2 (length _ = 0)), ?(bool_decide_eq_false_2 (length _ = 0)) by done);
    cbn; split; try (by intros [=]); try (by intros (_ & ? & ? & ? & _); lia);
    try (intros [= <-]; split_and!; [done|lia|done..]); by intros (_ & _ & _ & _ & ->).
Qed.

(** The stages of a successful [Validate]. *)
Lemma Validate_stages v spec plan :
  Validate v spec = Ok plan ↔
  ep_Spec plan = spec ∧
  validatePlanEnvelope spec = Ok (normalizePolicy (spec_Policy spec)) ∧
  validateNodes v spec = Ok (ep_NodeByID plan) ∧
  validateEdges v spec (ep_NodeByID plan) = Ok (ep_EdgesByFrom plan, ep_EdgesByTo plan) ∧
  topoSort (ep_NodeByID plan) (spec_Edges spec) = Ok (ep_Order plan) ∧
  validateInputMappingContracts spec (ep_NodeByID plan) (ep_EdgesByFrom plan) = Ok tt ∧
  (maxDepth (ep_Order plan) (ep_EdgesByFrom plan) ≤
     pol_MaxDepth (normalizePolicy (spec_Policy spec)))%Z.
Proof.
  unfold Validate. split.
  - intros (policy & Henv & Hok)%bind_Ok.
    pose proof Henv as (_ & _ & _ & _ & ->)%validatePlanEnvelope_iff.
    apply bind_Ok in Hok as (m & Hn & Hok). apply bind_Ok in Hok as ([from to] & He & Hok).
    apply bind_Ok in Hok as (order & Ho & Hok). apply bind_Ok in Hok as ([] & Hc & Hok).
    apply bind_Ok in Hok as ([] & Hd & [= <-]). apply fail_if_Ok, Z.ltb_ge in Hd. done.
  - intros (<- & Henv & Hn & He & Ho & Hc & Hd). rewrite Henv. cbn. rewrite Hn. cbn. rewrite He.
    cbn. rewrite Ho. cbn. rewrite Hc. cbn. rewrite (proj2 (Z.ltb_ge _ _)) by done. by destruct plan.
Qed.

(** A chain of two or more nodes runs along edges. *)
Lemma chain_endpoint edges l u :
  Depth.chain edges l → u ∈ l → length l = 1 ∨
  ∃ e, e ∈ edges ∧ (edge_From e = u ∨ edge_To e = u).
Proof.
  induction l as [|x l IH]; [by intros _ ?%not_elem_of_nil|].
  destruct l as [|y l]; [auto|]. intros [(e & He & Hx & Hy) Hch] Hu. right.
  apply elem_of_cons in Hu as [->|Hu]; [naive_solver|].
  destruct (IH Hch Hu) as [Hlen|?]; [|done]. destruct l; [|done].
  apply list_elem_of_singleton in Hu as ->. naive_solver.
Qed.

(** The indexes built from a list of distinct nodes and known edges. *)
Lemma edges_within_valid v spec :
  NoDup (node_ids spec) → (∀ e, e ∈ spec_Edges spec → valid_edge v spec e) →
  edges_within (nodes_by_id (spec_Nodes spec)) (spec_Edges spec).
Proof.
  intros Hnd He e [Hf Ht _ _ _ _]%He.
  by rewrite !(indexes_nodes_is_Some _ _ _ (nodes_by_id_spec _ Hnd)).
Qed.

Lemma validateInputMappingContracts_iff spec nodeByID from :
  indexes_nodes nodeByID (spec_Nodes spec) → Depth.indexes_from from (spec_Edges spec) →
  acyclic (spec_Edges spec) → (∀ e, e ∈ spec_Edges spec → edge_From e ∈ node_ids spec) →
  validateInputMappingContracts spec nodeByID from = Ok tt ↔
  (∀ node m, node ∈ spec_Nodes spec → m ∈ node_Inputs node → im_SourceArtifact m ≠ "" →
     declared_by spec (im_SourceNodeID m) (im_SourceArtifact m) ∧
     tc (depends (spec_Edges spec)) (im_SourceNodeID m) (node_NodeID node)) ∧
  (∀ e m, e ∈ spec_Edges spec → m ∈ edge_InputMapping e → im_SourceArtifact m ≠ "" →
     declared_by spec (edge_From e) (im_SourceArtifact m)).
Proof.
  intros Hn Hf Hac Hends. unfold validateInputMappingContracts. rewrite bind_Ok.
  assert (∀ (P : Prop) (Q : unit → Prop), (∃ u, Q u ∧ P) ↔ Q tt ∧ P) as Hu.
  { intros P Q. split; [intros [[] ?]; done|intros; by exists tt]. }
  rewrite Hu, !forM_Ok.
  setoid_rewrite (validateNodeInputMappingContracts_iff spec nodeByID from Hn Hf Hac).
  split; intros [Hnode Hedge]; (split; [naive_solver|]).
  - intros e m He. revert m. by apply (validateEdgeInputMappingContracts_iff spec nodeByID); auto.
  - intros e He. apply (validateEdgeInputMappingContracts_iff spec nodeByID); eauto.
Qed.

Section accepted.
Context (v : Validator) (spec : RunPlanSpec) (plan : ExecutablePlan).
Context (accepted : Validate v spec = Ok plan).

Lemma accepted_nodes :
  (∀ node, node ∈ spec_Nodes spec → validateNode v node = Ok tt) ∧
  NoDup (node_ids spec) ∧ indexes_nodes (ep_NodeByID plan) (spec_Nodes spec) ∧
  ep_NodeByID plan = nodes_by_id (spec_Nodes spec).
Proof.
  pose proof accepted as (_ & _ & Hn & _)%Validate_stages.
  apply validateNodes_iff in Hn as (Hv & Hnd & ->). split_and!; try done. by apply nodes_by_id_spec.
Qed.

Lemma accepted_edges :
  (∀ e, e ∈ spec_Edges spec → valid_edge v spec e) ∧ NoDup (edge_ids (spec_Edges spec)) ∧
  Depth.indexes_from (ep_EdgesByFrom plan) (spec_Edges spec) ∧
  indexes_to (ep_EdgesByTo plan) (spec_Edges spec).
Proof.
  pose proof accepted as (_ & _ & _ & He & _)%Validate_stages.
  destruct accepted_nodes as (Hv & Hnd & _ & Hm). rewrite Hm in He.
  apply validateEdges_iff in He as (Hok & Hids & -> & ->). split_and!; try done.
  - intros e He. apply edge_ok_valid; auto. intros node Hin. by eapply validateNode_id, Hv.
  - intros u e. apply elem_of_sorted_index.
  - intros u e. apply elem_of_sorted_index.
Qed.

Lemma accepted_within : edges_within (ep_NodeByID plan) (spec_Edges spec).
Proof.
  destruct accepted_nodes as (_ & Hnd & _ & ->), accepted_edges as (He & _).
  by eapply edges_within_valid.
Qed.

Lemma accepted_order :
  NoDup (ep_Order plan) ∧ (∀ u, u ∈ ep_Order plan ↔ u ∈ node_ids spec) ∧
  topo_ordered (spec_Edges spec) (ep_Order plan) ∧ acyclic (spec_Edges spec).
Proof.
  pose proof accepted as (_ & _ & _ & _ & Ho & _)%Validate_stages.
  pose proof (Topo.topoSort_acyclic _ _ accepted_within _ Ho).
  apply (Topo.topoSort_Ok _ _ accepted_within) in Ho as (Hnd & Hdom & Hto). split_and!; try done.
  intros u. rewrite Hdom. apply indexes_nodes_is_Some. by destruct accepted_nodes as (_ & _ & ? & _).
Qed.

Lemma accepted_executable : executable plan.
Proof.
  pose proof accepted as (Hs & _)%Validate_stages.
  destruct accepted_nodes as (_ & Hnd & Hn & _), accepted_edges as (_ & _ & Hf & Ht),
    accepted_order as (Hnd' & Hdom & Hto & _).
  by constructor; rewrite ?Hs.
Qed.

Lemma accepted_valid : valid_spec v spec.
Proof.
  pose proof accepted as (_ & Henv & _ & _ & Ho & Hc & Hd)%Validate_stages.
  apply validatePlanEnvelope_iff in Henv as (Hscope & Hhist & Hne & Hcount & _).
  destruct accepted_nodes as (Hv & Hnd & Hn & _), accepted_edges as (He & Hids & Hf & _),
    accepted_order as (Hnd' & Hdom & Hto & Hac).
  apply validateInputMappingContracts_iff in Hc as [Hin Hein]; try done;
    [|by intros e [? _ _ _ _ _]%He].
  constructor; try done. intros l Hl Hall. etrans; [|exact Hd].
  apply (Depth.maxDepth_spec _ _ Hf); try done.
  - intros Hnil. apply Hne. rewrite Hnil in Hdom. unfold node_ids in Hdom.
    destruct (spec_Nodes spec) as [|node nodes]; [done|].
    by destruct (not_elem_of_nil (node_NodeID node)); apply Hdom; left.
  - intros u Hu. by apply Hdom, Hall.
Qed.
End accepted.

Lemma valid_accepted v spec : valid_spec v spec → ∃ plan, Validate v spec = Ok plan.
Proof.
  intros [Hscope Hhist Hne Hcount Hv Hnd He Hids Hac Hdepth Hin Hein].
  pose proof (nodes_by_id_spec _ Hnd) as Hidx.
  pose proof (edges_within_valid _ _ Hnd He) as Hw.
  destruct (Topo.topoSort_complete _ _ Hw Hac) as [order Ho].
  pose proof (Topo.topoSort_Ok _ _ Hw _ Ho) as (Hnd' & Hdom & Hto).
  set (from := sortEdges (foldl (λ m e, push m (edge_From e) e) ∅ (spec_Edges spec))).
  set (to := sortEdges (foldl (λ m e, push m (edge_To e) e) ∅ (spec_Edges spec))).
  assert (Depth.indexes_from from (spec_Edges spec)) as Hf
    by (intros u e; apply elem_of_sorted_index).
  exists {| ep_Spec := spec; ep_NodeByID := nodes_by_id (spec_Nodes spec); ep_EdgesByTo := to;
            ep_EdgesByFrom := from; ep_Order := order |}.
  apply Validate_stages. cbn [ep_Spec ep_NodeByID ep_EdgesByTo ep_EdgesByFrom ep_Order].
  split_and!; try done.
  - by apply validatePlanEnvelope_iff.
  - by apply validateNodes_iff.
  - apply validateEdges_iff. split_and!; try done. intros e Hin'. apply edge_ok_valid; auto.
    intros node Hnode. by eapply validateNode_id, Hv.
  - apply validateInputMappingContracts_iff; try done. by intros e [? _ _ _ _ _]%He.
  - destruct (Depth.maxDepth_spec _ _ Hf order) as [_ (l & Hl & <-)]; try done.
    + intros ->. destruct (spec_Nodes spec) as [|node nodes] eqn:Hnodes; [done|].
      destruct (not_elem_of_nil (node_NodeID node)). apply Hdom.
      rewrite (indexes_nodes_is_Some _ _ _ Hidx). left.
    + destruct (decide (length l = 1)) as [->|Hlen].
      { destruct (spec_Nodes spec) as [|node nodes] eqn:Hnodes; [done|].
        apply (Hdepth [node_NodeID node]); [done|]. intros u ->%list_elem_of_singleton.
        unfold node_ids. rewrite Hnodes. left. }
      apply Hdepth; [done|]. intros u Hu.
      destruct (chain_endpoint _ _ _ Hl Hu) as [|(e & [Hfr Hto' _ _ _ _]%He & [<-| <-])]; done.
Qed.

(** ** Correctness of [ApplyDelta] *)

Lemma ApplyDelta_iff v current delta count next plan :
  ApplyDelta v current delta count = Ok (next, plan) ↔
  (count < pol_MaxExpansions (normalizePolicy (spec_Policy current)))%Z ∧
  (Z.of_nat (length (spec_Nodes current ++ delta_Nodes delta)) ≤ max_int32)%Z ∧
  next = append_delta current delta ∧ Validate v next = Ok plan.
Proof.
  unfold ApplyDelta. rewrite length_app. set (total := Z.of_nat (_ + _)). split.
  - intros ([] & Hc%fail_if_Ok & ([] & Ht%fail_if_Ok & Hok)%bind_Ok)%bind_Ok.
    apply bind_Ok in Hok as ([] & _ & (plan' & Hv & [= <- <-])%bind_Ok). simplify_bool. done.
  - intros (Hc & Ht & -> & Hv).
    rewrite (proj2 (Z.leb_gt _ _)) by lia. cbn [fail_if mbind result_bind].
    rewrite (proj2 (Z.ltb_ge max_int32 total)) by lia. cbn [fail_if mbind result_bind].
    rewrite int32_small by (unfold max_int32 in *; lia).
    pose proof (accepted_valid _ _ _ Hv) as [_ _ _ Hcount _ _ _ _ _ _ _ _].
    cbn in Hcount. rewrite length_app in Hcount.
    rewrite (proj2 (Z.ltb_ge _ total)) by (subst total; cbn; lia). cbn [fail_if mbind result_bind].
    by rewrite Hv.
Qed.
End validator.

#[global] Arguments valid_spec {_} _ _.

(** ** A sample plan *)

(** Four nodes in a diamond: [a] feeds [b] and [c], which join in [d]. *)
Module Sample.

Definition schema_any : JSONSchema := {|
  Resolved := unit; resolveRawSchema _ := Ok tt; schema_Validate _ _ := Ok tt |}.

Definition node (id : string) (join : string) : PlanNodeSpec :=
  {| zero_PlanNodeSpec with
     node_NodeID := id;
     node_Run := {| zero_RunSpec with run_RunID := "run-" +:+ id;
                    run_Backend := {| backend_Kind := "temporal"; backend_Name := "agent" |} |};
     node_Outputs := [{| as_Name := "out"; as_Kind := "json"; as_MediaType := "";
                         as_SchemaRef := ""; as_Required := false |}];
     node_Policy := {| zero_NodePolicy with npol_Join := join |} |}.

Definition edge (from to on : string) : PlanEdgeSpec :=
  {| zero_PlanEdgeSpec with edge_EdgeID := from +:+ "-" +:+ to;
     edge_From := from; edge_To := to; edge_On := on |}.

Definition node_d : PlanNodeSpec :=
  let n := node "d" "any" in
  {| n with
     node_Inputs := [{| im_Target := "x"; im_SourceNodeID := "a"; im_SourceArtifact := "out";
                        im_SourcePath := ""; im_Expression := ""; im_Required := true |}] |}.

Definition spec : RunPlanSpec :=
  {| zero_RunPlanSpec with
     spec_PlanID := "plan"; spec_AccountID := "acct"; spec_ProjectID := "proj";
     spec_Nodes := [node "a" ""; node "b" ""; node "c" "all"; node_d];
     spec_Edges := [edge "a" "b" "success"; edge "a" "c" ""; edge "b" "d" "";
                    edge "c" "d" "complete"] |}.

(** Expressions are compared with ["true"]; nothing else compiles. *)
Definition compiler : ExpressionCompiler :=
  λ e, if e == "true" then Ok (λ _, Ok true)
       else if e == "false" then Ok (λ _, Ok false)
       else Err (Errorf ErrInvalidExpression "unknown expression").

Definition validator : Validator :=
  {| v_Expressions := Some compiler; v_Capabilities := None; v_ArtifactSchemas := None |}.

Definition delta : PlanDelta :=
  {| delta_Nodes := [node "e" ""]; delta_Edges := [edge "d" "e" "always"] |}.

Definition no_plan : ExecutablePlan :=
  {| ep_Spec := zero_RunPlanSpec; ep_NodeByID := ∅; ep_EdgesByTo := ∅; ep_EdgesByFrom := ∅;
     ep_Order := [] |}.

#[local] Existing Instance schema_any.

(** The executable view of [spec], and of its expansion by [delta]. *)
Definition plan : ExecutablePlan :=
  match Validate validator spec with Ok p => p | Err _ => no_plan end.
Definition next_plan : ExecutablePlan :=
  match ApplyDelta validator spec delta 0 with Ok (_, p) => p | Err _ => no_plan end.

Lemma plan_valid : Validate validator spec = Ok plan.
Proof. vm_compute. reflexivity. Qed.

Lemma next_plan_valid : ApplyDelta validator spec delta 0 = Ok (append_delta spec delta, next_plan).
Proof. vm_compute. reflexivity. Qed.

Example plan_order : ep_Order plan = ["a"; "b"; "c"; "d"].
Proof. vm_compute. reflexivity. Qed.

Example cyclic_rejected :
  Validate validator {| spec with spec_Edges := spec_Edges spec ++ [edge "d" "a" ""] |} =
  Err err_cycle.
Proof. vm_compute. reflexivity. Qed.

End Sample.

(** ** Properties *)

(** C35: [Validate] accepts a spec exactly when it is a valid plan: its tenant
    scope is complete, its node count, depth and history limits hold, every node
    and edge is well formed with unique ids, the dependency graph is acyclic, and
    every artifact mapping reads an artifact that is declared by a node upstream
    of the reader. *)
Theorem Validate_iff `{!JSONSchema, !SliceSort} (v : Validator) (spec : RunPlanSpec) :
  (∃ plan, Validate v spec = Ok plan) ↔ valid_spec v spec.
Proof. split; [intros [plan Hv]; by eapply accepted_valid|apply valid_accepted]. Qed.

(** The executable plan [Validate] returns is a faithful view of the spec:
    the node map and both edge maps list exactly the nodes and edges of the spec,
    and the order lists every node once, after all nodes it depends on. *)
Theorem Validate_executable `{!JSONSchema, !SliceSort} (v : Validator) (spec : RunPlanSpec)
    (plan : ExecutablePlan) :
  Validate v spec = Ok plan → ep_Spec plan = spec ∧ executable plan.
Proof.
  intros Hv. split; [|by eapply accepted_executable]. by apply Validate_stages in Hv as [? _].
Qed.

Lemma Validate_executable_witness :
  ep_Spec Sample.plan = Sample.spec ∧ executable Sample.plan.
Proof.
  apply (@Validate_executable Sample.schema_any merge_slice_sort Sample.validator).
  vm_compute. reflexivity.
Defined.

(** Dynamic expansion is bounded and append-only: when [ApplyDelta]
    succeeds, the expansion count is below the limit and the appended spec is
    valid; the result keeps the current nodes and edges as a prefix, respects the
    plan's node limit, and its executable view is correct. *)
Theorem ApplyDelta_sound `{!JSONSchema, !SliceSort} (v : Validator) (current next : RunPlanSpec)
    (delta : PlanDelta) (count : Z) (plan : ExecutablePlan) :
  ApplyDelta v current delta count = Ok (next, plan) →
  (count < pol_MaxExpansions (normalizePolicy (spec_Policy current)))%Z ∧
  spec_Nodes next = spec_Nodes current ++ delta_Nodes delta ∧
  spec_Edges next = spec_Edges current ++ delta_Edges delta ∧
  spec_Policy next = spec_Policy current ∧
  (Z.of_nat (length (spec_Nodes next)) ≤ pol_MaxNodes (normalizePolicy (spec_Policy current)))%Z ∧
  valid_spec v next ∧ ep_Spec plan = next ∧ executable plan.
Proof.
  intros (Hc & Hlen & -> & Hv)%ApplyDelta_iff.
  pose proof (accepted_valid _ _ _ Hv) as Hvalid. pose proof (vs_count _ _ Hvalid).
  pose proof Hv as [Hs _]%Validate_stages.
  split_and!; try done. by eapply accepted_executable.
Qed.

Lemma ApplyDelta_sound_witness :
  @valid_spec Sample.schema_any Sample.validator (append_delta Sample.spec Sample.delta) ∧
  executable Sample.next_plan.
Proof.
  destruct (@ApplyDelta_sound Sample.schema_any merge_slice_sort Sample.validator Sample.spec
    (append_delta Sample.spec Sample.delta) Sample.delta 0 Sample.next_plan
    ltac:(vm_compute; reflexivity)) as (_ & _ & _ & _ & _ & Hv & _ & He).
  split; [exact Hv|exact He].
Defined.
