(* ===== verification/State.v ===== *)
(** * The plan state reducer

    internal/usecase/agentosplan/state.go: the deterministic reducer that folds
    [StateEvent]s into a [RunPlanStatus].  [Apply] mutates its receiver and returns
    an error; the model returns the receiver after the call together with the
    result, because a failing expansion leaves part of its nodes in the state.
    [time.Now] (used for an event without a timestamp) is the argument [now]. *)

From S2P Require Import Prelude Types Graph Scope Contracts Validator.

(** ** State *)

Record State := {
  Status : RunPlanStatus;
  nodes : gmap string PlanNodeStatus;
  transitions : Z;
}.

Definition sortedNodeStatuses (nodes : gmap string PlanNodeStatus) : list PlanNodeStatus :=
  (λ key, default zero_PlanNodeStatus (nodes !! key)) <$> sort_strings ((map_to_list nodes).*1).

(** The status of a node that has not been scheduled yet. *)
Definition pending_status (node : PlanNodeSpec) (now : time) : PlanNodeStatus :=
  {| zero_PlanNodeStatus with
     ns_NodeID := node_NodeID node;
     ns_RunID := run_RunID (node_Run node);
     ns_Backend := run_Backend (node_Run node);
     ns_LifecycleState := PlanNodePending;
     ns_UpdatedAt := now |}.

Definition NewState (spec : RunPlanSpec) (now : time) : State :=
  let nodes := foldl (λ m node, <[node_NodeID node := pending_status node now]> m) ∅
                 (spec_Nodes spec) in
  {| Status := {| zero_RunPlanStatus with
                  st_PlanID := spec_PlanID spec;
                  st_LifecycleState := PlanLifecyclePending;
                  st_Nodes := sortedNodeStatuses nodes;
                  st_Metadata := spec_Metadata spec;
                  st_UpdatedAt := now |};
     nodes := nodes;
     transitions := 0 |}.

(** The run ids of the running nodes, in the order of the status. *)
Definition active_run_ids (statuses : list PlanNodeStatus) : list string :=
  ns_RunID <$> filter (λ n, ns_LifecycleState n = PlanNodeRunning ∧ ns_RunID n ≠ "") statuses.

Definition refresh (s : State) (at_ : time) : State :=
  let status := Status s in
  let sorted := sortedNodeStatuses (nodes s) in
  {| s with Status := {| status with st_Nodes := sorted;
                                     st_ActiveRunIDs := active_run_ids sorted;
                                     st_UpdatedAt := at_ |} |}.

(** [s.transitions++], a 32-bit counter. *)
Definition count_transition (s : State) : State :=
  {| s with transitions := int32 (transitions s + 1) |}.

(** ** Restoring a snapshot *)

Definition expectedPlanNodeSet (spec : RunPlanSpec) : result (gset string) :=
  foldM (λ expected node,
    fail_if (node_NodeID node == "") (Errorf ErrInvalidRunPlan "node id is required");;
    fail_if (bool_decide (node_NodeID node ∈ expected))
      (Errorf ErrInvalidRunPlan "duplicate node %q");;
    Ok ({[node_NodeID node]} ∪ expected)) ∅ (spec_Nodes spec).

Definition restorePlanNodeStatus (expected : gset string) (nodes : gmap string PlanNodeStatus)
    (node : PlanNodeStatus) : result (gmap string PlanNodeStatus) :=
  fail_if (ns_NodeID node == "") (Errorf ErrInvalidRunPlan "snapshot node id is required");;
  fail_if (negb (bool_decide (ns_NodeID node ∈ expected)))
    (Errorf ErrInvalidRunPlan "snapshot contains unknown node %q");;
  fail_if (bool_decide (is_Some (nodes !! ns_NodeID node)))
    (Errorf ErrInvalidRunPlan "snapshot contains duplicate node %q");;
  Ok (<[ns_NodeID node := node]> nodes).

(** The second loop ranges over a map; every error it can return is the same
    value, so the order does not matter. *)
Definition restorePlanNodeStatuses (status : RunPlanStatus) (expected : gset string) :
    result (gmap string PlanNodeStatus) :=
  nodes ← foldM (restorePlanNodeStatus expected) ∅ (st_Nodes status);
  forM (λ id, fail_if (bool_decide (nodes !! id = None))
                (Errorf ErrInvalidRunPlan "snapshot missing node %q")) (elements expected);;
  Ok nodes.

Definition NewStateFromStatus (spec : RunPlanSpec) (status : RunPlanStatus) : result State :=
  fail_if (spec_PlanID spec == "") (Errorf ErrInvalidRunPlan "plan id is required");;
  let restored := {| status with st_PlanID := if st_PlanID status == "" then spec_PlanID spec
                                              else st_PlanID status |} in
  fail_if (st_PlanID restored != spec_PlanID spec)
    (Errorf ErrInvalidRunPlan "snapshot plan id %q does not match spec plan id %q");;
  expected ← expectedPlanNodeSet spec;
  nodes ← restorePlanNodeStatuses restored expected;
  Ok (refresh {| Status := restored; nodes := nodes; transitions := 0 |} (st_UpdatedAt restored)).

(** ** Events *)

Definition EventPlanStarted : string := "plan.started".
Definition EventPlanBlocked : string := "plan.blocked".
Definition EventPlanExpanded : string := "plan.expanded".
Definition EventPlanApproved : string := "plan.approved".
Definition EventPlanRejected : string := "plan.rejected".
Definition EventPlanSucceeded : string := "plan.succeeded".
Definition EventPlanFailed : string := "plan.failed".
Definition EventPlanCanceled : string := "plan.canceled".
Definition EventNodeReady : string := "node.ready".
Definition EventNodeStarted : string := "node.started".
Definition EventNodeSucceeded : string := "node.succeeded".
Definition EventNodeFailed : string := "node.failed".
Definition EventNodeRetryScheduled : string := "node.retry_scheduled".
Definition EventNodeSkipped : string := "node.skipped".
Definition EventNodeCanceled : string := "node.canceled".
Definition EventNodeInputResolved : string := "node.input_resolved".
Definition EventCapabilitySelected : string := "capability.selected".
Definition EventConditionsEvaluated : string := "conditions.evaluated".
Definition EventArtifactsPublished : string := "artifacts.published".
Definition EventBudgetReported : string := "budget.reported".

Record StateEventApproval := {
  sea_Gate : PlanApprovalGate;
  sea_Decision : option PlanApprovalDecision;
}.

Record StateEvent := {
  se_Kind : string;
  se_NodeID : string;
  se_RunID : string;
  se_Reason : string;
  se_Attempt : Z;
  se_Expansion : PlanDelta;
  se_Artifacts : list ArtifactRef;
  se_BudgetDelta : PlanBudgetUsage;
  se_InputTrace : InputResolutionTrace;
  se_Capability : CapabilitySelectionTrace;
  se_ConditionTraces : list ConditionEvaluationTrace;
  se_PreviousLifecycleState : string;
  se_NextLifecycleState : string;
  se_At : time;
  se_Approval : option StateEventApproval;
}.

(** Lookup in a Go map literal keyed by event kind. *)
Definition kind_lookup {A} (table : list (string * A)) (kind : string) : option A :=
  (list_to_map table : gmap string A) !! kind.

Definition reducerPlanLifecycleForEvent (kind : string) : option string :=
  kind_lookup
    [(EventPlanStarted, PlanLifecycleRunning); (EventPlanBlocked, PlanLifecycleBlocked);
     (EventPlanApproved, PlanLifecycleRunning); (EventPlanRejected, PlanLifecycleFailed);
     (EventPlanSucceeded, PlanLifecycleSucceeded); (EventPlanFailed, PlanLifecycleFailed);
     (EventPlanCanceled, PlanLifecycleCanceled)] kind.

Definition reducerNodeLifecycleForEvent (kind : string) : option string :=
  kind_lookup
    [(EventNodeReady, PlanNodeReady); (EventNodeStarted, PlanNodeRunning);
     (EventNodeSucceeded, PlanNodeSucceeded); (EventNodeFailed, PlanNodeFailed);
     (EventNodeSkipped, PlanNodeSkipped); (EventNodeCanceled, PlanNodeCanceled)] kind.

Definition touchNodeEvent (kind : string) : bool :=
  bool_decide (is_Some (kind_lookup
    [(EventNodeInputResolved, ()); (EventCapabilitySelected, ());
     (EventConditionsEvaluated, ())] kind)).

(** ** Plan events *)

(** The gate to decide: the current one, or the snapshot the event carries. *)
Definition approval_to_decide (current : option PlanApprovalStatus) (event : StateEvent) :
    option PlanApprovalStatus :=
  match current with
  | Some a => Some a
  | None =>
      match se_Approval event with
      | None => None
      | Some ea =>
          if gate_PolicyVersion (sea_Gate ea) == "" then None
          else Some {| appr_LifecycleState := PlanApprovalPending; appr_Gate := sea_Gate ea;
                       appr_Decision := None |}
      end
  end.

(** The decision recorded: the event's own, or a system decision anchored to the
    gate's policy version. *)
Definition approval_decision (approved : bool) (gate : PlanApprovalGate) (event : StateEvent)
    (at_ : time) : PlanApprovalDecision :=
  match se_Approval event ≫= sea_Decision with
  | Some decision => decision
  | None => {| dec_Approved := approved; dec_ActorID := ""; dec_Reason := se_Reason event;
               dec_PolicyVersion := gate_PolicyVersion gate; dec_DecidedAt := at_ |}
  end.

Definition recordPlanApprovalDecision (approved : bool) (event : StateEvent) (at_ : time)
    (current : option PlanApprovalStatus) : option PlanApprovalStatus :=
  match approval_to_decide current event with
  | None => None
  | Some a =>
      if appr_LifecycleState a != PlanApprovalPending then Some a else
      Some {| appr_LifecycleState :=
                if approved then PlanApprovalApproved else PlanApprovalRejected;
              appr_Gate := appr_Gate a;
              appr_Decision := Some (approval_decision approved (appr_Gate a) event at_) |}
  end.

Definition approval_pending (current : option PlanApprovalStatus) : bool :=
  match current with
  | Some a => appr_LifecycleState a == PlanApprovalPending
  | None => false
  end.

Definition applyApprovalGateEvent (event : StateEvent) (lifecycle : string) (at_ : time)
    (current : option PlanApprovalStatus) : option PlanApprovalStatus :=
  if se_Kind event == EventPlanBlocked then
    match se_Approval event with
    | None => current
    | Some ea => Some {| appr_LifecycleState := PlanApprovalPending; appr_Gate := sea_Gate ea;
                         appr_Decision := None |}
    end
  else if se_Kind event == EventPlanApproved then recordPlanApprovalDecision true event at_ current
  else if se_Kind event == EventPlanRejected then recordPlanApprovalDecision false event at_ current
  else if (lifecycle != PlanLifecycleBlocked) && approval_pending current then None
  else current.

Definition applyPlanEvent (s : State) (lifecycle : string) (event : StateEvent) (at_ : time) :
    State :=
  let status := Status s in
  {| s with Status :=
     {| status with
        st_LifecycleState := lifecycle;
        st_Reason := se_Reason event;
        st_StartedAt := if (se_Kind event == EventPlanStarted) &&
                           time_is_zero (st_StartedAt status)
                        then at_ else st_StartedAt status;
        st_BlockedAt := if lifecycle == PlanLifecycleBlocked then at_
                        else if negb (time_is_zero (st_BlockedAt status)) then zero_time
                        else st_BlockedAt status;
        st_Approval := applyApprovalGateEvent event lifecycle at_ (st_Approval status) |} |}.

(** ** Node events *)

Definition err_unknown_node : go_error := Errorf ErrInvalidRunPlan "unknown node %q".

Definition set_node (s : State) (id : string) (node : PlanNodeStatus) : State :=
  {| s with nodes := <[id := node]> (nodes s) |}.

(** The tail every successful handler shares: [s.refresh(at); s.transitions++]. *)
Definition commit (s : State) (at_ : time) : State * result unit :=
  (count_transition (refresh s at_), Ok tt).

Definition publishArtifacts (s : State) (event : StateEvent) (at_ : time) : State * result unit :=
  let publish (s : State) :=
    let status := Status s in
    commit {| s with Status := {| status with
                st_Artifacts := st_Artifacts status ++ se_Artifacts event |} |} at_ in
  if se_NodeID event == "" then publish s else
  match nodes s !! se_NodeID event with
  | None => (s, Err err_unknown_node)
  | Some node =>
      publish (set_node s (se_NodeID event)
        {| node with ns_Artifacts := ns_Artifacts node ++ se_Artifacts event;
                     ns_UpdatedAt := at_ |})
  end.

Definition touchNode (s : State) (nodeID : string) (at_ : time) : State * result unit :=
  if nodeID == "" then commit s at_ else
  match nodes s !! nodeID with
  | None => (s, Err err_unknown_node)
  | Some node => commit (set_node s nodeID {| node with ns_UpdatedAt := at_ |}) at_
  end.

(** The lifecycle-dependent fields: attempts and the start and completion times. *)
Definition stamp_lifecycle (previous lifecycle : string) (event : StateEvent) (at_ : time)
    (node : PlanNodeStatus) : PlanNodeStatus :=
  if lifecycle == PlanNodeRunning then
    if previous != PlanNodeRunning then
      {| node with ns_Attempts := if (0 <? se_Attempt event)%Z then se_Attempt event
                                  else int32 (ns_Attempts node + 1);
                   ns_StartedAt := at_;
                   ns_CompletedAt := zero_time |}
    else node
  else if bool_decide (lifecycle ∈ [PlanNodeSucceeded; PlanNodeFailed; PlanNodeSkipped;
                                    PlanNodeCanceled]) then
    {| node with ns_CompletedAt := at_ |}
  else node.

Definition transitioned (node : PlanNodeStatus) (lifecycle : string) (event : StateEvent)
    (at_ : time) : PlanNodeStatus :=
  let moved := {| node with ns_LifecycleState := lifecycle;
                            ns_Reason := se_Reason event;
                            ns_RunID := if se_RunID event != "" then se_RunID event
                                        else ns_RunID node |} in
  let stamped := stamp_lifecycle (ns_LifecycleState node) lifecycle event at_ moved in
  {| stamped with ns_Artifacts := ns_Artifacts stamped ++ se_Artifacts event;
                  ns_UpdatedAt := at_ |}.

Definition transitionNode (s : State) (nodeID lifecycle : string) (event : StateEvent)
    (at_ : time) : State * result unit :=
  match nodes s !! nodeID with
  | None => (s, Err err_unknown_node)
  | Some node => commit (set_node s nodeID (transitioned node lifecycle event at_)) at_
  end.

Definition retried (node : PlanNodeStatus) (event : StateEvent) (at_ : time) : PlanNodeStatus :=
  {| node with
     ns_Attempts := if (ns_Attempts node =? 0)%Z && (1 <? se_Attempt event)%Z
                    then (se_Attempt event - 1)%Z else ns_Attempts node;
     ns_LifecycleState := PlanNodeReady;
     ns_RunID := "";
     ns_Reason := se_Reason event;
     ns_StartedAt := zero_time;
     ns_CompletedAt := zero_time;
     ns_UpdatedAt := at_ |}.

Definition retryNode (s : State) (nodeID : string) (event : StateEvent) (at_ : time) :
    State * result unit :=
  match nodes s !! nodeID with
  | None => (s, Err err_unknown_node)
  | Some node => commit (set_node s nodeID (retried node event at_)) at_
  end.

(** [usage.SpentCents += delta.SpentCents], a 64-bit sum. *)
Definition spend (usage delta : PlanBudgetUsage) : PlanBudgetUsage :=
  {| usage_SpentCents := int64 (usage_SpentCents usage + usage_SpentCents delta) |}.

Definition reportBudget (s : State) (event : StateEvent) (at_ : time) : State * result unit :=
  let report (s : State) :=
    let status := Status s in
    commit {| s with Status := {| status with
                st_BudgetUsage := spend (st_BudgetUsage status) (se_BudgetDelta event) |} |} at_ in
  if (usage_SpentCents (se_BudgetDelta event) <? 0)%Z then
    (s, Err (Errorf ErrInvalidRunPlan "budget delta cannot be negative"))
  else if se_NodeID event == "" then report s else
  match nodes s !! se_NodeID event with
  | None => (s, Err err_unknown_node)
  | Some node =>
      report (set_node s (se_NodeID event)
        {| node with ns_BudgetUsage := spend (ns_BudgetUsage node) (se_BudgetDelta event);
                     ns_UpdatedAt := at_ |})
  end.

(** ** Expansion *)

(** The insertion loop; on an error the nodes inserted so far stay. *)
Fixpoint expand_nodes (m : gmap string PlanNodeStatus) (delta : list PlanNodeSpec) (at_ : time) :
    gmap string PlanNodeStatus * result unit :=
  match delta with
  | [] => (m, Ok tt)
  | node :: delta =>
      if node_NodeID node == "" then
        (m, Err (Errorf ErrInvalidRunPlan "expansion node id is required"))
      else if bool_decide (is_Some (m !! node_NodeID node)) then
        (m, Err (Errorf ErrInvalidRunPlan "expansion node %q already exists"))
      else expand_nodes (<[node_NodeID node := pending_status node at_]> m) delta at_
  end.

Definition stale_approval (a : PlanApprovalStatus) : PlanApprovalStatus :=
  {| a with appr_LifecycleState := PlanApprovalStale |}.

Definition expand (s : State) (delta : PlanDelta) (at_ : time) : State * result unit :=
  if bool_decide (delta_Nodes delta = []) && bool_decide (delta_Edges delta = []) then
    (s, Err (Errorf ErrInvalidRunPlan "expansion delta is empty"))
  else
    let '(m, r) := expand_nodes (nodes s) (delta_Nodes delta) at_ in
    let s := {| s with nodes := m |} in
    match r with
    | Err e => (s, Err e)
    | Ok _ =>
        let status := Status s in
        commit {| s with Status := {| status with
                    st_Approval := stale_approval <$> st_Approval status |} |} at_
    end.

(** ** Apply *)

Definition event_at (now : time) (event : StateEvent) : time :=
  if time_is_zero (se_At event) then now else se_At event.

Definition Apply (now : time) (s : State) (event : StateEvent) : State * result unit :=
  let at_ := event_at now event in
  if se_Kind event == EventPlanExpanded then expand s (se_Expansion event) at_
  else match reducerPlanLifecycleForEvent (se_Kind event) with
  | Some lifecycle => commit (applyPlanEvent s lifecycle event at_) at_
  | None =>
  match reducerNodeLifecycleForEvent (se_Kind event) with
  | Some lifecycle => transitionNode s (se_NodeID event) lifecycle event at_
  | None =>
  if se_Kind event == EventNodeRetryScheduled then retryNode s (se_NodeID event) event at_
  else if touchNodeEvent (se_Kind event) then touchNode s (se_NodeID event) at_
  else if se_Kind event == EventArtifactsPublished then publishArtifacts s event at_
  else if se_Kind event == EventBudgetReported then reportBudget s event at_
  else (s, Err (Errorf ErrInvalidRunPlan "unknown plan event %q"))
  end end.

Definition NodeStatus (s : State) (nodeID : string) : option PlanNodeStatus := nodes s !! nodeID.

Definition AppliedTransitions (s : State) : Z := transitions s.

(** ** The reducer as a step relation *)

(** How one event changes the node it names. *)
Inductive node_step (at_ : time) (ev : StateEvent) (n : PlanNodeStatus) : PlanNodeStatus → Prop :=
  | step_transition lc :
      reducerNodeLifecycleForEvent (se_Kind ev) = Some lc →
      node_step at_ ev n (transitioned n lc ev at_)
  | step_retry :
      se_Kind ev = EventNodeRetryScheduled → node_step at_ ev n (retried n ev at_)
  | step_touch :
      touchNodeEvent (se_Kind ev) = true → node_step at_ ev n {| n with ns_UpdatedAt := at_ |}
  | step_publish :
      se_Kind ev = EventArtifactsPublished →
      node_step at_ ev n {| n with ns_Artifacts := ns_Artifacts n ++ se_Artifacts ev;
                                   ns_UpdatedAt := at_ |}
  | step_budget :
      se_Kind ev = EventBudgetReported → (0 ≤ usage_SpentCents (se_BudgetDelta ev))%Z →
      node_step at_ ev n {| n with ns_BudgetUsage := spend (ns_BudgetUsage n) (se_BudgetDelta ev);
                                   ns_UpdatedAt := at_ |}.

(** How a node event changes the plan-level fields. *)
Inductive status_step (ev : StateEvent) (st : RunPlanStatus) : RunPlanStatus → Prop :=
  | status_keep :
      se_Kind ev ≠ EventBudgetReported → se_Kind ev ≠ EventArtifactsPublished →
      status_step ev st st
  | status_publish :
      se_Kind ev = EventArtifactsPublished →
      status_step ev st {| st with st_Artifacts := st_Artifacts st ++ se_Artifacts ev |}
  | status_budget :
      se_Kind ev = EventBudgetReported → (0 ≤ usage_SpentCents (se_BudgetDelta ev))%Z →
      status_step ev st {| st with st_BudgetUsage := spend (st_BudgetUsage st) (se_BudgetDelta ev) |}.

(** A change of topology invalidates the approval gate. *)
Definition gate_stale (st : RunPlanStatus) : RunPlanStatus :=
  {| st with st_Approval := stale_approval <$> st_Approval st |}.

(** The changes of one event, before the projection is refreshed. *)
Inductive effect (at_ : time) (ev : StateEvent) (s : State) : State → Prop :=
  | eff_plan lc :
      reducerPlanLifecycleForEvent (se_Kind ev) = Some lc →
      effect at_ ev s (applyPlanEvent s lc ev at_)
  | eff_node n n' st' :
      nodes s !! se_NodeID ev = Some n → node_step at_ ev n n' → status_step ev (Status s) st' →
      effect at_ ev s {| s with Status := st'; nodes := <[se_NodeID ev := n']> (nodes s) |}
  | eff_status st' :
      se_NodeID ev = "" → status_step ev (Status s) st' →
      se_Kind ev ≠ EventPlanExpanded →
      effect at_ ev s {| s with Status := st' |}
  | eff_expand m :
      se_Kind ev = EventPlanExpanded →
      expand_nodes (nodes s) (delta_Nodes (se_Expansion ev)) at_ = (m, Ok tt) →
      effect at_ ev s {| s with Status := gate_stale (Status s); nodes := m |}.

(** The state after the shared tail of every successful handler. *)
Definition committed (s : State) (at_ : time) : State := count_transition (refresh s at_).

Ltac kind_cases :=
  repeat match goal with
  | |- context [if bool_decide _ then _ else _] => case_bool_decide
  | |- context [if touchNodeEvent ?x then _ else _] => destruct (touchNodeEvent x) eqn:?
  | |- context [match nodes ?s !! ?x with Some _ => _ | None => _ end] =>
      destruct (nodes s !! x) eqn:?
  end.

(** A successful [Apply] is one effect followed by the shared tail. *)
Lemma Apply_Ok now s ev s' :
  Apply now s ev = (s', Ok tt) →
  ∃ s1, effect (event_at now ev) ev s s1 ∧ s' = committed s1 (event_at now ev).
Proof.
  unfold Apply. generalize (event_at now ev) as at_. intros at_.
  case_bool_decide as Hexp.
  { unfold expand. case_match; [done|].
    destruct (expand_nodes _ _ _) as [m [[]|]] eqn:Hm; [|done].
    intros [= <-]. eexists. split; [by apply eff_expand|]. by destruct s. }
  destruct (reducerPlanLifecycleForEvent (se_Kind ev)) as [lc|] eqn:Hplan.
  { intros [= <-]. eexists. split; [by apply eff_plan|done]. }
  destruct (reducerNodeLifecycleForEvent (se_Kind ev)) as [lc|] eqn:Hnode.
  { assert (status_step ev (Status s) (Status s)) as Hkeep
      by (constructor; intros Hk; by rewrite Hk in Hnode).
    unfold transitionNode. kind_cases; intros [= <-].
    eexists. split; [eapply eff_node; [done|by eapply step_transition|done]|by destruct s]. }
  case_bool_decide as Hretry.
  { unfold retryNode. kind_cases; intros [= <-].
    eexists. split; [eapply eff_node; [done|by eapply step_retry|]|by destruct s].
    constructor; by rewrite Hretry. }
  destruct (touchNodeEvent (se_Kind ev)) eqn:Htouch.
  { assert (status_step ev (Status s) (Status s)) as Hkeep
      by (constructor; intros Hk; by rewrite Hk in Htouch).
    unfold touchNode. kind_cases; intros [= <-]; eexists; (split; [|by destruct s]).
    - pose proof (eff_status at_ ev s (Status s)) as Heff. destruct s. by apply Heff.
    - eapply eff_node; [done|by eapply step_touch|done]. }
  case_bool_decide as Hpub.
  { unfold publishArtifacts. kind_cases; intros [= <-]; eexists; (split; [|by destruct s]).
    - eapply eff_status; [done|by apply status_publish|done].
    - eapply eff_node; [done|by eapply step_publish|by apply status_publish]. }
  case_bool_decide as Hbud; [|done].
  unfold reportBudget. destruct (Z.ltb_spec (usage_SpentCents (se_BudgetDelta ev)) 0); [done|].
  kind_cases; intros [= <-]; eexists; (split; [|by destruct s]).
  - eapply eff_status; [done|by apply status_budget|done].
  - eapply eff_node; [done|by eapply step_budget|by apply status_budget].
Qed.

(** A failed [Apply] changes nothing the plan exposes; only a failed expansion
    leaves nodes behind, and none is lost. *)
Lemma Apply_Err now s ev s' e :
  Apply now s ev = (s', Err e) →
  err_is e = ErrInvalidRunPlan ∧ Status s' = Status s ∧ transitions s' = transitions s ∧
  (se_Kind ev ≠ EventPlanExpanded → s' = s) ∧ nodes s ⊆ nodes s'.
Proof.
  assert (∀ m delta at_ m' r, expand_nodes m delta at_ = (m', r) →
    m ⊆ m' ∧ (∀ e, r = Err e → err_is e = ErrInvalidRunPlan)) as Hexp.
  { intros m delta at_. revert m. induction delta as [|node delta IH]; intros m m' r; cbn.
    { intros [= <- <-]. by split. }
    kind_cases; try (intros [= <- <-]; split; [done|by intros ? [= <-]]). intros [Hsub He]%IH. split; [|done].
    etrans; [|done]. apply insert_subseteq. by apply eq_None_not_Some. }
  unfold Apply. generalize (event_at now ev) as at_. intros at_.
  case_bool_decide as Hk.
  { unfold expand. case_match; [by intros [= <- <-]|].
    destruct (expand_nodes _ _ _) as [m [[]|]] eqn:Hm; [done|]. apply Hexp in Hm as [Hsub He].
    intros [= <- <-]. split_and!; [by apply He|done|done|done|done]. }
  destruct (reducerPlanLifecycleForEvent (se_Kind ev)) as [lc|]; [done|].
  destruct (reducerNodeLifecycleForEvent (se_Kind ev)) as [lc|];
    unfold transitionNode, retryNode, touchNode, publishArtifacts, reportBudget;
    kind_cases; try done; try (intros [= <- <-]; done);
    case_match; try done; intros [= <- <-]; done.
Qed.

(** ** Consequences for the node map *)

Lemma expand_nodes_Ok m delta at_ m' :
  expand_nodes m delta at_ = (m', Ok tt) →
  m ⊆ m' ∧ dom m' = dom m ∪ list_to_set (node_NodeID <$> delta) ∧
  (∀ id n, m' !! id = Some n → m !! id = Some n ∨
     ∃ node, node ∈ delta ∧ id = node_NodeID node ∧ id ≠ "" ∧ n = pending_status node at_).
Proof.
  revert m. induction delta as [|node delta IH]; intros m; cbn.
  { intros [= ->]. split_and!; [done|set_solver|auto]. }
  kind_cases; [done|done|]. intros (Hsub & Hdom & Hnew)%IH.
  assert (m !! node_NodeID node = None) as Hm by (by apply eq_None_not_Some).
  split_and!.
  - etrans; [|done]. by apply insert_subseteq.
  - rewrite Hdom. set_solver.
  - intros id n [Hl|(node' & ? & ? & ? & ?)]%Hnew.
    + apply lookup_insert_Some in Hl as [[<- <-]|[? ?]]; [|auto].
      right. exists node. split; [left|done].
    + right. exists node'. split; [by right|done].
Qed.

Lemma expand_nodes_origin m delta at_ m' r id n :
  expand_nodes m delta at_ = (m', r) → m' !! id = Some n →
  m !! id = Some n ∨
  m !! id = None ∧ ∃ node, id = node_NodeID node ∧ n = pending_status node at_.
Proof.
  revert m. induction delta as [|node delta IH]; intros m; cbn; [intros [= <- _]; auto|].
  kind_cases; [intros [= <- _]; auto..|]. intros Hm Hl. destruct (IH _ Hm Hl) as [Hi|[Hi ?]].
  - apply lookup_insert_Some in Hi as [[<- <-]|[_ ?]]; [|auto].
    right. split; [by apply eq_None_not_Some|eauto].
  - apply lookup_insert_None in Hi as [? _]. auto.
Qed.

(** Where a node of the next state comes from. *)
Lemma effect_origin at_ ev s s1 id n1 :
  effect at_ ev s s1 → nodes s1 !! id = Some n1 →
  nodes s !! id = Some n1 ∨
  (∃ n, nodes s !! id = Some n ∧ node_step at_ ev n n1) ∨
  (∃ node, node ∈ delta_Nodes (se_Expansion ev) ∧ se_Kind ev = EventPlanExpanded ∧
     id = node_NodeID node ∧ id ≠ "" ∧ n1 = pending_status node at_).
Proof.
  intros [lc Hlc|n n' st' Hn Hstep Hst|st' Hid Hst|m Hk Hexp] Hl; cbn in Hl; auto.
  - apply lookup_insert_Some in Hl as [[<- <-]|[_ Hl]]; eauto.
  - apply expand_nodes_Ok in Hexp as (_ & _ & Hnew). destruct (Hnew _ _ Hl) as [?|(node & ? & ? & ? & ?)];
      eauto 10.
Qed.

(** The same for any outcome of [Apply]: a refused expansion may leave new pending
    nodes behind. *)
Lemma Apply_origin now s ev s' r id n' :
  Apply now s ev = (s', r) → nodes s' !! id = Some n' →
  nodes s !! id = Some n' ∨
  (∃ n, nodes s !! id = Some n ∧ id = se_NodeID ev ∧ node_step (event_at now ev) ev n n') ∨
  (nodes s !! id = None ∧ se_Kind ev = EventPlanExpanded ∧
     ∃ node at_, n' = pending_status node at_ ∧ id = node_NodeID node).
Proof.
  intros Ha Hl. destruct r as [[]|e].
  - apply Apply_Ok in Ha as (s1 & Heff & ->).
    destruct Heff as [lc Hlc|n n0 st' Hn Hstep Hst|st' Hid Hst|m Hk Hexp]; cbn in Hl; auto.
    + apply lookup_insert_Some in Hl as [[<- <-]|[_ Hl]]; eauto 6.
    + destruct (expand_nodes_origin _ _ _ _ _ _ _ Hexp Hl) as [?|(? & node & -> & ->)]; eauto 10.
  - destruct (decide (se_Kind ev = EventPlanExpanded)) as [Hk|Hk].
    2: { apply Apply_Err in Ha as (_ & _ & _ & Hs & _). rewrite Hs in Hl by done. auto. }
    unfold Apply, expand in Ha. rewrite bool_decide_eq_true_2 in Ha by done.
    case_match; [injection Ha as <- _; auto|].
    destruct (expand_nodes _ _ _) as [m [[]|e']] eqn:Hm; [done|]. injection Ha as <- _. cbn in Hl.
    destruct (expand_nodes_origin _ _ _ _ _ _ _ Hm Hl) as [?|(? & node & -> & ->)]; eauto 10.
Qed.

(** A node of the state stays, changed at most by a step of its own. *)
Lemma effect_keeps at_ ev s s1 id n :
  effect at_ ev s s1 → nodes s !! id = Some n →
  ∃ n1, nodes s1 !! id = Some n1 ∧ (n1 = n ∨ (id = se_NodeID ev ∧ node_step at_ ev n n1)).
Proof.
  intros [lc Hlc|n0 n' st' Hn Hstep Hst|st' Hid Hst|m Hk Hexp] Hl; cbn; eauto.
  - destruct (decide (se_NodeID ev = id)) as [<-|Hne].
    + rewrite lookup_insert_eq. simplify_eq. eauto.
    + rewrite lookup_insert_ne by done. eauto.
  - apply expand_nodes_Ok in Hexp as (Hsub & _). exists n. split; [|auto].
    by eapply lookup_weaken.
Qed.

Lemma Apply_dom now s ev s' r : Apply now s ev = (s', r) → dom (nodes s) ⊆ dom (nodes s').
Proof.
  destruct r as [[]|e].
  - intros (s1 & Heff & ->)%Apply_Ok id [n Hl]%elem_of_dom.
    destruct (effect_keeps _ _ _ _ _ _ Heff Hl) as (n1 & Hl1 & _). by eapply elem_of_dom_2.
  - intros (_ & _ & _ & _ & Hsub)%Apply_Err. by apply subseteq_dom.
Qed.

Lemma nodes_committed s at_ : nodes (committed s at_) = nodes s.
Proof. done. Qed.

(** The six transitions of a node. *)
Lemma transition_cases kind lc :
  reducerNodeLifecycleForEvent kind = Some lc →
  kind = EventNodeReady ∧ lc = PlanNodeReady ∨ kind = EventNodeStarted ∧ lc = PlanNodeRunning ∨
  kind = EventNodeSucceeded ∧ lc = PlanNodeSucceeded ∨ kind = EventNodeFailed ∧ lc = PlanNodeFailed ∨
  kind = EventNodeSkipped ∧ lc = PlanNodeSkipped ∨ kind = EventNodeCanceled ∧ lc = PlanNodeCanceled.
Proof.
  unfold reducerNodeLifecycleForEvent, kind_lookup. intros Hlc%elem_of_list_to_map_2. rewrite !elem_of_cons, elem_of_nil in Hlc. naive_solver.
Qed.

Lemma transitioned_lifecycle n lc ev at_ : ns_LifecycleState (transitioned n lc ev at_) = lc.
Proof. unfold transitioned, stamp_lifecycle. cbn. by repeat case_match. Qed.

Lemma transitioned_id n lc ev at_ : ns_NodeID (transitioned n lc ev at_) = ns_NodeID n.
Proof. unfold transitioned, stamp_lifecycle. cbn. by repeat case_match. Qed.

(** Steps do not change what identifies a node. *)
Lemma node_step_identity at_ ev n n' :
  node_step at_ ev n n' → ns_NodeID n' = ns_NodeID n ∧ ns_Backend n' = ns_Backend n.
Proof.
  destruct 1; try done. unfold transitioned, stamp_lifecycle. cbn. by repeat case_match.
Qed.

(** What a transition and a touch make of the node they name. *)
Lemma Apply_transition now s ev s' lc n :
  Apply now s ev = (s', Ok tt) → reducerNodeLifecycleForEvent (se_Kind ev) = Some lc →
  nodes s !! se_NodeID ev = Some n →
  nodes s' !! se_NodeID ev = Some (transitioned n lc ev (event_at now ev)).
Proof.
  intros Ha Hlc Hn. unfold Apply in Ha.
  assert (se_Kind ev ≠ EventPlanExpanded ∧ reducerPlanLifecycleForEvent (se_Kind ev) = None) as [Hk Hp].
  { by destruct (transition_cases _ _ Hlc) as [[-> _]|[[-> _]|[[-> _]|[[-> _]|[[-> _]|[-> _]]]]]]. }
  rewrite bool_decide_eq_false_2, Hp, Hlc in Ha by done. unfold transitionNode in Ha. rewrite Hn in Ha.
  injection Ha as <-. cbn. by rewrite lookup_insert_eq.
Qed.

Lemma Apply_retry now s ev s' n :
  Apply now s ev = (s', Ok tt) → se_Kind ev = EventNodeRetryScheduled →
  nodes s !! se_NodeID ev = Some n →
  nodes s' !! se_NodeID ev = Some (retried n ev (event_at now ev)).
Proof.
  intros Ha Hk Hn.
  assert (Apply now s ev = retryNode s (se_NodeID ev) ev (event_at now ev)) as Hr
    by (unfold Apply; rewrite Hk; reflexivity).
  rewrite Hr in Ha. unfold retryNode in Ha. rewrite Hn in Ha. injection Ha as <-. apply lookup_insert_eq.
Qed.

Lemma Apply_touch now s ev s' n :
  Apply now s ev = (s', Ok tt) → touchNodeEvent (se_Kind ev) = true →
  nodes s !! se_NodeID ev = Some n →
  ∃ t, nodes s' !! se_NodeID ev = Some {| n with ns_UpdatedAt := t |} ∨
       nodes s' !! se_NodeID ev = Some n.
Proof.
  intros (s1 & Heff & ->)%Apply_Ok Ht Hn. exists (event_at now ev).
  destruct (effect_keeps _ _ _ _ _ _ Heff Hn) as (n1 & Hl & [->|[_ Hs]]); [by right|left].
  destruct Hs as [lc Hlc|Hk|Hk|Hk|Hk Hd]; [|by rewrite Hk in Ht|done|by rewrite Hk in Ht..].
  by destruct (transition_cases _ _ Hlc) as [[Hk _]|[[Hk _]|[[Hk _]|[[Hk _]|[[Hk _]|[Hk _]]]]]];
    rewrite Hk in Ht.
Qed.

(** ** Reachable states *)

(** The states of a plan: created from its spec, then one successful [Apply] after
    the other, with a clock that has left the zero instant. *)
Inductive reachable (spec : RunPlanSpec) : State → Prop :=
  | reach_new now : reachable spec (NewState spec now)
  | reach_apply now s ev s' :
      reachable spec s → now ≠ zero_time → Apply now s ev = (s', Ok tt) → reachable spec s'.

Lemma event_at_nonzero now ev : now ≠ zero_time → event_at now ev ≠ zero_time.
Proof. unfold event_at, time_is_zero. by case_bool_decide. Qed.

(** Rule induction in terms of effects. *)
Lemma reachable_effects spec (P : State → Prop) :
  (∀ now, P (NewState spec now)) →
  (∀ at_ ev s s1, reachable spec s → P s → at_ ≠ zero_time → effect at_ ev s s1 →
     P (committed s1 at_)) →
  ∀ s, reachable spec s → P s.
Proof.
  intros Hnew Hstep s. induction 1 as [now|now s ev s' Hr IH Hnow Ha]; [done|].
  apply Apply_Ok in Ha as (s1 & Heff & ->). eapply Hstep; [done..| |done].
  by apply event_at_nonzero.
Qed.

Lemma NewState_nodes spec now id n :
  nodes (NewState spec now) !! id = Some n →
  ∃ node, node ∈ spec_Nodes spec ∧ id = node_NodeID node ∧ n = pending_status node now.
Proof.
  cbn. induction (spec_Nodes spec) as [|node l IH] using rev_ind; [done|].
  rewrite foldl_app. cbn. intros [[<- <-]|[_ Hl]]%lookup_insert_Some.
  - exists node. split; [set_solver|done].
  - destruct (IH Hl) as (node' & ? & ?). exists node'. split; [set_solver|done].
Qed.

Lemma NewState_dom spec now :
  dom (nodes (NewState spec now)) = list_to_set (node_ids spec).
Proof.
  unfold node_ids. cbn. induction (spec_Nodes spec) as [|node l IH] using rev_ind; [done|].
  rewrite foldl_app, fmap_app, list_to_set_app_L. cbn. rewrite dom_insert_L, IH. set_solver.
Qed.

(** An invariant of single nodes holds in every reachable state when new nodes have
    it and node steps keep it. *)
Lemma reachable_nodes spec (P : string → PlanNodeStatus → Prop) :
  (∀ node now, P (node_NodeID node) (pending_status node now)) →
  (∀ at_ ev id n n', at_ ≠ zero_time → P id n → node_step at_ ev n n' → P id n') →
  ∀ s, reachable spec s → ∀ id n, nodes s !! id = Some n → P id n.
Proof.
  intros Hnew Hstep. apply (reachable_effects spec (λ s, ∀ id n, nodes s !! id = Some n → P id n)).
  - intros now id n (node & _ & -> & ->)%NewState_nodes. apply Hnew.
  - intros at_ ev s s1 _ IH Hat Heff id n Hl. rewrite nodes_committed in Hl.
    destruct (effect_origin _ _ _ _ _ _ Heff Hl) as
      [?|[(n0 & ? & ?)|(node & _ & _ & -> & _ & ->)]]; eauto.
Qed.

(** ** The projection *)

(** [Status] is the projection of the node map: its node list is the map in id
    order, its active runs are the run ids of the running nodes. *)
Record wf (s : State) : Prop := {
  wf_ids : ∀ id n, nodes s !! id = Some n → ns_NodeID n = id;
  wf_nodes : st_Nodes (Status s) = sortedNodeStatuses (nodes s);
  wf_active : st_ActiveRunIDs (Status s) = active_run_ids (st_Nodes (Status s));
}.

Lemma elem_of_sortedNodeStatuses m n :
  n ∈ sortedNodeStatuses m ↔ ∃ id, m !! id = Some n.
Proof.
  unfold sortedNodeStatuses. rewrite list_elem_of_fmap. setoid_rewrite elem_of_sort_strings.
  setoid_rewrite list_elem_of_fmap. split.
  - intros (id & -> & [id' n'] & -> & Hl%elem_of_map_to_list). exists id'. cbn. by rewrite Hl.
  - intros [id Hl]. exists id. rewrite Hl. split; [done|]. exists (id, n).
    by rewrite elem_of_map_to_list.
Qed.

(** With keys equal to ids, the ids of the projection are the sorted keys. *)
Lemma sortedNodeStatuses_ids m :
  (∀ id n, m !! id = Some n → ns_NodeID n = id) →
  ns_NodeID <$> sortedNodeStatuses m = sort_strings ((map_to_list m).*1).
Proof.
  intros Hids. unfold sortedNodeStatuses. rewrite <-list_fmap_compose.
  rewrite <-(list_fmap_id (sort_strings _)) at 2. apply list_fmap_ext.
  intros i id Hi%list_elem_of_lookup_2. cbn.
  rewrite elem_of_sort_strings, list_elem_of_fmap in Hi.
  destruct Hi as ([id' n] & -> & Hl%elem_of_map_to_list). cbn. rewrite Hl. cbn. eauto.
Qed.

Lemma sortedNodeStatuses_NoDup m :
  (∀ id n, m !! id = Some n → ns_NodeID n = id) → NoDup (ns_NodeID <$> sortedNodeStatuses m).
Proof. intros Hids. rewrite sortedNodeStatuses_ids, NoDup_sort_strings by done. apply NoDup_fst_map_to_list. Qed.

Lemma wf_committed s at_ :
  (∀ id n, nodes s !! id = Some n → ns_NodeID n = id) → wf (committed s at_).
Proof. intros Hids. by split. Qed.

Lemma active_run_ids_nil statuses :
  (∀ n, n ∈ statuses → ns_LifecycleState n ≠ PlanNodeRunning) → active_run_ids statuses = [].
Proof.
  unfold active_run_ids. induction statuses as [|n l IH]; [done|]. intros Hall.
  rewrite filter_cons_False by (intros [Hr _]; by eapply (Hall n); [left|]).
  apply IH. intros x Hx. apply Hall. by right.
Qed.

Lemma reachable_ids spec s :
  reachable spec s → ∀ id n, nodes s !! id = Some n → ns_NodeID n = id.
Proof.
  revert s. apply reachable_nodes; [done|]. intros at_ ev id n n' _ <- Hs.
  by apply node_step_identity in Hs as [-> _].
Qed.

Lemma reachable_wf spec s : reachable spec s → wf s.
Proof.
  intros Hr. pose proof (reachable_ids _ _ Hr) as Hids. revert Hids.
  induction Hr as [now|now s ev s' Hr _ Hnow Ha]; intros Hids.
  - split; [done|done|]. symmetry. apply active_run_ids_nil. cbn.
    intros n [id (node & _ & _ & ->)%NewState_nodes]%elem_of_sortedNodeStatuses. done.
  - apply Apply_Ok in Ha as (s1 & Heff & ->). by apply wf_committed.
Qed.

Lemma wf_elem_nodes s n : wf s → n ∈ st_Nodes (Status s) ↔ nodes s !! ns_NodeID n = Some n.
Proof.
  intros [Hids Hnodes _]. rewrite Hnodes, elem_of_sortedNodeStatuses. split.
  - intros [id Hl]. by rewrite (Hids _ _ Hl).
  - eauto.
Qed.

Lemma elem_of_active_run_ids statuses r :
  r ∈ active_run_ids statuses ↔
  ∃ n, n ∈ statuses ∧ ns_LifecycleState n = PlanNodeRunning ∧ ns_RunID n = r ∧ r ≠ "".
Proof.
  unfold active_run_ids. rewrite list_elem_of_fmap. setoid_rewrite list_elem_of_filter.
  naive_solver.
Qed.

(** ** Plan-level fields *)

(** Only plan events change the lifecycle, its clocks and the gate, except that an
    expansion makes the gate stale. *)
Lemma effect_plan_fields at_ ev s s1 :
  effect at_ ev s s1 →
  (∃ lc, reducerPlanLifecycleForEvent (se_Kind ev) = Some lc ∧ s1 = applyPlanEvent s lc ev at_) ∨
  (st_LifecycleState (Status s1) = st_LifecycleState (Status s) ∧
   st_BlockedAt (Status s1) = st_BlockedAt (Status s) ∧
   st_StartedAt (Status s1) = st_StartedAt (Status s) ∧
   (st_Approval (Status s1) = st_Approval (Status s) ∨
    se_Kind ev = EventPlanExpanded ∧
    st_Approval (Status s1) = stale_approval <$> st_Approval (Status s))).
Proof.
  intros [lc Hlc|n n' st' Hn Hstep Hst|st' Hid Hst|m Hk Hexp]; [eauto|right..]; cbn.
  - destruct Hst; cbn; split_and!; auto.
  - destruct Hst; cbn; split_and!; auto.
  - split_and!; auto.
Qed.

(** [BlockedAt] is set exactly while the plan is blocked. *)
Definition blocked_anchor (st : RunPlanStatus) : Prop :=
  st_BlockedAt st ≠ zero_time ↔ st_LifecycleState st = PlanLifecycleBlocked.

Lemma reachable_blocked spec s : reachable spec s → blocked_anchor (Status s).
Proof.
  revert s. apply reachable_effects; [done|].
  intros at_ ev s s1 _ IH Hat [(lc & _ & ->)|(Hl & Hb & _ & _)]%effect_plan_fields;
    unfold blocked_anchor in *; cbn.
  - case_bool_decide; [naive_solver|]. destruct (time_is_zero _) eqn:Hz; cbn; [|naive_solver].
    unfold time_is_zero in Hz. simplify_bool. naive_solver.
  - by rewrite Hl, Hb.
Qed.

(** ** The approval gate *)

(** A pending gate has no decision, a decided gate has one. *)
Definition gate_ok (a : PlanApprovalStatus) : Prop :=
  (appr_LifecycleState a = PlanApprovalPending ∧ appr_Decision a = None) ∨
  (appr_LifecycleState a ∈ [PlanApprovalApproved; PlanApprovalRejected] ∧
     is_Some (appr_Decision a)) ∨
  appr_LifecycleState a = PlanApprovalStale.

Lemma gate_ok_stale a : gate_ok (stale_approval a).
Proof. by right; right. Qed.

Lemma gate_ok_pending gate :
  gate_ok {| appr_LifecycleState := PlanApprovalPending; appr_Gate := gate;
             appr_Decision := None |}.
Proof. by left. Qed.

Lemma approval_to_decide_ok current ev a :
  (∀ a, current = Some a → gate_ok a) → approval_to_decide current ev = Some a → gate_ok a.
Proof.
  unfold approval_to_decide. intros Hok. destruct current; [naive_solver|].
  destruct (se_Approval ev) as [ea|]; [|done]. case_bool_decide; [done|].
  intros [= <-]. apply gate_ok_pending.
Qed.

Lemma recordPlanApprovalDecision_ok approved ev at_ current a :
  (∀ a, current = Some a → gate_ok a) →
  recordPlanApprovalDecision approved ev at_ current = Some a → gate_ok a.
Proof.
  intros Hok. unfold recordPlanApprovalDecision.
  destruct (approval_to_decide current ev) as [b|] eqn:Hb; [|done].
  case_bool_decide; cbn; intros [= <-].
  - right; left. cbn. split; [destruct approved; set_solver|eauto].
  - by eapply approval_to_decide_ok.
Qed.

Lemma reachable_gate spec s a :
  reachable spec s → st_Approval (Status s) = Some a → gate_ok a.
Proof.
  intros Hr. revert a. revert s Hr.
  apply (reachable_effects spec (λ s, ∀ a, st_Approval (Status s) = Some a → gate_ok a)); [done|].
  intros at_ ev s s1 _ IH _ [(lc & _ & ->)|(_ & _ & _ & [Ha|[_ Ha]])]%effect_plan_fields a; cbn.
  - unfold applyApprovalGateEvent. kind_cases.
    + destruct (se_Approval ev); [|apply IH]. intros [= <-]. apply gate_ok_pending.
    + by apply recordPlanApprovalDecision_ok.
    + by apply recordPlanApprovalDecision_ok.
    + case_match; [done|apply IH].
  - rewrite Ha. apply IH.
  - rewrite Ha. intros (b & _ & ->)%fmap_Some. apply gate_ok_stale.
Qed.

(** What may still happen to a gate that is no longer pending. *)
Definition gate_frozen (ev : StateEvent) (a a' : PlanApprovalStatus) : Prop :=
  appr_Gate a' = appr_Gate a ∧ appr_Decision a' = appr_Decision a ∧
  (appr_LifecycleState a' = appr_LifecycleState a ∨
   se_Kind ev = EventPlanExpanded ∧ appr_LifecycleState a' = PlanApprovalStale).

Lemma Apply_gate_frozen now s ev s' a :
  Apply now s ev = (s', Ok tt) → st_Approval (Status s) = Some a →
  appr_LifecycleState a ≠ PlanApprovalPending →
  (se_Kind ev = EventPlanBlocked → se_Approval ev = None) →
  ∃ a', st_Approval (Status s') = Some a' ∧ gate_frozen ev a a'.
Proof.
  intros (s1 & Heff & ->)%Apply_Ok Ha Hp Hb. cbn. unfold gate_frozen.
  destruct (effect_plan_fields _ _ _ _ Heff) as [(lc & _ & ->)|(_ & _ & _ & [Hs|[Hk Hs]])];
    [|rewrite Hs, Ha; cbn; naive_solver..]. cbn.
  unfold applyApprovalGateEvent, recordPlanApprovalDecision, approval_to_decide, approval_pending.
  rewrite Ha. kind_cases.
  - rewrite Hb by done. naive_solver.
  - rewrite bool_decide_eq_false_2 by done. naive_solver.
  - rewrite bool_decide_eq_false_2 by done. naive_solver.
  - rewrite (bool_decide_eq_false_2 (appr_LifecycleState a = _)) by done.
    rewrite andb_false_r. naive_solver.
Qed.

(** ** Node clocks *)

Definition terminal_states : list string :=
  [PlanNodeSucceeded; PlanNodeFailed; PlanNodeSkipped; PlanNodeCanceled].

(** A running node has started and not completed; a terminal node has completed. *)
Definition node_clocks (n : PlanNodeStatus) : Prop :=
  (ns_LifecycleState n = PlanNodeRunning →
     ns_StartedAt n ≠ zero_time ∧ ns_CompletedAt n = zero_time) ∧
  (ns_LifecycleState n ∈ terminal_states → ns_CompletedAt n ≠ zero_time).

Lemma node_step_clocks at_ ev n n' :
  at_ ≠ zero_time → node_clocks n → node_step at_ ev n n' → node_clocks n'.
Proof.
  intros Hat [Hrun Hterm] [lc Hlc|Hk|Hk|Hk|Hk Hd]; try done; [|by split; [|set_solver]].
  unfold node_clocks, transitioned, stamp_lifecycle, terminal_states. cbn.
  destruct (decide (lc = PlanNodeRunning)) as [->|Hne].
  - rewrite bool_decide_eq_true_2 by done.
    case_bool_decide as Hprev; cbn; (split; [auto|set_solver]).
  - rewrite bool_decide_eq_false_2 by done. case_bool_decide; cbn; by split.
Qed.

Lemma reachable_clocks spec s id n :
  reachable spec s → nodes s !! id = Some n → node_clocks n.
Proof.
  intros Hr. revert id n. revert s Hr. apply (reachable_nodes spec (λ _, node_clocks)).
  - intros node now. split; [done|]. cbn. unfold terminal_states. set_solver.
  - intros at_ ev _ n n' Hat Hn. by apply node_step_clocks.
Qed.

(** ** Histories *)

(** A history of events, each with the clock at which it was applied; it ends with
    the first event that is refused. *)
Fixpoint run (s : State) (history : list (time * StateEvent)) : State * result unit :=
  match history with
  | [] => (s, Ok tt)
  | (now, ev) :: history =>
      match Apply now s ev with
      | (s', Ok _) => run s' history
      | (s', Err e) => (s', Err e)
      end
  end.

Lemma run_inv (P : list StateEvent → State → Prop) s history s' :
  P [] s →
  (∀ past now ev s1 s2, P past s1 → Apply now s1 ev = (s2, Ok tt) → P (past ++ [ev]) s2) →
  run s history = (s', Ok tt) → P history.*2 s'.
Proof.
  intros H0 Hstep. cut (∀ past s1, P past s1 → run s1 history = (s', Ok tt) → P (past ++ history.*2) s').
  { intros Hcut. by apply (Hcut []). }
  clear H0 s. induction history as [|[now ev] history IH]; intros past s1 Hs1; cbn.
  { intros [= <-]. by rewrite app_nil_r. }
  destruct (Apply now s1 ev) as [s2 [[]|]] eqn:Ha; [|done]. intros Hrun.
  rewrite cons_middle, app_assoc. eapply IH; [|done]. by eapply Hstep.
Qed.

(** ** Budget accounting *)

(** What one event adds to the plan's budget, and what a history adds in total and
    to one node. *)
Definition spent (ev : StateEvent) : Z :=
  if se_Kind ev == EventBudgetReported then usage_SpentCents (se_BudgetDelta ev) else 0.
Definition total_spent (evs : list StateEvent) : Z := foldr (λ ev, Z.add (spent ev)) 0%Z evs.
Definition node_events (id : string) : list StateEvent → list StateEvent :=
  filter (λ ev, se_NodeID ev = id).

Lemma total_spent_snoc evs ev : total_spent (evs ++ [ev]) = (total_spent evs + spent ev)%Z.
Proof. unfold total_spent. induction evs; cbn in *; lia. Qed.

Lemma total_spent_filter id evs :
  Forall (λ ev, 0 ≤ spent ev)%Z evs →
  (0 ≤ total_spent (node_events id evs) ≤ total_spent evs)%Z.
Proof.
  unfold total_spent, node_events. induction 1 as [|ev evs Hev _ IH]; [done|].
  rewrite filter_cons. case_decide; cbn; lia.
Qed.

Lemma total_spent_nonneg evs : Forall (λ ev, 0 ≤ spent ev)%Z evs → (0 ≤ total_spent evs)%Z.
Proof. unfold total_spent. induction 1; cbn; lia. Qed.

(** [v] is [u] moved by [d] at 64 bits. *)
Definition moves (u v : PlanBudgetUsage) (d : Z) : Prop :=
  (usage_SpentCents v = usage_SpentCents u ∧ d = 0%Z) ∨
  usage_SpentCents v = int64 (usage_SpentCents u + d).

(** The budget effect of one event. *)
Lemma status_step_budget ev st st' :
  status_step ev st st' →
  (0 ≤ spent ev)%Z ∧ moves (st_BudgetUsage st) (st_BudgetUsage st') (spent ev).
Proof.
  unfold spent, moves. intros [Hb Hp|Hp|Hb Hd]; cbn.
  - rewrite bool_decide_eq_false_2 by done. auto with lia.
  - rewrite bool_decide_eq_false_2 by (by rewrite Hp). auto with lia.
  - rewrite bool_decide_eq_true_2 by done. auto.
Qed.

Lemma node_step_budget at_ ev n n' :
  node_step at_ ev n n' → moves (ns_BudgetUsage n) (ns_BudgetUsage n') (spent ev).
Proof.
  unfold spent, moves. intros [lc Hlc|Hk|Hk|Hk|Hk Hd].
  - left. split; [|by rewrite bool_decide_eq_false_2 by (intros Hk; by rewrite Hk in Hlc)].
    unfold transitioned, stamp_lifecycle. cbn. by repeat case_match.
  - left. by rewrite Hk.
  - left. split; [done|]. rewrite bool_decide_eq_false_2; [done|].
    intros Hb. by rewrite Hb in Hk.
  - left. by rewrite Hk.
  - right. by rewrite bool_decide_eq_true_2.
Qed.

Lemma plan_event_spends_nothing ev lc :
  reducerPlanLifecycleForEvent (se_Kind ev) = Some lc → spent ev = 0%Z.
Proof.
  intros Hlc. unfold spent. rewrite bool_decide_eq_false_2; [done|].
  intros Hk. by rewrite Hk in Hlc.
Qed.

Record budget_exact (past : list StateEvent) (s : State) : Prop := {
  be_nonneg : Forall (λ ev, 0 ≤ spent ev)%Z past;
  be_plan : (total_spent past ≤ max_int64)%Z →
    usage_SpentCents (st_BudgetUsage (Status s)) = total_spent past;
  be_node : (total_spent past ≤ max_int64)%Z → ∀ id n, nodes s !! id = Some n → id ≠ "" →
    usage_SpentCents (ns_BudgetUsage n) = total_spent (node_events id past);
  be_other : ∀ id, nodes s !! id = None → id ≠ "" → total_spent (node_events id past) = 0%Z;
}.

Lemma budget_exact_new spec now : budget_exact [] (NewState spec now).
Proof.
  split; [done|done| |done]. intros _ id n (node & _ & _ & ->)%NewState_nodes _. done.
Qed.

Lemma node_events_snoc id past ev :
  total_spent (node_events id (past ++ [ev])) =
  (total_spent (node_events id past) + if decide (se_NodeID ev = id) then spent ev else 0)%Z.
Proof.
  unfold node_events. rewrite filter_app, filter_cons. cbn. case_decide.
  - apply total_spent_snoc.
  - rewrite app_nil_r. lia.
Qed.

Lemma moves_zero u : moves u u 0.
Proof. by left. Qed.

(** A budget that moves by [d >= 0] without overflow. *)
Lemma moves_exact u v d :
  moves u v d → (0 ≤ usage_SpentCents u)%Z → (0 ≤ d)%Z →
  (usage_SpentCents u + d ≤ max_int64)%Z → usage_SpentCents v = (usage_SpentCents u + d)%Z.
Proof. intros [[-> ->]| ->] Hu Hd Hm; [lia|]. apply int64_small. lia. Qed.

(** The part of an event's cost charged to the node [id]. *)
Definition charged (ev : StateEvent) (id : string) : Z :=
  if decide (se_NodeID ev = id) then spent ev else 0.

(** How the budget of one node may change. *)
Definition node_moves (before after : option PlanNodeStatus) (d : Z) : Prop :=
  match before, after with
  | Some n, Some n' => moves (ns_BudgetUsage n) (ns_BudgetUsage n') d
  | None, Some n' => usage_SpentCents (ns_BudgetUsage n') = 0%Z ∧ d = 0%Z
  | None, None => d = 0%Z
  | Some _, None => False
  end.

Lemma node_moves_same o : node_moves o o 0.
Proof. destruct o; [apply moves_zero|done]. Qed.

Lemma effect_budget at_ ev s s1 :
  effect at_ ev s s1 →
  (0 ≤ spent ev)%Z ∧
  moves (st_BudgetUsage (Status s)) (st_BudgetUsage (Status s1)) (spent ev) ∧
  ∀ id, id ≠ "" → node_moves (nodes s !! id) (nodes s1 !! id) (charged ev id).
Proof.
  assert (spent ev = 0%Z → ∀ id, charged ev id = 0%Z) as Hzero.
  { intros Hs id. unfold charged. rewrite Hs. by case_decide. }
  intros [lc Hlc|n n' st' Hn Hstep Hst|st' Hid Hst|m Hk Hexp]; cbn.
  - apply plan_event_spends_nothing in Hlc as Hs. rewrite Hs. split_and!; [done|apply moves_zero|].
    intros id _. rewrite Hzero by done. apply node_moves_same.
  - apply status_step_budget in Hst as [Hnn Hm]. split_and!; [done..|]. intros id _.
    unfold charged. case_decide as Hid; subst.
    + rewrite Hn, lookup_insert_eq. cbn. by eapply node_step_budget.
    + rewrite lookup_insert_ne by done. apply node_moves_same.
  - apply status_step_budget in Hst as [Hnn Hm]. split_and!; [done..|]. intros id Hne.
    unfold charged. rewrite decide_False by congruence. apply node_moves_same.
  - assert (spent ev = 0%Z) as Hs by (unfold spent; by rewrite Hk).
    rewrite Hs. split_and!; [done|apply moves_zero|]. intros id _. rewrite Hzero by done.
    apply expand_nodes_Ok in Hexp as (Hsub & _ & Hnew).
    destruct (nodes s !! id) as [n|] eqn:Hn.
    + rewrite (lookup_weaken _ _ _ _ Hn Hsub). apply moves_zero.
    + destruct (m !! id) as [n|] eqn:Hm; [|done].
      destruct (Hnew _ _ Hm) as [?|(node & _ & _ & _ & ->)]; [congruence|done].
Qed.

Lemma budget_exact_effect past at_ ev s s1 :
  budget_exact past s → effect at_ ev s s1 → budget_exact (past ++ [ev]) (committed s1 at_).
Proof.
  intros [Hnn Hplan Hnode Hother] (Hev & Hp & Hn)%effect_budget.
  pose proof (total_spent_nonneg _ Hnn) as Htot.
  assert (∀ id, 0 ≤ charged ev id ≤ spent ev)%Z as Hch
    by (intros id; unfold charged; case_decide; lia).
  split.
  - apply Forall_app. auto.
  - rewrite total_spent_snoc. intros Hmax. rewrite <-Hplan by lia. cbn.
    apply moves_exact; [done|rewrite ?Hplan by lia; lia..].
  - rewrite total_spent_snoc. intros Hmax id n1 Hl Hid. rewrite node_events_snoc.
    fold (charged ev id). specialize (Hn id Hid). cbn in Hl. rewrite Hl in Hn.
    pose proof (total_spent_filter id _ Hnn) as Hf. specialize (Hch id).
    destruct (nodes s !! id) as [n|] eqn:Hs; cbn in Hn.
    + specialize (Hnode ltac:(lia) _ _ Hs Hid). rewrite <-Hnode in *. apply moves_exact; [done|lia..].
    + destruct Hn as [-> Hn]. rewrite (Hother id Hs Hid). lia.
  - intros id Hl Hid. rewrite node_events_snoc. fold (charged ev id).
    specialize (Hn id Hid). cbn in Hl. rewrite Hl in Hn.
    destruct (nodes s !! id) as [n|] eqn:Hs; cbn in Hn; [done|]. rewrite Hother by done. lia.
Qed.

Lemma run_budget spec now history s :
  run (NewState spec now) history = (s, Ok tt) → budget_exact history.*2 s.
Proof.
  apply (run_inv budget_exact); [apply budget_exact_new|].
  intros past now' ev s1 s2 Hb (s3 & Heff & ->)%Apply_Ok. by eapply budget_exact_effect.
Qed.

(** ** Snapshots *)

Lemma expectedPlanNodeSet_iff spec expected :
  expectedPlanNodeSet spec = Ok expected ↔
  (∀ node, node ∈ spec_Nodes spec → node_NodeID node ≠ "") ∧ NoDup (node_ids spec) ∧
  expected = list_to_set (node_ids spec).
Proof.
  unfold expectedPlanNodeSet.
  rewrite (foldM_collect node_NodeID (λ node, node_NodeID node ≠ "")).
  - rewrite (right_id_L ∅ (∪)). unfold node_ids. split; intros (Hall & Hnd & ->);
      (split; [|done]); intros node Hin; [by apply Hall|].
    split; [by apply Hall|apply not_elem_of_empty].
  - intros s node s'. repeat case_bool_decide; cbn; naive_solver.
Qed.

Definition statuses_by_id (statuses : list PlanNodeStatus) : gmap string PlanNodeStatus :=
  list_to_map ((λ n, (ns_NodeID n, n)) <$> statuses).

Lemma restorePlanNodeStatuses_iff status expected m :
  restorePlanNodeStatuses status expected = Ok m ↔
  (∀ n, n ∈ st_Nodes status → ns_NodeID n ≠ "" ∧ ns_NodeID n ∈ expected) ∧
  NoDup (ns_NodeID <$> st_Nodes status) ∧ m = statuses_by_id (st_Nodes status) ∧
  (∀ id, id ∈ expected → is_Some (m !! id)).
Proof.
  unfold restorePlanNodeStatuses. rewrite bind_Ok.
  setoid_rewrite (foldM_index ns_NodeID (λ n, ns_NodeID n ≠ "" ∧ ns_NodeID n ∈ expected)).
  - setoid_rewrite (right_id_L ∅ (∪)). setoid_rewrite lookup_empty.
    setoid_rewrite bind_Ok. setoid_rewrite forM_Ok. setoid_rewrite elem_of_elements.
    setoid_rewrite fail_if_Ok. setoid_rewrite bool_decide_eq_false.
    setoid_rewrite not_eq_None_Some. fold (statuses_by_id (st_Nodes status)).
    split.
    + intros (m' & (Hall & Hnd & ->) & _ & Hex & [= <-]). naive_solver.
    + intros (Hall & Hnd & -> & Hex). eexists. split; [naive_solver|]. by exists tt.
  - intros m1 n m2. unfold restorePlanNodeStatus.
    destruct (m1 !! ns_NodeID n) eqn:Hn; repeat case_bool_decide; cbn; naive_solver.
Qed.

(** The projection determines the node map. *)
Lemma statuses_by_id_sorted m :
  (∀ id n, m !! id = Some n → ns_NodeID n = id) → statuses_by_id (sortedNodeStatuses m) = m.
Proof.
  intros Hids. apply map_eq. intros id. apply option_eq. intros n. unfold statuses_by_id.
  rewrite <-elem_of_list_to_map
    by (rewrite <-list_fmap_compose; by apply sortedNodeStatuses_NoDup).
  rewrite list_elem_of_fmap. setoid_rewrite elem_of_sortedNodeStatuses. split.
  - intros (n' & [= -> ->] & id' & Hl). by rewrite (Hids _ _ Hl).
  - intros Hl. exists n. rewrite (Hids _ _ Hl). eauto.
Qed.

Lemma refresh_wf s : wf s → refresh s (st_UpdatedAt (Status s)) = s.
Proof.
  intros [_ Hn Ha]. unfold refresh. rewrite <-Hn, <-Ha. by destruct s as [[] ? ?].
Qed.

Definition reset_transitions (s : State) : State := {| s with transitions := 0%Z |}.

Lemma NewStateFromStatus_wf spec s :
  wf s → spec_PlanID spec ≠ "" → st_PlanID (Status s) = spec_PlanID spec →
  NoDup (node_ids spec) → (∀ node, node ∈ spec_Nodes spec → node_NodeID node ≠ "") →
  dom (nodes s) = list_to_set (node_ids spec) →
  NewStateFromStatus spec (Status s) = Ok (reset_transitions s).
Proof.
  intros Hwf Hplan Hst Hnd Hne Hdom. unfold NewStateFromStatus.
  rewrite Hst, !(bool_decide_eq_false_2 (spec_PlanID spec = "")) by done. cbn [fail_if mbind result_bind].
  set (restored := {| _ with st_PlanID := _ |}).
  assert (restored = Status s) as -> by (unfold restored; rewrite <-Hst; by destruct s as [[] ? ?]).
  rewrite Hst, bool_decide_eq_true_2 by done. cbn [negb fail_if mbind result_bind].
  rewrite (proj2 (expectedPlanNodeSet_iff spec (list_to_set (node_ids spec)))) by done. cbn [mbind result_bind].
  rewrite (proj2 (restorePlanNodeStatuses_iff (Status s) _ (nodes s))); cbn [mbind result_bind].
  - f_equal. apply (refresh_wf (reset_transitions s)). by destruct Hwf.
  - destruct Hwf as [Hids Hnodes _]. rewrite Hnodes. split_and!.
    + intros n [id Hl]%elem_of_sortedNodeStatuses. rewrite (Hids _ _ Hl).
      assert (id ∈ dom (nodes s)) as Hin by (by eapply elem_of_dom_2). rewrite Hdom in Hin.
      split; [|done]. apply elem_of_list_to_set, list_elem_of_fmap in Hin as (node & -> & Hnode).
      by apply Hne.
    + by apply sortedNodeStatuses_NoDup.
    + by rewrite statuses_by_id_sorted.
    + intros id Hid. by rewrite <-elem_of_dom, Hdom.
Qed.

(** Two states that agree on everything but the transition counter. *)
Definition same_but_count (s1 s2 : State) : Prop :=
  Status s1 = Status s2 ∧ nodes s1 = nodes s2.

#[global] Instance same_but_count_equiv : Equivalence same_but_count.
Proof.
  unfold same_but_count. split; [done|intros ? ? [? ?]; done|].
  intros ? ? ? [-> ->] [-> ->]. done.
Qed.

(** The reducer never reads the counter. *)
Lemma Apply_same_but_count now s1 s2 ev :
  same_but_count s1 s2 →
  same_but_count (Apply now s1 ev).1 (Apply now s2 ev).1 ∧
  (Apply now s1 ev).2 = (Apply now s2 ev).2.
Proof.
  destruct s1 as [st m t1], s2 as [st' m' t2]. intros [Hst Hm]. cbn in Hst, Hm. subst st' m'.
  unfold Apply. generalize (event_at now ev) as at_. intros at_.
  case_bool_decide.
  { unfold expand. cbn [nodes]. case_match; [done|].
    by destruct (expand_nodes m _ at_) as [m' [[]|]]. }
  destruct (reducerPlanLifecycleForEvent (se_Kind ev)); [done|].
  destruct (reducerNodeLifecycleForEvent (se_Kind ev));
    unfold transitionNode, retryNode, touchNode, publishArtifacts, reportBudget; cbn [nodes].
  - by destruct (m !! se_NodeID ev).
  - repeat (case_bool_decide || case_match); done.
Qed.

Lemma run_same_but_count history s1 s2 :
  same_but_count s1 s2 →
  same_but_count (run s1 history).1 (run s2 history).1 ∧ (run s1 history).2 = (run s2 history).2.
Proof.
  revert s1 s2. induction history as [|[now ev] history IH]; intros s1 s2 Hs; cbn; [done|].
  destruct (Apply_same_but_count now _ _ ev Hs) as [Hs' Hr].
  destruct (Apply now s1 ev) as [s1' [[]|]], (Apply now s2 ev) as [s2' [[]|]]; cbn in *;
    simplify_eq; [by apply IH|done].
Qed.

(** ** Topology *)

(** The nodes of a state after an event: the old ones and those of the expansion. *)
Definition grown (s : State) (ev : StateEvent) : gset string :=
  dom (nodes s) ∪
  (if se_Kind ev == EventPlanExpanded
   then list_to_set (node_NodeID <$> delta_Nodes (se_Expansion ev)) else ∅).

Lemma effect_dom at_ ev s s1 : effect at_ ev s s1 → dom (nodes s1) = grown s ev.
Proof.
  unfold grown. intros [lc Hlc|n n' st' Hn Hstep Hst|st' Hid Hst Hp|m Hk Hexp]; cbn.
  - rewrite bool_decide_eq_false_2; [set_solver|]. intros Hk. by rewrite Hk in Hlc.
  - rewrite bool_decide_eq_false_2.
    + apply elem_of_dom_2 in Hn. set_solver.
    + intros Hk. destruct Hstep as [lc Hlc|H|H|H|H _]; rewrite Hk in *; done.
  - rewrite bool_decide_eq_false_2; [set_solver|]. done.
  - apply expand_nodes_Ok in Hexp as (_ & -> & _). by rewrite bool_decide_eq_true_2.
Qed.

Lemma expand_nodes_fresh m delta at_ :
  NoDup (node_NodeID <$> delta) →
  (∀ node, node ∈ delta → node_NodeID node ≠ "" ∧ m !! node_NodeID node = None) →
  (expand_nodes m delta at_).2 = Ok tt.
Proof.
  revert m. induction delta as [|node delta IH]; intros m Hnd Hall; cbn; [done|].
  rewrite fmap_cons, NoDup_cons in Hnd. destruct Hnd as [Hni Hnd].
  destruct (Hall node) as [Hne Hm]; [left|].
  rewrite bool_decide_eq_false_2 by done. rewrite bool_decide_eq_false_2 by (rewrite Hm; by intros []).
  apply IH; [done|]. intros node' Hin. destruct (Hall node') as [Hne' Hm']; [by right|].
  split; [done|]. apply lookup_insert_None. split; [done|]. intros Heq. apply Hni. rewrite Heq.
  by apply list_elem_of_fmap_2.
Qed.

(** The reducer accepts every expansion [ApplyDelta] has accepted. *)
Lemma expand_accepted `{!JSONSchema, !SliceSort} v current delta count next plan s at_ :
  ApplyDelta v current delta count = Ok (next, plan) →
  dom (nodes s) = list_to_set (node_ids current) →
  (delta_Nodes delta ≠ [] ∨ delta_Edges delta ≠ []) →
  (expand s delta at_).2 = Ok tt.
Proof.
  intros (_ & _ & -> & Hv)%ApplyDelta_iff Hdom Hne.
  pose proof (accepted_nodes _ _ _ Hv) as (Hnode & Hnd & _).
  unfold node_ids in Hnd. cbn in Hnd, Hnode. rewrite fmap_app, NoDup_app in Hnd.
  destruct Hnd as (_ & Hdis & Hnd). unfold expand.
  replace (_ && _) with false by
    (symmetry; apply andb_false_iff; rewrite !bool_decide_eq_false; tauto).
  pose proof (expand_nodes_fresh (nodes s) (delta_Nodes delta) at_ Hnd) as Hok.
  destruct (expand_nodes _ _ _) as [m [[]|e]]; [done|]. cbn in Hok. exfalso.
  cut (Err e = Ok tt); [done|]. apply Hok. intros node Hin. split.
  - eapply validateNode_id, Hnode. apply elem_of_app. by right.
  - apply not_elem_of_dom. rewrite Hdom, elem_of_list_to_set. intros Hold.
    eapply Hdis; [exact Hold|]. by apply list_elem_of_fmap_2.
Qed.

Lemma reachable_plan_id spec s : reachable spec s → st_PlanID (Status s) = spec_PlanID spec.
Proof.
  revert s. apply reachable_effects; [done|]. intros at_ ev s s1 _ <- _ Heff. cbn.
  destruct Heff as [lc Hlc|n n' st' Hn Hstep Hst|st' Hid Hst Hp|m Hk Hexp]; cbn; try done;
    by destruct Hst.
Qed.

(** ** Sample events *)

Module StateSample.

Definition event (kind id : string) (at_ : time) : StateEvent := {|
  se_Kind := kind; se_NodeID := id; se_RunID := ""; se_Reason := ""; se_Attempt := 0;
  se_Expansion := {| delta_Nodes := []; delta_Edges := [] |}; se_Artifacts := [];
  se_BudgetDelta := zero_PlanBudgetUsage;
  se_InputTrace := {| irt_InputDigest := ""; irt_InputKeys := []; irt_MappingCount := 0;
                      irt_Mappings := [] |};
  se_Capability := {| cst_Backend := zero_BackendRef; cst_Capability := ""; cst_Signals := [];
                      cst_Controls := []; cst_HasInputSchema := false;
                      cst_HasOutputSchema := false |};
  se_ConditionTraces := []; se_PreviousLifecycleState := ""; se_NextLifecycleState := "";
  se_At := at_; se_Approval := None |}.

Definition gate : PlanApprovalGate := {|
  gate_Summary := "approve"; gate_NodeIDs := ["b"]; gate_RiskReason := "risk";
  gate_PolicyVersion := "v1"; gate_RequestedAt := 5; gate_ExpiresAt := zero_time |}.

Definition blocked : StateEvent :=
  let e := event EventPlanBlocked "" 5 in
  {| e with se_Approval := Some {| sea_Gate := gate; sea_Decision := None |} |}.

Definition budget (id : string) (cents : Z) : StateEvent :=
  let e := event EventBudgetReported id 6 in
  {| e with se_BudgetDelta := {| usage_SpentCents := cents |} |}.

Definition expansion : StateEvent :=
  let e := event EventPlanExpanded "" 9 in {| e with se_Expansion := Sample.delta |}.

(** The plan starts, [a] runs and succeeds, the plan blocks and is approved. *)
Definition history : list (time * StateEvent) :=
  (λ e, (1%Z, e)) <$>
  [event EventPlanStarted "" 1; event EventNodeStarted "a" 2; budget "a" 30;
   event EventNodeSucceeded "a" 3; event EventNodeStarted "b" 4; budget "" 12; blocked;
   event EventPlanApproved "" 7].

Definition state : State := (run (NewState Sample.spec 1) history).1.

Lemma run_reachable spec s history s' :
  reachable spec s → Forall (λ x, x.1 ≠ zero_time) history →
  run s history = (s', Ok tt) → reachable spec s'.
Proof.
  revert s. induction history as [|[now ev] history IH]; intros s Hr Hh; cbn.
  { by intros [= <-]. }
  apply Forall_cons in Hh as [Hnow Hh].
  destruct (Apply now s ev) as [s1 [[]|]] eqn:Ha; [|done]. apply IH; [|done].
  by eapply reach_apply.
Qed.

Lemma state_reachable : reachable Sample.spec state.
Proof.
  eapply (run_reachable _ (NewState Sample.spec 1) history); [apply reach_new| |].
  - unfold history. cbn. repeat (apply Forall_cons; split; [done|]). by apply Forall_nil.
  - vm_compute. reflexivity.
Qed.

End StateSample.

(** ** Properties *)

(** In every reachable state the public status is a faithful projection of the
    reducer's node map: node entries are exactly the nodes of the map, listed once
    each in id order, and the active run ids are exactly the run ids of the
    running nodes. *)
Theorem status_projection (spec : RunPlanSpec) (s : State) :
  reachable spec s →
  (∀ n, n ∈ st_Nodes (Status s) ↔ NodeStatus s (ns_NodeID n) = Some n) ∧
  Sorted String.le (ns_NodeID <$> st_Nodes (Status s)) ∧
  NoDup (ns_NodeID <$> st_Nodes (Status s)) ∧
  (∀ id, id ∈ ns_NodeID <$> st_Nodes (Status s) ↔ is_Some (NodeStatus s id)) ∧
  (∀ r, r ∈ st_ActiveRunIDs (Status s) ↔
     ∃ id n, NodeStatus s id = Some n ∧ ns_LifecycleState n = PlanNodeRunning ∧
       ns_RunID n = r ∧ r ≠ "").
Proof.
  intros Hr. pose proof (reachable_wf _ _ Hr) as Hwf. pose proof Hwf as [Hids Hn Ha].
  unfold NodeStatus. split_and!.
  - intros n. by apply wf_elem_nodes.
  - rewrite Hn, sortedNodeStatuses_ids by done. apply sort_strings_sorted.
  - rewrite Hn. by apply sortedNodeStatuses_NoDup.
  - intros id. rewrite list_elem_of_fmap. setoid_rewrite (wf_elem_nodes s _ Hwf). split.
    + intros (n & -> & ->). eauto.
    + intros [n Hl]. exists n. by rewrite (Hids _ _ Hl).
  - intros r. rewrite Ha, elem_of_active_run_ids. setoid_rewrite (wf_elem_nodes s _ Hwf).
    split; [naive_solver|]. intros (id & n & Hl & ?). exists n. rewrite (Hids _ _ Hl). naive_solver.
Qed.

Lemma status_projection_witness :
  NoDup (ns_NodeID <$> st_Nodes (Status StateSample.state)) ∧
  st_ActiveRunIDs (Status StateSample.state) = ["run-b"].
Proof.
  split; [|vm_compute; reflexivity].
  apply (status_projection Sample.spec StateSample.state StateSample.state_reachable).
Defined.

(** The approval clock is exact: in every reachable state [BlockedAt] is set if
    and only if the plan is in the blocked lifecycle. *)
Theorem blocked_clock (spec : RunPlanSpec) (s : State) :
  reachable spec s →
  st_BlockedAt (Status s) ≠ zero_time ↔ st_LifecycleState (Status s) = PlanLifecycleBlocked.
Proof. apply reachable_blocked. Qed.

Lemma blocked_clock_witness :
  st_BlockedAt (Status StateSample.state) ≠ zero_time ↔
  st_LifecycleState (Status StateSample.state) = PlanLifecycleBlocked.
Proof. apply (blocked_clock Sample.spec StateSample.state StateSample.state_reachable). Defined.

(** The approval gate of a reachable state is pending without a decision,
    approved or rejected with a recorded decision, or stale. *)
Theorem approval_gate_states (spec : RunPlanSpec) (s : State) (a : PlanApprovalStatus) :
  reachable spec s → st_Approval (Status s) = Some a → gate_ok a.
Proof. apply reachable_gate. Qed.

Lemma approval_gate_states_witness :
  ∃ a, st_Approval (Status StateSample.state) = Some a ∧ gate_ok a ∧
    appr_LifecycleState a = PlanApprovalApproved.
Proof.
  eexists. split; [vm_compute; reflexivity|]. split; [|reflexivity].
  apply (approval_gate_states Sample.spec StateSample.state); [exact StateSample.state_reachable|].
  vm_compute. reflexivity.
Defined.

(** The first decision wins: once a gate is decided (or stale), no event other
    than a new gate changes its snapshot or its decision, and its lifecycle changes
    only to stale, by an expansion. *)
Theorem first_decision_wins (now : time) (s s' : State) (ev : StateEvent)
    (a : PlanApprovalStatus) :
  Apply now s ev = (s', Ok tt) → st_Approval (Status s) = Some a →
  appr_LifecycleState a ≠ PlanApprovalPending →
  (se_Kind ev = EventPlanBlocked → se_Approval ev = None) →
  ∃ a', st_Approval (Status s') = Some a' ∧ appr_Gate a' = appr_Gate a ∧
    appr_Decision a' = appr_Decision a ∧
    (appr_LifecycleState a' = appr_LifecycleState a ∨
     se_Kind ev = EventPlanExpanded ∧ appr_LifecycleState a' = PlanApprovalStale).
Proof. apply Apply_gate_frozen. Qed.

Lemma first_decision_wins_witness :
  ∃ a a', st_Approval (Status StateSample.state) = Some a ∧
    st_Approval (Status (Apply 8 StateSample.state (StateSample.event EventPlanRejected "" 8)).1) =
      Some a' ∧ appr_Decision a' = appr_Decision a.
Proof.
  destruct (st_Approval (Status StateSample.state)) as [a|] eqn:Ha; [|discriminate Ha].
  destruct (first_decision_wins 8 StateSample.state
    (Apply 8 StateSample.state (StateSample.event EventPlanRejected "" 8)).1
    (StateSample.event EventPlanRejected "" 8) a) as (a' & Ha' & _ & Hd & _).
  - vm_compute. reflexivity.
  - exact Ha.
  - vm_compute in Ha. injection Ha as <-. discriminate.
  - discriminate.
  - exists a, a'. split; [reflexivity|]. split; [exact Ha'|exact Hd].
Defined.

(** Node clocks agree with node lifecycles: a running node has a start time and
    no completion time, a terminal node has a completion time. *)
Theorem node_clocks_agree (spec : RunPlanSpec) (s : State) (id : string) (n : PlanNodeStatus) :
  reachable spec s → NodeStatus s id = Some n →
  (ns_LifecycleState n = PlanNodeRunning →
     ns_StartedAt n ≠ zero_time ∧ ns_CompletedAt n = zero_time) ∧
  (ns_LifecycleState n ∈ [PlanNodeSucceeded; PlanNodeFailed; PlanNodeSkipped; PlanNodeCanceled] →
     ns_CompletedAt n ≠ zero_time).
Proof. apply reachable_clocks. Qed.

Lemma node_clocks_agree_witness :
  ∃ n, NodeStatus StateSample.state "a" = Some n ∧ ns_CompletedAt n ≠ zero_time.
Proof.
  destruct (NodeStatus StateSample.state "a") as [n|] eqn:Hn; [|discriminate Hn].
  exists n. split; [reflexivity|].
  apply (node_clocks_agree Sample.spec StateSample.state "a" n StateSample.state_reachable Hn).
  vm_compute in Hn. injection Hn as <-. left.
Defined.

(** C40: budget accounting is exact: after any accepted history whose reported costs
    fit in 64 bits, the plan has spent the sum of all reported costs and every node
    the sum of the costs reported for it; no node exceeds the plan. *)
Theorem budget_accounting (spec : RunPlanSpec) (now : time)
    (history : list (time * StateEvent)) (s : State) :
  run (NewState spec now) history = (s, Ok tt) →
  (total_spent history.*2 ≤ max_int64)%Z →
  usage_SpentCents (st_BudgetUsage (Status s)) = total_spent history.*2 ∧
  (∀ id n, NodeStatus s id = Some n → id ≠ "" →
     usage_SpentCents (ns_BudgetUsage n) = total_spent (node_events id history.*2) ∧
     (0 ≤ usage_SpentCents (ns_BudgetUsage n) ≤ usage_SpentCents (st_BudgetUsage (Status s)))%Z).
Proof.
  intros [Hnn Hplan Hnode _]%run_budget Hmax. split; [by apply Hplan|].
  intros id n Hl Hid. rewrite (Hnode Hmax _ _ Hl Hid), (Hplan Hmax). split; [done|].
  by apply total_spent_filter.
Qed.

Lemma budget_accounting_witness :
  usage_SpentCents (st_BudgetUsage (Status StateSample.state)) = 42%Z.
Proof.
  destruct (budget_accounting Sample.spec 1 StateSample.history StateSample.state) as [Hp _].
  - vm_compute. reflexivity.
  - vm_compute. discriminate.
  - rewrite Hp. vm_compute. reflexivity.
Defined.

(** A refused event is an invalid-plan error and changes nothing the plan
    exposes: status and counter stay, the whole state stays unless the event was an
    expansion, and no node is lost. *)
Theorem refused_event (now : time) (s s' : State) (ev : StateEvent) (e : go_error) :
  Apply now s ev = (s', Err e) →
  err_is e = ErrInvalidRunPlan ∧ Status s' = Status s ∧
  AppliedTransitions s' = AppliedTransitions s ∧
  (se_Kind ev ≠ EventPlanExpanded → s' = s) ∧ nodes s ⊆ nodes s'.
Proof. apply Apply_Err. Qed.

Lemma refused_event_witness :
  Status (Apply 8 StateSample.state (StateSample.budget "a" (-1))).1 = Status StateSample.state.
Proof.
  refine (proj1 (proj2 (refused_event 8 StateSample.state
    (Apply 8 StateSample.state (StateSample.budget "a" (-1))).1 (StateSample.budget "a" (-1))
    (Errorf ErrInvalidRunPlan "budget delta cannot be negative") _))).
  vm_compute. reflexivity.
Defined.

(** Topology only grows, by expansion: an accepted event keeps every node with
    its id and backend, and adds exactly the nodes of an expansion. *)
Theorem topology_grows (now : time) (s s' : State) (ev : StateEvent) :
  Apply now s ev = (s', Ok tt) →
  dom (nodes s') = grown s ev ∧
  (∀ id n, NodeStatus s id = Some n → ∃ n', NodeStatus s' id = Some n' ∧
     ns_NodeID n' = ns_NodeID n ∧ ns_Backend n' = ns_Backend n ∧
     (id ≠ se_NodeID ev → n' = n)).
Proof.
  intros (s1 & Heff & ->)%Apply_Ok. split; [by apply (effect_dom _ _ _ _ Heff)|].
  intros id n Hn. destruct (effect_keeps _ _ _ _ _ _ Heff Hn) as (n' & Hn' & Hstep).
  exists n'. split; [done|]. destruct Hstep as [->|[-> Hstep]]; [done|].
  by apply node_step_identity in Hstep as [-> ->].
Qed.

Lemma topology_grows_witness :
  dom (nodes (Apply 9 StateSample.state StateSample.expansion).1) =
  grown StateSample.state StateSample.expansion.
Proof.
  apply (topology_grows 9 StateSample.state _ StateSample.expansion). vm_compute. reflexivity.
Defined.

(** C36: continue-as-new is transparent: restoring the snapshot of a reachable state
    whose nodes are those of the (possibly expanded) plan succeeds, and from there
    every history has the same outcome, status and nodes as without the restore;
    only the transition counter starts again at zero. *)
Theorem restore_transparent `{!JSONSchema} (v : Validator) (origin spec : RunPlanSpec) (s : State) :
  reachable origin s → spec_PlanID spec = spec_PlanID origin → valid_spec v spec →
  dom (nodes s) = list_to_set (node_ids spec) →
  ∃ r, NewStateFromStatus spec (Status s) = Ok r ∧ AppliedTransitions r = 0%Z ∧
    ∀ history, (run r history).2 = (run s history).2 ∧
      Status (run r history).1 = Status (run s history).1 ∧
      nodes (run r history).1 = nodes (run s history).1.
Proof.
  intros Hr Hid Hv Hdom. exists (reset_transitions s). split.
  - apply NewStateFromStatus_wf; try done.
    + by eapply reachable_wf.
    + by apply vs_scope in Hv as [? _].
    + rewrite Hid. by apply reachable_plan_id.
    + by eapply vs_node_ids.
    + intros node Hn. eapply validateNode_id. by eapply vs_node.
  - split; [done|]. intros history.
    destruct (run_same_but_count history (reset_transitions s) s) as [[? ?] ?]; done.
Qed.

Lemma restore_transparent_witness :
  ∃ r, NewStateFromStatus Sample.spec (Status StateSample.state) = Ok r ∧
    AppliedTransitions r = 0%Z.
Proof.
  destruct (@restore_transparent Sample.schema_any Sample.validator Sample.spec Sample.spec
    StateSample.state StateSample.state_reachable eq_refl) as (r & Hr & Ht & _).
  - exact (accepted_valid _ _ _ Sample.plan_valid).
  - apply (bool_decide_unpack _). vm_compute. exact I.
  - exists r. split; [exact Hr|exact Ht].
Defined.

(** The reducer accepts every expansion the validator has accepted: with the
    nodes of the current plan, applying the expansion event of a delta that
    [ApplyDelta] accepted succeeds, gives exactly the nodes of the next plan, and
    leaves no decidable approval gate behind. *)
Theorem expansion_agrees `{!JSONSchema, !SliceSort} (v : Validator) (current next : RunPlanSpec)
    (count : Z) (plan : ExecutablePlan) (now : time) (s : State) (ev : StateEvent) :
  ApplyDelta v current (se_Expansion ev) count = Ok (next, plan) →
  se_Kind ev = EventPlanExpanded →
  dom (nodes s) = list_to_set (node_ids current) →
  (delta_Nodes (se_Expansion ev) ≠ [] ∨ delta_Edges (se_Expansion ev) ≠ []) →
  ∃ s', Apply now s ev = (s', Ok tt) ∧ dom (nodes s') = list_to_set (node_ids next) ∧
    ∀ a, st_Approval (Status s') = Some a → appr_LifecycleState a = PlanApprovalStale.
Proof.
  intros Hd Hk Hdom Hne. pose proof (expand_accepted _ _ _ _ _ _ s (event_at now ev) Hd Hdom Hne) as Hok.
  destruct (expand s (se_Expansion ev) (event_at now ev)) as [s' r] eqn:He. cbn in Hok. subst r.
  assert (Apply now s ev = (s', Ok tt)) as Ha
    by (unfold Apply; by rewrite bool_decide_eq_true_2).
  exists s'. split; [done|]. apply ApplyDelta_iff in Hd as (_ & _ & -> & _).
  pose proof (Apply_Ok _ _ _ _ Ha) as (s1 & Heff & ->). split.
  - rewrite nodes_committed, (effect_dom _ _ _ _ Heff). unfold grown.
    rewrite bool_decide_eq_true_2, Hdom by done. unfold node_ids. cbn.
    by rewrite fmap_app, list_to_set_app_L.
  - intros a. cbn. destruct (effect_plan_fields _ _ _ _ Heff) as
      [(lc & Hlc & _)|(_ & _ & _ & [Hs|[_ Hs]])].
    + by rewrite Hk in Hlc.
    + destruct Heff as [lc Hlc|n n' st' Hn Hstep Hst|st' Hid Hst Hp|m _ Hexp];
        [by rewrite Hk in Hlc| |done|].
      * destruct Hstep as [lc Hlc|Hx|Hx|Hx|Hx _]; rewrite Hk in *; done.
      * cbn. by intros (b & _ & ->)%fmap_Some.
    + rewrite Hs. by intros (b & _ & ->)%fmap_Some.
Qed.

Lemma expansion_agrees_witness :
  ∃ s', Apply 9 StateSample.state StateSample.expansion = (s', Ok tt) ∧
    dom (nodes s') = list_to_set (node_ids (append_delta Sample.spec Sample.delta)).
Proof.
  destruct (@expansion_agrees Sample.schema_any merge_slice_sort Sample.validator Sample.spec
    (append_delta Sample.spec Sample.delta) 0 Sample.next_plan 9 StateSample.state
    StateSample.expansion) as (s' & Ha & Hd & _).
  - exact Sample.next_plan_valid.
  - reflexivity.
  - apply (bool_decide_unpack _). vm_compute. exact I.
  - left. discriminate.
  - exists s'. split; [exact Ha|exact Hd].
Defined.
