(* ===== verification/Scheduler.v ===== *)
(** * The scheduler

    internal/usecase/agentosplan/scheduler.go: from an executable plan and a status,
    the nodes that can start now and the nodes that can never start.  Expressions
    are compiled and evaluated through the [ExpressionCompiler] interface.

    The counters of the code ([waiting], [satisfied], [impossible]) are related to a
    classification of single edges ([edge_class]); [Decide_characterised] states the
    decision in terms of that classification, [scheduler_progress] that a plan with
    no running node never gets stuck. *)

From S2P Require Import Prelude Types Graph Scope Contracts Validator State.

(** ** Data *)

Record Scheduler := { sched_Expressions : option ExpressionCompiler }.

Record SkippedNode := Skip { skip_NodeID : string; skip_Reason : string }.

Record SchedulerDecision := {
  sd_Ready : list PlanNodeSpec;
  sd_Skipped : list SkippedNode;
  sd_ConditionTraces : list ConditionEvaluationTrace;
}.

Record dependencyEvaluation := {
  de_Ready : bool;
  de_Impossible : bool;
  de_Reason : string;
  de_Traces : list ConditionEvaluationTrace;
}.

(** ** Lifecycle predicates *)

Definition edgeTrigger (trigger : string) : string :=
  if trigger == "" then EdgeOnSuccess else trigger.

Definition edgeOnCompleteSatisfied (lifecycle : string) : bool :=
  bool_decide (lifecycle ∈ [PlanNodeSucceeded; PlanNodeFailed; PlanNodeSkipped; PlanNodeCanceled]).

Definition edgeOnAlwaysSatisfied (lifecycle : string) : bool :=
  negb (bool_decide (lifecycle ∈ [PlanNodePending; PlanNodeReady; PlanNodeRunning])).

Definition edgeSatisfied (trigger lifecycle : string) : bool :=
  if trigger == EdgeOnSuccess then lifecycle == PlanNodeSucceeded
  else if trigger == EdgeOnError then lifecycle == PlanNodeFailed
  else if trigger == EdgeOnComplete then edgeOnCompleteSatisfied lifecycle
  else if trigger == EdgeOnAlways then edgeOnAlwaysSatisfied lifecycle
  else false.

Definition normalizeJoin (join : string) : string :=
  if join == "" then PlanJoinAll else join.

Definition nodeTerminal (lifecycle : string) : bool :=
  bool_decide (lifecycle ∈ [PlanNodeSucceeded; PlanNodeFailed; PlanNodeSkipped; PlanNodeCanceled]).

(** ** Conditions *)

Definition evaluate (s : Scheduler) (expression : string) (vars : Vars) : result bool :=
  if expression == "" then Ok true else
  match sched_Expressions s with
  | None => Err (Errorf ErrInvalidExpression "expression compiler is required")
  | Some compile => compiled ← compile expression; compiled vars
  end.

Definition node_trace (node : PlanNodeSpec) (condition : string) (ok : bool) :
    ConditionEvaluationTrace := {|
  cet_Scope := "node"; cet_NodeID := node_NodeID node; cet_EdgeID := ""; cet_From := "";
  cet_To := ""; cet_Expression := condition; cet_Result := ok; cet_On := "";
  cet_ParentState := "" |}.

(** The loop of [nodeConditionsTrue]; the traces of a failing evaluation are not
    used by the caller. *)
Fixpoint conditions_true (s : Scheduler) (node : PlanNodeSpec) (conditions : list string)
    (vars : Vars) (traces : list ConditionEvaluationTrace) :
    result (bool * list ConditionEvaluationTrace) :=
  match conditions with
  | [] => Ok (true, traces)
  | condition :: conditions =>
      ok ← evaluate s condition vars;
      let traces := traces ++ [node_trace node condition ok] in
      if ok then conditions_true s node conditions vars traces else Ok (false, traces)
  end.

Definition nodeConditionsTrue (s : Scheduler) (node : PlanNodeSpec) (vars : Vars) :
    result (bool * list ConditionEvaluationTrace) :=
  conditions_true s node (node_Conditions node) vars [].

(** ** Dependencies *)

Record edge_counts := Counts {
  waiting : Z;
  satisfied : Z;
  impossible : Z;
  edge_traces : list ConditionEvaluationTrace;
}.

Definition edge_trace (node : PlanNodeSpec) (edge : PlanEdgeSpec) (active : bool)
    (parent : PlanNodeStatus) : ConditionEvaluationTrace := {|
  cet_Scope := "edge"; cet_NodeID := node_NodeID node; cet_EdgeID := edge_EdgeID edge;
  cet_From := edge_From edge; cet_To := edge_To edge; cet_Expression := edge_Condition edge;
  cet_Result := active; cet_On := edgeTrigger (edge_On edge);
  cet_ParentState := ns_LifecycleState parent |}.

(** One iteration of [evaluateEdges]. *)
Definition evaluateEdge (s : Scheduler) (node : PlanNodeSpec)
    (statusByNode : gmap string PlanNodeStatus) (vars : Vars) (c : edge_counts)
    (edge : PlanEdgeSpec) : result edge_counts :=
  match statusByNode !! edge_From edge with
  | None => Err (Errorf ErrInvalidRunPlan "edge %q from unknown node %q")
  | Some parent =>
      if negb (nodeTerminal (ns_LifecycleState parent)) then
        Ok {| c with waiting := (waiting c + 1)%Z |}
      else
        isActive ← map_err (wrap_error "edge %q condition: %w")
                     (evaluate s (edge_Condition edge) vars);
        let c := if edge_Condition edge != ""
                 then {| c with edge_traces := edge_traces c ++ [edge_trace node edge isActive parent] |}
                 else c in
        if negb isActive then Ok c
        else if edgeSatisfied (edgeTrigger (edge_On edge)) (ns_LifecycleState parent)
        then Ok {| c with satisfied := (satisfied c + 1)%Z |}
        else Ok {| c with impossible := (impossible c + 1)%Z |}
  end.

Definition evaluateEdges (s : Scheduler) (node : PlanNodeSpec) (edges : list PlanEdgeSpec)
    (statusByNode : gmap string PlanNodeStatus) (vars : Vars) : result edge_counts :=
  foldM (evaluateEdge s node statusByNode vars) (Counts 0 0 0 []) edges.

Definition evaluation (ready impossible : bool) (reason : string)
    (traces : list ConditionEvaluationTrace) : dependencyEvaluation :=
  {| de_Ready := ready; de_Impossible := impossible; de_Reason := reason; de_Traces := traces |}.

Definition evaluateAllJoin (waiting satisfied impossible active : Z)
    (traces : list ConditionEvaluationTrace) : dependencyEvaluation :=
  if (0 <? impossible)%Z then
    evaluation false true "required dependency edge cannot be satisfied" traces
  else if (0 <? waiting)%Z then evaluation false false "" traces
  else if (active =? 0)%Z then
    evaluation false true "no active incoming dependency edges" traces
  else evaluation (satisfied =? active)%Z false "" traces.

Definition evaluateAnyJoin (waiting satisfied impossible active : Z)
    (traces : list ConditionEvaluationTrace) : dependencyEvaluation :=
  if (0 <? satisfied)%Z then evaluation true false "" traces
  else if (0 <? waiting)%Z then evaluation false false "" traces
  else if (active =? 0)%Z then
    evaluation false true "no active incoming dependency edges" traces
  else if (impossible =? active)%Z then
    evaluation false true "no dependency edge can be satisfied" traces
  else evaluation false false "" traces.

Definition evaluateDependencies (s : Scheduler) (node : PlanNodeSpec) (edges : list PlanEdgeSpec)
    (statusByNode : gmap string PlanNodeStatus) (vars : Vars) : result dependencyEvaluation :=
  if bool_decide (edges = []) then Ok (evaluation true false "" []) else
  let join := normalizeJoin (npol_Join (node_Policy node)) in
  c ← evaluateEdges s node edges statusByNode vars;
  let active := (satisfied c + impossible c)%Z in
  if join == PlanJoinAll then
    Ok (evaluateAllJoin (waiting c) (satisfied c) (impossible c) active (edge_traces c))
  else if bool_decide (join ∈ [PlanJoinAny; PlanJoinFirst]) then
    Ok (evaluateAnyJoin (waiting c) (satisfied c) (impossible c) active (edge_traces c))
  else Err (Errorf ErrInvalidRunPlan "invalid join strategy %q").

(** ** Decide *)

Definition status_by_node (status : RunPlanStatus) : gmap string PlanNodeStatus :=
  foldl (λ m n, <[ns_NodeID n := n]> m) ∅ (st_Nodes status).

(** One iteration of the loop over [plan.Order]. *)
Definition decide_node (s : Scheduler) (plan : ExecutablePlan)
    (statusByNode : gmap string PlanNodeStatus) (vars : Vars) (d : SchedulerDecision)
    (nodeID : string) : result SchedulerDecision :=
  let node := default zero_PlanNodeSpec (ep_NodeByID plan !! nodeID) in
  let current := default zero_PlanNodeStatus (statusByNode !! nodeID) in
  if (ns_LifecycleState current != PlanNodePending) &&
     (ns_LifecycleState current != PlanNodeReady) then Ok d else
  '(ok, traces) ← nodeConditionsTrue s node vars;
  let d := {| d with sd_ConditionTraces := sd_ConditionTraces d ++ traces |} in
  if negb ok then
    Ok {| d with sd_Skipped := sd_Skipped d ++
            [Skip (node_NodeID node) "node conditions evaluated false"] |}
  else
  dependencies ← evaluateDependencies s node (get_list (ep_EdgesByTo plan) nodeID) statusByNode vars;
  Ok {| sd_Ready := if de_Ready dependencies then sd_Ready d ++ [node] else sd_Ready d;
        sd_Skipped := if de_Impossible dependencies
                      then sd_Skipped d ++ [Skip (node_NodeID node) (de_Reason dependencies)]
                      else sd_Skipped d;
        sd_ConditionTraces := sd_ConditionTraces d ++ de_Traces dependencies |}.

Definition ready_le (x y : PlanNodeSpec) : Prop := String.le (node_NodeID x) (node_NodeID y).
Definition skip_le (x y : SkippedNode) : Prop := String.le (skip_NodeID x) (skip_NodeID y).

#[global] Instance ready_le_dec : RelDecision ready_le.
Proof. intros x y. unfold ready_le. apply _. Defined.
#[global] Instance skip_le_dec : RelDecision skip_le.
Proof. intros x y. unfold skip_le. apply _. Defined.

Definition Decide `{!SliceSort} (s : Scheduler) (plan : ExecutablePlan) (status : RunPlanStatus)
    (vars : Vars) : result SchedulerDecision :=
  let statusByNode := status_by_node status in
  d ← foldM (decide_node s plan statusByNode vars)
        {| sd_Ready := []; sd_Skipped := []; sd_ConditionTraces := [] |} (ep_Order plan);
  Ok {| sd_Ready := sort_slice ready_le (sd_Ready d);
        sd_Skipped := sort_slice skip_le (sd_Skipped d);
        sd_ConditionTraces := sd_ConditionTraces d |}.

Definition ReadyNodes `{!SliceSort} (s : Scheduler) (plan : ExecutablePlan)
    (status : RunPlanStatus) (vars : Vars) : result (list PlanNodeSpec) :=
  decision ← Decide s plan status vars;
  Ok (sd_Ready decision).

(** ** Declarative reading of a decision *)

(** What one incoming edge means for its target. *)
Inductive edge_class := Waiting | Inactive | Satisfied | Impossible.

#[global] Instance edge_class_eq_dec : EqDecision edge_class.
Proof. solve_decision. Defined.

Section decision.
Context (s : Scheduler) (m : gmap string PlanNodeStatus) (vars : Vars).

(** The parent is not finished; or it is finished and the condition is false; or
    the condition holds and the trigger matches the outcome, or not. *)
Definition has_class (edge : PlanEdgeSpec) (c : edge_class) : Prop :=
  ∃ parent, m !! edge_From edge = Some parent ∧
    let lifecycle := ns_LifecycleState parent in
    match c with
    | Waiting => nodeTerminal lifecycle = false
    | Inactive => nodeTerminal lifecycle = true ∧ evaluate s (edge_Condition edge) vars = Ok false
    | Satisfied => nodeTerminal lifecycle = true ∧ evaluate s (edge_Condition edge) vars = Ok true ∧
        edgeSatisfied (edgeTrigger (edge_On edge)) lifecycle = true
    | Impossible => nodeTerminal lifecycle = true ∧ evaluate s (edge_Condition edge) vars = Ok true ∧
        edgeSatisfied (edgeTrigger (edge_On edge)) lifecycle = false
    end.

(** A join of all edges waits for every active edge; a join of any edge for one. *)
Definition deps_ready (node : PlanNodeSpec) (incoming : PlanEdgeSpec → Prop) : Prop :=
  (∀ e, ¬ incoming e) ∨
  if normalizeJoin (npol_Join (node_Policy node)) == PlanJoinAll
  then (∃ e, incoming e ∧ has_class e Satisfied) ∧
       (∀ e, incoming e → has_class e Satisfied ∨ has_class e Inactive)
  else ∃ e, incoming e ∧ has_class e Satisfied.

Definition deps_impossible (node : PlanNodeSpec) (incoming : PlanEdgeSpec → Prop) : Prop :=
  (∃ e, incoming e) ∧
  if normalizeJoin (npol_Join (node_Policy node)) == PlanJoinAll
  then (∃ e, incoming e ∧ has_class e Impossible) ∨ (∀ e, incoming e → has_class e Inactive)
  else ∀ e, incoming e → has_class e Impossible ∨ has_class e Inactive.

Definition conds_true (node : PlanNodeSpec) : Prop :=
  ∀ c, c ∈ node_Conditions node → evaluate s c vars = Ok true.

Definition conds_false (node : PlanNodeSpec) : Prop :=
  ∃ c, c ∈ node_Conditions node ∧ evaluate s c vars = Ok false.

(** Only pending and ready nodes are scheduled. *)
Definition candidate (id : string) : Prop :=
  ∃ n, m !! id = Some n ∧ ns_LifecycleState n ∈ [PlanNodePending; PlanNodeReady].

Definition runnable (node : PlanNodeSpec) (incoming : PlanEdgeSpec → Prop) : Prop :=
  candidate (node_NodeID node) ∧ conds_true node ∧ deps_ready node incoming.

Definition unrunnable (node : PlanNodeSpec) (incoming : PlanEdgeSpec → Prop) : Prop :=
  candidate (node_NodeID node) ∧
  (conds_false node ∨ conds_true node ∧ deps_impossible node incoming).

(** ** Lemmas: conditions and edges *)

Lemma has_class_unique e c1 c2 : has_class e c1 → has_class e c2 → c1 = c2.
Proof.
  intros (p1 & Hp1 & H1) (p2 & Hp2 & H2). rewrite Hp1 in Hp2. injection Hp2 as <-.
  destruct c1, c2; cbn in H1, H2; try done; destruct_and?; congruence.
Qed.

Lemma conditions_true_Ok node conditions traces b traces' :
  conditions_true s node conditions vars traces = Ok (b, traces') →
  if b then ∀ c, c ∈ conditions → evaluate s c vars = Ok true
  else ∃ c, c ∈ conditions ∧ evaluate s c vars = Ok false.
Proof.
  revert traces. induction conditions as [|c conditions IH]; intros traces; cbn.
  { intros [= <- _]. by intros c ?%not_elem_of_nil. }
  intros (ok & Hc & Hrest)%bind_Ok. destruct ok; cbn in Hrest.
  - apply IH in Hrest. destruct b.
    + intros c' [->|Hin]%elem_of_cons; auto.
    + destruct Hrest as (c' & ? & ?). exists c'. split; [by right|done].
  - injection Hrest as <- _. exists c. split; [left|done].
Qed.

Lemma conditions_true_total node conditions traces :
  (∀ c, c ∈ conditions → ∃ b, evaluate s c vars = Ok b) →
  ∃ b traces', conditions_true s node conditions vars traces = Ok (b, traces').
Proof.
  revert traces. induction conditions as [|c conditions IH]; intros traces Hall; cbn; [eauto|].
  destruct (Hall c) as [ok ->]; [left|]. destruct ok; cbn; [|eauto].
  apply IH. intros c' Hc'. apply Hall. by right.
Qed.

(** The effect of one edge on the counters. *)
Definition count_of (c : edge_class) (counts : edge_counts) : Z :=
  match c with
  | Waiting => waiting counts
  | Satisfied => satisfied counts
  | Impossible => impossible counts
  | Inactive => 0
  end.

Lemma evaluateEdge_Ok node c edge c' :
  evaluateEdge s node m vars c edge = Ok c' →
  ∃ cl, has_class edge cl ∧
    ∀ k, k ≠ Inactive → count_of k c' = (count_of k c + if decide (k = cl) then 1 else 0)%Z.
Proof.
  unfold evaluateEdge, has_class. destruct (m !! edge_From edge) as [parent|]; [|done].
  destruct (nodeTerminal (ns_LifecycleState parent)) eqn:Hterm; cbn [negb].
  - intros (b & Hb%map_err_Ok & Hok)%bind_Ok.
    set (c1 := if edge_Condition edge != "" then _ else c) in Hok.
    assert (∀ k, count_of k c1 = count_of k c) as Hc1
      by (intros k; unfold c1; destruct (edge_Condition edge != ""); by destruct k).
    destruct b; cbn in Hok; [destruct (edgeSatisfied _ _) eqn:Hsat|]; injection Hok as <-.
    + exists Satisfied. split; [eauto|]. intros k Hk.
      rewrite <-Hc1. destruct k; cbn; case_decide; try done; lia.
    + exists Impossible. split; [eauto|]. intros k Hk.
      rewrite <-Hc1. destruct k; cbn; case_decide; try done; lia.
    + exists Inactive. split; [eauto|]. intros k Hk. rewrite decide_False by done.
      rewrite Hc1. lia.
  - intros [= <-]. exists Waiting. split; [eauto|].
    intros k Hk. destruct k; cbn; case_decide; try done; lia.
Qed.

Lemma evaluateEdges_Ok node edges c :
  evaluateEdges s node edges m vars = Ok c →
  (∀ e, e ∈ edges → ∃ cl, has_class e cl) ∧
  (∀ k, k ≠ Inactive → (0 ≤ count_of k c)%Z ∧
     ((0 < count_of k c)%Z ↔ ∃ e, e ∈ edges ∧ has_class e k)).
Proof.
  unfold evaluateEdges.
  apply (foldM_inv (λ seen c, (∀ e, e ∈ seen → ∃ cl, has_class e cl) ∧
    (∀ k, k ≠ Inactive → (0 ≤ count_of k c)%Z ∧
       ((0 < count_of k c)%Z ↔ ∃ e, e ∈ seen ∧ has_class e k)))).
  - split; [by intros e ?%not_elem_of_nil|]. intros k Hk. destruct k; cbn; try done;
      (split; [lia|]; split; [lia|]; by intros (e & ?%not_elem_of_nil & _)).
  - intros seen e c1 c2 [Hall Hcount] (cl & Hcl & Hstep)%evaluateEdge_Ok _. split.
    + intros e' [?| ->%list_elem_of_singleton]%elem_of_app; eauto.
    + intros k Hk. destruct (Hcount k Hk) as [Hnn Hpos]. rewrite Hstep by done.
      split; [case_decide; lia|]. setoid_rewrite elem_of_app. setoid_rewrite list_elem_of_singleton.
      case_decide as Hkc.
      * subst. split; [eauto|]. intros _. lia.
      * rewrite Z.add_0_r, Hpos. split; [naive_solver|].
        intros (e' & [?| ->] & Hk'); [eauto|]. by destruct Hkc; eapply has_class_unique.
Qed.

(** ** Lemmas: joins *)

Definition valid_join (node : PlanNodeSpec) : Prop :=
  npol_Join (node_Policy node) ∈ [""; PlanJoinAll; PlanJoinAny; PlanJoinFirst].

(** All edges have one of the classes [ok] exactly when the other counters are 0. *)
Lemma classes_within node edges c (ok : edge_class → Prop) :
  evaluateEdges s node edges m vars = Ok c → ok Inactive →
  (∀ e, e ∈ edges → ∃ k, ok k ∧ has_class e k) ↔
  (∀ k, k ≠ Inactive → (0 < count_of k c)%Z → ok k).
Proof.
  intros [Hcl Hcount]%evaluateEdges_Ok Hin. split.
  - intros Hall k Hk (e & He & Hek)%Hcount; [|done]. destruct (Hall e He) as (k' & Hok & Hek').
    by rewrite (has_class_unique _ _ _ Hek Hek').
  - intros Hall e He. destruct (Hcl e He) as [k Hek]. exists k. split; [|done].
    destruct (decide (k = Inactive)) as [->|Hk]; [done|].
    apply Hall; [done|]. apply Hcount; eauto.
Qed.

(** The tests of the joins, on the counters. *)
Lemma join_facts node edges c :
  evaluateEdges s node edges m vars = Ok c →
  (0 ≤ waiting c)%Z ∧ (0 ≤ satisfied c)%Z ∧ (0 ≤ impossible c)%Z ∧
  ((∃ e, e ∈ edges ∧ has_class e Satisfied) ↔ (0 < satisfied c)%Z) ∧
  ((∃ e, e ∈ edges ∧ has_class e Impossible) ↔ (0 < impossible c)%Z) ∧
  ((∀ e, e ∈ edges → has_class e Satisfied ∨ has_class e Inactive) ↔
     waiting c = 0%Z ∧ impossible c = 0%Z) ∧
  ((∀ e, e ∈ edges → has_class e Inactive) ↔
     waiting c = 0%Z ∧ satisfied c = 0%Z ∧ impossible c = 0%Z) ∧
  ((∀ e, e ∈ edges → has_class e Impossible ∨ has_class e Inactive) ↔
     waiting c = 0%Z ∧ satisfied c = 0%Z).
Proof.
  intros Hok. pose proof (evaluateEdges_Ok _ _ _ Hok) as [_ Hcount].
  destruct (Hcount Waiting) as [Hw Hw']; [done|]. destruct (Hcount Satisfied) as [Hs Hs']; [done|].
  destruct (Hcount Impossible) as [Hi Hi']; [done|]. cbn in Hw, Hw', Hs, Hs', Hi, Hi'.
  assert (∀ P : edge_class → Prop, (∀ k, k ≠ Inactive → (0 < count_of k c)%Z → P k) ↔
    ((0 < waiting c)%Z → P Waiting) ∧ ((0 < satisfied c)%Z → P Satisfied) ∧
    ((0 < impossible c)%Z → P Impossible)) as Hk.
  { intros P. split.
    - intros H. split_and!; [by apply (H Waiting)|by apply (H Satisfied)|by apply (H Impossible)].
    - intros (? & ? & ?) [] ?; cbn; try done. }
  pose proof (classes_within _ _ _ (λ k, k = Satisfied ∨ k = Inactive) Hok (or_intror eq_refl)) as H1.
  pose proof (classes_within _ _ _ (λ k, k = Inactive) Hok eq_refl) as H2.
  pose proof (classes_within _ _ _ (λ k, k = Impossible ∨ k = Inactive) Hok (or_intror eq_refl)) as H3.
  rewrite Hk in H1, H2, H3. split_and!; [done..| | |].
  - transitivity (∀ e, e ∈ edges → ∃ k, (k = Satisfied ∨ k = Inactive) ∧ has_class e k);
      [naive_solver|]. rewrite H1. split.
    + intros (Ha & _ & Hb). split; apply Z.le_antisymm; try done; apply Z.nlt_ge; intros H;
        [destruct (Ha H)|destruct (Hb H)]; done.
    + intros [-> ->]. split_and!; auto; lia.
  - transitivity (∀ e, e ∈ edges → ∃ k, k = Inactive ∧ has_class e k); [naive_solver|]. rewrite H2.
    split.
    + intros (Ha & Hb & Hc). split_and!; apply Z.le_antisymm; try done; apply Z.nlt_ge; intros H;
        [discriminate (Ha H)|discriminate (Hb H)|discriminate (Hc H)].
    + intros (-> & -> & ->). split_and!; lia.
  - transitivity (∀ e, e ∈ edges → ∃ k, (k = Impossible ∨ k = Inactive) ∧ has_class e k);
      [naive_solver|]. rewrite H3. split.
    + intros (Ha & Hb & _). split; apply Z.le_antisymm; try done; apply Z.nlt_ge; intros H;
        [destruct (Ha H)|destruct (Hb H)]; done.
    + intros [-> ->]. split_and!; auto; lia.
Qed.

Lemma evaluateDependencies_Ok node edges de :
  evaluateDependencies s node edges m vars = Ok de →
  (de_Ready de = true ↔ deps_ready node (.∈ edges)) ∧
  (de_Impossible de = true ↔ deps_impossible node (.∈ edges)).
Proof.
  unfold evaluateDependencies, deps_ready, deps_impossible. case_bool_decide as Hnil.
  { intros [= <-]. subst. cbn. split; split; try done.
    - intros _. left. intros e. apply not_elem_of_nil.
    - intros ([e ?%not_elem_of_nil] & _). done. }
  assert (¬ (∀ e, e ∉ edges) ∧ ∃ e, e ∈ edges) as [Hne Hex].
  { destruct edges as [|e l]; [done|]. split; [intros Hno; by apply (Hno e); left|exists e; left]. }
  intros (c & Hc & Hde)%bind_Ok.
  destruct (join_facts _ _ _ Hc) as (Hw & Hs & Hi & HS & HI & HSI & HN & HIN).
  revert Hde. case_bool_decide as Hj; intros Hde.
  - rewrite HS, HI, HSI, HN. clear HS HI HSI HN HIN Hc Hnil. destruct c as [w sat imp tr]. cbn in *.
    injection Hde as <-. unfold evaluateAllJoin.
    destruct (Z.ltb_spec 0 imp), (Z.ltb_spec 0 w), (Z.eqb_spec (sat + imp) 0); cbn;
      rewrite ?Z.eqb_eq; split; split; intros Hx; try done;
      first [lia|right; lia|split; [done|]; first [left; lia|right; lia]|
             destruct Hx as [|Hx]; [done|lia]|destruct Hx as [_ [Hx|Hx]]; lia].
  - rewrite HS, HIN. clear HS HI HSI HN HIN Hc Hnil. destruct c as [w sat imp tr]. cbn in *.
    revert Hde. case_bool_decide; [|done]. intros [= <-]. unfold evaluateAnyJoin.
    destruct (Z.ltb_spec 0 sat), (Z.ltb_spec 0 w), (Z.eqb_spec (sat + imp) 0),
      (Z.eqb_spec imp (sat + imp)); cbn; split; split; intros Hx; try done;
      first [lia|right; lia|split; [done|lia]|destruct Hx as [|Hx]; [done|lia]|
             destruct Hx as [_ Hx]; lia].
Qed.

(** A node without verdict waits for a parent. *)
Lemma evaluateDependencies_waits node edges de :
  evaluateDependencies s node edges m vars = Ok de →
  de_Ready de = false → de_Impossible de = false → ∃ e, e ∈ edges ∧ has_class e Waiting.
Proof.
  unfold evaluateDependencies. case_bool_decide; [by intros [= <-]|].
  intros (c & Hc & Hde)%bind_Ok Hr Hi.
  destruct (join_facts _ _ _ Hc) as (_ & Hs & Him & _).
  destruct (evaluateEdges_Ok _ _ _ Hc) as [_ Hcount].
  apply (Hcount Waiting); [done|]. cbn. apply Z.nle_gt. intros Hw. revert Hde.
  unfold evaluateAllJoin, evaluateAnyJoin.
  destruct (Z.ltb_spec 0 (impossible c)), (Z.ltb_spec 0 (waiting c)), (Z.ltb_spec 0 (satisfied c)),
    (Z.eqb_spec (satisfied c + impossible c) 0), (Z.eqb_spec (satisfied c) (satisfied c + impossible c)),
    (Z.eqb_spec (impossible c) (satisfied c + impossible c)); try lia;
    repeat case_bool_decide; intros [= <-]; done.
Qed.

(** Nothing else can go wrong: with known parents, evaluable conditions and a known
    join, the dependencies of a node have a verdict. *)
Lemma evaluateDependencies_total node edges :
  valid_join node →
  (∀ e, e ∈ edges → is_Some (m !! edge_From e) ∧ ∃ b, evaluate s (edge_Condition e) vars = Ok b) →
  ∃ de, evaluateDependencies s node edges m vars = Ok de.
Proof.
  intros Hjoin Hall. unfold evaluateDependencies. case_bool_decide as Hne; [eauto|].
  assert (∀ c, ∃ c', foldM (evaluateEdge s node m vars) c edges = Ok c') as Hedges.
  { clear Hjoin Hne. induction edges as [|e edges IH]; intros c; cbn; [eauto|].
    destruct (Hall e) as [[parent Hp] [b Hb]]; [left|].
    assert (∃ c1, evaluateEdge s node m vars c e = Ok c1) as [c1 ->].
    { unfold evaluateEdge. rewrite Hp, Hb. cbn. repeat case_match; eauto. }
    apply IH. intros e' He'. apply Hall. by right. }
  destruct (Hedges (Counts 0 0 0 [])) as [c Hc]. unfold evaluateEdges. rewrite Hc. cbn.
  case_bool_decide as Hj; [eauto|]. case_bool_decide as Hj'; [eauto|].
  exfalso. unfold valid_join in Hjoin. unfold normalizeJoin in *.
  rewrite !elem_of_cons, elem_of_nil in Hjoin. destruct Hjoin as [He|[He|[He|[He|[]]]]];
    rewrite He in *; first [by apply Hj|apply Hj'; set_solver].
Qed.
End decision.

(** The verdicts depend on the set of incoming edges only. *)
#[global] Instance deps_ready_proper s m vars node :
  Proper (pointwise_relation _ iff ==> iff) (deps_ready s m vars node).
Proof.
  intros P Q HPQ. unfold deps_ready. case_bool_decide; setoid_rewrite HPQ; done.
Qed.

#[global] Instance deps_impossible_proper s m vars node :
  Proper (pointwise_relation _ iff ==> iff) (deps_impossible s m vars node).
Proof.
  intros P Q HPQ. unfold deps_impossible. case_bool_decide; setoid_rewrite HPQ; done.
Qed.

Lemma deps_exclusive s m vars node P :
  deps_ready s m vars node P → deps_impossible s m vars node P → False.
Proof.
  unfold deps_ready, deps_impossible. intros [Hno|Hready] [[e0 He0] Himp]; [by eapply Hno|].
  revert Hready Himp. case_bool_decide.
  - intros [(e & He & Hsat) Hall] [(e' & He' & Hi)|Hin].
    + destruct (Hall e' He') as [Hx|Hx]; by pose proof (has_class_unique _ _ _ _ _ _ Hi Hx).
    + pose proof (has_class_unique _ _ _ _ _ _ Hsat (Hin e He)). done.
  - intros (e & He & Hsat) Hall. destruct (Hall e He) as [Hx|Hx];
      by pose proof (has_class_unique _ _ _ _ _ _ Hsat Hx).
Qed.

Lemma runnable_exclusive s m vars node P :
  runnable s m vars node P → unrunnable s m vars node P → False.
Proof.
  intros (_ & Hc & Hr) [_ [(c & Hin & Hf)|[_ Hi]]].
  - specialize (Hc c Hin). congruence.
  - by eapply deps_exclusive.
Qed.

(** ** The loop of [Decide] *)

(** The edges of the plan into a node. *)
Definition incoming (plan : ExecutablePlan) (node : PlanNodeSpec) (e : PlanEdgeSpec) : Prop :=
  e ∈ spec_Edges (ep_Spec plan) ∧ edge_To e = node_NodeID node.

Section loop.
Context (s : Scheduler) (plan : ExecutablePlan) (m : gmap string PlanNodeStatus) (vars : Vars).
Context (exec : executable plan).

Lemma incoming_index node :
  pointwise_relation _ iff (.∈ get_list (ep_EdgesByTo plan) (node_NodeID node)) (incoming plan node).
Proof. intros e. apply (ex_to _ exec). Qed.

Lemma order_node id :
  id ∈ ep_Order plan → ∃ node, ep_NodeByID plan !! id = Some node ∧ node_NodeID node = id ∧
    node ∈ spec_Nodes (ep_Spec plan).
Proof.
  intros (node & -> & Hin)%(ex_order_dom _ exec)%list_elem_of_fmap. exists node.
  split; [by apply (ex_nodes _ exec)|done].
Qed.

(** The verdict on one node, and what it adds to the decision. *)
Lemma decide_node_Ok d id d' :
  id ∈ ep_Order plan → decide_node s plan m vars d id = Ok d' →
  ∃ node ready skipped, node ∈ spec_Nodes (ep_Spec plan) ∧ node_NodeID node = id ∧
    sd_Ready d' = sd_Ready d ++ ready ∧ sd_Skipped d' = sd_Skipped d ++ skipped ∧
    ((ready = [node] ∧ skipped = [] ∧ runnable s m vars node (incoming plan node)) ∨
     (ready = [] ∧ (∃ reason, skipped = [Skip id reason]) ∧
        unrunnable s m vars node (incoming plan node)) ∨
     (ready = [] ∧ skipped = [] ∧ ¬ runnable s m vars node (incoming plan node) ∧
        ¬ unrunnable s m vars node (incoming plan node) ∧
        (candidate m id → ∃ e, incoming plan node e ∧ has_class s m vars e Waiting))).
Proof.
  intros (node & Hnode & Hid & Hin)%order_node. unfold decide_node. rewrite Hnode.
  change (default zero_PlanNodeSpec (Some node)) with node.
  destruct (_ && _) eqn:Hcand.
  { intros [= <-]. exists node, [], []. rewrite !app_nil_r. split_and!; try done. right; right.
    assert (¬ candidate m (node_NodeID node)) as Hno.
    { intros (n & Hn & Hl). rewrite Hid in Hn. rewrite Hn in Hcand. cbn in Hcand.
      simplify_bool. set_solver. }
    split_and!; [done|done|by intros [? _]|by intros [? _]|by rewrite <-Hid]. }
  assert (candidate m (node_NodeID node)) as Hc.
  { rewrite Hid. unfold candidate. destruct (m !! id) as [n|]; [|done]. exists n. split; [done|].
    cbn in Hcand. apply andb_false_iff in Hcand as [Hx|Hx]; simplify_bool; rewrite Hx; set_solver. }
  intros ([ok traces] & Hconds%conditions_true_Ok & Hok)%bind_Ok. destruct ok; cbn in Hok.
  - apply bind_Ok in Hok as (de & Hde & [= <-]). cbn [sd_Ready sd_Skipped].
    rewrite <-Hid in Hde. pose proof (evaluateDependencies_waits _ _ _ _ _ _ Hde) as Hwait.
    setoid_rewrite (λ e, incoming_index node e) in Hwait.
    apply evaluateDependencies_Ok in Hde as [Hr Hi].
    rewrite incoming_index in Hr, Hi.
    assert (¬ conds_false s vars node) as Hnf.
    { intros (c & Hcin & Hcf). specialize (Hconds c Hcin). congruence. }
    destruct (de_Ready de), (de_Impossible de).
    + exfalso. eapply deps_exclusive; [by apply Hr|by apply Hi].
    + exists node, [node], []. rewrite app_nil_r. split_and!; try done. left.
      split; [done|]. split; [done|]. split; [done|]. split; [done|by apply Hr].
    + exists node, [], [Skip (node_NodeID node) (de_Reason de)]. rewrite app_nil_r.
      split_and!; try done. right; left. split; [done|]. split; [rewrite Hid; eauto|].
      split; [done|]. right. split; [done|]. by apply Hi.
    + exists node, [], []. rewrite !app_nil_r. split_and!; try done. right; right.
      split_and!; [done|done| | |intros _; by apply Hwait].
      * intros (_ & _ & Hx%Hr). done.
      * intros (_ & [Hx|[_ Hx%Hi]]); done.
  - injection Hok as <-. cbn [sd_Ready sd_Skipped].
    exists node, [], [Skip (node_NodeID node) "node conditions evaluated false"].
    rewrite app_nil_r. split_and!; try done. right; left. split; [done|].
    split; [rewrite Hid; eauto|]. split; [done|]. by left.
Qed.

(** The invariant of the loop: verdicts on the nodes seen so far, each once. *)
Record decided (seen : list string) (d : SchedulerDecision) : Prop := {
  dd_ready : ∀ node, node ∈ sd_Ready d ↔ node ∈ spec_Nodes (ep_Spec plan) ∧
    node_NodeID node ∈ seen ∧ runnable s m vars node (incoming plan node);
  dd_skipped : ∀ id, id ∈ skip_NodeID <$> sd_Skipped d ↔ ∃ node,
    node ∈ spec_Nodes (ep_Spec plan) ∧ node_NodeID node = id ∧ id ∈ seen ∧
    unrunnable s m vars node (incoming plan node);
  dd_waits : ∀ node, node ∈ spec_Nodes (ep_Spec plan) → node_NodeID node ∈ seen →
    candidate m (node_NodeID node) →
    runnable s m vars node (incoming plan node) ∨ unrunnable s m vars node (incoming plan node) ∨
    ∃ e, incoming plan node e ∧ has_class s m vars e Waiting;
  dd_ready_nodup : NoDup (node_NodeID <$> sd_Ready d);
  dd_skipped_nodup : NoDup (skip_NodeID <$> sd_Skipped d);
}.

Lemma node_id_inj node1 node2 :
  node1 ∈ spec_Nodes (ep_Spec plan) → node2 ∈ spec_Nodes (ep_Spec plan) →
  node_NodeID node1 = node_NodeID node2 → node1 = node2.
Proof.
  intros H1 H2 Heq. pose proof (ex_nodes _ exec) as Hidx.
  assert (ep_NodeByID plan !! node_NodeID node1 = Some node1) as Hl1 by (by apply Hidx).
  assert (ep_NodeByID plan !! node_NodeID node1 = Some node2) as Hl2 by (by apply Hidx).
  congruence.
Qed.

Lemma decided_step seen d id d' :
  decided seen d → id ∈ ep_Order plan → id ∉ seen → decide_node s plan m vars d id = Ok d' →
  decided (seen ++ [id]) d'.
Proof.
  intros [Hr Hs Hw Hrn Hsn] Hin Hni Hok.
  destruct (decide_node_Ok _ _ _ Hin Hok) as (node & ready & skipped & Hnode & Hid & Hr' & Hs' & Hv).
  assert (∀ node', node' ∈ spec_Nodes (ep_Spec plan) → node_NodeID node' = id → node' = node) as Huniq.
  { intros node' Hn' He. apply node_id_inj; congruence. }
  pose proof (runnable_exclusive s m vars node (incoming plan node)) as Hexcl.
  assert (id ∉ node_NodeID <$> sd_Ready d) as Hnr.
  { intros (n & Hn & Hrd)%list_elem_of_fmap. apply Hr in Hrd as (_ & Hx & _). congruence. }
  assert (id ∉ skip_NodeID <$> sd_Skipped d) as Hns.
  { intros (n & _ & _ & Hx & _)%Hs. congruence. }
  split.
  - intros n. rewrite Hr', elem_of_app, Hr, elem_of_app, list_elem_of_singleton.
    destruct Hv as [(-> & _ & Hrun)|[(-> & _ & Hun)|(-> & _ & Hnrun & _)]];
      rewrite ?list_elem_of_singleton, ?elem_of_nil; naive_solver.
  - intros k. rewrite Hs', fmap_app, elem_of_app, Hs. setoid_rewrite elem_of_app.
    setoid_rewrite list_elem_of_singleton.
    destruct Hv as [(_ & -> & Hrun)|[(_ & [reason ->] & Hun)|(_ & -> & _ & Hnun & _)]]; cbn;
      rewrite ?list_elem_of_singleton, ?elem_of_nil; naive_solver.
  - intros n Hn [Hseen|Heq%list_elem_of_singleton]%elem_of_app Hc; [auto|].
    pose proof (Huniq n Hn Heq) as ->. rewrite Hid in Hc. naive_solver.
  - rewrite Hr', fmap_app. destruct Hv as [(-> & _)|[(-> & _)|(-> & _)]]; cbn;
      rewrite ?app_nil_r; [|done..].
    apply NoDup_app. split_and!; [done| |apply NoDup_singleton].
    intros x Hx ->%list_elem_of_singleton. congruence.
  - rewrite Hs', fmap_app. destruct Hv as [(_ & -> & _)|[(_ & [reason ->] & _)|(_ & -> & _)]]; cbn;
      rewrite ?app_nil_r; [done| |done].
    apply NoDup_app. split_and!; [done| |apply NoDup_singleton].
    intros x Hx ->%list_elem_of_singleton. congruence.
Qed.

Lemma decide_loop d :
  foldM (decide_node s plan m vars)
    {| sd_Ready := []; sd_Skipped := []; sd_ConditionTraces := [] |} (ep_Order plan) = Ok d →
  decided (ep_Order plan) d.
Proof.
  apply foldM_inv.
  - split; cbn.
    + intros node. rewrite !elem_of_nil. naive_solver.
    + intros id. rewrite elem_of_nil. split; [done|].
      intros (? & ? & ? & ?%not_elem_of_nil & _). done.
    + intros node _ ?%not_elem_of_nil. done.
    + by apply NoDup_nil.
    + by apply NoDup_nil.
  - intros seen id d1 d2 Hd Hok [rest Hrest]. apply (decided_step _ d1); [done| | |done].
    + rewrite Hrest. set_solver.
    + pose proof (ex_order_nodup _ exec) as Hnd. rewrite Hrest in Hnd.
      apply NoDup_app in Hnd as [Hnd _]. apply NoDup_app in Hnd as (_ & Hdis & _).
      intros Hin. apply (Hdis id Hin). set_solver.
Qed.
End loop.

(** ** Totality *)

(** Everything the scheduler may evaluate has a value. *)
Definition evaluable (s : Scheduler) (plan : ExecutablePlan) (vars : Vars) : Prop :=
  (∀ node c, node ∈ spec_Nodes (ep_Spec plan) → c ∈ node_Conditions node →
     ∃ b, evaluate s c vars = Ok b) ∧
  (∀ e, e ∈ spec_Edges (ep_Spec plan) → ∃ b, evaluate s (edge_Condition e) vars = Ok b).

(** The status has an entry for every node of the plan. *)
Definition covers (plan : ExecutablePlan) (status : RunPlanStatus) : Prop :=
  ∀ id, id ∈ node_ids (ep_Spec plan) → is_Some (status_by_node status !! id).

Lemma decide_loop_total s plan m vars :
  executable plan → evaluable s plan vars →
  (∀ id, id ∈ node_ids (ep_Spec plan) → is_Some (m !! id)) →
  (∀ e, e ∈ spec_Edges (ep_Spec plan) → edge_From e ∈ node_ids (ep_Spec plan)) →
  (∀ node, node ∈ spec_Nodes (ep_Spec plan) → valid_join node) →
  ∀ d ids, (∀ id, id ∈ ids → id ∈ ep_Order plan) →
  ∃ d', foldM (decide_node s plan m vars) d ids = Ok d'.
Proof.
  intros exec [Hconds Hedges] Hcov Hfrom Hjoin d ids. revert d.
  induction ids as [|id ids IH]; intros d Hin; cbn; [eauto|].
  assert (∃ d1, decide_node s plan m vars d id = Ok d1) as [d1 ->].
  { destruct (order_node _ exec id) as (node & Hnode & Hid & Hspec); [apply Hin; left|].
    unfold decide_node. rewrite Hnode. change (default zero_PlanNodeSpec (Some node)) with node.
    case_match; [eauto|].
    destruct (conditions_true_total s vars node (node_Conditions node) []) as (b & tr & Hc); [eauto|].
    unfold nodeConditionsTrue. rewrite Hc. cbn. destruct b; cbn; [|eauto].
    destruct (evaluateDependencies_total s m vars node (get_list (ep_EdgesByTo plan) id)) as [de ->];
      [by apply Hjoin| |cbn; eauto].
    intros e [He _]%(ex_to _ exec). eauto. }
  apply IH. intros id' Hid'. apply Hin. by right.
Qed.

(** ** Progress *)

(** The first node of the order that is not finished has only finished parents. *)
Lemma first_unfinished (P : string → Prop) `{!∀ id, Decision (P id)} (order : list string) :
  (∃ id, id ∈ order ∧ ¬ P id) →
  ∃ before id after, order = before ++ id :: after ∧ ¬ P id ∧ ∀ x, x ∈ before → P x.
Proof.
  induction order as [|x order IH]; intros (id & Hin & Hid); [by apply not_elem_of_nil in Hin|].
  destruct (decide (P x)) as [Hx|Hx].
  - destruct IH as (b & y & a & -> & Hy & Hb).
    { exists id. split; [|done]. apply elem_of_cons in Hin as [->|?]; done. }
    exists (x :: b), y, a. split_and!; [done..|]. intros z [->|?]%elem_of_cons; auto.
  - exists [], x, order. split_and!; [done..|]. by intros z ?%not_elem_of_nil.
Qed.

(** Sorting a decision changes the order of its entries only. *)
Lemma Decide_Ok `{!SliceSort} s plan status vars d :
  Decide s plan status vars = Ok d ↔
  ∃ d0, foldM (decide_node s plan (status_by_node status) vars)
          {| sd_Ready := []; sd_Skipped := []; sd_ConditionTraces := [] |} (ep_Order plan) = Ok d0 ∧
    d = {| sd_Ready := sort_slice ready_le (sd_Ready d0);
           sd_Skipped := sort_slice skip_le (sd_Skipped d0);
           sd_ConditionTraces := sd_ConditionTraces d0 |}.
Proof. unfold Decide. rewrite bind_Ok. naive_solver. Qed.

Lemma Decide_decided `{!SliceSort} s plan status vars d :
  executable plan → Decide s plan status vars = Ok d →
  decided s plan (status_by_node status) vars (ep_Order plan) d.
Proof.
  intros exec (d0 & [Hr Hs Hw Hrn Hsn]%(decide_loop _ _ _ _ exec) & ->)%Decide_Ok.
  split; cbn.
  - intros node. by rewrite elem_of_sort_slice.
  - intros id. by rewrite sort_slice_perm.
  - done.
  - by rewrite sort_slice_perm.
  - by rewrite sort_slice_perm.
Qed.

#[global] Instance ready_le_total : Total ready_le.
Proof. intros x y. unfold ready_le. apply total, _. Qed.
#[global] Instance skip_le_total : Total skip_le.
Proof. intros x y. unfold skip_le. apply total, _. Qed.

Lemma sorted_fmap {A} (f : A → string) l :
  Sorted (λ x y, String.le (f x) (f y)) l → Sorted String.le (f <$> l).
Proof.
  induction 1 as [|x l Hs IH Hd]; cbn; [constructor|]. constructor; [done|].
  destruct Hd; cbn; by constructor.
Qed.

Lemma covers_candidate plan status id :
  covers plan status → id ∈ node_ids (ep_Spec plan) →
  (∀ n, n ∈ st_Nodes status → ns_LifecycleState n ∈ [PlanNodePending; PlanNodeReady] ∨
     nodeTerminal (ns_LifecycleState n) = true) →
  candidate (status_by_node status) id ∨
  ∃ n, status_by_node status !! id = Some n ∧ nodeTerminal (ns_LifecycleState n) = true.
Proof.
  intros Hcov Hid Hall. destruct (Hcov id Hid) as [n Hn].
  assert (n ∈ st_Nodes status) as Hin.
  { revert Hn. unfold status_by_node. clear. induction (st_Nodes status) as [|x l IH] using rev_ind; [done|].
    rewrite foldl_app. cbn. intros [[_ <-]|[_ Hl]]%lookup_insert_Some; [set_solver|].
    apply elem_of_app. left. by apply IH. }
  destruct (Hall n Hin) as [Hc|Ht]; [left|right]; unfold candidate; eauto.
Qed.

(** ** The scheduler over reducer states *)

(** The node lifecycles the reducer produces. *)
Definition known_lifecycle (lifecycle : string) : Prop :=
  lifecycle ∈ [PlanNodePending; PlanNodeReady] ∨ lifecycle = PlanNodeRunning ∨
  nodeTerminal lifecycle = true.

Lemma node_step_known at_ ev n n' :
  node_step at_ ev n n' → known_lifecycle (ns_LifecycleState n) → known_lifecycle (ns_LifecycleState n').
Proof.
  intros [lc Hlc|Hk|Hk|Hk|Hk Hd] Hn; try done; [|left; right; left].
  rewrite transitioned_lifecycle.
  apply transition_cases in Hlc as [[_ ->]|[[_ ->]|[[_ ->]|[[_ ->]|[[_ ->]|[_ ->]]]]]];
    [left; right; left|right; left; done|right; right; by vm_compute..].
Qed.

Lemma reachable_lifecycle spec s id n :
  reachable spec s → nodes s !! id = Some n → known_lifecycle (ns_LifecycleState n).
Proof.
  intros Hr. revert id n. revert s Hr.
  apply (reachable_nodes spec (λ _ n, known_lifecycle (ns_LifecycleState n))).
  - intros node now. left. left.
  - intros at_ ev _ n n' _ Hn Hs. by eapply node_step_known.
Qed.

(** The map [Decide] builds from the status is the reducer's own node map. *)
Lemma status_by_node_wf s : wf s → status_by_node (Status s) = nodes s.
Proof.
  intros [Hids Hnodes _]. unfold status_by_node. rewrite Hnodes.
  rewrite <-(statuses_by_id_sorted (nodes s)) at 2 by done. unfold statuses_by_id.
  pose proof (sortedNodeStatuses_NoDup _ Hids) as Hnd.
  rewrite <-(right_id_L ∅ (∪) (list_to_map _)). generalize (∅ : gmap string PlanNodeStatus).
  revert Hnd. clear Hids Hnodes. induction (sortedNodeStatuses (nodes s)) as [|n l IH]; intros Hnd m0; cbn.
  { by rewrite (left_id_L ∅ (∪)). }
  rewrite fmap_cons, NoDup_cons in Hnd. destruct Hnd as [Hni Hnd]. rewrite IH by done.
  rewrite <-insert_union_r; [by rewrite insert_union_l|].
  apply not_elem_of_list_to_map. by rewrite <-list_fmap_compose.
Qed.

(** The plan of a state: its nodes are those of the validated plan. *)
Definition state_of_plan (plan : ExecutablePlan) (s : State) : Prop :=
  dom (nodes s) = list_to_set (node_ids (ep_Spec plan)).

Lemma state_of_plan_covers plan s : wf s → state_of_plan plan s → covers plan (Status s).
Proof.
  intros Hwf Hdom id Hid. rewrite status_by_node_wf by done. apply elem_of_dom.
  rewrite Hdom. by apply elem_of_list_to_set.
Qed.

Lemma progress_step s plan m vars d before id after :
  executable plan → decided s plan m vars (ep_Order plan) d →
  ep_Order plan = before ++ id :: after → candidate m id →
  (∀ x, x ∈ before → ∃ n, m !! x = Some n ∧ nodeTerminal (ns_LifecycleState n) = true) →
  sd_Ready d ≠ [] ∨ sd_Skipped d ≠ [].
Proof.
  intros exec [Hr Hs Hw _ _] Heq Hc Hbefore.
  assert (id ∈ ep_Order plan) as Hid by (rewrite Heq; set_solver).
  destruct (order_node _ exec _ Hid) as (node & _ & <- & Hspec).
  destruct (Hw node Hspec Hid Hc) as [Hrun|[Hun|(e & [He Hto] & parent & Hp & Hnt)]].
  - left. intros Hnil. assert (node ∈ sd_Ready d) as Hin by (by apply Hr).
    rewrite Hnil in Hin. by apply not_elem_of_nil in Hin.
  - right. intros Hnil. assert (node_NodeID node ∈ skip_NodeID <$> sd_Skipped d) as Hin.
    { apply Hs. eauto. }
    rewrite Hnil in Hin. by apply not_elem_of_nil in Hin.
  - assert (edge_From e ∈ before) as Hb.
    { eapply (ex_order _ exec); [done|]. by exists e. }
    destruct (Hbefore _ Hb) as (n & Hn & Ht). congruence.
Qed.

Lemma sort_slice_unique `{S1 : !SliceSort} `{S2 : !SliceSort} {A} (R : relation A)
    `{!RelDecision R, !Total R, !Transitive R} (l : list A) :
  (∀ x y, x ∈ l → y ∈ l → R x y → R y x → x = y) →
  @sort_slice S1 A R _ l = @sort_slice S2 A R _ l.
Proof.
  intros Hanti. apply (Sorted_unique_strong R).
  - intros x y Hx%elem_of_sort_slice Hy%elem_of_sort_slice. by apply Hanti.
  - apply sort_slice_sorted, _.
  - apply sort_slice_sorted, _.
  - by rewrite !sort_slice_perm.
Qed.

Lemma NoDup_fmap_inj {A} (f : A → string) l x y :
  NoDup (f <$> l) → x ∈ l → y ∈ l → f x = f y → x = y.
Proof.
  induction l as [|a l IH]; [by intros _ ?%not_elem_of_nil|].
  rewrite fmap_cons, NoDup_cons. intros [Hni Hnd] [->|Hx]%elem_of_cons [->|Hy]%elem_of_cons Heq;
    [done| | |by apply IH].
  - destruct Hni. rewrite Heq. by apply list_elem_of_fmap_2.
  - destruct Hni. rewrite <-Heq. by apply list_elem_of_fmap_2.
Qed.

#[global] Instance ready_le_trans : Transitive ready_le.
Proof. intros x y z. unfold ready_le. apply transitivity. Qed.
#[global] Instance skip_le_trans : Transitive skip_le.
Proof. intros x y z. unfold skip_le. apply transitivity. Qed.

(** ** A sample decision *)

Module SchedulerSample.

(** A second implementation of [sort.Slice], which orders equal elements the other
    way round. *)
Definition reverse_slice_sort : SliceSort.
Proof.
  refine {| sort_slice A R _ l := merge_sort R (reverse l) |}.
  - intros A R ? l. by rewrite merge_sort_Permutation, reverse_Permutation.
  - intros A R ? ? l. apply Sorted_merge_sort, _.
Defined.

Definition scheduler : Scheduler := {| sched_Expressions := Some Sample.compiler |}.

(** After [a] has succeeded and [b] has failed, [c] can start; [d] waits for [c]. *)
Definition history : list (time * StateEvent) :=
  (λ e, (1%Z, e)) <$>
  [StateSample.event EventPlanStarted "" 1; StateSample.event EventNodeStarted "a" 2;
   StateSample.event EventNodeSucceeded "a" 3; StateSample.event EventNodeStarted "b" 4;
   StateSample.event EventNodeFailed "b" 5].

Definition state : State := (run (NewState Sample.spec 1) history).1.

Lemma mid_run_reachable : reachable Sample.spec state.
Proof.
  eapply (StateSample.run_reachable _ (NewState Sample.spec 1) history); [apply reach_new| |].
  - unfold history. cbn. repeat (apply Forall_cons; split; [done|]). by apply Forall_nil.
  - vm_compute. reflexivity.
Qed.

Definition decision : SchedulerDecision :=
  match Decide scheduler Sample.plan (Status state) None with
  | Ok d => d
  | Err _ => {| sd_Ready := []; sd_Skipped := []; sd_ConditionTraces := [] |}
  end.

Lemma decision_made : Decide scheduler Sample.plan (Status state) None = Ok decision.
Proof. vm_compute. reflexivity. Qed.

Example decision_ready : node_NodeID <$> sd_Ready decision = ["c"].
Proof. vm_compute. reflexivity. Qed.

Lemma plan_executable : executable Sample.plan.
Proof. exact (accepted_executable _ _ _ Sample.plan_valid). Qed.

End SchedulerSample.

(** ** Properties *)

(** C34: a decision is exactly what the plan semantics prescribes: a node is ready
    if and only if it is pending or ready, all its conditions hold, and its join is
    satisfied by its incoming edges; it is skipped if and only if a condition is
    false or its join can never be satisfied. *)
Theorem Decide_characterised `{!SliceSort} (s : Scheduler) (plan : ExecutablePlan)
    (status : RunPlanStatus) (vars : Vars) (d : SchedulerDecision) :
  executable plan → Decide s plan status vars = Ok d →
  (∀ node, node ∈ sd_Ready d ↔ node ∈ spec_Nodes (ep_Spec plan) ∧
     runnable s (status_by_node status) vars node (incoming plan node)) ∧
  (∀ id, id ∈ skip_NodeID <$> sd_Skipped d ↔ ∃ node, node ∈ spec_Nodes (ep_Spec plan) ∧
     node_NodeID node = id ∧ unrunnable s (status_by_node status) vars node (incoming plan node)).
Proof.
  intros exec Hd. destruct (Decide_decided _ _ _ _ _ exec Hd) as [Hr Hs _ _ _].
  assert (∀ node, node ∈ spec_Nodes (ep_Spec plan) → node_NodeID node ∈ ep_Order plan) as Hord.
  { intros node Hin. apply (ex_order_dom _ exec). by apply list_elem_of_fmap_2. }
  split; [intros node; rewrite Hr|intros id; rewrite Hs]; naive_solver.
Qed.

Lemma Decide_characterised_witness :
  ∃ node, node ∈ sd_Ready SchedulerSample.decision ∧
    runnable SchedulerSample.scheduler (status_by_node (Status SchedulerSample.state)) None node
      (incoming Sample.plan node).
Proof.
  exists (Sample.node "c" "all").
  assert (Sample.node "c" "all" ∈ sd_Ready SchedulerSample.decision) as Hin
    by (vm_compute; left).
  split; [exact Hin|].
  apply (Decide_characterised SchedulerSample.scheduler Sample.plan (Status SchedulerSample.state)
    None SchedulerSample.decision SchedulerSample.plan_executable SchedulerSample.decision_made).
  exact Hin.
Defined.

(** Decisions are ordered and consistent: ready and skipped nodes are listed by
    increasing id without duplicates, and no node is both ready and skipped. *)
Theorem decision_consistent `{!SliceSort} (s : Scheduler) (plan : ExecutablePlan)
    (status : RunPlanStatus) (vars : Vars) (d : SchedulerDecision) :
  executable plan → Decide s plan status vars = Ok d →
  Sorted String.le (node_NodeID <$> sd_Ready d) ∧ NoDup (node_NodeID <$> sd_Ready d) ∧
  Sorted String.le (skip_NodeID <$> sd_Skipped d) ∧ NoDup (skip_NodeID <$> sd_Skipped d) ∧
  (∀ id, id ∈ node_NodeID <$> sd_Ready d → id ∉ skip_NodeID <$> sd_Skipped d).
Proof.
  intros exec Hd. pose proof (Decide_decided _ _ _ _ _ exec Hd) as [Hr Hs _ Hrn Hsn].
  apply Decide_Ok in Hd as (d0 & _ & Heq). split_and!; try done.
  - rewrite Heq. apply (sorted_fmap node_NodeID), (sort_slice_sorted ready_le).
  - rewrite Heq. apply (sorted_fmap skip_NodeID), (sort_slice_sorted skip_le).
  - intros id (node & -> & (Hin & _ & Hrun)%Hr)%list_elem_of_fmap (node' & Hin' & Hid & _ & Hun)%Hs.
    rewrite (node_id_inj _ exec _ _ Hin' Hin Hid) in Hun. by eapply runnable_exclusive.
Qed.

Lemma decision_consistent_witness : NoDup (node_NodeID <$> sd_Ready SchedulerSample.decision).
Proof.
  apply (decision_consistent SchedulerSample.scheduler Sample.plan (Status SchedulerSample.state)
    None SchedulerSample.decision SchedulerSample.plan_executable SchedulerSample.decision_made).
Defined.

(** Scheduling is deterministic: [sort.Slice] leaves the order of equal elements
    open, but any two implementations of it give the same decision, because the
    sorted entries have distinct ids. *)
Theorem Decide_deterministic (S1 S2 : SliceSort) (s : Scheduler) (plan : ExecutablePlan)
    (status : RunPlanStatus) (vars : Vars) :
  executable plan → @Decide S1 s plan status vars = @Decide S2 s plan status vars.
Proof.
  intros exec. unfold Decide.
  destruct (foldM _ _ (ep_Order plan)) as [d|e] eqn:Hd; [|done]. cbn. f_equal.
  apply (decide_loop _ _ _ _ exec) in Hd as [_ _ _ Hrn Hsn]. f_equal.
  - apply sort_slice_unique; [apply _..|]. intros x y Hx Hy Hxy Hyx.
    eapply NoDup_fmap_inj; [exact Hrn|done..|]. by apply (anti_symm String.le).
  - apply sort_slice_unique; [apply _..|]. intros x y Hx Hy Hxy Hyx.
    eapply NoDup_fmap_inj; [exact Hsn|done..|]. by apply (anti_symm String.le).
Qed.

Lemma Decide_deterministic_witness :
  @Decide SchedulerSample.reverse_slice_sort SchedulerSample.scheduler Sample.plan
    (Status SchedulerSample.state) None = Ok SchedulerSample.decision.
Proof.
  rewrite (Decide_deterministic SchedulerSample.reverse_slice_sort merge_slice_sort _ _ _ _
    SchedulerSample.plan_executable).
  exact SchedulerSample.decision_made.
Defined.

(** Scheduling a validated plan cannot fail on its own: with a status that has
    all its nodes and expressions that evaluate, [Decide] returns a decision. *)
Theorem Decide_total `{!JSONSchema, !SliceSort} (v : Validator) (spec : RunPlanSpec)
    (plan : ExecutablePlan) (s : Scheduler) (st : State) (vars : Vars) (origin : RunPlanSpec) :
  Validate v spec = Ok plan → reachable origin st → state_of_plan plan st →
  evaluable s plan vars →
  ∃ d, Decide s plan (Status st) vars = Ok d.
Proof.
  intros Hv Hst Hdom Hev. pose proof (accepted_executable _ _ _ Hv) as exec.
  pose proof Hv as [Hs _]%Validate_stages.
  destruct (accepted_edges _ _ _ Hv) as (Hedge & _), (accepted_nodes _ _ _ Hv) as (Hnode & _).
  destruct (decide_loop_total s plan (status_by_node (Status st)) vars exec Hev) with
    {| sd_Ready := []; sd_Skipped := []; sd_ConditionTraces := [] |} (ep_Order plan) as [d Hd].
  - apply state_of_plan_covers; [by eapply reachable_wf|done].
  - rewrite Hs. by intros e [? _ _ _ _ _]%Hedge.
  - rewrite Hs. intros node Hin%Hnode. unfold validateNode, validateNodeIdentity in Hin.
    apply bind_Ok in Hin as ([] & Hin & _). by go_inv Hin.
  - done.
  - eexists. apply Decide_Ok. eauto.
Qed.

Lemma Decide_total_witness :
  ∃ d, Decide SchedulerSample.scheduler Sample.plan (Status SchedulerSample.state) None = Ok d.
Proof.
  apply (@Decide_total Sample.schema_any merge_slice_sort Sample.validator Sample.spec Sample.plan
    SchedulerSample.scheduler SchedulerSample.state None Sample.spec).
  - exact Sample.plan_valid.
  - exact SchedulerSample.mid_run_reachable.
  - unfold state_of_plan. apply (bool_decide_unpack _). vm_compute. exact I.
  - split.
    + assert (Forall (λ n, node_Conditions n = []) (spec_Nodes (ep_Spec Sample.plan))) as Hall
        by (apply (bool_decide_unpack _); vm_compute; exact I).
      intros node c Hn Hc. rewrite (proj1 (Forall_forall _ _) Hall node Hn) in Hc.
      by apply not_elem_of_nil in Hc.
    + assert (Forall (λ e, edge_Condition e = "") (spec_Edges (ep_Spec Sample.plan))) as Hall
        by (apply (bool_decide_unpack _); vm_compute; exact I).
      intros e He. rewrite (proj1 (Forall_forall _ _) Hall e He). by exists true.
Defined.

(** A decision over a state that tracks a valid plan is not empty unless every node is
    finished or one is running. *)
Lemma decision_progress `{!SliceSort} (plan : ExecutablePlan) (s : Scheduler) (st : State)
    (vars : Vars) (d : SchedulerDecision) :
  executable plan → wf st → state_of_plan plan st →
  (∀ id n, nodes st !! id = Some n → known_lifecycle (ns_LifecycleState n)) →
  Decide s plan (Status st) vars = Ok d →
  (∀ id n, nodes st !! id = Some n → ns_LifecycleState n ≠ PlanNodeRunning) →
  (∃ id n, nodes st !! id = Some n ∧ nodeTerminal (ns_LifecycleState n) = false) →
  sd_Ready d ≠ [] ∨ sd_Skipped d ≠ [].
Proof.
  intros exec Hwf Hdom Hknown Hd Hrun (id & n & Hn & Hnt).
  pose proof (Decide_decided _ _ _ _ _ exec Hd) as Hdec.
  rewrite status_by_node_wf in Hdec by done.
  assert (∀ x, x ∈ ep_Order plan ↔ is_Some (nodes st !! x)) as Hord.
  { intros x. by rewrite (ex_order_dom _ exec), <-elem_of_dom, Hdom, elem_of_list_to_set. }
  set (finished x := nodeTerminal (ns_LifecycleState (default zero_PlanNodeStatus (nodes st !! x))) = true).
  destruct (first_unfinished finished (ep_Order plan)) as (before & x & after & Heq & Hx & Hb).
  { exists id. split; [apply Hord; eauto|]. unfold finished. rewrite Hn. cbn. by rewrite Hnt. }
  eapply progress_step; [done|done|done| |].
  - destruct (proj1 (Hord x)) as [nx Hnx]; [rewrite Heq; set_solver|].
    unfold finished in Hx. rewrite Hnx in Hx. cbn in Hx.
    destruct (Hknown _ _ Hnx) as [?|[?|?]]; [by exists nx| |done].
    by destruct (Hrun _ _ Hnx).
  - intros y Hy. destruct (proj1 (Hord y)) as [ny Hny]; [rewrite Heq; set_solver|].
    exists ny. split; [done|]. specialize (Hb y Hy). unfold finished in Hb. by rewrite Hny in Hb.
Qed.

(** C1: a plan never deadlocks: when no node is running and some node is not
    finished, the scheduler makes progress, it starts or skips at least one node. *)
Theorem scheduler_progress `{!JSONSchema, !SliceSort} (v : Validator) (spec : RunPlanSpec)
    (plan : ExecutablePlan) (s : Scheduler) (st : State) (vars : Vars) (origin : RunPlanSpec)
    (d : SchedulerDecision) :
  Validate v spec = Ok plan → reachable origin st → state_of_plan plan st →
  Decide s plan (Status st) vars = Ok d →
  (∀ id n, NodeStatus st id = Some n → ns_LifecycleState n ≠ PlanNodeRunning) →
  (∃ id n, NodeStatus st id = Some n ∧ nodeTerminal (ns_LifecycleState n) = false) →
  sd_Ready d ≠ [] ∨ sd_Skipped d ≠ [].
Proof.
  intros Hv Hst Hdom. apply decision_progress; [by eapply accepted_executable|by eapply reachable_wf|done|].
  intros id n. by apply reachable_lifecycle with origin.
Qed.

Lemma scheduler_progress_witness :
  sd_Ready SchedulerSample.decision ≠ [] ∨ sd_Skipped SchedulerSample.decision ≠ [].
Proof.
  apply (@scheduler_progress Sample.schema_any merge_slice_sort Sample.validator Sample.spec
    Sample.plan SchedulerSample.scheduler SchedulerSample.state None Sample.spec).
  - exact Sample.plan_valid.
  - exact SchedulerSample.mid_run_reachable.
  - unfold state_of_plan. apply (bool_decide_unpack _). vm_compute. exact I.
  - exact SchedulerSample.decision_made.
  - change (map_Forall (λ _ n, ns_LifecycleState n ≠ PlanNodeRunning) (nodes SchedulerSample.state)).
    apply (bool_decide_unpack _). vm_compute. exact I.
  - exists "c". eexists. split; vm_compute; reflexivity.
Defined.
