(* ===== verification/Json.v ===== *)
(** * JSON encodings

    What encoding/json makes of the structs the plan engine compares and hashes:
    one encoder per struct, with the field names and the [omitempty] and [omitzero]
    options of its tags.  A document is a tree; the code compares and hashes its
    text, and the text of a tree determines the tree (for valid UTF-8 strings), so
    [bytes.Equal] of two encodings is equality of trees.  [JUnsupported] marks a
    value encoding/json refuses; [Marshal] fails on a tree that contains it. *)

From S2P Require Import Prelude Types.

Inductive json :=
  | JNull
  | JBool (b : bool)
  | JNumber (literal : string)
  | JInt (z : Z)
  | JString (s : string)
  | JTime (t : time)
  | JArray (l : list json)
  | JObject (fields : list (string * json))
  | JUnsupported.

(** ** Equality *)

Fixpoint json_eqb (x y : json) : bool :=
  match x, y with
  | JNull, JNull | JUnsupported, JUnsupported => true
  | JBool a, JBool b => a == b
  | JNumber a, JNumber b => a == b
  | JInt a, JInt b => a == b
  | JString a, JString b => a == b
  | JTime a, JTime b => a == b
  | JArray l, JArray k =>
      (fix go l k :=
         match l, k with
         | [], [] => true
         | x :: l, y :: k => json_eqb x y && go l k
         | _, _ => false
         end) l k
  | JObject l, JObject k =>
      (fix go (l k : list (string * json)) :=
         match l, k with
         | [], [] => true
         | (a, x) :: l, (b, y) :: k => (a == b) && json_eqb x y && go l k
         | _, _ => false
         end) l k
  | _, _ => false
  end.

(** Induction with hypotheses for the elements of arrays and objects. *)
Lemma json_rect_strong (P : json → Prop) :
  P JNull → (∀ b, P (JBool b)) → (∀ n, P (JNumber n)) → (∀ z, P (JInt z)) →
  (∀ s, P (JString s)) → (∀ t, P (JTime t)) → (∀ l, Forall P l → P (JArray l)) →
  (∀ l, Forall (λ kv, P kv.2) l → P (JObject l)) → P JUnsupported → ∀ j, P j.
Proof.
  intros Hn Hb Hnum Hi Hs Ht Ha Ho Hu.
  fix IH 1. intros [|b|n|z|s|t|l|l|];
    [exact Hn|apply Hb|apply Hnum|apply Hi|apply Hs|apply Ht| | |exact Hu].
  - apply Ha. induction l as [|x l IHl]; constructor; [apply IH|done].
  - apply Ho. induction l as [|[k x] l IHl]; constructor; [apply IH|done].
Qed.

Lemma json_eqb_eq x y : json_eqb x y = true ↔ x = y.
Proof.
  split; [|intros <-].
  - revert y. induction x as [| | | | | |l IH|l IH|] using json_rect_strong; intros []; cbn;
      try done; rewrite ?bool_decide_eq_true; try naive_solver.
    + revert l0. induction IH as [|x l Hx _ IHl]; intros [|y k]; try done.
      intros [->%Hx Hl]%andb_true_iff. apply IHl in Hl. naive_solver.
    + revert fields. induction IH as [|[a x] l Hx _ IHl]; intros [|[b y] k]; try done.
      intros [[->%bool_decide_eq_true_1 Hxy%Hx]%andb_true_iff Hl]%andb_true_iff.
      apply IHl in Hl. cbn in Hxy. naive_solver.
  - induction x as [| | | | | |l IH|l IH|] using json_rect_strong; cbn;
      rewrite ?bool_decide_eq_true; try done.
    + induction IH as [|x l Hx _ IHl]; [done|]. by rewrite Hx, IHl.
    + induction IH as [|[a x] l Hx _ IHl]; [done|].
      cbn in Hx. by rewrite Hx, IHl, bool_decide_eq_true_2.
Qed.

#[global] Instance json_eq_dec : EqDecision json.
Proof.
  intros x y. destruct (json_eqb x y) eqn:H.
  - left. by apply json_eqb_eq.
  - right. intros Heq. apply json_eqb_eq in Heq. congruence.
Defined.

(** ** Marshal *)

Fixpoint supported (j : json) : bool :=
  match j with
  | JArray l => (fix go l := match l with [] => true | x :: l => supported x && go l end) l
  | JObject l =>
      (fix go (l : list (string * json)) :=
         match l with [] => true | (_, x) :: l => supported x && go l end) l
  | JUnsupported => false
  | _ => true
  end.

Definition Marshal (j : json) : result json :=
  if supported j then Ok j else Err (Errorf ErrOther "json: unsupported value").

(** [hex.EncodeToString(sha256.Sum256(data))] of an encoded document. *)
Class Sha256 := { sha256_hex : json → string }.

(** ** Field options *)

Definition field (k : string) (v : json) : list (string * json) := [(k, v)].

(** A field left out when its value is zero or empty. *)
Definition omit (zero : bool) (k : string) (v : json) : list (string * json) :=
  if zero then [] else [(k, v)].

Definition omit_string (k v : string) := omit (v == "") k (JString v).
Definition omit_int (k : string) (v : Z) := omit (v == 0%Z) k (JInt v).
Definition omit_bool (k : string) (v : bool) := omit (negb v) k (JBool v).
Definition omit_list {A} (k : string) (enc : A → json) (l : list A) :=
  omit (bool_decide (l = [])) k (JArray (enc <$> l)).

(** [time.Time] is written in RFC 3339, which has years 0 to 9999. *)
Definition enc_time (t : time) : json :=
  if ((-31622400 * second <=? t) && (t <? 315537897600 * second))%Z then JTime t
  else JUnsupported.
Definition omit_time (k : string) (t : time) := omit (time_is_zero t) k (enc_time t).

(** ** Maps *)

Definition entry_le (x y : string * json) : Prop := String.le x.1 y.1.

#[global] Instance entry_le_dec : RelDecision entry_le.
Proof. intros x y. unfold entry_le. apply _. Defined.

(** Maps are written with sorted keys. *)
Definition enc_object (m : gmap string json) : json :=
  JObject (merge_sort entry_le (map_to_list m)).

Definition enc_map {A} (enc : A → json) (m : go_map A) : json :=
  match m with None => JNull | Some m => enc_object (enc <$> m) end.
Definition omit_map {A} (k : string) (enc : A → json) (m : go_map A) :=
  omit (match m with None => true | Some m => bool_decide (size m = 0) end) k (enc_map enc m).

(** ** Structs that occur inside dynamic values *)

Definition enc_ArtifactRef (r : ArtifactRef) : json := JObject
  (field "artifact_id" (JString (ref_ArtifactID r)) ++
   omit_string "plan_id" (ref_PlanID r) ++
   omit_string "node_id" (ref_NodeID r) ++
   omit_string "run_id" (ref_RunID r) ++
   field "name" (JString (ref_Name r)) ++
   field "kind" (JString (ref_Kind r)) ++
   omit_string "media_type" (ref_MediaType r) ++
   omit_string "uri" (ref_URI r) ++
   omit_int "size_bytes" (ref_SizeBytes r) ++
   omit_string "digest" (ref_Digest r) ++
   omit_map "metadata" JString (ref_Metadata r) ++
   omit_time "created_at" (ref_CreatedAt r)).

Definition enc_BackendRef (b : BackendRef) : json := JObject
  (field "kind" (JString (backend_Kind b)) ++ field "name" (JString (backend_Name b))).

Definition enc_PlanBudgetUsage (u : PlanBudgetUsage) : json :=
  JObject (omit_int "spent_cents" (usage_SpentCents u)).

Definition enc_PlanApprovalGate (g : PlanApprovalGate) : json := JObject
  (omit_string "summary" (gate_Summary g) ++
   omit_list "node_ids" JString (gate_NodeIDs g) ++
   omit_string "risk_reason" (gate_RiskReason g) ++
   omit_string "policy_version" (gate_PolicyVersion g) ++
   omit_time "requested_at" (gate_RequestedAt g) ++
   omit_time "expires_at" (gate_ExpiresAt g)).

Definition enc_PlanApprovalDecision (d : PlanApprovalDecision) : json := JObject
  (field "approved" (JBool (dec_Approved d)) ++
   omit_string "actor_id" (dec_ActorID d) ++
   omit_string "reason" (dec_Reason d) ++
   omit_string "policy_version" (dec_PolicyVersion d) ++
   omit_time "decided_at" (dec_DecidedAt d)).

Definition enc_CapabilitySelectionTrace (t : CapabilitySelectionTrace) : json := JObject
  (field "backend" (enc_BackendRef (cst_Backend t)) ++
   field "capability" (JString (cst_Capability t)) ++
   omit_list "signals" JString (cst_Signals t) ++
   omit_list "controls" JString (cst_Controls t) ++
   omit_bool "has_input_schema" (cst_HasInputSchema t) ++
   omit_bool "has_output_schema" (cst_HasOutputSchema t)).

Definition enc_InputMappingTrace (m : InputMappingTrace) : json := JObject
  (field "target" (JString (imt_Target m)) ++
   omit_string "source_node_id" (imt_SourceNodeID m) ++
   omit_string "source_artifact" (imt_SourceArtifact m) ++
   omit_string "source_path" (imt_SourcePath m) ++
   omit_string "expression" (imt_Expression m) ++
   omit_bool "required" (imt_Required m)).

Definition enc_InputResolutionTrace (t : InputResolutionTrace) : json := JObject
  (omit_string "input_digest" (irt_InputDigest t) ++
   omit_list "input_keys" JString (irt_InputKeys t) ++
   omit_int "mapping_count" (irt_MappingCount t) ++
   omit_list "mappings" enc_InputMappingTrace (irt_Mappings t)).

Definition enc_ConditionEvaluationTrace (t : ConditionEvaluationTrace) : json := JObject
  (field "scope" (JString (cet_Scope t)) ++
   omit_string "node_id" (cet_NodeID t) ++
   omit_string "edge_id" (cet_EdgeID t) ++
   omit_string "from" (cet_From t) ++
   omit_string "to" (cet_To t) ++
   field "expression" (JString (cet_Expression t)) ++
   field "result" (JBool (cet_Result t)) ++
   omit_string "on" (cet_On t) ++
   omit_string "parent_state" (cet_ParentState t)).

Definition enc_value (v : go_value) : json :=
  match v with
  | VGate gate => enc_PlanApprovalGate gate
  | VDecision decision => enc_PlanApprovalDecision decision
  | VArtifacts refs => JArray (enc_ArtifactRef <$> refs)
  | VBudget usage => enc_PlanBudgetUsage usage
  | VInputTrace trace => enc_InputResolutionTrace trace
  | VCapability trace => enc_CapabilitySelectionTrace trace
  | VConditions traces => JArray (enc_ConditionEvaluationTrace <$> traces)
  | VSignalType s | VControlOperation s => JString s
  | VTime t | VTimeText t => enc_time t
  | VStringMap m => enc_map JString m
  end.

(** ** Dynamic values *)

Fixpoint enc_any (a : any) : json :=
  match a with
  | ANil | ANilMap => JNull
  | ABool b => JBool b
  | ANum n => JNumber n
  | AString s => JString s
  | ASlice l => JArray (enc_any <$> l)
  | AMap m => enc_object (enc_any <$> m)
  | AValue v => enc_value v
  | AOther => JUnsupported
  end.

(** ** agentos/control/types.go *)

Definition enc_RunSpec (r : RunSpec) : json := JObject
  (field "run_id" (JString (run_RunID r)) ++
   omit_string "thread_id" (run_ThreadID r) ++
   omit_string "account_id" (run_AccountID r) ++
   omit_string "project_id" (run_ProjectID r) ++
   omit_string "agent_id" (run_AgentID r) ++
   omit_string "model_ref" (run_ModelRef r) ++
   omit_string "system_prompt" (run_SystemPrompt r) ++
   omit_string "user_message" (run_UserMessage r) ++
   omit_string "idempotency_key" (run_IdempotencyKey r) ++
   omit_time "requested_at" (run_RequestedAt r) ++
   omit_map "metadata" JString (run_Metadata r) ++
   field "backend" (enc_BackendRef (run_Backend r)) ++
   omit_map "input" enc_any (run_Input r)).

(** ** agentos/control/plan.go: specifications *)

Definition enc_InputMapping (m : InputMapping) : json := JObject
  (field "target" (JString (im_Target m)) ++
   omit_string "source_node_id" (im_SourceNodeID m) ++
   omit_string "source_artifact" (im_SourceArtifact m) ++
   omit_string "source_path" (im_SourcePath m) ++
   omit_string "expression" (im_Expression m) ++
   omit_bool "required" (im_Required m)).

Definition enc_ArtifactSpec (a : ArtifactSpec) : json := JObject
  (field "name" (JString (as_Name a)) ++
   field "kind" (JString (as_Kind a)) ++
   omit_string "media_type" (as_MediaType a) ++
   omit_string "schema_ref" (as_SchemaRef a) ++
   omit_bool "required" (as_Required a)).

#[global] Instance PlanPolicy_eq_dec : EqDecision PlanPolicy.
Proof. solve_decision. Defined.
#[global] Instance NodePolicy_eq_dec : EqDecision NodePolicy.
Proof. solve_decision. Defined.

Definition enc_PlanPolicy (p : PlanPolicy) : json := JObject
  (omit_int "max_nodes" (pol_MaxNodes p) ++
   omit_int "max_depth" (pol_MaxDepth p) ++
   omit_int "max_expansions" (pol_MaxExpansions p) ++
   omit_int "max_iterations" (pol_MaxIterations p) ++
   omit_int "max_history_events" (pol_MaxHistoryEvents p) ++
   omit_int "continue_as_new_events" (pol_ContinueAsNewEvents p) ++
   omit_int "max_parallel_nodes" (pol_MaxParallelNodes p) ++
   omit_int "budget_cents" (pol_BudgetCents p) ++
   omit_int "timeout_seconds" (pol_TimeoutSeconds p) ++
   omit_int "approval_timeout_seconds" (pol_ApprovalTimeoutSeconds p)).

Definition enc_NodePolicy (p : NodePolicy) : json := JObject
  (omit_int "max_attempts" (npol_MaxAttempts p) ++
   omit_int "timeout_seconds" (npol_TimeoutSeconds p) ++
   omit_string "join" (npol_Join p)).

Definition enc_PlanNodeSpec (n : PlanNodeSpec) : json := JObject
  (field "node_id" (JString (node_NodeID n)) ++
   omit_string "capability" (node_Capability n) ++
   omit_string "peer" (node_Peer n) ++
   field "run" (enc_RunSpec (node_Run n)) ++
   omit_list "inputs" enc_InputMapping (node_Inputs n) ++
   omit_list "outputs" enc_ArtifactSpec (node_Outputs n) ++
   omit_list "conditions" JString (node_Conditions n) ++
   omit (bool_decide (node_Policy n = zero_NodePolicy)) "policy" (enc_NodePolicy (node_Policy n))).

Definition enc_PlanEdgeSpec (e : PlanEdgeSpec) : json := JObject
  (field "edge_id" (JString (edge_EdgeID e)) ++
   field "from" (JString (edge_From e)) ++
   field "to" (JString (edge_To e)) ++
   omit_string "on" (edge_On e) ++
   omit_string "condition" (edge_Condition e) ++
   omit_list "input_mapping" enc_InputMapping (edge_InputMapping e)).

Definition enc_RunPlanSpec (s : RunPlanSpec) : json := JObject
  (field "plan_id" (JString (spec_PlanID s)) ++
   omit_string "thread_id" (spec_ThreadID s) ++
   field "account_id" (JString (spec_AccountID s)) ++
   field "project_id" (JString (spec_ProjectID s)) ++
   omit_string "idempotency_key" (spec_IdempotencyKey s) ++
   omit_time "requested_at" (spec_RequestedAt s) ++
   omit_map "inputs" enc_any (spec_Inputs s) ++
   omit_map "metadata" JString (spec_Metadata s) ++
   field "nodes" (JArray (enc_PlanNodeSpec <$> spec_Nodes s)) ++
   omit_list "edges" enc_PlanEdgeSpec (spec_Edges s) ++
   omit (bool_decide (spec_Policy s = zero_PlanPolicy)) "policy" (enc_PlanPolicy (spec_Policy s))).

(** ** agentos/control/plan.go: lifecycle views *)

Definition omit_usage (k : string) (u : PlanBudgetUsage) :=
  omit (usage_SpentCents u == 0%Z) k (enc_PlanBudgetUsage u).

Definition enc_PlanNodeStatus (n : PlanNodeStatus) : json := JObject
  (field "node_id" (JString (ns_NodeID n)) ++
   omit_string "run_id" (ns_RunID n) ++
   field "backend" (enc_BackendRef (ns_Backend n)) ++
   field "lifecycle_state" (JString (ns_LifecycleState n)) ++
   omit_int "attempts" (ns_Attempts n) ++
   omit_usage "budget_usage" (ns_BudgetUsage n) ++
   omit_string "reason" (ns_Reason n) ++
   omit_list "artifacts" enc_ArtifactRef (ns_Artifacts n) ++
   omit_time "started_at" (ns_StartedAt n) ++
   omit_time "completed_at" (ns_CompletedAt n) ++
   omit_time "updated_at" (ns_UpdatedAt n)).

(** A gate with no field set is the zero struct, which [omitzero] leaves out. *)
Definition gate_is_zero (g : PlanApprovalGate) : bool :=
  (gate_Summary g == "") && bool_decide (gate_NodeIDs g = []) && (gate_RiskReason g == "") &&
  (gate_PolicyVersion g == "") && time_is_zero (gate_RequestedAt g) &&
  time_is_zero (gate_ExpiresAt g).

Definition enc_PlanApprovalStatus (a : PlanApprovalStatus) : json := JObject
  (omit_string "lifecycle_state" (appr_LifecycleState a) ++
   omit (gate_is_zero (appr_Gate a)) "gate" (enc_PlanApprovalGate (appr_Gate a)) ++
   match appr_Decision a with
   | None => []
   | Some d => field "decision" (enc_PlanApprovalDecision d)
   end).

Definition enc_RunPlanStatus (s : RunPlanStatus) : json := JObject
  (field "plan_id" (JString (st_PlanID s)) ++
   field "lifecycle_state" (JString (st_LifecycleState s)) ++
   omit_list "nodes" enc_PlanNodeStatus (st_Nodes s) ++
   omit_list "active_run_ids" JString (st_ActiveRunIDs s) ++
   omit_list "artifacts" enc_ArtifactRef (st_Artifacts s) ++
   omit_string "reason" (st_Reason s) ++
   omit_usage "budget_usage" (st_BudgetUsage s) ++
   omit_map "metadata" JString (st_Metadata s) ++
   omit_time "started_at" (st_StartedAt s) ++
   omit_time "updated_at" (st_UpdatedAt s) ++
   omit_time "blocked_at" (st_BlockedAt s) ++
   match st_Approval s with
   | None => []
   | Some a => field "approval" (enc_PlanApprovalStatus a)
   end).

(** ** Reading fields back *)

(** The first field with a name. *)
Fixpoint assoc (k : string) (l : list (string * json)) : option json :=
  match l with
  | [] => None
  | (k', v) :: l => if k == k' then Some v else assoc k l
  end.

Lemma assoc_field k v l : assoc k (field k v ++ l) = Some v.
Proof. cbn. by rewrite bool_decide_eq_true_2. Qed.

Lemma assoc_field_ne k k' v l : k ≠ k' → assoc k (field k' v ++ l) = assoc k l.
Proof. intros Hk. cbn. by rewrite bool_decide_eq_false_2. Qed.

Lemma assoc_omit_ne k k' z v l : k ≠ k' → assoc k (omit z k' v ++ l) = assoc k l.
Proof. intros Hk. destruct z; [done|]. by apply assoc_field_ne. Qed.

Lemma assoc_omit k z v l : assoc k l = None → assoc k (omit z k v ++ l) = if z then None else Some v.
Proof. intros Hl. destruct z; [done|]. apply assoc_field. Qed.

Lemma assoc_field_last k v : assoc k (field k v) = Some v.
Proof. rewrite <-(app_nil_r (field k v)). apply assoc_field. Qed.

Lemma assoc_field_last_ne k k' v : k ≠ k' → assoc k (field k' v) = None.
Proof. intros Hk. rewrite <-(app_nil_r (field k' v)). by rewrite assoc_field_ne. Qed.

Lemma assoc_omit_last_ne k k' z v : k ≠ k' → assoc k (omit z k' v) = None.
Proof. intros Hk. rewrite <-(app_nil_r (omit z k' v)). by rewrite assoc_omit_ne. Qed.

Lemma assoc_omit_last k z v : assoc k (omit z k v) = if z then None else Some v.
Proof. rewrite <-(app_nil_r (omit z k v)). by apply assoc_omit. Qed.

(** A field of an encodable object is encodable. *)
Lemma supported_cons k v l :
  supported (JObject ((k, v) :: l)) = true ↔ supported v = true ∧ supported (JObject l) = true.
Proof. cbn. apply andb_true_iff. Qed.

Lemma supported_app l1 l2 :
  supported (JObject (l1 ++ l2)) = supported (JObject l1) && supported (JObject l2).
Proof. induction l1 as [|[k v] l1 IH]; [done|]. cbn in *. by rewrite IH, andb_assoc. Qed.

Lemma supported_omit_int k z : supported (JObject (omit_int k z)) = true.
Proof. unfold omit_int, omit. by case_match. Qed.

Lemma supported_values l : supported (JObject l) = true ↔ Forall (λ kv, supported kv.2 = true) l.
Proof.
  induction l as [|[k v] l IH]; [done|]. rewrite supported_cons, Forall_cons, IH. done.
Qed.

Lemma supported_omit_string k s : supported (JObject (omit_string k s)) = true.
Proof. unfold omit_string, omit. by case_match. Qed.

(** A map of strings can always be encoded. *)
Lemma supported_string_map (m : gmap string string) :
  supported (enc_object (JString <$> m)) = true.
Proof.
  apply supported_values. rewrite merge_sort_Permutation. apply Forall_forall.
  intros [k v] Hin%elem_of_map_to_list. rewrite lookup_fmap_Some in Hin.
  destruct Hin as (x & <- & _). done.
Qed.

Lemma supported_assoc k l v : supported (JObject l) = true → assoc k l = Some v → supported v = true.
Proof.
  induction l as [|[k' x] l IH]; [done|]. cbn. intros [Hx Hl]%andb_true_iff.
  case_bool_decide; [naive_solver|]. by apply IH.
Qed.

Definition get_string (k : string) (l : list (string * json)) : string :=
  match assoc k l with Some (JString s) => s | _ => "" end.
Definition get_int (k : string) (l : list (string * json)) : Z :=
  match assoc k l with Some (JInt z) => z | _ => 0 end.
Definition get_time (k : string) (l : list (string * json)) : time :=
  match assoc k l with Some (JTime t) => t | _ => zero_time end.
Definition get_list_json (k : string) (l : list (string * json)) : list json :=
  match assoc k l with Some (JArray x) => x | _ => [] end.

(** Walks over the fields in front of the one that is read. *)
Ltac assoc_walk :=
  repeat (unfold omit_string, omit_int, omit_bool, omit_list, omit_time, omit_map, omit_usage;
          first [rewrite assoc_field|rewrite assoc_field_last|rewrite assoc_omit_last|
                 rewrite assoc_field_ne by done|rewrite assoc_field_last_ne by done|
                 rewrite assoc_omit_ne by done|rewrite assoc_omit_last_ne by done|
                 rewrite assoc_omit; [|by assoc_walk]]).

(** Reads a field of an encoding: the value the struct has. *)
Ltac read_field :=
  unfold get_string, get_int, get_time, get_list_json; assoc_walk; try done;
  try (case_bool_decide; congruence);
  try (destruct (time_is_zero _) eqn:?; unfold time_is_zero in *; simplify_bool; congruence).

Lemma enc_time_supported t : supported (enc_time t) = true → enc_time t = JTime t.
Proof. unfold enc_time. by case_match. Qed.

(** ** The encodings determine what they encode *)

(** The fields of an object. *)
Definition fields_of (j : json) : list (string * json) :=
  match j with JObject l => l | _ => [] end.

(** A policy read back from its encoding. *)
Definition dec_PlanPolicy (j : json) : PlanPolicy :=
  let l := fields_of j in {|
  pol_MaxNodes := get_int "max_nodes" l;
  pol_MaxDepth := get_int "max_depth" l;
  pol_MaxExpansions := get_int "max_expansions" l;
  pol_MaxIterations := get_int "max_iterations" l;
  pol_MaxHistoryEvents := get_int "max_history_events" l;
  pol_ContinueAsNewEvents := get_int "continue_as_new_events" l;
  pol_MaxParallelNodes := get_int "max_parallel_nodes" l;
  pol_BudgetCents := get_int "budget_cents" l;
  pol_TimeoutSeconds := get_int "timeout_seconds" l;
  pol_ApprovalTimeoutSeconds := get_int "approval_timeout_seconds" l |}.

Lemma dec_enc_PlanPolicy p : dec_PlanPolicy (enc_PlanPolicy p) = p.
Proof.
  unfold dec_PlanPolicy, enc_PlanPolicy, fields_of. destruct p. cbn -[omit_int get_int app].
  f_equal; read_field.
Qed.

Lemma enc_PlanPolicy_inj p1 p2 : enc_PlanPolicy p1 = enc_PlanPolicy p2 → p1 = p2.
Proof. intros Heq. by rewrite <-(dec_enc_PlanPolicy p1), Heq, dec_enc_PlanPolicy. Qed.

(** The scalar part of a spec. *)
Definition envelope (s : RunPlanSpec) : RunPlanSpec :=
  {| s with spec_Inputs := None; spec_Metadata := None; spec_Nodes := []; spec_Edges := [] |}.

Definition dec_envelope (j : json) : RunPlanSpec :=
  let l := fields_of j in
  {| zero_RunPlanSpec with
     spec_PlanID := get_string "plan_id" l;
     spec_ThreadID := get_string "thread_id" l;
     spec_AccountID := get_string "account_id" l;
     spec_ProjectID := get_string "project_id" l;
     spec_IdempotencyKey := get_string "idempotency_key" l;
     spec_RequestedAt := get_time "requested_at" l;
     spec_Policy := default zero_PlanPolicy (dec_PlanPolicy <$> assoc "policy" l) |}.

Lemma get_time_omit t l k :
  supported (JObject l) = true → assoc k l = (if time_is_zero t then None else Some (enc_time t)) →
  get_time k l = t.
Proof.
  intros Hs Hk. unfold get_time. rewrite Hk. unfold time_is_zero in *. case_bool_decide as Hz; [done|].
  rewrite enc_time_supported; [done|]. by eapply supported_assoc.
Qed.

Lemma dec_enc_envelope s :
  supported (enc_RunPlanSpec s) = true → dec_envelope (enc_RunPlanSpec s) = envelope s.
Proof.
  intros Hs. unfold dec_envelope, envelope. cbv zeta.
  assert (get_time "requested_at" (fields_of (enc_RunPlanSpec s)) = spec_RequestedAt s) as Ht.
  { eapply get_time_omit; [exact Hs|]. unfold enc_RunPlanSpec, fields_of. by assoc_walk. }
  rewrite Ht. clear Hs Ht. unfold enc_RunPlanSpec, fields_of. destruct s. cbn -[omit_string omit_time omit_map omit_list omit field app get_string get_time assoc].
  f_equal; try read_field.
  assoc_walk. case_bool_decide as Hp; [done|]. cbn. by rewrite dec_enc_PlanPolicy.
Qed.

(** The nodes and edges, as encoded documents. *)
Lemma enc_nodes s : assoc "nodes" (fields_of (enc_RunPlanSpec s)) =
  Some (JArray (enc_PlanNodeSpec <$> spec_Nodes s)).
Proof. unfold enc_RunPlanSpec, fields_of. by assoc_walk. Qed.

Lemma enc_edges s : get_list_json "edges" (fields_of (enc_RunPlanSpec s)) =
  enc_PlanEdgeSpec <$> spec_Edges s.
Proof.
  unfold enc_RunPlanSpec, fields_of, get_list_json. assoc_walk. case_bool_decide as He; [by rewrite He|done].
Qed.

Lemma enc_node_id n : get_string "node_id" (fields_of (enc_PlanNodeSpec n)) = node_NodeID n.
Proof. unfold enc_PlanNodeSpec, fields_of. read_field. Qed.

Lemma enc_edge_ends e :
  get_string "edge_id" (fields_of (enc_PlanEdgeSpec e)) = edge_EdgeID e ∧
  get_string "from" (fields_of (enc_PlanEdgeSpec e)) = edge_From e ∧
  get_string "to" (fields_of (enc_PlanEdgeSpec e)) = edge_To e.
Proof. unfold enc_PlanEdgeSpec, fields_of. split_and!; read_field. Qed.

(** Equal encodings: the same envelope, node ids and edges. *)
Lemma enc_RunPlanSpec_same s1 s2 :
  supported (enc_RunPlanSpec s1) = true → enc_RunPlanSpec s1 = enc_RunPlanSpec s2 →
  envelope s1 = envelope s2 ∧
  enc_PlanNodeSpec <$> spec_Nodes s1 = enc_PlanNodeSpec <$> spec_Nodes s2 ∧
  enc_PlanEdgeSpec <$> spec_Edges s1 = enc_PlanEdgeSpec <$> spec_Edges s2.
Proof.
  intros Hs Heq. split_and!.
  - rewrite <-dec_enc_envelope, Heq, dec_enc_envelope by congruence. done.
  - pose proof (enc_nodes s1) as H1. rewrite Heq, enc_nodes in H1. congruence.
  - by rewrite <-!enc_edges, Heq.
Qed.

(** ** Unmarshal of dynamic values *)

(** [json.Unmarshal] of a document into [any]. *)
Fixpoint decode_any (j : json) : any :=
  match j with
  | JNull => ANil
  | JBool b => ABool b
  | JNumber n => ANum n
  | JInt z => ANum (pretty z)
  | JString s => AString s
  | JTime t => AValue (VTimeText t)
  | JArray l => ASlice (decode_any <$> l)
  | JObject fields => AMap (list_to_map ((λ kv, (kv.1, decode_any kv.2)) <$> fields))
  | JUnsupported => AOther
  end.

(** [json.Unmarshal] into a [map[string]any]. *)
Definition decode_map (j : json) : go_map any :=
  match decode_any j with AMap m => Some m | _ => None end.

(** What decoding makes of the values of an encoded map. *)
Definition reload_any (a : any) : any := decode_any (enc_any a).

Lemma decode_enc_object (m : gmap string any) :
  decode_any (enc_object (enc_any <$> m)) = AMap (reload_any <$> m).
Proof.
  unfold enc_object. cbn. f_equal.
  change (λ kv : string * json, (kv.1, decode_any kv.2)) with (prod_map (@id string) decode_any).
  rewrite (list_to_map_fmap (M := gmap string) decode_any (merge_sort _ _)).
  rewrite (list_to_map_proper (M := gmap string) (merge_sort entry_le _)
             (map_to_list (enc_any <$> m))).
  - by rewrite list_to_map_to_list, <- map_fmap_compose.
  - rewrite merge_sort_Permutation. apply NoDup_fst_map_to_list.
  - apply merge_sort_Permutation.
Qed.
