(* ===== verification/Policy.v ===== *)
(** * Plan policy and the approval gate

    internal/usecase/agentosplan/policy.go (history, loop, budget and timeout
    guards) and approval.go (the gate a blocked plan waits at and the decision an
    operator signal makes), with [idempotencyHash] of events.go.  Durations are
    64-bit nanosecond counts; [fmt]'s %q is the class [GoQuote]. *)

From stdpp Require Import pretty.
From S2P Require Import Prelude Types Scope Json Validator State.

(** ** policy.go *)

Record ContinuationSnapshot := { cs_AppliedTransitions : Z; cs_HistoryEvents : Z }.
Record IterationSnapshot := { its_Iterations : Z }.
Record ContinuationDecision := { cd_ShouldContinue : bool; cd_Reason : string }.
Record IterationDecision := { itd_ShouldFail : bool; itd_Reason : string }.

Definition EvaluateContinuationPolicy (policy : PlanPolicy) (snapshot : ContinuationSnapshot) :
    ContinuationDecision :=
  if ((0 <? pol_ContinueAsNewEvents policy) &&
      (pol_ContinueAsNewEvents policy <=? cs_AppliedTransitions snapshot))%Z then
    {| cd_ShouldContinue := true; cd_Reason := "continue_as_new_events" |}
  else if ((0 <? pol_MaxHistoryEvents policy) &&
           (pol_MaxHistoryEvents policy <=? cs_HistoryEvents snapshot))%Z then
    {| cd_ShouldContinue := true; cd_Reason := "max_history_events" |}
  else {| cd_ShouldContinue := false; cd_Reason := "" |}.

Definition EvaluateIterationPolicy (policy : PlanPolicy) (snapshot : IterationSnapshot) :
    IterationDecision :=
  if ((0 <? pol_MaxIterations policy) && (pol_MaxIterations policy <? its_Iterations snapshot))%Z then
    {| itd_ShouldFail := true; itd_Reason := "max_iterations" |}
  else {| itd_ShouldFail := false; itd_Reason := "" |}.

Definition BudgetExceeded (policy : PlanPolicy) (usage : PlanBudgetUsage) : bool :=
  ((0 <? pol_BudgetCents policy) && (pol_BudgetCents policy <? usage_SpentCents usage))%Z.

Definition BudgetExceededReason (policy : PlanPolicy) (usage : PlanBudgetUsage) : string :=
  "plan budget exceeded: spent " +:+ pretty (usage_SpentCents usage) +:+ " cents exceeds budget " +:+
  pretty (pol_BudgetCents policy) +:+ " cents".

Definition PlanTimedOut (policy : PlanPolicy) (startedAt now : time) : bool :=
  if (pol_TimeoutSeconds policy <=? 0)%Z || time_is_zero startedAt then false
  else negb (time_before now (time_add startedAt (seconds (pol_TimeoutSeconds policy)))).

Definition PlanTimeoutReason (policy : PlanPolicy) : string :=
  "plan timed out after " +:+ pretty (pol_TimeoutSeconds policy) +:+ " seconds".

Definition PlanBlockedTimedOut (policy : PlanPolicy) (blockedAt now : time) : bool :=
  if (pol_ApprovalTimeoutSeconds policy <=? 0)%Z || time_is_zero blockedAt then false
  else negb (time_before now (time_add blockedAt (seconds (pol_ApprovalTimeoutSeconds policy)))).

Definition PlanBlockedTimeoutReason (policy : PlanPolicy) : string :=
  "plan approval timed out after " +:+ pretty (pol_ApprovalTimeoutSeconds policy) +:+ " seconds".

(** ** approval.go *)

(** [fmt.Sprintf] with the verb %q. *)
Class GoQuote := { quote : string → string }.

Definition idempotencyHash `{!Sha256} (planID : string) (payload : json) : result string :=
  data ← map_err (λ _, Errorf ErrInvalidPlanEvent "marshal idempotency key: %w") (Marshal payload);
  Ok (planID +:+ ":" +:+ sha256_hex data).

(** The document the fingerprint is made of; a non-nil slice is always an array. *)
Definition policy_document (policy : PlanPolicy) (nodeIDs : list string) : json :=
  JObject (field "policy" (enc_PlanPolicy policy) ++
           field "node_ids" (JArray (JString <$> nodeIDs))).

Definition PlanApprovalPolicyVersion `{!Sha256} (spec : RunPlanSpec) (status : RunPlanStatus) :
    result string :=
  idempotencyHash (spec_PlanID spec)
    (policy_document (spec_Policy spec) (ns_NodeID <$> st_Nodes status)).

Definition planNodeGatedByApproval (lifecycleState : string) : bool :=
  negb (bool_decide (lifecycleState ∈
          [PlanNodeSucceeded; PlanNodeSkipped; PlanNodeFailed; PlanNodeCanceled])).

Definition NewPlanApprovalGate `{!Sha256, !GoQuote} (spec : RunPlanSpec) (status : RunPlanStatus)
    (reason : string) (now : time) : result PlanApprovalGate :=
  let nodeIDs := ns_NodeID <$>
    filter (λ node, planNodeGatedByApproval (ns_LifecycleState node) = true) (st_Nodes status) in
  policyVersion ← PlanApprovalPolicyVersion spec status;
  Ok {| gate_Summary := "approve execution of " +:+ pretty (length nodeIDs) +:+
                        " plan node(s) for plan " +:+ quote (spec_PlanID spec);
        gate_NodeIDs := nodeIDs;
        gate_RiskReason := reason;
        gate_PolicyVersion := policyVersion;
        gate_RequestedAt := now;
        gate_ExpiresAt := if (0 <? pol_ApprovalTimeoutSeconds (spec_Policy spec))%Z
                          then time_add now (seconds (pol_ApprovalTimeoutSeconds (spec_Policy spec)))
                          else zero_time |}.

Definition PlanApprovalDecisionFromSignal `{!Sha256} (spec : RunPlanSpec) (status : RunPlanStatus)
    (signal : Signal) (approved : bool) (now : time) : result PlanApprovalDecision :=
  liveVersion ← PlanApprovalPolicyVersion spec status;
  match st_Approval status with
  | None => Ok tt
  | Some current =>
      fail_if (appr_LifecycleState current != PlanApprovalPending)
        (Errorf ErrInvalidSignal "approval already decided (%s)");;
      fail_if (gate_PolicyVersion (appr_Gate current) != liveVersion)
        (Errorf ErrInvalidSignal
           "approval gate is stale (topology changed after the gate was created)")
  end;;
  Ok {| dec_Approved := approved; dec_ActorID := sig_ActorID signal;
        dec_Reason := PlanSignalReason (Some signal);
        dec_PolicyVersion := liveVersion; dec_DecidedAt := now |}.

(** ** Lemmas *)

(** The longest timeout whose duration fits 64 bits, in seconds. *)
Definition max_timeout : Z := 9223372036.

Lemma seconds_exact n : (0 ≤ n ≤ max_timeout)%Z → seconds n = (n * second)%Z.
Proof.
  unfold max_timeout, seconds, int64, wrap, second. intros Hn.
  rewrite Z.mod_small; lia.
Qed.

(** Longer timeouts become negative durations. *)
Lemma seconds_overflow n : (max_timeout < n ≤ 2 * max_timeout)%Z → (seconds n < 0)%Z.
Proof.
  unfold max_timeout, seconds, int64, wrap, second. intros Hn.
  change (2 ^ (64 - 1))%Z with 9223372036854775808%Z. change (2 ^ 64)%Z with 18446744073709551616%Z.
  rewrite <-(Z.mod_unique (n * 1000000000 + 9223372036854775808) 18446744073709551616 1
               (n * 1000000000 - 9223372036854775808)); lia.
Qed.

Lemma policy_document_supported policy ids : supported (policy_document policy ids) = true.
Proof.
  unfold policy_document, enc_PlanPolicy, field. cbn [app]. rewrite supported_cons. split.
  - rewrite !supported_app. rewrite !supported_omit_int. done.
  - rewrite supported_cons. split; [|done]. induction ids as [|x l IH]; [done|exact IH].
Qed.

Lemma PlanApprovalPolicyVersion_eq `{!Sha256} spec status :
  PlanApprovalPolicyVersion spec status =
  Ok (spec_PlanID spec +:+ ":" +:+
      sha256_hex (policy_document (spec_Policy spec) (ns_NodeID <$> st_Nodes status))).
Proof.
  unfold PlanApprovalPolicyVersion, idempotencyHash, Marshal. by rewrite policy_document_supported.
Qed.

Lemma policy_document_inj p1 ids1 p2 ids2 :
  policy_document p1 ids1 = policy_document p2 ids2 → p1 = p2 ∧ ids1 = ids2.
Proof.
  unfold policy_document, field. intros [= Hp Hids]. split.
  - apply enc_PlanPolicy_inj. unfold enc_PlanPolicy. by rewrite Hp.
  - clear Hp. revert ids2 Hids. induction ids1 as [|x l IH]; intros [|y k] Hids; try done.
    injection Hids as -> Hids. f_equal. by apply IH.
Qed.

(** Blocking a plan changes its lifecycle and gate, not its nodes. *)
Lemma Apply_blocked now s event gate :
  wf s → se_Kind event = EventPlanBlocked →
  se_Approval event = Some {| sea_Gate := gate; sea_Decision := None |} →
  ∃ s', Apply now s event = (s', Ok tt) ∧ st_Nodes (Status s') = st_Nodes (Status s) ∧
    st_BlockedAt (Status s') = event_at now event ∧
    st_Approval (Status s') = Some {| appr_LifecycleState := PlanApprovalPending; appr_Gate := gate;
                                      appr_Decision := None |}.
Proof.
  intros Hwf Hk Ha. unfold Apply. rewrite Hk.
  change (EventPlanBlocked == EventPlanExpanded) with false.
  replace (reducerPlanLifecycleForEvent EventPlanBlocked) with (Some PlanLifecycleBlocked)
    by (vm_compute; reflexivity).
  cbv iota zeta. unfold commit. eexists. split; [done|].
  cbn -[applyApprovalGateEvent sortedNodeStatuses active_run_ids event_at]. split_and!.
  - by rewrite (wf_nodes _ Hwf).
  - done.
  - unfold applyApprovalGateEvent. by rewrite Hk, Ha.
Qed.

(** ** Sample *)

Module PolicySample.
(** Not a hash: it only tells documents of different sizes apart. *)
#[local] Instance sha : Sha256 := {|
  sha256_hex j := match j with
                  | JObject [_; (_, JArray l)] => pretty (length l)
                  | _ => "other"
                  end |}.
#[local] Instance quoting : GoQuote := {| quote s := "<" +:+ s +:+ ">" |}.

Definition policy : PlanPolicy := {| zero_PlanPolicy with
  pol_TimeoutSeconds := 60%Z; pol_ApprovalTimeoutSeconds := 30%Z |}.
Definition spec : RunPlanSpec := let s := Sample.spec in {| s with spec_Policy := policy |}.
Definition state : State := NewState spec 1.
Definition signal : Signal := {| sig_Type := SignalPlanApprove; sig_Payload := None;
  sig_IdempotencyKey := "k"; sig_ActorID := "alice"; sig_SentAt := 0%Z |}.
Definition gate : PlanApprovalGate :=
  match NewPlanApprovalGate spec (Status state) "risk" 5 with
  | Ok gate => gate
  | Err _ => StateSample.gate
  end.
Definition blocked : StateEvent := let e := StateSample.blocked in
  {| e with se_Approval := Some {| sea_Gate := gate; sea_Decision := None |} |}.
End PolicySample.

(** ** Theorems *)

(** Timeouts are exact while the duration fits 64 bits: with a timeout of up to
    9223372036 seconds a started plan is timed out from [startedAt + timeout] on and
    not before, and likewise a blocked plan from [blockedAt + timeout] on. *)
Theorem timeout_exact policy start now :
  start ≠ zero_time →
  ((0 < pol_TimeoutSeconds policy ≤ max_timeout)%Z →
     PlanTimedOut policy start now = true ↔
     (start + pol_TimeoutSeconds policy * second ≤ now)%Z) ∧
  ((0 < pol_ApprovalTimeoutSeconds policy ≤ max_timeout)%Z →
     PlanBlockedTimedOut policy start now = true ↔
     (start + pol_ApprovalTimeoutSeconds policy * second ≤ now)%Z).
Proof.
  intros Hs. unfold PlanTimedOut, PlanBlockedTimedOut, time_is_zero, time_before, time_add.
  rewrite (bool_decide_eq_false_2 _ Hs).
  split; intros Ht; rewrite (proj2 (Z.leb_gt _ _)) by lia; cbn [orb];
    rewrite seconds_exact by lia; rewrite negb_true_iff, Z.ltb_ge; done.
Qed.

Lemma timeout_exact_witness :
  PlanTimedOut PolicySample.policy 1 60000000001 = true ∧
  PlanTimedOut PolicySample.policy 1 60000000000 ≠ true.
Proof.
  destruct (timeout_exact PolicySample.policy 1 60000000001 ltac:(discriminate)) as [H1 _].
  destruct (timeout_exact PolicySample.policy 1 60000000000 ltac:(discriminate)) as [H2 _].
  cbn in H1, H2. unfold max_timeout, second in *. split.
  - apply H1; lia.
  - intros Hf. apply H2 in Hf; lia.
Defined.

(** A longer timeout overflows.  The product with [time.Second] wraps to a negative
    duration, so a plan with a timeout of 9223372037 to 18446744072 seconds is timed
    out the moment it starts, and its approval gate the moment it opens. *)
Theorem timeout_overflow policy start :
  start ≠ zero_time →
  ((max_timeout < pol_TimeoutSeconds policy ≤ 2 * max_timeout)%Z →
     PlanTimedOut policy start start = true) ∧
  ((max_timeout < pol_ApprovalTimeoutSeconds policy ≤ 2 * max_timeout)%Z →
     PlanBlockedTimedOut policy start start = true).
Proof.
  intros Hs. unfold PlanTimedOut, PlanBlockedTimedOut, time_is_zero, time_before, time_add.
  rewrite (bool_decide_eq_false_2 _ Hs).
  split; intros Ht; rewrite (proj2 (Z.leb_gt _ _)) by (unfold max_timeout in *; lia); cbn [orb];
    pose proof (seconds_overflow _ Ht); rewrite negb_true_iff, Z.ltb_ge; lia.
Qed.

Lemma timeout_overflow_witness :
  PlanTimedOut {| zero_PlanPolicy with pol_TimeoutSeconds := 9223372037%Z |} 1 1 = true.
Proof.
  refine (proj1 (timeout_overflow {| zero_PlanPolicy with pol_TimeoutSeconds := 9223372037%Z |} 1 _) _).
  - discriminate.
  - unfold max_timeout. cbn. lia.
Defined.

(** The gate a plan blocks at is the gate a signal decides.  When a reachable plan
    blocks with the gate [NewPlanApprovalGate] built for it, the reducer accepts, the
    gate expires exactly when the approval timeout of the blocked plan fires, and an
    operator signal is accepted and bound to the gate's policy version. *)
Theorem blocked_gate `{!Sha256, !GoQuote} spec s reason at_ gate now event :
  reachable spec s → at_ ≠ zero_time → NewPlanApprovalGate spec (Status s) reason at_ = Ok gate →
  se_Kind event = EventPlanBlocked → se_At event = at_ →
  se_Approval event = Some {| sea_Gate := gate; sea_Decision := None |} →
  ∃ s', Apply now s event = (s', Ok tt) ∧
    (∀ t, (0 < pol_ApprovalTimeoutSeconds (spec_Policy spec))%Z →
       PlanBlockedTimedOut (spec_Policy spec) (st_BlockedAt (Status s')) t =
       negb (time_before t (gate_ExpiresAt gate))) ∧
    (∀ signal approved t, PlanApprovalDecisionFromSignal spec (Status s') signal approved t =
       Ok {| dec_Approved := approved; dec_ActorID := sig_ActorID signal;
             dec_Reason := PlanSignalReason (Some signal);
             dec_PolicyVersion := gate_PolicyVersion gate; dec_DecidedAt := t |}).
Proof.
  intros Hwf%reachable_wf Hat Hg Hk Hev Ha.
  destruct (Apply_blocked now s event gate Hwf Hk Ha) as (s' & Happ & Hn & Hb & Hap).
  exists s'. split; [done|]. unfold NewPlanApprovalGate in Hg.
  rewrite PlanApprovalPolicyVersion_eq in Hg. injection Hg as <-.
  assert (event_at now event = at_) as Hat'.
  { unfold event_at. rewrite Hev. unfold time_is_zero. by rewrite (bool_decide_eq_false_2 _ Hat). }
  split.
  - intros t Ht. cbn [gate_ExpiresAt]. rewrite (proj2 (Z.ltb_lt _ _) Ht).
    unfold PlanBlockedTimedOut. rewrite Hb, Hat', (proj2 (Z.leb_gt _ _) Ht). cbn [orb].
    unfold time_is_zero. by rewrite (bool_decide_eq_false_2 _ Hat).
  - intros signal approved t. unfold PlanApprovalDecisionFromSignal.
    rewrite PlanApprovalPolicyVersion_eq, Hap, Hn. cbn -[PlanSignalReason].
    by rewrite (bool_decide_eq_true_2 (_ = _)).
Qed.

Lemma blocked_gate_witness :
  ∃ s', Apply 1%Z PolicySample.state PolicySample.blocked = (s', Ok tt) ∧
    PlanBlockedTimedOut PolicySample.policy (st_BlockedAt (Status s')) 30000000005 = true.
Proof.
  destruct (blocked_gate (H := PolicySample.sha) (H0 := PolicySample.quoting) PolicySample.spec
    PolicySample.state "risk" 5%Z PolicySample.gate 1%Z PolicySample.blocked) as (s' & Ha & Ht & _).
  - exact (reach_new _ _).
  - discriminate.
  - vm_compute. reflexivity.
  - reflexivity.
  - reflexivity.
  - reflexivity.
  - exists s'. split; [exact Ha|]. 
    refine (eq_trans (Ht 30000000005%Z _) _); vm_compute; reflexivity.
Defined.

(** Replanning invalidates the gate.  After an accepted topology expansion of a
    plan that has a gate, decided or not, every operator decision is refused as an
    invalid signal. *)
Theorem expansion_invalidates_gate `{!Sha256} now s event s' a spec signal approved t :
  Apply now s event = (s', Ok tt) → se_Kind event = EventPlanExpanded →
  st_Approval (Status s) = Some a →
  ∃ text, PlanApprovalDecisionFromSignal spec (Status s') signal approved t =
    Err (Errorf ErrInvalidSignal text).
Proof.
  intros Happ Hk Ha. unfold Apply in Happ. rewrite Hk in Happ. cbn in Happ. unfold expand in Happ.
  destruct (bool_decide _ && _); [done|]. destruct (expand_nodes _ _ _) as [m [[]|]]; [|done].
  injection Happ as <-. unfold PlanApprovalDecisionFromSignal. rewrite PlanApprovalPolicyVersion_eq.
  cbn -[PlanSignalReason]. rewrite Ha. cbn -[PlanSignalReason]. by eexists.
Qed.

Lemma expansion_invalidates_gate_witness :
  let s := (Apply 1%Z PolicySample.state PolicySample.blocked).1 in
  ∃ s' text, Apply 1%Z s StateSample.expansion = (s', Ok tt) ∧
    PlanApprovalDecisionFromSignal (H := PolicySample.sha) PolicySample.spec (Status s')
      PolicySample.signal true 9 = Err (Errorf ErrInvalidSignal text).
Proof.
  intros s. assert (∃ s', Apply 1%Z s StateSample.expansion = (s', Ok tt)) as [s' Hs'].
  { eexists. vm_compute. reflexivity. }
  destruct (expansion_invalidates_gate (H := PolicySample.sha) 1%Z s StateSample.expansion s'
    {| appr_LifecycleState := PlanApprovalPending; appr_Gate := PolicySample.gate; appr_Decision := None |}
    PolicySample.spec PolicySample.signal true 9%Z Hs') as [text Ht].
  - reflexivity.
  - vm_compute. reflexivity.
  - exists s', text. split; [exact Hs'|exact Ht].
Defined.

(** The policy version is a fingerprint.  For one plan and a hash without a
    collision on the two documents, equal versions mean the same policy and the same
    nodes; so a gate built before a policy or topology change never matches after it. *)
Theorem policy_version_fingerprint `{!Sha256} spec1 status1 spec2 status2 version :
  let doc1 := policy_document (spec_Policy spec1) (ns_NodeID <$> st_Nodes status1) in
  let doc2 := policy_document (spec_Policy spec2) (ns_NodeID <$> st_Nodes status2) in
  (sha256_hex doc1 = sha256_hex doc2 → doc1 = doc2) →
  spec_PlanID spec1 = spec_PlanID spec2 →
  PlanApprovalPolicyVersion spec1 status1 = Ok version →
  PlanApprovalPolicyVersion spec2 status2 = Ok version →
  spec_Policy spec1 = spec_Policy spec2 ∧
  ns_NodeID <$> st_Nodes status1 = ns_NodeID <$> st_Nodes status2.
Proof.
  intros doc1 doc2 Hsha Hp. rewrite !PlanApprovalPolicyVersion_eq. intros [= <-] [= Heq].
  rewrite Hp in Heq. apply (inj (String.app _)), (inj (String.app _)) in Heq.
  by apply policy_document_inj, Hsha.
Qed.

Lemma policy_version_fingerprint_witness :
  let status n := {| zero_RunPlanStatus with
    st_Nodes := replicate n {| zero_PlanNodeStatus with ns_NodeID := "a" |} |} in
  PlanApprovalPolicyVersion (H := PolicySample.sha) PolicySample.spec (status 1) ≠
  PlanApprovalPolicyVersion (H := PolicySample.sha) PolicySample.spec (status 2).
Proof.
  intros status Heq.
  destruct (policy_version_fingerprint (H := PolicySample.sha) PolicySample.spec (status 1)
    PolicySample.spec (status 2)
    (match PlanApprovalPolicyVersion (H := PolicySample.sha) PolicySample.spec (status 1) with
     | Ok v => v | Err _ => "" end)) as [_ Hids].
  - vm_compute. discriminate.
  - reflexivity.
  - vm_compute. reflexivity.
  - rewrite <-Heq. vm_compute. reflexivity.
  - vm_compute in Hids. discriminate Hids.
Defined.
