(* ===== verification/Events.v ===== *)
(** * Event publication and idempotency keys

    internal/usecase/agentosplan/events.go: the public [PlanEvent] a reducer
    transition becomes, the stable key it is persisted under, and the keys of the
    operations the workflow performs on the outside world (node starts, controls,
    timeouts, artifact publication).  A key is the plan id and the SHA-256 of a JSON
    document; every struct literal that is hashed is one document builder here.  The
    theorems speak of a [collision] of two documents instead of assuming an injective
    hash. *)

From stdpp Require Import pretty.
From S2P Require Import Prelude Types Scope Json Validator State Policy.

(** ** Event types of agentos/core/types.go *)

Module Core.
Definition EventPlanStarted : string := "plan.started".
Definition EventPlanBlocked : string := "plan.blocked".
Definition EventPlanExpanded : string := "plan.expanded".
Definition EventPlanApproved : string := "plan.approved".
Definition EventPlanRejected : string := "plan.rejected".
Definition EventPlanSucceeded : string := "plan.succeeded".
Definition EventPlanFailed : string := "plan.failed".
Definition EventPlanCanceled : string := "plan.canceled".
Definition EventPlanNodeReady : string := "plan.node.ready".
Definition EventPlanNodeStarted : string := "plan.node.started".
Definition EventPlanNodeSucceeded : string := "plan.node.succeeded".
Definition EventPlanNodeFailed : string := "plan.node.failed".
Definition EventPlanNodeRetryScheduled : string := "plan.node.retry_scheduled".
Definition EventPlanNodeSkipped : string := "plan.node.skipped".
Definition EventPlanNodeCanceled : string := "plan.node.canceled".
Definition EventNodeInputResolved : string := "node.input.resolved".
Definition EventCapabilitySelected : string := "capability.selected".
Definition EventConditionEvaluated : string := "condition.evaluated".
Definition EventNodeOutputPublished : string := "node.output.published".
Definition EventUsageReported : string := "usage.reported".
End Core.

Definition eventTypes : list (string * string) :=
  [(EventPlanStarted, Core.EventPlanStarted);
   (EventPlanBlocked, Core.EventPlanBlocked);
   (EventPlanExpanded, Core.EventPlanExpanded);
   (EventPlanApproved, Core.EventPlanApproved);
   (EventPlanRejected, Core.EventPlanRejected);
   (EventPlanSucceeded, Core.EventPlanSucceeded);
   (EventPlanFailed, Core.EventPlanFailed);
   (EventPlanCanceled, Core.EventPlanCanceled);
   (EventNodeReady, Core.EventPlanNodeReady);
   (EventNodeStarted, Core.EventPlanNodeStarted);
   (EventNodeSucceeded, Core.EventPlanNodeSucceeded);
   (EventNodeFailed, Core.EventPlanNodeFailed);
   (EventNodeRetryScheduled, Core.EventPlanNodeRetryScheduled);
   (EventNodeSkipped, Core.EventPlanNodeSkipped);
   (EventNodeCanceled, Core.EventPlanNodeCanceled);
   (EventNodeInputResolved, Core.EventNodeInputResolved);
   (EventCapabilitySelected, Core.EventCapabilitySelected);
   (EventConditionsEvaluated, Core.EventConditionEvaluated);
   (EventArtifactsPublished, Core.EventNodeOutputPublished);
   (EventBudgetReported, Core.EventUsageReported)].

Definition planEventType (kind : string) : result string :=
  match kind_lookup eventTypes kind with
  | Some eventType => Ok eventType
  | None => Err (Errorf ErrInvalidPlanEvent "unknown plan event kind %q")
  end.

(** ** Payload *)

Definition planEventPayloadLifecycleState : string := "lifecycle_state".
Definition planEventPayloadPlanID : string := "plan_id".
Definition planEventPayloadNodeID : string := "node_id".
Definition planEventPayloadRunID : string := "run_id".
Definition planEventPayloadReason : string := "reason".
Definition planEventPayloadAttempt : string := "attempt".
Definition planEventPayloadExpansion : string := "expansion".
Definition planEventPayloadArtifacts : string := "artifacts".
Definition planEventPayloadBudgetDelta : string := "budget_delta".
Definition planEventPayloadBudgetUsage : string := "budget_usage".
Definition planEventPayloadTransition : string := "transition".
Definition planEventPayloadInputResolution : string := "input_resolution".
Definition planEventPayloadCapability : string := "capability".
Definition planEventPayloadConditions : string := "conditions".
Definition PlanEventPayloadApproval : string := "approval".

(** [if cond { payload[key] = value }] *)
Definition put_if (cond : bool) (key : string) (value : any) (payload : gmap string any) :
    gmap string any :=
  if cond then <[key := value]> payload else payload.

Definition addPlanEventApprovalPayload (payload : gmap string any) (event : StateEvent) :
    gmap string any :=
  match se_Approval event with
  | None => payload
  | Some ea =>
      let gate := sea_Gate ea in
      let approval := put_if ((gate_Summary gate != "") || bool_decide (gate_NodeIDs gate ≠ []) ||
                              (gate_PolicyVersion gate != "")) "gate" (AValue (VGate gate)) ∅ in
      let approval := match sea_Decision ea with
                      | None => approval
                      | Some decision => <["decision" := AValue (VDecision decision)]> approval
                      end in
      if bool_decide (size approval = 0) then payload
      else <[PlanEventPayloadApproval := AMap approval]> payload
  end.

Definition addPlanEventIdentityPayload (payload : gmap string any) (event : StateEvent) :
    gmap string any :=
  let payload := put_if (se_NodeID event != "") planEventPayloadNodeID
                   (AString (se_NodeID event)) payload in
  let payload := put_if (se_RunID event != "") planEventPayloadRunID
                   (AString (se_RunID event)) payload in
  let payload := put_if (se_Reason event != "") planEventPayloadReason
                   (AString (se_Reason event)) payload in
  put_if (0 <? se_Attempt event)%Z planEventPayloadAttempt
    (ANum (pretty (se_Attempt event))) payload.

Definition planExpansionPayload (delta : PlanDelta) : gmap string any :=
  let item (edge : PlanEdgeSpec) : any :=
    AMap (put_if (edge_On edge != "") "on" (AString (edge_On edge))
           (put_if (edge_EdgeID edge != "") "edge_id" (AString (edge_EdgeID edge))
              {["from" := AString (edge_From edge); "to" := AString (edge_To edge)]})) in
  {["node_ids" := ASlice ((λ node, AString (node_NodeID node)) <$> delta_Nodes delta);
    "edges" := ASlice (item <$> delta_Edges delta)]}.

Definition addPlanEventExpansionPayload (payload : gmap string any) (event : StateEvent) :
    gmap string any :=
  put_if (bool_decide (delta_Nodes (se_Expansion event) ≠ []) ||
          bool_decide (delta_Edges (se_Expansion event) ≠ []))
    planEventPayloadExpansion (AMap (planExpansionPayload (se_Expansion event))) payload.

Definition addPlanEventArtifactPayload (payload : gmap string any) (event : StateEvent) :
    gmap string any :=
  put_if (bool_decide (se_Artifacts event ≠ [])) planEventPayloadArtifacts
    (AValue (VArtifacts (se_Artifacts event))) payload.

Definition addPlanEventBudgetPayload (payload : gmap string any) (status : RunPlanStatus)
    (event : StateEvent) : gmap string any :=
  let spent := usage_SpentCents (se_BudgetDelta event) != 0%Z in
  let payload := put_if spent planEventPayloadBudgetDelta
                   (AValue (VBudget (se_BudgetDelta event))) payload in
  let payload := put_if spent planEventPayloadBudgetUsage
                   (AValue (VBudget (st_BudgetUsage status))) payload in
  put_if ((se_PreviousLifecycleState event != "") || (se_NextLifecycleState event != ""))
    planEventPayloadTransition
    (AMap {["previous_lifecycle_state" := AString (se_PreviousLifecycleState event);
            "next_lifecycle_state" := AString (se_NextLifecycleState event)]}) payload.

Definition addPlanEventTracePayload (payload : gmap string any) (event : StateEvent) :
    gmap string any :=
  let payload := put_if ((irt_InputDigest (se_InputTrace event) != "") ||
                         (0 <? irt_MappingCount (se_InputTrace event))%Z)
                   planEventPayloadInputResolution (AValue (VInputTrace (se_InputTrace event)))
                   payload in
  let payload := put_if (cst_Capability (se_Capability event) != "") planEventPayloadCapability
                   (AValue (VCapability (se_Capability event))) payload in
  put_if (bool_decide (se_ConditionTraces event ≠ [])) planEventPayloadConditions
    (AValue (VConditions (se_ConditionTraces event))) payload.

Definition buildPlanEventPayload (spec : RunPlanSpec) (status : RunPlanStatus)
    (event : StateEvent) : gmap string any :=
  let payload := {[planEventPayloadLifecycleState := AString (st_LifecycleState status);
                   planEventPayloadPlanID := AString (spec_PlanID spec)]} in
  let payload := addPlanEventIdentityPayload payload event in
  let payload := addPlanEventExpansionPayload payload event in
  let payload := addPlanEventArtifactPayload payload event in
  let payload := addPlanEventBudgetPayload payload status event in
  let payload := addPlanEventTracePayload payload event in
  addPlanEventApprovalPayload payload event.

(** ** The identity of a transition *)

Record stateEventApprovalIdentity := {
  sai_Gate : PlanApprovalGate;
  sai_Decision : option PlanApprovalDecision;
}.

Record stateEventIdempotencyFields := {
  sei_Kind : string;
  sei_NodeID : string;
  sei_RunID : string;
  sei_Reason : string;
  sei_Attempt : Z;
  sei_Expansion : option PlanDelta;
  sei_Artifacts : list ArtifactRef;
  sei_BudgetDelta : option PlanBudgetUsage;
  sei_InputTrace : option InputResolutionTrace;
  sei_Capability : option CapabilitySelectionTrace;
  sei_ConditionTraces : list ConditionEvaluationTrace;
  sei_PreviousLifecycleState : string;
  sei_NextLifecycleState : string;
  sei_At : option time;
  sei_Approval : option stateEventApprovalIdentity;
}.

Definition idempotencyExpansion (expansion : PlanDelta) : option PlanDelta :=
  if bool_decide (delta_Nodes expansion = []) && bool_decide (delta_Edges expansion = [])
  then None else Some expansion.

Definition idempotencyBudgetDelta (delta : PlanBudgetUsage) : option PlanBudgetUsage :=
  if usage_SpentCents delta == 0%Z then None else Some delta.

Definition idempotencyInputTrace (trace : InputResolutionTrace) : option InputResolutionTrace :=
  if (irt_InputDigest trace == "") && bool_decide (irt_InputKeys trace = []) &&
     (irt_MappingCount trace == 0%Z) && bool_decide (irt_Mappings trace = [])
  then None else Some trace.

Definition idempotencyCapability (trace : CapabilitySelectionTrace) :
    option CapabilitySelectionTrace :=
  if (cst_Capability trace == "") && (backend_Kind (cst_Backend trace) == "") &&
     (backend_Name (cst_Backend trace) == "") && bool_decide (cst_Signals trace = []) &&
     bool_decide (cst_Controls trace = []) && negb (cst_HasInputSchema trace) &&
     negb (cst_HasOutputSchema trace)
  then None else Some trace.

Definition idempotencyTime (at_ : time) : option time :=
  if time_is_zero at_ then None else Some at_.

Definition idempotencyApproval (approval : option StateEventApproval) :
    option stateEventApprovalIdentity :=
  match approval with
  | None => None
  | Some approval =>
      let gate := sea_Gate approval in
      if (gate_Summary gate == "") && bool_decide (gate_NodeIDs gate = []) &&
         (gate_PolicyVersion gate == "") && bool_decide (sea_Decision approval = None)
      then None else Some {| sai_Gate := gate; sai_Decision := sea_Decision approval |}
  end.

Definition stateEventIdempotencyIdentity (event : StateEvent) : stateEventIdempotencyFields := {|
  sei_Kind := se_Kind event;
  sei_NodeID := se_NodeID event;
  sei_RunID := se_RunID event;
  sei_Reason := se_Reason event;
  sei_Attempt := se_Attempt event;
  sei_Expansion := idempotencyExpansion (se_Expansion event);
  sei_Artifacts := se_Artifacts event;
  sei_BudgetDelta := idempotencyBudgetDelta (se_BudgetDelta event);
  sei_InputTrace := idempotencyInputTrace (se_InputTrace event);
  sei_Capability := idempotencyCapability (se_Capability event);
  sei_ConditionTraces := se_ConditionTraces event;
  sei_PreviousLifecycleState := se_PreviousLifecycleState event;
  sei_NextLifecycleState := se_NextLifecycleState event;
  sei_At := idempotencyTime (se_At event);
  sei_Approval := idempotencyApproval (se_Approval event) |}.

(** A pointer field with [omitempty]. *)
Definition omit_ptr {A} (k : string) (enc : A → json) (p : option A) : list (string * json) :=
  match p with None => [] | Some a => field k (enc a) end.

Definition enc_PlanDelta (d : PlanDelta) : json := JObject
  (omit_list "nodes" enc_PlanNodeSpec (delta_Nodes d) ++
   omit_list "edges" enc_PlanEdgeSpec (delta_Edges d)).

Definition enc_stateEventApprovalIdentity (a : stateEventApprovalIdentity) : json := JObject
  (omit (gate_is_zero (sai_Gate a)) "gate" (enc_PlanApprovalGate (sai_Gate a)) ++
   omit_ptr "decision" enc_PlanApprovalDecision (sai_Decision a)).

Definition enc_stateEventIdempotencyFields (f : stateEventIdempotencyFields) : json := JObject
  (field "kind" (JString (sei_Kind f)) ++
   omit_string "node_id" (sei_NodeID f) ++
   omit_string "run_id" (sei_RunID f) ++
   omit_string "reason" (sei_Reason f) ++
   omit_int "attempt" (sei_Attempt f) ++
   omit_ptr "expansion" enc_PlanDelta (sei_Expansion f) ++
   omit_list "artifacts" enc_ArtifactRef (sei_Artifacts f) ++
   omit_ptr "budget_delta" enc_PlanBudgetUsage (sei_BudgetDelta f) ++
   omit_ptr "input_trace" enc_InputResolutionTrace (sei_InputTrace f) ++
   omit_ptr "capability" enc_CapabilitySelectionTrace (sei_Capability f) ++
   omit_list "condition_traces" enc_ConditionEvaluationTrace (sei_ConditionTraces f) ++
   omit_string "previous_lifecycle_state" (sei_PreviousLifecycleState f) ++
   omit_string "next_lifecycle_state" (sei_NextLifecycleState f) ++
   omit_ptr "at" enc_time (sei_At f) ++
   omit_ptr "approval" enc_stateEventApprovalIdentity (sei_Approval f)).

(** ** Keys *)

Definition idempotencyOperationNodeStart : string := "node_start".
Definition idempotencyOperationNodeControl : string := "node_control".
Definition idempotencyOperationNodeTimeout : string := "node_timeout".
Definition idempotencyOperationPlanTimeout : string := "plan_timeout".
Definition idempotencyOperationPlanBlocked : string := "plan_blocked_timeout".
Definition idempotencyOperationPlanSignalCancel : string := "plan_signal_cancel".
Definition idempotencyOperationArtifactPublish : string := "artifact_publish".
Definition idempotencyOperationBudgetExceeded : string := "budget_exceeded".

Section keys.
Context `{!Sha256}.

Definition StateEventIdempotencyKey (planID : string) (event : StateEvent) : result string :=
  fail_if (planID == "") (Errorf ErrInvalidRunPlan "plan id is required");;
  idempotencyHash planID (enc_stateEventIdempotencyFields (stateEventIdempotencyIdentity event)).

Definition NodeStartIdempotencyKey (planID nodeID : string) (attempt : Z) : result string :=
  fail_if (planID == "") (Errorf ErrInvalidRunPlan "plan id is required");;
  fail_if (nodeID == "") (Errorf ErrInvalidRunPlan "node id is required");;
  fail_if (attempt <=? 0)%Z (Errorf ErrInvalidRunPlan "node start attempt must be positive");;
  idempotencyHash planID (JObject
    (field "operation" (JString idempotencyOperationNodeStart) ++
     field "plan_id" (JString planID) ++ field "node_id" (JString nodeID) ++
     field "attempt" (JInt attempt))).

Definition NodeTimeoutControlIdempotencyKey (planID nodeID runID : string) : result string :=
  fail_if (planID == "") (Errorf ErrInvalidRunPlan "plan id is required");;
  fail_if (nodeID == "") (Errorf ErrInvalidRunPlan "node id is required");;
  fail_if (runID == "") (Errorf ErrInvalidRunSpec "run id is required");;
  idempotencyHash planID (JObject
    (field "operation" (JString idempotencyOperationNodeTimeout) ++
     field "plan_id" (JString planID) ++ field "node_id" (JString nodeID) ++
     field "run_id" (JString runID))).

Definition planTimeoutIdempotencyHash (planID : string) (anchor : time) (seconds : Z)
    (anchorErr secondsErr : string) (payload : json) : result string :=
  fail_if (planID == "") (Errorf ErrInvalidRunPlan "plan id is required");;
  fail_if (time_is_zero anchor) (Errorf ErrInvalidRunPlan anchorErr);;
  fail_if (seconds <=? 0)%Z (Errorf ErrInvalidRunPlan secondsErr);;
  idempotencyHash planID payload.

Definition PlanTimeoutControlIdempotencyKey (planID : string) (startedAt : time)
    (timeoutSeconds : Z) : result string :=
  planTimeoutIdempotencyHash planID startedAt timeoutSeconds
    "plan started_at is required" "plan timeout seconds must be positive" (JObject
    (field "operation" (JString idempotencyOperationPlanTimeout) ++
     field "plan_id" (JString planID) ++ field "started_at" (enc_time startedAt) ++
     field "timeout_seconds" (JInt timeoutSeconds))).

Definition PlanBlockedTimeoutControlIdempotencyKey (planID : string) (blockedAt : time)
    (approvalTimeoutSeconds : Z) : result string :=
  planTimeoutIdempotencyHash planID blockedAt approvalTimeoutSeconds
    "plan blocked_at is required" "plan approval timeout seconds must be positive" (JObject
    (field "operation" (JString idempotencyOperationPlanBlocked) ++
     field "plan_id" (JString planID) ++ field "blocked_at" (enc_time blockedAt) ++
     field "approval_timeout_seconds" (JInt approvalTimeoutSeconds))).

Definition ArtifactPublishIdempotencyKey (planID nodeID runID artifactName : string) :
    result string :=
  fail_if (planID == "") (Errorf ErrInvalidRunPlan "plan id is required");;
  fail_if (nodeID == "") (Errorf ErrInvalidRunPlan "node id is required");;
  fail_if (artifactName == "") (Errorf ErrInvalidArtifact "artifact name is required");;
  idempotencyHash planID (JObject
    (field "operation" (JString idempotencyOperationArtifactPublish) ++
     field "plan_id" (JString planID) ++ field "node_id" (JString nodeID) ++
     omit_string "run_id" runID ++ field "artifact_name" (JString artifactName))).

Definition BudgetExceededControlIdempotencyKey (planID : string) (usage : PlanBudgetUsage)
    (budgetCents : Z) : result string :=
  fail_if (planID == "") (Errorf ErrInvalidRunPlan "plan id is required");;
  idempotencyHash planID (JObject
    (field "operation" (JString idempotencyOperationBudgetExceeded) ++
     field "plan_id" (JString planID) ++ field "spent_cents" (JInt (usage_SpentCents usage)) ++
     field "budget_cents" (JInt budgetCents))).

Definition PlanSignalCancelControlIdempotencyKey (planID : string) (signal : Signal) :
    result string :=
  fail_if (planID == "") (Errorf ErrInvalidRunPlan "plan id is required");;
  ValidatePlanSignal (Some signal);;
  fail_if (sig_Type signal != SignalPlanReject)
    (Errorf ErrInvalidSignal "signal %q does not cancel active plan nodes");;
  idempotencyHash planID (JObject
    (field "operation" (JString idempotencyOperationPlanSignalCancel) ++
     field "plan_id" (JString planID) ++ field "signal_type" (JString (sig_Type signal)) ++
     field "idempotency_key" (JString (sig_IdempotencyKey signal)) ++
     field "actor_id" (JString (sig_ActorID signal)))).

Definition NodeControlIdempotencyKey (planID nodeID operation parentKey : string) :
    result string :=
  fail_if (planID == "") (Errorf ErrInvalidRunPlan "plan id is required");;
  fail_if (nodeID == "") (Errorf ErrInvalidRunPlan "node id is required");;
  ValidateControlRequest (Some {| zero_ControlRequest with ctl_Operation := operation |});;
  idempotencyHash planID (JObject
    (field "operation" (JString idempotencyOperationNodeControl) ++
     field "plan_id" (JString planID) ++ field "node_id" (JString nodeID) ++
     field "control" (JString operation) ++ omit_string "parent_key" parentKey)).

(** ** Publication *)

Definition PlanEventFromStateEvent (spec : RunPlanSpec) (status : RunPlanStatus)
    (event : StateEvent) : result (PlanEvent * string) :=
  ValidateRunPlanScope (Some spec);;
  eventType ← planEventType (se_Kind event);
  fail_if (time_is_zero (se_At event))
    (Errorf ErrInvalidPlanEvent "state event timestamp is required");;
  let payload := buildPlanEventPayload spec status event in
  let planEvent := {|
    ev_EventID := ""; ev_EventType := eventType; ev_RunID := se_RunID event; ev_ProcessID := "";
    ev_ThreadID := spec_ThreadID spec; ev_Sequence := 0; ev_Timestamp := se_At event;
    ev_Source := "agentos.plan"; ev_Payload := Some payload; ev_PlanID := spec_PlanID spec;
    ev_AccountID := spec_AccountID spec; ev_ProjectID := spec_ProjectID spec;
    ev_NodeID := se_NodeID event; ev_ExternalEventID := "" |} in
  key ← StateEventIdempotencyKey (spec_PlanID spec) event;
  Ok (planEvent, key).
End keys.

(** ** Lemmas *)

Lemma idempotencyHash_Ok `{!Sha256} planID doc key :
  idempotencyHash planID doc = Ok key ↔
  supported doc = true ∧ key = planID +:+ ":" +:+ sha256_hex doc.
Proof.
  unfold idempotencyHash, Marshal. destruct (supported doc); cbn; split.
  - by intros [= <-].
  - by intros [_ ->].
  - done.
  - by intros [].
Qed.

(** Two documents with one hash. *)
Definition collision `{!Sha256} (doc1 doc2 : json) : Prop :=
  doc1 ≠ doc2 ∧ sha256_hex doc1 = sha256_hex doc2.

Lemma string_length_app s1 s2 : String.length (s1 +:+ s2) = String.length s1 + String.length s2.
Proof. induction s1 as [|c s1 IH]; [done|]. exact (f_equal S IH). Qed.

Lemma string_app_inj_len p1 p2 t1 t2 :
  String.length t1 = String.length t2 → p1 +:+ t1 = p2 +:+ t2 → p1 = p2 ∧ t1 = t2.
Proof.
  intros Hlen. revert p2. induction p1 as [|c p1 IH]; intros [|d p2] Heq.
  - done.
  - apply (f_equal String.length) in Heq. rewrite !string_length_app in Heq. cbn in Heq. lia.
  - apply (f_equal String.length) in Heq. rewrite !string_length_app in Heq. cbn in Heq. lia.
  - injection Heq as -> Heq. apply IH in Heq as [-> ->]. done.
Qed.

(** The digests all have the same length (64 hexadecimal digits). *)
Lemma key_inj `{!Sha256} p1 p2 d1 d2 :
  (∀ doc, String.length (sha256_hex doc) = 64) →
  p1 +:+ ":" +:+ sha256_hex d1 = p2 +:+ ":" +:+ sha256_hex d2 →
  p1 = p2 ∧ (d1 = d2 ∨ collision d1 d2).
Proof.
  intros Hlen Heq. apply string_app_inj_len in Heq as [-> Hh].
  - split; [done|]. apply (inj (String.app _)) in Hh. destruct (decide (d1 = d2)); [by left|].
    right. by split.
  - rewrite !string_length_app, !Hlen. done.
Qed.

(** ** Operations *)

(** What the workflow derives keys for. *)
Inductive operation :=
  | NodeStart (nodeID : string) (attempt : Z)
  | NodeControl (nodeID control parentKey : string)
  | NodeTimeout (nodeID runID : string)
  | PlanTimeout (startedAt : time) (timeoutSeconds : Z)
  | PlanBlockedTimeout (blockedAt : time) (timeoutSeconds : Z)
  | PlanSignalCancel (signal : Signal)
  | ArtifactPublish (nodeID runID name : string)
  | BudgetExceededControl (usage : PlanBudgetUsage) (budgetCents : Z)
  | Transition (event : StateEvent).

Definition operation_key `{!Sha256} (planID : string) (op : operation) : result string :=
  match op with
  | NodeStart nodeID attempt => NodeStartIdempotencyKey planID nodeID attempt
  | NodeControl nodeID control parent => NodeControlIdempotencyKey planID nodeID control parent
  | NodeTimeout nodeID runID => NodeTimeoutControlIdempotencyKey planID nodeID runID
  | PlanTimeout at_ secs => PlanTimeoutControlIdempotencyKey planID at_ secs
  | PlanBlockedTimeout at_ secs => PlanBlockedTimeoutControlIdempotencyKey planID at_ secs
  | PlanSignalCancel signal => PlanSignalCancelControlIdempotencyKey planID signal
  | ArtifactPublish nodeID runID name => ArtifactPublishIdempotencyKey planID nodeID runID name
  | BudgetExceededControl usage budget => BudgetExceededControlIdempotencyKey planID usage budget
  | Transition event => StateEventIdempotencyKey planID event
  end.

(** What has to agree for two operations to be one: everything but the payload, the
    time and the type of a cancelling signal, and the encodings of a transition's data. *)
Definition same_operation (op1 op2 : operation) : Prop :=
  match op1, op2 with
  | PlanSignalCancel s1, PlanSignalCancel s2 =>
      sig_IdempotencyKey s1 = sig_IdempotencyKey s2 ∧ sig_ActorID s1 = sig_ActorID s2
  | Transition e1, Transition e2 =>
      se_Kind e1 = se_Kind e2 ∧ se_NodeID e1 = se_NodeID e2 ∧ se_RunID e1 = se_RunID e2 ∧
      se_Reason e1 = se_Reason e2 ∧ se_Attempt e1 = se_Attempt e2 ∧
      usage_SpentCents (se_BudgetDelta e1) = usage_SpentCents (se_BudgetDelta e2) ∧
      se_PreviousLifecycleState e1 = se_PreviousLifecycleState e2 ∧
      se_NextLifecycleState e1 = se_NextLifecycleState e2 ∧ se_At e1 = se_At e2 ∧
      enc_ArtifactRef <$> se_Artifacts e1 = enc_ArtifactRef <$> se_Artifacts e2
  | Transition _, _ | _, Transition _ | PlanSignalCancel _, _ | _, PlanSignalCancel _ => False
  | _, _ => op1 = op2
  end.

(** The document an operation's key is the hash of. *)
Definition operation_document (planID : string) (op : operation) : json :=
  let doc tag l := JObject (field "operation" (JString tag) ++ field "plan_id" (JString planID) ++ l) in
  match op with
  | NodeStart nodeID attempt =>
      doc idempotencyOperationNodeStart (field "node_id" (JString nodeID) ++ field "attempt" (JInt attempt))
  | NodeControl nodeID control parent =>
      doc idempotencyOperationNodeControl
        (field "node_id" (JString nodeID) ++ field "control" (JString control) ++
         omit_string "parent_key" parent)
  | NodeTimeout nodeID runID =>
      doc idempotencyOperationNodeTimeout
        (field "node_id" (JString nodeID) ++ field "run_id" (JString runID))
  | PlanTimeout at_ secs =>
      doc idempotencyOperationPlanTimeout
        (field "started_at" (enc_time at_) ++ field "timeout_seconds" (JInt secs))
  | PlanBlockedTimeout at_ secs =>
      doc idempotencyOperationPlanBlocked
        (field "blocked_at" (enc_time at_) ++ field "approval_timeout_seconds" (JInt secs))
  | PlanSignalCancel signal =>
      doc idempotencyOperationPlanSignalCancel
        (field "signal_type" (JString (sig_Type signal)) ++
         field "idempotency_key" (JString (sig_IdempotencyKey signal)) ++
         field "actor_id" (JString (sig_ActorID signal)))
  | ArtifactPublish nodeID runID name =>
      doc idempotencyOperationArtifactPublish
        (field "node_id" (JString nodeID) ++ omit_string "run_id" runID ++
         field "artifact_name" (JString name))
  | BudgetExceededControl usage budget =>
      doc idempotencyOperationBudgetExceeded
        (field "spent_cents" (JInt (usage_SpentCents usage)) ++ field "budget_cents" (JInt budget))
  | Transition event => enc_stateEventIdempotencyFields (stateEventIdempotencyIdentity event)
  end.

(** A key is the hash of the operation's document. *)
Lemma operation_key_Ok `{!Sha256} planID op key :
  operation_key planID op = Ok key →
  supported (operation_document planID op) = true ∧
  key = planID +:+ ":" +:+ sha256_hex (operation_document planID op).
Proof.
  intros Hk. apply idempotencyHash_Ok. revert Hk.
  destruct op; cbn [operation_key operation_document];
    unfold NodeStartIdempotencyKey, NodeControlIdempotencyKey, NodeTimeoutControlIdempotencyKey,
      PlanTimeoutControlIdempotencyKey, PlanBlockedTimeoutControlIdempotencyKey,
      planTimeoutIdempotencyHash, PlanSignalCancelControlIdempotencyKey,
      ArtifactPublishIdempotencyKey, BudgetExceededControlIdempotencyKey, StateEventIdempotencyKey;
    intros Hk; repeat first [exact Hk|apply bind_Ok in Hk as (? & _ & Hk)].
Qed.

(** The scalar fields of a transition read back from its document. *)
Lemma assoc_omit_ptr_ne {A} k k' (enc : A → json) p l :
  k ≠ k' → assoc k (omit_ptr k' enc p ++ l) = assoc k l.
Proof. intros Hk. destruct p; [|done]. by apply assoc_field_ne. Qed.

Lemma assoc_omit_ptr_last_ne {A} k k' (enc : A → json) p :
  k ≠ k' → assoc k (omit_ptr k' enc p) = None.
Proof. intros Hk. rewrite <-(app_nil_r (omit_ptr _ _ _)). by rewrite assoc_omit_ptr_ne. Qed.

Lemma assoc_omit_ptr {A} k (enc : A → json) p l :
  assoc k l = None → assoc k (omit_ptr k enc p ++ l) = enc <$> p.
Proof. intros Hl. destruct p; [apply assoc_field|done]. Qed.

Ltac ptr_walk :=
  repeat first [progress assoc_walk|rewrite assoc_omit_ptr_ne by done|
                rewrite assoc_omit_ptr_last_ne by done|rewrite assoc_omit_ptr; [|by ptr_walk]|
                rewrite assoc_omit; [|by ptr_walk]].

Lemma identity_scalars e :
  let l := fields_of (operation_document "" (Transition e)) in
  get_string "kind" l = se_Kind e ∧ get_string "node_id" l = se_NodeID e ∧
  get_string "run_id" l = se_RunID e ∧ get_string "reason" l = se_Reason e ∧
  get_int "attempt" l = se_Attempt e ∧
  get_string "previous_lifecycle_state" l = se_PreviousLifecycleState e ∧
  get_string "next_lifecycle_state" l = se_NextLifecycleState e ∧
  get_list_json "artifacts" l = enc_ArtifactRef <$> se_Artifacts e.
Proof.
  cbn [operation_document]. unfold enc_stateEventIdempotencyFields, fields_of,
    stateEventIdempotencyIdentity. cbn [sei_Kind sei_NodeID sei_RunID sei_Reason sei_Attempt
    sei_Expansion sei_Artifacts sei_BudgetDelta sei_InputTrace sei_Capability sei_ConditionTraces
    sei_PreviousLifecycleState sei_NextLifecycleState sei_At sei_Approval].
  split_and!; unfold get_string, get_int, get_list_json; ptr_walk; try done.
  all:
    case_bool_decide as Hz; first [congruence|by rewrite Hz].
Qed.

Lemma identity_budget e :
  get_int "spent_cents" (fields_of (default JNull
    (assoc "budget_delta" (fields_of (operation_document "" (Transition e)))))) =
  usage_SpentCents (se_BudgetDelta e).
Proof.
  cbn [operation_document]. unfold enc_stateEventIdempotencyFields, fields_of at 2. ptr_walk.
  cbn. unfold idempotencyBudgetDelta. case_bool_decide as Hz; cbn -[enc_PlanBudgetUsage].
  - unfold get_int. cbn. congruence.
  - unfold enc_PlanBudgetUsage, fields_of. read_field.
Qed.

Lemma identity_time e :
  supported (operation_document "" (Transition e)) = true →
  get_time "at" (fields_of (operation_document "" (Transition e))) = se_At e.
Proof.
  intros Hs. eapply get_time_omit; [exact Hs|].
  cbn [operation_document]. unfold enc_stateEventIdempotencyFields, fields_of. ptr_walk.
  cbn. unfold idempotencyTime. by destruct (time_is_zero _).
Qed.

Lemma transition_inj e1 e2 :
  supported (operation_document "" (Transition e1)) = true →
  operation_document "" (Transition e1) = operation_document "" (Transition e2) →
  same_operation (Transition e1) (Transition e2).
Proof.
  intros Hs Heq.
  pose proof (identity_scalars e1) as H1. pose proof (identity_scalars e2) as H2.
  pose proof (identity_budget e1) as B1. pose proof (identity_budget e2) as B2.
  pose proof (identity_time e1 Hs) as T1. rewrite Heq in Hs.
  pose proof (identity_time e2 Hs) as T2. rewrite Heq in H1, B1, T1.
  cbv zeta in H1, H2. cbn [same_operation].
  destruct H1 as (? & ? & ? & ? & ? & ? & ? & ?), H2 as (? & ? & ? & ? & ? & ? & ? & ?).
  split_and!; congruence.
Qed.

(** An operation's tag and data read back from its document. *)
Lemma enc_time_inj t1 t2 : supported (enc_time t1) = true → enc_time t1 = enc_time t2 → t1 = t2.
Proof.
  intros Hs Heq. pose proof Hs as Hs2. rewrite Heq in Hs2.
  rewrite (enc_time_supported _ Hs), (enc_time_supported _ Hs2) in Heq. congruence.
Qed.

Lemma omit_string_inj k v1 v2 l1 l2 :
  assoc k l1 = None → assoc k l2 = None →
  omit_string k v1 ++ l1 = omit_string k v2 ++ l2 → v1 = v2 ∧ l1 = l2.
Proof.
  intros H1 H2 Heq. assert (v1 = v2) as ->.
  { apply (f_equal (get_string k)) in Heq. revert Heq. unfold get_string, omit_string.
    rewrite !assoc_omit by done. repeat case_bool_decide; congruence. }
  split; [done|]. by eapply app_inv_head.
Qed.

Lemma operation_document_inj p op1 op2 :
  supported (operation_document p op1) = true →
  operation_document p op1 = operation_document p op2 → same_operation op1 op2.
Proof.
  destruct op1, op2; try (intros _; discriminate);
    try (intros Hs Heq; by apply transition_inj); cbn [same_operation operation_document];
    try (intros _ [= -> ->]; done).
  - rewrite <-(app_nil_r (omit_string _ parentKey)), <-(app_nil_r (omit_string _ parentKey0)).
    intros _ [= -> -> Heq].
    apply omit_string_inj in Heq as [-> _]; done.
  - intros Hs%supported_values [= Ht ->]. do 2 apply Forall_cons in Hs as [_ Hs].
    apply Forall_cons in Hs as [Hs _]. by rewrite (enc_time_inj _ _ Hs Ht).
  - intros Hs%supported_values [= Ht ->]. do 2 apply Forall_cons in Hs as [_ Hs].
    apply Forall_cons in Hs as [Hs _]. by rewrite (enc_time_inj _ _ Hs Ht).
  - by intros _ [= _ -> ->].
  - intros _ [= -> Heq]. apply omit_string_inj in Heq as [-> [= ->]]; done.
  - destruct usage, usage0. cbn. by intros _ [= -> ->].
Qed.

(** The document of a transition does not name the plan. *)
Lemma key_determines_operation `{!Sha256} p1 p2 op1 op2 key :
  (∀ doc, String.length (sha256_hex doc) = 64) →
  operation_key p1 op1 = Ok key → operation_key p2 op2 = Ok key →
  p1 = p2 ∧ (same_operation op1 op2 ∨
             collision (operation_document p1 op1) (operation_document p2 op2)).
Proof.
  intros Hlen [Hs ->]%operation_key_Ok [_ Heq]%operation_key_Ok.
  apply key_inj in Heq as [-> [Hdoc|Hcol]]; [|by auto|done].
  split; [done|]. left. by eapply operation_document_inj.
Qed.

(** ** Event types *)

Lemma kind_lookup_elem {A} (table : list (string * A)) kind a :
  NoDup table.*1 → kind_lookup table kind = Some a ↔ (kind, a) ∈ table.
Proof. intros Hnd. unfold kind_lookup. symmetry. by apply elem_of_list_to_map. Qed.

(** Whether the reducer has a handler for a kind. *)
Definition reducer_handles (kind : string) : bool :=
  (kind == EventPlanExpanded) || bool_decide (is_Some (reducerPlanLifecycleForEvent kind)) ||
  bool_decide (is_Some (reducerNodeLifecycleForEvent kind)) ||
  (kind == EventNodeRetryScheduled) || touchNodeEvent kind ||
  (kind == EventArtifactsPublished) || (kind == EventBudgetReported).

Lemma planEventType_Ok kind t : planEventType kind = Ok t ↔ (kind, t) ∈ eventTypes.
Proof.
  unfold planEventType. rewrite <-kind_lookup_elem.
  - destruct (kind_lookup eventTypes kind); naive_solver.
  - apply (bool_decide_unpack _). vm_compute. exact I.
Qed.

Lemma Apply_handled now s ev s' : Apply now s ev = (s', Ok tt) → reducer_handles (se_Kind ev) = true.
Proof.
  unfold Apply, reducer_handles. destruct (se_Kind ev == EventPlanExpanded) eqn:He; [done|].
  destruct (reducerPlanLifecycleForEvent _) eqn:Hp; [done|].
  destruct (reducerNodeLifecycleForEvent _) eqn:Hn; [done|].
  destruct (se_Kind ev == EventNodeRetryScheduled) eqn:Hr; [done|].
  destruct (touchNodeEvent _) eqn:Ht; [done|].
  destruct (se_Kind ev == EventArtifactsPublished) eqn:Ha; [done|].
  by destruct (se_Kind ev == EventBudgetReported) eqn:Hb.
Qed.

Lemma eventTypes_handled : Forall (λ kt, reducer_handles kt.1 = true) eventTypes.
Proof. apply (bool_decide_unpack _). vm_compute. exact I. Qed.

Lemma handled_elem {A} (table : list (string * A)) kind :
  is_Some (kind_lookup table kind) → kind ∈ table.*1.
Proof.
  intros [a Ha]. unfold kind_lookup in Ha. apply elem_of_list_to_map_2 in Ha.
  apply list_elem_of_fmap. by exists (kind, a).
Qed.

Lemma handled_has_type kind : reducer_handles kind = true → ∃ t, planEventType kind = Ok t.
Proof.
  intros Hh. assert (kind ∈ eventTypes.*1) as Hin.
  { unfold reducer_handles, touchNodeEvent, reducerPlanLifecycleForEvent,
      reducerNodeLifecycleForEvent in Hh.
    rewrite !orb_true_iff in Hh. rewrite !bool_decide_eq_true in Hh.
    assert (∀ l : list string, kind ∈ l → l ⊆ eventTypes.*1 → kind ∈ eventTypes.*1) as Hsub
      by set_solver.
    destruct Hh as [[[[[[->|Hk]|Hk]| ->]|Hk]| ->]| ->];
      try apply handled_elem in Hk; first [by apply (bool_decide_unpack _)|eapply Hsub; [exact Hk|]];
      apply (bool_decide_unpack _); vm_compute; exact I. }
  apply list_elem_of_fmap in Hin as ([k t] & -> & Hin). exists t. by apply planEventType_Ok.
Qed.

(** ** Payloads *)

Lemma lookup_put_if_ne c k k' v m : k ≠ k' → put_if c k' v m !! k = m !! k.
Proof. intros Hk. unfold put_if. destruct c; [by rewrite lookup_insert_ne|done]. Qed.

Lemma lookup_put_if_eq c k v m : put_if c k v m !! k = if c then Some v else m !! k.
Proof. unfold put_if. destruct c; [by rewrite lookup_insert_eq|done]. Qed.

Lemma lookup_approval_ne k payload event :
  k ≠ PlanEventPayloadApproval → addPlanEventApprovalPayload payload event !! k = payload !! k.
Proof.
  intros Hk. unfold addPlanEventApprovalPayload. destruct (se_Approval event); [|done].
  cbv zeta. case_bool_decide; [done|]. by rewrite lookup_insert_ne.
Qed.

(** Walks over the insertions of a payload to the key that is read. *)
Ltac payload_walk :=
  unfold buildPlanEventPayload; rewrite lookup_approval_ne by done;
  unfold addPlanEventTracePayload, addPlanEventBudgetPayload, addPlanEventArtifactPayload,
    addPlanEventExpansionPayload, addPlanEventIdentityPayload; cbv zeta;
  repeat first [rewrite lookup_put_if_eq|rewrite lookup_put_if_ne by done|
                rewrite lookup_insert_eq|rewrite lookup_insert_ne by done].

(** The lifecycle after the event and the transition it made are in the payload. *)
Lemma payload_lifecycle spec status event :
  buildPlanEventPayload spec status event !! planEventPayloadLifecycleState =
    Some (AString (st_LifecycleState status)).
Proof. by payload_walk. Qed.

Lemma payload_transition spec status event :
  se_NextLifecycleState event ≠ "" →
  buildPlanEventPayload spec status event !! planEventPayloadTransition =
    Some (AMap {["previous_lifecycle_state" := AString (se_PreviousLifecycleState event);
                 "next_lifecycle_state" := AString (se_NextLifecycleState event)]}).
Proof.
  intros Hn. payload_walk. rewrite (bool_decide_eq_false_2 _ Hn). by rewrite orb_true_r.
Qed.

Lemma payload_reason spec status event :
  buildPlanEventPayload spec status event !! planEventPayloadReason =
    if se_Reason event == "" then None else Some (AString (se_Reason event)).
Proof. payload_walk. by case_bool_decide. Qed.

(** What the public event of a transition says. *)
Record published_as `{!Sha256} (spec : RunPlanSpec) (status : RunPlanStatus) (ev : StateEvent)
    (event : PlanEvent) (key : string) : Prop := {
  pub_type : planEventType (se_Kind ev) = Ok (ev_EventType event);
  pub_plan : ev_PlanID event = spec_PlanID spec;
  pub_account : ev_AccountID event = spec_AccountID spec;
  pub_project : ev_ProjectID event = spec_ProjectID spec;
  pub_node : ev_NodeID event = se_NodeID ev;
  pub_run : ev_RunID event = se_RunID ev;
  pub_time : ev_Timestamp event = se_At ev;
  pub_payload : ev_Payload event = Some (buildPlanEventPayload spec status ev);
  pub_key : StateEventIdempotencyKey (spec_PlanID spec) ev = Ok key;
}.

Lemma PlanEventFromStateEvent_Ok `{!Sha256} spec status ev event key :
  PlanEventFromStateEvent spec status ev = Ok (event, key) →
  published_as spec status ev event key ∧ spec_PlanID spec ≠ "" ∧ spec_AccountID spec ≠ "" ∧
  spec_ProjectID spec ≠ "" ∧ se_At ev ≠ zero_time.
Proof.
  unfold PlanEventFromStateEvent. intros (u & Hsc & Hp)%bind_Ok.
  apply ValidateRunPlanScope_Ok in Hsc. apply bind_Ok in Hp as (t & Ht & Hp).
  apply bind_Ok in Hp as (u' & Hz%fail_if_Ok & Hp). apply bind_Ok in Hp as (k & Hk & [= <- <-]).
  unfold time_is_zero in Hz. simplify_bool. split; [|naive_solver]. by split.
Qed.

(** Publication fails only for an unscoped plan, an unknown kind, an event without a
    time, or data that JSON cannot express. *)
Lemma PlanEventFromStateEvent_total `{!Sha256} spec status ev :
  spec_PlanID spec ≠ "" → spec_AccountID spec ≠ "" → spec_ProjectID spec ≠ "" →
  reducer_handles (se_Kind ev) = true → se_At ev ≠ zero_time →
  supported (enc_stateEventIdempotencyFields (stateEventIdempotencyIdentity ev)) = true →
  ∃ event key, PlanEventFromStateEvent spec status ev = Ok (event, key).
Proof.
  intros Hp Ha Hj Hh Hz Hs. apply handled_has_type in Hh as [t Ht].
  unfold PlanEventFromStateEvent.
  rewrite (proj2 (ValidateRunPlanScope_Ok spec tt)), Ht by done. cbn [mbind result_bind].
  unfold time_is_zero. rewrite (bool_decide_eq_false_2 _ Hz). cbn [fail_if mbind result_bind].
  unfold StateEventIdempotencyKey. rewrite (bool_decide_eq_false_2 _ Hp).
  cbn [fail_if mbind result_bind].
  rewrite (proj2 (idempotencyHash_Ok _ _ _) (conj Hs eq_refl)). cbn. eauto.
Qed.

(** ** Samples *)

Module EventsSample.
(** Not a hash: it tells the first two start attempts of node "a" from everything else. *)
Definition digest (c : string) : string :=
  Nat.iter 64 (String.app c) "".
#[local] Instance sha : Sha256 := {|
  sha256_hex doc :=
    if doc == operation_document "p" (NodeStart "a" 1) then digest "1"
    else if doc == operation_document "p" (NodeStart "a" 2) then digest "2"
    else digest "0" |}.
End EventsSample.

(** ** Theorems *)

(** Idempotency keys identify operations.  Keys of node starts, node controls,
    node, plan and approval timeouts, cancelling signals, artifact publications, budget
    cut-offs and persisted transitions never coincide, across all kinds of operation and
    all plans, unless plan and operation are the same (for a transition: kind, node,
    run, attempt, reason, lifecycles, cost, time and artifacts) or the two documents are
    a collision of SHA-256.  Retry attempts therefore never share a start key. *)
Theorem operation_keys_separate `{!Sha256} (p1 p2 : string) (op1 op2 : operation) (key : string) :
  (∀ doc, String.length (sha256_hex doc) = 64) →
  operation_key p1 op1 = Ok key → operation_key p2 op2 = Ok key →
  p1 = p2 ∧ (same_operation op1 op2 ∨
             collision (operation_document p1 op1) (operation_document p2 op2)).
Proof. apply key_determines_operation. Qed.

Lemma operation_keys_separate_witness :
  NodeStartIdempotencyKey (H := EventsSample.sha) "p" "a" 1 ≠
  NodeStartIdempotencyKey (H := EventsSample.sha) "p" "a" 2.
Proof.
  intros Heq.
  destruct (operation_keys_separate (H := EventsSample.sha) "p" "p" (NodeStart "a" 1) (NodeStart "a" 2)
    ("p:" +:+ EventsSample.digest "1")) as [_ [Hsame|[_ Hcol]]].
  - intros doc. cbn [sha256_hex EventsSample.sha]. repeat case_match; reflexivity.
  - vm_compute. reflexivity.
  - unfold operation_key. rewrite <-Heq. vm_compute. reflexivity.
  - discriminate Hsame.
  - vm_compute in Hcol. discriminate Hcol.
Defined.

(** Every accepted transition can be published.  When the reducer accepts an event of
    a scoped plan, with a time and with data JSON can express, the public event exists;
    it has the type registered for its kind, the tenant of the plan, the node, run and
    time of the transition, the lifecycle reached and the reason in its payload, and the
    plan's tenant check takes it unchanged. *)
Theorem accepted_event_published `{!Sha256} (now : time) (s s' : State) (ev : StateEvent)
    (spec : RunPlanSpec) :
  Apply now s ev = (s', Ok tt) → ValidateRunPlanScope (Some spec) = Ok tt →
  se_At ev ≠ zero_time →
  supported (enc_stateEventIdempotencyFields (stateEventIdempotencyIdentity ev)) = true →
  ∃ event key payload,
    PlanEventFromStateEvent spec (Status s') ev = Ok (event, key) ∧
    published_as spec (Status s') ev event key ∧
    ScopePlanEventToSpec (Some event) (Some spec) = Ok event ∧
    ev_Payload event = Some payload ∧
    payload !! planEventPayloadLifecycleState = Some (AString (st_LifecycleState (Status s'))) ∧
    payload !! planEventPayloadReason =
      (if se_Reason ev == "" then None else Some (AString (se_Reason ev))).
Proof.
  intros Happ Hsc Hz Hs. pose proof Hsc as (Hp & Ha & Hj)%ValidateRunPlanScope_Ok.
  destruct (PlanEventFromStateEvent_total spec (Status s') ev) as (event & key & He);
    [done..|by eapply Apply_handled|done|done|].
  apply PlanEventFromStateEvent_Ok in He as Hpub. destruct Hpub as [Hpub _].
  exists event, key, (buildPlanEventPayload spec (Status s') ev).
  split_and!; [done|done| |apply Hpub|apply payload_lifecycle|apply payload_reason].
  destruct Hpub as [_ P1 P2 P3 _ _ _ _ _]. unfold ScopePlanEventToSpec. rewrite Hsc.
  destruct event. cbn in P1, P2, P3. subst. cbn [mbind result_bind ev_PlanID ev_AccountID ev_ProjectID].
  rewrite (bool_decide_eq_false_2 _ Hp).
  rewrite (bool_decide_eq_true_2 (spec_PlanID spec = _) eq_refl).
  rewrite (bool_decide_eq_true_2 (spec_AccountID spec = spec_AccountID spec) eq_refl).
  rewrite (bool_decide_eq_true_2 (spec_ProjectID spec = spec_ProjectID spec) eq_refl).
  cbn. by rewrite !andb_false_r.
Qed.

Lemma accepted_event_published_witness :
  ∃ event key, PlanEventFromStateEvent (H := EventsSample.sha) Sample.spec
    (Status (Apply 7%Z StateSample.state StateSample.expansion).1) StateSample.expansion =
    Ok (event, key) ∧ ev_EventType event = "plan.expanded".
Proof.
  destruct (accepted_event_published (H := EventsSample.sha) 7%Z StateSample.state
    (Apply 7%Z StateSample.state StateSample.expansion).1 StateSample.expansion Sample.spec)
    as (event & key & payload & He & Hpub & _).
  - vm_compute. reflexivity.
  - vm_compute. reflexivity.
  - vm_compute. discriminate.
  - vm_compute. reflexivity.
  - exists event, key. split; [exact He|].
    assert (planEventType (se_Kind StateSample.expansion) = Ok "plan.expanded") as Hk
      by (vm_compute; reflexivity).
    pose proof (pub_type _ _ _ _ _ Hpub) as Ht. rewrite Hk in Ht. congruence.
Defined.
