(* ===== verification/Idempotency.v ===== *)
(** * Idempotency, audit and command rules

    internal/usecase/agentosplan/idempotency.go (what makes two requests the same
    request), commands.go (the lifecycle of outbox commands) and audit.go (ownership
    of audit records), over the record types of contract.go.  Encodings are the
    trees of [Json]; SHA-256 is the class [Sha256]. *)

From S2P Require Import Prelude Types Scope Json.

(** ** contract.go: durable records *)

Definition AuditActionPlanStart : string := "plan.start".
Definition AuditActionPlanSignal : string := "plan.signal".
Definition AuditActionPlanControl : string := "plan.control".

Record AuditRecord := {
  aud_AuditID : string;
  aud_PlanID : string;
  aud_AccountID : string;
  aud_ProjectID : string;
  aud_RunID : string;
  aud_NodeID : string;
  aud_ActorID : string;
  aud_Action : string;
  aud_IdempotencyKey : string;
  aud_Payload : go_map any;
  aud_CreatedAt : time;
}.

Record AuditRef := {
  audr_PlanID : string;
  audr_AccountID : string;
  audr_ProjectID : string;
  audr_IdempotencyKey : string;
}.

Definition AuditRefFromRecord (record : AuditRecord) : AuditRef := {|
  audr_PlanID := aud_PlanID record; audr_AccountID := aud_AccountID record;
  audr_ProjectID := aud_ProjectID record; audr_IdempotencyKey := aud_IdempotencyKey record |}.

Definition PlanCommandPending : string := "pending".
Definition PlanCommandDelivered : string := "delivered".
Definition PlanCommandFailed : string := "failed".

Record PlanCommandRecord := {
  cmd_CommandID : string;
  cmd_PlanID : string;
  cmd_AccountID : string;
  cmd_ProjectID : string;
  cmd_ActorID : string;
  cmd_Action : string;
  cmd_IdempotencyKey : string;
  cmd_Payload : go_map any;
  cmd_Status : string;
  cmd_FailureReason : string;
  cmd_CreatedAt : time;
  cmd_UpdatedAt : time;
}.

Record PlanCommandRef := {
  cmdr_PlanID : string;
  cmdr_AccountID : string;
  cmdr_ProjectID : string;
  cmdr_IdempotencyKey : string;
}.

Definition PlanCommandRefFromRecord (command : PlanCommandRecord) : PlanCommandRef := {|
  cmdr_PlanID := cmd_PlanID command; cmdr_AccountID := cmd_AccountID command;
  cmdr_ProjectID := cmd_ProjectID command; cmdr_IdempotencyKey := cmd_IdempotencyKey command |}.

Record PlanCommandScope := {
  cmds_PlanID : string;
  cmds_AccountID : string;
  cmds_ProjectID : string;
  cmds_Action : string;
  cmds_Statuses : list string;
  cmds_Limit : Z;
}.

Record PlanStateSnapshot := {
  snap_Spec : RunPlanSpec;
  snap_Status : RunPlanStatus;
}.

Record PlanAuditRecord := {
  par_AuditID : string;
  par_PlanID : string;
  par_AccountID : string;
  par_ProjectID : string;
  par_RunID : string;
  par_NodeID : string;
  par_ActorID : string;
  par_Action : string;
  par_IdempotencyKey : string;
  par_Payload : go_map any;
  par_CreatedAt : time;
}.

(** ** idempotency.go: requests *)

(** [json.Marshal(existing)], [json.Marshal(requested)], [bytes.Equal]; a marshal
    error wraps the given sentinel. *)
Definition same_json (kind : sentinel) (what : string) (existing requested : json)
    (mismatch : string) : result unit :=
  existingJSON ← map_err (λ _, Errorf kind ("marshal existing " +:+ what +:+ ": %w"))
                   (Marshal existing);
  requestedJSON ← map_err (λ _, Errorf kind ("marshal requested " +:+ what +:+ ": %w"))
                    (Marshal requested);
  fail_if (existingJSON != requestedJSON) (Errorf kind mismatch).

Definition ValidatePlanStartIdempotency (existing requested : RunPlanSpec) : result unit :=
  fail_if (spec_PlanID existing != spec_PlanID requested)
    (Errorf ErrInvalidRunPlan "plan idempotency key belongs to plan %q");;
  fail_if (spec_IdempotencyKey existing != spec_IdempotencyKey requested)
    (Errorf ErrInvalidRunPlan "plan %q was started with a different idempotency key");;
  same_json ErrInvalidRunPlan "plan start request" (enc_RunPlanSpec existing) (enc_RunPlanSpec requested)
    "plan %q idempotency key was reused with a different request".

(** [planStateIdentityFields]: the immutable part of a spec, encoded. *)
Definition planStateIdentity (s : RunPlanSpec) : json := JObject
  (field "plan_id" (JString (spec_PlanID s)) ++
   omit_string "thread_id" (spec_ThreadID s) ++
   omit_string "account_id" (spec_AccountID s) ++
   omit_string "project_id" (spec_ProjectID s) ++
   omit_string "idempotency_key" (spec_IdempotencyKey s) ++
   field "requested_at" (enc_time (spec_RequestedAt s)) ++
   omit_map "inputs" enc_any (spec_Inputs s) ++
   omit_map "metadata" JString (spec_Metadata s) ++
   field "policy" (enc_PlanPolicy (spec_Policy s))).

(** [jsonKey]: the encoding, or the empty string when it cannot be encoded. *)
Definition jsonKey (j : json) : option json :=
  match Marshal j with Ok j => Some j | Err _ => None end.

Definition jsonEqual (left right : json) : bool := jsonKey left == jsonKey right.

Definition validateTopologyExpansion (existing requested : RunPlanSpec) : result unit :=
  let requestedNodes : gmap string PlanNodeSpec :=
    foldl (λ m node, <[node_NodeID node := node]> m) ∅ (spec_Nodes requested) in
  forM (λ node,
    match requestedNodes !! node_NodeID node with
    | None => Err (Errorf ErrInvalidRunPlan "plan %q removed existing node %q")
    | Some requestedNode =>
        fail_if (negb (jsonEqual (enc_PlanNodeSpec node) (enc_PlanNodeSpec requestedNode)))
          (Errorf ErrInvalidRunPlan "plan %q changed existing node %q")
    end) (spec_Nodes existing);;
  let requestedEdges := (λ edge, jsonKey (enc_PlanEdgeSpec edge)) <$> spec_Edges requested in
  forM (λ edge,
    fail_if (negb (bool_decide (jsonKey (enc_PlanEdgeSpec edge) ∈ requestedEdges)))
      (Errorf ErrInvalidRunPlan "plan %q removed or changed existing edge %q"))
    (spec_Edges existing).

Definition ValidatePlanStateIdentity (existing requested : RunPlanSpec) : result unit :=
  fail_if (spec_PlanID existing != spec_PlanID requested)
    (Errorf ErrInvalidRunPlan "plan state belongs to plan %q");;
  fail_if (spec_IdempotencyKey existing != spec_IdempotencyKey requested)
    (Errorf ErrInvalidRunPlan "plan %q state has a different idempotency key");;
  same_json ErrInvalidRunPlan "plan state identity" (planStateIdentity existing)
    (planStateIdentity requested)
    "plan %q state changed immutable fields";;
  validateTopologyExpansion existing requested.

(** ** idempotency.go: transitions *)

Record PlanTransitionSnapshotIdentity := { ptsi_Digest : string; ptsi_JSON : json }.

Definition planTransitionIdempotencyIdentity (snapshot : PlanStateSnapshot) (key : string) : json :=
  JObject (field "spec" (enc_RunPlanSpec (snap_Spec snapshot)) ++
           field "status" (enc_RunPlanStatus (snap_Status snapshot)) ++
           field "idempotency_key" (JString key)).

Definition NewPlanTransitionSnapshotIdentity `{!Sha256} (snapshot : PlanStateSnapshot)
    (idempotencyKey : string) : result PlanTransitionSnapshotIdentity :=
  fail_if (idempotencyKey == "")
    (Errorf ErrInvalidRunPlan "transition idempotency key is required");;
  identityJSON ← map_err (λ _, Errorf ErrInvalidRunPlan "marshal plan transition identity: %w")
                   (Marshal (planTransitionIdempotencyIdentity snapshot idempotencyKey));
  Ok {| ptsi_Digest := "sha256:" +:+ sha256_hex identityJSON; ptsi_JSON := identityJSON |}.

Definition ValidatePlanTransitionIdempotency (existingDigest : string)
    (requested : PlanTransitionSnapshotIdentity) : result unit :=
  fail_if (ptsi_Digest requested == "")
    (Errorf ErrInvalidRunPlan "requested transition snapshot digest is required");;
  fail_if (existingDigest == "")
    (Errorf ErrInvalidRunPlan "transition idempotency key was not claimed by a reducer snapshot");;
  fail_if (existingDigest != ptsi_Digest requested)
    (Errorf ErrInvalidRunPlan
       "transition idempotency key was reused with a different reducer snapshot").

(** ** idempotency.go: audits and commands *)

Definition normalizeAuditPayload (payload : go_map any) : go_map any :=
  match payload with None => Some ∅ | Some m => Some m end.

Definition validateAuditReplayScope (existing requested : AuditRecord) : result unit :=
  forM (λ f : string * string, fail_if (f.1 != f.2) (Errorf ErrInvalidRunPlan "%s"))
    [(aud_PlanID existing, aud_PlanID requested);
     (aud_AccountID existing, aud_AccountID requested);
     (aud_ProjectID existing, aud_ProjectID requested);
     (aud_RunID existing, aud_RunID requested);
     (aud_NodeID existing, aud_NodeID requested);
     (aud_ActorID existing, aud_ActorID requested);
     (aud_Action existing, aud_Action requested)];;
  fail_if (aud_IdempotencyKey existing != aud_IdempotencyKey requested)
    (Errorf ErrInvalidRunPlan "audit idempotency key mismatch").

Definition ValidateAuditIdempotency (existing requested : AuditRecord) : result unit :=
  validateAuditReplayScope existing requested;;
  same_json ErrInvalidRunPlan "audit payload"
    (enc_map enc_any (normalizeAuditPayload (aud_Payload existing)))
    (enc_map enc_any (normalizeAuditPayload (aud_Payload requested)))
    "audit idempotency key was reused with a different payload".

Definition ValidatePlanCommandIdempotency (existing requested : PlanCommandRecord) : result unit :=
  fail_if (cmd_PlanID existing != cmd_PlanID requested)
    (Errorf ErrInvalidRunPlan "command idempotency key belongs to plan %q");;
  fail_if (cmd_AccountID existing != cmd_AccountID requested)
    (Errorf ErrInvalidRunPlan "command idempotency key belongs to account %q");;
  fail_if (cmd_ProjectID existing != cmd_ProjectID requested)
    (Errorf ErrInvalidRunPlan "command idempotency key belongs to project %q");;
  fail_if (cmd_ActorID existing != cmd_ActorID requested)
    (Errorf ErrInvalidRunPlan "command idempotency key belongs to actor %q");;
  fail_if (cmd_Action existing != cmd_Action requested)
    (Errorf ErrInvalidRunPlan "command idempotency key belongs to action %q");;
  fail_if (cmd_IdempotencyKey existing != cmd_IdempotencyKey requested)
    (Errorf ErrInvalidRunPlan "command idempotency key mismatch");;
  same_json ErrInvalidRunPlan "command payload"
    (enc_map enc_any (normalizeAuditPayload (cmd_Payload existing)))
    (enc_map enc_any (normalizeAuditPayload (cmd_Payload requested)))
    "command idempotency key was reused with a different payload".

(** ** idempotency.go: derived identities *)

(** The anonymous structs hold strings only, so their encoding cannot fail. *)
Definition ArtifactIDFromRef `{!Sha256} (planID idempotencyKey : string) : string :=
  sha256_hex (JObject (field "plan_id" (JString planID) ++
                       field "idempotency_key" (JString idempotencyKey))).

Definition ref_json (planID accountID projectID idempotencyKey : string) : json :=
  JObject (field "plan_id" (JString planID) ++ field "account_id" (JString accountID) ++
           field "project_id" (JString projectID) ++
           field "idempotency_key" (JString idempotencyKey)).

Definition PlanCommandIDFromRef `{!Sha256} (ref : PlanCommandRef) : string :=
  "command:" +:+ sha256_hex (ref_json (cmdr_PlanID ref) (cmdr_AccountID ref)
                               (cmdr_ProjectID ref) (cmdr_IdempotencyKey ref)).

Definition AuditIDFromRef `{!Sha256} (ref : AuditRef) : string :=
  "audit:" +:+ sha256_hex (ref_json (audr_PlanID ref) (audr_AccountID ref)
                             (audr_ProjectID ref) (audr_IdempotencyKey ref)).

(** ** idempotency.go: events *)

Definition normalizeEventPayload (payload : go_map any) : go_map any :=
  match payload with None => Some ∅ | Some m => Some m end.

Definition planEventIdempotencyIdentity (e : PlanEvent) : json := JObject
  (field "plan_id" (JString (ev_PlanID e)) ++
   field "account_id" (JString (ev_AccountID e)) ++
   field "project_id" (JString (ev_ProjectID e)) ++
   omit_string "node_id" (ev_NodeID e) ++
   omit_string "run_id" (ev_RunID e) ++
   omit_string "thread_id" (ev_ThreadID e) ++
   field "event_type" (JString (ev_EventType e)) ++
   omit_string "source" (ev_Source e) ++
   omit_string "external_event_id" (ev_ExternalEventID e) ++
   field "payload" (enc_map enc_any (normalizeEventPayload (ev_Payload e)))).

Definition sameTime (left right : time) : bool :=
  if time_is_zero left || time_is_zero right then time_is_zero left && time_is_zero right
  else left == right.

Definition ValidatePlanEventIdempotency (existing requested : PlanEvent) : result unit :=
  fail_if ((ev_EventID requested != "") && (ev_EventID existing != ev_EventID requested))
    (Errorf ErrInvalidPlanEvent "plan event idempotency key belongs to event %q");;
  fail_if ((ev_Sequence requested != 0%Z) && (ev_Sequence existing != ev_Sequence requested))
    (Errorf ErrInvalidPlanEvent "plan event idempotency key belongs to sequence %d");;
  fail_if (negb (time_is_zero (ev_Timestamp requested)) &&
           negb (sameTime (ev_Timestamp existing) (ev_Timestamp requested)))
    (Errorf ErrInvalidPlanEvent "plan event idempotency key belongs to timestamp %s");;
  same_json ErrInvalidPlanEvent "plan event" (planEventIdempotencyIdentity existing)
    (planEventIdempotencyIdentity requested)
    "plan event idempotency key was reused with a different event".

(** [t.Round(time.Microsecond)] *)
Definition NormalizeDurableTimestamp (timestamp : time) : time :=
  if time_is_zero timestamp then timestamp else time_round timestamp microsecond.

Definition NormalizePlanEventAppendRequest (event : PlanEvent) : PlanEvent :=
  {| event with ev_EventID := ""; ev_Sequence := 0%Z;
                ev_Timestamp := NormalizeDurableTimestamp (ev_Timestamp event) |}.

(** ** idempotency.go: artifacts *)

Definition normalizeArtifactMetadata (metadata : go_map string) : go_map string :=
  match metadata with None => Some ∅ | Some m => Some m end.

Definition artifactIdempotencyIdentity (r : ArtifactRef) : json := JObject
  (field "artifact_id" (JString (ref_ArtifactID r)) ++
   omit_string "plan_id" (ref_PlanID r) ++
   omit_string "node_id" (ref_NodeID r) ++
   omit_string "run_id" (ref_RunID r) ++
   field "name" (JString (ref_Name r)) ++
   field "kind" (JString (ref_Kind r)) ++
   omit_string "media_type" (ref_MediaType r) ++
   omit_int "size_bytes" (ref_SizeBytes r) ++
   omit_string "digest" (ref_Digest r) ++
   field "metadata" (enc_map JString (normalizeArtifactMetadata (ref_Metadata r)))).

Definition ValidateArtifactPublishIdempotency (existing requested : ArtifactRef) : result unit :=
  fail_if (ref_ArtifactID existing != ref_ArtifactID requested)
    (Errorf ErrInvalidArtifact "artifact idempotency key belongs to artifact %q");;
  fail_if ((ref_URI requested != "") && (ref_URI existing != ref_URI requested))
    (Errorf ErrInvalidArtifact "artifact idempotency key belongs to uri %q");;
  same_json ErrInvalidArtifact "artifact" (artifactIdempotencyIdentity existing)
    (artifactIdempotencyIdentity requested)
    "artifact idempotency key was reused with a different artifact".

(** ** commands.go *)

(** The loop over [scope.Statuses]; [seen] and [statuses] hold the same elements. *)
Fixpoint recoverable_statuses (requested statuses : list string) : result (list string) :=
  match requested with
  | [] => Ok statuses
  | status :: requested =>
      fail_if ((status != PlanCommandPending) && (status != PlanCommandFailed))
        (Errorf ErrInvalidRunPlan "command status %q is not recoverable");;
      recoverable_statuses requested
        (if bool_decide (status ∈ statuses) then statuses else statuses ++ [status])
  end.

Definition RecoverablePlanCommandStatuses (scope : PlanCommandScope) : result (list string) :=
  fail_if (cmds_Limit scope <? 0)%Z
    (Errorf ErrInvalidRunPlan "command limit must be non-negative");;
  fail_if (negb (eqb (cmds_AccountID scope == "") (cmds_ProjectID scope == "")))
    (Errorf ErrInvalidPlanScope "command account_id and project_id must be provided together");;
  if bool_decide (cmds_Statuses scope = []) then Ok [PlanCommandPending; PlanCommandFailed]
  else recoverable_statuses (cmds_Statuses scope) [].

Definition NormalizeNewPlanCommandStatus (status : string) : result string :=
  if status == "" then Ok PlanCommandPending else
  fail_if (status != PlanCommandPending)
    (Errorf ErrInvalidRunPlan "new command status must be %q, got %q");;
  Ok status.

Definition validatePlanCommandStatus (status : string) : result unit :=
  fail_if (negb (bool_decide (status ∈
                   [PlanCommandPending; PlanCommandDelivered; PlanCommandFailed])))
    (Errorf ErrInvalidRunPlan "command status %q is invalid").

Definition ValidatePlanCommandStatusTransition (current next : string) : result unit :=
  validatePlanCommandStatus current;;
  validatePlanCommandStatus next;;
  if current == next then Ok tt else
  fail_if (current == PlanCommandDelivered)
    (Errorf ErrInvalidRunPlan "delivered command is terminal");;
  fail_if (next == PlanCommandPending)
    (Errorf ErrInvalidRunPlan "command status cannot move back to %q").

Definition ValidatePlanCommandRef (ref : PlanCommandRef) : result unit :=
  ValidatePlanRef {| pref_PlanID := cmdr_PlanID ref; pref_AccountID := cmdr_AccountID ref;
                     pref_ProjectID := cmdr_ProjectID ref |};;
  fail_if (cmdr_IdempotencyKey ref == "")
    (Errorf ErrInvalidRunPlan "command idempotency key is required").

Definition AuditRecordFromPlanCommand (command : PlanCommandRecord) : AuditRecord := {|
  aud_AuditID := ""; aud_PlanID := cmd_PlanID command; aud_AccountID := cmd_AccountID command;
  aud_ProjectID := cmd_ProjectID command; aud_RunID := ""; aud_NodeID := "";
  aud_ActorID := cmd_ActorID command; aud_Action := cmd_Action command;
  aud_IdempotencyKey := cmd_IdempotencyKey command; aud_Payload := cmd_Payload command;
  aud_CreatedAt := zero_time |}.

Definition ValidatePlanCommandDeliveredAudit (command : PlanCommandRecord) (audit : AuditRecord) :
    result unit :=
  ValidateAuditIdempotency audit (AuditRecordFromPlanCommand command).

Definition ValidateAuditRef (ref : AuditRef) : result unit :=
  ValidatePlanRef {| pref_PlanID := audr_PlanID ref; pref_AccountID := audr_AccountID ref;
                     pref_ProjectID := audr_ProjectID ref |};;
  fail_if (audr_IdempotencyKey ref == "")
    (Errorf ErrInvalidRunPlan "audit idempotency key is required").

(** ** audit.go *)

Definition ValidateAuditNodeRunPair (record : AuditRecord) : result unit :=
  if (aud_NodeID record == "") && (aud_RunID record == "") then Ok tt else
  fail_if ((aud_NodeID record == "") || (aud_RunID record == ""))
    (Errorf ErrInvalidRunPlan "audit node id and run id must be provided together").

(** The first entry of the node: in the status when it has nodes, else in the spec. *)
Definition auditPlanNodeRunID (spec : RunPlanSpec) (status : RunPlanStatus) (nodeID : string) :
    option string :=
  if bool_decide (st_Nodes status ≠ []) then
    (λ found, ns_RunID found.2) <$> list_find (λ n, ns_NodeID n = nodeID) (st_Nodes status)
  else
    (λ found, run_RunID (node_Run found.2)) <$>
      list_find (λ n, node_NodeID n = nodeID) (spec_Nodes spec).

Definition ValidateAuditNodeRunInPlan (record : AuditRecord) (spec : RunPlanSpec)
    (status : RunPlanStatus) : result unit :=
  ValidateAuditNodeRunPair record;;
  if aud_NodeID record == "" then Ok tt else
  match auditPlanNodeRunID spec status (aud_NodeID record) with
  | None => Err (Errorf ErrInvalidRunPlan "audit node %q is not durable")
  | Some runID =>
      fail_if (runID == "") (Errorf ErrInvalidRunPlan "audit node %q has no durable run id");;
      fail_if (runID != aud_RunID record)
        (Errorf ErrInvalidRunPlan "audit node %q has durable run id %q, got %q")
  end.

Definition PlanAuditRecordFromAuditRecord (record : AuditRecord) : PlanAuditRecord := {|
  par_AuditID := aud_AuditID record; par_PlanID := aud_PlanID record;
  par_AccountID := aud_AccountID record; par_ProjectID := aud_ProjectID record;
  par_RunID := aud_RunID record; par_NodeID := aud_NodeID record;
  par_ActorID := aud_ActorID record; par_Action := aud_Action record;
  par_IdempotencyKey := aud_IdempotencyKey record;
  par_Payload := normalizeAuditPayload (aud_Payload record);
  par_CreatedAt := aud_CreatedAt record |}.

(** ** Lemmas *)

Lemma Marshal_Ok j j' : Marshal j = Ok j' ↔ supported j = true ∧ j' = j.
Proof. unfold Marshal. destruct (supported j); naive_solver. Qed.

Lemma same_json_Ok kind what j1 j2 mismatch :
  same_json kind what j1 j2 mismatch = Ok tt ↔ supported j1 = true ∧ j1 = j2.
Proof.
  unfold same_json, Marshal. destruct (supported j1) eqn:H1, (supported j2) eqn:H2; cbn;
    try (case_bool_decide; cbn); split; intros Hx; try done; destruct Hx; try congruence.
Qed.

Lemma ValidatePlanStartIdempotency_iff existing requested :
  ValidatePlanStartIdempotency existing requested = Ok tt ↔
  supported (enc_RunPlanSpec existing) = true ∧
  enc_RunPlanSpec existing = enc_RunPlanSpec requested.
Proof.
  unfold ValidatePlanStartIdempotency. split.
  - intros Hok. apply bind_Ok in Hok as ([] & _ & Hok). apply bind_Ok in Hok as ([] & _ & Hok).
    by apply same_json_Ok in Hok.
  - intros [Hs Heq]. pose proof (enc_RunPlanSpec_same _ _ Hs Heq) as [Henv _].
    unfold envelope in Henv. injection Henv as Hid _ _ _ Hkey _ _.
    rewrite (bool_decide_eq_true_2 _ Hid), (bool_decide_eq_true_2 _ Hkey). cbn.
    by apply same_json_Ok.
Qed.

(** The immutable part of a spec determines its scalar fields. *)
Definition dec_identity (j : json) : RunPlanSpec :=
  let l := fields_of j in
  {| zero_RunPlanSpec with
     spec_PlanID := get_string "plan_id" l;
     spec_ThreadID := get_string "thread_id" l;
     spec_AccountID := get_string "account_id" l;
     spec_ProjectID := get_string "project_id" l;
     spec_IdempotencyKey := get_string "idempotency_key" l;
     spec_RequestedAt := get_time "requested_at" l;
     spec_Policy := default zero_PlanPolicy (dec_PlanPolicy <$> assoc "policy" l) |}.

Lemma dec_identity_spec s :
  supported (planStateIdentity s) = true → dec_identity (planStateIdentity s) = envelope s.
Proof.
  intros Hs. unfold dec_identity, envelope. cbv zeta.
  assert (get_time "requested_at" (fields_of (planStateIdentity s)) = spec_RequestedAt s) as Ht.
  { assert (assoc "requested_at" (fields_of (planStateIdentity s)) = Some (enc_time (spec_RequestedAt s)))
      as Ha by (unfold planStateIdentity, fields_of; by assoc_walk).
    unfold get_time. rewrite Ha, enc_time_supported; [done|]. by eapply supported_assoc. }
  rewrite Ht. clear Hs Ht. unfold planStateIdentity, fields_of. destruct s.
  cbn -[omit_string omit_time omit_map omit_list omit field app get_string get_time assoc].
  f_equal; try read_field. assoc_walk. cbn. by rewrite dec_enc_PlanPolicy.
Qed.

Lemma jsonEqual_true j1 j2 :
  jsonEqual j1 j2 = true ↔ (supported j1 = true ∧ j1 = j2) ∨ supported j1 = false ∧ supported j2 = false.
Proof.
  unfold jsonEqual, jsonKey, Marshal.
  destruct (supported j1) eqn:H1, (supported j2) eqn:H2; case_bool_decide; naive_solver.
Qed.

(** A snapshot may replace the stored plan only when its envelope is the stored one
    and every stored node is still there. *)
Lemma ValidatePlanStateIdentity_Ok existing requested :
  ValidatePlanStateIdentity existing requested = Ok tt →
  envelope existing = envelope requested ∧
  (∀ node, node ∈ spec_Nodes existing →
     node_NodeID node ∈ node_NodeID <$> spec_Nodes requested).
Proof.
  unfold ValidatePlanStateIdentity. intros Hok.
  apply bind_Ok in Hok as ([] & _ & Hok). apply bind_Ok in Hok as ([] & _ & Hok).
  apply bind_Ok in Hok as ([] & [Hs Heq]%same_json_Ok & Hok). split.
  - rewrite <-dec_identity_spec, Heq, dec_identity_spec by congruence. done.
  - unfold validateTopologyExpansion in Hok. apply bind_Ok in Hok as ([] & Hnodes & _).
    rewrite forM_Ok in Hnodes. intros node Hin. specialize (Hnodes node Hin).
    destruct (_ !! node_NodeID node) as [rn|] eqn:Hl; [|done]. clear Hnodes Heq Hs. revert Hl.
    induction (spec_Nodes requested) as [|x l IH] using rev_ind; [done|].
    rewrite foldl_app, fmap_app, elem_of_app. cbn.
    intros [[<- _]|[_ Hl]]%lookup_insert_Some; [right; left|left; by apply IH].
Qed.

(** Rounding to microseconds is idempotent. *)
Lemma NormalizeDurableTimestamp_idemp t :
  NormalizeDurableTimestamp (NormalizeDurableTimestamp t) = NormalizeDurableTimestamp t.
Proof.
  unfold NormalizeDurableTimestamp, time_is_zero, time_round.
  assert (∀ u, (u mod microsecond = 0)%Z →
    (let r := (u mod microsecond)%Z in
     if (r + r <? microsecond)%Z then (u - r)%Z else (u + (microsecond - r))%Z) = u) as Hu.
  { intros u Hr. cbv zeta. rewrite Hr. change (0 + 0 <? microsecond)%Z with true. cbv iota. lia. }
  destruct (decide (t = zero_time)) as [->|Hz]; [done|].
  rewrite (bool_decide_eq_false_2 (t = zero_time)) by done.
  case_bool_decide; [done|]. apply Hu. unfold microsecond.
  pose proof (Z.div_mod t 1000 ltac:(lia)) as Hdm.
  destruct (_ <? _)%Z.
  - replace (t - t mod 1000)%Z with (t / 1000 * 1000)%Z by lia. apply Z.mod_mul. lia.
  - replace (t + (1000 - t mod 1000))%Z with ((t / 1000 + 1) * 1000)%Z by lia. apply Z.mod_mul. lia.
Qed.

Lemma sameTime_refl t : sameTime t t = true.
Proof. unfold sameTime. destruct (time_is_zero t); cbn; [done|]. by apply bool_decide_eq_true_2. Qed.

(** Command statuses: what a transition allows. *)
Lemma ValidatePlanCommandStatusTransition_iff current next :
  ValidatePlanCommandStatusTransition current next = Ok tt ↔
  current ∈ [PlanCommandPending; PlanCommandDelivered; PlanCommandFailed] ∧
  next ∈ [PlanCommandPending; PlanCommandDelivered; PlanCommandFailed] ∧
  (current = next ∨ current ≠ PlanCommandDelivered ∧ next ≠ PlanCommandPending).
Proof.
  unfold ValidatePlanCommandStatusTransition, validatePlanCommandStatus.
  repeat case_bool_decide; cbn; naive_solver.
Qed.
