(* ===== verification/Artifacts.v ===== *)
(** * The artifact store

    internal/usecase/agentosplan/artifacts.go (the in-memory artifact store) and
    artifact_payload.go (how a payload becomes bytes, a media type and a digest).  The
    text encoding/json writes for a document and SHA-256 over bytes are the class
    [ByteEncoding].  Every method holds the store's lock; [s.now()] is the argument
    [now]. *)

From S2P Require Import Prelude Types Graph Scope Json Idempotency.

(** ** artifact_payload.go *)

Definition MIMEApplicationJSON : string := "application/json".
Definition MIMETextPlain : string := "text/plain".

(** A payload: nil, a byte slice, or any other value. *)
Inductive artifact_payload :=
  | PayloadNil
  | PayloadBytes (data : string)
  | PayloadValue (value : any).

Class ByteEncoding := { json_text : json → string; sha256_bytes : string → string }.

(** Bytes and media type. *)
Definition EncodeArtifactPayload `{!ByteEncoding} (payload : artifact_payload) (mediaType : string) :
    result (string * string) :=
  let mediaType := if mediaType == "" then MIMEApplicationJSON else mediaType in
  match payload with
  | PayloadBytes data =>
      Ok (data, if mediaType == MIMEApplicationJSON then "application/octet-stream" else mediaType)
  | PayloadValue (AString value) =>
      Ok (value, if mediaType == MIMEApplicationJSON then MIMETextPlain else mediaType)
  | PayloadNil | PayloadValue _ =>
      let value := match payload with PayloadValue v => v | _ => ANil end in
      data ← map_err (λ _, Errorf ErrInvalidArtifact "encode artifact payload: %w")
               (Marshal (enc_any value));
      Ok (json_text data, mediaType)
  end.

Definition DigestArtifactPayload `{!ByteEncoding} (payload : string) : string :=
  "sha256:" +:+ sha256_bytes payload.

(** ** State *)

Record artifactIdempotencyKey := ArtifactKey { aik_PlanID : string; aik_Key : string }.

#[global] Instance artifactIdempotencyKey_eq_dec : EqDecision artifactIdempotencyKey.
Proof. solve_decision. Defined.
#[global] Instance artifactIdempotencyKey_countable : Countable artifactIdempotencyKey.
Proof.
  refine (inj_countable' (λ k, (aik_PlanID k, aik_Key k)) (λ p, ArtifactKey p.1 p.2) _).
  by intros [].
Defined.

Record storedArtifact := Stored { sa_ref : ArtifactRef; sa_payload : artifact_payload }.

Record MemoryArtifactStore := {
  artifacts : gmap string storedArtifact;
  byPlan : gmap string (list string);
  byKey : gmap artifactIdempotencyKey string;
}.

Definition NewMemoryArtifactStore : MemoryArtifactStore :=
  {| artifacts := ∅; byPlan := ∅; byKey := ∅ |}.

(** ** Publishing *)

Definition validateArtifactPutInput (artifact : ArtifactRef) (idempotencyKey : string) :
    result unit :=
  fail_if (idempotencyKey == "")
    (Errorf ErrInvalidArtifact "artifact idempotency key is required");;
  fail_if (ref_PlanID artifact == "") (Errorf ErrInvalidArtifact "plan id is required");;
  fail_if (ref_Name artifact == "") (Errorf ErrInvalidArtifact "artifact name is required");;
  fail_if (ref_Kind artifact == "") (Errorf ErrInvalidArtifact "artifact kind is required").

(** [payload == nil] *)
Definition payload_is_nil (payload : artifact_payload) : bool :=
  match payload with PayloadNil | PayloadValue ANil => true | _ => false end.

Definition artifactRefWithPayloadMetadata `{!ByteEncoding} (artifact : ArtifactRef)
    (payload : artifact_payload) : result ArtifactRef :=
  if payload_is_nil payload then Ok artifact else
  encoded ← EncodeArtifactPayload payload (ref_MediaType artifact);
  Ok {| artifact with ref_MediaType := encoded.2;
                      ref_SizeBytes := Z.of_nat (String.length encoded.1);
                      ref_Digest := DigestArtifactPayload encoded.1 |}.

Definition prepareArtifactRef `{!ByteEncoding, !Sha256} (now : time) (artifact : ArtifactRef)
    (payload : artifact_payload) (idempotencyKey : string) : result ArtifactRef :=
  validateArtifactPutInput artifact idempotencyKey;;
  ref ← artifactRefWithPayloadMetadata artifact payload;
  Ok {| ref with
        ref_ArtifactID := if ref_ArtifactID ref == ""
                          then ArtifactIDFromRef (ref_PlanID ref) idempotencyKey
                          else ref_ArtifactID ref;
        ref_CreatedAt := if time_is_zero (ref_CreatedAt ref) then now else ref_CreatedAt ref |}.

Definition ValidateNewRefOnlyArtifactPublish (ref : ArtifactRef) : result unit :=
  fail_if ((ref_URI ref != "") || (ref_SizeBytes ref != 0%Z) || (ref_Digest ref != ""))
    (Errorf ErrInvalidArtifact "artifact payload metadata requires a stored payload").

Definition zero_ArtifactRef : ArtifactRef := {|
  ref_ArtifactID := ""; ref_PlanID := ""; ref_NodeID := ""; ref_RunID := ""; ref_Name := "";
  ref_Kind := ""; ref_MediaType := ""; ref_URI := ""; ref_SizeBytes := 0; ref_Digest := "";
  ref_Metadata := None; ref_CreatedAt := zero_time |}.

(** [None] when the key is new. *)
Definition replayedArtifact (s : MemoryArtifactStore) (artifact : ArtifactRef)
    (idempotencyKey : string) : result (option ArtifactRef) :=
  match byKey s !! ArtifactKey (ref_PlanID artifact) idempotencyKey with
  | None => Ok None
  | Some artifactID =>
      let existing := default (Stored zero_ArtifactRef PayloadNil) (artifacts s !! artifactID) in
      ValidateArtifactPublishIdempotency (sa_ref existing) artifact;;
      Ok (Some (sa_ref existing))
  end.

Definition storeNewArtifact (s : MemoryArtifactStore) (artifact : ArtifactRef)
    (payload : artifact_payload) (idempotencyKey : string) : MemoryArtifactStore * result ArtifactRef :=
  let check :=
    (if payload_is_nil payload then ValidateNewRefOnlyArtifactPublish artifact else Ok tt);;
    fail_if (bool_decide (is_Some (artifacts s !! ref_ArtifactID artifact)))
      (Errorf ErrInvalidArtifact "artifact id %q already exists with a different idempotency key") in
  match check with
  | Err e => (s, Err e)
  | Ok _ =>
      ({| artifacts := <[ref_ArtifactID artifact := Stored artifact payload]> (artifacts s);
          byKey := <[ArtifactKey (ref_PlanID artifact) idempotencyKey := ref_ArtifactID artifact]>
                     (byKey s);
          byPlan := push (byPlan s) (ref_PlanID artifact) (ref_ArtifactID artifact) |},
       Ok artifact)
  end.

Definition Put `{!ByteEncoding, !Sha256} (now : time) (s : MemoryArtifactStore)
    (artifact : ArtifactRef) (payload : artifact_payload) (idempotencyKey : string) :
    MemoryArtifactStore * result ArtifactRef :=
  match prepareArtifactRef now artifact payload idempotencyKey with
  | Err e => (s, Err e)
  | Ok ref =>
      match replayedArtifact s ref idempotencyKey with
      | Err e => (s, Err e)
      | Ok (Some existing) => (s, Ok existing)
      | Ok None => storeNewArtifact s ref payload idempotencyKey
      end
  end.

(** ** Reading *)

Definition artifactRefMatchesScope (ref : ArtifactRef) (scope : PlanArtifactScope) : bool :=
  if ref_PlanID ref != ars_PlanID scope then false
  else if (ars_ArtifactID scope != "") && (ref_ArtifactID ref != ars_ArtifactID scope) then false
  else if (ars_NodeID scope != "") && (ref_NodeID ref != ars_NodeID scope) then false
  else if (ars_RunID scope != "") && (ref_RunID ref != ars_RunID scope) then false
  else true.

Definition Get (s : MemoryArtifactStore) (scope : PlanArtifactScope) :
    result (ArtifactRef * artifact_payload) :=
  ValidatePlanArtifactScope (Some scope);;
  fail_if (ars_ArtifactID scope == "") (Errorf ErrInvalidArtifact "artifact id is required");;
  match artifacts s !! ars_ArtifactID scope with
  | Some artifact =>
      if artifactRefMatchesScope (sa_ref artifact) scope then Ok (sa_ref artifact, sa_payload artifact)
      else Err (Errorf ErrArtifactNotFound "%s")
  | None => Err (Errorf ErrArtifactNotFound "%s")
  end.

(** The loop of [List], which stops at the limit. *)
Fixpoint list_refs (s : MemoryArtifactStore) (scope : PlanArtifactScope) (ids : list string)
    (refs : list ArtifactRef) : list ArtifactRef :=
  match ids with
  | [] => refs
  | id :: ids =>
      match artifacts s !! id with
      | Some artifact =>
          if artifactRefMatchesScope (sa_ref artifact) scope then
            let refs := refs ++ [sa_ref artifact] in
            if ((0 <? ars_Limit scope) && (ars_Limit scope <=? Z.of_nat (length refs)))%Z then refs
            else list_refs s scope ids refs
          else list_refs s scope ids refs
      | None => list_refs s scope ids refs
      end
  end.

Definition List (s : MemoryArtifactStore) (scope : PlanArtifactScope) : result (list ArtifactRef) :=
  ValidatePlanArtifactScope (Some scope);;
  Ok (list_refs s scope (get_list (byPlan s) (ars_PlanID scope)) []).

(** ** Steps and invariant *)

Inductive artifact_step `{!ByteEncoding, !Sha256} (s : MemoryArtifactStore) : MemoryArtifactStore → Prop :=
  | step_put now artifact payload key : artifact_step s (Put now s artifact payload key).1.

Record artifacts_ok (s : MemoryArtifactStore) : Prop := {
  ao_id : ∀ id a, artifacts s !! id = Some a → ref_ArtifactID (sa_ref a) = id;
  ao_key : ∀ k id, byKey s !! k = Some id →
    ∃ a, artifacts s !! id = Some a ∧ ref_PlanID (sa_ref a) = aik_PlanID k;
  ao_plan : ∀ pid id, id ∈ get_list (byPlan s) pid ↔
    ∃ a, artifacts s !! id = Some a ∧ ref_PlanID (sa_ref a) = pid;
  ao_once : ∀ pid, NoDup (get_list (byPlan s) pid);
}.

Lemma artifacts_ok_new : artifacts_ok NewMemoryArtifactStore.
Proof.
  split; cbn; try (intros *; by rewrite lookup_empty); unfold get_list; setoid_rewrite lookup_empty; cbn.
  - intros pid id. rewrite elem_of_nil. naive_solver.
  - intros pid. apply NoDup_nil_2.
Qed.

(** What a publish does: nothing, or one new artifact under a new id and key. *)
Lemma Put_cases `{!ByteEncoding, !Sha256} now s artifact payload key :
  let r := Put now s artifact payload key in
  (r.1 = s ∧ ∀ ref, r.2 = Ok ref → ∃ prepared, prepareArtifactRef now artifact payload key = Ok prepared ∧
     replayedArtifact s prepared key = Ok (Some ref)) ∨
  ∃ ref, prepareArtifactRef now artifact payload key = Ok ref ∧ r.2 = Ok ref ∧
    artifacts s !! ref_ArtifactID ref = None ∧ byKey s !! ArtifactKey (ref_PlanID ref) key = None ∧
    r.1 = {| artifacts := <[ref_ArtifactID ref := Stored ref payload]> (artifacts s);
             byKey := <[ArtifactKey (ref_PlanID ref) key := ref_ArtifactID ref]> (byKey s);
             byPlan := push (byPlan s) (ref_PlanID ref) (ref_ArtifactID ref) |}.
Proof.
  unfold Put. destruct (prepareArtifactRef _ _ _ _) as [ref|]; [|left; naive_solver].
  destruct (replayedArtifact s ref key) as [[existing|]|] eqn:Hr; [left; naive_solver| |left; naive_solver].
  unfold storeNewArtifact. destruct (_ ≫= _) as [[]|] eqn:Hc; [|left; naive_solver]. right.
  apply bind_Ok in Hc as (_ & _ & Hc%fail_if_Ok). simplify_bool. exists ref. split_and!; try done.
  - by apply eq_None_not_Some.
  - unfold replayedArtifact in Hr. destruct (byKey s !! _); [|done]. by apply bind_Ok in Hr as (? & ? & ?).
Qed.

(** The store only grows. *)
Definition artifacts_extend (s s' : MemoryArtifactStore) : Prop :=
  artifacts s ⊆ artifacts s' ∧ byKey s ⊆ byKey s' ∧
  ∀ pid, get_list (byPlan s) pid `prefix_of` get_list (byPlan s') pid.

#[global] Instance artifacts_extend_preorder : PreOrder artifacts_extend.
Proof.
  split; [done|]. intros s1 s2 s3 (? & ? & Hp) (? & ? & Hq). split_and!; [by etrans..|].
  intros pid. etrans; [apply Hp|apply Hq].
Qed.

Lemma artifact_step_ok `{!ByteEncoding, !Sha256} s s' :
  artifacts_ok s → artifact_step s s' → artifacts_ok s' ∧ artifacts_extend s s'.
Proof.
  intros Hok [now artifact payload key].
  destruct (Put_cases now s artifact payload key) as [[-> _]|(ref & _ & _ & Hnew & Hkey & ->)]; [done|].
  assert (ref_ArtifactID ref ∉ get_list (byPlan s) (ref_PlanID ref)) as Hfresh.
  { rewrite (ao_plan _ Hok). intros (a & Ha & _). congruence. }
  split.
  - split; cbn.
    + intros id a [[<- <-]|[_ Ha]]%lookup_insert_Some; [done|]. by apply (ao_id _ Hok).
    + intros k id [[<- <-]|[_ Hk]]%lookup_insert_Some.
      * eexists. by rewrite lookup_insert_eq.
      * destruct (ao_key _ Hok _ _ Hk) as (a & Ha & Hp). exists a. rewrite lookup_insert_ne; [done|]. congruence.
    + intros pid id. rewrite get_list_push. case_decide as Heq.
      * subst pid. rewrite elem_of_app, list_elem_of_singleton, (ao_plan _ Hok). split.
        -- intros [(a & Ha & Hp)| ->]; [|eexists; by rewrite lookup_insert_eq].
           exists a. rewrite lookup_insert_ne; [done|]. congruence.
        -- intros (a & [[<- <-]|[_ Ha]]%lookup_insert_Some & Hp); [by right|left; eauto].
      * rewrite (ao_plan _ Hok). split; intros (a & Ha & Hp); exists a.
        -- rewrite lookup_insert_ne; [done|]. congruence.
        -- apply lookup_insert_Some in Ha as [[<- <-]|[_ Ha]]; [done|done].
    + intros pid. rewrite get_list_push. case_decide as Heq; [|apply (ao_once _ Hok)].
      apply NoDup_app. split_and!; [apply (ao_once _ Hok)| |apply NoDup_singleton].
      intros x Hx ->%list_elem_of_singleton. done.
  - split_and!; cbn; [by apply insert_subseteq..|]. intros pid. rewrite get_list_push.
    case_decide; [subst; by apply prefix_app_r|done].
Qed.

Lemma artifact_steps_ok `{!ByteEncoding, !Sha256} s s' :
  artifacts_ok s → rtc artifact_step s s' → artifacts_ok s' ∧ artifacts_extend s s'.
Proof.
  intros Hok Hr. induction Hr as [|s1 s2 s3 Hs _ IH]; [done|].
  destruct (artifact_step_ok _ _ Hok Hs) as [Hok2 He]. destruct (IH Hok2) as [Hok3 He'].
  split; [done|by etrans].
Qed.

Definition artifacts_reachable `{!ByteEncoding, !Sha256} : MemoryArtifactStore → Prop :=
  rtc artifact_step NewMemoryArtifactStore.

Lemma artifacts_reachable_ok `{!ByteEncoding, !Sha256} s : artifacts_reachable s → artifacts_ok s.
Proof. intros Hr. by eapply artifact_steps_ok; [apply artifacts_ok_new|]. Qed.

(** ** Replays *)

Lemma artifact_identity_supported r : supported (artifactIdempotencyIdentity r) = true.
Proof.
  unfold artifactIdempotencyIdentity, field. rewrite !supported_app.
  rewrite !supported_omit_string, !supported_omit_int. cbn [andb].
  assert (supported (enc_map JString (normalizeArtifactMetadata (ref_Metadata r))) = true) as Hm.
  { destruct (ref_Metadata r); apply supported_string_map. }
  cbn -[enc_map]. by rewrite Hm.
Qed.

Lemma publish_self r : ValidateArtifactPublishIdempotency r r = Ok tt.
Proof.
  unfold ValidateArtifactPublishIdempotency. rewrite (bool_decide_eq_true_2 (ref_ArtifactID r = ref_ArtifactID r) eq_refl).
  rewrite (bool_decide_eq_true_2 (ref_URI r = ref_URI r) eq_refl). cbn [negb].
  rewrite andb_false_r. cbn [fail_if mbind result_bind].
  apply same_json_Ok. split; [apply artifact_identity_supported|done].
Qed.

(** The prepared reference depends on the clock only in its creation time, which no
    replay check reads. *)
Lemma prepare_now `{!ByteEncoding, !Sha256} now now' artifact payload key ref :
  prepareArtifactRef now artifact payload key = Ok ref →
  ∃ t, prepareArtifactRef now' artifact payload key = Ok {| ref with ref_CreatedAt := t |}.
Proof.
  unfold prepareArtifactRef. intros ([] & Hv & (r & Hr & [= <-])%bind_Ok)%bind_Ok.
  rewrite Hv, Hr. cbn [mbind result_bind]. by eexists.
Qed.

(** The request with key [key] was answered with [e], stored with payload [p]. *)
Definition published (s : MemoryArtifactStore) (prepared : ArtifactRef) (key : string)
    (e : ArtifactRef) (p : artifact_payload) : Prop :=
  byKey s !! ArtifactKey (ref_PlanID prepared) key = Some (ref_ArtifactID e) ∧
  artifacts s !! ref_ArtifactID e = Some (Stored e p) ∧
  ValidateArtifactPublishIdempotency e prepared = Ok tt.

Lemma Put_published `{!ByteEncoding, !Sha256} now s artifact payload key s1 e :
  artifacts_ok s → Put now s artifact payload key = (s1, Ok e) →
  ∃ prepared p, prepareArtifactRef now artifact payload key = Ok prepared ∧
    published s1 prepared key e p ∧ (s1 ≠ s → p = payload).
Proof.
  intros Hok Hp. destruct (Put_cases now s artifact payload key)
    as [[Hs Hcase]|(ref & Hprep & He & Hnew & Hkey & Hs)]; rewrite Hp in *; cbn [fst snd] in *.
  - subst s1. destruct (Hcase e eq_refl) as (prepared & Hprep & Hr).
    unfold replayedArtifact in Hr. destruct (byKey s !! _) as [id|] eqn:Hk; [|done].
    destruct (ao_key _ Hok _ _ Hk) as ([ref p] & Ha & _). rewrite Ha in Hr. cbn in Hr.
    apply bind_Ok in Hr as ([] & Hv & Hr). injection Hr as <-.
    pose proof (ao_id _ Hok _ _ Ha) as Hid. cbn in Hid.
    exists prepared, p. unfold published. by rewrite Hid.
  - injection He as <-. exists e, payload. split; [done|]. subst s1. unfold published. cbn.
    rewrite !lookup_insert_eq. split_and!; [done..|apply publish_self|done].
Qed.

Lemma published_extends s s' prepared key e p :
  artifacts_extend s s' → published s prepared key e p → published s' prepared key e p.
Proof.
  intros (Ha & Hk & _) (H1 & H2 & H3).
  split_and!; [by eapply lookup_weaken..|done].
Qed.

(** ** Lists *)

(** The loop without a limit. *)
Lemma list_refs_all s scope ids acc :
  (ars_Limit scope ≤ 0)%Z →
  list_refs s scope ids acc =
  acc ++ omap (λ id, a ← artifacts s !! id;
                     if artifactRefMatchesScope (sa_ref a) scope then Some (sa_ref a) else None) ids.
Proof.
  intros Hl. revert acc. induction ids as [|id ids IH]; intros acc; cbn; [by rewrite app_nil_r|].
  destruct (artifacts s !! id) as [a|]; cbn; [|apply IH].
  destruct (artifactRefMatchesScope (sa_ref a) scope); [|apply IH].
  destruct (Z.ltb_spec 0 (ars_Limit scope)); [lia|]. cbn. by rewrite IH, <-app_assoc.
Qed.

Lemma omap_single {A} (f : string → option A) ids id e :
  NoDup ids → id ∈ ids → f id = Some e → (∀ id', id' ≠ id → f id' = None) → omap f ids = [e].
Proof.
  intros Hnd Hin Hf Hother. induction Hnd as [|x l Hx Hnd IH]; [by apply elem_of_nil in Hin|].
  cbn. destruct (decide (x = id)) as [->|Hne].
  - rewrite Hf. f_equal. clear IH Hin. induction l as [|y l IH]; [done|].
    rewrite not_elem_of_cons in Hx. cbn. rewrite Hother by naive_solver. apply IH; [naive_solver|].
    by inversion Hnd.
  - rewrite Hother by done. apply IH. set_solver.
Qed.

Lemma artifactRefMatchesScope_true ref scope :
  artifactRefMatchesScope ref scope = true →
  ref_PlanID ref = ars_PlanID scope ∧
  (ars_ArtifactID scope ≠ "" → ref_ArtifactID ref = ars_ArtifactID scope).
Proof. unfold artifactRefMatchesScope. repeat case_bool_decide; cbn; naive_solver. Qed.

(** ** Sample *)

Module ArtifactSample.
#[local] Instance sha : Sha256 := {| sha256_hex _ := "00ff" |}.
#[local] Instance bytes : ByteEncoding := {| json_text _ := "{}"; sha256_bytes _ := "abcd" |}.
Definition artifact : ArtifactRef := {| zero_ArtifactRef with
  ref_PlanID := "plan-1"; ref_NodeID := "a"; ref_Name := "report"; ref_Kind := "document" |}.
Definition other : ArtifactRef := {| artifact with ref_Name := "log" |}.
Definition payload : artifact_payload := PayloadValue (AString "hello").
Definition s1 := (Put 5 NewMemoryArtifactStore artifact payload "k1").1.
Definition stored : ArtifactRef := {| artifact with
  ref_ArtifactID := "00ff"; ref_MediaType := "text/plain"; ref_SizeBytes := 5;
  ref_Digest := "sha256:abcd"; ref_CreatedAt := 5 |}.
Definition scope (account : string) : PlanArtifactScope := {|
  ars_PlanID := "plan-1"; ars_AccountID := account; ars_ProjectID := "proj"; ars_NodeID := "";
  ars_RunID := ""; ars_ArtifactID := "00ff"; ars_Limit := 0 |}.
Definition s2 := (Put 6 s1 {| other with ref_ArtifactID := "id-2" |} payload "k2").1.
Lemma s1_s2 : rtc artifact_step s1 s2.
Proof. apply rtc_once. exact (step_put _ 6 _ _ _). Qed.
End ArtifactSample.

(** ** Theorems *)

(** An artifact is published exactly once.  Repeating a successful publish after
    any further publishes returns the reference of the first one, even when the clock
    has moved, and leaves the store unchanged. *)
Theorem publish_exactly_once `{!ByteEncoding, !Sha256} now now' s artifact payload key s1 e s2 :
  artifacts_reachable s → Put now s artifact payload key = (s1, Ok e) → rtc artifact_step s1 s2 →
  Put now' s2 artifact payload key = (s2, Ok e).
Proof.
  intros Hok%artifacts_reachable_ok Hp Hr.
  assert (artifacts_ok s1) as Hok1.
  { eapply artifact_step_ok; [exact Hok|].
    replace s1 with (Put now s artifact payload key).1 by by rewrite Hp. constructor. }
  destruct (Put_published _ _ _ _ _ _ _ Hok Hp) as (prepared & p & Hprep & Hpub & _).
  eapply published_extends in Hpub as (Hk & Ha & Hv); [|by eapply artifact_steps_ok].
  destruct (prepare_now now now' _ _ _ _ Hprep) as [t Hprep']. unfold Put. rewrite Hprep'.
  unfold replayedArtifact. cbn [ref_PlanID]. rewrite Hk, Ha. cbn [default from_option id sa_ref].
  change (ValidateArtifactPublishIdempotency e {| prepared with ref_CreatedAt := t |})
    with (ValidateArtifactPublishIdempotency e prepared). by rewrite Hv.
Qed.

Lemma publish_exactly_once_witness :
  Put (H := ArtifactSample.bytes) (H0 := ArtifactSample.sha) 99%Z ArtifactSample.s2
    ArtifactSample.artifact ArtifactSample.payload "k1" = (ArtifactSample.s2, Ok ArtifactSample.stored).
Proof.
  refine (publish_exactly_once (H := ArtifactSample.bytes) (H0 := ArtifactSample.sha) 5%Z 99%Z
    NewMemoryArtifactStore ArtifactSample.artifact ArtifactSample.payload "k1" ArtifactSample.s1
    ArtifactSample.stored ArtifactSample.s2 (rtc_refl _ _) _ ArtifactSample.s1_s2).
  vm_compute. reflexivity.
Defined.

(** What is published can be read.  After a successful publish and any further
    publishes, the reference can be fetched by plan and artifact id and is listed once
    for its plan; the payload is the published one when the publish was new. *)
Theorem published_readable `{!ByteEncoding, !Sha256} now s artifact payload key s1 e s2 scope :
  artifacts_reachable s → Put now s artifact payload key = (s1, Ok e) → rtc artifact_step s1 s2 →
  ValidatePlanArtifactScope (Some scope) = Ok tt → ars_ArtifactID scope = ref_ArtifactID e →
  ars_ArtifactID scope ≠ "" → artifactRefMatchesScope e scope = true →
  (∃ p, Get s2 scope = Ok (e, p) ∧ (s1 ≠ s → p = payload)) ∧
  (ars_Limit scope = 0%Z → List s2 scope = Ok [e]).
Proof.
  intros Hok%artifacts_reachable_ok Hp Hr Hscope Hid Hne Hm.
  assert (artifacts_ok s1) as Hok1.
  { eapply artifact_step_ok; [exact Hok|].
    replace s1 with (Put now s artifact payload key).1 by by rewrite Hp. constructor. }
  destruct (Put_published _ _ _ _ _ _ _ Hok Hp) as (prepared & p & _ & Hpub & Hpay).
  destruct (artifact_steps_ok _ _ Hok1 Hr) as [Hok2 Hext].
  eapply published_extends in Hpub as (_ & Ha & _); [|done]. rewrite <-Hid in Ha. split.
  - exists p. split; [|done]. unfold Get. rewrite Hscope. cbn [mbind result_bind].
    rewrite (bool_decide_eq_false_2 _ Hne). cbn [fail_if mbind result_bind].
    rewrite Ha. cbn [sa_ref sa_payload]. by rewrite Hm.
  - intros Hlim. unfold List. rewrite Hscope. cbn [mbind result_bind]. f_equal.
    rewrite list_refs_all by lia. cbn [app].
    apply (omap_single _ _ (ars_ArtifactID scope)); [apply (ao_once _ Hok2)| | |].
    + apply (ao_plan _ Hok2). eexists. split; [exact Ha|]. by apply artifactRefMatchesScope_true.
    + rewrite Ha. cbn. by rewrite Hm.
    + intros id' Hid'. destruct (artifacts s2 !! id') as [a|] eqn:Ha'; [|done]. cbn.
      destruct (artifactRefMatchesScope (sa_ref a) scope) eqn:Hm'; [|done].
      apply artifactRefMatchesScope_true in Hm' as [_ Hx]. pose proof (ao_id _ Hok2 _ _ Ha').
      destruct Hid'. rewrite <-(Hx Hne). done.
Qed.

Lemma published_readable_witness :
  List ArtifactSample.s2 (ArtifactSample.scope "acct") = Ok [ArtifactSample.stored].
Proof.
  refine (proj2 (published_readable (H := ArtifactSample.bytes) (H0 := ArtifactSample.sha) 5%Z
    NewMemoryArtifactStore ArtifactSample.artifact ArtifactSample.payload "k1" ArtifactSample.s1
    ArtifactSample.stored ArtifactSample.s2 (ArtifactSample.scope "acct") (rtc_refl _ _) _
    ArtifactSample.s1_s2 _ _ _ _) _).
  - vm_compute. reflexivity.
  - reflexivity.
  - reflexivity.
  - discriminate.
  - reflexivity.
  - reflexivity.
Defined.

(** The memory store does not separate tenants.  Account and project are required
    in the scope of a read but never compared: a read that succeeds for one tenant
    succeeds with the same answer for every other. *)
Theorem artifact_reads_ignore_tenant s scope account project :
  account ≠ "" → project ≠ "" →
  let scope' := {| scope with ars_AccountID := account; ars_ProjectID := project |} in
  (∀ r, Get s scope = Ok r → Get s scope' = Ok r) ∧
  (∀ l, List s scope = Ok l → List s scope' = Ok l).
Proof.
  intros Ha Hp scope'.
  assert (ValidatePlanArtifactScope (Some scope) = Ok tt → ValidatePlanArtifactScope (Some scope') = Ok tt)
    as Hscope.
  { unfold ValidatePlanArtifactScope, ValidatePlanRef. cbn.
    rewrite (bool_decide_eq_false_2 _ Ha), (bool_decide_eq_false_2 _ Hp).
    repeat case_bool_decide; cbn; naive_solver. }
  assert (∀ ids acc, list_refs s scope' ids acc = list_refs s scope ids acc) as Hlist.
  { induction ids as [|id ids IH]; intros acc; [done|]. cbn [list_refs].
    destruct (artifacts s !! id) as [a|]; [|apply IH].
    change (artifactRefMatchesScope (sa_ref a) scope') with (artifactRefMatchesScope (sa_ref a) scope).
    change (ars_Limit scope') with (ars_Limit scope). by rewrite !IH. }
  split.
  - intros r Hg. unfold Get in *. apply bind_Ok in Hg as ([] & Hv & Hg). rewrite (Hscope Hv). exact Hg.
  - intros l Hg. unfold List in *. apply bind_Ok in Hg as ([] & Hv & Hg). rewrite (Hscope Hv).
    cbn [mbind result_bind]. by rewrite Hlist.
Qed.

Lemma artifact_reads_ignore_tenant_witness :
  Get ArtifactSample.s2 (ArtifactSample.scope "mallory") =
  Ok (ArtifactSample.stored, ArtifactSample.payload).
Proof.
  refine (proj1 (artifact_reads_ignore_tenant ArtifactSample.s2 (ArtifactSample.scope "acct")
    "mallory" "proj" _ _) _ _).
  - discriminate.
  - discriminate.
  - vm_compute. reflexivity.
Defined.
