(* ===== verification/PlanStore.v ===== *)
(** * The in-memory plan store

    internal/usecase/agentosplan/plan_store_memory.go: plans, their event streams,
    transition snapshots, outbox commands, audit records and metric checkpoints.
    Every method takes the store's lock, so an operation is one step on the store;
    [CreatePlan] looks up the start key and the plan id in two sections under the read
    lock and works again under the write lock; it is modelled on the three stores these
    sections see.  A mutating method returns the store after
    the call with its result, also when it fails.  The clone functions copy values
    and are the identity here.  [time.Now] is the argument [now]. *)

From stdpp Require Import pretty.
From S2P Require Import Prelude Types Graph Scope Json Idempotency.

(** ** Keys *)

Record planEventIdempotencyKey := EventKey { pek_PlanID : string; pek_Key : string }.
Record planStartKey := StartKey { psk_AccountID : string; psk_ProjectID : string; psk_Key : string }.
Record planMetricCheckpointKey := MetricKey {
  pmk_ExporterID : string; pmk_PlanID : string; pmk_AccountID : string; pmk_ProjectID : string }.

#[global] Instance planEventIdempotencyKey_eq_dec : EqDecision planEventIdempotencyKey.
Proof. solve_decision. Defined.
#[global] Instance planEventIdempotencyKey_countable : Countable planEventIdempotencyKey.
Proof.
  refine (inj_countable' (λ k, (pek_PlanID k, pek_Key k)) (λ p, EventKey p.1 p.2) _).
  by intros [].
Defined.
#[global] Instance planStartKey_eq_dec : EqDecision planStartKey.
Proof. solve_decision. Defined.
#[global] Instance planStartKey_countable : Countable planStartKey.
Proof.
  refine (inj_countable' (λ k, (psk_AccountID k, psk_ProjectID k, psk_Key k))
            (λ p, StartKey p.1.1 p.1.2 p.2) _).
  by intros [].
Defined.
#[global] Instance planMetricCheckpointKey_eq_dec : EqDecision planMetricCheckpointKey.
Proof. solve_decision. Defined.
#[global] Instance planMetricCheckpointKey_countable : Countable planMetricCheckpointKey.
Proof.
  refine (inj_countable'
            (λ k, (pmk_ExporterID k, pmk_PlanID k, pmk_AccountID k, pmk_ProjectID k))
            (λ p, MetricKey p.1.1.1 p.1.1.2 p.1.2 p.2) _).
  by intros [].
Defined.
#[global] Instance PlanCommandRef_eq_dec : EqDecision PlanCommandRef.
Proof. solve_decision. Defined.
#[global] Instance PlanCommandRef_countable : Countable PlanCommandRef.
Proof.
  refine (inj_countable'
            (λ k, (cmdr_PlanID k, cmdr_AccountID k, cmdr_ProjectID k, cmdr_IdempotencyKey k))
            (λ p, {| cmdr_PlanID := p.1.1.1; cmdr_AccountID := p.1.1.2; cmdr_ProjectID := p.1.2;
                     cmdr_IdempotencyKey := p.2 |}) _).
  by intros [].
Defined.
#[global] Instance AuditRef_eq_dec : EqDecision AuditRef.
Proof. solve_decision. Defined.
#[global] Instance AuditRef_countable : Countable AuditRef.
Proof.
  refine (inj_countable'
            (λ k, (audr_PlanID k, audr_AccountID k, audr_ProjectID k, audr_IdempotencyKey k))
            (λ p, {| audr_PlanID := p.1.1.1; audr_AccountID := p.1.1.2; audr_ProjectID := p.1.2;
                     audr_IdempotencyKey := p.2 |}) _).
  by intros [].
Defined.

Definition planMetricCheckpointKeyFromRef (exporterID : string) (ref : PlanRef) :
    planMetricCheckpointKey :=
  MetricKey exporterID (pref_PlanID ref) (pref_AccountID ref) (pref_ProjectID ref).

(** ** State *)

(** metrics.go and contract.go: exporter cursors. *)
Record PlanMetricNodeStartState := {
  mns_NodeID : string; mns_RunID : string; mns_StartedAt : time }.
Record PlanMetricProjectionState := {
  mps_PlanStartedAt : time; mps_NodeStartedAt : list PlanMetricNodeStartState }.
Record PlanMetricCheckpoint := {
  cp_ExporterID : string;
  cp_PlanID : string;
  cp_AccountID : string;
  cp_ProjectID : string;
  cp_Sequence : Z;
  cp_Projection : PlanMetricProjectionState;
  cp_UpdatedAt : time;
}.

Record PlanRefScope := {
  prs_AccountID : string;
  prs_ProjectID : string;
  prs_LifecycleStates : list string;
  prs_UpdatedAfter : time;
  prs_Limit : Z;
}.

Record MemoryPlanStore := {
  specs : gmap string RunPlanSpec;
  statuses : gmap string RunPlanStatus;
  planKeys : gmap planStartKey string;
  events : gmap string (list PlanEvent);
  eventKeys : gmap planEventIdempotencyKey PlanEvent;
  transitionSnapshots : gmap planEventIdempotencyKey string;
  commands : gmap PlanCommandRef PlanCommandRecord;
  auditKeys : gmap AuditRef AuditRecord;
  metrics : gmap planMetricCheckpointKey PlanMetricCheckpoint;
}.

Definition NewMemoryPlanStore : MemoryPlanStore := {|
  specs := ∅; statuses := ∅; planKeys := ∅; events := ∅; eventKeys := ∅;
  transitionSnapshots := ∅; commands := ∅; auditKeys := ∅; metrics := ∅ |}.

(** [m[k]] for a map of structs: the zero value when absent. *)
Definition status_of (s : MemoryPlanStore) (planID : string) : RunPlanStatus :=
  default zero_RunPlanStatus (statuses s !! planID).

Definition startKey (spec : RunPlanSpec) : planStartKey :=
  StartKey (spec_AccountID spec) (spec_ProjectID spec) (spec_IdempotencyKey spec).

Definition err_route : go_error := Errorf ErrPlanRouteNotFound "%s".

(** ** Plans *)

(** [None] is "not found". *)
Definition lookupExistingPlanLocked (s : MemoryPlanStore) (key : planStartKey)
    (spec : RunPlanSpec) : result (option RunPlanStatus) :=
  match planKeys s !! key with
  | None => Ok None
  | Some existingPlanID =>
      let existingSpec := default zero_RunPlanSpec (specs s !! existingPlanID) in
      ValidatePlanStartIdempotency existingSpec spec;;
      Ok (Some (status_of s existingPlanID))
  end.

Definition lookupExistingPlanIDLocked (s : MemoryPlanStore) (spec : RunPlanSpec) :
    result (option RunPlanStatus) :=
  match specs s !! spec_PlanID spec with
  | None => Ok None
  | Some existingSpec =>
      ValidatePlanStartIdempotency existingSpec spec;;
      Ok (Some (status_of s (spec_PlanID spec)))
  end.

Definition validateMemoryCreatePlanInput (spec : option RunPlanSpec) : result RunPlanSpec :=
  match spec with
  | None => Err (Errorf ErrInvalidRunPlan "run plan spec is required")
  | Some spec =>
      fail_if (spec_PlanID spec == "") (Errorf ErrInvalidRunPlan "plan id is required");;
      fail_if (spec_IdempotencyKey spec == "")
        (Errorf ErrInvalidRunPlan "plan idempotency key is required");;
      Ok spec
  end.

Definition normalizeMemoryPlanStateSnapshot (now : time) (snapshot : option PlanStateSnapshot) :
    result PlanStateSnapshot :=
  match snapshot with
  | None => Err (Errorf ErrInvalidRunPlan "plan state snapshot is required")
  | Some snapshot =>
      let spec := snap_Spec snapshot in
      let status := snap_Status snapshot in
      ValidateRunPlanScope (Some spec);;
      fail_if (spec_IdempotencyKey spec == "")
        (Errorf ErrInvalidRunPlan "plan idempotency key is required");;
      Ok {| snap_Spec := {| spec with
              spec_RequestedAt := NormalizeDurableTimestamp (spec_RequestedAt spec) |};
            snap_Status := {| status with
              st_PlanID := if st_PlanID status == "" then spec_PlanID spec else st_PlanID status;
              st_UpdatedAt := if time_is_zero (st_UpdatedAt status) then now
                              else st_UpdatedAt status |} |}
  end.

Definition prepareMemoryCreatePlanSnapshot (now : time) (spec : RunPlanSpec)
    (status : option RunPlanStatus) : result PlanStateSnapshot :=
  match status with
  | None => Err (Errorf ErrInvalidRunPlan "plan status is required")
  | Some status =>
      normalizeMemoryPlanStateSnapshot now (Some {| snap_Spec := spec; snap_Status := status |})
  end.

Definition savePlanStateLocked (s : MemoryPlanStore) (snapshot : PlanStateSnapshot)
    (allowCreate : bool) : MemoryPlanStore * result unit :=
  let spec := snap_Spec snapshot in
  let check :=
    match specs s !! spec_PlanID spec with
    | Some existingSpec => ValidatePlanStateIdentity existingSpec spec
    | None => fail_if (negb allowCreate) err_route
    end;;
    match planKeys s !! startKey spec with
    | Some existingPlanID =>
        fail_if (existingPlanID != spec_PlanID spec)
          (Errorf ErrInvalidRunPlan "plan idempotency key belongs to plan %q")
    | None => Ok tt
    end in
  match check with
  | Err e => (s, Err e)
  | Ok _ =>
      ({| s with specs := <[spec_PlanID spec := spec]> (specs s);
                 statuses := <[spec_PlanID spec := snap_Status snapshot]> (statuses s);
                 planKeys := <[startKey spec := spec_PlanID spec]> (planKeys s) |}, Ok tt)
  end.

(** The section of [CreatePlan] under the write lock: status and whether created. *)
Definition createPlanSnapshot (s : MemoryPlanStore) (key : planStartKey) (spec : RunPlanSpec)
    (snapshot : PlanStateSnapshot) : MemoryPlanStore * result (RunPlanStatus * bool) :=
  match lookupExistingPlanLocked s key spec with
  | Err e => (s, Err e)
  | Ok (Some status) => (s, Ok (status, false))
  | Ok None =>
      match lookupExistingPlanIDLocked s spec with
      | Err e => (s, Err e)
      | Ok (Some status) => (s, Ok (status, false))
      | Ok None =>
          match savePlanStateLocked s snapshot true with
          | (s, Err e) => (s, Err e)
          | (s, Ok _) => (s, Ok (snap_Status snapshot, true))
          end
      end
  end.

(** The two sections under the read lock, [lookupExistingPlan] on [sKey] and
    [lookupExistingPlanByID] on [sID], and the preparation: an early answer, or the
    prepared snapshot. *)
Definition createPlan_precheck (now : time) (sKey sID : MemoryPlanStore) (spec : option RunPlanSpec)
    (status : option RunPlanStatus) : result (RunPlanStatus + RunPlanSpec * PlanStateSnapshot) :=
  spec ← validateMemoryCreatePlanInput spec;
  byKey ← lookupExistingPlanLocked sKey (startKey spec) spec;
  match byKey with
  | Some status => Ok (inl status)
  | None =>
      byID ← lookupExistingPlanIDLocked sID spec;
      match byID with
      | Some status => Ok (inl status)
      | None =>
          snapshot ← prepareMemoryCreatePlanSnapshot now spec status;
          Ok (inr (spec, snapshot))
      end
  end.

(** [CreatePlan] with the stores its three sections see; other operations may run in
    between. *)
Definition CreatePlan_between (now : time) (sKey sID s : MemoryPlanStore) (spec : option RunPlanSpec)
    (status : option RunPlanStatus) : MemoryPlanStore * result (RunPlanStatus * bool) :=
  match createPlan_precheck now sKey sID spec status with
  | Err e => (s, Err e)
  | Ok (inl status) => (s, Ok (status, false))
  | Ok (inr (spec, snapshot)) => createPlanSnapshot s (startKey spec) spec snapshot
  end.

Definition CreatePlan (now : time) (s : MemoryPlanStore) (spec : option RunPlanSpec)
    (status : option RunPlanStatus) : MemoryPlanStore * result (RunPlanStatus * bool) :=
  CreatePlan_between now s s s spec status.

Definition GetPlan (s : MemoryPlanStore) (planID : string) : option (RunPlanSpec * RunPlanStatus) :=
  spec ← specs s !! planID;
  Some (spec, status_of s planID).

Definition GetPlanByRef (s : MemoryPlanStore) (ref : PlanRef) :
    result (option (RunPlanSpec * RunPlanStatus)) :=
  ValidatePlanRef ref;;
  match specs s !! pref_PlanID ref with
  | None => Ok None
  | Some spec =>
      ValidatePlanTenantAccess ref (Some spec);;
      Ok (Some (spec, status_of s (pref_PlanID ref)))
  end.

Definition planLifecycleStateSet (states : list string) : result (gset string) :=
  foldM (λ set state,
    fail_if (state == "") (Errorf ErrInvalidPlanScope "lifecycle state is required");;
    Ok ({[state]} ∪ set)) ∅ states.

Definition memoryPlanRefMatchesScope (spec : RunPlanSpec) (status : RunPlanStatus)
    (scope : PlanRefScope) (lifecycleStates : gset string) : bool :=
  if (prs_AccountID scope != "") && (spec_AccountID spec != prs_AccountID scope) then false
  else if (prs_ProjectID scope != "") && (spec_ProjectID spec != prs_ProjectID scope) then false
  else if bool_decide (lifecycleStates ≠ ∅) &&
          negb (bool_decide (st_LifecycleState status ∈ lifecycleStates)) then false
  else time_is_zero (prs_UpdatedAfter scope) ||
       time_before (prs_UpdatedAfter scope) (st_UpdatedAt status).

(** By update time, then by plan id ("not (less y x)"). *)
Definition plan_ref_le (s : MemoryPlanStore) (x y : PlanRef) : Prop :=
  let left := st_UpdatedAt (status_of s (pref_PlanID x)) in
  let right := st_UpdatedAt (status_of s (pref_PlanID y)) in
  if decide (left = right) then String.le (pref_PlanID x) (pref_PlanID y) else (left < right)%Z.

#[global] Instance plan_ref_le_dec s : RelDecision (plan_ref_le s).
Proof. intros x y. unfold plan_ref_le. case_decide; apply _. Defined.

(** [refs[:limit]] when a positive limit is exceeded. *)
Definition limit_list {A} (limit : Z) (l : list A) : list A :=
  if ((0 <? limit) && (limit <? Z.of_nat (length l)))%Z then take (Z.to_nat limit) l else l.

Definition ListPlanRefs `{!SliceSort} (s : MemoryPlanStore) (scope : PlanRefScope) :
    result (list PlanRef) :=
  fail_if (prs_Limit scope <? 0)%Z
    (Errorf ErrInvalidPlanScope "plan ref limit must be non-negative");;
  lifecycleStates ← planLifecycleStateSet (prs_LifecycleStates scope);
  let refs :=
    (λ kv, {| pref_PlanID := spec_PlanID kv.2; pref_AccountID := spec_AccountID kv.2;
              pref_ProjectID := spec_ProjectID kv.2 |}) <$>
    filter (λ kv, memoryPlanRefMatchesScope kv.2 (status_of s kv.1) scope lifecycleStates = true)
      (map_to_list (specs s)) in
  Ok (limit_list (prs_Limit scope) (sort_slice (plan_ref_le s) refs)).

Definition SavePlanState (now : time) (s : MemoryPlanStore) (snapshot : option PlanStateSnapshot) :
    MemoryPlanStore * result unit :=
  match normalizeMemoryPlanStateSnapshot now snapshot with
  | Err e => (s, Err e)
  | Ok normalized => savePlanStateLocked s normalized false
  end.

Definition LoadPlanState (s : MemoryPlanStore) (planID : string) : option PlanStateSnapshot :=
  spec ← specs s !! planID;
  Some {| snap_Spec := spec; snap_Status := status_of s planID |}.

(** ** Events *)

Definition appendPlanEventLocked (now : time) (s : MemoryPlanStore) (event : PlanEvent)
    (idempotencyKey : string) : MemoryPlanStore * result PlanEvent :=
  match specs s !! ev_PlanID event with
  | None => (s, Err err_route)
  | Some spec =>
      match ScopePlanEventToSpec (Some event) (Some spec) with
      | Err e => (s, Err e)
      | Ok scoped =>
          let key := EventKey (ev_PlanID scoped) idempotencyKey in
          match eventKeys s !! key with
          | Some existing =>
              (s, ValidatePlanEventIdempotency existing scoped;; Ok existing)
          | None =>
              let sequence := Z.of_nat (length (get_list (events s) (ev_PlanID scoped)) + 1) in
              let stored := {| scoped with
                ev_Sequence := sequence;
                ev_EventID := ev_PlanID scoped +:+ ":" +:+ pretty sequence;
                ev_Timestamp := NormalizeDurableTimestamp
                                  (if time_is_zero (ev_Timestamp scoped) then now
                                   else ev_Timestamp scoped) |} in
              ({| s with events := push (events s) (ev_PlanID scoped) stored;
                         eventKeys := <[key := stored]> (eventKeys s) |}, Ok stored)
          end
      end
  end.

Definition AppendPlanEvent (now : time) (s : MemoryPlanStore) (event : option PlanEvent)
    (idempotencyKey : string) : MemoryPlanStore * result PlanEvent :=
  match event with
  | None => (s, Err (Errorf ErrInvalidPlanEvent "plan event is required"))
  | Some event =>
      if ev_PlanID event == "" then (s, Err (Errorf ErrInvalidPlanEvent "plan id is required"))
      else if idempotencyKey == "" then
        (s, Err (Errorf ErrInvalidPlanEvent "plan event idempotency key is required"))
      else appendPlanEventLocked now s (NormalizePlanEventAppendRequest event) idempotencyKey
  end.

Definition validateMemoryPlanTransitionInput (snapshot : PlanStateSnapshot)
    (event : option PlanEvent) (idempotencyKey : string) : result PlanEvent :=
  match event with
  | None => Err (Errorf ErrInvalidPlanEvent "plan event is required")
  | Some event =>
      fail_if (ev_PlanID event == "") (Errorf ErrInvalidPlanEvent "plan id is required");;
      fail_if (ev_PlanID event != spec_PlanID (snap_Spec snapshot))
        (Errorf ErrInvalidPlanEvent "event plan %q does not match snapshot plan %q");;
      fail_if (idempotencyKey == "")
        (Errorf ErrInvalidPlanEvent "plan event idempotency key is required");;
      Ok event
  end.

Definition validateMemoryPlanTransitionReplay (existing requested : PlanEvent)
    (existingDigest : string) (requestedIdentity : PlanTransitionSnapshotIdentity) : result unit :=
  ValidatePlanEventIdempotency existing requested;;
  ValidatePlanTransitionIdempotency existingDigest requestedIdentity.

(** The checks of [PersistPlanTransition] before it touches the store. *)
Definition transition_request `{!Sha256} (now : time) (snapshot : option PlanStateSnapshot)
    (event : option PlanEvent) (idempotencyKey : string) :
    result (PlanStateSnapshot * PlanTransitionSnapshotIdentity * PlanEvent) :=
  normalized ← normalizeMemoryPlanStateSnapshot now snapshot;
  event ← validateMemoryPlanTransitionInput normalized event idempotencyKey;
  identity ← NewPlanTransitionSnapshotIdentity normalized idempotencyKey;
  requested ← ScopePlanEventToSpec (Some (NormalizePlanEventAppendRequest event))
                (Some (snap_Spec normalized));
  Ok (normalized, identity, requested).

Definition PersistPlanTransition `{!Sha256} (now : time) (s : MemoryPlanStore)
    (snapshot : option PlanStateSnapshot) (event : option PlanEvent) (idempotencyKey : string) :
    MemoryPlanStore * result PlanEvent :=
  match transition_request now snapshot event idempotencyKey with
  | Err e => (s, Err e)
  | Ok (normalized, identity, requested) =>
      let key := EventKey (ev_PlanID requested) idempotencyKey in
      match eventKeys s !! key with
      | Some existing =>
          (s, validateMemoryPlanTransitionReplay existing requested
                (default "" (transitionSnapshots s !! key)) identity;;
              Ok existing)
      | None =>
          match savePlanStateLocked s normalized false with
          | (s, Err e) => (s, Err e)
          | (s, Ok _) =>
              match appendPlanEventLocked now s requested idempotencyKey with
              | (s, Err e) => (s, Err e)
              | (s, Ok stored) =>
                  ({| s with transitionSnapshots :=
                        <[key := ptsi_Digest identity]> (transitionSnapshots s) |}, Ok stored)
              end
          end
      end
  end.

Definition memoryPlanEventMatchesScope (event : PlanEvent) (scope : PlanStreamScope) : bool :=
  if (ev_Sequence event <=? ss_AfterSequence scope)%Z then false
  else if (ss_NodeID scope != "") && (ev_NodeID event != ss_NodeID scope) then false
  else (ss_RunID scope == "") || (ev_RunID event == ss_RunID scope).

(** The loop appends matching events until the limit is reached. *)
Fixpoint filter_events (events filtered : list PlanEvent) (scope : PlanStreamScope) (limit : Z) :
    list PlanEvent :=
  match events with
  | [] => filtered
  | event :: events =>
      if negb (memoryPlanEventMatchesScope event scope) then filter_events events filtered scope limit
      else
        let filtered := filtered ++ [event] in
        if ((0 <? limit) && (limit <=? Z.of_nat (length filtered)))%Z then filtered
        else filter_events events filtered scope limit
  end.

Definition filterMemoryPlanEvents (events : list PlanEvent) (scope : PlanStreamScope) (limit : Z) :
    list PlanEvent :=
  filter_events events [] scope limit.

Definition event_le (x y : PlanEvent) : Prop := (ev_Sequence x ≤ ev_Sequence y)%Z.

#[global] Instance event_le_dec : RelDecision event_le.
Proof. intros x y. unfold event_le. apply _. Defined.

Definition ListPlanEvents `{!SliceSort} (s : MemoryPlanStore) (scope : PlanStreamScope)
    (limit : Z) : result (list PlanEvent) :=
  ValidatePlanStreamScope (Some scope);;
  match specs s !! ss_PlanID scope with
  | None => Err err_route
  | Some spec =>
      ValidatePlanTenantAccess {| pref_PlanID := ss_PlanID scope; pref_AccountID := ss_AccountID scope;
                                  pref_ProjectID := ss_ProjectID scope |} (Some spec);;
      Ok (filterMemoryPlanEvents (sort_slice event_le (get_list (events s) (ss_PlanID scope)))
            scope limit)
  end.

(** ** Metric checkpoints *)

(** metrics_exporter.go *)
Definition ValidatePlanMetricCheckpointRef (checkpoint : PlanMetricCheckpoint)
    (exporterID : string) (ref : PlanRef) : result unit :=
  fail_if (exporterID == "") (Errorf ErrInvalidRunPlan "metrics exporter id is required");;
  ValidatePlanRef ref;;
  fail_if (cp_ExporterID checkpoint != exporterID)
    (Errorf ErrInvalidRunPlan "metrics checkpoint belongs to exporter %q");;
  fail_if (cp_PlanID checkpoint != pref_PlanID ref)
    (Errorf ErrInvalidRunPlan "metrics checkpoint belongs to plan %q");;
  fail_if (cp_AccountID checkpoint != pref_AccountID ref)
    (Errorf ErrInvalidRunPlan "metrics checkpoint belongs to account %q");;
  fail_if (cp_ProjectID checkpoint != pref_ProjectID ref)
    (Errorf ErrInvalidRunPlan "metrics checkpoint belongs to project %q");;
  fail_if (cp_Sequence checkpoint <? 0)%Z
    (Errorf ErrInvalidRunPlan "metrics checkpoint sequence must be non-negative").

Definition GetPlanMetricCheckpoint (s : MemoryPlanStore) (exporterID : string) (ref : PlanRef) :
    result (option PlanMetricCheckpoint) :=
  fail_if (exporterID == "") (Errorf ErrInvalidRunPlan "metrics exporter id is required");;
  ValidatePlanRef ref;;
  Ok (metrics s !! planMetricCheckpointKeyFromRef exporterID ref).

Definition SavePlanMetricCheckpoint (now : time) (s : MemoryPlanStore)
    (checkpoint : option PlanMetricCheckpoint) : MemoryPlanStore * result unit :=
  match checkpoint with
  | None => (s, Err (Errorf ErrInvalidRunPlan "metrics checkpoint is required"))
  | Some checkpoint =>
      let ref := {| pref_PlanID := cp_PlanID checkpoint; pref_AccountID := cp_AccountID checkpoint;
                    pref_ProjectID := cp_ProjectID checkpoint |} in
      let key := planMetricCheckpointKeyFromRef (cp_ExporterID checkpoint) ref in
      let check :=
        ValidatePlanMetricCheckpointRef checkpoint (cp_ExporterID checkpoint) ref;;
        match specs s !! cp_PlanID checkpoint with
        | None => Err err_route
        | Some spec =>
            fail_if ((spec_AccountID spec != cp_AccountID checkpoint) ||
                     (spec_ProjectID spec != cp_ProjectID checkpoint)) err_route
        end;;
        match metrics s !! key with
        | None => Ok tt
        | Some existing =>
            fail_if (cp_Sequence checkpoint <? cp_Sequence existing)%Z
              (Errorf ErrInvalidRunPlan
                 "metrics checkpoint sequence moved backward from %d to %d")
        end in
      match check with
      | Err e => (s, Err e)
      | Ok _ =>
          let stored := {| checkpoint with
            cp_UpdatedAt := if time_is_zero (cp_UpdatedAt checkpoint) then now
                            else cp_UpdatedAt checkpoint |} in
          ({| s with metrics := <[key := stored]> (metrics s) |}, Ok tt)
      end
  end.

(** ** Audit records *)

Definition required_fields (fields : list string) : result unit :=
  forM (λ value, fail_if (value == "") (Errorf ErrInvalidRunPlan "%s is required")) fields.

Definition validateMemoryAuditRecord (record : option AuditRecord) : result AuditRecord :=
  match record with
  | None => Err (Errorf ErrInvalidRunPlan "audit record is required")
  | Some record =>
      required_fields [aud_PlanID record; aud_Action record; aud_IdempotencyKey record];;
      Ok record
  end.

Definition prepareMemoryAuditRecord `{!Sha256} (now : time) (record : AuditRecord)
    (ref : AuditRef) : AuditRecord :=
  {| record with
     aud_AuditID := if aud_AuditID record == "" then AuditIDFromRef ref else aud_AuditID record;
     aud_CreatedAt := if time_is_zero (aud_CreatedAt record) then now else aud_CreatedAt record;
     aud_Payload := normalizeAuditPayload (aud_Payload record) |}.

(** The stored record and whether it is new. *)
Definition RecordAudit `{!Sha256} (now : time) (s : MemoryPlanStore) (record : option AuditRecord) :
    MemoryPlanStore * result (AuditRecord * bool) :=
  match validateMemoryAuditRecord record with
  | Err e => (s, Err e)
  | Ok record =>
      match specs s !! aud_PlanID record with
      | None => (s, Err err_route)
      | Some spec =>
          let stored := {| record with aud_AccountID := spec_AccountID spec;
                                       aud_ProjectID := spec_ProjectID spec |} in
          let ref := AuditRefFromRecord stored in
          match auditKeys s !! ref with
          | Some existing => (s, ValidateAuditIdempotency existing stored;; Ok (existing, false))
          | None =>
              match ValidateAuditNodeRunInPlan stored spec (status_of s (aud_PlanID stored)) with
              | Err e => (s, Err e)
              | Ok _ =>
                  let stored := prepareMemoryAuditRecord now stored ref in
                  ({| s with auditKeys := <[ref := stored]> (auditKeys s) |}, Ok (stored, true))
              end
          end
      end
  end.

Definition GetAuditRecord (s : MemoryPlanStore) (ref : AuditRef) : result (option AuditRecord) :=
  ValidateAuditRef ref;;
  Ok (auditKeys s !! ref).

Definition memoryAuditRecordMatchesScope (record : AuditRecord) (scope : PlanAuditScope) : bool :=
  if aud_PlanID record != aus_PlanID scope then false
  else if (aus_NodeID scope != "") && (aud_NodeID record != aus_NodeID scope) then false
  else if (aus_RunID scope != "") && (aud_RunID record != aus_RunID scope) then false
  else (aus_Action scope == "") || (aud_Action record == aus_Action scope).

Definition audit_le (x y : AuditRecord) : Prop :=
  if decide (aud_CreatedAt x = aud_CreatedAt y) then String.le (aud_AuditID x) (aud_AuditID y)
  else (aud_CreatedAt x < aud_CreatedAt y)%Z.

#[global] Instance audit_le_dec : RelDecision audit_le.
Proof. intros x y. unfold audit_le. case_decide; apply _. Defined.

Definition ListAuditRecords `{!SliceSort} (s : MemoryPlanStore) (scope : option PlanAuditScope) :
    result (list PlanAuditRecord) :=
  ValidatePlanAuditScope scope;;
  match scope with
  | None => Err (Errorf ErrInvalidPlanScope "plan audit scope is required")
  | Some scope =>
      match specs s !! aus_PlanID scope with
      | None => Err err_route
      | Some spec =>
          ValidatePlanTenantAccess
            {| pref_PlanID := aus_PlanID scope; pref_AccountID := aus_AccountID scope;
               pref_ProjectID := aus_ProjectID scope |} (Some spec);;
          let records := filter (λ r, memoryAuditRecordMatchesScope r scope = true)
                           ((map_to_list (auditKeys s)).*2) in
          Ok (PlanAuditRecordFromAuditRecord <$>
                limit_list (aus_Limit scope) (sort_slice audit_le records))
      end
  end.

(** ** Outbox commands *)

Definition validateMemoryPlanCommandRecord (command : option PlanCommandRecord) :
    result PlanCommandRecord :=
  match command with
  | None => Err (Errorf ErrInvalidRunPlan "command record is required")
  | Some command =>
      required_fields [cmd_PlanID command; cmd_Action command; cmd_IdempotencyKey command];;
      Ok command
  end.

Definition prepareMemoryPlanCommandRecord `{!Sha256} (now : time) (command : PlanCommandRecord)
    (ref : PlanCommandRef) : result PlanCommandRecord :=
  status ← NormalizeNewPlanCommandStatus (cmd_Status command);
  let createdAt := if time_is_zero (cmd_CreatedAt command) then now else cmd_CreatedAt command in
  Ok {| command with
        cmd_CommandID := if cmd_CommandID command == "" then PlanCommandIDFromRef ref
                         else cmd_CommandID command;
        cmd_Status := status;
        cmd_CreatedAt := createdAt;
        cmd_UpdatedAt := if time_is_zero (cmd_UpdatedAt command) then createdAt
                         else cmd_UpdatedAt command;
        cmd_Payload := normalizeAuditPayload (cmd_Payload command) |}.

Definition RecordPlanCommand `{!Sha256} (now : time) (s : MemoryPlanStore)
    (command : option PlanCommandRecord) : MemoryPlanStore * result (PlanCommandRecord * bool) :=
  match validateMemoryPlanCommandRecord command with
  | Err e => (s, Err e)
  | Ok command =>
      match specs s !! cmd_PlanID command with
      | None => (s, Err err_route)
      | Some spec =>
          let stored := {| command with cmd_AccountID := spec_AccountID spec;
                                        cmd_ProjectID := spec_ProjectID spec |} in
          let ref := PlanCommandRefFromRecord stored in
          match commands s !! ref with
          | Some existing =>
              (s, ValidatePlanCommandIdempotency existing stored;; Ok (existing, false))
          | None =>
              match prepareMemoryPlanCommandRecord now stored ref with
              | Err e => (s, Err e)
              | Ok stored =>
                  ({| s with commands := <[ref := stored]> (commands s) |}, Ok (stored, true))
              end
          end
      end
  end.

Definition GetPlanCommand (s : MemoryPlanStore) (ref : PlanCommandRef) :
    result (option PlanCommandRecord) :=
  ValidatePlanCommandRef ref;;
  Ok (commands s !! ref).

Definition memoryPlanCommandMatchesScope (command : PlanCommandRecord) (scope : PlanCommandScope)
    (statusSet : list string) : bool :=
  if (cmds_PlanID scope != "") && (cmd_PlanID command != cmds_PlanID scope) then false
  else if (cmds_AccountID scope != "") && (cmd_AccountID command != cmds_AccountID scope) then false
  else if (cmds_ProjectID scope != "") && (cmd_ProjectID command != cmds_ProjectID scope) then false
  else if (cmds_Action scope != "") && (cmd_Action command != cmds_Action scope) then false
  else bool_decide (cmd_Status command ∈ statusSet).

Definition command_le (x y : PlanCommandRecord) : Prop :=
  if decide (cmd_UpdatedAt x = cmd_UpdatedAt y) then String.le (cmd_CommandID x) (cmd_CommandID y)
  else (cmd_UpdatedAt x < cmd_UpdatedAt y)%Z.

#[global] Instance command_le_dec : RelDecision command_le.
Proof. intros x y. unfold command_le. case_decide; apply _. Defined.

Definition ListRecoverablePlanCommands `{!SliceSort} (s : MemoryPlanStore)
    (scope : PlanCommandScope) : result (list PlanCommandRecord) :=
  statuses ← RecoverablePlanCommandStatuses scope;
  let matching := filter (λ c, memoryPlanCommandMatchesScope c scope statuses = true)
                    ((map_to_list (commands s)).*2) in
  Ok (limit_list (cmds_Limit scope) (sort_slice command_le matching)).

(** A delivered command needs the audit record of the same envelope. *)
Definition delivered_audit_check (s : MemoryPlanStore) (command : PlanCommandRecord) :
    result unit :=
  match auditKeys s !! AuditRefFromRecord (AuditRecordFromPlanCommand command) with
  | None => Err (Errorf ErrInvalidRunPlan "delivered command requires durable audit %q")
  | Some audit => ValidatePlanCommandDeliveredAudit command audit
  end.

Definition updatePlanCommandStatus (now : time) (s : MemoryPlanStore) (ref : PlanCommandRef)
    (status reason : string) : MemoryPlanStore * result PlanCommandRecord :=
  let check :=
    ValidatePlanCommandRef ref;;
    match commands s !! ref with
    | None => Err (Errorf ErrInvalidRunPlan "command %q")
    | Some command =>
        ValidatePlanCommandStatusTransition (cmd_Status command) status;;
        (if status == PlanCommandDelivered then delivered_audit_check s command else Ok tt);;
        Ok {| command with cmd_Status := status; cmd_FailureReason := reason;
                           cmd_UpdatedAt := now |}
    end in
  match check with
  | Err e => (s, Err e)
  | Ok command => ({| s with commands := <[ref := command]> (commands s) |}, Ok command)
  end.

Definition MarkPlanCommandDelivered (now : time) (s : MemoryPlanStore) (ref : PlanCommandRef) :
    MemoryPlanStore * result PlanCommandRecord :=
  updatePlanCommandStatus now s ref PlanCommandDelivered "".

Definition MarkPlanCommandFailed (now : time) (s : MemoryPlanStore) (ref : PlanCommandRef)
    (reason : string) : MemoryPlanStore * result PlanCommandRecord :=
  updatePlanCommandStatus now s ref PlanCommandFailed reason.
