(* ===== verification/PlanStoreSpec.v ===== *)
(** * Correctness of the plan store

    The operations of [PlanStore] decompose into primitive updates; the updates keep
    an invariant and only extend the history.  From these: contiguous event streams,
    append-only history, exactly-once events and transitions, atomic transitions,
    tenant isolation, the outbox rule and the behaviour of a repeated start. *)

From stdpp Require Import pretty.
From S2P Require Import Prelude Types Graph Scope Json Idempotency PlanStore.

(** ** Steps of the store *)

(** One completed operation.  [CreatePlan] may have made its first checks on any
    other stores. *)
Inductive store_step `{!Sha256} (s : MemoryPlanStore) : MemoryPlanStore → Prop :=
  | step_create now sKey sID spec status :
      store_step s (CreatePlan_between now sKey sID s spec status).1
  | step_save now snapshot : store_step s (SavePlanState now s snapshot).1
  | step_persist now snapshot event key :
      store_step s (PersistPlanTransition now s snapshot event key).1
  | step_append now event key : store_step s (AppendPlanEvent now s event key).1
  | step_checkpoint now checkpoint : store_step s (SavePlanMetricCheckpoint now s checkpoint).1
  | step_audit now record : store_step s (RecordAudit now s record).1
  | step_command now command : store_step s (RecordPlanCommand now s command).1
  | step_delivered now ref : store_step s (MarkPlanCommandDelivered now s ref).1
  | step_failed now ref reason : store_step s (MarkPlanCommandFailed now s ref reason).1.

Definition store_reachable `{!Sha256} : MemoryPlanStore → Prop :=
  rtc store_step NewMemoryPlanStore.

(** The primitive updates the operations are made of. *)
Inductive update (s : MemoryPlanStore) : MemoryPlanStore → Prop :=
  | upd_none : update s s
  | upd_save snapshot create s' :
      savePlanStateLocked s snapshot create = (s', Ok tt) →
      ValidateRunPlanScope (Some (snap_Spec snapshot)) = Ok tt →
      spec_IdempotencyKey (snap_Spec snapshot) ≠ "" → update s s'
  | upd_append key e spec :
      specs s !! ev_PlanID e = Some spec → ev_AccountID e = spec_AccountID spec →
      ev_ProjectID e = spec_ProjectID spec →
      ev_Sequence e = Z.of_nat (length (get_list (events s) (ev_PlanID e)) + 1) →
      ev_EventID e = ev_PlanID e +:+ ":" +:+ pretty (ev_Sequence e) →
      eventKeys s !! EventKey (ev_PlanID e) key = None →
      update s {| s with events := push (events s) (ev_PlanID e) e;
                         eventKeys := <[EventKey (ev_PlanID e) key := e]> (eventKeys s) |}
  | upd_transition k d e :
      eventKeys s !! k = Some e → transitionSnapshots s !! k = None → d ≠ "" →
      update s {| s with transitionSnapshots := <[k := d]> (transitionSnapshots s) |}
  | upd_checkpoint k cp :
      (∀ old, metrics s !! k = Some old → (cp_Sequence old ≤ cp_Sequence cp)%Z) →
      update s {| s with metrics := <[k := cp]> (metrics s) |}
  | upd_audit a spec :
      auditKeys s !! AuditRefFromRecord a = None →
      specs s !! aud_PlanID a = Some spec → aud_AccountID a = spec_AccountID spec →
      aud_ProjectID a = spec_ProjectID spec →
      update s {| s with auditKeys := <[AuditRefFromRecord a := a]> (auditKeys s) |}
  | upd_command c spec :
      commands s !! PlanCommandRefFromRecord c = None → cmd_Status c = PlanCommandPending →
      specs s !! cmd_PlanID c = Some spec → cmd_AccountID c = spec_AccountID spec →
      cmd_ProjectID c = spec_ProjectID spec →
      update s {| s with commands := <[PlanCommandRefFromRecord c := c]> (commands s) |}
  | upd_status ref c status reason now :
      commands s !! ref = Some c →
      ValidatePlanCommandStatusTransition (cmd_Status c) status = Ok tt →
      (status = PlanCommandDelivered → delivered_audit_check s c = Ok tt) →
      update s {| s with commands := <[ref := {| c with cmd_Status := status;
                    cmd_FailureReason := reason; cmd_UpdatedAt := now |}]> (commands s) |}.

Lemma normalize_Ok now snapshot normalized :
  normalizeMemoryPlanStateSnapshot now snapshot = Ok normalized →
  ValidateRunPlanScope (Some (snap_Spec normalized)) = Ok tt ∧
  spec_IdempotencyKey (snap_Spec normalized) ≠ "".
Proof.
  unfold normalizeMemoryPlanStateSnapshot. destruct snapshot as [snapshot|]; [|done].
  intros ([] & Hscope & ([] & Hkey & [= <-])%bind_Ok)%bind_Ok. cbn [snap_Spec].
  split; [exact Hscope|]. apply fail_if_Ok in Hkey. by simplify_bool.
Qed.

Lemma savePlanStateLocked_result s snapshot create s' r :
  savePlanStateLocked s snapshot create = (s', r) → r = Ok tt ∨ s' = s ∧ ∃ e, r = Err e.
Proof. unfold savePlanStateLocked. case_match; intros [= <- <-]; eauto. Qed.

(** The event as it is stored. *)
Definition stored_event (now : time) (sequence : Z) (scoped : PlanEvent) : PlanEvent :=
  {| scoped with
     ev_Sequence := sequence;
     ev_EventID := ev_PlanID scoped +:+ ":" +:+ pretty sequence;
     ev_Timestamp := NormalizeDurableTimestamp
                       (if time_is_zero (ev_Timestamp scoped) then now else ev_Timestamp scoped) |}.

Lemma ScopePlanEventToSpec_iff event spec scoped :
  ScopePlanEventToSpec (Some event) (Some spec) = Ok scoped ↔
  ValidateRunPlanScope (Some spec) = Ok tt ∧ ev_PlanID event ≠ "" ∧
  ev_PlanID event = spec_PlanID spec ∧
  (ev_AccountID event = "" ∨ ev_AccountID event = spec_AccountID spec) ∧
  (ev_ProjectID event = "" ∨ ev_ProjectID event = spec_ProjectID spec) ∧
  scoped = {| event with ev_AccountID := spec_AccountID spec; ev_ProjectID := spec_ProjectID spec |}.
Proof.
  unfold ScopePlanEventToSpec. destruct (ValidateRunPlanScope (Some spec)) as [[]|] eqn:Hv; cbn; [|naive_solver].
  repeat case_bool_decide; cbn; naive_solver.
Qed.

Lemma ScopePlanEventToSpec_Ok event spec scoped :
  ScopePlanEventToSpec (Some event) (Some spec) = Ok scoped →
  scoped = {| event with ev_AccountID := spec_AccountID spec; ev_ProjectID := spec_ProjectID spec |} ∧
  ev_PlanID event = spec_PlanID spec.
Proof. rewrite ScopePlanEventToSpec_iff. naive_solver. Qed.

Lemma appendPlanEventLocked_result now s event key s' r :
  appendPlanEventLocked now s event key = (s', r) →
  s' = s ∧ (∀ e, r = Ok e → eventKeys s !! EventKey (ev_PlanID event) key = Some e) ∨
  ∃ e spec scoped, r = Ok e ∧ eventKeys s !! EventKey (ev_PlanID e) key = None ∧
    specs s !! ev_PlanID e = Some spec ∧ ScopePlanEventToSpec (Some event) (Some spec) = Ok scoped ∧
    ev_PlanID e = ev_PlanID event ∧
    e = stored_event now (Z.of_nat (length (get_list (events s) (ev_PlanID event)) + 1)) scoped ∧
    s' = {| s with events := push (events s) (ev_PlanID e) e;
                   eventKeys := <[EventKey (ev_PlanID e) key := e]> (eventKeys s) |}.
Proof.
  unfold appendPlanEventLocked. destruct (specs s !! ev_PlanID event) as [spec|] eqn:Hspec; [|naive_solver].
  destruct (ScopePlanEventToSpec _ _) as [scoped|] eqn:Hscope; [|naive_solver].
  pose proof (ScopePlanEventToSpec_Ok _ _ _ Hscope) as [-> _].
  destruct (eventKeys s !! _) as [existing|] eqn:Hkey; intros [= <- <-]; [left|right].
  { split; [done|]. intros e He. apply bind_Ok in He as (u & _ & He). by injection He as <-. }
  eexists _, spec, _. by split_and!.
Qed.

Lemma createPlanSnapshot_update s key spec snapshot :
  ValidateRunPlanScope (Some (snap_Spec snapshot)) = Ok tt →
  spec_IdempotencyKey (snap_Spec snapshot) ≠ "" →
  update s (createPlanSnapshot s key spec snapshot).1.
Proof.
  intros Hscope Hkey. unfold createPlanSnapshot.
  destruct (lookupExistingPlanLocked s key spec) as [[?|]|]; cbn; try apply upd_none.
  destruct (lookupExistingPlanIDLocked s spec) as [[?|]|]; cbn; try apply upd_none.
  destruct (savePlanStateLocked s snapshot true) as [s' r] eqn:Hsave.
  destruct (savePlanStateLocked_result _ _ _ _ _ Hsave) as [->|[-> [e ->]]]; [|apply upd_none].
  by eapply upd_save.
Qed.

Lemma appendPlanEventLocked_update now s event key :
  update s (appendPlanEventLocked now s event key).1.
Proof.
  destruct (appendPlanEventLocked now s event key) as [s' r] eqn:Ha.
  destruct (appendPlanEventLocked_result _ _ _ _ _ _ Ha)
    as [[-> _]|(e & spec & scoped & -> & Hk & Hs & [Hsc _]%ScopePlanEventToSpec_Ok & Hp & He & ->)];
    [apply upd_none|].
  eapply upd_append; [exact Hs|..]; rewrite ?Hp; subst e scoped; done.
Qed.

(** ** The invariant of the store *)

Record store_ok (s : MemoryPlanStore) : Prop := {
  so_spec : ∀ pid spec, specs s !! pid = Some spec →
    spec_PlanID spec = pid ∧ ValidateRunPlanScope (Some spec) = Ok tt ∧
    spec_IdempotencyKey spec ≠ "" ∧
    planKeys s !! startKey spec = Some pid ∧ is_Some (statuses s !! pid);
  so_key : ∀ k pid, planKeys s !! k = Some pid → ∃ spec, specs s !! pid = Some spec ∧ startKey spec = k;
  so_event : ∀ pid i e, get_list (events s) pid !! i = Some e →
    ev_Sequence e = Z.of_nat (i + 1) ∧ ev_PlanID e = pid ∧
    ev_EventID e = pid +:+ ":" +:+ pretty (ev_Sequence e) ∧
    ∃ spec, specs s !! pid = Some spec ∧ ev_AccountID e = spec_AccountID spec ∧
      ev_ProjectID e = spec_ProjectID spec;
  so_event_key : ∀ pid e, e ∈ get_list (events s) pid ↔
    ∃ key, eventKeys s !! EventKey pid key = Some e;
  so_event_key_inj : ∀ pid k1 k2 e, eventKeys s !! EventKey pid k1 = Some e →
    eventKeys s !! EventKey pid k2 = Some e → k1 = k2;
  so_transition : ∀ k d, transitionSnapshots s !! k = Some d → is_Some (eventKeys s !! k) ∧ d ≠ "";
  so_audit : ∀ ref a, auditKeys s !! ref = Some a → AuditRefFromRecord a = ref ∧
    ∃ spec, specs s !! aud_PlanID a = Some spec ∧ aud_AccountID a = spec_AccountID spec ∧
      aud_ProjectID a = spec_ProjectID spec;
  so_command : ∀ ref c, commands s !! ref = Some c → PlanCommandRefFromRecord c = ref ∧
    cmd_Status c ∈ [PlanCommandPending; PlanCommandDelivered; PlanCommandFailed] ∧
    (cmd_Status c = PlanCommandDelivered → delivered_audit_check s c = Ok tt) ∧
    ∃ spec, specs s !! cmd_PlanID c = Some spec ∧ cmd_AccountID c = spec_AccountID spec ∧
      cmd_ProjectID c = spec_ProjectID spec;
}.

Lemma store_ok_new : store_ok NewMemoryPlanStore.
Proof.
  split; cbn; try (intros *; by rewrite ?lookup_empty).
  intros pid e. unfold get_list. setoid_rewrite lookup_empty. cbn. rewrite elem_of_nil. naive_solver.
Qed.

(** The tenant of a plan. *)
Definition tenant (spec : RunPlanSpec) : string * string := (spec_AccountID spec, spec_ProjectID spec).

Lemma envelope_startKey s1 s2 : envelope s1 = envelope s2 → startKey s1 = startKey s2.
Proof. unfold envelope, startKey. intros [=]. congruence. Qed.

Lemma envelope_tenant s1 s2 :
  envelope s1 = envelope s2 →
  spec_AccountID s1 = spec_AccountID s2 ∧ spec_ProjectID s1 = spec_ProjectID s2.
Proof. unfold envelope. intros [=]. done. Qed.

(** What saving a snapshot does. *)
Lemma savePlanStateLocked_Ok s snapshot create s' :
  savePlanStateLocked s snapshot create = (s', Ok tt) →
  let spec := snap_Spec snapshot in
  s' = {| s with specs := <[spec_PlanID spec := spec]> (specs s);
                 statuses := <[spec_PlanID spec := snap_Status snapshot]> (statuses s);
                 planKeys := <[startKey spec := spec_PlanID spec]> (planKeys s) |} ∧
  (∀ old, specs s !! spec_PlanID spec = Some old → envelope old = envelope spec ∧
     ∀ node, node ∈ spec_Nodes old → node_NodeID node ∈ node_NodeID <$> spec_Nodes spec) ∧
  (∀ pid, planKeys s !! startKey spec = Some pid → pid = spec_PlanID spec) ∧
  (specs s !! spec_PlanID spec = None → create = true).
Proof.
  unfold savePlanStateLocked. cbv zeta.
  destruct (_ ≫= _) as [u|] eqn:Hcheck; intros [= <-].
  apply bind_Ok in Hcheck as ([] & Hold & Hkey). split_and!; [done|..].
  - intros old Ho. rewrite Ho in Hold. by apply ValidatePlanStateIdentity_Ok.
  - intros pid Hpid. rewrite Hpid in Hkey. apply fail_if_Ok in Hkey. by simplify_bool.
  - intros Hn. rewrite Hn in Hold. apply fail_if_Ok in Hold. by simplify_bool.
Qed.


(** ** Every step keeps the invariant *)

Section update_ok.
Context (s s' : MemoryPlanStore) (Hok : store_ok s).

Lemma update_save_ok snapshot create :
  savePlanStateLocked s snapshot create = (s', Ok tt) →
  ValidateRunPlanScope (Some (snap_Spec snapshot)) = Ok tt →
  spec_IdempotencyKey (snap_Spec snapshot) ≠ "" → store_ok s'.
Proof.
  intros (-> & Hold & Hkeys & _)%savePlanStateLocked_Ok Hscope Hik.
  destruct snapshot as [spec st]. cbn in *.
  assert (∀ pid old, specs s !! pid = Some old → ∃ new,
    <[spec_PlanID spec := spec]> (specs s) !! pid = Some new ∧
    spec_AccountID new = spec_AccountID old ∧ spec_ProjectID new = spec_ProjectID old) as Hsame.
  { intros pid old Ho. destruct (decide (spec_PlanID spec = pid)) as [<-|Hn].
    - exists spec. rewrite lookup_insert_eq. split; [done|].
      destruct (Hold _ Ho) as [[? ?]%envelope_tenant _]. done.
    - exists old. by rewrite lookup_insert_ne. }
  split; cbn.
  - intros pid sp [[<- <-]|[Hne Hl]]%lookup_insert_Some.
    + split_and!; [done..| |]; rewrite lookup_insert_eq; eauto.
    + destruct (so_spec _ Hok _ _ Hl) as (? & ? & ? & Hk & ?). split_and!; [done..| |].
      * rewrite lookup_insert_ne; [done|]. intros Heq. rewrite <-Heq in Hk.
        by apply Hkeys in Hk.
      * by rewrite lookup_insert_ne.
  - intros k pid [[<- <-]|[Hne Hl]]%lookup_insert_Some.
    + exists spec. by rewrite lookup_insert_eq.
    + destruct (so_key _ Hok _ _ Hl) as (sp & Hsp & Hk).
      destruct (decide (spec_PlanID spec = pid)) as [Heq|Hn].
      * subst pid. destruct (Hold _ Hsp) as [He%envelope_startKey _]. congruence.
      * exists sp. by rewrite lookup_insert_ne.
  - intros pid i e Hi. destruct (so_event _ Hok _ _ _ Hi) as (? & ? & ? & old & Ho & Ha & Hp).
    destruct (Hsame _ _ Ho) as (new & Hnew & Hna & Hnp). split_and!; [done..|].
    exists new. by rewrite Hna, Hnp.
  - apply (so_event_key _ Hok).
  - apply (so_event_key_inj _ Hok).
  - apply (so_transition _ Hok).
  - intros ref a Ha. destruct (so_audit _ Hok _ _ Ha) as (? & old & Ho & ? & ?).
    destruct (Hsame _ _ Ho) as (new & Hnew & Hna & Hnp). split; [done|]. exists new. by rewrite Hna, Hnp.
  - intros ref c Hc. destruct (so_command _ Hok _ _ Hc) as (? & ? & ? & old & Ho & ? & ?).
    destruct (Hsame _ _ Ho) as (new & Hnew & Hna & Hnp). split_and!; [done..|].
    exists new. by rewrite Hna, Hnp.
Qed.

Lemma update_append_ok key e spec :
  specs s !! ev_PlanID e = Some spec → ev_AccountID e = spec_AccountID spec →
  ev_ProjectID e = spec_ProjectID spec →
  ev_Sequence e = Z.of_nat (length (get_list (events s) (ev_PlanID e)) + 1) →
  ev_EventID e = ev_PlanID e +:+ ":" +:+ pretty (ev_Sequence e) →
  eventKeys s !! EventKey (ev_PlanID e) key = None →
  store_ok {| s with events := push (events s) (ev_PlanID e) e;
                     eventKeys := <[EventKey (ev_PlanID e) key := e]> (eventKeys s) |}.
Proof.
  intros Hspec Ha Hp Hseq Hid Hkey.
  assert (e ∉ get_list (events s) (ev_PlanID e)) as Hfresh.
  { intros [i Hi]%list_elem_of_lookup. pose proof (lookup_lt_Some _ _ _ Hi).
    destruct (so_event _ Hok _ _ _ Hi) as [Hs _]. lia. }
  split; cbn; try apply Hok.
  - intros pid i e'. rewrite get_list_push. case_decide as Heq; [|apply (so_event _ Hok)].
    subst pid. rewrite lookup_app_Some, list_lookup_singleton_Some.
    intros [Hi|(Hlen & Hi & <-)]; [by apply (so_event _ Hok)|].
    split_and!; [rewrite Hseq; lia|done..|]. by exists spec.
  - intros pid e'. rewrite get_list_push. case_decide as Heq.
    + subst pid. rewrite elem_of_app, list_elem_of_singleton, (so_event_key _ Hok).
      split.
      * intros [[k Hk]| ->]; [|exists key; by rewrite lookup_insert_eq].
        exists k. rewrite lookup_insert_ne; [done|]. congruence.
      * intros [k [[_ ->]|[_ Hk]]%lookup_insert_Some]; eauto.
    + rewrite (so_event_key _ Hok). split; intros [k Hk]; exists k.
      * rewrite lookup_insert_ne; [done|]. congruence.
      * apply lookup_insert_Some in Hk as [[[= ]]|[_ Hk]]; congruence.
  - intros pid k1 k2 e'. rewrite !lookup_insert_Some.
    intros [[Hk1 He1]|[H1 K1]] [[Hk2 He2]|[H2 K2]].
    + congruence.
    + destruct Hfresh. apply (so_event_key _ Hok). exists k2. congruence.
    + destruct Hfresh. apply (so_event_key _ Hok). exists k1. congruence.
    + by eapply so_event_key_inj.
  - intros k d Hd. destruct (so_transition _ Hok _ _ Hd) as [? ?]. split; [|done].
    destruct (decide (EventKey (ev_PlanID e) key = k)) as [<-|]; [rewrite lookup_insert_eq; eauto|].
    by rewrite lookup_insert_ne.
Qed.
End update_ok.

Lemma delivered_audit_check_mono s s' c :
  auditKeys s ⊆ auditKeys s' → delivered_audit_check s c = Ok tt → delivered_audit_check s' c = Ok tt.
Proof.
  unfold delivered_audit_check. intros Hsub. destruct (auditKeys s !! _) eqn:Hl; [|done].
  by rewrite (lookup_weaken _ _ _ _ Hl Hsub).
Qed.

Lemma update_ok s s' : store_ok s → update s s' → store_ok s'.
Proof.
  intros Hok [| | |k d e Hk Hn Hd|k cp Hcp|a spec Hn Hs Ha Hp|c spec Hn Hst Hs Ha Hp
             |ref c status reason now Hc Htr Hdel];
    [done|by eapply update_save_ok|by eapply update_append_ok|..].
  - split; cbn; try apply Hok. intros k' d' [[<- <-]|[_ Hl]]%lookup_insert_Some; [eauto|].
    by apply (so_transition _ Hok).
  - split; cbn; apply Hok.
  - split; cbn; try apply Hok.
    + intros ref a' [[<- <-]|[_ Hl]]%lookup_insert_Some; [eauto|]. by apply (so_audit _ Hok).
    + intros ref c Hc. destruct (so_command _ Hok _ _ Hc) as (? & ? & Hd & ?). split_and!; [done..| |done].
      intros Hst. eapply delivered_audit_check_mono; [|by apply Hd]. cbn. by apply insert_subseteq.
  - split; cbn; try apply Hok. intros ref c' [[<- <-]|[_ Hl]]%lookup_insert_Some.
    + split_and!; [done| | |eauto]; rewrite Hst; [by left|done].
    + by apply (so_command _ Hok).
  - split; cbn; try apply Hok. intros ref' c' [[<- <-]|[_ Hl]]%lookup_insert_Some.
    + destruct (so_command _ Hok _ _ Hc) as (? & ? & ? & ?).
      apply ValidatePlanCommandStatusTransition_iff in Htr as (_ & ? & _).
      split_and!; [done..| |done]. exact Hdel.
    + by apply (so_command _ Hok).
Qed.

(** ** Operations as sequences of updates *)

Lemma transition_request_Ok `{!Sha256} now snapshot event key normalized identity requested :
  transition_request now snapshot event key = Ok (normalized, identity, requested) →
  ∃ ev, event = Some ev ∧ key ≠ "" ∧
  normalizeMemoryPlanStateSnapshot now snapshot = Ok normalized ∧
  NewPlanTransitionSnapshotIdentity normalized key = Ok identity ∧
  ScopePlanEventToSpec (Some (NormalizePlanEventAppendRequest ev)) (Some (snap_Spec normalized)) =
    Ok requested.
Proof.
  unfold transition_request. intros Hr. apply bind_Ok in Hr as (n & Hn & Hr).
  apply bind_Ok in Hr as (e & He & Hr). apply bind_Ok in Hr as (i & Hi & Hr).
  apply bind_Ok in Hr as (r & Hs & [= <- <- <-]). unfold validateMemoryPlanTransitionInput in He.
  destruct event as [ev|]; [|done]. apply bind_Ok in He as ([] & _ & He).
  apply bind_Ok in He as ([] & _ & He). apply bind_Ok in He as ([] & Hk & [= <-]).
  apply fail_if_Ok in Hk. simplify_bool. eauto 10.
Qed.

Lemma ScopePlanEventToSpec_idemp event spec scoped :
  ScopePlanEventToSpec (Some event) (Some spec) = Ok scoped →
  ScopePlanEventToSpec (Some scoped) (Some spec) = Ok scoped.
Proof.
  rewrite !ScopePlanEventToSpec_iff. intros (? & ? & ? & _ & _ & ->). cbn. split_and!; auto.
Qed.

(** An event with a new key, already scoped to its plan, is always stored. *)
Lemma appendPlanEventLocked_fresh now s event key spec :
  specs s !! ev_PlanID event = Some spec →
  ScopePlanEventToSpec (Some event) (Some spec) = Ok event →
  eventKeys s !! EventKey (ev_PlanID event) key = None →
  ∃ s' stored, appendPlanEventLocked now s event key = (s', Ok stored).
Proof.
  intros Hs Hsc Hk. unfold appendPlanEventLocked. rewrite Hs, Hsc. cbv zeta. rewrite Hk. eauto.
Qed.

Lemma PersistPlanTransition_cases `{!Sha256} now s snapshot event key :
  let r := PersistPlanTransition now s snapshot event key in
  (r.1 = s ∧ ∀ e, r.2 = Ok e → ∃ normalized identity requested,
     transition_request now snapshot event key = Ok (normalized, identity, requested) ∧
     eventKeys s !! EventKey (ev_PlanID requested) key = Some e ∧
     validateMemoryPlanTransitionReplay e requested
       (default "" (transitionSnapshots s !! EventKey (ev_PlanID requested) key)) identity = Ok tt) ∨
  ∃ normalized identity requested s1 s2 stored,
    transition_request now snapshot event key = Ok (normalized, identity, requested) ∧
    eventKeys s !! EventKey (ev_PlanID requested) key = None ∧
    savePlanStateLocked s normalized false = (s1, Ok tt) ∧
    appendPlanEventLocked now s1 requested key = (s2, Ok stored) ∧
    r.1 = {| s2 with transitionSnapshots :=
               <[EventKey (ev_PlanID requested) key := ptsi_Digest identity]> (transitionSnapshots s2) |} ∧
    r.2 = Ok stored.
Proof.
  unfold PersistPlanTransition. destruct (transition_request _ _ _ _) as [[[n i] rq]|] eqn:Hr; [|by left].
  destruct (eventKeys s !! _) as [existing|] eqn:Hk.
  { left. split; [done|]. intros e He. apply bind_Ok in He as ([] & Hv & He). injection He as <-.
    by exists n, i, rq. }
  destruct (savePlanStateLocked s n false) as [s1 r1] eqn:Hs.
  destruct (savePlanStateLocked_result _ _ _ _ _ Hs) as [->|[-> [e ->]]];
    [|by left].
  destruct (appendPlanEventLocked now s1 rq key) as [s2 [stored|e]] eqn:Ha; cbn.
  - right. by exists n, i, rq, s1, s2, stored.
  - apply transition_request_Ok in Hr as (ev & _ & _ & _ & _ & Hsc).
    destruct (appendPlanEventLocked_fresh now s1 rq key (snap_Spec n)) as (s2' & stored & Heq); [..|congruence].
    + apply savePlanStateLocked_Ok in Hs as [-> _]. cbn.
      apply ScopePlanEventToSpec_Ok in Hsc as [-> Hp]. cbn in *. rewrite Hp. by rewrite lookup_insert_eq.
    + by eapply ScopePlanEventToSpec_idemp.
    + by apply savePlanStateLocked_Ok in Hs as [-> _].
Qed.

Lemma updatePlanCommandStatus_update now s ref status reason :
  rtc update s (updatePlanCommandStatus now s ref status reason).1.
Proof.
  apply rtc_once. unfold updatePlanCommandStatus. cbv zeta.
  destruct (_ ≫= _) as [c'|] eqn:Hc; [|apply upd_none]. apply bind_Ok in Hc as ([] & _ & Hc).
  destruct (commands s !! ref) as [c|] eqn:Hl; [|done]. apply bind_Ok in Hc as ([] & Ht & Hc).
  apply bind_Ok in Hc as ([] & Hd & [= <-]). apply upd_status; [done..|].
  intros ->. exact Hd.
Qed.

Lemma CreatePlan_between_update now sKey sID s spec status :
  rtc update s (CreatePlan_between now sKey sID s spec status).1.
Proof.
  apply rtc_once. unfold CreatePlan_between.
  destruct (createPlan_precheck now sKey sID spec status) as [[?|[sp snapshot]]|] eqn:Hpre;
    cbn; try apply upd_none.
  unfold createPlan_precheck in Hpre. apply bind_Ok in Hpre as (sp' & _ & Hpre).
  apply bind_Ok in Hpre as ([?|] & _ & Hpre); [done|].
  apply bind_Ok in Hpre as ([?|] & _ & Hpre); [done|].
  apply bind_Ok in Hpre as (sn & Hsn & [= <- <-]). unfold prepareMemoryCreatePlanSnapshot in Hsn.
  destruct status; [|done]. apply normalize_Ok in Hsn as [??]. by apply createPlanSnapshot_update.
Qed.

Lemma PersistPlanTransition_updates `{!Sha256} now s snapshot event key :
  store_ok s → rtc update s (PersistPlanTransition now s snapshot event key).1.
Proof.
  intros Hok. destruct (PersistPlanTransition_cases now s snapshot event key)
    as [[-> _]|(normalized & identity & requested & s1 & s2 & stored & Hreq & Hk & Hsave & Happ & -> & _)];
    [done|].
  apply transition_request_Ok in Hreq as (ev & _ & _ & Hn & Hi & Hsc).
  assert (ptsi_Digest identity ≠ "") as Hd.
  { unfold NewPlanTransitionSnapshotIdentity in Hi. apply bind_Ok in Hi as ([] & _ & Hi).
    by apply bind_Ok in Hi as (j & _ & [= <-]). }
  apply normalize_Ok in Hn as [Hscope Hik].
  pose proof (savePlanStateLocked_Ok _ _ _ _ Hsave) as (Hs1 & _).
  assert (eventKeys s1 = eventKeys s ∧ transitionSnapshots s1 = transitionSnapshots s) as [He1 Ht1]
    by by rewrite Hs1.
  destruct (appendPlanEventLocked_result _ _ _ _ _ _ Happ)
    as [[_ Hx]|(e & spec & scoped & [= <-] & Hk' & Hs' & _ & Hp' & He & Hs2)].
  { specialize (Hx _ eq_refl). congruence. }
  eapply rtc_l; [by eapply upd_save|]. eapply rtc_l.
  { pose proof (appendPlanEventLocked_update now s1 requested key) as Hu. rewrite Happ in Hu. exact Hu. }
  apply rtc_once. eapply upd_transition; [|rewrite Hs2; cbn; rewrite Ht1|done].
  - rewrite Hs2. cbn. rewrite Hp'. by rewrite lookup_insert_eq.
  - destruct (transitionSnapshots s !! _) eqn:Ht; [|done].
    apply (so_transition _ Hok) in Ht as [[? Hx] _]. congruence.
Qed.

Lemma RecordAudit_update `{!Sha256} now s record : rtc update s (RecordAudit now s record).1.
Proof.
  apply rtc_once. unfold RecordAudit. destruct (validateMemoryAuditRecord record) as [rec|]; [|apply upd_none].
  destruct (specs s !! aud_PlanID rec) as [spec|] eqn:Hs; [|apply upd_none]. cbv zeta.
  destruct (auditKeys s !! _) eqn:Hl; [apply upd_none|].
  destruct (ValidateAuditNodeRunInPlan _ _ _); [|apply upd_none].
  cbn [fst]. exact (upd_audit s (prepareMemoryAuditRecord now _ _) spec Hl Hs eq_refl eq_refl).
Qed.

Lemma RecordPlanCommand_update `{!Sha256} now s command :
  rtc update s (RecordPlanCommand now s command).1.
Proof.
  apply rtc_once. unfold RecordPlanCommand.
  destruct (validateMemoryPlanCommandRecord command) as [c|]; [|apply upd_none].
  destruct (specs s !! cmd_PlanID c) as [spec|] eqn:Hs; [|apply upd_none]. cbv zeta.
  destruct (commands s !! _) eqn:Hl; [apply upd_none|].
  destruct (prepareMemoryPlanCommandRecord _ _ _) as [stored|] eqn:Hp; [|apply upd_none].
  unfold prepareMemoryPlanCommandRecord in Hp. apply bind_Ok in Hp as (st & Hst & [= <-]).
  assert (st = PlanCommandPending) as ->.
  { unfold NormalizeNewPlanCommandStatus in Hst. destruct (_ == ""); [congruence|].
    apply bind_Ok in Hst as ([] & Hf & [= <-]). apply fail_if_Ok in Hf. by simplify_bool. }
  match goal with |- update _ (?t, _).1 => cbn [fst] end.
  match goal with |- update _ {| commands := <[_ := ?c']> _ |} =>
    exact (upd_command s c' spec Hl eq_refl Hs eq_refl eq_refl) end.
Qed.

Lemma store_step_updates `{!Sha256} s s' : store_ok s → store_step s s' → rtc update s s'.
Proof.
  intros Hok [now sKey sID spec status|now snapshot|now snapshot event key|now event key|now cp|now record
             |now command|now ref|now ref reason].
  - apply CreatePlan_between_update.
  - apply rtc_once. unfold SavePlanState.
    destruct (normalizeMemoryPlanStateSnapshot now snapshot) as [normalized|] eqn:Hn; [|apply upd_none].
    apply normalize_Ok in Hn as [??].
    destruct (savePlanStateLocked s normalized false) as [s1 r] eqn:Hsave.
    destruct (savePlanStateLocked_result _ _ _ _ _ Hsave) as [->|[-> [e ->]]]; [|apply upd_none].
    by eapply upd_save.
  - by apply PersistPlanTransition_updates.
  - apply rtc_once. unfold AppendPlanEvent. destruct event; [|apply upd_none].
    do 2 (case_match; [apply upd_none|]). apply appendPlanEventLocked_update.
  - apply rtc_once. unfold SavePlanMetricCheckpoint. destruct cp as [cp|]; [|apply upd_none]. cbv zeta.
    destruct (_ ≫= _) as [[]|] eqn:Hc; [|apply upd_none]. apply upd_checkpoint. intros old Ho. cbn.
    apply bind_Ok in Hc as (_ & _ & Hc). apply bind_Ok in Hc as (_ & _ & Hc).
    rewrite Ho in Hc. apply fail_if_Ok in Hc. lia.
  - apply RecordAudit_update.
  - apply RecordPlanCommand_update.
  - apply updatePlanCommandStatus_update.
  - apply updatePlanCommandStatus_update.
Qed.

(** ** History only grows *)

(** What may become of a command: the same request, a later status. *)
Definition command_later (c c' : PlanCommandRecord) : Prop :=
  c' = {| c with cmd_Status := cmd_Status c'; cmd_FailureReason := cmd_FailureReason c';
                 cmd_UpdatedAt := cmd_UpdatedAt c' |} ∧
  (cmd_Status c = PlanCommandDelivered → cmd_Status c' = PlanCommandDelivered) ∧
  (cmd_Status c' = PlanCommandPending → cmd_Status c = PlanCommandPending).

Record store_extends (s s' : MemoryPlanStore) : Prop := {
  se_spec : ∀ pid spec, specs s !! pid = Some spec → ∃ spec',
    specs s' !! pid = Some spec' ∧ envelope spec' = envelope spec ∧
    ∀ id, id ∈ node_NodeID <$> spec_Nodes spec → id ∈ node_NodeID <$> spec_Nodes spec';
  se_planKeys : planKeys s ⊆ planKeys s';
  se_events : ∀ pid, get_list (events s) pid `prefix_of` get_list (events s') pid;
  se_eventKeys : eventKeys s ⊆ eventKeys s';
  se_transitions : transitionSnapshots s ⊆ transitionSnapshots s';
  se_auditKeys : auditKeys s ⊆ auditKeys s';
  se_commands : ∀ ref c, commands s !! ref = Some c →
    ∃ c', commands s' !! ref = Some c' ∧ command_later c c';
  se_metrics : ∀ k cp, metrics s !! k = Some cp →
    ∃ cp', metrics s' !! k = Some cp' ∧ (cp_Sequence cp ≤ cp_Sequence cp')%Z;
}.

#[global] Instance command_later_preorder : PreOrder command_later.
Proof.
  split; [by intros []|]. intros c1 c2 c3 (H1 & H2 & H3) (K1 & K2 & K3). split_and!; [|by auto..].
  rewrite K1, H1. done.
Qed.

#[global] Instance store_extends_preorder : PreOrder store_extends.
Proof.
  split.
  - intros s. split; try done; [by eauto|by intros ref c Hc; exists c|].
    intros k cp Hcp. by exists cp.
  - intros s1 s2 s3 A B. split; try (etrans; [apply A|apply B]).
    + intros pid spec (spec2 & (spec3 & ? & ? & ?)%(se_spec _ _ B) & ? & ?)%(se_spec _ _ A).
      exists spec3. split_and!; [done|congruence|auto].
    + intros ref c (c2 & (c3 & ? & ?)%(se_commands _ _ B) & ?)%(se_commands _ _ A).
      exists c3. split; [done|by etrans].
    + intros k c (c2 & (c3 & ? & ?)%(se_metrics _ _ B) & ?)%(se_metrics _ _ A).
      exists c3. split; [done|lia].
Qed.

Lemma store_extends_refl s : store_extends s s.
Proof. done. Qed.

Lemma update_extends s s' : store_ok s → update s s' → store_extends s s'.
Proof.
  intros Hok [|snapshot create s1 Hsave _ _|key e spec Hs _ _ _ _ Hk|k d e Hk Hn Hd|k cp Hcp|a spec Hn Hs Ha Hp
             |c spec Hn Hst Hs Ha Hp|ref c status reason now Hc Htr Hdel]; [done|..].
  - apply savePlanStateLocked_Ok in Hsave as (-> & Hold & Hkeys & _).
    destruct (store_extends_refl s). split; cbn; try done.
    + intros pid sp Hsp. destruct (decide (spec_PlanID (snap_Spec snapshot) = pid)) as [<-|Hne].
      * rewrite lookup_insert_eq. eexists. split; [done|]. destruct (Hold _ Hsp) as [-> Hids].
        split; [done|]. intros id (node & -> & Hn)%list_elem_of_fmap. by apply Hids.
      * rewrite lookup_insert_ne by done. eauto.
    + apply map_subseteq_spec. intros k pid Hl.
      destruct (decide (startKey (snap_Spec snapshot) = k)) as [<-|]; [|by rewrite lookup_insert_ne].
      rewrite lookup_insert_eq. f_equal. symmetry. by apply Hkeys.
  - destruct (store_extends_refl s). split; cbn; try done.
    + intros pid. rewrite get_list_push. case_decide as Heq; [subst; by apply prefix_app_r|done].
    + by apply insert_subseteq.
  - destruct (store_extends_refl s). split; cbn; try done. by apply insert_subseteq.
  - destruct (store_extends_refl s). split; cbn; try done. intros k' cp' Hl.
    destruct (decide (k = k')) as [<-|]; [|rewrite lookup_insert_ne by done; eauto].
    rewrite lookup_insert_eq. eauto.
  - destruct (store_extends_refl s). split; cbn; try done. by apply insert_subseteq.
  - destruct (store_extends_refl s). split; cbn; try done. intros ref c' Hl. exists c'.
    rewrite lookup_insert_ne; [done|]. congruence.
  - destruct (store_extends_refl s). split; cbn; try done. intros ref' c' Hl.
    destruct (decide (ref = ref')) as [<-|]; [|rewrite lookup_insert_ne by done; eauto].
    rewrite lookup_insert_eq. eexists. split; [done|]. assert (c' = c) as -> by congruence.
    apply ValidatePlanCommandStatusTransition_iff in Htr as (_ & _ & Htr).
    unfold command_later. cbn. naive_solver.
Qed.

Lemma updates_extend s s' : store_ok s → rtc update s s' → store_ok s' ∧ store_extends s s'.
Proof.
  intros Hok Hr. induction Hr as [|s1 s2 s3 Hu _ IH]; [done|].
  pose proof (update_ok _ _ Hok Hu) as Hok2. destruct (IH Hok2) as [Hok3 He].
  split; [done|]. etrans; [|exact He]. by apply update_extends.
Qed.

Lemma steps_extend `{!Sha256} s s' : store_ok s → rtc store_step s s' → store_ok s' ∧ store_extends s s'.
Proof.
  intros Hok Hr. induction Hr as [|s1 s2 s3 Hu _ IH]; [done|].
  destruct (updates_extend s1 s2) as [Hok2 He2]; [done|by apply store_step_updates|].
  destruct (IH Hok2) as [Hok3 He]. split; [done|]. by etrans.
Qed.

Lemma reachable_ok `{!Sha256} s : store_reachable s → store_ok s.
Proof. intros Hr. by eapply steps_extend; [apply store_ok_new|]. Qed.

(** ** Exactly-once events *)

(** Scoping reads the envelope of the plan only. *)
Lemma ScopePlanEventToSpec_envelope event s1 s2 :
  envelope s1 = envelope s2 →
  ScopePlanEventToSpec (Some event) (Some s1) = ScopePlanEventToSpec (Some event) (Some s2).
Proof.
  unfold envelope. intros [= Hp _ Ha Hpr _ _ _]. unfold ScopePlanEventToSpec, ValidateRunPlanScope.
  by rewrite Hp, Ha, Hpr.
Qed.

(** The request with key [key] was answered with [e]: it is stored, and the request
    passes the replay check against it. *)
Definition answered (s : MemoryPlanStore) (event : PlanEvent) (key : string) (e : PlanEvent) : Prop :=
  eventKeys s !! EventKey (ev_PlanID event) key = Some e ∧
  ∃ spec scoped, specs s !! ev_PlanID event = Some spec ∧
    ScopePlanEventToSpec (Some event) (Some spec) = Ok scoped ∧
    ValidatePlanEventIdempotency e scoped = Ok tt.

Lemma answered_replay now s event key e :
  answered s event key e → appendPlanEventLocked now s event key = (s, Ok e).
Proof.
  intros (Hk & spec & scoped & Hs & Hsc & Hv). unfold appendPlanEventLocked.
  rewrite Hs, Hsc. cbv zeta. apply ScopePlanEventToSpec_Ok in Hsc as [Heq _].
  assert (ev_PlanID scoped = ev_PlanID event) as -> by by rewrite Heq.
  rewrite Hk, Hv. done.
Qed.

Lemma answered_extends s s' event key e :
  store_extends s s' → answered s event key e → answered s' event key e.
Proof.
  intros Hext (Hk & spec & scoped & Hs & Hsc & Hv).
  destruct (se_spec _ _ Hext _ _ Hs) as (spec' & Hs' & Henv & _).
  split; [by eapply lookup_weaken; [|apply Hext]|]. exists spec', scoped.
  by rewrite (ScopePlanEventToSpec_envelope _ _ _ Henv).
Qed.

Lemma stored_event_identity now n event :
  planEventIdempotencyIdentity (stored_event now n event) = planEventIdempotencyIdentity event.
Proof. done. Qed.

(** A request as the store normalizes it. *)
Definition normalized_request (event : PlanEvent) : Prop :=
  ev_EventID event = "" ∧ ev_Sequence event = 0%Z ∧
  NormalizeDurableTimestamp (ev_Timestamp event) = ev_Timestamp event.

Lemma stored_event_replay now n event :
  normalized_request event → supported (planEventIdempotencyIdentity event) = true →
  ValidatePlanEventIdempotency (stored_event now n event) event = Ok tt.
Proof.
  intros (Hid & Hseq & Ht) Hs. unfold ValidatePlanEventIdempotency.
  rewrite Hid, Hseq, stored_event_identity. cbn -[time_is_zero sameTime same_json].
  destruct (time_is_zero (ev_Timestamp event)) eqn:Hz; cbn -[sameTime same_json].
  - by apply same_json_Ok.
  - rewrite Ht, sameTime_refl. cbn -[same_json]. by apply same_json_Ok.
Qed.

(** What a successful append leaves behind. *)
Lemma appendPlanEventLocked_answered now s event key s' e :
  normalized_request event → appendPlanEventLocked now s event key = (s', Ok e) →
  supported (planEventIdempotencyIdentity e) = true → answered s' event key e.
Proof.
  intros Hnorm. unfold appendPlanEventLocked.
  destruct (specs s !! ev_PlanID event) as [spec|] eqn:Hs; [|done].
  destruct (ScopePlanEventToSpec _ _) as [scoped|] eqn:Hsc; [|done]. cbv zeta.
  pose proof (ScopePlanEventToSpec_Ok _ _ _ Hsc) as [Heq _].
  assert (ev_PlanID scoped = ev_PlanID event) as -> by by rewrite Heq.
  assert (normalized_request scoped) as Hnorm' by by rewrite Heq.
  destruct (eventKeys s !! _) as [existing|] eqn:Hk.
  - intros Heqr Hsup. injection Heqr as <- Hr. apply bind_Ok in Hr as ([] & Hv & Hr). injection Hr as <-.
    split; [done|]. by exists spec, scoped.
  - intros Heqr Hsup. injection Heqr as <- <-. split; cbn; [by rewrite lookup_insert_eq|].
    exists spec, scoped. split_and!; [done..|].
    replace (ev_PlanID event) with (ev_PlanID scoped) by by rewrite Heq.
    by apply (stored_event_replay now _ scoped).
Qed.

Lemma NormalizePlanEventAppendRequest_normalized event :
  normalized_request (NormalizePlanEventAppendRequest event).
Proof. split_and!; [done..|]. apply NormalizeDurableTimestamp_idemp. Qed.

Lemma AppendPlanEvent_locked now s event key s' e :
  AppendPlanEvent now s event key = (s', Ok e) →
  ∃ ev, event = Some ev ∧ ∀ now' s2, AppendPlanEvent now' s2 event key =
    appendPlanEventLocked now' s2 (NormalizePlanEventAppendRequest ev) key.
Proof.
  unfold AppendPlanEvent. destruct event as [ev|]; [|done].
  destruct (ev_PlanID ev == ""); [done|]. destruct (key == ""); [done|]. eauto.
Qed.

(** ** Exactly-once transitions *)

Lemma transition_request_now `{!Sha256} now now' snapshot event key :
  st_UpdatedAt (snap_Status snapshot) ≠ zero_time →
  transition_request now (Some snapshot) event key = transition_request now' (Some snapshot) event key.
Proof.
  intros Hz. unfold transition_request, normalizeMemoryPlanStateSnapshot.
  unfold time_is_zero. by rewrite !(bool_decide_eq_false_2 _ Hz).
Qed.

Lemma transition_requested_normalized `{!Sha256} now snapshot event key normalized identity requested :
  transition_request now snapshot event key = Ok (normalized, identity, requested) →
  normalized_request requested ∧
  ScopePlanEventToSpec (Some requested) (Some (snap_Spec normalized)) = Ok requested ∧
  ptsi_Digest identity ≠ "".
Proof.
  intros (ev & _ & _ & _ & Hi & Hsc)%transition_request_Ok. split_and!.
  - apply ScopePlanEventToSpec_Ok in Hsc as [-> _].
    apply (NormalizePlanEventAppendRequest_normalized ev).
  - by eapply ScopePlanEventToSpec_idemp.
  - unfold NewPlanTransitionSnapshotIdentity in Hi. apply bind_Ok in Hi as ([] & _ & Hi).
    by apply bind_Ok in Hi as (j & _ & [= <-]).
Qed.

Lemma ValidatePlanTransitionIdempotency_Ok digest identity :
  ValidatePlanTransitionIdempotency digest identity = Ok tt ↔
  digest ≠ "" ∧ digest = ptsi_Digest identity.
Proof.
  unfold ValidatePlanTransitionIdempotency. repeat case_bool_decide; cbn; naive_solver.
Qed.

Lemma appendPlanEventLocked_specs now s event key s' r :
  appendPlanEventLocked now s event key = (s', r) → specs s' = specs s ∧ statuses s' = statuses s.
Proof.
  intros [[-> _]|(e & spec & scoped & _ & _ & _ & _ & _ & _ & ->)]%appendPlanEventLocked_result; done.
Qed.

(** What a successful transition leaves behind. *)
Lemma PersistPlanTransition_answered `{!Sha256} now s snapshot event key s' e :
  PersistPlanTransition now s snapshot event key = (s', Ok e) →
  supported (planEventIdempotencyIdentity e) = true →
  ∃ normalized identity requested,
    transition_request now snapshot event key = Ok (normalized, identity, requested) ∧
    eventKeys s' !! EventKey (ev_PlanID requested) key = Some e ∧
    ValidatePlanEventIdempotency e requested = Ok tt ∧
    transitionSnapshots s' !! EventKey (ev_PlanID requested) key = Some (ptsi_Digest identity).
Proof.
  intros Hp Hsup. destruct (PersistPlanTransition_cases now s snapshot event key)
    as [[Hs Hcase]|(n & i & rq & s1 & s2 & stored & Hreq & Hk & Hsave & Happ & Hs' & Hr)];
    rewrite Hp in *; cbn in *.
  - subst s'. destruct (Hcase e eq_refl) as (n & i & rq & Hreq & Hk & Hv). exists n, i, rq.
    unfold validateMemoryPlanTransitionReplay in Hv.
    apply bind_Ok in Hv as ([] & Hv & [Hd Hd']%ValidatePlanTransitionIdempotency_Ok).
    split_and!; [done..|]. rewrite <-Hd'. destruct (transitionSnapshots s !! _); done.
  - injection Hr as <-. exists n, i, rq. split; [done|].
    pose proof (transition_requested_normalized _ _ _ _ _ _ _ Hreq) as (Hn & Hsc & _).
    destruct (appendPlanEventLocked_answered _ _ _ _ _ _ Hn Happ Hsup)
      as (Hke & spec & scoped & Hspec & Hsc' & Hv).
    subst s'. cbn. rewrite lookup_insert_eq. split_and!; [done| |done].
    assert (specs s2 !! ev_PlanID rq = Some (snap_Spec n)) as Hn'.
    { apply savePlanStateLocked_Ok in Hsave as [-> _].
      apply ScopePlanEventToSpec_Ok in Hsc as [_ Hpid]. rewrite Hpid.
      apply appendPlanEventLocked_specs in Happ as [-> _]. cbn. by rewrite lookup_insert_eq. }
    assert (spec = snap_Spec n) as -> by congruence. rewrite Hsc in Hsc'. by injection Hsc' as <-.
Qed.

(** ** Reads *)

Lemma sort_slice_id `{!SliceSort} {A} (R : relation A) `{!RelDecision R, !Total R, !Transitive R} l :
  (∀ x y, x ∈ l → y ∈ l → R x y → R y x → x = y) → Sorted R l → sort_slice R l = l.
Proof.
  intros Hanti Hs. apply (StronglySorted_unique_strong R).
  - intros x y. rewrite !elem_of_sort_slice. auto.
  - apply Sorted_StronglySorted; [done|]. by apply sort_slice_sorted.
  - by apply Sorted_StronglySorted.
  - apply sort_slice_perm.
Qed.

Lemma Sorted_lookup {A} (R : relation A) l :
  (∀ i x y, l !! i = Some x → l !! S i = Some y → R x y) → Sorted R l.
Proof.
  induction l as [|x [|y l] IH]; intros Hl; [constructor|by repeat constructor|]. constructor.
  - apply IH. intros i. apply (Hl (S i)).
  - constructor. by apply (Hl 0).
Qed.

#[global] Instance event_le_total : Total event_le.
Proof. intros x y. unfold event_le. lia. Qed.
#[global] Instance event_le_trans : Transitive event_le.
Proof. intros x y z. unfold event_le. lia. Qed.

Lemma stream_lookup s pid i e :
  store_ok s → get_list (events s) pid !! i = Some e → ev_Sequence e = Z.of_nat (i + 1).
Proof. intros Hok Hi. by apply (so_event _ Hok) in Hi as [? _]. Qed.

Lemma stream_sorted `{!SliceSort} s pid :
  store_ok s → sort_slice event_le (get_list (events s) pid) = get_list (events s) pid.
Proof.
  intros Hok. apply sort_slice_id; try apply _.
  - intros x y [i Hi]%list_elem_of_lookup [j Hj]%list_elem_of_lookup.
    pose proof (stream_lookup _ _ _ _ Hok Hi). pose proof (stream_lookup _ _ _ _ Hok Hj).
    unfold event_le. intros. assert (i = j) as -> by lia. congruence.
  - apply Sorted_lookup. intros i x y Hx Hy. unfold event_le.
    rewrite (stream_lookup _ _ _ _ Hok Hx), (stream_lookup _ _ _ _ Hok Hy). lia.
Qed.

(** The loop with its early exit. *)
Lemma filter_events_spec l acc scope limit :
  (limit ≤ 0 ∨ Z.of_nat (length acc) < limit)%Z →
  let matching := filter (λ e, memoryPlanEventMatchesScope e scope = true) l in
  filter_events l acc scope limit =
  acc ++ (if (0 <? limit)%Z then take (Z.to_nat limit - length acc) matching else matching).
Proof.
  cbv zeta. revert acc. induction l as [|e l IH]; intros acc Hlen; cbn [filter_events].
  { rewrite filter_nil, take_nil. by destruct (0 <? limit)%Z; rewrite app_nil_r. }
  rewrite filter_cons. destruct (memoryPlanEventMatchesScope e scope) eqn:Hm; cbn [negb].
  - rewrite decide_True by done. rewrite length_app. cbn [length].
    destruct (Z.ltb_spec 0 limit) as [Hpos|Hpos]; cbn [andb].
    + destruct (Z.leb_spec limit (Z.of_nat (length acc + 1))) as [Hfull|Hfull].
      * replace (Z.to_nat limit - length acc) with 1 by lia. done.
      * rewrite IH by (rewrite length_app; cbn; lia). rewrite length_app, <-app_assoc. cbn.
        replace (Z.to_nat limit - length acc) with (S (Z.to_nat limit - (length acc + 1))) by lia. done.
    + rewrite IH by lia. by rewrite <-app_assoc.
  - rewrite decide_False by done. by apply IH.
Qed.

(** The events after a cursor are a suffix of the stream. *)
Lemma filter_after s pid scope :
  store_ok s → ss_NodeID scope = "" → ss_RunID scope = "" → (0 ≤ ss_AfterSequence scope)%Z →
  filter (λ e, memoryPlanEventMatchesScope e scope = true) (get_list (events s) pid) =
  drop (Z.to_nat (ss_AfterSequence scope)) (get_list (events s) pid).
Proof.
  intros Hok Hn Hr Ha. unfold memoryPlanEventMatchesScope. rewrite Hn, Hr. cbn.
  assert (∀ k l, (∀ i e, l !! i = Some e → ev_Sequence e = Z.of_nat (k + i + 1)) →
    filter (λ e, (if ev_Sequence e <=? ss_AfterSequence scope then false else true)%Z = true) l =
    drop (Z.to_nat (ss_AfterSequence scope) - k) l) as Hgen.
  { intros k l. revert k. induction l as [|e l IH]; intros k Hl; [by rewrite drop_nil|].
    pose proof (Hl 0 e eq_refl) as He. rewrite filter_cons.
    assert (∀ i e, l !! i = Some e → ev_Sequence e = Z.of_nat (S k + i + 1)) as Hl'.
    { intros i e' Hi. rewrite (Hl (S i) e' Hi). lia. }
    destruct (Z.leb_spec (ev_Sequence e) (ss_AfterSequence scope)) as [Hle|Hle].
    - rewrite decide_False by done.
      replace (Z.to_nat (ss_AfterSequence scope) - k)
        with (S (Z.to_nat (ss_AfterSequence scope) - S k)) by lia. by apply IH.
    - rewrite decide_True by done.
      replace (Z.to_nat (ss_AfterSequence scope) - k) with 0 by lia. cbn. f_equal.
      rewrite (IH (S k) Hl'). replace (Z.to_nat (ss_AfterSequence scope) - S k) with 0 by lia. done. }
  rewrite (Hgen 0); [by rewrite Nat.sub_0_r|].
  intros i e Hi. rewrite (stream_lookup _ _ _ _ Hok Hi). lia.
Qed.

(** ** A concrete plan *)

Module StoreSample.
#[local] Instance sha : Sha256 := {| sha256_hex _ := "00ff" |}.

Definition spec : RunPlanSpec := {| zero_RunPlanSpec with
  spec_PlanID := "plan-1"; spec_AccountID := "acct"; spec_ProjectID := "proj";
  spec_IdempotencyKey := "start-1"; spec_RequestedAt := 5000000%Z;
  spec_Nodes := [{| zero_PlanNodeSpec with node_NodeID := "a" |}] |}.
Definition status : RunPlanStatus := {| zero_RunPlanStatus with
  st_PlanID := "plan-1"; st_LifecycleState := "running"; st_UpdatedAt := 7000000%Z |}.
Definition event : PlanEvent := {|
  ev_EventID := ""; ev_EventType := "plan.started"; ev_RunID := ""; ev_ProcessID := "";
  ev_ThreadID := ""; ev_Sequence := 0%Z; ev_Timestamp := 6000123%Z; ev_Source := "";
  ev_Payload := None; ev_PlanID := "plan-1"; ev_AccountID := ""; ev_ProjectID := "";
  ev_NodeID := ""; ev_ExternalEventID := "" |}.
Definition audit : AuditRecord := {|
  aud_AuditID := ""; aud_PlanID := "plan-1"; aud_AccountID := ""; aud_ProjectID := "";
  aud_RunID := ""; aud_NodeID := ""; aud_ActorID := "alice"; aud_Action := AuditActionPlanSignal;
  aud_IdempotencyKey := "sig-1"; aud_Payload := None; aud_CreatedAt := 8000000%Z |}.
Definition command : PlanCommandRecord := {|
  cmd_CommandID := ""; cmd_PlanID := "plan-1"; cmd_AccountID := ""; cmd_ProjectID := "";
  cmd_ActorID := "alice"; cmd_Action := AuditActionPlanSignal; cmd_IdempotencyKey := "sig-1";
  cmd_Payload := None; cmd_Status := ""; cmd_FailureReason := ""; cmd_CreatedAt := 8000000%Z;
  cmd_UpdatedAt := zero_time |}.
Definition ref : PlanCommandRef := {|
  cmdr_PlanID := "plan-1"; cmdr_AccountID := "acct"; cmdr_ProjectID := "proj";
  cmdr_IdempotencyKey := "sig-1" |}.

Definition now : time := 9000000%Z.
Definition s1 := (CreatePlan now NewMemoryPlanStore (Some spec) (Some status)).1.
Definition s2 := (AppendPlanEvent now s1 (Some event) "ev-1").1.
Definition snapshot : PlanStateSnapshot := {| snap_Spec := spec; snap_Status := status |}.
Definition done_event : PlanEvent := {| event with ev_EventType := "plan.completed" |}.
Definition s3 := (PersistPlanTransition now s2 (Some snapshot) (Some done_event) "ev-2").1.
Definition s4 := (RecordPlanCommand now s3 (Some command)).1.
Definition s5 := (RecordAudit now s4 (Some audit)).1.
Definition s6 := (MarkPlanCommandDelivered now s5 ref).1.

Lemma s1_reachable : store_reachable s1.
Proof. apply rtc_once. exact (step_create _ now NewMemoryPlanStore NewMemoryPlanStore (Some spec) (Some status)). Qed.
Lemma s2_reachable : store_reachable s2.
Proof. eapply rtc_r; [exact s1_reachable|exact (step_append _ now _ _)]. Qed.
Lemma s3_reachable : store_reachable s3.
Proof. eapply rtc_r; [exact s2_reachable|exact (step_persist _ now _ _ _)]. Qed.
Lemma s3_s6 : rtc store_step s3 s6.
Proof.
  eapply rtc_l; [exact (step_command _ now (Some command))|].
  eapply rtc_l; [exact (step_audit _ now (Some audit))|].
  apply rtc_once. exact (step_delivered _ now ref).
Qed.
Lemma s6_reachable : store_reachable s6.
Proof. unfold store_reachable. etrans; [exact s3_reachable|exact s3_s6]. Qed.
End StoreSample.

(** ** Theorems *)

(** In every reachable store the event stream of a plan is numbered 1, 2, 3, ...
    without gaps, every event carries the plan's id, an id derived from its number and
    the plan's tenant, and the stored events are exactly the events the idempotency
    keys of the plan point to, one key per event. *)
Theorem event_streams `{!Sha256} s pid :
  store_reachable s →
  (∀ i e, get_list (events s) pid !! i = Some e →
     ev_Sequence e = Z.of_nat (i + 1) ∧ ev_PlanID e = pid ∧
     ev_EventID e = pid +:+ ":" +:+ pretty (ev_Sequence e) ∧
     ∃ spec, specs s !! pid = Some spec ∧ ev_AccountID e = spec_AccountID spec ∧
       ev_ProjectID e = spec_ProjectID spec) ∧
  (∀ e, e ∈ get_list (events s) pid ↔ exists! key, eventKeys s !! EventKey pid key = Some e).
Proof.
  intros Hok%reachable_ok. split; [apply (so_event _ Hok)|].
  intros e. rewrite (so_event_key _ Hok). split; intros [k Hk]; exists k.
  - split; [done|]. intros k' Hk'. by eapply so_event_key_inj.
  - apply Hk.
Qed.

Lemma event_streams_witness :
  store_reachable (H := StoreSample.sha) StoreSample.s3 ∧
  ∀ i e, get_list (events StoreSample.s3) "plan-1" !! i = Some e → ev_Sequence e = Z.of_nat (i + 1).
Proof.
  split; [exact StoreSample.s3_reachable|].
  pose proof (event_streams StoreSample.s3 "plan-1" StoreSample.s3_reachable) as [Hs _].
  intros i e Hi. exact (proj1 (Hs i e Hi)).
Defined.

(** History is append-only.  Whatever operations run after a reachable store, a
    stored plan keeps its envelope and its nodes, the event stream it had is a prefix
    of the later one, event keys, transition digests, audit records and start keys
    keep their values, a command keeps its request, stays delivered once delivered and
    never returns to pending, and metric checkpoints never move backward. *)
Theorem history_append_only `{!Sha256} s s' :
  store_reachable s → rtc store_step s s' → store_extends s s'.
Proof. intros Hok%reachable_ok Hr. by eapply steps_extend. Qed.

Lemma history_append_only_witness :
  store_extends StoreSample.s3 StoreSample.s6 ∧
  length (get_list (events StoreSample.s3) "plan-1") = 2.
Proof.
  split; [|vm_compute; reflexivity].
  exact (history_append_only (H := StoreSample.sha) _ _ StoreSample.s3_reachable StoreSample.s3_s6).
Defined.

(** C37: an event is appended exactly once.  Repeating a successful append after any
    further operations returns the same event and leaves the store unchanged (the
    payload must be one [json.Marshal] accepts). *)
Theorem append_exactly_once `{!Sha256} now now' s event key s1 e s2 :
  store_reachable s → AppendPlanEvent now s event key = (s1, Ok e) →
  supported (planEventIdempotencyIdentity e) = true → rtc store_step s1 s2 →
  AppendPlanEvent now' s2 event key = (s2, Ok e).
Proof.
  intros Hok%reachable_ok Ha Hsup Hr.
  assert (store_ok s1) as Hok1.
  { eapply steps_extend; [exact Hok|]. apply rtc_once.
    replace s1 with (AppendPlanEvent now s event key).1 by by rewrite Ha. constructor. }
  destruct (AppendPlanEvent_locked _ _ _ _ _ _ Ha) as (ev & -> & Heq). rewrite Heq in Ha |- *.
  apply answered_replay. eapply answered_extends; [by eapply steps_extend|].
  eapply appendPlanEventLocked_answered; [|exact Ha|done].
  apply NormalizePlanEventAppendRequest_normalized.
Qed.

Lemma append_exactly_once_witness :
  ∃ e, AppendPlanEvent 1%Z StoreSample.s6 (Some StoreSample.event) "ev-1" = (StoreSample.s6, Ok e).
Proof.
  eexists.
  refine (append_exactly_once (H := StoreSample.sha) StoreSample.now 1%Z StoreSample.s1
            (Some StoreSample.event) "ev-1" StoreSample.s2 _ StoreSample.s6
            StoreSample.s1_reachable _ _ _).
  - vm_compute. reflexivity.
  - vm_compute. reflexivity.
  - eapply rtc_l; [exact (step_persist StoreSample.s2 StoreSample.now (Some StoreSample.snapshot)
                      (Some StoreSample.done_event) "ev-2")|].
    exact StoreSample.s3_s6.
Defined.

(** ** Access *)

Lemma ValidatePlanTenantAccess_iff ref spec :
  ValidatePlanTenantAccess ref (Some spec) = Ok tt ↔
  (pref_PlanID ref ≠ "" ∧ pref_AccountID ref ≠ "" ∧ pref_ProjectID ref ≠ "") ∧
  spec_PlanID spec = pref_PlanID ref ∧ spec_AccountID spec = pref_AccountID ref ∧
  spec_ProjectID spec = pref_ProjectID ref.
Proof.
  rewrite <-(ValidatePlanRef_Ok ref tt). unfold ValidatePlanTenantAccess.
  destruct (ValidatePlanRef ref) as [[]|]; cbn; [|naive_solver].
  repeat case_bool_decide; cbn; naive_solver.
Qed.

(** C39: a transition is atomic.  When [PersistPlanTransition] fails the store is
    unchanged, also when the failure comes after the snapshot was accepted; when it
    succeeds either the key was already used and the store is unchanged, or the
    snapshot, exactly one event and the snapshot's digest are stored together. *)
Theorem transition_atomic `{!Sha256} now s snapshot event key :
  let '(s', r) := PersistPlanTransition now s snapshot event key in
  match r with
  | Err _ => s' = s
  | Ok e => ∃ normalized identity requested,
      transition_request now snapshot event key = Ok (normalized, identity, requested) ∧
      let k := EventKey (ev_PlanID requested) key in
      (s' = s ∧ eventKeys s !! k = Some e) ∨
      (eventKeys s !! k = None ∧
       specs s' = <[ev_PlanID requested := snap_Spec normalized]> (specs s) ∧
       statuses s' = <[ev_PlanID requested := snap_Status normalized]> (statuses s) ∧
       events s' = push (events s) (ev_PlanID requested) e ∧
       eventKeys s' = <[k := e]> (eventKeys s) ∧
       transitionSnapshots s' = <[k := ptsi_Digest identity]> (transitionSnapshots s))
  end.
Proof.
  destruct (PersistPlanTransition now s snapshot event key) as [s' r] eqn:Hp.
  destruct (PersistPlanTransition_cases now s snapshot event key)
    as [[Hs Hcase]|(n & i & rq & s1 & s2 & stored & Hreq & Hk & Hsave & Happ & Hs' & Hr)];
    rewrite Hp in *; cbn [fst snd] in *; subst.
  - destruct r as [e|]; [|done]. destruct (Hcase e eq_refl) as (n & i & rq & Hreq & Hk & _).
    exists n, i, rq. split; [done|]. by left.
  - exists n, i, rq. split; [done|]. right.
    pose proof (transition_requested_normalized _ _ _ _ _ _ _ Hreq) as (_ & Hsc & _).
    apply ScopePlanEventToSpec_Ok in Hsc as [_ Hpid].
    apply savePlanStateLocked_Ok in Hsave as [-> _].
    apply appendPlanEventLocked_result in Happ
      as [[_ Hx]|(e & spec & scoped & [= <-] & _ & _ & _ & Hpe & _ & ->)].
    { specialize (Hx _ eq_refl). cbn in Hx. congruence. }
    cbn. rewrite Hpe, Hpid. split_and!; try done. by rewrite <-Hpid.
Qed.

(** C38: a transition is applied exactly once.  Repeating a successful transition
    after any further operations, later transitions of the same plan included, returns
    the event it returned first and leaves the store unchanged (its snapshot carries a
    timestamp and its payload can be encoded). *)
Theorem transition_exactly_once `{!Sha256} now now' s snapshot event key s1 e s2 :
  store_reachable s → st_UpdatedAt (snap_Status snapshot) ≠ zero_time →
  PersistPlanTransition now s (Some snapshot) event key = (s1, Ok e) →
  supported (planEventIdempotencyIdentity e) = true → rtc store_step s1 s2 →
  PersistPlanTransition now' s2 (Some snapshot) event key = (s2, Ok e).
Proof.
  intros Hok%reachable_ok Hz Hp Hsup Hr.
  assert (store_ok s1) as Hok1.
  { eapply steps_extend; [exact Hok|]. apply rtc_once.
    replace s1 with (PersistPlanTransition now s (Some snapshot) event key).1 by by rewrite Hp.
    constructor. }
  destruct (PersistPlanTransition_answered _ _ _ _ _ _ _ Hp Hsup) as (n & i & rq & Hreq & Hk & Hv & Hd).
  destruct (steps_extend _ _ Hok1 Hr) as [_ Hext].
  unfold PersistPlanTransition. rewrite (transition_request_now now' now) by done. rewrite Hreq.
  rewrite (lookup_weaken _ _ _ _ Hk (se_eventKeys _ _ Hext)). cbv zeta.
  rewrite (lookup_weaken _ _ _ _ Hd (se_transitions _ _ Hext)). cbn [default from_option id].
  unfold validateMemoryPlanTransitionReplay. rewrite Hv. cbn [mbind result_bind].
  replace (ValidatePlanTransitionIdempotency (ptsi_Digest i) i) with (Ok tt); [done|].
  symmetry. apply ValidatePlanTransitionIdempotency_Ok. split; [|done].
  by eapply transition_requested_normalized.
Qed.

Lemma transition_exactly_once_witness :
  ∃ e, PersistPlanTransition (H := StoreSample.sha) 1%Z StoreSample.s6 (Some StoreSample.snapshot)
         (Some StoreSample.done_event) "ev-2" = (StoreSample.s6, Ok e).
Proof.
  eexists.
  refine (transition_exactly_once (H := StoreSample.sha) StoreSample.now 1%Z StoreSample.s2
            StoreSample.snapshot (Some StoreSample.done_event) "ev-2" StoreSample.s3 _ StoreSample.s6
            StoreSample.s2_reachable _ _ _ StoreSample.s3_s6).
  - discriminate.
  - vm_compute. reflexivity.
  - vm_compute. reflexivity.
Defined.

(** Resuming from a cursor.  In a reachable store the owner of a plan who lists
    events after sequence [n] without node or run filter gets exactly the stream
    without its first [n] events, cut to the limit when one is given. *)
Theorem resume_from_cursor `{!Sha256, !SliceSort} s spec scope limit :
  store_reachable s → specs s !! ss_PlanID scope = Some spec →
  ss_AccountID scope = spec_AccountID spec → ss_ProjectID scope = spec_ProjectID spec →
  ss_NodeID scope = "" → ss_RunID scope = "" → (0 ≤ ss_AfterSequence scope)%Z →
  ListPlanEvents s scope limit =
  let rest := drop (Z.to_nat (ss_AfterSequence scope)) (get_list (events s) (ss_PlanID scope)) in
  Ok (if (0 <? limit)%Z then take (Z.to_nat limit) rest else rest).
Proof.
  intros Hok%reachable_ok Hs Ha Hp Hn Hrun Hafter. unfold ListPlanEvents, filterMemoryPlanEvents. rewrite Hs.
  destruct (so_spec _ Hok _ _ Hs) as (Hpid & Hv & _). apply ValidateRunPlanScope_Ok in Hv as (H1 & H2 & H3).
  rewrite stream_sorted, filter_events_spec by (done || (cbn; lia)). rewrite filter_after by done.
  assert (∃ u, ValidatePlanStreamScope (Some scope) = Ok u) as [? ->].
  { exists tt. apply ValidatePlanRef_Ok. cbn. rewrite Ha, Hp, <-Hpid. done. }
  cbn -[ValidatePlanTenantAccess]. rewrite (proj2 (ValidatePlanTenantAccess_iff _ _)).
  - cbn. by rewrite Nat.sub_0_r.
  - cbn. rewrite Ha, Hp, <-Hpid. done.
Qed.

Lemma resume_from_cursor_witness :
  ListPlanEvents StoreSample.s6
    {| ss_PlanID := "plan-1"; ss_AccountID := "acct"; ss_ProjectID := "proj"; ss_NodeID := "";
       ss_RunID := ""; ss_AfterSequence := 1%Z |} 10%Z =
  Ok (take 10 (drop 1 (get_list (events StoreSample.s6) "plan-1"))).
Proof.
  refine (resume_from_cursor (H := StoreSample.sha) StoreSample.s6 StoreSample.spec _ 10%Z
            StoreSample.s6_reachable _ _ _ _ _ _);
    [vm_compute; reflexivity|reflexivity|reflexivity|reflexivity|reflexivity|cbn; lia].
Defined.

Lemma elem_of_filtered_events e l scope limit : e ∈ filterMemoryPlanEvents l scope limit → e ∈ l.
Proof.
  unfold filterMemoryPlanEvents. rewrite filter_events_spec by (cbn; lia). cbn. intros He.
  assert (e ∈ filter (λ e, memoryPlanEventMatchesScope e scope = true) l) as Hf.
  { destruct (_ <? _)%Z; [|done]. by apply elem_of_take in He as (i & ?%list_elem_of_lookup_2 & _). }
  apply list_elem_of_filter in Hf as [_ Hf]. exact Hf.
Qed.

Lemma elem_of_limit_list {A} limit (l : list A) x : x ∈ limit_list limit l → x ∈ l.
Proof. unfold limit_list. case_match; [|done]. by intros (i & ?%list_elem_of_lookup_2 & _)%elem_of_take. Qed.

(** Tenant isolation of reads.  In a reachable store everything a read returns,
    the plan, its events and its audit records, belongs to the plan, the account and
    the project named in the request. *)
Theorem tenant_isolation `{!Sha256, !SliceSort} s :
  store_reachable s →
  (∀ ref spec status, GetPlanByRef s ref = Ok (Some (spec, status)) →
     spec_PlanID spec = pref_PlanID ref ∧ spec_AccountID spec = pref_AccountID ref ∧
     spec_ProjectID spec = pref_ProjectID ref) ∧
  (∀ scope limit l e, ListPlanEvents s scope limit = Ok l → e ∈ l →
     ev_PlanID e = ss_PlanID scope ∧ ev_AccountID e = ss_AccountID scope ∧
     ev_ProjectID e = ss_ProjectID scope) ∧
  (∀ scope l r, ListAuditRecords s (Some scope) = Ok l → r ∈ l →
     par_PlanID r = aus_PlanID scope ∧ par_AccountID r = aus_AccountID scope ∧
     par_ProjectID r = aus_ProjectID scope).
Proof.
  intros Hok%reachable_ok. split_and!.
  - intros ref spec status Hg. unfold GetPlanByRef in Hg. apply bind_Ok in Hg as ([] & _ & Hg).
    destruct (specs s !! _) as [sp|]; [|done].
    apply bind_Ok in Hg as ([] & [_ Ha]%ValidatePlanTenantAccess_iff & [= <- <-]). done.
  - intros scope limit l e Hg He. unfold ListPlanEvents in Hg. apply bind_Ok in Hg as ([] & _ & Hg).
    destruct (specs s !! _) as [sp|] eqn:Hs; [|done].
    apply bind_Ok in Hg as ([] & [_ (Hp & Ha & Hpr)]%ValidatePlanTenantAccess_iff & [= <-]).
    apply elem_of_filtered_events in He. rewrite elem_of_sort_slice in He.
    apply list_elem_of_lookup in He as [i Hi].
    destruct (so_event _ Hok _ _ _ Hi) as (_ & ? & _ & sp' & Hs' & ? & ?). cbn in *. naive_solver congruence.
  - intros scope l r Hg Hr. unfold ListAuditRecords in Hg. apply bind_Ok in Hg as ([] & _ & Hg).
    destruct (specs s !! _) as [sp|] eqn:Hs; [|done].
    apply bind_Ok in Hg as ([] & [_ (Hp & Ha & Hpr)]%ValidatePlanTenantAccess_iff & [= <-]).
    apply list_elem_of_fmap in Hr as (a & -> & Hin%elem_of_limit_list). rewrite elem_of_sort_slice in Hin.
    apply list_elem_of_filter in Hin as [Hm Hin].
    apply list_elem_of_fmap in Hin as ([k a'] & -> & Hk%elem_of_map_to_list).
    assert (aud_PlanID a' = aus_PlanID scope) as Hpid.
    { unfold memoryAuditRecordMatchesScope in Hm. cbn in Hm. by case_bool_decide. }
    destruct (so_audit _ Hok _ _ Hk) as (_ & sp' & Hs' & ? & ?). cbn in *. rewrite Hpid in *. 
    naive_solver congruence.
Qed.

Lemma tenant_isolation_witness :
  ∃ spec status,
    GetPlanByRef StoreSample.s6 {| pref_PlanID := "plan-1"; pref_AccountID := "acct";
                                   pref_ProjectID := "proj" |} = Ok (Some (spec, status)) ∧
    spec_AccountID spec = "acct".
Proof.
  pose proof (tenant_isolation (H := StoreSample.sha) StoreSample.s6 StoreSample.s6_reachable) as [Hp _].
  assert (GetPlanByRef StoreSample.s6 {| pref_PlanID := "plan-1"; pref_AccountID := "acct";
            pref_ProjectID := "proj" |} = Ok (Some (StoreSample.spec, StoreSample.status))) as Hg
    by (vm_compute; reflexivity).
  exists StoreSample.spec, StoreSample.status. split; [exact Hg|].
  exact (proj1 (proj2 (Hp _ _ _ Hg))).
Defined.

(** The outbox rule.  A command marked delivered has its durable audit record,
    with the same plan, tenant, actor, action, idempotency key and payload; both stay
    there, and the command stays delivered, whatever happens later. *)
Theorem delivered_has_audit `{!Sha256} s s' ref c :
  store_reachable s → commands s !! ref = Some c → cmd_Status c = PlanCommandDelivered →
  rtc store_step s s' →
  ∃ a c', auditKeys s' !! AuditRefFromRecord a = Some a ∧
    commands s' !! ref = Some c' ∧ cmd_Status c' = PlanCommandDelivered ∧
    aud_PlanID a = cmd_PlanID c' ∧ aud_AccountID a = cmd_AccountID c' ∧
    aud_ProjectID a = cmd_ProjectID c' ∧ aud_ActorID a = cmd_ActorID c' ∧
    aud_Action a = cmd_Action c' ∧ aud_IdempotencyKey a = cmd_IdempotencyKey c' ∧
    enc_map enc_any (normalizeAuditPayload (aud_Payload a)) =
      enc_map enc_any (normalizeAuditPayload (cmd_Payload c')).
Proof.
  intros Hok%reachable_ok Hc Hd Hr. destruct (steps_extend _ _ Hok Hr) as [Hok' Hext].
  destruct (se_commands _ _ Hext _ _ Hc) as (c' & Hc' & _ & Hdel & _). specialize (Hdel Hd).
  destruct (so_command _ Hok' _ _ Hc') as (_ & _ & Hcheck & _). specialize (Hcheck Hdel).
  unfold delivered_audit_check in Hcheck. destruct (auditKeys s' !! _) as [a|] eqn:Ha; [|done].
  exists a, c'. apply (so_audit _ Hok') in Ha as Href. destruct Href as [Href _]. rewrite Href.
  unfold ValidatePlanCommandDeliveredAudit, ValidateAuditIdempotency in Hcheck.
  apply bind_Ok in Hcheck as ([] & Hscope & [_ Henc]%same_json_Ok).
  unfold validateAuditReplayScope in Hscope. apply bind_Ok in Hscope as ([] & Hfields & Hkey).
  apply fail_if_Ok in Hkey. simplify_bool. rewrite forM_Ok in Hfields. cbn in *.
  assert (∀ x y, (x, y) ∈ [(aud_PlanID a, cmd_PlanID c'); (aud_AccountID a, cmd_AccountID c');
    (aud_ProjectID a, cmd_ProjectID c'); (aud_RunID a, ""); (aud_NodeID a, "");
    (aud_ActorID a, cmd_ActorID c'); (aud_Action a, cmd_Action c')] → x = y) as Hf.
  { intros x y Hin. apply Hfields in Hin. apply fail_if_Ok in Hin. by simplify_bool. }
  split_and!; try done; apply Hf; rewrite !elem_of_cons; naive_solver.
Qed.

Lemma delivered_has_audit_witness :
  ∃ a, auditKeys StoreSample.s6 !! AuditRefFromRecord a = Some a ∧ aud_ActorID a = "alice".
Proof.
  assert (∃ c, commands StoreSample.s6 !! StoreSample.ref = Some c ∧
               cmd_Status c = PlanCommandDelivered ∧ cmd_ActorID c = "alice") as (c & Hc & Hst & Hact).
  { eexists. vm_compute. split; [reflexivity|split; reflexivity]. }
  destruct (delivered_has_audit (H := StoreSample.sha) StoreSample.s6 StoreSample.s6 StoreSample.ref c
              StoreSample.s6_reachable Hc Hst (rtc_refl _ _))
    as (a & c' & Ha & Hc' & _ & _ & _ & _ & Hactor & _).
  exists a. split; [exact Ha|]. congruence.
Defined.

(** ** Starting a plan *)

(** What a plan created just now leaves in the store. *)
Lemma CreatePlan_created now s spec status s1 st :
  CreatePlan now s spec status = (s1, Ok (st, true)) →
  ∃ sp snapshot, spec = Some sp ∧ spec_PlanID sp ≠ "" ∧ spec_IdempotencyKey sp ≠ "" ∧
    snap_Spec snapshot = {| sp with
      spec_RequestedAt := NormalizeDurableTimestamp (spec_RequestedAt sp) |} ∧
    st = snap_Status snapshot ∧ savePlanStateLocked s snapshot true = (s1, Ok tt).
Proof.
  unfold CreatePlan, CreatePlan_between.
  destruct (createPlan_precheck now s s spec status) as [[?|[sp snapshot]]|e] eqn:Hpre; [done| |done].
  unfold createPlan_precheck in Hpre. apply bind_Ok in Hpre as (sp' & Hin & Hpre).
  apply bind_Ok in Hpre as ([?|] & _ & Hpre); [done|].
  apply bind_Ok in Hpre as ([?|] & _ & Hpre); [done|].
  apply bind_Ok in Hpre as (sn & Hsn & [= <- <-]). unfold prepareMemoryCreatePlanSnapshot in Hsn.
  destruct status as [status|]; [|done].
  apply bind_Ok in Hsn as ([] & _ & Hsn). apply bind_Ok in Hsn as ([] & _ & Hsn).
  injection Hsn as <-. unfold createPlanSnapshot.
  destruct (lookupExistingPlanLocked s _ sp') as [[?|]|]; [done| |done].
  destruct (lookupExistingPlanIDLocked s sp') as [[?|]|]; [done| |done].
  destruct (savePlanStateLocked s _ true) as [s' [[]|]] eqn:Hsave; [|done]. intros [= <- <-].
  unfold validateMemoryCreatePlanInput in Hin. destruct spec as [sp|]; [|done].
  apply bind_Ok in Hin as ([] & H1%fail_if_Ok & Hin). apply bind_Ok in Hin as ([] & H2%fail_if_Ok & [= <-]).
  simplify_bool. match type of Hsave with savePlanStateLocked _ ?sn _ = _ => exists sp, sn end.
  by split_and!.
Qed.

(** A start request for a start key that is taken. *)
Lemma CreatePlan_taken now s spec status pid stored :
  spec_PlanID spec ≠ "" → spec_IdempotencyKey spec ≠ "" →
  planKeys s !! startKey spec = Some pid → specs s !! pid = Some stored →
  CreatePlan now s (Some spec) status =
  (s, match ValidatePlanStartIdempotency stored spec with
      | Ok _ => Ok (status_of s pid, false)
      | Err e => Err e
      end).
Proof.
  intros Hp Hi Hk Hs. unfold CreatePlan, CreatePlan_between, createPlan_precheck, validateMemoryCreatePlanInput.
  rewrite (bool_decide_eq_false_2 _ Hp), (bool_decide_eq_false_2 _ Hi). cbn -[lookupExistingPlanLocked].
  unfold lookupExistingPlanLocked. rewrite Hk, Hs. cbn -[ValidatePlanStartIdempotency].
  by destruct (ValidatePlanStartIdempotency stored spec).
Qed.

(** What a repeated start request gets.  Right after a plan was created, the same
    request is recognised and answered with the stored status exactly when its
    [RequestedAt] is a whole number of microseconds; otherwise the replay is refused,
    because the stored timestamp was rounded and the request's was not. *)
Theorem start_replay now now' s spec status status' s1 st :
  CreatePlan now s (Some spec) status = (s1, Ok (st, true)) →
  supported (enc_RunPlanSpec spec) = true →
  if decide (NormalizeDurableTimestamp (spec_RequestedAt spec) = spec_RequestedAt spec)
  then CreatePlan now' s1 (Some spec) status' = (s1, Ok (st, false))
  else ∃ e, CreatePlan now' s1 (Some spec) status' = (s1, Err e).
Proof.
  intros (sp & snapshot & [= <-] & Hp & Hi & Hsn & -> & (-> & _)%savePlanStateLocked_Ok)%CreatePlan_created Hsup.
  rewrite (CreatePlan_taken _ _ _ _ (spec_PlanID spec) (snap_Spec snapshot)); try done.
  - unfold status_of. cbn. rewrite Hsn. cbn. rewrite lookup_insert_eq. cbn.
    match goal with |- context [ValidatePlanStartIdempotency ?a ?b] =>
      pose proof (ValidatePlanStartIdempotency_iff a b) as Hiff end.
    case_decide as Ht.
    + rewrite (proj2 Hiff); [done|]. rewrite Ht. by destruct spec.
    + destruct (ValidatePlanStartIdempotency _ _) as [[]|] eqn:Hv; [|by eexists].
      destruct (proj1 Hiff eq_refl) as [Hs Heq].
      destruct (enc_RunPlanSpec_same _ _ Hs Heq) as [Henv _]. unfold envelope in Henv.
      cbn in Henv. congruence.
  - cbn. rewrite Hsn. by rewrite lookup_insert_eq.
  - cbn. rewrite Hsn. by rewrite lookup_insert_eq.
Qed.

Lemma start_replay_witness :
  (CreatePlan 1%Z StoreSample.s1 (Some StoreSample.spec) None =
     (StoreSample.s1, Ok (StoreSample.status, false))) ∧
  let spec := {| StoreSample.spec with spec_RequestedAt := 5000001%Z |} in
  let s1 := (CreatePlan 1%Z NewMemoryPlanStore (Some spec) (Some StoreSample.status)).1 in
  ∃ e, CreatePlan 2%Z s1 (Some spec) (Some StoreSample.status) = (s1, Err e).
Proof.
  split.
  - refine (start_replay StoreSample.now 1%Z NewMemoryPlanStore StoreSample.spec (Some StoreSample.status)
              None StoreSample.s1 StoreSample.status _ _); vm_compute; reflexivity.
  - cbv zeta.
    refine (start_replay 1%Z 2%Z NewMemoryPlanStore {| StoreSample.spec with spec_RequestedAt := 5000001%Z |}
              (Some StoreSample.status) (Some StoreSample.status) _ StoreSample.status _ _);
      vm_compute; reflexivity.
Defined.

(** A start request is bound to the topology it was made with.  Once the stored
    plan has a different number of nodes than the request, as after a saved topology
    expansion, repeating the original start request is refused. *)
Theorem start_replay_after_expansion `{!Sha256} now s spec status stored :
  store_reachable s → specs s !! spec_PlanID spec = Some stored → startKey stored = startKey spec →
  length (spec_Nodes stored) ≠ length (spec_Nodes spec) →
  ∃ e, CreatePlan now s (Some spec) status = (s, Err e).
Proof.
  intros Hok%reachable_ok Hs Hkey Hlen.
  destruct (so_spec _ Hok _ _ Hs) as (Hpid & [Hne _]%ValidateRunPlanScope_Ok & Hik & Hk & _).
  rewrite (CreatePlan_taken _ _ _ _ (spec_PlanID spec) stored); [|congruence| |congruence|done].
  - destruct (ValidatePlanStartIdempotency stored spec) as [[]|] eqn:Hv; [|by eexists].
    apply ValidatePlanStartIdempotency_iff in Hv as [Hsup Heq].
    destruct (enc_RunPlanSpec_same _ _ Hsup Heq) as (_ & Hn & _).
    apply (f_equal length) in Hn. by rewrite !length_fmap in Hn.
  - unfold startKey in Hkey. congruence.
Qed.


Lemma start_replay_after_expansion_witness :
  let expanded := {| StoreSample.spec with spec_Nodes :=
    [{| zero_PlanNodeSpec with node_NodeID := "a" |}; {| zero_PlanNodeSpec with node_NodeID := "b" |}] |} in
  let s := (SavePlanState StoreSample.now StoreSample.s1
              (Some {| snap_Spec := expanded; snap_Status := StoreSample.status |})).1 in
  ∃ e, CreatePlan 1%Z s (Some StoreSample.spec) (Some StoreSample.status) = (s, Err e).
Proof.
  intros expanded s.
  refine (start_replay_after_expansion (H := StoreSample.sha) 1%Z s StoreSample.spec
            (Some StoreSample.status) expanded _ _ _ _).
  - eapply rtc_r; [exact StoreSample.s1_reachable|exact (step_save _ StoreSample.now _)].
  - vm_compute. reflexivity.
  - reflexivity.
  - discriminate.
Defined.

(** A start key belongs to one plan.  In a reachable store the key index and the
    plans agree: the plan a key points to carries that key, and two plans with the
    same account, project and idempotency key are the same plan. *)
Theorem start_key_unique `{!Sha256} s :
  store_reachable s →
  (∀ k pid, planKeys s !! k = Some pid ↔ ∃ spec, specs s !! pid = Some spec ∧ startKey spec = k) ∧
  (∀ p1 p2 a b, specs s !! p1 = Some a → specs s !! p2 = Some b → startKey a = startKey b → p1 = p2).
Proof.
  intros Hok%reachable_ok. split.
  - intros k pid. split; [apply (so_key _ Hok)|]. intros (spec & Hs & <-).
    by destruct (so_spec _ Hok _ _ Hs) as (_ & _ & _ & Hk & _).
  - intros p1 p2 a b (_ & _ & _ & Ha & _)%(so_spec _ Hok) (_ & _ & _ & Hb & _)%(so_spec _ Hok) Heq. congruence.
Qed.

Lemma start_key_unique_witness :
  planKeys StoreSample.s6 !! StartKey "acct" "proj" "start-1" = Some "plan-1".
Proof.
  destruct (start_key_unique (H := StoreSample.sha) StoreSample.s6 StoreSample.s6_reachable) as [Hk _].
  apply Hk. exists StoreSample.spec. split; [vm_compute; reflexivity|reflexivity].
Defined.

(** ** Concurrent starts *)

(** The two lookups recognise the same requests. *)
Lemma lookups_agree s spec st :
  store_ok s →
  lookupExistingPlanLocked s (startKey spec) spec = Ok (Some st) ↔
  lookupExistingPlanIDLocked s spec = Ok (Some st).
Proof.
  intros Hok. unfold lookupExistingPlanLocked, lookupExistingPlanIDLocked. split.
  - destruct (planKeys s !! startKey spec) as [pid|] eqn:Hk; [|done].
    destruct (so_key _ Hok _ _ Hk) as (stored & Hs & _). rewrite Hs. cbn [default from_option id].
    intros ([] & Hv & [= <-])%bind_Ok. apply ValidatePlanStartIdempotency_iff in Hv as Hv'.
    destruct Hv' as [Hsup Heq]. destruct (enc_RunPlanSpec_same _ _ Hsup Heq) as [Henv _].
    destruct (so_spec _ Hok _ _ Hs) as [Hpid _]. unfold envelope in Henv. injection Henv as Hp _ _ _ _ _ _.
    assert (spec_PlanID spec = pid) as -> by congruence. by rewrite Hs, Hv.
  - destruct (specs s !! spec_PlanID spec) as [stored|] eqn:Hs; [|done].
    intros ([] & Hv & [= <-])%bind_Ok. apply ValidatePlanStartIdempotency_iff in Hv as Hv'.
    destruct Hv' as [Hsup Heq]. destruct (enc_RunPlanSpec_same _ _ Hsup Heq) as [Henv%envelope_startKey _].
    destruct (so_spec _ Hok _ _ Hs) as (_ & _ & _ & Hk & _). rewrite <-Henv, Hk, Hs.
    cbn [default from_option id]. by rewrite Hv.
Qed.

(** The same answer, up to the text of the error. *)
Definition same_answer {A} (r r' : result A) : Prop :=
  r = r' ∨ ∃ e e', r = Err e ∧ r' = Err e' ∧ err_is e = err_is e'.

Lemma same_json_Err kind what j1 j2 mismatch e :
  same_json kind what j1 j2 mismatch = Err e → err_is e = kind.
Proof.
  unfold same_json, Marshal. destruct (supported j1), (supported j2); cbn; try (by inversion 1).
  case_bool_decide; cbn; by inversion 1.
Qed.

Lemma start_idempotency_error existing requested e :
  ValidatePlanStartIdempotency existing requested = Err e → err_is e = ErrInvalidRunPlan.
Proof.
  intros He. unfold ValidatePlanStartIdempotency in He.
  apply bind_Err in He as [[_ <-]%fail_if_Err|([] & _ & He)]; [done|].
  apply bind_Err in He as [[_ <-]%fail_if_Err|([] & _ & He)]; [done|]. by eapply same_json_Err.
Qed.

Lemma lookup_errors s key spec e :
  lookupExistingPlanLocked s key spec = Err e ∨ lookupExistingPlanIDLocked s spec = Err e →
  err_is e = ErrInvalidRunPlan.
Proof.
  unfold lookupExistingPlanLocked, lookupExistingPlanIDLocked.
  intros [He|He]; (case_match; [|done]); apply bind_Err in He as [He|(? & _ & He)];
    by eauto using start_idempotency_error.
Qed.

Lemma prepare_errors now spec status e :
  prepareMemoryCreatePlanSnapshot now spec status = Err e → err_is e = ErrInvalidRunPlan.
Proof.
  unfold prepareMemoryCreatePlanSnapshot, normalizeMemoryPlanStateSnapshot, ValidateRunPlanScope.
  destruct status; [|by inversion 1]. repeat case_bool_decide; cbn; by inversion 1.
Qed.

(** Without interference [CreatePlan] is one lookup after the other. *)
Lemma CreatePlan_eval now s spec sp status :
  validateMemoryCreatePlanInput spec = Ok sp →
  CreatePlan now s spec status =
  match lookupExistingPlanLocked s (startKey sp) sp with
  | Err e => (s, Err e)
  | Ok (Some st) => (s, Ok (st, false))
  | Ok None =>
      match lookupExistingPlanIDLocked s sp with
      | Err e => (s, Err e)
      | Ok (Some st) => (s, Ok (st, false))
      | Ok None =>
          match prepareMemoryCreatePlanSnapshot now sp status with
          | Err e => (s, Err e)
          | Ok snapshot => createPlanSnapshot s (startKey sp) sp snapshot
          end
      end
  end.
Proof.
  intros Hin. unfold CreatePlan, CreatePlan_between, createPlan_precheck. rewrite Hin. cbn [mbind result_bind].
  destruct (lookupExistingPlanLocked s (startKey sp) sp) as [[?|]|]; cbn [mbind result_bind]; [done| |done].
  destruct (lookupExistingPlanIDLocked s sp) as [[?|]|]; cbn [mbind result_bind]; [done| |done].
  by destruct (prepareMemoryCreatePlanSnapshot now sp status).
Qed.

(** The double-checked [CreatePlan] is linearizable.  Whatever runs between the
    two read-locked lookups, on [sKey] and [sID], and the write-locked section on [s],
    the call behaves as one [CreatePlan] on [s], or it changes nothing and gives the
    answer (up to the text of an error) of one [CreatePlan] on [sKey] or [sID] that
    changes nothing either. *)
Theorem CreatePlan_linearizable `{!Sha256} now sKey sID s spec status :
  store_reachable sKey → store_reachable sID →
  CreatePlan_between now sKey sID s spec status = CreatePlan now s spec status ∨
  ∃ s0 r r0, s0 ∈ [sKey; sID] ∧ CreatePlan now s0 spec status = (s0, r0) ∧
    CreatePlan_between now sKey sID s spec status = (s, r) ∧ same_answer r r0.
Proof.
  intros HokK%reachable_ok HokI%reachable_ok. unfold CreatePlan_between, createPlan_precheck.
  destruct (validateMemoryCreatePlanInput spec) as [sp|e] eqn:Hin; cbn [mbind result_bind].
  2: { right. exists sKey, (Err e), (Err e). split_and!; [by left| |done|by left].
       unfold CreatePlan, CreatePlan_between, createPlan_precheck. by rewrite Hin. }
  rewrite (CreatePlan_eval now s _ sp) by done.
  assert (∀ s0 r r0, s0 ∈ [sKey; sID] → CreatePlan now s0 spec status = (s0, r0) → same_answer r r0 →
    ∃ s0 r' r0, s0 ∈ [sKey; sID] ∧ CreatePlan now s0 spec status = (s0, r0) ∧ (s, r) = (s, r') ∧
      same_answer r' r0) as Hanswer by eauto 10.
  destruct (lookupExistingPlanLocked sKey _ sp) as [[st|]|e] eqn:HkK; cbn [mbind result_bind].
  1,3: right; eapply (Hanswer sKey); [by left|by rewrite (CreatePlan_eval _ _ _ sp), HkK|by left].
  destruct (lookupExistingPlanIDLocked sID sp) as [[st|]|e] eqn:HiI; cbn [mbind result_bind].
  - right. eapply (Hanswer sID); [by right; left| |by left].
    rewrite (CreatePlan_eval _ _ _ sp) by done. by apply lookups_agree in HiI as ->.
  - destruct (prepareMemoryCreatePlanSnapshot now sp status) as [sn|e] eqn:Hprep; cbn [mbind result_bind].
    + left. unfold createPlanSnapshot. by repeat case_match.
    + right. destruct (lookupExistingPlanIDLocked sKey sp) as [[st|]|e'] eqn:HiK.
      * apply lookups_agree in HiK; [congruence|done].
      * eapply (Hanswer sKey); [by left|by rewrite (CreatePlan_eval _ _ _ sp), HkK, HiK, Hprep|by left].
      * eapply (Hanswer sKey); [by left|by rewrite (CreatePlan_eval _ _ _ sp), HkK, HiK|right].
        exists e, e'. rewrite (prepare_errors _ _ _ _ Hprep).
        by rewrite (lookup_errors _ (startKey sp) _ _ (or_intror HiK)).
  - right. destruct (lookupExistingPlanLocked sID (startKey sp) sp) as [[st|]|e'] eqn:HkI.
    + apply lookups_agree in HkI; [congruence|done].
    + eapply (Hanswer sID); [by right; left|by rewrite (CreatePlan_eval _ _ _ sp), HkI, HiI|by left].
    + eapply (Hanswer sID); [by right; left|by rewrite (CreatePlan_eval _ _ _ sp), HkI|right].
      exists e, e'. rewrite (lookup_errors _ _ _ _ (or_introl HkI)).
      by rewrite (lookup_errors _ (startKey sp) _ _ (or_intror HiI)).
Qed.

(** Two starts with the same key race and the other one wins. *)
Lemma CreatePlan_linearizable_witness :
  let race := CreatePlan_between 1%Z NewMemoryPlanStore NewMemoryPlanStore StoreSample.s1
                (Some StoreSample.spec) (Some StoreSample.status) in
  race = (StoreSample.s1, Ok (StoreSample.status, false)) ∧
  race = CreatePlan 1%Z StoreSample.s1 (Some StoreSample.spec) (Some StoreSample.status).
Proof.
  intros race. split; [vm_compute; reflexivity|].
  destruct (CreatePlan_linearizable (H := StoreSample.sha) 1%Z NewMemoryPlanStore NewMemoryPlanStore
    StoreSample.s1 (Some StoreSample.spec) (Some StoreSample.status) (rtc_refl _ _) (rtc_refl _ _))
    as [Heq|_]; [exact Heq|vm_compute; reflexivity].
Defined.
