(* ===== verification/Temporal.v ===== *)
(** * The workflow's world

    What a durable workflow of agentos/temporal works with: the inputs and outputs of
    the plan activities (plan_activity.go, agentos/nexusapi), the calls a workflow makes
    to the outside, and the monad its code runs in.

    The Temporal SDK, the activities and the backends are the environment: a strategy
    that answers each call knowing everything exchanged before it ([Env]).  A theorem
    about the workflow quantifies over all strategies, hence over all schedules of
    activity results, failures, signals, clock readings and operation completions.  The
    log of exchanges is part of the execution, so that statements can speak of what was
    persisted, started or canceled.  An operation returns the execution after it also
    when it fails, because the Go code mutates its state through pointers.

    Two loops can run as long as the environment feeds them (draining a channel, and the
    workflow's own loop); they take fuel and answer [Diverge] without it. *)

From S2P Require Import Prelude Types Validator State.

(** ** agentos/control/types.go and runtime.go *)

Record RunProgress := { rp_Current : Z; rp_Total : Z; rp_Label : string }.

Record RunStatus := {
  rs_RunID : string;
  rs_LifecycleState : string;
  rs_Progress : option RunProgress;
  rs_Artifacts : list ArtifactRef;
  rs_BudgetUsage : PlanBudgetUsage;
  rs_Reason : string;
  rs_UpdatedAt : time;
}.

Record RunRef := { rref_RunID : string; rref_AccountID : string; rref_ProjectID : string }.

(** ** Activity inputs and outputs *)

Record validatePlanInput := { vpi_Spec : RunPlanSpec }.

Record ValidatePlanOutput := {
  vpo_Plan : ExecutablePlan;
  vpo_ControlsByNode : gmap string (list string);
  vpo_CapabilitiesByNode : gmap string CapabilitySelectionTrace;
}.

Record resolvePlanNodeInputInput := {
  rni_Spec : RunPlanSpec;
  rni_Status : RunPlanStatus;
  rni_Node : PlanNodeSpec;
  rni_Edges : list PlanEdgeSpec;
}.

Record ResolvePlanNodeInputOutput := {
  rno_Input : go_map any;
  rno_Trace : InputResolutionTrace;
}.

Record startPlanNodeInput := {
  spi_PlanID : string;
  spi_AccountID : string;
  spi_ProjectID : string;
  spi_Node : PlanNodeSpec;
  spi_Attempt : Z;
}.

Record StartPlanNodeOutput := { spo_Status : RunStatus }.

Record persistPlanStateInput := {
  psi_Spec : RunPlanSpec;
  psi_Status : RunPlanStatus;
  psi_Event : PlanEvent;
  psi_IdempotencyKey : string;
}.

Record PersistPlanStateOutput := { pso_Event : PlanEvent }.

Record publishPlanArtifactsInput := {
  ppi_Spec : RunPlanSpec;
  ppi_Node : PlanNodeSpec;
  ppi_Status : RunStatus;
}.

Record PublishPlanArtifactsOutput := { ppo_Artifacts : list ArtifactRef }.

Record evaluatePlanExpansionInput := {
  epi_Spec : RunPlanSpec;
  epi_Status : RunPlanStatus;
  epi_Node : PlanNodeSpec;
  epi_RunStatus : RunStatus;
  epi_Artifacts : list ArtifactRef;
  epi_ExpansionCount : Z;
}.

Record EvaluatePlanExpansionOutput := {
  epo_Expanded : bool;
  epo_Delta : PlanDelta;
  epo_Spec : RunPlanSpec;
  epo_Plan : ExecutablePlan;
  epo_ControlsByNode : gmap string (list string);
  epo_CapabilitiesByNode : gmap string CapabilitySelectionTrace;
}.

Record statusPlanNodeInput := { sni_RunID : string; sni_AccountID : string; sni_ProjectID : string }.

Record StatusPlanNodeOutput := { sno_Status : RunStatus }.

Record controlPlanNodeInput := {
  cni_RunID : string;
  cni_AccountID : string;
  cni_ProjectID : string;
  cni_Control : ControlRequest;
}.

Record signalPlanNodeInput := {
  gni_RunID : string;
  gni_AccountID : string;
  gni_ProjectID : string;
  gni_Signal : Signal;
}.

(** ** agentos/nexusapi *)

Record RunPlanScope := { scope_PlanID : string; scope_NodeID : string }.

Record RunRequest := {
  rq_RequestID : string;
  rq_Spec : RunSpec;
  rq_PlanScope : option RunPlanScope;
}.

Record RunOutput := { ro_Status : RunStatus }.

(** [workflow.NexusOperationOptions], durations in nanoseconds. *)
Record NexusOperationOptions := {
  nx_ScheduleToStartTimeout : Z;
  nx_StartToCloseTimeout : Z;
  nx_ScheduleToCloseTimeout : Z;
}.

(** ** Calls *)

(** One call of the workflow to its environment.  A Nexus operation is named by the
    number of exchanges before it was started. *)
Inductive call :=
  | Now
  | WallClock
  | GetVersion (marker : string)
  | SetQueryHandler (name : string)
  | UpsertSearchAttributes (runID lifecycle : string)
  | HistoryLength
  | Sleep (duration : Z)
  | AwaitWithTimeout (duration : Z)
  | ReceiveControl
  | ReceiveSignal
  | ValidatePlan (input : validatePlanInput)
  | ResolvePlanNodeInput (input : resolvePlanNodeInputInput)
  | StartPlanNode (input : startPlanNodeInput)
  | StatusPlanNode (input : statusPlanNodeInput)
  | SignalPlanNode (input : signalPlanNodeInput)
  | ControlPlanNode (input : controlPlanNodeInput)
  | PublishPlanArtifacts (input : publishPlanArtifactsInput)
  | EvaluatePlanExpansion (input : evaluatePlanExpansionInput)
  | PersistPlanState (input : persistPlanStateInput)
  | ExecuteOperation (endpoint : string) (request : RunRequest) (options : NexusOperationOptions)
  | CancelOperation (future : nat)
  | IsReady (future : nat)
  | GetOperation (future : nat).

(** What each call returns. *)
Definition answer (c : call) : Type :=
  match c with
  | Now | WallClock => time
  | GetVersion _ | HistoryLength => Z
  | SetQueryHandler _ | UpsertSearchAttributes _ _ | Sleep _ => result unit
  | AwaitWithTimeout _ => result bool
  (* The value the Go variable holds after a receive that did not block; [None]: the
     channel was empty. *)
  | ReceiveControl => option ControlRequest
  | ReceiveSignal => option Signal
  | ValidatePlan _ => result ValidatePlanOutput
  | ResolvePlanNodeInput _ => result ResolvePlanNodeInputOutput
  | StartPlanNode _ => result StartPlanNodeOutput
  | StatusPlanNode _ => result StatusPlanNodeOutput
  | SignalPlanNode _ | ControlPlanNode _ => result unit
  | PublishPlanArtifacts _ => result PublishPlanArtifactsOutput
  | EvaluatePlanExpansion _ => result EvaluatePlanExpansionOutput
  | PersistPlanState _ => result PersistPlanStateOutput
  | ExecuteOperation _ _ _ | CancelOperation _ => unit
  | IsReady _ => bool
  | GetOperation _ => result RunOutput
  end.

Record exchange := Exchange { ex_call : call; ex_answer : answer ex_call }.

(** The environment: its answer to a call, given everything exchanged before. *)
Record Env := { respond : list exchange → ∀ c : call, answer c }.

(** ** Workflow input and execution state *)

Record agentfwTaskQueues := { tq_PlanActivity : string }.

Record planWorkflowInput := {
  pwi_Spec : RunPlanSpec;
  pwi_Status : RunPlanStatus;
  pwi_TaskQueues : agentfwTaskQueues;
  pwi_NexusEndpoint : string;
  pwi_NexusPeers : go_map string;
  pwi_WorkflowVersion : Z;
  pwi_Continued : bool;
  pwi_ContinuationCount : Z;
  pwi_IterationCount : Z;
  pwi_ExpansionCount : Z;
  pwi_ProcessedControls : list string;
  pwi_ProcessedSignals : list string;
}.

(** [planNodeRun]: the future and cancel function of one operation, named by the
    operation they belong to. *)
Record planNodeRun := { pnr_future : nat }.

(** Everything the code reaches through pointers: the spec and validation result an
    expansion replaces, the reducer, the counters, the processed keys, the operation
    registry, the last synchronised lifecycle, and the log. *)
Record Exec := {
  x_spec : RunPlanSpec;
  x_state : State;
  x_validation : ValidatePlanOutput;
  x_expansionCount : Z;
  x_controls : gset string;
  x_signals : gset string;
  x_runs : gmap string planNodeRun;
  x_synced : string;
  x_log : list exchange;
}.

(** ** Errors *)

(** A workflow returns an error, several joined ([errors.Join]), or the request to
    continue as a new execution.  [Panic] is an index out of range. *)
Inductive werror :=
  | Plain (e : go_error)
  | Join (cause : werror) (other : option werror)
  | ContinueAsNew (next : planWorkflowInput)
  | Panic.

(** [err.Error()]: the text is made by package fmt from arguments errors of the model
    do not keep. *)
Class ErrorText := { Error : werror → string }.

Inductive outcome (A : Type) :=
  | Return (a : A)
  | Fail (e : werror)
  | Diverge.
Arguments Return {_} _.
Arguments Fail {_} _.
Arguments Diverge {_}.

(** ** The monad *)

Definition W (A : Type) : Type := Exec → Exec * outcome A.

#[global] Instance W_ret : MRet W := λ A a x, (x, Return a).
#[global] Instance W_bind : MBind W := λ A B f m x,
  match m x with
  | (x', Return a) => f a x'
  | (x', Fail e) => (x', Fail e)
  | (x', Diverge) => (x', Diverge)
  end.

Definition throw {A} (e : werror) : W A := λ x, (x, Fail e).
Definition diverge {A} : W A := λ x, (x, Diverge).

(** A pure computation with an error. *)
Definition lift {A} (r : result A) : W A :=
  match r with Ok a => mret a | Err e => throw (Plain e) end.

(** [v, err := f(...)] with the error handled by the caller. *)
Definition try {A} (m : W A) : W (A + werror) := λ x,
  match m x with
  | (x', Return a) => (x', Return (inl a))
  | (x', Fail e) => (x', Return (inr e))
  | (x', Diverge) => (x', Diverge)
  end.

Definition gets {A} (f : Exec → A) : W A := λ x, (x, Return (f x)).
Definition modify (f : Exec → Exec) : W unit := λ x, (f x, Return tt).

(** One call: the answer is the environment's, and the exchange is logged. *)
Definition perform (env : Env) (c : call) : W (answer c) := λ x,
  let a := respond env (x_log x) c in
  ({| x with x_log := x_log x ++ [Exchange c a] |}, Return a).

(** [for ... range] with a body that may fail. *)
Fixpoint foldW {S A} (f : S → A → W S) (s : S) (l : list A) : W S :=
  match l with
  | [] => mret s
  | a :: l => s' ← f s a; foldW f s' l
  end.

Definition forW {A} (f : A → W unit) (l : list A) : W unit := foldW (λ _ a, f a) tt l.

(** [&state.Status.Nodes[i]] of the current status. *)
Definition node_at (i : nat) : W PlanNodeStatus :=
  s ← gets x_state;
  match st_Nodes (Status s) !! i with
  | Some node => mret node
  | None => throw Panic
  end.

(** [for i := range state.Status.Nodes]: the number of iterations is fixed when the
    loop starts, the element is read when its turn comes. *)
Definition range_nodes {S} (f : S → PlanNodeStatus → W S) (s : S) : W S :=
  n ← gets (λ x, length (st_Nodes (Status (x_state x))));
  foldW (λ s i, node ← node_at i; f s node) s (seq 0 n).
