(* ===== verification/Activities.v ===== *)
(** * The plan activities

    agentos/temporal/plan_activity.go and plan_artifacts.go, with the delta provider of
    internal/usecase/agentosplan/expansion.go and the capability output check of
    artifact_contract.go: what the workflow's calls do on the other side.  The stores
    they write to are interfaces ([PlanTransitionStore], [ArtifactPutStore]); the
    in-memory stores are instances.  Backends ([Runtime], [PlanNodeStarter]) are
    function arguments. *)

From S2P Require Import Prelude Types Graph Scope Contracts Validator State Json Policy Events.
From S2P Require Import Idempotency Artifacts PlanStore Temporal.

(** ** Stores *)

(** [agentosplan.PlanTransitionStore]: one atomic write of a snapshot and its event. *)
Class PlanTransitionStore (S : Type) := {
  persist_transition : time → S → option PlanStateSnapshot → option PlanEvent → string →
    S * result PlanEvent;
}.

#[global] Instance memory_transition_store `{!Sha256} : PlanTransitionStore MemoryPlanStore :=
  {| persist_transition := PersistPlanTransition |}.

(** The writing side of [agentosplan.ArtifactStore]. *)
Class ArtifactPutStore (S : Type) := {
  put_artifact : time → S → ArtifactRef → artifact_payload → string → S * result ArtifactRef;
}.

#[global] Instance memory_artifact_store `{!ByteEncoding, !Sha256} :
  ArtifactPutStore MemoryArtifactStore := {| put_artifact := Put |}.

(** ** Validation *)

Definition err_capability : go_error := Errorf ErrCapabilityNotFound "node %q capability %s/%s/%s".

(** The capability of a node, [None] when it names none or there is no catalog. *)
Definition node_capability (v : Validator) (node : PlanNodeSpec) : result (option Capability) :=
  match v_Capabilities v with
  | None => Ok None
  | Some catalog =>
      if node_Capability node == "" then Ok None else
      found ← catalog (run_Backend (node_Run node)) (node_Capability node);
      match found with
      | None => Err err_capability
      | Some capability => Ok (Some capability)
      end
  end.

Definition controlsByNode (v : Validator) (plan : ExecutablePlan) :
    result (gmap string (list string)) :=
  foldM (λ controls node,
    capability ← node_capability v node;
    Ok (<[node_NodeID node := match capability with
                              | None => []
                              | Some capability => cap_Controls capability
                              end]> controls)) ∅ (spec_Nodes (ep_Spec plan)).

Definition NewCapabilitySelectionTrace (capability : Capability) : CapabilitySelectionTrace := {|
  cst_Backend := cap_Backend capability;
  cst_Capability := cap_Name capability;
  cst_Signals := cap_Signals capability;
  cst_Controls := cap_Controls capability;
  cst_HasInputSchema := cap_InputSchema capability != "";
  cst_HasOutputSchema := cap_OutputSchema capability != "" |}.

Definition capabilitiesByNode (v : Validator) (plan : ExecutablePlan) :
    result (gmap string CapabilitySelectionTrace) :=
  foldM (λ traces node,
    capability ← node_capability v node;
    Ok (match capability with
        | None => traces
        | Some capability => <[node_NodeID node := NewCapabilitySelectionTrace capability]> traces
        end)) ∅ (spec_Nodes (ep_Spec plan)).

Section validation.
Context `{!JSONSchema, !SliceSort}.

Definition ValidatePlanActivity (v : Validator) (input : validatePlanInput) :
    result ValidatePlanOutput :=
  plan ← Validate v (vpi_Spec input);
  controls ← controlsByNode v plan;
  capabilities ← capabilitiesByNode v plan;
  Ok {| vpo_Plan := plan; vpo_ControlsByNode := controls; vpo_CapabilitiesByNode := capabilities |}.

(** ** Expansion *)

Record PlanDeltaInput := {
  pdi_Spec : RunPlanSpec;
  pdi_Status : RunPlanStatus;
  pdi_Node : PlanNodeSpec;
  pdi_RunStatus : RunStatus;
  pdi_Artifacts : list ArtifactRef;
  pdi_ExpansionCount : Z;
}.

(** [PlanDeltaProvider.NextPlanDelta]. *)
Definition PlanDeltaProvider : Type := PlanDeltaInput → result (option PlanDelta).

Definition planDeltaArtifacts (refs : list ArtifactRef) : list ArtifactRef :=
  filter (λ ref, ref_Kind ref = ArtifactKindPlanDelta) refs.

(** [ArtifactPlanDeltaProvider.NextPlanDelta]; [decode] is [DecodePlanDeltaPayload]. *)
Definition NextPlanDelta (store : option ArtifactStoreGet) (decode : any → result PlanDelta) :
    PlanDeltaProvider := λ input,
  let refs := planDeltaArtifacts (pdi_Artifacts input) in
  if bool_decide (refs = []) then Ok None else
  match store with
  | None => Err (Errorf ErrInvalidArtifact "artifact store is required for plan expansion")
  | Some get =>
      combined ← foldM (λ combined ref,
        fail_if (ref_ArtifactID ref == "")
          (Errorf ErrInvalidArtifact "plan delta artifact %q has no artifact id");;
        payload ← storedArtifactPayload get (pdi_Spec input) ref;
        match payload with
        | None => Err (Errorf ErrArtifactNotFound "plan delta artifact %q has no payload")
        | Some payload =>
            delta ← map_err (λ _, Errorf ErrInvalidRunPlan "plan delta artifact %q: %w")
                      (decode payload);
            Ok {| delta_Nodes := delta_Nodes combined ++ delta_Nodes delta;
                  delta_Edges := delta_Edges combined ++ delta_Edges delta |}
        end) zero_PlanDelta refs;
      fail_if (bool_decide (delta_Nodes combined = []) && bool_decide (delta_Edges combined = []))
        (Errorf ErrInvalidRunPlan "plan delta artifacts produced an empty delta");;
      Ok (Some combined)
  end.

Definition not_expanded : EvaluatePlanExpansionOutput := {|
  epo_Expanded := false; epo_Delta := zero_PlanDelta; epo_Spec := zero_RunPlanSpec;
  epo_Plan := {| ep_Spec := zero_RunPlanSpec; ep_NodeByID := ∅; ep_EdgesByTo := ∅;
                 ep_EdgesByFrom := ∅; ep_Order := [] |};
  epo_ControlsByNode := ∅; epo_CapabilitiesByNode := ∅ |}.

Definition EvaluatePlanExpansionActivity (v : Validator) (provider : option PlanDeltaProvider)
    (input : evaluatePlanExpansionInput) : result EvaluatePlanExpansionOutput :=
  match provider with
  | None => Err (Errorf ErrInvalidRunPlan "plan delta provider is required")
  | Some next =>
      delta ← next {| pdi_Spec := epi_Spec input; pdi_Status := epi_Status input;
                      pdi_Node := epi_Node input; pdi_RunStatus := epi_RunStatus input;
                      pdi_Artifacts := epi_Artifacts input;
                      pdi_ExpansionCount := epi_ExpansionCount input |};
      match delta with
      | None => Ok not_expanded
      | Some delta =>
          expanded ← ApplyDelta v (epi_Spec input) delta (epi_ExpansionCount input);
          controls ← controlsByNode v expanded.2;
          capabilities ← capabilitiesByNode v expanded.2;
          Ok {| epo_Expanded := true; epo_Delta := delta; epo_Spec := expanded.1;
                epo_Plan := expanded.2; epo_ControlsByNode := controls;
                epo_CapabilitiesByNode := capabilities |}
      end
  end.

(** ** Artifacts: plan_artifacts.go *)

Definition validateArtifactOwnership (planID : string) (node : PlanNodeSpec) (status : RunStatus)
    (ref : ArtifactRef) : result unit :=
  fail_if ((ref_PlanID ref != "") && (ref_PlanID ref != planID))
    (Errorf ErrInvalidArtifact "node %q artifact %q belongs to plan %q");;
  fail_if ((ref_NodeID ref != "") && (ref_NodeID ref != node_NodeID node))
    (Errorf ErrInvalidArtifact "node %q artifact %q belongs to node %q");;
  fail_if ((ref_RunID ref != "") && (rs_RunID status != "") && (ref_RunID ref != rs_RunID status))
    (Errorf ErrInvalidArtifact "node %q artifact %q belongs to run %q").

Definition applyArtifactOwnership (planID : string) (node : PlanNodeSpec) (status : RunStatus)
    (ref : ArtifactRef) : ArtifactRef :=
  {| ref with
     ref_PlanID := if ref_PlanID ref == "" then planID else ref_PlanID ref;
     ref_NodeID := if ref_NodeID ref == "" then node_NodeID node else ref_NodeID ref;
     ref_RunID := if ref_RunID ref == "" then rs_RunID status else ref_RunID ref |}.

Definition normalizeArtifactRef (planID : string) (node : PlanNodeSpec) (status : RunStatus)
    (ref : ArtifactRef) : result ArtifactRef :=
  fail_if (ref_Name ref == "") (Errorf ErrInvalidArtifact "node %q returned artifact without name");;
  fail_if (ref_Kind ref == "") (Errorf ErrInvalidArtifact "node %q artifact %q kind is required");;
  fail_if (ref_ArtifactID ref == "")
    (Errorf ErrInvalidArtifact "node %q artifact %q requires artifact id");;
  validateArtifactOwnership planID node status ref;;
  Ok (applyArtifactOwnership planID node status ref).

Definition normalizeRunArtifacts (planID : string) (node : PlanNodeSpec) (status : RunStatus) :
    result (list ArtifactRef) :=
  foldM (λ refs ref, ref ← normalizeArtifactRef planID node status ref; Ok (refs ++ [ref]))
    [] (rs_Artifacts status).

Definition runSucceeded (lifecycle : string) : bool :=
  bool_decide (lifecycle ∈ ["completed"; "succeeded"]).

(** [json.Unmarshal] of an encoded document into a slice of maps. *)
Class JSONDecoding := { unmarshal_maps : json → result (list (gmap string any)) }.

Definition ArtifactOutputDocument `{!JSONDecoding} (refs : list ArtifactRef) : go_map any :=
  let empty := ASlice [] in
  Some {["artifacts" :=
    match Marshal (JArray (enc_ArtifactRef <$> refs)) ≫= unmarshal_maps with
    | Ok artifacts => ASlice (AMap <$> artifacts)
    | Err _ => empty
    end]}.

Definition ValidateCapabilityOutputArtifacts `{!JSONDecoding} (outputSchema : string)
    (refs : list ArtifactRef) : result unit :=
  if outputSchema == "" then Ok tt
  else contract_wrap (validateRawSchema outputSchema (any_of_map (ArtifactOutputDocument refs)))
         "capability output schema: %s".

Definition activity_validatePublishedArtifacts `{!JSONDecoding} (v : Validator)
    (store : option ArtifactStoreGet) (spec : RunPlanSpec) (node : PlanNodeSpec)
    (refs : list ArtifactRef) : result unit :=
  ValidateArtifactsAgainstSpecs (node_Outputs node) refs;;
  ValidateArtifactPayloadsAgainstSchemas store (v_ArtifactSchemas v) spec node refs;;
  capability ← node_capability v node;
  match capability with
  | None => Ok tt
  | Some capability => ValidateCapabilityOutputArtifacts (cap_OutputSchema capability) refs
  end.

(** The loop over the refs: each is claimed under its own key; what was stored before a
    failure stays. *)
Fixpoint put_refs {S} `{!ArtifactPutStore S, !Sha256} (now : time) (s : S)
    (input : publishPlanArtifactsInput) (refs stored : list ArtifactRef) :
    S * result (list ArtifactRef) :=
  match refs with
  | [] => (s, Ok stored)
  | ref :: refs =>
      match ArtifactPublishIdempotencyKey (spec_PlanID (ppi_Spec input))
              (node_NodeID (ppi_Node input)) (rs_RunID (ppi_Status input)) (ref_Name ref) with
      | Err e => (s, Err e)
      | Ok key =>
          match put_artifact now s ref PayloadNil key with
          | (s, Err e) => (s, Err e)
          | (s, Ok storedRef) => put_refs now s input refs (stored ++ [storedRef])
          end
      end
  end.

Definition PublishPlanArtifactsActivity {S} `{!ArtifactPutStore S, !Sha256, !JSONDecoding}
    (v : Validator) (get : S → ArtifactStoreGet) (now : time) (store : S)
    (input : publishPlanArtifactsInput) : S * result PublishPlanArtifactsOutput :=
  match
    refs ← normalizeRunArtifacts (spec_PlanID (ppi_Spec input)) (ppi_Node input) (ppi_Status input);
    (if runSucceeded (rs_LifecycleState (ppi_Status input)) then
       activity_validatePublishedArtifacts v (Some (get store)) (ppi_Spec input) (ppi_Node input) refs
     else Ok tt);;
    Ok refs
  with
  | Err e => (store, Err e)
  | Ok refs =>
      match put_refs now store input refs [] with
      | (store, Err e) => (store, Err e)
      | (store, Ok stored) => (store, Ok {| ppo_Artifacts := stored |})
      end
  end.
End validation.

(** ** Runs *)

Section runs.
Context `{!Sha256}.

(** [PlanNodeStarter.StartPlanNode]. *)
Definition PlanNodeStarter : Type := string → string → RunSpec → result RunStatus.

Definition StartPlanNodeActivity (start : PlanNodeStarter) (input : startPlanNodeInput) :
    result StartPlanNodeOutput :=
  let attempt := if (spi_Attempt input <=? 0)%Z then 1%Z else spi_Attempt input in
  let node := spi_Node input in
  let run := node_Run node in
  key ← (if run_IdempotencyKey run == "" then
           NodeStartIdempotencyKey (spi_PlanID input) (node_NodeID node) attempt
         else Ok (run_IdempotencyKey run));
  fail_if (spi_AccountID input == "") (Errorf ErrInvalidRunSpec "account id is required");;
  fail_if (spi_ProjectID input == "") (Errorf ErrInvalidRunSpec "project id is required");;
  let run := {| run with run_IdempotencyKey := key; run_AccountID := spi_AccountID input;
                         run_ProjectID := spi_ProjectID input |} in
  status ← start (spi_PlanID input) (node_NodeID node) run;
  let status := {| status with rs_RunID := if rs_RunID status == "" then run_RunID run
                                           else rs_RunID status |} in
  fail_if (rs_RunID status != run_RunID run)
    (Errorf ErrInvalidRunSpec "backend returned run id %q for requested run %q");;
  Ok {| spo_Status := status |}.

(** Live publication is best effort and not part of the result. *)
Definition PersistPlanStateActivity {S} `{!PlanTransitionStore S} (now : time) (store : S)
    (input : persistPlanStateInput) : S * result PersistPlanStateOutput :=
  let snapshot := {| snap_Spec := psi_Spec input; snap_Status := psi_Status input |} in
  match persist_transition now store (Some snapshot) (Some (psi_Event input))
          (psi_IdempotencyKey input) with
  | (store, Err e) => (store, Err e)
  | (store, Ok event) => (store, Ok {| pso_Event := event |})
  end.

(** [Runtime.Status], [Runtime.Control] and [Runtime.Signal]. *)
Definition StatusPlanNodeActivity (status : RunRef → result RunStatus)
    (input : statusPlanNodeInput) : result StatusPlanNodeOutput :=
  status ← status {| rref_RunID := sni_RunID input; rref_AccountID := sni_AccountID input;
                     rref_ProjectID := sni_ProjectID input |};
  Ok {| sno_Status := status |}.

Definition ControlPlanNodeActivity (control : RunRef → ControlRequest → result unit)
    (input : controlPlanNodeInput) : result unit :=
  control {| rref_RunID := cni_RunID input; rref_AccountID := cni_AccountID input;
             rref_ProjectID := cni_ProjectID input |} (cni_Control input).

Definition SignalPlanNodeActivity (signal : RunRef → Signal → result unit)
    (input : signalPlanNodeInput) : result unit :=
  signal {| rref_RunID := gni_RunID input; rref_AccountID := gni_AccountID input;
            rref_ProjectID := gni_ProjectID input |} (gni_Signal input).
End runs.
