(* ===== verification/Workflow.v ===== *)
(** * The plan workflow

    agentos/temporal/plan_workflow.go: the durable loop that executes a plan.  One
    definition per function, in the order of the calls: state events and their
    persistence, node attempts, terminal runs and expansions, guards, controls, signals,
    scheduling, one iteration, and [PlanWorkflow].  The code's [state], [spec],
    [validation], [expansionCount], processed keys and operation registry live in
    [Exec]; the immutable part of [planWorkflowRuntime] is an argument.  Variables of
    CEL (variables.go), the workflow version window (workflow_versioning.go), search
    attribute synchronisation (search_attributes.go) and the artifact checks of
    plan_artifacts.go used here are modelled with it. *)

From stdpp Require Import pretty.
From S2P Require Import Prelude Types Graph Scope Contracts Validator State Scheduler Json Policy.
From S2P Require Import Events Temporal.

(** ** Constants *)

Definition PlanWorkflowName : string := "AgentOSPlanWorkflow".
Definition PlanStatusQueryName : string := "agentos.plan.status".
Definition planNodePollInterval : Z := 5 * second.
Definition defaultPlanParallelism : Z := 32.
Definition planSearchAttributesVersionMarker : string := "agentos-plan-search-attributes".
Definition planNexusNodeRunsVersionMarker : string := "agentos-plan-nexus-node-runs".
Definition planNodeNexusDefaultTimeout : Z := 24 * 3600 * second.
Definition planNodePromiseWaitSlack : Z := second.
Definition planNodeNexusDrainTimeout : Z := 30 * second.
Definition planNodeNexusCancelGrace : Z := 30 * second.
Definition nexusRunScheduleToStartTimeout : Z := 300 * second.

(** Run lifecycles. *)
Definition COMPLETED : string := "completed".
Definition SUCCEEDED : string := "succeeded".
Definition FAILED : string := "failed".
Definition CANCELED : string := "canceled".

(** ** workflow_versioning.go *)

Definition currentPlanWorkflowVersion : Z := 1.
Definition workflowVersionCompatibilityWindow : Z := 1.

Definition validateWorkflowVersion (workflowName : string) (got want : Z) : result unit :=
  let minAccepted := Z.max (want - workflowVersionCompatibilityWindow) 1 in
  if ((minAccepted <=? got) && (got <=? want))%Z then Ok tt
  else Err (Errorf ErrOther "%s got %d outside replay compatibility window for worker version %d").

Definition validatePlanWorkflowVersion (got : Z) : result unit :=
  validateWorkflowVersion PlanWorkflowName got currentPlanWorkflowVersion.

(** ** variables.go *)

(** A plan or a status stored in an interface; only the expression evaluator, a
    parameter, looks into it. *)
Class Boxing := { box_spec : RunPlanSpec → any; box_status : RunPlanStatus → any }.

Definition artifacts_by_node (refs : list ArtifactRef) : gmap string (list ArtifactRef) :=
  foldl (λ m ref, if ref_NodeID ref == "" then m else push m (ref_NodeID ref) ref) ∅ refs.

Definition Variables `{!Boxing} (spec : RunPlanSpec) (status : RunPlanStatus) : Vars :=
  let artifactsByNode :=
    AMap ((λ refs, AValue (VArtifacts refs)) <$> artifacts_by_node (st_Artifacts status)) in
  Some {["plan" := box_spec spec;
         "inputs" := any_of_map (spec_Inputs spec);
         "outputs" := artifactsByNode;
         "artifacts" := artifactsByNode;
         "metadata" := any_of_map (fmap (M := gmap string) AString <$> spec_Metadata spec);
         "status" := box_status status]}.

(** ** Pure helpers *)

Definition zero_PlanApprovalGate : PlanApprovalGate := {|
  gate_Summary := ""; gate_NodeIDs := []; gate_RiskReason := ""; gate_PolicyVersion := "";
  gate_RequestedAt := zero_time; gate_ExpiresAt := zero_time |}.

Definition zero_StateEvent : StateEvent := {|
  se_Kind := ""; se_NodeID := ""; se_RunID := ""; se_Reason := ""; se_Attempt := 0;
  se_Expansion := zero_PlanDelta; se_Artifacts := []; se_BudgetDelta := zero_PlanBudgetUsage;
  se_InputTrace := zero_InputResolutionTrace; se_Capability := zero_CapabilitySelectionTrace;
  se_ConditionTraces := []; se_PreviousLifecycleState := ""; se_NextLifecycleState := "";
  se_At := zero_time; se_Approval := None |}.

(** [StateEvent{Kind: kind, Reason: reason}], the event of a plan. *)
Definition plan_event (kind reason : string) : StateEvent :=
  {| zero_StateEvent with se_Kind := kind; se_Reason := reason |}.

(** [StateEvent{Kind: kind, NodeID: nodeID, RunID: runID, Reason: reason}]. *)
Definition node_event (kind nodeID runID reason : string) : StateEvent :=
  {| zero_StateEvent with se_Kind := kind; se_NodeID := nodeID; se_RunID := runID;
                          se_Reason := reason |}.

Definition lifecycleForEvent (status : RunPlanStatus) (event : StateEvent) : string :=
  if se_NodeID event == "" then st_LifecycleState status else
  match list_find (λ n, ns_NodeID n = se_NodeID event) (st_Nodes status) with
  | Some (_, n) => ns_LifecycleState n
  | None => ""
  end.

Definition planTerminal (lifecycle : string) : bool :=
  bool_decide (lifecycle ∈ [PlanLifecycleSucceeded; PlanLifecycleFailed; PlanLifecycleCanceled]).

Definition planNodeTerminal (lifecycle : string) : bool :=
  bool_decide (lifecycle ∈ [PlanNodeSucceeded; PlanNodeFailed; PlanNodeSkipped; PlanNodeCanceled]).

Definition runTerminal (lifecycle : string) : bool :=
  bool_decide (lifecycle ∈ [COMPLETED; SUCCEEDED; FAILED; CANCELED]).

Definition planNodesTerminal (status : RunPlanStatus) : bool :=
  if bool_decide (st_Nodes status = []) then false
  else forallb (λ n, planNodeTerminal (ns_LifecycleState n)) (st_Nodes status).

Definition runningNodeCount (status : RunPlanStatus) : Z :=
  Z.of_nat (length (filter (λ n, ns_LifecycleState n = PlanNodeRunning) (st_Nodes status))).

Definition normalizePlanParallelism (maxParallel : Z) : Z :=
  if (maxParallel <=? 0)%Z then defaultPlanParallelism else maxParallel.

Definition nodeSchedulable (state : State) (nodeID : string) : bool :=
  match NodeStatus state nodeID with
  | None => false
  | Some status => bool_decide (ns_LifecycleState status ∈ [PlanNodePending; PlanNodeReady])
  end.

Definition nodeTimedOut (now : time) (status : PlanNodeStatus) (node : PlanNodeSpec) : bool :=
  if (ns_LifecycleState status != PlanNodeRunning) || time_is_zero (ns_StartedAt status) ||
     (npol_TimeoutSeconds (node_Policy node) <=? 0)%Z then false
  else negb (time_before now (time_add (ns_StartedAt status)
                                (seconds (npol_TimeoutSeconds (node_Policy node))))).

Definition nextNodeAttempt (state : State) (nodeID : string) : Z :=
  match NodeStatus state nodeID with
  | None => 1
  | Some status => int32 (ns_Attempts status + 1)
  end.

Definition nodeRunIDForAttempt (baseRunID : string) (attempt : Z) : string :=
  if (attempt <=? 1)%Z then baseRunID else baseRunID +:+ "-attempt-" +:+ pretty attempt.

Definition maxNodeAttempts (policy : NodePolicy) : Z :=
  if (npol_MaxAttempts policy <=? 0)%Z then 1 else npol_MaxAttempts policy.

(** Writes the attempt's run id and start key into the caller's node and returns it. *)
Definition nodeForAttempt `{!Sha256} (planID : string) (node : PlanNodeSpec) (attempt : Z) :
    result PlanNodeSpec :=
  fail_if (attempt <=? 0)%Z (Errorf ErrInvalidRunPlan "node start attempt must be positive");;
  let run := node_Run node in
  key ← NodeStartIdempotencyKey planID (node_NodeID node) attempt;
  Ok {| node with node_Run :=
        {| run with run_RunID := nodeRunIDForAttempt (run_RunID run) attempt;
                    run_IdempotencyKey := key |} |}.

Definition nexusEndpointFor (peers : go_map string) (localEndpoint peer : string) :
    result string :=
  if peer == "" then Ok localEndpoint else
  match map_get peers peer with
  | Some endpoint => Ok endpoint
  | None => Err (Errorf ErrInvalidRunPlan "peer %q has no Nexus endpoint in this deployment")
  end.

Definition validatePlanNodePeers (spec : RunPlanSpec) (peers : go_map string) : result unit :=
  forM (λ node, map_err (λ _, Errorf ErrInvalidRunPlan "node %q: %w")
                  (nexusEndpointFor peers "" (node_Peer node);; Ok tt)) (spec_Nodes spec).

Definition conditionTracesForDecision (decision : SchedulerDecision) :
    list ConditionEvaluationTrace :=
  let nodeIDs := (node_NodeID <$> sd_Ready decision) ++ (skip_NodeID <$> sd_Skipped decision) in
  filter (λ t, cet_NodeID t ∈ nodeIDs) (sd_ConditionTraces decision).

Definition hasPlanDeltaArtifact (artifacts : list ArtifactRef) : bool :=
  existsb (λ ref, ref_Kind ref == ArtifactKindPlanDelta) artifacts.

Definition nodeSupportsControl (controlsByNode : gmap string (list string)) (nodeID op : string) :
    bool :=
  bool_decide (op ∈ default [] (controlsByNode !! nodeID)).

Definition planNodeRunRef (spec : RunPlanSpec) (runID : string) : RunRef :=
  {| rref_RunID := runID; rref_AccountID := spec_AccountID spec;
     rref_ProjectID := spec_ProjectID spec |}.

(** plan_artifacts.go *)
Definition validateRequiredArtifacts (outputs : list ArtifactSpec) (refs : list ArtifactRef) :
    result unit :=
  ValidateArtifactsAgainstSpecs outputs refs.

(** ** Continuation input *)

(** A map whose values are all [true] is the set of its keys. *)
Definition processedPlanWorkflowKeys (keys : list string) : gset string :=
  foldl (λ processed key, if key == "" then processed else {[key]} ∪ processed) ∅ keys.

Definition sortedPlanWorkflowKeys (processed : gset string) : list string :=
  sort_strings (filter (λ key, key ≠ "") (elements processed)).

Definition continuedPlanWorkflowInput (input : planWorkflowInput) (spec : RunPlanSpec)
    (state : State) (expansionCount iterationCount : Z)
    (processedControls processedSignals : gset string) : planWorkflowInput :=
  {| input with
     pwi_Spec := spec;
     pwi_Status := Status state;
     pwi_Continued := true;
     pwi_ContinuationCount := int32 (pwi_ContinuationCount input + 1);
     pwi_IterationCount := iterationCount;
     pwi_ExpansionCount := expansionCount;
     pwi_ProcessedControls := sortedPlanWorkflowKeys processedControls;
     pwi_ProcessedSignals := sortedPlanWorkflowKeys processedSignals |}.

Definition initialPlanWorkflowState (input : planWorkflowInput) (now : time) : result State :=
  if pwi_Continued input then NewStateFromStatus (pwi_Spec input) (pwi_Status input)
  else Ok (NewState (pwi_Spec input) now).

(** The immutable part of [planWorkflowRuntime]. *)
Record planWorkflowRuntime := {
  rt_Scheduler : Scheduler;
  rt_MaxParallel : Z;
  rt_NexusPeers : go_map string;
  rt_NexusEndpoint : string;
  rt_NexusNodeRuns : bool;
}.

(** A Go map iterates over its keys in an unspecified order. *)
Class MapOrder := {
  map_keys : ∀ {A}, gmap string A → list string;
  map_keys_perm : ∀ {A} (m : gmap string A), map_keys m ≡ₚ (map_to_list m).*1;
}.

Section workflow.
Context (env : Env) `{!Sha256, !GoQuote, !SliceSort, !ErrorText, !Boxing, !MapOrder}.

Definition set_state (s : State) : W unit := modify (λ x, {| x with x_state := s |}).

(** ** State events *)

Definition applyPlanStateEvent (spec : RunPlanSpec) (event : StateEvent) : W unit :=
  now ← (if time_is_zero (se_At event) then perform env Now else mret (se_At event));
  state ← gets x_state;
  let event := {| event with se_At := now;
                             se_PreviousLifecycleState := lifecycleForEvent (Status state) event |} in
  wall ← (if time_is_zero now then perform env WallClock else mret now);
  let '(state, r) := Apply wall state event in
  set_state state;;
  lift r;;
  let event := {| event with se_NextLifecycleState := lifecycleForEvent (Status state) event |} in
  published ← lift (PlanEventFromStateEvent spec (Status state) event);
  persisted ← perform env (PersistPlanState {|
    psi_Spec := spec; psi_Status := Status state; psi_Event := published.1;
    psi_IdempotencyKey := published.2 |});
  lift persisted;;
  mret tt.

(** The event applied for the current spec. *)
Definition emit (event : StateEvent) : W unit :=
  spec ← gets x_spec;
  applyPlanStateEvent spec event.

(** ** Node attempts *)

Definition applyNodeAttemptFailure (node : PlanNodeSpec) (runID reason : string) : W unit :=
  let reason := if reason == "" then "node attempt failed" else reason in
  state ← gets x_state;
  match NodeStatus state (node_NodeID node) with
  | None => throw (Plain err_unknown_node)
  | Some current =>
      let failedAttempt := if (ns_Attempts current <=? 0)%Z then 1%Z else ns_Attempts current in
      let nextAttempt := int32 (failedAttempt + 1) in
      if (failedAttempt <? maxNodeAttempts (node_Policy node))%Z then
        emit {| zero_StateEvent with
                se_Kind := EventNodeRetryScheduled; se_NodeID := node_NodeID node;
                se_RunID := runID; se_Reason := reason; se_Attempt := nextAttempt |}
      else emit (node_event EventNodeFailed (node_NodeID node) runID reason)
  end.

(** [None] when the attempt's failure is already recorded; otherwise the node with the
    attempt's run id and key, and the attempt to start, with its input. *)
Definition resolvePlanNodeAttempt (node : PlanNodeSpec) (incomingEdges : list PlanEdgeSpec)
    (attempt : Z) : W (option (PlanNodeSpec * PlanNodeSpec)) :=
  spec ← gets x_spec;
  node ← lift (nodeForAttempt (spec_PlanID spec) node attempt);
  state ← gets x_state;
  resolved ← perform env (ResolvePlanNodeInput {|
    rni_Spec := spec; rni_Status := Status state; rni_Node := node; rni_Edges := incomingEdges |});
  match resolved with
  | Err e =>
      applyNodeAttemptFailure node (run_RunID (node_Run node))
        ("resolve input for attempt " +:+ pretty attempt +:+ " failed: " +:+ Error (Plain e));;
      mret None
  | Ok resolved =>
      let run := node_Run node in
      let attemptNode := {| node with node_Run := {| run with run_Input := rno_Input resolved |} |} in
      emit {| zero_StateEvent with
              se_Kind := EventNodeInputResolved; se_NodeID := node_NodeID node;
              se_RunID := run_RunID run; se_InputTrace := rno_Trace resolved |};;
      emit {| zero_StateEvent with
              se_Kind := EventNodeStarted; se_NodeID := node_NodeID node;
              se_RunID := run_RunID run; se_Attempt := attempt |};;
      mret (Some (node, attemptNode))
  end.

Definition startPlanNodeViaNexus (rt : planWorkflowRuntime) (node attemptNode : PlanNodeSpec)
    (attempt : Z) : W unit :=
  spec ← gets x_spec;
  let run := node_Run attemptNode in
  let runSpec := {| run with run_AccountID := spec_AccountID spec;
                             run_ProjectID := spec_ProjectID spec |} in
  key ← (if run_IdempotencyKey runSpec == "" then
           lift (NodeStartIdempotencyKey (spec_PlanID spec) (node_NodeID node) attempt)
         else mret (run_IdempotencyKey runSpec));
  let runSpec := {| runSpec with run_IdempotencyKey := key |} in
  let timeout := if (0 <? npol_TimeoutSeconds (node_Policy node))%Z
                 then int64 (seconds (npol_TimeoutSeconds (node_Policy node)) +
                             planNodeNexusCancelGrace)
                 else planNodeNexusDefaultTimeout in
  let options := {|
    nx_ScheduleToStartTimeout := nexusRunScheduleToStartTimeout;
    nx_StartToCloseTimeout := timeout;
    nx_ScheduleToCloseTimeout := int64 (timeout + nexusRunScheduleToStartTimeout) |} in
  endpoint ← lift (nexusEndpointFor (rt_NexusPeers rt) (rt_NexusEndpoint rt) (node_Peer node));
  future ← gets (λ x, length (x_log x));
  perform env (ExecuteOperation endpoint
    {| rq_RequestID := run_IdempotencyKey runSpec; rq_Spec := runSpec;
       rq_PlanScope := Some {| scope_PlanID := spec_PlanID spec; scope_NodeID := node_NodeID node |} |}
    options);;
  modify (λ x, {| x with x_runs := <[run_RunID runSpec := {| pnr_future := future |}]> (x_runs x) |}).

(** ** Terminal runs *)

Definition applyRunBudgetUsage (node : PlanNodeSpec) (status : RunStatus) : W unit :=
  if usage_SpentCents (rs_BudgetUsage status) == 0%Z then mret tt
  else if (usage_SpentCents (rs_BudgetUsage status) <? 0)%Z then
    throw (Plain (Errorf ErrInvalidRunPlan "run %q reported negative budget usage"))
  else emit {| zero_StateEvent with
               se_Kind := EventBudgetReported; se_NodeID := node_NodeID node;
               se_RunID := rs_RunID status; se_BudgetDelta := rs_BudgetUsage status |}.

Definition applyPlanExpansion (node : PlanNodeSpec) (status : RunStatus)
    (artifacts : list ArtifactRef) : W unit :=
  if negb (hasPlanDeltaArtifact artifacts) then mret tt else
  spec ← gets x_spec;
  state ← gets x_state;
  count ← gets x_expansionCount;
  answer ← perform env (EvaluatePlanExpansion {|
    epi_Spec := spec; epi_Status := Status state; epi_Node := node; epi_RunStatus := status;
    epi_Artifacts := artifacts; epi_ExpansionCount := count |});
  expanded ← lift answer;
  if negb (epo_Expanded expanded) then mret tt else
  applyPlanStateEvent (epo_Spec expanded)
    {| zero_StateEvent with se_Kind := EventPlanExpanded; se_Expansion := epo_Delta expanded |};;
  modify (λ x, {| x with
    x_spec := epo_Spec expanded;
    x_validation := {| vpo_Plan := epo_Plan expanded;
                       vpo_ControlsByNode := epo_ControlsByNode expanded;
                       vpo_CapabilitiesByNode := epo_CapabilitiesByNode expanded |};
    x_expansionCount := int32 (x_expansionCount x + 1) |}).

Definition applyNodeRunTerminal (node : PlanNodeSpec) (status : RunStatus) : W unit :=
  applyRunBudgetUsage node status;;
  spec ← gets x_spec;
  published ← perform env (PublishPlanArtifacts
    {| ppi_Spec := spec; ppi_Node := node; ppi_Status := status |});
  match published with
  | Err e => emit (node_event EventNodeFailed (node_NodeID node) (rs_RunID status) (Error (Plain e)))
  | Ok published =>
      let artifacts := ppo_Artifacts published in
      (if bool_decide (artifacts = []) then mret tt
       else emit {| zero_StateEvent with
                    se_Kind := EventArtifactsPublished; se_NodeID := node_NodeID node;
                    se_RunID := rs_RunID status; se_Artifacts := artifacts |});;
      if bool_decide (rs_LifecycleState status ∈ [COMPLETED; SUCCEEDED]) then
        match validateRequiredArtifacts (node_Outputs node) artifacts with
        | Err e => applyNodeAttemptFailure node (rs_RunID status) (Error (Plain e))
        | Ok _ =>
            applyPlanExpansion node status artifacts;;
            emit (node_event EventNodeSucceeded (node_NodeID node) (rs_RunID status) "")
        end
      else if rs_LifecycleState status == FAILED then
        applyNodeAttemptFailure node (rs_RunID status) (rs_Reason status)
      else if rs_LifecycleState status == CANCELED then
        emit (node_event EventNodeCanceled (node_NodeID node) (rs_RunID status) (rs_Reason status))
      else mret tt
  end.

Definition startPlanNode (rt : planWorkflowRuntime) (node : PlanNodeSpec)
    (incomingEdges : list PlanEdgeSpec) : W unit :=
  validation ← gets x_validation;
  (match vpo_CapabilitiesByNode validation !! node_NodeID node with
   | Some capability =>
       emit {| zero_StateEvent with se_Kind := EventCapabilitySelected;
               se_NodeID := node_NodeID node; se_Capability := capability |}
   | None => mret tt
   end);;
  emit (node_event EventNodeReady (node_NodeID node) "" "");;
  state ← gets x_state;
  let attempt := nextNodeAttempt state (node_NodeID node) in
  resolved ← resolvePlanNodeAttempt node incomingEdges attempt;
  match resolved with
  | None => mret tt
  | Some (node, attemptNode) =>
      if rt_NexusNodeRuns rt then startPlanNodeViaNexus rt node attemptNode attempt else
      spec ← gets x_spec;
      started ← perform env (StartPlanNode {|
        spi_PlanID := spec_PlanID spec; spi_AccountID := spec_AccountID spec;
        spi_ProjectID := spec_ProjectID spec; spi_Node := attemptNode; spi_Attempt := attempt |});
      match started with
      | Err e =>
          applyNodeAttemptFailure node (run_RunID (node_Run attemptNode))
            ("start attempt " +:+ pretty attempt +:+ " failed: " +:+ Error (Plain e))
      | Ok started =>
          if runTerminal (rs_LifecycleState (spo_Status started))
          then applyNodeRunTerminal node (spo_Status started)
          else mret tt
      end
  end.

(** ** Operation promises *)

(** [r.runs[runID]] with [IsReady]: [None] without a promise. *)
Definition promise_ready (runID : string) : W (option bool) :=
  runs ← gets x_runs;
  match runs !! runID with
  | None => mret None
  | Some run => ready ← perform env (IsReady (pnr_future run)); mret (Some ready)
  end.

Definition cancelRun (runID : string) : W unit :=
  runs ← gets x_runs;
  match runs !! runID with
  | None => mret tt
  | Some run => perform env (CancelOperation (pnr_future run));; mret tt
  end.

Definition remove (runID : string) : W unit :=
  modify (λ x, {| x with x_runs := delete runID (x_runs x) |}).

(** Stops at the first running node with an unresolved promise. *)
Fixpoint hasRunningPendingPromise (statuses : list PlanNodeStatus) : W bool :=
  match statuses with
  | [] => mret false
  | node :: statuses =>
      if (ns_LifecycleState node != PlanNodeRunning) || (ns_RunID node == "") then
        hasRunningPendingPromise statuses
      else
        ready ← promise_ready (ns_RunID node);
        match ready with
        | Some false => mret true
        | _ => hasRunningPendingPromise statuses
        end
  end.

Definition applyNexusNodePromise (node : PlanNodeStatus) (nodeSpec : PlanNodeSpec)
    (run : planNodeRun) : W bool :=
  remove (ns_RunID node);;
  out ← perform env (GetOperation (pnr_future run));
  match out with
  | Err e =>
      emit (node_event EventNodeFailed (ns_NodeID node) (ns_RunID node) (Error (Plain e)));;
      mret true
  | Ok out =>
      if negb (runTerminal (rs_LifecycleState (ro_Status out))) then mret false
      else applyNodeRunTerminal nodeSpec (ro_Status out);; mret true
  end.

Definition applySettledNexusNodePromises : W bool :=
  range_nodes (λ progressed node,
    if (ns_LifecycleState node != PlanNodeRunning) || (ns_RunID node == "") then mret progressed
    else
      runs ← gets x_runs;
      match runs !! ns_RunID node with
      | None => mret progressed
      | Some run =>
          ready ← perform env (IsReady (pnr_future run));
          if negb ready then mret progressed else
          validation ← gets x_validation;
          match ep_NodeByID (vpo_Plan validation) !! ns_NodeID node with
          | None => throw (Plain err_unknown_node)
          | Some nodeSpec =>
              nodeProgressed ← applyNexusNodePromise node nodeSpec run;
              mret (progressed || nodeProgressed)
          end
      end) false.

(** The results are (settled, paced). *)
Definition settleNexusNodePromises (rt : planWorkflowRuntime) : W (bool * bool) :=
  if negb (rt_NexusNodeRuns rt) then mret (false, false) else
  state ← gets x_state;
  pending ← hasRunningPendingPromise (st_Nodes (Status state));
  if negb pending then mret (false, false) else
  awaited ← perform env (AwaitWithTimeout (planNodePollInterval + planNodePromiseWaitSlack));
  lift awaited;;
  progressed ← applySettledNexusNodePromises;
  mret (progressed, true).

(** [drainResolved]: the result of a settled operation is read and dropped. *)
Definition drainResolved : W unit :=
  runs ← gets x_runs;
  forW (λ runID,
    match runs !! runID with
    | None => mret tt
    | Some run =>
        ready ← perform env (IsReady (pnr_future run));
        if negb ready then mret tt
        else perform env (GetOperation (pnr_future run));; remove runID
    end) (map_keys runs).

Definition drainNexusNodeRuns (rt : planWorkflowRuntime) : W unit :=
  runs ← gets x_runs;
  if negb (rt_NexusNodeRuns rt) || bool_decide (size runs = 0) then mret tt else
  forW cancelRun (map_keys runs);;
  perform env (AwaitWithTimeout planNodeNexusDrainTimeout);;
  drainResolved.

(** ** Polling *)

Definition cancelTimedOutNode (node : PlanNodeStatus) : W unit :=
  spec ← gets x_spec;
  if ns_RunID node == "" then
    throw (Plain (Errorf ErrInvalidRunPlan "timed out node %q has no active run id"))
  else
    key ← lift (NodeTimeoutControlIdempotencyKey (spec_PlanID spec) (ns_NodeID node) (ns_RunID node));
    let control := {| zero_ControlRequest with ctl_Operation := ControlCancel;
                                               ctl_IdempotencyKey := key |} in
    let nodeRef := planNodeRunRef spec (ns_RunID node) in
    r ← perform env (ControlPlanNode {|
      cni_RunID := rref_RunID nodeRef; cni_AccountID := rref_AccountID nodeRef;
      cni_ProjectID := rref_ProjectID nodeRef; cni_Control := control |});
    lift r.

Definition handleTimedOutPlanNode (node : PlanNodeStatus) (nodeSpec : PlanNodeSpec) : W bool :=
  cancelTimedOutNode node;;
  cancelRun (ns_RunID node);;
  applyNodeAttemptFailure nodeSpec (ns_RunID node)
    ("node timed out after " +:+ pretty (npol_TimeoutSeconds (node_Policy nodeSpec)) +:+ " seconds");;
  mret true.

Definition markRunningPlanNodeSucceeded (node : PlanNodeStatus) : W bool :=
  emit (node_event EventNodeSucceeded (ns_NodeID node) "" "");; mret true.

Definition refreshNexusBackedPlanNode (node : PlanNodeStatus) (nodeSpec : PlanNodeSpec)
    (run : planNodeRun) : W bool :=
  ready ← perform env (IsReady (pnr_future run));
  if negb ready then mret false else applyNexusNodePromise node nodeSpec run.

Definition refreshRunningPlanNode (node : PlanNodeStatus) (nodeSpec : PlanNodeSpec) : W bool :=
  runs ← gets x_runs;
  match runs !! ns_RunID node with
  | Some run => refreshNexusBackedPlanNode node nodeSpec run
  | None =>
      spec ← gets x_spec;
      let nodeRef := planNodeRunRef spec (ns_RunID node) in
      current ← perform env (StatusPlanNode {|
        sni_RunID := rref_RunID nodeRef; sni_AccountID := rref_AccountID nodeRef;
        sni_ProjectID := rref_ProjectID nodeRef |});
      match current with
      | Err e => emit (node_event EventNodeFailed (ns_NodeID node) "" (Error (Plain e)));; mret true
      | Ok current =>
          if negb (runTerminal (rs_LifecycleState (sno_Status current))) then mret false
          else applyNodeRunTerminal nodeSpec (sno_Status current);; mret true
      end
  end.

Definition pollRunningPlanNode (now : time) (node : PlanNodeStatus) : W bool :=
  validation ← gets x_validation;
  match ep_NodeByID (vpo_Plan validation) !! ns_NodeID node with
  | None => throw (Plain err_unknown_node)
  | Some nodeSpec =>
      if nodeTimedOut now node nodeSpec then handleTimedOutPlanNode node nodeSpec
      else if ns_RunID node == "" then markRunningPlanNodeSucceeded node
      else refreshRunningPlanNode node nodeSpec
  end.

Definition pollRunningPlanNodes : W bool :=
  now ← perform env Now;
  range_nodes (λ progressed node,
    if ns_LifecycleState node != PlanNodeRunning then mret progressed else
    nodeProgressed ← pollRunningPlanNode now node;
    mret (progressed || nodeProgressed)) false.

(** ** Controls of active nodes *)

Definition activePlanNodeControlInputs (spec : RunPlanSpec) (status : RunPlanStatus)
    (control : ControlRequest) (controlsByNode : gmap string (list string)) :
    result (list controlPlanNodeInput) :=
  foldM (λ inputs node,
    if (ns_LifecycleState node != PlanNodeRunning) || (ns_RunID node == "") then Ok inputs else
    fail_if ((ctl_Operation control != ControlCancel) &&
             negb (nodeSupportsControl controlsByNode (ns_NodeID node) (ctl_Operation control)))
      (Errorf ErrInvalidControlOperation "node %q does not declare support for %s");;
    key ← NodeControlIdempotencyKey (spec_PlanID spec) (ns_NodeID node) (ctl_Operation control)
            (ctl_IdempotencyKey control);
    let nodeRef := planNodeRunRef spec (ns_RunID node) in
    Ok (inputs ++ [{| cni_RunID := rref_RunID nodeRef; cni_AccountID := rref_AccountID nodeRef;
                      cni_ProjectID := rref_ProjectID nodeRef;
                      cni_Control := {| control with ctl_IdempotencyKey := key |} |}]))
    [] (st_Nodes status).

Definition controlActivePlanNodes (control : ControlRequest)
    (controlsByNode : gmap string (list string)) : W unit :=
  spec ← gets x_spec;
  state ← gets x_state;
  inputs ← lift (activePlanNodeControlInputs spec (Status state) control controlsByNode);
  forW (λ input, r ← perform env (ControlPlanNode input); lift r) inputs.

Definition markActivePlanNodesCanceled (reason : string) : W unit :=
  let reason := if reason == "" then "cancel requested" else reason in
  state ← gets x_state;
  let running := filter (λ n, ns_LifecycleState n = PlanNodeRunning) (st_Nodes (Status state)) in
  forW (λ n, emit (node_event EventNodeCanceled (ns_NodeID n) (ns_RunID n) reason)) running.

(** ** Guards *)

Definition cancelActivePlanNodesAndFail (controlsByNode : gmap string (list string))
    (kind idempotencyKey reason : string) : W unit :=
  controlActivePlanNodes {| zero_ControlRequest with ctl_Operation := ControlCancel;
                                                     ctl_IdempotencyKey := idempotencyKey |}
    controlsByNode;;
  markActivePlanNodesCanceled reason;;
  emit (plan_event kind reason).

Definition applyPlanBudgetGuard (controlsByNode : gmap string (list string)) : W bool :=
  spec ← gets x_spec;
  state ← gets x_state;
  let usage := st_BudgetUsage (Status state) in
  if negb (BudgetExceeded (spec_Policy spec) usage) then mret false else
  key ← lift (BudgetExceededControlIdempotencyKey (spec_PlanID spec) usage
                (pol_BudgetCents (spec_Policy spec)));
  cancelActivePlanNodesAndFail controlsByNode EventPlanFailed key
    (BudgetExceededReason (spec_Policy spec) usage);;
  mret true.

Record planDeadlineGuardParams := {
  dg_expired : PlanPolicy → time → time → bool;
  dg_anchor : RunPlanStatus → time;
  dg_idempotencyKey : string → time → Z → result string;
  dg_seconds : PlanPolicy → Z;
  dg_reason : PlanPolicy → string;
  dg_eventKind : string;
}.

Definition applyPlanDeadlineGuard (controlsByNode : gmap string (list string))
    (params : planDeadlineGuardParams) : W bool :=
  spec ← gets x_spec;
  state ← gets x_state;
  let anchor := dg_anchor params (Status state) in
  now ← perform env Now;
  if negb (dg_expired params (spec_Policy spec) anchor now) then mret false else
  key ← lift (dg_idempotencyKey params (spec_PlanID spec) anchor
                (dg_seconds params (spec_Policy spec)));
  cancelActivePlanNodesAndFail controlsByNode (dg_eventKind params) key
    (dg_reason params (spec_Policy spec));;
  mret true.

Definition timeout_guard : planDeadlineGuardParams := {|
  dg_expired := PlanTimedOut; dg_anchor := st_StartedAt;
  dg_idempotencyKey := PlanTimeoutControlIdempotencyKey; dg_seconds := pol_TimeoutSeconds;
  dg_reason := PlanTimeoutReason; dg_eventKind := EventPlanFailed |}.

Definition approval_guard : planDeadlineGuardParams := {|
  dg_expired := PlanBlockedTimedOut; dg_anchor := st_BlockedAt;
  dg_idempotencyKey := PlanBlockedTimeoutControlIdempotencyKey;
  dg_seconds := pol_ApprovalTimeoutSeconds;
  dg_reason := PlanBlockedTimeoutReason; dg_eventKind := EventPlanRejected |}.

(** [errors.Join(cause, persistErr)] after recording the failure. *)
Definition fail_joined {A} (cause : werror) (event : StateEvent) : W A :=
  r ← try (emit event);
  throw (Join cause (match r with inl _ => None | inr e => Some e end)).

Definition failPlanWorkflowIteration {A} (cause : werror) : W A :=
  fail_joined cause (plan_event EventPlanFailed (Error cause)).

Definition applyPlanIterationGuard (iterationCount : Z) : W unit :=
  spec ← gets x_spec;
  if negb (itd_ShouldFail (EvaluateIterationPolicy (spec_Policy spec)
             {| its_Iterations := iterationCount |})) then mret tt else
  let reason := "plan exceeded max iterations: " +:+ pretty iterationCount +:+ " exceeds max " +:+
                pretty (pol_MaxIterations (spec_Policy spec)) in
  fail_joined (Plain (Errorf ErrInvalidRunPlan "%s")) (plan_event EventPlanFailed reason).

(** ** Controls *)

Record planControlDrainResult := { cdr_Canceled : bool; cdr_Paused : bool }.

(** The gate is built and recorded with a [plan.blocked] event. *)
Definition block_plan (reason : string) : W unit :=
  now ← perform env Now;
  spec ← gets x_spec;
  state ← gets x_state;
  gate ← lift (NewPlanApprovalGate spec (Status state) reason now);
  let event := plan_event EventPlanBlocked reason in
  emit {| event with se_Approval := Some {| sea_Gate := gate; sea_Decision := None |} |}.

Definition blockPlanAfterControlFailure (controlErr : werror) : W planControlDrainResult :=
  block_plan (Error controlErr);;
  mret {| cdr_Canceled := false; cdr_Paused := true |}.

Definition cancelPlanFromControl (control : ControlRequest)
    (controlsByNode : gmap string (list string)) (result : planControlDrainResult) :
    W planControlDrainResult :=
  controlActivePlanNodes control controlsByNode;;
  markActivePlanNodesCanceled "cancel requested";;
  emit (plan_event EventPlanCanceled "cancel requested");;
  mret {| result with cdr_Canceled := true |}.

Definition pausePlanFromControl (control : ControlRequest)
    (controlsByNode : gmap string (list string)) (result : planControlDrainResult) :
    W planControlDrainResult :=
  r ← try (controlActivePlanNodes control controlsByNode);
  match r with
  | inr e => blockPlanAfterControlFailure e
  | inl _ => block_plan "pause requested";; mret {| result with cdr_Paused := true |}
  end.

Definition resumePlanFromControl (control : ControlRequest)
    (controlsByNode : gmap string (list string)) (result : planControlDrainResult) :
    W planControlDrainResult :=
  r ← try (controlActivePlanNodes control controlsByNode);
  match r with
  | inr e => blockPlanAfterControlFailure e
  | inl _ => emit (plan_event EventPlanStarted "");; mret {| result with cdr_Paused := false |}
  end.

Definition applyPlanControl (paused : bool) (control : ControlRequest)
    (controlsByNode : gmap string (list string)) : W planControlDrainResult :=
  let result := {| cdr_Canceled := false; cdr_Paused := paused |} in
  if ctl_Operation control == ControlCancel then
    cancelPlanFromControl control controlsByNode result
  else if ctl_Operation control == ControlPause then
    pausePlanFromControl control controlsByNode result
  else if ctl_Operation control == ControlResume then
    resumePlanFromControl control controlsByNode result
  else mret result.

(** The results are (canceled, paused). *)
Fixpoint drainPlanControl (fuel : nat) (paused : bool)
    (controlsByNode : gmap string (list string)) : W (bool * bool) :=
  match fuel with
  | O => diverge
  | S fuel =>
      received ← perform env ReceiveControl;
      match received with
      | None => mret (false, paused)
      | Some control =>
          lift (ValidateControlRequest (Some control));;
          lift (fail_if (ctl_IdempotencyKey control == "")
                  (Errorf ErrInvalidControlOperation "control idempotency key is required"));;
          processed ← gets x_controls;
          if bool_decide (ctl_IdempotencyKey control ∈ processed) then
            drainPlanControl fuel paused controlsByNode
          else
            modify (λ x, {| x with x_controls := {[ctl_IdempotencyKey control]} ∪ x_controls x |});;
            result ← applyPlanControl paused control controlsByNode;
            if cdr_Canceled result then mret (true, cdr_Paused result)
            else drainPlanControl fuel (cdr_Paused result) controlsByNode
      end
  end.

(** ** Signals *)

Record planSignalDrainResult := { sdr_Rejected : bool; sdr_Paused : bool; sdr_Progressed : bool }.

Definition signalActivePlanNodes (signal : Signal) : W unit :=
  spec ← gets x_spec;
  range_nodes (λ _ node,
    if (ns_LifecycleState node != PlanNodeRunning) || (ns_RunID node == "") then mret tt else
    let nodeRef := planNodeRunRef spec (ns_RunID node) in
    r ← perform env (SignalPlanNode {|
      gni_RunID := rref_RunID nodeRef; gni_AccountID := rref_AccountID nodeRef;
      gni_ProjectID := rref_ProjectID nodeRef; gni_Signal := signal |});
    lift r) tt.

Definition manualRetryAlreadyScheduled (signal : Signal) (state : State) : bool :=
  match PlanSignalNodeID (Some signal) with
  | Err _ => false
  | Ok nodeID =>
      match NodeStatus state nodeID with
      | None => false
      | Some current => (ns_LifecycleState current == PlanNodeReady) && (0 <? ns_Attempts current)%Z
      end
  end.

Record manualRetryRequest := {
  mrr_node : PlanNodeSpec;
  mrr_current : PlanNodeStatus;
  mrr_reason : string;
  mrr_nextAttempt : Z;
}.

Definition nextManualRetryAttempt (current : PlanNodeStatus) : Z :=
  int32 ((if (ns_Attempts current <=? 0)%Z then 1 else ns_Attempts current) + 1).

Definition validateManualRetryAttempt (policy : NodePolicy) (current : PlanNodeStatus)
    (nextAttempt : Z) : result unit :=
  fail_if (ns_LifecycleState current != PlanNodeFailed)
    (Errorf ErrInvalidSignal "node %q is %s, not failed");;
  fail_if (maxNodeAttempts policy <? nextAttempt)%Z
    (Errorf ErrInvalidSignal "node %q retry attempt %d exceeds max attempts %d").

Definition manualNodeRetry (signal : Signal) (state : State) (nodes : gmap string PlanNodeSpec) :
    result manualRetryRequest :=
  nodeID ← PlanSignalNodeID (Some signal);
  match nodes !! nodeID, NodeStatus state nodeID with
  | Some nodeSpec, Some current =>
      let reason := PlanSignalReason (Some signal) in
      let reason := if reason == "" then "manual retry requested" else reason in
      let nextAttempt := nextManualRetryAttempt current in
      validateManualRetryAttempt (node_Policy nodeSpec) current nextAttempt;;
      Ok {| mrr_node := nodeSpec; mrr_current := current; mrr_reason := reason;
            mrr_nextAttempt := nextAttempt |}
  | _, _ => Err err_unknown_node
  end.

Definition applyManualNodeRetry (nodes : gmap string PlanNodeSpec) (signal : Signal) : W unit :=
  state ← gets x_state;
  if manualRetryAlreadyScheduled signal state then mret tt else
  retry ← lift (manualNodeRetry signal state nodes);
  (if bool_decide (st_LifecycleState (Status state) ∈ [PlanLifecycleBlocked; PlanLifecycleFailed])
   then emit (plan_event EventPlanApproved (mrr_reason retry))
   else mret tt);;
  emit {| zero_StateEvent with
          se_Kind := EventNodeRetryScheduled; se_NodeID := node_NodeID (mrr_node retry);
          se_RunID := ns_RunID (mrr_current retry); se_Reason := mrr_reason retry;
          se_Attempt := mrr_nextAttempt retry |}.

Definition retryPlanNodeFromSignal (nodes : gmap string PlanNodeSpec) (signal : Signal)
    (result : planSignalDrainResult) : W planSignalDrainResult :=
  applyManualNodeRetry nodes signal;;
  mret {| result with sdr_Paused := false; sdr_Progressed := true |}.

Definition approvalEventForSignal (reason : string) (now : time) (decision : PlanApprovalDecision) :
    W StateEventApproval :=
  spec ← gets x_spec;
  state ← gets x_state;
  let status := Status state in
  if bool_decide (st_Approval status = None) && (st_LifecycleState status == PlanLifecycleBlocked)
  then
    gate ← lift (NewPlanApprovalGate spec status reason now);
    mret {| sea_Gate := gate; sea_Decision := Some decision |}
  else mret {| sea_Gate := zero_PlanApprovalGate; sea_Decision := Some decision |}.

Definition approvePlanFromSignal (signal : Signal) (result : planSignalDrainResult) :
    W planSignalDrainResult :=
  spec ← gets x_spec;
  state ← gets x_state;
  if st_LifecycleState (Status state) != PlanLifecycleBlocked then
    throw (Plain (Errorf ErrInvalidSignal "approve requires blocked plan state"))
  else
    now ← perform env Now;
    decision ← lift (PlanApprovalDecisionFromSignal spec (Status state) signal true now);
    now ← perform env Now;
    approval ← approvalEventForSignal (dec_Reason decision) now decision;
    let event := plan_event EventPlanApproved (dec_Reason decision) in
    emit {| event with se_Approval := Some approval |};;
    mret {| result with sdr_Paused := false; sdr_Progressed := true |}.

Definition rejectPlanFromSignal (controlsByNode : gmap string (list string)) (signal : Signal)
    (result : planSignalDrainResult) : W planSignalDrainResult :=
  spec ← gets x_spec;
  state ← gets x_state;
  now ← perform env Now;
  decision ← lift (PlanApprovalDecisionFromSignal spec (Status state) signal false now);
  let reason := if dec_Reason decision == "" then "plan rejected" else dec_Reason decision in
  key ← lift (PlanSignalCancelControlIdempotencyKey (spec_PlanID spec) signal);
  controlActivePlanNodes {| zero_ControlRequest with ctl_Operation := ControlCancel;
                                                     ctl_IdempotencyKey := key |} controlsByNode;;
  markActivePlanNodesCanceled reason;;
  now ← perform env Now;
  approval ← approvalEventForSignal reason now decision;
  let event := plan_event EventPlanRejected reason in
  emit {| event with se_Approval := Some approval |};;
  mret {| result with sdr_Rejected := true; sdr_Progressed := true |}.

Definition applyPlanSignal (paused : bool) (nodes : gmap string PlanNodeSpec)
    (controlsByNode : gmap string (list string)) (signal : Signal) : W planSignalDrainResult :=
  let result := {| sdr_Rejected := false; sdr_Paused := paused; sdr_Progressed := false |} in
  if sig_Type signal == SignalPlanNodeRetry then retryPlanNodeFromSignal nodes signal result
  else if sig_Type signal == SignalPlanApprove then approvePlanFromSignal signal result
  else if sig_Type signal == SignalPlanReject then
    rejectPlanFromSignal controlsByNode signal result
  else if bool_decide (sig_Type signal ∈
            [SignalControlPause; SignalControlResume; SignalControlCancel]) then mret result
  else if bool_decide (sig_Type signal ∈
            [SignalUserMessage; SignalUserApproval; SignalUserReject; SignalToolResult;
             SignalHumanFeedback; SignalConfigPatch; SignalStepModify; SignalExternalEvent;
             SignalMemoryPatch]) then
    signalActivePlanNodes signal;; mret result
  else mret result.

(** The results are (rejected, paused, progressed). *)
Fixpoint drainPlanSignals (fuel : nat) (paused progressed : bool) (nodes : gmap string PlanNodeSpec)
    (controlsByNode : gmap string (list string)) : W (bool * bool * bool) :=
  match fuel with
  | O => diverge
  | S fuel =>
      received ← perform env ReceiveSignal;
      match received with
      | None => mret (false, paused, progressed)
      | Some signal =>
          lift (ValidatePlanSignal (Some signal));;
          processed ← gets x_signals;
          if bool_decide (sig_IdempotencyKey signal ∈ processed) then
            drainPlanSignals fuel paused progressed nodes controlsByNode
          else
            modify (λ x, {| x with x_signals := {[sig_IdempotencyKey signal]} ∪ x_signals x |});;
            result ← applyPlanSignal paused nodes controlsByNode signal;
            let progressed := progressed || sdr_Progressed result in
            if sdr_Rejected result then mret (true, sdr_Paused result, progressed)
            else drainPlanSignals fuel (sdr_Paused result) progressed nodes controlsByNode
      end
  end.

(** ** Scheduling *)

Definition applySkippedPlanNodes (decision : SchedulerDecision) (progressed : bool) : W bool :=
  foldW (λ progressed skipped,
    state ← gets x_state;
    if negb (nodeSchedulable state (skip_NodeID skipped)) then mret progressed else
    emit (node_event EventNodeSkipped (skip_NodeID skipped) "" (skip_Reason skipped));;
    mret true) progressed (sd_Skipped decision).

(** A failed start is recorded on the node; only a failure to record it is returned. *)
Definition start_or_fail (rt : planWorkflowRuntime) (node : PlanNodeSpec)
    (incomingEdges : list PlanEdgeSpec) : W unit :=
  r ← try (startPlanNode rt node incomingEdges);
  match r with
  | inl _ => mret tt
  | inr e =>
      r ← try (emit (node_event EventNodeFailed (node_NodeID node) "" (Error e)));
      match r with
      | inl _ => mret tt
      | inr persistErr => throw (Join e (Some persistErr))
      end
  end.

Fixpoint startReadyNodes (rt : planWorkflowRuntime) (ready : list PlanNodeSpec) (capacity : Z)
    (progressed : bool) : W bool :=
  match ready with
  | [] => mret progressed
  | node :: ready =>
      if (capacity <=? 0)%Z then mret progressed else
      state ← gets x_state;
      if negb (nodeSchedulable state (node_NodeID node)) then
        startReadyNodes rt ready capacity progressed
      else
        validation ← gets x_validation;
        start_or_fail rt node (get_list (ep_EdgesByTo (vpo_Plan validation)) (node_NodeID node));;
        validation ← gets x_validation;
        budgetExceeded ← applyPlanBudgetGuard (vpo_ControlsByNode validation);
        if (budgetExceeded : bool) then mret true else startReadyNodes rt ready (capacity - 1) true
  end.

Definition startReadyPlanNodes (rt : planWorkflowRuntime) (decision : SchedulerDecision)
    (progressed : bool) : W bool :=
  state ← gets x_state;
  startReadyNodes rt (sd_Ready decision) (rt_MaxParallel rt - runningNodeCount (Status state))
    progressed.

Definition applyPlanSchedulerDecision (rt : planWorkflowRuntime) (decision : SchedulerDecision)
    (progressed : bool) : W bool :=
  let traces := conditionTracesForDecision decision in
  (if bool_decide (traces = []) then mret tt
   else emit {| zero_StateEvent with se_Kind := EventConditionsEvaluated;
                                     se_ConditionTraces := traces |});;
  progressed ← applySkippedPlanNodes decision progressed;
  startReadyPlanNodes rt decision progressed.

(** The first failed or canceled node decides; its reason is the plan's. *)
Fixpoint terminal_event (statuses : list PlanNodeStatus) : StateEvent :=
  match statuses with
  | [] => plan_event EventPlanSucceeded ""
  | node :: statuses =>
      if ns_LifecycleState node == PlanNodeFailed then
        plan_event EventPlanFailed (if ns_Reason node == "" then "node failed: " +:+ ns_NodeID node
                                    else ns_Reason node)
      else if ns_LifecycleState node == PlanNodeCanceled then
        plan_event EventPlanCanceled (if ns_Reason node == ""
                                      then "node canceled: " +:+ ns_NodeID node
                                      else ns_Reason node)
      else terminal_event statuses
  end.

Definition applyTerminalPlanState : W unit :=
  state ← gets x_state;
  emit (terminal_event (st_Nodes (Status state))).

(** The results are (progressed, done). *)
Definition schedulePlanWorkflowNodes (rt : planWorkflowRuntime) (progressed : bool) :
    W (bool * bool) :=
  spec ← gets x_spec;
  state ← gets x_state;
  validation ← gets x_validation;
  match Decide (rt_Scheduler rt) (vpo_Plan validation) (Status state)
          (Variables spec (Status state)) with
  | Err e => failPlanWorkflowIteration (Plain e)
  | Ok decision =>
      progressed ← applyPlanSchedulerDecision rt decision progressed;
      polled ← try pollRunningPlanNodes;
      match polled with
      | inr e => failPlanWorkflowIteration e
      | inl pollProgressed =>
          let progressed := progressed || pollProgressed in
          validation ← gets x_validation;
          budgetExceeded ← applyPlanBudgetGuard (vpo_ControlsByNode validation);
          if (budgetExceeded : bool) then mret (progressed, true) else
          state ← gets x_state;
          if planNodesTerminal (Status state) then
            applyTerminalPlanState;; mret (progressed, true)
          else mret (progressed, false)
      end
  end.

(** ** One iteration *)

Record planWorkflowIterationResult := { ir_Done : bool; ir_Paused : bool }.

Definition continuePlanWorkflowIfNeeded (input : planWorkflowInput) (iterationCount : Z) : W unit :=
  spec ← gets x_spec;
  state ← gets x_state;
  if planTerminal (st_LifecycleState (Status state)) then mret tt else
  history ← perform env HistoryLength;
  let decision := EvaluateContinuationPolicy (spec_Policy spec)
    {| cs_AppliedTransitions := AppliedTransitions state; cs_HistoryEvents := history |} in
  if negb (cd_ShouldContinue decision) then mret tt else
  x ← gets id;
  throw (ContinueAsNew (continuedPlanWorkflowInput input spec state (x_expansionCount x)
                          iterationCount (x_controls x) (x_signals x))).

Definition sleep : W unit := r ← perform env (Sleep planNodePollInterval); lift r.

(** [None] to go on with scheduling, [Some done] to end the iteration here. *)
Definition applyPlanWorkflowPreScheduleGuards (input : planWorkflowInput) (iterationCount : Z)
    (paused : bool) : W (option bool) :=
  validation ← gets x_validation;
  timedOut ← applyPlanDeadlineGuard (vpo_ControlsByNode validation) timeout_guard;
  if (timedOut : bool) then mret (Some true) else
  state ← gets x_state;
  if planNodesTerminal (Status state) then applyTerminalPlanState;; mret (Some true) else
  if negb paused then mret None else
  timedOut ← applyPlanDeadlineGuard (vpo_ControlsByNode validation) approval_guard;
  if (timedOut : bool) then mret (Some true) else
  continuePlanWorkflowIfNeeded input iterationCount;;
  sleep;;
  mret (Some false).

Definition finishPlanWorkflowIteration (input : planWorkflowInput) (iterationCount : Z)
    (progressed : bool) (result : planWorkflowIterationResult) : W planWorkflowIterationResult :=
  state ← gets x_state;
  if negb progressed && (runningNodeCount (Status state) =? 0)%Z then
    let reason := "plan has pending nodes but no runnable or active nodes" in
    emit (plan_event EventPlanFailed reason);;
    throw (Plain (Errorf ErrInvalidRunPlan "%s"))
  else
    continuePlanWorkflowIfNeeded input iterationCount;;
    if progressed then mret result else sleep;; mret result.

Definition runPlanWorkflowIteration (fuel : nat) (rt : planWorkflowRuntime)
    (input : planWorkflowInput) (iterationCount : Z) (paused : bool) :
    W planWorkflowIterationResult :=
  applyPlanIterationGuard iterationCount;;
  settle ← settleNexusNodePromises rt;
  let '(settled, paced) := settle in
  validation ← gets x_validation;
  drained ← try (drainPlanControl fuel paused (vpo_ControlsByNode validation));
  match drained with
  | inr e => failPlanWorkflowIteration e
  | inl (true, paused) => mret {| ir_Done := true; ir_Paused := paused |}
  | inl (false, paused) =>
  drained ← try (drainPlanSignals fuel paused false (ep_NodeByID (vpo_Plan validation))
                   (vpo_ControlsByNode validation));
  match drained with
  | inr e => failPlanWorkflowIteration e
  | inl (true, paused, _) => mret {| ir_Done := true; ir_Paused := paused |}
  | inl (false, paused, signalProgressed) =>
  let signalProgressed := signalProgressed || settled in
  guard ← applyPlanWorkflowPreScheduleGuards input iterationCount paused;
  match (guard : option bool) with
  | Some finished => mret {| ir_Done := finished; ir_Paused := paused |}
  | None =>
  scheduled ← schedulePlanWorkflowNodes rt signalProgressed;
  let '(progressed, finished) := scheduled in
  let result := {| ir_Done := finished; ir_Paused := paused |} in
  if (finished : bool) then mret result
  else if (paced : bool) then mret result
  else finishPlanWorkflowIteration input iterationCount progressed result
  end end end.

(** ** The workflow *)

(** [lifecycleSearchAttributeSync.sync]: best effort, a failed upsert is ignored.  The
    run id is the plan id the synchroniser was made with. *)
Definition sync (enabled : Z) (runID lifecycle : string) : W unit :=
  last ← gets x_synced;
  if lifecycle == last then mret tt else
  (if (enabled <? 1)%Z then mret tt
   else perform env (UpsertSearchAttributes runID lifecycle);; mret tt);;
  modify (λ x, {| x with x_synced := lifecycle |}).

Definition sync_state (enabled : Z) (runID : string) : W unit :=
  state ← gets x_state;
  sync enabled runID (st_LifecycleState (Status state)).

Definition failPlanWorkflowSetup {A} (enabled : Z) (reason : string) (cause : werror) : W A :=
  r ← try (emit (plan_event EventPlanFailed reason));
  spec ← gets x_spec;
  sync_state enabled (spec_PlanID spec);;
  throw (Join cause (match r with inl _ => None | inr e => Some e end)).

Definition failPlanAtStart {A} (enabled : Z) (cause : werror) : W A :=
  failPlanWorkflowSetup enabled (Error cause) cause.

Definition validatePlanAtStart (enabled : Z) (peers : go_map string) : W ValidatePlanOutput :=
  spec ← gets x_spec;
  validated ← perform env (ValidatePlan {| vpi_Spec := spec |});
  match validated with
  | Err e => failPlanAtStart enabled (Plain e)
  | Ok validation =>
      match validatePlanNodePeers spec peers with
      | Err e => failPlanAtStart enabled (Plain e)
      | Ok _ => mret validation
      end
  end.

Definition newPlanWorkflowSetup (input : option planWorkflowInput) : W planWorkflowInput :=
  match input with
  | None => throw (Plain (Errorf ErrOther "PlanWorkflow input is required"))
  | Some input =>
      lift (fail_if (tq_PlanActivity (pwi_TaskQueues input) == "")
              (Errorf ErrOther "PlanWorkflow plan activity task queue is required"));;
      lift (validatePlanWorkflowVersion (pwi_WorkflowVersion input));;
      now ← perform env Now;
      state ← lift (initialPlanWorkflowState input now);
      modify (λ x, {| x with
        x_spec := pwi_Spec input;
        x_state := state;
        x_expansionCount := pwi_ExpansionCount input;
        x_synced := "" |});;
      mret input
  end.

Definition newPlanWorkflowRuntime (input : planWorkflowInput) (compiler : ExpressionCompiler)
    (nexusNodeRuns : bool) : W planWorkflowRuntime :=
  spec ← gets x_spec;
  modify (λ x, {| x with
    x_controls := processedPlanWorkflowKeys (pwi_ProcessedControls input);
    x_signals := processedPlanWorkflowKeys (pwi_ProcessedSignals input);
    x_runs := ∅ |});;
  mret {| rt_Scheduler := {| sched_Expressions := Some compiler |};
          rt_MaxParallel := normalizePlanParallelism (pol_MaxParallelNodes (spec_Policy spec));
          rt_NexusPeers := pwi_NexusPeers input;
          rt_NexusEndpoint := pwi_NexusEndpoint input;
          rt_NexusNodeRuns := nexusNodeRuns |}.

(** The loop; its result is the status returned with a nil error. *)
Fixpoint plan_loop (fuel : nat) (rt : planWorkflowRuntime) (input : planWorkflowInput)
    (enabled iterationCount : Z) (paused : bool) : W RunPlanStatus :=
  match fuel with
  | O => diverge
  | S fuel =>
      let iterationCount := int32 (iterationCount + 1) in
      r ← try (runPlanWorkflowIteration fuel rt input iterationCount paused);
      sync_state enabled (spec_PlanID (pwi_Spec input));;
      match r with
      | inr e => drainNexusNodeRuns rt;; throw e
      | inl result =>
          if ir_Done result then
            drainNexusNodeRuns rt;;
            state ← gets x_state;
            mret (Status state)
          else plan_loop fuel rt input enabled iterationCount (ir_Paused result)
      end
  end.

(** [PlanWorkflow] between its setup and its loop; [NewCELCompiler] is the argument
    [compiler].  The results are the runtime and whether the plan starts paused. *)
Definition start_plan (compiler : result ExpressionCompiler) (enabled : Z)
    (input : planWorkflowInput) : W (planWorkflowRuntime * bool) :=
  nexus ← perform env (GetVersion planNexusNodeRunsVersionMarker);
  registered ← perform env (SetQueryHandler PlanStatusQueryName);
  lift registered;;
  (if pwi_Continued input then mret tt else emit (plan_event EventPlanStarted ""));;
  validation ← validatePlanAtStart enabled (pwi_NexusPeers input);
  modify (λ x, {| x with x_validation := validation |});;
  match compiler with
  | Err e => failPlanWorkflowSetup enabled (Error (Plain e)) (Plain e)
  | Ok compiler =>
      state ← gets x_state;
      let paused := st_LifecycleState (Status state) == PlanLifecycleBlocked in
      rt ← newPlanWorkflowRuntime input compiler (nexus == 1%Z);
      mret (rt, paused)
  end.

(** The execution after its setup. *)
Definition execute_plan (compiler : result ExpressionCompiler) (fuel : nat)
    (input : planWorkflowInput) : W RunPlanStatus :=
  enabled ← perform env (GetVersion planSearchAttributesVersionMarker);
  started ← start_plan compiler enabled input;
  plan_loop fuel started.1 input enabled (pwi_IterationCount input) started.2.

(** The status returned with an error is the one in the execution after the call. *)
Definition PlanWorkflow (compiler : result ExpressionCompiler) (fuel : nat)
    (input : option planWorkflowInput) : W RunPlanStatus :=
  input ← newPlanWorkflowSetup input;
  execute_plan compiler fuel input.
End workflow.
