(* ===== verification/WorkflowSample.v ===== *)
(** * Sample environments

    Concrete environments for the workflow, used to run the definitions on examples and
    in the witnesses of the theorems: activities that validate with the model's own
    validator and let every run succeed, with hooks for the clock-independent parts a
    scenario changes. *)

From stdpp Require Import pretty.
From S2P Require Import Prelude Types Graph Scope Contracts Validator State Scheduler Json Policy.
From S2P Require Import Events Temporal Workflow.

(** Not a hash: every document has the same digest. *)
#[local] Instance sha : Sha256 := {| sha256_hex _ := "digest" |}.
#[local] Instance quoting : GoQuote := {| quote s := "<" +:+ s +:+ ">" |}.
#[local] Instance texts : ErrorText := {|
  Error := fix go e := match e with
                       | Plain e => err_format e
                       | Join c _ => go c
                       | ContinueAsNew _ => "continue as new"
                       | Panic => "panic"
                       end |}.
#[local] Instance boxes : Boxing := {| box_spec _ := ANil; box_status _ := ANil |}.

#[local] Program Instance order : MapOrder := {| map_keys A m := (map_to_list m).*1 |}.
Next Obligation. done. Qed.

Definition succeeded (runID : string) : RunStatus := {|
  rs_RunID := runID; rs_LifecycleState := SUCCEEDED; rs_Progress := None; rs_Artifacts := [];
  rs_BudgetUsage := {| usage_SpentCents := 10 |}; rs_Reason := ""; rs_UpdatedAt := 0 |}.

Definition running (runID : string) : RunStatus :=
  let s := succeeded runID in
  {| s with rs_LifecycleState := "running"; rs_BudgetUsage := zero_PlanBudgetUsage |}.

(** What a scenario chooses: the messages of the two channels, the answer to a start, a
    status query and a finished operation, and the version of the Nexus marker. *)
Record scenario := {
  sc_controls : list ControlRequest;
  sc_signals : list Signal;
  sc_start : PlanNodeSpec → result RunStatus;
  sc_status : string → result RunStatus;
  sc_ready : bool;
  sc_operation : result RunStatus;
  sc_nexus : Z;
}.

Definition received (is_receive : call → bool) (past : list exchange) : nat :=
  length (filter (λ e, is_receive (ex_call e) = true) past).

Definition is_receive_control (c : call) : bool := match c with ReceiveControl => true | _ => false end.
Definition is_receive_signal (c : call) : bool := match c with ReceiveSignal => true | _ => false end.

(** Messages are delivered in order, one per receive. *)
Definition scenario_env (sc : scenario) : Env := {|
  respond past c := match c return answer c with
    | Now | WallClock => (1000 + Z.of_nat (length past))%Z
    | GetVersion _ => sc_nexus sc
    | HistoryLength => Z.of_nat (length past)
    | SetQueryHandler _ | UpsertSearchAttributes _ _ | Sleep _ => Ok tt
    | AwaitWithTimeout _ => Ok true
    | ReceiveControl => sc_controls sc !! received is_receive_control past
    | ReceiveSignal => sc_signals sc !! received is_receive_signal past
    | ValidatePlan input =>
        plan ← @Validate Sample.schema_any merge_slice_sort Sample.validator (vpi_Spec input);
        Ok {| vpo_Plan := plan; vpo_ControlsByNode := ∅; vpo_CapabilitiesByNode := ∅ |}
    | ResolvePlanNodeInput input =>
        Ok {| rno_Input := None; rno_Trace := zero_InputResolutionTrace |}
    | StartPlanNode input =>
        status ← sc_start sc (spi_Node input); Ok {| spo_Status := status |}
    | StatusPlanNode input => status ← sc_status sc (sni_RunID input); Ok {| sno_Status := status |}
    | SignalPlanNode _ | ControlPlanNode _ => Ok tt
    | PublishPlanArtifacts input => Ok {| ppo_Artifacts := rs_Artifacts (ppi_Status input) |}
    | EvaluatePlanExpansion input => Err (Errorf ErrInvalidRunPlan "no expansion")
    | PersistPlanState input => Ok {| pso_Event := psi_Event input |}
    | ExecuteOperation _ _ _ | CancelOperation _ => tt
    | IsReady _ => sc_ready sc
    | GetOperation _ => status ← sc_operation sc; Ok {| ro_Status := status |}
    end |}.

Definition base : scenario := {|
  sc_controls := []; sc_signals := [];
  sc_start node := Ok (running (run_RunID (node_Run node)));
  sc_status runID := Ok (succeeded runID);
  sc_ready := false; sc_operation := Err (Errorf ErrOther "operation"); sc_nexus := 0 |}.

Definition zero_Exec : Exec := {|
  x_spec := zero_RunPlanSpec; x_state := NewState zero_RunPlanSpec 0;
  x_validation := {| vpo_Plan := Sample.no_plan; vpo_ControlsByNode := ∅;
                     vpo_CapabilitiesByNode := ∅ |};
  x_expansionCount := 0; x_controls := ∅; x_signals := ∅; x_runs := ∅; x_synced := "";
  x_log := [] |}.

Definition input (spec : RunPlanSpec) : planWorkflowInput := {|
  pwi_Spec := spec; pwi_Status := zero_RunPlanStatus;
  pwi_TaskQueues := {| tq_PlanActivity := "plan" |}; pwi_NexusEndpoint := "local";
  pwi_NexusPeers := None; pwi_WorkflowVersion := 1; pwi_Continued := false;
  pwi_ContinuationCount := 0; pwi_IterationCount := 0; pwi_ExpansionCount := 0;
  pwi_ProcessedControls := []; pwi_ProcessedSignals := [] |}.

Abbreviation execute sc spec fuel :=
  (@PlanWorkflow (scenario_env sc) sha quoting merge_slice_sort texts boxes order
     (Ok Sample.compiler) fuel (Some (input spec)) zero_Exec) (only parsing).

Definition persisted_types (x : Exec) : list string :=
  omap (λ e, match ex_call e with
             | PersistPlanState i => Some (ev_EventType (psi_Event i) +:+ "/" +:+ ev_NodeID (psi_Event i))
             | _ => None
             end) (x_log x).
