(* ===== verification/WorkflowLogic.v ===== *)
(** * A logic for workflow code

    [along R m]: whatever the environment answers and however [m] ends, the execution
    after [m] is related by [R] to the one before.  For a preorder [R] this composes
    along the monad, so one pass over the workflow ([along_loop], [along_workflow])
    reduces a property of whole executions to the few places that change state: the
    events applied, a plan expansion, a retry, the start of ready nodes.  The theorems
    about executions instantiate [R]. *)

From S2P Require Import Prelude Types Graph Scope Contracts Validator State Scheduler Json Policy.
From S2P Require Import Events Temporal Workflow.

Definition along {A} (R : relation Exec) (m : W A) : Prop := ∀ x, R x (m x).1.

(** The execution after a call. *)
Definition logged (env : Env) (c : call) (x : Exec) : Exec :=
  {| x with x_log := x_log x ++ [Exchange c (respond env (x_log x) c)] |}.

(** Whether a call writes to the plan store. *)
Definition persists (c : call) : bool :=
  match c with PersistPlanState _ => true | _ => false end.

(** The node a call starts, if any. *)
Definition launch_of (c : call) : option string :=
  match c with
  | StartPlanNode input => Some (node_NodeID (spi_Node input))
  | ExecuteOperation _ request _ => scope_NodeID <$> rq_PlanScope request
  | _ => None
  end.

(** Whether a call asks for the next control request. *)
Definition receives (c : call) : bool :=
  match c with ReceiveControl => true | _ => false end.

(** Calls that neither write nor start a node nor ask for a control request. *)
Definition quiet (c : call) : bool :=
  match c with
  | PersistPlanState _ | StartPlanNode _ | ExecuteOperation _ _ _ | ReceiveControl => false
  | _ => true
  end.

Lemma quiet_persists c : quiet c = true → persists c = false.
Proof. by destruct c. Qed.

Lemma quiet_receives c : quiet c = true → receives c = false.
Proof. by destruct c. Qed.

Lemma quiet_launch c : quiet c = true → launch_of c = None.
Proof. by destruct c. Qed.

Lemma perform_eq env c x : perform env c x = (logged env c x, Return (respond env (x_log x) c)).
Proof. done. Qed.

(** ** Inversion of the monad *)

Lemma W_bind_eq {A B} (m : W A) (f : A → W B) x :
  (m ≫= f) x = match m x with
               | (x', Return a) => f a x'
               | (x', Fail e) => (x', Fail e)
               | (x', Diverge) => (x', Diverge)
               end.
Proof. done. Qed.

Lemma W_bind_Return {A B} (m : W A) (f : A → W B) x y b :
  (m ≫= f) x = (y, Return b) ↔ ∃ z a, m x = (z, Return a) ∧ f a z = (y, Return b).
Proof.
  rewrite W_bind_eq. destruct (m x) as [z [a|e|]]; split; try naive_solver.
Qed.

Lemma try_Return {A} (m : W A) x y r :
  try m x = (y, Return r) ↔
  match r with inl a => m x = (y, Return a) | inr e => m x = (y, Fail e) end.
Proof. unfold try. destruct (m x) as [z [a|e|]], r; naive_solver. Qed.

(** ** Composition *)

Lemma along_perform R env c : (∀ x, R x (logged env c x)) → along R (perform env c).
Proof. intros HR x. apply HR. Qed.

Section along.
Context (R : relation Exec) `{!PreOrder R}.

Lemma along_ret {A} (a : A) : along R (mret a).
Proof. intros x. cbn. reflexivity. Qed.

Lemma along_gets {A} (f : Exec → A) : along R (gets f).
Proof. intros x. cbn. reflexivity. Qed.

Lemma along_throw {A} e : along R (throw (A := A) e).
Proof. intros x. cbn. reflexivity. Qed.

Lemma along_diverge {A} : along R (diverge (A := A)).
Proof. intros x. cbn. reflexivity. Qed.

Lemma along_lift {A} (r : result A) : along R (lift r).
Proof. destruct r; [apply along_ret|apply along_throw]. Qed.

Lemma along_bind {A B} (m : W A) (f : A → W B) :
  along R m → (∀ a, along R (f a)) → along R (m ≫= f).
Proof.
  intros Hm Hf x. rewrite W_bind_eq. specialize (Hm x). destruct (m x) as [z [a|e|]]; cbn in *.
  - etrans; [exact Hm|apply Hf].
  - exact Hm.
  - exact Hm.
Qed.

(** The same from one execution. *)
Lemma along_bind_from {A B} (m : W A) (f : A → W B) x :
  R x (m x).1 → (∀ a, along R (f a)) → R x ((m ≫= f) x).1.
Proof.
  intros Hm Hf. rewrite W_bind_eq. destruct (m x) as [z [a|e|]]; [|exact Hm..].
  etrans; [exact Hm|apply Hf].
Qed.

Lemma along_lift_bind {A B} (r : result A) (f : A → W B) :
  (∀ a, r = Ok a → along R (f a)) → along R (lift r ≫= f).
Proof. intros Hf. destruct r as [a|e]; [by apply Hf|apply along_throw]. Qed.

Lemma along_try {A} (m : W A) : along R m → along R (try m).
Proof.
  intros Hm x. specialize (Hm x). unfold try. destruct (m x) as [z [a|e|]]; exact Hm.
Qed.

Lemma along_modify f : (∀ x, R x (f x)) → along R (modify f).
Proof. intros Hf x. apply Hf. Qed.

Lemma along_foldW {S A} (f : S → A → W S) s l :
  (∀ s a, along R (f s a)) → along R (foldW f s l).
Proof.
  intros Hf. revert s. induction l as [|a l IH]; intros s; [apply along_ret|].
  apply along_bind; [apply Hf|exact IH].
Qed.

Lemma along_forW {A} (f : A → W unit) l : (∀ a, along R (f a)) → along R (forW f l).
Proof. intros Hf. apply along_foldW. intros _. exact Hf. Qed.

Lemma along_node_at i : along R (node_at i).
Proof.
  apply along_bind; [apply along_gets|]. intros s.
  case_match; [apply along_ret|apply along_throw].
Qed.

Lemma along_range_nodes {S} (f : S → PlanNodeStatus → W S) s :
  (∀ s node, along R (f s node)) → along R (range_nodes f s).
Proof.
  intros Hf. apply along_bind; [apply along_gets|]. intros n. apply along_foldW.
  intros s' i. apply along_bind; [apply along_node_at|]. intros node. apply Hf.
Qed.
End along.

(** Walks through the code, leaving the steps that need an argument of their own. *)
Ltac along_step :=
  match goal with
  | |- along _ (mret _) => apply along_ret; exact _
  | |- along _ (gets _) => apply along_gets; exact _
  | |- along _ (throw _) => apply along_throw; exact _
  | |- along _ diverge => apply along_diverge; exact _
  | |- along _ (lift _) => apply along_lift; exact _
  | |- along _ (_ ≫= _) => apply along_bind; [exact _| |intros ?]
  | |- along _ (try _) => apply along_try
  | |- along _ (forW _ _) => apply along_forW; [exact _|intros ?]
  | |- along _ (foldW _ _ _) => apply along_foldW; [exact _|intros ? ?]
  | |- along _ (range_nodes _ _) => apply along_range_nodes; [exact _|intros ? ?]
  | |- along _ (match ?m with _ => _ end) => destruct m eqn:?
  | |- along _ (let _ := _ in _) => intros; cbv zeta
  end.
Tactic Notation "along_auto" := repeat first [solve [eauto with along]|along_step].
Create HintDb along.

(** ** The workflow *)

Lemma nodeForAttempt_id `{!Sha256} planID node attempt node' :
  nodeForAttempt planID node attempt = Ok node' →
  node_NodeID node' = node_NodeID node ∧ node_Policy node' = node_Policy node.
Proof. unfold nodeForAttempt. intros Hn. go_inv Hn. done. Qed.

(** Events that neither start, ready or retry a node nor extend the plan. *)
Definition passive (kind : string) : bool :=
  negb (bool_decide (kind ∈ [EventNodeReady; EventNodeStarted; EventNodeRetryScheduled;
                             EventPlanExpanded])).

Lemma terminal_event_passive statuses : passive (se_Kind (terminal_event statuses)) = true.
Proof.
  induction statuses as [|n statuses IH]; [reflexivity|]. cbn [terminal_event].
  destruct (_ == PlanNodeFailed); [reflexivity|].
  destruct (_ == PlanNodeCanceled); [reflexivity|exact IH].
Qed.

Section code.
Context (env : Env) `{!Sha256, !GoQuote, !SliceSort, !ErrorText, !Boxing, !MapOrder}.
Context (R : relation Exec) `{!PreOrder R}.

Hypothesis R_call : ∀ c x, quiet c = true → R x (logged env c x).
Hypothesis R_runs : ∀ x runs, R x {| x with x_runs := runs |}.
Hypothesis R_controls : ∀ x k, R x {| x with x_controls := {[k]} ∪ x_controls x |}.
Hypothesis R_signals : ∀ x k, R x {| x with x_signals := {[k]} ∪ x_signals x |}.
Hypothesis R_synced : ∀ x lifecycle, R x {| x with x_synced := lifecycle |}.
Hypothesis R_emit : ∀ ev, passive (se_Kind ev) = true → along R (emit env ev).
Hypothesis R_expand : ∀ node status artifacts, along R (applyPlanExpansion env node status artifacts).

(** What [R] lets the code know of the validation result it reads, and hence of the nodes
    it takes from it. *)
Context (known : ValidatePlanOutput → Prop) (admitted : string → PlanNodeSpec → Prop).
Hypothesis R_known : ∀ x y, (known (x_validation x) → R x y) → R x y.
Hypothesis known_admitted : ∀ v, known v → map_Forall admitted (ep_NodeByID (vpo_Plan v)).
Hypothesis R_failure : ∀ id node runID reason,
  admitted id node → along R (applyNodeAttemptFailure env node runID reason).
Hypothesis R_retry : ∀ nodes signal,
  map_Forall admitted nodes → along R (applyManualNodeRetry env nodes signal).

Lemma along_validation {A} (f : ValidatePlanOutput → W A) :
  (∀ v, known v → along R (f v)) → along R (gets x_validation ≫= f).
Proof. intros Hf x. apply R_known. intros Hv. rewrite W_bind_eq. by apply Hf. Qed.

#[local] Hint Resolve along_ret along_gets along_throw along_diverge along_lift : along.
#[local] Hint Resolve R_failure R_expand R_retry known_admitted : along.
#[local] Hint Extern 1 (admitted _ _) =>
  match goal with Hv : known _, Hl : _ !! _ = Some _ |- _ => exact (known_admitted _ Hv _ _ Hl) end : along.
#[local] Hint Extern 1 (along R (perform _ _)) => apply along_perform; intros ?; apply R_call; reflexivity : along.
#[local] Hint Extern 1 (along R (emit _ _)) => apply R_emit; reflexivity : along.
#[local] Hint Extern 1 (along R (modify _)) =>
  apply along_modify; intros ?; first [apply R_runs|apply R_controls|apply R_signals|apply R_synced]
  : along.

#[local] Ltac code_auto :=
  repeat first [solve [eauto with along]|apply along_validation; intros ? ?|along_step].

Lemma along_applyRunBudgetUsage node status : along R (applyRunBudgetUsage env node status).
Proof. unfold applyRunBudgetUsage. code_auto. Qed.
#[local] Hint Resolve along_applyRunBudgetUsage : along.

Lemma along_applyNodeRunTerminal id node status :
  admitted id node → along R (applyNodeRunTerminal env node status).
Proof. intros Hn. unfold applyNodeRunTerminal. code_auto. Qed.
#[local] Hint Resolve along_applyNodeRunTerminal : along.

Lemma along_promise_ready runID : along R (promise_ready env runID).
Proof. unfold promise_ready. code_auto. Qed.
#[local] Hint Resolve along_promise_ready : along.

Lemma along_cancelRun runID : along R (cancelRun env runID).
Proof. unfold cancelRun. code_auto. Qed.
#[local] Hint Resolve along_cancelRun : along.

Lemma along_remove runID : along R (remove runID).
Proof. unfold remove. code_auto. Qed.
#[local] Hint Resolve along_remove : along.

Lemma along_hasRunningPendingPromise statuses : along R (hasRunningPendingPromise env statuses).
Proof.
  induction statuses as [|n statuses IH]; cbn [hasRunningPendingPromise]; code_auto.
Qed.
#[local] Hint Resolve along_hasRunningPendingPromise : along.

Lemma along_applyNexusNodePromise id node nodeSpec run :
  admitted id nodeSpec → along R (applyNexusNodePromise env node nodeSpec run).
Proof. intros Hn. unfold applyNexusNodePromise. code_auto. Qed.
#[local] Hint Resolve along_applyNexusNodePromise : along.

Lemma along_settle rt : along R (settleNexusNodePromises env rt).
Proof. unfold settleNexusNodePromises, applySettledNexusNodePromises. code_auto. Qed.

Lemma along_drainNexusNodeRuns rt : along R (drainNexusNodeRuns env rt).
Proof. unfold drainNexusNodeRuns, drainResolved. code_auto. Qed.

Lemma along_handleTimedOutPlanNode id node nodeSpec :
  admitted id nodeSpec → along R (handleTimedOutPlanNode env node nodeSpec).
Proof. intros Hn. unfold handleTimedOutPlanNode, cancelTimedOutNode. code_auto. Qed.
#[local] Hint Resolve along_handleTimedOutPlanNode : along.

Lemma along_pollRunningPlanNodes : along R (pollRunningPlanNodes env).
Proof.
  unfold pollRunningPlanNodes, pollRunningPlanNode, markRunningPlanNodeSucceeded,
    refreshRunningPlanNode, refreshNexusBackedPlanNode. code_auto.
Qed.

Lemma along_controlActivePlanNodes control controls :
  along R (controlActivePlanNodes env control controls).
Proof. unfold controlActivePlanNodes. code_auto. Qed.
#[local] Hint Resolve along_controlActivePlanNodes : along.

Lemma along_markActivePlanNodesCanceled reason : along R (markActivePlanNodesCanceled env reason).
Proof. unfold markActivePlanNodesCanceled. code_auto. Qed.
#[local] Hint Resolve along_markActivePlanNodesCanceled : along.

Lemma along_cancelActivePlanNodesAndFail controls kind key reason :
  passive kind = true → along R (cancelActivePlanNodesAndFail env controls kind key reason).
Proof. intros Hk. unfold cancelActivePlanNodesAndFail. code_auto. Qed.

Lemma along_applyPlanBudgetGuard controls : along R (applyPlanBudgetGuard env controls).
Proof. unfold applyPlanBudgetGuard. code_auto. by apply along_cancelActivePlanNodesAndFail. Qed.
#[local] Hint Resolve along_applyPlanBudgetGuard : along.

Lemma along_applyPlanDeadlineGuard controls params :
  passive (dg_eventKind params) = true → along R (applyPlanDeadlineGuard env controls params).
Proof.
  intros Hk. unfold applyPlanDeadlineGuard. code_auto. by apply along_cancelActivePlanNodesAndFail.
Qed.
#[local] Hint Extern 1 (along R (applyPlanDeadlineGuard _ _ _)) =>
  apply along_applyPlanDeadlineGuard; reflexivity : along.

Lemma along_fail_joined {A} cause ev :
  passive (se_Kind ev) = true → along R (fail_joined env (A := A) cause ev).
Proof. intros Hk. unfold fail_joined. code_auto. Qed.

Lemma along_failPlanWorkflowIteration {A} cause :
  along R (failPlanWorkflowIteration env (A := A) cause).
Proof. by apply along_fail_joined. Qed.
#[local] Hint Resolve along_failPlanWorkflowIteration : along.

Lemma along_applyPlanIterationGuard n : along R (applyPlanIterationGuard env n).
Proof. unfold applyPlanIterationGuard. code_auto. by apply along_fail_joined. Qed.
#[local] Hint Resolve along_applyPlanIterationGuard : along.

Lemma along_applyPlanControl paused control controls :
  along R (applyPlanControl env paused control controls).
Proof.
  unfold applyPlanControl, cancelPlanFromControl, pausePlanFromControl, resumePlanFromControl,
    blockPlanAfterControlFailure, block_plan. code_auto.
Qed.
#[local] Hint Resolve along_applyPlanControl : along.

Hypothesis R_receive : ∀ x, R x (logged env ReceiveControl x).
#[local] Hint Extern 1 (along R (perform _ ReceiveControl)) =>
  apply along_perform; exact R_receive : along.

Lemma along_drainPlanControl fuel paused controls : along R (drainPlanControl env fuel paused controls).
Proof.
  revert paused. induction fuel as [|fuel IH]; intros paused; cbn [drainPlanControl]; code_auto.
Qed.

Lemma along_applyPlanSignal paused nodes controls signal :
  map_Forall admitted nodes → along R (applyPlanSignal env paused nodes controls signal).
Proof.
  intros Hn.
  unfold applyPlanSignal, retryPlanNodeFromSignal, approvePlanFromSignal, rejectPlanFromSignal,
    approvalEventForSignal, signalActivePlanNodes. code_auto.
Qed.
#[local] Hint Resolve along_applyPlanSignal : along.

Lemma along_drainPlanSignals fuel paused progressed nodes controls :
  map_Forall admitted nodes → along R (drainPlanSignals env fuel paused progressed nodes controls).
Proof.
  intros Hn.
  revert paused progressed. induction fuel as [|fuel IH]; intros paused progressed;
    cbn [drainPlanSignals]; code_auto.
Qed.

Lemma along_applySkippedPlanNodes decision progressed :
  along R (applySkippedPlanNodes env decision progressed).
Proof. unfold applySkippedPlanNodes. code_auto. Qed.

Lemma along_applyTerminalPlanState : along R (applyTerminalPlanState env).
Proof.
  unfold applyTerminalPlanState. code_auto. apply R_emit, terminal_event_passive.
Qed.
#[local] Hint Resolve along_applyTerminalPlanState : along.

Lemma along_continue input n : along R (continuePlanWorkflowIfNeeded env input n).
Proof. unfold continuePlanWorkflowIfNeeded. code_auto. Qed.
#[local] Hint Resolve along_continue : along.

Lemma along_guards input n paused : along R (applyPlanWorkflowPreScheduleGuards env input n paused).
Proof. unfold applyPlanWorkflowPreScheduleGuards, sleep. code_auto. Qed.

Lemma along_finish input n progressed r : along R (finishPlanWorkflowIteration env input n progressed r).
Proof. unfold finishPlanWorkflowIteration, sleep. code_auto. Qed.

Lemma along_sync_state enabled runID : along R (sync_state env enabled runID).
Proof. unfold sync_state, sync. code_auto. Qed.
#[local] Hint Resolve along_sync_state : along.
#[local] Hint Resolve along_settle along_drainNexusNodeRuns along_pollRunningPlanNodes : along.
#[local] Hint Resolve along_drainPlanControl along_drainPlanSignals along_guards along_finish : along.

(** What starting the ready nodes of a decision does is the client's concern; the rest
    of an iteration follows. *)
Context (good : planWorkflowRuntime → Prop).
Hypothesis R_decision : ∀ rt x decision progressed, good rt →
  Decide (rt_Scheduler rt) (vpo_Plan (x_validation x)) (Status (x_state x))
    (Variables (x_spec x) (Status (x_state x))) = Ok decision →
  R x (applyPlanSchedulerDecision env rt decision progressed x).1.

Lemma along_schedule rt progressed : good rt → along R (schedulePlanWorkflowNodes env rt progressed).
Proof.
  intros Hrt x. unfold schedulePlanWorkflowNodes.
  do 3 (rewrite W_bind_eq; cbn [gets fst snd]).
  destruct (Decide _ _ _ _) as [decision|e] eqn:Hd.
  - apply along_bind_from; [exact _|by apply R_decision|]. intros b. code_auto.
  - by apply along_failPlanWorkflowIteration.
Qed.
#[local] Hint Resolve along_schedule : along.

Lemma along_iteration fuel rt input n paused :
  good rt → along R (runPlanWorkflowIteration env fuel rt input n paused).
Proof. intros Hrt. unfold runPlanWorkflowIteration. code_auto. Qed.
#[local] Hint Resolve along_iteration : along.

Lemma along_loop fuel rt input enabled n paused :
  good rt → along R (plan_loop env fuel rt input enabled n paused).
Proof.
  intros Hrt. revert n paused. induction fuel as [|fuel IH]; intros n paused;
    cbn [plan_loop]; code_auto.
Qed.
End code.

Lemma along_emit (env : Env) `{!Sha256} (R : relation Exec) `{!PreOrder R} ev :
  (∀ spec, along R (applyPlanStateEvent env spec ev)) → along R (emit env ev).
Proof. intros HR. unfold emit. apply along_bind; [exact _|by apply along_gets|]. exact HR. Qed.

(** ** Relations that every event respects *)

Section events.
Context (env : Env) `{!Sha256, !GoQuote, !SliceSort, !ErrorText, !Boxing, !MapOrder}.
Context (R : relation Exec) `{!PreOrder R}.

Hypothesis R_call : ∀ c x, persists c = false → receives c = false → R x (logged env c x).
Hypothesis R_runs : ∀ x runs, R x {| x with x_runs := runs |}.
Hypothesis R_emit : ∀ ev, along R (emit env ev).

#[local] Hint Resolve along_ret along_gets along_throw along_diverge along_lift : along.
#[local] Hint Resolve R_emit : along.

Lemma quiet_call c x : quiet c = true → R x (logged env c x).
Proof. intros Hc. by apply R_call; [apply quiet_persists|apply quiet_receives]. Qed.
#[local] Hint Resolve quiet_call : along.
#[local] Hint Extern 1 (along R (perform _ _)) => apply along_perform; intros ?; apply R_call; reflexivity : along.
#[local] Hint Extern 1 (along R (modify _)) => apply along_modify; intros ?; apply R_runs : along.

Lemma along_failure_events node runID reason :
  along R (applyNodeAttemptFailure env node runID reason).
Proof. unfold applyNodeAttemptFailure. along_auto. Qed.
#[local] Hint Resolve along_failure_events : along.

Lemma along_retry_events nodes signal : along R (applyManualNodeRetry env nodes signal).
Proof. unfold applyManualNodeRetry. along_auto. Qed.

Lemma along_resolve node edges attempt : along R (resolvePlanNodeAttempt env node edges attempt).
Proof. unfold resolvePlanNodeAttempt. along_auto. Qed.
#[local] Hint Resolve along_resolve : along.

Lemma along_nexus rt node attemptNode attempt :
  along R (startPlanNodeViaNexus env rt node attemptNode attempt).
Proof. unfold startPlanNodeViaNexus. along_auto. Qed.
#[local] Hint Resolve along_nexus : along.

Section expansion.
Hypothesis R_expansion : ∀ node status artifacts,
  along R (applyPlanExpansion env node status artifacts).
Hypothesis R_controls : ∀ x k, R x {| x with x_controls := {[k]} ∪ x_controls x |}.
Hypothesis R_signals : ∀ x k, R x {| x with x_signals := {[k]} ∪ x_signals x |}.
Hypothesis R_synced : ∀ x lifecycle, R x {| x with x_synced := lifecycle |}.

Lemma along_terminal_events node status : along R (applyNodeRunTerminal env node status).
Proof.
  apply along_applyNodeRunTerminal with (admitted := λ _ _, True) (id := ""); try done;
    eauto using R_emit with along.
Qed.
#[local] Hint Resolve along_terminal_events : along.

Lemma along_start_or_fail rt node edges : along R (start_or_fail env rt node edges).
Proof. unfold start_or_fail, startPlanNode. along_auto. Qed.
#[local] Hint Resolve along_start_or_fail : along.

Lemma along_budget_events controls : along R (applyPlanBudgetGuard env controls).
Proof. apply along_applyPlanBudgetGuard; eauto using R_emit, quiet_call. Qed.
#[local] Hint Resolve along_budget_events : along.

Lemma along_startReadyNodes rt ready capacity progressed :
  along R (startReadyNodes env rt ready capacity progressed).
Proof.
  revert capacity progressed. induction ready as [|node ready IH]; intros capacity progressed;
    cbn [startReadyNodes]; along_auto.
Qed.
#[local] Hint Resolve along_startReadyNodes : along.

Lemma along_decision_events rt decision progressed :
  along R (applyPlanSchedulerDecision env rt decision progressed).
Proof.
  unfold applyPlanSchedulerDecision, startReadyPlanNodes, applySkippedPlanNodes. along_auto.
Qed.

Hypothesis R_receive : ∀ x, R x (logged env ReceiveControl x).

Lemma along_loop_events fuel rt input enabled n paused :
  along R (plan_loop env fuel rt input enabled n paused).
Proof.
  apply along_loop with (known := λ _, True) (admitted := λ _ _, True) (good := λ _, True);
    eauto using quiet_call, R_emit, along_failure_events,
      along_retry_events, along_decision_events.
  - done.
  - intros rt' x decision progressed _ _. apply along_decision_events.
Qed.
End expansion.
End events.

(** ** Before the loop *)

Section start.
Context (env : Env) `{!Sha256, !GoQuote, !SliceSort, !ErrorText, !Boxing, !MapOrder}.
Context (R : relation Exec) `{!PreOrder R}.

Hypothesis R_call : ∀ c x, quiet c = true → R x (logged env c x).
Hypothesis R_synced : ∀ x lifecycle, R x {| x with x_synced := lifecycle |}.
Hypothesis R_emit : ∀ ev, passive (se_Kind ev) = true → along R (emit env ev).
Hypothesis R_validation : ∀ x validation, R x {| x with x_validation := validation |}.
Hypothesis R_reset : ∀ x controls signals,
  R x {| x with x_controls := controls; x_signals := signals; x_runs := ∅ |}.

#[local] Hint Extern 1 (along R (perform _ _)) => apply along_perform; intros ?; apply R_call; reflexivity : along.
#[local] Hint Extern 1 (along R (emit _ _)) => apply R_emit; reflexivity : along.
#[local] Hint Extern 1 (along R (modify _)) =>
  apply along_modify; intros ?; first [apply R_validation|apply R_reset] : along.
#[local] Hint Extern 1 (along R (sync_state _ _ _)) => apply along_sync_state; assumption : along.

Lemma along_start_plan compiler enabled input : along R (start_plan env compiler enabled input).
Proof.
  unfold start_plan, validatePlanAtStart, failPlanAtStart, failPlanWorkflowSetup,
    newPlanWorkflowRuntime. along_auto.
Qed.
End start.

Lemma failPlanWorkflowSetup_fails (env : Env) `{!Sha256} {A} enabled reason cause x y (a : A) :
  failPlanWorkflowSetup env enabled reason cause x ≠ (y, Return a).
Proof.
  intros Hs. unfold failPlanWorkflowSetup in Hs.
  do 3 apply W_bind_Return in Hs as (? & ? & _ & Hs). discriminate Hs.
Qed.

(** What the loop starts with. *)
Lemma start_plan_Return (env : Env) `{!Sha256, !ErrorText}
    compiler enabled input x y rt paused :
  start_plan env compiler enabled input x = (y, Return (rt, paused)) →
  rt_MaxParallel rt = normalizePlanParallelism (pol_MaxParallelNodes (spec_Policy (x_spec y))) ∧
  x_controls y = processedPlanWorkflowKeys (pwi_ProcessedControls input) ∧
  x_signals y = processedPlanWorkflowKeys (pwi_ProcessedSignals input) ∧
  x_runs y = ∅ ∧
  paused = (st_LifecycleState (Status (x_state y)) == PlanLifecycleBlocked).
Proof.
  unfold start_plan. intros Hs.
  repeat match type of Hs with
  | ((_ ≫= _) _ = _) => apply W_bind_Return in Hs as (? & ? & _ & Hs)
  end.
  destruct compiler as [compiler|e].
  - apply W_bind_Return in Hs as (z & s & [= <- <-] & Hs).
    apply W_bind_Return in Hs as (z' & rt' & Hr & Hs). injection Hs as <- <- <-.
    unfold newPlanWorkflowRuntime in Hr.
    apply W_bind_Return in Hr as (z1 & s1 & [= <- <-] & Hr).
    apply W_bind_Return in Hr as (z2 & s2 & [= <- <-] & Hr).
    injection Hr as <- <-. done.
  - by apply failPlanWorkflowSetup_fails in Hs.
Qed.

(** The validation result of the loop is one the environment gave. *)
Lemma start_plan_validated (env : Env) `{!Sha256, !ErrorText} compiler enabled input x y rt paused :
  start_plan env compiler enabled input x = (y, Return (rt, paused)) →
  ∃ past i, respond env past (ValidatePlan i) = Ok (x_validation y).
Proof.
  unfold start_plan. intros Hs.
  do 4 apply W_bind_Return in Hs as (? & ? & _ & Hs).
  apply W_bind_Return in Hs as (z & validation & Hv & Hs).
  apply W_bind_Return in Hs as (z1 & [] & [= <-] & Hs).
  assert (∃ past i, respond env past (ValidatePlan i) = Ok validation) as (past & i & Hi).
  { unfold validatePlanAtStart in Hv. apply W_bind_Return in Hv as (z1 & spec & [= <- <-] & Hv).
    apply W_bind_Return in Hv as (z1 & answer & Hp & Hv). rewrite perform_eq in Hp.
    injection Hp as <- Hp. destruct answer as [v|e].
    - destruct (validatePlanNodePeers _ _); [injection Hv as _ <-; eauto|].
      by apply failPlanWorkflowSetup_fails in Hv.
    - by apply failPlanWorkflowSetup_fails in Hv. }
  exists past, i. rewrite Hi. f_equal. destruct compiler as [compiler|e].
  - apply W_bind_Return in Hs as (z2 & s & [= <- <-] & Hs).
    apply W_bind_Return in Hs as (z3 & rt' & Hr & Hs). injection Hs as <- _ _.
    unfold newPlanWorkflowRuntime in Hr.
    apply W_bind_Return in Hr as (z4 & s1 & [= <- <-] & Hr).
    apply W_bind_Return in Hr as (z5 & s2 & [= <- <-] & Hr). by injection Hr as <- _.
  - by apply failPlanWorkflowSetup_fails in Hs.
Qed.
