(* ===== verification/WorkflowSpec.v ===== *)
(** * Properties of the plan workflow

    The durable history of whole executions of [PlanWorkflow] in an arbitrary
    environment ([durable_history]), and what handling one event does to the status and
    to the event stream ([event_frame], [event_result]).

    An event that cannot be persisted ends the execution with an error.  [follows F m] says so
    of a piece of code: unless [m] ends with an error, what it did to the reducer and to the plan
    is what it persisted ([writes]); if it does, [F] holds. *)

From S2P Require Import Prelude Types Graph Scope Contracts Validator State Scheduler Json Policy.
From S2P Require Import Events Temporal Workflow WorkflowSample WorkflowLogic.

(** ** The durable history *)

(** The transitions an execution handed to the store, in order. *)
Definition persisted (log : list exchange) : list persistPlanStateInput :=
  omap (λ e, match ex_call e with PersistPlanState input => Some input | _ => None end) log.

Lemma persisted_app l1 l2 : persisted (l1 ++ l2) = persisted l1 ++ persisted l2.
Proof. apply omap_app. Qed.

Lemma persisted_logged env c x :
  persists c = false → persisted (x_log (logged env c x)) = persisted (x_log x).
Proof. intros Hc. cbn. rewrite persisted_app. destruct c; try done; apply app_nil_r. Qed.

(** The spec is the answer to a plan expansion that the execution asked for. *)
Definition expanded_to (log : list exchange) (spec : RunPlanSpec) : Prop :=
  ∃ input output, Exchange (EvaluatePlanExpansion input) (Ok output) ∈ log ∧
    epo_Expanded output = true ∧ epo_Spec output = spec.

(** The spec an event is published with: the current one, and for the expansion of the plan the
    one that the evaluation answered. *)
Definition event_spec (log : list exchange) (current : RunPlanSpec) (ev : StateEvent)
    (spec : RunPlanSpec) : Prop :=
  spec = current ∨ (se_Kind ev = EventPlanExpanded ∧ expanded_to log spec).

(** An event of the node, or the expansion of the plan that the node's run asked for. *)
Definition of_node (id : string) (ev : StateEvent) : Prop :=
  se_NodeID ev = id ∨ se_Kind ev = EventPlanExpanded.

(** A run of the reducer over events, accepted or not. *)
Definition applies (s : State) (events : list (time * StateEvent)) : State :=
  foldl (λ s e, (Apply e.1 s e.2).1) s events.

Section history.
Context `{!Sha256}.

(** The persisted form of an event that takes the reducer to [s]. *)
Definition persisted_as (s : State) (ev : StateEvent) (p : persistPlanStateInput) : Prop :=
  psi_Status p = Status s ∧
  PlanEventFromStateEvent (psi_Spec p) (Status s)
    {| ev with se_NextLifecycleState := lifecycleForEvent (Status s) ev |} =
    Ok (psi_Event p, psi_IdempotencyKey p).

(** [history log spec s ps spec' s']: the reducer goes from [s] to [s'], and the plan from [spec]
    to [spec'], by accepting events, and [ps] are these events as they are persisted, one by one.
    An event that could not be persisted while a node was started is followed at once by the
    persisted failure of that node. *)
Inductive history (log : list exchange) (spec : RunPlanSpec) (s : State) :
    list persistPlanStateInput → RunPlanSpec → State → Prop :=
  | history_nil : history log spec s [] spec s
  | history_persisted ps spec1 s1 now ev spec2 s2 p :
      history log spec s ps spec1 s1 → Apply now s1 ev = (s2, Ok tt) →
      event_spec log spec1 ev (psi_Spec p) → persisted_as s2 ev p →
      spec2 = spec1 ∨ (se_Kind ev = EventPlanExpanded ∧ spec2 = psi_Spec p) →
      history log spec s (ps ++ [p]) spec2 s2
  | history_failed_start ps spec1 s1 now ev r s2 now' ev' s3 p :
      history log spec s ps spec1 s1 → Apply now s1 ev = (s2, r) → of_node (se_NodeID ev') ev →
      Apply now' s2 ev' = (s3, Ok tt) → se_Kind ev' = EventNodeFailed →
      psi_Spec p = spec1 → persisted_as s3 ev' p →
      history log spec s (ps ++ [p]) spec1 s3.

Lemma history_trans log spec1 s1 ps1 spec2 s2 ps2 spec3 s3 :
  history log spec1 s1 ps1 spec2 s2 → history log spec2 s2 ps2 spec3 s3 →
  history log spec1 s1 (ps1 ++ ps2) spec3 s3.
Proof.
  intros H1. induction 1.
  - by rewrite app_nil_r.
  - rewrite app_assoc. by eapply history_persisted.
  - rewrite app_assoc. by eapply history_failed_start.
Qed.

Lemma event_spec_prefix log log' current ev spec :
  log `prefix_of` log' → event_spec log current ev spec → event_spec log' current ev spec.
Proof.
  intros [l ->] [?|[? (i & o & ? & ?)]]; [by left|right]. split; [done|]. exists i, o.
  split; [apply elem_of_app; by left|done].
Qed.

Lemma history_prefix log log' spec s ps spec' s' :
  log `prefix_of` log' → history log spec s ps spec' s' → history log' spec s ps spec' s'.
Proof.
  intros Hl. induction 1.
  - constructor.
  - eapply history_persisted; try done. by eapply event_spec_prefix.
  - by eapply history_failed_start.
Qed.

(** The log grows by a history of the reducer. *)
Definition writes (x y : Exec) : Prop :=
  x_log x `prefix_of` x_log y ∧
  ∃ ps, persisted (x_log y) = persisted (x_log x) ++ ps ∧
    history (x_log y) (x_spec x) (x_state x) ps (x_spec y) (x_state y).

#[global] Instance writes_preorder : PreOrder writes.
Proof.
  split.
  - intros x. split; [done|]. exists []. split; [by rewrite app_nil_r|constructor].
  - intros x y z (Hl1 & ps1 & H1 & Hh1) (Hl2 & ps2 & H2 & Hh2). split; [by etrans|]. exists (ps1 ++ ps2). split.
    + by rewrite H2, H1, app_assoc.
    + eapply history_trans; [by eapply history_prefix|done].
Qed.

Lemma writes_same x y : x_log y = x_log x → x_state y = x_state x → x_spec y = x_spec x → writes x y.
Proof.
  intros Hl Hs Hp. split; [by rewrite Hl|]. exists []. rewrite Hl, Hs, Hp. split; [by rewrite app_nil_r|constructor].
Qed.

Lemma writes_call env c x : persists c = false → writes x (logged env c x).
Proof.
  intros Hc. split; [by apply prefix_app_r|]. exists []. rewrite persisted_logged by done.
  split; [by rewrite app_nil_r|constructor].
Qed.

(** At most [n] events, of which at most [k] are persisted. *)
Definition tail (n k : nat) (x y : Exec) : Prop :=
  x_log x `prefix_of` x_log y ∧
  (∃ ps, persisted (x_log y) = persisted (x_log x) ++ ps ∧ length ps ≤ k) ∧
  ∃ events, x_state y = applies (x_state x) events ∧ length events ≤ n.

Lemma tail_trans n k n' k' x y z : tail n k x y → tail n' k' y z → tail (n + n') (k + k') x z.
Proof.
  intros (Hl1 & (ps1 & Hp1 & Hk1) & es1 & Hs1 & Hn1) (Hl2 & (ps2 & Hp2 & Hk2) & es2 & Hs2 & Hn2).
  split; [by etrans|]. split; [exists (ps1 ++ ps2)|exists (es1 ++ es2)]; rewrite length_app; (split; [|lia]).
  - by rewrite Hp2, Hp1, app_assoc.
  - rewrite Hs2, Hs1. unfold applies. by rewrite foldl_app.
Qed.

Lemma tail_same n k x y : x_log y = x_log x → x_state y = x_state x → tail n k x y.
Proof.
  intros Hl Hs. split; [by rewrite Hl|]. split; [exists []|exists []]; (split; [|cbn; lia]); [|done].
  by rewrite Hl, app_nil_r.
Qed.

#[global] Instance tail_preorder : PreOrder (tail 0 0).
Proof. split; [intros x; by apply tail_same|]. intros x y z Hxy Hyz. exact (tail_trans 0 0 0 0 _ _ _ Hxy Hyz). Qed.

Lemma tail_call env c x : persists c = false → tail 0 0 x (logged env c x).
Proof.
  intros Hc. split; [by apply prefix_app_r|]. split; exists []; (split; [|cbn; lia]); [|done].
  by rewrite persisted_logged, app_nil_r.
Qed.

(** A history, and then at most [n] events, of which at most [k] are persisted. *)
Definition ending (n k : nat) (x y : Exec) : Prop := ∃ z, writes x z ∧ tail n k z y.

Lemma writes_ending n k x y : writes x y → ending n k x y.
Proof. intros Hw. exists y. split; [done|by apply tail_same]. Qed.

Lemma ending_trans n k x y z : writes x y → ending n k y z → ending n k x z.
Proof. intros Hw (u & Hu & Ht). exists u. split; [by etrans|done]. Qed.

Lemma ending_tail n k n' k' x y z : ending n k x y → tail n' k' y z → ending (n + n') (k + k') x z.
Proof. intros (u & Hu & Ht) Ht'. exists u. split; [done|by eapply tail_trans]. Qed.

(** A history, and then at most one event of the node that is not persisted. *)
Definition lost (id : string) (x y : Exec) : Prop :=
  ∃ z, writes x z ∧ x_log z `prefix_of` x_log y ∧ persisted (x_log y) = persisted (x_log z) ∧ x_spec y = x_spec z ∧
    (x_state y = x_state z ∨ ∃ now ev r, of_node id ev ∧ Apply now (x_state z) ev = (x_state y, r)).

Lemma writes_lost id x y : writes x y → lost id x y.
Proof. intros Hw. exists y. split_and!; try done. by left. Qed.

Lemma lost_ending n k id x y : lost id x y → ending (S n) k x y.
Proof.
  intros (z & Hw & Hl & Hp & _ & Hs). exists z. split; [done|]. split; [done|]. split.
  - exists []. rewrite app_nil_r. split; [done|cbn; lia].
  - destruct Hs as [Hs|(now & ev & r & _ & Ha)]; [by exists []; split; [|cbn; lia]|].
    exists [(now, ev)]. cbn. rewrite Ha. split; [done|lia].
Qed.

(** ** Code that stops when an event cannot be persisted *)

(** How code may end with an error. *)
Class Closing (F : relation Exec) := {
  closing_writes x y : writes x y → F x y;
  closing_trans x y z : writes x y → F y z → F x z;
}.

#[global] Instance ending_closing n k : Closing (ending n k).
Proof. split; [apply writes_ending|apply ending_trans]. Qed.

#[global] Instance lost_closing id : Closing (lost id).
Proof.
  split; [apply writes_lost|]. intros x y z Hw (u & Hu & Hrest). exists u. split; [by etrans|done].
Qed.

(** The request to continue as a new execution is no error. *)
Definition is_error (e : werror) : bool := match e with ContinueAsNew _ => false | _ => true end.

Definition closes {A} (F : relation Exec) (x : Exec) (r : Exec * outcome A) : Prop :=
  match r.2 with
  | Fail e => if is_error e then F x r.1 else writes x r.1
  | _ => writes x r.1
  end.

Definition follows {A} (F : relation Exec) (m : W A) : Prop := ∀ x, closes F x (m x).

Lemma follows_mono {A} (F F' : relation Exec) (m : W A) :
  (∀ x y, F x y → F' x y) → follows F m → follows F' m.
Proof.
  intros HF Hm x. specialize (Hm x). destruct (m x) as [y [a|e|]]; cbn in *; [done| |done].
  destruct (is_error e); [by apply HF|done].
Qed.

Section pieces.
Context (F : relation Exec) `{!Closing F}.

Lemma follows_closing {A} (m : W A) x : follows F m → F x (m x).1.
Proof.
  intros Hm. specialize (Hm x). destruct (m x) as [y [a|e|]]; cbn in *; [by apply closing_writes| |by apply closing_writes].
  destruct (is_error e); [done|by apply closing_writes].
Qed.

Lemma follows_along {A} (m : W A) : along writes m → follows F m.
Proof.
  intros Hm x. specialize (Hm x). destruct (m x) as [y [a|e|]]; cbn in *; [done| |done].
  destruct (is_error e); [by apply closing_writes|done].
Qed.

(** The same from one execution that was reached. *)
Lemma follows_from {A} (m : W A) x y :
  writes x y → follows F m → closes F x (m y).
Proof.
  intros Hw Hm. specialize (Hm y). destruct (m y) as [z [b|e|]]; cbn in *; [by etrans| |by etrans].
  destruct (is_error e); [by eapply closing_trans|by etrans].
Qed.

Lemma follows_bind_post {A B} (Q : A → Prop) (m : W A) (f : A → W B) :
  follows F m → (∀ x y a, m x = (y, Return a) → Q a) → (∀ a, Q a → follows F (f a)) → follows F (m ≫= f).
Proof.
  intros Hm HQ Hf x. rewrite W_bind_eq. specialize (Hm x). specialize (HQ x).
  destruct (m x) as [y [a|e|]]; cbn in *; [|done|done]. apply follows_from; [done|]. by eapply Hf, HQ.
Qed.

Lemma follows_bind {A B} (m : W A) (f : A → W B) : follows F m → (∀ a, follows F (f a)) → follows F (m ≫= f).
Proof. intros Hm Hf. by apply (follows_bind_post (λ _, True)). Qed.

Lemma follows_foldW {S A} (f : S → A → W S) s l : (∀ s a, follows F (f s a)) → follows F (foldW f s l).
Proof.
  intros Hf. revert s. induction l as [|a l IH]; intros s; [apply follows_along, along_ret; exact _|].
  by apply follows_bind.
Qed.

Lemma follows_forW {A} (f : A → W unit) l : (∀ a, follows F (f a)) → follows F (forW f l).
Proof. intros Hf. apply follows_foldW. auto. Qed.

Lemma follows_range_nodes {S} (f : S → PlanNodeStatus → W S) s :
  (∀ s node, follows F (f s node)) → follows F (range_nodes f s).
Proof.
  intros Hf. apply follows_bind; [by apply follows_along, along_gets; exact _|]. intros m. apply follows_foldW.
  intros s' i. apply follows_bind; [apply follows_along, along_node_at; exact _|]. auto.
Qed.

(** Code whose failure is caught changes nothing. *)
Lemma follows_try {A} (m : W A) : along writes m → follows F (try m).
Proof. intros Hm. by apply follows_along, along_try. Qed.
End pieces.

(** An error is caught and ends the execution after one more event. *)
Lemma follows_caught {A B} (m : W A) (f : A + werror → W B) :
  follows (ending 1 0) m → (∀ a, follows (ending 2 1) (f (inl a))) →
  (∀ e x, tail 1 1 x (f (inr e) x).1 ∧ ∃ e', (f (inr e) x).2 = Fail e' ∧ is_error e' = true) →
  follows (ending 2 1) (try m ≫= f).
Proof.
  intros Hm Hf He x. rewrite W_bind_eq. pose proof (follows_closing _ _ x Hm) as Hend. specialize (Hm x). unfold try.
  destruct (m x) as [y [a|e|]]; cbn in *; [|..|done].
  - apply (follows_from (ending 2 1)); [done|apply Hf].
  - destruct (He e y) as [Ht (e' & Hr & Herr)]. destruct (f (inr e) y) as [z r]. cbn in *. subst r.
    unfold closes. cbn. rewrite Herr.
    exact (ending_tail 1 0 1 1 _ _ _ Hend Ht).
Qed.
End history.

Create HintDb follows.
Ltac follows_step :=
  match goal with
  | |- follows _ (mret _) => apply follows_along, along_ret; exact _
  | |- follows _ (gets _) => apply follows_along, along_gets; exact _
  | |- follows _ (throw _) => apply follows_along, along_throw; exact _
  | |- follows _ diverge => apply follows_along, along_diverge; exact _
  | |- follows _ (lift _) => apply follows_along, along_lift; exact _
  | |- follows _ (perform _ _) => apply follows_along; [exact _|apply along_perform; intros ?; apply writes_call; reflexivity]
  | |- follows _ (modify _) => apply follows_along; [exact _|apply along_modify; intros ?; by apply writes_same]
  | |- follows _ (_ ≫= _) => apply follows_bind; [exact _| |intros ?]
  | |- follows _ (forW _ _) => apply follows_forW; [exact _|intros ?]
  | |- follows _ (foldW _ _ _) => apply follows_foldW; [exact _|intros ? ?]
  | |- follows _ (range_nodes _ _) => apply follows_range_nodes; [exact _|intros ? ?]
  | |- follows _ (match ?m with _ => _ end) => destruct m
  | |- follows _ (let _ := _ in _) => cbv zeta
  end.
Ltac follows_auto := repeat first [solve [eauto 2 with follows]|follows_step].

(** *** One event *)

Section event.
Context (env : Env) `{!Sha256}.

(** The clock reading an event gets: none when it carries a time. *)
Definition clocked (c : call) (needed : bool) (x : Exec) : Exec :=
  if needed then logged env c x else x.

(** The execution of one event: at most two clock readings, one reducer step, and the
    persist call when the step is accepted and published. *)
Lemma applyPlanStateEvent_eq spec ev x :
  let x1 := clocked Now (time_is_zero (se_At ev)) x in
  let now := if time_is_zero (se_At ev) then respond env (x_log x) Now else se_At ev in
  let x2 := clocked WallClock (time_is_zero now) x1 in
  let wall := if time_is_zero now then respond env (x_log x1) WallClock else now in
  let ev1 := {| ev with se_At := now;
                        se_PreviousLifecycleState := lifecycleForEvent (Status (x_state x)) ev |} in
  let s := (Apply wall (x_state x) ev1).1 in
  let x3 := {| x2 with x_state := s |} in
  let ev2 := {| ev1 with se_NextLifecycleState := lifecycleForEvent (Status s) ev1 |} in
  applyPlanStateEvent env spec ev x =
  match (Apply wall (x_state x) ev1).2 with
  | Err e => (x3, Fail (Plain e))
  | Ok _ =>
      match PlanEventFromStateEvent spec (Status s) ev2 with
      | Err e => (x3, Fail (Plain e))
      | Ok published =>
          let c := PersistPlanState {| psi_Spec := spec; psi_Status := Status s;
                     psi_Event := published.1; psi_IdempotencyKey := published.2 |} in
          (logged env c x3,
           match respond env (x_log x3) c with Ok _ => Return tt | Err e => Fail (Plain e) end)
      end
  end.
Proof.
  cbv zeta. unfold applyPlanStateEvent, clocked. rewrite W_bind_eq.
  destruct (time_is_zero (se_At ev)); [rewrite perform_eq|cbn [mret W_ret]];
    (do 2 (rewrite W_bind_eq; cbn [gets]); destruct (time_is_zero _); [rewrite perform_eq|cbn [mret W_ret]]);
    change (x_state (logged env Now x)) with (x_state x);
    destruct (Apply _ _ _) as [s [[]|e]] eqn:Ha; cbn [fst snd];
    do 2 (rewrite W_bind_eq; cbn [set_state modify lift mret W_ret throw]); try done;
    rewrite W_bind_eq; destruct (PlanEventFromStateEvent _ _ _) as [published|e];
    cbn [lift mret W_ret throw]; try done;
    rewrite W_bind_eq, perform_eq, W_bind_eq;
    by destruct (respond _ _ (PersistPlanState _)).
Qed.

(** An event touches the reducer and the log, nothing else. *)
Lemma event_frame spec ev x :
  ∃ s l, (applyPlanStateEvent env spec ev x).1 = {| x with x_state := s; x_log := l |}.
Proof.
  rewrite applyPlanStateEvent_eq. cbv zeta. unfold clocked, logged.
  destruct (time_is_zero (se_At ev)), (time_is_zero _), (Apply _ _ _).2;
    try destruct (PlanEventFromStateEvent _ _ _); cbn [fst]; eexists _, _; destruct x; reflexivity.
Qed.

(** The event as it is applied: with its time and the lifecycle before it. *)
Definition stamp (ev : StateEvent) (at_ : time) (previous : string) : StateEvent :=
  {| ev with se_At := at_; se_PreviousLifecycleState := previous |}.

(** The event as it is published: with the lifecycle after it. *)
Definition reached (s : State) (ev : StateEvent) : StateEvent :=
  {| ev with se_NextLifecycleState := lifecycleForEvent (Status s) ev |}.

Inductive event_result (spec : RunPlanSpec) (ev : StateEvent) (x y : Exec) : outcome unit → Prop :=
  | event_refused now at_ previous e :
      Apply now (x_state x) (stamp ev at_ previous) = (x_state y, Err e) →
      persisted (x_log y) = persisted (x_log x) →
      event_result spec ev x y (Fail (Plain e))
  | event_unpublished now at_ previous e :
      Apply now (x_state x) (stamp ev at_ previous) = (x_state y, Ok tt) →
      PlanEventFromStateEvent spec (Status (x_state y)) (reached (x_state y) (stamp ev at_ previous)) =
        Err e →
      persisted (x_log y) = persisted (x_log x) →
      event_result spec ev x y (Fail (Plain e))
  | event_persisted now at_ previous event key r :
      Apply now (x_state x) (stamp ev at_ previous) = (x_state y, Ok tt) →
      PlanEventFromStateEvent spec (Status (x_state y)) (reached (x_state y) (stamp ev at_ previous)) =
        Ok (event, key) →
      persisted (x_log y) = persisted (x_log x) ++
        [{| psi_Spec := spec; psi_Status := Status (x_state y); psi_Event := event;
            psi_IdempotencyKey := key |}] →
      r ≠ Diverge →
      event_result spec ev x y r.

Lemma persisted_clocked c needed x :
  persists c = false → persisted (x_log (clocked c needed x)) = persisted (x_log x).
Proof. intros Hc. unfold clocked. destruct needed; [by apply persisted_logged|done]. Qed.

Lemma applyPlanStateEvent_result spec ev x y r :
  applyPlanStateEvent env spec ev x = (y, r) → event_result spec ev x y r.
Proof.
  rewrite applyPlanStateEvent_eq. cbv zeta. fold (stamp ev).
  set (now := if time_is_zero (se_At ev) then _ else _).
  set (wall := if time_is_zero now then _ else _).
  set (x2 := clocked _ _ (clocked _ _ x)).
  assert (persisted (x_log x2) = persisted (x_log x)) as Hx2
    by (unfold x2; by rewrite !persisted_clocked).
  fold (stamp ev now (lifecycleForEvent (Status (x_state x)) ev)).
  destruct (Apply wall (x_state x) _) as [s [[]|e]] eqn:Ha; cbn [fst snd].
  2: { intros [= <- <-]. by eapply event_refused. }
  fold (reached s (stamp ev now (lifecycleForEvent (Status (x_state x)) ev))).
  destruct (PlanEventFromStateEvent _ _ _) as [[event key]|e] eqn:Hp.
  2: { intros [= <- <-]. by eapply event_unpublished. }
  intros [= <- <-]. eapply event_persisted; [exact Ha|exact Hp| |by case_match].
  cbn [logged x_log fst snd]. rewrite persisted_app, <-Hx2. done.
Qed.

Lemma event_log spec ev x : x_log x `prefix_of` x_log (applyPlanStateEvent env spec ev x).1.
Proof.
  rewrite applyPlanStateEvent_eq. cbv zeta. unfold clocked, logged.
  destruct (time_is_zero (se_At ev)), (time_is_zero _), (Apply _ _ _).2;
    try destruct (PlanEventFromStateEvent _ _ _); cbn [fst x_log]; rewrite <- ?app_assoc;
    first [reflexivity|by apply prefix_app_r].
Qed.

(** Handling an event is one event of the reducer, persisted or not. *)
Lemma tail_event spec ev : along (tail 1 1) (applyPlanStateEvent env spec ev).
Proof.
  intros x. split; [apply event_log|]. destruct (applyPlanStateEvent env spec ev x) as [y r] eqn:He. cbn [fst].
  apply applyPlanStateEvent_result in He.
  destruct He as [now at_ prev e Ha Hp|now at_ prev e Ha _ Hp|now at_ prev event key r Ha _ Hp _];
    (split; [|exists [(now, stamp ev at_ prev)]; cbn; by rewrite Ha]);
    [exists []; rewrite app_nil_r; split; [done|cbn; lia]..|eexists; split; [exact Hp|done]].
Qed.

Lemma event_error spec ev x y e : applyPlanStateEvent env spec ev x = (y, Fail e) → is_error e = true.
Proof.
  rewrite applyPlanStateEvent_eq. cbv zeta. destruct (Apply _ _ _).2; [|by intros [= _ <-]].
  destruct (PlanEventFromStateEvent _ _ _); [|by intros [= _ <-]].
  destruct (respond _ _ (PersistPlanState _)); [done|by intros [= _ <-]].
Qed.

Lemma event_same_spec spec ev x y r : applyPlanStateEvent env spec ev x = (y, r) → x_spec y = x_spec x.
Proof.
  intros He. destruct (event_frame spec ev x) as (s' & l' & Hframe). rewrite He in Hframe. cbn in Hframe. by subst y.
Qed.

Lemma event_prefix spec ev x y r : applyPlanStateEvent env spec ev x = (y, r) → x_log x `prefix_of` x_log y.
Proof. intros He. pose proof (event_log spec ev x) as Hl. by rewrite He in Hl. Qed.

(** When it succeeds it is a step of the history, if its spec is one the history allows; after an
    expansion the plan may be the expanded one. *)
Lemma event_written spec ev x y r id :
  applyPlanStateEvent env spec ev x = (y, r) → event_spec (x_log y) (x_spec x) ev spec → of_node id ev →
  match r with
  | Fail e => is_error e = true ∧ lost id x y
  | _ => writes x y ∧
      (se_Kind ev = EventPlanExpanded →
       ∀ y', x_log y' = x_log y → x_state y' = x_state y → x_spec y' = spec → writes x y')
  end.
Proof.
  intros He Hspec Hid. pose proof (event_prefix _ _ _ _ _ He) as Hlog. pose proof (event_same_spec _ _ _ _ _ He) as Hsame.
  assert (∀ e, r = Fail e → is_error e = true) as Hr by (intros e ->; by eapply event_error).
  apply applyPlanStateEvent_result in He.
  assert (∀ now at_ prev res, Apply now (x_state x) (stamp ev at_ prev) = (x_state y, res) →
    persisted (x_log y) = persisted (x_log x) → lost id x y) as Hlost.
  { intros now at_ prev res Ha Hp. exists x. split_and!; try done. right. by exists now, (stamp ev at_ prev), res. }
  destruct He as [now at_ prev e Ha Hp|now at_ prev e Ha Hu Hp|now at_ prev event key r Ha Hpub Hp Hd].
  1,2: split; [by apply Hr|by eapply Hlost].
  assert (∀ y', x_log y' = x_log y → x_state y' = x_state y →
    x_spec y' = x_spec x ∨ (se_Kind ev = EventPlanExpanded ∧ x_spec y' = spec) → writes x y') as Hw.
  { intros y' Hl Hs Hy'. split; [by rewrite Hl|]. eexists. rewrite Hl, Hs. split; [exact Hp|].
    eapply (history_persisted _ _ _ []); [constructor|exact Ha|exact Hspec|split; [done|exact Hpub]|exact Hy']. }
  assert (writes x y) as Hy by (apply Hw; [done..|by left]).
  destruct r as [[]|e|]; [|split; [by apply Hr|by apply writes_lost]|done].
  split; [done|]. intros Hk y' Hl Hs Hy'. apply Hw; [done..|by right].
Qed.

Lemma follows_emit_lost id ev : of_node id ev → follows (lost id) (emit env ev).
Proof.
  intros Hid x. unfold emit. rewrite W_bind_eq. cbn [gets].
  destruct (applyPlanStateEvent env (x_spec x) ev x) as [y r] eqn:He.
  apply (event_written _ _ _ _ _ id) in He; [|by left|done]. cbn [fst snd].
  destruct r as [[]|e|]; [by destruct He| |by destruct He]. unfold closes. cbn. by destruct He as [-> ?].
Qed.

(** The failure of a node after an event that was lost. *)
Lemma lost_recorded id ev x y w r :
  lost id x y → emit env ev y = (w, r) → se_Kind ev = EventNodeFailed → se_NodeID ev = id →
  match r with Fail e => is_error e = true ∧ ending 2 1 x w | _ => writes x w end.
Proof.
  intros Hlost He Hk Hid. pose proof (lost_ending 0 0 _ _ _ Hlost) as Hend.
  destruct Hlost as (z & (Hlz & ps & Hps & Hh) & Hl & Hp & Hs & Hst). unfold emit in He. rewrite W_bind_eq in He.
  cbn [gets] in He. pose proof (tail_event (x_spec y) ev y) as Ht. rewrite He in Ht. cbn [fst] in Ht.
  pose proof (event_prefix _ _ _ _ _ He) as Hlog. pose proof (event_same_spec _ _ _ _ _ He) as Hsame.
  assert (∀ e, r = Fail e → is_error e = true ∧ ending 2 1 x w) as Hfail.
  { intros e ->. split; [by eapply event_error|]. exact (ending_tail 1 0 1 1 _ _ _ Hend Ht). }
  apply applyPlanStateEvent_result in He.
  destruct He as [now at_ prev e Ha Hq|now at_ prev e Ha Hu Hq|now at_ prev event key r Ha Hpub Hq Hd];
    [by apply Hfail..|].
  assert (writes x w) as Hw; [|destruct r as [[]|e|]; [done|by apply Hfail|done]].
  split; [by do 2 (etrans; [done|])|]. eexists. rewrite Hq, Hp, Hps, <- app_assoc. split; [reflexivity|].
  assert (history (x_log w) (x_spec x) (x_state x) ps (x_spec z) (x_state z)) as Hh'
    by (eapply history_prefix; [|done]; by etrans).
  rewrite Hs in Hpub. rewrite Hsame, Hs. destruct Hst as [Hst|(now' & ev' & res & Hof & Ha')].
  - rewrite Hst in Ha. eapply history_persisted; [exact Hh'|exact Ha|by left|split; [done|exact Hpub]|by left].
  - eapply history_failed_start; [exact Hh'|exact Ha'| |exact Ha|done|done|split; [done|exact Hpub]]. by rewrite <- Hid in Hof.
Qed.

Lemma tail_emit ev : along (tail 1 1) (emit env ev).
Proof. intros x. unfold emit. rewrite W_bind_eq. cbn [gets]. apply tail_event. Qed.

(** An expansion: the event of the expanded plan, which then takes the place of the old one. *)
Lemma follows_expansion id node status artifacts : follows (lost id) (applyPlanExpansion env node status artifacts).
Proof.
  unfold applyPlanExpansion. destruct (negb _); [follows_step|].
  do 3 (apply follows_bind; [exact _|follows_step|intros ?]). intros x. rewrite W_bind_eq, perform_eq.
  set (c := EvaluatePlanExpansion _). assert (writes x (logged env c x)) as Hc by by apply writes_call.
  destruct (respond env (x_log x) c) as [output|e] eqn:Hr; rewrite W_bind_eq; cbn [lift mret W_ret throw];
    [|by apply writes_lost].
  destruct (epo_Expanded output) eqn:Hx; cbn [negb]; [|done]. rewrite W_bind_eq.
  destruct (applyPlanStateEvent env _ _ (logged env c x)) as [y r] eqn:He.
  pose proof (event_log (epo_Spec output) {| zero_StateEvent with se_Kind := EventPlanExpanded;
    se_Expansion := epo_Delta output |} (logged env c x)) as Hlog. rewrite He in Hlog. cbn [fst] in Hlog.
  apply (event_written _ _ _ _ _ id) in He; [..|by right].
  2: { right. split; [done|]. eexists _, output. split; [|done]. destruct Hlog as [l ->]. cbn.
       rewrite Hr. apply elem_of_app. left. apply elem_of_app. right. by left. }
  destruct r as [[]|e|]; cbn [fst snd modify] in *; unfold closes; cbn [fst snd].
  - change (writes x {| y with x_spec := epo_Spec output;
      x_validation := {| vpo_Plan := epo_Plan output; vpo_ControlsByNode := epo_ControlsByNode output;
        vpo_CapabilitiesByNode := epo_CapabilitiesByNode output |};
      x_expansionCount := int32 (x_expansionCount y + 1) |}).
    etrans; [exact Hc|]. refine (proj2 He eq_refl _ _ _ _); reflexivity.
  - destruct He as [-> He]. by eapply closing_trans.
  - etrans; [exact Hc|exact (proj1 He)].
Qed.
End event.

(** *** Whole executions *)

Section execution.
Context (env : Env) `{!Sha256, !GoQuote, !SliceSort, !ErrorText, !Boxing, !MapOrder}.

#[local] Hint Extern 1 (along writes (perform _ _)) =>
  apply along_perform; intros ?; apply writes_call; reflexivity : along.
#[local] Hint Extern 1 (along writes (modify _)) =>
  apply along_modify; intros ?; by apply writes_same : along.
(** Starting a node: its events, and the failure that records a lost one. *)
Section node.
Context (id : string).
#[local] Hint Extern 1 (follows (lost id) (emit _ _)) => apply follows_emit_lost; left; eassumption : follows.
#[local] Hint Resolve follows_expansion : follows.

Lemma lost_failure node runID reason :
  node_NodeID node = id → follows (lost id) (applyNodeAttemptFailure env node runID reason).
Proof. intros Hid. unfold applyNodeAttemptFailure. follows_auto. Qed.
#[local] Hint Resolve lost_failure : follows.

Lemma lost_terminal node status : node_NodeID node = id → follows (lost id) (applyNodeRunTerminal env node status).
Proof. intros Hid. unfold applyNodeRunTerminal, applyRunBudgetUsage. follows_auto. Qed.
#[local] Hint Resolve lost_terminal : follows.

Lemma lost_resolve node edges attempt :
  node_NodeID node = id → follows (lost id) (resolvePlanNodeAttempt env node edges attempt).
Proof.
  intros Hid. unfold resolvePlanNodeAttempt. apply follows_bind; [exact _|follows_step|]. intros spec.
  apply (follows_bind_post _ (λ node', node_NodeID node' = id)); [follows_step|..].
  - intros x y node' Hy. destruct (nodeForAttempt _ _ _) as [n|] eqn:Hn; [|done]. injection Hy as _ <-.
    apply nodeForAttempt_id in Hn as [-> _]. done.
  - intros node' Hid'. follows_auto.
Qed.

Lemma resolve_id node edges attempt x y node' attemptNode :
  resolvePlanNodeAttempt env node edges attempt x = (y, Return (Some (node', attemptNode))) →
  node_NodeID node' = node_NodeID node.
Proof.
  unfold resolvePlanNodeAttempt. intros (z & spec & [= <- <-] & Hy)%W_bind_Return.
  apply W_bind_Return in Hy as (z1 & n & Hn & Hy). destruct (nodeForAttempt _ _ _) as [n'|] eqn:Hnode; [|done].
  injection Hn as <- <-. apply nodeForAttempt_id in Hnode as [<- _].
  do 2 apply W_bind_Return in Hy as (? & ? & _ & Hy).
  match type of Hy with context [match ?r with Ok _ => _ | Err _ => _ end] => destruct r end;
    repeat apply W_bind_Return in Hy as (? & ? & _ & Hy); first [discriminate Hy|by injection Hy as _ <- _].
Qed.

Lemma lost_start rt node edges : node_NodeID node = id → follows (lost id) (startPlanNode env rt node edges).
Proof.
  intros Hid. unfold startPlanNode. apply follows_bind; [exact _|follows_step|]. intros v.
  apply follows_bind; [exact _|follows_auto|]. intros _. apply follows_bind; [exact _|follows_auto|]. intros _.
  apply follows_bind; [exact _|follows_step|]. intros state.
  apply (follows_bind_post _ (λ r, ∀ node' a, r = Some (node', a) → node_NodeID node' = id)); [by apply lost_resolve|..].
  { intros x y r Hr node' a ->. by rewrite (resolve_id _ _ _ _ _ _ _ Hr). }
  intros [[node' a]|] Hnode; [|follows_step]. specialize (Hnode node' a eq_refl).
  unfold startPlanNodeViaNexus. follows_auto.
Qed.
End node.

Lemma follows_start rt node edges : follows (ending 2 1) (start_or_fail env rt node edges).
Proof.
  intros x. unfold start_or_fail. rewrite W_bind_eq. unfold try at 1.
  pose proof (lost_start (node_NodeID node) rt node edges eq_refl) as Hs.
  pose proof (follows_closing _ _ x Hs) as Hlost. specialize (Hs x).
  destruct (startPlanNode env rt node edges x) as [y [[]|e|]]; cbn in Hs, Hlost; [exact Hs| |exact Hs].
  rewrite W_bind_eq. unfold try.
  destruct (emit env (node_event EventNodeFailed (node_NodeID node) "" (Error e)) y) as [w r] eqn:Hemit.
  pose proof (lost_recorded env _ _ _ _ _ _ Hlost Hemit eq_refl eq_refl) as Hr.
  destruct r as [[]|e'|]; [exact Hr| |exact Hr].
  unfold closes. cbn. exact (proj2 Hr).
Qed.

(** The other code, with at least one event before it ends. *)
Section code.
Context (n k : nat).

Lemma follows_lost {A} id (m : W A) : follows (lost id) m → follows (ending (S n) k) m.
Proof. apply follows_mono. intros x y. apply lost_ending. Qed.

Lemma follows_emit ev : follows (ending (S n) k) (emit env ev).
Proof. apply (follows_lost (se_NodeID ev)), follows_emit_lost. by left. Qed.
#[local] Hint Resolve follows_emit : follows.

Lemma follows_failure node runID reason : follows (ending (S n) k) (applyNodeAttemptFailure env node runID reason).
Proof. by apply (follows_lost (node_NodeID node)), lost_failure. Qed.
#[local] Hint Resolve follows_failure : follows.

Lemma follows_terminal node status : follows (ending (S n) k) (applyNodeRunTerminal env node status).
Proof. by apply (follows_lost (node_NodeID node)), lost_terminal. Qed.
#[local] Hint Resolve follows_terminal : follows.

Lemma follows_pending statuses : follows (ending (S n) k) (hasRunningPendingPromise env statuses).
Proof.
  induction statuses as [|node statuses IH]; cbn [hasRunningPendingPromise]; unfold promise_ready; follows_auto.
Qed.
#[local] Hint Resolve follows_pending : follows.

Lemma follows_settle rt : follows (ending (S n) k) (settleNexusNodePromises env rt).
Proof.
  unfold settleNexusNodePromises, applySettledNexusNodePromises, applyNexusNodePromise, promise_ready, remove,
    cancelRun. follows_auto.
Qed.

Lemma follows_poll : follows (ending (S n) k) (pollRunningPlanNodes env).
Proof.
  unfold pollRunningPlanNodes, pollRunningPlanNode, markRunningPlanNodeSucceeded, refreshRunningPlanNode,
    refreshNexusBackedPlanNode, applyNexusNodePromise, handleTimedOutPlanNode, cancelTimedOutNode, cancelRun,
    promise_ready, remove.
  follows_auto.
Qed.

Lemma writes_controls control controls : along writes (controlActivePlanNodes env control controls).
Proof. unfold controlActivePlanNodes. along_auto. Qed.

Lemma follows_controls control controls : follows (ending (S n) k) (controlActivePlanNodes env control controls).
Proof. apply follows_along; [exact _|apply writes_controls]. Qed.
#[local] Hint Resolve follows_controls : follows.
#[local] Hint Extern 1 (follows _ (try (controlActivePlanNodes _ _ _))) => apply follows_try; [exact _|apply writes_controls] : follows.

Lemma follows_canceled reason : follows (ending (S n) k) (markActivePlanNodesCanceled env reason).
Proof. unfold markActivePlanNodesCanceled. follows_auto. Qed.
#[local] Hint Resolve follows_canceled : follows.

Lemma follows_cancel controls kind key reason : follows (ending (S n) k) (cancelActivePlanNodesAndFail env controls kind key reason).
Proof. unfold cancelActivePlanNodesAndFail. follows_auto. Qed.
#[local] Hint Resolve follows_cancel : follows.

Lemma follows_deadline controls params : follows (ending (S n) k) (applyPlanDeadlineGuard env controls params).
Proof. unfold applyPlanDeadlineGuard. follows_auto. Qed.
#[local] Hint Resolve follows_deadline : follows.

Lemma follows_budget controls : follows (ending (S n) k) (applyPlanBudgetGuard env controls).
Proof. unfold applyPlanBudgetGuard. follows_auto. Qed.
#[local] Hint Resolve follows_budget : follows.

Lemma fail_joined_error {A} cause ev x : ∃ e, (fail_joined env (A := A) cause ev x).2 = Fail e ∧ is_error e = true.
Proof.
  unfold fail_joined, try. rewrite W_bind_eq. destruct (emit env ev x) as [y [a|e|]] eqn:He; [by eexists..|].
  exfalso. revert He. unfold emit. rewrite W_bind_eq. cbn [gets]. rewrite applyPlanStateEvent_eq. cbv zeta.
  destruct (Apply _ _ _).2; [|done]. destruct (PlanEventFromStateEvent _ _ _); [|done].
  by destruct (respond _ _ (PersistPlanState _)).
Qed.

Lemma fail_joined_exec {A} cause ev x : (fail_joined env (A := A) cause ev x).1 = (emit env ev x).1.
Proof. unfold fail_joined, try. rewrite W_bind_eq. by destruct (emit env ev x) as [y [a|e|]]. Qed.

Lemma follows_fail_joined {A} cause ev : follows (ending (S n) k) (fail_joined env (A := A) cause ev).
Proof.
  intros x. destruct (fail_joined_error (A := A) cause ev x) as (e & He & Herr).
  unfold closes. rewrite He, Herr, fail_joined_exec.
  apply follows_closing; [exact _|apply follows_emit].
Qed.
#[local] Hint Resolve follows_fail_joined : follows.

Lemma follows_guard m : follows (ending (S n) k) (applyPlanIterationGuard env m).
Proof. unfold applyPlanIterationGuard. follows_auto. Qed.

Lemma follows_control paused control controls : follows (ending (S n) k) (applyPlanControl env paused control controls).
Proof.
  unfold applyPlanControl, cancelPlanFromControl, pausePlanFromControl, resumePlanFromControl,
    blockPlanAfterControlFailure, block_plan. follows_auto.
Qed.
#[local] Hint Resolve follows_control : follows.

Lemma follows_drainPlanControl fuel paused controls : follows (ending (S n) k) (drainPlanControl env fuel paused controls).
Proof. revert paused. induction fuel as [|fuel IH]; intros paused; cbn [drainPlanControl]; follows_auto. Qed.

Lemma follows_signal paused nodes controls signal : follows (ending (S n) k) (applyPlanSignal env paused nodes controls signal).
Proof.
  unfold applyPlanSignal, retryPlanNodeFromSignal, approvePlanFromSignal, rejectPlanFromSignal,
    approvalEventForSignal, signalActivePlanNodes, applyManualNodeRetry. follows_auto.
Qed.
#[local] Hint Resolve follows_signal : follows.

Lemma follows_drainPlanSignals fuel paused progressed nodes controls :
  follows (ending (S n) k) (drainPlanSignals env fuel paused progressed nodes controls).
Proof.
  revert paused progressed. induction fuel as [|fuel IH]; intros paused progressed; cbn [drainPlanSignals]; follows_auto.
Qed.

Lemma follows_continue input m : follows (ending (S n) k) (continuePlanWorkflowIfNeeded env input m).
Proof. unfold continuePlanWorkflowIfNeeded. follows_auto. Qed.
#[local] Hint Resolve follows_continue : follows.

Lemma follows_guards input m paused : follows (ending (S n) k) (applyPlanWorkflowPreScheduleGuards env input m paused).
Proof. unfold applyPlanWorkflowPreScheduleGuards, applyTerminalPlanState, sleep. follows_auto. Qed.

Lemma follows_finish input m progressed r : follows (ending (S n) k) (finishPlanWorkflowIteration env input m progressed r).
Proof. unfold finishPlanWorkflowIteration, sleep. follows_auto. Qed.

End code.
#[local] Hint Resolve follows_emit follows_start follows_budget follows_poll follows_fail_joined : follows.

Lemma follows_ready rt ready capacity progressed : follows (ending 2 1) (startReadyNodes env rt ready capacity progressed).
Proof.
  revert capacity progressed. induction ready as [|node ready IH]; intros capacity progressed;
    cbn [startReadyNodes]; follows_auto.
Qed.
#[local] Hint Resolve follows_ready : follows.

Lemma follows_decision rt decision progressed :
  follows (ending 2 1) (applyPlanSchedulerDecision env rt decision progressed).
Proof. unfold applyPlanSchedulerDecision, startReadyPlanNodes, applySkippedPlanNodes. follows_auto. Qed.

(** An error is recorded with one event. *)
Lemma failed_iteration {A} e x :
  tail 1 1 x (failPlanWorkflowIteration env (A := A) e x).1 ∧
  ∃ e', (failPlanWorkflowIteration env (A := A) e x).2 = Fail e' ∧ is_error e' = true.
Proof.
  unfold failPlanWorkflowIteration. rewrite fail_joined_exec. split; [apply tail_emit|apply fail_joined_error].
Qed.

Lemma follows_schedule rt progressed : follows (ending 2 1) (schedulePlanWorkflowNodes env rt progressed).
Proof.
  unfold schedulePlanWorkflowNodes. do 3 (apply follows_bind; [exact _|follows_step|intros ?]).
  destruct (Decide _ _ _ _) as [decision|e]; [|apply follows_fail_joined].
  apply follows_bind; [exact _|apply follows_decision|intros progressed'].
  apply follows_caught; [apply follows_poll| |intros; apply failed_iteration].
  intros polled. unfold applyTerminalPlanState. follows_auto.
Qed.

Lemma writes_sync enabled runID : along writes (sync_state env enabled runID).
Proof. unfold sync_state, sync. along_auto. Qed.

Lemma follows_sync n k enabled runID : follows (ending n k) (sync_state env enabled runID).
Proof. apply follows_along; [exact _|apply writes_sync]. Qed.
#[local] Hint Resolve follows_sync : follows.

(** Code that always returns. *)
Definition finishes {A} (m : W A) : Prop := ∀ x, ∃ a, (m x).2 = Return a.

Lemma finishes_bind {A B} (m : W A) (f : A → W B) : finishes m → (∀ a, finishes (f a)) → finishes (m ≫= f).
Proof. intros Hm Hf x. rewrite W_bind_eq. destruct (Hm x) as [a Ha]. destruct (m x). cbn in Ha. subst. apply Hf. Qed.

Lemma finishes_forW {A} (f : A → W unit) l : (∀ a, finishes (f a)) → finishes (forW f l).
Proof.
  intros Hf. unfold forW. induction l as [|a l IH]; [by intros x; eexists|].
  apply finishes_bind; [apply Hf|]. by intros [].
Qed.

Lemma finishes_sync enabled runID : finishes (sync_state env enabled runID).
Proof.
  intros x. unfold sync_state, sync. do 2 (rewrite W_bind_eq; cbn [gets]).
  destruct (_ == _); [by eexists|]. destruct (_ <? _)%Z; by eexists.
Qed.

Lemma finishes_drain rt : finishes (drainNexusNodeRuns env rt).
Proof.
  unfold drainNexusNodeRuns, drainResolved. apply finishes_bind; [by intros x; eexists|]. intros runs.
  destruct (_ || _); [by intros x; eexists|]. apply finishes_bind.
  { apply finishes_forW. intros id. unfold cancelRun. apply finishes_bind; [by intros x; eexists|]. intros m.
    destruct (m !! id); [by intros x; eexists|by intros x; eexists]. }
  intros _. apply finishes_bind; [by intros x; eexists|]. intros _. apply finishes_bind; [by intros x; eexists|].
  intros m. apply finishes_forW. intros id. destruct (m !! id); [|by intros x; eexists].
  apply finishes_bind; [by intros x; eexists|]. intros []; by intros x; eexists.
Qed.

Lemma tail_sync enabled runID : along (tail 0 0) (sync_state env enabled runID).
Proof. apply along_sync_state; [exact _|intros; by apply tail_call, quiet_persists|intros; by apply tail_same]. Qed.

Lemma tail_drain rt : along (tail 0 0) (drainNexusNodeRuns env rt).
Proof. apply along_drainNexusNodeRuns; [exact _|intros; by apply tail_call, quiet_persists|intros; by apply tail_same]. Qed.

Lemma writes_drain rt : along writes (drainNexusNodeRuns env rt).
Proof. apply along_drainNexusNodeRuns; [exact _|intros; by apply writes_call, quiet_persists|intros; by apply writes_same]. Qed.

(** An iteration: the draining of messages is where an error is answered with one more event. *)
Lemma follows_iteration fuel rt input n paused : follows (ending 2 1) (runPlanWorkflowIteration env fuel rt input n paused).
Proof.
  unfold runPlanWorkflowIteration. apply follows_bind; [exact _|apply follows_guard|intros _].
  apply follows_bind; [exact _|apply follows_settle|intros [settled paced]]. apply follows_bind; [exact _|follows_step|intros v].
  apply follows_caught; [apply follows_drainPlanControl| |intros; apply failed_iteration]. intros [[|] p]; [follows_step|].
  apply follows_caught; [apply follows_drainPlanSignals| |intros; apply failed_iteration]. intros [[[|] p'] progressed]; [follows_step|].
  apply follows_bind; [exact _|apply follows_guards|]. intros [fin|]; [follows_step|].
  apply follows_bind; [exact _|apply follows_schedule|]. intros [progressed' [|]]; [follows_step|].
  destruct paced; [follows_step|apply follows_finish].
Qed.

Lemma follows_loop fuel rt input enabled n paused : follows (ending 2 1) (plan_loop env fuel rt input enabled n paused).
Proof.
  revert n paused. induction fuel as [|fuel IH]; intros n paused; cbn [plan_loop]; [follows_step|]. intros x.
  rewrite W_bind_eq. unfold try at 1. pose proof (follows_iteration fuel rt input (int32 (n + 1)) paused x) as Hit.
  destruct (runPlanWorkflowIteration _ _ _ _ _ _ x) as [y [result|e|]]; cbn [fst snd] in Hit; [..|done].
  - assert (follows (ending 2 1) (sync_state env enabled (spec_PlanID (pwi_Spec input));;
      if ir_Done result then drainNexusNodeRuns env rt;; state ← gets x_state; mret (Status state)
      else plan_loop env fuel rt input enabled (int32 (n + 1)) (ir_Paused result))) as Hrest.
    { apply follows_bind; [exact _|apply follows_sync|intros _]. destruct (ir_Done result); [|apply IH].
      apply follows_bind; [exact _|apply follows_along; [exact _|apply writes_drain]|intros _]. follows_auto. }
    by apply (follows_from (ending 2 1)).
  - rewrite W_bind_eq. pose proof (tail_sync enabled (spec_PlanID (pwi_Spec input)) y) as Ht.
    pose proof (writes_sync enabled (spec_PlanID (pwi_Spec input)) y) as Hw.
    destruct (finishes_sync enabled (spec_PlanID (pwi_Spec input)) y) as [[] Hr].
    destruct (sync_state _ _ _ y) as [y1 r1]. cbn in Hr, Ht, Hw. subst r1. rewrite W_bind_eq.
    pose proof (tail_drain rt y1) as Ht1. pose proof (writes_drain rt y1) as Hw1.
    destruct (finishes_drain rt y1) as [[] Hr1]. destruct (drainNexusNodeRuns env rt y1) as [y2 r2].
    cbn in Hr1, Ht1, Hw1. subst r2. unfold closes in Hit |- *. cbn in Hit |- *. destruct (is_error e).
    + exact (ending_tail 2 1 0 0 _ _ _ Hit (tail_trans 0 0 0 0 _ _ _ Ht Ht1)).
    + etrans; [exact Hit|]. by etrans.
Qed.
#[local] Hint Resolve follows_loop : follows.

(** The setup failure is recorded, whatever becomes of the record. *)
Lemma follows_setup_failure {A} enabled reason cause :
  follows (ending 2 1) (failPlanWorkflowSetup env (A := A) enabled reason cause).
Proof.
  intros x. unfold failPlanWorkflowSetup. rewrite W_bind_eq. unfold try.
  pose proof (follows_closing _ _ x (follows_emit 1 1 (plan_event EventPlanFailed reason))) as Hend.
  pose proof (fail_joined_error (A := A) cause (plan_event EventPlanFailed reason) x) as Hf.
  unfold fail_joined, try in Hf. rewrite W_bind_eq in Hf.
  assert (∀ y r, ending 2 1 x y → closes (ending 2 1) x
    ((spec ← gets x_spec; sync_state env enabled (spec_PlanID spec);; throw (A := A) (Join cause r)) y)) as Hrest.
  { intros y r Hy. rewrite W_bind_eq. cbn [gets]. rewrite W_bind_eq.
    pose proof (tail_sync enabled (spec_PlanID (x_spec y)) y) as Ht.
    destruct (finishes_sync enabled (spec_PlanID (x_spec y)) y) as [[] Hr].
    destruct (sync_state _ _ _ y) as [z rz]. cbn in Ht, Hr. subst rz. cbn. exact (ending_tail 2 1 0 0 _ _ _ Hy Ht). }
  destruct (emit env _ x) as [y [a|e|]]; cbn in Hend, Hf; [by apply Hrest..|]. by destruct Hf as (? & ? & _).
Qed.
#[local] Hint Resolve follows_setup_failure : follows.

Lemma follows_execute_plan compiler fuel input : follows (ending 2 1) (execute_plan env compiler fuel input).
Proof.
  unfold execute_plan. apply follows_bind; [exact _|follows_step|intros enabled]. apply follows_bind; [exact _| |intros; apply follows_loop].
  unfold start_plan, validatePlanAtStart, failPlanAtStart, newPlanWorkflowRuntime. follows_auto.
Qed.

Lemma newPlanWorkflowSetup_cases input x y r :
  newPlanWorkflowSetup env (Some input) x = (y, r) →
  persisted (x_log y) = persisted (x_log x) ∧
  (x_state y = x_state x ∧ (∃ e, r = Fail (Plain e)) ∨
   ∃ now, r = Return input ∧ initialPlanWorkflowState input now = Ok (x_state y) ∧
          x_spec y = pwi_Spec input ∧ x_expansionCount y = pwi_ExpansionCount input ∧
          x_runs y = x_runs x ∧ tq_PlanActivity (pwi_TaskQueues input) ≠ "" ∧
          validatePlanWorkflowVersion (pwi_WorkflowVersion input) = Ok tt).
Proof.
  unfold newPlanWorkflowSetup. rewrite W_bind_eq.
  destruct (_ == "") eqn:Hq; cbn [fail_if lift mret W_ret throw].
  { intros [= <- <-]. naive_solver. }
  rewrite W_bind_eq. destruct (validatePlanWorkflowVersion _) as [[]|e]; cbn [lift mret W_ret throw].
  2: { intros [= <- <-]. naive_solver. }
  rewrite W_bind_eq, perform_eq. rewrite W_bind_eq.
  destruct (initialPlanWorkflowState _ _) as [s|e] eqn:Hi; cbn [lift mret W_ret throw].
  2: { intros [= <- <-]. split; [by apply (persisted_logged env Now x)|naive_solver]. }
  intros [= <- <-]. split; [by apply (persisted_logged env Now x)|]. right. simplify_bool.
  eexists. split_and!; try done; exact Hi.
Qed.
End execution.


