(* ===== verification/WorkflowParallel.v ===== *)
(** * Parallelism of the plan workflow

    The parallelism limit over whole executions, in an arbitrary environment: no persisted
    snapshot has more running nodes than the plan allows.  The proof follows the set of
    running nodes through the workflow: an event adds a node to it only when it starts
    that node.  The bound on attempts is in [WorkflowAttempts]. *)

From S2P Require Import Prelude Types Graph Scope Contracts Validator State Scheduler Json Policy.
From S2P Require Import Events Temporal Workflow WorkflowSample WorkflowLogic WorkflowSpec.

(** ** The running nodes *)

Definition running_set (s : State) : gset string :=
  dom (filter (λ '(_, n), ns_LifecycleState n = PlanNodeRunning) (nodes s)).

Lemma elem_of_running_set s id :
  id ∈ running_set s ↔ ∃ n, nodes s !! id = Some n ∧ ns_LifecycleState n = PlanNodeRunning.
Proof.
  unfold running_set. rewrite elem_of_dom. unfold is_Some. setoid_rewrite map_lookup_filter_Some. done.
Qed.

Lemma filter_fmap_length {A B} (f : A → B) (P : B → Prop) `{!∀ b, Decision (P b)} l :
  length (filter P (f <$> l)) = length (filter (P ∘ f) l).
Proof.
  induction l as [|a l IH]; [done|]. rewrite fmap_cons, !filter_cons.
  destruct (decide (P (f a))), (decide ((P ∘ f) a)); try done. cbn. by rewrite IH.
Qed.

Lemma running_count_sorted s :
  length (filter (λ n, ns_LifecycleState n = PlanNodeRunning) (sortedNodeStatuses (nodes s))) =
  size (running_set s).
Proof.
  unfold sortedNodeStatuses. rewrite filter_fmap_length.
  rewrite <-(size_list_to_set (C := gset string)).
  - f_equal. apply set_eq. intros id. rewrite elem_of_list_to_set, list_elem_of_filter,
      elem_of_sort_strings, elem_of_running_set, list_elem_of_fmap. cbn. split.
    + intros (Hr & [id' n] & -> & Hl%elem_of_map_to_list). cbn in *. rewrite Hl in Hr. eauto.
    + intros (n & Hl & Hr). rewrite Hl. split; [done|]. exists (id, n). by rewrite elem_of_map_to_list.
  - apply NoDup_filter. rewrite NoDup_sort_strings. apply NoDup_fst_map_to_list.
Qed.

(** The status counts the running nodes of the reducer. *)
Definition counted (s : State) : Prop :=
  runningNodeCount (Status s) = Z.of_nat (size (running_set s)).

Lemma counted_listed s : st_Nodes (Status s) = sortedNodeStatuses (nodes s) → counted s.
Proof. unfold counted, runningNodeCount. intros ->. by rewrite running_count_sorted. Qed.

(** An event makes a node run only by starting it. *)
Lemma node_step_running at_ ev n n' :
  node_step at_ ev n n' → ns_LifecycleState n' = PlanNodeRunning →
  ns_LifecycleState n = PlanNodeRunning ∨ se_Kind ev = EventNodeStarted.
Proof.
  intros [lc Hlc|Hk|Hk|Hk|Hk Hd] Hr; auto; [|done].
  rewrite transitioned_lifecycle in Hr. subst lc. right.
  apply transition_cases in Hlc. naive_solver.
Qed.

(** The nodes an event may set running. *)
Definition starts (ev : StateEvent) : gset string :=
  if se_Kind ev == EventNodeStarted then {[se_NodeID ev]} else ∅.

Lemma Apply_running now s ev s' r :
  Apply now s ev = (s', r) →
  running_set s' ⊆ starts ev ∪ running_set s ∧ (r = Ok tt ∨ counted s → counted s').
Proof.
  intros Ha. split.
  - intros id. rewrite elem_of_union, !elem_of_running_set. intros (n' & Hn' & Hr).
    destruct (Apply_origin _ _ _ _ _ _ _ Ha Hn') as [?|[(n & Hn & -> & Hs)|(_ & _ & node & at_ & -> & _)]];
      [eauto| |done].
    destruct (node_step_running _ _ _ _ Hs Hr) as [?|Hk]; [eauto|].
    left. unfold starts. rewrite bool_decide_eq_true_2 by done. by apply elem_of_singleton.
  - destruct r as [[]|e].
    + intros _. apply Apply_Ok in Ha as (s1 & _ & ->). by apply counted_listed.
    + intros [|Hc]; [done|].
      unfold counted. destruct (Apply_Err _ _ _ _ _ Ha) as (_ & -> & _ & _ & Hsub).
      rewrite Hc. do 2 f_equal. apply set_eq. intros id. rewrite !elem_of_running_set. split.
      * intros (n & Hn & Hr). exists n. split; [by eapply lookup_weaken|done].
      * intros (n & Hn & Hr).
        destruct (Apply_origin _ _ _ _ _ _ _ Ha Hn) as [?|[(n0 & Hn0 & _ & _)|(_ & _ & node & at_ & -> & _)]];
          [eauto| |done].
        exists n0. split; [done|]. pose proof (lookup_weaken _ _ _ _ Hn0 Hsub). by simplify_eq.
Qed.

(** ** Spread of the running set *)

(** Along a piece of code, only nodes of [S] join the running nodes, at its end and in
    every snapshot persisted on the way. *)
Definition spread (S : gset string) (x y : Exec) : Prop :=
  running_set (x_state y) ⊆ S ∪ running_set (x_state x) ∧
  (counted (x_state x) → counted (x_state y)) ∧
  ∃ ps, persisted (x_log y) = persisted (x_log x) ++ ps ∧
        Forall (λ p, ∃ T, T ⊆ S ∪ running_set (x_state x) ∧
                          runningNodeCount (psi_Status p) = Z.of_nat (size T)) ps.

#[global] Instance spread_preorder S : PreOrder (spread S).
Proof.
  split.
  - intros x. split_and!; [set_solver|done|]. exists []. by rewrite app_nil_r.
  - intros x y z (H1 & C1 & ps1 & L1 & F1) (H2 & C2 & ps2 & L2 & F2). split_and!; [set_solver|auto|].
    exists (ps1 ++ ps2). rewrite L2, L1, app_assoc. split; [done|]. apply Forall_app_2; [done|].
    eapply Forall_impl; [exact F2|]. intros p (T & HT & Hp). exists T. split; [set_solver|done].
Qed.

Lemma spread_same S x y : x_log y = x_log x → x_state y = x_state x → spread S x y.
Proof.
  intros Hl Hs. unfold spread. rewrite Hl, Hs. split_and!; [set_solver|done|].
  exists []. by rewrite app_nil_r.
Qed.

(** At most [cap] nodes run, at every point and in every snapshot. *)
Definition capped (cap : Z) (x y : Exec) : Prop :=
  (Z.of_nat (size (running_set (x_state x))) ≤ cap)%Z → counted (x_state x) →
  (Z.of_nat (size (running_set (x_state y))) ≤ cap)%Z ∧ counted (x_state y) ∧
  ∃ ps, persisted (x_log y) = persisted (x_log x) ++ ps ∧
        Forall (λ p, runningNodeCount (psi_Status p) ≤ cap)%Z ps.

#[global] Instance capped_preorder cap : PreOrder (capped cap).
Proof.
  split.
  - intros x Hx Hc. split_and!; [done|done|]. exists []. by rewrite app_nil_r.
  - intros x y z H1 H2 Hx Hc. destruct (H1 Hx Hc) as (Hy & Cy & ps1 & L1 & F1).
    destruct (H2 Hy Cy) as (Hz & Cz & ps2 & L2 & F2). split_and!; [done|done|].
    exists (ps1 ++ ps2). rewrite L2, L1, app_assoc. split; [done|]. by apply Forall_app_2.
Qed.

Lemma spread_capped cap S x y :
  spread S x y → (Z.of_nat (size (S ∪ running_set (x_state x))) ≤ cap)%Z → capped cap x y.
Proof.
  intros (Hr & Hc & ps & Hl & Hps) HS _ Hx. split_and!; [|auto|].
  - apply subseteq_size in Hr. lia.
  - exists ps. split; [done|]. eapply Forall_impl; [exact Hps|].
    intros p (T & HT & ->). apply subseteq_size in HT. lia.
Qed.

Lemma spread_empty_capped cap x y : spread ∅ x y → capped cap x y.
Proof.
  intros Hs Hx Hc. eapply spread_capped; [exact Hs| |done|done]. by rewrite (left_id_L ∅ (∪)).
Qed.

Section spread.
Context (env : Env) `{!Sha256, !GoQuote, !SliceSort, !ErrorText, !Boxing, !MapOrder} (S : gset string).

Lemma spread_event spec ev : starts ev ⊆ S → along (spread S) (applyPlanStateEvent env spec ev).
Proof.
  intros HS x. destruct (applyPlanStateEvent env spec ev x) as [y r] eqn:He.
  apply applyPlanStateEvent_result in He. cbn [fst].
  destruct He as [now a p e Ha Hl|now a p e Ha _ Hl|now a p event key r Ha _ Hl _];
    destruct (Apply_running _ _ _ _ _ Ha) as [Hrun Hc]; change (starts (stamp ev a p)) with (starts ev) in Hrun.
  - split_and!; [set_solver|auto|]. exists []. by rewrite Hl, app_nil_r.
  - split_and!; [set_solver|auto|]. exists []. by rewrite Hl, app_nil_r.
  - split_and!; [set_solver|auto|]. eexists. split; [exact Hl|]. apply Forall_singleton.
    exists (running_set (x_state y)). split; [set_solver|]. apply Hc. auto.
Qed.

Lemma spread_emit ev : starts ev ⊆ S → along (spread S) (emit env ev).
Proof.
  intros HS. unfold emit. apply along_bind; [exact _|apply along_gets; exact _|]. intros spec.
  by apply spread_event.
Qed.

Lemma spread_call c x : persists c = false → spread S x (logged env c x).
Proof.
  intros Hc. unfold spread. rewrite persisted_logged by done. split_and!; [set_solver|done|].
  exists []. by rewrite app_nil_r.
Qed.

#[local] Hint Extern 1 (along (spread S) (perform _ _)) =>
  apply along_perform; intros ?; apply spread_call; reflexivity : along.
#[local] Hint Extern 1 (along (spread S) (modify _)) =>
  apply along_modify; intros ?; by apply spread_same : along.
#[local] Hint Extern 1 (along (spread S) (emit _ _)) =>
  apply spread_emit; apply (empty_subseteq (C := gset string)) : along.
#[local] Hint Extern 1 (along (spread S) (applyPlanStateEvent _ _ _)) =>
  apply spread_event; apply (empty_subseteq (C := gset string)) : along.

Lemma spread_expansion node status artifacts :
  along (spread S) (applyPlanExpansion env node status artifacts).
Proof. unfold applyPlanExpansion. along_auto. Qed.
#[local] Hint Resolve spread_expansion : along.

Lemma spread_failure node runID reason :
  along (spread S) (applyNodeAttemptFailure env node runID reason).
Proof. unfold applyNodeAttemptFailure. along_auto. Qed.
#[local] Hint Resolve spread_failure : along.

Lemma spread_retry nodes signal : along (spread S) (applyManualNodeRetry env nodes signal).
Proof. unfold applyManualNodeRetry. along_auto. Qed.

Lemma spread_terminal node status : along (spread S) (applyNodeRunTerminal env node status).
Proof. unfold applyNodeRunTerminal, applyRunBudgetUsage. along_auto. Qed.
#[local] Hint Resolve spread_terminal : along.

Lemma spread_passive ev : passive (se_Kind ev) = true → along (spread S) (emit env ev).
Proof.
  intros Hp. apply spread_emit. unfold starts. case_bool_decide as Hk; [|set_solver].
  by rewrite Hk in Hp.
Qed.

Lemma spread_resolve node edges attempt :
  node_NodeID node ∈ S → along (spread S) (resolvePlanNodeAttempt env node edges attempt).
Proof.
  intros Hn. unfold resolvePlanNodeAttempt. along_step; [apply along_gets; exact _|].
  apply along_lift_bind; [exact _|]. intros node' [Hid _]%nodeForAttempt_id. along_auto.
  apply spread_emit. change ({[node_NodeID node']} ⊆ S). rewrite Hid. by apply singleton_subseteq_l.
Qed.

Lemma spread_start rt node edges :
  node_NodeID node ∈ S → along (spread S) (start_or_fail env rt node edges).
Proof.
  intros Hn. unfold start_or_fail, startPlanNode, startPlanNodeViaNexus.
  pose proof (λ edges attempt, spread_resolve node edges attempt Hn). along_auto.
Qed.

Lemma spread_budget controls : along (spread S) (applyPlanBudgetGuard env controls).
Proof.
  apply along_applyPlanBudgetGuard; [exact _|intros; by apply spread_call, quiet_persists|apply spread_passive].
Qed.
End spread.

(** ** Parallelism *)

Section parallelism.
Context (env : Env) `{!Sha256, !GoQuote, !SliceSort, !ErrorText, !Boxing, !MapOrder} (cap : Z).

Lemma capped_along {A} (m : W A) : along (spread ∅) m → along (capped cap) m.
Proof. intros Hm x. apply spread_empty_capped, Hm. Qed.

#[local] Hint Extern 1 (along (capped cap) (perform _ _)) =>
  apply capped_along, along_perform; intros ?; apply spread_call; reflexivity : along.
#[local] Hint Extern 1 (along (capped cap) (modify _)) =>
  apply capped_along, along_modify; intros ?; by apply spread_same : along.

Lemma capped_emit ev : passive (se_Kind ev) = true → along (capped cap) (emit env ev).
Proof. intros Hp. by apply capped_along, spread_passive. Qed.
#[local] Hint Extern 1 (along (capped cap) (emit _ _)) => apply capped_emit; reflexivity : along.

Lemma capped_call c x : persists c = false → capped cap x (logged env c x).
Proof. intros Hc. by apply spread_empty_capped, spread_call. Qed.

Lemma capped_same x y : x_log y = x_log x → x_state y = x_state x → capped cap x y.
Proof. intros Hl Hs. by apply spread_empty_capped, spread_same. Qed.

Lemma capped_budget controls : along (capped cap) (applyPlanBudgetGuard env controls).
Proof.
  apply along_applyPlanBudgetGuard; [exact _|intros; by apply capped_call, quiet_persists|apply capped_emit].
Qed.
#[local] Hint Resolve capped_budget : along.

Lemma startReadyNodes_cons rt node ready capacity progressed :
  startReadyNodes env rt (node :: ready) capacity progressed =
  if (capacity <=? 0)%Z then mret progressed else
  state ← gets x_state;
  if negb (nodeSchedulable state (node_NodeID node)) then
    startReadyNodes env rt ready capacity progressed
  else
    validation ← gets x_validation;
    start_or_fail env rt node (get_list (ep_EdgesByTo (vpo_Plan validation)) (node_NodeID node));;
    validation ← gets x_validation;
    budgetExceeded ← applyPlanBudgetGuard env (vpo_ControlsByNode validation);
    if (budgetExceeded : bool) then mret true else startReadyNodes env rt ready (capacity - 1) true.
Proof. done. Qed.

(** Starting ready nodes within a capacity keeps the cap. *)
Lemma capped_ready rt ready capacity progressed x :
  (Z.of_nat (size (running_set (x_state x))) + Z.max 0 capacity ≤ cap)%Z →
  capped cap x (startReadyNodes env rt ready capacity progressed x).1.
Proof.
  revert capacity progressed x. induction ready as [|node ready IH]; intros capacity progressed x Hx.
  { cbn. reflexivity. }
  rewrite startReadyNodes_cons. destruct (Z.leb_spec capacity 0) as [|Hc]; [cbn; reflexivity|].
  rewrite W_bind_eq. cbn [gets]. destruct (negb _); [by apply IH|].
  rewrite W_bind_eq. cbn [gets]. rewrite W_bind_eq.
  pose proof (spread_start env {[node_NodeID node]} rt node
    (get_list (ep_EdgesByTo (vpo_Plan (x_validation x))) (node_NodeID node))
    (proj2 (elem_of_singleton _ _) eq_refl) x) as Hs.
  destruct (start_or_fail _ _ _ _ x) as [y ry]. cbn [fst] in Hs.
  assert (size ({[node_NodeID node]} ∪ running_set (x_state x)) ≤ S (size (running_set (x_state x)))) as Hsize.
  { rewrite size_union_alt, size_singleton.
    pose proof (subseteq_size (running_set (x_state x) ∖ {[node_NodeID node]}) (running_set (x_state x))
      ltac:(set_solver)). lia. }
  assert (capped cap x y) as Hxy by (eapply spread_capped; [exact Hs|lia]).
  destruct ry as [[]|e|]; [|exact Hxy..]. etrans; [exact Hxy|].
  rewrite W_bind_eq. cbn [gets]. rewrite W_bind_eq.
  pose proof (spread_budget env ∅ (vpo_ControlsByNode (x_validation y)) y) as Hyz.
  destruct (applyPlanBudgetGuard _ _ y) as [z rz]. cbn [fst] in Hyz.
  assert (capped cap y z) as Hcz by (by apply spread_empty_capped).
  destruct rz as [[]|e|]; [exact Hcz| |exact Hcz..]. etrans; [exact Hcz|]. apply IH.
  destruct Hs as [Hs _], Hyz as [Hyz _]. rewrite (left_id_L ∅ (∪)) in Hyz.
  apply subseteq_size in Hs. apply subseteq_size in Hyz. lia.
Qed.

Lemma capped_skipped decision progressed :
  along (spread ∅) (applySkippedPlanNodes env decision progressed).
Proof.
  apply along_applySkippedPlanNodes; [exact _|apply spread_passive].
Qed.

Lemma capped_decision rt decision progressed :
  rt_MaxParallel rt = cap → along (capped cap) (applyPlanSchedulerDecision env rt decision progressed).
Proof.
  intros Hcap x Hx Hcx. revert Hx Hcx. change (capped cap x (applyPlanSchedulerDecision env rt decision progressed x).1).
  unfold applyPlanSchedulerDecision. apply along_bind_from; [exact _| |intros _].
  { case_bool_decide; [cbn; reflexivity|by apply capped_emit]. }
  clear x. apply along_bind; [exact _|apply capped_along, capped_skipped|]. clear progressed.
  intros progressed x Hx Hcx. unfold startReadyPlanNodes. rewrite W_bind_eq. cbn [gets].
  apply capped_ready; [|done|done]. unfold counted in Hcx. rewrite Hcx. lia.
Qed.

Lemma capped_loop fuel rt input enabled n paused :
  rt_MaxParallel rt = cap → along (capped cap) (plan_loop env fuel rt input enabled n paused).
Proof.
  apply along_loop with (known := λ _, True) (admitted := λ _ _, True)
    (good := λ rt, rt_MaxParallel rt = cap).
  - exact _.
  - intros. by apply capped_call, quiet_persists.
  - intros. by apply capped_same.
  - intros. by apply capped_same.
  - intros. by apply capped_same.
  - intros. by apply capped_same.
  - apply capped_emit.
  - intros. apply capped_along, spread_expansion.
  - auto.
  - done.
  - intros. apply capped_along, spread_failure.
  - intros. apply capped_along, spread_retry.
  - intros. by apply capped_call.
  - intros rt' x decision progressed Hrt _. by apply capped_decision.
Qed.

(** The cap of an execution is that of the spec it starts with: until the loop runs the
    spec does not change. *)
Lemma capped_execute compiler fuel input x :
  normalizePlanParallelism (pol_MaxParallelNodes (spec_Policy (x_spec x))) = cap →
  capped cap x (execute_plan env compiler fuel input x).1.
Proof.
  intros Hcap. unfold execute_plan. rewrite W_bind_eq, perform_eq.
  set (enabled := respond _ _ _). set (x1 := logged _ _ x).
  transitivity x1; [by apply capped_call|]. rewrite W_bind_eq.
  set (R y z := capped cap y z ∧ x_spec z = x_spec y).
  assert (PreOrder R) as HR.
  { split; [intros y; by split|]. intros u v w [? E1] [? E2]. split; [by etrans|by rewrite E2, E1]. }
  assert (R x1 (start_plan env compiler enabled input x1).1) as [Hc Hs].
  { apply along_start_plan.
    - exact HR.
    - intros c y Hy. split; [by apply capped_call, quiet_persists|done].
    - intros y lifecycle. split; [by apply capped_same|done].
    - intros ev Hev y. split; [by apply capped_emit|].
      destruct (event_frame env (x_spec y) ev y) as (s & l & Hf).
      change (x_spec (applyPlanStateEvent env (x_spec y) ev y).1 = x_spec y). by rewrite Hf.
    - intros y validation. split; [by apply capped_same|done].
    - intros y controls signals. split; [by apply capped_same|done]. }
  destruct (start_plan _ _ _ _ x1) as [y [[rt paused]|e|]] eqn:Hy; [|exact Hc..].
  apply start_plan_Return in Hy as (Hrt & _). cbn [fst snd] in *.
  etrans; [exact Hc|]. apply capped_loop. rewrite Hrt, Hs. exact Hcap.
Qed.
End parallelism.

(** A restored state runs at most the nodes its snapshot counts. *)
Lemma initial_counted input now s :
  initialPlanWorkflowState input now = Ok s →
  counted s ∧ (Z.of_nat (size (running_set s)) ≤
               if pwi_Continued input then runningNodeCount (pwi_Status input) else 0)%Z.
Proof.
  unfold initialPlanWorkflowState. destruct (pwi_Continued input).
  - unfold NewStateFromStatus. intros Hs. go_inv Hs.
    apply restorePlanNodeStatuses_iff in Hr2 as (_ & Hnd & -> & _). cbn [st_Nodes] in *.
    split; [by apply counted_listed|].
    unfold runningNodeCount. apply inj_le.
    rewrite <-(length_fmap ns_NodeID), <-(size_list_to_set (C := gset string)).
    2: { eapply sublist_NoDup; [exact Hnd|]. apply fmap_sublist, sublist_filter. }
    apply subseteq_size. intros id (n & Hn & Hrun)%elem_of_running_set. cbn in Hn.
    unfold statuses_by_id in Hn. apply elem_of_list_to_map_2, list_elem_of_fmap in Hn as (n' & [= -> ->] & Hin).
    apply elem_of_list_to_set, list_elem_of_fmap. exists n'. split; [done|]. by apply list_elem_of_filter.
  - intros [= <-]. split; [by apply counted_listed|].
    assert (running_set (NewState (pwi_Spec input) now) = ∅) as ->; [|by rewrite size_empty].
    apply set_eq. intros id. split; [|set_solver].
    by intros (n & (node & _ & _ & ->)%NewState_nodes & Hr)%elem_of_running_set.
Qed.

(** C5: the parallelism limit is respected.  Whatever the environment answers, no snapshot a
    workflow execution persists, and not the state it ends in (when its setup
    succeeds), has more running nodes
    than the plan's [MaxParallelNodes] (32 when it is not positive), provided the
    execution is a new one or continues a status within the limit. *)
Theorem parallelism_bounded (env : Env)
    `{!Sha256, !GoQuote, !SliceSort, !ErrorText, !Boxing, !MapOrder}
    (compiler : result ExpressionCompiler) (fuel : nat) (input : planWorkflowInput)
    (x y : Exec) (r : outcome RunPlanStatus) :
  let cap := normalizePlanParallelism (pol_MaxParallelNodes (spec_Policy (pwi_Spec input))) in
  PlanWorkflow env compiler fuel (Some input) x = (y, r) → persisted (x_log x) = [] →
  (pwi_Continued input = true → runningNodeCount (pwi_Status input) ≤ cap)%Z →
  Forall (λ p, runningNodeCount (psi_Status p) ≤ cap)%Z (persisted (x_log y)) ∧
  (x_state y = x_state x ∨ (runningNodeCount (Status (x_state y)) ≤ cap)%Z).
Proof.
  intros cap. unfold PlanWorkflow. rewrite W_bind_eq. intros Hw Hx Hcont.
  destruct (newPlanWorkflowSetup env (Some input) x) as [z rz] eqn:Hz.
  apply newPlanWorkflowSetup_cases in Hz as [Hp [(Hst & e & ->)|(now & -> & Hi & Hspec & _)]].
  { injection Hw as <- <-. rewrite Hp, Hx. split; [constructor|by left]. }
  apply initial_counted in Hi as [Hc Hsize].
  pose proof (capped_execute env cap compiler fuel input z) as Hy. rewrite Hspec, Hw in Hy.
  destruct (Hy eq_refl) as (Hr & Hc' & ps & Hl & Hps); [|done|].
  - assert (0 < cap)%Z by (unfold cap, normalizePlanParallelism, defaultPlanParallelism;
      destruct (Z.leb_spec (pol_MaxParallelNodes (spec_Policy (pwi_Spec input))) 0); lia).
    destruct (pwi_Continued input); [specialize (Hcont eq_refl)|]; lia.
  - cbn [fst] in *. rewrite Hl, Hp, Hx. split; [exact Hps|right]. by rewrite Hc'.
Qed.

Lemma parallelism_bounded_witness :
  Forall (λ p, runningNodeCount (psi_Status p) ≤ 32)%Z
    (persisted (x_log (execute base Sample.spec 40).1)).
Proof.
  refine (proj1 (@parallelism_bounded (scenario_env base) sha quoting merge_slice_sort texts boxes
    order (Ok Sample.compiler) 40 (WorkflowSample.input Sample.spec) zero_Exec _
    (execute base Sample.spec 40).2 _ _ _)).
  - exact (surjective_pairing (execute base Sample.spec 40)).
  - reflexivity.
  - discriminate.
Defined.
