(* ===== verification/WorkflowAttempts.v ===== *)
(** * Attempts of the plan workflow

    How often a node is started over a whole execution.  The environment hands out
    plans (from the validation and the expansion activity) whose nodes allow at most
    [limit id] attempts; the workflow then never counts more attempts of a node, and
    never starts a run of it more often, whatever else the environment answers. *)

From S2P Require Import Prelude Types Graph Scope Contracts Validator State Scheduler Json Policy.
From S2P Require Import Events Temporal Workflow WorkflowSample WorkflowLogic WorkflowSpec.

(** The number of times a run of the node was started. *)
Definition launches (id : string) (log : list exchange) : nat :=
  length (filter (λ e, launch_of (ex_call e) = Some id) log).

Lemma launches_snoc id log c a :
  launches id (log ++ [Exchange c a]) =
  (launches id log + if bool_decide (launch_of c = Some id) then 1 else 0)%nat.
Proof.
  unfold launches. rewrite filter_app, length_app, filter_cons. cbn [ex_call].
  case_bool_decide as Hc; [rewrite decide_True by done|rewrite decide_False by done]; done.
Qed.

Lemma launches_logged env id c x :
  launch_of c = None → launches id (x_log (logged env c x)) = launches id (x_log x).
Proof. intros Hc. unfold logged. cbn [x_log]. rewrite launches_snoc, Hc, bool_decide_eq_false_2 by done. lia. Qed.

Lemma newPlanWorkflowSetup_quiet env input x y r :
  newPlanWorkflowSetup env (Some input) x = (y, r) → ∀ id, launches id (x_log y) = launches id (x_log x).
Proof.
  intros Hz id. set (R y z := launches id (x_log z) = launches id (x_log y)).
  assert (PreOrder R) by (unfold R; split; [done|]; intros ? ? ? E1 E2; by rewrite E2).
  cut (along R (newPlanWorkflowSetup env (Some input))); [intros Hr; specialize (Hr x); by rewrite Hz in Hr|].
  unfold newPlanWorkflowSetup. along_auto; [|by apply along_modify].
  apply along_perform. intros z. by apply launches_logged.
Qed.

(** The plan's nodes are filed under their ids and allow at most [limit] attempts. *)
Definition admitted (limit : string → Z) (id : string) (node : PlanNodeSpec) : Prop :=
  node_NodeID node = id ∧ (maxNodeAttempts (node_Policy node) ≤ limit id)%Z.

Definition limited (limit : string → Z) (plan : ExecutablePlan) : Prop :=
  map_Forall (admitted limit) (ep_NodeByID plan).

(** A node a decision starts is one of the plan, or the zero node for an id the plan
    does not have. *)
Lemma Decide_ready_origin `{!SliceSort} s plan status vars d node :
  Decide s plan status vars = Ok d → node ∈ sd_Ready d →
  node = zero_PlanNodeSpec ∨ ∃ id, ep_NodeByID plan !! id = Some node.
Proof.
  intros (d0 & Hf & ->)%Decide_Ok. cbn. rewrite elem_of_sort_slice.
  set (P (d : SchedulerDecision) := ∀ node, node ∈ sd_Ready d →
    node = zero_PlanNodeSpec ∨ ∃ id, ep_NodeByID plan !! id = Some node).
  enough (P d0) as HP by auto. revert Hf.
  assert (P {| sd_Ready := []; sd_Skipped := []; sd_ConditionTraces := [] |}) as H0 by (intros ? Hin; by apply not_elem_of_nil in Hin).
  revert H0. generalize {| sd_Ready := []; sd_Skipped := []; sd_ConditionTraces := [] |}.
  induction (ep_Order plan) as [|id l IH]; intros d Hd; cbn; [by intros [= <-]|].
  rewrite bind_Ok. intros (d1 & H1 & Hf). apply (IH d1); [|done]. clear IH Hf.
  unfold decide_node in H1. destruct (_ && _); [by injection H1 as <-|].
  rewrite bind_Ok in H1. destruct H1 as ([ok traces] & _ & H1).
  destruct (negb ok); [by injection H1 as <-|].
  rewrite bind_Ok in H1. destruct H1 as (de & _ & [= <-]). intros n. cbn.
  destruct (de_Ready de); [|apply Hd]. rewrite elem_of_app, list_elem_of_singleton.
  intros [Hn|Hn]; [by apply Hd|]. destruct (ep_NodeByID plan !! id) eqn:Hl; cbn in Hn; subst; eauto.
Qed.

Section attempts.
Context (env : Env) `{!Sha256, !GoQuote, !SliceSort, !ErrorText, !Boxing, !MapOrder}.
Context (limit : string → Z).
Hypothesis limit_range : ∀ id, (1 ≤ limit id < max_int32)%Z.
Hypothesis validated_limited : ∀ past input out,
  respond env past (ValidatePlan input) = Ok out → limited limit (vpo_Plan out).
Hypothesis expanded_limited : ∀ past input out,
  respond env past (EvaluatePlanExpansion input) = Ok out → limited limit (epo_Plan out).

(** ** The invariant *)

Definition schedulable (n : PlanNodeStatus) : Prop :=
  ns_LifecycleState n ∈ [PlanNodePending; PlanNodeReady].

(** [launched] runs of the node were started. *)
Record node_ok (launched : nat) (id : string) (n : PlanNodeStatus) : Prop := {
  nok_id : ns_NodeID n = id;
  nok_launched : (Z.of_nat launched ≤ ns_Attempts n)%Z;
  nok_limit : (ns_Attempts n ≤ limit id)%Z;
  nok_spare : schedulable n → (ns_Attempts n < limit id)%Z;
}.

Record ok (x : Exec) : Prop := {
  ok_nodes : ∀ id n, nodes (x_state x) !! id = Some n → node_ok (launches id (x_log x)) id n;
  ok_absent : ∀ id, nodes (x_state x) !! id = None → launches id (x_log x) = 0;
  ok_plan : limited limit (vpo_Plan (x_validation x));
  ok_persisted : ∀ p n, p ∈ persisted (x_log x) → n ∈ st_Nodes (psi_Status p) →
    (ns_Attempts n ≤ limit (ns_NodeID n))%Z;
}.

Definition keeps (x y : Exec) : Prop := ok x → ok y.

#[local] Instance keeps_preorder : PreOrder keeps.
Proof. unfold keeps. split; [by intros x|intros x y z; auto]. Qed.

Lemma keeps_same x y :
  x_state y = x_state x → x_log y = x_log x → x_validation y = x_validation x → keeps x y.
Proof. intros Hs Hl Hv [Hn Ha Hp Hps]. split; by rewrite ?Hs, ?Hl, ?Hv. Qed.

Lemma keeps_logged c x : launch_of c = None → persists c = false → keeps x (logged env c x).
Proof.
  intros Hc Hw [Hn Ha Hp Hps]. split; cbn [logged x_state x_validation]; try done.
  - intros id n Hl. rewrite launches_logged by done. auto.
  - intros id Hl. rewrite launches_logged by done. auto.
  - by rewrite (persisted_logged env c x).
Qed.

Lemma keeps_call c x : quiet c = true → keeps x (logged env c x).
Proof. intros Hc. by apply keeps_logged; [apply quiet_launch|apply quiet_persists]. Qed.

(** ** Events *)

Lemma event_launches id spec ev x :
  launches id (x_log (applyPlanStateEvent env spec ev x).1) = launches id (x_log x).
Proof.
  set (R y z := launches id (x_log z) = launches id (x_log y)).
  assert (PreOrder R) by (unfold R; split; [done|]; intros ? ? ? E1 E2; by rewrite E2).
  cut (along R (applyPlanStateEvent env spec ev)); [intros Hr; apply Hr|].
  assert (∀ c, launch_of c = None → along R (perform env c)) as Hp
    by (intros c Hc; apply along_perform; intros y; by apply launches_logged).
  unfold applyPlanStateEvent. along_auto; first [by apply Hp|by apply along_modify].
Qed.

(** The event keeps the attempts of its node within bounds. *)
Definition mild (ev : StateEvent) (x : Exec) : Prop := ∀ at_ at' previous n n',
  nodes (x_state x) !! se_NodeID ev = Some n →
  node_ok (launches (se_NodeID ev) (x_log x)) (se_NodeID ev) n →
  node_step at_ (stamp ev at' previous) n n' →
  node_ok (launches (se_NodeID ev) (x_log x)) (se_NodeID ev) n'.

Lemma ok_event spec ev x y r :
  applyPlanStateEvent env spec ev x = (y, r) → mild ev x → ok x → ok y.
Proof.
  intros He Hmild [Hn Ha Hp Hps].
  assert (∀ id, launches id (x_log y) = launches id (x_log x)) as Hlaunch
    by (intros id; by rewrite <-(event_launches id spec ev x), He).
  destruct (event_frame env spec ev x) as (s & l & Hf). rewrite He in Hf. cbn in Hf.
  assert (x_validation y = x_validation x) as Hv by (by rewrite Hf). clear s l Hf.
  assert (∃ now at_ previous r', Apply now (x_state x) (stamp ev at_ previous) = (x_state y, r') ∧
    (persisted (x_log y) = persisted (x_log x) ∨ r' = Ok tt ∧ ∃ event key,
     persisted (x_log y) = persisted (x_log x) ++
       [{| psi_Spec := spec; psi_Status := Status (x_state y); psi_Event := event;
           psi_IdempotencyKey := key |}])) as (now & at_ & previous & r' & HA & Hpersist).
  { apply applyPlanStateEvent_result in He as []; eexists _, _, _, _; (split; [done|eauto 6]). }
  assert (∀ id n, nodes (x_state y) !! id = Some n → node_ok (launches id (x_log x)) id n) as Hy.
  { intros id n' Hl. destruct (Apply_origin _ _ _ _ _ _ _ HA Hl) as
      [?|[(n & Hl' & -> & Hstep)|(Hnone & _ & node & at2 & -> & ->)]]; [auto| |].
    - eapply Hmild; [exact Hl'|by apply Hn|exact Hstep].
    - rewrite (Ha _ Hnone). split; cbn; try done; try lia; intros; pose proof (limit_range (node_NodeID node)); lia. }
  split.
  - intros id n Hl. rewrite Hlaunch. auto.
  - intros id Hl. rewrite Hlaunch. apply Ha. apply not_elem_of_dom. apply not_elem_of_dom in Hl.
    intros Hd. apply Hl. eapply Apply_dom; [exact HA|done].
  - by rewrite Hv.
  - destruct Hpersist as [->|(-> & event & key & ->)]; [done|].
    intros p n. rewrite elem_of_app, list_elem_of_singleton. intros [Hp'| ->] Hin; [by eapply Hps|].
    cbn [psi_Status] in Hin. apply Apply_Ok in HA as (s1 & _ & Hs). rewrite Hs in Hin, Hy. cbn in Hin, Hy.
    apply elem_of_sortedNodeStatuses in Hin as [id Hl]. destruct (Hy _ _ Hl) as [Hid _ Hlim _]. by rewrite Hid.
Qed.

Lemma keeps_event spec ev x : mild ev x → keeps x (applyPlanStateEvent env spec ev x).1.
Proof.
  intros Hm Hx. destruct (applyPlanStateEvent env spec ev x) as [y r] eqn:He. by eapply ok_event.
Qed.

Lemma keeps_emit ev x : mild ev x → keeps x (emit env ev x).1.
Proof. intros Hm. by apply keeps_event. Qed.

(** A passive event leaves the attempts alone and schedules nothing. *)
Lemma passive_attempts at_ ev n n' :
  passive (se_Kind ev) = true → node_step at_ ev n n' →
  ns_Attempts n' = ns_Attempts n ∧ ns_NodeID n' = ns_NodeID n ∧ (schedulable n' → schedulable n).
Proof.
  intros Hp Hstep. destruct (node_step_identity _ _ _ _ Hstep) as [Hid _]. revert Hid.
  destruct Hstep as [lc Hlc|Hk|Hk|Hk|Hk Hd]; intros Hid; try done.
  2: { by rewrite Hk in Hp. }
  unfold schedulable. rewrite transitioned_lifecycle.
  apply transition_cases in Hlc as
    [[Hk ->]|[[Hk ->]|[[Hk ->]|[[Hk ->]|[[Hk ->]|[Hk ->]]]]]];
    rewrite Hk in Hp; try done; (split_and!; [done|done|]);
    rewrite !elem_of_cons, elem_of_nil; intros [|[|]]; done.
Qed.

Lemma mild_passive ev x : passive (se_Kind ev) = true → mild ev x.
Proof.
  intros Hp at_ at' previous n n' _ [Hid Hl Hlim Hs] Hstep.
  destruct (passive_attempts _ (stamp ev at' previous) _ _ Hp Hstep) as (Ha & Hid' & Hs').
  split; rewrite ?Ha, ?Hid'; auto.
Qed.

Lemma keeps_passive ev : passive (se_Kind ev) = true → along keeps (emit env ev).
Proof. intros Hp x. by apply keeps_emit, mild_passive. Qed.

(** A retry after the [failed]-th attempt, with an attempt left. *)
Lemma mild_retry ev x failed :
  se_Kind ev = EventNodeRetryScheduled → (1 ≤ failed < limit (se_NodeID ev))%Z →
  se_Attempt ev = int32 (failed + 1) →
  (∀ n, nodes (x_state x) !! se_NodeID ev = Some n →
     failed = if (ns_Attempts n <=? 0)%Z then 1%Z else ns_Attempts n) →
  mild ev x.
Proof.
  intros Hk Hf Ha Hn at_ at' previous n n' Hl [Hid Hlaunch Hlim Hs] Hstep.
  specialize (Hn _ Hl). pose proof (limit_range (se_NodeID ev)).
  rewrite int32_small in Ha by (unfold max_int32 in *; lia).
  destruct Hstep as [lc Hlc|Hk'|Hk'|Hk'|Hk' Hd]; cbn [stamp se_Kind] in *; rewrite Hk in *; try done.
  assert (ns_Attempts (retried n (stamp ev at' previous) at_) = failed) as Hr.
  { cbn. rewrite Ha. destruct (Z.eqb_spec (ns_Attempts n) 0), (Z.ltb_spec 1 (failed + 1)),
      (Z.leb_spec (ns_Attempts n) 0); cbn; lia. }
  split; rewrite ?Hr; [done| |lia|lia].
  destruct (Z.leb_spec (ns_Attempts n) 0); lia.
Qed.

Lemma keeps_failure id node runID reason :
  admitted limit id node → along keeps (applyNodeAttemptFailure env node runID reason).
Proof.
  intros [<- Hmax] x. unfold applyNodeAttemptFailure. rewrite W_bind_eq. cbn [gets].
  destruct (NodeStatus _ _) as [current|] eqn:Hc; [|cbn; reflexivity].
  set (failed := if (ns_Attempts current <=? 0)%Z then 1%Z else ns_Attempts current).
  destruct (Z.ltb_spec failed (maxNodeAttempts (node_Policy node))); [|by apply keeps_passive].
  apply keeps_emit. apply mild_retry with failed; cbn [se_Kind se_NodeID se_Attempt zero_StateEvent]; try done.
  - split; [|lia]. unfold failed. destruct (Z.leb_spec (ns_Attempts current) 0); lia.
  - intros n Hn. unfold NodeStatus in Hc. by simplify_eq.
Qed.

Lemma emit_plan_nodes ev lc x :
  reducerPlanLifecycleForEvent (se_Kind ev) = Some lc → se_Kind ev ≠ EventPlanExpanded →
  nodes (x_state (emit env ev x).1) = nodes (x_state x).
Proof.
  intros Hlc Hk. destruct (emit env ev x) as [y r] eqn:He. apply applyPlanStateEvent_result in He.
  assert (∃ now a p r, Apply now (x_state x) (stamp ev a p) = (x_state y, r)) as (now & a & p & r' & Ha)
    by (destruct He; eauto).
  unfold Apply in Ha. cbn [stamp se_Kind] in Ha. rewrite bool_decide_eq_false_2 in Ha by done.
  rewrite Hlc in Ha. injection Ha as Hs _. cbn. by rewrite <-Hs.
Qed.

Lemma keeps_retry nodes signal :
  map_Forall (admitted limit) nodes → along keeps (applyManualNodeRetry env nodes signal).
Proof.
  intros Hnodes x. unfold applyManualNodeRetry. rewrite W_bind_eq. cbn [gets].
  destruct (manualRetryAlreadyScheduled _ _); [cbn; reflexivity|]. rewrite W_bind_eq.
  destruct (manualNodeRetry _ _ _) as [retry|e] eqn:Hm; [|cbn; reflexivity]. cbn [lift mret W_ret].
  unfold manualNodeRetry in Hm. rewrite bind_Ok in Hm. destruct Hm as (nodeID & _ & Hm).
  destruct (nodes !! nodeID) as [nodeSpec|] eqn:Hspec; [|done].
  destruct (NodeStatus (x_state x) nodeID) as [current|] eqn:Hcur; [|done].
  rewrite bind_Ok in Hm. destruct Hm as ([] & Hv & [= <-]).
  unfold validateManualRetryAttempt in Hv. go_inv Hv.
  destruct (Hnodes _ _ Hspec) as [Hid Hmax].
  cbn [mrr_node mrr_current mrr_reason mrr_nextAttempt].
  set (approve := if bool_decide _ then emit env _ else mret tt).
  assert (keeps x (approve x).1 ∧ State.nodes (x_state (approve x).1) = State.nodes (x_state x)) as [Hk Hn].
  { unfold approve. case_bool_decide; [|cbn; done].
    split; [by apply keeps_passive|by apply emit_plan_nodes with PlanLifecycleRunning]. }
  rewrite W_bind_eq. destruct (approve x) as [y [[]|e|]]; [|exact Hk..].
  cbn [fst] in Hk, Hn. intros Hx. specialize (Hk Hx). revert Hk. apply keeps_emit.
  unfold NodeStatus in Hcur. destruct (ok_nodes _ Hx _ _ Hcur) as [_ _ Hlim _].
  unfold nextManualRetryAttempt in *.
  set (failed := if (ns_Attempts current <=? 0)%Z then 1%Z else ns_Attempts current) in *.
  assert (1 ≤ failed ≤ limit nodeID)%Z as Hfailed.
  { pose proof (limit_range nodeID). unfold failed. destruct (Z.leb_spec (ns_Attempts current) 0); lia. }
  apply mild_retry with failed; cbn [se_Kind se_NodeID se_Attempt zero_StateEvent]; rewrite ?Hid; try done.
  - split; [lia|]. pose proof (limit_range nodeID).
    rewrite int32_small in *; unfold max_int32 in *; lia.
  - intros n Hl. rewrite Hn, Hcur in Hl. by injection Hl as <-.
Qed.

Lemma keeps_expansion node status artifacts :
  along keeps (applyPlanExpansion env node status artifacts).
Proof.
  intros x. unfold applyPlanExpansion. destruct (negb _); [cbn; reflexivity|].
  do 3 (rewrite W_bind_eq; cbn [gets]). rewrite W_bind_eq, perform_eq.
  set (c := EvaluatePlanExpansion _). etrans; [by apply (keeps_call c)|].
  rewrite W_bind_eq. destruct (respond env (x_log x) c) as [expanded|e] eqn:Hr;
    cbn [lift mret W_ret throw]; [|reflexivity].
  destruct (negb _); [cbn; reflexivity|]. apply along_bind_from; [exact _| |].
  - apply keeps_event. intros at_ at' previous n n' _ _ Hstep.
    destruct Hstep as [lc Hlc|Hk|Hk|Hk|Hk Hd]; done.
  - intros _ y [Hn Ha Hp Hps]. split; cbn; try done. by eapply expanded_limited.
Qed.

(** ** Starting a node *)

(** [m], run where [P] holds, keeps the invariant and returns only with [Q]. *)
Definition triple {A} (P : Exec → Prop) (m : W A) (Q : A → Exec → Prop) : Prop :=
  ∀ x, ok x → P x → ok (m x).1 ∧ ∀ y a, m x = (y, Return a) → Q a y.

Lemma triple_bind {A B} P (m : W A) Q (f : A → W B) Q' :
  triple P m Q → (∀ a, triple (Q a) (f a) Q') → triple P (m ≫= f) Q'.
Proof.
  intros Hm Hf x Hx HP. destruct (Hm x Hx HP) as [Hy Hq]. rewrite W_bind_eq.
  destruct (m x) as [y [a|e|]]; cbn [fst] in *; [|split; [done|intros; discriminate]..].
  by apply Hf; [|apply Hq].
Qed.

Lemma triple_keeps {A} P (m : W A) : along keeps m → triple P m (λ _ _, True).
Proof. intros Hm x Hx _. split; [by apply Hm|done]. Qed.

Lemma triple_gets {A} P (f : Exec → A) : triple P (gets f) (λ a x, P x ∧ a = f x).
Proof. intros x Hx HP. split; [done|]. by intros y a [= <- <-]. Qed.

Lemma triple_pure {A B} P (r : result A) (f : A → W B) Q :
  (∀ a, r = Ok a → triple P (f a) Q) → triple P (lift r ≫= f) Q.
Proof.
  intros Hf x Hx HP. destruct r as [a|e]; [by apply Hf|]. split; [done|]. intros y b Hy. discriminate Hy.
Qed.

Lemma triple_call P c :
  quiet c = true → (∀ x, P x → P (logged env c x)) → triple P (perform env c) (λ _, P).
Proof.
  intros Hc HP x Hx HPx. split; [by apply keeps_call|]. intros y a [= <- _]. by apply HP.
Qed.

(** The node [id] is in a state described by [phi], which may depend on the number of
    launches. *)
Definition node_is (id : string) (phi : nat → PlanNodeStatus → Prop) (x : Exec) : Prop :=
  ∃ n, nodes (x_state x) !! id = Some n ∧ phi (launches id (x_log x)) n.

Lemma node_is_logged id phi c x : quiet c = true → node_is id phi x → node_is id phi (logged env c x).
Proof.
  intros Hc (n & Hl & Hp). exists n. split; [done|]. by rewrite launches_logged by (by apply quiet_launch).
Qed.

Lemma emit_Return ev x y a :
  emit env ev x = (y, Return a) →
  launches (se_NodeID ev) (x_log y) = launches (se_NodeID ev) (x_log x) ∧
  ∃ now at_ previous, Apply now (x_state x) (stamp ev at_ previous) = (x_state y, Ok tt).
Proof.
  intros He. split.
  - pose proof (event_launches (se_NodeID ev) (x_spec x) ev x) as Hlaunch.
    change (applyPlanStateEvent env (x_spec x) ev x) with (emit env ev x) in Hlaunch. by rewrite He in Hlaunch.
  - apply applyPlanStateEvent_result in He. inversion He; subst. eauto.
Qed.

(** A transition moves its node from [phi] to [psi]. *)
Lemma triple_transition ev lc phi psi :
  reducerNodeLifecycleForEvent (se_Kind ev) = Some lc →
  (∀ x, node_is (se_NodeID ev) phi x → mild ev x) →
  (∀ at_ at' previous count n, phi count n → psi count (transitioned n lc (stamp ev at' previous) at_)) →
  triple (node_is (se_NodeID ev) phi) (emit env ev) (λ _, node_is (se_NodeID ev) psi).
Proof.
  intros Hlc Hmild Hstep x Hx Hphi. split; [by apply keeps_emit; [apply Hmild|]|].
  intros y a [Hlaunch (now & at_ & previous & Ha)]%emit_Return. destruct Hphi as (n & Hl & Hphi).
  apply (Apply_transition _ _ (stamp ev at_ previous) _ lc n) in Ha; [|exact Hlc|exact Hl].
  eexists. split; [exact Ha|]. rewrite Hlaunch. by apply Hstep.
Qed.

(** A passive event that only touches its node. *)
Lemma triple_touch ev phi :
  touchNodeEvent (se_Kind ev) = true → passive (se_Kind ev) = true →
  (∀ count (n : PlanNodeStatus) t, phi count n → phi count {| n with ns_UpdatedAt := t |}) →
  triple (node_is (se_NodeID ev) phi) (emit env ev) (λ _, node_is (se_NodeID ev) phi).
Proof.
  intros Ht Hp Hphi x Hx (n & Hl & Hn). split; [by apply keeps_passive|].
  intros y a [Hlaunch (now & at_ & previous & Ha)]%emit_Return.
  destruct (Apply_touch _ _ (stamp ev at_ previous) _ n Ha) as (t & [Hy|Hy]); [exact Ht|exact Hl|..];
    (eexists; split; [exact Hy|]); rewrite Hlaunch; [by apply Hphi|done].
Qed.

(** The node as its start proceeds: with an attempt left, ready for attempt
    [attempts + 1], and counted as started with a launch to come. *)
Definition has_attempt (id : string) (launched : nat) (n : PlanNodeStatus) : Prop :=
  (Z.of_nat launched ≤ ns_Attempts n < limit id)%Z.

Definition spare (id : string) : Exec → Prop := node_is id (has_attempt id).
Definition readied (id : string) (attempts : Z) : Exec → Prop :=
  node_is id (λ launched n, has_attempt id launched n ∧ ns_LifecycleState n = PlanNodeReady ∧
                            ns_Attempts n = attempts).
Definition started (id : string) : Exec → Prop :=
  node_is id (λ launched n, (Z.of_nat launched < ns_Attempts n)%Z).

Lemma triple_ready id :
  triple (spare id) (emit env (node_event EventNodeReady id "" "")) (λ _, node_is id (λ launched n,
    has_attempt id launched n ∧ ns_LifecycleState n = PlanNodeReady)).
Proof.
  apply (triple_transition (node_event EventNodeReady id "" "") PlanNodeReady); [done| |done].
  intros x (n & Hl & Hs) at_ at' previous n0 n' Hl0 [Hid Hla Hlim _] Hstep. cbn [node_event se_NodeID] in *.
  rewrite Hl in Hl0. injection Hl0 as <-. destruct Hstep as [lc Hlc|Hk|Hk|Hk|Hk Hd]; try done.
  injection Hlc as <-. split; try done. intros _. apply Hs.
Qed.

(** The start event counts one attempt more than the node had. *)
Lemma started_attempts ev n at_ :
  (0 < se_Attempt ev)%Z → ns_LifecycleState n = PlanNodeReady →
  ns_Attempts (transitioned n PlanNodeRunning ev at_) = se_Attempt ev.
Proof.
  intros Ha Hr. unfold transitioned, stamp_lifecycle.
  rewrite (bool_decide_eq_true_2 (PlanNodeRunning = PlanNodeRunning)) by done. rewrite Hr. cbn.
  destruct (Z.ltb_spec 0 (se_Attempt ev)); [done|lia].
Qed.

Lemma triple_started ev attempts :
  se_Kind ev = EventNodeStarted → se_Attempt ev = (attempts + 1)%Z →
  triple (readied (se_NodeID ev) attempts) (emit env ev) (λ _, started (se_NodeID ev)).
Proof.
  intros Hk Ha. apply (triple_transition ev PlanNodeRunning); [by rewrite Hk| |].
  - intros x (n & Hl & Hspare & Hr & Hn) at_ at' previous n0 n' Hl0 [Hid Hla Hlim _] Hstep.
    rewrite Hl in Hl0. injection Hl0 as <-. unfold has_attempt in Hspare.
    destruct Hstep as [lc Hlc|Hk'|Hk'|Hk'|Hk' Hd]; cbn [stamp se_Kind] in *; rewrite Hk in *; try done.
    assert (lc = PlanNodeRunning) as -> by (by vm_compute in Hlc; injection Hlc).
    assert (ns_Attempts (transitioned n PlanNodeRunning (stamp ev at' previous) at_) = attempts + 1)%Z as Hatt
      by (rewrite started_attempts; [done|cbn; lia|done]).
    split; rewrite ?Hatt; [by rewrite transitioned_id|lia|lia|]. unfold schedulable. rewrite transitioned_lifecycle.
    rewrite !elem_of_cons, elem_of_nil. by intros [|[|]].
  - intros at_ at' previous count n (Hspare & Hr & Hn). unfold has_attempt in Hspare.
    rewrite started_attempts; [cbn; lia|cbn; lia|done].
Qed.

(** A launch uses the attempt counted before it. *)
Lemma ok_launch c x id :
  launch_of c = Some id → persists c = false → started id x → ok x → ok (logged env c x).
Proof.
  intros Hc Hp (n & Hl & Hroom) [Hn Ha Hplan Hps].
  assert (∀ id', launches id' (x_log (logged env c x)) =
    launches id' (x_log x) + if bool_decide (Some id = Some id') then 1 else 0) as Hlog
    by (intros id'; unfold logged; cbn [x_log]; by rewrite launches_snoc, Hc).
  split; cbn [logged x_state x_validation]; try done.
  - intros id' n' Hl'. destruct (Hn _ _ Hl') as [Hid Hla Hlim Hs]. split; try done.
    rewrite Hlog. case_bool_decide as He; [|lia].
    injection He as <-. rewrite Hl in Hl'. injection Hl' as <-. lia.
  - intros id' Hl'. rewrite Hlog, bool_decide_eq_false_2; [by rewrite Ha|].
    intros [= <-]. by rewrite Hl in Hl'.
  - intros p n'. rewrite (persisted_logged env c x) by done. by apply Hps.
Qed.

Lemma triple_resolve node edges attempts :
  admitted limit (node_NodeID node) node →
  triple (readied (node_NodeID node) attempts)
    (resolvePlanNodeAttempt env node edges (attempts + 1))
    (λ r x, match r with
            | None => True
            | Some (node', attemptNode) =>
                node_NodeID node' = node_NodeID node ∧ node_Policy node' = node_Policy node ∧
                node_NodeID attemptNode = node_NodeID node ∧ started (node_NodeID node) x
            end).
Proof.
  intros [_ Hmax]. unfold resolvePlanNodeAttempt. eapply triple_bind; [apply triple_gets|intros spec].
  apply triple_pure. intros node' [Hid Hpol]%nodeForAttempt_id.
  eapply triple_bind; [apply triple_gets|intros state].
  eapply (triple_bind _ _ (λ _, readied (node_NodeID node) attempts)).
  { intros x Hx [[Hr _] _]. apply triple_call; [done| |done|exact Hr].
    intros y. by apply node_is_logged. }
  intros [resolved|e].
  - eapply triple_bind; [|intros []; eapply triple_bind; [|intros []]].
    + rewrite <-Hid. by apply (triple_touch {| zero_StateEvent with
        se_Kind := EventNodeInputResolved; se_NodeID := node_NodeID node';
        se_RunID := run_RunID (node_Run node'); se_InputTrace := rno_Trace resolved |}).
    + by apply (triple_started {| zero_StateEvent with
        se_Kind := EventNodeStarted; se_NodeID := node_NodeID node';
        se_RunID := run_RunID (node_Run node'); se_Attempt := (attempts + 1)%Z |} attempts).
    + rewrite Hid. intros x Hx Hs. split; [done|]. by intros y a [= <- <-].
  - eapply triple_bind; [apply triple_keeps, (keeps_failure (node_NodeID node'))|].
    + split; [done|]. by rewrite Hpol, Hid.
    + intros [] x Hx _. split; [done|]. by intros y a [= <- <-].
Qed.

Lemma keeps_terminal id node status :
  admitted limit id node → along keeps (applyNodeRunTerminal env node status).
Proof.
  apply along_applyNodeRunTerminal; first [exact _|exact keeps_call|exact keeps_passive|
    exact keeps_expansion|exact keeps_failure].
Qed.

(** Launching the node through a Nexus operation. *)
Lemma triple_nexus rt node attemptNode attempt :
  triple (started (node_NodeID node)) (startPlanNodeViaNexus env rt node attemptNode attempt)
    (λ _ _, True).
Proof.
  unfold startPlanNodeViaNexus. eapply triple_bind; [apply triple_gets|intros spec].
  eapply (triple_bind _ _ (λ _, started (node_NodeID node))).
  { intros x Hx [Hs _]. destruct (_ == ""); [destruct (NodeStartIdempotencyKey _ _ _) as [k|e]|];
      (split; [done|]); by intros y a [= <- _]. }
  intros key. apply triple_pure. intros endpoint _.
  eapply triple_bind; [apply triple_gets|intros future]. eapply (triple_bind _ _ (λ _ _, True)).
  - intros x Hx [Hs _]. split; [|done]. rewrite perform_eq. by apply ok_launch with (node_NodeID node).
  - intros _. apply triple_keeps, along_modify. intros x. by apply keeps_same.
Qed.

(** Launching the node through the start activity. *)
Lemma triple_activity node attemptNode attempt :
  admitted limit (node_NodeID node) node → node_NodeID attemptNode = node_NodeID node →
  triple (started (node_NodeID node))
    (spec ← gets x_spec;
     started ← perform env (StartPlanNode {|
       spi_PlanID := spec_PlanID spec; spi_AccountID := spec_AccountID spec;
       spi_ProjectID := spec_ProjectID spec; spi_Node := attemptNode; spi_Attempt := attempt |});
     match started with
     | Err e =>
         applyNodeAttemptFailure env node (run_RunID (node_Run attemptNode))
           ("start attempt " +:+ pretty attempt +:+ " failed: " +:+ Error (Plain e))
     | Ok started =>
         if runTerminal (rs_LifecycleState (spo_Status started))
         then applyNodeRunTerminal env node (spo_Status started)
         else mret tt
     end) (λ _ _, True).
Proof.
  intros Hadm Hid. eapply triple_bind; [apply triple_gets|intros spec].
  eapply (triple_bind _ _ (λ _ _, True)).
  - intros x Hx [Hs _]. split; [|done]. rewrite perform_eq.
    apply ok_launch with (node_NodeID node); cbn; by rewrite ?Hid.
  - intros [out|e]; apply triple_keeps.
    + destruct (runTerminal _); [by apply keeps_terminal with (node_NodeID node)|].
      apply along_ret. exact _.
    + by apply keeps_failure with (node_NodeID node).
Qed.

Lemma triple_start rt node edges :
  admitted limit (node_NodeID node) node →
  triple (spare (node_NodeID node)) (startPlanNode env rt node edges) (λ _ _, True).
Proof.
  intros Hadm. unfold startPlanNode. eapply triple_bind; [apply triple_gets|intros validation].
  eapply (triple_bind _ _ (λ _, spare (node_NodeID node))).
  { destruct (vpo_CapabilitiesByNode validation !! node_NodeID node) as [capability|];
      intros x Hx [Hs _]; [|split; [done|]; by intros y a [= <- _]].
    by apply (triple_touch {| zero_StateEvent with se_Kind := EventCapabilitySelected;
      se_NodeID := node_NodeID node; se_Capability := capability |} (has_attempt (node_NodeID node))). }
  intros []. eapply triple_bind; [apply triple_ready|intros []].
  eapply triple_bind; [apply triple_gets|intros state].
  intros x Hx [(n & Hl & Hspare & Hready) ->].
  assert (nextNodeAttempt (x_state x) (node_NodeID node) = (ns_Attempts n + 1)%Z) as ->.
  { unfold nextNodeAttempt, NodeStatus. rewrite Hl. apply int32_small.
    pose proof (limit_range (node_NodeID node)). unfold has_attempt in Hspare. unfold max_int32 in *. lia. }
  assert (readied (node_NodeID node) (ns_Attempts n) x) as Hx' by (by exists n).
  clear Hl Hspare Hready. revert x Hx Hx'. eapply triple_bind; [by apply triple_resolve|].
  intros [[node' attemptNode]|]; [|by intros x Hx _; split].
  intros x Hx (Hid & Hpol & Hid' & Hs). rewrite <-Hid in Hs. destruct (rt_NexusNodeRuns rt).
  - by apply triple_nexus.
  - apply triple_activity; [|by rewrite Hid, Hid'|done|done].
    split; [done|]. rewrite Hpol, Hid. apply Hadm.
Qed.

Lemma keeps_start rt node edges x :
  admitted limit (node_NodeID node) node →
  nodeSchedulable (x_state x) (node_NodeID node) = true →
  keeps x (start_or_fail env rt node edges x).1.
Proof.
  intros Hadm Hs Hx. revert Hx. unfold start_or_fail. apply along_bind_from; [exact _| |].
  - intros Hx. assert (ok (startPlanNode env rt node edges x).1) as Hy.
    { apply triple_start; [done|done|]. unfold nodeSchedulable in Hs.
      destruct (NodeStatus _ _) as [n|] eqn:Hl; [|done]. apply bool_decide_eq_true in Hs.
      exists n. split; [exact Hl|]. destruct (ok_nodes _ Hx _ _ Hl) as [_ Hla _ Hspare].
      split; [done|]. by apply Hspare. }
    unfold try. by destruct (startPlanNode _ _ _ _ x) as [y [[]|e|]].
  - intros [[]|e]; [apply along_ret; exact _|]. apply along_bind; [exact _| |].
    + by apply along_try, keeps_passive.
    + intros [[]|persistErr]; [apply along_ret; exact _|apply along_throw; exact _].
Qed.

Lemma keeps_budget controls : along keeps (applyPlanBudgetGuard env controls).
Proof. apply along_applyPlanBudgetGuard; [exact _|exact keeps_call|exact keeps_passive]. Qed.

Lemma keeps_ready rt ready capacity progressed :
  Forall (λ node, admitted limit (node_NodeID node) node) ready →
  along keeps (startReadyNodes env rt ready capacity progressed).
Proof.
  intros Hr. revert capacity progressed. induction Hr as [|node ready Hn Hr IH]; intros capacity progressed x.
  { cbn. reflexivity. }
  cbn [startReadyNodes]. destruct (capacity <=? 0)%Z; [cbn; reflexivity|].
  rewrite W_bind_eq. cbn [gets].
  destruct (nodeSchedulable _ _) eqn:Hs; cbn [negb]; [|apply IH].
  rewrite W_bind_eq. cbn [gets]. apply along_bind_from; [exact _|by apply keeps_start|intros []].
  apply along_bind; [exact _|apply along_gets; exact _|intros validation].
  apply along_bind; [exact _|apply keeps_budget|]. intros [|]; [apply along_ret; exact _|apply IH].
Qed.

Lemma keeps_decision rt x decision progressed :
  Decide (rt_Scheduler rt) (vpo_Plan (x_validation x)) (Status (x_state x))
    (Variables (x_spec x) (Status (x_state x))) = Ok decision →
  keeps x (applyPlanSchedulerDecision env rt decision progressed x).1.
Proof.
  intros Hd Hx. pose proof (ok_plan _ Hx) as Hplan.
  cut (along keeps (applyPlanSchedulerDecision env rt decision progressed)); [intros Hk; by apply Hk|].
  unfold applyPlanSchedulerDecision. apply along_bind; [exact _| |intros _].
  { case_bool_decide; [apply along_ret; exact _|by apply keeps_passive]. }
  apply along_bind; [exact _| |intros b].
  { apply along_applySkippedPlanNodes; [exact _|exact keeps_passive]. }
  unfold startReadyPlanNodes. apply along_bind; [exact _|apply along_gets; exact _|intros state].
  apply keeps_ready. apply Forall_forall. intros node Hin.
  destruct (Decide_ready_origin _ _ _ _ _ _ Hd Hin) as [->|[id Hid]].
  - split; [done|]. apply limit_range.
  - destruct (Hplan _ _ Hid) as [<- Hmax]. by split.
Qed.

Lemma keeps_loop fuel rt input enabled n paused :
  along keeps (plan_loop env fuel rt input enabled n paused).
Proof.
  apply along_loop with (known := λ v, limited limit (vpo_Plan v)) (admitted := admitted limit)
    (good := λ _, True); first [exact _|exact keeps_call|exact keeps_passive|exact keeps_expansion|
    exact keeps_failure|exact keeps_retry|done|intros; by apply keeps_same|idtac].
  - intros x y Hxy Hx. apply Hxy; [|done]. apply Hx.
  - intros. by apply keeps_logged.
  - intros rt' x decision b _ Hd. by apply keeps_decision.
Qed.

(** ** Whole executions *)

(** Before the loop the validation result is not read; the invariant holds with any
    admissible one in its place. *)
Definition unplanned (x : Exec) : Exec :=
  {| x with x_validation := {| vpo_Plan := Sample.no_plan; vpo_ControlsByNode := ∅;
                               vpo_CapabilitiesByNode := ∅ |} |}.

Lemma event_unplanned spec ev x :
  applyPlanStateEvent env spec ev (unplanned x) =
  (unplanned (applyPlanStateEvent env spec ev x).1, (applyPlanStateEvent env spec ev x).2).
Proof.
  rewrite !applyPlanStateEvent_eq. cbv zeta. unfold clocked.
  destruct (time_is_zero (se_At ev)), (time_is_zero _); cbn [unplanned logged x_state x_log];
    (destruct (Apply _ _ _) as [s [[]|e]]; cbn [fst snd]; [|reflexivity]);
    destruct (PlanEventFromStateEvent _ _ _); reflexivity.
Qed.

Lemma keeps_unplanned_start compiler enabled input x :
  keeps (unplanned x) (unplanned (start_plan env compiler enabled input x).1).
Proof.
  set (R x y := keeps (unplanned x) (unplanned y)).
  assert (PreOrder R) by (split; [intros y; unfold R; reflexivity|intros u v w ? ?; unfold R; by etrans]).
  cut (along R (start_plan env compiler enabled input)); [intros HR; apply HR|].
  apply along_start_plan; unfold R.
  - exact _.
  - intros c y Hc. by apply (keeps_call c (unplanned y)).
  - intros y lifecycle. by apply keeps_same.
  - intros ev Hev y. change (emit env ev y) with (applyPlanStateEvent env (x_spec y) ev y).
    pose proof (keeps_event (x_spec y) ev (unplanned y) (mild_passive _ _ Hev)) as Hk.
    by rewrite event_unplanned in Hk.
  - intros y validation. by apply keeps_same.
  - intros y controls signals. by apply keeps_same.
Qed.

Lemma ok_execute compiler fuel input x :
  ok (unplanned x) → ok (unplanned (execute_plan env compiler fuel input x).1).
Proof.
  intros Hx. unfold execute_plan. rewrite W_bind_eq, perform_eq.
  set (enabled := respond _ _ _). set (x1 := logged _ _ x).
  assert (ok (unplanned x1)) as Hx1 by (by apply (keeps_call (GetVersion planSearchAttributesVersionMarker) (unplanned x))).
  rewrite W_bind_eq. pose proof (keeps_unplanned_start compiler enabled input x1 Hx1) as Hy.
  destruct (start_plan _ _ _ _ x1) as [y [[rt paused]|e|]] eqn:Hs; [|exact Hy..].
  apply start_plan_validated in Hs as (past & i & Hv). apply validated_limited in Hv. cbn [fst snd] in *.
  assert (ok y) as Hoky by (destruct Hy as [Hn Ha _ Hps]; by split).
  destruct (keeps_loop fuel rt input enabled (pwi_IterationCount input) paused y Hoky) as [Hn Ha Hp Hps].
  by split.
Qed.
End attempts.

(** C6: retries are bounded.  When the plans handed out by the validation and expansion
    activities allow at most [limit id] attempts of node [id] (below the 32-bit range),
    a new workflow execution never records more than [limit id] attempts of a node in
    any snapshot, and starts a run of it (through the start activity or a Nexus
    operation) at most [limit id] times, whatever the environment answers. *)
Theorem attempts_bounded (env : Env)
    `{!Sha256, !GoQuote, !SliceSort, !ErrorText, !Boxing, !MapOrder}
    (compiler : result ExpressionCompiler) (fuel : nat) (input : planWorkflowInput)
    (x y : Exec) (r : outcome RunPlanStatus) (limit : string → Z) :
  (∀ id, 1 ≤ limit id < max_int32)%Z →
  (∀ past i out, respond env past (ValidatePlan i) = Ok out → limited limit (vpo_Plan out)) →
  (∀ past i out, respond env past (EvaluatePlanExpansion i) = Ok out → limited limit (epo_Plan out)) →
  PlanWorkflow env compiler fuel (Some input) x = (y, r) → x_log x = [] →
  pwi_Continued input = false →
  (∀ p n, p ∈ persisted (x_log y) → n ∈ st_Nodes (psi_Status p) →
     ns_Attempts n ≤ limit (ns_NodeID n))%Z ∧
  (∀ id, Z.of_nat (launches id (x_log y)) ≤ limit id)%Z.
Proof.
  intros Hlimit Hval Hexp Hw Hx Hnew. unfold PlanWorkflow in Hw. rewrite W_bind_eq in Hw.
  destruct (newPlanWorkflowSetup env (Some input) x) as [z rz] eqn:Hz.
  pose proof (newPlanWorkflowSetup_quiet _ _ _ _ _ Hz) as Hq.
  apply newPlanWorkflowSetup_cases in Hz as [Hp [(_ & e & ->)|(now & -> & Hi & _)]].
  - injection Hw as <- <-. rewrite Hp, Hx. split; [by intros p n ?%not_elem_of_nil|].
    intros id. rewrite Hq, Hx. specialize (Hlimit id). change (launches id []) with 0. lia.
  - assert (ok limit (unplanned z)) as Hok.
    { unfold initialPlanWorkflowState in Hi. rewrite Hnew in Hi. injection Hi as Hi. split.
      - intros id n. cbn [unplanned x_state x_log]. rewrite <-Hi, Hq, Hx.
        intros (node & _ & -> & ->)%NewState_nodes. specialize (Hlimit (node_NodeID node)).
        split; cbn; try done; lia.
      - intros id _. cbn [unplanned x_log]. by rewrite Hq, Hx.
      - apply map_Forall_empty.
      - cbn [unplanned x_log]. rewrite Hp, Hx. by intros p n ?%not_elem_of_nil. }
    pose proof (ok_execute env limit Hlimit Hval Hexp compiler fuel input z Hok) as [Hn Ha _ Hps].
    rewrite Hw in Hn, Ha, Hps. split; [exact Hps|]. intros id. specialize (Hlimit id).
    destruct (nodes (x_state y) !! id) as [n|] eqn:Hl.
    + destruct (Hn _ _ Hl) as [_ Hla Hlim _]. change (x_log (unplanned (y, r).1)) with (x_log y) in Hla. lia.
    + specialize (Ha _ Hl). change (x_log (unplanned (y, r).1)) with (x_log y) in Ha. lia.
Qed.

(** One node that may be tried twice, with starts that always fail. *)
Definition retried_spec : RunPlanSpec :=
  let s := Sample.spec in
  let n := Sample.node "a" "" in
  let p := node_Policy n in
  {| s with spec_Nodes := [{| n with node_Policy := {| p with npol_MaxAttempts := 2 |} |}];
            spec_Edges := [] |}.

Definition retried_plan : ExecutablePlan :=
  match @Validate Sample.schema_any merge_slice_sort Sample.validator retried_spec with
  | Ok p => p | Err _ => Sample.no_plan end.

Definition failing : scenario :=
  let b := base in {| b with sc_start := λ _, Err (Errorf ErrOther "unavailable") |}.

Definition failing_env : Env := {|
  respond past c := match c return answer c with
    | ValidatePlan _ => Ok {| vpo_Plan := retried_plan; vpo_ControlsByNode := ∅;
                              vpo_CapabilitiesByNode := ∅ |}
    | c => respond (scenario_env failing) past c
    end |}.

Lemma attempts_bounded_witness :
  let run := @PlanWorkflow failing_env sha quoting merge_slice_sort texts boxes order
    (Ok Sample.compiler) 40 (Some (WorkflowSample.input retried_spec)) zero_Exec in
  launches "a" (x_log run.1) = 2 ∧ (∀ id, Z.of_nat (launches id (x_log run.1)) ≤ 2)%Z.
Proof.
  intros run. split; [vm_compute; reflexivity|].
  refine (proj2 (@attempts_bounded failing_env sha quoting merge_slice_sort texts boxes order
    (Ok Sample.compiler) 40 (WorkflowSample.input retried_spec) zero_Exec run.1 run.2 (λ _, 2%Z)
    _ _ _ (surjective_pairing run) eq_refl eq_refl)).
  - intros id. unfold max_int32. lia.
  - intros past i out [= <-]. apply (bool_decide_unpack _). vm_compute. exact I.
  - intros past i out Hout. discriminate Hout.
Defined.
