(* ===== verification/WorkflowResult.v ===== *)
(** * The result of the plan workflow

    A workflow that returns without an error has finished its plan: the status it
    returns is terminal and is the one persisted last, and when it says that the plan
    succeeded every node succeeded or was skipped.

    The status lists all nodes of the reducer, except after an expansion the reducer
    refused half-way; every path on which that happens ends in an error or refreshes the
    status.  [returns] follows the paths that end normally. *)

From S2P Require Import Prelude Types Graph Scope Contracts Validator State Scheduler Json Policy.
From S2P Require Import Events Temporal Workflow WorkflowSample WorkflowLogic WorkflowSpec.

(** ** Normal returns *)

Definition returns {A} (R : relation Exec) (m : W A) : Prop :=
  ∀ x y a, m x = (y, Return a) → R x y.

Section returns.
Context (R : relation Exec) `{!PreOrder R}.

Lemma returns_along {A} (m : W A) : along R m → returns R m.
Proof. intros Hm x y a Hy. specialize (Hm x). by rewrite Hy in Hm. Qed.

Lemma returns_bind {A B} (m : W A) (f : A → W B) :
  returns R m → (∀ a, returns R (f a)) → returns R (m ≫= f).
Proof.
  intros Hm Hf x y b (z & a & Hz & Hy)%W_bind_Return. etrans; [by eapply Hm|by eapply Hf].
Qed.

Lemma returns_throw {A} e : returns R (throw (A := A) e).
Proof. intros x y a Hy. discriminate Hy. Qed.

Lemma returns_foldW {S A} (f : S → A → W S) s l :
  (∀ s a, returns R (f s a)) → returns R (foldW f s l).
Proof.
  intros Hf. revert s. induction l as [|a l IH]; intros s; [apply returns_along, along_ret; exact _|].
  by apply returns_bind.
Qed.

Lemma returns_range_nodes {S} (f : S → PlanNodeStatus → W S) s :
  (∀ s node, returns R (f s node)) → returns R (range_nodes f s).
Proof.
  intros Hf. apply returns_bind; [apply returns_along, along_gets; exact _|]. intros n.
  apply returns_foldW. intros s' i. apply returns_bind; [|auto]. apply returns_along, along_node_at. exact _.
Qed.

(** An error that is only joined with another one is not a normal return. *)
Lemma returns_try {A B} (m : W A) (f : A + werror → W B) :
  returns R m → (∀ a, returns R (f (inl a))) →
  (∀ e x y b, f (inr e) x ≠ (y, Return b)) → returns R (try m ≫= f).
Proof.
  intros Hm Hf He x y b (z & [a|e] & Hz%try_Return & Hy)%W_bind_Return; [|by apply He in Hy].
  etrans; [by eapply Hm|by eapply Hf].
Qed.
End returns.

Lemma fail_joined_fails (env : Env) `{!Sha256} {A} cause ev x y (a : A) :
  fail_joined env cause ev x ≠ (y, Return a).
Proof. unfold fail_joined. intros (z & r & _ & Hy)%W_bind_Return. discriminate Hy. Qed.

(** ** The status lists the nodes *)

Section listed.
Context (env : Env) `{!Sha256, !GoQuote, !SliceSort, !ErrorText, !Boxing, !MapOrder}.

(** The status is refreshed: it lists the nodes and the active runs of the reducer. *)
Definition refreshed (s : State) : Prop :=
  st_Nodes (Status s) = sortedNodeStatuses (nodes s) ∧
  st_ActiveRunIDs (Status s) = active_run_ids (st_Nodes (Status s)).

Definition listed (x : Exec) : Prop := refreshed (x_state x).

Lemma initial_listed input now s : initialPlanWorkflowState input now = Ok s → refreshed s.
Proof.
  unfold initialPlanWorkflowState. destruct (pwi_Continued input).
  - unfold NewStateFromStatus. intros Hs. by go_inv Hs.
  - intros [= <-]. split; [done|]. cbn [Status NewState st_ActiveRunIDs]. symmetry.
    apply active_run_ids_nil. intros n [id (node & _ & _ & ->)%NewState_nodes]%elem_of_sortedNodeStatuses. done.
Qed.

Definition lists (x y : Exec) : Prop := listed x → listed y.

#[global] Instance lists_preorder : PreOrder lists.
Proof. unfold lists. split; [by intros x|intros x y z; auto]. Qed.

Lemma event_lists spec ev x y r :
  applyPlanStateEvent env spec ev x = (y, r) →
  se_Kind ev ≠ EventPlanExpanded ∨ r = Return tt → lists x y.
Proof.
  intros He Hr Hx. apply applyPlanStateEvent_result in He.
  destruct He as [now a p e Ha|now a p e Ha|now a p event key r Ha].
  - destruct Hr as [Hk|]; [|done]. apply Apply_Err in Ha as (_ & _ & _ & Hs & _).
    unfold listed in *. by rewrite (Hs Hk).
  - apply Apply_Ok in Ha as (s1 & _ & Hs). unfold listed. by rewrite Hs.
  - apply Apply_Ok in Ha as (s1 & _ & Hs). unfold listed. by rewrite Hs.
Qed.

Lemma lists_emit ev : se_Kind ev ≠ EventPlanExpanded → along lists (emit env ev).
Proof.
  intros Hk x. destruct (emit env ev x) as [y r] eqn:He. exact (event_lists _ _ _ _ _ He (or_introl Hk)).
Qed.

Lemma lists_passive ev : passive (se_Kind ev) = true → along lists (emit env ev).
Proof. intros Hp. apply lists_emit. intros Hk. by rewrite Hk in Hp. Qed.

Lemma lists_same x y : x_state y = x_state x → lists x y.
Proof. unfold lists, listed. by intros ->. Qed.

#[local] Hint Extern 1 (along lists (perform _ _)) =>
  apply along_perform; intros ?; by apply lists_same : along.
#[local] Hint Extern 1 (along lists (modify _)) =>
  apply along_modify; intros ?; by apply lists_same : along.
#[local] Hint Extern 1 (along lists (emit _ _)) => apply lists_emit; done : along.

#[local] Hint Extern 1 (returns lists (throw _)) => apply returns_throw : along.
#[local] Hint Extern 5 (returns lists _) => apply returns_along; along_auto; fail : along.
#[local] Ltac returns_step :=
  match goal with
  | |- returns _ (_ ≫= _) => apply returns_bind; [exact _| |intros ?]
  | |- returns _ (range_nodes _ _) => apply returns_range_nodes; [exact _|intros ? ?]
  | |- returns _ (match ?m with _ => _ end) => destruct m
  end.
#[local] Ltac returns_auto := repeat first [solve [eauto 3 with along]|returns_step].

Lemma lists_failure node runID reason : along lists (applyNodeAttemptFailure env node runID reason).
Proof. unfold applyNodeAttemptFailure. along_auto. Qed.
#[local] Hint Resolve lists_failure : along.

Lemma lists_expansion node status artifacts :
  returns lists (applyPlanExpansion env node status artifacts).
Proof.
  unfold applyPlanExpansion. returns_auto.
  intros x y [] He. eapply event_lists; [exact He|by right].
Qed.
#[local] Hint Resolve lists_expansion : along.

Lemma lists_terminal node status : returns lists (applyNodeRunTerminal env node status).
Proof. unfold applyNodeRunTerminal, applyRunBudgetUsage. returns_auto. Qed.
#[local] Hint Resolve lists_terminal : along.

Lemma lists_promise node nodeSpec run : returns lists (applyNexusNodePromise env node nodeSpec run).
Proof. unfold applyNexusNodePromise, remove. returns_auto. Qed.
#[local] Hint Resolve lists_promise : along.

Lemma lists_settle rt : returns lists (settleNexusNodePromises env rt).
Proof.
  unfold settleNexusNodePromises, applySettledNexusNodePromises. returns_auto.
  apply returns_along, along_hasRunningPendingPromise; [exact _|]. intros. by apply lists_same.
Qed.

Lemma lists_poll : returns lists (pollRunningPlanNodes env).
Proof.
  unfold pollRunningPlanNodes, pollRunningPlanNode, markRunningPlanNodeSucceeded,
    handleTimedOutPlanNode, cancelTimedOutNode, cancelRun, refreshRunningPlanNode,
    refreshNexusBackedPlanNode. returns_auto.
Qed.

Lemma lists_resolve node edges attempt : along lists (resolvePlanNodeAttempt env node edges attempt).
Proof. unfold resolvePlanNodeAttempt. along_auto. Qed.
#[local] Hint Resolve lists_resolve : along.

Lemma lists_starting rt node edges : returns lists (startPlanNode env rt node edges).
Proof. unfold startPlanNode, startPlanNodeViaNexus. returns_auto. Qed.

Lemma emit_listed ev x y a : emit env ev x = (y, Return a) → listed y.
Proof.
  intros He%applyPlanStateEvent_result. inversion He; subst.
  match goal with Ha : Apply _ _ _ = _ |- _ => apply Apply_Ok in Ha as (s1 & _ & Hs) end.
  unfold listed. by rewrite Hs.
Qed.

(** A start that fails is recorded on the node, which refreshes the status. *)
Lemma lists_start rt node edges : returns lists (start_or_fail env rt node edges).
Proof.
  intros x y [] (z & [[]|e] & Hz%try_Return & Hy)%W_bind_Return.
  - injection Hy as <-. revert Hz. apply lists_starting.
  - apply W_bind_Return in Hy as (z' & [[]|e'] & Hz'%try_Return & Hy); [|discriminate Hy].
    injection Hy as <-. intros _. by eapply emit_listed.
Qed.
#[local] Hint Resolve lists_start : along.

Lemma lists_budget controls : along lists (applyPlanBudgetGuard env controls).
Proof.
  apply along_applyPlanBudgetGuard; [exact _| |exact lists_passive]. intros. by apply lists_same.
Qed.
#[local] Hint Resolve lists_budget : along.

Lemma lists_ready rt ready capacity progressed :
  returns lists (startReadyNodes env rt ready capacity progressed).
Proof.
  revert capacity progressed. induction ready as [|node ready IH]; intros capacity progressed;
    cbn [startReadyNodes]; returns_auto.
Qed.
#[local] Hint Resolve lists_ready : along.

Lemma lists_decision rt decision progressed :
  returns lists (applyPlanSchedulerDecision env rt decision progressed).
Proof.
  unfold applyPlanSchedulerDecision, applySkippedPlanNodes, startReadyPlanNodes. returns_auto.
Qed.
#[local] Hint Resolve lists_settle lists_decision : along.

Lemma lists_call c x : quiet c = true → lists x (logged env c x).
Proof. intros _. by apply lists_same. Qed.

Lemma lists_retry nodes signal : along lists (applyManualNodeRetry env nodes signal).
Proof. unfold applyManualNodeRetry. along_auto. Qed.

Lemma lists_controls fuel paused controls : along lists (drainPlanControl env fuel paused controls).
Proof.
  apply along_drainPlanControl; first [exact _|exact lists_call|exact lists_passive|idtac];
    intros; by apply lists_same.
Qed.

Lemma lists_signals fuel paused progressed nodes controls :
  along lists (drainPlanSignals env fuel paused progressed nodes controls).
Proof.
  apply along_drainPlanSignals with (admitted := λ _ _, True);
    first [exact _|exact lists_call|exact lists_passive|idtac].
  - intros. by apply lists_same.
  - intros. apply lists_retry.
  - done.
Qed.

Lemma lists_guards input n paused : along lists (applyPlanWorkflowPreScheduleGuards env input n paused).
Proof. apply along_guards with (known := λ _, True); first [exact _|exact lists_call|exact lists_passive|auto]. Qed.

Lemma lists_finish input n progressed r : along lists (finishPlanWorkflowIteration env input n progressed r).
Proof. apply along_finish; first [exact _|exact lists_call|exact lists_passive]. Qed.

Lemma lists_terminal_state : along lists (applyTerminalPlanState env).
Proof. apply along_applyTerminalPlanState; first [exact _|exact lists_passive]. Qed.
#[local] Hint Resolve lists_controls lists_signals lists_guards lists_finish lists_terminal_state : along.

Lemma lists_schedule rt progressed : returns lists (schedulePlanWorkflowNodes env rt progressed).
Proof.
  unfold schedulePlanWorkflowNodes. do 3 (apply returns_bind; [exact _|by returns_auto|intros ?]).
  destruct (Decide _ _ _ _); [|intros x y b Hy; by apply fail_joined_fails in Hy].
  apply returns_bind; [exact _|by returns_auto|intros b].
  apply returns_try; [exact _|apply lists_poll| |].
  - intros polled. returns_auto.
  - intros e x y c Hy. by apply fail_joined_fails in Hy.
Qed.

Lemma lists_guard n : along lists (applyPlanIterationGuard env n).
Proof. apply along_applyPlanIterationGuard; first [exact _|exact lists_passive]. Qed.
#[local] Hint Resolve lists_schedule lists_guard : along.

Lemma lists_iteration fuel rt input n paused :
  returns lists (runPlanWorkflowIteration env fuel rt input n paused).
Proof.
  unfold runPlanWorkflowIteration. apply returns_bind; [exact _|by returns_auto|intros []].
  apply returns_bind; [exact _|by returns_auto|intros [settled paced]].
  apply returns_bind; [exact _|by returns_auto|intros validation].
  apply returns_try; [exact _|by returns_auto| |intros e x y c Hy; by apply fail_joined_fails in Hy].
  intros [[|] p]; [by returns_auto|].
  apply returns_try; [exact _|by returns_auto| |intros e x y c Hy; by apply fail_joined_fails in Hy].
  intros [[[|] p'] s]; [by returns_auto|]. returns_auto.
Qed.

(** ** Finished plans *)

Definition finished (x : Exec) : Prop :=
  planTerminal (st_LifecycleState (Status (x_state x))) = true ∧
  (st_LifecycleState (Status (x_state x)) = PlanLifecycleSucceeded →
     ∀ n, n ∈ st_Nodes (Status (x_state x)) → ns_LifecycleState n ∈ [PlanNodeSucceeded; PlanNodeSkipped]) ∧
  psi_Status <$> last (persisted (x_log x)) = Some (Status (x_state x)).

Lemma emit_finishes ev lc x y a :
  emit env ev x = (y, Return a) → reducerPlanLifecycleForEvent (se_Kind ev) = Some lc →
  se_Kind ev ≠ EventPlanExpanded → planTerminal lc = true →
  (lc = PlanLifecycleSucceeded → ∀ n, n ∈ sortedNodeStatuses (nodes (x_state x)) →
     ns_LifecycleState n ∈ [PlanNodeSucceeded; PlanNodeSkipped]) →
  finished y.
Proof.
  intros He Hlc Hk Ht Hn. apply applyPlanStateEvent_result in He.
  inversion He as [| |now at_ previous event key r Ha _ Hl]; subst.
  unfold Apply in Ha. change (se_Kind (stamp ev at_ previous)) with (se_Kind ev) in Ha.
  rewrite bool_decide_eq_false_2, Hlc in Ha by done. injection Ha as Ha. unfold finished.
  rewrite Hl, last_snoc, <-Ha. by split_and!.
Qed.

(** The terminal event of a plan whose nodes are all terminal. *)
Lemma terminal_event_kind statuses :
  (se_Kind (terminal_event statuses) ∈ [EventPlanFailed; EventPlanCanceled]) ∨
  se_Kind (terminal_event statuses) = EventPlanSucceeded ∧
  ∀ n, n ∈ statuses → ns_LifecycleState n ≠ PlanNodeFailed ∧ ns_LifecycleState n ≠ PlanNodeCanceled.
Proof.
  induction statuses as [|n statuses IH]; cbn [terminal_event].
  - right. split; [done|]. by intros n ?%not_elem_of_nil.
  - case_bool_decide; [left; left|]. case_bool_decide; [left; right; left|].
    destruct IH as [IH|[Hk IH]]; [by left|right]. split; [done|]. intros m [->|Hm]%elem_of_cons; auto.
Qed.

Lemma terminal_finishes x y a :
  listed x → planNodesTerminal (Status (x_state x)) = true →
  applyTerminalPlanState env x = (y, Return a) → finished y.
Proof.
  intros Hx Ht. unfold applyTerminalPlanState. intros (z & s & [= <- <-] & Hy)%W_bind_Return.
  unfold planNodesTerminal in Ht. case_bool_decide; [done|].
  destruct (terminal_event_kind (st_Nodes (Status (x_state x)))) as [Hk|[Hk Hall]].
  - rewrite !elem_of_cons, elem_of_nil in Hk.
    destruct Hk as [Hk|[Hk|[]]]; (eapply emit_finishes; [exact Hy|rewrite Hk; reflexivity|by rewrite Hk|done|done]).
  - eapply emit_finishes; [exact Hy|rewrite Hk; reflexivity|by rewrite Hk|done|].
    intros _ n Hn. rewrite <-(proj1 Hx) in Hn. destruct (Hall _ Hn) as [Hf Hc].
    rewrite forallb_forall in Ht. apply list_elem_of_In, Ht in Hn. unfold planNodeTerminal in Hn.
    apply bool_decide_eq_true in Hn. rewrite !elem_of_cons, elem_of_nil in Hn.
    rewrite !elem_of_cons, elem_of_nil. naive_solver.
Qed.

Lemma cancel_and_fail_finishes controls kind key reason lc x y a :
  reducerPlanLifecycleForEvent kind = Some lc → kind ≠ EventPlanExpanded →
  planTerminal lc = true → lc ≠ PlanLifecycleSucceeded →
  cancelActivePlanNodesAndFail env controls kind key reason x = (y, Return a) → finished y.
Proof.
  intros Hlc Hk Ht Hs. unfold cancelActivePlanNodesAndFail. intros (? & ? & _ & Hy)%W_bind_Return.
  apply W_bind_Return in Hy as (? & ? & _ & Hy). by eapply emit_finishes.
Qed.

Lemma budget_finishes controls x y : applyPlanBudgetGuard env controls x = (y, Return true) → finished y.
Proof.
  unfold applyPlanBudgetGuard. intros Hy. do 2 apply W_bind_Return in Hy as (? & ? & _ & Hy).
  destruct (negb _); [done|]. apply W_bind_Return in Hy as (? & ? & _ & Hy).
  apply W_bind_Return in Hy as (? & ? & Hy & [= <-]).
  by eapply (cancel_and_fail_finishes _ EventPlanFailed _ _ PlanLifecycleFailed); [..|exact Hy].
Qed.

Lemma deadline_finishes controls params x y :
  dg_eventKind params ∈ [EventPlanFailed; EventPlanRejected] →
  applyPlanDeadlineGuard env controls params x = (y, Return true) → finished y.
Proof.
  intros Hk. unfold applyPlanDeadlineGuard. intros (? & ? & _ & Hy)%W_bind_Return.
  do 2 apply W_bind_Return in Hy as (? & ? & _ & Hy).
  destruct (negb _); [done|]. apply W_bind_Return in Hy as (? & ? & _ & Hy).
  apply W_bind_Return in Hy as (? & ? & Hy & [= <-]).
  rewrite !elem_of_cons, elem_of_nil in Hk.
  destruct Hk as [Hk|[Hk|[]]]; rewrite Hk in Hy;
    by eapply (cancel_and_fail_finishes _ _ _ _ PlanLifecycleFailed); [..|exact Hy].
Qed.

Lemma controls_finish fuel paused controls x y p :
  drainPlanControl env fuel paused controls x = (y, Return (true, p)) → finished y.
Proof.
  revert paused x. induction fuel as [|fuel IH]; intros paused x; cbn [drainPlanControl]; [done|].
  intros (? & received & _ & Hy)%W_bind_Return. destruct received as [control|]; [|done].
  do 3 apply W_bind_Return in Hy as (? & ? & _ & Hy). case_bool_decide; [by eapply IH|].
  apply W_bind_Return in Hy as (? & [] & _ & Hy). apply W_bind_Return in Hy as (z & result & Hr & Hy).
  destruct (cdr_Canceled result) eqn:Hc; [|by eapply IH]. injection Hy as <- _.
  unfold applyPlanControl in Hr. case_bool_decide.
  - unfold cancelPlanFromControl in Hr. do 2 apply W_bind_Return in Hr as (? & ? & _ & Hr).
    apply W_bind_Return in Hr as (? & [] & He & [= <- _]). by eapply emit_finishes.
  - exfalso. revert Hr. case_bool_decide; [|case_bool_decide].
    + intros (? & [[]|e] & _ & Hr)%W_bind_Return; apply W_bind_Return in Hr as (? & [] & _ & [= _ <-]); done.
    + intros (? & [[]|e] & _ & Hr)%W_bind_Return; apply W_bind_Return in Hr as (? & [] & _ & [= _ <-]); done.
    + intros [= _ <-]. done.
Qed.

Lemma signals_finish fuel paused progressed nodes controls x y p b :
  drainPlanSignals env fuel paused progressed nodes controls x = (y, Return (true, p, b)) → finished y.
Proof.
  revert paused progressed x. induction fuel as [|fuel IH]; intros paused progressed x;
    cbn [drainPlanSignals]; [done|].
  intros (? & received & _ & Hy)%W_bind_Return. destruct received as [signal|]; [|done].
  do 2 apply W_bind_Return in Hy as (? & ? & _ & Hy). case_bool_decide; [by eapply IH|].
  apply W_bind_Return in Hy as (? & [] & _ & Hy). apply W_bind_Return in Hy as (z & result & Hr & Hy).
  destruct (sdr_Rejected result) eqn:Hc; [|by eapply IH]. injection Hy as <- _ _.
  unfold applyPlanSignal in Hr.
  case_bool_decide; [by apply W_bind_Return in Hr as (? & [] & _ & [= _ <-])|].
  case_bool_decide.
  { unfold approvePlanFromSignal in Hr. do 2 apply W_bind_Return in Hr as (? & ? & _ & Hr).
    case_match; [done|]. do 4 apply W_bind_Return in Hr as (? & ? & _ & Hr).
    by apply W_bind_Return in Hr as (? & [] & _ & [= _ <-]). }
  case_bool_decide.
  { unfold rejectPlanFromSignal in Hr. do 9 apply W_bind_Return in Hr as (? & ? & _ & Hr).
    apply W_bind_Return in Hr as (? & [] & He & [= <- _]). by eapply emit_finishes. }
  repeat case_bool_decide; [by injection Hr as _ <-| |by injection Hr as _ <-].
  by apply W_bind_Return in Hr as (? & [] & _ & [= _ <-]).
Qed.

Lemma listed_along {A} (m : W A) x y a : along lists m → m x = (y, Return a) → listed x → listed y.
Proof. intros Hm. exact (returns_along lists m Hm x y a). Qed.

Lemma guards_finish input n paused x y :
  listed x → applyPlanWorkflowPreScheduleGuards env input n paused x = (y, Return (Some true)) → finished y.
Proof.
  intros Hx. unfold applyPlanWorkflowPreScheduleGuards. intros (? & v & [= <- <-] & Hy)%W_bind_Return.
  apply W_bind_Return in Hy as (z & timedOut & Hz & Hy).
  destruct timedOut; [injection Hy as <-; by eapply deadline_finishes; [|exact Hz]; left|].
  assert (listed z) as Hlz.
  { eapply listed_along; [|exact Hz|exact Hx]. apply along_applyPlanDeadlineGuard;
      first [exact _|exact lists_call|exact lists_passive|done]. }
  apply W_bind_Return in Hy as (? & s & [= <- <-] & Hy).
  destruct (planNodesTerminal _) eqn:Ht.
  { apply W_bind_Return in Hy as (? & [] & Hy & [= <-]). by eapply terminal_finishes. }
  destruct (negb paused); [done|].
  apply W_bind_Return in Hy as (? & timedOut & Hz' & Hy).
  destruct timedOut; [injection Hy as <-; by eapply deadline_finishes; [|exact Hz']; right; left|].
  by do 2 apply W_bind_Return in Hy as (? & ? & _ & Hy).
Qed.

Lemma schedule_finishes rt progressed x y b :
  listed x → schedulePlanWorkflowNodes env rt progressed x = (y, Return (b, true)) → finished y.
Proof.
  intros Hx. unfold schedulePlanWorkflowNodes. intros (? & spec & [= <- <-] & Hy)%W_bind_Return.
  do 2 apply W_bind_Return in Hy as (? & ? & [= <- <-] & Hy).
  destruct (Decide _ _ _ _); [|by apply fail_joined_fails in Hy].
  apply W_bind_Return in Hy as (z & pr & Hz & Hy).
  apply W_bind_Return in Hy as (z1 & [polled|e] & Hz1%try_Return & Hy); [|by apply fail_joined_fails in Hy].
  apply W_bind_Return in Hy as (? & v & [= <- <-] & Hy).
  apply W_bind_Return in Hy as (z2 & exceeded & Hz2 & Hy).
  destruct exceeded; [injection Hy as <- _; by eapply budget_finishes|].
  apply W_bind_Return in Hy as (? & s & [= <- <-] & Hy).
  destruct (planNodesTerminal _) eqn:Ht; [|done].
  apply W_bind_Return in Hy as (? & [] & Hy & [= <- _]).
  assert (listed z2) as Hl; [|by eapply terminal_finishes].
  eapply listed_along; [apply lists_budget|exact Hz2|].
  eapply lists_poll; [exact Hz1|]. by eapply lists_decision; [exact Hz|].
Qed.

Lemma iteration_finishes fuel rt input n paused x y result :
  listed x → runPlanWorkflowIteration env fuel rt input n paused x = (y, Return result) →
  ir_Done result = true → finished y.
Proof.
  intros Hx. unfold runPlanWorkflowIteration. intros (z0 & [] & E0 & Hy)%W_bind_Return Hdone.
  apply W_bind_Return in Hy as (z1 & [settled paced] & E1 & Hy).
  assert (listed z1) as Hz1.
  { eapply lists_settle; [exact E1|]. by eapply listed_along; [apply lists_guard|exact E0|]. }
  apply W_bind_Return in Hy as (? & v & [= <- <-] & Hy).
  apply W_bind_Return in Hy as (z2 & [[[|] p]|e] & E2%try_Return & Hy);
    [injection Hy as <- <-; by eapply controls_finish| |by apply fail_joined_fails in Hy].
  apply W_bind_Return in Hy as (z3 & [[[[|] p'] s]|e] & E3%try_Return & Hy);
    [injection Hy as <- <-; by eapply signals_finish| |by apply fail_joined_fails in Hy].
  assert (listed z3) as Hz3.
  { eapply listed_along; [apply lists_signals|exact E3|].
    by eapply listed_along; [apply lists_controls|exact E2|]. }
  apply W_bind_Return in Hy as (z4 & [done|] & E4 & Hy).
  { injection Hy as <- <-. cbn in Hdone. subst done. by eapply guards_finish. }
  apply W_bind_Return in Hy as (z5 & [b d] & E5 & Hy).
  assert (listed z4) as Hz4 by (by eapply listed_along; [apply lists_guards|exact E4|]).
  destruct d; [injection Hy as <- <-; by eapply schedule_finishes|].
  destruct paced; [by injection Hy as _ <-|].
  unfold finishPlanWorkflowIteration in Hy. apply W_bind_Return in Hy as (? & s' & _ & Hy).
  destruct (_ && _); [by apply W_bind_Return in Hy as (? & [] & _ & Hy)|].
  apply W_bind_Return in Hy as (? & [] & _ & Hy). destruct b; [by injection Hy as _ <-|].
  by apply W_bind_Return in Hy as (? & [] & _ & [= _ <-]).
Qed.

(** Synchronising search attributes and draining operations leave the result alone. *)
Definition same_result (x y : Exec) : Prop :=
  x_state y = x_state x ∧ persisted (x_log y) = persisted (x_log x).

#[global] Instance same_result_preorder : PreOrder same_result.
Proof.
  unfold same_result. split; [done|]. intros x y z [E1 E2] [E3 E4]. by rewrite E3, E4.
Qed.

Lemma same_result_call c x : quiet c = true → same_result x (logged env c x).
Proof. intros Hc. split; [done|]. by apply persisted_logged, quiet_persists. Qed.

Lemma same_result_sync enabled runID : along same_result (sync_state env enabled runID).
Proof. apply along_sync_state; [exact _|exact same_result_call|]. by intros. Qed.

Lemma same_result_drain rt : along same_result (drainNexusNodeRuns env rt).
Proof. apply along_drainNexusNodeRuns; [exact _|exact same_result_call|]. by intros. Qed.

Lemma finished_same x y : same_result x y → finished x → finished y.
Proof. unfold finished. by intros [-> ->]. Qed.

Lemma listed_same x y : same_result x y → listed x → listed y.
Proof. unfold listed. by intros [-> _]. Qed.

Lemma loop_finishes fuel rt input enabled n paused x y status :
  listed x → plan_loop env fuel rt input enabled n paused x = (y, Return status) →
  finished y ∧ status = Status (x_state y).
Proof.
  revert n paused x. induction fuel as [|fuel IH]; intros n paused x Hx; cbn [plan_loop]; [done|].
  intros (z & r & Hz & Hy)%W_bind_Return. apply W_bind_Return in Hy as (z' & [] & Hs & Hy).
  pose proof (returns_along _ _ (same_result_sync _ _) _ _ _ Hs) as Hsame.
  destruct r as [result|e]; apply try_Return in Hz.
  2: { apply W_bind_Return in Hy as (? & [] & _ & Hy). discriminate Hy. }
  destruct (ir_Done result) eqn:Hd.
  - apply W_bind_Return in Hy as (w & [] & Hw & Hy). apply W_bind_Return in Hy as (? & s & [= <- <-] & [= <- <-]).
    split; [|done]. pose proof (returns_along _ _ (same_result_drain _) _ _ _ Hw) as Hsame'.
    eapply finished_same; [exact Hsame'|]. eapply finished_same; [exact Hsame|]. by eapply iteration_finishes.
  - eapply IH; [|exact Hy]. eapply listed_same; [exact Hsame|]. by eapply lists_iteration.
Qed.

Lemma lists_start_plan compiler enabled input : along lists (start_plan env compiler enabled input).
Proof.
  apply along_start_plan; first [exact _|exact lists_call|exact lists_passive|intros; by apply lists_same].
Qed.
End listed.

(** C2: a workflow that returns has finished its plan.  Whatever the environment does, when
    [PlanWorkflow] returns without an error, the status it returns has a terminal plan
    lifecycle and is the status it persisted last, and if that lifecycle is succeeded
    then every node of the plan succeeded or was skipped. *)
Theorem returned_status (env : Env)
    `{!Sha256, !GoQuote, !SliceSort, !ErrorText, !Boxing, !MapOrder}
    (compiler : result ExpressionCompiler) (fuel : nat) (input : planWorkflowInput)
    (x y : Exec) (status : RunPlanStatus) :
  PlanWorkflow env compiler fuel (Some input) x = (y, Return status) →
  planTerminal (st_LifecycleState status) = true ∧
  psi_Status <$> last (persisted (x_log y)) = Some status ∧
  (st_LifecycleState status = PlanLifecycleSucceeded → ∀ n, n ∈ st_Nodes status →
     ns_LifecycleState n ∈ [PlanNodeSucceeded; PlanNodeSkipped]).
Proof.
  unfold PlanWorkflow. intros (z & i & Hz & Hy)%W_bind_Return.
  apply newPlanWorkflowSetup_cases in Hz as [_ [(_ & e & [=])|(now & [= ->] & Hi & _)]].
  unfold execute_plan in Hy. apply W_bind_Return in Hy as (z1 & enabled & Hz1 & Hy).
  apply W_bind_Return in Hy as (z2 & [rt paused] & Hz2 & Hy).
  assert (listed z) as Hl by (by apply (initial_listed _ _ _ Hi)).
  eapply loop_finishes in Hy as [(Ht & Hs & Hp) ->]; [by split_and!|].
  eapply (listed_along (start_plan env compiler enabled input)); [apply lists_start_plan|exact Hz2|].
  rewrite perform_eq in Hz1. injection Hz1 as <- _. exact Hl.
Qed.

Lemma returned_status_witness :
  let run := execute base Sample.spec 40 in
  ∃ status, run.2 = Return status ∧ st_LifecycleState status = PlanLifecycleSucceeded ∧
    ∀ n, n ∈ st_Nodes status → ns_LifecycleState n ∈ [PlanNodeSucceeded; PlanNodeSkipped].
Proof.
  intros run.
  assert (match run.2 with
          | Return status => st_LifecycleState status == PlanLifecycleSucceeded
          | _ => false
          end = true) as Hb by (vm_compute; reflexivity).
  destruct run.2 as [status|e|] eqn:Hr; [|discriminate Hb..]. apply bool_decide_eq_true_1 in Hb.
  exists status. split_and!; [reflexivity|exact Hb|].
  apply (@returned_status (scenario_env base) sha quoting merge_slice_sort texts boxes order
    (Ok Sample.compiler) 40 (WorkflowSample.input Sample.spec) zero_Exec run.1 status); [|exact Hb].
  rewrite <-Hr. exact (surjective_pairing run).
Defined.
