(* ===== verification/WorkflowTermination.v ===== *)
(** * Termination of the plan workflow

    The workflow's loop and the loops that drain its channels take fuel.  With a positive
    iteration limit and finitely many messages, [limit + messages + 3] units are enough: the
    workflow ends, with a status or an error. *)

From S2P Require Import Prelude Types Graph Scope Contracts Validator State Scheduler Json Policy.
From S2P Require Import Events Temporal Workflow WorkflowSample WorkflowLogic WorkflowSpec.

(** ** Code that always ends *)

(** [m] ends, with an error only if [P] allows it. *)
Definition ends {A} (P : werror → Prop) (m : W A) : Prop :=
  ∀ x, match (m x).2 with Return _ => True | Fail e => P e | Diverge => False end.

Definition total {A} (m : W A) : Prop := ends (λ _, True) m.

Lemma ends_total {A} P (m : W A) : ends P m → total m.
Proof. intros Hm x. specialize (Hm x). by destruct (m x).2. Qed.

Lemma total_ends {A} (m : W A) x : total m → (m x).2 ≠ Diverge.
Proof. intros Hm. specialize (Hm x). by destruct (m x).2. Qed.

Section ends.
Context (P : werror → Prop).

Lemma ends_throw {A} e : P e → ends P (throw (A := A) e).
Proof. intros He x. exact He. Qed.

Lemma ends_bind {A B} (m : W A) (f : A → W B) : ends P m → (∀ a, ends P (f a)) → ends P (m ≫= f).
Proof.
  intros Hm Hf x. rewrite W_bind_eq. specialize (Hm x). destruct (m x) as [y [a|e|]]; [apply Hf|done|done].
Qed.

Lemma ends_try {A} (m : W A) : ends P m → ends P (try m).
Proof. intros Hm x. specialize (Hm x). unfold try. by destruct (m x) as [y [a|e|]]. Qed.

Lemma ends_foldW {S A} (f : S → A → W S) s l : (∀ s a, ends P (f s a)) → ends P (foldW f s l).
Proof.
  intros Hf. revert s. induction l as [|a l IH]; intros s; [done|]. by apply ends_bind.
Qed.

Lemma ends_forW {A} (f : A → W unit) l : (∀ a, ends P (f a)) → ends P (forW f l).
Proof. intros Hf. apply ends_foldW. auto. Qed.

Lemma ends_range_nodes {S} (f : S → PlanNodeStatus → W S) s :
  P Panic → (∀ s node, ends P (f s node)) → ends P (range_nodes f s).
Proof.
  intros Hp Hf. apply ends_bind; [done|]. intros n. apply ends_foldW. intros s' i.
  apply ends_bind; [|auto]. apply ends_bind; [done|]. intros st. case_match; [done|by apply ends_throw].
Qed.

Lemma ends_lift {A} (r : result A) : (∀ e, P (Plain e)) → ends P (lift r).
Proof. intros Hp. destruct r; [done|]. by apply ends_throw. Qed.
End ends.

Create HintDb ends.
Ltac ends_step :=
  match goal with
  | |- total _ => unfold total
  | |- ends _ (mret _) => done
  | |- ends _ (gets _) => done
  | |- ends _ (throw _) => apply ends_throw; auto
  | |- ends _ (modify _) => done
  | |- ends _ (perform _ _) => done
  | |- ends _ (lift _) => apply ends_lift; auto
  | |- ends _ (_ ≫= _) => apply ends_bind; [|intros ?]
  | |- ends _ (try _) => apply ends_try
  | |- ends _ (forW _ _) => apply ends_forW; intros ?
  | |- ends _ (foldW _ _ _) => apply ends_foldW; intros ? ?
  | |- ends _ (range_nodes _ _) => apply ends_range_nodes; [auto|intros ? ?]
  | |- ends _ (match ?m with _ => _ end) => destruct m
  | |- ends _ (let _ := _ in _) => cbv zeta
  end.
Ltac ends_auto := repeat first [solve [eauto 2 with ends]|ends_step].

Section pieces.
Context (env : Env) `{!Sha256, !GoQuote, !SliceSort, !ErrorText, !Boxing, !MapOrder}.

(** Every error but the request to continue as a new execution is allowed. *)
Context (P : werror → Prop).
Hypothesis P_plain : ∀ e, P (Plain e).
Hypothesis P_join : ∀ cause other, P (Join cause other).
Hypothesis P_panic : P Panic.

Lemma ends_event spec ev : ends P (applyPlanStateEvent env spec ev).
Proof. unfold applyPlanStateEvent, set_state. ends_auto. Qed.
#[local] Hint Resolve ends_event : ends.

Lemma ends_emit ev : ends P (emit env ev).
Proof. unfold emit. ends_auto. Qed.
#[local] Hint Resolve ends_emit : ends.

Lemma ends_failure node runID reason : ends P (applyNodeAttemptFailure env node runID reason).
Proof. unfold applyNodeAttemptFailure. ends_auto. Qed.
#[local] Hint Resolve ends_failure : ends.

Lemma ends_terminal node status : ends P (applyNodeRunTerminal env node status).
Proof. unfold applyNodeRunTerminal, applyRunBudgetUsage, applyPlanExpansion. ends_auto. Qed.
#[local] Hint Resolve ends_terminal : ends.

Lemma ends_start rt node edges : ends P (start_or_fail env rt node edges).
Proof.
  unfold start_or_fail, startPlanNode, resolvePlanNodeAttempt, startPlanNodeViaNexus. ends_auto.
Qed.
#[local] Hint Resolve ends_start : ends.

Lemma ends_pending statuses : ends P (hasRunningPendingPromise env statuses).
Proof.
  induction statuses as [|n statuses IH]; cbn [hasRunningPendingPromise]; unfold promise_ready; ends_auto.
Qed.
#[local] Hint Resolve ends_pending : ends.

Lemma ends_settle rt : ends P (settleNexusNodePromises env rt).
Proof.
  unfold settleNexusNodePromises, applySettledNexusNodePromises, applyNexusNodePromise, remove. ends_auto.
Qed.

Lemma ends_drain rt : ends P (drainNexusNodeRuns env rt).
Proof. unfold drainNexusNodeRuns, drainResolved, cancelRun, remove. ends_auto. Qed.

Lemma ends_poll : ends P (pollRunningPlanNodes env).
Proof.
  unfold pollRunningPlanNodes, pollRunningPlanNode, markRunningPlanNodeSucceeded,
    handleTimedOutPlanNode, cancelTimedOutNode, cancelRun, refreshRunningPlanNode,
    refreshNexusBackedPlanNode, applyNexusNodePromise, remove. ends_auto.
Qed.
#[local] Hint Resolve ends_settle ends_drain ends_poll : ends.

Lemma ends_cancel controls kind key reason : ends P (cancelActivePlanNodesAndFail env controls kind key reason).
Proof. unfold cancelActivePlanNodesAndFail, controlActivePlanNodes, markActivePlanNodesCanceled. ends_auto. Qed.
#[local] Hint Resolve ends_cancel : ends.

Lemma ends_control paused control controls : ends P (applyPlanControl env paused control controls).
Proof.
  unfold applyPlanControl, cancelPlanFromControl, pausePlanFromControl, resumePlanFromControl,
    blockPlanAfterControlFailure, block_plan, controlActivePlanNodes, markActivePlanNodesCanceled. ends_auto.
Qed.

Lemma ends_signal paused nodes controls signal : ends P (applyPlanSignal env paused nodes controls signal).
Proof.
  unfold applyPlanSignal, retryPlanNodeFromSignal, applyManualNodeRetry, approvePlanFromSignal,
    rejectPlanFromSignal, approvalEventForSignal, signalActivePlanNodes, controlActivePlanNodes,
    markActivePlanNodesCanceled. ends_auto.
Qed.

Lemma ends_deadline controls params : ends P (applyPlanDeadlineGuard env controls params).
Proof. unfold applyPlanDeadlineGuard. ends_auto. Qed.
#[local] Hint Resolve ends_deadline : ends.

Lemma ends_terminal_state : ends P (applyTerminalPlanState env).
Proof. unfold applyTerminalPlanState. ends_auto. Qed.
#[local] Hint Resolve ends_terminal_state : ends.

Lemma ends_budget controls : ends P (applyPlanBudgetGuard env controls).
Proof. unfold applyPlanBudgetGuard. ends_auto. Qed.
#[local] Hint Resolve ends_budget : ends.

Lemma ends_ready rt ready capacity progressed : ends P (startReadyNodes env rt ready capacity progressed).
Proof.
  revert capacity progressed. induction ready as [|node ready IH]; intros; cbn [startReadyNodes]; ends_auto.
Qed.
#[local] Hint Resolve ends_ready : ends.

Lemma ends_fail_joined {A} cause ev : ends P (fail_joined env (A := A) cause ev).
Proof. unfold fail_joined. ends_auto. Qed.
#[local] Hint Resolve ends_fail_joined : ends.

Lemma ends_schedule rt progressed : ends P (schedulePlanWorkflowNodes env rt progressed).
Proof.
  unfold schedulePlanWorkflowNodes, failPlanWorkflowIteration, applyPlanSchedulerDecision,
    applySkippedPlanNodes, startReadyPlanNodes. ends_auto.
Qed.

Lemma ends_guard n : ends P (applyPlanIterationGuard env n).
Proof. unfold applyPlanIterationGuard. ends_auto. Qed.

Lemma ends_sync enabled runID : ends P (sync_state env enabled runID).
Proof. unfold sync_state, sync. ends_auto. Qed.
#[local] Hint Resolve ends_sync : ends.

Lemma ends_start_plan compiler enabled input : ends P (start_plan env compiler enabled input).
Proof.
  unfold start_plan, validatePlanAtStart, failPlanAtStart, failPlanWorkflowSetup,
    newPlanWorkflowRuntime. ends_auto.
Qed.

Lemma ends_setup input : ends P (newPlanWorkflowSetup env input).
Proof. unfold newPlanWorkflowSetup. ends_auto. Qed.
Hypothesis P_continue : ∀ next, P (ContinueAsNew next).

Lemma ends_guards input n paused : ends P (applyPlanWorkflowPreScheduleGuards env input n paused).
Proof.
  unfold applyPlanWorkflowPreScheduleGuards, continuePlanWorkflowIfNeeded, sleep. ends_auto.
Qed.

Lemma ends_finish input n progressed r : ends P (finishPlanWorkflowIteration env input n progressed r).
Proof. unfold finishPlanWorkflowIteration, continuePlanWorkflowIfNeeded, sleep. ends_auto. Qed.

End pieces.

(** ** Messages *)

Definition delivered (e : exchange) : bool :=
  match e with
  | Exchange c a =>
      match c return answer c → bool with
      | ReceiveControl => λ a, bool_decide (is_Some a)
      | ReceiveSignal => λ a, bool_decide (is_Some a)
      | _ => λ _, false
      end a
  end.

(** The number of messages received. *)
Definition messages (log : list exchange) : nat :=
  length (filter (λ e, delivered e = true) log).

Lemma messages_app l1 l2 : messages (l1 ++ l2) = messages l1 + messages l2.
Proof. unfold messages. by rewrite filter_app, length_app. Qed.

Section loops.
Context (env : Env) `{!Sha256, !GoQuote, !SliceSort, !ErrorText, !Boxing, !MapOrder}.
Context (limit : Z) (count : nat).

(** At most [count] messages ever arrive. *)
Definition finite_messages : Prop := ∀ past, count ≤ messages past →
  respond env past ReceiveControl = None ∧ respond env past ReceiveSignal = None.

(** Expansions keep the iteration limit. *)
Definition keeps_limit : Prop := ∀ past i out,
  respond env past (EvaluatePlanExpansion i) = Ok out →
  pol_MaxIterations (spec_Policy (epi_Spec i)) = limit →
  pol_MaxIterations (spec_Policy (epo_Spec out)) = limit.

Hypothesis Hfinite : finite_messages.
Hypothesis Hlimit : keeps_limit.

Definition iteration_limit (x : Exec) : Z := pol_MaxIterations (spec_Policy (x_spec x)).

Definition advances (x y : Exec) : Prop :=
  messages (x_log x) ≤ messages (x_log y) ∧
  (iteration_limit x = limit → iteration_limit y = limit).

#[local] Instance advances_preorder : PreOrder advances.
Proof. unfold advances. split; [done|]. intros x y z [] []. split; [lia|auto]. Qed.

Lemma advances_same x y : x_log y = x_log x → x_spec y = x_spec x → advances x y.
Proof. unfold advances, iteration_limit. by intros -> ->. Qed.

Lemma advances_call c x : advances x (logged env c x).
Proof. split; [|done]. cbn [logged x_log]. rewrite messages_app. lia. Qed.

Lemma advances_event spec ev : along advances (applyPlanStateEvent env spec ev).
Proof.
  unfold applyPlanStateEvent. along_auto;
    first [apply along_perform; intros ?; apply advances_call|
           apply along_modify; intros ?; by apply advances_same].
Qed.

Lemma advances_expansion node status artifacts :
  along advances (applyPlanExpansion env node status artifacts).
Proof.
  intros x. unfold applyPlanExpansion. destruct (negb _); [cbn; reflexivity|].
  do 3 (rewrite W_bind_eq; cbn [gets]). rewrite W_bind_eq, perform_eq.
  set (c := EvaluatePlanExpansion _). set (x1 := logged env c x).
  assert (advances x x1) as Hx1 by apply advances_call. rewrite W_bind_eq.
  destruct (respond env (x_log x) c) as [expanded|e] eqn:Hr; cbn [lift mret W_ret throw]; [|exact Hx1].
  destruct (negb _); [exact Hx1|]. rewrite W_bind_eq.
  pose proof (advances_event (epo_Spec expanded) {| zero_StateEvent with
    se_Kind := EventPlanExpanded; se_Expansion := epo_Delta expanded |} x1) as He.
  assert (iteration_limit x = limit → pol_MaxIterations (spec_Policy (epo_Spec expanded)) = limit) as Hl
    by (intros Hx; eapply Hlimit; [exact Hr|exact Hx]).
  destruct (applyPlanStateEvent _ _ _ x1) as [y [[]|e|]]; cbn [fst] in *; [|by etrans..].
  destruct He as [Hm _], Hx1 as [Hm1 _]. split; [exact (Nat.le_trans _ _ _ Hm1 Hm)|exact Hl].
Qed.

Lemma advances_emit ev : along advances (emit env ev).
Proof. apply along_bind; [exact _|apply along_gets; exact _|]. intros spec. apply advances_event. Qed.

Lemma advances_controls paused control controls :
  along advances (applyPlanControl env paused control controls).
Proof.
  apply along_applyPlanControl; [exact _|intros; apply advances_call|intros; apply advances_emit].
Qed.

Lemma advances_signals paused nodes controls signal :
  along advances (applyPlanSignal env paused nodes controls signal).
Proof.
  apply along_applyPlanSignal with (admitted := λ _ _, True); try done;
    [exact _|intros; apply advances_call|intros; apply advances_emit|].
  intros nodes' signal' _. apply along_retry_events; [exact _|apply advances_emit].
Qed.

(** *** Draining *)

Lemma messages_received c a x :
  respond env (x_log x) c = a → delivered (Exchange c a) = true →
  messages (x_log (logged env c x)) = S (messages (x_log x)).
Proof.
  intros <- Hd. cbn [logged x_log]. rewrite messages_app. unfold messages at 2.
  rewrite filter_cons_True by done. cbn. lia.
Qed.

Lemma total_controls fuel paused controls x :
  count - messages (x_log x) < fuel → (drainPlanControl env fuel paused controls x).2 ≠ Diverge.
Proof.
  revert paused x. induction fuel as [|fuel IH]; intros paused x Hf; [lia|]. cbn [drainPlanControl].
  rewrite W_bind_eq, perform_eq. destruct (respond env (x_log x) ReceiveControl) as [control|] eqn:Hr; [|done].
  pose proof (messages_received ReceiveControl _ x Hr) as Hm. specialize (Hm eq_refl).
  assert (messages (x_log x) < count) as Hlt.
  { destruct (decide (count ≤ messages (x_log x))) as [Hc|]; [|lia].
    destruct (Hfinite _ Hc) as [Hnone _]. by rewrite Hr in Hnone. }
  set (x1 := logged env ReceiveControl x) in *. rewrite W_bind_eq.
  destruct (ValidateControlRequest _) as [[]|e]; cbn [lift mret W_ret throw]; [|done].
  rewrite W_bind_eq. destruct (fail_if _ _) as [[]|e]; cbn [lift mret W_ret throw]; [|done].
  rewrite W_bind_eq. cbn [gets]. case_bool_decide; [apply IH; lia|].
  rewrite W_bind_eq. cbn [modify]. set (x2 := {| x1 with x_controls := _ |}).
  rewrite W_bind_eq. assert ((applyPlanControl env paused control controls x2).2 ≠ Diverge) as Ht
    by (by apply total_ends, ends_control).
  pose proof (advances_controls paused control controls x2) as [Ha _].
  destruct (applyPlanControl _ _ _ _ x2) as [y [result|e|]]; [|done|done].
  destruct (cdr_Canceled result); [done|]. apply IH. change (messages (x_log x1) ≤ messages (x_log y)) in Ha. lia.
Qed.

Lemma total_signals fuel paused progressed nodes controls x :
  count - messages (x_log x) < fuel →
  (drainPlanSignals env fuel paused progressed nodes controls x).2 ≠ Diverge.
Proof.
  revert paused progressed x. induction fuel as [|fuel IH]; intros paused progressed x Hf; [lia|].
  cbn [drainPlanSignals].
  rewrite W_bind_eq, perform_eq. destruct (respond env (x_log x) ReceiveSignal) as [signal|] eqn:Hr; [|done].
  pose proof (messages_received ReceiveSignal _ x Hr) as Hm. specialize (Hm eq_refl).
  assert (messages (x_log x) < count) as Hlt.
  { destruct (decide (count ≤ messages (x_log x))) as [Hc|]; [|lia].
    destruct (Hfinite _ Hc) as [_ Hnone]. by rewrite Hr in Hnone. }
  set (x1 := logged env ReceiveSignal x) in *. rewrite W_bind_eq.
  destruct (ValidatePlanSignal _) as [[]|e]; cbn [lift mret W_ret throw]; [|done].
  rewrite W_bind_eq. cbn [gets]. case_bool_decide; [apply IH; lia|].
  rewrite W_bind_eq. cbn [modify]. set (x2 := {| x1 with x_signals := _ |}).
  rewrite W_bind_eq. assert ((applyPlanSignal env paused nodes controls signal x2).2 ≠ Diverge) as Ht
    by (by apply total_ends, ends_signal).
  pose proof (advances_signals paused nodes controls signal x2) as [Ha _].
  destruct (applyPlanSignal _ _ _ _ _ x2) as [y [result|e|]]; [|done|done].
  destruct (sdr_Rejected result); [done|]. apply IH. change (messages (x_log x1) ≤ messages (x_log y)) in Ha. lia.
Qed.

(** *** One iteration *)

Lemma ends_then {A B} (m : W A) (f : A → W B) x :
  (m x).2 ≠ Diverge → (∀ y a, m x = (y, Return a) → (f a y).2 ≠ Diverge) → ((m ≫= f) x).2 ≠ Diverge.
Proof.
  intros Hm Hf. rewrite W_bind_eq. destruct (m x) as [y [a|e|]]; [by apply Hf|done|done].
Qed.

Lemma ends_caught {A B} (m : W A) (f : A + werror → W B) x :
  (m x).2 ≠ Diverge → (∀ y a, m x = (y, Return a) → (f (inl a) y).2 ≠ Diverge) →
  (∀ e y, (f (inr e) y).2 ≠ Diverge) → ((try m ≫= f) x).2 ≠ Diverge.
Proof.
  intros Hm Hf He. rewrite W_bind_eq. unfold try. destruct (m x) as [y [a|e|]]; [by apply Hf|apply He|done].
Qed.

Lemma advanced {A} (m : W A) x y a : along advances m → m x = (y, Return a) →
  messages (x_log x) ≤ messages (x_log y).
Proof. intros Hm Hy. specialize (Hm x). rewrite Hy in Hm. apply Hm. Qed.

Lemma advances_guard n : along advances (applyPlanIterationGuard env n).
Proof. apply along_applyPlanIterationGuard; [exact _|]. intros. apply advances_emit. Qed.

Lemma advances_failure node runID reason :
  along advances (applyNodeAttemptFailure env node runID reason).
Proof. apply along_failure_events; [exact _|apply advances_emit]. Qed.

Lemma advances_settle rt : along advances (settleNexusNodePromises env rt).
Proof.
  apply along_settle with (known := λ _, True) (admitted := λ _ _, True); try done;
    first [exact _|intros; apply advances_call|intros; apply advances_emit|intros; by apply advances_same|
           apply advances_expansion|intros; apply advances_failure|auto].
Qed.

Lemma advances_drain_controls fuel paused controls :
  along advances (drainPlanControl env fuel paused controls).
Proof.
  apply along_drainPlanControl; first [exact _|intros; apply advances_call|intros; apply advances_emit|
    intros; by apply advances_same].
Qed.

Lemma ends_iteration fuel rt input n paused x :
  count < fuel → (runPlanWorkflowIteration env fuel rt input n paused x).2 ≠ Diverge.
Proof.
  intros Hf. unfold runPlanWorkflowIteration.
  apply ends_then; [by apply total_ends, ends_guard|intros y0 [] _].
  apply ends_then; [by apply total_ends, ends_settle|intros y1 [settled paced] _].
  apply ends_then; [done|intros y2 v [= <- <-]].
  apply ends_caught; [apply total_controls; lia| |intros e y; by apply total_ends, ends_fail_joined].
  intros y3 [[|] p] _; [done|].
  apply ends_caught; [apply total_signals; lia| |intros e y; by apply total_ends, ends_fail_joined].
  intros y4 [[[|] p'] s] _; [done|].
  apply ends_then; [by apply total_ends, ends_guards|intros y5 [finished|] _]; [done|].
  apply ends_then; [by apply total_ends, ends_schedule|intros y6 [progressed finished] _].
  destruct finished; [done|]. destruct paced; [done|]. by apply total_ends, ends_finish.
Qed.

(** Beyond the limit an iteration fails. *)
Lemma iteration_limit_fails fuel rt input n paused x :
  iteration_limit x = limit → (0 < limit < n)%Z →
  ∃ y e, runPlanWorkflowIteration env fuel rt input n paused x = (y, Fail e).
Proof.
  intros Hx Hn. unfold runPlanWorkflowIteration. rewrite W_bind_eq.
  unfold applyPlanIterationGuard. rewrite W_bind_eq. cbn [gets].
  unfold iteration_limit in Hx. unfold EvaluateIterationPolicy. rewrite Hx. cbn [its_Iterations].
  rewrite (proj2 (Z.ltb_lt 0 limit)), (proj2 (Z.ltb_lt limit n)) by lia. cbn [andb itd_ShouldFail negb].
  unfold fail_joined. rewrite W_bind_eq.
  set (ev := plan_event EventPlanFailed _).
  assert ((try (emit env ev) x).2 ≠ Diverge) as Ht by (by apply total_ends, ends_try, ends_emit).
  destruct (try _ x) as [y [r|e|]]; [|by eexists _, _..|done]. by eexists _, _.
Qed.

Lemma advances_iteration fuel rt input n paused :
  along advances (runPlanWorkflowIteration env fuel rt input n paused).
Proof.
  apply along_iteration with (known := λ _, True) (admitted := λ _ _, True) (good := λ _, True);
    try done; first [exact _|intros; apply advances_call|intros; apply advances_emit|
      intros; by apply advances_same|apply advances_expansion|intros; apply advances_failure|auto].
  - intros nodes signal _. apply along_retry_events; [exact _|apply advances_emit].
  - intros rt' x decision progressed _ _. apply along_decision_events;
      first [exact _|intros; apply advances_call|apply advances_emit|apply advances_expansion|
             intros; by apply advances_same].
Qed.

Lemma advances_sync enabled runID : along advances (sync_state env enabled runID).
Proof.
  apply along_sync_state; [exact _|intros; apply advances_call|intros; by apply advances_same].
Qed.

Lemma ends_loop fuel rt input enabled n paused x :
  iteration_limit x = limit → (0 < limit < max_int32)%Z → (0 ≤ n < max_int32)%Z →
  Z.to_nat (limit - n) + count + 1 < fuel →
  (plan_loop env fuel rt input enabled n paused x).2 ≠ Diverge.
Proof.
  intros Hx Hl. revert n paused x Hx. induction fuel as [|fuel IH]; intros n paused x Hx Hn Hf; [lia|].
  cbn [plan_loop]. rewrite int32_small by (unfold max_int32 in *; lia).
  pose proof (ends_iteration fuel rt input (n + 1) paused x) as Hi.
  pose proof (advances_iteration fuel rt input (n + 1) paused x) as [_ Hlim].
  assert (limit < n + 1 → ∃ y e, runPlanWorkflowIteration env fuel rt input (n + 1) paused x = (y, Fail e))%Z
    as Hfail by (intros; by apply iteration_limit_fails; [|lia]).
  rewrite W_bind_eq. unfold try.
  destruct (runPlanWorkflowIteration _ _ _ _ _ _ x) as [y [result|e|]]; cbn [fst snd] in *.
  - apply ends_then; [by apply total_ends, ends_sync|intros z [] Hz].
    destruct (ir_Done result); [apply ends_then; [by apply total_ends, ends_drain|done]|].
    apply IH.
    + pose proof (advances_sync enabled (spec_PlanID (pwi_Spec input)) y) as [_ Hs]. rewrite Hz in Hs.
      apply Hs. apply Hlim. exact Hx.
    + destruct (decide (limit < n + 1)%Z) as [Hlt|]; [|lia].
      destruct (Hfail Hlt) as (? & ? & [=]).
    + destruct (decide (limit < n + 1)%Z) as [Hlt|]; [|lia].
      destruct (Hfail Hlt) as (? & ? & [=]).
  - apply ends_then; [by apply total_ends, ends_sync|intros z [] _]. apply ends_then; [by apply total_ends, ends_drain|done].
  - exfalso. apply Hi; [lia|done].
Qed.
End loops.

(** ** More fuel changes nothing *)

Section fuel.
Context (env : Env) `{!Sha256, !GoQuote, !SliceSort, !ErrorText, !Boxing, !MapOrder}.

Lemma bind_more {A B} (m m' : W A) (f f' : A → W B) x :
  (((m ≫= f) x).2 ≠ Diverge) → ((m x).2 ≠ Diverge → m' x = m x) →
  (∀ a y, (f a y).2 ≠ Diverge → f' a y = f a y) → (m' ≫= f') x = (m ≫= f) x.
Proof.
  rewrite !W_bind_eq. intros Hd Hm Hf. destruct (m x) as [y [a|e|]]; cbn in *.
  - rewrite Hm by done. by apply Hf.
  - by rewrite Hm.
  - done.
Qed.

Lemma try_more {A} (m m' : W A) x :
  ((m x).2 ≠ Diverge → m' x = m x) → (try m x).2 ≠ Diverge → try m' x = try m x.
Proof.
  unfold try. intros Hm Hd. destruct (m x) as [y [a|e|]]; cbn in *; [by rewrite Hm..|done].
Qed.

Lemma controls_more fuel fuel' paused controls x :
  fuel ≤ fuel' → (drainPlanControl env fuel paused controls x).2 ≠ Diverge →
  drainPlanControl env fuel' paused controls x = drainPlanControl env fuel paused controls x.
Proof.
  intros Hle. revert fuel' Hle paused x. induction fuel as [|fuel IH]; intros fuel' Hle paused x; [done|].
  destruct fuel' as [|fuel']; [lia|]. cbn [drainPlanControl]. intros Hd.
  apply bind_more; [exact Hd|done|]. clear x Hd. intros received x Hd.
  destruct received as [control|]; [|done].
  apply bind_more; [exact Hd|done|]. clear x Hd. intros [] x Hd.
  apply bind_more; [exact Hd|done|]. clear x Hd. intros [] x Hd.
  apply bind_more; [exact Hd|done|]. clear x Hd. intros processed x Hd.
  case_bool_decide; [apply IH; [lia|done]|].
  apply bind_more; [exact Hd|done|]. clear x Hd. intros [] x Hd.
  apply bind_more; [exact Hd|done|]. clear x Hd. intros result x Hd.
  destruct (cdr_Canceled result); [done|]. apply IH; [lia|done].
Qed.

Lemma signals_more fuel fuel' paused progressed nodes controls x :
  fuel ≤ fuel' → (drainPlanSignals env fuel paused progressed nodes controls x).2 ≠ Diverge →
  drainPlanSignals env fuel' paused progressed nodes controls x =
  drainPlanSignals env fuel paused progressed nodes controls x.
Proof.
  intros Hle. revert fuel' Hle paused progressed x.
  induction fuel as [|fuel IH]; intros fuel' Hle paused progressed x; [done|].
  destruct fuel' as [|fuel']; [lia|]. cbn [drainPlanSignals]. intros Hd.
  apply bind_more; [exact Hd|done|]. clear x Hd. intros received x Hd.
  destruct received as [signal|]; [|done].
  apply bind_more; [exact Hd|done|]. clear x Hd. intros [] x Hd.
  apply bind_more; [exact Hd|done|]. clear x Hd. intros processed x Hd.
  case_bool_decide; [apply IH; [lia|done]|].
  apply bind_more; [exact Hd|done|]. clear x Hd. intros [] x Hd.
  apply bind_more; [exact Hd|done|]. clear x Hd. intros result x Hd.
  destruct (sdr_Rejected result); [done|]. apply IH; [lia|done].
Qed.

Lemma iteration_more fuel fuel' rt input n paused x :
  fuel ≤ fuel' → (runPlanWorkflowIteration env fuel rt input n paused x).2 ≠ Diverge →
  runPlanWorkflowIteration env fuel' rt input n paused x =
  runPlanWorkflowIteration env fuel rt input n paused x.
Proof.
  intros Hle. unfold runPlanWorkflowIteration. intros Hd.
  apply bind_more; [exact Hd|done|]. clear x Hd. intros [] x Hd.
  apply bind_more; [exact Hd|done|]. clear x Hd. intros [settled paced] x Hd.
  apply bind_more; [exact Hd|done|]. clear x Hd. intros v x Hd.
  apply bind_more; [exact Hd| |].
  { apply try_more. by apply controls_more. }
  clear x Hd. intros [[[|] p]|e] x Hd; [done| |done].
  apply bind_more; [exact Hd| |done]. apply try_more. by apply signals_more.
Qed.

Lemma loop_more fuel fuel' rt input enabled n paused x :
  fuel ≤ fuel' → (plan_loop env fuel rt input enabled n paused x).2 ≠ Diverge →
  plan_loop env fuel' rt input enabled n paused x = plan_loop env fuel rt input enabled n paused x.
Proof.
  intros Hle. revert fuel' Hle n paused x.
  induction fuel as [|fuel IH]; intros fuel' Hle n paused x; [done|].
  destruct fuel' as [|fuel']; [lia|]. cbn [plan_loop]. intros Hd.
  apply bind_more; [exact Hd| |].
  { apply try_more. apply iteration_more. lia. }
  clear x Hd. intros r x Hd. apply bind_more; [exact Hd|done|]. clear x Hd. intros [] x Hd.
  destruct r as [result|e]; [|done]. destruct (ir_Done result); [done|]. apply IH; [lia|done].
Qed.

Lemma workflow_more compiler fuel fuel' input x :
  fuel ≤ fuel' → (PlanWorkflow env compiler fuel input x).2 ≠ Diverge →
  PlanWorkflow env compiler fuel' input x = PlanWorkflow env compiler fuel input x.
Proof.
  intros Hle. unfold PlanWorkflow, execute_plan. intros Hd.
  apply bind_more; [exact Hd|done|]. clear x Hd. intros i x Hd.
  apply bind_more; [exact Hd|done|]. clear x Hd. intros enabled x Hd.
  apply bind_more; [exact Hd|done|]. clear x Hd. intros started x Hd. by apply loop_more.
Qed.
End fuel.

Lemma start_plan_spec (env : Env) `{!Sha256, !GoQuote, !SliceSort, !ErrorText, !Boxing, !MapOrder}
    compiler enabled input x :
  x_spec (start_plan env compiler enabled input x).1 = x_spec x.
Proof.
  set (R y z := x_spec z = x_spec y).
  assert (PreOrder R) by (unfold R; split; [done|]; intros ? ? ? E1 E2; by rewrite E2).
  cut (along R (start_plan env compiler enabled input)); [intros HR; apply HR|].
  apply along_start_plan; unfold R; try done.
  intros ev _ y. destruct (event_frame env (x_spec y) ev y) as (s & l & Hf).
  change (x_spec (applyPlanStateEvent env (x_spec y) ev y).1 = x_spec y). by rewrite Hf.
Qed.

(** C4: the workflow terminates.  With a positive iteration limit, kept by expansions, and
    at most [count] control and signal messages, an execution ends, with a status or an
    error: [limit + count + 2] units of fuel are enough, and with any larger amount
    the run is the same. *)
Theorem workflow_terminates (env : Env)
    `{!Sha256, !GoQuote, !SliceSort, !ErrorText, !Boxing, !MapOrder}
    (compiler : result ExpressionCompiler) (input : planWorkflowInput) (x : Exec) (count : nat) :
  let limit := pol_MaxIterations (spec_Policy (pwi_Spec input)) in
  (0 < limit < max_int32)%Z → (0 ≤ pwi_IterationCount input < max_int32)%Z →
  finite_messages env count → keeps_limit env limit →
  ∃ y r, r ≠ Diverge ∧ ∀ fuel, Z.to_nat limit + count + 2 ≤ fuel →
    PlanWorkflow env compiler fuel (Some input) x = (y, r).
Proof.
  intros limit Hl Hn Hfin Hkeep. set (fuel0 := Z.to_nat limit + count + 2).
  assert ((PlanWorkflow env compiler fuel0 (Some input) x).2 ≠ Diverge) as Hd.
  { unfold PlanWorkflow. apply ends_then; [by apply total_ends, ends_setup|]. intros z i Hz.
    apply newPlanWorkflowSetup_cases in Hz as [_ [(_ & e & [=])|(now & [= ->] & _ & Hspec & _)]].
    unfold execute_plan. apply ends_then; [done|]. intros z1 enabled Hz1.
    rewrite perform_eq in Hz1. injection Hz1 as <- _.
    apply ends_then; [by apply total_ends, ends_start_plan|]. intros z2 [rt paused] Hz2.
    apply ends_loop with (limit := limit) (count := count); try done.
    - pose proof (start_plan_spec env compiler enabled input
        (logged env (GetVersion planSearchAttributesVersionMarker) z)) as Hs.
      rewrite Hz2 in Hs. cbn in Hs. unfold iteration_limit. by rewrite Hs, Hspec.
    - unfold fuel0. lia. }
  destruct (PlanWorkflow env compiler fuel0 (Some input) x) as [y r] eqn:Hr. exists y, r. split; [done|].
  intros fuel Hfuel. rewrite <-Hr. apply workflow_more; [done|]. by rewrite Hr.
Qed.

(** A plan limited to ten iterations, in an environment without messages. *)
Definition limited_spec : RunPlanSpec :=
  let s := Sample.spec in
  let p := spec_Policy s in
  {| s with spec_Policy := {| p with pol_MaxIterations := 10 |} |}.

Lemma workflow_terminates_witness :
  ∃ y r, r ≠ Diverge ∧ ∀ fuel, 12 ≤ fuel →
    @PlanWorkflow (scenario_env base) sha quoting merge_slice_sort texts boxes order
      (Ok Sample.compiler) fuel (Some (WorkflowSample.input limited_spec)) zero_Exec = (y, r).
Proof.
  apply (@workflow_terminates (scenario_env base) sha quoting merge_slice_sort texts boxes order
    (Ok Sample.compiler) (WorkflowSample.input limited_spec) zero_Exec 0).
  - split; reflexivity.
  - split; [discriminate|reflexivity].
  - intros past _. split; reflexivity.
  - intros past i out Hout. discriminate Hout.
Defined.
