(* ===== verification/WorkflowContinue.v ===== *)
(** * Continuation as a new execution

    When its history grows too long the workflow ends with the request to continue as a
    new execution.  The input of that execution carries everything the loop depends on:
    the new execution restores the same reducer state for the same spec and goes on with
    the same counters and the same processed message keys. *)

From S2P Require Import Prelude Types Graph Scope Contracts Validator State Scheduler Json Policy.
From S2P Require Import Events Temporal Workflow WorkflowSample WorkflowLogic WorkflowSpec.
From S2P Require Import WorkflowResult WorkflowTermination.

(** ** Where the request comes from *)

(** Errors of the code other than the request. *)
Definition ordinary (e : werror) : Prop := ∀ next, e ≠ ContinueAsNew next.

Lemma W_bind_Fail {A B} (m : W A) (f : A → W B) x y e :
  (m ≫= f) x = (y, Fail e) ↔
  m x = (y, Fail e) ∨ ∃ z a, m x = (z, Return a) ∧ f a z = (y, Fail e).
Proof. rewrite W_bind_eq. destruct (m x) as [z [a|e'|]]; naive_solver. Qed.

Lemma ends_Fail {A} P (m : W A) x y e : ends P m → m x = (y, Fail e) → P e.
Proof. intros Hm Hy. specialize (Hm x). by rewrite Hy in Hm. Qed.

(** After ordinary code the request can only come from what follows. *)
Lemma bind_continue {A B} (m : W A) (f : A → W B) x y next :
  ends ordinary m → (m ≫= f) x = (y, Fail (ContinueAsNew next)) →
  ∃ z a, m x = (z, Return a) ∧ f a z = (y, Fail (ContinueAsNew next)).
Proof.
  intros Hm [Hy|?]%W_bind_Fail; [|done]. by destruct (ends_Fail _ _ _ _ _ Hm Hy next).
Qed.

(** ** Iterations *)

(** The execution asked for a control request and there was none. *)
Definition idle (e : exchange) : bool :=
  match e with
  | Exchange c a =>
      match c return answer c → bool with
      | ReceiveControl => λ a, bool_decide (a = None)
      | _ => λ _, false
      end a
  end.

(** The iterations of an execution that went past its control requests: each reads them until
    there is none left. *)
Definition rounds (log : list exchange) : nat := length (filter (λ e, idle e = true) log).

Lemma rounds_app l1 l2 : rounds (l1 ++ l2) = rounds l1 + rounds l2.
Proof. unfold rounds. by rewrite filter_app, length_app. Qed.

Lemma int32_add a b : int32 (int32 a + b) = int32 (a + b).
Proof.
  unfold int32, wrap. set (h := (2 ^ (32 - 1))%Z). set (m := (2 ^ 32)%Z).
  replace ((a + h) mod m - h + b + h)%Z with ((a + h) mod m + b)%Z by lia.
  rewrite Z.add_mod_idemp_l by done. do 2 f_equal. lia.
Qed.

Section rounds.
Context (env : Env) `{!Sha256, !GoQuote, !SliceSort, !ErrorText, !Boxing, !MapOrder}.

Definition same_rounds (x y : Exec) : Prop := rounds (x_log y) = rounds (x_log x).

#[local] Instance same_rounds_preorder : PreOrder same_rounds.
Proof. unfold same_rounds. split; [done|]. intros ? ? ? E1 E2. by rewrite E2. Qed.

Lemma same_rounds_call c x : receives c = false → same_rounds x (logged env c x).
Proof.
  intros Hc. unfold same_rounds, logged. cbn [x_log]. rewrite rounds_app. by destruct c.
Qed.

Lemma same_rounds_quiet c x : quiet c = true → same_rounds x (logged env c x).
Proof. intros Hc. by apply same_rounds_call, quiet_receives. Qed.

(** A request, or the end of the requests of this iteration. *)
Lemma rounds_receive x :
  rounds (x_log (logged env ReceiveControl x)) =
  rounds (x_log x) + (match respond env (x_log x) ReceiveControl with Some _ => 0 | None => 1 end).
Proof.
  cbn [logged x_log]. rewrite rounds_app. f_equal. unfold rounds. cbn.
  by destruct (respond env (x_log x) ReceiveControl).
Qed.

Lemma same_rounds_event spec ev : along same_rounds (applyPlanStateEvent env spec ev).
Proof.
  unfold applyPlanStateEvent. along_auto;
    first [apply along_perform; intros ?; by apply same_rounds_call|by apply along_modify].
Qed.

Lemma same_rounds_emit ev : along same_rounds (emit env ev).
Proof. apply along_emit; [exact _|]. intros spec. apply same_rounds_event. Qed.

Lemma same_rounds_expansion node status artifacts :
  along same_rounds (applyPlanExpansion env node status artifacts).
Proof.
  unfold applyPlanExpansion. along_auto;
    first [apply same_rounds_event|apply along_perform; intros ?; by apply same_rounds_call|by apply along_modify].
Qed.

#[local] Ltac rounds_pieces := first [exact _|exact same_rounds_quiet|done|
  intros; apply same_rounds_emit|intros; apply same_rounds_expansion|
  intros; apply along_failure_events; [exact _|exact same_rounds_emit]|
  intros; apply along_retry_events; [exact _|exact same_rounds_emit]|auto].

Lemma same_rounds_guard n : along same_rounds (applyPlanIterationGuard env n).
Proof. apply along_applyPlanIterationGuard; rounds_pieces. Qed.

Lemma same_rounds_settle rt : along same_rounds (settleNexusNodePromises env rt).
Proof. apply along_settle with (known := λ _, True) (admitted := λ _ _, True); rounds_pieces. Qed.

Lemma same_rounds_control paused control controls :
  along same_rounds (applyPlanControl env paused control controls).
Proof. apply along_applyPlanControl; rounds_pieces. Qed.

Lemma same_rounds_signals fuel paused progressed nodes controls :
  along same_rounds (drainPlanSignals env fuel paused progressed nodes controls).
Proof. apply along_drainPlanSignals with (admitted := λ _ _, True); rounds_pieces. Qed.

Lemma same_rounds_guards input n paused :
  along same_rounds (applyPlanWorkflowPreScheduleGuards env input n paused).
Proof. apply along_guards with (known := λ _, True); rounds_pieces. Qed.

Lemma same_rounds_finish input n progressed r :
  along same_rounds (finishPlanWorkflowIteration env input n progressed r).
Proof. apply along_finish; rounds_pieces. Qed.

Lemma same_rounds_schedule rt progressed :
  along same_rounds (schedulePlanWorkflowNodes env rt progressed).
Proof.
  apply along_schedule with (known := λ _, True) (admitted := λ _ _, True) (good := λ _, True);
    try solve [rounds_pieces].
  intros rt' x decision b _ _. apply along_decision_events;
    first [exact _|exact same_rounds_emit|exact same_rounds_expansion|intros; by apply same_rounds_call|done].
Qed.

Lemma same_rounds_sync enabled runID : along same_rounds (sync_state env enabled runID).
Proof. apply along_sync_state; rounds_pieces. Qed.

Lemma same_rounds_drain rt : along same_rounds (drainNexusNodeRuns env rt).
Proof. apply along_drainNexusNodeRuns; rounds_pieces. Qed.

Lemma same_rounds_start compiler enabled input :
  along same_rounds (start_plan env compiler enabled input).
Proof. apply along_start_plan; rounds_pieces. Qed.

Lemma same_rounds_setup input : along same_rounds (newPlanWorkflowSetup env input).
Proof.
  unfold newPlanWorkflowSetup. along_auto; [|by apply along_modify].
  apply along_perform. intros z. by apply same_rounds_call.
Qed.

Lemma same_rounds_at {A} (m : W A) x y r :
  along same_rounds m → m x = (y, r) → rounds (x_log y) = rounds (x_log x).
Proof. intros Hm Hy. specialize (Hm x). by rewrite Hy in Hm. Qed.

(** Draining the control requests to their end is one round. *)
Lemma rounds_controls fuel paused controls x y p :
  drainPlanControl env fuel paused controls x = (y, Return (false, p)) →
  rounds (x_log y) = S (rounds (x_log x)).
Proof.
  revert paused x. induction fuel as [|fuel IH]; intros paused x; cbn [drainPlanControl]; [done|].
  rewrite W_bind_eq, perform_eq. pose proof (rounds_receive x) as Hr.
  destruct (respond env (x_log x) ReceiveControl) as [control|]; [|intros [= <- _]; lia].
  set (x1 := logged _ _ x) in *. intros Hy.
  apply W_bind_Return in Hy as (x2 & [] & Hx2%(same_rounds_at (lift _)) & Hy); [|by apply along_lift; exact _].
  apply W_bind_Return in Hy as (x3 & [] & Hx3%(same_rounds_at (lift _)) & Hy); [|by apply along_lift; exact _].
  apply W_bind_Return in Hy as (z & processed & [= <- <-] & Hy).
  destruct (bool_decide _); [apply IH in Hy; lia|].
  apply W_bind_Return in Hy as (x4 & [] & Hx4%same_rounds_at & Hy); [|by apply along_modify].
  apply W_bind_Return in Hy as (x5 & result & Hx5%same_rounds_at & Hy); [|apply same_rounds_control].
  destruct (cdr_Canceled result); [done|]. apply IH in Hy. lia.
Qed.

(** An iteration that does not end the plan is one round. *)
Lemma rounds_iteration fuel rt input n paused x y result :
  runPlanWorkflowIteration env fuel rt input n paused x = (y, Return result) →
  ir_Done result = false → rounds (x_log y) = S (rounds (x_log x)).
Proof.
  unfold runPlanWorkflowIteration. intros Hy Hd.
  apply W_bind_Return in Hy as (z0 & [] & E0%same_rounds_at & Hy); [|apply same_rounds_guard].
  apply W_bind_Return in Hy as (z1 & [settled paced] & E1%same_rounds_at & Hy); [|apply same_rounds_settle].
  apply W_bind_Return in Hy as (? & v & [= <- <-] & Hy).
  apply W_bind_Return in Hy as (z2 & [[[|] p]|e] & E2%try_Return & Hy).
  { by injection Hy as <- <-. }
  2: { by apply fail_joined_fails in Hy. }
  apply rounds_controls in E2.
  apply W_bind_Return in Hy as (z3 & [[[[|] p'] s]|e] & E3%try_Return & Hy).
  { by injection Hy as <- <-. }
  2: { by apply fail_joined_fails in Hy. }
  apply same_rounds_at in E3; [|apply same_rounds_signals].
  apply W_bind_Return in Hy as (z4 & guard & E4%same_rounds_at & Hy); [|apply same_rounds_guards].
  destruct guard as [finished|]; [injection Hy as <- _; lia|].
  apply W_bind_Return in Hy as (z5 & [b d] & E5%same_rounds_at & Hy); [|apply same_rounds_schedule].
  destruct d; [by injection Hy as <- <-|]. destruct paced; [injection Hy as <- _; lia|].
  apply same_rounds_at in Hy; [lia|apply same_rounds_finish].
Qed.
End rounds.

Section continue.
Context (env : Env) `{!Sha256, !GoQuote, !SliceSort, !ErrorText, !Boxing, !MapOrder}.
Context (input : planWorkflowInput).

(** The input of the new execution is made from the execution at its end, in iteration [n]. *)
Definition made_from (n : Z) (y : Exec) (next : planWorkflowInput) : Prop :=
  next = continuedPlanWorkflowInput input (x_spec y) (x_state y) (x_expansionCount y) n
           (x_controls y) (x_signals y).

Lemma ordinary_fails {A} (m : W A) x y next :
  ends ordinary m → m x ≠ (y, Fail (ContinueAsNew next)).
Proof. intros Hm Hy. by eapply (ends_Fail ordinary m x y _ Hm Hy next). Qed.

Lemma continue_made n x y next :
  continuePlanWorkflowIfNeeded env input n x = (y, Fail (ContinueAsNew next)) →
  made_from n y next ∧ x_state y = x_state x.
Proof.
  unfold continuePlanWorkflowIfNeeded. rewrite W_bind_eq. cbn [gets]. rewrite W_bind_eq. cbn [gets].
  destruct (planTerminal _); [done|]. rewrite W_bind_eq, perform_eq.
  destruct (negb _); [done|]. rewrite W_bind_eq. cbn [gets throw id]. intros [= <- <-].
  done.
Qed.

Lemma sleep_ordinary : ends ordinary (sleep env).
Proof. apply ends_bind; [done|]. intros r. by apply ends_lift. Qed.

Lemma guards_made n paused x y next :
  listed x →
  applyPlanWorkflowPreScheduleGuards env input n paused x = (y, Fail (ContinueAsNew next)) →
  made_from n y next ∧ listed y.
Proof.
  intros Hx. unfold applyPlanWorkflowPreScheduleGuards. intros Hy.
  apply bind_continue in Hy as (? & v & [= <- <-] & Hy); [|done].
  apply bind_continue in Hy as (z & timedOut & Hz & Hy); [|by apply ends_deadline].
  assert (listed z) as Hlz.
  { eapply (listed_along (applyPlanDeadlineGuard env _ _)); [|exact Hz|exact Hx].
    apply along_applyPlanDeadlineGuard; first [exact _|apply lists_call|apply lists_passive|done]. }
  destruct timedOut; [done|].
  apply bind_continue in Hy as (? & s & [= <- <-] & Hy); [|done].
  destruct (planNodesTerminal _).
  { by apply bind_continue in Hy as (? & [] & _ & Hy); [|apply ends_terminal_state]. }
  destruct (negb paused); [done|].
  apply bind_continue in Hy as (z' & timedOut & Hz' & Hy); [|by apply ends_deadline].
  assert (listed z') as Hlz'.
  { eapply (listed_along (applyPlanDeadlineGuard env _ _)); [|exact Hz'|exact Hlz].
    apply along_applyPlanDeadlineGuard; first [exact _|apply lists_call|apply lists_passive|done]. }
  destruct timedOut; [done|]. apply W_bind_Fail in Hy as [Hy|(? & [] & _ & Hy)].
  - apply continue_made in Hy as [? Hs]. split; [done|]. unfold listed. by rewrite Hs.
  - exfalso. revert Hy. apply ordinary_fails, ends_bind; [apply sleep_ordinary|done].
Qed.

Lemma finish_made n progressed result x y next :
  listed x → finishPlanWorkflowIteration env input n progressed result x = (y, Fail (ContinueAsNew next)) →
  made_from n y next ∧ listed y.
Proof.
  intros Hx. unfold finishPlanWorkflowIteration. intros Hy.
  apply bind_continue in Hy as (? & s & [= <- <-] & Hy); [|done].
  destruct (_ && _).
  { apply bind_continue in Hy as (? & [] & _ & Hy); [discriminate Hy|by apply ends_emit]. }
  apply W_bind_Fail in Hy as [Hy|(? & [] & _ & Hy)].
  - apply continue_made in Hy as [? Hs]. split; [done|]. unfold listed. by rewrite Hs.
  - exfalso. destruct progressed; [discriminate Hy|]. revert Hy. apply ordinary_fails, ends_bind; [apply sleep_ordinary|done].
Qed.

Lemma fail_joined_ordinary {A} cause ev x y next :
  fail_joined env (A := A) cause ev x ≠ (y, Fail (ContinueAsNew next)).
Proof. apply ordinary_fails. by apply ends_fail_joined. Qed.

(** A caught computation that does not diverge and whose errors are joined. *)
Lemma try_continue {A B} (m : W A) (f : A + werror → W B) x y next :
  (∀ e z, f (inr e) z ≠ (y, Fail (ContinueAsNew next))) →
  (try m ≫= f) x = (y, Fail (ContinueAsNew next)) →
  ∃ z a, m x = (z, Return a) ∧ f (inl a) z = (y, Fail (ContinueAsNew next)).
Proof.
  intros He [Hy|(z & [a|e] & Hz%try_Return & Hy)]%W_bind_Fail.
  - unfold try in Hy. by destruct (m x) as [z [a|e|]].
  - by eexists _, _.
  - by apply He in Hy.
Qed.

Lemma iteration_made fuel rt n paused x y next :
  listed x →
  runPlanWorkflowIteration env fuel rt input n paused x = (y, Fail (ContinueAsNew next)) →
  made_from n y next ∧ listed y.
Proof.
  intros Hx. unfold runPlanWorkflowIteration. intros Hy.
  apply bind_continue in Hy as (z0 & [] & E0 & Hy); [|by apply ends_guard].
  apply bind_continue in Hy as (z1 & [settled paced] & E1 & Hy); [|by apply ends_settle].
  assert (listed z1) as Hz1.
  { eapply lists_settle; [exact E1|]. by eapply listed_along; [apply lists_guard|exact E0|]. }
  apply bind_continue in Hy as (? & v & [= <- <-] & Hy); [|done].
  apply try_continue in Hy as (z2 & [[|] p] & E2 & Hy); [done| |intros; apply fail_joined_ordinary].
  apply try_continue in Hy as (z3 & [[[|] p'] s] & E3 & Hy); [done| |intros; apply fail_joined_ordinary].
  assert (listed z3) as Hz3.
  { eapply listed_along; [apply lists_signals|exact E3|].
    by eapply listed_along; [apply lists_controls|exact E2|]. }
  apply W_bind_Fail in Hy as [Hy|(z4 & [fin|] & E4 & Hy)]; [by eapply guards_made|done|].
  apply bind_continue in Hy as (z5 & [b d] & E5 & Hy); [|by apply ends_schedule].
  assert (listed z5) as Hz5.
  { eapply lists_schedule; [exact E5|]. by eapply listed_along; [apply lists_guards|exact E4|]. }
  destruct d; [done|]. destruct paced; [done|]. by eapply finish_made.
Qed.

Lemma rounds_continue fuel rt n paused x y next :
  runPlanWorkflowIteration env fuel rt input n paused x = (y, Fail (ContinueAsNew next)) →
  rounds (x_log y) = S (rounds (x_log x)).
Proof.
  unfold runPlanWorkflowIteration. intros Hy.
  apply bind_continue in Hy as (z0 & [] & E0%same_rounds_at & Hy); [|apply same_rounds_guard|by apply ends_guard].
  apply bind_continue in Hy as (z1 & [settled paced] & E1%same_rounds_at & Hy);
    [|apply same_rounds_settle|by apply ends_settle].
  apply bind_continue in Hy as (? & v & [= <- <-] & Hy); [|done].
  apply try_continue in Hy as (z2 & [[|] p] & E2 & Hy); [done| |intros; apply fail_joined_ordinary].
  apply rounds_controls in E2.
  apply try_continue in Hy as (z3 & [[[|] p'] s] & E3 & Hy); [done| |intros; apply fail_joined_ordinary].
  apply same_rounds_at in E3; [|apply same_rounds_signals].
  apply W_bind_Fail in Hy as [Hy|(z4 & [fin|] & E4 & Hy)]; [|done|].
  { apply same_rounds_at in Hy; [lia|apply same_rounds_guards]. }
  apply same_rounds_at in E4; [|apply same_rounds_guards].
  apply bind_continue in Hy as (z5 & [b d] & E5%same_rounds_at & Hy); [|apply same_rounds_schedule|by apply ends_schedule].
  destruct d; [done|]. destruct paced; [done|]. apply same_rounds_at in Hy; [lia|apply same_rounds_finish].
Qed.

(** What synchronising and draining leave alone. *)
Definition same_core (x y : Exec) : Prop :=
  x_spec y = x_spec x ∧ x_state y = x_state x ∧ x_expansionCount y = x_expansionCount x ∧
  x_controls y = x_controls x ∧ x_signals y = x_signals x.

#[local] Instance same_core_preorder : PreOrder same_core.
Proof.
  unfold same_core. split; [done|]. intros x y z (?&?&?&?&?) (?&?&?&?&?). split_and!; congruence.
Qed.

Lemma same_core_made n x y next :
  same_core x y → made_from n x next ∧ listed x → made_from n y next ∧ listed y.
Proof. unfold made_from, listed. intros (-> & -> & -> & -> & ->). done. Qed.

Lemma loop_made fuel rt enabled n paused x y next :
  listed x → plan_loop env fuel rt input enabled n paused x = (y, Fail (ContinueAsNew next)) →
  rounds (x_log x) ≤ rounds (x_log y) ∧
  made_from (int32 (n + Z.of_nat (rounds (x_log y) - rounds (x_log x)))%Z) y next ∧ listed y.
Proof.
  revert n paused x. induction fuel as [|fuel IH]; intros n paused x Hx; cbn [plan_loop]; [done|]. intros Hy.
  apply W_bind_Fail in Hy as [Hy|(z & r & Hz & Hy)].
  { unfold try in Hy. by destruct (runPlanWorkflowIteration _ _ _ _ _ _ x) as [z [a|e|]]. }
  apply bind_continue in Hy as (z' & [] & Hs & Hy); [|by apply ends_sync].
  assert (same_core z z') as Hsame.
  { eapply (returns_along same_core); [|exact Hs]. apply along_sync_state; [exact _|by intros|by intros]. }
  apply same_rounds_at in Hs; [|apply same_rounds_sync].
  destruct r as [result|e]; apply try_Return in Hz.
  - destruct (ir_Done result) eqn:Hd.
    { exfalso. revert Hy. apply ordinary_fails. apply ends_bind; [by apply ends_drain|done]. }
    apply IH in Hy as (Hle & Hm & Hl); [|unfold listed; destruct Hsame as (_ & -> & _); by eapply lists_iteration].
    apply rounds_iteration in Hz; [|done]. split; [lia|]. split; [|done].
    rewrite int32_add in Hm. replace (n + _)%Z with (n + 1 + Z.of_nat (rounds (x_log y) - rounds (x_log z')))%Z by lia.
    exact Hm.
  - apply bind_continue in Hy as (w & [] & Hw & Hy); [|by apply ends_drain]. injection Hy as <- ->.
    assert (same_core z' w) as Hsame'.
    { eapply (returns_along same_core); [|exact Hw]. apply along_drainNexusNodeRuns; [exact _|by intros|by intros]. }
    apply same_rounds_at in Hw; [|apply same_rounds_drain]. pose proof (rounds_continue _ _ _ _ _ _ _ Hz) as Hr.
    split; [lia|]. replace (rounds (x_log w) - rounds (x_log x)) with 1 by lia.
    eapply same_core_made; [exact Hsame'|]. eapply same_core_made; [exact Hsame|]. by eapply iteration_made.
Qed.
End continue.

(** ** What the new execution starts with *)

Lemma elem_of_processedPlanWorkflowKeys key keys :
  key ∈ processedPlanWorkflowKeys keys ↔ key ∈ keys ∧ key ≠ "".
Proof.
  unfold processedPlanWorkflowKeys. induction keys as [|k keys IH] using rev_ind.
  - cbn. rewrite elem_of_nil. set_solver.
  - rewrite foldl_app, elem_of_app, list_elem_of_singleton. cbn. case_bool_decide; set_solver.
Qed.

Lemma processed_sorted (keys : gset string) :
  processedPlanWorkflowKeys (sortedPlanWorkflowKeys keys) = keys ∖ {[""]}.
Proof.
  apply set_eq. intros key. rewrite elem_of_processedPlanWorkflowKeys. unfold sortedPlanWorkflowKeys.
  rewrite elem_of_sort_strings, list_elem_of_filter, elem_of_elements. set_solver.
Qed.

Definition filed (s : State) : Prop := ∀ id n, nodes s !! id = Some n → ns_NodeID n = id.

Lemma Apply_filed now s ev s' r : Apply now s ev = (s', r) → filed s → filed s'.
Proof.
  intros Ha Hs id n' Hl. destruct (Apply_origin _ _ _ _ _ _ _ Ha Hl) as
    [?|[(n & Hn & _ & Hstep)|(_ & _ & node & t & -> & ->)]]; [auto| |done].
  apply node_step_identity in Hstep as [-> _]. auto.
Qed.

Lemma history_filed `{!Sha256} log spec s ps spec' s' : history log spec s ps spec' s' → filed s → filed s'.
Proof. intros Hh Hs. induction Hh; eauto using Apply_filed. Qed.

Lemma initial_filed input now s : initialPlanWorkflowState input now = Ok s → filed s.
Proof.
  unfold initialPlanWorkflowState. destruct (pwi_Continued input).
  - unfold NewStateFromStatus. intros Hs id n Hl. go_inv Hs.
    apply restorePlanNodeStatuses_iff in Hr2 as (_ & _ & -> & _). cbn in Hl.
    by apply elem_of_list_to_map_2, list_elem_of_fmap in Hl as (? & [= -> ->] & _).
  - intros [= <-] id n (node & _ & -> & ->)%NewState_nodes. done.
Qed.

(** The reducer of an execution tracks the spec of its plan. *)
Definition tracks `{!JSONSchema} (v : Validator) (x : Exec) : Prop :=
  is_ok (Validate v (x_spec x)) = true ∧
  dom (nodes (x_state x)) = list_to_set (node_ids (x_spec x)) ∧
  st_PlanID (Status (x_state x)) = spec_PlanID (x_spec x).

(** C7: Continuing as a new execution loses nothing.  An execution ends with the request to
    continue, and at that moment its reducer tracks its spec: the spec is valid, the nodes of the
    reducer are those of the spec and its plan id is that of the spec ([tracks]).  Then the new
    execution starts with the same reducer state (only the transition counter, which triggered
    the request, is reset) and the same spec; its expansion count is that of the old execution
    at its end, its iteration count has gone up by one for every iteration the old execution
    made, its continuation count by one, all in 32 bits; it knows the same processed control
    and signal keys, so that repeated messages are still ignored; its configuration is that of
    the old one and it is marked as continued. *)
Theorem continuation_transparent `{!JSONSchema} (v : Validator) (env : Env)
    `{!Sha256, !GoQuote, !SliceSort, !ErrorText, !Boxing, !MapOrder}
    (compiler : result ExpressionCompiler) (fuel : nat) (input next : planWorkflowInput)
    (x y : Exec) (now : time) :
  PlanWorkflow env compiler fuel (Some input) x = (y, Fail (ContinueAsNew next)) →
  tracks v y →
  initialPlanWorkflowState next now = Ok (reset_transitions (x_state y)) ∧
  pwi_Spec next = x_spec y ∧ pwi_ExpansionCount next = x_expansionCount y ∧
  pwi_IterationCount next =
    int32 (pwi_IterationCount input + Z.of_nat (rounds (x_log y) - rounds (x_log x)))%Z ∧
  pwi_ContinuationCount next = int32 (pwi_ContinuationCount input + 1)%Z ∧
  processedPlanWorkflowKeys (pwi_ProcessedControls next) = x_controls y ∖ {[""]} ∧
  processedPlanWorkflowKeys (pwi_ProcessedSignals next) = x_signals y ∖ {[""]} ∧
  pwi_Continued next = true ∧ pwi_TaskQueues next = pwi_TaskQueues input ∧
  pwi_NexusEndpoint next = pwi_NexusEndpoint input ∧ pwi_NexusPeers next = pwi_NexusPeers input ∧
  pwi_WorkflowVersion next = pwi_WorkflowVersion input.
Proof.
  intros Hw (Hv & Hdom & Hid). unfold PlanWorkflow in Hw.
  apply bind_continue in Hw as (z & i & Hz & Hw); [|by apply ends_setup].
  pose proof (same_rounds_at _ _ _ _ (same_rounds_setup env (Some input)) Hz) as Hrz.
  apply newPlanWorkflowSetup_cases in Hz as [_ [(_ & e & [=])|(t & [= ->] & Hi & _)]].
  pose proof (follows_execute_plan env compiler fuel input z) as Hh. rewrite Hw in Hh.
  destruct Hh as (_ & ps & _ & Hh). cbn [fst] in Hh.
  unfold execute_plan in Hw. apply bind_continue in Hw as (z1 & enabled & Hz1 & Hw); [|done].
  rewrite perform_eq in Hz1. injection Hz1 as <- _.
  pose proof (same_rounds_call env (GetVersion planSearchAttributesVersionMarker) z eq_refl) as Hr1.
  apply bind_continue in Hw as (z2 & [rt paused] & Hz2 & Hw); [|by apply ends_start_plan].
  assert (listed z2) as Hl.
  { eapply listed_along; [apply lists_start_plan|exact Hz2|]. exact (initial_listed _ _ _ Hi). }
  apply same_rounds_at in Hz2; [|apply same_rounds_start].
  apply loop_made in Hw as (_ & -> & [Hn Ha]); [|exact Hl].
  rewrite Hz2, Hr1, Hrz.
  cbn [continuedPlanWorkflowInput pwi_Spec pwi_Status pwi_ExpansionCount pwi_IterationCount
       pwi_ContinuationCount pwi_ProcessedControls pwi_ProcessedSignals pwi_Continued pwi_TaskQueues pwi_NexusEndpoint pwi_NexusPeers pwi_WorkflowVersion].
  rewrite !processed_sorted. split_and!; try done.
  unfold initialPlanWorkflowState. cbn [continuedPlanWorkflowInput pwi_Continued pwi_Spec pwi_Status].
  destruct (Validate v (x_spec y)) as [plan|e] eqn:Hval; [|done].
  pose proof (accepted_nodes _ _ _ Hval) as (Hnode & Hnd & _).
  apply NewStateFromStatus_wf; try done.
  - split; [|done|done]. eapply history_filed; [exact Hh|]. by eapply initial_filed.
  - apply Validate_stages in Hval as (_ & He & _). by apply validatePlanEnvelope_iff in He as [[? _] _].
  - intros node Hin. by eapply validateNode_id, Hnode.
Qed.

(** A plan that continues as a new execution after ten transitions. *)
Definition continuing_spec : RunPlanSpec :=
  let s := Sample.spec in
  let p := spec_Policy s in
  {| s with spec_Policy := {| p with pol_ContinueAsNewEvents := 10 |} |}.

Lemma continuation_transparent_witness :
  let run := execute base continuing_spec 40 in
  ∃ next, run.2 = Fail (ContinueAsNew next) ∧
    initialPlanWorkflowState next 5 = Ok (reset_transitions (x_state run.1)) ∧
    pwi_IterationCount next = 2%Z ∧ pwi_ContinuationCount next = 1%Z.
Proof.
  intros run.
  assert (match run.2 with Fail (ContinueAsNew next) => true | _ => false end = true) as Hb
    by (vm_compute; reflexivity).
  destruct run.2 as [status|[e|c o|next|]|] eqn:Hr; try discriminate Hb. exists next. split; [reflexivity|].
  assert (rounds (x_log run.1) = 2) as Hn by (vm_compute; reflexivity).
  destruct (@continuation_transparent Sample.schema_any Sample.validator (scenario_env base) sha quoting
    merge_slice_sort texts boxes order (Ok Sample.compiler) 40 (WorkflowSample.input continuing_spec)
    next zero_Exec run.1 5) as (Hi & _ & _ & Hc & Ht & _).
  - rewrite <-Hr. exact (surjective_pairing run).
  - split; [|split].
    + vm_compute. reflexivity.
    + apply (bool_decide_unpack _). vm_compute. exact I.
    + vm_compute. reflexivity.
  - split; [exact Hi|]. split; [|rewrite Ht; reflexivity]. rewrite Hc, Hn. reflexivity.
Defined.
