(* ===== verification/WorkflowFindings.v ===== *)
(** * Behaviours of the plan workflow worth knowing

    Theorems about paths on which the workflow does something its comments or its other
    paths do not lead one to expect: the end of an execution cancels its operations also
    when it continues as a new one, a retry signal can lift a pause without a decision,
    a failed input resolution uses up no attempt, and a plan that exceeds its budget while
    it starts nodes is failed twice. *)

From S2P Require Import Prelude Types Graph Scope Contracts Validator State Scheduler Json Policy.
From S2P Require Import Events Temporal Workflow WorkflowSample WorkflowLogic WorkflowSpec.
From S2P Require Import WorkflowResult WorkflowTermination WorkflowContinue.

(** ** The end of an execution *)

Section drain.
Context (env : Env) `{!Sha256, !GoQuote, !SliceSort, !ErrorText, !Boxing, !MapOrder}.

(** The log grows and no operation is registered. *)
Definition winds_down (x y : Exec) : Prop :=
  x_log x `prefix_of` x_log y ∧ x_runs y ⊆ x_runs x.

#[local] Instance winds_down_preorder : PreOrder winds_down.
Proof. unfold winds_down. split; [done|]. intros x y z [? ?] [? ?]. split; by etrans. Qed.

Lemma winds_down_perform c : along winds_down (perform env c).
Proof. apply along_perform. intros x. split; [by eexists|done]. Qed.

Lemma winds_down_remove runID : along winds_down (remove runID).
Proof. apply along_modify. intros x. split; [done|]. apply delete_subseteq. Qed.
#[local] Hint Extern 1 (along winds_down (perform _ _)) => apply winds_down_perform : along.
#[local] Hint Resolve winds_down_remove : along.

Lemma winds_down_cancel runID : along winds_down (cancelRun env runID).
Proof. unfold cancelRun. along_auto. Qed.
#[local] Hint Resolve winds_down_cancel : along.

Lemma winds_down_resolved : along winds_down (drainResolved env).
Proof. unfold drainResolved. along_auto. Qed.

Definition canceled (run : planNodeRun) (x : Exec) : Prop :=
  ∃ a, Exchange (CancelOperation (pnr_future run)) a ∈ x_log x.

Lemma canceled_later run x y : winds_down x y → canceled run x → canceled run y.
Proof. intros [[l Hl] _] [a Ha]. exists a. rewrite Hl. apply elem_of_app. by left. Qed.

Lemma cancelRun_canceled runID run x y :
  x_runs x !! runID = Some run → cancelRun env runID x = (y, Return tt) →
  canceled run y ∧ x_runs y = x_runs x.
Proof.
  intros Hl. unfold cancelRun. rewrite W_bind_eq. cbn [gets]. rewrite Hl, W_bind_eq, perform_eq.
  intros [= <-]. split; [|done]. eexists. apply elem_of_app. right. apply list_elem_of_singleton. done.
Qed.

Lemma cancel_all keys x y :
  (∀ runID, runID ∈ keys → is_Some (x_runs x !! runID)) →
  forW (cancelRun env) keys x = (y, Return tt) →
  x_runs y = x_runs x ∧ ∀ runID run, runID ∈ keys → x_runs x !! runID = Some run → canceled run y.
Proof.
  revert x. induction keys as [|key keys IH]; intros x Hk.
  { intros [= <-]. split; [done|]. by intros ? ? ?%not_elem_of_nil. }
  unfold forW. cbn [foldW]. intros (z & [] & Hz & Hy)%W_bind_Return.
  destruct (Hk key) as [run Hrun]; [left|].
  destruct (cancelRun_canceled _ _ _ _ Hrun Hz) as [Hc Hr].
  destruct (IH z) as [Hr' Hall]; [|exact Hy|].
  { intros runID Hin. rewrite Hr. apply Hk. by right. }
  split; [by rewrite Hr'|]. intros runID run' [->|Hin]%elem_of_cons Hl.
  - simplify_eq. eapply canceled_later; [|exact Hc].
    assert (along winds_down (foldW (λ _ a, cancelRun env a) tt keys)) as Ha by along_auto.
    specialize (Ha z). by rewrite Hy in Ha.
  - apply (Hall runID); [done|]. by rewrite Hr.
Qed.

Lemma drain_cancels rt x y :
  rt_NexusNodeRuns rt = true → drainNexusNodeRuns env rt x = (y, Return tt) →
  ∀ runID run, x_runs y !! runID = Some run → canceled run y.
Proof.
  intros Hrt. unfold drainNexusNodeRuns. rewrite W_bind_eq, Hrt. cbn [gets negb orb]. case_bool_decide as Hs.
  { intros [= <-] runID run Hl. apply map_size_empty_inv in Hs. by rewrite Hs in Hl. }
  intros (z & [] & Hz & Hy)%W_bind_Return runID run Hl.
  apply cancel_all in Hz as [Hr Hall].
  2: { intros id Hid. rewrite map_keys_perm, list_elem_of_fmap in Hid.
       destruct Hid as ([id' r] & -> & Hin%elem_of_map_to_list). eauto. }
  assert (winds_down z y) as Hw.
  { eapply (returns_along winds_down); [|exact Hy].
    apply along_bind; [exact _|apply winds_down_perform|intros _; apply winds_down_resolved]. }
  eapply canceled_later; [exact Hw|]. assert (x_runs x !! runID = Some run) as Hx.
  { rewrite <-Hr. eapply lookup_weaken; [exact Hl|apply Hw]. }
  apply (Hall runID); [|done]. rewrite map_keys_perm, list_elem_of_fmap.
  exists (runID, run). by rewrite elem_of_map_to_list.
Qed.

(** Neither synchronising nor draining can fail. *)
Lemma drain_returns rt x : (drainNexusNodeRuns env rt x).2 = Return tt.
Proof.
  pose proof (ends_drain env (λ _, False) rt x) as He. by destruct (drainNexusNodeRuns env rt x) as [y [[]|e|]].
Qed.

Lemma sync_returns enabled runID x : (sync_state env enabled runID x).2 = Return tt.
Proof.
  pose proof (ends_sync env (λ _, False) enabled runID x) as He.
  by destruct (sync_state env enabled runID x) as [y [[]|e|]].
Qed.
End drain.

(** Every end of an execution cancels its operations.  When the loop of an execution that
    runs nodes through Nexus operations ends, with a status, with an error or with the
    request to continue as a new execution, a cancellation has been sent to every
    operation that is still registered.  So nodes in flight do not survive a
    continuation, although the new execution goes on polling them. *)
Theorem end_cancels_operations (env : Env)
    `{!Sha256, !GoQuote, !SliceSort, !ErrorText, !Boxing, !MapOrder} (fuel : nat)
    (rt : planWorkflowRuntime) (input : planWorkflowInput) (enabled n : Z) (paused : bool)
    (x y : Exec) (r : outcome RunPlanStatus) :
  plan_loop env fuel rt input enabled n paused x = (y, r) → r ≠ Diverge →
  rt_NexusNodeRuns rt = true →
  ∀ runID run, x_runs y !! runID = Some run →
    ∃ a, Exchange (CancelOperation (pnr_future run)) a ∈ x_log y.
Proof.
  intros Hy Hr Hrt. revert n paused x Hy. induction fuel as [|fuel IH]; intros n paused x; cbn [plan_loop].
  { by intros [= <- <-]. }
  rewrite W_bind_eq. unfold try.
  pose proof (sync_returns env enabled (spec_PlanID (pwi_Spec input))) as Hsync.
  pose proof (drain_returns env rt) as Hdrain.
  destruct (runPlanWorkflowIteration _ _ _ _ _ _ x) as [z [result|e|]].
  3: { by intros [= <- <-]. }
  all: rewrite W_bind_eq; specialize (Hsync z);
    destruct (sync_state _ _ _ z) as [z' o]; cbn in Hsync; subst o.
  - destruct (ir_Done result); [|apply IH]. rewrite W_bind_eq. specialize (Hdrain z').
    destruct (drainNexusNodeRuns env rt z') as [w o] eqn:Hw. cbn in Hdrain. subst o.
    intros [= <- <-]. by eapply drain_cancels.
  - rewrite W_bind_eq. specialize (Hdrain z').
    destruct (drainNexusNodeRuns env rt z') as [w o] eqn:Hw. cbn in Hdrain. subst o.
    intros [= <- <-]. by eapply drain_cancels.
Qed.

(** A plan that continues after three transitions, with nodes run through Nexus. *)
Definition in_flight : scenario := let b := base in {| b with sc_nexus := 1%Z |}.

Definition early_spec : RunPlanSpec :=
  let s := Sample.spec in
  let p := spec_Policy s in
  {| s with spec_Policy := {| p with pol_ContinueAsNewEvents := 3 |} |}.

Definition in_flight_rt : planWorkflowRuntime := {|
  rt_Scheduler := {| sched_Expressions := Some Sample.compiler |}; rt_MaxParallel := 32;
  rt_NexusPeers := None; rt_NexusEndpoint := "local"; rt_NexusNodeRuns := true |}.

Definition in_flight_start : Exec :=
  (@start_plan (scenario_env in_flight) sha texts (Ok Sample.compiler) 1 (WorkflowSample.input early_spec)
     (newPlanWorkflowSetup (scenario_env in_flight) (Some (WorkflowSample.input early_spec)) zero_Exec).1).1.

Lemma end_cancels_operations_witness :
  let run := @plan_loop (scenario_env in_flight) sha quoting merge_slice_sort texts boxes order 9
    in_flight_rt (WorkflowSample.input early_spec) 1 0 false in_flight_start in
  match run.2 with
  | Fail (ContinueAsNew next) => runningNodeCount (pwi_Status next) = 1%Z
  | _ => False
  end ∧
  ∃ operation a, Exchange (CancelOperation operation) a ∈ x_log run.1.
Proof.
  intros run. split; [vm_compute; reflexivity|].
  assert (bool_decide (is_Some (x_runs run.1 !! "run-a")) = true) as Hb by (vm_compute; reflexivity).
  apply bool_decide_eq_true_1 in Hb as [op Hop]. exists (pnr_future op).
  apply (@end_cancels_operations (scenario_env in_flight) sha quoting merge_slice_sort texts boxes order
    9 in_flight_rt (WorkflowSample.input early_spec) 1 0 false in_flight_start run.1 run.2
    (surjective_pairing run)) with "run-a".
  - assert (match run.2 with Diverge => false | _ => true end = true) as Hd by (vm_compute; reflexivity).
    intros Heq. rewrite Heq in Hd. discriminate Hd.
  - reflexivity.
  - exact Hop.
Defined.

(** ** A retry signal and the approval gate *)

(** A retry signal lifts a pause without a decision.  For a node whose retry is already
    scheduled, a retry signal records nothing and changes no state, yet it clears the
    pause of the workflow: a plan blocked at its approval gate goes on scheduling nodes
    while its status stays blocked and its gate undecided. *)
Theorem retry_signal_unpauses (env : Env) `{!Sha256, !GoQuote} (paused : bool)
    (nodes : gmap string PlanNodeSpec) (controls : gmap string (list string)) (signal : Signal)
    (x : Exec) (id : string) (n : PlanNodeStatus) :
  sig_Type signal = SignalPlanNodeRetry → PlanSignalNodeID (Some signal) = Ok id →
  NodeStatus (x_state x) id = Some n → ns_LifecycleState n = PlanNodeReady →
  (0 < ns_Attempts n)%Z →
  applyPlanSignal env paused nodes controls signal x =
  (x, Return {| sdr_Rejected := false; sdr_Paused := false; sdr_Progressed := true |}).
Proof.
  intros Ht Hid Hn Hr Ha. unfold applyPlanSignal. rewrite (bool_decide_eq_true_2 _ Ht).
  unfold retryPlanNodeFromSignal, applyManualNodeRetry. rewrite W_bind_eq, W_bind_eq. cbn [gets].
  assert (manualRetryAlreadyScheduled signal (x_state x) = true) as ->; [|done].
  unfold manualRetryAlreadyScheduled. rewrite Hid, Hn, (bool_decide_eq_true_2 _ Hr).
  by apply Z.ltb_lt.
Qed.

(** A blocked plan whose first node waits for its second attempt. *)
Definition waiting_state : State :=
  (run (NewState Sample.spec 1)
     [(1%Z, StateSample.event EventPlanStarted "" 1%Z);
      (2%Z, StateSample.event EventNodeStarted "a" 2%Z);
      (3%Z, StateSample.event EventNodeRetryScheduled "a" 3%Z);
      (4%Z, StateSample.event EventPlanBlocked "" 4%Z)]).1.

Definition waiting : Exec := let x := zero_Exec in {| x with x_spec := Sample.spec; x_state := waiting_state |}.

Definition retry_signal : Signal := {|
  sig_Type := SignalPlanNodeRetry; sig_ActorID := "operator"; sig_IdempotencyKey := "key";
  sig_Payload := Some {["node_id" := AString "a"]}; sig_SentAt := 0%Z |}.

Lemma retry_signal_unpauses_witness :
  st_LifecycleState (Status (x_state waiting)) = PlanLifecycleBlocked ∧
  @applyPlanSignal (scenario_env base) sha quoting true ∅ ∅ retry_signal waiting =
    (waiting, Return {| sdr_Rejected := false; sdr_Paused := false; sdr_Progressed := true |}).
Proof.
  split; [vm_compute; reflexivity|].
  assert (bool_decide (is_Some (NodeStatus (x_state waiting) "a")) = true) as Hb by (vm_compute; reflexivity).
  apply bool_decide_eq_true_1 in Hb as [n Hn].
  assert (bool_decide (from_option (λ n, ns_LifecycleState n = PlanNodeReady ∧ ns_Attempts n = 1%Z) False
    (NodeStatus (x_state waiting) "a")) = true) as Hs by (vm_compute; reflexivity).
  apply bool_decide_eq_true_1 in Hs. rewrite Hn in Hs. destruct Hs as [Hr Ha].
  apply (@retry_signal_unpauses (scenario_env base) sha quoting true ∅ ∅ retry_signal waiting "a" n).
  - reflexivity.
  - vm_compute. reflexivity.
  - exact Hn.
  - exact Hr.
  - rewrite Ha. reflexivity.
Defined.

(** ** Attempts and input resolution *)

Lemma emit_applies (env : Env) `{!Sha256} ev x y a :
  emit env ev x = (y, Return a) →
  ∃ now at_ previous, Apply now (x_state x) (stamp ev at_ previous) = (x_state y, Ok tt).
Proof. intros He%applyPlanStateEvent_result. inversion He; subst. eauto. Qed.

(** The node is in the reducer with this many attempts. *)
Definition attempted (id : string) (attempts : Z) (x : Exec) : Prop :=
  ∃ n, NodeStatus (x_state x) id = Some n ∧ ns_Attempts n = attempts.

Lemma emit_touch_attempted (env : Env) `{!Sha256} ev x y a attempts :
  touchNodeEvent (se_Kind ev) = true → emit env ev x = (y, Return a) →
  attempted (se_NodeID ev) attempts x → attempted (se_NodeID ev) attempts y.
Proof.
  intros Ht (now & at_ & previous & Ha)%emit_applies (n & Hn & <-).
  destruct (Apply_touch _ _ (stamp ev at_ previous) _ n Ha) as (t & [Hy|Hy]); [exact Ht|exact Hn|..];
    by eexists.
Qed.

Lemma emit_ready_attempted (env : Env) `{!Sha256} id x y a attempts :
  emit env (node_event EventNodeReady id "" "") x = (y, Return a) →
  attempted id attempts x → attempted id attempts y.
Proof.
  intros (now & at_ & previous & Ha)%emit_applies (n & Hn & <-).
  apply (Apply_transition _ _ _ _ PlanNodeReady n) in Ha; [|done|exact Hn]. by eexists.
Qed.

Lemma retry_attempted (env : Env) `{!Sha256} ev x y a n :
  se_Kind ev = EventNodeRetryScheduled → (1 ≤ ns_Attempts n)%Z →
  emit env ev x = (y, Return a) → NodeStatus (x_state x) (se_NodeID ev) = Some n →
  ∃ n', NodeStatus (x_state y) (se_NodeID ev) = Some n' ∧ ns_LifecycleState n' = PlanNodeReady ∧
        ns_Attempts n' = ns_Attempts n.
Proof.
  intros Hk Hpos (now & at_ & previous & Ha)%emit_applies Hn.
  apply (Apply_retry _ _ (stamp ev at_ previous) _ n) in Ha; [|exact Hk|exact Hn].
  eexists. split_and!; [done|done|]. cbn.
  destruct (Z.eqb_spec (ns_Attempts n) 0); [lia|done].
Qed.

(** A failed input resolution uses up no attempt.  When the inputs of a node that has been
    attempted before cannot be resolved and its policy allows another attempt, starting
    it leaves it ready with the number of attempts it had.  The failure is not counted, so
    such a node is tried again without end, whatever its [MaxAttempts]. *)
Theorem resolution_failure_uncounted (env : Env)
    `{!Sha256, !GoQuote, !SliceSort, !ErrorText, !Boxing, !MapOrder} (rt : planWorkflowRuntime)
    (node : PlanNodeSpec) (edges : list PlanEdgeSpec) (x y : Exec) (n : PlanNodeStatus) :
  (∀ past i, is_ok (respond env past (ResolvePlanNodeInput i)) = false) →
  NodeStatus (x_state x) (node_NodeID node) = Some n →
  (1 ≤ ns_Attempts n < maxNodeAttempts (node_Policy node))%Z →
  startPlanNode env rt node edges x = (y, Return tt) →
  ∃ n', NodeStatus (x_state y) (node_NodeID node) = Some n' ∧
    ns_LifecycleState n' = PlanNodeReady ∧ ns_Attempts n' = ns_Attempts n.
Proof.
  intros Henv Hn Hmax. unfold startPlanNode.
  assert (attempted (node_NodeID node) (ns_Attempts n) x) as Hx by (by exists n).
  intros (? & validation & [= <- <-] & Hy)%W_bind_Return.
  apply W_bind_Return in Hy as (x1 & [] & E1 & Hy).
  assert (attempted (node_NodeID node) (ns_Attempts n) x1) as Hx1.
  { destruct (_ !! _) as [capability|]; [|by injection E1 as <-].
    eapply (emit_touch_attempted env {| zero_StateEvent with se_Kind := EventCapabilitySelected;
      se_NodeID := node_NodeID node; se_Capability := capability |}); [done|exact E1|exact Hx]. }
  apply W_bind_Return in Hy as (x2 & [] & E2 & Hy). eapply emit_ready_attempted in Hx1 as Hx2; [|exact E2].
  apply W_bind_Return in Hy as (? & state & [= <- <-] & Hy).
  apply W_bind_Return in Hy as (x3 & r & Hr & Hy). unfold resolvePlanNodeAttempt in Hr.
  apply W_bind_Return in Hr as (? & spec & [= <- <-] & Hr).
  apply W_bind_Return in Hr as (z & node' & Hnode & Hr).
  destruct (nodeForAttempt _ _ _) as [node''|] eqn:Hfor; [|done]. injection Hnode as <- <-.
  apply nodeForAttempt_id in Hfor as [Hid Hpol].
  apply W_bind_Return in Hr as (? & state & [= <- <-] & Hr).
  apply W_bind_Return in Hr as (x4 & resolved & Hp & Hr). rewrite perform_eq in Hp.
  injection Hp as <- Hp. destruct resolved as [out|e].
  { match type of Hp with respond _ _ (ResolvePlanNodeInput ?i) = _ => specialize (Henv (x_log x2) i) end.
    by rewrite Hp in Henv. }
  apply W_bind_Return in Hr as (x5 & [] & Hf & [= <- <-]). injection Hy as <-.
  destruct Hx2 as (n2 & Hn2 & Ha2). unfold applyNodeAttemptFailure in Hf.
  apply W_bind_Return in Hf as (? & state & [= <- <-] & Hf).
  change (x_state (logged env _ x2)) with (x_state x2) in Hf. rewrite Hid, Hn2, Ha2, Hpol in Hf.
  rewrite (proj2 (Z.leb_gt (ns_Attempts n) 0)), (proj2 (Z.ltb_lt _ _)) in Hf by lia.
  eapply retry_attempted in Hf as (n' & ? & ? & ?); [|reflexivity| |exact Hn2]; [|lia].
  exists n'. split_and!; [done|done|]. congruence.
Qed.

Definition unresolvable_env : Env := {|
  respond past c := match c return answer c with
    | ResolvePlanNodeInput _ => Err (Errorf ErrOther "artifact missing")
    | c => respond (scenario_env base) past c
    end |}.

Definition patient_node : PlanNodeSpec :=
  let n := Sample.node "a" "" in
  let p := node_Policy n in
  {| n with node_Policy := {| p with npol_MaxAttempts := 3 |} |}.

Lemma resolution_failure_uncounted_witness :
  let run := @startPlanNode unresolvable_env sha texts in_flight_rt patient_node [] waiting in
  ∃ n', NodeStatus (x_state run.1) "a" = Some n' ∧ ns_LifecycleState n' = PlanNodeReady ∧
    ns_Attempts n' = 1%Z.
Proof.
  intros run.
  assert (match NodeStatus (x_state waiting) "a" with
          | Some n => ns_Attempts n =? 1
          | None => false
          end = true)%Z as Hs by (vm_compute; reflexivity).
  destruct (NodeStatus (x_state waiting) "a") as [n|] eqn:Hn; [|discriminate Hs].
  apply Z.eqb_eq in Hs.
  assert (match run.2 with Return _ => true | _ => false end = true) as Hr by (vm_compute; reflexivity).
  destruct run.2 as [[]|e|] eqn:Hrun; [|discriminate Hr..]. rewrite <-Hs.
  apply (@resolution_failure_uncounted unresolvable_env sha quoting merge_slice_sort texts boxes order
    in_flight_rt patient_node [] waiting run.1 n).
  - reflexivity.
  - exact Hn.
  - rewrite Hs. split; [discriminate|reflexivity].
  - rewrite <-Hrun. exact (surjective_pairing run).
Defined.

(** ** Budgets *)

(** A run that finishes at once and costs more than the plan may spend. *)
Definition spending : scenario :=
  let b := base in {| b with sc_start := λ node, Ok (succeeded (run_RunID (node_Run node))) |}.

Definition poor_spec : RunPlanSpec :=
  let s := Sample.spec in
  let p := spec_Policy s in
  {| s with spec_Policy := {| p with pol_BudgetCents := 5 |} |}.

(** The budget guard runs after each start and again after polling, without a look at the
    lifecycle: the plan is failed twice, with two events. *)
Example budget_fails_twice :
  filter (λ t, t = "plan.failed/") (persisted_types (execute spending poor_spec 40).1) =
  ["plan.failed/"; "plan.failed/"].
Proof. vm_compute. reflexivity. Qed.
