(* ===== verification/Runtime.v ===== *)
(** * The plan runtime and its command outbox

    agentos/temporal/plan_runtime.go (the facade behind the public API),
    plan_command_reconciler.go (redelivery of commands), plan_stream.go (event
    subscriptions), the configuration of plan_command_recovery_loop.go, and
    TaskQueues.Validate of internal/agentfw/config.

    A request reads and writes the stores, starts or signals a workflow, and does so
    while other requests, other replicas and the workflows themselves run.  A method is
    therefore a program: a tree whose nodes are single calls to the outside ([op]) and
    whose branches are the replies ([prog]).  [does] says what a call may do to the
    world; a step of the system is one call of one program.  The stores are an interface
    ([ControlStore]); the Temporal client may fail at any call, after or before it took
    effect.  Pointers to components are booleans that say whether they are configured. *)

From S2P Require Import Prelude Types Scope Validator State Json Idempotency Artifacts PlanStore.
From S2P Require Import Temporal Workflow.

(** ** External events *)

Record ExternalPlanEvent := {
  xe_Event : Event;
  xe_Plan : PlanRef;
  xe_NodeID : string;
}.

Definition ToEvent (event : PlanEvent) : Event :=
  let payload := default ∅ (ev_Payload event) in
  let payload := <["plan_id" := AString (ev_PlanID event)]> payload in
  let payload := <["account_id" := AString (ev_AccountID event)]> payload in
  let payload := <["project_id" := AString (ev_ProjectID event)]> payload in
  let payload := if ev_NodeID event != "" then <["node_id" := AString (ev_NodeID event)]> payload
                 else payload in
  {| e_EventID := ev_EventID event; e_EventType := ev_EventType event; e_RunID := ev_RunID event;
     e_ProcessID := ev_ProcessID event; e_ThreadID := ev_ThreadID event;
     e_Sequence := ev_Sequence event; e_Timestamp := ev_Timestamp event;
     e_Source := ev_Source event; e_Payload := Some payload |}.

(** ** Task queues *)

Record TaskQueues := {
  tqs_PlanControl : string;
  tqs_PlanActivity : string;
  tqs_ProcessControl : string;
  tqs_ProcessActivity : string;
  tqs_NativeControl : string;
  tqs_NativeLLM : string;
  tqs_NativeTool : string;
  tqs_Stream : string;
  tqs_Nexus : string;
}.

Definition queue_names (q : TaskQueues) : list string :=
  [tqs_PlanControl q; tqs_PlanActivity q; tqs_ProcessControl q; tqs_ProcessActivity q;
   tqs_NativeControl q; tqs_NativeLLM q; tqs_NativeTool q; tqs_Stream q; tqs_Nexus q].

(** Every queue is named and no name is used twice. *)
Definition validateTaskQueues (q : option TaskQueues) : result unit :=
  match q with
  | None => Err (Errorf ErrOther "task queues are required")
  | Some q =>
      foldM (λ seen value,
        fail_if (value == "") (Errorf ErrOther "%s task queue is required");;
        fail_if (bool_decide (value ∈ seen))
          (Errorf ErrOther "%s and %s use the same task queue %q");;
        Ok (value :: seen)) [] (queue_names q);;
      Ok tt
  end.

(** ** Calls *)

(** What is handed to the Temporal client. *)
Inductive message :=
  | MSignal (signal : Signal)
  | MControl (control : ControlRequest).

Record StartWorkflowOptions := {
  swo_ID : string;
  swo_TaskQueue : string;
  swo_SearchRunID : string;
  swo_SearchLifecycle : string;
}.

Inductive start_answer :=
  | WorkflowStarted
  | WorkflowAlreadyStarted
  | WorkflowStartFailed (e : go_error).

Inductive op :=
  | OpNow
  | OpCreatePlan (spec : RunPlanSpec) (status : RunPlanStatus)
  | OpGetPlanByRef (ref : PlanRef)
  | OpRecordPlanCommand (command : PlanCommandRecord)
  | OpMarkPlanCommandDelivered (ref : PlanCommandRef)
  | OpMarkPlanCommandFailed (ref : PlanCommandRef) (reason : string)
  | OpListRecoverablePlanCommands (scope : PlanCommandScope)
  | OpRecordAudit (record : AuditRecord)
  | OpListAuditRecords (scope : option PlanAuditScope)
  | OpAppendPlanEvent (event : PlanEvent) (key : string)
  | OpListPlanEvents (scope : PlanStreamScope) (limit : Z)
  | OpArtifactList (scope : PlanArtifactScope)
  | OpArtifactGet (scope : PlanArtifactScope)
  | OpPublishPlanEvent (event : PlanEvent)
  | OpSubscribePlanEvents (scope : PlanStreamScope)
  | OpCloseSubscription
  | OpExecuteWorkflow (options : StartWorkflowOptions) (workflow : string)
      (input : planWorkflowInput)
  | OpSignalWorkflow (workflowID signalName : string) (payload : message).

Definition reply (o : op) : Type :=
  match o with
  | OpNow => time
  | OpCreatePlan _ _ => result (RunPlanStatus * bool)
  | OpGetPlanByRef _ => result (option (RunPlanSpec * RunPlanStatus))
  | OpRecordPlanCommand _ => result (PlanCommandRecord * bool)
  | OpMarkPlanCommandDelivered _ | OpMarkPlanCommandFailed _ _ => result PlanCommandRecord
  | OpListRecoverablePlanCommands _ => result (list PlanCommandRecord)
  | OpRecordAudit _ => result (AuditRecord * bool)
  | OpListAuditRecords _ => result (list PlanAuditRecord)
  | OpAppendPlanEvent _ _ => result PlanEvent
  | OpListPlanEvents _ _ => result (list PlanEvent)
  | OpArtifactList _ => result (list ArtifactRef)
  | OpArtifactGet _ => result (ArtifactRef * artifact_payload)
  | OpPublishPlanEvent _ | OpSubscribePlanEvents _ | OpCloseSubscription
  | OpSignalWorkflow _ _ _ => result unit
  | OpExecuteWorkflow _ _ _ => start_answer
  end.

(** ** Programs *)

Inductive prog (A : Type) :=
  | Ret (a : A)
  | Do (o : op) (k : reply o → prog A).
Arguments Ret {_} _.
Arguments Do {_} _ _.

Fixpoint prog_bind {A B} (f : A → prog B) (m : prog A) : prog B :=
  match m with
  | Ret a => f a
  | Do o k => Do o (λ r, prog_bind f (k r))
  end.

(** A method of the runtime returns a value or an error; [errors.Join] is [Join]. *)
Definition Rt (A : Type) : Type := prog (A + werror).

#[global] Instance Rt_ret : MRet Rt := λ A a, Ret (inl a).
#[global] Instance Rt_bind : MBind Rt := λ A B f m,
  prog_bind (λ r, match r with inl a => f a | inr e => Ret (inr e) end) m.

Definition throw_rt {A} (e : werror) : Rt A := Ret (inr e).
Definition lift_rt {A} (r : result A) : Rt A :=
  match r with Ok a => Ret (inl a) | Err e => Ret (inr (Plain e)) end.

(** [v, err := f(...)] with the error handled by the caller. *)
Definition try_rt {A} (m : Rt A) : Rt (A + werror) := prog_bind (λ r, Ret (inl r)) m.

(** A call whose error is returned as it is. *)
Definition call_rt {A} (m : prog (result A)) : Rt A := prog_bind lift_rt m.
Definition ask (o : op) : prog (reply o) := Do o Ret.
Definition answer_rt (o : op) : Rt (reply o) := Do o (λ r, Ret (inl r)).

Definition error_of {A} (r : A + werror) : option werror :=
  match r with inl _ => None | inr e => Some e end.

(** ** The runtime *)

Record planRuntime := {
  rt_temporalClient : bool;
  rt_planEvents : bool;
  rt_planLiveEvents : bool;
  rt_planPublisher : bool;
  rt_planIndex : bool;
  rt_artifactStore : bool;
  rt_commandStore : bool;
  rt_auditStore : bool;
  rt_taskQueue : string;
  rt_taskQueues : option TaskQueues;
  rt_nexusEndpoint : string;
  rt_nexusPeers : go_map string;
}.

Definition errPlanRuntimePlanIndexRequired : go_error :=
  Errorf ErrOther "agentos temporal plan runtime: plan index is not configured".
Definition errPlanRuntimePlanEventStoreRequired : go_error :=
  Errorf ErrOther "agentos temporal plan runtime: plan event store is not configured".
Definition errPlanRuntimePlanPublisherRequired : go_error :=
  Errorf ErrOther "agentos temporal plan runtime: plan event publisher is not configured".
Definition errPlanRuntimeArtifactStoreRequired : go_error :=
  Errorf ErrOther "agentos temporal plan runtime: artifact store is not configured".
Definition errPlanRuntimeCommandStoreRequired : go_error :=
  Errorf ErrOther "agentos temporal plan runtime: plan command store is not configured".
Definition errPlanRuntimeAuditStoreRequired : go_error :=
  Errorf ErrOther "agentos temporal plan runtime: audit store is not configured".
Definition errPlanRuntimeNotConfigured : go_error :=
  Errorf ErrOther "agentos temporal plan runtime: runtime is not configured".
Definition errPlanRuntimeTemporalClientNotConfigured : go_error :=
  Errorf ErrOther "agentos temporal plan runtime: temporal client is not configured".

Definition planCommandPayloadSignalType : string := "type".
Definition planCommandPayloadPayload : string := "payload".
Definition planCommandPayloadSentAt : string := "sent_at".
Definition planCommandPayloadOperation : string := "operation".
Definition planCommandPayloadMetadata : string := "metadata".
Definition planCommandPayloadRequestedAt : string := "requested_at".

Definition PlanSignalName : string := "agentos.plan.signal".
Definition PlanControlSignalName : string := "agentos.plan.control".

(** ** Records of a command *)

Definition planWorkflowID (planID : string) : string := "agentos-plan-" +:+ planID.

Definition zero_AuditRecord : AuditRecord := {|
  aud_AuditID := ""; aud_PlanID := ""; aud_AccountID := ""; aud_ProjectID := ""; aud_RunID := "";
  aud_NodeID := ""; aud_ActorID := ""; aud_Action := ""; aud_IdempotencyKey := "";
  aud_Payload := None; aud_CreatedAt := zero_time |}.

Definition zero_PlanCommandRecord : PlanCommandRecord := {|
  cmd_CommandID := ""; cmd_PlanID := ""; cmd_AccountID := ""; cmd_ProjectID := "";
  cmd_ActorID := ""; cmd_Action := ""; cmd_IdempotencyKey := ""; cmd_Payload := None;
  cmd_Status := ""; cmd_FailureReason := ""; cmd_CreatedAt := zero_time;
  cmd_UpdatedAt := zero_time |}.

Definition planStartAuditRecord (spec : RunPlanSpec) : AuditRecord := {| zero_AuditRecord with
  aud_PlanID := spec_PlanID spec;
  aud_AccountID := spec_AccountID spec;
  aud_ProjectID := spec_ProjectID spec;
  aud_Action := AuditActionPlanStart;
  aud_IdempotencyKey := spec_IdempotencyKey spec;
  aud_Payload := Some (list_to_map [
    ("thread_id", AString (spec_ThreadID spec));
    ("account_id", AString (spec_AccountID spec));
    ("project_id", AString (spec_ProjectID spec))]) |}.

Definition planSignalAuditRecord (ref : PlanRef) (signal : Signal) : AuditRecord :=
  let payload : gmap string any := list_to_map [
    (planCommandPayloadSignalType, AValue (VSignalType (sig_Type signal)));
    (planCommandPayloadPayload, any_of_map (sig_Payload signal))] in
  let payload := if negb (time_is_zero (sig_SentAt signal))
                 then <[planCommandPayloadSentAt := AValue (VTime (sig_SentAt signal))]> payload
                 else payload in
  {| zero_AuditRecord with
     aud_PlanID := pref_PlanID ref;
     aud_AccountID := pref_AccountID ref;
     aud_ProjectID := pref_ProjectID ref;
     aud_ActorID := sig_ActorID signal;
     aud_Action := AuditActionPlanSignal;
     aud_IdempotencyKey := sig_IdempotencyKey signal;
     aud_Payload := Some payload |}.

Definition planControlAuditRecord (ref : PlanRef) (control : ControlRequest) : AuditRecord :=
  let payload : gmap string any := list_to_map [
    (planCommandPayloadOperation, AValue (VControlOperation (ctl_Operation control)));
    (planCommandPayloadMetadata, AValue (VStringMap (ctl_Metadata control)))] in
  let payload := if negb (time_is_zero (ctl_RequestedAt control))
                 then <[planCommandPayloadRequestedAt := AValue (VTime (ctl_RequestedAt control))]>
                        payload
                 else payload in
  {| zero_AuditRecord with
     aud_PlanID := pref_PlanID ref;
     aud_AccountID := pref_AccountID ref;
     aud_ProjectID := pref_ProjectID ref;
     aud_ActorID := ctl_ActorID control;
     aud_Action := AuditActionPlanControl;
     aud_IdempotencyKey := ctl_IdempotencyKey control;
     aud_Payload := Some payload |}.

Definition planCommandFromAuditRecord (record : AuditRecord) : PlanCommandRecord :=
  {| zero_PlanCommandRecord with
     cmd_PlanID := aud_PlanID record;
     cmd_AccountID := aud_AccountID record;
     cmd_ProjectID := aud_ProjectID record;
     cmd_ActorID := aud_ActorID record;
     cmd_Action := aud_Action record;
     cmd_IdempotencyKey := aud_IdempotencyKey record;
     cmd_Payload := aud_Payload record;
     cmd_Status := PlanCommandPending |}.

Definition planRefFromCommand (command : PlanCommandRecord) : PlanRef := {|
  pref_PlanID := cmd_PlanID command;
  pref_AccountID := cmd_AccountID command;
  pref_ProjectID := cmd_ProjectID command |}.

(** ** Reading a command back *)

Definition err_payload_required : go_error :=
  Errorf ErrInvalidRunPlan "command payload.%s is required".
Definition err_payload_string : go_error :=
  Errorf ErrInvalidRunPlan "command payload.%s must be a string".
Definition err_payload_object : go_error :=
  Errorf ErrInvalidRunPlan "command payload.%s must be an object".
Definition err_payload_time : go_error :=
  Errorf ErrInvalidRunPlan "command payload.%s must be RFC3339 time".

Definition signalTypePayload (payload : go_map any) (key : string) : result string :=
  match map_get payload key with
  | None => Err err_payload_required
  | Some (AValue (VSignalType typed)) | Some (AString typed) => Ok typed
  | Some _ => Err err_payload_string
  end.

Definition controlOperationPayload (payload : go_map any) (key : string) : result string :=
  match map_get payload key with
  | None => Err err_payload_required
  | Some (AValue (VControlOperation typed)) | Some (AString typed) => Ok typed
  | Some _ => Err err_payload_string
  end.

Definition mapPayload (payload : go_map any) (key : string) : result (go_map any) :=
  match map_get payload key with
  | None | Some ANil => Ok (Some ∅)
  | Some (AMap m) => Ok (Some m)
  | Some ANilMap => Ok None
  | Some (AValue (VStringMap m)) => Ok (Some (AString <$> default ∅ m))
  | Some _ => Err err_payload_object
  end.

(** The strings of a map of dynamic values; [None] when one of them is no string. *)
Definition string_values (m : gmap string any) : option (gmap string string) :=
  map_fold (λ key value converted,
    converted ← converted;
    match value with
    | AString s => Some (<[key := s]> converted)
    | _ => None
    end) (Some ∅) m.

Definition stringMapPayload (payload : go_map any) (key : string) : result (go_map string) :=
  match map_get payload key with
  | None | Some ANil => Ok None
  | Some (AValue (VStringMap m)) => Ok m
  | Some ANilMap => Ok (Some ∅)
  | Some (AMap m) =>
      match string_values m with
      | Some converted => Ok (Some converted)
      | None => Err (Errorf ErrInvalidRunPlan "command payload.%s.%s must be a string")
      end
  | Some _ => Err err_payload_object
  end.

(** [time.Parse] of a string that is no RFC 3339 text fails; the texts of instants are
    [VTimeText]. *)
Definition optionalTimePayload (payload : go_map any) (key : string) : result time :=
  match map_get payload key with
  | None | Some ANil => Ok zero_time
  | Some (AValue (VTime t)) | Some (AValue (VTimeText t)) => Ok t
  | Some _ => Err err_payload_time
  end.

Definition signalFromPlanCommand (command : PlanCommandRecord) : result Signal :=
  signalType ← signalTypePayload (cmd_Payload command) planCommandPayloadSignalType;
  payload ← mapPayload (cmd_Payload command) planCommandPayloadPayload;
  sentAt ← optionalTimePayload (cmd_Payload command) planCommandPayloadSentAt;
  let signal := {| sig_Type := signalType;
                   sig_IdempotencyKey := cmd_IdempotencyKey command;
                   sig_ActorID := cmd_ActorID command;
                   sig_Payload := payload;
                   sig_SentAt := sentAt |} in
  ValidatePlanSignal (Some signal);;
  Ok signal.

Definition controlFromPlanCommand (command : PlanCommandRecord) : result ControlRequest :=
  operation ← controlOperationPayload (cmd_Payload command) planCommandPayloadOperation;
  metadata ← stringMapPayload (cmd_Payload command) planCommandPayloadMetadata;
  requestedAt ← optionalTimePayload (cmd_Payload command) planCommandPayloadRequestedAt;
  let control := {| ctl_Operation := operation;
                    ctl_IdempotencyKey := cmd_IdempotencyKey command;
                    ctl_RequestedAt := requestedAt;
                    ctl_ActorID := cmd_ActorID command;
                    ctl_Metadata := metadata |} in
  ValidateControlRequest (Some control);;
  fail_if (ctl_ActorID control == "")
    (Errorf ErrInvalidControlOperation "control actor id is required");;
  Ok control.

Definition commandDeliveryPayload (command : PlanCommandRecord) :
    result (string * message * AuditRecord) :=
  if cmd_Action command == AuditActionPlanSignal then
    signal ← signalFromPlanCommand command;
    Ok (PlanSignalName, MSignal signal,
        planSignalAuditRecord (planRefFromCommand command) signal)
  else if cmd_Action command == AuditActionPlanControl then
    control ← controlFromPlanCommand command;
    Ok (PlanControlSignalName, MControl control,
        planControlAuditRecord (planRefFromCommand command) control)
  else if cmd_Action command == AuditActionPlanStart then
    Err (Errorf ErrInvalidRunPlan "plan start is handled by deliverPlanStart")
  else Err (Errorf ErrInvalidRunPlan "unsupported plan command action %q").

(** ** Methods *)

Section methods.
Context `{!ErrorText}.

Definition validatePlanInput (r : option planRuntime) (spec : option RunPlanSpec) :
    result (planRuntime * RunPlanSpec) :=
  match r, spec with
  | None, _ => Err errPlanRuntimeNotConfigured
  | Some _, None => Err (Errorf ErrInvalidRunPlan "run plan spec is required")
  | Some r, Some spec =>
      fail_if (spec_PlanID spec == "") (Errorf ErrInvalidRunPlan "plan id is required");;
      fail_if (spec_AccountID spec == "") (Errorf ErrInvalidPlanScope "account id is required");;
      fail_if (spec_ProjectID spec == "") (Errorf ErrInvalidPlanScope "project id is required");;
      fail_if (spec_IdempotencyKey spec == "")
        (Errorf ErrInvalidRunPlan "plan idempotency key is required");;
      fail_if (negb (rt_planIndex r)) errPlanRuntimePlanIndexRequired;;
      fail_if (negb (rt_commandStore r)) errPlanRuntimeCommandStoreRequired;;
      fail_if (negb (rt_auditStore r)) errPlanRuntimeAuditStoreRequired;;
      Ok (r, spec)
  end.

Definition authorizePlan (r : option planRuntime) (ref : PlanRef) :
    Rt (RunPlanSpec * RunPlanStatus) :=
  lift_rt (ValidatePlanRef ref);;
  match r with
  | None => lift_rt (Err errPlanRuntimeNotConfigured)
  | Some r =>
      lift_rt (fail_if (negb (rt_planIndex r)) errPlanRuntimePlanIndexRequired);;
      found ← call_rt (ask (OpGetPlanByRef ref));
      match found with
      | None => lift_rt (Err err_plan_route)
      | Some plan => mret plan
      end
  end.

Definition recordPlanAudit (r : planRuntime) (record : AuditRecord) : Rt unit :=
  lift_rt (fail_if (negb (rt_auditStore r)) errPlanRuntimeAuditStoreRequired);;
  call_rt (ask (OpRecordAudit record));;
  mret tt.

Definition recordPlanCommand (r : planRuntime) (command : PlanCommandRecord) :
    Rt PlanCommandRecord :=
  lift_rt (fail_if (negb (rt_commandStore r)) errPlanRuntimeCommandStoreRequired);;
  stored ← call_rt (ask (OpRecordPlanCommand command));
  mret stored.1.

Definition markPlanCommandDelivered (r : planRuntime) (command : PlanCommandRecord) : Rt unit :=
  lift_rt (fail_if (negb (rt_commandStore r)) errPlanRuntimeCommandStoreRequired);;
  call_rt (ask (OpMarkPlanCommandDelivered (PlanCommandRefFromRecord command)));;
  mret tt.

Definition markPlanCommandFailed (r : planRuntime) (command : PlanCommandRecord) (cause : werror) :
    Rt unit :=
  lift_rt (fail_if (negb (rt_commandStore r)) errPlanRuntimeCommandStoreRequired);;
  call_rt (ask (OpMarkPlanCommandFailed (PlanCommandRefFromRecord command) (Error cause)));;
  mret tt.

(** [markErr := mark(cause); return errors.Join(err, markErr)] *)
Definition fail_marked {A} (mark : Rt unit) (err : werror) : Rt A :=
  markErr ← try_rt mark;
  throw_rt (Join err (error_of markErr)).

Definition executePlanWorkflow (temporalClient : bool) (taskQueue : string)
    (taskQueues : option TaskQueues) (nexusEndpoint : string) (nexusPeers : go_map string)
    (spec : RunPlanSpec) : Rt unit :=
  lift_rt (fail_if (negb temporalClient) errPlanRuntimeTemporalClientNotConfigured);;
  lift_rt (validateTaskQueues taskQueues);;
  let options := {| swo_ID := planWorkflowID (spec_PlanID spec);
                    swo_TaskQueue := taskQueue;
                    swo_SearchRunID := spec_PlanID spec;
                    swo_SearchLifecycle := "running" |} in
  let input := {| pwi_Spec := spec;
                  pwi_Status := zero_RunPlanStatus;
                  pwi_TaskQueues := {| tq_PlanActivity :=
                    match taskQueues with Some q => tqs_PlanActivity q | None => "" end |};
                  pwi_NexusEndpoint := nexusEndpoint;
                  pwi_NexusPeers := nexusPeers;
                  pwi_WorkflowVersion := currentPlanWorkflowVersion;
                  pwi_Continued := false;
                  pwi_ContinuationCount := 0; pwi_IterationCount := 0; pwi_ExpansionCount := 0;
                  pwi_ProcessedControls := []; pwi_ProcessedSignals := [] |} in
  answer ← answer_rt (OpExecuteWorkflow options PlanWorkflowName input);
  match answer with
  | WorkflowStarted | WorkflowAlreadyStarted => mret tt
  | WorkflowStartFailed e =>
      throw_rt (Plain (wrap_error "agentos temporal plan runtime - start plan workflow: %w" e))
  end.

(** The clones of the request are copies. *)
Definition StartPlan (r : option planRuntime) (spec : option RunPlanSpec) : Rt RunPlanStatus :=
  '(r, prepared) ← lift_rt (validatePlanInput r spec);
  now ← answer_rt OpNow;
  '(status, created) ← call_rt (ask (OpCreatePlan prepared (Status (NewState prepared now))));
  if negb created && (st_LifecycleState status != PlanLifecyclePending) then mret status else
  let record := planStartAuditRecord prepared in
  command ← recordPlanCommand r (planCommandFromAuditRecord record);
  if cmd_Status command == PlanCommandDelivered then (recordPlanAudit r record;; mret status)
  else
  executed ← try_rt (executePlanWorkflow (rt_temporalClient r) (rt_taskQueue r) (rt_taskQueues r)
                       (rt_nexusEndpoint r) (rt_nexusPeers r) prepared);
  match executed with
  | inr err => fail_marked (markPlanCommandFailed r command err) err
  | inl _ =>
      recordPlanAudit r record;;
      markPlanCommandDelivered r command;;
      mret status
  end.

Definition StatusPlan (r : option planRuntime) (ref : PlanRef) : Rt RunPlanStatus :=
  plan ← authorizePlan r ref;
  mret plan.2.

(** The delivery both [SignalPlan] and [ControlPlan] make: the message goes to the plan's
    workflow, and a failure is noted on the command. *)
Definition deliver_message (r : planRuntime) (planID signalName format : string)
    (payload : message) (command : PlanCommandRecord) : Rt unit :=
  if negb (rt_temporalClient r) then
    let err := Plain errPlanRuntimeTemporalClientNotConfigured in
    fail_marked (markPlanCommandFailed r command err) err
  else
  answer ← answer_rt (OpSignalWorkflow (planWorkflowID planID) signalName payload);
  match answer with
  | Ok _ => mret tt
  | Err e => fail_marked (markPlanCommandFailed r command (Plain e)) (Plain (wrap_error format e))
  end.

(** The nil receiver was refused by [authorizePlan]. *)
Definition SignalPlan (r : option planRuntime) (ref : PlanRef) (signal : option Signal) : Rt unit :=
  lift_rt (ValidatePlanRef ref);;
  lift_rt (ValidatePlanSignal signal);;
  authorizePlan r ref;;
  match r, signal with
  | Some r, Some prepared =>
      let record := planSignalAuditRecord ref prepared in
      command ← recordPlanCommand r (planCommandFromAuditRecord record);
      if cmd_Status command == PlanCommandDelivered then recordPlanAudit r record else
      deliver_message r (pref_PlanID ref) PlanSignalName
        "agentos temporal plan runtime - signal plan workflow: %w" (MSignal prepared) command;;
      recordPlanAudit r record;;
      markPlanCommandDelivered r command
  | _, _ => throw_rt Panic
  end.

Definition validateControlPlanRequest (r : option planRuntime) (ref : PlanRef)
    (control : option ControlRequest) : Rt unit :=
  lift_rt (ValidatePlanRef ref);;
  lift_rt (ValidateControlRequest control);;
  match control with
  | None => throw_rt Panic
  | Some control =>
      lift_rt (fail_if (ctl_IdempotencyKey control == "")
        (Errorf ErrInvalidControlOperation "control idempotency key is required"));;
      lift_rt (fail_if (ctl_ActorID control == "")
        (Errorf ErrInvalidControlOperation "control actor id is required"));;
      authorizePlan r ref;;
      mret tt
  end.

Definition ControlPlan (r : option planRuntime) (ref : PlanRef) (control : option ControlRequest) :
    Rt unit :=
  validateControlPlanRequest r ref control;;
  match r, control with
  | Some r, Some prepared =>
      let record := planControlAuditRecord ref prepared in
      command ← recordPlanCommand r (planCommandFromAuditRecord record);
      if cmd_Status command == PlanCommandDelivered then recordPlanAudit r record else
      deliver_message r (pref_PlanID ref) PlanControlSignalName
        "agentos temporal plan runtime - control plan workflow: %w" (MControl prepared) command;;
      recordPlanAudit r record;;
      markPlanCommandDelivered r command
  | _, _ => throw_rt Panic
  end.

(** ** External events *)

Definition validateExternalPlanEvent (incoming : option ExternalPlanEvent) :
    result ExternalPlanEvent :=
  match incoming with
  | None => Err (Errorf ErrInvalidPlanEvent "external plan event is required")
  | Some incoming =>
      let event := xe_Event incoming in
      ValidatePlanRef (xe_Plan incoming);;
      fail_if (xe_NodeID incoming == "")
        (Errorf ErrInvalidPlanEvent "external plan event node id is required");;
      fail_if (e_EventID event == "")
        (Errorf ErrInvalidPlanEvent "external plan event id is required");;
      fail_if (e_EventType event == "")
        (Errorf ErrInvalidPlanEvent "external plan event type is required");;
      fail_if (e_RunID event == "")
        (Errorf ErrInvalidPlanEvent "external plan event run id is required");;
      fail_if (e_Source event == "")
        (Errorf ErrInvalidPlanEvent "external plan event source is required");;
      fail_if (time_is_zero (e_Timestamp event))
        (Errorf ErrInvalidPlanEvent "external plan event timestamp is required");;
      fail_if (e_Sequence event <=? 0)%Z
        (Errorf ErrInvalidPlanEvent "external plan event sequence must be positive");;
      Ok incoming
  end.

Definition validateExternalPlanNode (spec : RunPlanSpec) (incoming : ExternalPlanEvent) :
    result unit :=
  match list_find (λ node, node_NodeID node = xe_NodeID incoming) (spec_Nodes spec) with
  | None => Err (Errorf ErrInvalidPlanEvent "external event node %q is not in plan %q")
  | Some (_, node) =>
      fail_if (run_RunID (node_Run node) != e_RunID (xe_Event incoming))
        (Errorf ErrInvalidPlanEvent "external event run %q does not match node %q run %q")
  end.

(** The stored event: its identity and sequence are left to the store. *)
Definition external_plan_event (incoming : ExternalPlanEvent) : PlanEvent :=
  let event := xe_Event incoming in
  {| ev_EventID := ""; ev_EventType := e_EventType event; ev_RunID := e_RunID event;
     ev_ProcessID := e_ProcessID event; ev_ThreadID := e_ThreadID event; ev_Sequence := 0;
     ev_Timestamp := e_Timestamp event; ev_Source := e_Source event;
     ev_Payload := e_Payload event;
     ev_PlanID := pref_PlanID (xe_Plan incoming);
     ev_AccountID := pref_AccountID (xe_Plan incoming);
     ev_ProjectID := pref_ProjectID (xe_Plan incoming);
     ev_NodeID := xe_NodeID incoming;
     ev_ExternalEventID := e_EventID event |}.

Definition IngestExternalPlanEvent (r : option planRuntime) (incoming : option ExternalPlanEvent) :
    Rt PlanEvent :=
  match r with
  | None => lift_rt (Err errPlanRuntimeNotConfigured)
  | Some rt =>
      lift_rt (fail_if (negb (rt_planEvents rt)) errPlanRuntimePlanEventStoreRequired);;
      lift_rt (fail_if (negb (rt_planPublisher rt)) errPlanRuntimePlanPublisherRequired);;
      incoming ← lift_rt (validateExternalPlanEvent incoming);
      plan ← authorizePlan r (xe_Plan incoming);
      lift_rt (validateExternalPlanNode plan.1 incoming);;
      stored ← call_rt (ask (OpAppendPlanEvent (external_plan_event incoming)
                               (e_EventID (xe_Event incoming))));
      published ← answer_rt (OpPublishPlanEvent stored);
      match published with
      | Ok _ => mret stored
      | Err e =>
          throw_rt (Plain (wrap_error
            "agentos temporal plan runtime: publish ingested event: %w" e))
      end
  end.

(** ** Reads *)

Definition authorizePlanScope (r : option planRuntime) (planID accountID projectID : string) :
    Rt unit :=
  authorizePlan r {| pref_PlanID := planID; pref_AccountID := accountID;
                     pref_ProjectID := projectID |};;
  mret tt.

Definition planEventStreamScope (scope : PlanEventScope) : PlanStreamScope := {|
  ss_PlanID := es_PlanID scope; ss_AccountID := es_AccountID scope;
  ss_ProjectID := es_ProjectID scope; ss_NodeID := es_NodeID scope; ss_RunID := es_RunID scope;
  ss_AfterSequence := es_AfterSequence scope |}.

Definition ListPlanEventsOf (r : option planRuntime) (scope : option PlanEventScope) :
    Rt (list PlanEvent) :=
  match r with
  | None => lift_rt (Err errPlanRuntimeNotConfigured)
  | Some rt =>
      lift_rt (fail_if (negb (rt_planEvents rt)) errPlanRuntimePlanEventStoreRequired);;
      lift_rt (ValidatePlanEventScope scope);;
      match scope with
      | None => throw_rt Panic
      | Some scope =>
          authorizePlanScope r (es_PlanID scope) (es_AccountID scope) (es_ProjectID scope);;
          call_rt (ask (OpListPlanEvents (planEventStreamScope scope) (es_Limit scope)))
      end
  end.

Definition ListPlanAudits (r : option planRuntime) (scope : option PlanAuditScope) :
    Rt (list PlanAuditRecord) :=
  match r with
  | None => lift_rt (Err errPlanRuntimeNotConfigured)
  | Some rt =>
      lift_rt (fail_if (negb (rt_auditStore rt)) errPlanRuntimeAuditStoreRequired);;
      lift_rt (ValidatePlanAuditScope scope);;
      match scope with
      | None => throw_rt Panic
      | Some s =>
          authorizePlanScope r (aus_PlanID s) (aus_AccountID s) (aus_ProjectID s);;
          call_rt (ask (OpListAuditRecords scope))
      end
  end.

Definition authorizePlanArtifactScope (r : option planRuntime) (scope : option PlanArtifactScope) :
    Rt unit :=
  lift_rt (ValidatePlanArtifactScope scope);;
  match scope with
  | None => throw_rt Panic
  | Some s => authorizePlanScope r (ars_PlanID s) (ars_AccountID s) (ars_ProjectID s)
  end.

Definition ListPlanArtifacts (r : option planRuntime) (scope : option PlanArtifactScope) :
    Rt (list ArtifactRef) :=
  match r with
  | None => lift_rt (Err errPlanRuntimeNotConfigured)
  | Some rt =>
      lift_rt (fail_if (negb (rt_artifactStore rt)) errPlanRuntimeArtifactStoreRequired);;
      authorizePlanArtifactScope r scope;;
      match scope with
      | None => throw_rt Panic
      | Some s => call_rt (ask (OpArtifactList s))
      end
  end.

Definition GetPlanArtifact (r : option planRuntime) (scope : option PlanArtifactScope) :
    Rt (ArtifactRef * artifact_payload) :=
  match r with
  | None => lift_rt (Err errPlanRuntimeNotConfigured)
  | Some rt =>
      lift_rt (fail_if (negb (rt_artifactStore rt)) errPlanRuntimeArtifactStoreRequired);;
      match scope with
      | None => lift_rt (Err (Errorf ErrInvalidPlanScope "plan artifact scope is required"))
      | Some s =>
          lift_rt (fail_if (ars_ArtifactID s == "")
            (Errorf ErrInvalidArtifact "artifact id is required"));;
          authorizePlanArtifactScope r scope;;
          call_rt (ask (OpArtifactGet s))
      end
  end.

(** ** Redelivery *)

Record planCommandReconciler := {
  rc_temporalClient : bool;
  rc_taskQueues : option TaskQueues;
  rc_nexusEndpoint : string;
  rc_nexusPeers : go_map string;
  rc_commandStore : bool;
  rc_auditStore : bool;
  rc_planIndex : bool;
}.

Definition newPlanCommandReconciler (r : planRuntime) : planCommandReconciler := {|
  rc_temporalClient := rt_temporalClient r; rc_taskQueues := rt_taskQueues r;
  rc_nexusEndpoint := rt_nexusEndpoint r; rc_nexusPeers := rt_nexusPeers r;
  rc_commandStore := rt_commandStore r; rc_auditStore := rt_auditStore r;
  rc_planIndex := rt_planIndex r |}.

Definition mark_failed_call (command : PlanCommandRecord) (cause : werror) : Rt unit :=
  call_rt (ask (OpMarkPlanCommandFailed (PlanCommandRefFromRecord command) (Error cause)));;
  mret tt.

Definition markCommandFailed {A} (command : PlanCommandRecord) (cause : werror) : Rt A :=
  fail_marked (mark_failed_call command cause) cause.

(** The audit record of a delivery, then the delivered mark. *)
Definition complete_delivery (command : PlanCommandRecord) (record : AuditRecord) : Rt unit :=
  call_rt (ask (OpRecordAudit record));;
  call_rt (ask (OpMarkPlanCommandDelivered (PlanCommandRefFromRecord command)));;
  mret tt.

Definition deliverPlanStart (rc : planCommandReconciler) (command : PlanCommandRecord) : Rt unit :=
  found ← answer_rt (OpGetPlanByRef (planRefFromCommand command));
  match found with
  | Err e => markCommandFailed command (Plain e)
  | Ok None => markCommandFailed command (Plain err_plan_route)
  | Ok (Some (spec, _)) =>
      if cmd_IdempotencyKey command != spec_IdempotencyKey spec then
        markCommandFailed command (Plain (Errorf ErrInvalidRunPlan
          "plan.start command idempotency key does not match plan start request"))
      else
      match rc_taskQueues rc with
      | None => throw_rt Panic
      | Some queues =>
          executed ← try_rt (executePlanWorkflow (rc_temporalClient rc) (tqs_PlanControl queues)
                               (rc_taskQueues rc) (rc_nexusEndpoint rc) (rc_nexusPeers rc) spec);
          match executed with
          | inr err => markCommandFailed command err
          | inl _ => complete_delivery command (planStartAuditRecord spec)
          end
      end
  end.

Definition deliver (rc : planCommandReconciler) (command : PlanCommandRecord) : Rt unit :=
  if cmd_Status command == PlanCommandDelivered then mret tt
  else if cmd_Action command == AuditActionPlanStart then deliverPlanStart rc command
  else
  match commandDeliveryPayload command with
  | Err e => markCommandFailed command (Plain e)
  | Ok (signalName, payload, auditRecord) =>
      answer ← answer_rt (OpSignalWorkflow (planWorkflowID (cmd_PlanID command)) signalName payload);
      match answer with
      | Err e =>
          fail_marked (mark_failed_call command (Plain e))
            (Plain (wrap_error
               "agentos temporal plan command reconciler - signal workflow: %w" e))
      | Ok _ => complete_delivery command auditRecord
      end
  end.

Record PlanCommandRecoveryResult := { pcr_Scanned : Z; pcr_Delivered : Z; pcr_Failed : Z }.

(** The loop of [Recover]: a command that fails does not stop the pass. *)
Fixpoint deliver_all (rc : planCommandReconciler) (commands : list PlanCommandRecord)
    (result : PlanCommandRecoveryResult) (errs : list werror) :
    Rt (PlanCommandRecoveryResult * list werror) :=
  match commands with
  | [] => mret (result, errs)
  | command :: commands =>
      delivered ← try_rt (deliver rc command);
      match delivered with
      | inr err =>
          deliver_all rc commands {| result with pcr_Failed := pcr_Failed result + 1 |}
            (errs ++ [err])
      | inl _ =>
          deliver_all rc commands {| result with pcr_Delivered := pcr_Delivered result + 1 |} errs
      end
  end.

(** [errors.Join(errs...)] is the list of errors. *)
Definition Recover (rc : planCommandReconciler) (limit : Z) :
    Rt (PlanCommandRecoveryResult * list werror) :=
  lift_rt (fail_if (negb (rc_temporalClient rc)) errPlanRuntimeTemporalClientNotConfigured);;
  lift_rt (fail_if (negb (rc_commandStore rc)) errPlanRuntimeCommandStoreRequired);;
  lift_rt (fail_if (negb (rc_auditStore rc)) errPlanRuntimeAuditStoreRequired);;
  lift_rt (fail_if (negb (rc_planIndex rc)) errPlanRuntimePlanIndexRequired);;
  commands ← call_rt (ask (OpListRecoverablePlanCommands {|
    cmds_PlanID := ""; cmds_AccountID := ""; cmds_ProjectID := ""; cmds_Action := "";
    cmds_Statuses := []; cmds_Limit := limit |}));
  deliver_all rc commands
    {| pcr_Scanned := Z.of_nat (length commands); pcr_Delivered := 0; pcr_Failed := 0 |} [].

Definition RecoverPlanCommands (r : option planRuntime) (limit : Z) :
    Rt (PlanCommandRecoveryResult * list werror) :=
  match r with
  | None => lift_rt (Err errPlanRuntimeNotConfigured)
  | Some r => Recover (newPlanCommandReconciler r) limit
  end.
End methods.

(** ** plan_stream.go: subscriptions *)

(** What [SubscribePlan] returns: a finished replay, or a replay followed by the live
    events after a sequence number. *)
Inductive Subscription :=
  | ReplaySubscription (planEvents : list PlanEvent)
  | ReplayThenLiveSubscription (scope : PlanStreamScope) (planEvents : list PlanEvent)
      (liveAfterSequence : Z).

Definition lastPlanEventSequence (afterSequence : Z) (planEvents : list PlanEvent) : Z :=
  foldl (λ last e, if (last <? ev_Sequence e)%Z then ev_Sequence e else last)
    afterSequence planEvents.

Definition planEventMatchesSubscriptionScope (event : PlanEvent) (scope : PlanStreamScope) : bool :=
  if ev_PlanID event != ss_PlanID scope then false
  else if ev_AccountID event != ss_AccountID scope then false
  else if ev_ProjectID event != ss_ProjectID scope then false
  else if (ss_NodeID scope != "") && (ev_NodeID event != ss_NodeID scope) then false
  else if (ss_RunID scope != "") && (ev_RunID event != ss_RunID scope) then false
  else true.

Definition after_sequence (scope : PlanStreamScope) (sequence : Z) : PlanStreamScope :=
  {| scope with ss_AfterSequence := sequence |}.

Definition SubscribePlan (r : option planRuntime) (scope : option PlanStreamScope) :
    Rt Subscription :=
  match r with
  | None => lift_rt (Err errPlanRuntimeNotConfigured)
  | Some rt =>
      lift_rt (fail_if (negb (rt_planEvents rt)) errPlanRuntimePlanEventStoreRequired);;
      lift_rt (ValidatePlanStreamScope scope);;
      match scope with
      | None => throw_rt Panic
      | Some scope =>
          authorizePlan r {| pref_PlanID := ss_PlanID scope; pref_AccountID := ss_AccountID scope;
                             pref_ProjectID := ss_ProjectID scope |};;
          events ← call_rt (ask (OpListPlanEvents scope 0));
          if negb (rt_planLiveEvents rt) then mret (ReplaySubscription events) else
          let replaySequence := lastPlanEventSequence (ss_AfterSequence scope) events in
          call_rt (ask (OpSubscribePlanEvents (after_sequence scope replaySequence)));;
          catchUp ← answer_rt (OpListPlanEvents (after_sequence scope replaySequence) 0);
          match catchUp with
          | Err e =>
              closed ← try_rt (call_rt (ask OpCloseSubscription));
              throw_rt (Join (Plain e) (error_of closed))
          | Ok catchUpEvents =>
              mret (ReplayThenLiveSubscription scope (events ++ catchUpEvents)
                      (lastPlanEventSequence replaySequence catchUpEvents))
          end
      end
  end.

(** The goroutine of [newPlanReplayThenLiveSubscriptionAfter]: the events still to replay,
    the live events received and not yet read, the events handed to the subscriber, and
    whether [Close] was called.  A closed subscription may stop at any time; a [select]
    with both cases ready may still send. *)
Record stream := {
  str_replay : list PlanEvent;
  str_live : list PlanEvent;
  str_out : list Event;
  str_done : bool;
}.

Definition forwarded (scope : PlanStreamScope) (liveAfterSequence : Z) (event : PlanEvent) : bool :=
  negb ((ev_Sequence event <=? liveAfterSequence)%Z ||
        negb (planEventMatchesSubscriptionScope event scope)).

(** A step with the live events it receives. *)
Inductive stream_step (scope : PlanStreamScope) (liveAfterSequence : Z) (s : stream) :
    list PlanEvent → stream → Prop :=
  | stream_replay e rest :
      str_replay s = e :: rest →
      stream_step scope liveAfterSequence s []
        {| s with str_replay := rest; str_out := str_out s ++ [ToEvent e] |}
  | stream_forward e rest :
      str_replay s = [] → str_live s = e :: rest → forwarded scope liveAfterSequence e = true →
      stream_step scope liveAfterSequence s []
        {| s with str_live := rest; str_out := str_out s ++ [ToEvent e] |}
  | stream_skip e rest :
      str_replay s = [] → str_live s = e :: rest → forwarded scope liveAfterSequence e = false →
      stream_step scope liveAfterSequence s [] {| s with str_live := rest |}
  | stream_receive e :
      stream_step scope liveAfterSequence s [e] {| s with str_live := str_live s ++ [e] |}
  | stream_close : stream_step scope liveAfterSequence s [] {| s with str_done := true |}.

(** The states of a subscription that has received the events [live]. *)
Inductive streamed (scope : PlanStreamScope) (liveAfterSequence : Z) (planEvents : list PlanEvent) :
    list PlanEvent → stream → Prop :=
  | streamed_new :
      streamed scope liveAfterSequence planEvents []
        {| str_replay := planEvents; str_live := []; str_out := []; str_done := false |}
  | streamed_step live s received s' :
      streamed scope liveAfterSequence planEvents live s →
      stream_step scope liveAfterSequence s received s' →
      streamed scope liveAfterSequence planEvents (live ++ received) s'.

(** ** plan_command_recovery_loop.go: configuration *)

Record PlanCommandRecoveryLoopConfig := {
  plc_Interval : Z;
  plc_Limit : Z;
  plc_RecoverImmediately : bool;
}.

Definition defaultPlanCommandRecoveryInterval : Z := 60 * second.
Definition defaultPlanCommandRecoveryLimit : Z := 100.

Definition normalizePlanCommandRecoveryLoopConfig (cfg : PlanCommandRecoveryLoopConfig) :
    PlanCommandRecoveryLoopConfig := {| cfg with
  plc_Interval := if (plc_Interval cfg <=? 0)%Z then defaultPlanCommandRecoveryInterval
                  else plc_Interval cfg;
  plc_Limit := if (plc_Limit cfg <=? 0)%Z then defaultPlanCommandRecoveryLimit
               else plc_Limit cfg |}.

(** ** The world *)

(** [agentosplan.PlanIndex], [PlanCommandStore], [AuditStore] and [PlanEventStore], which
    one store implements.  [cs_other] are its operations that requests of the runtime do
    not make: those of the workflows' activities and of the metric exporter. *)
Class ControlStore (S : Type) := {
  cs_create_plan : time → S → RunPlanSpec → RunPlanStatus → S * result (RunPlanStatus * bool);
  cs_get_plan : S → PlanRef → result (option (RunPlanSpec * RunPlanStatus));
  cs_record_command : time → S → PlanCommandRecord → S * result (PlanCommandRecord * bool);
  cs_mark_delivered : time → S → PlanCommandRef → S * result PlanCommandRecord;
  cs_mark_failed : time → S → PlanCommandRef → string → S * result PlanCommandRecord;
  cs_recoverable : S → PlanCommandScope → result (list PlanCommandRecord);
  cs_record_audit : time → S → AuditRecord → S * result (AuditRecord * bool);
  cs_audits : S → option PlanAuditScope → result (list PlanAuditRecord);
  cs_append_event : time → S → PlanEvent → string → S * result PlanEvent;
  cs_events : S → PlanStreamScope → Z → result (list PlanEvent);
  cs_other : S → S → Prop;
}.

(** What the Temporal service has received. *)
Inductive delivery :=
  | Started (workflowID : string) (input : planWorkflowInput)
  | Signaled (workflowID signalName : string) (payload : message).

Record World (S : Type) := MkWorld {
  w_store : S;
  w_artifacts : MemoryArtifactStore;
  w_sent : list delivery;
}.
Arguments MkWorld {_} _ _ _.
Arguments w_store {_} _.
Arguments w_artifacts {_} _.
Arguments w_sent {_} _.

Definition started (workflowID : string) (d : delivery) : Prop :=
  match d with Started id _ => id = workflowID | Signaled _ _ _ => False end.

Section world.
Context {S : Type} `{!ControlStore S}.

Definition with_store (w : World S) (s : S) : World S := MkWorld s (w_artifacts w) (w_sent w).
Definition send (w : World S) (d : delivery) : World S :=
  MkWorld (w_store w) (w_artifacts w) (w_sent w ++ [d]).

(** A write at some time of the clock. *)
Definition writes {R} (f : time → S → S * R) (w : World S) (r : R) (w' : World S) : Prop :=
  ∃ now, r = (f now (w_store w)).2 ∧ w' = with_store w (f now (w_store w)).1.

(** What a call may answer and do.  A call to the Temporal client may fail although the
    service has received it.  [ExecuteWorkflow] answers with the running execution of the
    same id when there is one. *)
Definition does (o : op) (w : World S) : reply o → World S → Prop :=
  match o with
  | OpNow => λ _ w', w' = w
  | OpCreatePlan spec status => writes (λ now s, cs_create_plan now s spec status) w
  | OpGetPlanByRef ref => λ r w', r = cs_get_plan (w_store w) ref ∧ w' = w
  | OpRecordPlanCommand command => writes (λ now s, cs_record_command now s command) w
  | OpMarkPlanCommandDelivered ref => writes (λ now s, cs_mark_delivered now s ref) w
  | OpMarkPlanCommandFailed ref reason => writes (λ now s, cs_mark_failed now s ref reason) w
  | OpListRecoverablePlanCommands scope => λ r w', r = cs_recoverable (w_store w) scope ∧ w' = w
  | OpRecordAudit record => writes (λ now s, cs_record_audit now s record) w
  | OpListAuditRecords scope => λ r w', r = cs_audits (w_store w) scope ∧ w' = w
  | OpAppendPlanEvent event key => writes (λ now s, cs_append_event now s event key) w
  | OpListPlanEvents scope limit => λ r w', r = cs_events (w_store w) scope limit ∧ w' = w
  | OpArtifactList scope => λ r w', r = List (w_artifacts w) scope ∧ w' = w
  | OpArtifactGet scope => λ r w', r = Get (w_artifacts w) scope ∧ w' = w
  | OpPublishPlanEvent _ | OpSubscribePlanEvents _ | OpCloseSubscription => λ _ w', w' = w
  | OpExecuteWorkflow options _ input => λ r w',
      match r with
      | WorkflowStarted =>
          w' = send w (Started (swo_ID options) input) ∨
          (Exists (started (swo_ID options)) (w_sent w) ∧ w' = w)
      | WorkflowAlreadyStarted => Exists (started (swo_ID options)) (w_sent w) ∧ w' = w
      | WorkflowStartFailed _ => w' = send w (Started (swo_ID options) input) ∨ w' = w
      end
  | OpSignalWorkflow id name payload => λ r w',
      match r with
      | Ok _ => w' = send w (Signaled id name payload)
      | Err _ => w' = send w (Signaled id name payload) ∨ w' = w
      end
  end.

(** One execution without failures and without interference: the client reaches the
    service, whose executions are all still open. *)
Definition wrote {R} (r : S * R) (w : World S) : R * World S := (r.2, with_store w r.1).

Definition reliable (now : time) (o : op) (w : World S) : reply o * World S :=
  match o with
  | OpNow => (now, w)
  | OpCreatePlan spec status => wrote (cs_create_plan now (w_store w) spec status) w
  | OpGetPlanByRef ref => (cs_get_plan (w_store w) ref, w)
  | OpRecordPlanCommand command => wrote (cs_record_command now (w_store w) command) w
  | OpMarkPlanCommandDelivered ref => wrote (cs_mark_delivered now (w_store w) ref) w
  | OpMarkPlanCommandFailed ref reason => wrote (cs_mark_failed now (w_store w) ref reason) w
  | OpListRecoverablePlanCommands scope => (cs_recoverable (w_store w) scope, w)
  | OpRecordAudit record => wrote (cs_record_audit now (w_store w) record) w
  | OpListAuditRecords scope => (cs_audits (w_store w) scope, w)
  | OpAppendPlanEvent event key => wrote (cs_append_event now (w_store w) event key) w
  | OpListPlanEvents scope limit => (cs_events (w_store w) scope limit, w)
  | OpArtifactList scope => (List (w_artifacts w) scope, w)
  | OpArtifactGet scope => (Get (w_artifacts w) scope, w)
  | OpPublishPlanEvent _ | OpSubscribePlanEvents _ | OpCloseSubscription => (Ok tt, w)
  | OpExecuteWorkflow options _ input => (WorkflowStarted, send w (Started (swo_ID options) input))
  | OpSignalWorkflow id name payload => (Ok tt, send w (Signaled id name payload))
  end.

Fixpoint run_reliable {A} (now : time) (p : prog A) (w : World S) : A * World S :=
  match p with
  | Ret a => (a, w)
  | Do o k => let r := reliable now o w in run_reliable now (k r.1) r.2
  end.

(** ** Requests and the system *)

Inductive request :=
  | StartRequest (spec : RunPlanSpec)
  | SignalRequest (ref : PlanRef) (signal : Signal)
  | ControlRequestOf (ref : PlanRef) (control : ControlRequest)
  | IngestRequest (incoming : ExternalPlanEvent)
  | SubscribeRequest (scope : PlanStreamScope)
  | RecoverRequest (limit : Z).

(** A reply of the API: whether the call succeeded. *)
Definition accepted {A} (m : Rt A) : prog bool :=
  prog_bind (λ r, Ret (match r with inl _ => true | inr _ => false end)) m.

Definition serve `{!ErrorText} (rt : planRuntime) (q : request) : prog bool :=
  match q with
  | StartRequest spec => accepted (StartPlan (Some rt) (Some spec))
  | SignalRequest ref signal => accepted (SignalPlan (Some rt) ref (Some signal))
  | ControlRequestOf ref control => accepted (ControlPlan (Some rt) ref (Some control))
  | IngestRequest incoming => accepted (IngestExternalPlanEvent (Some rt) (Some incoming))
  | SubscribeRequest scope => accepted (SubscribePlan (Some rt) (Some scope))
  | RecoverRequest limit => accepted (RecoverPlanCommands (Some rt) limit)
  end.

(** The requests being served, the requests answered, and the world. *)
Record system := MkSystem {
  sys_world : World S;
  sys_running : list (request * prog bool);
  sys_answered : list (request * bool);
}.

(** Requests arrive at any replica [rt] at any time; each step is one call of one
    request, an answer, or an operation of another part of the system.  A request may
    stay unfinished for ever: a replica that crashes makes no further calls. *)
Inductive system_step `{!ErrorText} (y : system) : system → Prop :=
  | system_arrive rt q :
      system_step y (MkSystem (sys_world y) (sys_running y ++ [(q, serve rt q)]) (sys_answered y))
  | system_call i q o k r w :
      sys_running y !! i = Some (q, Do o k) → does o (sys_world y) r w →
      system_step y (MkSystem w (<[i := (q, k r)]> (sys_running y)) (sys_answered y))
  | system_answer i q b :
      sys_running y !! i = Some (q, Ret b) →
      system_step y (MkSystem (sys_world y) (delete i (sys_running y))
                       (sys_answered y ++ [(q, b)]))
  | system_other s :
      cs_other (w_store (sys_world y)) s →
      system_step y (MkSystem (with_store (sys_world y) s) (sys_running y) (sys_answered y)).
End world.
Arguments system _ : clear implicits.

#[global] Instance memory_control_store `{!Sha256, !SliceSort} : ControlStore MemoryPlanStore := {|
  cs_create_plan now s spec status := CreatePlan now s (Some spec) (Some status);
  cs_get_plan := GetPlanByRef;
  cs_record_command now s command := RecordPlanCommand now s (Some command);
  cs_mark_delivered := MarkPlanCommandDelivered;
  cs_mark_failed := MarkPlanCommandFailed;
  cs_recoverable := ListRecoverablePlanCommands;
  cs_record_audit now s record := RecordAudit now s (Some record);
  cs_audits := ListAuditRecords;
  cs_append_event now s event key := AppendPlanEvent now s (Some event) key;
  cs_events := ListPlanEvents;
  cs_other s s' :=
    (∃ now snapshot, s' = (SavePlanState now s snapshot).1) ∨
    (∃ now snapshot event key, s' = (PersistPlanTransition now s snapshot event key).1) ∨
    (∃ now event key, s' = (AppendPlanEvent now s event key).1) ∨
    (∃ now checkpoint, s' = (SavePlanMetricCheckpoint now s checkpoint).1) |}.
