(* ===== verification/RuntimeSpec.v ===== *)
(** * Safety of the command outbox

    Requests run concurrently on any number of replicas, may crash between any two
    calls, and the Temporal client may fail.  The theorem of this file: in every
    reachable system a command that is marked delivered was really delivered, with the
    content of its durable record, a request that was answered with success has such
    a command, and a workflow was started only with a spec that the store had.

    The argument is rely-guarantee.  [wp p Q w] says that the program [p], from any world
    the others may turn [w] into, makes only justified calls and ends in [Q]; it is
    stable under the steps of the others by construction, so that a system is safe when
    each of its programs is.  The stores enter through the interface [OutboxLaws], which
    the in-memory store implements. *)

From S2P Require Import Prelude Types Scope Validator State Json Idempotency Artifacts PlanStore.
From S2P Require Import PlanStoreSpec Temporal Workflow Runtime.

(** ** What a record says *)

(** The content of a command: whose plan, who asked, what, under which key, and the
    encoded payload.  Records with the same content are replays of each other. *)
Definition audit_content (a : AuditRecord) : string * string * string * string * json :=
  (aud_PlanID a, aud_ActorID a, aud_Action a, aud_IdempotencyKey a,
   enc_map enc_any (normalizeAuditPayload (aud_Payload a))).

Definition command_content (c : PlanCommandRecord) : string * string * string * string * json :=
  audit_content (AuditRecordFromPlanCommand c).

#[global] Instance planWorkflowID_inj : Inj (=) (=) planWorkflowID.
Proof. intros x y Hxy. exact (inj (String.append "agentos-plan-") x y Hxy). Qed.

(** The same of the request to start a plan. *)
Definition start_content (spec : RunPlanSpec) : string * string * string * string * json :=
  audit_content (planStartAuditRecord spec).

Lemma start_content_same spec spec' :
  start_content spec = start_content spec' →
  spec_PlanID spec = spec_PlanID spec' ∧ spec_IdempotencyKey spec = spec_IdempotencyKey spec'.
Proof.
  intros Heq. split; [exact (f_equal (λ c, c.1.1.1.1) Heq)|exact (f_equal (λ c, c.1.2) Heq)].
Qed.

Lemma envelope_start spec spec' : envelope spec' = envelope spec → start_content spec' = start_content spec.
Proof.
  assert (∀ sp, start_content sp = start_content (envelope sp)) as Henv by by intros [].
  intros He. by rewrite Henv, He, <- Henv.
Qed.

Lemma requested_start spec t : start_content {| spec with spec_RequestedAt := t |} = start_content spec.
Proof. reflexivity. Qed.

#[local] Opaque start_content.

(** The audit record a delivery amounts to; of a start it is the one of the spec that the
    workflow was handed. *)
Definition announces (d : delivery) (r : AuditRecord) : Prop :=
  match d with
  | Started id input => id = planWorkflowID (spec_PlanID (pwi_Spec input)) ∧
      r = planStartAuditRecord (pwi_Spec input)
  | Signaled id name (MSignal signal) => ∃ ref, id = planWorkflowID (pref_PlanID ref) ∧
      name = PlanSignalName ∧ r = planSignalAuditRecord ref signal
  | Signaled id name (MControl control) => ∃ ref, id = planWorkflowID (pref_PlanID ref) ∧
      name = PlanControlSignalName ∧ r = planControlAuditRecord ref control
  end.

(** [d] is a delivery of the command [c]. *)
Definition carries (d : delivery) (c : PlanCommandRecord) : Prop :=
  ∃ r, announces d r ∧ audit_content r = command_content c.

Definition delivered (c : PlanCommandRecord) : Prop := cmd_Status c = PlanCommandDelivered.

Lemma command_later_content c c' : command_later c c' → command_content c' = command_content c.
Proof. intros [Hc _]. by rewrite Hc. Qed.

Lemma command_later_delivered c c' : command_later c c' → delivered c → delivered c'.
Proof. intros (_ & H & _). exact H. Qed.

(** ** The interface of the stores *)

(** Every operation of the store; all but one leave no new delivered command. *)
Inductive cs_step {S} `{!ControlStore S} (s : S) : bool → S → Prop :=
  | cs_step_create now spec status : cs_step s true (cs_create_plan now s spec status).1
  | cs_step_command now c : cs_step s true (cs_record_command now s c).1
  | cs_step_failed now ref reason : cs_step s true (cs_mark_failed now s ref reason).1
  | cs_step_audit now r : cs_step s true (cs_record_audit now s r).1
  | cs_step_append now e key : cs_step s true (cs_append_event now s e key).1
  | cs_step_delivered now ref : cs_step s false (cs_mark_delivered now s ref).1
  | cs_step_other s' : cs_other s s' → cs_step s true s'.

Class OutboxLaws (S : Type) `{!ControlStore S} := {
  ol_valid : S → Prop;
  ol_command : S → PlanCommandRef → option PlanCommandRecord;
  ol_audit : S → AuditRef → option AuditRecord;
  ol_plan : S → string → option RunPlanSpec;
  (* an invariant the operations keep *)
  ol_valid_step s q s' : ol_valid s → cs_step s q s' → ol_valid s';
  ol_audit_key s ref a : ol_valid s → ol_audit s ref = Some a → AuditRefFromRecord a = ref;
  ol_command_key s ref c :
    ol_valid s → ol_command s ref = Some c → PlanCommandRefFromRecord c = ref;
  (* the audits of a plan belong to one tenant *)
  ol_tenant s r1 r2 a1 a2 : ol_valid s → ol_audit s r1 = Some a1 → ol_audit s r2 = Some a2 →
    audr_PlanID r1 = audr_PlanID r2 →
    audr_AccountID r1 = audr_AccountID r2 ∧ audr_ProjectID r1 = audr_ProjectID r2;
  (* records stay *)
  ol_audit_step s q s' ref a :
    ol_valid s → cs_step s q s' → ol_audit s ref = Some a → ol_audit s' ref = Some a;
  ol_command_step s q s' ref c : ol_valid s → cs_step s q s' → ol_command s ref = Some c →
    ∃ c', ol_command s' ref = Some c' ∧ command_later c c';
  (* a command becomes delivered only by [cs_mark_delivered], against its audit *)
  ol_undelivered s s' ref c' : ol_valid s → cs_step s true s' → ol_command s' ref = Some c' →
    delivered c' → ∃ c, ol_command s ref = Some c ∧ delivered c;
  ol_mark s now ref ref' c' : ol_valid s →
    ol_command (cs_mark_delivered now s ref).1 ref' = Some c' → delivered c' →
    (∃ c, ol_command s ref' = Some c ∧ delivered c) ∨
    (ref' = ref ∧ ∃ a, ol_audit s (AuditRefFromRecord (AuditRecordFromPlanCommand c')) = Some a ∧
       audit_content a = command_content c');
  ol_mark_Ok s now ref c : ol_valid s → (cs_mark_delivered now s ref).2 = Ok c →
    ∃ c', ol_command (cs_mark_delivered now s ref).1 ref = Some c' ∧ delivered c';
  (* a recorded request is stored, or a replay of what is stored *)
  ol_record_audit s now r a new : ol_valid s → (cs_record_audit now s r).2 = Ok (a, new) →
    ol_audit (cs_record_audit now s r).1 (AuditRefFromRecord a) = Some a ∧
    audit_content a = audit_content r;
  ol_record_command s now c c' new : ol_valid s → (cs_record_command now s c).2 = Ok (c', new) →
    ol_command (cs_record_command now s c).1 (PlanCommandRefFromRecord c') = Some c' ∧
    command_content c' = command_content c;
  (* a plan stays, as the request it was created for *)
  ol_plan_step s q s' id spec : ol_valid s → cs_step s q s' → ol_plan s id = Some spec →
    ∃ spec', ol_plan s' id = Some spec' ∧ start_content spec' = start_content spec;
  ol_create s now spec status r : ol_valid s → (cs_create_plan now s spec status).2 = Ok r →
    ∃ spec', ol_plan (cs_create_plan now s spec status).1 (spec_PlanID spec) = Some spec' ∧
      start_content spec' = start_content spec;
  ol_get_plan s ref spec status : ol_valid s → cs_get_plan s ref = Ok (Some (spec, status)) →
    ol_plan s (pref_PlanID ref) = Some spec ∧ spec_PlanID spec = pref_PlanID ref;
}.

Section safety.
Context {S : Type} `{!ControlStore S, !OutboxLaws S, !ErrorText}.
Implicit Types (w : World S) (y : system S).

(** ** Evolution of the world *)

(** The store has the plan that [spec] asks for. *)
Definition planned (spec : RunPlanSpec) (s : S) : Prop :=
  ∃ spec', ol_plan s (spec_PlanID spec) = Some spec' ∧ start_content spec' = start_content spec.

(** A start that may be sent: for the workflow of its plan, which the store has. *)
Definition sendable (s : S) (d : delivery) : Prop :=
  match d with
  | Started id input => id = planWorkflowID (spec_PlanID (pwi_Spec input)) ∧ planned (pwi_Spec input) s
  | Signaled _ _ _ => True
  end.

Record valid w : Prop := {
  va_store : ol_valid (w_store w);
  va_sent : Forall (sendable (w_store w)) (w_sent w);
}.

(** What every program may rely on: nothing that was sent or recorded is lost. *)
Record later w w' : Prop := {
  lt_sent : w_sent w `prefix_of` w_sent w';
  lt_audit : ∀ ref a, ol_audit (w_store w) ref = Some a → ol_audit (w_store w') ref = Some a;
  lt_command : ∀ ref c, ol_command (w_store w) ref = Some c →
    ∃ c', ol_command (w_store w') ref = Some c' ∧ command_later c c';
  lt_plan : ∀ spec, planned spec (w_store w) → planned spec (w_store w');
}.

#[local] Instance later_preorder : PreOrder later.
Proof.
  split.
  - intros w. split; [done|done| |done]. intros ref c Hc. by exists c.
  - intros w1 w2 w3 A B. split.
    + etrans; [apply A|apply B].
    + intros ref a Ha. by apply B, A.
    + intros ref c (c2 & (c3 & ? & ?)%(lt_command _ _ B) & ?)%(lt_command _ _ A).
      exists c3. split; [done|by etrans].
    + intros spec Hs. by apply (lt_plan _ _ B), (lt_plan _ _ A).
Qed.

Lemma later_sent w w' d : later w w' → d ∈ w_sent w → d ∈ w_sent w'.
Proof. intros [[l ->] _ _ _] Hd. apply elem_of_app. by left. Qed.

Lemma later_send w d : later w (send w d).
Proof. split; [by apply prefix_app_r|done| |done]. intros ref c Hc. by exists c. Qed.

Lemma later_step w q s : valid w → cs_step (w_store w) q s → later w (with_store w s).
Proof.
  intros [Hv _] Hs. split; [done| | |].
  - intros ref a. by eapply ol_audit_step.
  - intros ref c. by eapply ol_command_step.
  - intros spec (spec1 & (spec2 & ? & ?)%(ol_plan_step _ _ _ _ _ Hv Hs) & ?). exists spec2. split; [done|congruence].
Qed.

Lemma sendable_later w w' d : later w w' → sendable (w_store w) d → sendable (w_store w') d.
Proof. intros Hl. destruct d as [id input|]; [|done]. intros [-> Hp]. split; [done|by apply Hl]. Qed.

Lemma valid_step w q s : valid w → cs_step (w_store w) q s → valid (with_store w s).
Proof.
  intros Hv Hs. split; [eapply ol_valid_step; [apply Hv|done]|].
  eapply Forall_impl; [apply Hv|]. intros d. by apply (sendable_later w (with_store w s)), (later_step _ q).
Qed.

(** The call hands [d] to the client. *)
Definition sends (o : op) (d : delivery) : Prop :=
  match o with
  | OpExecuteWorkflow options _ input => d = Started (swo_ID options) input
  | OpSignalWorkflow id name payload => d = Signaled id name payload
  | _ => False
  end.

(** The store operation of a call, if it writes. *)
Lemma does_cases o w r w' : does o w r w' →
  (w_store w' = w_store w ∧ w_artifacts w' = w_artifacts w ∧
   (w_sent w' = w_sent w ∨ ∃ d, w' = send w d ∧ sends o d)) ∨
  (∃ q s, cs_step (w_store w) q s ∧ w' = with_store w s ∧
     (q = true ∨ ∃ ref, o = OpMarkPlanCommandDelivered ref)).
Proof.
  intros Hd. destruct o; cbn in Hd; try unfold writes in Hd;
    lazymatch type of Hd with
    | ∃ _, _ => destruct Hd as (now & _ & ->); right; eexists _, _;
        split_and!; [constructor|done|by eauto]
    | _ ∧ _ => destruct Hd as [_ ->]; left; by auto
    | _ = _ => subst; left; by auto
    | _ => left; destruct r; destruct_or?; destruct_and?; subst w'; split_and!; try done;
        first [by left|right; eexists; by split]
    end.
Qed.

(** ** Justified programs *)

(** What a program must know before it marks the command [ref]: a delivery was made, and
    its audit is recorded under the same plan and key. *)
Definition justified (ref : PlanCommandRef) w : Prop :=
  ∃ d r ra a, d ∈ w_sent w ∧ announces d r ∧ ol_audit (w_store w) ra = Some a ∧
    audit_content a = audit_content r ∧
    aud_PlanID r = cmdr_PlanID ref ∧ aud_IdempotencyKey r = cmdr_IdempotencyKey ref.

Lemma justified_later ref w w' : later w w' → justified ref w → justified ref w'.
Proof.
  intros Hl (d & r & ra & a & Hd & Hr & Ha & Hrest). exists d, r, ra, a.
  split_and!; [by eapply later_sent|done|by apply Hl|apply Hrest..].
Qed.

Definition allowed (o : op) w : Prop :=
  match o with
  | OpMarkPlanCommandDelivered ref => justified ref w
  | OpExecuteWorkflow options _ input => sendable (w_store w) (Started (swo_ID options) input)
  | _ => True
  end.

Lemma does_later o w r w' : valid w → allowed o w → does o w r w' → valid w' ∧ later w w'.
Proof.
  intros Hv Ho Hd. destruct (does_cases _ _ _ _ Hd) as [(Hs & Ha & He)|(q & s & Hq & -> & _)].
  - destruct He as [He|(d & -> & Hsend)].
    + split; [split; rewrite ?Hs, ?He; apply Hv|]. split; [by rewrite He|by rewrite Hs| |by rewrite Hs].
      intros ref c Hc. exists c. by rewrite Hs.
    + split; [|apply later_send]. split; [apply Hv|]. apply Forall_app. split; [apply Hv|].
      repeat constructor. destruct o; try done; cbn in Hsend; by subst d.
  - split; [by eapply valid_step|by eapply later_step].
Qed.

Fixpoint wp {A} (p : prog A) (Q : A → World S → Prop) w : Prop :=
  match p with
  | Ret a => ∀ w', later w w' → valid w' → Q a w'
  | Do o k => ∀ w', later w w' → valid w' →
      allowed o w' ∧ ∀ r w2, does o w' r w2 → wp (k r) Q w2
  end.

Lemma wp_later {A} (p : prog A) Q w w' : later w w' → wp p Q w → wp p Q w'.
Proof. intros Hl. destruct p; cbn; intros Hp w2 Hl2; apply Hp; by etrans. Qed.

Lemma wp_mono {A} (p : prog A) Q Q' w : (∀ a w', Q a w' → Q' a w') → wp p Q w → wp p Q' w.
Proof.
  intros HQ. revert w. induction p as [a|o k IH]; cbn; intros w Hp; [by auto|].
  intros w' Hl Hv. destruct (Hp w' Hl Hv) as [Ha Hk]. by eauto.
Qed.

Lemma wp_bind {A B} (f : A → prog B) m Q w :
  wp m (λ a w', wp (f a) Q w') w → wp (prog_bind f m) Q w.
Proof.
  revert w. induction m as [a|o k IH]; cbn; intros w Hm.
  - destruct (f a) eqn:Hf; cbn; intros w' Hl Hv; specialize (Hm w' Hl Hv);
      cbn in Hm; by apply Hm.
  - intros w' Hl Hv. destruct (Hm w' Hl Hv) as [Ha Hk]. split; [done|].
    intros r w2 Hd. by apply IH, Hk.
Qed.

Lemma wp_ret {A} (a : A) Q w : (∀ w', later w w' → valid w' → Q a w') → wp (Ret a) Q w.
Proof. done. Qed.

(** A call that may be made at any time. *)
Lemma wp_call {A} o (k : reply o → prog A) Q w :
  (∀ w', allowed o w') →
  (∀ w1 r w2, later w w1 → valid w1 → does o w1 r w2 → valid w2 → later w w2 → wp (k r) Q w2) →
  wp (Do o k) Q w.
Proof.
  intros Ho Hk w1 Hl Hv. split; [done|]. intros r w2 Hd.
  destruct (does_later _ _ _ _ Hv (Ho w1) Hd) as [Hv2 Hl2]. eapply Hk; [done..|]. by etrans.
Qed.

Lemma wp_frame {A} (p : prog A) Q w :
  wp p Q w → wp p (λ a w', Q a w' ∧ later w w' ∧ valid w') w.
Proof.
  intros Hp. assert (∀ w0, later w0 w → wp p (λ a w', Q a w' ∧ later w0 w' ∧ valid w') w) as Hx;
    [|by apply Hx]. revert w Hp. induction p as [a|o k IH]; cbn; intros w Hp w0 Hw.
  - intros w' Hl Hv. split_and!; [by apply Hp|by etrans|done].
  - intros w' Hl Hv. destruct (Hp w' Hl Hv) as [Ha Hk]. split; [done|]. intros r w2 Hd.
    destruct (does_later _ _ _ _ Hv Ha Hd) as [_ Hl2]. apply IH; [by apply Hk|].
    etrans; [exact Hw|]. by etrans.
Qed.

(** The same for methods, with a postcondition for success. *)
Definition wpr {A} (m : Rt A) (G : A → World S → Prop) w : Prop :=
  wp m (λ r w', match r with inl a => G a w' | inr _ => True end) w.

Lemma wpr_bind {A B} (m : Rt A) (f : A → Rt B) G0 G w :
  wpr m G0 w → (∀ a w', later w w' → valid w' → G0 a w' → wpr (f a) G w') → wpr (m ≫= f) G w.
Proof.
  intros Hm Hf. apply wp_bind. eapply wp_mono; [|by apply wp_frame, Hm].
  intros [a|e] w' (Ha & Hl & Hv); [by apply Hf|]. by apply wp_ret.
Qed.

Lemma wpr_mono {A} (m : Rt A) (G G' : A → World S → Prop) w :
  (∀ a w', later w w' → valid w' → G a w' → G' a w') → wpr m G w → wpr m G' w.
Proof.
  intros HG Hm. eapply wp_mono; [|by apply wp_frame, Hm]. intros [a|e] w' (? & ? & ?); by auto.
Qed.

Lemma wpr_try {A B} (m : Rt A) (f : A + werror → Rt B) G0 G w :
  wpr m G0 w →
  (∀ r w', later w w' → valid w' → match r with inl a => G0 a w' | inr _ => True end →
     wpr (f r) G w') →
  wpr (try_rt m ≫= f) G w.
Proof.
  intros Hm Hf. eapply (wpr_bind _ _ (λ r w', match r with inl a => G0 a w' | inr _ => True end));
    [|done].
  apply wp_bind. revert w Hm Hf. induction m as [a|o k IH]; cbn; intros w Hm Hf.
  - intros w1 Hl Hv w2 Hl2 Hv2. apply Hm; [by etrans|done].
  - intros w1 Hl Hv. destruct (Hm w1 Hl Hv) as [Ha Hk]. split; [done|]. intros r w2 Hd.
    destruct (does_later _ _ _ _ Hv Ha Hd) as [_ Hl2]. apply IH; [by apply Hk|].
    intros r' w' Hl' Hv'. apply Hf; [|done]. by do 2 (etrans; [done|]).
Qed.

Lemma wpr_ret {A} (a : A) (G : A → World S → Prop) w :
  (∀ w', later w w' → valid w' → G a w') → wpr (mret a) G w.
Proof. done. Qed.

Lemma wpr_throw {A} e (G : A → World S → Prop) w : wpr (throw_rt e) G w.
Proof. by intros w' _ _. Qed.

Lemma wpr_lift {A} (r : result A) w : wpr (lift_rt r) (λ a _, r = Ok a) w.
Proof. by destruct r; intros w' _ _. Qed.

(** ** The parts of the methods *)

#[local] Arguments wp : simpl never.
#[local] Ltac wp_call_step := unfold wpr; cbn; apply wp_call; [done|].

Lemma wpr_authorizePlan r ref w : wpr (authorizePlan r ref) (λ _ _, True) w.
Proof.
  eapply wpr_bind; [apply wpr_lift|]. intros _ w1 _ _ _. destruct r as [r|]; [|apply wpr_throw].
  eapply wpr_bind; [apply wpr_lift|]. intros _ w2 _ _ _. wp_call_step.
  intros w3 [[p|]|e] w4 _ _ _ _ _; by apply wp_ret.
Qed.

(** The command that a request recorded, possibly updated since. *)
Definition recorded (c : PlanCommandRecord) w : Prop :=
  ∃ c', ol_command (w_store w) (PlanCommandRefFromRecord c) = Some c' ∧ command_later c c'.

Lemma recorded_later c w w' : later w w' → recorded c w → recorded c w'.
Proof.
  intros Hl (c1 & (c2 & H2 & ?)%(lt_command _ _ Hl) & ?). exists c2. split; [done|by etrans].
Qed.

Lemma wpr_recordPlanCommand r command w :
  wpr (recordPlanCommand r command)
    (λ c w', recorded c w' ∧ command_content c = command_content command) w.
Proof.
  eapply wpr_bind; [apply wpr_lift|]. intros _ w1 _ _ _. wp_call_step.
  intros w2 [[c new]|e] w3 _ Hv (now & Hr & ->) _ _; apply wp_ret; [|done]. intros w4 Hl _. cbn.
  destruct (ol_record_command _ _ _ _ _ (va_store _ Hv) (eq_sym Hr)) as [Hc Hcontent]. split; [|done].
  eapply recorded_later; [done|]. by exists c.
Qed.

Definition audited (r : AuditRecord) w : Prop :=
  ∃ ra a, ol_audit (w_store w) ra = Some a ∧ audit_content a = audit_content r.

Lemma audited_later r w w' : later w w' → audited r w → audited r w'.
Proof. intros Hl (ra & a & Ha & ?). exists ra, a. split; [by apply Hl|done]. Qed.

(** [RecordAudit], with or without the check of the runtime. *)
Lemma wpr_record_audit record w :
  wpr (call_rt (ask (OpRecordAudit record)) ≫= λ _, mret tt) (λ _ w', audited record w') w.
Proof.
  wp_call_step.
  intros w2 [[a new]|e] w3 _ Hv (now & Hr & ->) _ _; apply wp_ret; [|done]. intros w4 Hl _.
  destruct (ol_record_audit _ _ _ _ _ (va_store _ Hv) (eq_sym Hr)) as [Ha ?].
  eapply audited_later; [done|]. by exists (AuditRefFromRecord a), a.
Qed.

Lemma wpr_recordPlanAudit r record w : wpr (recordPlanAudit r record) (λ _ w', audited record w') w.
Proof.
  eapply wpr_bind; [apply wpr_lift|]. intros _ w1 _ _ _. apply wpr_record_audit.
Qed.

Definition completed (ref : PlanCommandRef) w : Prop :=
  ∃ c, ol_command (w_store w) ref = Some c ∧ delivered c.

Lemma completed_later ref w w' : later w w' → completed ref w → completed ref w'.
Proof.
  intros Hl (c & (c' & ? & ?)%(lt_command _ _ Hl) & ?). exists c'.
  split; [done|by eapply command_later_delivered].
Qed.

Lemma wpr_mark_delivered command w :
  justified (PlanCommandRefFromRecord command) w →
  wpr (call_rt (ask (OpMarkPlanCommandDelivered (PlanCommandRefFromRecord command)))
         ≫= λ _, mret tt) (λ _ w', completed (PlanCommandRefFromRecord command) w') w.
Proof.
  intros Hj w1 Hl Hv. split; [by eapply justified_later|].
  intros [c|e] w2 (now & Hr & ->); apply wp_ret; [|done]. intros w3 Hl3 _.
  eapply completed_later; [done|]. by apply (ol_mark_Ok _ _ _ c (va_store _ Hv)).
Qed.

Lemma wpr_markPlanCommandFailed r command cause w :
  wpr (markPlanCommandFailed r command cause) (λ _ _, True) w.
Proof.
  eapply wpr_bind; [apply wpr_lift|]. intros _ w1 _ _ _. wp_call_step.
  intros w2 [] w3 _ _ _ _ _; by apply wp_ret.
Qed.

Lemma wpr_fail_marked {A} mark err (G : A → World S → Prop) w :
  wpr mark (λ _ _, True) w → wpr (fail_marked mark err) G w.
Proof. intros Hm. eapply wpr_try; [done|]. intros *. intros _ _ _. apply wpr_throw. Qed.

Lemma wpr_markCommandFailed {A} command cause (G : A → World S → Prop) w :
  wpr (markCommandFailed command cause) G w.
Proof.
  apply wpr_fail_marked. wp_call_step.
  intros w2 [] w3 _ _ _ _ _; by apply wp_ret.
Qed.

(** A start of the workflow of [spec] was received, for the request that [spec] is. *)
Definition start_sent (spec : RunPlanSpec) w : Prop :=
  ∃ input, Started (planWorkflowID (spec_PlanID spec)) input ∈ w_sent w ∧
    announces (Started (planWorkflowID (spec_PlanID spec)) input) (planStartAuditRecord (pwi_Spec input)) ∧
    start_content (pwi_Spec input) = start_content spec.

Lemma planned_sent spec w :
  valid w → planned spec (w_store w) → Exists (started (planWorkflowID (spec_PlanID spec))) (w_sent w) →
  start_sent spec w.
Proof.
  intros Hv (spec1 & H1 & Hc1) (d & Hd & Hst)%Exists_exists.
  destruct d as [id input|]; [|destruct Hst]. cbn in Hst. subst id.
  destruct (proj1 (Forall_forall _ _) (va_sent _ Hv) _ Hd) as [Hid (spec2 & H2 & Hc2)].
  exists input. split_and!; [exact Hd|split; [exact Hid|reflexivity]|]. apply (inj planWorkflowID) in Hid. rewrite <- Hid in H2. congruence.
Qed.

Lemma wpr_executePlanWorkflow client queue queues endpoint peers spec w :
  planned spec (w_store w) →
  wpr (executePlanWorkflow client queue queues endpoint peers spec) (λ _ w', start_sent spec w') w.
Proof.
  intros Hp. eapply wpr_bind; [apply wpr_lift|]. intros _ w1 Hl1 _ _.
  eapply wpr_bind; [apply wpr_lift|]. intros _ w2 Hl2 _ _.
  assert (planned spec (w_store w2)) as Hp2 by by apply Hl2, Hl1.
  intros w3 Hl3 Hv3. pose proof (lt_plan _ _ Hl3 _ Hp2) as Hp3.
  refine ((λ Ho, conj Ho _) _); [|split; [reflexivity|exact Hp3]].
  intros answer w4 Hd. destruct (does_later _ _ _ _ Hv3 Ho Hd) as [Hv4 Hl4].
  assert (∀ w5, later w4 w5 → valid w5 → Exists (started (planWorkflowID (spec_PlanID spec))) (w_sent w4) →
    start_sent spec w5) as Hsent.
  { intros w5 Hl5 Hv5 (d & ? & ?)%Exists_exists. apply planned_sent; [done|by apply Hl5, Hl4|].
    apply Exists_exists. exists d. split; [by eapply later_sent|done]. }
  destruct answer as [| |e]; apply wp_ret; [| |done]; intros w5 Hl5 Hv5; apply Hsent; try done.
  - destruct Hd as [->|[? ->]]; [|done]. cbn. apply Exists_app. right. by constructor.
  - by destruct Hd as [? ->].
Qed.

Lemma wpr_deliver_message r planID name format payload command w :
  wpr (deliver_message r planID name format payload command)
    (λ _ w', Signaled (planWorkflowID planID) name payload ∈ w_sent w') w.
Proof.
  unfold deliver_message. destruct (negb _).
  { apply wpr_fail_marked, wpr_markPlanCommandFailed. }
  wp_call_step. intros w1 [[]|e] w2 _ _ Hd _ _.
  - apply wp_ret. intros w3 Hl _. eapply later_sent; [done|]. rewrite Hd. cbn.
    apply elem_of_app. right. by left.
  - apply wpr_fail_marked, wpr_markPlanCommandFailed.
Qed.

(** ** The methods *)

(** A delivered command with the content of [record]. *)
Definition fulfilled_record (record : AuditRecord) w : Prop :=
  ∃ ref c, ol_command (w_store w) ref = Some c ∧ delivered c ∧
    command_content c = audit_content record.

Lemma justified_delivery d record ref w :
  d ∈ w_sent w → announces d record → audited record w →
  aud_PlanID record = cmdr_PlanID ref → aud_IdempotencyKey record = cmdr_IdempotencyKey ref →
  justified ref w.
Proof. intros Hd Hr (ra & a & Ha & Hc) ??. by exists d, record, ra, a. Qed.

(** The start that was received may be of an earlier request for the same plan. *)
Lemma justified_start input spec ref w :
  Started (planWorkflowID (spec_PlanID spec)) input ∈ w_sent w →
  announces (Started (planWorkflowID (spec_PlanID spec)) input) (planStartAuditRecord (pwi_Spec input)) →
  start_content (pwi_Spec input) = start_content spec → audited (planStartAuditRecord spec) w →
  spec_PlanID spec = cmdr_PlanID ref → spec_IdempotencyKey spec = cmdr_IdempotencyKey ref → justified ref w.
Proof.
  intros Hd Hann Hsame (ra & a & Ha & Hc) Hp Hk. pose proof (start_content_same _ _ Hsame) as [Hid Hkey].
  apply (justified_delivery _ _ ref w Hd Hann); [exists ra, a; split; [exact Ha|by rewrite Hc]| |].
  - cbn. by rewrite Hid.
  - cbn. by rewrite Hkey.
Qed.

Lemma completed_record command record w :
  recorded command w → command_content command = audit_content record →
  completed (PlanCommandRefFromRecord command) w → fulfilled_record record w.
Proof.
  intros (c & Hc & Hl) Hcontent (c' & Hc' & Hd). rewrite Hc in Hc'. injection Hc' as <-.
  exists (PlanCommandRefFromRecord command), c. split_and!; [done..|].
  by rewrite (command_later_content _ _ Hl).
Qed.

(** The part [SignalPlan] and [ControlPlan] have in common: record, deliver, complete. *)
Lemma wpr_message r ref name format payload record w :
  announces (Signaled (planWorkflowID (pref_PlanID ref)) name payload) record →
  wpr (command ← recordPlanCommand r (planCommandFromAuditRecord record);
       if cmd_Status command == PlanCommandDelivered then recordPlanAudit r record else
       deliver_message r (pref_PlanID ref) name format payload command;;
       recordPlanAudit r record;;
       markPlanCommandDelivered r command) (λ _ w', fulfilled_record record w') w.
Proof.
  intros Ha. eapply wpr_bind; [apply wpr_recordPlanCommand|].
  intros command w1 _ _ [Hrec Hcontent]. change (command_content (planCommandFromAuditRecord record))
    with (audit_content record) in Hcontent.
  assert (aud_PlanID record = cmd_PlanID command ∧
          aud_IdempotencyKey record = cmd_IdempotencyKey command) as [Hp Hk].
  { unfold command_content, audit_content in Hcontent. cbn in Hcontent. by simplify_eq. }
  case_bool_decide as Hst.
  - eapply wpr_mono; [|apply wpr_recordPlanAudit]. intros _ w2 Hl _ _.
    eapply completed_record; [by eapply recorded_later|done|].
    destruct Hrec as (c & Hc & Hlater). eapply completed_later; [done|]. exists c.
    split; [done|by eapply command_later_delivered].
  - eapply wpr_bind; [apply wpr_deliver_message|]. intros [] w2 Hl2 _ Hsent.
    eapply wpr_bind; [apply wpr_recordPlanAudit|]. intros [] w3 Hl3 _ Haud.
    eapply wpr_bind; [apply wpr_lift|]. intros _ w4 Hl4 _ _.
    eapply wpr_mono; [|apply wpr_mark_delivered].
    + intros [] w5 Hl5 _ Hdone. eapply completed_record; [|done..].
      eapply recorded_later; [|done]. by repeat (etrans; [done|]).
    + eapply justified_delivery; [|done| |done|done].
      * do 2 (eapply later_sent; [done|]). done.
      * by eapply audited_later.
Qed.

Lemma wpr_SignalPlan rt ref signal w :
  wpr (SignalPlan (Some rt) ref (Some signal))
    (λ _ w', fulfilled_record (planSignalAuditRecord ref signal) w') w.
Proof.
  eapply wpr_bind; [apply wpr_lift|]. intros _ w1 _ _ _.
  eapply wpr_bind; [apply wpr_lift|]. intros _ w2 _ _ _.
  eapply wpr_bind; [apply wpr_authorizePlan|]. intros _ w3 _ _ _.
  apply wpr_message. by exists ref.
Qed.

Lemma wpr_ControlPlan rt ref control w :
  wpr (ControlPlan (Some rt) ref (Some control))
    (λ _ w', fulfilled_record (planControlAuditRecord ref control) w') w.
Proof.
  eapply (wpr_bind _ _ (λ _ _, True)).
  - eapply wpr_bind; [apply wpr_lift|]. intros _ w1 _ _ _.
    eapply wpr_bind; [apply wpr_lift|]. intros _ w2 _ _ _.
    eapply wpr_bind; [apply wpr_lift|]. intros _ w3 _ _ _.
    eapply wpr_bind; [apply wpr_lift|]. intros _ w4 _ _ _.
    eapply wpr_bind; [apply wpr_authorizePlan|]. by intros _ w5 _ _ _ w6 _ _.
  - intros _ w1 _ _ _. apply wpr_message. by exists ref.
Qed.

Lemma wpr_StartPlan rt spec w : wpr (StartPlan (Some rt) (Some spec)) (λ _ _, True) w.
Proof.
  eapply wpr_bind; [apply wpr_lift|]. intros [r prepared] w1 _ _ _.
  eapply (wpr_bind _ _ (λ _ _, True)). { wp_call_step. by intros * ? ? ? ? ? * ? ? . }
  intros now w2 _ _ _. eapply (wpr_bind _ _ (λ _ w', planned prepared (w_store w'))).
  { wp_call_step. intros w3 [answer|e] w4 _ [Hv _] (at_ & Hr & ->) _ _; apply wp_ret; [|done]. intros w5 Hl _.
    by eapply (lt_plan _ _ Hl), ol_create. }
  intros [status created] w3 _ _ Hplan. destruct (negb created && _); [by apply wpr_ret|].
  eapply wpr_bind; [apply wpr_recordPlanCommand|]. intros command w4 Hl4 _ [Hrec Hcontent].
  assert (spec_PlanID prepared = cmd_PlanID command ∧
          spec_IdempotencyKey prepared = cmd_IdempotencyKey command) as [Hp Hk].
  { unfold command_content, audit_content in Hcontent. cbn in Hcontent. by simplify_eq. }
  destruct (_ == PlanCommandDelivered).
  { eapply wpr_bind; [apply wpr_recordPlanAudit|]. intros. by apply wpr_ret. }
  eapply wpr_try; [apply wpr_executePlanWorkflow; by apply Hl4|]. intros [[]|e] w5 Hl5 _ Hst;
    [|by apply wpr_fail_marked, wpr_markPlanCommandFailed].
  eapply wpr_bind; [apply wpr_recordPlanAudit|]. intros [] w6 Hl6 _ Haud.
  destruct Hst as (input & Hd & Hann & Hsame).
  eapply (wpr_bind _ _ (λ _ _, True)); [|by intros; apply wpr_ret].
  eapply wpr_bind; [apply wpr_lift|]. intros _ w7 Hl7 _ _.
  eapply wpr_mono; [|apply wpr_mark_delivered]; [done|].
  eapply justified_start; [by do 2 (eapply later_sent; [done|])|done|done|by eapply audited_later|done..].
Qed.

Lemma wpr_complete_delivery command record w :
  (∀ w', later w w' → audited record w' → justified (PlanCommandRefFromRecord command) w') →
  wpr (complete_delivery command record) (λ _ _, True) w.
Proof.
  intros Hj. unfold complete_delivery. wp_call_step.
  intros w1 [[a new]|e] w2 Hl1 [Hv _] (now & Ha & ->) Hv2 Hl2; [|by apply wp_ret].
  destruct (ol_record_audit _ _ _ _ _ Hv (eq_sym Ha)) as [??].
  eapply wpr_mono; [|apply wpr_mark_delivered]; [done|].
  apply Hj; [done|]. by exists (AuditRefFromRecord a), a.
Qed.

Lemma commandDeliveryPayload_Ok c name payload record :
  commandDeliveryPayload c = Ok (name, payload, record) →
  announces (Signaled (planWorkflowID (cmd_PlanID c)) name payload) record ∧
  aud_PlanID record = cmd_PlanID c ∧ aud_IdempotencyKey record = cmd_IdempotencyKey c.
Proof.
  unfold commandDeliveryPayload. destruct (_ == AuditActionPlanSignal).
  { intros (signal & Hs & [= <- <- <-])%bind_Ok. split_and!; [by exists (planRefFromCommand c)|done|].
    unfold signalFromPlanCommand in Hs. do 3 apply bind_Ok in Hs as (? & _ & Hs).
    by apply bind_Ok in Hs as (? & _ & [= <-]). }
  destruct (_ == AuditActionPlanControl); [|by destruct (_ == _)].
  intros (control & Hs & [= <- <- <-])%bind_Ok. split_and!; [by exists (planRefFromCommand c)|done|].
  unfold controlFromPlanCommand in Hs. do 5 apply bind_Ok in Hs as (? & _ & Hs).
  by injection Hs as <-.
Qed.

Lemma wpr_deliver rc command w : wpr (deliver rc command) (λ _ _, True) w.
Proof.
  unfold deliver. destruct (_ == PlanCommandDelivered); [by apply wpr_ret|].
  destruct (_ == AuditActionPlanStart).
  - wp_call_step. intros w1 found w2 Hl1 Hv [Hfound ->] _ _.
    destruct found as [[[spec status]|]|e]; [|apply wpr_markCommandFailed..].
    symmetry in Hfound. apply (ol_get_plan _ _ _ _ (va_store _ Hv)) in Hfound as [Hstored Hfound]. cbn in Hfound.
    destruct (negb (cmd_IdempotencyKey _ == _)) eqn:Hkey; [apply wpr_markCommandFailed|].
    apply negb_false_iff, bool_decide_eq_true in Hkey.
    destruct (rc_taskQueues rc) as [queues|]; [|apply wpr_throw].
    eapply wpr_try; [apply wpr_executePlanWorkflow; exists spec; by rewrite Hfound|].
    intros [[]|err] w3 Hl3 _ Hst; [|apply wpr_markCommandFailed].
    destruct Hst as (input & Hd & Hann & Hsame). apply wpr_complete_delivery. intros w4 Hl4 Haud.
    eapply justified_start; [by eapply later_sent|done|done|done|done|done].
  - destruct (commandDeliveryPayload command) as [[[name payload] record]|e] eqn:Hp;
      [|apply wpr_markCommandFailed].
    apply commandDeliveryPayload_Ok in Hp as (Ha & Hplan & Hkey).
    wp_call_step. intros w1 [[]|e] w2 _ _ Hd _ _.
    + apply wpr_complete_delivery. intros w3 Hl3 Haud. eapply justified_delivery; [|done..].
      eapply later_sent; [done|]. rewrite Hd. cbn. apply elem_of_app. right. by left.
    + wp_call_step. intros w3 [] w4 _ _ _ _ _; by apply wp_ret.
Qed.

Lemma wpr_deliver_all rc commands result errs w :
  wpr (deliver_all rc commands result errs) (λ _ _, True) w.
Proof.
  revert result errs w. induction commands as [|c commands IH]; intros; [by apply wpr_ret|].
  eapply wpr_try; [apply wpr_deliver|]. intros [] w1 _ _ _; apply IH.
Qed.

Lemma wpr_RecoverPlanCommands rt limit w :
  wpr (RecoverPlanCommands (Some rt) limit) (λ _ _, True) w.
Proof.
  do 4 (eapply wpr_bind; [apply wpr_lift|]; intros _ ? _ _ _).
  wp_call_step. intros w1 [commands|e] w2 _ _ _ _ _; [|by apply wp_ret]. apply wpr_deliver_all.
Qed.

Lemma wpr_IngestExternalPlanEvent rt incoming w :
  wpr (IngestExternalPlanEvent (Some rt) incoming) (λ _ _, True) w.
Proof.
  do 2 (eapply wpr_bind; [apply wpr_lift|]; intros _ ? _ _ _).
  eapply wpr_bind; [apply wpr_lift|]. intros ev w1 _ _ _.
  eapply wpr_bind; [apply wpr_authorizePlan|]. intros plan w2 _ _ _.
  eapply wpr_bind; [apply wpr_lift|]. intros _ w3 _ _ _.
  wp_call_step. intros w4 [stored|e] w5 _ _ _ _ _; [|by apply wp_ret].
  wp_call_step. intros w6 [] w7 _ _ _ _ _; by apply wp_ret.
Qed.

Lemma wpr_SubscribePlan rt scope w : wpr (SubscribePlan (Some rt) (Some scope)) (λ _ _, True) w.
Proof.
  do 2 (eapply wpr_bind; [apply wpr_lift|]; intros _ ? _ _ _).
  eapply wpr_bind; [apply wpr_authorizePlan|]. intros plan w2 _ _ _.
  wp_call_step. intros w3 [events|e] w4 _ _ _ _ _; [|by apply wp_ret]. cbn.
  destruct (negb _); [by apply wp_ret|]. cbn. wp_call_step.
  intros w5 [[]|e] w6 _ _ _ _ _; [|by apply wp_ret]. wp_call_step.
  intros w7 [catchUp|e] w8 _ _ _ _ _; [by apply wp_ret|]. wp_call_step.
  intros w9 [] w10 _ _ _ _ _; by apply wp_ret.
Qed.

(** ** The system *)

(** What an answer "accepted" promises. *)
Definition fulfilled (q : request) w : Prop :=
  match q with
  | SignalRequest ref signal => fulfilled_record (planSignalAuditRecord ref signal) w
  | ControlRequestOf ref control => fulfilled_record (planControlAuditRecord ref control) w
  | _ => True
  end.

Lemma fulfilled_later q w w' : later w w' → fulfilled q w → fulfilled q w'.
Proof.
  intros Hl. assert (∀ r, fulfilled_record r w → fulfilled_record r w') as Hr; [|by destruct q; cbn; auto].
  intros r (ref & c & (c' & ? & Hc)%(lt_command _ _ Hl) & ? & ?). exists ref, c'.
  split_and!; [done|by eapply command_later_delivered|]. by rewrite (command_later_content _ _ Hc).
Qed.

Lemma wp_serve rt q w : wp (serve rt q) (λ b w', b = true → fulfilled q w') w.
Proof.
  assert (∀ A (m : Rt A) (G : World S → Prop), wpr m (λ _ w', G w') w →
            wp (accepted m) (λ b w', b = true → G w') w) as Hacc.
  { intros A m G Hm. apply wp_bind. unfold wpr in Hm.
    assert (wp m (λ r w', match r with inl _ => ∀ w2, later w' w2 → valid w2 → G w2
                                     | inr _ => True end) w) as Hm'.
    { clear -Hm. revert w Hm. induction m as [r|o k IH]; intros w Hm w1 Hl1 Hv1.
      - destruct r; [|done]. intros w2 Hl2 Hv2. apply Hm; [by etrans|done].
      - destruct (Hm w1 Hl1 Hv1) as [Ha Hk]. split; [done|]. intros r w2 Hd. by apply IH, Hk. }
    eapply wp_mono; [|exact Hm']. intros [a|e] w1 H1; by apply wp_ret; intros; auto. }
  destruct q; apply Hacc.
  - apply wpr_StartPlan.
  - apply wpr_SignalPlan.
  - apply wpr_ControlPlan.
  - apply wpr_IngestExternalPlanEvent.
  - apply wpr_SubscribePlan.
  - apply wpr_RecoverPlanCommands.
Qed.

(** Delivered commands were delivered. *)
Definition outbox_ok w : Prop :=
  ∀ ref c, ol_command (w_store w) ref = Some c → delivered c →
    ∃ d, d ∈ w_sent w ∧ carries d c.

Record system_ok y : Prop := {
  yo_valid : valid (sys_world y);
  yo_outbox : outbox_ok (sys_world y);
  yo_running : Forall (λ qp, wp qp.2 (λ b w', b = true → fulfilled qp.1 w') (sys_world y))
                 (sys_running y);
  yo_answered : Forall (λ qb, qb.2 = true → fulfilled qb.1 (sys_world y)) (sys_answered y);
}.

Lemma outbox_ok_step w q s :
  valid w → outbox_ok w → cs_step (w_store w) q s →
  (q = false → ∀ ref c, ol_command s ref = Some c → delivered c →
     (∃ c0, ol_command (w_store w) ref = Some c0 ∧ delivered c0) ∨ ∃ d, d ∈ w_sent w ∧ carries d c) →
  outbox_ok (with_store w s).
Proof.
  intros [Hv _] Hok Hs Hmark ref c Hc Hd. cbn in Hc.
  assert ((∃ c0, ol_command (w_store w) ref = Some c0 ∧ delivered c0) ∨
          ∃ d, d ∈ w_sent w ∧ carries d c) as [(c0 & Hc0 & Hd0)|?]; [| |done].
  { destruct q; [|by eauto]. left. by eapply ol_undelivered. }
  destruct (Hok _ _ Hc0 Hd0) as (d & ? & r & ? & Hr). exists d. split; [done|]. exists r.
  split; [done|]. destruct (ol_command_step _ _ _ _ _ Hv Hs Hc0) as (c' & Hc' & Hl).
  rewrite Hc in Hc'. injection Hc' as <-. by rewrite Hr, (command_later_content _ _ Hl).
Qed.

(** A justified mark concerns a command that was delivered. *)
Lemma justified_mark w now ref ref' c :
  valid w → justified ref w → ol_command (cs_mark_delivered now (w_store w) ref).1 ref' = Some c →
  delivered c →
  (∃ c0, ol_command (w_store w) ref' = Some c0 ∧ delivered c0) ∨ ∃ d, d ∈ w_sent w ∧ carries d c.
Proof.
  intros [Hv _] (d & r & ra & a & Hd & Hr & Ha & Hcontent & Hp & Hk) Hc Hdel.
  destruct (ol_mark _ _ _ _ _ Hv Hc Hdel) as [?|(-> & a' & Ha' & Hcontent')]; [by left|right].
  assert (PlanCommandRefFromRecord c = ref) as <-.
  { eapply ol_command_key; [|done]. eapply ol_valid_step; [done|apply cs_step_delivered]. }
  assert (ra = AuditRefFromRecord (AuditRecordFromPlanCommand c)) as ->.
  { pose proof (ol_audit_key _ _ _ Hv Ha) as <-. unfold audit_content in Hcontent.
    simplify_eq Hcontent. intros _ He _ _ Hplan.
    destruct (ol_tenant _ _ _ _ _ Hv Ha Ha') as [Hacc Hproj]; [by cbn in *; congruence|].
    unfold AuditRefFromRecord in *. cbn in *. congruence. }
  rewrite Ha in Ha'. injection Ha' as <-. exists d. split; [done|]. exists r. split; [done|]. congruence.
Qed.

Lemma outbox_ok_does o w r w' :
  valid w → outbox_ok w → allowed o w → does o w r w' → outbox_ok w'.
Proof.
  intros Hv Hok Ha Hd. destruct (does_cases _ _ _ _ Hd) as [(Hs & _ & He)|(q & s & Hq & -> & Ho)].
  - intros ref c Hc Hdel. rewrite Hs in Hc. destruct (Hok _ _ Hc Hdel) as (d & Hin & ?).
    exists d. split; [|done]. destruct He as [->|(d' & -> & _)]; [done|]. apply elem_of_app. by left.
  - eapply outbox_ok_step; [done..|]. intros -> ref c. destruct Ho as [?|[ref0 ->]]; [done|].
    destruct Hd as (now & _ & Hs). apply (f_equal w_store) in Hs. cbn in Hs. rewrite Hs.
    by apply justified_mark.
Qed.

Lemma system_ok_later y w' running :
  system_ok y → later (sys_world y) w' → valid w' → outbox_ok w' →
  Forall (λ qp, wp qp.2 (λ b w, b = true → fulfilled qp.1 w) w') running →
  system_ok (MkSystem w' running (sys_answered y)).
Proof.
  intros Hy Hl Hv Ho Hr. split; [done..|]. eapply Forall_impl; [apply Hy|]. cbn.
  intros qb Hq Ht. by eapply fulfilled_later, Hq.
Qed.

Lemma system_ok_step y y' : system_ok y → system_step y y' → system_ok y'.
Proof.
  intros Hy [rt q|i q o k r w Hi Hd|i q b Hi|s Hs].
  - split; cbn; try apply Hy. apply Forall_app. split; [apply Hy|]. repeat constructor. apply wp_serve.
  - pose proof (proj1 (Forall_lookup _ _) (yo_running _ Hy) i _ Hi) as Hp.
    destruct (Hp _ (reflexivity _) (yo_valid _ Hy)) as [Ha Hk].
    destruct (does_later _ _ _ _ (yo_valid _ Hy) Ha Hd) as [Hv Hl].
    apply system_ok_later; [done..|by eapply outbox_ok_does; first [apply Hy|done]|].
    apply Forall_insert; [|by apply Hk].
    eapply Forall_impl; [apply Hy|]. cbn. intros qp. by apply wp_later.
  - pose proof (proj1 (Forall_lookup _ _) (yo_running _ Hy) i _ Hi) as Hp.
    split; cbn; try apply Hy.
    + apply Forall_delete, Hy.
    + apply Forall_app. split; [apply Hy|]. repeat constructor. cbn. intros Hb.
      by apply (Hp _ (reflexivity _) (yo_valid _ Hy)).
  - assert (cs_step (w_store (sys_world y)) true s) as Hstep by by constructor.
    pose proof (later_step _ _ _ (yo_valid _ Hy) Hstep) as Hl.
    apply system_ok_later; [done..| | |].
    + eapply valid_step; [apply Hy|done].
    + by eapply outbox_ok_step; first [apply Hy|done].
    + eapply Forall_impl; [apply Hy|]. cbn. intros qp. by apply wp_later.
Qed.

(** A system that starts on a store without delivered commands. *)
Definition initial_system (s : S) (artifacts : MemoryArtifactStore) : system S :=
  MkSystem (MkWorld s artifacts []) [] [].

Lemma system_ok_reachable s artifacts y :
  ol_valid s → (∀ ref c, ol_command s ref = Some c → ¬ delivered c) →
  rtc system_step (initial_system s artifacts) y → system_ok y.
Proof.
  intros Hv Hn. apply (rtc_ind_r system_ok (initial_system s artifacts)).
  - split; [by split; [|constructor]| |constructor|constructor]. intros ref c Hc Hd. by destruct (Hn ref c).
  - intros y1 y2 _ Hs Hy. by eapply system_ok_step.
Qed.

Lemma reliable_does now o w : does o w (reliable now o w).1 (reliable now o w).2.
Proof. destruct o; cbn; try done; try (by exists now); by left. Qed.

(** A request that runs alone makes steps of the system. *)
Lemma run_reliable_steps now q (p : prog bool) w running answered :
  rtc system_step (MkSystem w (running ++ [(q, p)]) answered)
    (MkSystem (run_reliable now p w).2 running (answered ++ [(q, (run_reliable now p w).1)])).
Proof.
  revert w. induction p as [b|o k IH]; intros w; cbn.
  - apply rtc_once.
    pose proof (system_answer (MkSystem w (running ++ [(q, Ret b)]) answered) (length running) q b)
      as Hstep. cbn in Hstep. rewrite delete_middle, app_nil_r in Hstep.
    apply Hstep. by rewrite list_lookup_middle.
  - eapply rtc_l; [|apply IH].
    pose proof (system_call (MkSystem w (running ++ [(q, Do o k)]) answered) (length running) q o k)
      as Hstep. cbn in Hstep.
    replace (running ++ [(q, k (reliable now o w).1)]) with
      (<[length running := (q, k (reliable now o w).1)]> (running ++ [(q, Do o k)]))
      by by rewrite insert_app_r_alt, Nat.sub_diag.
    apply Hstep; [by rewrite list_lookup_middle|apply reliable_does].
Qed.
End safety.

(** ** The specs of the starts *)

(** What the stores have told a request: the specs that they answered or accepted. *)
Definition learned (o : op) : reply o → RunPlanSpec → Prop :=
  match o with
  | OpCreatePlan spec _ => λ r told, spec = told ∧ ∃ answer, r = Ok answer
  | OpGetPlanByRef _ => λ r told, ∃ status, r = Ok (Some (told, status))
  | _ => λ _ _, False
  end.

(** A delivery that starts a first execution does so for a spec that is known. *)
Definition starts_known (K : RunPlanSpec → Prop) (d : delivery) : Prop :=
  match d with
  | Started id input =>
      id = planWorkflowID (spec_PlanID (pwi_Spec input)) ∧ K (pwi_Spec input) ∧
      pwi_Status input = zero_RunPlanStatus ∧ pwi_WorkflowVersion input = currentPlanWorkflowVersion ∧
      pwi_Continued input = false ∧ pwi_ContinuationCount input = 0%Z ∧ pwi_IterationCount input = 0%Z ∧
      pwi_ExpansionCount input = 0%Z ∧ pwi_ProcessedControls input = [] ∧ pwi_ProcessedSignals input = []
  | Signaled _ _ _ => True
  end.

Fixpoint informed {A} (K : RunPlanSpec → Prop) (p : prog A) : Prop :=
  match p with
  | Ret _ => True
  | Do o k => (∀ d, sends o d → starts_known K d) ∧ ∀ r, informed (λ spec, K spec ∨ learned o r spec) (k r)
  end.

Lemma starts_known_mono (K K' : RunPlanSpec → Prop) d :
  (∀ spec, K spec → K' spec) → starts_known K d → starts_known K' d.
Proof. destruct d; cbn; naive_solver. Qed.

Lemma informed_mono {A} (K K' : RunPlanSpec → Prop) (p : prog A) :
  (∀ spec, K spec → K' spec) → informed K p → informed K' p.
Proof.
  revert K K'. induction p as [a|o k IH]; intros K K' HK; [done|]. intros [Ho Hk].
  split; [intros d Hd; by eapply starts_known_mono, Ho|]. intros r. eapply IH, Hk. naive_solver.
Qed.

Lemma informed_prog_bind {A B} K (f : A → prog B) m :
  informed K m → (∀ (K' : RunPlanSpec → Prop) a, (∀ spec, K spec → K' spec) → informed K' (f a)) →
  informed K (prog_bind f m).
Proof.
  revert K. induction m as [a|o k IH]; intros K Hm Hf; [by apply Hf|]. destruct Hm as [Ho Hk].
  split; [done|]. intros r. apply IH; [apply Hk|]. intros K' a HK. apply Hf. naive_solver.
Qed.

Lemma informed_bind {A B} K (m : Rt A) (f : A → Rt B) :
  informed K m → (∀ (K' : RunPlanSpec → Prop) a, (∀ spec, K spec → K' spec) → informed K' (f a)) →
  informed K (m ≫= f).
Proof. intros Hm Hf. apply informed_prog_bind; [done|]. intros K' [a|e] HK; [by apply Hf|done]. Qed.

Lemma informed_try {A} K (m : Rt A) : informed K m → informed K (try_rt m).
Proof. intros Hm. by apply informed_prog_bind. Qed.

(** A call that starts no workflow. *)
Definition starts_workflow (o : op) : bool := match o with OpExecuteWorkflow _ _ _ => true | _ => false end.

Lemma informed_call {A} K o (k : reply o → prog A) :
  starts_workflow o = false → (∀ r, informed (λ spec, K spec ∨ learned o r spec) (k r)) → informed K (Do o k).
Proof. intros Ho Hk. split; [|done]. intros d Hd. destruct o; cbn in *; by subst. Qed.

#[local] Arguments informed : simpl never.

Create HintDb informed.

(** Methods that start nothing: through their calls, branches and results. *)
#[local] Ltac informed_auto :=
  repeat lazymatch goal with
  | |- informed _ (Ret _) => exact I
  | |- informed _ (mret _) => exact I
  | |- informed _ (throw_rt _) => exact I
  | |- informed _ (lift_rt ?r) => destruct r; exact I
  | |- informed _ (call_rt (ask _)) => apply informed_call; [reflexivity|intros []; exact I]
  | |- informed _ (answer_rt _) => apply informed_call; [reflexivity|intros ?; exact I]
  | |- informed _ (try_rt _) => apply informed_try
  | |- informed _ (mbind _ _) => apply informed_bind; [|intros ? ? _]
  | |- informed _ (match ?x with _ => _ end) => destruct x
  end.

Section provenance.
Context {S : Type} `{!ControlStore S, !ErrorText}.
Implicit Types (K : RunPlanSpec → Prop) (y : system S).

Lemma informed_authorizePlan K r ref : informed K (authorizePlan r ref).
Proof. unfold authorizePlan. informed_auto. Qed.

Lemma informed_recordPlanCommand K r c : informed K (recordPlanCommand r c).
Proof. unfold recordPlanCommand. informed_auto. Qed.

Lemma informed_recordPlanAudit K r a : informed K (recordPlanAudit r a).
Proof. unfold recordPlanAudit. informed_auto. Qed.

Lemma informed_markPlanCommandDelivered K r c : informed K (markPlanCommandDelivered r c).
Proof. unfold markPlanCommandDelivered. informed_auto. Qed.

Lemma informed_markPlanCommandFailed {A} K r c e err : informed K (fail_marked (A := A) (markPlanCommandFailed r c e) err).
Proof. unfold fail_marked, markPlanCommandFailed. informed_auto. Qed.

Lemma informed_markCommandFailed {A} K c e : informed K (markCommandFailed (A := A) c e).
Proof. unfold markCommandFailed, fail_marked, mark_failed_call. informed_auto. Qed.

Lemma informed_complete_delivery K c r : informed K (complete_delivery c r).
Proof. unfold complete_delivery. informed_auto. Qed.

Lemma informed_executePlanWorkflow K client queue queues endpoint peers spec :
  K spec → informed K (executePlanWorkflow client queue queues endpoint peers spec).
Proof.
  intros Hspec. unfold executePlanWorkflow. apply informed_bind; [informed_auto|]. intros K1 [] H1.
  apply informed_bind; [informed_auto|]. intros K2 [] H2. apply informed_bind; [|intros; informed_auto].
  split; [|done]. intros d ->. cbn. split_and!; try done. by apply H2, H1.
Qed.

Lemma informed_deliver_message K r id name format payload c :
  informed K (deliver_message r id name format payload c).
Proof.
  unfold deliver_message. destruct (negb _); [apply informed_markPlanCommandFailed|].
  apply informed_bind; [informed_auto|]. intros K1 [] _; [informed_auto|apply informed_markPlanCommandFailed].
Qed.

Lemma informed_StartPlan K rt spec : informed K (StartPlan (Some rt) (Some spec)).
Proof.
  unfold StartPlan. apply informed_bind; [informed_auto|]. intros K1 [r prepared] _.
  apply informed_bind; [informed_auto|]. intros K2 now _.
  apply informed_call; [done|]. intros [[status created]|e]; [|done]. cbn [lift_rt prog_bind].
  destruct (negb created && _); [done|].
  assert (K2 prepared ∨ learned (OpCreatePlan prepared (Status (NewState prepared now))) (Ok (status, created)) prepared)
    as Hk by (right; split; [done|by eexists]).
  apply (informed_bind _ _ (λ command, _)); [apply informed_recordPlanCommand|]. intros K3 command H3.
  destruct (_ == _).
  { apply informed_bind; [apply informed_recordPlanAudit|intros; informed_auto]. }
  apply informed_bind; [by apply informed_try, informed_executePlanWorkflow, H3|].
  intros K4 [[]|e] _; [|apply informed_markPlanCommandFailed].
  apply informed_bind; [apply informed_recordPlanAudit|]. intros K5 [] _.
  apply informed_bind; [apply informed_markPlanCommandDelivered|intros; informed_auto].
Qed.

Lemma informed_deliver K rc c : informed K (deliver rc c).
Proof.
  unfold deliver. destruct (_ == _); [done|]. destruct (_ == _).
  - apply informed_call; [done|]. intros [[[spec status]|]|e]; cbn [prog_bind];
      [|apply informed_markCommandFailed..].
    destruct (negb _); [apply informed_markCommandFailed|]. destruct (rc_taskQueues rc) as [queues|]; [|done].
    apply informed_bind.
    { apply informed_try, informed_executePlanWorkflow. right. by exists status. }
    intros K1 [[]|err] _; [apply informed_complete_delivery|apply informed_markCommandFailed].
  - destruct (commandDeliveryPayload c) as [[[name payload] record]|e]; [|apply informed_markCommandFailed].
    apply informed_bind; [informed_auto|]. intros K1 [] _; [apply informed_complete_delivery|].
    unfold fail_marked, mark_failed_call. informed_auto.
Qed.

Lemma informed_deliver_all K rc commands result errs : informed K (deliver_all rc commands result errs).
Proof.
  revert K result errs. induction commands as [|c commands IH]; intros K result errs; [done|].
  apply informed_bind; [apply informed_try, informed_deliver|]. intros K1 [] _; apply IH.
Qed.

#[local] Hint Resolve informed_authorizePlan informed_recordPlanCommand informed_recordPlanAudit
  informed_markPlanCommandDelivered informed_deliver_message informed_deliver_all : informed.

Lemma informed_serve K rt q : informed K (serve rt q).
Proof.
  assert (∀ A (m : Rt A), informed K m → informed K (accepted m)) as Hacc by (intros; by apply informed_prog_bind).
  destruct q as [spec|ref signal|ref control|incoming|scope|limit]; apply Hacc.
  - apply informed_StartPlan.
  - unfold SignalPlan. informed_auto; auto with informed.
  - unfold ControlPlan, validateControlPlanRequest. informed_auto; auto with informed.
  - unfold IngestExternalPlanEvent. informed_auto; auto with informed.
  - unfold SubscribePlan. informed_auto; auto with informed.
  - unfold RecoverPlanCommands, Recover. informed_auto; auto with informed.
Qed.

(** The store answers with the spec, or accepts its creation. *)
Definition offers (s : S) (spec : RunPlanSpec) : Prop :=
  (∃ ref status, cs_get_plan s ref = Ok (Some (spec, status))) ∨
  (∃ now status answer, (cs_create_plan now s spec status).2 = Ok answer).

Lemma learned_offers o w r w' spec : does o w r w' → learned o r spec → offers (w_store w) spec.
Proof.
  intros Hd Hl. destruct o; try done; cbn in Hd, Hl.
  - destruct Hl as [<- [answer ->]]. destruct Hd as (now & Hr & _). right. by exists now, status, answer.
  - destruct Hl as [status ->]. destruct Hd as [Hr _]. left. by exists ref, status.
Qed.

Lemma does_sent o w r w' : does (S := S) o w r w' →
  w_sent w' = w_sent w ∨ ∃ d, w_sent w' = w_sent w ++ [d] ∧ sends o d.
Proof.
  intros Hd. destruct o; cbn in Hd; try unfold writes in Hd;
    lazymatch type of Hd with
    | ∃ _, _ => destruct Hd as (now & _ & ->); by left
    | _ ∧ _ => destruct Hd as [_ ->]; by left
    | _ = _ => subst; by left
    | _ => destruct r; destruct_or?; destruct_and?; subst w';
        first [by left|right; eexists; by split]
    end.
Qed.

(** The spec was in the store of the system at some time between [y0] and [y]. *)
Definition held_between y0 y (spec : RunPlanSpec) : Prop :=
  ∃ y1, rtc system_step y0 y1 ∧ rtc system_step y1 y ∧ offers (w_store (sys_world y1)) spec.

Lemma held_step y0 y y' spec : system_step y y' → held_between y0 y spec → held_between y0 y' spec.
Proof. intros Hs (y1 & ? & ? & ?). exists y1. split_and!; [done|by eapply rtc_r|done]. Qed.

Lemma starts_held y0 y :
  w_sent (sys_world y0) = [] → sys_running y0 = [] → rtc system_step y0 y →
  Forall (starts_known (held_between y0 y)) (w_sent (sys_world y)) ∧
  Forall (λ qp, informed (held_between y0 y) qp.2) (sys_running y).
Proof.
  intros Hsent Hrun. apply (rtc_ind_r (λ y, Forall (starts_known (held_between y0 y)) (w_sent (sys_world y)) ∧
    Forall (λ qp, informed (held_between y0 y) qp.2) (sys_running y)) y0).
  { rewrite Hsent, Hrun. split; constructor. }
  intros y1 y2 Hy Hs [IHs IHr]. assert (∀ spec, held_between y0 y1 spec → held_between y0 y2 spec) as HK
    by (intros; by eapply held_step).
  assert (Forall (starts_known (held_between y0 y2)) (w_sent (sys_world y1)) ∧
    Forall (λ qp, informed (held_between y0 y2) qp.2) (sys_running y1)) as [IHs' IHr'].
  { split; (eapply Forall_impl; [done|]); intros x; [by apply starts_known_mono|by apply informed_mono]. }
  pose proof Hs as Hs'. destruct Hs as [rt q|i q o k r w Hi Hd|i q b Hi|s Hs]; cbn; [split; try done..|].
  - apply Forall_app. split; [done|]. repeat constructor. apply informed_serve.
  - pose proof (proj1 (Forall_lookup _ _) IHr i _ Hi) as [Ho _].
    destruct (does_sent _ _ _ _ Hd) as [->|(d & -> & Hsd)]; [done|]. apply Forall_app. split; [done|].
    repeat constructor. eapply starts_known_mono; [done|by apply Ho].
  - pose proof (proj1 (Forall_lookup _ _) IHr i _ Hi) as [_ Hk]. apply Forall_insert; [done|].
    eapply informed_mono, Hk. intros spec [?|Hl]; [by apply HK|]. exists y1.
    split_and!; [done|by apply rtc_once|by eapply learned_offers].
  - by apply Forall_delete.
  - done.
Qed.
End provenance.

(** ** The in-memory store implements the interface *)

Lemma ValidateAuditIdempotency_content existing requested :
  ValidateAuditIdempotency existing requested = Ok tt →
  audit_content existing = audit_content requested.
Proof.
  intros Hv. unfold ValidateAuditIdempotency in Hv. apply bind_Ok in Hv as ([] & Hs & Hj).
  apply same_json_Ok in Hj as [_ Hj]. unfold validateAuditReplayScope in Hs.
  apply bind_Ok in Hs as ([] & Hs & Hk). apply fail_if_Ok in Hk.
  pose proof (proj1 (forM_Ok _ _ _) Hs) as Hf. unfold audit_content. rewrite Hj. simplify_bool.
  assert (∀ x y, (x, y) ∈ [(aud_PlanID existing, aud_PlanID requested);
    (aud_ActorID existing, aud_ActorID requested); (aud_Action existing, aud_Action requested)] →
    x = y) as Heq.
  { intros x y Hin. assert (fail_if (x != y) (Errorf ErrInvalidRunPlan "%s") = Ok tt) as Hx.
    { apply (Hf (x, y)). set_solver. } apply fail_if_Ok in Hx. by simplify_bool. }
  by rewrite Hk, (Heq (aud_PlanID existing) (aud_PlanID requested)),
    (Heq (aud_ActorID existing) (aud_ActorID requested)),
    (Heq (aud_Action existing) (aud_Action requested)) by set_solver.
Qed.

Lemma ValidatePlanCommandIdempotency_content existing requested :
  ValidatePlanCommandIdempotency existing requested = Ok tt →
  command_content existing = command_content requested.
Proof.
  intros Hv. unfold ValidatePlanCommandIdempotency in Hv.
  do 6 (apply bind_Ok in Hv as ([] & ?Hf%fail_if_Ok & Hv); simplify_bool).
  apply same_json_Ok in Hv as [_ Hj]. unfold command_content, audit_content. cbn. congruence.
Qed.

Section memory.
Context `{!Sha256, !SliceSort}.
Implicit Types s : MemoryPlanStore.

Lemma cs_step_store s q s' : cs_step s q s' → store_step s s'.
Proof.
  intros [now spec status| | | | | |s1 Hs];
    [exact (step_create s now s s (Some spec) (Some status))|apply step_command|apply step_failed
    |apply step_audit|apply step_append|apply step_delivered|].
  destruct Hs as [(? & ? & ->)|[(? & ? & ? & ? & ->)|[(? & ? & ? & ->)|(? & ? & ->)]]];
    [apply step_save|apply step_persist|apply step_append|apply step_checkpoint].
Qed.

Lemma cs_step_extends s q s' : store_ok s → cs_step s q s' → store_ok s' ∧ store_extends s s'.
Proof.
  intros Hok Hs. apply (updates_extend _ _ Hok). eapply store_step_updates; [done|].
  by eapply cs_step_store.
Qed.

Lemma commands_save s snapshot create s' r :
  savePlanStateLocked s snapshot create = (s', r) → commands s' = commands s.
Proof.
  intros Hs. destruct (savePlanStateLocked_result _ _ _ _ _ Hs) as [->|[-> _]]; [|done].
  apply savePlanStateLocked_Ok in Hs as [-> _]. done.
Qed.

Lemma commands_append now s event key :
  commands (appendPlanEventLocked now s event key).1 = commands s.
Proof.
  destruct (appendPlanEventLocked _ _ _ _) as [s' r] eqn:Ha.
  destruct (appendPlanEventLocked_result _ _ _ _ _ _ Ha) as [[-> _]|(e & sp & sc & _ & _ & _ & _ & _ & _ & ->)];
    done.
Qed.

(** Only [RecordPlanCommand] and the marks touch commands. *)
Lemma commands_other s s' : cs_other s s' → commands s' = commands s.
Proof.
  intros [(now & snap & ->)|[(now & snap & ev & key & ->)|[(now & ev & key & ->)|(now & cp & ->)]]].
  - unfold SavePlanState. case_match; [|done].
    destruct (savePlanStateLocked _ _ _) eqn:Hs. by apply commands_save in Hs.
  - destruct (PersistPlanTransition_cases now s snap ev key)
      as [[-> _]|(? & ? & rq & s1 & s2 & st & _ & _ & Hsave & Happ & -> & _)]; [done|].
    cbn. apply commands_save in Hsave. rewrite <- Hsave.
    pose proof (commands_append now s1 rq key) as Hc. by rewrite Happ in Hc.
  - unfold AppendPlanEvent. repeat case_match; try done. apply commands_append.
  - unfold SavePlanMetricCheckpoint. repeat case_match; done.
Qed.

Lemma commands_create now s spec status :
  commands (CreatePlan now s spec status).1 = commands s.
Proof.
  unfold CreatePlan, CreatePlan_between. destruct (createPlan_precheck _ _ _ _ _) as [[|[]]|]; try done.
  unfold createPlanSnapshot. destruct (lookupExistingPlanLocked _ _ _) as [[]|]; try done.
  destruct (lookupExistingPlanIDLocked _ _) as [[]|]; try done.
  destruct (savePlanStateLocked _ _ _) as [s' []] eqn:Hs; cbn; by apply commands_save in Hs.
Qed.

Lemma RecordAudit_commands now s r : commands (RecordAudit now s r).1 = commands s.
Proof. unfold RecordAudit. repeat case_match; done. Qed.

Lemma updatePlanCommandStatus_lookup now s ref status reason ref' c' :
  commands (updatePlanCommandStatus now s ref status reason).1 !! ref' = Some c' →
  commands s !! ref' = Some c' ∨
  (ref' = ref ∧ ∃ c, commands s !! ref = Some c ∧
     c' = {| c with cmd_Status := status; cmd_FailureReason := reason; cmd_UpdatedAt := now |} ∧
     (status = PlanCommandDelivered → delivered_audit_check s c = Ok tt)).
Proof.
  unfold updatePlanCommandStatus. destruct (_ ≫= _) as [c1|] eqn:Hc; [|by left]. cbn.
  intros [[<- <-]|[? ?]]%lookup_insert_Some; [right|by left]. split; [done|].
  apply bind_Ok in Hc as ([] & _ & Hc). destruct (commands s !! ref) as [c|]; [|done].
  apply bind_Ok in Hc as ([] & _ & Hc). apply bind_Ok in Hc as ([] & Hd & [= <-]).
  exists c. split_and!; [done..|]. intros ->. exact Hd.
Qed.

Lemma RecordPlanCommand_result now s c s' r :
  RecordPlanCommand now s (Some c) = (s', r) →
  (s' = s ∧ ∀ c' new, r = Ok (c', new) → ∃ spec,
     commands s !! PlanCommandRefFromRecord {| c with cmd_AccountID := spec_AccountID spec;
                                                      cmd_ProjectID := spec_ProjectID spec |} =
       Some c' ∧ command_content c' = command_content c) ∨
  ∃ c', r = Ok (c', true) ∧ command_content c' = command_content c ∧
    cmd_Status c' = PlanCommandPending ∧
    s' = {| s with commands := <[PlanCommandRefFromRecord c' := c']> (commands s) |}.
Proof.
  unfold RecordPlanCommand. destruct (validateMemoryPlanCommandRecord _) as [c0|] eqn:Hval;
    [|intros [= <- <-]; by left].
  assert (c0 = c) as ->. { cbn in Hval. by apply bind_Ok in Hval as ([] & _ & [= ->]). }
  destruct (specs s !! cmd_PlanID c) as [spec|]; [|intros [= <- <-]; by left]. cbv zeta.
  destruct (commands s !! _) as [existing|] eqn:Hl.
  - intros [= <- <-]. left. split; [done|]. intros c' new Hr.
    apply bind_Ok in Hr as ([] & Hv & [= <- <-]). exists spec. split; [done|].
    by apply ValidatePlanCommandIdempotency_content in Hv as ->.
  - destruct (prepareMemoryPlanCommandRecord _ _ _) as [stored|] eqn:Hp; [|intros [= <- <-]; by left].
    intros [= <- <-]. right. exists stored. unfold prepareMemoryPlanCommandRecord in Hp.
    apply bind_Ok in Hp as (st & Hst & [= <-]). split_and!; [done| | |done].
    + unfold command_content, audit_content. cbn. by destruct (cmd_Payload c).
    + cbn. unfold NormalizeNewPlanCommandStatus in Hst. destruct (_ == ""); [congruence|].
      apply bind_Ok in Hst as ([] & Hf & [= <-]). apply fail_if_Ok in Hf. by simplify_bool.
Qed.

Lemma RecordAudit_result now s r s' a new :
  store_ok s → RecordAudit now s (Some r) = (s', Ok (a, new)) →
  auditKeys s' !! AuditRefFromRecord a = Some a ∧ audit_content a = audit_content r.
Proof.
  intros Hok. unfold RecordAudit. destruct (validateMemoryAuditRecord _) as [r0|] eqn:Hval; [|done].
  assert (r0 = r) as ->. { cbn in Hval. by apply bind_Ok in Hval as ([] & _ & [= ->]). }
  destruct (specs s !! aud_PlanID r) as [spec|]; [|done]. cbv zeta.
  destruct (auditKeys s !! _) as [existing|] eqn:Hl.
  - intros [= <- Hr]. apply bind_Ok in Hr as ([] & Hv & [= <- <-]).
    destruct (so_audit _ Hok _ _ Hl) as [-> _]. split; [done|].
    by apply ValidateAuditIdempotency_content in Hv as ->.
  - destruct (ValidateAuditNodeRunInPlan _ _ _); [|done]. intros [= <- <- <-]. cbn. split.
    + by rewrite lookup_insert_eq.
    + unfold audit_content. cbn. by destruct (aud_Payload r).
Qed.

Lemma ValidatePlanStartIdempotency_start existing requested :
  ValidatePlanStartIdempotency existing requested = Ok tt →
  spec_PlanID existing = spec_PlanID requested ∧ start_content existing = start_content requested.
Proof.
  intros Hv. unfold ValidatePlanStartIdempotency in Hv. apply bind_Ok in Hv as ([] & Hid%fail_if_Ok & Hv).
  apply bind_Ok in Hv as ([] & _ & [Hs Hj]%same_json_Ok). simplify_bool. split; [done|].
  apply envelope_start. rewrite <- (dec_enc_envelope existing), <- (dec_enc_envelope requested) by (done || by rewrite <- Hj).
  by rewrite Hj.
Qed.

(** A plan that was created, now or earlier, is in the store. *)
Lemma existing_by_key s spec status :
  store_ok s → lookupExistingPlanLocked s (startKey spec) spec = Ok (Some status) →
  ∃ spec', specs s !! spec_PlanID spec = Some spec' ∧ start_content spec' = start_content spec.
Proof.
  intros Hok. unfold lookupExistingPlanLocked. destruct (planKeys s !! _) as [pid|] eqn:Hk; [|done].
  destruct (so_key _ Hok _ _ Hk) as (spec' & Hs & _). rewrite Hs. cbn [default from_option id].
  intros ([] & [Hid Hst]%ValidatePlanStartIdempotency_start & _)%bind_Ok.
  destruct (so_spec _ Hok _ _ Hs) as [Hpid _]. exists spec'.
  split; [rewrite <- Hid, Hpid; exact Hs|exact Hst].
Qed.

Lemma existing_by_id s spec status :
  lookupExistingPlanIDLocked s spec = Ok (Some status) →
  ∃ spec', specs s !! spec_PlanID spec = Some spec' ∧ start_content spec' = start_content spec.
Proof.
  unfold lookupExistingPlanIDLocked. destruct (specs s !! _) as [spec'|]; [|done].
  intros ([] & [_ Hst]%ValidatePlanStartIdempotency_start & _)%bind_Ok. exists spec'. split; [done|exact Hst].
Qed.

Lemma CreatePlan_planned now s spec status r :
  store_ok s → (CreatePlan now s (Some spec) (Some status)).2 = Ok r →
  ∃ spec', specs (CreatePlan now s (Some spec) (Some status)).1 !! spec_PlanID spec = Some spec' ∧
    start_content spec' = start_content spec.
Proof.
  intros Hok. unfold CreatePlan, CreatePlan_between.
  destruct (createPlan_precheck _ _ _ _ _) as [[found|[spec0 snapshot]]|e] eqn:Hpre; [..|done];
    unfold createPlan_precheck in Hpre; apply bind_Ok in Hpre as (spec1 & Hin & Hpre);
    apply bind_Ok in Hin as ([] & _ & Hin); apply bind_Ok in Hin as ([] & _ & [= <-]);
    apply bind_Ok in Hpre as ([by_key|] & Hkey & Hpre); try done.
  - intros _. by eapply existing_by_key.
  - apply bind_Ok in Hpre as ([by_id|] & Hid & Hpre).
    + intros _. by eapply existing_by_id.
    + by apply bind_Ok in Hpre as (? & _ & ?).
  - apply bind_Ok in Hpre as ([by_id|] & Hid & Hpre); [done|].
    apply bind_Ok in Hpre as (snap & Hsnap & [= <- <-]). unfold createPlanSnapshot. rewrite Hkey, Hid.
    destruct (savePlanStateLocked s snap true) as [s' [[]|]] eqn:Hsave; [|done]. intros _.
    apply savePlanStateLocked_Ok in Hsave as [-> _]. cbn.
    unfold prepareMemoryCreatePlanSnapshot, normalizeMemoryPlanStateSnapshot in Hsnap.
    apply bind_Ok in Hsnap as ([] & _ & Hsnap). apply bind_Ok in Hsnap as ([] & _ & [= <-]). cbn.
    eexists. rewrite lookup_insert_eq. split; [reflexivity|apply requested_start].
Qed.

#[global] Program Instance memory_outbox : OutboxLaws MemoryPlanStore := {|
  ol_valid := store_ok;
  ol_command s ref := commands s !! ref;
  ol_audit s ref := auditKeys s !! ref;
  ol_plan s id := specs s !! id |}.
Next Obligation. intros s q s' Hok Hs. by destruct (cs_step_extends _ _ _ Hok Hs). Qed.
Next Obligation. intros s ref a Hok Ha. by destruct (so_audit _ Hok _ _ Ha). Qed.
Next Obligation. intros s ref c Hok Hc. by destruct (so_command _ Hok _ _ Hc). Qed.
Next Obligation.
  intros s r1 r2 a1 a2 Hok H1 H2 Hp.
  destruct (so_audit _ Hok _ _ H1) as [<- (sp1 & Hs1 & ? & ?)].
  destruct (so_audit _ Hok _ _ H2) as [<- (sp2 & Hs2 & ? & ?)]. cbn in *. rewrite Hp in Hs1.
  rewrite Hs1 in Hs2. simplify_eq. split; congruence.
Qed.
Next Obligation.
  intros s q s' ref a Hok Hs Ha. destruct (cs_step_extends _ _ _ Hok Hs) as [_ Hx].
  cbn in *. eapply lookup_weaken; [done|apply Hx].
Qed.
Next Obligation.
  intros s q s' ref c Hok Hs Hc. destruct (cs_step_extends _ _ _ Hok Hs) as [_ Hx].
  by apply (se_commands _ _ Hx).
Qed.
Next Obligation.
  intros s s' ref c' Hok Hs Hc Hd. cbn in Hc |- *.
  assert (commands s' = commands s → ∃ c, commands s !! ref = Some c ∧ delivered c) as Hsame.
  { intros He. rewrite He in Hc. by exists c'. }
  inversion Hs as [now sp st|now c|now ref0 reason|now r|now e key| |s1 Ho]; subst; cbn in *.
  - apply Hsame, commands_create.
  - destruct (RecordPlanCommand now s (Some c)) as [s' r] eqn:Hr. cbn in *.
    destruct (RecordPlanCommand_result _ _ _ _ _ Hr) as [[-> _]|(c1 & _ & _ & Hp & ->)]; [by eauto|].
    cbn in Hc. apply lookup_insert_Some in Hc as [[<- <-]|[_ Hc]]; [|by exists c'].
    unfold delivered in Hd. by rewrite Hp in Hd.
  - apply updatePlanCommandStatus_lookup in Hc as [?|(-> & c & _ & -> & _)]; [by exists c'|done].
  - apply Hsame, RecordAudit_commands.
  - apply Hsame, commands_other. right. right. left. by exists now, (Some e), key.
  - by apply Hsame, commands_other.
Qed.
Next Obligation.
  intros s now ref ref' c' Hok Hc Hd. cbn in Hc |- *.
  apply updatePlanCommandStatus_lookup in Hc as [?|(-> & c & Hc & -> & Ha)]; [by left; eauto|right].
  split; [done|]. specialize (Ha eq_refl). unfold delivered_audit_check in Ha.
  destruct (auditKeys s !! _) as [a|] eqn:Hl; [|done]. exists a. split; [done|].
  by apply ValidateAuditIdempotency_content in Ha.
Qed.
Next Obligation.
  intros s now ref c Hok Hm. cbn in Hm |- *. unfold MarkPlanCommandDelivered, updatePlanCommandStatus in *.
  destruct (_ ≫= _) as [c1|] eqn:Hc; [|done]. exists c1. cbn. rewrite lookup_insert_eq.
  split; [done|]. apply bind_Ok in Hc as ([] & _ & Hc). destruct (commands s !! ref); [|done].
  apply bind_Ok in Hc as ([] & _ & Hc). by apply bind_Ok in Hc as ([] & _ & [= <-]).
Qed.
Next Obligation.
  intros s now r a new Hok Hr. cbn in Hr |- *. destruct (RecordAudit now s (Some r)) as [s' r'] eqn:Hx.
  cbn in *. subst r'. by eapply RecordAudit_result.
Qed.
Next Obligation.
  intros s now c c' new Hok Hr. cbn in Hr |- *.
  destruct (RecordPlanCommand now s (Some c)) as [s' r] eqn:Hx. cbn in *. subst r.
  destruct (RecordPlanCommand_result _ _ _ _ _ Hx) as [[-> Hold]|(c1 & [= -> ->] & ? & _ & ->)].
  - destruct (Hold _ _ eq_refl) as (spec & Hl & ?). split; [|done].
    destruct (so_command _ Hok _ _ Hl) as [-> _]. done.
  - cbn. by rewrite lookup_insert_eq.
Qed.
Next Obligation.
  intros s q s' id spec Hok Hs Hp. destruct (cs_step_extends _ _ _ Hok Hs) as [_ Hx].
  destruct (se_spec _ _ Hx _ _ Hp) as (spec' & ? & Henv & _). exists spec'.
  split; [done|by apply envelope_start].
Qed.
Next Obligation. intros s now spec status r Hok Hr. by eapply CreatePlan_planned. Qed.
Next Obligation.
  intros s ref spec status Hok Hg. cbn in Hg. unfold GetPlanByRef in Hg.
  apply bind_Ok in Hg as ([] & _ & Hg). destruct (specs s !! _) as [sp|] eqn:Hs; [|done].
  apply bind_Ok in Hg as ([] & _ & [= <- _]). split; [done|]. by destruct (so_spec _ Hok _ _ Hs).
Qed.
End memory.

(** ** A concrete run *)

Module OutboxSample.
#[local] Existing Instance StoreSample.sha.
#[local] Instance text : ErrorText := {| Error _ := "error" |}.

Definition queues : TaskQueues := {|
  tqs_PlanControl := "plan-control"; tqs_PlanActivity := "plan-activity";
  tqs_ProcessControl := "process-control"; tqs_ProcessActivity := "process-activity";
  tqs_NativeControl := "native-control"; tqs_NativeLLM := "native-llm";
  tqs_NativeTool := "native-tool"; tqs_Stream := "stream"; tqs_Nexus := "nexus" |}.
Definition runtime : planRuntime := {|
  rt_temporalClient := true; rt_planEvents := true; rt_planLiveEvents := true;
  rt_planPublisher := true; rt_planIndex := true; rt_artifactStore := true;
  rt_commandStore := true; rt_auditStore := true; rt_taskQueue := "plan-control";
  rt_taskQueues := Some queues; rt_nexusEndpoint := "agentos"; rt_nexusPeers := None |}.
Definition ref : PlanRef := {|
  pref_PlanID := "plan-1"; pref_AccountID := "acct"; pref_ProjectID := "proj" |}.
Definition signal : Signal := {|
  sig_Type := SignalPlanApprove; sig_IdempotencyKey := "approve-1"; sig_ActorID := "alice";
  sig_Payload := None; sig_SentAt := 9000000 |}.
Definition world0 : World MemoryPlanStore :=
  MkWorld StoreSample.s1 NewMemoryArtifactStore [].
Definition request0 : request := SignalRequest ref signal.
Definition world1 : World MemoryPlanStore :=
  (run_reliable StoreSample.now (serve runtime request0) world0).2.
Definition system1 : system MemoryPlanStore := MkSystem world1 [] [(request0, true)].

(** Afterwards a second plan is started. *)
Definition spec2 : RunPlanSpec :=
  {| StoreSample.spec with spec_PlanID := "plan-2"; spec_IdempotencyKey := "start-2" |}.
Definition request1 : request := StartRequest spec2.
Definition world2 : World MemoryPlanStore :=
  (run_reliable StoreSample.now (serve runtime request1) world1).2.
Definition system2 : system MemoryPlanStore := MkSystem world2 [] [(request0, true); (request1, true)].

Lemma system2_reachable :
  rtc system_step (initial_system StoreSample.s1 NewMemoryArtifactStore) system2.
Proof.
  transitivity system1.
  - eapply rtc_l; [exact (system_arrive _ runtime request0)|].
    exact (run_reliable_steps StoreSample.now request0 (serve runtime request0) world0 [] []).
  - eapply rtc_l; [exact (system_arrive _ runtime request1)|].
    exact (run_reliable_steps StoreSample.now request1 (serve runtime request1) world1 [] [(request0, true)]).
Qed.
End OutboxSample.

(** ** Theorems *)

(** C8: A command is marked delivered only after its delivery, and an accepted request has been
    delivered.  However requests, redeliveries, crashed replicas, client failures and the
    workflows' own writes interleave: for every command whose stored status is delivered, the
    Temporal service has received a message for the plan's workflow with exactly the recorded
    content (actor, action, key and payload), or, for the command of a start, a start of that
    workflow whose spec has the plan, tenant, thread and key of the record; for every signal or
    control request the API has answered with success, there is such a delivered command with the
    content of the request; and every start that the service received is a first execution of the
    plan's own workflow, with a spec that the store answered, or accepted for creation, in an
    earlier state of this system. *)
Theorem delivered_was_sent {S} `{!ControlStore S, !OutboxLaws S, !ErrorText} s artifacts
    (y : system S) :
  ol_valid s → (∀ ref c, ol_command s ref = Some c → ¬ delivered c) →
  rtc system_step (initial_system s artifacts) y →
  (∀ ref c, ol_command (w_store (sys_world y)) ref = Some c → delivered c →
     ∃ d, d ∈ w_sent (sys_world y) ∧ carries d c) ∧
  (∀ q, (q, true) ∈ sys_answered y → fulfilled q (sys_world y)) ∧
  Forall (starts_known (held_between (initial_system s artifacts) y)) (w_sent (sys_world y)).
Proof.
  intros Hv Hn Hy. pose proof (system_ok_reachable _ _ _ Hv Hn Hy) as Hok. split_and!; [apply Hok| |].
  - intros q Hq. exact (proj1 (Forall_forall _ _) (yo_answered _ Hok) _ Hq eq_refl).
  - by apply starts_held.
Qed.

#[local] Existing Instance StoreSample.sha.

Lemma delivered_was_sent_witness :
  ∃ input,
    w_sent OutboxSample.world2 =
      [Signaled "agentos-plan-plan-1" PlanSignalName (MSignal OutboxSample.signal);
       Started "agentos-plan-plan-2" input] ∧
    pwi_Spec input = OutboxSample.spec2 ∧
    fulfilled OutboxSample.request0 OutboxSample.world2 ∧
    Forall (starts_known (held_between (H := OutboxSample.text)
      (initial_system StoreSample.s1 NewMemoryArtifactStore) OutboxSample.system2)) (w_sent OutboxSample.world2).
Proof.
  eexists. split; [vm_compute; reflexivity|]. split; [vm_compute; reflexivity|].
  destruct (delivered_was_sent (H := OutboxSample.text) StoreSample.s1 NewMemoryArtifactStore
              OutboxSample.system2) as (_ & Hdone & Hstarts).
  - apply reachable_ok, StoreSample.s1_reachable.
  - intros ref c Hc. assert (commands StoreSample.s1 = ∅) as He by (vm_compute; reflexivity).
    cbn in Hc. by rewrite He, lookup_empty in Hc.
  - exact OutboxSample.system2_reachable.
  - split; [apply Hdone; by left|exact Hstarts].
Defined.
