(* ===== verification/RuntimeRecovery.v ===== *)
(** * Redelivery of commands

    What one pass of [RecoverPlanCommands] achieves on the in-memory store when the
    Temporal service can be reached: for every command that a request of the runtime
    recorded and that has no conflicting audit the recorded message is sent and the command
    becomes delivered, whatever the other commands of the pass do.  And what reading a command back from a store that keeps payloads as JSON
    documents does to it. *)

From S2P Require Import Prelude Types Scope Validator State Json Idempotency Artifacts PlanStore.
From S2P Require Import PlanStoreSpec Temporal Workflow Runtime RuntimeSpec.

(** ** Reading back what was recorded *)

Lemma signal_payload_type ref signal :
  map_get (aud_Payload (planSignalAuditRecord ref signal)) planCommandPayloadSignalType =
    Some (AValue (VSignalType (sig_Type signal))).
Proof. cbn. destruct (negb _); by simplify_map_eq. Qed.

Lemma signal_payload_payload ref signal :
  map_get (aud_Payload (planSignalAuditRecord ref signal)) planCommandPayloadPayload =
    Some (any_of_map (sig_Payload signal)).
Proof. cbn. destruct (negb _); by simplify_map_eq. Qed.

Lemma signal_payload_sent_at ref signal :
  map_get (aud_Payload (planSignalAuditRecord ref signal)) planCommandPayloadSentAt =
    if time_is_zero (sig_SentAt signal) then None else Some (AValue (VTime (sig_SentAt signal))).
Proof. cbn. destruct (time_is_zero _); by simplify_map_eq. Qed.

Lemma control_payload_operation ref control :
  map_get (aud_Payload (planControlAuditRecord ref control)) planCommandPayloadOperation =
    Some (AValue (VControlOperation (ctl_Operation control))).
Proof. cbn. destruct (negb _); by simplify_map_eq. Qed.

Lemma control_payload_metadata ref control :
  map_get (aud_Payload (planControlAuditRecord ref control)) planCommandPayloadMetadata =
    Some (AValue (VStringMap (ctl_Metadata control))).
Proof. cbn. destruct (negb _); by simplify_map_eq. Qed.

Lemma control_payload_requested_at ref control :
  map_get (aud_Payload (planControlAuditRecord ref control)) planCommandPayloadRequestedAt =
    if time_is_zero (ctl_RequestedAt control) then None
    else Some (AValue (VTime (ctl_RequestedAt control))).
Proof. cbn. destruct (time_is_zero _); by simplify_map_eq. Qed.

(** The command was recorded for the request that [r] describes. *)
Definition recorded_from (c : PlanCommandRecord) (r : AuditRecord) : Prop :=
  cmd_PlanID c = aud_PlanID r ∧ cmd_ActorID c = aud_ActorID r ∧ cmd_Action c = aud_Action r ∧
  cmd_IdempotencyKey c = aud_IdempotencyKey r ∧ cmd_Payload c = aud_Payload r.

Lemma signalFromPlanCommand_recorded c ref signal :
  recorded_from c (planSignalAuditRecord ref signal) → ValidatePlanSignal (Some signal) = Ok tt →
  signalFromPlanCommand c = Ok signal.
Proof.
  intros (_ & Ha & _ & Hk & Hp) Hv. unfold signalFromPlanCommand, signalTypePayload, mapPayload,
    optionalTimePayload. rewrite Hp, signal_payload_type, signal_payload_payload,
    signal_payload_sent_at, Ha, Hk. destruct signal as [t k a p sent].
  cbn -[ValidatePlanSignal].
  destruct p as [p|]; cbn -[ValidatePlanSignal];
    destruct (time_is_zero sent) eqn:Hz; cbn -[ValidatePlanSignal];
    try (unfold time_is_zero in Hz; apply bool_decide_eq_true in Hz; subst sent);
    by rewrite Hv.
Qed.

Lemma controlFromPlanCommand_recorded c ref control :
  recorded_from c (planControlAuditRecord ref control) →
  ValidateControlRequest (Some control) = Ok tt → ctl_ActorID control ≠ "" →
  controlFromPlanCommand c = Ok control.
Proof.
  intros (_ & Ha & _ & Hk & Hp) Hv Hactor. unfold controlFromPlanCommand, controlOperationPayload,
    stringMapPayload, optionalTimePayload. rewrite Hp, control_payload_operation,
    control_payload_metadata, control_payload_requested_at, Ha, Hk.
  destruct control as [o k t a m]. cbn -[ValidateControlRequest] in *.
  destruct (time_is_zero t) eqn:Hz; cbn -[ValidateControlRequest];
    try (unfold time_is_zero in Hz; apply bool_decide_eq_true in Hz; subst t);
    rewrite Hv; cbn -[ValidateControlRequest]; by rewrite bool_decide_eq_false_2.
Qed.

(** ** Running programs *)

Section run.
Context {S : Type} `{!ControlStore S}.

Lemma run_prog_bind {A B} now (f : A → prog B) m (w : World S) :
  run_reliable now (prog_bind f m) w =
  run_reliable now (f (run_reliable now m w).1) (run_reliable now m w).2.
Proof. revert w. induction m as [a|o k IH]; intros w; [done|]. apply IH. Qed.

Lemma run_rt_bind {A B} now (m : Rt A) (f : A → Rt B) (w : World S) :
  run_reliable now (m ≫= f) w =
  match run_reliable now m w with
  | (inl a, w') => run_reliable now (f a) w'
  | (inr e, w') => (inr e, w')
  end.
Proof.
  unfold mbind, Rt_bind. rewrite run_prog_bind. by destruct (run_reliable now m w) as [[a|e] w'].
Qed.

Lemma run_try {A B} now (m : Rt A) (f : A + werror → Rt B) (w : World S) :
  run_reliable now (try_rt m ≫= f) w =
  run_reliable now (f (run_reliable now m w).1) (run_reliable now m w).2.
Proof.
  rewrite run_rt_bind. unfold try_rt. rewrite run_prog_bind. done.
Qed.
End run.

(** ** Deliveries are independent *)

Section recovery.
Context `{!Sha256, !SliceSort, !ErrorText}.
Implicit Types (s : MemoryPlanStore) (w : World MemoryPlanStore).

Definition audit_ref_of (ref : PlanCommandRef) : AuditRef := {|
  audr_PlanID := cmdr_PlanID ref; audr_AccountID := cmdr_AccountID ref;
  audr_ProjectID := cmdr_ProjectID ref; audr_IdempotencyKey := cmdr_IdempotencyKey ref |}.

(** Only the command [ref] and its audit may differ. *)
Record touched (ref : PlanCommandRef) s s' : Prop := {
  to_specs : specs s' = specs s;
  to_statuses : statuses s' = statuses s;
  to_commands : ∀ ref', ref' ≠ ref → commands s' !! ref' = commands s !! ref';
  to_audits : ∀ ra, ra ≠ audit_ref_of ref → auditKeys s' !! ra = auditKeys s !! ra;
}.

#[local] Instance touched_preorder ref : PreOrder (touched ref).
Proof.
  split; [done|]. intros s1 s2 s3 A B. split.
  - rewrite (to_specs _ _ _ B). apply A.
  - rewrite (to_statuses _ _ _ B). apply A.
  - intros ref' Hr. rewrite (to_commands _ _ _ B ref' Hr). by apply A.
  - intros ra Hr. rewrite (to_audits _ _ _ B ra Hr). by apply A.
Qed.

Lemma touched_mark now ref status reason s :
  touched ref s (updatePlanCommandStatus now s ref status reason).1.
Proof.
  unfold updatePlanCommandStatus. destruct (_ ≫= _); [|done]. split; [done..| |done].
  intros ref' Hr. by apply lookup_insert_ne.
Qed.

(** The command is in the store, in some later state. *)
Definition held s (c : PlanCommandRecord) : Prop :=
  ∃ c', commands s !! PlanCommandRefFromRecord c = Some c' ∧ command_later c c'.

Lemma held_extends s s' c : store_extends s s' → held s c → held s' c.
Proof.
  intros Hx (c1 & (c2 & H2 & ?)%(se_commands _ _ Hx) & ?). exists c2. split; [done|by etrans].
Qed.

Lemma held_spec s c : store_ok s → held s c →
  ∃ spec, specs s !! cmd_PlanID c = Some spec ∧ spec_PlanID spec = cmd_PlanID c ∧
    cmd_AccountID c = spec_AccountID spec ∧ cmd_ProjectID c = spec_ProjectID spec ∧
    ValidatePlanRef (planRefFromCommand c) = Ok tt.
Proof.
  intros Hok (c' & Hc & [Hl _]). destruct (so_command _ Hok _ _ Hc) as (_ & _ & _ & spec & Hs & Ha & Hp).
  rewrite Hl in Hs, Ha, Hp. cbn in *. exists spec.
  destruct (so_spec _ Hok _ _ Hs) as (Hpid & Hscope%ValidateRunPlanScope_Ok & _).
  split_and!; [done..|]. apply ValidatePlanRef_Ok. cbn. by rewrite <- Hpid, Ha, Hp.
Qed.

Lemma touched_audit now s c r :
  store_ok s → held s c → aud_PlanID r = cmd_PlanID c →
  aud_IdempotencyKey r = cmd_IdempotencyKey c →
  touched (PlanCommandRefFromRecord c) s (RecordAudit now s (Some r)).1.
Proof.
  intros Hok (spec & Hs & _ & Ha & Hp & _)%held_spec Hplan Hkey; [|done]. unfold RecordAudit.
  destruct (validateMemoryAuditRecord _) as [r0|] eqn:Hval; [|done].
  assert (r0 = r) as ->. { cbn in Hval. by apply bind_Ok in Hval as ([] & _ & [= ->]). }
  rewrite Hplan, Hs. cbv zeta. destruct (auditKeys s !! _); [done|].
  destruct (ValidateAuditNodeRunInPlan _ _ _); [|done]. split; [done..|]. intros ra Hra.
  apply lookup_insert_ne. intros <-. apply Hra. unfold AuditRefFromRecord, audit_ref_of. cbn. congruence.
Qed.
(** ** One delivery *)

Definition encodable (c : PlanCommandRecord) : Prop :=
  supported (enc_map enc_any (normalizeAuditPayload (cmd_Payload c))) = true.

(** The audit under the command's key, if there is one, is the command's. *)
Definition audit_agrees s (c : PlanCommandRecord) : Prop :=
  ∀ a, auditKeys s !! audit_ref_of (PlanCommandRefFromRecord c) = Some a →
    ValidatePlanCommandDeliveredAudit c a = Ok tt.

Lemma ValidateAuditIdempotency_prepared now r ref :
  supported (enc_map enc_any (normalizeAuditPayload (aud_Payload r))) = true →
  ValidateAuditIdempotency (prepareMemoryAuditRecord now r ref) r = Ok tt.
Proof.
  intros Hs. unfold ValidateAuditIdempotency, validateAuditReplayScope. cbn.
  rewrite !bool_decide_eq_true_2 by done. cbn. apply same_json_Ok.
  destruct (aud_Payload r); by split.
Qed.

Lemma command_later_audit c c' :
  command_later c c' → AuditRecordFromPlanCommand c' = AuditRecordFromPlanCommand c.
Proof. intros [Hc _]. by rewrite Hc. Qed.

Lemma record_own_audit now s c :
  store_ok s → held s c → cmd_Action c ≠ "" → cmd_IdempotencyKey c ≠ "" → encodable c →
  audit_agrees s c →
  ∃ s' a new, RecordAudit now s (Some (AuditRecordFromPlanCommand c)) = (s', Ok (a, new)) ∧
    commands s' = commands s ∧ audit_agrees s' c ∧
    is_Some (auditKeys s' !! audit_ref_of (PlanCommandRefFromRecord c)).
Proof.
  intros Hok Hh Hact Hkey Henc Hagree.
  destruct (held_spec _ _ Hok Hh) as (spec & Hs & Hpid & Ha & Hp & Href%ValidatePlanRef_Ok).
  unfold RecordAudit, validateMemoryAuditRecord, required_fields, forM. cbn in Href.
  cbn -[ValidateAuditIdempotency AuditRefFromRecord prepareMemoryAuditRecord].
  rewrite !bool_decide_eq_false_2 by (done || apply Href).
  cbn -[ValidateAuditIdempotency AuditRefFromRecord prepareMemoryAuditRecord].
  rewrite Hs. cbv zeta.
  match goal with |- context [auditKeys s !! AuditRefFromRecord ?r] =>
    replace r with (AuditRecordFromPlanCommand c)
      by (unfold AuditRecordFromPlanCommand; by rewrite <- Ha, <- Hp) end.
  change (AuditRefFromRecord (AuditRecordFromPlanCommand c))
    with (audit_ref_of (PlanCommandRefFromRecord c)).
  destruct (auditKeys s !! _) as [a|] eqn:Hl.
  - specialize (Hagree _ Hl) as Hv. unfold ValidatePlanCommandDeliveredAudit in Hv.
    eexists s, a, false. rewrite Hv. split_and!; [done..|]. by rewrite Hl.
  - cbn -[ValidateAuditIdempotency prepareMemoryAuditRecord]. eexists _, _, true.
    split_and!; [done|done| |].
    + intros a. cbn. rewrite lookup_insert_eq. intros [= <-].
      by apply ValidateAuditIdempotency_prepared.
    + cbn. by rewrite lookup_insert_eq.
Qed.

Lemma mark_own_command now s c :
  store_ok s → held s c → cmd_IdempotencyKey c ≠ "" → audit_agrees s c →
  is_Some (auditKeys s !! audit_ref_of (PlanCommandRefFromRecord c)) →
  ∃ s' c', MarkPlanCommandDelivered now s (PlanCommandRefFromRecord c) = (s', Ok c') ∧
    commands s' !! PlanCommandRefFromRecord c = Some c' ∧ delivered c'.
Proof.
  intros Hok Hh Hkey Hagree [a Hl].
  destruct (held_spec _ _ Hok Hh) as (spec & _ & _ & _ & _ & Href%ValidatePlanRef_Ok).
  destruct Hh as (c0 & Hc0 & Hlater). unfold MarkPlanCommandDelivered, updatePlanCommandStatus.
  unfold ValidatePlanCommandRef. cbn in Href.
  pose proof (proj2 (ValidatePlanRef_Ok (planRefFromCommand c) tt) Href) as Hvalid.
  unfold planRefFromCommand in Hvalid. cbn [PlanCommandRefFromRecord cmdr_PlanID cmdr_AccountID cmdr_ProjectID].
  rewrite Hvalid.
  cbn -[ValidatePlanCommandStatusTransition delivered_audit_check].
  rewrite (bool_decide_eq_false_2 (cmd_IdempotencyKey c = "")) by done.
  cbn -[ValidatePlanCommandStatusTransition delivered_audit_check].
  rewrite Hc0. rewrite (proj2 (ValidatePlanCommandStatusTransition_iff _ _)).
  2:{ destruct (so_command _ Hok _ _ Hc0) as (_ & Hst & _). split_and!; [done|by right; left|].
      destruct (decide (cmd_Status c0 = PlanCommandDelivered)); [by left|by right]. }
  assert (delivered_audit_check s c0 = Ok tt) as Hcheck.
  { unfold delivered_audit_check, ValidatePlanCommandDeliveredAudit.
    rewrite (command_later_audit _ _ Hlater).
    change (AuditRefFromRecord (AuditRecordFromPlanCommand c))
      with (audit_ref_of (PlanCommandRefFromRecord c)). rewrite Hl. by apply Hagree. }
  cbn -[delivered_audit_check]. rewrite Hcheck. cbn. eexists _, _. split; [done|]. cbn.
  by rewrite lookup_insert_eq.
Qed.

Lemma run_extends {A} now (p : prog A) w :
  store_ok (w_store w) →
  store_ok (w_store (run_reliable now p w).2) ∧
  store_extends (w_store w) (w_store (run_reliable now p w).2).
Proof.
  revert w. induction p as [a|o k IH]; intros w Hok; [done|]. cbn.
  assert (store_ok (w_store (reliable now o w).2) ∧
          store_extends (w_store w) (w_store (reliable now o w).2)) as [Hok' Hx].
  { destruct (does_cases o w _ _ (reliable_does now o w)) as [(-> & _)|(q & s & Hq & -> & _)];
      [done|]. by eapply cs_step_extends. }
  destruct (IH (reliable now o w).1 _ Hok') as [? Hx']. split; [done|by etrans].
Qed.

(** [p] touches only the command [c] and its audit. *)
Definition touches {A} now (c : PlanCommandRecord) (p : prog A) : Prop :=
  ∀ w, store_ok (w_store w) → held (w_store w) c →
    touched (PlanCommandRefFromRecord c) (w_store w) (w_store (run_reliable now p w).2).

Lemma touches_bind {A B} now c (f : A → prog B) m :
  touches now c m → (∀ a, touches now c (f a)) → touches now c (prog_bind f m).
Proof.
  intros Hm Hf w Hok Hh. rewrite run_prog_bind. destruct (run_extends now m w Hok) as [Hok' Hx].
  etrans; [by apply Hm|]. apply Hf; [done|]. by eapply held_extends.
Qed.

Lemma touches_Rt {A B} now c (m : Rt A) (f : A → Rt B) :
  touches now c m → (∀ a, touches now c (f a)) → touches now c (m ≫= f).
Proof. intros Hm Hf. apply touches_bind; [done|]. by intros [a|e]; [|intros w]. Qed.

Lemma touches_try {A B} now c (m : Rt A) (f : A + werror → Rt B) :
  touches now c m → (∀ r, touches now c (f r)) → touches now c (try_rt m ≫= f).
Proof.
  intros Hm Hf. apply touches_Rt; [|done]. apply touches_bind; [done|]. by intros r w.
Qed.

Lemma touches_fail_marked {A} now c err err' :
  touches now c (fail_marked (A := A) (mark_failed_call c err) err').
Proof.
  intros w Hok Hh. cbn. pose proof (touched_mark now (PlanCommandRefFromRecord c)
    PlanCommandFailed (Error err) (w_store w)) as Ht. unfold MarkPlanCommandFailed.
  by destruct (updatePlanCommandStatus now (w_store w) _ _ _) as [s' []].
Qed.

Lemma touches_complete now c r :
  aud_PlanID r = cmd_PlanID c → aud_IdempotencyKey r = cmd_IdempotencyKey c →
  touches now c (complete_delivery c r).
Proof.
  intros Hp Hk. apply touches_Rt; [|intros _; apply touches_Rt; [|by intros [] w]].
  - intros w Hok Hh. pose proof (touched_audit now _ _ _ Hok Hh Hp Hk) as Ht. cbn.
    by destruct (RecordAudit now (w_store w) (Some r)) as [s' []].
  - intros w Hok Hh. cbn. pose proof (touched_mark now (PlanCommandRefFromRecord c)
      PlanCommandDelivered "" (w_store w)) as Ht. unfold MarkPlanCommandDelivered.
    by destruct (updatePlanCommandStatus now (w_store w) _ _ _) as [s' []].
Qed.

Lemma touches_executePlanWorkflow now c client queue queues endpoint peers spec :
  touches now c (executePlanWorkflow client queue queues endpoint peers spec).
Proof.
  intros w _ _. unfold executePlanWorkflow. rewrite run_rt_bind.
  destruct (negb client); cbn; [done|]. destruct (validateTaskQueues queues); done.
Qed.

Lemma touches_deliver now rc c : touches now c (deliver rc c).
Proof.
  unfold deliver. destruct (_ == PlanCommandDelivered); [by intros w|].
  destruct (_ == AuditActionPlanStart).
  - intros w Hok Hh. unfold deliverPlanStart. rewrite run_rt_bind. cbn [answer_rt run_reliable reliable].
    destruct (cs_get_plan _ _) as [[[spec status]|]|e] eqn:Hg; cbn [fst snd];
      try by apply touches_fail_marked.
    destruct (negb (cmd_IdempotencyKey c == _)) eqn:Hkey; [by apply touches_fail_marked|].
    apply negb_false_iff, bool_decide_eq_true in Hkey.
    destruct (rc_taskQueues rc) as [q|]; [|done].
    apply (touches_try now c); [apply touches_executePlanWorkflow| |done..].
    intros [[]|err]; [|apply touches_fail_marked]. apply touches_complete; [|done].
    exact (proj2 (ol_get_plan _ _ _ _ Hok Hg)).
  - destruct (commandDeliveryPayload c) as [[[name payload] r]|e] eqn:Hp; [|apply touches_fail_marked].
    apply commandDeliveryPayload_Ok in Hp as (_ & Hplan & Hkey).
    apply touches_Rt; [by intros w|]. intros [[]|e]; [by apply touches_complete|apply touches_fail_marked].
Qed.

(** A command that a request of the runtime recorded for a plan of the store, with an
    encodable payload and no conflicting audit. *)
Definition deliverable s (c : PlanCommandRecord) : Prop :=
  encodable c ∧ audit_agrees s c ∧
  ((∃ spec, specs s !! cmd_PlanID c = Some spec ∧ recorded_from c (planStartAuditRecord spec)) ∨
   (∃ ref signal, ValidatePlanSignal (Some signal) = Ok tt ∧
      recorded_from c (planSignalAuditRecord ref signal)) ∨
   (∃ ref control, ValidateControlRequest (Some control) = Ok tt ∧ ctl_ActorID control ≠ "" ∧
      ctl_IdempotencyKey control ≠ "" ∧ recorded_from c (planControlAuditRecord ref control))).

Lemma deliverable_touched s s' c c' :
  touched (PlanCommandRefFromRecord c') s s' →
  PlanCommandRefFromRecord c ≠ PlanCommandRefFromRecord c' → deliverable s c → deliverable s' c.
Proof.
  intros Ht Hne (He & Ha & Hr). split; [done|]. split; [|by rewrite (to_specs _ _ _ Ht)].
  intros a. rewrite (to_audits _ _ _ Ht); [apply Ha|]. intros Heq. apply Hne.
  unfold audit_ref_of in Heq. destruct (PlanCommandRefFromRecord c), (PlanCommandRefFromRecord c').
  cbn in Heq. congruence.
Qed.

(** The command is delivered in the store. *)
Definition marked s (c : PlanCommandRecord) : Prop :=
  ∃ c', commands s !! PlanCommandRefFromRecord c = Some c' ∧ delivered c'.

Lemma marked_extends s s' c : store_extends s s' → marked s c → marked s' c.
Proof.
  intros Hx (c1 & (c2 & ? & ?)%(se_commands _ _ Hx) & ?). exists c2.
  split; [done|by eapply command_later_delivered].
Qed.

(** [p] succeeds, sends [out] and leaves the command delivered. *)
Definition completes now w c (out : list delivery) (p : Rt unit) : Prop :=
  ∃ w', run_reliable now p w = (inl tt, w') ∧ w_sent w' = w_sent w ++ out ∧ marked (w_store w') c.

(** The workflow that a delivery is for. *)
Definition workflow_of (d : delivery) : string :=
  match d with Started id _ | Signaled id _ _ => id end.

(** The delivery that a command asks for: the start of the stored plan's first execution, or the
    signal or control request that was recorded. *)
Definition delivery_of s (c : PlanCommandRecord) (d : delivery) : Prop :=
  workflow_of d = planWorkflowID (cmd_PlanID c) ∧
  match d with
  | Started _ input => ∃ spec, specs s !! cmd_PlanID c = Some spec ∧
      recorded_from c (planStartAuditRecord spec) ∧ starts_known (eq spec) d
  | Signaled _ name (MSignal signal) =>
      name = PlanSignalName ∧ ∃ ref, recorded_from c (planSignalAuditRecord ref signal)
  | Signaled _ name (MControl control) =>
      name = PlanControlSignalName ∧ ∃ ref, recorded_from c (planControlAuditRecord ref control)
  end.

(** Programs that send nothing. *)
Fixpoint sendless {A} (p : prog A) : Prop :=
  match p with
  | Ret _ => True
  | Do o k => (∀ d, ¬ sends o d) ∧ ∀ r, sendless (k r)
  end.

Lemma run_sendless {A} now (p : prog A) w : sendless p → w_sent (run_reliable now p w).2 = w_sent w.
Proof.
  revert w. induction p as [a|o k IH]; intros w; [done|]. intros [Ho Hk]. cbn. rewrite IH by apply Hk.
  destruct (does_sent _ _ _ _ (reliable_does now o w)) as [?|(d & _ & Hd)]; [done|]. by destruct (Ho d).
Qed.

Lemma sendless_fail {A} c err err' : sendless (fail_marked (A := A) (mark_failed_call c err) err').
Proof. cbn. split; [by intros d []|]. by intros [?|?]. Qed.

Lemma sendless_complete c r : sendless (complete_delivery c r).
Proof.
  cbn. split; [by intros d []|]. intros [?|?]; cbn; [|done]. split; [by intros d []|]. by intros [?|?].
Qed.

Lemma complete_delivery_marks now w c r w' :
  store_ok (w_store w) → run_reliable now (complete_delivery c r) w = (inl tt, w') → marked (w_store w') c.
Proof.
  intros Hok. pose proof (run_extends now (ask (OpRecordAudit r)) w Hok) as [Hok1 _].
  unfold complete_delivery. rewrite run_rt_bind. cbn in Hok1 |- *.
  destruct (RecordAudit now (w_store w) (Some r)) as [s1 [a|e]]; cbn in Hok1 |- *; [|done].
  pose proof (ol_mark_Ok (S := MemoryPlanStore) s1 now (PlanCommandRefFromRecord c)) as Hm. cbn in Hm.
  destruct (MarkPlanCommandDelivered now s1 (PlanCommandRefFromRecord c)) as [s2 [c2|e]]; cbn in Hm |- *; [|done].
  intros [= <-]. by apply (Hm c2).
Qed.

Lemma complete_delivery_completes now w c :
  store_ok (w_store w) → held (w_store w) c → cmd_Action c ≠ "" → cmd_IdempotencyKey c ≠ "" →
  encodable c → audit_agrees (w_store w) c →
  completes now w c [] (complete_delivery c (AuditRecordFromPlanCommand c)).
Proof.
  intros Hok Hh Hact Hkey He Hagree.
  destruct (record_own_audit now _ _ Hok Hh Hact Hkey He Hagree)
    as (s' & a & new & Ha & Hcmds & Hagree' & Hsome).
  assert (store_ok s') as Hok'.
  { pose proof (run_extends now (ask (OpRecordAudit (AuditRecordFromPlanCommand c))) w Hok) as [Hx _].
    cbn in Hx. by rewrite Ha in Hx. }
  destruct (mark_own_command now s' c) as (s2 & c' & Hm & Hc' & Hd); [done| |done..|].
  { destruct Hh as (c0 & ? & ?). exists c0. by rewrite Hcmds. }
  exists (with_store w s2). split; [|split; [by rewrite app_nil_r|by exists c']].
  unfold complete_delivery, call_rt, ask, mbind, Rt_bind.
  cbn [prog_bind run_reliable reliable cs_record_audit memory_control_store]. rewrite Ha.
  cbn [wrote fst snd lift_rt prog_bind run_reliable reliable cs_mark_delivered memory_control_store
       with_store w_store].
  by rewrite Hm.
Qed.

(** The configuration of a reconciler that can start workflows. *)
Definition configured (rc : planCommandReconciler) : Prop :=
  rc_temporalClient rc = true ∧ rc_commandStore rc = true ∧ rc_auditStore rc = true ∧
  rc_planIndex rc = true ∧ validateTaskQueues (rc_taskQueues rc) = Ok tt.

(** The audit record [deliver] makes of a recorded command is the command's own. *)
Lemma deliver_payload_signal c ref signal :
  recorded_from c (planSignalAuditRecord ref signal) → ValidatePlanSignal (Some signal) = Ok tt →
  commandDeliveryPayload c = Ok (PlanSignalName, MSignal signal, AuditRecordFromPlanCommand c).
Proof.
  intros Hrec Hv. pose proof Hrec as (Hp & Hact & Haction & Hk & Hpay).
  unfold commandDeliveryPayload. rewrite (signalFromPlanCommand_recorded _ _ _ Hrec Hv), Haction.
  cbn [bool_decide]. unfold AuditRecordFromPlanCommand. rewrite Hpay, Hact, Haction, Hk. done.
Qed.

Lemma deliver_payload_control c ref control :
  recorded_from c (planControlAuditRecord ref control) →
  ValidateControlRequest (Some control) = Ok tt → ctl_ActorID control ≠ "" →
  commandDeliveryPayload c = Ok (PlanControlSignalName, MControl control, AuditRecordFromPlanCommand c).
Proof.
  intros Hrec Hv Hactor. pose proof Hrec as (Hp & Hact & Haction & Hk & Hpay).
  unfold commandDeliveryPayload.
  rewrite (controlFromPlanCommand_recorded _ _ _ Hrec Hv Hactor), Haction.
  unfold AuditRecordFromPlanCommand. rewrite Hpay, Hact, Haction, Hk. done.
Qed.

Lemma ValidatePlanSignal_key signal :
  ValidatePlanSignal (Some signal) = Ok tt → sig_IdempotencyKey signal ≠ "".
Proof.
  intros Hv. unfold ValidatePlanSignal in Hv. apply bind_Ok in Hv as ([] & _ & Hv).
  apply bind_Ok in Hv as ([] & Hk%fail_if_Ok & _). by simplify_bool.
Qed.

Lemma message_completes now w c name payload :
  store_ok (w_store w) → held (w_store w) c → encodable c → audit_agrees (w_store w) c →
  cmd_Action c ≠ "" → cmd_IdempotencyKey c ≠ "" →
  completes now w c [Signaled (planWorkflowID (cmd_PlanID c)) name payload]
    (answer ← answer_rt (OpSignalWorkflow (planWorkflowID (cmd_PlanID c)) name payload);
     match answer with
     | Err e => fail_marked (mark_failed_call c (Plain e)) (Plain (wrap_error
         "agentos temporal plan command reconciler - signal workflow: %w" e))
     | Ok _ => complete_delivery c (AuditRecordFromPlanCommand c)
     end).
Proof.
  intros Hok Hh He Ha Hact Hkey.
  destruct (complete_delivery_completes now
    (send w (Signaled (planWorkflowID (cmd_PlanID c)) name payload)) c Hok Hh Hact Hkey He Ha)
    as (w' & Hrun & Hsent & Hdone). exists w'. split; [exact Hrun|]. split; [|done].
  rewrite Hsent. by rewrite app_nil_r.
Qed.

Lemma execute_runs now queue q endpoint peers spec w :
  validateTaskQueues (Some q) = Ok tt →
  ∃ input, run_reliable now (executePlanWorkflow true queue (Some q) endpoint peers spec) w =
    (inl tt, send w (Started (planWorkflowID (spec_PlanID spec)) input)) ∧
    starts_known (eq spec) (Started (planWorkflowID (spec_PlanID spec)) input).
Proof. intros Hq. unfold executePlanWorkflow. rewrite Hq. eexists. split; [reflexivity|]. by split_and!. Qed.

Lemma deliver_start_completes now rc w c spec :
  configured rc → store_ok (w_store w) → held (w_store w) c → encodable c →
  audit_agrees (w_store w) c → specs (w_store w) !! cmd_PlanID c = Some spec →
  recorded_from c (planStartAuditRecord spec) →
  ∃ d, delivery_of (w_store w) c d ∧ completes now w c [d] (deliverPlanStart rc c).
Proof.
  intros (Hclient & _ & _ & _ & Hq) Hok Hh He Ha Hs Hrec. pose proof Hrec as (Hp & Hact & Haction & Hk & Hpay).
  destruct (held_spec _ _ Hok Hh) as (spec' & Hs' & Hpid & Hacc & Hproj & Href).
  rewrite Hs in Hs'. injection Hs' as <-. cbn in Hp, Hact, Haction, Hk, Hpay.
  assert (planStartAuditRecord spec = AuditRecordFromPlanCommand c) as Hrecord.
  { unfold planStartAuditRecord, AuditRecordFromPlanCommand. rewrite Hpay, Hact, Haction, Hk, Hacc, Hproj, Hp.
    done. }
  assert (GetPlanByRef (w_store w) (planRefFromCommand c) =
          Ok (Some (spec, status_of (w_store w) (cmd_PlanID c)))) as Hget.
  { unfold GetPlanByRef. rewrite Href. cbn -[ValidatePlanTenantAccess]. rewrite Hs.
    rewrite (proj2 (ValidatePlanTenantAccess_iff _ _)); [done|]. apply ValidatePlanRef_Ok in Href. by cbn. }
  destruct (rc_taskQueues rc) as [q|] eqn:Hqs; [|done].
  destruct (execute_runs now (tqs_PlanControl q) q (rc_nexusEndpoint rc) (rc_nexusPeers rc) spec w Hq)
    as (input & Hexec & Hknown).
  destruct (complete_delivery_completes now
    (send w (Started (planWorkflowID (spec_PlanID spec)) input)) c Hok Hh)
    as (w' & Hrun & Hsent & Hdone); [by rewrite Haction| |done..|].
  { rewrite Hk. by destruct (so_spec _ Hok _ _ Hs) as (_ & _ & ? & _). }
  exists (Started (planWorkflowID (spec_PlanID spec)) input). split.
  { split; [cbn; by rewrite Hp|]. by exists spec. }
  exists w'. split; [|split; [by rewrite Hsent, app_nil_r|done]]. unfold deliverPlanStart. rewrite run_rt_bind.
  cbn [answer_rt run_reliable reliable cs_get_plan memory_control_store fst snd]. rewrite Hget.
  cbn [fst snd]. rewrite Hk, bool_decide_eq_true_2 by done. cbn [negb]. rewrite Hqs, Hclient, run_try, Hexec.
  cbn [fst snd]. by rewrite Hrecord.
Qed.

Lemma deliver_completes now rc w c :
  configured rc → store_ok (w_store w) → held (w_store w) c → deliverable (w_store w) c →
  cmd_Status c ≠ PlanCommandDelivered →
  ∃ d, delivery_of (w_store w) c d ∧ completes now w c [d] (deliver rc c).
Proof.
  intros Hrc Hok Hh (He & Ha & Hr) Hst. unfold deliver. rewrite (bool_decide_eq_false_2 (cmd_Status c = _)) by done.
  destruct (held_spec _ _ Hok Hh) as (spec & Hs & Hpid & Hacc & Hproj & Href).
  destruct Hr as [(sp & Hs' & Hrec)|[(ref & signal & Hv & Hrec)|(ref & control & Hv & Hactor & Hkey & Hrec)]];
    pose proof Hrec as (Hp & Hact & Haction & Hk & Hpay); cbn in Hp, Hact, Haction, Hk;
    rewrite Haction.
  - rewrite Hs in Hs'. injection Hs' as <-. rewrite bool_decide_eq_true_2 by done.
    by apply (deliver_start_completes now rc w c spec).
  - rewrite bool_decide_eq_false_2 by done. rewrite (deliver_payload_signal c ref signal) by done.
    eexists. split; [|apply message_completes; [done..|by rewrite Haction|rewrite Hk; by apply ValidatePlanSignal_key]].
    split; [done|]. split; [done|by exists ref].
  - rewrite bool_decide_eq_false_2 by done. rewrite (deliver_payload_control c ref control) by done.
    eexists. split; [|apply message_completes; [done..|by rewrite Haction|by rewrite Hk]].
    split; [done|]. split; [done|by exists ref].
Qed.

(** What one delivery attempt of any command sends: at most one message, to the workflow of the
    command's plan; and a success means that it was sent and the command is marked. *)
Definition attempted now w c (p : Rt unit) : Prop :=
  ∃ out, w_sent (run_reliable now p w).2 = w_sent w ++ out ∧
    (out = [] ∨ ∃ d, out = [d] ∧ workflow_of d = planWorkflowID (cmd_PlanID c)) ∧
    ((run_reliable now p w).1 = inl tt → (∃ d, out = [d]) ∧ marked (w_store (run_reliable now p w).2) c).

Lemma attempted_failure now w c err : attempted now w c (markCommandFailed c err).
Proof.
  exists []. rewrite app_nil_r, run_sendless by apply sendless_fail. split; [done|]. split; [by left|].
  unfold markCommandFailed, fail_marked. rewrite run_try. done.
Qed.

Lemma attempted_complete now w c r d :
  store_ok (w_store w) → workflow_of d = planWorkflowID (cmd_PlanID c) →
  let p := run_reliable now (complete_delivery c r) (send w d) in
  w_sent p.2 = w_sent w ++ [d] ∧ (p.1 = inl tt → marked (w_store p.2) c).
Proof.
  intros Hok Hd. cbv zeta. rewrite run_sendless by apply sendless_complete. split; [done|].
  destruct (run_reliable now (complete_delivery c r) (send w d)) as [a w'] eqn:Hrun. cbn. intros ->.
  by eapply complete_delivery_marks in Hrun.
Qed.

Lemma deliver_attempted now rc w c :
  configured rc → store_ok (w_store w) → cmd_Status c ≠ PlanCommandDelivered → attempted now w c (deliver rc c).
Proof.
  intros (Hclient & _ & _ & _ & Hq) Hok Hst. unfold deliver. rewrite (bool_decide_eq_false_2 (cmd_Status c = _)) by done.
  destruct (_ == AuditActionPlanStart).
  - unfold deliverPlanStart, attempted. rewrite run_rt_bind. cbn [answer_rt run_reliable reliable fst snd].
    destruct (cs_get_plan _ _) as [[[spec status]|]|e] eqn:Hg; [|apply attempted_failure..].
    destruct (negb _); [apply attempted_failure|]. destruct (rc_taskQueues rc) as [q|]; [|done].
    pose proof (proj2 (ol_get_plan (S := MemoryPlanStore) _ _ _ _ Hok Hg)) as Hid. cbn in Hid.
    destruct (execute_runs now (tqs_PlanControl q) q (rc_nexusEndpoint rc) (rc_nexusPeers rc) spec w Hq)
      as (input & Hexec & _). rewrite Hclient, run_try, Hexec. cbn [fst snd].
    set (d := Started _ _). destruct (attempted_complete now w c (planStartAuditRecord spec) d) as [Hsent Hmark];
      [done|cbn; by rewrite Hid|]. exists [d]. split; [done|]. split; [right; exists d; cbn; by rewrite Hid|].
    intros Hr. split; [by exists d|by apply Hmark].
  - destruct (commandDeliveryPayload c) as [[[name payload] r]|e]; [|apply attempted_failure].
    unfold attempted. rewrite run_rt_bind. cbn [answer_rt run_reliable reliable fst snd].
    set (d := Signaled _ _ _). destruct (attempted_complete now w c r d) as [Hsent Hmark]; [done..|].
    exists [d]. split; [done|]. split; [right; by exists d|]. intros Hr. split; [by exists d|by apply Hmark].
Qed.

(** ** A pass *)

(** What the pass did with a command: the deliveries it sent for it and the error it collected.
    [s] is the store before the pass and [s'] the one after it. *)
Record handled s s' (c : PlanCommandRecord) (o : list delivery * option werror) : Prop := {
  ha_sent : o.1 = [] ∨ ∃ d, o.1 = [d] ∧ workflow_of d = planWorkflowID (cmd_PlanID c);
  ha_success : o.2 = None → (∃ d, o.1 = [d]) ∧ marked s' c;
  ha_deliverable : deliverable s c → o.2 = None ∧ ∃ d, o.1 = [d] ∧ delivery_of s c d;
}.

Lemma handled_extends s s1 s2 c o : store_extends s1 s2 → handled s s1 c o → handled s s2 c o.
Proof.
  intros Hx [Hs Hm Hd]. split; [done| |done]. intros Ho. destruct (Hm Ho). split; [done|by eapply marked_extends].
Qed.

Lemma handled_touched s s1 s2 c c' o :
  touched (PlanCommandRefFromRecord c') s s1 → PlanCommandRefFromRecord c ≠ PlanCommandRefFromRecord c' →
  handled s1 s2 c o → handled s s2 c o.
Proof.
  intros Ht Hne [Hs Hm Hd]. split; [done..|]. intros Hdel.
  destruct (Hd (deliverable_touched _ _ _ _ Ht Hne Hdel)) as (? & d & ? & Hw & Hof). split; [done|].
  exists d. split; [done|]. split; [done|]. destruct d; [|done]. by rewrite (to_specs _ _ _ Ht) in Hof.
Qed.

Lemma deliver_handled now rc w c :
  configured rc → store_ok (w_store w) → held (w_store w) c → cmd_Status c ≠ PlanCommandDelivered →
  ∃ out, let r := run_reliable now (deliver rc c) w in
    w_sent r.2 = w_sent w ++ out ∧ handled (w_store w) (w_store r.2) c (out, error_of r.1).
Proof.
  intros Hrc Hok Hh Hst. destruct (deliver_attempted now rc w c Hrc Hok Hst) as (out & Hsent & Hout & Hdone).
  exists out. cbv zeta. split; [done|]. split; cbn.
  - done.
  - destruct (run_reliable now (deliver rc c) w).1 as [[]|e]; [|done]. intros _. by apply Hdone.
  - intros Hd. destruct (deliver_completes now rc w c Hrc Hok Hh Hd Hst) as (d & Hof & w' & Hrun & Hs & _).
    rewrite Hrun in Hsent |- *. cbn in Hsent |- *. split; [done|]. exists d. split; [|done].
    rewrite Hs in Hsent. by apply app_inv_head in Hsent.
Qed.

(** The commands of a listing are stored commands, each listed once. *)
Lemma listed_stored s scope l c :
  store_ok s → ListRecoverablePlanCommands s scope = Ok l → c ∈ l →
  commands s !! PlanCommandRefFromRecord c = Some c.
Proof.
  intros Hok Hl Hc. unfold ListRecoverablePlanCommands in Hl. apply bind_Ok in Hl as (st & _ & [= <-]).
  apply elem_of_limit_list in Hc. rewrite elem_of_sort_slice in Hc.
  apply list_elem_of_filter in Hc as [_ Hc]. apply list_elem_of_fmap in Hc as ([ref c1] & -> & Hc).
  apply elem_of_map_to_list in Hc. cbn. by destruct (so_command _ Hok _ _ Hc) as [-> _].
Qed.

Lemma listed_refs s scope l :
  store_ok s → ListRecoverablePlanCommands s scope = Ok l → NoDup (PlanCommandRefFromRecord <$> l).
Proof.
  intros Hok Hl. apply NoDup_fmap_2_strong.
  - intros c1 c2 K1 K2 Heq. apply (listed_stored _ _ _ _ Hok Hl) in K1, K2. congruence.
  - unfold ListRecoverablePlanCommands in Hl. apply bind_Ok in Hl as (st & _ & [= <-]).
    assert (∀ l : list PlanCommandRecord, limit_list (cmds_Limit scope) l `sublist_of` l) as Hlimit.
    { intros l. unfold limit_list. destruct (_ && _); [apply sublist_take|done]. }
    eapply sublist_NoDup; [|apply Hlimit]. rewrite sort_slice_perm. apply NoDup_filter.
    apply NoDup_fmap_2_strong; [|apply NoDup_map_to_list].
    intros [r1 c1] [r2 c2] K1%elem_of_map_to_list K2%elem_of_map_to_list Heq. cbn in Heq. subst c2.
    destruct (so_command _ Hok _ _ K1) as [<- _], (so_command _ Hok _ _ K2) as [<- _]. done.
Qed.

Lemma listed_undelivered s limit l c :
  ListRecoverablePlanCommands s {| cmds_PlanID := ""; cmds_AccountID := ""; cmds_ProjectID := "";
    cmds_Action := ""; cmds_Statuses := []; cmds_Limit := limit |} = Ok l →
  c ∈ l → cmd_Status c ≠ PlanCommandDelivered.
Proof.
  intros Hl Hc Hst. unfold ListRecoverablePlanCommands in Hl. apply bind_Ok in Hl as (st & Hst' & [= <-]).
  apply elem_of_limit_list in Hc. rewrite elem_of_sort_slice in Hc. apply list_elem_of_filter in Hc as [Hm _].
  unfold RecoverablePlanCommandStatuses in Hst'. cbn in Hst'. destruct (limit <? 0)%Z; [done|].
  injection Hst' as <-. unfold memoryPlanCommandMatchesScope in Hm. rewrite Hst in Hm. by vm_compute in Hm.
Qed.

(** The pass over a list: command by command. *)
Lemma deliver_all_delivers now rc l result errs w :
  configured rc → store_ok (w_store w) → Forall (held (w_store w)) l →
  NoDup (PlanCommandRefFromRecord <$> l) → Forall (λ c, cmd_Status c ≠ PlanCommandDelivered) l →
  ∃ outs w',
    run_reliable now (deliver_all rc l result errs) w =
      (inl ({| result with
               pcr_Delivered := pcr_Delivered result + (Z.of_nat (length l) - Z.of_nat (length (omap snd outs)));
               pcr_Failed := pcr_Failed result + Z.of_nat (length (omap snd outs)) |},
            errs ++ omap snd outs), w') ∧
    store_extends (w_store w) (w_store w') ∧ w_sent w' = w_sent w ++ concat outs.*1 ∧
    Forall2 (handled (w_store w) (w_store w')) l outs.
Proof.
  intros Hrc. revert result errs w. induction l as [|c l IH]; intros result errs w Hok Hheld Hnd Hst.
  { exists [], w. split_and!; [|done|by rewrite app_nil_r|constructor]. cbn. rewrite app_nil_r, !Z.add_0_r.
    by destruct result. }
  apply Forall_cons in Hheld as [Hc Hl]. rewrite fmap_cons, NoDup_cons in Hnd. destruct Hnd as [Hnew Hnd].
  apply Forall_cons in Hst as [Hstc Hst].
  pose proof (touches_deliver now rc c w Hok Hc) as Ht.
  pose proof (run_extends now (deliver rc c) w Hok) as [Hok1 Hx1].
  destruct (deliver_handled now rc w c Hrc Hok Hc Hstc) as (out & Hsent & Hself).
  cbn [deliver_all]. rewrite run_try.
  destruct (run_reliable now (deliver rc c) w) as [r w1] eqn:Hrun. cbn [fst snd] in *.
  assert (Forall (held (w_store w1)) l) as Hl1
    by (eapply Forall_impl; [exact Hl|]; intros; by eapply held_extends).
  assert (∀ outs w2, w_sent w2 = w_sent w1 ++ concat outs.*1 → store_extends (w_store w1) (w_store w2) →
    Forall2 (handled (w_store w1) (w_store w2)) l outs →
    store_extends (w_store w) (w_store w2) ∧
    w_sent w2 = w_sent w ++ concat ((out, error_of r) :: outs).*1 ∧
    Forall2 (handled (w_store w) (w_store w2)) (c :: l) ((out, error_of r) :: outs)) as Hjoin.
  { intros outs w2 Hs2 Hx2 Hall. split_and!; [by etrans|by rewrite Hs2, Hsent, <- app_assoc|].
    constructor; [by eapply handled_extends|]. rewrite Forall2_lookup in Hall |- *. intros i.
    specialize (Hall i). destruct (l !! i) as [c'|] eqn:Hi; inversion Hall; subst; constructor.
    eapply handled_touched; [done| |done]. intros Heq. apply Hnew. rewrite <- Heq.
    by eapply list_elem_of_fmap_2, list_elem_of_lookup_2. }
  destruct r as [[]|e].
  - destruct (IH {| result with pcr_Delivered := pcr_Delivered result + 1 |} errs w1 Hok1 Hl1 Hnd Hst)
      as (outs & w2 & Hrun2 & Hx2 & Hs2 & Hall).
    exists ((out, None) :: outs), w2. split; [|by apply Hjoin]. rewrite Hrun2. cbn. do 4 f_equal. lia.
  - destruct (IH {| result with pcr_Failed := pcr_Failed result + 1 |} (errs ++ [e]) w1 Hok1 Hl1 Hnd Hst)
      as (outs & w2 & Hrun2 & Hx2 & Hs2 & Hall).
    exists ((out, Some e) :: outs), w2. split; [|by apply Hjoin]. rewrite Hrun2, <- app_assoc. cbn.
    do 4 f_equal; lia.
Qed.
End recovery.

(** ** Commands of a store that keeps documents *)

(** A command as internal/repo/persistent/agentos_plan_postgres.go returns it: the payload
    went through [json.Marshal] when it was inserted and through [json.Unmarshal] in
    [planCommandRecordFromRow]. *)
Definition planCommandRecordFromRow (c : PlanCommandRecord) : PlanCommandRecord :=
  {| c with cmd_Payload := decode_map (enc_map enc_any (normalizeAuditPayload (cmd_Payload c))) |}.

(** Documents that decoding and encoding again does not change: objects have sorted,
    distinct keys, and numbers are kept as literals. *)
Inductive canonical : json → Prop :=
  | canonical_null : canonical JNull
  | canonical_bool b : canonical (JBool b)
  | canonical_number n : canonical (JNumber n)
  | canonical_string s : canonical (JString s)
  | canonical_time t : enc_time t = JTime t → canonical (JTime t)
  | canonical_array l : Forall canonical l → canonical (JArray l)
  | canonical_object l : NoDup l.*1 → Sorted entry_le l → Forall (λ kv, canonical kv.2) l →
      canonical (JObject l).

#[local] Instance entry_le_trans : Transitive entry_le.
Proof. intros x y z. unfold entry_le. apply transitivity. Qed.
#[local] Instance entry_le_total : Total entry_le.
Proof. intros x y. unfold entry_le. apply total. apply _. Qed.

(** A sorted listing of a map determines it. *)
Lemma enc_object_sorted (m : gmap string json) l :
  NoDup l.*1 → Sorted entry_le l → map_to_list m ≡ₚ l → enc_object m = JObject l.
Proof.
  intros Hnd Hs Hp. unfold enc_object. f_equal.
  apply (StronglySorted_unique_strong entry_le).
  - intros [k1 v1] [k2 v2] K1 K2 Hle1 Hle2. unfold entry_le in Hle1, Hle2. cbn in *.
    assert (k1 = k2) as -> by by apply (anti_symm String.le).
    rewrite merge_sort_Permutation, Hp in K1. f_equal.
    apply (elem_of_list_to_map_1 (M := gmap string)) in K1, K2; [|done..]. congruence.
  - apply Sorted_StronglySorted; [apply _|]. apply Sorted_merge_sort. apply _.
  - apply Sorted_StronglySorted; [apply _|done].
  - by rewrite merge_sort_Permutation.
Qed.

Lemma canonical_roundtrip j : canonical j → enc_any (decode_any j) = j.
Proof.
  induction j as [| | | | | |l IH|l IH|] using json_rect_strong; intros Hc;
    inversion Hc as [| | | | |? Hall|? Hnd Hsort Hall]; subst; try done.
  - cbn. f_equal. rewrite <- list_fmap_compose. rewrite <- (list_fmap_id l) at 2.
    apply list_fmap_ext. intros i x Hx. cbn. rewrite !Forall_lookup in *. by eauto.
  - cbn. apply enc_object_sorted; [done..|].
    rewrite <- (list_to_map_fmap (M := gmap string) enc_any).
    assert (prod_map id enc_any <$> ((λ kv, (kv.1, decode_any kv.2)) <$> l) = l) as ->.
    { rewrite <- list_fmap_compose. rewrite <- (list_fmap_id l) at 2. apply list_fmap_ext.
      intros i [k x] Hx. cbn. rewrite !Forall_lookup in *. specialize (IH _ _ Hx). cbn in IH.
      rewrite IH; [done|]. by apply (Hall i (k, x)). }
    by apply map_to_list_to_map.
Qed.

Lemma enc_object_inj (m1 m2 : gmap string json) : enc_object m1 = enc_object m2 → m1 = m2.
Proof.
  unfold enc_object. intros [= Heq]. apply map_to_list_inj.
  rewrite <- (merge_sort_Permutation entry_le (map_to_list m1)), Heq. apply merge_sort_Permutation.
Qed.

Lemma canonical_object_values (m : gmap string any) :
  canonical (enc_object (enc_any <$> m)) →
  enc_any <$> (reload_any <$> m) = enc_any <$> m.
Proof.
  intros Hc. inversion Hc as [| | | | | |l Hnd Hs Hall]. apply map_eq. intros k.
  rewrite !lookup_fmap. destruct (m !! k) as [v|] eqn:Hk; [|done]. cbn. f_equal.
  apply canonical_roundtrip. rewrite Forall_forall in Hall. apply (Hall (k, enc_any v)).
  rewrite merge_sort_Permutation. apply elem_of_map_to_list. by rewrite lookup_fmap, Hk.
Qed.

Lemma canonical_supported j : canonical j → supported j = true.
Proof.
  induction j as [| | | | | |l IH|l IH|] using json_rect_strong; intros Hc;
    inversion Hc as [| | | | |? Hall|? Hnd Hsort Hall]; subst; try done.
  - induction IH as [|x l Hx _ IHl]; [done|]. apply Forall_cons in Hall as [Hcx Hall]. cbn.
    rewrite (Hx Hcx). apply IHl; [by constructor|done].
  - apply supported_values. rewrite !Forall_forall in *. by auto.
Qed.

Lemma canonical_enc_object (m : gmap string json) :
  map_Forall (λ _ v, canonical v) m → canonical (enc_object m).
Proof.
  intros Hm. constructor.
  - rewrite merge_sort_Permutation. apply NoDup_fst_map_to_list.
  - apply Sorted_merge_sort, _.
  - rewrite merge_sort_Permutation. apply Forall_forall.
    intros [k v] Hin%elem_of_map_to_list. by apply (Hm k).
Qed.

Lemma canonical_value (m : gmap string any) k v :
  canonical (enc_object (enc_any <$> m)) → m !! k = Some v → canonical (enc_any v).
Proof.
  intros Hc Hk. inversion Hc as [| | | | | |l Hnd Hs Hall]. rewrite Forall_forall in Hall.
  apply (Hall (k, enc_any v)). rewrite merge_sort_Permutation. apply elem_of_map_to_list.
  by rewrite lookup_fmap, Hk.
Qed.

Lemma reloaded_payload c k : cmd_Payload c ≠ None →
  map_get (cmd_Payload (planCommandRecordFromRow c)) k = reload_any <$> map_get (cmd_Payload c) k.
Proof.
  cbn. destruct (cmd_Payload c) as [m|]; [|done]. intros _. unfold decode_map. cbn [normalizeAuditPayload enc_map].
  rewrite decode_enc_object. apply lookup_fmap.
Qed.

(** The signal that a reloaded command is decoded to. *)
Definition reloaded_signal (signal : Signal) : Signal :=
  {| signal with sig_Payload := Some (reload_any <$> default ∅ (sig_Payload signal)) |}.

Lemma ValidatePlanSignal_reloaded signal :
  ValidatePlanSignal (Some signal) = Ok tt → ValidatePlanSignal (Some (reloaded_signal signal)) = Ok tt.
Proof.
  unfold ValidatePlanSignal. cbn [reloaded_signal sig_Type sig_IdempotencyKey sig_ActorID].
  destruct (fail_if (sig_Type signal == "") _); cbn; [|done].
  destruct (fail_if (sig_IdempotencyKey signal == "") _); cbn; [|done].
  destruct (fail_if (sig_ActorID signal == "") _); cbn; [|done].
  destruct (sig_Type signal == SignalPlanNodeRetry); [|done].
  unfold payload_string. cbn. destruct (sig_Payload signal) as [m|]; cbn; [|done].
  rewrite lookup_fmap. by destruct (m !! SignalPayloadNodeID) as [[]|].
Qed.

Lemma signalFromPlanCommand_reloaded c ref signal :
  recorded_from c (planSignalAuditRecord ref signal) → ValidatePlanSignal (Some signal) = Ok tt →
  (time_is_zero (sig_SentAt signal) = false → enc_time (sig_SentAt signal) = JTime (sig_SentAt signal)) →
  signalFromPlanCommand (planCommandRecordFromRow c) = Ok (reloaded_signal signal).
Proof.
  intros (_ & Ha & _ & Hk & Hp) Hv Ht. unfold signalFromPlanCommand, signalTypePayload, mapPayload,
    optionalTimePayload.
  rewrite !reloaded_payload by by rewrite Hp.
  rewrite Hp, signal_payload_type, signal_payload_payload, signal_payload_sent_at.
  cbn -[ValidatePlanSignal]. rewrite Ha, Hk. apply ValidatePlanSignal_reloaded in Hv.
  unfold reloaded_signal in *. destruct signal as [t k a p sent]; cbn -[ValidatePlanSignal] in *.
  replace (reload_any (any_of_map p)) with
    (match p with None => ANil | Some m => AMap (reload_any <$> m) end).
  2:{ destruct p as [m|]; [|done]. symmetry. apply decode_enc_object. }
  destruct (time_is_zero sent) eqn:Hz; cbn -[ValidatePlanSignal].
  - unfold time_is_zero in Hz. apply bool_decide_eq_true in Hz. subst sent.
    destruct p as [m|]; cbn -[ValidatePlanSignal] in *; rewrite ?fmap_empty in Hv; by rewrite Hv, ?fmap_empty.
  - rewrite (Ht eq_refl). cbn -[ValidatePlanSignal].
    destruct p as [m|]; cbn -[ValidatePlanSignal] in *; rewrite ?fmap_empty in Hv; by rewrite Hv, ?fmap_empty.
Qed.

Lemma canonical_sent_at ref signal :
  canonical (enc_map enc_any (aud_Payload (planSignalAuditRecord ref signal))) →
  time_is_zero (sig_SentAt signal) = false →
  enc_time (sig_SentAt signal) = JTime (sig_SentAt signal).
Proof.
  intros Hc Hz. pose proof (signal_payload_sent_at ref signal) as Hs. rewrite Hz in Hs.
  apply (canonical_value _ _ _ Hc) in Hs. cbn in Hs. unfold enc_time in *.
  destruct (_ && _); [done|]. by inversion Hs.
Qed.

(** The comparison of a reloaded signal command with the audit made of it comes down to
    the payload entry. *)
Lemma reloaded_audit c ref signal :
  recorded_from c (planSignalAuditRecord ref signal) →
  let c' := planCommandRecordFromRow c in
  let r' := planSignalAuditRecord (planRefFromCommand c') (reloaded_signal signal) in
  enc_map enc_any (aud_Payload r') = enc_map enc_any (cmd_Payload c') ↔ sig_Payload signal ≠ None.
Proof.
  intros (_ & _ & _ & _ & Hp). cbv zeta.
  assert (cmd_Payload (planCommandRecordFromRow c) =
            option_map (λ m : gmap string any, reload_any <$> m)
              (aud_Payload (planSignalAuditRecord ref signal))) as Hc'.
  { cbn [planCommandRecordFromRow cmd_Payload]. rewrite Hp. unfold decode_map.
    cbn [planSignalAuditRecord aud_Payload normalizeAuditPayload enc_map]. by rewrite decode_enc_object. }
  rewrite Hc'. clear Hc' Hp.
  assert (∀ (b : bool) (x y : gmap string any),
    enc_any <$> x = enc_any <$> (reload_any <$> y) →
    enc_any <$> (if b then <[planCommandPayloadSentAt := AValue (VTime (sig_SentAt signal))]> x else x) =
    enc_any <$> (reload_any <$>
      (if b then <[planCommandPayloadSentAt := AValue (VTime (sig_SentAt signal))]> y else y))) as Hsent.
  { intros [] x y Hxy; [|done]. rewrite !fmap_insert, Hxy. f_equal. unfold reload_any. cbn.
    unfold enc_time. destruct (_ && _) eqn:Hr; cbn; [|done]. unfold enc_time. by rewrite Hr. }
  cbn [planSignalAuditRecord aud_Payload reloaded_signal sig_Type sig_SentAt sig_Payload option_map].
  change (enc_map enc_any (Some ?x)) with (enc_object (enc_any <$> x)).
  split.
  - intros Heq%enc_object_inj Hnone.
    apply (f_equal (lookup planCommandPayloadPayload)) in Heq. rewrite Hnone in Heq.
    destruct (negb _); cbn in Heq; simplify_map_eq.
  - intros Hsome. destruct (sig_Payload signal) as [m|]; [|done]. cbn [enc_map].
    f_equal. apply Hsent. cbn [list_to_map foldr curry fst snd uncurry]. rewrite !fmap_insert, !fmap_empty.
    change (reload_any (any_of_map (Some m))) with (decode_any (enc_object (enc_any <$> m))).
    by rewrite decode_enc_object.
Qed.

(** A command against an audit of the same plan, tenant, actor, action and key. *)
Lemma own_audit_iff c record :
  AuditRecordFromPlanCommand c = {| record with aud_Payload := cmd_Payload c |} →
  supported (enc_map enc_any (normalizeAuditPayload (aud_Payload record))) = true →
  ValidatePlanCommandDeliveredAudit c record = Ok tt ↔
  enc_map enc_any (normalizeAuditPayload (aud_Payload record)) =
  enc_map enc_any (normalizeAuditPayload (cmd_Payload c)).
Proof.
  intros Heq Hs. unfold ValidatePlanCommandDeliveredAudit, ValidateAuditIdempotency,
    validateAuditReplayScope. rewrite Heq. cbn -[same_json enc_map normalizeAuditPayload].
  rewrite !bool_decide_eq_true_2 by done. cbn -[same_json enc_map normalizeAuditPayload].
  rewrite same_json_Ok. tauto.
Qed.

Lemma reloaded_payload_normal c : cmd_Payload c ≠ None →
  normalizeAuditPayload (cmd_Payload (planCommandRecordFromRow c)) =
  cmd_Payload (planCommandRecordFromRow c).
Proof.
  cbn. destruct (cmd_Payload c) as [m|]; [|done]. intros _. unfold decode_map.
  cbn [normalizeAuditPayload enc_map]. by rewrite decode_enc_object.
Qed.

Lemma supported_enc_object (m : gmap string json) :
  map_Forall (λ _ v, supported v = true) m → supported (enc_object m) = true.
Proof.
  intros Hm. apply supported_values. rewrite merge_sort_Permutation. apply Forall_forall.
  intros [k v] Hin%elem_of_map_to_list. by apply (Hm k).
Qed.

(** The audit record of a redelivered signal can be encoded. *)
Lemma reloaded_supported ref ref' signal :
  canonical (enc_map enc_any (aud_Payload (planSignalAuditRecord ref signal))) →
  supported (enc_map enc_any (normalizeAuditPayload
    (aud_Payload (planSignalAuditRecord ref' (reloaded_signal signal))))) = true.
Proof.
  intros Hc. pose proof (canonical_sent_at _ _ Hc) as Ht.
  pose proof (canonical_value _ _ _ Hc (signal_payload_payload ref signal)) as Hp.
  assert (supported (enc_any (any_of_map (sig_Payload (reloaded_signal signal)))) = true) as Hpay.
  { cbn [reloaded_signal sig_Payload any_of_map enc_any].
    destruct (sig_Payload signal) as [m|]; cbn [default any_of_map enc_any] in *.
    - change (supported (enc_object (enc_any <$> (reload_any <$> m))) = true).
      rewrite (canonical_object_values _ Hp). by apply canonical_supported.
    - by rewrite fmap_empty, fmap_empty. }
  cbn [planSignalAuditRecord aud_Payload normalizeAuditPayload enc_map]. apply supported_enc_object.
  apply map_Forall_fmap.
  assert (map_Forall (λ _ v, supported (enc_any v) = true) (list_to_map
    [(planCommandPayloadSignalType, AValue (VSignalType (sig_Type (reloaded_signal signal))));
     (planCommandPayloadPayload, any_of_map (sig_Payload (reloaded_signal signal)))]
       : gmap string any)) as Hbase.
  { cbn [list_to_map foldr]. apply map_Forall_insert_2; [done|].
    apply map_Forall_insert_2; [exact Hpay|]. apply map_Forall_empty. }
  destruct (time_is_zero _) eqn:Hz; [exact Hbase|]. apply map_Forall_insert_2; [|exact Hbase].
  cbn. by rewrite Ht.
Qed.

(** ** Theorems *)

(** C9: A recovery pass delivers what was left behind.  On the in-memory store, when the Temporal
    service can be reached, [RecoverPlanCommands] succeeds on any reachable store and handles the
    listed commands one by one: for each it sends at most one delivery, to the workflow of the
    command's plan.  A command that a request of the runtime recorded, whose payload can be encoded
    and whose key carries no other audit gets exactly one, whatever happens to the others: the
    recorded signal or control request itself, or the start of the first execution of the stored
    plan.  Every command that the pass counts as delivered was sent and is marked delivered
    afterwards; the others are counted as failed, each with its error; and nothing else is sent. *)
Theorem recovery_pass `{!Sha256, !SliceSort, !ErrorText} now rt limit s artifacts sent :
  store_reachable s → configured (newPlanCommandReconciler rt) → (0 ≤ limit)%Z →
  ∃ listed res outs w',
    ListRecoverablePlanCommands s {| cmds_PlanID := ""; cmds_AccountID := "";
      cmds_ProjectID := ""; cmds_Action := ""; cmds_Statuses := []; cmds_Limit := limit |} =
      Ok listed ∧
    run_reliable now (RecoverPlanCommands (Some rt) limit) (MkWorld s artifacts sent) =
      (inl (res, omap snd outs), w') ∧
    Forall2 (handled s (w_store w')) listed outs ∧
    w_sent w' = sent ++ concat outs.*1 ∧
    res = {| pcr_Scanned := Z.of_nat (length listed);
             pcr_Delivered := Z.of_nat (length listed) - Z.of_nat (length (omap snd outs));
             pcr_Failed := Z.of_nat (length (omap snd outs)) |} ∧
    (Forall (deliverable s) listed →
       omap snd outs = [] ∧ pcr_Delivered res = Z.of_nat (length listed) ∧ pcr_Failed res = 0%Z).
Proof.
  intros Hreach Hrc Hlimit. apply reachable_ok in Hreach as Hok.
  destruct (ListRecoverablePlanCommands s _) as [listed|e] eqn:Hl.
  2:{ unfold ListRecoverablePlanCommands, RecoverablePlanCommandStatuses in Hl. cbn in Hl.
      destruct (Z.ltb_spec limit 0); [lia|done]. }
  destruct (deliver_all_delivers now (newPlanCommandReconciler rt) listed
    {| pcr_Scanned := Z.of_nat (length listed); pcr_Delivered := 0; pcr_Failed := 0 |} []
    (MkWorld s artifacts sent)) as (outs & w' & Hrun & _ & Hsent & Hall);
    [done|done| |by eapply listed_refs|apply Forall_forall; intros c; by eapply listed_undelivered|].
  { apply Forall_forall. intros c Hc. exists c. split; [|done]. by eapply listed_stored. }
  eexists listed, _, outs, w'. split_and!; [done| |done|done|reflexivity|].
  - destruct Hrc as (Hclient & Hcmd & Haud & Hidx & _). cbn in Hclient, Hcmd, Haud, Hidx.
    unfold RecoverPlanCommands, Recover. cbn [newPlanCommandReconciler rc_temporalClient
      rc_commandStore rc_auditStore rc_planIndex]. rewrite Hclient, Hcmd, Haud, Hidx. cbn in Hrun |- *.
    by rewrite Hl.
  - intros Hd. assert (omap snd outs = []) as ->; [|cbn; split_and!; [done|lia|done]].
    clear -Hd Hall. induction Hall as [|c o l outs Ho _ IH]; [done|]. apply Forall_cons in Hd as [Hc Hd].
    cbn. destruct (ha_deliverable _ _ _ _ Ho Hc) as [-> _]. by apply IH.
Qed.

(** A replica recorded the sample signal and crashed before it sent it. *)
Module RecoverySample.
#[local] Existing Instance StoreSample.sha.
#[local] Existing Instance OutboxSample.text.
Definition command : PlanCommandRecord :=
  planCommandFromAuditRecord (planSignalAuditRecord OutboxSample.ref OutboxSample.signal).
Definition store : MemoryPlanStore :=
  (RecordPlanCommand StoreSample.now StoreSample.s1 (Some command)).1.
Definition stored : PlanCommandRecord := {| command with
  cmd_CommandID := "command:00ff"; cmd_AccountID := "acct"; cmd_ProjectID := "proj";
  cmd_CreatedAt := StoreSample.now; cmd_UpdatedAt := StoreSample.now |}.
Definition pass := run_reliable StoreSample.now (RecoverPlanCommands (Some OutboxSample.runtime) 100)
  (MkWorld store NewMemoryArtifactStore []).

Lemma store_is_reachable : store_reachable store.
Proof. eapply rtc_r; [exact StoreSample.s1_reachable|exact (step_command _ _ _)]. Qed.

Lemma stored_deliverable : deliverable store stored.
Proof.
  split_and!; [vm_compute; reflexivity| |].
  - intros a Ha. assert (auditKeys store = ∅) as He by (vm_compute; reflexivity).
    by rewrite He, lookup_empty in Ha.
  - right. left. exists OutboxSample.ref, OutboxSample.signal. by split_and!.
Qed.
End RecoverySample.

Lemma recovery_pass_witness :
  marked (w_store RecoverySample.pass.2) RecoverySample.stored ∧
  w_sent RecoverySample.pass.2 =
    [Signaled "agentos-plan-plan-1" PlanSignalName (MSignal OutboxSample.signal)].
Proof.
  destruct (recovery_pass (H := StoreSample.sha) (H1 := OutboxSample.text) StoreSample.now
    OutboxSample.runtime 100 RecoverySample.store NewMemoryArtifactStore [])
    as (listed & res & outs & w' & Hl & Hrun & Hall & _).
  - exact RecoverySample.store_is_reachable.
  - by repeat split.
  - lia.
  - split; [|vm_compute; reflexivity]. unfold RecoverySample.pass. rewrite Hrun. cbn [snd].
    assert (listed = [RecoverySample.stored]) as -> by (clear -Hl; vm_compute in Hl; injection Hl as <-; reflexivity).
    apply Forall2_cons_inv_l in Hall as (o & outs' & Ho & _).
    apply (ha_success _ _ _ _ Ho), (ha_deliverable _ _ _ _ Ho), RecoverySample.stored_deliverable.
Defined.

(** A signal command that comes back from a document store can be completed if and only
    if the signal had a payload.  The plan store of the deployment keeps command payloads
    as JSON; a command read from it is recognised as the same request, and [deliver]
    decodes it and sends the signal.  But a nil payload comes back as an empty object: the
    audit record of the redelivery then differs from the command, the delivered mark is
    refused, and the command is sent again in every pass. *)
Theorem reloaded_signal_completes c ref signal :
  recorded_from c (planSignalAuditRecord ref signal) → ValidatePlanSignal (Some signal) = Ok tt →
  canonical (enc_map enc_any (cmd_Payload c)) →
  ValidatePlanCommandIdempotency (planCommandRecordFromRow c) c = Ok tt ∧
  ∃ signal' record,
    commandDeliveryPayload (planCommandRecordFromRow c) =
      Ok (PlanSignalName, MSignal signal', record) ∧
    (ValidatePlanCommandDeliveredAudit (planCommandRecordFromRow c) record = Ok tt ↔
       sig_Payload signal ≠ None).
Proof.
  intros Hrec Hv Hc. pose proof Hrec as (Hp & Hact & Haction & Hk & Hpay). split.
  - unfold ValidatePlanCommandIdempotency. cbn [planCommandRecordFromRow cmd_PlanID cmd_AccountID
      cmd_ProjectID cmd_ActorID cmd_Action cmd_IdempotencyKey cmd_Payload].
    rewrite !bool_decide_eq_true_2 by done. cbn -[same_json enc_map decode_map]. apply same_json_Ok.
    rewrite Hpay in *. cbn [planSignalAuditRecord aud_Payload normalizeAuditPayload] in *.
    unfold decode_map. cbn [enc_map] in *. rewrite decode_enc_object. cbn [normalizeAuditPayload enc_map].
    rewrite (canonical_object_values _ Hc). split; [by apply canonical_supported|done].
  - rewrite Hpay in Hc. pose proof (canonical_sent_at _ _ Hc) as Ht.
    eexists _, _. split.
    + unfold commandDeliveryPayload. cbn [planCommandRecordFromRow cmd_Action]. rewrite Haction.
      cbn [planSignalAuditRecord aud_Action]. rewrite bool_decide_eq_true_2 by done.
      by rewrite (signalFromPlanCommand_reloaded _ _ _ Hrec Hv Ht).
    + rewrite <- (reloaded_audit _ _ _ Hrec).
      rewrite <- (reloaded_payload_normal c) by by rewrite Hpay.
      apply own_audit_iff; [|by apply (reloaded_supported ref)].
      unfold AuditRecordFromPlanCommand, planSignalAuditRecord. cbn -[decode_map].
      by rewrite Haction, Hact, Hk.
Qed.

Lemma reloaded_signal_completes_witness :
  ∃ signal' record,
    commandDeliveryPayload (planCommandRecordFromRow RecoverySample.stored) =
      Ok (PlanSignalName, MSignal signal', record) ∧
    ValidatePlanCommandDeliveredAudit (planCommandRecordFromRow RecoverySample.stored) record ≠ Ok tt.
Proof.
  destruct (reloaded_signal_completes RecoverySample.stored OutboxSample.ref OutboxSample.signal)
    as [_ (signal' & record & Hp & Hiff)].
  - by split_and!.
  - reflexivity.
  - apply canonical_enc_object, map_Forall_fmap.
    repeat (apply map_Forall_insert_2; [by constructor|]). apply map_Forall_empty.
  - exists signal', record. split; [exact Hp|]. intros Hv. exact (proj1 Hiff Hv eq_refl).
Defined.
