(* ===== verification/RuntimeStream.v ===== *)
(** * Event subscriptions

    A subscriber of a plan gets the stream after its cursor, then of what the live channel
    brings exactly what it has not got yet, although the replay is read from the store in two
    parts, the live tail is attached in between, and events are appended all the while.  The
    live channel is free to drop events, to repeat them and to bring them in another order. *)

From S2P Require Import Prelude Types Graph Scope Validator State Json Idempotency Artifacts PlanStore.
From S2P Require Import PlanStoreSpec Temporal Workflow Runtime RuntimeSpec.

(** ** Programs under interference *)

Section runs.
Context {S : Type} `{!ControlStore S} (interferes : World S → World S → Prop).

(** [runs p w a w']: [p] started in [w] returns [a] in [w'], while others move the world
    between its calls. *)
Fixpoint runs {A} (p : prog A) (w : World S) (a : A) (w' : World S) : Prop :=
  match p with
  | Ret b => a = b ∧ w' = w
  | Do o k => ∃ w1 r w2, interferes w w1 ∧ does o w1 r w2 ∧ runs (k r) w2 a w'
  end.

Lemma runs_prog_bind {A B} (f : A → prog B) m w b w' :
  runs (prog_bind f m) w b w' → ∃ a w1, runs m w a w1 ∧ runs (f a) w1 b w'.
Proof.
  revert w. induction m as [a|o k IH]; intros w Hm; [by exists a, w|].
  destruct Hm as (w1 & r & w2 & Hi & Hd & Hk). apply IH in Hk as (a & w3 & ? & ?).
  exists a, w3. split; [|done]. by exists w1, r, w2.
Qed.

Lemma runs_bind {A B} (m : Rt A) (f : A → Rt B) w b w' :
  runs (m ≫= f) w (inl b) w' → ∃ a w1, runs m w (inl a) w1 ∧ runs (f a) w1 (inl b) w'.
Proof.
  intros ([a|e] & w1 & Hm & Hf)%runs_prog_bind; [by exists a, w1|]. by destruct Hf.
Qed.

Lemma runs_lift {A} (r : result A) w a w' : runs (lift_rt r) w (inl a) w' → r = Ok a ∧ w' = w.
Proof. destruct r; intros [??]; naive_solver. Qed.
End runs.

(** ** The queue behind a subscription *)

(** What a subscription that has received [live] owes its subscriber. *)
Definition owed (scope : PlanStreamScope) (after : Z) (replay live : list PlanEvent) : list Event :=
  ToEvent <$> replay ++ filter (λ e, forwarded scope after e = true) live.

Lemma streamed_owed scope after replay live s :
  streamed scope after replay live s →
  str_out s ++ owed scope after (str_replay s) (str_live s) = owed scope after replay live.
Proof.
  induction 1 as [|live s received s' _ IH Hs]; [done|].
  destruct Hs as [e rest Hr|e rest Hr Hl Hf|e rest Hr Hl Hf|e|]; cbn; rewrite ?app_nil_r, <- ?IH.
  - unfold owed. rewrite Hr. cbn. by rewrite <- app_assoc.
  - unfold owed. rewrite Hr, Hl, filter_cons_True by done. cbn. by rewrite <- app_assoc.
  - unfold owed. by rewrite Hr, Hl, filter_cons_False by congruence.
  - unfold owed in *. rewrite !filter_app, !fmap_app, !app_assoc in *. by rewrite IH.
  - done.
Qed.

(** ** Cursors over a growing stream *)

(** An event that a cursor at [after] lets through. *)
Definition visible (scope : PlanStreamScope) (after : Z) (e : PlanEvent) : Prop :=
  memoryPlanEventMatchesScope e (after_sequence scope after) = true.

#[local] Instance visible_dec scope after e : Decision (visible scope after e).
Proof. unfold visible. apply _. Defined.

Lemma visible_iff scope after e :
  visible scope after e ↔ (after < ev_Sequence e)%Z ∧ visible scope (ev_Sequence e - 1) e.
Proof.
  unfold visible, memoryPlanEventMatchesScope, after_sequence. cbn.
  destruct (Z.leb_spec (ev_Sequence e) after), (Z.leb_spec (ev_Sequence e) (ev_Sequence e - 1));
    try lia; naive_solver lia.
Qed.

Lemma last_sequence_app after l1 l2 :
  lastPlanEventSequence after (l1 ++ l2) = lastPlanEventSequence (lastPlanEventSequence after l1) l2.
Proof. apply foldl_app. Qed.

Lemma last_sequence_max after l :
  (after ≤ lastPlanEventSequence after l)%Z ∧
  (∀ e, e ∈ l → ev_Sequence e ≤ lastPlanEventSequence after l)%Z ∧
  (lastPlanEventSequence after l = after ∨ ∃ e, e ∈ l ∧ lastPlanEventSequence after l = ev_Sequence e).
Proof.
  induction l as [|e l IH] using rev_ind.
  { split_and!; [cbn; lia|by intros e ?%not_elem_of_nil|by left]. }
  rewrite last_sequence_app. cbn. destruct IH as (Ha & Hl & Hx).
  destruct (Z.ltb_spec (lastPlanEventSequence after l) (ev_Sequence e)) as [Hlt|Hge];
    (split_and!; [lia| |]).
  - intros e' [He| ->%list_elem_of_singleton]%elem_of_app; [|lia]. specialize (Hl _ He). lia.
  - right. exists e. split; [|done]. apply elem_of_app. right. by apply list_elem_of_singleton.
  - intros e' [He| ->%list_elem_of_singleton]%elem_of_app; [by apply Hl|lia].
  - destruct Hx as [?|(e' & ? & ?)]; [by left|right]. exists e'. split; [|done]. apply elem_of_app. by left.
Qed.

Lemma filter_ext_elem {A} (P Q : A → Prop) `{!∀ x, Decision (P x), !∀ x, Decision (Q x)} (l : list A) :
  (∀ x, x ∈ l → P x ↔ Q x) → filter P l = filter Q l.
Proof.
  induction l as [|x l IH]; intros Heq; [done|]. rewrite !filter_cons.
  rewrite IH by (intros; apply Heq; by right).
  specialize (Heq x (list_elem_of_here _ _)). repeat case_decide; naive_solver.
Qed.

(** A stream numbered 1, 2, 3, ... *)
Definition numbered (l : list PlanEvent) : Prop :=
  ∀ i e, l !! i = Some e → ev_Sequence e = Z.of_nat (i + 1).

(** Reading on from the last event that was read: nothing of the part read before, and
    all of the rest. *)
Lemma cursor_moves scope after l1 l2 :
  numbered (l1 ++ l2) →
  let after' := lastPlanEventSequence after (filter (visible scope after) l1) in
  filter (visible scope after') l1 = [] ∧
  filter (visible scope after') l2 = filter (visible scope after) l2.
Proof.
  intros Hn. cbv zeta. destruct (last_sequence_max after (filter (visible scope after) l1))
    as (Hge & Hmax & Hlast). set (after' := lastPlanEventSequence _ _) in *. split.
  - destruct (filter (visible scope after') l1) as [|e l] eqn:Hf; [done|]. exfalso.
    assert (e ∈ filter (visible scope after') l1) as He by (rewrite Hf; by left).
    apply list_elem_of_filter in He as [[Hlt He]%visible_iff Hin].
    assert (e ∈ filter (visible scope after) l1) as Hr.
    { apply list_elem_of_filter. split; [|done]. apply visible_iff. split; [lia|done]. }
    specialize (Hmax _ Hr). lia.
  - assert (∀ e, e ∈ l2 → visible scope after' e ↔ visible scope after e) as Heq.
    { intros e Hin. rewrite (visible_iff scope after'), (visible_iff scope after e).
      assert (after' < ev_Sequence e ↔ after < ev_Sequence e)%Z; [|naive_solver].
      destruct Hlast as [->|(e0 & [_ [j Hj]%list_elem_of_lookup]%list_elem_of_filter & Hlast)]; [done|].
      rewrite Hlast in Hge |- *.
      apply list_elem_of_lookup in Hin as [i Hi].
      assert (ev_Sequence e = Z.of_nat (length l1 + i + 1)) as ->.
      { apply (Hn (length l1 + i)). rewrite lookup_app_r by apply Nat.le_add_r.
        by rewrite Nat.add_comm, Nat.add_sub. }
      assert (ev_Sequence e0 = Z.of_nat (j + 1)) as Hseq. { apply Hn. by apply lookup_app_l_Some. }
      rewrite Hseq in Hge |- *. apply lookup_lt_Some in Hj. lia. }
    by apply filter_ext_elem.
Qed.

Lemma numbered_NoDup l : numbered l → NoDup l.
Proof.
  intros Hn. apply NoDup_alt. intros i j e Hi Hj.
  pose proof (Hn _ _ Hi). pose proof (Hn _ _ Hj). lia.
Qed.

(** A sublist of a list without repetitions that has all its elements is the list. *)
Lemma sublist_full {A} (k l : list A) :
  k `sublist_of` l → NoDup l → (∀ x, x ∈ l → x ∈ k) → k = l.
Proof.
  induction 1 as [|x k l Hkl IH|x k l Hkl IH]; intros Hnd Hall; [done|..];
    apply NoDup_cons in Hnd as [Hx Hnd].
  - f_equal. apply IH; [done|]. intros y Hy.
    destruct (proj1 (elem_of_cons _ _ _) (Hall y ltac:(by right))) as [->|?]; done.
  - exfalso. apply Hx. eapply sublist_subseteq; [exact Hkl|]. apply Hall. by left.
Qed.

(** The events of the plan and tenant of a scope. *)
Definition in_scope (scope : PlanStreamScope) (e : PlanEvent) : Prop :=
  ev_PlanID e = ss_PlanID scope ∧ ev_AccountID e = ss_AccountID scope ∧
  ev_ProjectID e = ss_ProjectID scope.

Lemma forwarded_visible scope after e :
  in_scope scope e → forwarded scope after e = true ↔ visible scope after e.
Proof.
  intros (Hp & Ha & Hj). unfold forwarded, visible, planEventMatchesSubscriptionScope,
    memoryPlanEventMatchesScope, after_sequence. cbn. rewrite Hp, Ha, Hj.
  rewrite !bool_decide_eq_true_2 by done. cbn.
  destruct (ev_Sequence e <=? after)%Z; cbn; [done|].
  destruct ((ss_NodeID scope != "") && _); cbn; [done|].
  destruct (ss_RunID scope == ""); cbn; [done|]. by destruct (ev_RunID e == ss_RunID scope).
Qed.

(** An event that arrives live after [l1], the stream so far, was replayed. *)
Definition arrives (scope : PlanStreamScope) (l1 : list PlanEvent) (e : PlanEvent) : Prop :=
  visible scope (ss_AfterSequence scope) e ∧ (Z.of_nat (length l1) < ev_Sequence e)%Z.

#[local] Instance arrives_dec scope l1 e : Decision (arrives scope l1 e).
Proof. unfold arrives. apply _. Defined.

Lemma numbered_later l1 l2 e :
  numbered (l1 ++ l2) → e ∈ l1 ++ l2 → e ∉ l1 ↔ (Z.of_nat (length l1) < ev_Sequence e)%Z.
Proof.
  intros Hn [i Hi]%list_elem_of_lookup. rewrite (Hn _ _ Hi).
  destruct (decide (i < length l1)%nat) as [Hlt|Hge].
  - rewrite lookup_app_l in Hi by done. split; [|lia]. intros []. by eapply list_elem_of_lookup_2.
  - split; [lia|]. intros _ [j Hj]%list_elem_of_lookup. pose proof (lookup_lt_Some _ _ _ Hj) as Hlt.
    assert ((l1 ++ l2) !! j = Some e) as Hj' by by apply lookup_app_l_Some.
    pose proof (Hn _ _ Hi). pose proof (Hn _ _ Hj'). lia.
Qed.

(** Of the stream, the live part forwards what the replay has not shown. *)
Lemma forwarded_arrives scope l1 l2 e :
  numbered (l1 ++ l2) → Forall (in_scope scope) (l1 ++ l2) → e ∈ l1 ++ l2 →
  let after := lastPlanEventSequence (ss_AfterSequence scope) (filter (visible scope (ss_AfterSequence scope)) l1) in
  forwarded scope after e = true ↔ arrives scope l1 e.
Proof.
  intros Hn Hscope He. cbv zeta. destruct (cursor_moves scope (ss_AfterSequence scope) l1 l2 Hn) as [Hnone Hrest].
  rewrite forwarded_visible by (by eapply Forall_forall in Hscope). unfold arrives.
  rewrite <- (numbered_later l1 l2) by done. split.
  - intros Hv. assert (e ∉ l1) as He1.
    { intros He1. eapply not_elem_of_nil. rewrite <- Hnone. by apply list_elem_of_filter. }
    split; [|done]. apply elem_of_app in He as [?|He]; [done|].
    eapply proj1, list_elem_of_filter. rewrite <- Hrest. by apply list_elem_of_filter.
  - intros [Hv He1]. apply elem_of_app in He as [?|He]; [done|].
    eapply proj1, list_elem_of_filter. rewrite Hrest. by apply list_elem_of_filter.
Qed.

(** What arrives of the stream itself is its part after the replay. *)
Lemma arrives_rest scope l1 l2 :
  numbered (l1 ++ l2) →
  filter (arrives scope l1) (l1 ++ l2) = filter (visible scope (ss_AfterSequence scope)) l2.
Proof.
  intros Hn. pose proof (numbered_NoDup _ Hn) as (_ & Hdisj & _)%NoDup_app.
  assert (∀ e, e ∈ l1 ++ l2 → arrives scope l1 e ↔ visible scope (ss_AfterSequence scope) e ∧ e ∉ l1) as Heq.
  { intros e He. unfold arrives. by rewrite (numbered_later l1 l2 e) by done. }
  rewrite filter_app. rewrite (filter_ext_elem (arrives scope l1) (λ _, False) l1).
  2:{ intros e He. rewrite Heq by (apply elem_of_app; by left). naive_solver. }
  assert (filter (λ _ : PlanEvent, False) l1 = []) as -> by by (clear; induction l1).
  apply filter_ext_elem. intros e He. rewrite Heq by (apply elem_of_app; by right). naive_solver.
Qed.

(** ** Subscriptions of the memory store *)

Section exact.
Context `{!Sha256, !SliceSort}.

(** Others may do anything the store offers. *)
Definition store_moves (w w' : World MemoryPlanStore) : Prop :=
  rtc store_step (w_store w) (w_store w').

Lemma ListPlanEvents_visible s scope after l :
  store_ok s → ListPlanEvents s (after_sequence scope after) 0 = Ok l →
  l = filter (visible scope after) (get_list (events s) (ss_PlanID scope)) ∧
  ∃ spec, specs s !! ss_PlanID scope = Some spec ∧ spec_AccountID spec = ss_AccountID scope ∧
    spec_ProjectID spec = ss_ProjectID scope.
Proof.
  intros Hok Hl. unfold ListPlanEvents in Hl. apply bind_Ok in Hl as ([] & _ & Hl).
  destruct (specs s !! _) as [spec|] eqn:Hs; [|done].
  apply bind_Ok in Hl as ([] & (_ & _ & Ha & Hp)%ValidatePlanTenantAccess_iff & [= <-]).
  split; [|by exists spec]. unfold filterMemoryPlanEvents.
  rewrite filter_events_spec by (cbn; lia). by rewrite stream_sorted.
Qed.

Lemma after_sequence_id scope : after_sequence scope (ss_AfterSequence scope) = scope.
Proof. by destruct scope. Qed.

(** The two listings of a subscription, [s0] and [s1] being the stores they saw. *)
Lemma SubscribePlan_listings rt scope w scope' replay after w' :
  runs store_moves (SubscribePlan (Some rt) (Some scope)) w
    (inl (ReplayThenLiveSubscription scope' replay after)) w' →
  ∃ s0 events0 events1,
    rtc store_step (w_store w) s0 ∧ rtc store_step s0 (w_store w') ∧
    ListPlanEvents s0 scope 0 = Ok events0 ∧
    ListPlanEvents (w_store w') (after_sequence scope
      (lastPlanEventSequence (ss_AfterSequence scope) events0)) 0 = Ok events1 ∧
    scope' = scope ∧ replay = events0 ++ events1 ∧
    after = lastPlanEventSequence (ss_AfterSequence scope) replay.
Proof.
  intros Hrun. apply runs_bind in Hrun as ([] & w1 & [_ ->]%runs_lift & Hrun).
  apply runs_bind in Hrun as ([] & w1 & [_ ->]%runs_lift & Hrun).
  apply runs_bind in Hrun as (plan & w1 & Hauth & Hrun).
  assert (rtc store_step (w_store w) (w_store w1)) as Hw1.
  { unfold authorizePlan in Hauth. apply runs_bind in Hauth as ([] & w2 & [_ ->]%runs_lift & Hauth).
    apply runs_bind in Hauth as ([] & w2 & [_ ->]%runs_lift & Hauth).
    destruct Hauth as (w2 & r & w3 & Hm & [-> ->] & Hrest). cbn in Hrest.
    destruct (GetPlanByRef _ _) as [[p|]|]; destruct Hrest as [??]; subst; try done. }
  destruct Hrun as (w2 & r0 & w3 & Hm2 & [-> ->] & Hrun).
  destruct (cs_events (w_store w2) scope 0) as [events0|e] eqn:Hl0; [|by destruct Hrun].
  cbn -[ListPlanEvents] in Hrun. destruct (negb (rt_planLiveEvents rt)); [by destruct Hrun|].
  destruct Hrun as (w4 & r1 & w5 & Hm4 & -> & Hrun). destruct r1 as [[]|e]; [|by destruct Hrun].
  destruct Hrun as (w6 & r2 & w7 & Hm6 & [-> ->] & Hrun). cbn -[ListPlanEvents] in Hrun.
  destruct (ListPlanEvents (w_store w6) _ 0) as [events1|e] eqn:Hl1.
  - destruct Hrun as [[= -> -> ->] ->]. exists (w_store w2), events0, events1.
    unfold store_moves in *. split_and!; try done; [by etrans..|]. by rewrite last_sequence_app.
  - destruct Hrun as (w8 & [|] & w9 & _ & _ & Hrun); by destruct Hrun.
Qed.

Lemma numbered_stream s pid : store_ok s → numbered (get_list (events s) pid).
Proof. intros Hok i e Hi. by eapply stream_lookup. Qed.

(** What was replayed is what the store showed at the second listing. *)
Lemma replay_complete s0 s1 scope events0 events1 :
  store_ok s0 → store_ok s1 → store_extends s0 s1 →
  ListPlanEvents s0 scope 0 = Ok events0 →
  ListPlanEvents s1 (after_sequence scope
    (lastPlanEventSequence (ss_AfterSequence scope) events0)) 0 = Ok events1 →
  events0 ++ events1 =
  filter (visible scope (ss_AfterSequence scope)) (get_list (events s1) (ss_PlanID scope)).
Proof.
  intros Hok0 Hok1 Hx Hl0 Hl1. rewrite <- (after_sequence_id scope) in Hl0 at 1.
  apply ListPlanEvents_visible in Hl0 as [-> _], Hl1 as [-> _]; [|done..].
  destruct (se_events _ _ Hx (ss_PlanID scope)) as [l Hl]. rewrite Hl, !filter_app.
  destruct (cursor_moves scope (ss_AfterSequence scope) (get_list (events s0) (ss_PlanID scope)) l)
    as [-> ->]; [|done]. rewrite <- Hl. by apply numbered_stream.
Qed.

Lemma stream_in_scope s scope spec :
  store_ok s → specs s !! ss_PlanID scope = Some spec →
  spec_AccountID spec = ss_AccountID scope → spec_ProjectID spec = ss_ProjectID scope →
  Forall (in_scope scope) (get_list (events s) (ss_PlanID scope)).
Proof.
  intros Hok Hs Ha Hp. apply Forall_lookup. intros i e Hi.
  destruct (so_event _ Hok _ _ _ Hi) as (_ & Hpid & _ & sp & Hsp & Hacc & Hproj).
  rewrite Hs in Hsp. injection Hsp as <-. unfold in_scope. rewrite Hpid, Hacc, Hproj. done.
Qed.

Lemma listed_visible l scope :
  filterMemoryPlanEvents l scope 0 = filter (visible scope (ss_AfterSequence scope)) l.
Proof.
  unfold filterMemoryPlanEvents. rewrite filter_events_spec by (cbn; lia).
  apply filter_ext_elem. intros e _. unfold visible. by rewrite after_sequence_id.
Qed.

(** What a subscription owes, whatever the live channel brings of the stream. *)
Lemma owed_received w rt scope scope' replay after w' final received :
  store_reachable (w_store w) →
  runs store_moves (SubscribePlan (Some rt) (Some scope)) w
    (inl (ReplayThenLiveSubscription scope' replay after)) w' →
  rtc store_step (w_store w') final →
  (∀ e, e ∈ received → e ∈ get_list (events final) (ss_PlanID scope)) →
  let shown := get_list (events (w_store w')) (ss_PlanID scope) in
  owed scope' after replay received =
    ToEvent <$> filterMemoryPlanEvents shown scope 0 ++ filter (arrives scope shown) received ∧
  ∃ rest, get_list (events final) (ss_PlanID scope) = shown ++ rest ∧ numbered (shown ++ rest).
Proof.
  intros Hreach (s0 & events0 & events1 & Hm0 & Hm1 & Hl0 & Hl1 & -> & -> & ->)%SubscribePlan_listings Hfinal Hin.
  destruct (steps_extend _ _ (reachable_ok _ Hreach) Hm0) as [Hok0 _].
  destruct (steps_extend _ _ Hok0 Hm1) as [Hok1 Hx1]. destruct (steps_extend _ _ Hok1 Hfinal) as [Hokf Hxf].
  rewrite (replay_complete _ _ _ _ _ Hok0 Hok1 Hx1 Hl0 Hl1).
  apply (ListPlanEvents_visible _ _ _ _ Hok1) in Hl1 as [_ (spec & Hs & Ha & Hp)].
  destruct (se_spec _ _ Hxf _ _ Hs) as (spec' & Hs' & Henv & _).
  apply envelope_tenant in Henv as [Ha' Hp'].
  pose proof (stream_in_scope final scope spec' Hokf Hs' ltac:(congruence) ltac:(congruence)) as Hscope.
  pose proof (numbered_stream final (ss_PlanID scope) Hokf) as Hnum.
  destruct (se_events _ _ Hxf (ss_PlanID scope)) as [l Hl]. rewrite Hl in *. cbv zeta. split.
  - unfold owed. rewrite listed_visible.
    rewrite (filter_ext_elem _ (arrives scope (get_list (events (w_store w')) (ss_PlanID scope))) received)
      by (intros e He; by apply (forwarded_arrives _ _ l); [..|apply Hin]).
    done.
  - by exists l.
Qed.

(** The part of the stream that a live channel in order has brought. *)
Lemma received_sublist scope shown rest received :
  numbered (shown ++ rest) → received `sublist_of` shown ++ rest →
  let expected l := filterMemoryPlanEvents l scope 0 in
  expected shown ++ filter (arrives scope shown) received `sublist_of` expected (shown ++ rest) ∧
  ((∀ e, e ∈ rest → e ∈ received) →
   expected shown ++ filter (arrives scope shown) received = expected (shown ++ rest)).
Proof.
  intros Hn Hsub. cbv beta zeta. rewrite !listed_visible.
  rewrite (filter_app _ shown rest).
  rewrite <- (arrives_rest scope shown rest) by done.
  assert (filter (arrives scope shown) received `sublist_of` filter (arrives scope shown) (shown ++ rest)) as Hf.
  { clear Hn. generalize (arrives scope shown) (arrives_dec scope shown). intros P HP.
    induction Hsub as [|x k l _ IH|x k l _ IH]; [done|..]; rewrite ?filter_cons; case_decide;
      rewrite ?decide_True, ?decide_False by done; eauto using sublist_skip, sublist_cons. }
  split; [by apply sublist_app|]. intros Hall. f_equal. apply sublist_full; [done|by apply NoDup_filter, numbered_NoDup|].
  intros e [[Hv He] Hin]%list_elem_of_filter. apply list_elem_of_filter. split; [done|].
  apply Hall. apply (numbered_later shown rest e Hn Hin) in He. by apply elem_of_app in Hin as [?|?].
Qed.
End exact.

(** ** A sample run *)

(** A subscription of a plan whose first event is appended before the first listing, the
    second between the listings (it arrives live too) and the third afterwards. *)
Module StreamSample.
#[local] Existing Instance StoreSample.sha.

Definition scope : PlanStreamScope := {|
  ss_PlanID := "plan-1"; ss_AccountID := "acct"; ss_ProjectID := "proj"; ss_NodeID := "";
  ss_RunID := ""; ss_AfterSequence := 0 |}.
Definition world (s : MemoryPlanStore) : World MemoryPlanStore := MkWorld s NewMemoryArtifactStore [].
Definition late : PlanEvent := {| StoreSample.event with ev_EventType := "plan.archived" |}.
Definition final := (AppendPlanEvent StoreSample.now StoreSample.s3 (Some late) "ev-3").1.
Definition stream_of (s : MemoryPlanStore) : list PlanEvent := get_list (events s) "plan-1".
Definition live : list PlanEvent := drop 1 (stream_of final).
Definition drained : stream := {|
  str_replay := []; str_live := []; str_out := ToEvent <$> stream_of final; str_done := false |}.

Lemma subscribed :
  runs store_moves (SubscribePlan (Some OutboxSample.runtime) (Some scope)) (world StoreSample.s1)
    (inl (ReplayThenLiveSubscription scope (stream_of StoreSample.s3) 2)) (world StoreSample.s3).
Proof.
  exists (world StoreSample.s1), (GetPlanByRef StoreSample.s1 OutboxSample.ref), (world StoreSample.s1).
  split; [apply rtc_refl|]. split; [done|].
  exists (world StoreSample.s2), (ListPlanEvents StoreSample.s2 scope 0), (world StoreSample.s2).
  split; [apply rtc_once; exact (step_append _ StoreSample.now _ _)|]. split; [done|].
  exists (world StoreSample.s2), (Ok tt), (world StoreSample.s2).
  split; [apply rtc_refl|]. split; [done|].
  exists (world StoreSample.s3), (ListPlanEvents StoreSample.s3 (after_sequence scope 1) 0),
    (world StoreSample.s3).
  split; [apply rtc_once; exact (step_persist _ StoreSample.now _ _ _)|]. split; [done|].
  split; vm_compute; reflexivity.
Qed.

(** The subscriber is handed the replayed events, the second event arrives again and is
    skipped, the third is forwarded. *)
Lemma drained_streamed : streamed scope 2 (stream_of StoreSample.s3) live drained.
Proof.
  assert (∃ e1 e2 e3, stream_of StoreSample.s3 = [e1; e2] ∧ stream_of final = [e1; e2; e3] ∧
            forwarded scope 2 e2 = false ∧ forwarded scope 2 e3 = true)
    as (e1 & e2 & e3 & Hs & Hf & H2 & H3)
    by (do 3 eexists; split_and!; vm_compute; reflexivity).
  unfold live, drained. rewrite Hs, Hf.
  pose proof (streamed_new scope 2 [e1; e2]) as Hst.
  eapply streamed_step in Hst; [|by apply (stream_replay _ _ _ e1 [e2])].
  eapply streamed_step in Hst; [|by apply (stream_receive _ _ _ e2)].
  eapply streamed_step in Hst; [|by apply (stream_replay _ _ _ e2 [])].
  eapply streamed_step in Hst; [|by apply (stream_skip _ _ _ e2 [])].
  eapply streamed_step in Hst; [|by apply (stream_receive _ _ _ e3)].
  by eapply streamed_step in Hst; [|by apply (stream_forward _ _ _ e3 [])].
Qed.
End StreamSample.

(** ** Theorem *)


#[local] Existing Instance StoreSample.sha.

