(* ===== verification/Decode.v ===== *)
(** * Decoding documents into structs

    [json.Unmarshal] as far as the views of the plan engine use it: a decoder takes a
    document and the value to decode into (fields that the document does not mention keep
    their value, [null] changes nothing).  An object key selects the field with that name,
    or else the field whose name differs only in case.  The text of an instant is the
    value [JTime]; its conversion from and to other strings is the interface [RFC3339].

    internal/usecase/agentosplan/debug.go: decodePlanDebugPayload. *)

From Stdlib Require Import Ascii.
From stdpp Require Import pretty.
From S2P Require Import Prelude Types Json.

(** ** Scalars *)

(** [t.Format(time.RFC3339Nano)] and [time.Parse]. *)
Class RFC3339 := { format_time : time → string; parse_time : string → option time }.

Definition err_unmarshal : go_error := Errorf ErrOther "json: cannot unmarshal %s into Go value of type %s".

Abbreviation decoder T := (json → T → result T) (only parsing).

Definition digit_of (c : ascii) : option Z :=
  let n := Z.of_nat (nat_of_ascii c) in
  if ((48 <=? n) && (n <=? 57))%Z then Some (n - 48)%Z else None.

Fixpoint parse_digits (acc : Z) (s : string) : option Z :=
  match s with
  | "" => Some acc
  | String c s => d ← digit_of c; parse_digits (10 * acc + d) s
  end.

(** [strconv.ParseInt(literal, 10, 64)] on the literal of a JSON number. *)
Definition parse_int (s : string) : option Z :=
  match s with
  | "" => None
  | String "-" s => if s == "" then None else Z.opp <$> parse_digits 0 s
  | s => parse_digits 0 s
  end.

Definition in_int64 (z : Z) : bool := ((- max_int64 - 1 <=? z) && (z <=? max_int64))%Z.

Section decoders.
Context `{!RFC3339}.

Definition dec_string : decoder string := λ j old,
  match j with
  | JNull => Ok old
  | JString s => Ok s
  | JTime t => Ok (format_time t)
  | _ => Err err_unmarshal
  end.

Definition dec_bool : decoder bool := λ j old,
  match j with
  | JNull => Ok old
  | JBool b => Ok b
  | _ => Err err_unmarshal
  end.

(** [int64], and [int] on a 64-bit machine. *)
Definition dec_int : decoder Z := λ j old,
  match j with
  | JNull => Ok old
  | JInt z => if in_int64 z then Ok z else Err err_unmarshal
  | JNumber literal =>
      match parse_int literal with
      | Some z => if in_int64 z then Ok z else Err err_unmarshal
      | None => Err err_unmarshal
      end
  | _ => Err err_unmarshal
  end.

Definition dec_time : decoder time := λ j old,
  match j with
  | JNull => Ok old
  | JTime t => Ok t
  | JString s => match parse_time s with Some t => Ok t | None => Err err_unmarshal end
  | _ => Err err_unmarshal
  end.

(** ** Slices and maps *)

(** Elements are decoded into the elements that are there, further ones into new zero
    values. *)
Fixpoint dec_elems {T} (zero : T) (dec : decoder T) (l : list json) (old : list T) :
    result (list T) :=
  match l with
  | [] => Ok []
  | j :: l =>
      x ← dec j (default zero (head old));
      xs ← dec_elems zero dec l (tail old);
      Ok (x :: xs)
  end.

Definition dec_slice {T} (zero : T) (dec : decoder T) : decoder (list T) := λ j old,
  match j with
  | JNull => Ok []
  | JArray l => dec_elems zero dec l old
  | _ => Err err_unmarshal
  end.

(** A [map[string]string]: a nil map is allocated, entries are added. *)
Definition dec_string_map : decoder (go_map string) := λ j old,
  match j with
  | JNull => Ok None
  | JObject fields =>
      Some <$> foldM (λ m kv, v ← dec_string kv.2 ""; Ok (<[kv.1 := v]> m)) (default ∅ old) fields
  | _ => Err err_unmarshal
  end.

(** ** Structs *)

Definition fold_ascii (c : ascii) : ascii :=
  let n := nat_of_ascii c in
  if (97 <=? n) && (n <=? 122) then ascii_of_nat (n - 32) else c.

(** The key under which names are compared without case: ASCII letters in upper case, and
    the two other runes that fold to one (the Kelvin sign and the long s, written here by
    their UTF-8 bytes). *)
Fixpoint fold_name (s : string) : string :=
  match s with
  | String "226" (String "132" (String "170" s)) => String "K" (fold_name s)
  | String "197" (String "191" s) => String "S" (fold_name s)
  | String c s => String (fold_ascii c) (fold_name s)
  | "" => ""
  end.

Fixpoint lookup_name {A} (same : string → bool) (fields : list (string * A)) : option A :=
  match fields with
  | [] => None
  | (k, a) :: fields => if same k then Some a else lookup_name same fields
  end.

Definition find_field {A} (fields : list (string * A)) (key : string) : option A :=
  match lookup_name (λ name, name == key) fields with
  | Some a => Some a
  | None => lookup_name (λ name, fold_name name == fold_name key) fields
  end.

Definition dec_field {T} (fields : list (string * decoder T)) (x : T) (kv : string * json) : result T :=
  match find_field fields kv.1 with
  | Some dec => dec kv.2 x
  | None => Ok x
  end.

Definition dec_struct {T} (fields : list (string * decoder T)) : decoder T := λ j x,
  match j with
  | JNull => Ok x
  | JObject entries => foldM (dec_field fields) x entries
  | _ => Err err_unmarshal
  end.

(** The decoder of a field with its reading and writing. *)
Definition part {T A} (dec : decoder A) (get : T → A) (set : A → T → T) : decoder T :=
  λ j x, v ← dec j (get x); Ok (set v x).

(** ** Structs inside event payloads *)

Definition dec_BackendRef : decoder BackendRef := dec_struct [
  ("kind", part dec_string backend_Kind (λ v x, {| x with backend_Kind := v |}));
  ("name", part dec_string backend_Name (λ v x, {| x with backend_Name := v |}))].

Definition dec_PlanBudgetUsage : decoder PlanBudgetUsage := dec_struct [
  ("spent_cents", part dec_int usage_SpentCents (λ v _, {| usage_SpentCents := v |}))].

Definition dec_ArtifactRef : decoder ArtifactRef := dec_struct [
  ("artifact_id", part dec_string ref_ArtifactID (λ v x, {| x with ref_ArtifactID := v |}));
  ("plan_id", part dec_string ref_PlanID (λ v x, {| x with ref_PlanID := v |}));
  ("node_id", part dec_string ref_NodeID (λ v x, {| x with ref_NodeID := v |}));
  ("run_id", part dec_string ref_RunID (λ v x, {| x with ref_RunID := v |}));
  ("name", part dec_string ref_Name (λ v x, {| x with ref_Name := v |}));
  ("kind", part dec_string ref_Kind (λ v x, {| x with ref_Kind := v |}));
  ("media_type", part dec_string ref_MediaType (λ v x, {| x with ref_MediaType := v |}));
  ("uri", part dec_string ref_URI (λ v x, {| x with ref_URI := v |}));
  ("size_bytes", part dec_int ref_SizeBytes (λ v x, {| x with ref_SizeBytes := v |}));
  ("digest", part dec_string ref_Digest (λ v x, {| x with ref_Digest := v |}));
  ("metadata", part dec_string_map ref_Metadata (λ v x, {| x with ref_Metadata := v |}));
  ("created_at", part dec_time ref_CreatedAt (λ v x, {| x with ref_CreatedAt := v |}))].
End decoders.

(** [decodePlanDebugPayload[T]]: the value is encoded and decoded as a [T]. *)
Definition decodePlanDebugPayload {T} (dec : decoder T) (zero : T) (value : any) : result T :=
  data ← map_err (λ _, Errorf ErrInvalidPlanEvent "marshal debug field %q: %w") (Marshal (enc_any value));
  map_err (λ _, Errorf ErrInvalidPlanEvent "decode debug field %q: %w") (dec data zero).

(** ** Decoding what was encoded *)

Lemma dec_struct_app {T} (fields : list (string * decoder T)) x l1 l2 y :
  foldM (dec_field fields) x l1 = Ok y →
  dec_struct fields (JObject (l1 ++ l2)) x = dec_struct fields (JObject l2) y.
Proof. intros Hl. cbn. by rewrite foldM_app, Hl. Qed.

(** A field that is written unless it is empty comes back; [x] has the empty field. *)
Lemma dec_omit {T A} (fields : list (string * decoder T)) (dec : decoder A) get set zero k j v x :
  find_field fields k = Some (part dec get set) →
  (zero = false → dec j (get x) = Ok v) → (zero = true → set v x = x) →
  foldM (dec_field fields) x (omit zero k j) = Ok (set v x).
Proof.
  intros Hf Hd Hz. unfold omit. destruct zero; cbn; [by rewrite Hz|].
  unfold dec_field. cbn. rewrite Hf. unfold part. by rewrite Hd.
Qed.

Lemma dec_present {T A} (fields : list (string * decoder T)) (dec : decoder A) get set k j v x :
  find_field fields k = Some (part dec get set) → dec j (get x) = Ok v →
  foldM (dec_field fields) x (field k j) = Ok (set v x).
Proof. intros Hf Hd. by apply (dec_omit _ dec get set false). Qed.

Lemma dec_slice_enc {A B} (zero : B) (dec : decoder B) (enc : A → json) (view : A → B) l :
  (∀ a, dec (enc a) zero = Ok (view a)) →
  dec_slice zero dec (JArray (enc <$> l)) [] = Ok (view <$> l).
Proof. intros Hd. unfold dec_slice. induction l as [|a l IH]; [done|]. cbn. rewrite Hd. cbn. by rewrite IH. Qed.

(** The two branches of a field that is left out when it is empty. *)
Lemma dec_omit_string `{!RFC3339} {T} (fields : list (string * decoder T)) get set k v x :
  find_field fields k = Some (part dec_string get set) → set "" x = x →
  foldM (dec_field fields) x (omit_string k v) = Ok (set v x).
Proof.
  intros Hf Hx. eapply dec_omit; [done|done|]. by intros ->%bool_decide_eq_true_1.
Qed.

Lemma dec_omit_bool {T} (fields : list (string * decoder T)) get set k v x :
  find_field fields k = Some (part dec_bool get set) → set false x = x →
  foldM (dec_field fields) x (omit_bool k v) = Ok (set v x).
Proof. intros Hf Hx. eapply dec_omit; [done|done|]. by intros ->%negb_true_iff. Qed.

Lemma dec_omit_int {T} (fields : list (string * decoder T)) get set k v x :
  find_field fields k = Some (part dec_int get set) → in_int64 v = true → set 0%Z x = x →
  foldM (dec_field fields) x (omit_int k v) = Ok (set v x).
Proof.
  intros Hf Hv Hx. eapply dec_omit; [done|cbn; by rewrite Hv|].
  by intros ->%bool_decide_eq_true_1.
Qed.

(** A slice that is written with one struct and read with another. *)
Lemma dec_omit_list {T A B} (fields : list (string * decoder T)) get set k
    (zero : B) (dec : decoder B) (enc : A → json) (view : A → B) l x :
  find_field fields k = Some (part (dec_slice zero dec) get set) → get x = [] → set [] x = x →
  (∀ a, dec (enc a) zero = Ok (view a)) →
  foldM (dec_field fields) x (omit_list k enc l) = Ok (set (view <$> l) x).
Proof.
  intros Hf Hg Hx Hd. eapply dec_omit; [done|intros _; rewrite Hg; by apply dec_slice_enc|].
  by intros ->%bool_decide_eq_true_1.
Qed.

Lemma dec_struct_last {T} (fields : list (string * decoder T)) x l y :
  foldM (dec_field fields) x l = Ok y → dec_struct fields (JObject l) x = Ok y.
Proof. done. Qed.

(** Decodes the next field of an encoded struct. *)
Ltac decode_entry :=
  first [eapply dec_omit_string; reflexivity|eapply dec_omit_bool; reflexivity
        |eapply dec_omit_int; [reflexivity|done|reflexivity]
        |eapply dec_present; reflexivity].
Ltac decode_simpl :=
  cbn -[dec_struct field omit_string omit_bool omit_int omit_list omit_map omit_time].
Ltac decode_fields :=
  repeat (erewrite dec_struct_app by decode_entry; decode_simpl);
  try (etrans; [eapply dec_struct_last; decode_entry|]; decode_simpl).
