(* ===== verification/Debug.v ===== *)
(** * Debug traces

    internal/usecase/agentosplan/debug.go and the trace types of agentos/control/plan.go:
    the debug details of a transition are written into the payload of its public event and
    read back from the durable stream.  Reading them back gives what the reducer was told.
    ListPlanDebugTraces of agentos/temporal/plan_runtime.go serves them. *)

From S2P Require Import Prelude Types Scope Validator State Json Events Decode Artifacts PlanStore.
From S2P Require Import Temporal Workflow Runtime.

(** ** agentos/control/plan.go *)

Record PlanStateTransition := {
  pst_PreviousLifecycleState : string;
  pst_NextLifecycleState : string;
}.

Record PlanCapabilityTrace := {
  pct_Backend : BackendRef;
  pct_Capability : string;
  pct_Signals : list string;
  pct_Controls : list string;
  pct_HasInputSchema : bool;
  pct_HasOutputSchema : bool;
}.

Record PlanInputMappingTrace := {
  pmt_Target : string;
  pmt_SourceNodeID : string;
  pmt_SourceArtifact : string;
  pmt_SourcePath : string;
  pmt_Expression : string;
  pmt_Required : bool;
}.

Record PlanInputResolutionTrace := {
  pit_InputDigest : string;
  pit_InputKeys : list string;
  pit_MappingCount : Z;
  pit_Mappings : list PlanInputMappingTrace;
}.

Record PlanConditionTrace := {
  pcn_Scope : string;
  pcn_NodeID : string;
  pcn_EdgeID : string;
  pcn_From : string;
  pcn_To : string;
  pcn_Expression : string;
  pcn_Result : bool;
  pcn_On : string;
  pcn_ParentState : string;
}.

Record PlanDebugTrace := {
  dbg_EventID : string;
  dbg_EventType : string;
  dbg_PlanID : string;
  dbg_NodeID : string;
  dbg_RunID : string;
  dbg_ThreadID : string;
  dbg_Sequence : Z;
  dbg_Timestamp : time;
  dbg_Transition : option PlanStateTransition;
  dbg_Capability : option PlanCapabilityTrace;
  dbg_InputResolution : option PlanInputResolutionTrace;
  dbg_Conditions : list PlanConditionTrace;
}.

Definition zero_PlanStateTransition : PlanStateTransition := {|
  pst_PreviousLifecycleState := ""; pst_NextLifecycleState := "" |}.
Definition zero_PlanCapabilityTrace : PlanCapabilityTrace := {|
  pct_Backend := zero_BackendRef; pct_Capability := ""; pct_Signals := []; pct_Controls := [];
  pct_HasInputSchema := false; pct_HasOutputSchema := false |}.
Definition zero_PlanInputMappingTrace : PlanInputMappingTrace := {|
  pmt_Target := ""; pmt_SourceNodeID := ""; pmt_SourceArtifact := ""; pmt_SourcePath := "";
  pmt_Expression := ""; pmt_Required := false |}.
Definition zero_PlanInputResolutionTrace : PlanInputResolutionTrace := {|
  pit_InputDigest := ""; pit_InputKeys := []; pit_MappingCount := 0; pit_Mappings := [] |}.
Definition zero_PlanConditionTrace : PlanConditionTrace := {|
  pcn_Scope := ""; pcn_NodeID := ""; pcn_EdgeID := ""; pcn_From := ""; pcn_To := "";
  pcn_Expression := ""; pcn_Result := false; pcn_On := ""; pcn_ParentState := "" |}.

(** ** Decoding *)

Section debug.
Context `{!RFC3339}.

Definition dec_PlanStateTransition : decoder PlanStateTransition := dec_struct [
  ("previous_lifecycle_state",
    part dec_string pst_PreviousLifecycleState (λ v x, {| x with pst_PreviousLifecycleState := v |}));
  ("next_lifecycle_state",
    part dec_string pst_NextLifecycleState (λ v x, {| x with pst_NextLifecycleState := v |}))].

Definition dec_PlanCapabilityTrace : decoder PlanCapabilityTrace := dec_struct [
  ("backend", part dec_BackendRef pct_Backend (λ v x, {| x with pct_Backend := v |}));
  ("capability", part dec_string pct_Capability (λ v x, {| x with pct_Capability := v |}));
  ("signals", part (dec_slice "" dec_string) pct_Signals (λ v x, {| x with pct_Signals := v |}));
  ("controls", part (dec_slice "" dec_string) pct_Controls (λ v x, {| x with pct_Controls := v |}));
  ("has_input_schema",
    part dec_bool pct_HasInputSchema (λ v x, {| x with pct_HasInputSchema := v |}));
  ("has_output_schema",
    part dec_bool pct_HasOutputSchema (λ v x, {| x with pct_HasOutputSchema := v |}))].

Definition dec_PlanInputMappingTrace : decoder PlanInputMappingTrace := dec_struct [
  ("target", part dec_string pmt_Target (λ v x, {| x with pmt_Target := v |}));
  ("source_node_id", part dec_string pmt_SourceNodeID (λ v x, {| x with pmt_SourceNodeID := v |}));
  ("source_artifact",
    part dec_string pmt_SourceArtifact (λ v x, {| x with pmt_SourceArtifact := v |}));
  ("source_path", part dec_string pmt_SourcePath (λ v x, {| x with pmt_SourcePath := v |}));
  ("expression", part dec_string pmt_Expression (λ v x, {| x with pmt_Expression := v |}));
  ("required", part dec_bool pmt_Required (λ v x, {| x with pmt_Required := v |}))].

Definition dec_PlanInputResolutionTrace : decoder PlanInputResolutionTrace := dec_struct [
  ("input_digest", part dec_string pit_InputDigest (λ v x, {| x with pit_InputDigest := v |}));
  ("input_keys",
    part (dec_slice "" dec_string) pit_InputKeys (λ v x, {| x with pit_InputKeys := v |}));
  ("mapping_count", part dec_int pit_MappingCount (λ v x, {| x with pit_MappingCount := v |}));
  ("mappings", part (dec_slice zero_PlanInputMappingTrace dec_PlanInputMappingTrace) pit_Mappings
                 (λ v x, {| x with pit_Mappings := v |}))].

Definition dec_PlanConditionTrace : decoder PlanConditionTrace := dec_struct [
  ("scope", part dec_string pcn_Scope (λ v x, {| x with pcn_Scope := v |}));
  ("node_id", part dec_string pcn_NodeID (λ v x, {| x with pcn_NodeID := v |}));
  ("edge_id", part dec_string pcn_EdgeID (λ v x, {| x with pcn_EdgeID := v |}));
  ("from", part dec_string pcn_From (λ v x, {| x with pcn_From := v |}));
  ("to", part dec_string pcn_To (λ v x, {| x with pcn_To := v |}));
  ("expression", part dec_string pcn_Expression (λ v x, {| x with pcn_Expression := v |}));
  ("result", part dec_bool pcn_Result (λ v x, {| x with pcn_Result := v |}));
  ("on", part dec_string pcn_On (λ v x, {| x with pcn_On := v |}));
  ("parent_state", part dec_string pcn_ParentState (λ v x, {| x with pcn_ParentState := v |}))].

(** ** debug.go *)

(** [if value, ok := event.Payload[key]; ok { decode }] *)
Definition payload_field {T} (event : PlanEvent) (key : string) (dec : decoder T) (zero : T) :
    result (option T) :=
  match map_get (ev_Payload event) key with
  | None => Ok None
  | Some value => Some <$> decodePlanDebugPayload dec zero value
  end.

(** The trace of an event, and whether it holds any debug details. *)
Definition PlanDebugTraceFromEvent (event : PlanEvent) : result (PlanDebugTrace * bool) :=
  transition ← payload_field event planEventPayloadTransition
                 dec_PlanStateTransition zero_PlanStateTransition;
  capability ← payload_field event planEventPayloadCapability
                 dec_PlanCapabilityTrace zero_PlanCapabilityTrace;
  input ← payload_field event planEventPayloadInputResolution
            dec_PlanInputResolutionTrace zero_PlanInputResolutionTrace;
  conditions ← payload_field event planEventPayloadConditions
                 (dec_slice zero_PlanConditionTrace dec_PlanConditionTrace) [];
  Ok ({| dbg_EventID := ev_EventID event; dbg_EventType := ev_EventType event;
         dbg_PlanID := ev_PlanID event; dbg_NodeID := ev_NodeID event; dbg_RunID := ev_RunID event;
         dbg_ThreadID := ev_ThreadID event; dbg_Sequence := ev_Sequence event;
         dbg_Timestamp := ev_Timestamp event; dbg_Transition := transition;
         dbg_Capability := capability; dbg_InputResolution := input;
         dbg_Conditions := default [] conditions |},
      bool_decide (is_Some transition) || bool_decide (is_Some capability) ||
      bool_decide (is_Some input) || bool_decide (is_Some conditions)).

Definition BuildPlanDebugTraces (events : list PlanEvent) : result (list PlanDebugTrace) :=
  foldM (λ traces event,
    '(trace, ok) ← PlanDebugTraceFromEvent event;
    Ok (if ok : bool then traces ++ [trace] else traces)) [] events.

(** ** plan_runtime.go *)

Definition planDebugTraceStreamScope (scope : PlanDebugTraceScope) : PlanStreamScope := {|
  ss_PlanID := dts_PlanID scope; ss_AccountID := dts_AccountID scope;
  ss_ProjectID := dts_ProjectID scope; ss_NodeID := dts_NodeID scope; ss_RunID := dts_RunID scope;
  ss_AfterSequence := dts_AfterSequence scope |}.

Definition ListPlanDebugTraces (r : option planRuntime) (scope : option PlanDebugTraceScope) :
    Rt (list PlanDebugTrace) :=
  match r with
  | None => lift_rt (Err errPlanRuntimeNotConfigured)
  | Some rt =>
      lift_rt (fail_if (negb (rt_planEvents rt)) errPlanRuntimePlanEventStoreRequired);;
      lift_rt (ValidatePlanDebugTraceScope scope);;
      match scope with
      | None => throw_rt Panic
      | Some scope =>
          authorizePlan r {| pref_PlanID := dts_PlanID scope; pref_AccountID := dts_AccountID scope;
                             pref_ProjectID := dts_ProjectID scope |};;
          events ← call_rt (ask (OpListPlanEvents (planDebugTraceStreamScope scope) 0));
          traces ← lift_rt (BuildPlanDebugTraces events);
          mret (if ((0 <? dts_Limit scope) && (dts_Limit scope <? Z.of_nat (length traces)))%Z
                then take (Z.to_nat (dts_Limit scope)) traces else traces)
      end
  end.
End debug.

(** ** Reading back *)

(** The public view of the traces the reducer was given. *)
Definition public_capability (t : CapabilitySelectionTrace) : PlanCapabilityTrace := {|
  pct_Backend := cst_Backend t; pct_Capability := cst_Capability t; pct_Signals := cst_Signals t;
  pct_Controls := cst_Controls t; pct_HasInputSchema := cst_HasInputSchema t;
  pct_HasOutputSchema := cst_HasOutputSchema t |}.
Definition public_mapping (t : InputMappingTrace) : PlanInputMappingTrace := {|
  pmt_Target := imt_Target t; pmt_SourceNodeID := imt_SourceNodeID t;
  pmt_SourceArtifact := imt_SourceArtifact t; pmt_SourcePath := imt_SourcePath t;
  pmt_Expression := imt_Expression t; pmt_Required := imt_Required t |}.
Definition public_input (t : InputResolutionTrace) : PlanInputResolutionTrace := {|
  pit_InputDigest := irt_InputDigest t; pit_InputKeys := irt_InputKeys t;
  pit_MappingCount := irt_MappingCount t; pit_Mappings := public_mapping <$> irt_Mappings t |}.
Definition public_condition (t : ConditionEvaluationTrace) : PlanConditionTrace := {|
  pcn_Scope := cet_Scope t; pcn_NodeID := cet_NodeID t; pcn_EdgeID := cet_EdgeID t;
  pcn_From := cet_From t; pcn_To := cet_To t; pcn_Expression := cet_Expression t;
  pcn_Result := cet_Result t; pcn_On := cet_On t; pcn_ParentState := cet_ParentState t |}.

Section roundtrip.
Context `{!RFC3339}.

Lemma dec_BackendRef_enc b : dec_BackendRef (enc_BackendRef b) zero_BackendRef = Ok b.
Proof. by destruct b. Qed.

Lemma dec_strings l : dec_slice "" dec_string (JArray (JString <$> l)) [] = Ok l.
Proof. rewrite <- (list_fmap_id l) at 2. by apply (dec_slice_enc _ _ _ id). Qed.

Lemma dec_omit_strings {T} (fields : list (string * decoder T)) get set k l x :
  find_field fields k = Some (part (dec_slice "" dec_string) get set) → get x = [] → set [] x = x →
  foldM (dec_field fields) x (omit_list k JString l) = Ok (set l x).
Proof. intros Hf Hg Hx. rewrite <- (list_fmap_id l) at 2. by eapply dec_omit_list. Qed.

Lemma dec_capability_enc t :
  dec_PlanCapabilityTrace (enc_CapabilitySelectionTrace t) zero_PlanCapabilityTrace =
  Ok (public_capability t).
Proof.
  unfold dec_PlanCapabilityTrace, enc_CapabilitySelectionTrace.
  erewrite dec_struct_app by (eapply dec_present; [reflexivity|apply dec_BackendRef_enc]). decode_simpl.
  decode_fields.
  erewrite dec_struct_app by (eapply dec_omit_strings; reflexivity). decode_simpl.
  erewrite dec_struct_app by (eapply dec_omit_strings; reflexivity). decode_simpl.
  by decode_fields.
Qed.

Lemma dec_mapping_enc t :
  dec_PlanInputMappingTrace (enc_InputMappingTrace t) zero_PlanInputMappingTrace =
  Ok (public_mapping t).
Proof. unfold dec_PlanInputMappingTrace, enc_InputMappingTrace. by decode_fields. Qed.

Lemma dec_input_enc t :
  in_int64 (irt_MappingCount t) = true →
  dec_PlanInputResolutionTrace (enc_InputResolutionTrace t) zero_PlanInputResolutionTrace =
  Ok (public_input t).
Proof.
  intros Ht. unfold dec_PlanInputResolutionTrace, enc_InputResolutionTrace. decode_fields.
  erewrite dec_struct_app by (eapply dec_omit_strings; reflexivity). decode_simpl.
  decode_fields. etrans; [eapply dec_struct_last|].
  - eapply (dec_omit_list _ _ _ _ _ _ _ public_mapping); try reflexivity. apply dec_mapping_enc.
  - done.
Qed.

Lemma dec_condition_enc t :
  dec_PlanConditionTrace (enc_ConditionEvaluationTrace t) zero_PlanConditionTrace =
  Ok (public_condition t).
Proof. unfold dec_PlanConditionTrace, enc_ConditionEvaluationTrace. by decode_fields. Qed.

(** The payload of a published transition, field by field. *)
Lemma published_payload_field {T} `{!Sha256} spec status ev event key k (dec : decoder T) zero :
  published_as spec status ev event key →
  payload_field event k dec zero =
  match buildPlanEventPayload spec status ev !! k with
  | None => Ok None
  | Some value => Some <$> decodePlanDebugPayload dec zero value
  end.
Proof. intros Hp. unfold payload_field. by rewrite (pub_payload _ _ _ _ _ Hp). Qed.

Lemma decodePlanDebugPayload_Ok {T} (dec : decoder T) zero value x :
  supported (enc_any value) = true → dec (enc_any value) zero = Ok x →
  decodePlanDebugPayload dec zero value = Ok x.
Proof. intros Hs Hd. unfold decodePlanDebugPayload, Marshal. rewrite Hs. cbn. by rewrite Hd. Qed.

Lemma supported_array l : supported (JArray l) = true ↔ Forall (λ j, supported j = true) l.
Proof.
  induction l as [|j l IH]; [done|]. rewrite Forall_cons, <- IH. cbn. apply andb_true_iff.
Qed.

Lemma supported_omit_list {A} k (enc : A → json) l :
  (∀ a, supported (enc a) = true) → supported (JObject (omit_list k enc l)) = true.
Proof.
  intros He. unfold omit_list, omit. case_bool_decide; [done|]. apply supported_cons. split; [|done].
  apply supported_array, Forall_fmap, Forall_forall. intros a _. apply He.
Qed.

Lemma supported_omit_bool k b : supported (JObject (omit_bool k b)) = true.
Proof. by destruct b. Qed.

(** Traces are strings, numbers and booleans. *)
Ltac trace_supported :=
  rewrite ?supported_app, ?supported_omit_string, ?supported_omit_bool, ?supported_omit_int,
    ?supported_omit_list by done; done.

Lemma supported_capability t : supported (enc_CapabilitySelectionTrace t) = true.
Proof. unfold enc_CapabilitySelectionTrace. trace_supported. Qed.
Lemma supported_mapping t : supported (enc_InputMappingTrace t) = true.
Proof. unfold enc_InputMappingTrace. trace_supported. Qed.
Lemma supported_input t : supported (enc_InputResolutionTrace t) = true.
Proof.
  unfold enc_InputResolutionTrace. rewrite !supported_app.
  rewrite (supported_omit_list "mappings") by apply supported_mapping. trace_supported.
Qed.
Lemma supported_condition t : supported (enc_ConditionEvaluationTrace t) = true.
Proof. unfold enc_ConditionEvaluationTrace. trace_supported. Qed.

(** ** The fields of a published event *)

Section published.
Context `{!Sha256} spec status ev event key (Hpub : published_as spec status ev event key).

Lemma published_transition :
  payload_field event planEventPayloadTransition dec_PlanStateTransition zero_PlanStateTransition =
  Ok (if (se_PreviousLifecycleState ev != "") || (se_NextLifecycleState ev != "") then
        Some {| pst_PreviousLifecycleState := se_PreviousLifecycleState ev;
                pst_NextLifecycleState := se_NextLifecycleState ev |}
      else None).
Proof.
  rewrite (published_payload_field _ _ _ _ _ _ _ _ Hpub). payload_walk.
  destruct (_ || _); [|done]. erewrite decodePlanDebugPayload_Ok; reflexivity.
Qed.

Lemma published_capability :
  payload_field event planEventPayloadCapability dec_PlanCapabilityTrace zero_PlanCapabilityTrace =
  Ok (if cst_Capability (se_Capability ev) != "" then Some (public_capability (se_Capability ev))
      else None).
Proof.
  rewrite (published_payload_field _ _ _ _ _ _ _ _ Hpub). payload_walk.
  destruct (negb _); [|done].
  by erewrite decodePlanDebugPayload_Ok by (apply supported_capability || apply dec_capability_enc).
Qed.

Lemma published_input :
  in_int64 (irt_MappingCount (se_InputTrace ev)) = true →
  payload_field event planEventPayloadInputResolution
    dec_PlanInputResolutionTrace zero_PlanInputResolutionTrace =
  Ok (if (irt_InputDigest (se_InputTrace ev) != "") ||
         (0 <? irt_MappingCount (se_InputTrace ev))%Z
      then Some (public_input (se_InputTrace ev)) else None).
Proof.
  intros Hc. rewrite (published_payload_field _ _ _ _ _ _ _ _ Hpub). payload_walk.
  destruct (_ || _); [|done].
  by erewrite decodePlanDebugPayload_Ok by (apply supported_input || by apply dec_input_enc).
Qed.

Lemma published_conditions :
  payload_field event planEventPayloadConditions
    (dec_slice zero_PlanConditionTrace dec_PlanConditionTrace) [] =
  Ok (if bool_decide (se_ConditionTraces ev ≠ [])
      then Some (public_condition <$> se_ConditionTraces ev) else None).
Proof.
  rewrite (published_payload_field _ _ _ _ _ _ _ _ Hpub). payload_walk.
  destruct (bool_decide _); [|done]. erewrite decodePlanDebugPayload_Ok; [done|..].
  - apply supported_array, Forall_fmap, Forall_forall. intros t _. apply supported_condition.
  - apply dec_slice_enc, dec_condition_enc.
Qed.
End published.
End roundtrip.

(** ** Theorem *)

(** The debug details of a transition, under the identity its event got in the stream. *)
Definition debug_view (stored : PlanEvent) (ev : StateEvent) : PlanDebugTrace := {|
  dbg_EventID := ev_EventID stored; dbg_EventType := ev_EventType stored;
  dbg_PlanID := ev_PlanID stored; dbg_NodeID := ev_NodeID stored; dbg_RunID := ev_RunID stored;
  dbg_ThreadID := ev_ThreadID stored; dbg_Sequence := ev_Sequence stored;
  dbg_Timestamp := ev_Timestamp stored;
  dbg_Transition :=
    if (se_PreviousLifecycleState ev != "") || (se_NextLifecycleState ev != "") then
      Some {| pst_PreviousLifecycleState := se_PreviousLifecycleState ev;
              pst_NextLifecycleState := se_NextLifecycleState ev |}
    else None;
  dbg_Capability :=
    if cst_Capability (se_Capability ev) != "" then Some (public_capability (se_Capability ev))
    else None;
  dbg_InputResolution :=
    if (irt_InputDigest (se_InputTrace ev) != "") || (0 <? irt_MappingCount (se_InputTrace ev))%Z
    then Some (public_input (se_InputTrace ev)) else None;
  dbg_Conditions := public_condition <$> se_ConditionTraces ev |}.

Definition has_debug (ev : StateEvent) : bool :=
  (se_PreviousLifecycleState ev != "") || (se_NextLifecycleState ev != "") ||
  (cst_Capability (se_Capability ev) != "") || (irt_InputDigest (se_InputTrace ev) != "") ||
  (0 <? irt_MappingCount (se_InputTrace ev))%Z || bool_decide (se_ConditionTraces ev ≠ []).

(** [stored] carries the payload published for [ev]. *)
Definition stored_for `{!Sha256} (ev : StateEvent) (stored : PlanEvent) : Prop :=
  in_int64 (irt_MappingCount (se_InputTrace ev)) = true ∧
  ∃ spec status event key,
    PlanEventFromStateEvent spec status ev = Ok (event, key) ∧
    ev_Payload stored = ev_Payload event.

Lemma debug_trace_of `{!Sha256, !RFC3339} ev stored :
  stored_for ev stored → PlanDebugTraceFromEvent stored = Ok (debug_view stored ev, has_debug ev).
Proof.
  intros [Hc (spec & status & event & key & [Hpub _]%PlanEventFromStateEvent_Ok & Hpay)].
  unfold PlanDebugTraceFromEvent.
  assert (∀ k {T} (dec : decoder T) zero, payload_field stored k dec zero = payload_field event k dec zero)
    as Heq by (intros; unfold payload_field; by rewrite Hpay).
  rewrite !Heq, (published_transition _ _ _ _ _ Hpub), (published_capability _ _ _ _ _ Hpub),
    (published_input _ _ _ _ _ Hpub Hc), (published_conditions _ _ _ _ _ Hpub). cbn.
  do 2 f_equal.
  - unfold debug_view. f_equal. by destruct (se_ConditionTraces ev).
  - unfold has_debug.
    destruct (se_PreviousLifecycleState ev != ""), (se_NextLifecycleState ev != ""),
      (cst_Capability (se_Capability ev) != ""), (irt_InputDigest (se_InputTrace ev) != ""),
      (0 <? irt_MappingCount (se_InputTrace ev))%Z, (bool_decide (se_ConditionTraces ev ≠ []));
      reflexivity.
Qed.

Lemma build_traces `{!Sha256, !RFC3339} acc evs stored :
  Forall2 stored_for evs stored →
  foldM (λ traces event,
    '(trace, ok) ← PlanDebugTraceFromEvent event;
    Ok (if ok : bool then traces ++ [trace] else traces)) acc stored =
  Ok (acc ++ ((λ p, debug_view p.2 p.1) <$> filter (λ p, has_debug p.1 = true) (zip evs stored))).
Proof.
  intros Hall. revert acc.
  induction Hall as [|ev e evs stored He _ IH]; intros acc; cbn [foldM zip zip_with].
  { by rewrite app_nil_r. }
  rewrite (debug_trace_of _ _ He). cbn [mbind result_bind]. rewrite IH. f_equal.
  destruct (has_debug ev) eqn:Hd.
  - rewrite filter_cons_True by done. cbn. by rewrite <- app_assoc.
  - by rewrite filter_cons_False by (cbn; congruence).
Qed.

(** Debug traces survive the durable stream.  For a list of transitions whose public
    events were stored, building the debug traces from the stored events does not fail and
    gives, in order, one trace for each transition that has debug details, with the
    lifecycles, the selected capability, the resolution of inputs and the evaluated
    conditions the reducer was told, under the stored identity. *)
Theorem debug_traces_roundtrip `{!Sha256, !RFC3339} (evs : list StateEvent) (stored : list PlanEvent) :
  Forall2 stored_for evs stored →
  BuildPlanDebugTraces stored =
  Ok ((λ p, debug_view p.2 p.1) <$> filter (λ p, has_debug p.1 = true) (zip evs stored)).
Proof. intros Hall. by apply (build_traces []). Qed.

Module DebugSample.
#[local] Existing Instance EventsSample.sha.
#[local] Instance text : RFC3339 := {| format_time _ := "2026-01-01T00:00:00Z"; parse_time _ := None |}.

Definition started : StateEvent := {| StateSample.expansion with
  se_Kind := EventNodeStarted; se_NodeID := "a"; se_Expansion := zero_PlanDelta;
  se_PreviousLifecycleState := "ready"; se_NextLifecycleState := "running";
  se_InputTrace := {| irt_InputDigest := "00ff"; irt_InputKeys := ["query"]; irt_MappingCount := 1;
    irt_Mappings := [{| imt_Target := "query"; imt_SourceNodeID := ""; imt_SourceArtifact := "";
                        imt_SourcePath := "topic"; imt_Expression := ""; imt_Required := true |}] |} |}.
Definition published : list PlanEvent :=
  match PlanEventFromStateEvent Sample.spec (Status StateSample.state) started with
  | Ok (event, _) => [{| event with ev_EventID := "p:1"; ev_Sequence := 1%Z |}]
  | Err _ => []
  end.
End DebugSample.

Lemma debug_traces_roundtrip_witness :
  ∃ trace, BuildPlanDebugTraces (H := DebugSample.text) DebugSample.published = Ok [trace] ∧
    dbg_Sequence trace = 1%Z ∧ dbg_InputResolution trace = Some (public_input (se_InputTrace DebugSample.started)).
Proof.
  eexists. split.
  - rewrite (debug_traces_roundtrip (H := EventsSample.sha) (H0 := DebugSample.text)
               [DebugSample.started] DebugSample.published).
    + vm_compute. reflexivity.
    + constructor; [|constructor]. split; [reflexivity|].
      exists Sample.spec, (Status StateSample.state). do 2 eexists. split; vm_compute; reflexivity.
  - vm_compute. split; reflexivity.
Defined.
