(* ===== verification/Metrics.v ===== *)
(** * Metric projection

    internal/usecase/agentosplan/metrics.go and metric_sample.go: the samples a stream of
    plan events projects to, the state from which a projection continues, and the identity
    and normal form of a sample.  A [float64] is an IEEE 754 binary64 number of the
    standard library ([spec_float] at precision 53, exponent bound 1024).  Reading through
    a nil pointer and writing to a nil map end the goroutine; [panics] keeps that apart
    from a returned error.

    The theorems: the projection of a stream does not depend on how it is cut into
    batches, and which samples share an identity. *)

From Stdlib Require Import Floats.SpecFloat.
From S2P Require Import Prelude Types Scope State Json Events Decode Idempotency Artifacts PlanStore.

(** ** Calls that may panic *)

Inductive panics (A : Type) :=
  | Returns (r : result A)
  | Panics.
Arguments Returns {_} _.
Arguments Panics {_}.

#[global] Instance panics_ret : MRet panics := λ A a, Returns (Ok a).
#[global] Instance panics_bind : MBind panics := λ A B f m,
  match m with
  | Returns (Ok a) => f a
  | Returns (Err e) => Returns (Err e)
  | Panics => Panics
  end.

(** [*p] of a pointer. *)
Definition deref {A} (p : option A) : panics A :=
  match p with Some a => mret a | None => Panics end.

Fixpoint foldP {S A} (f : S → A → panics S) (s : S) (l : list A) : panics S :=
  match l with
  | [] => mret s
  | a :: l => s' ← f s a; foldP f s' l
  end.

(** ** Numbers *)

Abbreviation float64 := spec_float (only parsing).

(** [float64(z)] for a 64-bit integer: rounded to nearest, ties to even. *)
Definition float64_of_int (z : Z) : float64 := binary_normalize 53 1024 z 0 false.

(** [t.Sub(u)]: the difference as a 64-bit duration, cut off at its bounds. *)
Definition time_sub (t u : time) : Z :=
  Z.max (- max_int64 - 1) (Z.min max_int64 (t - u)).

(** [d.Seconds()] *)
Definition Seconds (d : Z) : float64 :=
  SFadd 53 1024 (float64_of_int (Z.quot d second))
    (SFdiv 53 1024 (float64_of_int (Z.rem d second)) (float64_of_int second)).

Definition secondsBetween (start end_ : time) : float64 := Seconds (time_sub end_ start).

(** ** Samples *)

Definition PlanMetricPlanStartedTotal : string := "agentos_plan_started_total".
Definition PlanMetricPlanCompletedTotal : string := "agentos_plan_completed_total".
Definition PlanMetricPlanDurationSeconds : string := "agentos_plan_duration_seconds".
Definition PlanMetricPlanQueueLatencySeconds : string := "agentos_plan_queue_latency_seconds".
Definition PlanMetricNodeStartedTotal : string := "agentos_plan_node_started_total".
Definition PlanMetricNodeCompletedTotal : string := "agentos_plan_node_completed_total".
Definition PlanMetricNodeDurationSeconds : string := "agentos_plan_node_duration_seconds".
Definition PlanMetricNodeQueueLatencySeconds : string := "agentos_plan_node_queue_latency_seconds".
Definition PlanMetricBackendErrorsTotal : string := "agentos_plan_backend_errors_total".
Definition PlanMetricArtifactPublishedBytes : string := "agentos_plan_artifact_published_bytes".
Definition PlanMetricBudgetDeltaCents : string := "agentos_plan_budget_delta_cents".
Definition PlanMetricBudgetSpentCents : string := "agentos_plan_budget_spent_cents".
Definition PlanMetricDynamicExpansionsTotal : string := "agentos_plan_dynamic_expansions_total".
Definition PlanMetricNodeRetryScheduledTotal : string := "agentos_plan_node_retry_scheduled_total".

Definition metricUnitCount : string := "count".
Definition metricUnitSeconds : string := "seconds".
Definition metricUnitBytes : string := "bytes".
Definition metricUnitCents : string := "cents".

Record PlanMetricSample := {
  ms_Name : string;
  ms_Value : float64;
  ms_Unit : string;
  ms_PlanID : string;
  ms_AccountID : string;
  ms_ProjectID : string;
  ms_NodeID : string;
  ms_RunID : string;
  ms_EventID : string;
  ms_Sequence : Z;
  ms_Timestamp : time;
  ms_Labels : go_map string;
}.

Record PlanMetricSampleKey := SampleKey {
  mk_Name : string;
  mk_PlanID : string;
  mk_NodeID : string;
  mk_RunID : string;
  mk_EventID : string;
  mk_Sequence : Z;
}.

#[global] Instance PlanMetricSampleKey_eq_dec : EqDecision PlanMetricSampleKey.
Proof. solve_decision. Defined.
#[global] Instance PlanMetricSampleKey_countable : Countable PlanMetricSampleKey.
Proof.
  refine (inj_countable'
            (λ k, (mk_Name k, mk_PlanID k, mk_NodeID k, mk_RunID k, mk_EventID k, mk_Sequence k))
            (λ p, SampleKey p.1.1.1.1.1 p.1.1.1.1.2 p.1.1.1.2 p.1.1.2 p.1.2 p.2) _).
  by intros [].
Defined.

Definition Key (s : PlanMetricSample) : PlanMetricSampleKey :=
  SampleKey (ms_Name s) (ms_PlanID s) (ms_NodeID s) (ms_RunID s) (ms_EventID s) (ms_Sequence s).

(** ** Labels *)

Definition cloneMetricLabels (input : go_map string) : go_map string :=
  match input with
  | None => None
  | Some m => if bool_decide (m = ∅) then None else Some m
  end.

(** [maps.Copy] into the clone panics when the clone is nil and there is something to copy. *)
Definition mergeLabels (left right : go_map string) : panics (go_map string) :=
  match cloneMetricLabels left with
  | Some merged => mret (Some (default ∅ right ∪ merged))
  | None => if bool_decide (default ∅ right = ∅) then mret None else Panics
  end.

Definition backendLabels (node : option PlanNodeSpec) : go_map string :=
  match node with
  | None => None
  | Some node =>
      let backend := run_Backend (node_Run node) in
      let labels := if backend_Kind backend != "" then {["backend_kind" := backend_Kind backend]} else ∅ in
      Some (if backend_Name backend != "" then <["backend_name" := backend_Name backend]> labels
            else labels)
  end.

Definition planLifecycleForEvent (eventType : string) : string :=
  if eventType == Core.EventPlanSucceeded then PlanLifecycleSucceeded
  else if eventType == Core.EventPlanFailed then PlanLifecycleFailed
  else if eventType == Core.EventPlanCanceled then PlanLifecycleCanceled
  else "".

Definition nodeLifecycleForEvent (eventType : string) : string :=
  if eventType == Core.EventPlanNodeSucceeded then PlanNodeSucceeded
  else if eventType == Core.EventPlanNodeFailed then PlanNodeFailed
  else if eventType == Core.EventPlanNodeCanceled then PlanNodeCanceled
  else if eventType == Core.EventPlanNodeSkipped then PlanNodeSkipped
  else "".

Definition metricSample (spec : RunPlanSpec) (event : PlanEvent) (name : string) (value : float64)
    (unit_ : string) (labels : go_map string) : PlanMetricSample := {|
  ms_Name := name; ms_Value := value; ms_Unit := unit_; ms_PlanID := ev_PlanID event;
  ms_AccountID := spec_AccountID spec; ms_ProjectID := spec_ProjectID spec;
  ms_NodeID := ev_NodeID event; ms_RunID := ev_RunID event; ms_EventID := ev_EventID event;
  ms_Sequence := ev_Sequence event; ms_Timestamp := ev_Timestamp event;
  ms_Labels := cloneMetricLabels labels |}.

Definition metric_one : float64 := float64_of_int 1.

(** ** Projection *)

Record planMetricNodeKey := nodeMetricKey { pnk_NodeID : string; pnk_RunID : string }.

#[global] Instance planMetricNodeKey_eq_dec : EqDecision planMetricNodeKey.
Proof. solve_decision. Defined.
#[global] Instance planMetricNodeKey_countable : Countable planMetricNodeKey.
Proof.
  refine (inj_countable' (λ k, (pnk_NodeID k, pnk_RunID k)) (λ p, nodeMetricKey p.1 p.2) _).
  by intros [].
Defined.

Record metricProjection := {
  mp_spec : RunPlanSpec;
  mp_nodeByID : gmap string PlanNodeSpec;
  mp_planStart : time;
  mp_nodeStarts : gmap planMetricNodeKey time;
  mp_samples : list PlanMetricSample;
}.

Definition planNodeByID (spec : RunPlanSpec) : gmap string PlanNodeSpec :=
  foldl (λ nodes node, <[node_NodeID node := node]> nodes) ∅ (spec_Nodes spec).

Definition nodeStartsFromMetricProjectionState (state : PlanMetricProjectionState) :
    gmap planMetricNodeKey time :=
  foldl (λ starts start,
    if (mns_NodeID start == "") || time_is_zero (mns_StartedAt start) then starts
    else <[nodeMetricKey (mns_NodeID start) (mns_RunID start) := mns_StartedAt start]> starts)
    ∅ (mps_NodeStartedAt state).

Definition newMetricProjection (spec : RunPlanSpec) (state : PlanMetricProjectionState) :
    metricProjection := {|
  mp_spec := spec; mp_nodeByID := planNodeByID spec; mp_planStart := mps_PlanStartedAt state;
  mp_nodeStarts := nodeStartsFromMetricProjectionState state; mp_samples := [] |}.

(** [p.samples = append(p.samples, samples...)] *)
Definition append_samples (p : metricProjection) (samples : list PlanMetricSample) :
    metricProjection :=
  {| p with mp_samples := mp_samples p ++ samples |}.

Definition shouldEmitMetricSample (event : PlanEvent) (afterSequence : Z) : bool :=
  (afterSequence == 0%Z) || (afterSequence <? ev_Sequence event)%Z.

(** [if !start.IsZero() && !end.IsZero() { append }] *)
Definition interval_sample (spec : RunPlanSpec) (event : PlanEvent) (name : string)
    (start : time) (labels : go_map string) : list PlanMetricSample :=
  if negb (time_is_zero start) && negb (time_is_zero (ev_Timestamp event)) then
    [metricSample spec event name (secondsBetween start (ev_Timestamp event)) metricUnitSeconds labels]
  else [].

Definition recordPlanStarted (p : metricProjection) (event : PlanEvent) (emit : bool) :
    metricProjection :=
  let p := {| p with mp_planStart := ev_Timestamp event |} in
  if negb emit then p else
  append_samples p
    (metricSample (mp_spec p) event PlanMetricPlanStartedTotal metric_one metricUnitCount None ::
     interval_sample (mp_spec p) event PlanMetricPlanQueueLatencySeconds
       (spec_RequestedAt (mp_spec p)) None).

Definition recordPlanCompleted (p : metricProjection) (event : PlanEvent) (emit : bool) :
    metricProjection :=
  if negb emit then p else
  let labels := Some {["lifecycle_state" := planLifecycleForEvent (ev_EventType event)]} in
  let p := append_samples p
    (metricSample (mp_spec p) event PlanMetricPlanCompletedTotal metric_one metricUnitCount labels ::
     interval_sample (mp_spec p) event PlanMetricPlanDurationSeconds (mp_planStart p) labels) in
  {| p with mp_planStart := zero_time |}.

Definition nodeRequestedAt (spec : RunPlanSpec) (node : PlanNodeSpec) : time :=
  if negb (time_is_zero (run_RequestedAt (node_Run node))) then run_RequestedAt (node_Run node)
  else spec_RequestedAt spec.

Definition recordNodeStarted (p : metricProjection) (event : PlanEvent) (emit : bool) :
    panics metricProjection :=
  let p := {| p with mp_nodeStarts :=
    <[nodeMetricKey (ev_NodeID event) (ev_RunID event) := ev_Timestamp event]> (mp_nodeStarts p) |} in
  if negb emit then mret p else
  let node := mp_nodeByID p !! ev_NodeID event in
  let labels := backendLabels node in
  node ← deref node;
  mret (append_samples p
    (metricSample (mp_spec p) event PlanMetricNodeStartedTotal metric_one metricUnitCount labels ::
     interval_sample (mp_spec p) event PlanMetricNodeQueueLatencySeconds
       (nodeRequestedAt (mp_spec p) node) labels)).

Definition recordNodeCompleted (p : metricProjection) (event : PlanEvent) (emit : bool) :
    panics metricProjection :=
  if negb emit then mret p else
  let node := mp_nodeByID p !! ev_NodeID event in
  labels ← mergeLabels (backendLabels node)
             (Some {["lifecycle_state" := nodeLifecycleForEvent (ev_EventType event)]});
  let key := nodeMetricKey (ev_NodeID event) (ev_RunID event) in
  let p := append_samples p
    (metricSample (mp_spec p) event PlanMetricNodeCompletedTotal metric_one metricUnitCount labels ::
     interval_sample (mp_spec p) event PlanMetricNodeDurationSeconds
       (default zero_time (mp_nodeStarts p !! key)) labels) in
  let p := {| p with mp_nodeStarts := delete key (mp_nodeStarts p) |} in
  mret (if ev_EventType event == Core.EventPlanNodeFailed then
          append_samples p [metricSample (mp_spec p) event PlanMetricBackendErrorsTotal metric_one
                              metricUnitCount (backendLabels node)]
        else p).

Section projection.
Context `{!RFC3339}.

Definition artifact_sample (spec : RunPlanSpec) (event : PlanEvent) (artifact : ArtifactRef) :
    PlanMetricSample :=
  let sample := metricSample spec event PlanMetricArtifactPublishedBytes
    (float64_of_int (ref_SizeBytes artifact)) metricUnitBytes
    (Some {["artifact_kind" := ref_Kind artifact]}) in
  {| sample with ms_NodeID := ref_NodeID artifact; ms_RunID := ref_RunID artifact |}.

(** The artifacts listed in the payload of an event. *)
Definition payload_artifacts (value : any) : result (list ArtifactRef) :=
  decodePlanDebugPayload (dec_slice zero_ArtifactRef dec_ArtifactRef) [] value.

Definition artifactMetricSamples (spec : RunPlanSpec) (event : PlanEvent) :
    result (list PlanMetricSample) :=
  match map_get (ev_Payload event) planEventPayloadArtifacts with
  | None => Ok []
  | Some value =>
      artifacts ← payload_artifacts value;
      Ok (fmap (M := list) (artifact_sample spec event) artifacts)
  end.

Definition budget_sample (spec : RunPlanSpec) (event : PlanEvent) (field name : string) :
    result (list PlanMetricSample) :=
  match map_get (ev_Payload event) field with
  | None => Ok []
  | Some value =>
      usage ← decodePlanDebugPayload dec_PlanBudgetUsage zero_PlanBudgetUsage value;
      Ok [metricSample spec event name (float64_of_int (usage_SpentCents usage)) metricUnitCents None]
  end.

Definition budgetMetricSamples (spec : RunPlanSpec) (event : PlanEvent) :
    result (list PlanMetricSample) :=
  delta ← budget_sample spec event planEventPayloadBudgetDelta PlanMetricBudgetDeltaCents;
  usage ← budget_sample spec event planEventPayloadBudgetUsage PlanMetricBudgetSpentCents;
  Ok (delta ++ usage).

Definition recordArtifactPublished (p : metricProjection) (event : PlanEvent) (emit : bool) :
    panics metricProjection :=
  if negb emit then mret p else
  Returns (append_samples p <$> artifactMetricSamples (mp_spec p) event).

Definition recordUsageReported (p : metricProjection) (event : PlanEvent) (emit : bool) :
    panics metricProjection :=
  if negb emit then mret p else
  Returns (append_samples p <$> budgetMetricSamples (mp_spec p) event).

Definition recordPlanExpanded (p : metricProjection) (event : PlanEvent) (emit : bool) :
    metricProjection :=
  if emit then append_samples p
    [metricSample (mp_spec p) event PlanMetricDynamicExpansionsTotal metric_one metricUnitCount None]
  else p.

Definition recordNodeRetryScheduled (p : metricProjection) (event : PlanEvent) (emit : bool) :
    metricProjection :=
  if emit then append_samples p
    [metricSample (mp_spec p) event PlanMetricNodeRetryScheduledTotal metric_one metricUnitCount
       (backendLabels (mp_nodeByID p !! ev_NodeID event))]
  else p.

Definition apply (p : metricProjection) (event : PlanEvent) (emit : bool) : panics metricProjection :=
  let type := ev_EventType event in
  if type == Core.EventPlanStarted then mret (recordPlanStarted p event emit)
  else if bool_decide (type ∈ [Core.EventPlanSucceeded; Core.EventPlanFailed; Core.EventPlanCanceled])
  then mret (recordPlanCompleted p event emit)
  else if type == Core.EventPlanNodeStarted then recordNodeStarted p event emit
  else if bool_decide (type ∈ [Core.EventPlanNodeSucceeded; Core.EventPlanNodeFailed;
                               Core.EventPlanNodeCanceled; Core.EventPlanNodeSkipped])
  then recordNodeCompleted p event emit
  else if type == Core.EventNodeOutputPublished then recordArtifactPublished p event emit
  else if type == Core.EventUsageReported then recordUsageReported p event emit
  else if type == Core.EventPlanExpanded then mret (recordPlanExpanded p event emit)
  else if type == Core.EventPlanNodeRetryScheduled then mret (recordNodeRetryScheduled p event emit)
  else mret p.

(** [sort.SliceStable] by sequence, or by time when both sequences are zero. *)
Definition ordered_le (x y : PlanEvent) : Prop :=
  if (ev_Sequence x != 0%Z) || (ev_Sequence y != 0%Z) then (ev_Sequence x ≤ ev_Sequence y)%Z
  else (ev_Timestamp x ≤ ev_Timestamp y)%Z.

#[global] Instance ordered_le_dec : RelDecision ordered_le.
Proof. intros x y. unfold ordered_le. destruct (_ || _); apply _. Defined.

Definition orderedPlanEvents (events : list PlanEvent) : list PlanEvent :=
  merge_sort ordered_le events.

Definition start_le (x y : PlanMetricNodeStartState) : Prop :=
  if mns_NodeID x != mns_NodeID y then String.le (mns_NodeID x) (mns_NodeID y)
  else String.le (mns_RunID x) (mns_RunID y).

#[global] Instance start_le_dec : RelDecision start_le.
Proof. intros x y. unfold start_le. destruct (negb _); apply _. Defined.

Definition metricProjectionStateFromStarts (planStart : time)
    (nodeStarts : gmap planMetricNodeKey time) : PlanMetricProjectionState := {|
  mps_PlanStartedAt := planStart;
  mps_NodeStartedAt := merge_sort start_le
    ((λ '(key, startedAt), {| mns_NodeID := pnk_NodeID key; mns_RunID := pnk_RunID key;
                              mns_StartedAt := startedAt |}) <$> map_to_list nodeStarts) |}.

Definition projectPlanMetricSamples (spec : RunPlanSpec) (state : PlanMetricProjectionState)
    (events : list PlanEvent) (afterSequence : Z) :
    panics (list PlanMetricSample * PlanMetricProjectionState) :=
  projection ← foldP (λ p event, apply p event (shouldEmitMetricSample event afterSequence))
                 (newMetricProjection spec state) (orderedPlanEvents events);
  mret (mp_samples projection,
        metricProjectionStateFromStarts (mp_planStart projection) (mp_nodeStarts projection)).

Definition zero_PlanMetricProjectionState : PlanMetricProjectionState := {|
  mps_PlanStartedAt := zero_time; mps_NodeStartedAt := [] |}.

Definition BuildPlanMetricSamplesAfter (spec : RunPlanSpec) (events : list PlanEvent)
    (afterSequence : Z) : panics (list PlanMetricSample) :=
  '(samples, _) ← projectPlanMetricSamples spec zero_PlanMetricProjectionState events afterSequence;
  mret samples.

Definition BuildPlanMetricSamples (spec : RunPlanSpec) (events : list PlanEvent) :
    panics (list PlanMetricSample) :=
  BuildPlanMetricSamplesAfter spec events 0.

Definition BuildPlanMetricSamplesFromState (spec : RunPlanSpec) (state : PlanMetricProjectionState)
    (events : list PlanEvent) : panics (list PlanMetricSample * PlanMetricProjectionState) :=
  projectPlanMetricSamples spec state events 0.
End projection.

(** ** metric_sample.go *)

(** [t.Truncate(d)]: down to a multiple of [d] since the zero instant. *)
Definition time_truncate (t : time) (d : Z) : time := (t - t mod d)%Z.

Definition NormalizePlanMetricSample (sample : PlanMetricSample) : PlanMetricSample :=
  {| sample with ms_Timestamp := time_truncate (ms_Timestamp sample) microsecond;
                 ms_Labels := Some (default ∅ (ms_Labels sample)) |}.

Definition validatePlanMetricSampleIdentity (sample : PlanMetricSample) : result unit :=
  forM (λ value, fail_if (value == "") (Errorf ErrInvalidRunPlan "%s is required"))
    [ms_Name sample; ms_PlanID sample; ms_AccountID sample; ms_ProjectID sample; ms_EventID sample;
     ms_Unit sample];;
  fail_if (ms_Sequence sample <=? 0)%Z
    (Errorf ErrInvalidRunPlan "metric event sequence must be positive").

(** [math.IsNaN] or [math.IsInf] *)
Definition not_finite (v : float64) : bool :=
  match v with S754_nan | S754_infinity _ => true | _ => false end.

Definition ValidatePlanMetricSample (sample : PlanMetricSample) : result unit :=
  validatePlanMetricSampleIdentity sample;;
  fail_if (not_finite (ms_Value sample)) (Errorf ErrInvalidRunPlan "metric value must be finite");;
  fail_if (time_is_zero (ms_Timestamp sample))
    (Errorf ErrInvalidRunPlan "metric timestamp is required");;
  fail_if (bool_decide (is_Some (default ∅ (ms_Labels sample) !! "")))
    (Errorf ErrInvalidRunPlan "metric label key is required").

Definition samePlanMetricSampleFact (existing requested : PlanMetricSample) : bool :=
  (ms_Name existing == ms_Name requested) && (ms_PlanID existing == ms_PlanID requested) &&
  (ms_AccountID existing == ms_AccountID requested) &&
  (ms_ProjectID existing == ms_ProjectID requested) &&
  (ms_NodeID existing == ms_NodeID requested) && (ms_RunID existing == ms_RunID requested) &&
  (ms_EventID existing == ms_EventID requested) && (ms_Unit existing == ms_Unit requested) &&
  (ms_Sequence existing == ms_Sequence requested) &&
  SFeqb (ms_Value existing) (ms_Value requested) &&
  (ms_Timestamp existing == ms_Timestamp requested) &&
  bool_decide (default ∅ (ms_Labels existing) = default ∅ (ms_Labels requested)).

Definition ValidatePlanMetricSampleIdempotency (existing requested : PlanMetricSample) : result unit :=
  fail_if (negb (samePlanMetricSampleFact (NormalizePlanMetricSample existing)
                                          (NormalizePlanMetricSample requested)))
    (Errorf ErrInvalidRunPlan "metric sample identity conflict for plan %q event %q").
