(* ===== verification/MetricsSpec.v ===== *)
(** * Metric projection: batches and identities

    The samples of a stream do not depend on the batches in which an exporter reads it,
    and a panic or an error does not either. *)

From Stdlib Require Import Floats.SpecFloat.
From S2P Require Import Prelude Types Scope State Json Events Decode Idempotency Artifacts PlanStore.
From S2P Require Import PlanStoreSpec Metrics.

Lemma panics_bind_assoc {A B C} (m : panics A) (f : A → panics B) (g : B → panics C) :
  (m ≫= f) ≫= g = m ≫= λ a, f a ≫= g.
Proof. by destruct m as [[|]|]. Qed.

Lemma foldP_app {S A} (f : S → A → panics S) s l1 l2 :
  foldP f s (l1 ++ l2) = foldP f s l1 ≫= λ s', foldP f s' l2.
Proof.
  revert s. induction l1 as [|a l1 IH]; intros s; [done|]. cbn. rewrite panics_bind_assoc.
  by destruct (f s a) as [[s'|]|]; [apply IH|..].
Qed.

(** ** Projection states *)

(** Two states from which a projection continues alike. *)
#[global] Instance PlanMetricProjectionState_equiv : Equiv PlanMetricProjectionState := λ s t,
  mps_PlanStartedAt s = mps_PlanStartedAt t ∧
  nodeStartsFromMetricProjectionState s = nodeStartsFromMetricProjectionState t.

#[global] Instance PlanMetricProjectionState_equivalence :
  Equivalence (≡@{PlanMetricProjectionState}).
Proof.
  split; [done|by intros s t [? ?]; split|]. intros s t u [] []. split; congruence.
Qed.

(** An entry that a reload keeps. *)
Definition kept (kv : planMetricNodeKey * time) : Prop :=
  pnk_NodeID kv.1 ≠ "" ∧ kv.2 ≠ zero_time.

#[local] Instance kept_dec kv : Decision (kept kv).
Proof. unfold kept. apply _. Defined.

Definition start_entry (kv : planMetricNodeKey * time) : PlanMetricNodeStartState := {|
  mns_NodeID := pnk_NodeID kv.1; mns_RunID := pnk_RunID kv.1; mns_StartedAt := kv.2 |}.

Lemma insert_kept (l : list (planMetricNodeKey * time)) (m : gmap planMetricNodeKey time) :
  NoDup l.*1 →
  foldl (λ starts start,
    if (mns_NodeID start == "") || time_is_zero (mns_StartedAt start) then starts
    else <[nodeMetricKey (mns_NodeID start) (mns_RunID start) := mns_StartedAt start]> starts)
    m (start_entry <$> l) =
  list_to_map (filter kept l) ∪ m.
Proof.
  revert m. induction l as [|[[n r] t] l IH]; intros m Hnd; cbn -[filter].
  { by rewrite filter_nil, list_to_map_nil, (left_id_L ∅ (∪)). }
  rewrite fmap_cons, NoDup_cons in Hnd. destruct Hnd as [Hni Hnd]. rewrite IH by done.
  destruct (decide (kept (nodeMetricKey n r, t))) as [Hk|Hk].
  - rewrite filter_cons_True by done. destruct Hk as [Hn Ht]. cbn in Hn, Ht.
    unfold time_is_zero. rewrite !bool_decide_eq_false_2 by done. cbn.
    rewrite <- insert_union_r; [by rewrite insert_union_l|].
    apply not_elem_of_list_to_map. intros Hin. apply Hni.
    apply list_elem_of_fmap in Hin as (kv & Hkv & [_ ?]%list_elem_of_filter).
    apply list_elem_of_fmap. by exists kv.
  - rewrite filter_cons_False by done. unfold kept in Hk. cbn in Hk. unfold time_is_zero.
    destruct (decide (n = "")); [by rewrite bool_decide_eq_true_2|].
    destruct (decide (t = zero_time)); [|tauto].
    rewrite (bool_decide_eq_true_2 (t = zero_time)) by done. by rewrite orb_true_r.
Qed.

Lemma reload_starts planStart (m : gmap planMetricNodeKey time) :
  nodeStartsFromMetricProjectionState (metricProjectionStateFromStarts planStart m) = filter kept m.
Proof.
  unfold nodeStartsFromMetricProjectionState, metricProjectionStateFromStarts. cbn [mps_NodeStartedAt].
  set (l := merge_sort start_le _).
  set (entry_of := λ e, (nodeMetricKey (mns_NodeID e) (mns_RunID e), mns_StartedAt e)).
  assert (start_entry <$> (entry_of <$> l) = l) as <-.
  { rewrite <- list_fmap_compose. rewrite <- (list_fmap_id l) at 2. apply list_fmap_ext.
    by intros ? []. }
  assert (entry_of <$> l ≡ₚ map_to_list m) as Hp.
  { subst l. rewrite merge_sort_Permutation, <- list_fmap_compose.
    rewrite <- (list_fmap_id (map_to_list m)) at 2. apply Permutation_refl', list_fmap_ext.
    by intros ? [[] ?]. }
  rewrite insert_kept by (rewrite Hp; apply NoDup_fst_map_to_list).
  rewrite (right_id_L ∅ (∪)). apply map_eq. intros k. apply option_eq. intros t.
  rewrite map_lookup_filter_Some, <- elem_of_list_to_map.
  - by rewrite list_elem_of_filter, Hp, elem_of_map_to_list, (comm (∧)).
  - eapply sublist_NoDup; [|apply fmap_sublist, sublist_filter].
    rewrite Hp. apply NoDup_fst_map_to_list.
Qed.

(** What was loaded is kept by the next reload. *)
Lemma loaded_kept state k t :
  nodeStartsFromMetricProjectionState state !! k = Some t → kept (k, t).
Proof.
  unfold nodeStartsFromMetricProjectionState.
  induction (mps_NodeStartedAt state) as [|start l IH] using rev_ind; [done|].
  rewrite foldl_app. cbn. unfold time_is_zero. destruct (_ || _) eqn:Hb; [done|].
  apply orb_false_iff in Hb as [Hn%bool_decide_eq_false_1 Ht%bool_decide_eq_false_1].
  intros [[<- <-]|[_ Hl]]%lookup_insert_Some; [by split|by apply IH].
Qed.

(** ** Projections that differ only in what they have emitted *)

(** [p] has emitted [out] before what [q] has; reading a start finds the same. *)
Record sim (out : list PlanMetricSample) (p q : metricProjection) : Prop := {
  sim_spec : mp_spec p = mp_spec q;
  sim_nodes : mp_nodeByID p = mp_nodeByID q;
  sim_start : mp_planStart p = mp_planStart q;
  sim_starts k : default zero_time (mp_nodeStarts p !! k) = default zero_time (mp_nodeStarts q !! k);
  sim_samples : mp_samples p = out ++ mp_samples q;
}.

Inductive panics_rel {A B} (R : A → B → Prop) : panics A → panics B → Prop :=
  | rel_ok a b : R a b → panics_rel R (Returns (Ok a)) (Returns (Ok b))
  | rel_err e : panics_rel R (Returns (Err e)) (Returns (Err e))
  | rel_panics : panics_rel R Panics Panics.

Lemma panics_rel_Ok {A B} (R : A → B → Prop) a y :
  panics_rel R (Returns (Ok a)) y → ∃ b, y = Returns (Ok b) ∧ R a b.
Proof. inversion 1; subst; by eexists. Qed.

Lemma panics_rel_bind {A B A' B'} (R : A → B → Prop) (R' : A' → B' → Prop) m n f g :
  panics_rel R m n → (∀ a b, R a b → panics_rel R' (f a) (g b)) →
  panics_rel R' (m ≫= f) (n ≫= g).
Proof. intros [] Hfg; cbn; [by apply Hfg|constructor..]. Qed.

Lemma sim_append out p q l : sim out p q → sim out (append_samples p l) (append_samples q l).
Proof. intros []. split; cbn; [done..|]. rewrite sim_samples0. by rewrite app_assoc. Qed.

Lemma sim_insert out p q k t :
  sim out p q →
  sim out {| p with mp_nodeStarts := <[k := t]> (mp_nodeStarts p) |}
          {| q with mp_nodeStarts := <[k := t]> (mp_nodeStarts q) |}.
Proof.
  intros []. split; cbn; [done..| |done]. intros k'.
  destruct (decide (k = k')) as [->|]; [by rewrite !lookup_insert_eq|].
  by rewrite !lookup_insert_ne.
Qed.

Lemma sim_delete out p q k :
  sim out p q →
  sim out {| p with mp_nodeStarts := delete k (mp_nodeStarts p) |}
          {| q with mp_nodeStarts := delete k (mp_nodeStarts q) |}.
Proof.
  intros []. split; cbn; [done..| |done]. intros k'.
  destruct (decide (k = k')) as [->|]; [by rewrite !lookup_delete_eq|].
  by rewrite !lookup_delete_ne.
Qed.

Lemma sim_plan_start out p q t :
  sim out p q → sim out {| p with mp_planStart := t |} {| q with mp_planStart := t |}.
Proof. intros []. by split. Qed.

#[local] Arguments append_samples : simpl never.

Section sim.
Context `{!RFC3339}.

Lemma apply_sim out p q event emit :
  sim out p q → panics_rel (sim out) (apply p event emit) (apply q event emit).
Proof.
  intros Hs. unfold apply. destruct p as [spec nodes start ps psamples], q as [spec' nodes' start' qs qsamples].
  pose proof Hs as [Hspec Hnodes Hstart Hstarts _]. cbn in Hspec, Hnodes, Hstart, Hstarts. subst.
  repeat case_match; try (constructor; done).
  - constructor. unfold recordPlanStarted. destruct emit; [apply sim_append|];
      exact (sim_plan_start out _ _ _ Hs).
  - constructor. unfold recordPlanCompleted. destruct emit; [|done].
    apply (sim_plan_start out (append_samples _ _) (append_samples _ _)). by apply sim_append.
  - unfold recordNodeStarted. destruct emit; cbn; [|constructor; exact (sim_insert out _ _ _ _ Hs)].
    destruct (nodes' !! _); cbn; constructor. apply sim_append. exact (sim_insert out _ _ _ _ Hs).
  - unfold recordNodeCompleted. destruct emit; cbn; [|by constructor].
    destruct (mergeLabels _ _) as [[labels|]|]; cbn; constructor. rewrite Hstarts.
    case_match; [apply sim_append|];
      by apply (sim_delete out (append_samples _ _) (append_samples _ _)), sim_append.
  - unfold recordArtifactPublished. destruct emit; cbn; [|by constructor].
    destruct (artifactMetricSamples _ _); cbn; constructor. by apply sim_append.
  - unfold recordUsageReported. destruct emit; cbn; [|by constructor].
    destruct (budgetMetricSamples _ _); cbn; constructor. by apply sim_append.
  - constructor. unfold recordPlanExpanded. destruct emit; [by apply sim_append|done].
  - constructor. unfold recordNodeRetryScheduled. destruct emit; [by apply sim_append|done].
Qed.

Lemma fold_sim out p q events emit :
  sim out p q →
  panics_rel (sim out) (foldP (λ p event, apply p event (emit event)) p events)
                       (foldP (λ p event, apply p event (emit event)) q events).
Proof.
  revert p q. induction events as [|e events IH]; intros p q Hs; cbn; [by constructor|].
  eapply panics_rel_bind; [by apply apply_sim|]. intros p' q'. apply IH.
Qed.
End sim.

(** ** Streams *)

(** Events in the order of the stream. *)
Definition increasing : list PlanEvent → Prop :=
  StronglySorted (λ x y, (ev_Sequence x < ev_Sequence y)%Z).

Lemma ordered_le_iff x y :
  ordered_le x y ↔ (ev_Sequence x < ev_Sequence y)%Z ∨
    ev_Sequence x = ev_Sequence y ∧ (ev_Sequence x ≠ 0%Z ∨ (ev_Timestamp x ≤ ev_Timestamp y)%Z).
Proof.
  unfold ordered_le.
  destruct (decide (ev_Sequence x = 0%Z)), (decide (ev_Sequence y = 0%Z));
    repeat (rewrite bool_decide_eq_true_2 by done);
    repeat (rewrite bool_decide_eq_false_2 by done); cbn; lia.
Qed.

#[local] Instance ordered_le_total : Total ordered_le.
Proof. intros x y. rewrite !ordered_le_iff. lia. Qed.
#[local] Instance ordered_le_trans : Transitive ordered_le.
Proof. intros x y z. rewrite !ordered_le_iff. lia. Qed.

Lemma increasing_app l1 l2 : increasing (l1 ++ l2) → increasing l1 ∧ increasing l2.
Proof.
  intros Hs. split; [by eapply StronglySorted_app_1_l|by eapply StronglySorted_app_1_r].
Qed.

Lemma increasing_inj es x y :
  increasing es → x ∈ es → y ∈ es → ev_Sequence x = ev_Sequence y → x = y.
Proof.
  induction 1 as [|e es _ IH Hall]; intros Hx Hy Heq; [by apply not_elem_of_nil in Hx|].
  rewrite Forall_forall in Hall.
  apply elem_of_cons in Hx as [->|Hx], Hy as [->|Hy]; [done|..|by apply IH].
  - specialize (Hall _ Hy). lia.
  - specialize (Hall _ Hx). lia.
Qed.

Lemma increasing_ordered es : increasing es → orderedPlanEvents es = es.
Proof.
  intros Hs. change (orderedPlanEvents es) with (sort_slice ordered_le es).
  apply sort_slice_id; try apply _.
  - intros x y Hx Hy. rewrite !ordered_le_iff. intros. apply (increasing_inj es); [done..|lia].
  - apply StronglySorted_Sorted. rewrite <- (list_fmap_id es).
    eapply (StronglySorted_fmap id); [|exact Hs]. intros x y Hlt. apply ordered_le_iff. by left.
Qed.

(** ** Cutting a stream *)

(** Node ids are not empty, as the validator demands. *)
Definition named (spec : RunPlanSpec) : Prop := ∀ node, node ∈ spec_Nodes spec → node_NodeID node ≠ "".

Lemma planNodeByID_elem spec id node :
  planNodeByID spec !! id = Some node → node ∈ spec_Nodes spec ∧ node_NodeID node = id.
Proof.
  unfold planNodeByID. induction (spec_Nodes spec) as [|n l IH] using rev_ind; [done|].
  rewrite foldl_app. cbn. intros [[<- <-]|[_ Hl]]%lookup_insert_Some.
  - split; [|done]. apply elem_of_app. right. by apply list_elem_of_singleton.
  - destruct (IH Hl) as [? ?]. split; [|done]. apply elem_of_app. by left.
Qed.

(** What a projection that emits everything maintains. *)
Record going (spec : RunPlanSpec) (p : metricProjection) : Prop := {
  go_spec : mp_spec p = spec;
  go_nodes : mp_nodeByID p = planNodeByID spec;
  go_starts k t : mp_nodeStarts p !! k = Some t → pnk_NodeID k ≠ "";
}.

Section cut.
Context `{!RFC3339} (spec : RunPlanSpec) (Hnamed : named spec).

Lemma going_append p l : going spec p → going spec (append_samples p l).
Proof. intros []. by split. Qed.

Lemma going_delete p k :
  going spec p → going spec {| p with mp_nodeStarts := delete k (mp_nodeStarts p) |}.
Proof.
  intros [Hs Hn Hst]. split; [done..|]. cbn. intros k' t [_ Hk]%lookup_delete_Some. by eapply Hst.
Qed.

Lemma going_new state : going spec (newMetricProjection spec state).
Proof. split; [done..|]. cbn. intros k t Hk. by apply loaded_kept in Hk as [? _]. Qed.

Lemma apply_going p event p' :
  going spec p → apply p event true = Returns (Ok p') → going spec p'.
Proof.
  intros Hg. pose proof Hg as [Hs Hn Hst]. unfold apply, mret, panics_ret. repeat case_match; try (by intros [= <-]; split).
  - unfold recordNodeStarted. cbn. rewrite Hn. destruct (planNodeByID spec !! _) as [node|] eqn:Hl; [|done].
    intros [= <-]. apply going_append. split; [done..|]. cbn.
    apply planNodeByID_elem in Hl as [Hin Hid].
    intros k t [[<- _]|[_ Hk]]%lookup_insert_Some; [cbn; rewrite <- Hid; by apply Hnamed|by eapply Hst].
  - unfold recordNodeCompleted. cbn. destruct (mergeLabels _ _) as [[labels|]|]; cbn; [|done..].
    intros [= <-]. case_match; [apply going_append|];
      by apply (going_delete (append_samples _ _)), going_append.
  - unfold recordArtifactPublished. cbn. destruct (artifactMetricSamples _ _); [|done].
    intros [= <-]. by apply going_append.
  - unfold recordUsageReported. cbn. destruct (budgetMetricSamples _ _); [|done].
    intros [= <-]. by apply going_append.
Qed.

Lemma fold_going events p p' :
  going spec p →
  foldP (λ p event, apply p event true) p events = Returns (Ok p') → going spec p'.
Proof.
  revert p. induction events as [|e events IH]; intros p Hg; cbn; [by intros [= <-]|].
  destruct (apply p e true) as [[p1|]|] eqn:Ha; cbn; [|done..]. eapply IH. by eapply apply_going.
Qed.

(** The durable state of a projection. *)
Definition state_of (p : metricProjection) : PlanMetricProjectionState :=
  metricProjectionStateFromStarts (mp_planStart p) (mp_nodeStarts p).

Lemma project_increasing state events :
  increasing events →
  BuildPlanMetricSamplesFromState spec state events =
  p ← foldP (λ p event, apply p event true) (newMetricProjection spec state) events;
  mret (mp_samples p, state_of p).
Proof.
  intros Hi. unfold BuildPlanMetricSamplesFromState, projectPlanMetricSamples.
  by rewrite (increasing_ordered _ Hi).
Qed.

(** A reload finds what the projection knew. *)
Lemma sim_reload p :
  going spec p → sim (mp_samples p) p (newMetricProjection spec (state_of p)).
Proof.
  intros [Hs Hn Hst]. split; [done..| |]; cbn [newMetricProjection mp_nodeStarts mp_samples].
  - intros k. unfold state_of. rewrite reload_starts, map_lookup_filter.
    destruct (mp_nodeStarts p !! k) as [t|] eqn:Hk; cbn; [|done].
    destruct (decide (t = zero_time)) as [->|Ht].
    + case_guard; done.
    + rewrite option_guard_True; [done|]. split; [by eapply Hst|done].
  - by rewrite app_nil_r.
Qed.

Lemma sim_state out p q : sim out p q → state_of p ≡ state_of q.
Proof.
  intros [_ _ Hstart Hstarts _]. split; [done|]. unfold state_of. rewrite !reload_starts.
  apply map_eq. intros k. apply option_eq. intros t. rewrite !map_lookup_filter_Some.
  specialize (Hstarts k). unfold kept. cbn.
  destruct (mp_nodeStarts p !! k), (mp_nodeStarts q !! k); cbn in Hstarts; naive_solver.
Qed.

(** Results with the same samples from whose states a projection continues alike. *)
Definition same_projection (x y : list PlanMetricSample * PlanMetricProjectionState) : Prop :=
  x.1 = y.1 ∧ x.2 ≡ y.2.

Lemma project_cut state events1 events2 :
  increasing (events1 ++ events2) →
  panics_rel same_projection
    (BuildPlanMetricSamplesFromState spec state (events1 ++ events2))
    ('(samples1, state1) ← BuildPlanMetricSamplesFromState spec state events1;
     '(samples2, state2) ← BuildPlanMetricSamplesFromState spec state1 events2;
     mret (samples1 ++ samples2, state2)).
Proof.
  intros Hi. pose proof Hi as [H1 H2]%increasing_app.
  rewrite !project_increasing, foldP_app by done.
  destruct (foldP _ _ events1) as [[p|]|] eqn:Hp; cbn; [|constructor..].
  apply fold_going in Hp; [|apply going_new].
  rewrite project_increasing by done. rewrite panics_bind_assoc.
  eapply panics_rel_bind; [by apply fold_sim with (emit := λ _, true), sim_reload|].
  intros p2 q2 Hs. cbn. constructor. split; [apply Hs|by eapply sim_state].
Qed.

#[global] Instance project_proper events :
  Proper ((≡) ==> (=)) (λ state, BuildPlanMetricSamplesFromState spec state events).
Proof.
  intros s1 s2 [Hp Hs]. unfold BuildPlanMetricSamplesFromState, projectPlanMetricSamples,
    newMetricProjection. by rewrite Hp, Hs.
Qed.

#[local] Instance panics_rel_transitive {A} (R : relation A) :
  Transitive R → Transitive (panics_rel R).
Proof.
  intros HR x y z Hxy Hyz. inversion Hxy; subst; inversion Hyz; subst; constructor. by etrans.
Qed.

#[local] Instance same_projection_transitive : Transitive same_projection.
Proof. intros x y z [? ?] [? ?]. split; by etrans. Qed.

(** A stream read in batches, the state passed on from one to the next. *)
Fixpoint project_batches (state : PlanMetricProjectionState) (batches : list (list PlanEvent)) :
    panics (list PlanMetricSample * PlanMetricProjectionState) :=
  match batches with
  | [] => mret ([], state)
  | batch :: batches =>
      '(samples1, state1) ← BuildPlanMetricSamplesFromState spec state batch;
      '(samples2, state2) ← project_batches state1 batches;
      mret (samples1 ++ samples2, state2)
  end.

Lemma project_nil state :
  panics_rel same_projection (mret ([], state)) (BuildPlanMetricSamplesFromState spec state []).
Proof.
  rewrite project_increasing by constructor. constructor. split; [done|]. split; [done|].
  unfold state_of. cbn [snd newMetricProjection mp_nodeStarts mp_planStart]. rewrite reload_starts.
  symmetry. apply map_filter_id. intros k t. apply loaded_kept.
Qed.

Lemma project_concat state batches :
  increasing (concat batches) →
  panics_rel same_projection (project_batches state batches)
    (BuildPlanMetricSamplesFromState spec state (concat batches)).
Proof.
  revert state. induction batches as [|b bs IH]; intros state Hi; cbn -[BuildPlanMetricSamplesFromState].
  { apply project_nil. }
  pose proof Hi as [_ Hbs]%increasing_app.
  assert (∀ x y, panics_rel same_projection x y → panics_rel same_projection y x) as Hsym.
  { intros x y []; constructor. split; symmetry; by apply H0. }
  etrans; [|apply Hsym, project_cut, Hi].
  destruct (BuildPlanMetricSamplesFromState spec state b) as [[[s1 st1]|]|]; cbn -[BuildPlanMetricSamplesFromState];
    [|constructor..].
  eapply panics_rel_bind; [apply (IH st1 Hbs)|]. intros [s2 st2] [s2' st2'] [Hs Hst]. cbn in *.
  constructor. split; cbn; [by rewrite Hs|done].
Qed.
End cut.

(** ** Identities of samples *)

Lemma elem_of_concat {A} (x : A) (ls : list (list A)) : x ∈ concat ls ↔ ∃ l, x ∈ l ∧ l ∈ ls.
Proof.
  induction ls as [|l ls IH]; cbn; [set_solver|]. rewrite elem_of_app, IH. set_solver.
Qed.

Section samples.
Context `{!RFC3339}.

(** The samples of one event carry its identity.  They have different names, unless they
    are samples of published artifacts. *)
Record emitted (spec : RunPlanSpec) (event : PlanEvent) (new : list PlanMetricSample) : Prop := {
  em_identity : Forall (λ s, ms_PlanID s = ev_PlanID event ∧ ms_EventID s = ev_EventID event ∧
                             ms_Sequence s = ev_Sequence event) new;
  em_tenant : Forall (λ s, ms_AccountID s = spec_AccountID spec ∧
                           ms_ProjectID s = spec_ProjectID spec) new;
  em_names : ev_EventType event ≠ Core.EventNodeOutputPublished → NoDup (ms_Name <$> new);
  em_artifacts : ev_EventType event = Core.EventNodeOutputPublished →
    artifactMetricSamples spec event = Ok new;
}.

Lemma interval_sample_or spec event name start labels :
  interval_sample spec event name start labels = [] ∨
  ∃ v, interval_sample spec event name start labels =
         [metricSample spec event name v metricUnitSeconds labels].
Proof. unfold interval_sample. destruct (_ && _); [right; by eexists|by left]. Qed.

(** One event's samples that are counts and intervals. *)
Lemma emitted_list spec event new :
  ev_EventType event ≠ Core.EventNodeOutputPublished →
  Forall (λ s, ∃ name v u l, s = metricSample spec event name v u l) new →
  NoDup (ms_Name <$> new) → emitted spec event new.
Proof.
  intros Ht Hall Hnd. split; [..|done|done];
    (eapply Forall_impl; [exact Hall|]; by intros s (name & v & u & l & ->)).
Qed.

Lemma budgetMetricSamples_names spec event new :
  budgetMetricSamples spec event = Ok new →
  Forall (λ s, ∃ name v u l, s = metricSample spec event name v u l) new ∧ NoDup (ms_Name <$> new).
Proof.
  unfold budgetMetricSamples, budget_sample.
  intros (d & Hd & (u & Hu & [= <-])%bind_Ok)%bind_Ok.
  assert (d = [] ∨ ∃ v, d = [metricSample spec event PlanMetricBudgetDeltaCents v metricUnitCents None]) as Hd'.
  { destruct (map_get _ _); [|left; by injection Hd]. apply bind_Ok in Hd as (x & _ & [= <-]). right. by eexists. }
  assert (u = [] ∨ ∃ v, u = [metricSample spec event PlanMetricBudgetSpentCents v metricUnitCents None]) as Hu'.
  { destruct (map_get _ planEventPayloadBudgetUsage); [|left; by injection Hu].
    apply bind_Ok in Hu as (x & _ & [= <-]). right. by eexists. }
  clear Hd Hu. destruct Hd' as [->|[v ->]], Hu' as [->|[v' ->]]; cbn; split;
    repeat constructor; try (by do 4 eexists); set_solver.
Qed.

(** The names of a few samples differ. *)
Ltac emits := repeat constructor; try (by do 4 eexists); set_solver.

Lemma apply_emits p event p' :
  apply p event true = Returns (Ok p') →
  ∃ new, mp_samples p' = mp_samples p ++ new ∧ emitted (mp_spec p) event new ∧ mp_spec p' = mp_spec p.
Proof.
  destruct (decide (ev_EventType event = Core.EventNodeOutputPublished)) as [Ht|Ht]; unfold apply.
  { rewrite Ht. unfold recordArtifactPublished. cbn.
    destruct (artifactMetricSamples _ _) as [new|] eqn:Hnew; [|done]. intros [= <-]. exists new.
    split; [done|]. split; [|done]. split; [..|done|done]; unfold artifactMetricSamples in Hnew;
      (destruct (map_get _ _); [|by injection Hnew as <-]);
      apply bind_Ok in Hnew as (refs & _ & [= <-]); by apply Forall_fmap, Forall_forall. }
  rewrite (bool_decide_eq_false_2 (_ = Core.EventNodeOutputPublished)) by done.
  unfold mret, panics_ret.
  repeat case_match; try (intros [= <-]; cbn -[interval_sample]; eexists; split; [done|]; split; [|done];
    (apply emitted_list; [done|..];
     try (edestruct interval_sample_or as [->|[? ->]]); emits)).
  - unfold recordNodeStarted. cbn -[interval_sample]. destruct (mp_nodeByID p !! _); [|done].
    intros [= <-]. eexists. split; [done|]. split; [|done].
    apply emitted_list; [done|..]; edestruct interval_sample_or as [->|[? ->]]; emits.
  - unfold recordNodeCompleted. cbn -[interval_sample].
    destruct (mergeLabels _ _) as [[labels|]|]; cbn -[interval_sample]; [|done..]. intros [= <-].
    case_match; unfold append_samples; cbn -[interval_sample app]; eexists;
      (split; [first [rewrite <- app_assoc; reflexivity|reflexivity]|]; split; [|done]);
      (apply emitted_list; [done|..]; edestruct interval_sample_or as [->|[? ->]]; emits).
  - unfold recordUsageReported. cbn. destruct (budgetMetricSamples _ _) as [new|] eqn:Hnew; [|done].
    intros [= <-]. apply budgetMetricSamples_names in Hnew as [? ?]. exists new.
    split; [done|]. split; [by apply emitted_list|done].
  - intros [= <-]. exists []. rewrite app_nil_r. split; [done|]. split; [|done]. split; [done|done| |done].
    constructor.
Qed.

Lemma fold_emits es p p' :
  foldP (λ p event, apply p event true) p es = Returns (Ok p') →
  ∃ groups, mp_samples p' = mp_samples p ++ concat groups ∧ Forall2 (emitted (mp_spec p)) es groups.
Proof.
  revert p. induction es as [|e es IH]; intros p; cbn.
  { intros [= <-]. exists []. by rewrite app_nil_r. }
  destruct (apply p e true) as [[p1|]|] eqn:Ha; cbn; [|done..]. intros Hf.
  apply apply_emits in Ha as (new & Hnew & Hem & Hspec).
  destruct (IH _ Hf) as (groups & Hg & Hall). exists (new :: groups). rewrite Hg, Hnew, Hspec in *.
  split; [by rewrite <- app_assoc|by constructor].
Qed.

Lemma project_emits spec state es samples state' :
  increasing es →
  BuildPlanMetricSamplesFromState spec state es = Returns (Ok (samples, state')) →
  ∃ groups, samples = concat groups ∧ Forall2 (emitted spec) es groups.
Proof.
  intros Hi. rewrite (project_increasing spec _ _ Hi).
  destruct (foldP _ _ _) as [[p|]|] eqn:Hf; cbn; [|done..]. intros [= <- _].
  by apply fold_emits in Hf.
Qed.

(** Every sample carries the identity of an event it was projected from. *)
Lemma project_identity spec state es samples state' s :
  increasing es →
  BuildPlanMetricSamplesFromState spec state es = Returns (Ok (samples, state')) → s ∈ samples →
  ∃ e, e ∈ es ∧ ms_PlanID s = ev_PlanID e ∧ ms_EventID s = ev_EventID e ∧ ms_Sequence s = ev_Sequence e.
Proof.
  intros Hi (groups & -> & Hall)%project_emits Hs; [|done].
  apply elem_of_concat in Hs as (new & Hs & Hnew).
  apply list_elem_of_lookup in Hnew as [i Hnew].
  destruct (Forall2_lookup_r _ _ _ _ _ Hall Hnew) as (e & He & [Hid _ _ _]).
  exists e. split; [by eapply list_elem_of_lookup_2|]. by apply (proj1 (Forall_forall _ _) Hid).
Qed.

(** Every sample carries the tenant of the plan. *)
Lemma project_tenant spec state es samples state' s :
  increasing es →
  BuildPlanMetricSamplesFromState spec state es = Returns (Ok (samples, state')) → s ∈ samples →
  ms_AccountID s = spec_AccountID spec ∧ ms_ProjectID s = spec_ProjectID spec.
Proof.
  intros Hi (groups & -> & Hall)%project_emits Hs; [|done].
  apply elem_of_concat in Hs as (new & Hs & Hnew).
  apply list_elem_of_lookup in Hnew as [i Hnew].
  destruct (Forall2_lookup_r _ _ _ _ _ Hall Hnew) as (e & He & [_ Ht _ _]).
  by apply (proj1 (Forall_forall _ _) Ht).
Qed.

(** The artifacts of an event that share node and run share the identity of their samples. *)
Lemma artifact_keys spec event refs :
  NoDup (Key <$> (artifact_sample spec event <$> refs)) ↔
  NoDup ((λ r, (ref_NodeID r, ref_RunID r)) <$> refs).
Proof.
  rewrite <- list_fmap_compose. set (f := λ r, (ref_NodeID r, ref_RunID r)).
  set (g := λ p : string * string, SampleKey PlanMetricArtifactPublishedBytes (ev_PlanID event) p.1 p.2
                                     (ev_EventID event) (ev_Sequence event)).
  assert (Inj (=) (=) g). { intros [] []. unfold g. cbn. congruence. }
  assert (Key ∘ artifact_sample spec event <$> refs = g <$> (f <$> refs)) as ->.
  { rewrite <- list_fmap_compose. by apply list_fmap_ext. }
  split; [apply NoDup_fmap_1|by apply NoDup_fmap_2].
Qed.

(** Whether the artifacts listed in an event come from different nodes or runs. *)
Definition artifacts_apart (event : PlanEvent) : Prop :=
  ∀ value refs, ev_EventType event = Core.EventNodeOutputPublished →
    map_get (ev_Payload event) planEventPayloadArtifacts = Some value →
    payload_artifacts value = Ok refs → NoDup ((λ r, (ref_NodeID r, ref_RunID r)) <$> refs).

Lemma emitted_keys spec event new :
  emitted spec event new → NoDup (Key <$> new) ↔ artifacts_apart event.
Proof.
  intros [Hid _ Hnames Hart]. unfold artifacts_apart.
  destruct (decide (ev_EventType event = Core.EventNodeOutputPublished)) as [Ht|Ht].
  - specialize (Hart Ht). unfold artifactMetricSamples in Hart.
    destruct (map_get _ _) as [value|]; [|injection Hart as <-; split; [done|constructor]].
    apply bind_Ok in Hart as (refs & Hrefs & [= <-]). rewrite artifact_keys. naive_solver congruence.
  - split; [done|]. intros _. specialize (Hnames Ht).
    apply (NoDup_fmap_1 mk_Name). rewrite <- list_fmap_compose. done.
Qed.

Lemma groups_keys spec es groups :
  increasing es → Forall2 (emitted spec) es groups →
  NoDup (Key <$> concat groups) ↔ Forall artifacts_apart es.
Proof.
  intros Hi Hall. revert Hi. induction Hall as [|e new es groups Hem Hall IH]; intros Hi.
  { split; constructor. }
  apply StronglySorted_cons in Hi as [Hlt Hi]. cbn [concat]. rewrite fmap_app, NoDup_app, Forall_cons.
  rewrite IH, (emitted_keys _ _ _ Hem) by done. split; [naive_solver|]. intros [? ?]. split_and!; [done| |done].
  intros k (s & -> & Hs)%list_elem_of_fmap (s' & Hk & Hs')%list_elem_of_fmap.
  apply elem_of_concat in Hs' as (new' & Hs' & [i Hnew']%list_elem_of_lookup).
  destruct (Forall2_lookup_r _ _ _ _ _ Hall Hnew') as (e' & He' & [Hid' _ _ _]).
  pose proof (proj1 (Forall_forall _ _) (em_identity _ _ _ Hem) _ Hs) as (_ & _ & Hseq).
  pose proof (proj1 (Forall_forall _ _) Hid' _ Hs') as (_ & _ & Hseq').
  apply list_elem_of_lookup_2 in He'. pose proof (proj1 (Forall_forall _ _) Hlt _ He') as Hl. cbn in Hl.
  apply (f_equal mk_Sequence) in Hk. cbn in Hk. lia.
Qed.
End samples.

(** ** A concrete stream *)

Module MetricsSample.
#[local] Instance text : RFC3339 := {| format_time _ := "2026-01-01T00:00:00Z"; parse_time _ := None |}.

Definition spec : RunPlanSpec := {| StoreSample.spec with
  spec_Nodes := [{| zero_PlanNodeSpec with node_NodeID := "a"; node_Run :=
    {| zero_RunSpec with run_RunID := "run-a";
       run_Backend := {| backend_Kind := "temporal"; backend_Name := "agent" |} |} |}] |}.
Definition event (type : string) (n : Z) : PlanEvent := {| StoreSample.event with
  ev_EventType := type; ev_EventID := "plan-1:" +:+ pretty n; ev_Sequence := n;
  ev_Timestamp := (6000000 + n * 1000000000)%Z; ev_NodeID := "a"; ev_RunID := "run-a" |}.
Definition batches : list (list PlanEvent) :=
  [[event Core.EventPlanStarted 1; event Core.EventPlanNodeStarted 2];
   [event Core.EventPlanNodeSucceeded 3]; []; [event Core.EventPlanSucceeded 4]].

Lemma named_spec : named spec.
Proof. intros node [->|[]%not_elem_of_nil]%elem_of_cons. done. Qed.

Lemma batches_increasing : increasing (concat batches).
Proof. cbn. repeat constructor. Qed.
End MetricsSample.

(** ** Theorems *)

(** C13: the metrics of a stream do not depend on how an exporter cuts it into batches.
    Projecting the batches one after the other, with the start times that a checkpoint
    stores passed on from each to the next, gives the samples that one projection of the
    whole stream gives, in the same order; it fails with the same error, panics exactly
    when the other does, and leaves a state from which every projection continues alike. *)
Theorem batches_irrelevant `{!RFC3339} spec state batches :
  named spec → increasing (concat batches) →
  panics_rel same_projection (project_batches spec state batches)
    (BuildPlanMetricSamplesFromState spec state (concat batches)).
Proof. intros Hn Hi. by apply project_concat. Qed.

Lemma batches_irrelevant_witness :
  ∃ samples state state',
    project_batches (H := MetricsSample.text) MetricsSample.spec zero_PlanMetricProjectionState
      MetricsSample.batches = Returns (Ok (samples, state)) ∧
    BuildPlanMetricSamplesFromState (H := MetricsSample.text) MetricsSample.spec
      zero_PlanMetricProjectionState (concat MetricsSample.batches) = Returns (Ok (samples, state')) ∧
    state ≡ state' ∧
    (ms_Name <$> samples) =
      [PlanMetricPlanStartedTotal; PlanMetricPlanQueueLatencySeconds; PlanMetricNodeStartedTotal;
       PlanMetricNodeQueueLatencySeconds; PlanMetricNodeCompletedTotal; PlanMetricNodeDurationSeconds;
       PlanMetricPlanCompletedTotal; PlanMetricPlanDurationSeconds].
Proof.
  pose proof (batches_irrelevant (H := MetricsSample.text) MetricsSample.spec
    zero_PlanMetricProjectionState MetricsSample.batches MetricsSample.named_spec
    MetricsSample.batches_increasing) as Hrel.
  destruct (project_batches _ _ _) as [[[samples state]|e]|] eqn:Hp; [|exfalso; vm_compute in Hp; discriminate Hp..].
  apply panics_rel_Ok in Hrel as ([samples' state'] & Hb & Hs & Hst).
  exists samples, state, state'. split; [reflexivity|].
  split; [rewrite Hb; f_equal; f_equal; f_equal; symmetry; exact Hs|]. split; [exact Hst|].
  vm_compute in Hp. injection Hp as <- _. reflexivity.
Defined.

(** When a projection gives every sample an identity of its own.  The identity under
    which a sink deduplicates samples is name, plan, node, run, event and sequence; the
    samples of a stream have different identities exactly when no event of it publishes
    two artifacts of one node and run. *)
Theorem sample_identities `{!RFC3339} spec state es samples state' :
  increasing es →
  BuildPlanMetricSamplesFromState spec state es = Returns (Ok (samples, state')) →
  NoDup (Key <$> samples) ↔ Forall artifacts_apart es.
Proof.
  intros Hi (groups & -> & Hall)%project_emits; [|done]. by eapply groups_keys.
Qed.

Lemma sample_identities_witness :
  ∃ samples state', BuildPlanMetricSamplesFromState (H := MetricsSample.text) MetricsSample.spec
    zero_PlanMetricProjectionState (concat MetricsSample.batches) = Returns (Ok (samples, state')) ∧
    length samples = 8 ∧ NoDup (Key <$> samples).
Proof.
  destruct (BuildPlanMetricSamplesFromState (H := MetricsSample.text) MetricsSample.spec
    zero_PlanMetricProjectionState (concat MetricsSample.batches)) as [[[samples state']|e]|] eqn:Hp;
    [|exfalso; vm_compute in Hp; discriminate Hp..].
  exists samples, state'. split; [reflexivity|]. split; [vm_compute in Hp; by injection Hp as <- _|].
  apply (sample_identities (H := MetricsSample.text) _ _ _ _ _ MetricsSample.batches_increasing Hp).
  repeat (constructor; [by intros ? ? [=]|]). constructor.
Defined.
