(* ===== verification/MetricsExporter.v ===== *)
(** * The metrics exporter

    internal/usecase/agentosplan/metrics_exporter.go: a pass reads the events of every plan
    after the exporter's checkpoint in batches, hands the projected samples to a sink and
    then saves the checkpoint; and the Postgres sink, RecordPlanMetric of
    internal/repo/persistent/agentos_plan_postgres.go, whose rows are keyed by the identity
    of a sample.

    The exporter talks to stores that others use at the same time and that may fail at any
    call, so a pass is a tree of calls ([xprog]); [xdoes] says what a call may do. *)

From S2P Require Import Prelude Types Scope State Json Events Decode Idempotency Artifacts PlanStore.
From S2P Require Import Metrics.

(** ** The Postgres sink *)

(** Rows of plan_metric_samples, by primary key. *)
Abbreviation metric_rows := (gmap PlanMetricSampleKey PlanMetricSample) (only parsing).

Definition validatePlanMetricScope (sample : PlanMetricSample) (scope : option RunPlanSpec) :
    result unit :=
  match scope with
  | None => Err err_route
  | Some spec =>
      fail_if ((spec_AccountID spec != ms_AccountID sample) ||
               (spec_ProjectID spec != ms_ProjectID sample)) err_route
  end.

(** [INSERT ... ON CONFLICT DO NOTHING], then the comparison with the row that is there. *)
Definition RecordPlanMetric (plans : gmap string RunPlanSpec) (rows : metric_rows)
    (sample : PlanMetricSample) : metric_rows * result unit :=
  let sample := NormalizePlanMetricSample sample in
  match ValidatePlanMetricSample sample;;
        validatePlanMetricScope sample (plans !! ms_PlanID sample) with
  | Err e => (rows, Err e)
  | Ok _ =>
      match rows !! Key sample with
      | None => (<[Key sample := sample]> rows, Ok tt)
      | Some existing => (rows, ValidatePlanMetricSampleIdempotency existing sample)
      end
  end.

(** ** Calls *)

Inductive xop :=
  | XListPlanRefs (scope : PlanRefScope)
  | XGetPlan (planID : string)
  | XGetPlanMetricCheckpoint (exporterID : string) (ref : PlanRef)
  | XListPlanEvents (scope : PlanStreamScope) (limit : Z)
  | XRecordPlanMetric (sample : PlanMetricSample)
  | XSavePlanMetricCheckpoint (checkpoint : PlanMetricCheckpoint).

Definition xreply (o : xop) : Type :=
  match o with
  | XListPlanRefs _ => result (list PlanRef)
  | XGetPlan _ => result (option (RunPlanSpec * RunPlanStatus))
  | XGetPlanMetricCheckpoint _ _ => result (option PlanMetricCheckpoint)
  | XListPlanEvents _ _ => result (list PlanEvent)
  | XRecordPlanMetric _ | XSavePlanMetricCheckpoint _ => result unit
  end.

Inductive xprog (A : Type) :=
  | XRet (a : A)
  | XDo (o : xop) (k : xreply o → xprog A).
Arguments XRet {_} _.
Arguments XDo {_} _ _.

Fixpoint xbind {A B} (f : A → xprog B) (m : xprog A) : xprog B :=
  match m with
  | XRet a => f a
  | XDo o k => XDo o (λ r, xbind f (k r))
  end.
#[global] Instance xprog_ret : MRet xprog := @XRet.
#[global] Instance xprog_bind : MBind xprog := λ A B f m, xbind f m.

Definition xask (o : xop) : xprog (xreply o) := XDo o XRet.

(** ** The exporter *)

Record PlanMetricsExporter := { x_exporterID : string; x_batchSize : Z }.

Record PlanMetricsExportResult := {
  xr_PlansScanned : Z;
  xr_EventsScanned : Z;
  xr_SamplesRecorded : Z;
  xr_CheckpointsSaved : Z;
}.

Definition zero_PlanMetricsExportResult : PlanMetricsExportResult := {|
  xr_PlansScanned := 0; xr_EventsScanned := 0; xr_SamplesRecorded := 0; xr_CheckpointsSaved := 0 |}.

(** [result.EventsScanned += ...] and so on. *)
Definition add_counts (result counts : PlanMetricsExportResult) : PlanMetricsExportResult :=
  {| result with
     xr_EventsScanned := (xr_EventsScanned result + xr_EventsScanned counts)%Z;
     xr_SamplesRecorded := (xr_SamplesRecorded result + xr_SamplesRecorded counts)%Z;
     xr_CheckpointsSaved := (xr_CheckpointsSaved result + xr_CheckpointsSaved counts)%Z |}.

(** How a call of the exporter ends: it returns counts and an error, the process dies, or
    the model's bound on loops is reached. *)
Inductive xend (A : Type) :=
  | XReturn (result : PlanMetricsExportResult) (a : A) (err : option go_error)
  | XPanic
  | XOutOfFuel.
Arguments XReturn {_} _ _ _.
Arguments XPanic {_}.
Arguments XOutOfFuel {_}.

Definition NewPlanMetricsExporter (exporterID : string)
    (planRefs plans planEvents checkpoints sink : bool) (batchSize : Z) : result PlanMetricsExporter :=
  fail_if (exporterID == "") (Errorf ErrInvalidRunPlan "metrics exporter id is required");;
  fail_if (negb planRefs) (Errorf ErrInvalidRunPlan "metrics plan ref store is required");;
  fail_if (negb plans) (Errorf ErrInvalidRunPlan "metrics plan index is required");;
  fail_if (negb planEvents) (Errorf ErrInvalidRunPlan "metrics plan event store is required");;
  fail_if (negb checkpoints) (Errorf ErrInvalidRunPlan "metrics checkpoint store is required");;
  fail_if (negb sink) (Errorf ErrInvalidRunPlan "metrics sink is required");;
  fail_if (batchSize <=? 0)%Z (Errorf ErrInvalidRunPlan "metrics batch size must be positive");;
  Ok {| x_exporterID := exporterID; x_batchSize := batchSize |}.

Definition lastMetricEventSequence (events : list PlanEvent) : Z :=
  foldl (λ sequence event, if (sequence <? ev_Sequence event)%Z then ev_Sequence event else sequence)
    0%Z events.

Definition loadMetricCheckpoint (x : PlanMetricsExporter) (ref : PlanRef) :
    xprog (result PlanMetricCheckpoint) :=
  match ValidatePlanRef ref with
  | Err e => mret (Err e)
  | Ok _ =>
      found ← xask (XGetPlanMetricCheckpoint (x_exporterID x) ref);
      match found with
      | Err e => mret (Err e)
      | Ok found =>
          let checkpoint := default {|
            cp_ExporterID := x_exporterID x; cp_PlanID := pref_PlanID ref;
            cp_AccountID := pref_AccountID ref; cp_ProjectID := pref_ProjectID ref;
            cp_Sequence := 0; cp_Projection := zero_PlanMetricProjectionState;
            cp_UpdatedAt := zero_time |} found in
          mret (ValidatePlanMetricCheckpointRef checkpoint (x_exporterID x) ref;; Ok checkpoint)
      end
  end.

(** The loop over the samples; the count of recorded samples and the first error. *)
Fixpoint record_samples (samples : list PlanMetricSample) (recorded : Z) :
    xprog (Z * option go_error) :=
  match samples with
  | [] => mret (recorded, None)
  | sample :: samples =>
      answer ← xask (XRecordPlanMetric sample);
      match answer with
      | Err e => mret (recorded, Some e)
      | Ok _ => record_samples samples (recorded + 1)
      end
  end.

Section exporter.
Context `{!RFC3339}.

Definition exportMetricEventBatch (spec : RunPlanSpec) (checkpoint : PlanMetricCheckpoint)
    (events : list PlanEvent) : xprog (xend PlanMetricCheckpoint) :=
  match BuildPlanMetricSamplesFromState spec (cp_Projection checkpoint) events with
  | Panics => mret XPanic
  | Returns (Err e) => mret (XReturn zero_PlanMetricsExportResult checkpoint (Some e))
  | Returns (Ok (samples, projection)) =>
      '(recorded, err) ← record_samples samples 0;
      let result := {| zero_PlanMetricsExportResult with
        xr_EventsScanned := Z.of_nat (length events); xr_SamplesRecorded := recorded |} in
      match err with
      | Some e => mret (XReturn result checkpoint (Some e))
      | None =>
          let checkpoint := {| checkpoint with
            cp_Sequence := lastMetricEventSequence events; cp_Projection := projection |} in
          saved ← xask (XSavePlanMetricCheckpoint checkpoint);
          mret (match saved with
                | Err e => XReturn result checkpoint (Some e)
                | Ok _ => XReturn {| result with xr_CheckpointsSaved := 1 |} checkpoint None
                end)
      end
  end.

(** The loop over the batches of a plan. *)
Fixpoint export_batches (fuel : nat) (x : PlanMetricsExporter) (spec : RunPlanSpec) (ref : PlanRef)
    (checkpoint : PlanMetricCheckpoint) (result : PlanMetricsExportResult) : xprog (xend unit) :=
  match fuel with
  | 0 => mret XOutOfFuel
  | S fuel =>
      answer ← xask (XListPlanEvents {|
        ss_PlanID := pref_PlanID ref; ss_AccountID := pref_AccountID ref;
        ss_ProjectID := pref_ProjectID ref; ss_NodeID := ""; ss_RunID := "";
        ss_AfterSequence := cp_Sequence checkpoint |} (x_batchSize x));
      match answer with
      | Err e => mret (XReturn result tt (Some e))
      | Ok [] => mret (XReturn result tt None)
      | Ok events =>
          batch ← exportMetricEventBatch spec checkpoint events;
          match batch with
          | XPanic => mret XPanic
          | XOutOfFuel => mret XOutOfFuel
          | XReturn counts checkpoint err =>
              let result := add_counts result counts in
              match err with
              | Some e => mret (XReturn result tt (Some e))
              | None =>
                  if (Z.of_nat (length events) <? x_batchSize x)%Z
                  then mret (XReturn result tt None)
                  else export_batches fuel x spec ref checkpoint result
              end
          end
      end
  end.

Definition exportPlan (fuel : nat) (x : PlanMetricsExporter) (ref : PlanRef) : xprog (xend unit) :=
  let fail e := XReturn zero_PlanMetricsExportResult tt (Some e) in
  found ← xask (XGetPlan (pref_PlanID ref));
  match found with
  | Err e => mret (fail e)
  | Ok None => mret (fail err_route)
  | Ok (Some (spec, _)) =>
      match ValidatePlanTenantAccess ref (Some spec) with
      | Err e => mret (fail e)
      | Ok _ =>
          loaded ← loadMetricCheckpoint x ref;
          match loaded with
          | Err e => mret (fail e)
          | Ok checkpoint => export_batches fuel x spec ref checkpoint zero_PlanMetricsExportResult
          end
      end
  end.

(** The loop over the plans: the first error ends the pass. *)
Fixpoint export_plans (fuel : nat) (x : PlanMetricsExporter) (refs : list PlanRef)
    (result : PlanMetricsExportResult) : xprog (xend unit) :=
  match refs with
  | [] => mret (XReturn result tt None)
  | ref :: refs =>
      plan ← exportPlan fuel x ref;
      match plan with
      | XPanic => mret XPanic
      | XOutOfFuel => mret XOutOfFuel
      | XReturn counts _ err =>
          let result := add_counts result counts in
          match err with
          | Some e => mret (XReturn result tt (Some e))
          | None => export_plans fuel x refs result
          end
      end
  end.

Definition Export (fuel : nat) (x : PlanMetricsExporter) (scope : PlanRefScope) : xprog (xend unit) :=
  if (prs_Limit scope <? 0)%Z then
    mret (XReturn zero_PlanMetricsExportResult tt
            (Some (Errorf ErrInvalidPlanScope "plan ref limit must be non-negative")))
  else
  answer ← xask (XListPlanRefs scope);
  match answer with
  | Err e => mret (XReturn zero_PlanMetricsExportResult tt (Some e))
  | Ok refs =>
      export_plans fuel x refs
        {| zero_PlanMetricsExportResult with xr_PlansScanned := Z.of_nat (length refs) |}
  end.
End exporter.

(** ** metrics_exporter_loop.go: configuration *)

Record PlanMetricsExporterLoopConfig := {
  xlc_Interval : Z;
  xlc_Scope : PlanRefScope;
  xlc_ExportImmediately : bool;
}.

Definition defaultPlanMetricsExporterInterval : Z := 60 * second.
Definition defaultPlanMetricsExporterLimit : Z := 100.

Definition normalizePlanMetricsExporterLoopConfig (cfg : PlanMetricsExporterLoopConfig) :
    PlanMetricsExporterLoopConfig :=
  let cfg := if (xlc_Interval cfg <=? 0)%Z
             then {| cfg with xlc_Interval := defaultPlanMetricsExporterInterval |} else cfg in
  let scope := xlc_Scope cfg in
  if (prs_Limit scope <=? 0)%Z
  then {| cfg with xlc_Scope := {| scope with prs_Limit := defaultPlanMetricsExporterLimit |} |}
  else cfg.

(** ** What a call does *)

Record xworld := XWorld { xw_store : MemoryPlanStore; xw_rows : metric_rows }.

(** A write that may fail before or after it took effect. *)
Definition xwrites (effect : xworld * result unit) (w : xworld) (r : result unit) (w' : xworld) : Prop :=
  (w', r) = effect ∨ ∃ e, r = Err e ∧ (w' = w ∨ w' = effect.1).

(** A read that may fail. *)
Definition xreads {A} (answer : result A) (w : xworld) (r : result A) (w' : xworld) : Prop :=
  w' = w ∧ (r = answer ∨ ∃ e, r = Err e).

Section calls.
Context `{!SliceSort}.

Definition record_effect (w : xworld) (sample : PlanMetricSample) : xworld * result unit :=
  let '(rows, r) := RecordPlanMetric (specs (xw_store w)) (xw_rows w) sample in
  (XWorld (xw_store w) rows, r).

Definition save_effect (now : time) (w : xworld) (checkpoint : PlanMetricCheckpoint) :
    xworld * result unit :=
  let '(s, r) := SavePlanMetricCheckpoint now (xw_store w) (Some checkpoint) in
  (XWorld s (xw_rows w), r).

Definition xdoes (o : xop) (w : xworld) : xreply o → xworld → Prop :=
  match o with
  | XListPlanRefs scope => xreads (ListPlanRefs (xw_store w) scope) w
  | XGetPlan planID => xreads (Ok (GetPlan (xw_store w) planID)) w
  | XGetPlanMetricCheckpoint exporterID ref =>
      xreads (GetPlanMetricCheckpoint (xw_store w) exporterID ref) w
  | XListPlanEvents scope limit => xreads (ListPlanEvents (xw_store w) scope limit) w
  | XRecordPlanMetric sample => xwrites (record_effect w sample) w
  | XSavePlanMetricCheckpoint checkpoint => λ r w', ∃ now, xwrites (save_effect now w checkpoint) w r w'
  end.

(** A pass while nothing fails and nobody interferes. *)
Definition xreliable (now : time) (o : xop) (w : xworld) : xreply o * xworld :=
  match o with
  | XListPlanRefs scope => (ListPlanRefs (xw_store w) scope, w)
  | XGetPlan planID => (Ok (GetPlan (xw_store w) planID), w)
  | XGetPlanMetricCheckpoint exporterID ref =>
      (GetPlanMetricCheckpoint (xw_store w) exporterID ref, w)
  | XListPlanEvents scope limit => (ListPlanEvents (xw_store w) scope limit, w)
  | XRecordPlanMetric sample => let '(w', r) := record_effect w sample in (r, w')
  | XSavePlanMetricCheckpoint checkpoint => let '(w', r) := save_effect now w checkpoint in (r, w')
  end.

Fixpoint xrun {A} (now : time) (p : xprog A) (w : xworld) : A * xworld :=
  match p with
  | XRet a => (a, w)
  | XDo o k => let '(r, w') := xreliable now o w in xrun now (k r) w'
  end.
End calls.
