(* ===== verification/MetricsExporterSpec.v ===== *)
(** * Exported metrics

    The system of a metrics exporter and the stores it shares: whatever others do to the
    stores, whichever calls fail and wherever a pass dies, a checkpoint stands for samples
    that are in the sink, and the sink holds nothing but samples of the stream. *)

From S2P Require Import Prelude Types Graph Scope State Json Events Decode Idempotency Artifacts PlanStore.
From S2P Require Import PlanStoreSpec Metrics MetricsSpec MetricsExporter.

(** ** The system *)

Record xsystem := XSystem {
  xs_world : xworld;
  xs_pass : option (xprog (xend unit));
}.

Section system.
Context `{!RFC3339, !Sha256, !SliceSort} (x : PlanMetricsExporter).

(** Other users of the plan store do anything it offers.  They do not write the
    checkpoints of this exporter, and the specifications of the plans stay as they are. *)
Definition others (w w' : xworld) : Prop :=
  store_step (xw_store w) (xw_store w') ∧ xw_rows w' = xw_rows w ∧
  (∀ pid spec, specs (xw_store w) !! pid = Some spec → specs (xw_store w') !! pid = Some spec) ∧
  (∀ pid spec, specs (xw_store w') !! pid = Some spec → named spec) ∧
  (∀ key, pmk_ExporterID key = x_exporterID x →
     metrics (xw_store w') !! key = metrics (xw_store w) !! key).

(** One process runs at a time; it may end at any call. *)
Inductive xsystem_step : xsystem → xsystem → Prop :=
  | xs_others w w' pass : others w w' → xsystem_step (XSystem w pass) (XSystem w' pass)
  | xs_start w fuel scope :
      xsystem_step (XSystem w None) (XSystem w (Some (Export fuel x scope)))
  | xs_call w o k r w' :
      xdoes o w r w' → xsystem_step (XSystem w (Some (XDo o k))) (XSystem w' (Some (k r)))
  | xs_end w p : xsystem_step (XSystem w (Some p)) (XSystem w None).

Definition xsystem_start : xsystem := XSystem (XWorld NewMemoryPlanStore ∅) None.

(** ** The invariant *)

(** The first [n] events of a plan project to [samples] and leave [state]. *)
Definition projects (s : MemoryPlanStore) (pid : string) (n : nat)
    (samples : list PlanMetricSample) (state : PlanMetricProjectionState) : Prop :=
  ∃ spec, specs s !! pid = Some spec ∧ n ≤ length (get_list (events s) pid) ∧
    ∃ state', BuildPlanMetricSamplesFromState spec zero_PlanMetricProjectionState
                (take n (get_list (events s) pid)) = Returns (Ok (samples, state')) ∧
    state' ≡ state.

(** The sink has a row for the sample that states the same fact. *)
Definition recorded (rows : metric_rows) (sample : PlanMetricSample) : Prop :=
  ∃ row, rows !! Key sample = Some row ∧ ValidatePlanMetricSampleIdempotency row sample = Ok tt.

(** What a checkpoint stands for. *)
Definition covered (w : xworld) (cp : PlanMetricCheckpoint) : Prop :=
  ∃ n samples, cp_Sequence cp = Z.of_nat n ∧
    projects (xw_store w) (cp_PlanID cp) n samples (cp_Projection cp) ∧
    Forall (recorded (xw_rows w)) samples.

(** The key that a checkpoint is stored under. *)
Definition checkpoint_key (cp : PlanMetricCheckpoint) : planMetricCheckpointKey :=
  planMetricCheckpointKeyFromRef (cp_ExporterID cp)
    {| pref_PlanID := cp_PlanID cp; pref_AccountID := cp_AccountID cp; pref_ProjectID := cp_ProjectID cp |}.

Record xinv (w : xworld) : Prop := {
  xi_store : store_ok (xw_store w);
  xi_named pid spec : specs (xw_store w) !! pid = Some spec → named spec;
  xi_checkpoints key cp :
    metrics (xw_store w) !! key = Some cp → pmk_ExporterID key = x_exporterID x →
    key = checkpoint_key cp ∧ covered w cp;
  xi_rows key row :
    xw_rows w !! key = Some row →
    ∃ n samples state sample, projects (xw_store w) (mk_PlanID key) n samples state ∧
      sample ∈ samples ∧ key = Key sample ∧ row = NormalizePlanMetricSample sample;
}.

(** ** Growing worlds *)

Record xgrows (w w' : xworld) : Prop := {
  xg_specs pid spec : specs (xw_store w) !! pid = Some spec → specs (xw_store w') !! pid = Some spec;
  xg_events pid : get_list (events (xw_store w)) pid `prefix_of` get_list (events (xw_store w')) pid;
  xg_rows : xw_rows w ⊆ xw_rows w';
}.

#[local] Instance xgrows_preorder : PreOrder xgrows.
Proof.
  split; [by split|]. intros w1 w2 w3 [Hs He Hr] [Hs' He' Hr']. split; [by auto| |].
  - intros pid. etrans; [apply He|apply He'].
  - etrans; [exact Hr|exact Hr'].
Qed.

Lemma projects_grows w w' pid n samples state :
  xgrows w w' → projects (xw_store w) pid n samples state → projects (xw_store w') pid n samples state.
Proof.
  intros [Hs He _] (spec & Hspec & Hn & Hp). exists spec. split; [by auto|].
  destruct (He pid) as [l ->]. rewrite length_app. split; [lia|]. by rewrite take_app_le.
Qed.

Lemma recorded_grows rows rows' sample : rows ⊆ rows' → recorded rows sample → recorded rows' sample.
Proof. intros Hr (row & Hrow & Hf). exists row. split; [|done]. by eapply lookup_weaken. Qed.

Lemma covered_grows w w' cp : xgrows w w' → covered w cp → covered w' cp.
Proof.
  intros Hg (n & samples & Hn & Hp & Hall). exists n, samples. split_and!; [done|by eapply projects_grows|].
  eapply Forall_impl; [exact Hall|]. intros s. apply recorded_grows, Hg.
Qed.

(** The invariant through a step that keeps the exporter's checkpoints and adds no rows. *)
Lemma xinv_grows w w' :
  xinv w → xgrows w w' → store_ok (xw_store w') → xw_rows w' = xw_rows w →
  (∀ pid spec, specs (xw_store w') !! pid = Some spec → named spec) →
  (∀ key, pmk_ExporterID key = x_exporterID x →
     metrics (xw_store w') !! key = metrics (xw_store w) !! key) →
  xinv w'.
Proof.
  intros [Hok Hn Hc Hr] Hg Hok' Hrows Hn' Hm. split; [done..| |].
  - intros key cp Hcp Hx. rewrite Hm in Hcp by done. destruct (Hc _ _ Hcp Hx) as [? ?].
    split; [done|]. by eapply covered_grows.
  - intros key row Hrow. rewrite Hrows in Hrow. destruct (Hr _ _ Hrow) as (n & samples & st & s & Hp & ?).
    exists n, samples, st, s. split; [|done]. by eapply projects_grows.
Qed.

Lemma others_inv w w' : xinv w → others w w' → xinv w' ∧ xgrows w w'.
Proof.
  intros Hi (Hstep & Hrows & Hspecs & Hnamed & Hm).
  destruct (steps_extend _ _ (xi_store _ Hi) (rtc_once _ _ Hstep)) as [Hok Hx].
  assert (xgrows w w') as Hg. { split; [done|apply Hx|by rewrite Hrows]. }
  split; [by eapply xinv_grows|done].
Qed.

Lemma others_rtc_inv w w' : xinv w → rtc others w w' → xinv w' ∧ xgrows w w'.
Proof.
  intros Hi Hr. induction Hr as [|w1 w2 w3 Ho _ IH]; [done|].
  destruct (others_inv _ _ Hi Ho) as [Hi2 Hg]. destruct (IH Hi2). split; [done|by etrans].
Qed.

(** ** Batches *)

Lemma numbered_increasing (l : list PlanEvent) :
  (∀ i e, l !! i = Some e → ev_Sequence e = Z.of_nat (i + 1)) → increasing l.
Proof.
  intros Hl. apply Sorted_StronglySorted; [intros x1 x2 x3; lia|].
  apply Sorted_lookup. intros i a b Hi Hj. rewrite (Hl _ _ Hi), (Hl _ _ Hj). lia.
Qed.

Lemma stream_increasing s pid n : store_ok s → increasing (take n (get_list (events s) pid)).
Proof.
  intros Hok. apply numbered_increasing. intros i e [Hi _]%lookup_take_Some.
  by eapply stream_lookup.
Qed.

(** A page of the stream: what a listing after the [n]th event returns. *)
Definition page (s : MemoryPlanStore) (pid : string) (n : nat) (l : list PlanEvent) : Prop :=
  n ≤ length (get_list (events s) pid) ∧ l `prefix_of` drop n (get_list (events s) pid).

Lemma page_take s pid n l :
  page s pid n l →
  take (n + length l) (get_list (events s) pid) = take n (get_list (events s) pid) ++ l ∧
  n + length l ≤ length (get_list (events s) pid).
Proof.
  intros [Hn [rest Hl]]. set (es := get_list _ _) in *. pose proof (f_equal length Hl) as Hlen.
  rewrite length_drop, length_app in Hlen. split; [|lia].
  rewrite <- (take_drop n es) at 1. rewrite take_app_add' by (rewrite length_take; lia).
  by rewrite Hl, take_app_length.
Qed.

Lemma ListPlanEvents_after s scope limit l n :
  store_ok s → ss_NodeID scope = "" → ss_RunID scope = "" → ss_AfterSequence scope = Z.of_nat n →
  ListPlanEvents s scope limit = Ok l →
  l = let rest := drop n (get_list (events s) (ss_PlanID scope)) in
      if (0 <? limit)%Z then take (Z.to_nat limit) rest else rest.
Proof.
  intros Hok Hnode Hrun Ha Hl. unfold ListPlanEvents in Hl. apply bind_Ok in Hl as ([] & _ & Hl).
  destruct (specs s !! _) as [spec|]; [|done]. apply bind_Ok in Hl as ([] & _ & [= <-]).
  rewrite stream_sorted by done. unfold filterMemoryPlanEvents.
  rewrite filter_events_spec by (cbn; lia). rewrite filter_after by (done || lia).
  rewrite Ha, Nat2Z.id. cbn. by rewrite Nat.sub_0_r.
Qed.

Lemma ListPlanEvents_page s scope limit l n :
  store_ok s → ss_NodeID scope = "" → ss_RunID scope = "" → ss_AfterSequence scope = Z.of_nat n →
  n ≤ length (get_list (events s) (ss_PlanID scope)) →
  ListPlanEvents s scope limit = Ok l → page s (ss_PlanID scope) n l.
Proof.
  intros Hok Hnode Hrun Ha Hn Hl%(ListPlanEvents_after _ _ _ _ n); [|done..]. subst l. split; [done|].
  cbv zeta. destruct (0 <? limit)%Z; [apply prefix_take|done].
Qed.

Lemma page_last s pid n l :
  store_ok s → page s pid n l → l ≠ [] → lastMetricEventSequence l = Z.of_nat (n + length l).
Proof.
  intros Hok [Hn [rest Hl]] Hne.
  assert (∀ i e, l !! i = Some e → ev_Sequence e = Z.of_nat (n + i + 1)) as Hseq.
  { intros i e Hi. eapply (stream_lookup s pid); [done|]. rewrite <- lookup_drop, Hl.
    by apply lookup_app_l_Some. }
  clear Hl. induction l as [|e l IH] using rev_ind; [done|].
  unfold lastMetricEventSequence. rewrite foldl_app. cbn. fold (lastMetricEventSequence l).
  assert (ev_Sequence e = Z.of_nat (n + length l + 1)) as He.
  { apply Hseq. rewrite lookup_app_r, Nat.sub_diag by done. done. }
  rewrite length_app. cbn. destruct l as [|e0 l].
  - cbn in *. destruct (Z.ltb_spec 0 (ev_Sequence e)); lia.
  - rewrite IH; [|done|]. 2:{ intros i e' Hi. apply Hseq. by apply lookup_app_l_Some. }
    destruct (Z.ltb_spec (Z.of_nat (n + length (e0 :: l))) (ev_Sequence e)); lia.
Qed.

(** Projecting a page extends what is projected. *)
Lemma projects_page s pid spec n samples state l new state' :
  store_ok s → specs s !! pid = Some spec → named spec →
  projects s pid n samples state → page s pid n l →
  BuildPlanMetricSamplesFromState spec state l = Returns (Ok (new, state')) →
  projects s pid (n + length l) (samples ++ new) state'.
Proof.
  intros Hok Hspec Hnm (spec' & Hspec' & Hn & st & Hp & Hst) Hpage Hnew.
  rewrite Hspec in Hspec'. injection Hspec' as <-. destruct (page_take _ _ _ _ Hpage) as [Htake Hlen].
  exists spec. split_and!; [done..|]. rewrite Htake.
  pose proof (project_cut spec Hnm zero_PlanMetricProjectionState (take n (get_list (events s) pid)) l) as Hcut.
  rewrite <- Htake in Hcut at 1. specialize (Hcut (stream_increasing _ _ _ Hok)).
  rewrite Hp in Hcut. cbn -[BuildPlanMetricSamplesFromState] in Hcut.
  rewrite (project_proper spec l _ _ Hst), Hnew in Hcut. cbn -[BuildPlanMetricSamplesFromState] in Hcut.
  inversion Hcut as [[s1 st1] ? [Hs1 Hst1] Heq| |]; subst. cbn in Hs1, Hst1. subst. by exists st1.
Qed.

Lemma projects_zero s pid spec :
  specs s !! pid = Some spec → projects s pid 0 [] zero_PlanMetricProjectionState.
Proof.
  intros Hspec. exists spec. split_and!; [done|apply Nat.le_0_l|]. cbn [take].
  rewrite project_increasing by constructor. eexists. by split.
Qed.

Lemma projects_samples s pid n samples state :
  projects s pid n samples state →
  ∃ spec, specs s !! pid = Some spec ∧ n ≤ length (get_list (events s) pid) ∧
    BuildPlanMetricSamples spec (take n (get_list (events s) pid)) = Returns (Ok samples).
Proof.
  intros (spec & Hspec & Hn & st & Hp & _). exists spec. split_and!; [done..|].
  unfold BuildPlanMetricSamples, BuildPlanMetricSamplesAfter.
  unfold BuildPlanMetricSamplesFromState in Hp. by rewrite Hp.
Qed.

(** ** Writes *)

Lemma truncate_idem t d : (0 < d)%Z → time_truncate (time_truncate t d) d = time_truncate t d.
Proof.
  intros Hd. unfold time_truncate. pose proof (Z.div_mod t d ltac:(lia)).
  replace (t - t mod d)%Z with (t / d * d)%Z by lia. rewrite Z.mod_mul by lia. lia.
Qed.

Lemma normalize_idem s : NormalizePlanMetricSample (NormalizePlanMetricSample s) = NormalizePlanMetricSample s.
Proof. destruct s. unfold NormalizePlanMetricSample. cbn. f_equal. by apply truncate_idem. Qed.

Lemma float_eqb_refl v : not_finite v = false → SpecFloat.SFeqb v v = true.
Proof.
  destruct v as [b|b| |b m e]; try done. intros _. unfold SpecFloat.SFeqb. cbn.
  destruct b; by rewrite Z.compare_refl, Pos.compare_cont_refl.
Qed.

Lemma same_fact_refl s : not_finite (ms_Value s) = false → samePlanMetricSampleFact s s = true.
Proof.
  intros Hv. unfold samePlanMetricSampleFact. rewrite float_eqb_refl by done.
  by rewrite !bool_decide_eq_true_2.
Qed.

(** What recording does to the rows, whatever the answer. *)
Lemma RecordPlanMetric_rows plans rows s :
  let '(rows', r) := RecordPlanMetric plans rows s in
  (rows' = rows ∨ rows !! Key s = None ∧ rows' = <[Key s := NormalizePlanMetricSample s]> rows) ∧
  (r = Ok tt → recorded rows' s).
Proof.
  unfold RecordPlanMetric. cbv zeta.
  destruct (ValidatePlanMetricSample _;; _) as [[]|e] eqn:Hv; [|by split; [left|]].
  change (Key (NormalizePlanMetricSample s)) with (Key s).
  destruct (rows !! Key s) as [row|] eqn:Hrow.
  - split; [by left|]. intros Hi. exists row. split; [done|]. unfold ValidatePlanMetricSampleIdempotency in *.
    by rewrite normalize_idem in Hi.
  - split; [by right|]. intros _. exists (NormalizePlanMetricSample s). split; [by rewrite lookup_insert_eq|].
    apply bind_Ok in Hv as ([] & Hv & _). unfold ValidatePlanMetricSample in Hv.
    apply bind_Ok in Hv as ([] & _ & Hv). apply bind_Ok in Hv as ([] & Hfin%fail_if_Ok & _).
    unfold ValidatePlanMetricSampleIdempotency. rewrite normalize_idem. by rewrite same_fact_refl.
Qed.

Lemma record_grows w s r w' :
  xwrites (record_effect w s) w r w' →
  xgrows w w' ∧ xw_store w' = xw_store w ∧ (r = Ok tt → recorded (xw_rows w') s) ∧
  (∀ k row, xw_rows w' !! k = Some row →
     xw_rows w !! k = Some row ∨ k = Key s ∧ row = NormalizePlanMetricSample s).
Proof.
  unfold record_effect. pose proof (RecordPlanMetric_rows (specs (xw_store w)) (xw_rows w) s) as Hrec.
  destruct (RecordPlanMetric _ _ _) as [rows' r'] eqn:Heq. destruct Hrec as [Hrows Hok].
  assert (xgrows w w ∧ xw_store w = xw_store w) as Hsame by done.
  assert (xgrows w (XWorld (xw_store w) rows')) as Hg.
  { split; [done..|]. cbn. destruct Hrows as [->|[Hnone ->]]; [done|]. by apply insert_subseteq. }
  assert (∀ k row, rows' !! k = Some row →
     xw_rows w !! k = Some row ∨ k = Key s ∧ row = NormalizePlanMetricSample s) as Hnew.
  { intros k row Hk. destruct Hrows as [->|[_ ->]]; [by left|].
    apply lookup_insert_Some in Hk as [[<- <-]|[_ ?]]; [by right|by left]. }
  intros [[= -> ->]|(e & -> & [->| ->])]; split_and!; try done; by auto.
Qed.

(** What saving a checkpoint does to the store, whatever the answer. *)
Lemma SavePlanMetricCheckpoint_store now s cp :
  let s' := (SavePlanMetricCheckpoint now s (Some cp)).1 in
  s' = s ∨ ∃ updated, s' = {| s with metrics :=
    <[planMetricCheckpointKeyFromRef (cp_ExporterID cp)
        {| pref_PlanID := cp_PlanID cp; pref_AccountID := cp_AccountID cp;
           pref_ProjectID := cp_ProjectID cp |} :=
      {| cp with cp_UpdatedAt := updated |}]> (metrics s) |}.
Proof.
  cbv zeta. unfold SavePlanMetricCheckpoint.
  destruct (ValidatePlanMetricCheckpointRef _ _ _;; _);
    [right; by eexists|by left].
Qed.

Lemma save_inv now w cp r w' :
  xinv w → covered w cp → xwrites (save_effect now w cp) w r w' → xinv w' ∧ xgrows w w'.
Proof.
  intros Hi Hc Hw.
  assert (w' = w ∨ w' = XWorld (SavePlanMetricCheckpoint now (xw_store w) (Some cp)).1 (xw_rows w)) as [->| ->].
  { unfold save_effect in Hw. destruct (SavePlanMetricCheckpoint _ _ _) as [s' r'].
    destruct Hw as [[= -> ->]|(e & -> & [->| ->])]; by auto. }
  { done. }
  set (w1 := XWorld _ _).
  assert (store_ok (xw_store w1)) as Hok.
  { eapply steps_extend; [apply Hi|]. apply rtc_once. apply (step_checkpoint _ now (Some cp)). }
  subst w1. cbn [xw_store] in Hok.
  destruct (SavePlanMetricCheckpoint_store now (xw_store w) cp) as [Heq|[updated Heq]];
    rewrite Heq in Hok |- *; [by destruct w|].
  set (w' := XWorld _ _). assert (xgrows w w') as Hg by by split.
  split; [|done]. split; [done|apply Hi| |apply Hi].
  intros key cp' Hk Hx. subst w'. cbn in Hk. apply lookup_insert_Some in Hk as [[<- <-]|[_ Hk]].
  - split; [done|]. apply (covered_grows w _ cp Hg Hc).
  - destruct (xi_checkpoints _ Hi _ _ Hk Hx) as [? Hc']. split; [done|]. by eapply covered_grows.
Qed.

(** ** Programs *)

(** Every call of [p] keeps the invariant, while others move the world in between. *)
Fixpoint xwp {A} (p : xprog A) (Q : A → xworld → Prop) (w : xworld) : Prop :=
  match p with
  | XRet a => Q a w
  | XDo o k => ∀ w1 r w2, rtc others w w1 → xdoes o w1 r w2 → xinv w2 ∧ xwp (k r) Q w2
  end.

Lemma xwp_bind {A B} (f : A → xprog B) m Q w :
  xwp m (λ a, xwp (f a) Q) w → xwp (m ≫= f) Q w.
Proof.
  unfold mbind, xprog_bind. revert w. induction m as [a|o k IH]; intros w Hm; [done|].
  intros w1 r w2 Ho Hd. destruct (Hm _ _ _ Ho Hd). split; [done|]. by apply IH.
Qed.

Lemma xwp_mono {A} (p : xprog A) (Q Q' : A → xworld → Prop) w :
  xwp p Q w → (∀ a w', Q a w' → Q' a w') → xwp p Q' w.
Proof.
  intros Hp HQ. revert w Hp. induction p as [a|o k IH]; intros w Hp; [by apply HQ|].
  intros w1 r w2 Ho Hd. destruct (Hp _ _ _ Ho Hd). split; [done|]. by apply IH.
Qed.

(** The rule for a call: what the world was before it, and what it did. *)
Lemma xwp_call {A} o (k : xreply o → xprog A) Q w :
  xinv w →
  (∀ w1 r w2, xinv w1 → xgrows w w1 → xdoes o w1 r w2 → xinv w2 ∧ xwp (k r) Q w2) →
  xwp (r ← xask o; k r) Q w.
Proof.
  intros Hi Hk w1 r w2 Ho Hd. destruct (others_rtc_inv _ _ Hi Ho). by apply Hk with w1.
Qed.

(** ** The exporter's programs *)

Lemma page_grows w w' pid n l :
  xgrows w w' → page (xw_store w) pid n l → page (xw_store w') pid n l.
Proof.
  intros Hg [Hn Hl]. destruct (xg_events _ _ Hg pid) as [k Hk]. unfold page. rewrite Hk, length_app.
  split; [lia|]. rewrite drop_app_le by done. by apply prefix_app_r.
Qed.

(** Recording samples that the stream projects to. *)
Lemma record_samples_ok pid n all state samples count w :
  xinv w → projects (xw_store w) pid n all state → samples ⊆ all →
  (∀ s, s ∈ samples → ms_PlanID s = pid) →
  xwp (record_samples samples count)
    (λ r w', xinv w' ∧ xgrows w w' ∧ (r.2 = None → Forall (recorded (xw_rows w')) samples)) w.
Proof.
  revert count w. induction samples as [|s samples IH]; intros count w Hi Hp Hin Hpid; [by split_and!|].
  apply (xwp_call (XRecordPlanMetric s)); [done|]. intros w1 r w2 Hi1 Hg1 Hw.
  destruct (record_grows _ _ _ _ Hw) as (Hg2 & Hstore & Hrec & Hnew).
  pose proof (projects_grows _ _ _ _ _ _ (transitivity Hg1 Hg2) Hp) as Hp2.
  assert (xinv w2) as Hi2.
  { split; [rewrite Hstore; apply Hi1..| |].
    - intros key cp Hk Hx. rewrite Hstore in Hk. destruct (xi_checkpoints _ Hi1 _ _ Hk Hx) as [? Hc].
      split; [done|]. by eapply covered_grows.
    - intros key row [Hrow|[-> ->]]%Hnew.
      + destruct (xi_rows _ Hi1 _ _ Hrow) as (m & smp & st & s0 & Hp0 & ?).
        exists m, smp, st, s0. split; [|done]. by eapply projects_grows.
      + exists n, all, state, s. cbn. rewrite (Hpid s) by by left. split_and!; [done|set_solver|done..]. }
  split; [done|]. destruct r as [[]|e].
  - eapply xwp_mono; [apply IH; [done..|set_solver|set_solver]|].
    intros [cnt err] w' (Hi' & Hg' & Hall). split_and!; [done|by etrans; [etrans|]|].
    intros He. constructor; [|by apply Hall]. eapply recorded_grows; [apply Hg'|by apply Hrec].
  - cbn. split_and!; [done|by etrans|done].
Qed.

Lemma page_samples s pid spec state n l new state' smp :
  store_ok s → page s pid n l →
  BuildPlanMetricSamplesFromState spec state l = Returns (Ok (new, state')) → smp ∈ new →
  ms_PlanID smp = pid.
Proof.
  intros Hok Hpage Hnew Hs. destruct (page_take _ _ _ _ Hpage) as [Htake _].
  assert (increasing l) as Hi.
  { pose proof (stream_increasing s pid (n + length l) Hok) as Hi. rewrite Htake in Hi.
    by apply increasing_app in Hi as [_ ?]. }
  destruct (project_identity _ _ _ _ _ _ Hi Hnew Hs) as (e & He & -> & _).
  destruct Hpage as [_ [rest Hl]].
  assert (e ∈ get_list (events s) pid) as Hin.
  { rewrite <- (take_drop n (get_list _ _)), Hl. set_solver. }
  apply list_elem_of_lookup in Hin as [i Hin]. by apply (so_event _ Hok) in Hin as (_ & ? & _).
Qed.

Lemma exportMetricEventBatch_ok spec cp l n samples w :
  xinv w → specs (xw_store w) !! cp_PlanID cp = Some spec →
  cp_Sequence cp = Z.of_nat n → projects (xw_store w) (cp_PlanID cp) n samples (cp_Projection cp) →
  Forall (recorded (xw_rows w)) samples →
  page (xw_store w) (cp_PlanID cp) n l → l ≠ [] →
  xwp (exportMetricEventBatch spec cp l)
    (λ r w', xinv w' ∧ xgrows w w' ∧
       match r with
       | XReturn _ cp' None => cp_PlanID cp' = cp_PlanID cp ∧ covered w' cp'
       | _ => True
       end) w.
Proof.
  intros Hi Hspec Hn Hp Hall Hpage Hne. unfold exportMetricEventBatch.
  destruct (BuildPlanMetricSamplesFromState _ _ _) as [[[new state']|e]|] eqn:Hnew; [|done..].
  pose proof (xi_store _ Hi) as Hok.
  pose proof (projects_page _ _ _ _ _ _ _ _ _ Hok Hspec (xi_named _ Hi _ _ Hspec) Hp Hpage Hnew) as Hp'.
  apply xwp_bind. eapply xwp_mono.
  { eapply (record_samples_ok _ _ _ _ new); [done|exact Hp'|set_solver|].
    intros s Hs. by eapply page_samples. }
  intros [count [e|]] w1 (Hi1 & Hg1 & Hrec); [by split_and!|]. cbn in Hrec.
  set (cp' := {| cp with cp_Sequence := _; cp_Projection := _ |}).
  assert (∀ w', xgrows w1 w' → covered w' cp') as Hc.
  { intros w' Hg. apply (covered_grows w1); [done|]. exists (n + length l), (samples ++ new).
    split_and!; [cbn; by eapply page_last|by eapply projects_grows|].
    apply Forall_app. split; [|by apply Hrec]. eapply Forall_impl; [exact Hall|].
    intros s. apply recorded_grows, Hg1. }
  apply (xwp_call (XSavePlanMetricCheckpoint cp')); [done|]. intros w2 r w3 Hi2 Hg2 [now Hw].
  destruct (save_inv now w2 cp' r w3 Hi2 (Hc _ Hg2) Hw) as [Hi3 Hg3].
  assert (xgrows w w3) by (etrans; [exact Hg1|by etrans]).
  split; [done|]. destruct r as [[]|e]; cbn; split_and!; try done. apply Hc. by etrans.
Qed.

(** What is left after a program. *)
Abbreviation xkept := (λ _ w', xinv w').

Lemma export_batches_ok fuel spec ref cp result w :
  xinv w → specs (xw_store w) !! pref_PlanID ref = Some spec → cp_PlanID cp = pref_PlanID ref →
  covered w cp → xwp (export_batches fuel x spec ref cp result) xkept w.
Proof.
  revert cp result w. induction fuel as [|fuel IH]; intros cp result w Hi Hspec Hpid Hc; [done|].
  cbn [export_batches]. apply xwp_call; [done|]. intros w1 r w2 Hi1 Hg1 [-> Hr]. split; [done|].
  destruct (covered_grows _ _ _ Hg1 Hc) as (n & samples & Hn & Hp & Hall).
  destruct r as [[|e l]|]; [done| |done]. destruct Hr as [Hr|[? ?]]; [|done].
  assert (n ≤ length (get_list (events (xw_store w1)) (pref_PlanID ref))) as Hlen.
  { rewrite <- Hpid. by destruct Hp as (? & _ & ? & _). }
  symmetry in Hr. eapply (ListPlanEvents_page _ _ _ _ n) in Hr; [|apply Hi1|done|done|done|exact Hlen].
  cbn in Hr.
  apply xwp_bind. eapply xwp_mono.
  { eapply exportMetricEventBatch_ok; [done| |done|exact Hp|done| |done].
    - rewrite Hpid. by apply (xg_specs _ _ Hg1).
    - by rewrite Hpid. }
  intros [counts cp' [err|]| |] w3 (Hi3 & Hg3 & Hend); try done. destruct Hend as [Hpid' Hc'].
  destruct (_ <? _)%Z; [done|]. apply IH; [done| |congruence|done].
  by apply (xg_specs _ _ Hg3), (xg_specs _ _ Hg1).
Qed.

Lemma exportPlan_ok fuel ref w : xinv w → xwp (exportPlan fuel x ref) xkept w.
Proof.
  intros Hi. unfold exportPlan. apply xwp_call; [done|]. intros w1 r w2 Hi1 _ [-> Hr]. split; [done|].
  destruct r as [[[spec status]|]|]; [|done..]. destruct Hr as [Hr|[? ?]]; [|done].
  injection Hr as Hr. unfold GetPlan in Hr. destruct (specs (xw_store w1) !! _) as [spec'|] eqn:Hspec; [|done].
  cbn in Hr. injection Hr as -> _. destruct (ValidatePlanTenantAccess _ _); [|done].
  unfold loadMetricCheckpoint. destruct (ValidatePlanRef ref) as [[]|] eqn:Hv; [|done].
  apply xwp_bind. apply xwp_call; [done|]. intros w3 r w4 Hi3 Hg3 [-> Hr]. split; [done|].
  destruct r as [found|]; [|done]. destruct Hr as [Hr|[? ?]]; [|done]. cbn.
  set (cp := default _ found).
  destruct (ValidatePlanMetricCheckpointRef cp _ _) as [[]|]; [|done]. cbn.
  assert (cp_PlanID cp = pref_PlanID ref ∧ covered w3 cp) as [Hpid Hc].
  { unfold GetPlanMetricCheckpoint in Hr. symmetry in Hr. apply bind_Ok in Hr as ([] & _ & Hr).
    rewrite Hv in Hr. injection Hr as Hr. subst found.
    destruct (metrics (xw_store w3) !! _) as [cp0|] eqn:Hm; cbn in cp; subst cp.
    - apply (xi_checkpoints _ Hi3) in Hm as [Hk ?]; [|done]. split; [|done].
      by apply (f_equal pmk_PlanID) in Hk.
    - split; [done|]. exists 0, []. split_and!; [done| |done].
      by eapply projects_zero, (xg_specs _ _ Hg3). }
  apply export_batches_ok; [done| |done..]. by apply (xg_specs _ _ Hg3).
Qed.

Lemma export_plans_ok fuel refs result w : xinv w → xwp (export_plans fuel x refs result) xkept w.
Proof.
  revert result w. induction refs as [|ref refs IH]; intros result w Hi; [done|]. cbn [export_plans].
  apply xwp_bind. eapply xwp_mono; [by apply exportPlan_ok|].
  intros [counts ? [err|]| |] w1 Hi1; [done| |done..]. by apply IH.
Qed.

Lemma Export_ok fuel scope w : xinv w → xwp (Export fuel x scope) xkept w.
Proof.
  intros Hi. unfold Export. destruct (_ <? _)%Z; [done|].
  apply xwp_call; [done|]. intros w1 r w2 Hi1 _ [-> _]. split; [done|].
  destruct r; [by apply export_plans_ok|done].
Qed.

(** ** Reachable systems *)

Lemma xwp_others {A} (p : xprog A) w w' : xinv w → xwp p xkept w → others w w' → xwp p xkept w'.
Proof.
  intros Hi Hp Ho. destruct p as [a|o k]; [by apply (others_inv w)|].
  intros w1 r w2 Hr Hd. apply (Hp w1 r w2); [by eapply rtc_l|done].
Qed.

Definition xsystem_ok (y : xsystem) : Prop :=
  xinv (xs_world y) ∧ match xs_pass y with None => True | Some p => xwp p xkept (xs_world y) end.

Lemma xsystem_step_ok y y' : xsystem_ok y → xsystem_step y y' → xsystem_ok y'.
Proof.
  intros Hok Hstep. destruct Hstep as [w w' pass Ho|w fuel scope|w o k r w' Hd|w p];
    destruct Hok as [Hi Hp]; cbn in *.
  - split; [by apply (others_inv w)|]. destruct pass; [by eapply xwp_others|done].
  - split; [done|]. by apply Export_ok.
  - by destruct (Hp w r w' (rtc_refl _ _) Hd).
  - done.
Qed.

Lemma xsystem_start_ok : xsystem_ok xsystem_start.
Proof. split; [|done]. split; [apply store_ok_new|intros *..]; cbn; by rewrite lookup_empty. Qed.

Lemma xsystem_reachable_ok y : rtc xsystem_step xsystem_start y → xsystem_ok y.
Proof.
  intros Hr. assert (∀ y0, xsystem_ok y0 → rtc xsystem_step y0 y → xsystem_ok y) as Hgen.
  { intros y0 Hok Hy. induction Hy as [|y1 y2 y3 Hs _ IH]; [done|]. by eapply IH, xsystem_step_ok. }
  by apply (Hgen xsystem_start), Hr; apply xsystem_start_ok.
Qed.

(** ** Passes that nothing disturbs *)

Lemma xreliable_does now o w : xdoes o w (xreliable now o w).1 (xreliable now o w).2.
Proof.
  destruct o; cbn -[record_effect save_effect]; try (split; [done|by left]).
  - destruct (record_effect _ _). by left.
  - exists now. destruct (save_effect _ _ _). by left.
Qed.

Lemma xrun_steps now (p : xprog (xend unit)) w :
  rtc xsystem_step (XSystem w (Some p)) (XSystem (xrun now p w).2 (Some (XRet (xrun now p w).1))).
Proof.
  revert w. induction p as [a|o k IH]; intros w; [done|]. cbn.
  pose proof (xreliable_does now o w) as Hd. destruct (xreliable now o w) as [r w'].
  eapply rtc_l; [by apply xs_call|]. apply IH.
Qed.

Lemma xrun_bind {A B} now (f : A → xprog B) m w :
  xrun now (m ≫= f) w = let '(a, w') := xrun now m w in xrun now (f a) w'.
Proof.
  unfold mbind, xprog_bind. revert w. induction m as [a|o k IH]; intros w; [done|]. cbn.
  destruct (xreliable now o w). apply IH.
Qed.

(** How far the checkpoint of a plan is. *)
Definition exported_upto (s : MemoryPlanStore) (ref : PlanRef) : Z :=
  match metrics s !! planMetricCheckpointKeyFromRef (x_exporterID x) ref with
  | Some cp => cp_Sequence cp
  | None => 0
  end.

(** The checkpoint belongs to the exporter and the plan. *)
Definition owned (ref : PlanRef) (cp : PlanMetricCheckpoint) : Prop :=
  cp_ExporterID cp = x_exporterID x ∧ cp_PlanID cp = pref_PlanID ref ∧
  cp_AccountID cp = pref_AccountID ref ∧ cp_ProjectID cp = pref_ProjectID ref.

Lemma record_samples_run now samples count w :
  xw_store (xrun now (record_samples samples count) w).2 = xw_store w.
Proof.
  revert count w. induction samples as [|s samples IH]; intros count w; [done|].
  cbn [record_samples]. rewrite xrun_bind. cbn. unfold record_effect.
  destruct (RecordPlanMetric _ _ _) as [rows [[]|e]]; cbn; [|done]. by rewrite IH.
Qed.

Lemma exportMetricEventBatch_run now spec ref cp l w counts cp' w' :
  store_ok (xw_store w) → owned ref cp →
  xrun now (exportMetricEventBatch spec cp l) w = (XReturn counts cp' None, w') →
  store_ok (xw_store w') ∧ owned ref cp' ∧ cp_Sequence cp' = lastMetricEventSequence l ∧
  exported_upto (xw_store w') ref = lastMetricEventSequence l ∧
  events (xw_store w') = events (xw_store w) ∧ specs (xw_store w') = specs (xw_store w).
Proof.
  intros Hok Ho. unfold exportMetricEventBatch.
  destruct (BuildPlanMetricSamplesFromState _ _ _) as [[[new state']|e]|]; [|done..].
  rewrite xrun_bind. pose proof (record_samples_run now new 0 w) as Hst.
  destruct (xrun now (record_samples new 0) w) as [[count [e|]] w1]; [done|]. cbn in Hst.
  set (cp1 := {| cp with cp_Sequence := _; cp_Projection := _ |}). rewrite xrun_bind.
  cbn -[SavePlanMetricCheckpoint]. unfold save_effect.
  destruct (SavePlanMetricCheckpoint now (xw_store w1) (Some cp1)) as [s2 [[]|e]] eqn:Hsave; cbn; [|done].
  intros [= _ <- <-]. split.
  { eapply steps_extend; [exact Hok|]. apply rtc_once. rewrite <- Hst. cbn.
    rewrite <- (f_equal fst Hsave : _ = s2). apply step_checkpoint. }
  split; [exact Ho|]. split; [done|]. cbn. unfold SavePlanMetricCheckpoint in Hsave.
  destruct (ValidatePlanMetricCheckpointRef _ _ _;; _); [|done]. injection Hsave as <-. cbn.
  rewrite Hst. split_and!; [|done..]. unfold exported_upto. cbn.
  destruct Ho as (He & Hp & Ha & Hj). destruct ref. cbn in *.
  rewrite He, Hp, Ha, Hj, lookup_insert_eq. done.
Qed.

Lemma exportMetricEventBatch_fuel now spec cp l w :
  (xrun now (exportMetricEventBatch spec cp l) w).1 ≠ XOutOfFuel.
Proof.
  unfold exportMetricEventBatch.
  destruct (BuildPlanMetricSamplesFromState _ _ _) as [[[new state']|e]|]; [|done..].
  rewrite xrun_bind. destruct (xrun now (record_samples new 0) w) as [[count [e|]] w1]; [done|].
  rewrite xrun_bind. set (saved := xrun _ _ w1). by destruct saved as [[[]|e] w2].
Qed.

Lemma export_batches_run now fuel spec ref cp result n w r w' :
  let es := get_list (events (xw_store w)) (pref_PlanID ref) in
  store_ok (xw_store w) → (0 < x_batchSize x)%Z → owned ref cp → cp_Sequence cp = Z.of_nat n →
  n ≤ length es → exported_upto (xw_store w) ref = Z.of_nat n → length es < n + fuel →
  xrun now (export_batches fuel x spec ref cp result) w = (r, w') →
  r ≠ XOutOfFuel ∧
  (∀ counts, r = XReturn counts tt None → exported_upto (xw_store w') ref = Z.of_nat (length es)).
Proof.
  cbv zeta. revert cp result n w. induction fuel as [|fuel IH];
    intros cp result n w Hok Hb Ho Hn Hlen Hup Hfuel; [lia|].
  cbn [export_batches]. rewrite xrun_bind. cbn -[ListPlanEvents].
  destruct (ListPlanEvents _ _ _) as [l|e] eqn:Hl; [|intros [= <- <-]; by split].
  pose proof Hl as Hpage. eapply (ListPlanEvents_page _ _ _ _ n) in Hpage; [|done..].
  eapply (ListPlanEvents_after _ _ _ _ n) in Hl; [|done..]. cbn in Hl, Hpage.
  rewrite (proj2 (Z.ltb_lt _ _) Hb) in Hl.
  assert (length l = min (Z.to_nat (x_batchSize x))
            (length (get_list (events (xw_store w)) (pref_PlanID ref)) - n)) as Hll
    by by rewrite Hl, length_take, length_drop.
  destruct l as [|e l].
  { intros [= <- <-]. split; [done|]. intros _ _. cbn in Hll. rewrite Hup. f_equal. lia. }
  pose proof (page_last _ _ _ _ Hok Hpage ltac:(done)) as Hlast. clear Hl.
  revert Hlast Hll. generalize (e :: l). clear e l Hpage. intros l Hlast Hll.
  rewrite xrun_bind. destruct (xrun now (exportMetricEventBatch spec cp l) w) as [[counts cp' [err|]| |] w1] eqn:Hrun;
    try (intros [= <- <-]; by split).
  - apply (exportMetricEventBatch_run _ _ ref) in Hrun as (Hok' & Ho' & Hseq & Hup' & Hev & Hsp); [|done..].
    destruct (Z.ltb_spec (Z.of_nat (length l)) (x_batchSize x)).
    + intros [= <- <-]. split; [done|]. intros _ _. rewrite Hup', Hlast. f_equal. lia.
    + rewrite <- Hev. apply (IH cp' _ (n + length l)); rewrite ?Hev; try done; try congruence; lia.
  - by pose proof (exportMetricEventBatch_fuel now spec cp l w) as Hf; rewrite Hrun in Hf.
Qed.

Lemma ValidatePlanMetricCheckpointRef_owned cp ref :
  ValidatePlanMetricCheckpointRef cp (x_exporterID x) ref = Ok tt → owned ref cp.
Proof.
  unfold ValidatePlanMetricCheckpointRef, owned. intros (_ & _ & Hc)%bind_Ok.
  apply bind_Ok in Hc as (_ & _ & Hc). apply bind_Ok in Hc as ([] & He%fail_if_Ok & Hc).
  apply bind_Ok in Hc as ([] & Hp%fail_if_Ok & Hc). apply bind_Ok in Hc as ([] & Ha%fail_if_Ok & Hc).
  apply bind_Ok in Hc as ([] & Hj%fail_if_Ok & _). by simplify_bool.
Qed.

Lemma exportPlan_run now fuel ref w r w' :
  let es := get_list (events (xw_store w)) (pref_PlanID ref) in
  xinv w → (0 < x_batchSize x)%Z → length es < fuel →
  xrun now (exportPlan fuel x ref) w = (r, w') →
  r ≠ XOutOfFuel ∧
  (∀ counts, r = XReturn counts tt None → exported_upto (xw_store w') ref = Z.of_nat (length es)).
Proof.
  cbv zeta. intros Hi Hb Hfuel. unfold exportPlan. rewrite xrun_bind. cbn.
  destruct (GetPlan _ _) as [[spec status]|] eqn:Hget; [|by intros [= <- <-]].
  destruct (ValidatePlanTenantAccess _ _); [|by intros [= <- <-]].
  rewrite xrun_bind. unfold loadMetricCheckpoint.
  destruct (ValidatePlanRef ref) as [[]|] eqn:Hv; [|by intros [= <- <-]].
  rewrite xrun_bind. cbn -[GetPlanMetricCheckpoint].
  destruct (GetPlanMetricCheckpoint _ _ _) as [found|] eqn:Hf; [|by intros [= <- <-]]. cbn.
  set (cp := default _ found).
  destruct (ValidatePlanMetricCheckpointRef cp _ _) as [[]|] eqn:Hcp; [|by intros [= <- <-]]. cbn.
  unfold GetPlanMetricCheckpoint in Hf. apply bind_Ok in Hf as ([] & _ & Hf).
  rewrite Hv in Hf. injection Hf as Hf.
  assert (∃ n, cp_Sequence cp = Z.of_nat n ∧ n ≤ length (get_list (events (xw_store w)) (pref_PlanID ref)) ∧
            exported_upto (xw_store w) ref = Z.of_nat n) as (n & Hn & Hlen & Hup).
  { unfold exported_upto. rewrite Hf. destruct found as [cp0|]; cbn in cp; subst cp;
      [|exists 0; split_and!; [done|apply Nat.le_0_l|done]].
    destruct (xi_checkpoints _ Hi _ _ Hf eq_refl) as [Hpid (n & samples & Hn & (? & _ & Hlen & _) & _)].
    apply (f_equal pmk_PlanID) in Hpid. cbn in Hpid. exists n. rewrite <- Hpid in Hlen. by split_and!. }
  apply export_batches_run with (n := n); try done; try lia; [apply Hi|].
  by apply ValidatePlanMetricCheckpointRef_owned.
Qed.

(** ** Facts that two samples share *)

Lemma float_eqb_cases u v :
  SpecFloat.SFeqb u v = true → u = v ∨ ∃ s t, u = SpecFloat.S754_zero s ∧ v = SpecFloat.S754_zero t.
Proof.
  assert (∀ m n, Pos.compare_cont Eq m n = Eq → m = n) as Hpos.
  { intros m n Hmn. by apply Pos.compare_eq. }
  destruct u as [s|s| |s m e], v as [t|t| |t m' e']; try done; unfold SpecFloat.SFeqb; cbn;
    try (by destruct s); try (by destruct t).
  - intros _. right. by eexists _, _.
  - destruct s, t; naive_solver.
  - destruct s, t; try done; destruct (Z.compare_spec e e') as [->| |]; try done;
      destruct (Pos.compare_cont Eq m m') eqn:Hm; try done; apply Hpos in Hm as ->; by left.
Qed.

Lemma float_eqb_trans u v w :
  SpecFloat.SFeqb u v = true → SpecFloat.SFeqb u w = true → SpecFloat.SFeqb v w = true.
Proof.
  intros [->|(s & t & -> & ->)]%float_eqb_cases Huw; [done|].
  apply float_eqb_cases in Huw as [<-|(? & ? & _ & ->)]; done.
Qed.

(** Two samples that one row stands for state the same fact. *)
Lemma recorded_twice rows s1 s2 :
  Key s1 = Key s2 → recorded rows s1 → recorded rows s2 →
  SpecFloat.SFeqb (ms_Value s1) (ms_Value s2) = true ∧
  default ∅ (ms_Labels s1) = default ∅ (ms_Labels s2).
Proof.
  intros Hk (row & Hrow & H1') (row' & Hrow' & H2'). rewrite Hk, Hrow' in Hrow. injection Hrow as ->.
  unfold ValidatePlanMetricSampleIdempotency in *. apply fail_if_Ok in H1', H2'.
  apply negb_false_iff in H1', H2'. unfold samePlanMetricSampleFact in *.
  rewrite !andb_true_iff, !bool_decide_eq_true in H1', H2'. cbn in H1', H2'.
  destruct H1' as [[[_ Hv1] _] Hl1], H2' as [[[_ Hv2] _] Hl2].
  split; [by eapply float_eqb_trans|congruence].
Qed.
End system.

(** ** A concrete exporter *)

Module ExportSample.
#[local] Existing Instance StoreSample.sha.
#[local] Existing Instance MetricsSample.text.

Definition exporter : PlanMetricsExporter := {| x_exporterID := "prometheus"; x_batchSize := 2 |}.
Definition ref : PlanRef := {|
  pref_PlanID := "plan-1"; pref_AccountID := "acct"; pref_ProjectID := "proj" |}.
Definition scope : PlanRefScope := {| prs_AccountID := "acct"; prs_ProjectID := "proj";
  prs_LifecycleStates := []; prs_UpdatedAfter := zero_time; prs_Limit := 10 |}.

Definition event (type : string) : PlanEvent := 
  let e := MetricsSample.event type 0 in {| e with ev_EventID := "" |}.
Definition append (w : xworld) (e : PlanEvent) : xworld :=
  XWorld (AppendPlanEvent StoreSample.now (xw_store w) (Some e) (ev_EventType e)).1 (xw_rows w).
Definition created : xworld :=
  XWorld (CreatePlan StoreSample.now NewMemoryPlanStore (Some MetricsSample.spec) (Some StoreSample.status)).1 ∅.
Definition streamed : xworld :=
  foldl append created (event <$> [Core.EventPlanStarted; Core.EventPlanNodeStarted;
                                   Core.EventPlanNodeSucceeded]).
Definition exported : xworld := (xrun StoreSample.now (Export 9 exporter scope) streamed).2.

Lemma created_others : others exporter (XWorld NewMemoryPlanStore ∅) created.
Proof.
  split; [exact (step_create _ StoreSample.now NewMemoryPlanStore NewMemoryPlanStore
                   (Some MetricsSample.spec) (Some StoreSample.status))|].
  assert (specs (xw_store created) = {["plan-1" := MetricsSample.spec]}) as Hs by (vm_compute; reflexivity).
  split_and!; [done|by intros pid spec; cbn; rewrite lookup_empty| |].
  - intros pid spec. rewrite Hs. intros [_ <-]%lookup_singleton_Some. apply MetricsSample.named_spec.
  - intros key _. vm_compute. reflexivity.
Qed.

Lemma append_others w e :
  specs (xw_store (append w e)) = {["plan-1" := MetricsSample.spec]} →
  specs (xw_store w) = {["plan-1" := MetricsSample.spec]} →
  metrics (xw_store (append w e)) = metrics (xw_store w) → others exporter w (append w e).
Proof.
  intros Hs' Hs Hm. split; [exact (step_append _ StoreSample.now (Some e) _)|].
  split_and!; [done|by rewrite Hs, Hs'| |by rewrite Hm].
  intros pid spec. rewrite Hs'. intros [_ <-]%lookup_singleton_Some. apply MetricsSample.named_spec.
Qed.

Lemma streamed_reachable : rtc (xsystem_step exporter) xsystem_start (XSystem streamed None).
Proof.
  eapply rtc_l; [apply xs_others, created_others|].
  eapply (rtc_l _ _ (XSystem (append created (event Core.EventPlanStarted)) None));
    [apply xs_others, append_others; vm_compute; reflexivity|].
  eapply (rtc_l _ _ (XSystem (append (append created (event Core.EventPlanStarted))
                                     (event Core.EventPlanNodeStarted)) None));
    [apply xs_others, append_others; vm_compute; reflexivity|].
  apply rtc_once, xs_others, append_others; vm_compute; reflexivity.
Qed.

(** Nobody else does anything while the pass runs. *)
Lemma exported_reachable : rtc (xsystem_step exporter) xsystem_start (XSystem exported None).
Proof.
  etrans; [exact streamed_reachable|].
  eapply rtc_l; [apply (xs_start _ streamed 9 scope)|].
  eapply rtc_r; [apply (xrun_steps exporter StoreSample.now)|]. apply xs_end.
Qed.
End ExportSample.

(** ** Theorems *)

(** C11: what an exporter leaves behind.  Others use the plan store while passes of one
    exporter run, any of its calls may fail or fail after it took effect, and a pass may
    end anywhere; the specifications of plans do not change.  Then a checkpoint at [n]
    means that the first [n] events of the plan's stream project without error or panic
    and that every one of these samples is in the sink with the same value, unit,
    timestamp and labels; and every row of the sink is a sample of a projected prefix of
    its plan's stream, stored under its identity: nothing is lost, counted twice or
    made up. *)
Theorem exported_exactly `{!RFC3339, !Sha256, !SliceSort} x y :
  rtc (xsystem_step x) xsystem_start y →
  let s := xw_store (xs_world y) in
  let rows := xw_rows (xs_world y) in
  (∀ ref cp, metrics s !! planMetricCheckpointKeyFromRef (x_exporterID x) ref = Some cp →
     ∃ spec n samples, cp_Sequence cp = Z.of_nat n ∧ specs s !! pref_PlanID ref = Some spec ∧
       n ≤ length (get_list (events s) (pref_PlanID ref)) ∧
       BuildPlanMetricSamples spec (take n (get_list (events s) (pref_PlanID ref))) =
         Returns (Ok samples) ∧
       Forall (recorded rows) samples) ∧
  (∀ key row, rows !! key = Some row →
     ∃ spec n samples sample, specs s !! mk_PlanID key = Some spec ∧
       BuildPlanMetricSamples spec (take n (get_list (events s) (mk_PlanID key))) =
         Returns (Ok samples) ∧
       sample ∈ samples ∧ key = Key sample ∧ row = NormalizePlanMetricSample sample).
Proof.
  intros Hr. destruct (xsystem_reachable_ok x y Hr) as [Hi _]. cbv zeta. split.
  - intros ref cp Hcp. destruct (xi_checkpoints _ _ Hi _ _ Hcp eq_refl) as [Hpid (n & samples & Hn & Hp & Hall)].
    apply (f_equal pmk_PlanID) in Hpid. cbn in Hpid. rewrite <- Hpid in Hp. apply projects_samples in Hp as (spec & ? & ? & ?). by exists spec, n, samples.
  - intros key row Hrow. destruct (xi_rows _ _ Hi _ _ Hrow) as (n & samples & st & smp & Hp & ?).
    apply projects_samples in Hp as (spec & ? & _ & ?). by exists spec, n, samples, smp.
Qed.

Lemma exported_exactly_witness :
  let s := xw_store ExportSample.exported in
  ∃ spec n samples, 3%Z = Z.of_nat n ∧ specs s !! "plan-1" = Some spec ∧
    n ≤ length (get_list (events s) "plan-1") ∧
    BuildPlanMetricSamples (H := MetricsSample.text) spec (take n (get_list (events s) "plan-1")) =
      Returns (Ok samples) ∧
    Forall (recorded (xw_rows ExportSample.exported)) samples.
Proof.
  destruct (metrics (xw_store ExportSample.exported) !!
    planMetricCheckpointKeyFromRef "prometheus" ExportSample.ref) as [cp|] eqn:Hcp;
    [|exfalso; vm_compute in Hcp; discriminate Hcp].
  assert (cp_Sequence cp = 3%Z) as Hseq.
  { apply (f_equal (fmap cp_Sequence)) in Hcp. vm_compute in Hcp. injection Hcp as Hcp. exact (eq_sym Hcp). }
  rewrite <- Hseq.
  exact (proj1 (exported_exactly (H := MetricsSample.text) (H0 := StoreSample.sha)
    ExportSample.exporter (XSystem ExportSample.exported None) ExportSample.exported_reachable)
    ExportSample.ref cp Hcp).
Defined.
