(* ===== verification/MetricsProgress.v ===== *)
(** * Progress of the metrics exporter

    An undisturbed pass over a plan exports the whole stream, unless the stream publishes
    two artifacts of one node and run in one event: then the exporter never gets past
    that event. *)

From S2P Require Import Prelude Types Graph Scope State Json Events Decode Idempotency Artifacts PlanStore.
From S2P Require Import PlanStoreSpec Metrics MetricsSpec MetricsExporter MetricsExporterSpec.

Section progress.
Context `{!RFC3339, !Sha256, !SliceSort} (x : PlanMetricsExporter).

(** ** Samples of a stream *)

(** A sample that the sink validates for a plan. *)
Definition acceptable (pid : string) (spec : RunPlanSpec) (s : PlanMetricSample) : Prop :=
  ms_PlanID s = pid ∧ ValidatePlanMetricSample (NormalizePlanMetricSample s) = Ok tt ∧
  ms_AccountID s = spec_AccountID spec ∧ ms_ProjectID s = spec_ProjectID spec.

(** The rows of a plan are among these samples. *)
Definition rows_from (pid : string) (all : list PlanMetricSample) (rows : metric_rows) : Prop :=
  ∀ key row, rows !! key = Some row → mk_PlanID key = pid →
    ∃ s, s ∈ all ∧ key = Key s ∧ row = NormalizePlanMetricSample s.

Lemma acceptable_finite pid spec s : acceptable pid spec s → not_finite (ms_Value s) = false.
Proof.
  intros (_ & Hv & _). unfold ValidatePlanMetricSample in Hv.
  apply bind_Ok in Hv as ([] & _ & Hv). by apply bind_Ok in Hv as ([] & Hfin%fail_if_Ok & _).
Qed.

Lemma sample_key_inj all s s' : NoDup (Key <$> all) → s ∈ all → s' ∈ all → Key s = Key s' → s = s'.
Proof.
  intros Hnd [i Hi]%list_elem_of_lookup [j Hj]%list_elem_of_lookup Hk.
  assert (i = j) as ->; [|congruence].
  apply (NoDup_lookup (Key <$> all) i j (Key s)); [done|by rewrite list_lookup_fmap, Hi|].
  by rewrite list_lookup_fmap, Hj, Hk.
Qed.

(** Recording a sample of the stream succeeds, whatever of it was recorded before. *)
Lemma RecordPlanMetric_accepts plans rows pid spec all s :
  plans !! pid = Some spec → NoDup (Key <$> all) → rows_from pid all rows →
  s ∈ all → acceptable pid spec s →
  ∃ rows', RecordPlanMetric plans rows s = (rows', Ok tt) ∧ rows_from pid all rows'.
Proof.
  intros Hplan Hnd Hrows Hs Hacc. pose proof (acceptable_finite _ _ _ Hacc) as Hfin.
  destruct Hacc as (Hpid & Hv & Ha & Hp). unfold RecordPlanMetric. cbv zeta. rewrite Hv. cbn.
  rewrite Hpid, Hplan. cbn. rewrite Ha, Hp, !bool_decide_eq_true_2 by done. cbn.
  change (Key _) with (Key s). destruct (rows !! Key s) as [row|] eqn:Hrow.
  - exists rows. split; [|done]. destruct (Hrows _ _ Hrow Hpid) as (s' & Hs' & Hk & ->).
    rewrite (sample_key_inj _ _ _ Hnd Hs Hs' Hk) in *. f_equal.
    unfold ValidatePlanMetricSampleIdempotency. rewrite !normalize_idem. by rewrite same_fact_refl.
  - eexists. split; [done|]. intros key row [[<- <-]|[_ Hr]]%lookup_insert_Some Hk; [by exists s|by eapply Hrows].
Qed.

Lemma record_samples_accepts now pid spec all samples count w :
  specs (xw_store w) !! pid = Some spec → NoDup (Key <$> all) → rows_from pid all (xw_rows w) →
  samples ⊆ all → Forall (acceptable pid spec) all →
  (xrun now (record_samples samples count) w).1.2 = None.
Proof.
  intros Hspec Hnd Hrows Hin Hall. revert count w Hspec Hrows.
  induction samples as [|s samples IH]; intros count w Hspec Hrows; [done|].
  cbn [record_samples]. rewrite xrun_bind. cbn. unfold record_effect.
  assert (s ∈ all) as Hs by set_solver.
  destruct (RecordPlanMetric_accepts (specs (xw_store w)) (xw_rows w) pid spec all s) as (rows' & -> & Hr');
    [done..|by apply (proj1 (Forall_forall _ _) Hall)|].
  cbn. apply IH; [set_solver|done|done].
Qed.

(** ** Projections of the whole stream *)

(** What is projected so far is a prefix of all, and the next page projects. *)
Lemma projects_next s pid spec n samples state l all state_all :
  store_ok s → specs s !! pid = Some spec → named spec →
  projects s pid n samples state → page s pid n l →
  BuildPlanMetricSamplesFromState spec zero_PlanMetricProjectionState (get_list (events s) pid) =
    Returns (Ok (all, state_all)) →
  samples `prefix_of` all ∧
  ∃ new state', BuildPlanMetricSamplesFromState spec state l = Returns (Ok (new, state')) ∧ new ⊆ all.
Proof.
  intros Hok Hspec Hnm (spec' & Hspec' & Hn & st & Hp & Hst) Hpage Hall.
  rewrite Hspec in Hspec'. injection Hspec' as <-. destruct Hpage as [_ [rest Hl]].
  set (es := get_list (events s) pid) in *.
  assert (increasing es) as Hi.
  { rewrite <- (take_ge es (length es)) by done. by apply stream_increasing. }
  assert (es = take n es ++ (l ++ rest)) as Hes by by rewrite <- Hl, take_drop.
  pose proof (project_cut spec Hnm zero_PlanMetricProjectionState (take n es) (l ++ rest)) as Hcut.
  rewrite <- Hes, Hall, Hp in Hcut. specialize (Hcut Hi). cbn -[BuildPlanMetricSamplesFromState] in Hcut.
  rewrite (project_proper spec (l ++ rest) _ _ Hst) in Hcut.
  assert (increasing (l ++ rest)) as Hi2. { rewrite Hes in Hi. by apply increasing_app in Hi as [_ ?]. }
  pose proof (project_cut spec Hnm state l rest Hi2) as Hcut2.
  apply panics_rel_Ok in Hcut as ([all' state_all'] & Hr & Heq & _). cbn in Heq. subst all'.
  destruct (BuildPlanMetricSamplesFromState spec state (l ++ rest)) as [[[s2 st2]|]|] eqn:H2; [|done..].
  injection Hr as Hr _. apply panics_rel_Ok in Hcut2 as ([s2' st2'] & Hr2 & Heq2 & _). cbn in Heq2. subst s2'.
  split; [by exists s2|].
  destruct (BuildPlanMetricSamplesFromState spec state l) as [[[new state']|]|]; [|done..].
  exists new, state'. split; [done|]. cbn -[BuildPlanMetricSamplesFromState] in Hr2.
  destruct (BuildPlanMetricSamplesFromState spec state' rest) as [[[s3 st3]|]|]; [|done..].
  injection Hr2 as Hr2 _. set_solver.
Qed.

(** ** A stream that can be exported *)

Record exportable (spec : RunPlanSpec) (ref : PlanRef) (all : list PlanMetricSample)
    (s : MemoryPlanStore) : Prop := {
  xp_id : x_exporterID x ≠ "";
  xp_spec : specs s !! pref_PlanID ref = Some spec;
  xp_tenant : ValidatePlanTenantAccess ref (Some spec) = Ok tt;
  xp_projects : ∃ state, BuildPlanMetricSamplesFromState spec zero_PlanMetricProjectionState
                  (get_list (events s) (pref_PlanID ref)) = Returns (Ok (all, state));
  xp_keys : NoDup (Key <$> all);
  xp_accepts : Forall (acceptable (pref_PlanID ref) spec) all;
}.

Lemma exportable_intro spec ref all w :
  xinv x w → x_exporterID x ≠ "" → specs (xw_store w) !! pref_PlanID ref = Some spec →
  ValidatePlanTenantAccess ref (Some spec) = Ok tt →
  BuildPlanMetricSamples spec (get_list (events (xw_store w)) (pref_PlanID ref)) = Returns (Ok all) →
  Forall artifacts_apart (get_list (events (xw_store w)) (pref_PlanID ref)) →
  Forall (λ s, ValidatePlanMetricSample (NormalizePlanMetricSample s) = Ok tt) all →
  exportable spec ref all (xw_store w).
Proof.
  intros Hi Hid Hspec Ht Hall Hapart Hvalid. set (es := get_list _ _) in *.
  assert (increasing es) as Hinc.
  { rewrite <- (take_ge es (length es)) by done. apply stream_increasing, Hi. }
  unfold BuildPlanMetricSamples, BuildPlanMetricSamplesAfter in Hall.
  change (projectPlanMetricSamples spec zero_PlanMetricProjectionState es 0)
    with (BuildPlanMetricSamplesFromState spec zero_PlanMetricProjectionState es) in Hall.
  destruct (BuildPlanMetricSamplesFromState _ _ _) as [[[all' st]|]|] eqn:Hp; [|done..].
  injection Hall as ->. split; [done..|by exists st| |].
  - apply project_emits in Hp as (groups & -> & Hg); [|done]. by eapply groups_keys.
  - apply Forall_forall. intros s Hs. rewrite Forall_forall in Hvalid.
    destruct (project_tenant _ _ _ _ _ _ Hinc Hp Hs).
    destruct (project_identity _ _ _ _ _ _ Hinc Hp Hs) as (e & [i He]%list_elem_of_lookup & Hpid & _).
    destruct (so_event _ (xi_store _ _ Hi) _ _ _ He) as (_ & Hpid' & _).
    split_and!; [congruence|by apply Hvalid|done..].
Qed.

Lemma exportable_same spec ref all s s' :
  events s' = events s → specs s' = specs s → exportable spec ref all s → exportable spec ref all s'.
Proof. intros He Hs []. by split; rewrite ?He, ?Hs. Qed.

Lemma tenant_access ref spec :
  ValidatePlanTenantAccess ref (Some spec) = Ok tt →
  ValidatePlanRef ref = Ok tt ∧ spec_AccountID spec = pref_AccountID ref ∧
  spec_ProjectID spec = pref_ProjectID ref.
Proof.
  intros ([] & Hv & Hc)%bind_Ok. apply bind_Ok in Hc as ([] & _ & Hc).
  apply bind_Ok in Hc as ([] & Ha%fail_if_Ok & Hp%fail_if_Ok). by simplify_bool.
Qed.

Lemma exportable_rows spec ref all w :
  xinv x w → exportable spec ref all (xw_store w) → rows_from (pref_PlanID ref) all (xw_rows w).
Proof.
  intros Hi [_ Hspec _ [st Hall] _ _] key row Hrow Hk.
  destruct (xi_rows _ _ Hi _ _ Hrow) as (n & samples & st' & s & Hp & Hs & -> & ->).
  rewrite Hk in Hp. exists s. split_and!; [|done..].
  assert (page (xw_store w) (pref_PlanID ref) n []) as Hpage.
  { split; [by destruct Hp as (_ & _ & ? & _)|apply prefix_nil]. }
  destruct (projects_next _ _ _ _ _ _ _ _ _ (xi_store _ _ Hi) Hspec (xi_named _ _ Hi _ _ Hspec)
              Hp Hpage Hall) as [[rest ->] _]. set_solver.
Qed.

Lemma save_accepts now s spec ref cp all :
  exportable spec ref all s → owned x ref cp → (0 ≤ cp_Sequence cp)%Z →
  (exported_upto x s ref ≤ cp_Sequence cp)%Z →
  (SavePlanMetricCheckpoint now s (Some cp)).2 = Ok tt.
Proof.
  intros [Hid Hspec Htenant _ _ _] (He & Hp & Ha & Hj) Hpos Hup.
  apply tenant_access in Htenant as (Hv & Hsa & Hsp). unfold SavePlanMetricCheckpoint. cbv zeta.
  destruct ref as [pid account project]. cbn in *. unfold exported_upto in Hup.
  unfold ValidatePlanMetricCheckpointRef. rewrite He, Hp, Ha, Hj. cbn -[ValidatePlanRef] in *.
  rewrite (bool_decide_eq_false_2 (x_exporterID x = "")) by done. cbn -[ValidatePlanRef].
  rewrite Hv, Hspec, Hsa, Hsp, !bool_decide_eq_true_2 by done. cbn.
  rewrite (proj2 (Z.ltb_ge _ _) Hpos). cbn.
  destruct (metrics s !! _) as [old|]; [|done]. by rewrite (proj2 (Z.ltb_ge _ _) Hup).
Qed.

Lemma batch_succeeds now spec ref cp l n samples all w :
  xinv x w → exportable spec ref all (xw_store w) → owned x ref cp →
  projects (xw_store w) (pref_PlanID ref) n samples (cp_Projection cp) →
  page (xw_store w) (pref_PlanID ref) n l → l ≠ [] →
  exported_upto x (xw_store w) ref = Z.of_nat n →
  ∃ counts cp' w', xrun now (exportMetricEventBatch spec cp l) w = (XReturn counts cp' None, w').
Proof.
  intros Hi Hx Ho Hp Hpage Hne Hup. pose proof Hx as [_ Hspec _ [st Hall] Hnd Hacc].
  destruct (projects_next _ _ _ _ _ _ _ _ _ (xi_store _ _ Hi) Hspec (xi_named _ _ Hi _ _ Hspec)
              Hp Hpage Hall) as (_ & new & state' & Hnew & Hin).
  unfold exportMetricEventBatch. rewrite Hnew, xrun_bind.
  pose proof (record_samples_run now new 0 w) as Hst.
  pose proof (record_samples_accepts now _ _ all new 0 w Hspec Hnd (exportable_rows _ _ _ _ Hi Hx) Hin Hacc) as Hok.
  destruct (xrun now (record_samples new 0) w) as [[count err] w1]. cbn in Hst, Hok. subst err.
  set (cp1 := {| cp with cp_Sequence := _; cp_Projection := _ |}). rewrite xrun_bind.
  cbn -[SavePlanMetricCheckpoint]. unfold save_effect.
  pose proof (page_last _ _ _ _ (xi_store _ _ Hi) Hpage Hne) as Hlast.
  assert ((SavePlanMetricCheckpoint now (xw_store w1) (Some cp1)).2 = Ok tt) as Hsave.
  { rewrite Hst. apply (save_accepts now _ spec ref cp1 all); [done|exact Ho|..];
      cbn; rewrite Hlast, ?Hup; lia. }
  destruct (SavePlanMetricCheckpoint _ _ _) as [s2 r2]. cbn in Hsave. subst r2. cbn. by do 3 eexists.
Qed.

(** ** Undisturbed passes *)

(** What holds after a program whatever others do holds after an undisturbed run. *)
Lemma xwp_run {A} now (p : xprog A) Q w :
  xwp x p Q w → Q (xrun now p w).1 (xrun now p w).2.
Proof.
  revert w. induction p as [a|o k IH]; intros w Hp; [done|]. cbn.
  pose proof (xreliable_does now o w) as Hd. destruct (xreliable now o w) as [r w'].
  destruct (Hp w r w' (rtc_refl _ _) Hd). by apply IH.
Qed.

Lemma ListPlanEvents_answers s ref spec after limit :
  specs s !! pref_PlanID ref = Some spec → ValidatePlanTenantAccess ref (Some spec) = Ok tt →
  ∃ l, ListPlanEvents s {| ss_PlanID := pref_PlanID ref; ss_AccountID := pref_AccountID ref;
         ss_ProjectID := pref_ProjectID ref; ss_NodeID := ""; ss_RunID := "";
         ss_AfterSequence := after |} limit = Ok l.
Proof.
  intros Hspec Ht. pose proof (tenant_access _ _ Ht) as (Hv & _). destruct ref as [pid account project].
  unfold ListPlanEvents, ValidatePlanStreamScope. cbn -[ValidatePlanRef ValidatePlanTenantAccess] in *.
  rewrite Hv. cbn -[ValidatePlanTenantAccess]. rewrite Hspec, Ht. by eexists.
Qed.

Lemma export_batches_succeeds now fuel spec ref cp result n samples all w :
  xinv x w → exportable spec ref all (xw_store w) → (0 < x_batchSize x)%Z → owned x ref cp →
  cp_Sequence cp = Z.of_nat n → projects (xw_store w) (pref_PlanID ref) n samples (cp_Projection cp) →
  Forall (recorded (xw_rows w)) samples → exported_upto x (xw_store w) ref = Z.of_nat n →
  length (get_list (events (xw_store w)) (pref_PlanID ref)) < n + fuel →
  ∃ counts, (xrun now (export_batches fuel x spec ref cp result) w).1 = XReturn counts tt None.
Proof.
  revert cp result n samples w.
  induction fuel as [|fuel IH]; intros cp result n samples w Hi Hx Hb Ho Hn Hp Hrec Hup Hfuel.
  { destruct Hp as (_ & _ & ? & _). lia. }
  cbn [export_batches]. rewrite xrun_bind. cbn -[ListPlanEvents].
  destruct (ListPlanEvents_answers (xw_store w) ref spec (cp_Sequence cp) (x_batchSize x)
              (xp_spec _ _ _ _ Hx) (xp_tenant _ _ _ _ Hx)) as [l Hl].
  rewrite Hl. eapply (ListPlanEvents_page _ _ _ _ n) in Hl;
    [|apply Hi|done..|by destruct Hp as (_ & _ & ? & _)]. cbn in Hl.
  destruct l as [|e l]; [by eexists|]. assert (e :: l ≠ []) as Hne by done.
  revert Hl Hne. generalize (e :: l). clear e l. intros l Hpage Hne. rewrite xrun_bind.
  destruct (batch_succeeds now spec ref cp l n samples all w) as (counts & cp' & w' & Hrun); [done..|].
  rewrite Hrun. destruct (_ <? _)%Z; [by eexists|].
  pose proof (page_last _ _ _ _ (xi_store _ _ Hi) Hpage Hne) as Hlast.
  destruct (exportMetricEventBatch_run x now spec ref cp l w counts cp' w' (xi_store _ _ Hi) Ho Hrun)
    as (_ & Ho' & Hseq & Hup' & Hev & Hsp).
  pose proof Ho as (_ & Hpid & _). pose proof Ho' as (_ & Hpid' & _).
  assert (xinv x w' ∧ covered w' cp') as [Hi' (n' & samples' & Hn' & Hp' & Hrec')].
  { pose proof (xwp_run now _ _ w (exportMetricEventBatch_ok x spec cp l n samples w Hi
      ltac:(rewrite Hpid; apply Hx) Hn ltac:(by rewrite Hpid) Hrec ltac:(by rewrite Hpid) Hne)) as Hwp.
    rewrite Hrun in Hwp. cbn in Hwp. tauto. }
  rewrite Hpid' in Hp'. apply (IH cp' _ n' samples' w'); try done; try congruence.
  - by eapply exportable_same.
  - rewrite Hev. pose proof (page_take _ _ _ _ Hpage) as [_ ?].
    assert (length l ≠ 0) by by destruct l. lia.
Qed.

Lemma exportPlan_succeeds now fuel ref spec all w :
  xinv x w → exportable spec ref all (xw_store w) → (0 < x_batchSize x)%Z →
  length (get_list (events (xw_store w)) (pref_PlanID ref)) < fuel →
  ∃ counts, (xrun now (exportPlan fuel x ref) w).1 = XReturn counts tt None.
Proof.
  intros Hi Hx Hb Hfuel. pose proof Hx as [Hid Hspec Ht _ _ _].
  pose proof (tenant_access _ _ Ht) as (Hv & _). unfold exportPlan. rewrite xrun_bind.
  cbn -[ValidatePlanTenantAccess]. unfold GetPlan. rewrite Hspec. cbn -[ValidatePlanTenantAccess].
  rewrite Ht, xrun_bind. unfold loadMetricCheckpoint. rewrite Hv, xrun_bind.
  cbn -[GetPlanMetricCheckpoint]. unfold GetPlanMetricCheckpoint.
  rewrite (bool_decide_eq_false_2 (x_exporterID x = "")) by done. rewrite Hv.
  cbn -[ValidatePlanMetricCheckpointRef]. set (found := metrics _ !! _). set (cp := default _ found).
  assert (owned x ref cp ∧ ∃ n samples, cp_Sequence cp = Z.of_nat n ∧
    projects (xw_store w) (pref_PlanID ref) n samples (cp_Projection cp) ∧
    Forall (recorded (xw_rows w)) samples ∧ exported_upto x (xw_store w) ref = Z.of_nat n)
    as (Ho & n & samples & Hn & Hp & Hrec & Hup).
  { unfold exported_upto. fold found. destruct found as [cp0|] eqn:Hf; cbn in cp; subst cp.
    - destruct (xi_checkpoints _ _ Hi _ _ Hf eq_refl) as [Hk (n & samples & Hn & Hp & Hrec)].
      injection Hk as He Hpid Ha Hj. rewrite <- Hpid in Hp.
      split; [by split_and!|]. by exists n, samples.
    - split; [done|]. exists 0, []. split_and!; try done. by eapply projects_zero. }
  clearbody cp. assert (ValidatePlanMetricCheckpointRef cp (x_exporterID x) ref = Ok tt) as ->.
  { destruct Ho as (He & Hpid & Ha & Hj). unfold ValidatePlanMetricCheckpointRef.
    rewrite (bool_decide_eq_false_2 (x_exporterID x = "")) by done. rewrite Hv. cbn.
    rewrite He, Hpid, Ha, Hj, Hn, !bool_decide_eq_true_2 by done. cbn. by rewrite (proj2 (Z.ltb_ge _ _)) by lia. }
  by eapply export_batches_succeeds; [done..|lia].
Qed.

(** A pass writes rows and checkpoints, not events or specifications. *)
Lemma xrun_keeps {A} now (p : xprog A) w :
  events (xw_store (xrun now p w).2) = events (xw_store w) ∧
  specs (xw_store (xrun now p w).2) = specs (xw_store w).
Proof.
  revert w. induction p as [a|o k IH]; intros w; [done|]. cbn.
  assert (events (xw_store (xreliable now o w).2) = events (xw_store w) ∧
          specs (xw_store (xreliable now o w).2) = specs (xw_store w)) as [He Hs].
  { destruct o as [| | | |s|cp]; try done; cbn.
    - unfold record_effect. by destruct (RecordPlanMetric _ _ _).
    - unfold save_effect. destruct (SavePlanMetricCheckpoint_store now (xw_store w) cp) as [Heq|[u Heq]];
        destruct (SavePlanMetricCheckpoint now (xw_store w) (Some cp)) as [s' r]; cbn in *; by rewrite Heq. }
  destruct (xreliable now o w) as [r w']. destruct (IH r w') as [-> ->]. done.
Qed.

(** The samples that a checkpoint at the end of the stream stands for. *)
Lemma exported_recorded spec ref all w :
  xinv x w → exportable spec ref all (xw_store w) →
  exported_upto x (xw_store w) ref = Z.of_nat (length (get_list (events (xw_store w)) (pref_PlanID ref))) →
  Forall (recorded (xw_rows w)) all.
Proof.
  intros Hi [_ Hspec _ [st Hall] _ _] Hup. unfold exported_upto in Hup.
  set (es := get_list _ _) in *.
  destruct (metrics (xw_store w) !! _) as [cp|] eqn:Hcp.
  - destruct (xi_checkpoints _ _ Hi _ _ Hcp eq_refl) as [Hk (n & samples & Hn & Hp & Hrec)].
    injection Hk as _ Hpid _ _. rewrite <- Hpid in Hp. destruct Hp as (spec' & Hspec' & _ & st' & Hp & _).
    fold es in Hp. rewrite Hspec in Hspec'. injection Hspec' as <-.
    rewrite take_ge in Hp by lia. rewrite Hall in Hp. by injection Hp as -> _.
  - destruct es; [|done]. rewrite project_increasing in Hall by constructor. by injection Hall as <- _.
Qed.

(** Two artifacts of one event share a sample identity; a sink that has both has them
    with one size and one kind. *)
Lemma artifacts_recorded rows spec e a b :
  recorded rows (artifact_sample spec e a) → recorded rows (artifact_sample spec e b) →
  ref_NodeID a = ref_NodeID b → ref_RunID a = ref_RunID b →
  ref_Kind a = ref_Kind b ∧
  SpecFloat.SFeqb (float64_of_int (ref_SizeBytes a)) (float64_of_int (ref_SizeBytes b)) = true.
Proof.
  intros Ha Hb Hn Hr. assert (Key (artifact_sample spec e a) = Key (artifact_sample spec e b)) as Hk.
  { unfold Key, artifact_sample. cbn. by rewrite Hn, Hr. }
  destruct (recorded_twice _ _ _ Hk Ha Hb) as [Hv Hl]. split; [|exact Hv].
  assert (∀ k : string, bool_decide ({["artifact_kind" := k]} = (∅ : gmap string string)) = false) as Hne.
  { intros k. apply bool_decide_eq_false_2, map_non_empty_singleton. }
  cbn in Hl. rewrite !Hne in Hl. cbn in Hl.
  apply (f_equal (lookup "artifact_kind")) in Hl. rewrite !lookup_singleton_eq in Hl. by injection Hl.
Qed.
End progress.

(** ** Theorems *)

(** C12: an undisturbed pass exports a whole stream.  Let an exporter, after any history of
    passes that failed or died, run over a plan while nobody interferes and no call
    fails.  If the stream projects, its samples pass the validation of the sink and no
    event publishes two artifacts of one node and run, then the pass ends without error,
    within as many rounds as the stream has events and one more; the checkpoint is at the
    end of the stream and every sample of the stream is in the sink. *)
Theorem pass_catches_up `{!RFC3339, !Sha256, !SliceSort} x y now fuel ref spec samples :
  let s := xw_store (xs_world y) in
  let es := get_list (events s) (pref_PlanID ref) in
  rtc (xsystem_step x) xsystem_start y → x_exporterID x ≠ "" → (0 < x_batchSize x)%Z →
  specs s !! pref_PlanID ref = Some spec → ValidatePlanTenantAccess ref (Some spec) = Ok tt →
  BuildPlanMetricSamples spec es = Returns (Ok samples) → Forall artifacts_apart es →
  Forall (λ s, ValidatePlanMetricSample (NormalizePlanMetricSample s) = Ok tt) samples →
  length es < fuel →
  ∃ counts w', xrun now (exportPlan fuel x ref) (xs_world y) = (XReturn counts tt None, w') ∧
    exported_upto x (xw_store w') ref = Z.of_nat (length es) ∧
    Forall (recorded (xw_rows w')) samples.
Proof.
  cbv zeta. intros [Hi _]%xsystem_reachable_ok Hid Hb Hspec Ht Hsamples Hapart Hvalid Hfuel.
  assert (exportable x spec ref samples (xw_store (xs_world y))) as Hx by by apply exportable_intro.
  destruct (exportPlan_succeeds x now fuel ref spec samples _ Hi Hx Hb Hfuel) as [counts Hr].
  destruct (xrun_keeps now (exportPlan fuel x ref) (xs_world y)) as [He Hs].
  pose proof (xwp_run x now _ _ _ (exportPlan_ok x fuel ref _ Hi)) as Hi'. cbv beta in Hi'.
  destruct (xrun now (exportPlan fuel x ref) (xs_world y)) as [r w'] eqn:Hrun. cbn in *. subst r.
  destruct (exportPlan_run x now fuel ref _ _ _ Hi Hb Hfuel Hrun) as [_ Hup].
  specialize (Hup _ eq_refl). exists counts, w'. split_and!; [done|done|].
  apply (exported_recorded x spec ref); [done|by eapply exportable_same|].
  etrans; [exact Hup|]. by rewrite He.
Qed.

Module ProgressSample.
#[local] Existing Instance MetricsSample.text.

Definition stream : list PlanEvent := get_list (events (xw_store ExportSample.streamed)) "plan-1".
Definition samples : list PlanMetricSample :=
  match BuildPlanMetricSamples MetricsSample.spec stream with Returns (Ok l) => l | _ => [] end.

Lemma stream_samples : BuildPlanMetricSamples MetricsSample.spec stream = Returns (Ok samples).
Proof. vm_compute. reflexivity. Qed.

Lemma samples_valid :
  Forall (λ s, ValidatePlanMetricSample (NormalizePlanMetricSample s) = Ok tt) samples.
Proof.
  eapply Forall_impl with (P := λ s, match ValidatePlanMetricSample (NormalizePlanMetricSample s)
                                     with Ok _ => true | Err _ => false end = true).
  - apply Forall_forall. intros s Hs%list_elem_of_In. revert s Hs. apply forallb_forall.
    vm_compute. reflexivity.
  - intros s. by destruct (ValidatePlanMetricSample _) as [[]|].
Qed.
End ProgressSample.

Lemma pass_catches_up_witness :
  ∃ counts w', xrun StoreSample.now
      (exportPlan (H := MetricsSample.text) 4 ExportSample.exporter ExportSample.ref)
      ExportSample.streamed = (XReturn counts tt None, w') ∧
    exported_upto ExportSample.exporter (xw_store w') ExportSample.ref = 3%Z ∧
    Forall (recorded (xw_rows w')) ProgressSample.samples ∧ length ProgressSample.samples = 6.
Proof.
  destruct (pass_catches_up (H := MetricsSample.text) (H0 := StoreSample.sha) ExportSample.exporter
    (XSystem ExportSample.streamed None) StoreSample.now 4 ExportSample.ref MetricsSample.spec
    ProgressSample.samples ExportSample.streamed_reachable) as (counts & w' & Hrun & Hup & Hrec);
    [discriminate|reflexivity|vm_compute; reflexivity|reflexivity|exact ProgressSample.stream_samples|..].
  - eapply Forall_impl with (P := λ e, ev_EventType e ≠ Core.EventNodeOutputPublished);
      [vm_compute; repeat constructor; discriminate|]. intros e He value refs Ht. contradiction.
  - exact ProgressSample.samples_valid.
  - vm_compute. lia.
  - exists counts, w'. split; [exact Hrun|]. split; [exact Hup|]. split; [exact Hrec|]. vm_compute. reflexivity.
Defined.

(** An event that publishes two artifacts of one node and run with different kinds or
    sizes stops the export of its plan for good.  The samples of the two artifacts have one
    identity, because it does not include the artifact, and a sink refuses the second as a
    conflict; so in every reachable system the exporter's checkpoint of the plan is before
    that event, however many passes are made. *)
Theorem artifacts_block_export `{!RFC3339, !Sha256, !SliceSort} x y ref i e value refs a b :
  let s := xw_store (xs_world y) in
  rtc (xsystem_step x) xsystem_start y →
  get_list (events s) (pref_PlanID ref) !! i = Some e →
  ev_EventType e = Core.EventNodeOutputPublished →
  map_get (ev_Payload e) planEventPayloadArtifacts = Some value →
  payload_artifacts value = Ok refs → a ∈ refs → b ∈ refs →
  ref_NodeID a = ref_NodeID b → ref_RunID a = ref_RunID b →
  ref_Kind a ≠ ref_Kind b ∨
    SpecFloat.SFeqb (float64_of_int (ref_SizeBytes a)) (float64_of_int (ref_SizeBytes b)) = false →
  (exported_upto x s ref ≤ Z.of_nat i)%Z.
Proof.
  cbv zeta. intros [Hi _]%xsystem_reachable_ok He Ht Hval Hrefs Ha Hb Hn Hr Hdiff.
  unfold exported_upto. destruct (metrics _ !! _) as [cp|] eqn:Hcp; [|lia].
  destruct (xi_checkpoints _ _ Hi _ _ Hcp eq_refl) as [Hk (n & samples & -> & Hp & Hrec)].
  injection Hk as _ Hpid _ _. rewrite <- Hpid in Hp. destruct Hp as (spec & _ & _ & st & Hp & _).
  destruct (decide (n ≤ i)) as [|Hin]; [lia|]. exfalso.
  apply project_emits in Hp as (groups & -> & Hg); [|apply stream_increasing, Hi].
  assert (take n (get_list (events (xw_store (xs_world y))) (pref_PlanID ref)) !! i = Some e) as Hei
    by (rewrite lookup_take_lt by lia; done).
  destruct (Forall2_lookup_l _ _ _ _ _ Hg Hei) as (new & Hnew & Hem).
  pose proof (em_artifacts _ _ _ Hem Ht) as Hart. unfold artifactMetricSamples in Hart.
  rewrite Hval, Hrefs in Hart. injection Hart as <-.
  assert (∀ r, r ∈ refs → recorded (xw_rows (xs_world y)) (artifact_sample spec e r)) as Hall.
  { intros r Hin'. apply (proj1 (Forall_forall _ _) Hrec). apply elem_of_concat.
    eexists. split; [by apply list_elem_of_fmap_2|by eapply list_elem_of_lookup_2]. }
  destruct (artifacts_recorded _ spec e a b (Hall _ Ha) (Hall _ Hb) Hn Hr) as [Hkind Hsize].
  destruct Hdiff as [|Hsz]; [done|]. by rewrite Hsize in Hsz.
Qed.

Module StuckSample.
#[local] Existing Instance StoreSample.sha.
#[local] Instance text : RFC3339 := {|
  format_time _ := "2026-01-01T00:00:00Z"; parse_time _ := Some zero_time |}.

(** The two outputs of a node: a summary and a larger report. *)
Definition summary : ArtifactRef := {| zero_ArtifactRef with
  ref_ArtifactID := "a-1"; ref_PlanID := "plan-1"; ref_NodeID := "a"; ref_RunID := "run-a";
  ref_Name := "summary"; ref_Kind := "json"; ref_SizeBytes := 10%Z |}.
Definition report : ArtifactRef := {| summary with
  ref_ArtifactID := "a-2"; ref_Name := "report"; ref_SizeBytes := 20%Z |}.
Definition artifacts : any := AValue (VArtifacts [summary; report]).
Definition outputs : PlanEvent :=
  let e := ExportSample.event Core.EventNodeOutputPublished in
  {| e with ev_Payload := Some {[planEventPayloadArtifacts := artifacts]} |}.
Definition published : xworld := ExportSample.append ExportSample.created outputs.
Definition pass : xend unit * xworld :=
  xrun StoreSample.now (Export 9 ExportSample.exporter ExportSample.scope) published.

Lemma stuck_reachable :
  rtc (xsystem_step ExportSample.exporter) xsystem_start (XSystem pass.2 None).
Proof.
  eapply rtc_l; [apply xs_others, ExportSample.created_others|].
  eapply (rtc_l _ _ (XSystem published None));
    [apply xs_others, ExportSample.append_others; vm_compute; reflexivity|].
  eapply rtc_l; [apply (xs_start _ published 9 ExportSample.scope)|].
  eapply rtc_r; [apply (xrun_steps ExportSample.exporter StoreSample.now)|]. apply xs_end.
Qed.
End StuckSample.

(** The pass fails after it recorded the first artifact, and so will every later one. *)
Lemma artifacts_block_export_witness :
  (∃ counts err, StuckSample.pass.1 = XReturn counts tt (Some err) ∧ xr_SamplesRecorded counts = 1%Z) ∧
  (exported_upto ExportSample.exporter (xw_store StuckSample.pass.2) ExportSample.ref ≤ 0)%Z.
Proof.
  split; [do 2 eexists; split; [vm_compute; reflexivity|reflexivity]|].
  destruct (get_list (events (xw_store StuckSample.pass.2)) "plan-1" !! 0) as [e|] eqn:He;
    [|exfalso; vm_compute in He; discriminate He].
  assert (ev_EventType e = Core.EventNodeOutputPublished ∧
          map_get (ev_Payload e) planEventPayloadArtifacts = Some StuckSample.artifacts) as [Ht Hv].
  { vm_compute in He. injection He as <-. split; vm_compute; reflexivity. }
  apply (artifacts_block_export (H := StuckSample.text) (H0 := StoreSample.sha) ExportSample.exporter
    (XSystem StuckSample.pass.2 None) ExportSample.ref 0 e StuckSample.artifacts
    [StuckSample.summary; StuckSample.report] StuckSample.summary StuckSample.report
    StuckSample.stuck_reachable He Ht Hv);
    [vm_compute; reflexivity|by left|by right; left|reflexivity|reflexivity|].
  right. vm_compute. reflexivity.
Defined.
