(* ===== verification/Calls.v ===== *)
(** * Programs of calls

    Go code that reaches shared stores through an interface, while other goroutines and
    other processes do the same: a program is a tree whose nodes are calls and whose
    branches are the answers.  A system runs any number of such programs interleaved,
    call by call; a program may stop at any call (a crash, a cancelled context).

    The logic is rely-guarantee: [safe I G p Q w] says that, while everybody keeps the
    invariant [I] and moves the world along [G], every call of [p] does so too and the
    result satisfies [Q]. *)

From S2P Require Import Prelude.

(** The calls of an interface and what they answer. *)
Class Calls (Op : Type) := { reply : Op → Type }.

Inductive calls (Op : Type) `{!Calls Op} (A : Type) :=
  | Done (a : A)
  | Ask (o : Op) (k : reply o → calls Op A).
Arguments Done {_ _ _} _.
Arguments Ask {_ _ _} _ _.

Section monad.
Context `{!Calls Op}.

#[global] Instance calls_ret : MRet (calls Op) := λ A, Done.
#[global] Instance calls_bind : MBind (calls Op) := λ A B f,
  fix bind m :=
    match m with
    | Done a => f a
    | Ask o k => Ask o (λ r, bind (k r))
    end.

Definition ask (o : Op) : calls Op (reply o) := Ask o Done.

(** [v, err := call(); if err != nil { return err }] *)
Definition ask_ok {A B} (m : calls Op (result A)) (f : A → calls Op (result B)) :
    calls Op (result B) :=
  r ← m; match r with Ok a => f a | Err e => mret (Err e) end.

(** A check that does no call. *)
Definition check_ok {A B} (r : result A) (f : A → calls Op (result B)) : calls Op (result B) :=
  match r with Ok a => f a | Err e => mret (Err e) end.
End monad.

Notation "x ←? m ; f" := (ask_ok m (λ x, f))
  (at level 20, m at level 100, f at level 200, only parsing) : go_scope.
Notation "x ←! m ; f" := (check_ok m (λ x, f))
  (at level 20, m at level 100, f at level 200, only parsing) : go_scope.

(** ** Logs *)

Section logs.
Context `{!Calls Op}.

Record exchange := Exchange { x_op : Op; x_reply : reply x_op }.

(** The program makes these calls, gets these answers and ends with this result. *)
Fixpoint traced {A} (p : calls Op A) (l : list exchange) (b : A) : Prop :=
  match p with
  | Done a => l = [] ∧ b = a
  | Ask o k => ∃ r l', l = Exchange o r :: l' ∧ traced (k r) l' b
  end.

Lemma traced_bind {A B} (m : calls Op A) (f : A → calls Op B) l b :
  traced (m ≫= f) l b → ∃ a l1 l2, l = l1 ++ l2 ∧ traced m l1 a ∧ traced (f a) l2 b.
Proof.
  unfold mbind. revert l. induction m as [a|o k IH]; intros l Ht.
  { exists a, [], l. by split_and!. }
  destruct Ht as (r & l' & -> & Hk). destruct (IH r l' Hk) as (a & l1 & l2 & -> & Hm & Hf).
  exists a, (Exchange o r :: l1), l2. split_and!; [done| |done]. by exists r, l1.
Qed.

Lemma traced_call {B} o (f : reply o → calls Op B) l b :
  traced (r ← ask o; f r) l b → ∃ r l', l = Exchange o r :: l' ∧ traced (f r) l' b.
Proof. done. Qed.
End logs.
Arguments exchange _ {_}.

(** ** Runs without interference *)

Section run.
Context `{!Calls Op} {W : Type} (handle : ∀ o : Op, W → reply o * W).

Fixpoint run_calls {A} (p : calls Op A) (w : W) : A * W :=
  match p with
  | Done a => (a, w)
  | Ask o k => let '(r, w') := handle o w in run_calls (k r) w'
  end.

Lemma run_bind {A B} (m : calls Op A) (f : A → calls Op B) w :
  run_calls (m ≫= f) w = let '(a, w') := run_calls m w in run_calls (f a) w'.
Proof.
  unfold mbind. revert w. induction m as [a|o k IH]; intros w; [done|]. cbn.
  destruct (handle o w). apply IH.
Qed.

(** The log of a run. *)
Fixpoint run_log {A} (p : calls Op A) (w : W) : list (exchange Op) :=
  match p with
  | Done a => []
  | Ask o k => let '(r, w') := handle o w in Exchange o r :: run_log (k r) w'
  end.

Lemma traced_run {A} (p : calls Op A) w : traced p (run_log p w) (run_calls p w).1.
Proof.
  revert w. induction p as [a|o k IH]; intros w; [done|]. cbn. destruct (handle o w) as [r w'].
  exists r, (run_log (k r) w'). split; [done|]. apply IH.
Qed.
End run.

(** ** Interleavings *)

Section threads.
Context `{!Calls Op} {W A : Type}.
Context (does : ∀ o : Op, W → reply o → W → Prop) (starts : calls Op A → Prop).

Record threads := Threads { th_world : W; th_progs : list (calls Op A) }.

Inductive thread_step : threads → threads → Prop :=
  | thread_start w ps p : starts p → thread_step (Threads w ps) (Threads w (ps ++ [p]))
  | thread_call w ps1 o k ps2 r w' :
      does o w r w' →
      thread_step (Threads w (ps1 ++ Ask o k :: ps2)) (Threads w' (ps1 ++ k r :: ps2))
  | thread_stop w ps1 p ps2 : thread_step (Threads w (ps1 ++ p :: ps2)) (Threads w (ps1 ++ ps2)).

(** A program that runs alone is one of the interleavings. *)
Lemma run_thread (handle : ∀ o : Op, W → reply o * W) p w ps :
  (∀ o w, does o w (handle o w).1 (handle o w).2) →
  rtc thread_step (Threads w (ps ++ [p])) (Threads (run_calls handle p w).2 (ps ++ [Done (run_calls handle p w).1])).
Proof.
  intros Hd. revert w. induction p as [a|o k IH]; intros w; [done|]. cbn.
  specialize (Hd o w). destruct (handle o w) as [r w']. eapply rtc_l; [by apply thread_call|]. apply IH.
Qed.

(** Programs that take turns: each number of the schedule lets that program make a call. *)
Fixpoint take_turns (handle : ∀ o : Op, W → reply o * W) (schedule : list nat) (w : W)
    (ps : list (calls Op A)) : threads :=
  match schedule with
  | [] => Threads w ps
  | i :: schedule =>
      match ps !! i with
      | Some (Ask o k) => let '(r, w') := handle o w in take_turns handle schedule w' (<[i := k r]> ps)
      | _ => take_turns handle schedule w ps
      end
  end.

Lemma take_turns_steps handle schedule w ps :
  (∀ o w, does o w (handle o w).1 (handle o w).2) →
  rtc thread_step (Threads w ps) (take_turns handle schedule w ps).
Proof.
  intros Hd. revert w ps. induction schedule as [|i schedule IH]; intros w ps; [done|]. cbn.
  destruct (ps !! i) as [[a|o k]|] eqn:Hi; [apply IH| |apply IH].
  specialize (Hd o w). destruct (handle o w) as [r w']. eapply rtc_l; [|apply IH].
  rewrite <- (take_drop_middle _ _ _ Hi) at 1. rewrite insert_take_drop by by eapply lookup_lt_Some.
  by apply thread_call.
Qed.

Lemma start_all w ps qs : Forall starts qs → rtc thread_step (Threads w ps) (Threads w (ps ++ qs)).
Proof.
  intros Hq. revert ps. induction Hq as [|q qs Hq _ IH]; intros ps; [by rewrite app_nil_r|].
  eapply rtc_l; [by apply thread_start|]. rewrite (cons_middle q ps qs), app_assoc. apply IH.
Qed.

Context (I : W → Prop) (G : relation W) `{!PreOrder G}.

Fixpoint safe {B} (p : calls Op B) (Q : B → W → Prop) (w : W) : Prop :=
  match p with
  | Done a => Q a w
  | Ask o k => ∀ w1 r w2, I w1 → G w w1 → does o w1 r w2 → I w2 ∧ G w1 w2 ∧ safe (k r) Q w2
  end.

Lemma safe_bind {B C} (m : calls Op B) (f : B → calls Op C) Q w :
  safe m (λ a, safe (f a) Q) w → safe (m ≫= f) Q w.
Proof.
  unfold mbind. revert w. induction m as [a|o k IH]; intros w Hm; [done|].
  intros w1 r w2 HI HG Hd. destruct (Hm _ _ _ HI HG Hd) as (? & ? & ?). split_and!; [done..|]. by apply IH.
Qed.

Lemma safe_mono {B} (p : calls Op B) (Q Q' : B → W → Prop) w :
  safe p Q w → (∀ a w', Q a w' → Q' a w') → safe p Q' w.
Proof.
  intros Hp HQ. revert w Hp. induction p as [a|o k IH]; intros w Hp; [by apply HQ|].
  intros w1 r w2 HI HG Hd. destruct (Hp _ _ _ HI HG Hd) as (? & ? & ?). split_and!; [done..|]. by apply IH.
Qed.

(** The rule for a call. *)
Lemma safe_ask {B} o (k : reply o → calls Op B) Q w :
  (∀ w1 r w2, I w1 → G w w1 → does o w1 r w2 → I w2 ∧ G w1 w2 ∧ safe (k r) Q w2) →
  safe (r ← ask o; k r) Q w.
Proof. done. Qed.

Lemma safe_stable {B} (p : calls Op B) Q w w' :
  (∀ a w1 w2, Q a w1 → G w1 w2 → Q a w2) → G w w' → safe p Q w → safe p Q w'.
Proof.
  intros HQ Hg Hp. destruct p as [a|o k]; [by eapply HQ|].
  intros w1 r w2 HI HG Hd. apply (Hp w1 r w2 HI); [by etrans|done].
Qed.

(** A safe program whose answers satisfy [P], from a world with the invariant. *)
Definition gets {B} (m : calls Op (result B)) (P : B → W → Prop) (w : W) : Prop :=
  I w → safe m (λ r w', I w' ∧ G w w' ∧ (∀ b, r = Ok b → P b w')) w.

Lemma gets_ret {B} (r : result B) P w : (I w → ∀ b, r = Ok b → P b w) → gets (mret r) P w.
Proof. intros HP HI. split_and!; [done|reflexivity|by apply HP]. Qed.

Lemma gets_mono {B} (m : calls Op (result B)) (P R : B → W → Prop) w :
  gets m P w → (∀ b w', I w' → G w w' → P b w' → R b w') → gets m R w.
Proof.
  intros Hm HP HI. eapply safe_mono; [by apply Hm|]. cbn. intros r w' (? & ? & Hr). split_and!; [done..|].
  intros b ->. apply HP; [done..|]. by apply Hr.
Qed.

Lemma gets_bind {B C} (m : calls Op (result B)) (f : B → calls Op (result C)) P R w :
  gets m P w → (∀ b w', I w' → G w w' → P b w' → gets (f b) R w') → gets (ask_ok m f) R w.
Proof.
  intros Hm Hf HI. apply safe_bind. eapply safe_mono; [by apply Hm|]. cbn. intros [b|e] w' (HI' & HG & Hr).
  - eapply safe_mono; [by apply (Hf b w' HI' HG (Hr b eq_refl))|]. cbn. intros r w'' (? & ? & ?).
    split_and!; [done|by etrans|done].
  - by split_and!.
Qed.

Lemma gets_check {B C} (r : result B) (f : B → calls Op (result C)) R w :
  (∀ b, r = Ok b → gets (f b) R w) → gets (check_ok r f) R w.
Proof. intros Hf. destruct r as [b|e]; [by apply Hf|]. by apply gets_ret. Qed.

(** The rule for a call. *)
Lemma gets_call {B} o (k : reply o → calls Op (result B)) P w :
  (∀ w1 r w2, I w1 → G w w1 → does o w1 r w2 → I w2 ∧ G w1 w2 ∧ gets (k r) P w2) →
  gets (r ← ask o; k r) P w.
Proof.
  intros Hk HI w1 r w2 HI1 HG Hd. destruct (Hk w1 r w2 HI1 HG Hd) as (HI2 & HG2 & Hr). split_and!; [done..|].
  eapply safe_mono; [by apply Hr|]. cbn. intros x w' (? & ? & ?). split_and!; [done| |done].
  etrans; [exact HG|]. by etrans.
Qed.

(** Safe programs keep the invariant in every interleaving. *)
Lemma threads_safe s s' :
  (∀ p w, starts p → I w → safe p (λ _ _, True) w) →
  I (th_world s) → Forall (λ p, safe p (λ _ _, True) (th_world s)) (th_progs s) →
  rtc thread_step s s' →
  I (th_world s') ∧ G (th_world s) (th_world s') ∧
  Forall (λ p, safe p (λ _ _, True) (th_world s')) (th_progs s').
Proof.
  intros Hstart HI Hall Hr. induction Hr as [|s1 s2 s3 Hs _ IH]; [done|].
  assert (I (th_world s2) ∧ G (th_world s1) (th_world s2) ∧
    Forall (λ p, safe p (λ _ _, True) (th_world s2)) (th_progs s2)) as (HI2 & HG2 & Hall2).
  { destruct Hs as [w ps p Hp|w ps1 o k ps2 r w' Hd|w ps1 p ps2]; cbn in *.
    - split_and!; [done..|]. apply Forall_app. split; [done|]. constructor; [by apply Hstart|constructor].
    - apply Forall_app in Hall as [H1 [Hp H2]%Forall_cons].
      destruct (Hp w r w' HI (reflexivity w) Hd) as (? & HG & ?). split_and!; [done..|].
      assert (∀ q : calls Op A, safe q (λ _ _, True) w → safe q (λ _ _, True) w') as Hst
        by (intros q; by apply safe_stable).
      apply Forall_app. split; [by eapply Forall_impl|]. constructor; [done|by eapply Forall_impl].
    - split_and!; [done..|]. apply Forall_app in Hall as [? [_ ?]%Forall_cons]. by apply Forall_app. }
  destruct (IH HI2 Hall2) as (? & ? & ?). split_and!; [done|by etrans|done].
Qed.

(** A program that runs beside others, from one system to another, with its result. *)
Fixpoint beside {B} (p : calls Op B) (s : threads) (b : B) (s' : threads) : Prop :=
  match p with
  | Done a => b = a ∧ rtc thread_step s s'
  | Ask o k => ∃ s1 r w, rtc thread_step s s1 ∧ does o (th_world s1) r w ∧
                 beside (k r) (Threads w (th_progs s1)) b s'
  end.

(** What a safe program promises holds when it ends, whatever runs beside it. *)
Lemma safe_beside {B} (p : calls Op B) (Q : B → W → Prop) s b s' :
  (∀ p w, starts p → I w → safe p (λ _ _, True) w) → (∀ a w1 w2, Q a w1 → G w1 w2 → Q a w2) →
  I (th_world s) → Forall (λ p, safe p (λ _ _, True) (th_world s)) (th_progs s) →
  safe p Q (th_world s) → beside p s b s' →
  I (th_world s') ∧ G (th_world s) (th_world s') ∧ Q b (th_world s') ∧
  Forall (λ p, safe p (λ _ _, True) (th_world s')) (th_progs s').
Proof.
  intros Hstart HQ. revert s. induction p as [a|o k IH]; intros s HI Hall Hp Hb; cbn in Hb.
  { destruct Hb as [-> Hs]. destruct (threads_safe _ _ Hstart HI Hall Hs) as (? & HG & ?).
    split_and!; [done..| |done]. by eapply HQ. }
  destruct Hb as (s1 & r & w & Hs & Hd & Hb). destruct (threads_safe _ _ Hstart HI Hall Hs) as (HI1 & HG1 & Hall1).
  destruct (Hp _ r w HI1 HG1 Hd) as (HIw & HGw & Hk).
  assert (∀ q : calls Op A, safe q (λ _ _, True) (th_world s1) → safe q (λ _ _, True) w) as Hst
    by (intros q; by apply safe_stable).
  destruct (IH r (Threads w (th_progs s1)) HIw (Forall_impl _ _ _ Hall1 Hst) Hk Hb) as (? & HG2 & ? & ?).
  split_and!; [done| |done..]. etrans; [exact HG1|]. etrans; [exact HGw|exact HG2].
Qed.

(** The worlds that safe programs lead to. *)
Lemma threads_reach w w' ps :
  (∀ p w, starts p → safe p (λ _ _, True) w) → I w →
  rtc thread_step (Threads w []) (Threads w' ps) → I w'.
Proof.
  intros Hstart HI Hr. by destruct (threads_safe (Threads w []) (Threads w' ps)
    (λ p w Hp _, Hstart p w Hp) HI (Forall_nil_2 _) Hr).
Qed.
End threads.
Arguments Threads {_ _ _ _} _ _.
Arguments th_world {_ _ _ _} _.
Arguments th_progs {_ _ _ _} _.

(** ** Calls on a store *)

Section store.
Context {W A : Type}.

(** The answer is the store's, or the call fails before or after it took effect. *)
Definition store_call (effect : W * result A) (w : W) (r : result A) (w' : W) : Prop :=
  (w', r) = effect ∨ ∃ e, r = Err e ∧ (w' = w ∨ w' = effect.1).

Lemma store_call_ok (effect : W * result A) w r w' :
  store_call effect w r w' →
  (w' = w ∨ w' = effect.1) ∧ (∀ a, r = Ok a → w' = effect.1 ∧ effect.2 = Ok a).
Proof. intros [Heq|(e & -> & [->| ->])]; [rewrite <- Heq|..]; naive_solver. Qed.

(** A read changes nothing. *)
Lemma read_call (answer : result A) w r w' :
  store_call (w, answer) w r w' → w' = w ∧ (∀ a, r = Ok a → answer = Ok a).
Proof. intros [[= -> ->]|(e & -> & [->| ->])]; naive_solver. Qed.

(** An undisturbed call is one of the ways. *)
Lemma store_call_refl (effect : W * result A) w : store_call effect w effect.2 effect.1.
Proof. left. by destruct effect. Qed.
End store.

(** The rules for [gets]; the preorder of the guarantee is found by its instance. *)
Tactic Notation "gets_apply" uconstr(rule) :=
  eapply rule; try (lazymatch goal with |- PreOrder _ => apply _ end).
