(* ===== verification/Process.v ===== *)
(** * Durable processes

    agentos/process/process.go (the data of a process and its validation),
    internal/usecase/agentosprocess (idempotency.go, memory_store.go, runtime.go,
    subscription.go): a process belongs to a resource of an application; the runtime
    records signals and controls as events and moves the lifecycle of the process.

    The runtime makes several store calls per request and shares the store with others,
    so its operations are programs of calls ([Calls]). *)

From S2P Require Import Prelude Types Calls Graph Scope Json Idempotency.

(** ** agentos/process/process.go *)

Module process.

Record ResourceRef := {
  rr_Kind : string;
  rr_ResourceID : string;
  rr_AccountID : string;
  rr_ProjectID : string;
}.

Record Ref := {
  prf_ProcessID : string;
  prf_AccountID : string;
  prf_ProjectID : string;
}.

Record Policy := {
  ppl_TimeoutSeconds : Z;
  ppl_MaxHistoryEvents : Z;
  ppl_ContinueAsNewEvents : Z;
}.

Record TimerSpec := {
  tm_TimerID : string;
  tm_FireAt : time;
  tm_AfterSeconds : Z;
  tm_Signal : string;
  tm_Payload : go_map any;
}.

Record Spec := {
  psp_ProcessID : string;
  psp_Kind : string;
  psp_AccountID : string;
  psp_ProjectID : string;
  psp_IdempotencyKey : string;
  psp_Resource : ResourceRef;
  psp_RequestedAt : time;
  psp_Inputs : go_map any;
  psp_Metadata : go_map string;
  psp_Policy : Policy;
  psp_Timers : list TimerSpec;
}.

(** agentos/core/types.go *)
Record RunProgress := { rpr_Current : Z; rpr_Total : Z; rpr_Label : string }.

Record Status := {
  pst_ProcessID : string;
  pst_Kind : string;
  pst_AccountID : string;
  pst_ProjectID : string;
  pst_Resource : ResourceRef;
  pst_LifecycleState : string;
  pst_Reason : string;
  pst_Progress : option RunProgress;
  pst_Metadata : go_map string;
  pst_StartedAt : time;
  pst_UpdatedAt : time;
}.

Record Description := {
  pde_ProcessID : string;
  pde_Kind : string;
  pde_AccountID : string;
  pde_ProjectID : string;
  pde_Resource : ResourceRef;
  pde_Status : Status;
  pde_Policy : Policy;
  pde_Timers : list TimerSpec;
  pde_Metadata : go_map string;
  pde_UpdatedAt : time;
}.

Record StreamScope := {
  pss_ProcessID : string;
  pss_AccountID : string;
  pss_ProjectID : string;
  pss_AfterSequence : Z;
}.

Record EventScope := {
  pes_ProcessID : string;
  pes_AccountID : string;
  pes_ProjectID : string;
  pes_AfterSequence : Z;
  pes_Limit : Z;
}.

Record Scope := {
  psc_AccountID : string;
  psc_ProjectID : string;
  psc_Resource : ResourceRef;
  psc_ResourceKind : string;
  psc_Kind : string;
  psc_LifecycleState : string;
  psc_Limit : Z;
}.

(** The embedded [core.Event] has a process id of its own. *)
Record Event := {
  pv_Event : Types.Event;
  pv_ProcessID : string;
  pv_AccountID : string;
  pv_ProjectID : string;
  pv_Resource : ResourceRef;
}.

#[global] Instance ResourceRef_eq_dec : EqDecision ResourceRef.
Proof. solve_decision. Defined.
#[global] Instance Policy_eq_dec : EqDecision Policy.
Proof. solve_decision. Defined.

Definition zero_ResourceRef : ResourceRef := {|
  rr_Kind := ""; rr_ResourceID := ""; rr_AccountID := ""; rr_ProjectID := "" |}.
Definition zero_Policy : Policy := {|
  ppl_TimeoutSeconds := 0; ppl_MaxHistoryEvents := 0; ppl_ContinueAsNewEvents := 0 |}.

Definition ProcessPending : string := "pending".
Definition ProcessRunning : string := "running".
Definition ProcessWaiting : string := "waiting".
Definition ProcessBlocked : string := "blocked".
Definition ProcessSucceeded : string := "succeeded".
Definition ProcessFailed : string := "failed".
Definition ProcessCanceled : string := "canceled".

Definition zero_Event : Types.Event := {|
  e_EventID := ""; e_EventType := ""; e_RunID := ""; e_ProcessID := ""; e_ThreadID := "";
  e_Sequence := 0; e_Timestamp := zero_time; e_Source := ""; e_Payload := None |}.

Definition ToEvent (event : option Event) : Types.Event :=
  match event with
  | None => zero_Event
  | Some event =>
      let generic := pv_Event event in
      let payload := default ∅ (e_Payload generic) in
      let payload := <["process_id" := AString (pv_ProcessID event)]> payload in
      let payload := <["account_id" := AString (pv_AccountID event)]> payload in
      let payload := <["project_id" := AString (pv_ProjectID event)]> payload in
      let payload := <["resource_kind" := AString (rr_Kind (pv_Resource event))]> payload in
      let payload := <["resource_id" := AString (rr_ResourceID (pv_Resource event))]> payload in
      {| generic with e_ProcessID := pv_ProcessID event; e_Payload := Some payload |}
  end.

Definition ValidateResourceRef (ref : ResourceRef) : result unit :=
  fail_if (rr_Kind ref == "") (Errorf ErrInvalidResourceRef "resource kind is required");;
  fail_if (rr_ResourceID ref == "") (Errorf ErrInvalidResourceRef "resource id is required");;
  fail_if (rr_AccountID ref == "") (Errorf ErrInvalidResourceRef "account id is required");;
  fail_if (rr_ProjectID ref == "") (Errorf ErrInvalidResourceRef "project id is required").

Definition ValidateProcessRef (ref : Ref) : result unit :=
  fail_if (prf_ProcessID ref == "") (Errorf ErrInvalidProcessScope "process id is required");;
  fail_if (prf_AccountID ref == "") (Errorf ErrInvalidProcessScope "account id is required");;
  fail_if (prf_ProjectID ref == "") (Errorf ErrInvalidProcessScope "project id is required").

Definition validateProcessStartIdentity (spec : Spec) : result unit :=
  fail_if (psp_ProcessID spec == "") (Errorf ErrInvalidProcess "process id is required");;
  fail_if (psp_Kind spec == "") (Errorf ErrInvalidProcess "process kind is required");;
  fail_if (psp_AccountID spec == "") (Errorf ErrInvalidProcess "account id is required");;
  fail_if (psp_ProjectID spec == "") (Errorf ErrInvalidProcess "project id is required");;
  fail_if (psp_IdempotencyKey spec == "") (Errorf ErrInvalidProcess "idempotency key is required");;
  ValidateResourceRef (psp_Resource spec);;
  fail_if (rr_AccountID (psp_Resource spec) != psp_AccountID spec)
    (Errorf ErrInvalidProcess "resource account %q does not match process account %q");;
  fail_if (rr_ProjectID (psp_Resource spec) != psp_ProjectID spec)
    (Errorf ErrInvalidProcess "resource project %q does not match process project %q").

Definition validateProcessPolicy (policy : Policy) : result unit :=
  fail_if (ppl_TimeoutSeconds policy <? 0)%Z
    (Errorf ErrInvalidProcess "timeout seconds must be non-negative");;
  fail_if (ppl_MaxHistoryEvents policy <? 0)%Z
    (Errorf ErrInvalidProcess "max history events must be non-negative");;
  fail_if (ppl_ContinueAsNewEvents policy <? 0)%Z
    (Errorf ErrInvalidProcess "continue-as-new events must be non-negative");;
  fail_if ((0 <? ppl_MaxHistoryEvents policy) &&
           (ppl_MaxHistoryEvents policy <? ppl_ContinueAsNewEvents policy))%Z
    (Errorf ErrInvalidProcess "continue-as-new events %d exceeds max history events %d").

Definition validateProcessTimer (timer : TimerSpec) : result unit :=
  fail_if (tm_TimerID timer == "") (Errorf ErrInvalidProcess "timer id is required");;
  fail_if (negb (time_is_zero (tm_FireAt timer)) && (0 <? tm_AfterSeconds timer)%Z)
    (Errorf ErrInvalidProcess "timer %q must use fire_at or after_seconds, not both");;
  fail_if (time_is_zero (tm_FireAt timer) && (tm_AfterSeconds timer <=? 0)%Z)
    (Errorf ErrInvalidProcess "timer %q schedule is required");;
  fail_if (tm_AfterSeconds timer <? 0)%Z
    (Errorf ErrInvalidProcess "timer %q after_seconds must be non-negative").

Definition ValidateProcessSpec (spec : option Spec) : result unit :=
  match spec with
  | None => Err (Errorf ErrInvalidProcess "process spec is required")
  | Some spec =>
      validateProcessStartIdentity spec;;
      validateProcessPolicy (psp_Policy spec);;
      forM validateProcessTimer (psp_Timers spec)
  end.

Definition ValidateProcessStreamScope (scope : option StreamScope) : result unit :=
  match scope with
  | None => Err (Errorf ErrInvalidProcessScope "process stream scope is required")
  | Some scope =>
      ValidateProcessRef {| prf_ProcessID := pss_ProcessID scope; prf_AccountID := pss_AccountID scope;
                            prf_ProjectID := pss_ProjectID scope |}
  end.

Definition ValidateProcessEventScope (scope : option EventScope) : result unit :=
  match scope with
  | None => Err (Errorf ErrInvalidProcessScope "process event scope is required")
  | Some scope =>
      fail_if (pes_Limit scope <? 0)%Z
        (Errorf ErrInvalidProcessScope "limit must be non-negative");;
      ValidateProcessRef {| prf_ProcessID := pes_ProcessID scope; prf_AccountID := pes_AccountID scope;
                            prf_ProjectID := pes_ProjectID scope |}
  end.

Definition validateOptionalScopeResource (accountID projectID : string) (resource : ResourceRef) :
    result unit :=
  if (rr_Kind resource == "") && (rr_ResourceID resource == "") && (rr_AccountID resource == "") &&
     (rr_ProjectID resource == "") then Ok tt else
  map_err (λ _, Errorf ErrInvalidProcessScope "%w") (ValidateResourceRef resource);;
  fail_if ((rr_AccountID resource != accountID) || (rr_ProjectID resource != projectID))
    (Errorf ErrInvalidProcessScope "resource must be in process tenant scope").

Definition ValidateScope (scope : option Scope) : result unit :=
  match scope with
  | None => Err (Errorf ErrInvalidProcessScope "process scope is required")
  | Some scope =>
      fail_if (psc_AccountID scope == "") (Errorf ErrInvalidProcessScope "account id is required");;
      fail_if (psc_ProjectID scope == "") (Errorf ErrInvalidProcessScope "project id is required");;
      fail_if (psc_Limit scope <? 0)%Z
        (Errorf ErrInvalidProcessScope "limit must be non-negative");;
      validateOptionalScopeResource (psc_AccountID scope) (psc_ProjectID scope) (psc_Resource scope)
  end.

(** ** JSON *)

Definition enc_ResourceRef (r : ResourceRef) : json := JObject
  (field "kind" (JString (rr_Kind r)) ++
   field "resource_id" (JString (rr_ResourceID r)) ++
   field "account_id" (JString (rr_AccountID r)) ++
   field "project_id" (JString (rr_ProjectID r))).

Definition enc_Policy (p : Policy) : json := JObject
  (omit_int "timeout_seconds" (ppl_TimeoutSeconds p) ++
   omit_int "max_history_events" (ppl_MaxHistoryEvents p) ++
   omit_int "continue_as_new_events" (ppl_ContinueAsNewEvents p)).

Definition enc_TimerSpec (t : TimerSpec) : json := JObject
  (field "timer_id" (JString (tm_TimerID t)) ++
   omit_time "fire_at" (tm_FireAt t) ++
   omit_int "after_seconds" (tm_AfterSeconds t) ++
   omit_string "signal" (tm_Signal t) ++
   omit_map "payload" enc_any (tm_Payload t)).

Definition enc_Spec (s : Spec) : json := JObject
  (field "process_id" (JString (psp_ProcessID s)) ++
   field "kind" (JString (psp_Kind s)) ++
   field "account_id" (JString (psp_AccountID s)) ++
   field "project_id" (JString (psp_ProjectID s)) ++
   field "idempotency_key" (JString (psp_IdempotencyKey s)) ++
   field "resource" (enc_ResourceRef (psp_Resource s)) ++
   omit_time "requested_at" (psp_RequestedAt s) ++
   omit_map "inputs" enc_any (psp_Inputs s) ++
   omit_map "metadata" JString (psp_Metadata s) ++
   omit (bool_decide (psp_Policy s = zero_Policy)) "policy" (enc_Policy (psp_Policy s)) ++
   omit_list "timers" enc_TimerSpec (psp_Timers s)).

(** The process id of the envelope hides the one of the embedded event. *)
Definition enc_Event (e : Event) : json :=
  let core := pv_Event e in JObject
  (field "event_id" (JString (e_EventID core)) ++
   field "event_type" (JString (e_EventType core)) ++
   omit_string "run_id" (e_RunID core) ++
   omit_string "thread_id" (e_ThreadID core) ++
   omit_int "sequence" (e_Sequence core) ++
   field "timestamp" (enc_time (e_Timestamp core)) ++
   omit_string "source" (e_Source core) ++
   omit_map "payload" enc_any (e_Payload core) ++
   field "process_id" (JString (pv_ProcessID e)) ++
   field "account_id" (JString (pv_AccountID e)) ++
   field "project_id" (JString (pv_ProjectID e)) ++
   omit (bool_decide (pv_Resource e = zero_ResourceRef)) "resource" (enc_ResourceRef (pv_Resource e))).
End process.
Import process.

(** ** memory_store.go *)

Record processStartKey := {
  psk_AccountID : string;
  psk_ProjectID : string;
  psk_IdempotencyKey : string;
}.

Record processEventIdempotencyKey := ProcessKey {
  pek_ProcessID : string;
  pek_IdempotencyKey : string;
}.

#[global] Instance processStartKey_eq_dec : EqDecision processStartKey.
Proof. solve_decision. Defined.
#[global] Instance processStartKey_countable : Countable processStartKey.
Proof.
  refine (inj_countable' (λ k, (psk_AccountID k, psk_ProjectID k, psk_IdempotencyKey k))
    (λ '(a, p, k), {| psk_AccountID := a; psk_ProjectID := p; psk_IdempotencyKey := k |}) _).
  by intros [].
Defined.
#[global] Instance processEventIdempotencyKey_eq_dec : EqDecision processEventIdempotencyKey.
Proof. solve_decision. Defined.
#[global] Instance processEventIdempotencyKey_countable : Countable processEventIdempotencyKey.
Proof.
  refine (inj_countable' (λ k, (pek_ProcessID k, pek_IdempotencyKey k))
    (λ '(p, k), ProcessKey p k) _). by intros [].
Defined.

Record MemoryStore := {
  specs : gmap string Spec;
  statuses : gmap string Status;
  startKeys : gmap processStartKey string;
  statusKeys : gmap processEventIdempotencyKey Status;
  events : gmap string (list Event);
  eventKeys : gmap processEventIdempotencyKey Event;
}.

Definition NewMemoryStore : MemoryStore := {|
  specs := ∅; statuses := ∅; startKeys := ∅; statusKeys := ∅; events := ∅; eventKeys := ∅ |}.

(** A copy of an empty map is nil. *)
Definition cloneAnyMap (input : go_map any) : go_map any :=
  match input with
  | None => None
  | Some m => if bool_decide (size m = 0) then None else Some m
  end.

Definition cloneStringMap (input : go_map string) : go_map string :=
  match input with
  | None => None
  | Some m => if bool_decide (size m = 0) then None else Some m
  end.

Definition cloneProcessSpec (spec : Spec) : Spec :=
  {| spec with psp_Inputs := cloneAnyMap (psp_Inputs spec);
               psp_Metadata := cloneStringMap (psp_Metadata spec) |}.

Definition cloneProcessStatus (status : Status) : Status :=
  {| status with pst_Metadata := cloneStringMap (pst_Metadata status) |}.

Definition cloneProcessEvent (event : Event) : Event :=
  let core := pv_Event event in
  {| event with pv_Event := {| core with e_Payload := cloneAnyMap (e_Payload core) |} |}.

(** *** idempotency.go *)

Definition ValidateProcessStartIdempotency (existing requested : Spec) : result unit :=
  fail_if (psp_ProcessID existing != psp_ProcessID requested)
    (Errorf ErrInvalidProcess "process idempotency key belongs to process %q");;
  fail_if (psp_IdempotencyKey existing != psp_IdempotencyKey requested)
    (Errorf ErrInvalidProcess "process %q was started with a different idempotency key");;
  same_json ErrInvalidProcess "process start request" (enc_Spec existing) (enc_Spec requested)
    "process %q idempotency key was reused with a different request".

Definition ValidateProcessEventIdempotency (existing requested : Event) : result unit :=
  fail_if (e_EventID (pv_Event existing) != e_EventID (pv_Event requested))
    (Errorf ErrInvalidProcess "process event idempotency key belongs to event %q");;
  fail_if (e_Sequence (pv_Event existing) != e_Sequence (pv_Event requested))
    (Errorf ErrInvalidProcess "process event idempotency key belongs to sequence %d");;
  same_json ErrInvalidProcess "process event" (enc_Event existing) (enc_Event requested)
    "process event idempotency key was reused with a different event".

(** *** Checks *)

Definition err_process_not_found : go_error := Errorf ErrProcessRouteNotFound "process not found".
Definition err_process_missing : go_error := Errorf ErrProcessRouteNotFound "process %q not found".

Definition validateProcessTenantAccess (ref : Ref) (spec : Spec) : result unit :=
  fail_if (prf_AccountID ref != psp_AccountID spec) err_process_not_found;;
  fail_if (prf_ProjectID ref != psp_ProjectID spec) err_process_not_found.

Definition validateProcessStatusScope (status : Status) (spec : Spec) : result unit :=
  fail_if (pst_AccountID status != psp_AccountID spec) err_process_not_found;;
  fail_if (pst_ProjectID status != psp_ProjectID spec) err_process_not_found;;
  fail_if (pst_Resource status != psp_Resource spec)
    (Errorf ErrInvalidProcess "process resource scope changed").

Definition validateCreateProcessInput (spec : option Spec) (status : option Status) :
    result (Spec * Status) :=
  ValidateProcessSpec spec;;
  match spec, status with
  | Some spec, Some status =>
      fail_if ((pst_ProcessID status != "") && (pst_ProcessID status != psp_ProcessID spec))
        (Errorf ErrInvalidProcess "process status belongs to process %q");;
      Ok (spec, status)
  | _, _ => Err (Errorf ErrInvalidProcess "process status is required")
  end.

Definition validateUpdateProcessStatusInput (status : option Status) (idempotencyKey : string) :
    result Status :=
  match status with
  | None => Err (Errorf ErrInvalidProcess "process status is required")
  | Some status =>
      fail_if (idempotencyKey == "")
        (Errorf ErrInvalidProcess "process status idempotency key is required");;
      fail_if (pst_ProcessID status == "") (Errorf ErrInvalidProcess "process id is required");;
      fail_if (pst_AccountID status == "") (Errorf ErrInvalidProcess "account id is required");;
      fail_if (pst_ProjectID status == "") (Errorf ErrInvalidProcess "project id is required");;
      fail_if (pst_LifecycleState status == "")
        (Errorf ErrInvalidProcess "lifecycle state is required");;
      ValidateResourceRef (pst_Resource status);;
      Ok status
  end.

Definition validateAppendProcessEventInput (event : option Event) (idempotencyKey : string) :
    result Event :=
  match event with
  | None => Err (Errorf ErrInvalidProcess "process event is required")
  | Some event =>
      fail_if (idempotencyKey == "")
        (Errorf ErrInvalidProcess "process event idempotency key is required");;
      ValidateResourceRef (pv_Resource event);;
      ValidateProcessRef {| prf_ProcessID := pv_ProcessID event; prf_AccountID := pv_AccountID event;
                            prf_ProjectID := pv_ProjectID event |};;
      fail_if (rr_AccountID (pv_Resource event) != pv_AccountID event)
        (Errorf ErrInvalidProcess "event resource account %q does not match event account %q");;
      fail_if (rr_ProjectID (pv_Resource event) != pv_ProjectID event)
        (Errorf ErrInvalidProcess "event resource project %q does not match event project %q");;
      fail_if (e_EventType (pv_Event event) == "")
        (Errorf ErrInvalidProcess "process event type is required");;
      Ok event
  end.

(** *** Normalization *)

Definition normalizeProcessStatus (spec : Spec) (status : Status) : Status :=
  let out := cloneProcessStatus status in
  let out := {| out with
    pst_ProcessID := psp_ProcessID spec; pst_Kind := psp_Kind spec;
    pst_AccountID := psp_AccountID spec; pst_ProjectID := psp_ProjectID spec;
    pst_Resource := psp_Resource spec |} in
  let out := if pst_LifecycleState out == "" then {| out with pst_LifecycleState := ProcessPending |}
             else out in
  let out := if time_is_zero (pst_StartedAt out) then {| out with pst_StartedAt := psp_RequestedAt spec |}
             else out in
  if time_is_zero (pst_UpdatedAt out) then {| out with pst_UpdatedAt := pst_StartedAt out |} else out.

Definition prepareProcessEvent (now : time) (event : Event) (eventID : string) (sequence : Z) : Event :=
  let out := cloneProcessEvent event in
  let core := pv_Event out in
  {| out with pv_Event := {| core with
       e_EventID := eventID; e_Sequence := sequence; e_ProcessID := pv_ProcessID event;
       e_Timestamp := if time_is_zero (e_Timestamp core) then now else e_Timestamp core |} |}.

Definition processStartKeyFromSpec (spec : Spec) : processStartKey := {|
  psk_AccountID := psp_AccountID spec; psk_ProjectID := psp_ProjectID spec;
  psk_IdempotencyKey := psp_IdempotencyKey spec |}.

Definition processRefFromEventScope (scope : EventScope) : Ref := {|
  prf_ProcessID := pes_ProcessID scope; prf_AccountID := pes_AccountID scope;
  prf_ProjectID := pes_ProjectID scope |}.

(** The zero values a Go map returns for a missing key. *)
Definition zero_Spec : Spec := {|
  psp_ProcessID := ""; psp_Kind := ""; psp_AccountID := ""; psp_ProjectID := "";
  psp_IdempotencyKey := ""; psp_Resource := zero_ResourceRef; psp_RequestedAt := zero_time;
  psp_Inputs := None; psp_Metadata := None; psp_Policy := zero_Policy; psp_Timers := [] |}.
Definition zero_Status : Status := {|
  pst_ProcessID := ""; pst_Kind := ""; pst_AccountID := ""; pst_ProjectID := "";
  pst_Resource := zero_ResourceRef; pst_LifecycleState := ""; pst_Reason := ""; pst_Progress := None;
  pst_Metadata := None; pst_StartedAt := zero_time; pst_UpdatedAt := zero_time |}.

(** *** Operations *)

Definition lookupExistingProcessLocked (s : MemoryStore) (key : processStartKey) (spec : Spec) :
    result (option Status) :=
  match startKeys s !! key with
  | None => Ok None
  | Some existingProcessID =>
      ValidateProcessStartIdempotency (default zero_Spec (specs s !! existingProcessID)) spec;;
      Ok (Some (cloneProcessStatus (default zero_Status (statuses s !! existingProcessID))))
  end.

Definition lookupExistingProcessIDLocked (s : MemoryStore) (spec : Spec) : result (option Status) :=
  match specs s !! psp_ProcessID spec with
  | None => Ok None
  | Some existingSpec =>
      ValidateProcessStartIdempotency existingSpec spec;;
      Ok (Some (cloneProcessStatus (default zero_Status (statuses s !! psp_ProcessID spec))))
  end.

(** The status and whether the process was created by this call. *)
Definition CreateProcess (s : MemoryStore) (spec : option Spec) (status : option Status) :
    MemoryStore * result (Status * bool) :=
  match validateCreateProcessInput spec status with
  | Err e => (s, Err e)
  | Ok (spec, status) =>
      let key := processStartKeyFromSpec spec in
      match lookupExistingProcessLocked s key spec with
      | Err e => (s, Err e)
      | Ok (Some existing) => (s, Ok (existing, false))
      | Ok None =>
          match lookupExistingProcessIDLocked s spec with
          | Err e => (s, Err e)
          | Ok (Some existing) => (s, Ok (existing, false))
          | Ok None =>
              let preparedStatus := normalizeProcessStatus spec status in
              ({| s with
                  specs := <[psp_ProcessID spec := cloneProcessSpec spec]> (specs s);
                  statuses := <[psp_ProcessID spec := preparedStatus]> (statuses s);
                  startKeys := <[key := psp_ProcessID spec]> (startKeys s) |},
               Ok (cloneProcessStatus preparedStatus, true))
          end
      end
  end.

Definition GetProcessByRef (s : MemoryStore) (ref : Ref) : result (option (Spec * Status)) :=
  ValidateProcessRef ref;;
  match specs s !! prf_ProcessID ref with
  | None => Ok None
  | Some spec =>
      validateProcessTenantAccess ref spec;;
      Ok (Some (cloneProcessSpec spec,
                cloneProcessStatus (default zero_Status (statuses s !! prf_ProcessID ref))))
  end.

Definition processStatusMatchesResource (status : Status) (scope : Scope) : bool :=
  if (rr_Kind (psc_Resource scope) != "") && (pst_Resource status != psc_Resource scope) then false
  else (psc_ResourceKind scope == "") || (rr_Kind (pst_Resource status) == psc_ResourceKind scope).

Definition processStatusMatchesKind (spec : Spec) (scope : Scope) : bool :=
  (psc_Kind scope == "") || (psp_Kind spec == psc_Kind scope).

Definition processStatusMatchesLifecycle (status : Status) (scope : Scope) : bool :=
  (psc_LifecycleState scope == "") || (pst_LifecycleState status == psc_LifecycleState scope).

Definition processStatusMatchesScope (spec : Spec) (status : Status) (scope : Scope) : bool :=
  if (pst_AccountID status != psc_AccountID scope) || (pst_ProjectID status != psc_ProjectID scope)
  then false
  else processStatusMatchesResource status scope && processStatusMatchesKind spec scope &&
       processStatusMatchesLifecycle status scope.

(** Newest first, then by process id. *)
Definition status_le (x y : Status) : Prop :=
  if pst_UpdatedAt x == pst_UpdatedAt y then String.le (pst_ProcessID x) (pst_ProcessID y)
  else (pst_UpdatedAt y < pst_UpdatedAt x)%Z.

#[global] Instance status_le_dec : RelDecision status_le.
Proof. intros x y. unfold status_le. destruct (bool_decide _); apply _. Defined.

(** [if limit > 0 && len(l) > limit { l = l[:limit] }] *)
Definition limited {A} (limit : Z) (l : list A) : list A :=
  if ((0 <? limit) && (limit <? Z.of_nat (length l)))%Z then take (Z.to_nat limit) l else l.

Definition ListProcesses (s : MemoryStore) (scope : option Scope) : result (list Status) :=
  ValidateScope scope;;
  match scope with
  | None => Ok []
  | Some scope =>
      let matching := omap (λ '(processID, status),
        if processStatusMatchesScope (default zero_Spec (specs s !! processID)) status scope
        then Some (cloneProcessStatus status) else None) (map_to_list (statuses s)) in
      Ok (limited (psc_Limit scope) (merge_sort status_le matching))
  end.

Definition UpdateProcessStatus (s : MemoryStore) (status : option Status) (idempotencyKey : string) :
    MemoryStore * result Status :=
  match validateUpdateProcessStatusInput status idempotencyKey with
  | Err e => (s, Err e)
  | Ok status =>
      let key := ProcessKey (pst_ProcessID status) idempotencyKey in
      match statusKeys s !! key with
      | Some existing => (s, Ok (cloneProcessStatus existing))
      | None =>
          match specs s !! pst_ProcessID status with
          | None => (s, Err err_process_missing)
          | Some spec =>
              match validateProcessStatusScope status spec with
              | Err e => (s, Err e)
              | Ok _ =>
                  let prepared := normalizeProcessStatus spec status in
                  ({| s with
                      statuses := <[pst_ProcessID status := prepared]> (statuses s);
                      statusKeys := <[key := prepared]> (statusKeys s) |},
                   Ok (cloneProcessStatus prepared))
              end
          end
      end
  end.

(** [now] is the clock when the call reads it. *)
Definition AppendProcessEvent (now : time) (s : MemoryStore) (event : option Event)
    (idempotencyKey : string) : MemoryStore * result Event :=
  match validateAppendProcessEventInput event idempotencyKey with
  | Err e => (s, Err e)
  | Ok event =>
      let key := ProcessKey (pv_ProcessID event) idempotencyKey in
      match eventKeys s !! key with
      | Some existing =>
          let requested := prepareProcessEvent now event (e_EventID (pv_Event existing))
                             (e_Sequence (pv_Event existing)) in
          (s, ValidateProcessEventIdempotency existing requested;; Ok (cloneProcessEvent existing))
      | None =>
          match specs s !! pv_ProcessID event with
          | None => (s, Err err_process_missing)
          | Some _ =>
              let sequence := Z.of_nat (length (get_list (events s) (pv_ProcessID event)) + 1) in
              let stored := prepareProcessEvent now event
                (pv_ProcessID event +:+ "-event-" +:+ pretty sequence) sequence in
              ({| s with
                  events := push (events s) (pv_ProcessID event) stored;
                  eventKeys := <[key := stored]> (eventKeys s) |},
               Ok (cloneProcessEvent stored))
          end
      end
  end.

Definition process_event_le (x y : Event) : Prop :=
  (e_Sequence (pv_Event x) ≤ e_Sequence (pv_Event y))%Z.

#[global] Instance process_event_le_dec : RelDecision process_event_le.
Proof. intros x y. unfold process_event_le. apply _. Defined.

Definition ListProcessEvents (s : MemoryStore) (scope : option EventScope) : result (list Event) :=
  ValidateProcessEventScope scope;;
  match scope with
  | None => Ok []
  | Some scope =>
      match specs s !! pes_ProcessID scope with
      | None => Err err_process_missing
      | Some spec =>
          validateProcessTenantAccess (processRefFromEventScope scope) spec;;
          let filtered := omap (λ event,
            if (e_Sequence (pv_Event event) <=? pes_AfterSequence scope)%Z then None
            else Some (cloneProcessEvent event)) (get_list (events s) (pes_ProcessID scope)) in
          Ok (limited (pes_Limit scope) (merge_sort process_event_le filtered))
      end
  end.

(** ** runtime.go *)

(** The calls of a runtime: the methods of ProcessIndex and ProcessEventStore, and the
    clock. *)
Inductive process_op :=
  | PCreateProcess (spec : option Spec) (status : option Status)
  | PGetProcessByRef (ref : Ref)
  | PListProcesses (scope : option Scope)
  | PUpdateProcessStatus (status : option Status) (idempotencyKey : string)
  | PAppendProcessEvent (event : option Event) (idempotencyKey : string)
  | PListProcessEvents (scope : option EventScope)
  | PNow.

#[global] Instance process_calls : Calls process_op := {|
  reply o :=
    match o with
    | PCreateProcess _ _ => result (Status * bool)
    | PGetProcessByRef _ => result (option (Spec * Status))
    | PListProcesses _ => result (list Status)
    | PUpdateProcessStatus _ _ => result Status
    | PAppendProcessEvent _ _ => result Event
    | PListProcessEvents _ => result (list Event)
    | PNow => time
    end |}.

Abbreviation pprog := (calls process_op) (only parsing).

Record Runtime := { rt_index : bool; rt_events : bool }.

Definition NewRuntime (index events : bool) : result Runtime :=
  fail_if (negb index) (Errorf ErrProcessRouteNotFound "process index is required");;
  fail_if (negb events) (Errorf ErrProcessRouteNotFound "process event store is required");;
  Ok {| rt_index := index; rt_events := events |}.

(** [if t.IsZero() { t = time.Now().UTC() }] *)
Definition or_now (t : time) : pprog time :=
  if time_is_zero t then ask PNow else mret t.

Definition EventProcessStarted : string := "process.started".
Definition EventProcessSignalReceived : string := "process.signal.received".
Definition EventProcessControlReceived : string := "process.control.received".

Definition processEvent (spec : Spec) (eventType : string) (timestamp : time) (payload : go_map any) :
    Event := {|
  pv_Event := {| zero_Event with
    e_EventType := eventType; e_ProcessID := psp_ProcessID spec; e_Timestamp := timestamp;
    e_Payload := payload |};
  pv_ProcessID := psp_ProcessID spec; pv_AccountID := psp_AccountID spec;
  pv_ProjectID := psp_ProjectID spec; pv_Resource := psp_Resource spec |}.

Definition initialProcessStatus (spec : Spec) : pprog Status :=
  now ← or_now (psp_RequestedAt spec);
  mret {| pst_ProcessID := psp_ProcessID spec; pst_Kind := psp_Kind spec;
          pst_AccountID := psp_AccountID spec; pst_ProjectID := psp_ProjectID spec;
          pst_Resource := psp_Resource spec; pst_LifecycleState := ProcessRunning;
          pst_Reason := ""; pst_Progress := None; pst_Metadata := cloneStringMap (psp_Metadata spec);
          pst_StartedAt := now; pst_UpdatedAt := now |}.

Definition processStartedEvent (spec : Spec) (status : Status) : pprog Event :=
  timestamp ← or_now (pst_StartedAt status);
  mret (processEvent spec EventProcessStarted timestamp (Some
    (<["lifecycle_state" := AString (pst_LifecycleState status)]>
     (<["resource_kind" := AString (rr_Kind (psp_Resource spec))]>
      {["resource_id" := AString (rr_ResourceID (psp_Resource spec))]})))).

Definition signal_payload (signal : Signal) : go_map any := Some
  (<["signal_type" := AString (sig_Type signal)]>
   (<["actor_id" := AString (sig_ActorID signal)]>
    {["payload" := any_of_map (cloneAnyMap (sig_Payload signal))]})).

Definition processSignalEvent (spec : Spec) (signal : Signal) : pprog Event :=
  timestamp ← or_now (sig_SentAt signal);
  mret (processEvent spec EventProcessSignalReceived timestamp (signal_payload signal)).

Definition control_payload (control : ControlRequest) : go_map any := Some
  (<["operation" := AString (ctl_Operation control)]>
   (<["actor_id" := AString (ctl_ActorID control)]>
    {["metadata" := AValue (VStringMap (cloneStringMap (ctl_Metadata control)))]})).

Definition processControlEvent (spec : Spec) (control : ControlRequest) : pprog Event :=
  timestamp ← or_now (ctl_RequestedAt control);
  mret (processEvent spec EventProcessControlReceived timestamp (control_payload control)).

Definition processLifecycleAfterSignal (current : string) : string :=
  if (current == ProcessWaiting) || (current == ProcessBlocked) then ProcessRunning else current.

Definition processLifecycleAfterControl (current operation : string) : string :=
  if operation == ControlPause then ProcessWaiting
  else if operation == ControlResume then ProcessRunning
  else if operation == ControlCancel then ProcessCanceled
  else current.

Definition validateProcessSignal (signal : option Signal) : result Signal :=
  match signal with
  | None => Err (Errorf ErrInvalidSignal "process signal is required")
  | Some signal =>
      fail_if (sig_Type signal == "") (Errorf ErrInvalidSignal "process signal type is required");;
      fail_if (sig_IdempotencyKey signal == "")
        (Errorf ErrInvalidSignal "process signal idempotency key is required");;
      Ok signal
  end.

Definition StartProcess (spec : option Spec) : pprog (result Status) :=
  _ ←! ValidateProcessSpec spec;
  match spec with
  | None => mret (Err (Errorf ErrInvalidProcess "process spec is required"))
  | Some spec =>
      status ← initialProcessStatus spec;
      answer ←? ask (PCreateProcess (Some spec) (Some status));
      let '(status, created) := answer in
      if negb created then mret (Ok status) else
      event ← processStartedEvent spec status;
      _ ←? ask (PAppendProcessEvent (Some event) (psp_IdempotencyKey spec));
      mret (Ok status)
  end.

Definition requireProcess (ref : Ref) : pprog (result (Spec * Status)) :=
  found ←? ask (PGetProcessByRef ref);
  mret (match found with None => Err err_process_missing | Some found => Ok found end).

Definition StatusProcess (ref : Ref) : pprog (result Status) :=
  found ←? ask (PGetProcessByRef ref);
  mret (match found with None => Err err_process_missing | Some (_, status) => Ok status end).

Definition DescribeProcess (ref : Ref) : pprog (result Description) :=
  found ←? ask (PGetProcessByRef ref);
  mret (match found with
        | None => Err err_process_missing
        | Some (spec, status) => Ok {|
            pde_ProcessID := psp_ProcessID spec; pde_Kind := psp_Kind spec;
            pde_AccountID := psp_AccountID spec; pde_ProjectID := psp_ProjectID spec;
            pde_Resource := psp_Resource spec; pde_Status := status; pde_Policy := psp_Policy spec;
            pde_Timers := psp_Timers spec; pde_Metadata := cloneStringMap (psp_Metadata spec);
            pde_UpdatedAt := pst_UpdatedAt status |}
        end).

Definition SignalProcess (ref : Ref) (signal : option Signal) : pprog (result unit) :=
  found ←? requireProcess ref;
  let '(spec, status) := found in
  signal ←! validateProcessSignal signal;
  event ← processSignalEvent spec signal;
  _ ←? ask (PAppendProcessEvent (Some event) (sig_IdempotencyKey signal));
  updatedAt ← or_now (sig_SentAt signal);
  let next := {| status with
    pst_LifecycleState := processLifecycleAfterSignal (pst_LifecycleState status);
    pst_UpdatedAt := updatedAt |} in
  _ ←? ask (PUpdateProcessStatus (Some next) (sig_IdempotencyKey signal));
  mret (Ok tt).

Definition ControlProcess (ref : Ref) (control : option ControlRequest) : pprog (result unit) :=
  found ←? requireProcess ref;
  let '(spec, status) := found in
  _ ←! ValidateControlRequest control;
  let control := default zero_ControlRequest control in
  _ ←! fail_if (ctl_IdempotencyKey control == "")
         (Errorf ErrInvalidProcess "process control idempotency key is required");
  event ← processControlEvent spec control;
  _ ←? ask (PAppendProcessEvent (Some event) (ctl_IdempotencyKey control));
  updatedAt ← or_now (ctl_RequestedAt control);
  let next := {| status with
    pst_LifecycleState := processLifecycleAfterControl (pst_LifecycleState status)
                            (ctl_Operation control);
    pst_UpdatedAt := updatedAt |} in
  _ ←? ask (PUpdateProcessStatus (Some next) (ctl_IdempotencyKey control));
  mret (Ok tt).

(** subscription.go: the channel holds the events and is closed. *)
Definition newReplaySubscription (processEvents : list Event) : list Types.Event :=
  (λ event, ToEvent (Some event)) <$> processEvents.

Definition SubscribeProcess (scope : option StreamScope) : pprog (result (list Types.Event)) :=
  _ ←! ValidateProcessStreamScope scope;
  match scope with
  | None => mret (Err (Errorf ErrInvalidProcessScope "process stream scope is required"))
  | Some scope =>
      events ←? ask (PListProcessEvents (Some {|
        pes_ProcessID := pss_ProcessID scope; pes_AccountID := pss_AccountID scope;
        pes_ProjectID := pss_ProjectID scope; pes_AfterSequence := pss_AfterSequence scope;
        pes_Limit := 0 |}));
      mret (Ok (newReplaySubscription events))
  end.

(** ** What a call does *)

Definition process_does (o : process_op) (s : MemoryStore) : reply o → MemoryStore → Prop :=
  match o with
  | PCreateProcess spec status => store_call (CreateProcess s spec status) s
  | PGetProcessByRef ref => store_call (s, GetProcessByRef s ref) s
  | PListProcesses scope => store_call (s, ListProcesses s scope) s
  | PUpdateProcessStatus status key => store_call (UpdateProcessStatus s status key) s
  | PAppendProcessEvent event key => λ r s', ∃ now, store_call (AppendProcessEvent now s event key) s r s'
  | PListProcessEvents scope => store_call (s, ListProcessEvents s scope) s
  | PNow => λ _ s', s' = s
  end.

(** The calls while nothing fails and the clock shows [now]. *)
Definition process_handle (now : time) (o : process_op) (s : MemoryStore) : reply o * MemoryStore :=
  let answer {A} (effect : MemoryStore * A) := (effect.2, effect.1) in
  match o with
  | PCreateProcess spec status => answer (CreateProcess s spec status)
  | PGetProcessByRef ref => (GetProcessByRef s ref, s)
  | PListProcesses scope => (ListProcesses s scope, s)
  | PUpdateProcessStatus status key => answer (UpdateProcessStatus s status key)
  | PAppendProcessEvent event key => answer (AppendProcessEvent now s event key)
  | PListProcessEvents scope => (ListProcessEvents s scope, s)
  | PNow => (now, s)
  end.

(** A request to the runtime, its answer dropped. *)
Inductive process_request : pprog unit → Prop :=
  | request_start spec : process_request (StartProcess spec ≫= λ _, mret tt)
  | request_status ref : process_request (StatusProcess ref ≫= λ _, mret tt)
  | request_describe ref : process_request (DescribeProcess ref ≫= λ _, mret tt)
  | request_list scope : process_request (ask (PListProcesses scope) ≫= λ _, mret tt)
  | request_signal ref signal : process_request (SignalProcess ref signal ≫= λ _, mret tt)
  | request_control ref control : process_request (ControlProcess ref control ≫= λ _, mret tt)
  | request_subscribe scope : process_request (SubscribeProcess scope ≫= λ _, mret tt)
  | request_events scope : process_request (ask (PListProcessEvents scope) ≫= λ _, mret tt).

(** The stores that any number of requests, interleaved and cut short anywhere, lead to. *)
Definition process_reachable (s : MemoryStore) : Prop :=
  ∃ ps, rtc (thread_step process_does process_request) (Threads NewMemoryStore []) (Threads s ps).
