(* ===== verification/ProcessSpec.v ===== *)
(** * Processes: records and retries

    Whatever requests run at once and wherever they are cut short: streams are gapless and
    stay in the tenant of their process, a change of status has its event, and the life of
    a process stays within running, waiting and canceled.  A retried signal is recognised
    exactly when the time it was sent is part of it. *)

From S2P Require Import Prelude Types Calls Graph Scope Json Idempotency Process.
Import process.

(** ** The invariant *)

(** The fields of a status that are its process's. *)
Definition status_of (spec : Spec) (status : Status) : Prop :=
  pst_ProcessID status = psp_ProcessID spec ∧ pst_Kind status = psp_Kind spec ∧
  pst_AccountID status = psp_AccountID spec ∧ pst_ProjectID status = psp_ProjectID spec ∧
  pst_Resource status = psp_Resource spec.

(** The lifecycle states the runtime gives a process. *)
Definition lives (state : string) : Prop :=
  state ∈ [ProcessRunning; ProcessWaiting; ProcessCanceled].

(** An event of the process as the store keeps it. *)
Definition event_of (spec : Spec) (n : nat) (e : Event) : Prop :=
  e_Sequence (pv_Event e) = Z.of_nat n ∧
  e_EventID (pv_Event e) = psp_ProcessID spec +:+ "-event-" +:+ pretty (Z.of_nat n) ∧
  e_ProcessID (pv_Event e) = psp_ProcessID spec ∧ pv_ProcessID e = psp_ProcessID spec ∧
  pv_AccountID e = psp_AccountID spec ∧ pv_ProjectID e = psp_ProjectID spec ∧
  pv_Resource e = psp_Resource spec.

Record process_ok (s : MemoryStore) : Prop := {
  po_spec pid spec : specs s !! pid = Some spec →
    psp_ProcessID spec = pid ∧ ValidateProcessSpec (Some spec) = Ok tt;
  po_status pid : specs s !! pid = None ↔ statuses s !! pid = None;
  po_current pid spec status : specs s !! pid = Some spec → statuses s !! pid = Some status →
    status_of spec status ∧ lives (pst_LifecycleState status);
  po_start key pid : startKeys s !! key = Some pid ↔
    ∃ spec, specs s !! pid = Some spec ∧ processStartKeyFromSpec spec = key;
  po_events pid i e : get_list (events s) pid !! i = Some e →
    ∃ spec, specs s !! pid = Some spec ∧ event_of spec (i + 1) e;
  po_event_key pid e :
    e ∈ get_list (events s) pid ↔ ∃ key, eventKeys s !! ProcessKey pid key = Some e;
  po_status_key key status : statusKeys s !! key = Some status →
    is_Some (eventKeys s !! key) ∧ pst_ProcessID status = pek_ProcessID key;
  po_recorded pid status : statuses s !! pid = Some status →
    (∃ key, statusKeys s !! ProcessKey pid key = Some status) ∨
    (pst_LifecycleState status = ProcessRunning ∧ ∀ key, statusKeys s !! ProcessKey pid key = None);
}.

(** What is never lost or rewritten. *)
Record process_grows (s s' : MemoryStore) : Prop := {
  pg_specs : specs s ⊆ specs s';
  pg_starts : startKeys s ⊆ startKeys s';
  pg_events pid : get_list (events s) pid `prefix_of` get_list (events s') pid;
  pg_event_keys : eventKeys s ⊆ eventKeys s';
  pg_status_keys : statusKeys s ⊆ statusKeys s';
}.

#[global] Instance process_grows_preorder : PreOrder process_grows.
Proof.
  split; [by split|]. intros s1 s2 s3 [] [].
  split; [etrans; eassumption..| |etrans; eassumption|etrans; eassumption]. intros pid. etrans; eauto.
Qed.

Lemma process_ok_new : process_ok NewMemoryStore.
Proof.
  split; intros *; cbn; rewrite ?lookup_empty; try done.
  - split; [done|]. by intros (? & ? & _).
  - split; [by intros ?%not_elem_of_nil|by intros [? ?]].
Qed.

(** ** Copies *)

Lemma clone_spec_valid spec :
  ValidateProcessSpec (Some (cloneProcessSpec spec)) = ValidateProcessSpec (Some spec).
Proof. done. Qed.

Lemma status_of_clone spec status : status_of (cloneProcessSpec spec) status ↔ status_of spec status.
Proof. done. Qed.

Lemma normalize_status_of spec status : status_of spec (normalizeProcessStatus spec status).
Proof. unfold normalizeProcessStatus. by repeat case_match. Qed.

Lemma normalize_lifecycle spec status :
  pst_LifecycleState status ≠ "" →
  pst_LifecycleState (normalizeProcessStatus spec status) = pst_LifecycleState status.
Proof.
  intros Hl. unfold normalizeProcessStatus. cbn.
  rewrite (bool_decide_eq_false_2 (pst_LifecycleState status = "")) by done. by repeat case_match.
Qed.

Lemma lives_signal state : lives state → lives (processLifecycleAfterSignal state).
Proof. unfold lives, processLifecycleAfterSignal. destruct (_ || _); [by left|done]. Qed.

Lemma lives_control state operation : lives state → lives (processLifecycleAfterControl state operation).
Proof.
  unfold lives, processLifecycleAfterControl. intros Hl.
  repeat (destruct (bool_decide (operation = _)); [set_solver|]). done.
Qed.

Lemma lives_nonempty state : lives state → state ≠ "".
Proof. unfold lives. set_solver. Qed.

(** ** Operations *)

Lemma event_spec s pid key e : process_ok s → eventKeys s !! ProcessKey pid key = Some e → is_Some (specs s !! pid).
Proof.
  intros Hok He. assert (e ∈ get_list (events s) pid) as [i Hi]%list_elem_of_lookup
    by (apply po_event_key; [done|by exists key]).
  apply po_events in Hi as (spec & ? & _); [by eexists|done].
Qed.

(** A spec that is new to the store. *)
Lemma insert_process s spec status :
  process_ok s → ValidateProcessSpec (Some spec) = Ok tt →
  specs s !! psp_ProcessID spec = None → startKeys s !! processStartKeyFromSpec spec = None →
  status_of spec status → pst_LifecycleState status = ProcessRunning →
  let s' := {| s with
    specs := <[psp_ProcessID spec := cloneProcessSpec spec]> (specs s);
    statuses := <[psp_ProcessID spec := status]> (statuses s);
    startKeys := <[processStartKeyFromSpec spec := psp_ProcessID spec]> (startKeys s) |} in
  process_ok s' ∧ process_grows s s'.
Proof.
  intros Hok Hv Hnew Hkey Hst Hrun. cbv zeta. set (pid := psp_ProcessID spec) in *.
  assert (∀ key, statusKeys s !! ProcessKey pid key = None) as Hnone.
  { intros key. destruct (statusKeys s !! _) as [st|] eqn:Hk; [exfalso|done].
    apply po_status_key in Hk as [[e He] _]; [|done]. apply event_spec in He as [? He]; [|done].
    by rewrite Hnew in He. }
  split; [|split; [by apply insert_subseteq|by apply insert_subseteq|done..]].
  split; cbn.
  - intros p sp [[<- <-]|[_ ?]]%lookup_insert_Some; [done|by apply (po_spec _ Hok)].
  - intros p. rewrite !lookup_insert_None. by rewrite (po_status _ Hok).
  - intros p sp st. destruct (decide (pid = p)) as [<-|Hne].
    + rewrite !lookup_insert_eq. intros [= <-] [= <-]. split; [done|]. rewrite Hrun. by left.
    + rewrite !lookup_insert_ne by done. apply (po_current _ Hok).
  - intros key p. destruct (decide (processStartKeyFromSpec spec = key)) as [<-|Hne].
    + rewrite lookup_insert_eq. split; [intros [= <-]; exists (cloneProcessSpec spec); by rewrite lookup_insert_eq|].
      intros (sp & [[<- _]|[_ Hp]]%lookup_insert_Some & Heq); [done|]. exfalso.
      assert (startKeys s !! processStartKeyFromSpec spec = Some p) as Hs by (apply (po_start _ Hok); by exists sp).
      by rewrite Hkey in Hs.
    + rewrite lookup_insert_ne, (po_start _ Hok) by done. split; intros (sp & Hp & Heq).
      * exists sp. split; [|done]. rewrite lookup_insert_ne; [done|]. intros <-. by rewrite Hnew in Hp.
      * apply lookup_insert_Some in Hp as [[_ <-]|[_ ?]]; [done|by exists sp].
  - intros p i e (sp & Hp & He)%(po_events _ Hok). exists sp. split; [|done].
    rewrite lookup_insert_ne; [done|]. intros <-. by rewrite Hnew in Hp.
  - apply (po_event_key _ Hok).
  - apply (po_status_key _ Hok).
  - intros p st [[<- <-]|[_ ?]]%lookup_insert_Some; [by right|by apply (po_recorded _ Hok)].
Qed.

Lemma CreateProcess_ok s spec status :
  process_ok s → pst_LifecycleState status = ProcessRunning →
  process_ok (CreateProcess s (Some spec) (Some status)).1 ∧
  process_grows s (CreateProcess s (Some spec) (Some status)).1 ∧
  (∀ st, (CreateProcess s (Some spec) (Some status)).2 = Ok (st, true) →
     specs (CreateProcess s (Some spec) (Some status)).1 !! psp_ProcessID spec = Some (cloneProcessSpec spec)).
Proof.
  intros Hok Hrun. unfold CreateProcess.
  destruct (validateCreateProcessInput _ _) as [[spec' status']|] eqn:Hv; [|done].
  unfold validateCreateProcessInput in Hv. apply bind_Ok in Hv as ([] & Hspec & Hv).
  apply bind_Ok in Hv as ([] & _ & [= <- <-]).
  destruct (lookupExistingProcessLocked _ _ _) as [[existing|]|] eqn:H1; [done| |done].
  destruct (lookupExistingProcessIDLocked _ _) as [[existing|]|] eqn:H2; [done| |done]. cbn.
  unfold lookupExistingProcessLocked in H1. destruct (startKeys s !! _) eqn:Hk; [by apply bind_Ok in H1 as (? & _ & ?)|].
  unfold lookupExistingProcessIDLocked in H2. destruct (specs s !! _) eqn:Hs; [by apply bind_Ok in H2 as (? & _ & ?)|].
  destruct (insert_process s spec (normalizeProcessStatus spec status)) as [? ?]; try done.
  - apply normalize_status_of.
  - rewrite normalize_lifecycle by (by rewrite Hrun). done.
  - split_and!; [done..|]. intros _ _. by rewrite lookup_insert_eq.
Qed.

Lemma UpdateProcessStatus_ok s status key :
  process_ok s → is_Some (eventKeys s !! ProcessKey (pst_ProcessID status) key) →
  lives (pst_LifecycleState status) →
  process_ok (UpdateProcessStatus s (Some status) key).1 ∧
  process_grows s (UpdateProcessStatus s (Some status) key).1.
Proof.
  intros Hok Hev Hl. unfold UpdateProcessStatus.
  destruct (validateUpdateProcessStatusInput _ _) as [status'|] eqn:Hv; [|done].
  assert (status' = status) as ->.
  { cbn in Hv. repeat (apply bind_Ok in Hv as ([] & _ & Hv)). by injection Hv. }
  destruct (statusKeys s !! _) eqn:Hk; [done|]. destruct (specs s !! _) as [spec|] eqn:Hs; [|done].
  destruct (validateProcessStatusScope _ _); [|done]. cbn [fst].
  set (prepared := normalizeProcessStatus spec status). pose proof (normalize_status_of spec status) as Hst.
  fold prepared in Hst. destruct (po_spec _ Hok _ _ Hs) as [Hpid _].
  set (pid := pst_ProcessID status) in *.
  split; [|split; [done..|cbn; by apply insert_subseteq]].
  split; cbn.
  - apply (po_spec _ Hok).
  - intros p. rewrite lookup_insert_None, <- (po_status _ Hok). split; [|by intros []]. intros Hn. split; [done|].
    intros <-. by rewrite Hs in Hn.
  - intros p sp st Hp [[<- <-]|[_ ?]]%lookup_insert_Some; [|by eapply (po_current _ Hok)].
    rewrite Hs in Hp. injection Hp as <-. split; [done|]. unfold prepared.
    by rewrite normalize_lifecycle by by apply lives_nonempty.
  - apply (po_start _ Hok).
  - apply (po_events _ Hok).
  - apply (po_event_key _ Hok).
  - intros k st [[<- <-]|[_ ?]]%lookup_insert_Some; [|by apply (po_status_key _ Hok)].
    split; [done|]. cbn. destruct Hst as [-> _]. done.
  - intros p st [[<- <-]|[Hne Hp]]%lookup_insert_Some; [left; exists key; by rewrite lookup_insert_eq|].
    assert (∀ k, ProcessKey pid key ≠ ProcessKey p k) as Hk' by congruence.
    destruct (po_recorded _ Hok _ _ Hp) as [[k ?]|[? Hnone]].
    + left. exists k. by rewrite lookup_insert_ne.
    + right. split; [done|]. intros k. by rewrite lookup_insert_ne.
Qed.

(** An event that is made for the process. *)
Definition event_for (spec : Spec) (e : Event) : Prop :=
  pv_ProcessID e = psp_ProcessID spec ∧ pv_AccountID e = psp_AccountID spec ∧
  pv_ProjectID e = psp_ProjectID spec ∧ pv_Resource e = psp_Resource spec.

Lemma processEvent_for spec type t payload : event_for spec (processEvent spec type t payload).
Proof. done. Qed.

Lemma append_event s spec key stored :
  process_ok s → specs s !! psp_ProcessID spec = Some spec →
  event_of spec (length (get_list (events s) (psp_ProcessID spec)) + 1) stored →
  eventKeys s !! ProcessKey (psp_ProcessID spec) key = None →
  let s' := {| s with
    events := push (events s) (psp_ProcessID spec) stored;
    eventKeys := <[ProcessKey (psp_ProcessID spec) key := stored]> (eventKeys s) |} in
  process_ok s' ∧ process_grows s s'.
Proof.
  intros Hok Hspec Hev Hkey. cbv zeta. set (pid := psp_ProcessID spec) in *.
  split.
  - split; cbn; try apply Hok.
    + intros p i e. rewrite get_list_push. case_decide as Hp; [subst p|apply (po_events _ Hok)].
      intros [?|[Hi Hlast]]%lookup_app_Some; [by apply (po_events _ Hok)|].
      apply list_lookup_singleton_Some in Hlast as [Hlast <-]. exists spec. split; [done|].
      by replace i with (length (get_list (events s) pid)) by lia.
    + intros p e. rewrite get_list_push. case_decide as Hp; [subst p|].
      * rewrite elem_of_app, list_elem_of_singleton, (po_event_key _ Hok). split.
        -- intros [[k Hk]| ->]; [|exists key; by rewrite lookup_insert_eq].
           exists k. rewrite lookup_insert_ne; [done|]. intros [= <-]. by rewrite Hkey in Hk.
        -- intros (k & [[_ <-]|[_ ?]]%lookup_insert_Some); [by right|left; by exists k].
      * rewrite (po_event_key _ Hok). f_equiv. intros k. rewrite lookup_insert_ne; [done|congruence].
    + intros k st Hk. destruct (po_status_key _ Hok _ _ Hk) as [Hs ?]. split; [|done].
      destruct (decide (ProcessKey pid key = k)) as [<-|]; [by rewrite lookup_insert_eq|].
      by rewrite lookup_insert_ne.
  - split; cbn; try done; [|by apply insert_subseteq].
    intros p. rewrite get_list_push. case_decide; [subst; by apply prefix_app_r|done].
Qed.

Lemma AppendProcessEvent_ok now s event key spec :
  process_ok s → specs s !! psp_ProcessID spec = Some spec → event_for spec event →
  process_ok (AppendProcessEvent now s (Some event) key).1 ∧
  process_grows s (AppendProcessEvent now s (Some event) key).1 ∧
  (∀ stored, (AppendProcessEvent now s (Some event) key).2 = Ok stored →
     is_Some (eventKeys (AppendProcessEvent now s (Some event) key).1 !! ProcessKey (psp_ProcessID spec) key)).
Proof.
  intros Hok Hspec (Hpid & Ha & Hj & Hr). unfold AppendProcessEvent.
  destruct (validateAppendProcessEventInput _ _) as [event'|] eqn:Hv; [|done].
  assert (event' = event) as ->.
  { cbn in Hv. repeat (apply bind_Ok in Hv as ([] & _ & Hv)). by injection Hv. }
  rewrite Hpid. destruct (eventKeys s !! _) as [existing|] eqn:Hk; [cbn [fst]; by rewrite Hk|]. rewrite Hspec.
  set (stored := prepareProcessEvent _ _ _ _). cbn [fst].
  destruct (append_event s spec key stored) as [? ?]; try done.
  split_and!; [done..|]. intros _ _. cbn. by rewrite lookup_insert_eq.
Qed.

(** ** Requests *)

Abbreviation psafe p := (safe process_does process_ok process_grows p) (only parsing).

Lemma safe_or_now {A} t (k : time → pprog A) Q s :
  (∀ t s', process_grows s s' → psafe (k t) Q s') → psafe (t' ← or_now t; k t') Q s.
Proof.
  intros Hk. unfold or_now. destruct (time_is_zero t); [|by apply (Hk t)].
  apply safe_ask. intros s1 r s2 Hok Hg ->. split_and!; [done..|]. by apply (Hk r).
Qed.

Lemma safe_append {A} spec event key (k : Event → pprog (result A)) s :
  specs s !! psp_ProcessID spec = Some spec → event_for spec event →
  (∀ stored s', process_grows s s' → is_Some (eventKeys s' !! ProcessKey (psp_ProcessID spec) key) →
     psafe (k stored) (λ _ _, True) s') →
  psafe (stored ←? ask (PAppendProcessEvent (Some event) key); k stored) (λ _ _, True) s.
Proof.
  intros Hspec Hfor Hk. unfold ask_ok. apply safe_ask. intros s1 r s2 Hok Hg [now Hd].
  assert (specs s1 !! psp_ProcessID spec = Some spec) as Hspec1 by (eapply lookup_weaken; [done|apply Hg]).
  destruct (AppendProcessEvent_ok now s1 event key spec) as (Hok2 & Hg2 & Hev); [done..|].
  apply store_call_ok in Hd as [Hs2 Hr].
  assert (process_ok s2 ∧ process_grows s1 s2) as [? ?] by by destruct Hs2; subst s2.
  split_and!; [done..|]. destruct r as [stored|]; [|done]. destruct (Hr _ eq_refl) as [-> Hr2].
  apply Hk; [by etrans|by eapply Hev].
Qed.

Lemma safe_update {A} status key (k : Status → pprog (result A)) s :
  is_Some (eventKeys s !! ProcessKey (pst_ProcessID status) key) → lives (pst_LifecycleState status) →
  (∀ stored s', psafe (k stored) (λ _ _, True) s') →
  psafe (stored ←? ask (PUpdateProcessStatus (Some status) key); k stored) (λ _ _, True) s.
Proof.
  intros [e He] Hl Hk. unfold ask_ok. apply safe_ask. intros s1 r s2 Hok Hg Hd.
  destruct (UpdateProcessStatus_ok s1 status key) as [Hok2 Hg2]; [done| |done|].
  { exists e. eapply lookup_weaken; [exact He|apply Hg]. }
  apply store_call_ok in Hd as [Hs2 _].
  assert (process_ok s2 ∧ process_grows s1 s2) as [? ?] by by destruct Hs2; subst s2.
  split_and!; [done..|]. destruct r; [apply Hk|done].
Qed.

Lemma GetProcessByRef_found s ref spec status :
  process_ok s → GetProcessByRef s ref = Ok (Some (spec, status)) →
  ∃ spec0, specs s !! psp_ProcessID spec0 = Some spec0 ∧ spec = cloneProcessSpec spec0 ∧
    psp_ProcessID spec0 = prf_ProcessID ref ∧ status_of spec0 status ∧ lives (pst_LifecycleState status).
Proof.
  intros Hok Hget. apply bind_Ok in Hget as ([] & _ & Hget).
  destruct (specs s !! _) as [spec0|] eqn:Hs; [|done]. apply bind_Ok in Hget as ([] & _ & [= <- <-]).
  destruct (po_spec _ Hok _ _ Hs) as [Hpid _]. exists spec0. rewrite Hpid.
  destruct (statuses s !! _) as [st|] eqn:Hst.
  - destruct (po_current _ Hok _ _ _ Hs Hst). by split_and!.
  - apply (po_status _ Hok) in Hst. congruence.
Qed.

Lemma safe_require {A} ref (k : Spec * Status → pprog (result A)) s :
  (∀ spec0 status s', process_grows s s' → specs s' !! psp_ProcessID spec0 = Some spec0 →
     status_of spec0 status → lives (pst_LifecycleState status) →
     psafe (k (cloneProcessSpec spec0, status)) (λ _ _, True) s') →
  psafe (found ←? requireProcess ref; k found) (λ _ _, True) s.
Proof.
  intros Hk. unfold requireProcess, ask_ok. apply (safe_ask _ _ _ (PGetProcessByRef ref)). intros s1 r s2 Hok Hg Hd.
  apply read_call in Hd as [-> Hr]. split_and!; [done..|].
  destruct r as [[[spec status]|]|]; [|done..]. specialize (Hr _ eq_refl).
  apply GetProcessByRef_found in Hr as (spec0 & ? & -> & ? & ? & ?); [|done]. by apply Hk.
Qed.

Lemma SignalProcess_safe ref signal s : psafe (SignalProcess ref signal) (λ _ _, True) s.
Proof.
  unfold SignalProcess. apply safe_require. intros spec0 status s1 Hg1 Hspec Hst Hl.
  destruct (validateProcessSignal signal) as [sig|]; [|done]. unfold check_ok, processSignalEvent.
  apply safe_bind, safe_or_now. intros t s2 Hg2. cbn [safe].
  eapply (safe_append spec0); [eapply lookup_weaken; [done|apply Hg2]|done|]. intros stored s3 Hg3 Hev.
  apply safe_or_now. intros t' s4 Hg4. apply safe_update; [| |done].
  - cbn. destruct Hst as [-> _]. destruct Hev as [e He]. exists e. eapply lookup_weaken; [exact He|apply Hg4].
  - by apply lives_signal.
Qed.

Lemma ControlProcess_safe ref control s : psafe (ControlProcess ref control) (λ _ _, True) s.
Proof.
  unfold ControlProcess. apply safe_require. intros spec0 status s1 Hg1 Hspec Hst Hl.
  destruct (ValidateControlRequest control); [|done]. unfold check_ok.
  destruct (fail_if _ _); [|done]. unfold processControlEvent.
  apply safe_bind, safe_or_now. intros t s2 Hg2. cbn [safe].
  eapply (safe_append spec0); [eapply lookup_weaken; [done|apply Hg2]|done|]. intros stored s3 Hg3 Hev.
  apply safe_or_now. intros t' s4 Hg4. apply safe_update; [| |done].
  - cbn. destruct Hst as [-> _]. destruct Hev as [e He]. exists e. eapply lookup_weaken; [exact He|apply Hg4].
  - by apply lives_control.
Qed.

Lemma StartProcess_safe spec s : psafe (StartProcess spec) (λ _ _, True) s.
Proof.
  unfold StartProcess. destruct (ValidateProcessSpec spec); [|done]. unfold check_ok.
  destruct spec as [spec|]; [|done]. unfold initialProcessStatus.
  apply safe_bind, safe_or_now. intros t s1 _. cbn [safe]. set (status := Build_Status _ _ _ _ _ _ _ _ _ _ _).
  unfold ask_ok at 1. apply safe_ask. intros s2 r s3 Hok Hg Hd.
  destruct (CreateProcess_ok s2 spec status) as (Hok2 & Hg2 & Hnew); [done..|].
  apply store_call_ok in Hd as [Hs3 Hr].
  assert (process_ok s3 ∧ process_grows s2 s3) as [? ?] by by destruct Hs3; subst s3.
  split_and!; [done..|]. destruct r as [[st created]|]; [|done].
  destruct created; [|done]. destruct (Hr _ eq_refl) as [-> Hr2]. cbn [negb]. unfold processStartedEvent.
  apply safe_bind, safe_or_now. intros t' s4 Hg4. cbn [safe].
  eapply (safe_append (cloneProcessSpec spec)); [|done|done].
  eapply lookup_weaken; [exact (Hnew _ Hr2)|apply Hg4].
Qed.

Lemma read_safe {A} (o : process_op) (k : reply o → pprog A) s :
  (∀ s1 r s2, process_does o s1 r s2 → s2 = s1) → (∀ r s', psafe (k r) (λ _ _, True) s') →
  psafe (r ← ask o; k r) (λ _ _, True) s.
Proof. intros Hd Hk. apply safe_ask. intros s1 r s2 Hok Hg ->%Hd. by split_and!. Qed.

Lemma request_safe p s : process_request p → psafe p (λ _ _, True) s.
Proof.
  assert (∀ A (answer : MemoryStore → result A) s1 r s2, store_call (s1, answer s1) s1 r s2 → s2 = s1) as Hread
    by (intros * ?%read_call; naive_solver).
  intros Hp. destruct Hp as [spec|ref|ref|scope|ref signal|ref control|scope|scope]; apply safe_bind.
  - eapply safe_mono; [apply StartProcess_safe|done].
  - unfold StatusProcess, ask_ok. apply read_safe; [apply Hread|]. by intros [[[]|]|].
  - unfold DescribeProcess, ask_ok. apply read_safe; [apply Hread|]. by intros [[[]|]|].
  - apply (read_safe (PListProcesses scope) Done); [apply (Hread _ (λ s, ListProcesses s scope))|done].
  - eapply safe_mono; [apply SignalProcess_safe|done].
  - eapply safe_mono; [apply ControlProcess_safe|done].
  - unfold SubscribeProcess, check_ok. destruct (ValidateProcessStreamScope scope), scope; try done.
    unfold ask_ok. apply read_safe; [apply Hread|]. by intros [|].
  - apply (read_safe (PListProcessEvents scope) Done); [apply (Hread _ (λ s, ListProcessEvents s scope))|done].
Qed.

Lemma process_steps s ps s' ps' :
  process_ok s → Forall (λ p, psafe p (λ _ _, True) s) ps →
  rtc (thread_step process_does process_request) (Threads s ps) (Threads s' ps') →
  process_ok s' ∧ process_grows s s' ∧ Forall (λ p, psafe p (λ _ _, True) s') ps'.
Proof.
  intros Hok Hps. apply (threads_safe process_does process_request process_ok process_grows
    (Threads s ps) (Threads s' ps')); [|done..]. intros p w Hp _. by apply request_safe.
Qed.

Lemma process_reachable_ok s : process_reachable s → process_ok s.
Proof. intros [ps Hr]. eapply process_steps in Hr; [apply Hr|apply process_ok_new|done]. Qed.

(** ** Retries *)

(** The time of a signal's event when the clock shows [now]. *)
Definition sent_at (signal : Signal) (now : time) : time :=
  if time_is_zero (sig_SentAt signal) then now else sig_SentAt signal.

Definition signal_event (spec : Spec) (signal : Signal) (now : time) : Event :=
  processEvent spec EventProcessSignalReceived (sent_at signal now) (signal_payload signal).

Lemma sent_at_eq signal t1 t2 :
  sent_at signal t1 = sent_at signal t2 ↔ sig_SentAt signal ≠ zero_time ∨ t1 = t2.
Proof. unfold sent_at, time_is_zero. case_bool_decide; naive_solver. Qed.

Lemma run_or_now {A} now t (k : time → pprog A) s :
  run_calls (process_handle now) (t' ← or_now t; k t') s =
  run_calls (process_handle now) (k (if time_is_zero t then now else t)) s.
Proof. unfold or_now. by destruct (time_is_zero t). Qed.

(** The document of an event but for its time. *)
Definition with_time (e : Event) (t : time) : Event :=
  let core := pv_Event e in {| e with pv_Event := {| core with e_Timestamp := t |} |}.

Lemma supported_field k v l : supported (JObject l) = true → (k, v) ∈ l → supported v = true.
Proof.
  induction l as [|[k' v'] l IH]; [by intros _ ?%not_elem_of_nil|].
  rewrite supported_cons. intros [? ?] [[= -> ->]|?]%elem_of_cons; [done|by apply IH].
Qed.

Lemma enc_with_time e t1 t2 :
  supported (enc_Event (with_time e t1)) = true →
  enc_Event (with_time e t1) = enc_Event (with_time e t2) ↔ t1 = t2.
Proof.
  intros Hs. split; [|by intros ->]. unfold enc_Event, with_time. cbn [pv_Event e_Timestamp].
  intros [= Heq]. repeat apply app_inv_head in Heq. injection Heq as Heq.
  assert (supported (enc_time t1) = true) as Ht.
  { eapply supported_field; [exact Hs|]. cbn [pv_Event e_Timestamp].
    do 5 (apply elem_of_app; right). by left. }
  revert Ht Heq. unfold enc_time. by destruct (_ && _), (_ && _); intros ? [=].
Qed.

Lemma prepared_time spec signal t id n :
  prepareProcessEvent t (signal_event spec signal t) id n =
  with_time (prepareProcessEvent 1 (signal_event spec signal 1) id n) (sent_at signal t).
Proof.
  unfold prepareProcessEvent, signal_event, with_time, processEvent. cbn. do 2 f_equal.
  unfold sent_at, time_is_zero. repeat case_bool_decide; congruence.
Qed.

(** Two requests for one event differ at most in their times. *)
Lemma retry_event spec signal t1 t2 id n :
  let stored t := prepareProcessEvent t (signal_event spec signal t) id n in
  supported (enc_Event (stored t1)) = true →
  ValidateProcessEventIdempotency (stored t1) (stored t2) = Ok tt ↔ sent_at signal t1 = sent_at signal t2.
Proof.
  cbv beta zeta. intros Hs. unfold ValidateProcessEventIdempotency.
  rewrite !bool_decide_eq_true_2 by done. cbn [negb fail_if mbind result_bind].
  rewrite same_json_Ok. rewrite prepared_time in Hs. rewrite (prepared_time _ _ t1), (prepared_time _ _ t2).
  rewrite enc_with_time by done. naive_solver.
Qed.

Lemma ValidateProcessSpec_resource spec :
  ValidateProcessSpec (Some spec) = Ok tt →
  psp_ProcessID spec ≠ "" ∧ psp_AccountID spec ≠ "" ∧ psp_ProjectID spec ≠ "" ∧
  ValidateResourceRef (psp_Resource spec) = Ok tt ∧
  rr_AccountID (psp_Resource spec) = psp_AccountID spec ∧
  rr_ProjectID (psp_Resource spec) = psp_ProjectID spec.
Proof.
  cbn -[ValidateResourceRef validateProcessPolicy]. intros ([] & Hi & _)%bind_Ok.
  unfold validateProcessStartIdentity in Hi.
  apply bind_Ok in Hi as ([] & Hpid%fail_if_Ok & Hi). apply bind_Ok in Hi as ([] & _ & Hi).
  apply bind_Ok in Hi as ([] & Ha%fail_if_Ok & Hi). apply bind_Ok in Hi as ([] & Hj%fail_if_Ok & Hi).
  apply bind_Ok in Hi as ([] & _ & Hi). apply bind_Ok in Hi as ([] & Hr & Hi).
  apply bind_Ok in Hi as ([] & Hra%fail_if_Ok & Hrj%fail_if_Ok). by simplify_bool.
Qed.

(** A status of the process passes the checks of the store. *)
Lemma update_accepts s spec status key :
  process_ok s → specs s !! psp_ProcessID spec = Some spec → status_of spec status →
  pst_LifecycleState status ≠ "" → key ≠ "" →
  ∃ s' r, UpdateProcessStatus s (Some status) key = (s', Ok r) ∧
    events s' = events s ∧ eventKeys s' = eventKeys s ∧ specs s' = specs s ∧
    is_Some (statusKeys s' !! ProcessKey (psp_ProcessID spec) key) ∧
    (is_Some (statusKeys s !! ProcessKey (psp_ProcessID spec) key) → s' = s).
Proof.
  intros Hok Hspec (Hpid & _ & Ha & Hj & Hr) Hl Hkey. destruct (po_spec _ Hok _ _ Hspec) as [_ Hv].
  apply ValidateProcessSpec_resource in Hv as (Hp' & Ha' & Hj' & Hr' & _).
  assert (validateUpdateProcessStatusInput (Some status) key = Ok status) as Hin.
  { unfold validateUpdateProcessStatusInput. rewrite Hpid, Ha, Hj, Hr, Hr', !bool_decide_eq_false_2 by done. done. }
  unfold UpdateProcessStatus. rewrite Hin, Hpid.
  destruct (statusKeys s !! _) as [existing|] eqn:Hk.
  { eexists _, _. split; [done|]. by rewrite Hk. }
  rewrite Hspec. unfold validateProcessStatusScope. rewrite Ha, Hj, Hr, !bool_decide_eq_true_2 by done. cbn.
  eexists _, _. split; [done|]. cbn. rewrite lookup_insert_eq. by split_and!; try done; intros [].
Qed.

Lemma append_accepts_input spec event key :
  ValidateProcessSpec (Some spec) = Ok tt → event_for spec event → e_EventType (pv_Event event) ≠ "" →
  key ≠ "" → validateAppendProcessEventInput (Some event) key = Ok event.
Proof.
  intros Hv (Hpid & Ha & Hj & Hr) Ht Hkey.
  apply ValidateProcessSpec_resource in Hv as (Hp' & Ha' & Hj' & Hr' & Hra & Hrj).
  unfold validateAppendProcessEventInput. rewrite Hr, Hr', Hpid, Ha, Hj, Hra, Hrj.
  unfold ValidateProcessRef. cbn.
  rewrite (bool_decide_eq_true_2 (psp_AccountID spec = _)), (bool_decide_eq_true_2 (psp_ProjectID spec = _)) by done.
  by rewrite !bool_decide_eq_false_2 by done.
Qed.

(** What a retry finds when the event is there. *)
Lemma append_again now s spec event key stored :
  ValidateProcessSpec (Some spec) = Ok tt → event_for spec event → e_EventType (pv_Event event) ≠ "" →
  key ≠ "" → eventKeys s !! ProcessKey (psp_ProcessID spec) key = Some stored →
  AppendProcessEvent now s (Some event) key =
  (s, ValidateProcessEventIdempotency stored
        (prepareProcessEvent now event (e_EventID (pv_Event stored)) (e_Sequence (pv_Event stored)));;
      Ok (cloneProcessEvent stored)).
Proof.
  intros Hv Hfor Ht Hkey Hst. unfold AppendProcessEvent. rewrite (append_accepts_input spec) by done.
  destruct Hfor as [-> _]. by rewrite Hst.
Qed.

Lemma run_signal now ref signal s spec status :
  GetProcessByRef s ref = Ok (Some (spec, status)) → validateProcessSignal (Some signal) = Ok signal →
  run_calls (process_handle now) (SignalProcess ref (Some signal)) s =
  let '(s1, r) := AppendProcessEvent now s (Some (signal_event spec signal now)) (sig_IdempotencyKey signal) in
  match r with
  | Err e => (Err e, s1)
  | Ok _ =>
      let next := {| status with
        pst_LifecycleState := processLifecycleAfterSignal (pst_LifecycleState status);
        pst_UpdatedAt := sent_at signal now |} in
      let '(s2, r) := UpdateProcessStatus s1 (Some next) (sig_IdempotencyKey signal) in
      (match r with Ok _ => Ok tt | Err e => Err e end, s2)
  end.
Proof.
  intros Hget Hv. unfold SignalProcess, requireProcess, ask_ok.
  repeat (rewrite run_bind; cbn -[GetProcessByRef AppendProcessEvent UpdateProcessStatus validateProcessSignal]).
  rewrite Hget. cbn -[AppendProcessEvent UpdateProcessStatus validateProcessSignal].
  rewrite Hv. unfold check_ok, processSignalEvent. rewrite run_bind, run_or_now.
  cbn -[AppendProcessEvent UpdateProcessStatus].
  change (processEvent _ _ _ _) with (signal_event spec signal now).
  destruct (AppendProcessEvent _ _ _ _) as [s1 [e|e]]; [|done].
  cbn -[UpdateProcessStatus]. rewrite run_or_now. cbn -[UpdateProcessStatus].
  change (if time_is_zero _ then _ else _) with (sent_at signal now).
  by destruct (UpdateProcessStatus _ _ _) as [s2 [|]].
Qed.

(** ** A concrete process *)

Lemma process_handle_does now o s : process_does o s (process_handle now o s).1 (process_handle now o s).2.
Proof.
  destruct o; cbn; [left; by destruct (CreateProcess _ _ _)|by left|by left|
    left; by destruct (UpdateProcessStatus _ _ _)|exists now; left; by destruct (AppendProcessEvent _ _ _ _)|
    by left|done].
Qed.

(** Requests made one after the other. *)
Lemma process_reachable_run now p s :
  process_request p → process_reachable s → process_reachable (run_calls (process_handle now) p s).2.
Proof.
  intros Hp [ps Hr]. exists (ps ++ [Done (run_calls (process_handle now) p s).1]).
  etrans; [exact Hr|]. eapply rtc_l; [by apply thread_start|].
  apply run_thread. apply process_handle_does.
Qed.

Module ProcessSample.
Definition resource : ResourceRef := {|
  rr_Kind := "invoice"; rr_ResourceID := "inv-1"; rr_AccountID := "acct"; rr_ProjectID := "proj" |}.
Definition spec : Spec := {| zero_Spec with
  psp_ProcessID := "proc-1"; psp_Kind := "approval"; psp_AccountID := "acct"; psp_ProjectID := "proj";
  psp_IdempotencyKey := "start-1"; psp_Resource := resource; psp_RequestedAt := 5000000%Z |}.
Definition ref : Ref := {| prf_ProcessID := "proc-1"; prf_AccountID := "acct"; prf_ProjectID := "proj" |}.
(** A signal that a timer sends: it has no time of its own. *)
Definition signal : Signal := {|
  sig_Type := "process.timer.reminder"; sig_IdempotencyKey := "proc-1:timer:reminder:t"; sig_ActorID := "";
  sig_Payload := None; sig_SentAt := zero_time |}.
Definition t1 : time := 7000000%Z.
Definition t2 : time := 8000000%Z.
Definition started : MemoryStore :=
  (run_calls (process_handle t1) (StartProcess (Some spec) ≫= λ _, mret tt) NewMemoryStore).2.
Definition signaled : MemoryStore :=
  (run_calls (process_handle t1) (SignalProcess ref (Some signal) ≫= λ _, mret tt) started).2.

Lemma signaled_reachable : process_reachable signaled.
Proof.
  apply process_reachable_run; [constructor|]. apply process_reachable_run; [constructor|].
  by exists [].
Qed.
End ProcessSample.

(** ** Theorems *)

(** C15: the records of processes.  Let any number of requests to start, signal, control and
    read processes run at once, with any call failing before or after its effect and any
    request cut short.  Then every process has a status, of its kind, tenant and resource;
    it is running, waiting or canceled, and it is the one it started with or one that a
    request recorded under its idempotency key; whatever status was recorded under a key,
    the stream has the event recorded under that key; and the stream of a process is
    numbered 1, 2, 3, ... and stays in its tenant. *)
Theorem process_records s :
  process_reachable s →
  (∀ pid spec, specs s !! pid = Some spec → ∃ status, statuses s !! pid = Some status ∧
     status_of spec status ∧ lives (pst_LifecycleState status) ∧
     ((∃ key, statusKeys s !! ProcessKey pid key = Some status) ∨
      pst_LifecycleState status = ProcessRunning ∧ ∀ key, statusKeys s !! ProcessKey pid key = None)) ∧
  (∀ pid key, is_Some (statusKeys s !! ProcessKey pid key) →
     ∃ e, eventKeys s !! ProcessKey pid key = Some e ∧ e ∈ get_list (events s) pid) ∧
  (∀ pid i e, get_list (events s) pid !! i = Some e →
     ∃ spec, specs s !! pid = Some spec ∧ psp_ProcessID spec = pid ∧ event_of spec (i + 1) e).
Proof.
  intros Hok%process_reachable_ok. split_and!.
  - intros pid spec Hs. destruct (statuses s !! pid) as [status|] eqn:Hst.
    + destruct (po_current _ Hok _ _ _ Hs Hst). exists status. split_and!; [done..|]. by apply po_recorded.
    + apply (po_status _ Hok) in Hst. congruence.
  - intros pid key [st Hst]. apply (po_status_key _ Hok) in Hst as [[e He] _]. exists e. split; [done|].
    apply (po_event_key _ Hok). by exists key.
  - intros pid i e (spec & Hs & He)%(po_events _ Hok). exists spec. split_and!; [done| |done].
    by apply (po_spec _ Hok).
Qed.

Lemma process_records_witness :
  ∃ status, statuses ProcessSample.signaled !! "proc-1" = Some status ∧
    status_of ProcessSample.spec status ∧ lives (pst_LifecycleState status) ∧
    length (get_list (events ProcessSample.signaled) "proc-1") = 2.
Proof.
  destruct (proj1 (process_records ProcessSample.signaled ProcessSample.signaled_reachable) "proc-1"
    ProcessSample.spec) as (status & Hst & Hof & Hl & _); [vm_compute; reflexivity|].
  exists status. split; [exact Hst|]. split; [exact Hof|]. split; [exact Hl|]. vm_compute. reflexivity.
Defined.

(** Retried signals.  Suppose the stream holds the event that an attempt at clock [t1]
    to signal a process recorded.  An undisturbed retry at clock [t2] succeeds exactly when
    the signal carries the time it was sent or the clock still shows the same instant: then
    it records the status the first attempt may not have come to record and appends
    nothing; otherwise the retry is refused as a different event and changes nothing. *)
Theorem signal_retry s ref signal spec status t1 t2 id n :
  process_reachable s → GetProcessByRef s ref = Ok (Some (spec, status)) →
  validateProcessSignal (Some signal) = Ok signal →
  let key := ProcessKey (psp_ProcessID spec) (sig_IdempotencyKey signal) in
  let stored := prepareProcessEvent t1 (signal_event spec signal t1) id n in
  eventKeys s !! key = Some stored → supported (enc_Event stored) = true →
  let '(r, s') := run_calls (process_handle t2) (SignalProcess ref (Some signal)) s in
  (r = Ok tt ↔ sig_SentAt signal ≠ zero_time ∨ t1 = t2) ∧
  specs s' = specs s ∧ events s' = events s ∧ eventKeys s' = eventKeys s ∧
  (r = Ok tt → is_Some (statusKeys s' !! key)) ∧
  (r ≠ Ok tt ∨ is_Some (statusKeys s !! key) → s' = s).
Proof.
  intros Hok%process_reachable_ok Hget Hv key stored Hst Hs.
  rewrite (run_signal _ _ _ _ _ _ Hget Hv).
  apply GetProcessByRef_found in Hget as (spec0 & Hspec & -> & _ & Hof & Hl); [|done].
  destruct (po_spec _ Hok _ _ Hspec) as [_ Hvalid].
  assert (sig_IdempotencyKey signal ≠ "") as Hkey.
  { cbn in Hv. apply bind_Ok in Hv as ([] & _ & Hv). apply bind_Ok in Hv as ([] & Hk%fail_if_Ok & _).
    by apply bool_decide_eq_false_1 in Hk. }
  rewrite (append_again t2 s (cloneProcessSpec spec0) _ _ stored) by done.
  pose proof (retry_event (cloneProcessSpec spec0) signal t1 t2 id n Hs) as Hretry.
  fold stored in Hretry. rewrite sent_at_eq in Hretry.
  change (e_EventID (pv_Event stored)) with id. change (e_Sequence (pv_Event stored)) with n.
  destruct (ValidateProcessEventIdempotency stored _) as [[]|e] eqn:Hi; cbn [mbind result_bind].
  - set (next := {| status with pst_LifecycleState := _; pst_UpdatedAt := _ |}).
    destruct (update_accepts s spec0 next (sig_IdempotencyKey signal)) as (s' & r & -> & He & Hek & Hsp & Hsk & Hsame);
      [done..|by apply lives_nonempty, lives_signal|done|].
    split_and!; try done; [naive_solver|]. intros [?|?]; [done|by apply Hsame].
  - split_and!; try done. split; [done|]. intros Heq. apply Hretry in Heq. fold stored in Heq. congruence.
Qed.

(** The retry of a timer's activity is refused. *)
Lemma signal_retry_witness :
  let '(r, s') := run_calls (process_handle ProcessSample.t2)
                    (SignalProcess ProcessSample.ref (Some ProcessSample.signal)) ProcessSample.signaled in
  r ≠ Ok tt ∧ s' = ProcessSample.signaled.
Proof.
  destruct (GetProcessByRef ProcessSample.signaled ProcessSample.ref) as [[[spec status]|]|e] eqn:Hget;
    [|exfalso; vm_compute in Hget; discriminate Hget..].
  assert (spec = ProcessSample.spec) as -> by (vm_compute in Hget; injection Hget as <- _; reflexivity).
  pose proof (signal_retry ProcessSample.signaled ProcessSample.ref ProcessSample.signal ProcessSample.spec status
    ProcessSample.t1 ProcessSample.t2 "proc-1-event-2" 2 ProcessSample.signaled_reachable Hget eq_refl) as Hretry.
  destruct (run_calls _ _ _) as [r s'].
  destruct Hretry as (Hr & _ & _ & _ & _ & Hsame); [vm_compute; reflexivity|vm_compute; reflexivity|].
  assert (r ≠ Ok tt) as Hne by (intros [?|?]%Hr; [contradiction|discriminate]).
  split; [exact Hne|]. apply Hsame. left. exact Hne.
Defined.
