(* ===== verification/ProcessWorkflow.v ===== *)
(** * The process workflow

    agentos/temporal/process_workflow.go and process_activity.go: one workflow per process
    waits for signals, control requests and timers, applies each through an activity, and
    continues as a new execution when its history grows.

    The workflow is a program of calls to the Temporal SDK.  Its loop takes fuel, because
    the outside decides how many messages arrive. *)

From S2P Require Import Prelude Types Graph Scope Json Idempotency Decode Temporal Workflow.
From S2P Require Import Calls Process.
Import process.

(** ** process_activity.go *)

Record startProcessActivityInput := { spa_Spec : Spec }.
Record signalProcessActivityInput := { sga_Ref : Ref; sga_Signal : Signal }.
Record controlProcessActivityInput := { cpa_Ref : Ref; cpa_Control : ControlRequest }.
Record fireProcessTimerActivityInput := { fta_Ref : Ref; fta_Timer : TimerSpec; fta_At : string }.

Definition processTimerIdempotencyKey (processID timerID at_ : string) : string :=
  processID +:+ ":timer:" +:+ timerID +:+ ":" +:+ at_.

Definition StartProcessActivity (input : startProcessActivityInput) : pprog (result Status) :=
  StartProcess (Some (spa_Spec input)).

Definition SignalProcessActivity (input : signalProcessActivityInput) : pprog (result Status) :=
  _ ←? SignalProcess (sga_Ref input) (Some (sga_Signal input));
  StatusProcess (sga_Ref input).

Definition ControlProcessActivity (input : controlProcessActivityInput) : pprog (result Status) :=
  _ ←? ControlProcess (cpa_Ref input) (Some (cpa_Control input));
  StatusProcess (cpa_Ref input).

(** The signal a timer sends. *)
Definition timer_signal (input : fireProcessTimerActivityInput) : Signal :=
  let timer := fta_Timer input in {|
  sig_Type := if tm_Signal timer == "" then "process.timer." +:+ tm_TimerID timer else tm_Signal timer;
  sig_IdempotencyKey :=
    processTimerIdempotencyKey (prf_ProcessID (fta_Ref input)) (tm_TimerID timer) (fta_At input);
  sig_ActorID := ""; sig_Payload := cloneAnyMap (tm_Payload timer); sig_SentAt := zero_time |}.

Definition FireProcessTimerActivity (input : fireProcessTimerActivityInput) : pprog (result Status) :=
  _ ←? SignalProcess (fta_Ref input) (Some (timer_signal input));
  StatusProcess (fta_Ref input).

(** ** process_workflow.go: data *)

Definition ProcessWorkflowName : string := "AgentOSProcessWorkflow".
Definition processContinueAsNewVersionMarker : string := "agentos-process-continue-as-new".
Definition processSearchAttributesVersionMarker : string := "agentos-process-search-attributes".
Definition currentProcessWorkflowVersion : Z := 1.

Record processWorkflowTimer := {
  pwt_Timer : TimerSpec;
  pwt_At : time;
  pwt_Fired : bool;
}.

Record processWorkflowInput := {
  pwi_Spec : Spec;
  pwi_ProcessActivity : string;
  pwi_WorkflowVersion : Z;
  pwi_ContinuationCount : Z;
  pwi_Timers : list processWorkflowTimer;
}.

Record processContinuationDecision := { pcd_ShouldContinue : bool; pcd_Reason : string }.

Definition validateProcessWorkflowVersion (got : Z) : result unit :=
  validateWorkflowVersion ProcessWorkflowName got currentProcessWorkflowVersion.

Definition processWorkflowTerminal (lifecycle : string) : bool :=
  bool_decide (lifecycle ∈ [ProcessSucceeded; ProcessFailed; ProcessCanceled]).

Definition processRefFromSpec (spec : Spec) : Ref := {|
  prf_ProcessID := psp_ProcessID spec; prf_AccountID := psp_AccountID spec;
  prf_ProjectID := psp_ProjectID spec |}.

Definition failProcessWorkflowStatus (status : Status) (now : time) (reason : string) : Status :=
  {| status with pst_LifecycleState := ProcessFailed; pst_Reason := reason; pst_UpdatedAt := now |}.

Definition evaluateProcessContinuation (policy : option Policy) (historyLength : Z) :
    processContinuationDecision :=
  match policy with
  | None => {| pcd_ShouldContinue := false; pcd_Reason := "" |}
  | Some policy =>
      if ((0 <? ppl_ContinueAsNewEvents policy) && (ppl_ContinueAsNewEvents policy <=? historyLength))%Z
      then {| pcd_ShouldContinue := true; pcd_Reason := "continue_as_new_events" |}
      else if ((0 <? ppl_MaxHistoryEvents policy) && (ppl_MaxHistoryEvents policy <=? historyLength))%Z
      then {| pcd_ShouldContinue := true; pcd_Reason := "max_history_events" |}
      else {| pcd_ShouldContinue := false; pcd_Reason := "" |}
  end.

Definition continuedProcessWorkflowInput (input : processWorkflowInput)
    (timers : list processWorkflowTimer) : processWorkflowInput :=
  {| input with pwi_ContinuationCount := int32 (pwi_ContinuationCount input + 1);
                pwi_Timers := timers |}.

(** ** Calls *)

Inductive process_activity :=
  | AStart (input : startProcessActivityInput)
  | ASignal (input : signalProcessActivityInput)
  | AControl (input : controlProcessActivityInput)
  | AFireTimer (input : fireProcessTimerActivityInput).

(** What a selector chose: a message from one of the channels or a timer that fired. *)
Inductive selected :=
  | SSignal (signal : Signal)
  | SControl (control : ControlRequest)
  | STimer (index : nat).

Inductive workflow_op :=
  | WGetVersion (marker : string)
  | WActivity (taskQueue : string) (activity : process_activity)
  | WSetQueryHandler
  | WNow
  | WNewTimer (index : nat) (duration : Z)
  | WHistoryLength
  | WSelect (timers : list nat)
  | WUpsertSearchAttributes (runID lifecycle : string).

#[global] Instance workflow_calls : Calls workflow_op := {|
  reply o :=
    match o with
    | WGetVersion _ => Z
    | WActivity _ _ => result Status
    | WSetQueryHandler => result unit
    | WNow => time
    | WNewTimer _ _ => unit
    | WHistoryLength => Z
    | WSelect _ => selected
    | WUpsertSearchAttributes _ _ => bool
    end |}.

Abbreviation wprog := (calls workflow_op) (only parsing).

Definition sdk (o : workflow_op) : wprog (reply o) := ask o.

Inductive workflow_end :=
  | WReturn (status : Status)
  | WFail (status : Status) (e : go_error)
  | WContinueAsNew (status : Status) (input : processWorkflowInput)
  | WOutOfFuel.

(** The variables of the workflow: the status, the timers, the futures the selector still
    waits for, and the lifecycle that is visible to operators. *)
Record workflow_state := {
  ws_status : Status;
  ws_timers : list processWorkflowTimer;
  ws_armed : list nat;
  ws_lastSynced : string;
}.

Section workflow.
Context `{!RFC3339} (error_text : go_error → string).

Definition new_timer (now : time) (timer : TimerSpec) : processWorkflowTimer := {|
  pwt_Timer := timer;
  pwt_At := if time_is_zero (tm_FireAt timer) then time_add now (seconds (tm_AfterSeconds timer))
            else tm_FireAt timer;
  pwt_Fired := false |}.

Definition newProcessWorkflowTimers (carried : list processWorkflowTimer) (specs : list TimerSpec) :
    wprog (list processWorkflowTimer) :=
  match carried with
  | _ :: _ => mret carried
  | [] => now ← sdk WNow; mret (fmap (M := list) (new_timer now) specs)
  end.

(** [t.Sub(u)] saturates at the bounds of a duration. *)
Definition duration_until (at_ now : time) : Z :=
  Z.max (Z.max (- max_int64 - 1) (Z.min max_int64 (at_ - now))) 0.

(** The indices of the timers that have not fired. *)
Fixpoint unfired_from (index : nat) (timers : list processWorkflowTimer) : list nat :=
  match timers with
  | [] => []
  | timer :: timers =>
      if pwt_Fired timer then unfired_from (S index) timers
      else index :: unfired_from (S index) timers
  end.

Fixpoint start_timers (now : time) (index : nat) (timers : list processWorkflowTimer) : wprog unit :=
  match timers with
  | [] => mret tt
  | timer :: timers =>
      if pwt_Fired timer then start_timers now (S index) timers else
      _ ← sdk (WNewTimer index (duration_until (pwt_At timer) now));
      start_timers now (S index) timers
  end.

(** The futures added to the selector. *)
Definition AddToSelector (timers : list processWorkflowTimer) : wprog (list nat) :=
  now ← sdk WNow;
  _ ← start_timers now 0 timers;
  mret (unfired_from 0 timers).

(** An activity whose answer is the next status; its error fails the process. *)
Definition apply_activity (taskQueue : string) (activity : process_activity) (status : Status) :
    wprog Status :=
  answer ← sdk (WActivity taskQueue activity);
  match answer with
  | Ok next => mret next
  | Err e => now ← sdk WNow; mret (failProcessWorkflowStatus status now (error_text e))
  end.

Definition processWorkflowReceiveSignal (taskQueue : string) (ref : Ref) (signal : Signal)
    (status : Status) : wprog Status :=
  apply_activity taskQueue (ASignal {| sga_Ref := ref; sga_Signal := signal |}) status.

Definition processWorkflowReceiveControl (taskQueue : string) (ref : Ref) (control : ControlRequest)
    (status : Status) : wprog Status :=
  apply_activity taskQueue (AControl {| cpa_Ref := ref; cpa_Control := control |}) status.

Definition timer_input (ref : Ref) (timer : processWorkflowTimer) : fireProcessTimerActivityInput := {|
  fta_Ref := ref; fta_Timer := pwt_Timer timer; fta_At := format_time (pwt_At timer) |}.

(** The callback of a timer's future.  [timer.Fired = true] comes before the activity. *)
Definition timer_fired (taskQueue : string) (ref : Ref) (index : nat) (ws : workflow_state) :
    wprog workflow_state :=
  match ws_timers ws !! index with
  | None => mret ws
  | Some timer =>
      let ws := {| ws with
        ws_timers := <[index := {| timer with pwt_Fired := true |}]> (ws_timers ws);
        ws_armed := filter (.≠ index) (ws_armed ws) |} in
      status ← apply_activity taskQueue (AFireTimer (timer_input ref timer)) (ws_status ws);
      mret {| ws with ws_status := status |}
  end.

(** lifecycleSearchAttributeSync: best effort, only when the lifecycle changed. *)
Definition sync_lifecycle (enabled : Z) (runID : string) (ws : workflow_state) : wprog workflow_state :=
  let lifecycle := pst_LifecycleState (ws_status ws) in
  if lifecycle == ws_lastSynced ws then mret ws else
  _ ← (if (enabled <? 1)%Z then mret true else sdk (WUpsertSearchAttributes runID lifecycle));
  mret {| ws with ws_lastSynced := lifecycle |}.

Definition processWorkflowContinuation (input : processWorkflowInput)
    (timers : list processWorkflowTimer) (enabled : bool) : wprog (option processWorkflowInput) :=
  if negb enabled then mret None else
  historyLength ← sdk WHistoryLength;
  mret (if pcd_ShouldContinue (evaluateProcessContinuation (Some (psp_Policy (pwi_Spec input))) historyLength)
        then Some (continuedProcessWorkflowInput input timers) else None).

(** One callback of the selector. *)
Definition select_once (input : processWorkflowInput) (ws : workflow_state) : wprog workflow_state :=
  let queue := pwi_ProcessActivity input in
  let ref := processRefFromSpec (pwi_Spec input) in
  choice ← sdk (WSelect (ws_armed ws));
  match choice with
  | SSignal signal =>
      status ← processWorkflowReceiveSignal queue ref signal (ws_status ws);
      mret {| ws with ws_status := status |}
  | SControl control =>
      status ← processWorkflowReceiveControl queue ref control (ws_status ws);
      mret {| ws with ws_status := status |}
  | STimer index => timer_fired queue ref index ws
  end.

Fixpoint process_loop (fuel : nat) (input : processWorkflowInput) (continueAsNewEnabled : bool)
    (searchAttributes : Z) (ws : workflow_state) : wprog workflow_end :=
  let sync := sync_lifecycle searchAttributes (psp_ProcessID (pwi_Spec input)) in
  match fuel with
  | 0 => mret WOutOfFuel
  | S fuel =>
      if processWorkflowTerminal (pst_LifecycleState (ws_status ws)) then
        ws ← sync ws; mret (WReturn (ws_status ws))
      else
        next ← processWorkflowContinuation input (ws_timers ws) continueAsNewEnabled;
        match next with
        | Some next => ws ← sync ws; mret (WContinueAsNew (ws_status ws) next)
        | None =>
            ws ← select_once input ws;
            ws ← sync ws;
            process_loop fuel input continueAsNewEnabled searchAttributes ws
        end
  end.

Definition ProcessWorkflow (fuel : nat) (input : option processWorkflowInput) : wprog workflow_end :=
  match input with
  | None => mret (WFail zero_Status (Errorf ErrOther "ProcessWorkflow input is required"))
  | Some input =>
      if pwi_ProcessActivity input == "" then
        mret (WFail zero_Status
                (Errorf ErrOther "ProcessWorkflow process activity task queue is required"))
      else
      match validateProcessWorkflowVersion (pwi_WorkflowVersion input) with
      | Err e => mret (WFail zero_Status e)
      | Ok _ =>
          continueAsNew ← sdk (WGetVersion processContinueAsNewVersionMarker);
          searchAttributes ← sdk (WGetVersion processSearchAttributesVersionMarker);
          answer ← sdk (WActivity (pwi_ProcessActivity input) (AStart {| spa_Spec := pwi_Spec input |}));
          match answer with
          | Err e => mret (WFail zero_Status e)
          | Ok status =>
              handler ← sdk WSetQueryHandler;
              match handler with
              | Err e => mret (WFail status e)
              | Ok _ =>
                  timers ← newProcessWorkflowTimers (pwi_Timers input) (psp_Timers (pwi_Spec input));
                  armed ← AddToSelector timers;
                  process_loop fuel input (1 <=? continueAsNew)%Z searchAttributes
                    {| ws_status := status; ws_timers := timers; ws_armed := armed; ws_lastSynced := "" |}
              end
          end
      end
  end.
End workflow.
