(* ===== verification/ProcessWorkflowSpec.v ===== *)
(** * Executions of the process workflow

    Over any chain of executions that continue one another, whatever messages arrive and
    whichever activities fail: no timer fires twice and none moves; the status an execution
    returns is terminal and is the answer of its last activity, or the failure of it. *)

From S2P Require Import Prelude Types Graph Scope Json Idempotency Decode Temporal Workflow.
From S2P Require Import Calls Process ProcessWorkflow.
Import process.

Abbreviation wlog := (list (exchange workflow_op)) (only parsing).

(** What Temporal promises: a selector fires a timer only if it was added and has not fired. *)
Definition fair (x : exchange workflow_op) : Prop :=
  match x_op x as o return reply o → Prop with
  | WSelect armed => λ choice, match choice with STimer i => i ∈ armed | _ => True end
  | _ => λ _, True
  end (x_reply x).

(** The timer activities of a log. *)
Definition fired_input (x : exchange workflow_op) : option fireProcessTimerActivityInput :=
  match x_op x with WActivity _ (AFireTimer input) => Some input | _ => None end.

Definition fired (l : wlog) : list fireProcessTimerActivityInput := omap fired_input l.

Lemma fired_app l1 l2 : fired (l1 ++ l2) = fired l1 ++ fired l2.
Proof. apply omap_app. Qed.

(** Executions that continue one another. *)
Inductive chain `{!RFC3339} (error_text : go_error → string) : processWorkflowInput → wlog → Prop :=
  | chain_last fuel input l e :
      traced (ProcessWorkflow error_text fuel (Some input)) l e → chain error_text input l
  | chain_next fuel input l status next l' :
      traced (ProcessWorkflow error_text fuel (Some input)) l (WContinueAsNew status next) →
      chain error_text next l' → chain error_text input (l ++ l').

Section executions.
Context `{!RFC3339} (error_text : go_error → string).

(** ** Timers *)

Definition unfired (ref : Ref) (timers : list processWorkflowTimer) : list fireProcessTimerActivityInput :=
  timer_input ref <$> filter (λ t, pwt_Fired t = false) timers.

(** Firing a timer takes it out of the ones left. *)
Lemma unfired_insert ref timers i timer :
  timers !! i = Some timer → pwt_Fired timer = false →
  unfired ref timers ≡ₚ timer_input ref timer :: unfired ref (<[i := {| timer with pwt_Fired := true |}]> timers).
Proof.
  intros Hi Hf. unfold unfired. rewrite <- fmap_cons. apply fmap_Permutation.
  rewrite <- (take_drop_middle _ _ _ Hi) at 1. rewrite insert_take_drop by by eapply lookup_lt_Some.
  rewrite !filter_app, !filter_cons. rewrite decide_True by done. rewrite decide_False by done.
  by rewrite Permutation_middle.
Qed.

(** The timers that the selector waits for have not fired. *)
Definition armed_ok (ws : workflow_state) : Prop :=
  ∀ i, i ∈ ws_armed ws → ∃ timer, ws_timers ws !! i = Some timer ∧ pwt_Fired timer = false.

Lemma unfired_from_spec n timers i :
  i ∈ unfired_from n timers → ∃ timer, timers !! (i - n) = Some timer ∧ pwt_Fired timer = false ∧ n ≤ i.
Proof.
  revert n. induction timers as [|t timers IH]; intros n; cbn; [by intros ?%not_elem_of_nil|].
  assert (i ∈ unfired_from (S n) timers →
    ∃ timer, (t :: timers) !! (i - n) = Some timer ∧ pwt_Fired timer = false ∧ n ≤ i) as Htail.
  { intros (timer & Ht & Hf & Hle)%IH. exists timer. split_and!; [|done|lia].
    by replace (i - n) with (S (i - S n)) by lia. }
  destruct (pwt_Fired t) eqn:Hf; [exact Htail|]. intros [->|?]%elem_of_cons; [|by apply Htail].
  exists t. rewrite Nat.sub_diag. by split_and!.
Qed.

(** ** Parts of an execution *)

Lemma apply_activity_log queue activity status l status' :
  traced (apply_activity error_text queue activity status) l status' →
  fired l = match activity with AFireTimer input => [input] | _ => [] end.
Proof.
  intros (r & l' & -> & Ht). cbn in Ht. destruct r as [next|e].
  - destruct Ht as [-> _]. by destruct activity.
  - destruct Ht as (now & l2 & -> & [-> _]). by destruct activity.
Qed.

Lemma sync_log enabled runID ws l ws' :
  traced (sync_lifecycle enabled runID ws) l ws' →
  fired l = [] ∧ ws_timers ws' = ws_timers ws ∧ ws_armed ws' = ws_armed ws ∧ ws_status ws' = ws_status ws.
Proof.
  unfold sync_lifecycle. destruct (bool_decide _); [by intros [-> ->]|].
  destruct (_ <? _)%Z; [by intros [-> ->]|]. by intros (r & l' & -> & -> & ->).
Qed.

Lemma continuation_log input timers enabled l next :
  traced (processWorkflowContinuation input timers enabled) l next →
  fired l = [] ∧ (next = None ∨ next = Some (continuedProcessWorkflowInput input timers)).
Proof.
  unfold processWorkflowContinuation. destruct (negb enabled); [intros [-> ->]; by split; [|left]|].
  intros (h & l' & -> & -> & ->). destruct (pcd_ShouldContinue _); split; naive_solver.
Qed.

Lemma select_log input ws l ws' :
  let ref := processRefFromSpec (pwi_Spec input) in
  armed_ok ws → Forall fair l → traced (select_once error_text input ws) l ws' →
  armed_ok ws' ∧ fired l ++ unfired ref (ws_timers ws') ≡ₚ unfired ref (ws_timers ws) ∧
  length (ws_timers ws') = length (ws_timers ws).
Proof.
  cbv zeta. intros Ha Hf (choice & l' & -> & Ht)%(traced_call (WSelect _)).
  apply Forall_cons in Hf as [Hc _]. cbn in Hc.
  destruct choice as [signal|control|i].
  - apply traced_bind in Ht as (st & l1 & l2 & -> & Ht%apply_activity_log & [-> ->]).
    cbn. rewrite fired_app, Ht. by split_and!.
  - apply traced_bind in Ht as (st & l1 & l2 & -> & Ht%apply_activity_log & [-> ->]).
    cbn. rewrite fired_app, Ht. by split_and!.
  - destruct (Ha i Hc) as (timer & Hi & Hfi). unfold timer_fired in Ht. rewrite Hi in Ht.
    apply traced_bind in Ht as (st & l1 & l2 & -> & Ht%apply_activity_log & [-> ->]).
    cbn. rewrite fired_app, Ht. cbn. split_and!.
    + intros j [Hne Hj]%list_elem_of_filter. destruct (Ha j Hj) as (tj & Hj' & ?). exists tj.
      cbn. by rewrite list_lookup_insert_ne.
    + symmetry. by apply unfired_insert.
    + by rewrite length_insert.
Qed.

(** What an execution leaves to its continuation. *)
Lemma loop_log fuel input enabled attributes ws l e :
  let ref := processRefFromSpec (pwi_Spec input) in
  armed_ok ws → Forall fair l → traced (process_loop error_text fuel input enabled attributes ws) l e →
  fired l ⊆+ unfired ref (ws_timers ws) ∧
  (∀ status next, e = WContinueAsNew status next →
     pwi_Spec next = pwi_Spec input ∧ fired l ++ unfired ref (pwi_Timers next) ≡ₚ unfired ref (ws_timers ws) ∧
     length (pwi_Timers next) = length (ws_timers ws)).
Proof.
  cbv zeta. revert ws l. induction fuel as [|fuel IH]; intros ws l Ha Hf; cbn [process_loop].
  { intros [-> ->]. split; [apply submseteq_nil_l|done]. }
  destruct (processWorkflowTerminal _).
  { intros (ws1 & l1 & l2 & -> & (Hl & _)%sync_log & [-> ->])%traced_bind.
    rewrite fired_app, Hl. split; [apply submseteq_nil_l|done]. }
  intros (next & l1 & l2 & -> & [Hl1 Hnext]%continuation_log & Ht)%traced_bind.
  apply Forall_app in Hf as [_ Hf]. rewrite fired_app, Hl1. cbn [app].
  destruct Hnext as [->| ->].
  - apply traced_bind in Ht as (ws1 & l3 & l4 & -> & Hsel & Ht).
    apply Forall_app in Hf as [Hf3 Hf4]. apply select_log in Hsel as (Ha1 & Hp1 & Hlen1); [|done..].
    apply traced_bind in Ht as (ws2 & l5 & l6 & -> & (Hl5 & Ht2 & Harm2 & _)%sync_log & Ht).
    apply Forall_app in Hf4 as [_ Hf6]. rewrite !fired_app, Hl5. cbn [app].
    assert (armed_ok ws2) as Ha2. { intros i. rewrite Harm2, Ht2. apply Ha1. }
    destruct (IH ws2 l6 Ha2 Hf6 Ht) as [Hsub Hcan]. rewrite Ht2 in Hsub, Hcan. split.
    + rewrite <- Hp1. by apply submseteq_skips_l.
    + intros status next He. destruct (Hcan _ _ He) as (? & Hp & ?). split_and!; [done| |congruence].
      by rewrite <- app_assoc, Hp.
  - apply traced_bind in Ht as (ws1 & l3 & l4 & -> & (Hl3 & Ht1 & _)%sync_log & [-> ->]).
    rewrite fired_app, Hl3. split; [apply submseteq_nil_l|]. intros status next [= <- <-]. by split_and!.
Qed.

Lemma start_timers_log now index timers l u :
  traced (start_timers now index timers) l u → fired l = [].
Proof.
  revert index l. induction timers as [|t timers IH]; intros index l; [by intros [-> _]|]. cbn [start_timers].
  destruct (pwt_Fired t); [apply IH|]. intros (r & l' & -> & Ht)%traced_call. by apply IH in Ht.
Qed.

Lemma selector_log timers l armed :
  traced (AddToSelector timers) l armed → fired l = [] ∧ armed = unfired_from 0 timers.
Proof.
  intros (now & l' & -> & Ht)%(traced_call WNow).
  apply traced_bind in Ht as (u & l1 & l2 & -> & Hl%start_timers_log & [-> ->]).
  split; [|done]. cbn. by rewrite fired_app, Hl.
Qed.

(** The timers of an execution: the ones carried over, or those of the specification when
    none are. *)
Definition timers_of (input : processWorkflowInput) (l : wlog) (timers : list processWorkflowTimer) : Prop :=
  match pwi_Timers input with
  | [] => ∃ now, Exchange WNow now ∈ l ∧ timers = (new_timer now <$> psp_Timers (pwi_Spec input))
  | carried => timers = carried
  end.

Lemma new_timers_log input l timers :
  traced (newProcessWorkflowTimers (pwi_Timers input) (psp_Timers (pwi_Spec input))) l timers →
  fired l = [] ∧ timers_of input l timers.
Proof.
  unfold newProcessWorkflowTimers, timers_of. destruct (pwi_Timers input); [|by intros [-> ->]].
  intros (now & l' & -> & [-> ->])%(traced_call WNow). split; [done|]. exists now. split; [by left|done].
Qed.

Lemma timers_of_mono input l l' timers : l ⊆ l' → timers_of input l timers → timers_of input l' timers.
Proof. unfold timers_of. destruct (pwi_Timers input); [|done]. intros Hl (now & ? & ->). exists now. auto. Qed.

(** One execution: either it stops before it has timers, or it is its loop. *)
Lemma execution_log fuel input l e :
  let ref := processRefFromSpec (pwi_Spec input) in
  Forall fair l → traced (ProcessWorkflow error_text fuel (Some input)) l e →
  (fired l = [] ∧ ∀ status next, e ≠ WContinueAsNew status next) ∨
  ∃ timers, timers_of input l timers ∧ fired l ⊆+ unfired ref timers ∧
    ∀ status next, e = WContinueAsNew status next →
      pwi_Spec next = pwi_Spec input ∧ fired l ++ unfired ref (pwi_Timers next) ≡ₚ unfired ref timers ∧
      length (pwi_Timers next) = length timers.
Proof.
  cbv zeta. intros Hf. cbn [ProcessWorkflow].
  destruct (bool_decide _); [intros [-> ->]; by left|].
  destruct (validateProcessWorkflowVersion _); [|intros [-> ->]; by left].
  intros (v1 & l1 & -> & (v2 & l2 & -> & (r & l3 & -> & Ht)%traced_call)%traced_call)%traced_call.
  destruct r as [status|err]; [|destruct Ht as [-> ->]; by left].
  apply (traced_call WSetQueryHandler) in Ht as (h & l4 & -> & Ht).
  destruct h; [|destruct Ht as [-> ->]; by left]. right.
  apply traced_bind in Ht as (timers & l5 & l6 & -> & [Hl5 Htimers]%new_timers_log & Ht).
  apply traced_bind in Ht as (armed & l7 & l8 & -> & [Hl7 ->]%selector_log & Ht).
  rewrite !Forall_cons, !Forall_app in Hf. destruct Hf as (_ & _ & _ & _ & _ & _ & Hf).
  exists timers. apply loop_log in Ht as [Hsub Hcan]; [|intros i|done]; cbn in *.
  - rewrite !fired_app, Hl5, Hl7. cbn [app]. split_and!; [|done..].
    eapply timers_of_mono; [|done]. set_solver.
  - intros (timer & Hi & ? & _)%unfired_from_spec. rewrite Nat.sub_0_r in Hi. by exists timer.
Qed.

Lemma timers_of_carried input l timers :
  pwi_Timers input ≠ [] ∨ psp_Timers (pwi_Spec input) = [] → timers_of input l timers →
  timers = pwi_Timers input.
Proof.
  unfold timers_of. destruct (pwi_Timers input); [|done]. intros [?|Hn]; [done|].
  rewrite Hn. by intros (now & _ & ->).
Qed.

(** Once timers are carried, every later execution fires only what is left of them. *)
Lemma carried_chain input l :
  pwi_Timers input ≠ [] ∨ psp_Timers (pwi_Spec input) = [] → chain error_text input l → Forall fair l →
  fired l ⊆+ unfired (processRefFromSpec (pwi_Spec input)) (pwi_Timers input).
Proof.
  intros Hne Hc. revert Hne.
  induction Hc as [fuel input l e Ht|fuel input l status next l' Ht _ IH]; intros Hne Hf.
  { destruct (execution_log _ _ _ _ Hf Ht) as [[-> _]|(timers & ->%timers_of_carried & Hsub & _)];
      [apply submseteq_nil_l|done..]. }
  apply Forall_app in Hf as [Hf Hf'].
  destruct (execution_log _ _ _ _ Hf Ht) as [[_ Hno]|(timers & ->%timers_of_carried & _ & Hcan)];
    [by destruct (Hno status next)| |done].
  destruct (Hcan _ _ eq_refl) as (Hspec & Hp & Hlen). rewrite Hspec in IH. rewrite fired_app, <- Hp.
  apply submseteq_skips_l, IH; [|done].
  destruct Hne as [Hne|]; [left|by right]. intros Hnil. apply Hne. by rewrite Hnil in Hlen; apply nil_length_inv.
Qed.

Lemma unfired_new ref now specs :
  unfired ref (new_timer now <$> specs) = (timer_input ref <$> (new_timer now <$> specs)).
Proof. unfold unfired. f_equal. induction specs as [|t specs IH]; [done|].
  rewrite !fmap_cons, filter_cons_True by done. by rewrite IH. Qed.

(** The timers of a process are set once, from the time of its first execution. *)
Lemma chain_timers input l :
  chain error_text input l → Forall fair l → pwi_Timers input = [] →
  fired l = [] ∨ ∃ now, Exchange WNow now ∈ l ∧
    fired l ⊆+ (timer_input (processRefFromSpec (pwi_Spec input)) <$> (new_timer now <$> psp_Timers (pwi_Spec input))).
Proof.
  intros Hc Hf Hnil. destruct Hc as [fuel input l e Ht|fuel input l status next l' Ht Hc].
  - destruct (execution_log _ _ _ _ Hf Ht) as [[-> _]|(timers & Hof & Hsub & _)]; [by left|].
    unfold timers_of in Hof. rewrite Hnil in Hof. destruct Hof as (now & Hnow & ->). right. exists now.
    by rewrite unfired_new in Hsub.
  - apply Forall_app in Hf as [Hf Hf'].
    destruct (execution_log _ _ _ _ Hf Ht) as [[_ Hno]|(timers & Hof & _ & Hcan)];
      [by destruct (Hno status next)|].
    unfold timers_of in Hof. rewrite Hnil in Hof. destruct Hof as (now & Hnow & ->). right. exists now.
    split; [set_solver|]. destruct (Hcan _ _ eq_refl) as (Hspec & Hp & Hlen).
    rewrite fired_app, <- unfired_new, <- Hp, <- Hspec. apply submseteq_skips_l, carried_chain; [|done..].
    destruct (pwi_Timers next); [right|by left]. rewrite length_fmap in Hlen. rewrite Hspec.
    by apply nil_length_inv.
Qed.

(** ** Results *)

(** The answers of the activities of a log. *)
Definition answer_of (x : exchange workflow_op) : option (result Status) :=
  match x_op x as o return reply o → option (result Status) with
  | WActivity _ _ => Some
  | _ => λ _, None
  end (x_reply x).

Definition answers (l : wlog) : list (result Status) := omap answer_of l.

Lemma answers_app l1 l2 : answers (l1 ++ l2) = answers l1 ++ answers l2.
Proof. apply omap_app. Qed.

(** The process goes on after this answer. *)
Definition live (answer : result Status) : Prop :=
  ∃ status, answer = Ok status ∧ processWorkflowTerminal (pst_LifecycleState status) = false.

(** How the result of an execution follows from the answers. *)
Definition outcome (rs : list (result Status)) (e : workflow_end) : Prop :=
  match e with
  | WReturn status =>
      processWorkflowTerminal (pst_LifecycleState status) = true ∧
      ∃ earlier final, rs = earlier ++ [final] ∧ Forall live earlier ∧
        (final = Ok status ∨
         ∃ err prev now, final = Err err ∧ last earlier = Some (Ok prev) ∧
           status = failProcessWorkflowStatus prev now (error_text err))
  | WContinueAsNew status _ => Forall live rs ∧ last rs = Some (Ok status)
  | WFail _ _ => length rs ≤ 1
  | WOutOfFuel => True
  end.

(** What one answer does to the status. *)
Definition applied (status : Status) (rs : list (result Status)) (status' : Status) : Prop :=
  (rs = [] ∧ status' = status) ∨ rs = [Ok status'] ∨
  ∃ err now, rs = [Err err] ∧ status' = failProcessWorkflowStatus status now (error_text err).

Lemma apply_activity_answers queue activity status l status' :
  traced (apply_activity error_text queue activity status) l status' → applied status (answers l) status'.
Proof.
  intros (r & l' & -> & Ht). cbn in Ht. destruct r as [next|err].
  - destruct Ht as [-> ->]. right. by left.
  - destruct Ht as (now & l2 & -> & [-> ->]). do 2 right. by exists err, now.
Qed.

Lemma select_answers input ws l ws' :
  traced (select_once error_text input ws) l ws' → applied (ws_status ws) (answers l) (ws_status ws').
Proof.
  intros (choice & l' & -> & Ht)%(traced_call (WSelect _)). destruct choice as [signal|control|i].
  3: unfold timer_fired in Ht; destruct (ws_timers ws !! i); [|destruct Ht as [-> ->]; by left].
  all: apply traced_bind in Ht as (st & l1 & l2 & -> & Ht%apply_activity_answers & [-> ->]);
    cbn; by rewrite answers_app, app_nil_r.
Qed.

Lemma sync_answers enabled runID ws l ws' :
  traced (sync_lifecycle enabled runID ws) l ws' → answers l = [] ∧ ws_status ws' = ws_status ws.
Proof.
  unfold sync_lifecycle. destruct (bool_decide _); [by intros [-> ->]|].
  destruct (_ <? _)%Z; [by intros [-> ->]|]. by intros (r & l' & -> & -> & ->).
Qed.

Lemma continuation_answers input timers enabled l next :
  traced (processWorkflowContinuation input timers enabled) l next → answers l = [].
Proof.
  unfold processWorkflowContinuation. destruct (negb enabled); [by intros [-> ->]|].
  by intros (h & l' & -> & -> & ->).
Qed.

Definition fails (e : workflow_end) : Prop := match e with WFail _ _ => True | _ => False end.

Lemma outcome_ok status status' rs e :
  ¬ fails e → live (Ok status) → outcome (Ok status' :: rs) e → outcome (Ok status :: Ok status' :: rs) e.
Proof.
  intros Hno Hl. destruct e as [s| |s next|]; [|by destruct Hno| |done]; cbn.
  - intros (Ht & earlier & final & Heq & Hall & Hfin). split; [done|]. exists (Ok status :: earlier), final.
    rewrite Heq. split_and!; [done|by constructor|]. destruct earlier; [|exact Hfin].
    destruct Hfin as [|(? & ? & ? & _ & [=] & _)]. by left.
  - intros [Hall Hlast]. split; [by constructor|exact Hlast].
Qed.

Lemma outcome_err status err now rs e :
  let status' := failProcessWorkflowStatus status now (error_text err) in
  ¬ fails e → live (Ok status) → outcome (Ok status' :: rs) e → outcome (Ok status :: Err err :: rs) e.
Proof.
  cbv zeta. intros Hno Hl.
  assert (¬ live (Ok (failProcessWorkflowStatus status now (error_text err)))) as Hdead by (by intros (? & [= <-] & [=])).
  destruct e as [s| |s next|]; [|by destruct Hno| |done]; cbn.
  - intros (Ht & [|r earlier] & final & [= <- Heq] & Hall & Hfin).
    2: { apply Forall_cons in Hall as [? _]. done. }
    subst rs. destruct Hfin as [[= <-]|(? & ? & ? & [=] & _)]. split; [done|].
    exists [Ok status], (Err err). split_and!; [done|by constructor|]. right. by exists err, status, now.
  - intros [[? _]%Forall_cons _]. done.
Qed.

Lemma outcome_applied status rs status' rs' e :
  ¬ fails e → live (Ok status) → applied status rs status' →
  outcome (Ok status' :: rs') e → outcome (Ok status :: rs ++ rs') e.
Proof.
  intros Hno Hl [[-> ->]|[->|(err & now & -> & ->)]]; [done|by apply outcome_ok|by apply outcome_err].
Qed.

Lemma loop_outcome fuel input enabled attributes ws l e :
  traced (process_loop error_text fuel input enabled attributes ws) l e →
  ¬ fails e ∧ outcome (Ok (ws_status ws) :: answers l) e.
Proof.
  revert ws l. induction fuel as [|fuel IH]; intros ws l; cbn [process_loop]; [intros [-> ->]; naive_solver|].
  destruct (processWorkflowTerminal _) eqn:Hterm.
  { intros (ws1 & l1 & l2 & -> & [Hl1 Hs]%sync_answers & [-> ->])%traced_bind.
    rewrite answers_app, Hl1, Hs. split; [by intros []|]. split; [done|]. exists [], (Ok (ws_status ws)).
    split_and!; [done|constructor|by left]. }
  assert (live (Ok (ws_status ws))) as Hl by (by exists (ws_status ws)).
  intros (next & l1 & l2 & -> & Hl1%continuation_answers & Ht)%traced_bind. rewrite answers_app, Hl1. cbn [app].
  destruct next as [next|].
  - apply traced_bind in Ht as (ws1 & l3 & l4 & -> & [Hl3 Hs]%sync_answers & [-> ->]).
    rewrite answers_app, Hl3, Hs. split; [by intros []|]. by split; [constructor|].
  - apply traced_bind in Ht as (ws1 & l3 & l4 & -> & Hsel%select_answers & Ht).
    apply traced_bind in Ht as (ws2 & l5 & l6 & -> & [Hl5 Hs]%sync_answers & Ht).
    apply IH in Ht as [Hno Hout]. split; [done|]. rewrite !answers_app, Hl5. cbn [app].
    eapply outcome_applied; [done..|]. by rewrite <- Hs.
Qed.

Lemma start_timers_answers now index timers l u :
  traced (start_timers now index timers) l u → answers l = [].
Proof.
  revert index l. induction timers as [|t timers IH]; intros index l; [by intros [-> _]|]. cbn [start_timers].
  destruct (pwt_Fired t); [apply IH|]. intros (r & l' & -> & Ht)%traced_call. by apply IH in Ht.
Qed.

Lemma execution_outcome fuel input l e :
  traced (ProcessWorkflow error_text fuel input) l e → outcome (answers l) e.
Proof.
  destruct input as [input|]; [|intros [-> ->]; cbn; lia]. cbn [ProcessWorkflow].
  destruct (bool_decide _); [intros [-> ->]; cbn; lia|].
  destruct (validateProcessWorkflowVersion _); [|intros [-> ->]; cbn; lia].
  intros (v1 & l1 & -> & (v2 & l2 & -> & (r & l3 & -> & Ht)%traced_call)%traced_call)%traced_call.
  destruct r as [status|err]; [|destruct Ht as [-> ->]; cbn; lia].
  apply (traced_call WSetQueryHandler) in Ht as (h & l4 & -> & Ht).
  destruct h; [|destruct Ht as [-> ->]; cbn; lia].
  apply traced_bind in Ht as (timers & l5 & l6 & -> & Hl5 & Ht).
  apply traced_bind in Ht as (armed & l7 & l8 & -> & Hl7 & Ht%loop_outcome).
  assert (answers l5 = []) as H5.
  { unfold newProcessWorkflowTimers in Hl5. destruct (pwi_Timers input); [|by destruct Hl5 as [-> _]].
    by destruct Hl5 as (now & ? & -> & -> & _). }
  assert (answers l7 = []) as H7.
  { apply (traced_call WNow) in Hl7 as (now & l' & -> & Hl7). apply traced_bind in Hl7 as (u & l9 & l10 & -> & H9 & [-> _]).
    apply start_timers_answers in H9. cbn. by rewrite answers_app, H9. }
  cbn. rewrite !answers_app, H5, H7. apply Ht.
Qed.

(** ** Theorems *)

(** C14: timers fire once.  Follow the executions of a process that continue one another, from
    the first on, whatever messages arrive, whichever activities fail and wherever the
    history limit cuts.  Each timer of the specification is fired at most once over all of
    them, for the process itself, under the due time it got in the first execution; nothing
    else is ever fired. *)
Theorem timers_fire_once input l :
  chain error_text input l → Forall fair l → pwi_Timers input = [] →
  fired l = [] ∨ ∃ now, Exchange WNow now ∈ l ∧
    fired l ⊆+ (timer_input (processRefFromSpec (pwi_Spec input)) <$>
                 (new_timer now <$> psp_Timers (pwi_Spec input))).
Proof. apply chain_timers. Qed.

(** The result of an execution.  It returns a status only when that is terminal, and the
    status is the answer of the last activity, or the failed status that the error of the
    last activity makes out of the answer before it; all earlier answers were non-terminal
    statuses, so nothing is applied to a process after it ended.  It continues as new with
    the last answer, after non-terminal answers only; and where the execution itself fails,
    no message was applied. *)
Theorem process_result fuel input l e :
  traced (ProcessWorkflow error_text fuel input) l e → outcome (answers l) e.
Proof. apply execution_outcome. Qed.
End executions.

(** ** Witnesses *)

Module ProcessWorkflowSample.
#[local] Instance text : RFC3339 := {| format_time _ := "2026-01-01T00:00:00Z"; parse_time _ := None |}.
Definition error_text (e : go_error) : string := "activity failed".

Definition reminder : TimerSpec := {|
  tm_TimerID := "reminder"; tm_Signal := ""; tm_FireAt := zero_time; tm_AfterSeconds := 60%Z;
  tm_Payload := None |}.
Definition spec : Spec := {| zero_Spec with
  psp_ProcessID := "proc-1"; psp_Kind := "approval"; psp_AccountID := "acct"; psp_ProjectID := "proj";
  psp_IdempotencyKey := "start-1"; psp_Timers := [reminder];
  psp_Policy := {| zero_Policy with ppl_ContinueAsNewEvents := 100%Z |} |}.
Definition input : processWorkflowInput := {|
  pwi_Spec := spec; pwi_ProcessActivity := "process"; pwi_WorkflowVersion := 1; pwi_ContinuationCount := 0;
  pwi_Timers := [] |}.
Definition status (lifecycle : string) : Status := {| zero_Status with pst_LifecycleState := lifecycle |}.

(** A selector that fires the first timer, or hands over a cancel request; every call adds
    ten events to the history. *)
Definition handle (o : workflow_op) (calls : Z) : reply o * Z :=
  (match o return reply o with
   | WGetVersion _ => 1%Z
   | WActivity _ (AControl _) => Ok (status ProcessCanceled)
   | WActivity _ _ => Ok (status ProcessRunning)
   | WSetQueryHandler => Ok tt
   | WNow => 1000000000%Z
   | WNewTimer _ _ => tt
   | WHistoryLength => (10 * calls)%Z
   | WSelect [] => SControl {| ctl_Operation := "cancel"; ctl_IdempotencyKey := "cancel-1";
                               ctl_RequestedAt := 5000000%Z; ctl_ActorID := ""; ctl_Metadata := None |}
   | WSelect (i :: _) => STimer i
   | WUpsertSearchAttributes _ _ => true
   end, (calls + 1)%Z).

(** The first execution fires the timer and reaches the limit, the second one is canceled. *)
Definition first : wprog workflow_end := ProcessWorkflow error_text 5 (Some input).
Definition next : processWorkflowInput :=
  match (run_calls handle first 0%Z).1 with WContinueAsNew _ next => next | _ => input end.
Definition second : wprog workflow_end := ProcessWorkflow error_text 5 (Some next).
Definition log : wlog := run_log handle first 0%Z ++ run_log handle second 0%Z.

Lemma continues : chain error_text input log.
Proof.
  apply (chain_next error_text 5 input _ (status ProcessRunning) next).
  - exact (traced_run handle first 0%Z).
  - apply (chain_last error_text 5 next _ (WReturn (status ProcessCanceled))), (traced_run handle second 0%Z).
Qed.

Lemma log_fair : Forall fair log.
Proof. repeat first [by apply Forall_nil_2|apply Forall_cons_2; [first [exact I|left]|]]. Qed.
End ProcessWorkflowSample.

Lemma timers_fire_once_witness :
  let l := ProcessWorkflowSample.log in
  length (fired l) = 1 ∧
  ∃ now, Exchange WNow now ∈ l ∧
    fired l ⊆+ [timer_input (H := ProcessWorkflowSample.text)
      (processRefFromSpec ProcessWorkflowSample.spec) (new_timer now ProcessWorkflowSample.reminder)].
Proof.
  split; [vm_compute; reflexivity|].
  destruct (timers_fire_once ProcessWorkflowSample.error_text ProcessWorkflowSample.input
    ProcessWorkflowSample.log ProcessWorkflowSample.continues ProcessWorkflowSample.log_fair eq_refl) as [H|H].
  - discriminate H.
  - exact H.
Defined.

Lemma process_result_witness :
  let l := run_log ProcessWorkflowSample.handle ProcessWorkflowSample.second 0%Z in
  answers l = [Ok (ProcessWorkflowSample.status ProcessRunning); Ok (ProcessWorkflowSample.status ProcessCanceled)] ∧
  outcome ProcessWorkflowSample.error_text (answers l)
    (WReturn (ProcessWorkflowSample.status ProcessCanceled)).
Proof.
  split; [vm_compute; reflexivity|].
  apply (@process_result ProcessWorkflowSample.text ProcessWorkflowSample.error_text 5 (Some ProcessWorkflowSample.next)).
  apply (traced_run ProcessWorkflowSample.handle ProcessWorkflowSample.second 0%Z).
Defined.
