(* ===== verification/Ledger.v ===== *)
(** * The ledger

    agentos/process/ledger.go (the data of a ledger and its validation) and
    internal/usecase/agentosledger (idempotency.go, memory_store.go, runtime.go): an
    append-only audit trail of a tenant.  A request is one call on the store, under its
    lock, so the operations are functions on the store.

    The copies that the store makes ([maps.Clone], copied slices) are equal to the
    originals here and left out. *)

From S2P Require Import Prelude Types Graph Scope Json Idempotency Calls Process.
Import process.

Module ledger.

(** ** agentos/process/ledger.go *)

Definition LedgerEntryDecision : string := "decision".
Definition LedgerEntryEvidence : string := "evidence".
Definition LedgerEntryArtifact : string := "artifact".
Definition LedgerEntryAction : string := "action".
Definition LedgerEntryPrompt : string := "prompt".
Definition LedgerEntryResponse : string := "response".
Definition LedgerEntryToolIO : string := "tool_io".
Definition LedgerEntryRationale : string := "rationale".

Record ActorRef := { act_Kind : string; act_ActorID : string }.

Record LedgerDataRef := {
  ldr_Kind : string;
  ldr_URI : string;
  ldr_ArtifactID : string;
  ldr_MediaType : string;
  ldr_Digest : string;
  ldr_Metadata : go_map string;
}.

Record LedgerEntrySpec := {
  les_EntryID : string;
  les_IdempotencyKey : string;
  les_AccountID : string;
  les_ProjectID : string;
  les_ProcessID : string;
  les_Resource : ResourceRef;
  les_Kind : string;
  les_Actor : ActorRef;
  les_OccurredAt : time;
  les_Summary : string;
  les_Rationale : string;
  les_DataRefs : list LedgerDataRef;
  les_ArtifactRefs : list ArtifactRef;
  les_Metadata : go_map string;
}.

Record LedgerEntry := {
  le_Spec : LedgerEntrySpec;
  le_Sequence : Z;
  le_CreatedAt : time;
}.

Record LedgerScope := {
  lsc_AccountID : string;
  lsc_ProjectID : string;
  lsc_ProcessID : string;
  lsc_Resource : ResourceRef;
  lsc_Kind : string;
  lsc_AfterSequence : Z;
  lsc_Limit : Z;
}.

#[global] Instance ActorRef_eq_dec : EqDecision ActorRef.
Proof. solve_decision. Defined.
#[global] Instance LedgerDataRef_eq_dec : EqDecision LedgerDataRef.
Proof. solve_decision. Defined.

Definition zero_ActorRef : ActorRef := {| act_Kind := ""; act_ActorID := "" |}.

Definition validateLedgerEntryIdentity (spec : LedgerEntrySpec) : result unit :=
  fail_if (les_EntryID spec == "") (Errorf ErrInvalidLedgerEntry "entry id is required");;
  fail_if (les_IdempotencyKey spec == "") (Errorf ErrInvalidLedgerEntry "idempotency key is required");;
  fail_if (les_AccountID spec == "") (Errorf ErrInvalidLedgerEntry "account id is required");;
  fail_if (les_ProjectID spec == "") (Errorf ErrInvalidLedgerEntry "project id is required");;
  fail_if (les_Kind spec == "") (Errorf ErrInvalidLedgerEntry "kind is required").

(** A resource is optional; a given one is valid and of the tenant. *)
Definition validateTenantResource (accountID projectID : string) (resource : ResourceRef)
    (scopeErr : sentinel) (outside : string) : result unit :=
  if (rr_Kind resource == "") && (rr_ResourceID resource == "") && (rr_AccountID resource == "") &&
     (rr_ProjectID resource == "") then Ok tt else
  map_err (λ _, Errorf scopeErr "%w") (ValidateResourceRef resource);;
  fail_if ((rr_AccountID resource != accountID) || (rr_ProjectID resource != projectID))
    (Errorf scopeErr outside).

Definition validateLedgerResource (accountID projectID : string) (resource : ResourceRef)
    (scopeErr : sentinel) : result unit :=
  validateTenantResource accountID projectID resource scopeErr "resource must be in ledger tenant scope".

Definition validateLedgerEntryScope (spec : LedgerEntrySpec) : result unit :=
  validateLedgerResource (les_AccountID spec) (les_ProjectID spec) (les_Resource spec) ErrInvalidLedgerEntry;;
  fail_if ((les_ProcessID spec == "") && (rr_Kind (les_Resource spec) == ""))
    (Errorf ErrInvalidLedgerEntry "process id or resource ref is required").

Definition validateLedgerDataRef (ref : LedgerDataRef) : result unit :=
  fail_if (ldr_Kind ref == "") (Errorf ErrInvalidLedgerEntry "data ref kind is required");;
  fail_if ((ldr_URI ref == "") && (ldr_ArtifactID ref == ""))
    (Errorf ErrInvalidLedgerEntry "data ref uri or artifact id is required").

Definition validateLedgerDataRefs (refs : list LedgerDataRef) : result unit :=
  forM validateLedgerDataRef refs.

Definition ValidateLedgerEntrySpec (spec : option LedgerEntrySpec) : result unit :=
  match spec with
  | None => Err (Errorf ErrInvalidLedgerEntry "ledger entry is required")
  | Some spec =>
      validateLedgerEntryIdentity spec;;
      validateLedgerEntryScope spec;;
      validateLedgerDataRefs (les_DataRefs spec)
  end.

Definition ValidateLedgerScope (scope : option LedgerScope) : result unit :=
  match scope with
  | None => Err (Errorf ErrInvalidLedgerScope "ledger scope is required")
  | Some scope =>
      fail_if (lsc_AccountID scope == "") (Errorf ErrInvalidLedgerScope "account id is required");;
      fail_if (lsc_ProjectID scope == "") (Errorf ErrInvalidLedgerScope "project id is required");;
      fail_if (lsc_Limit scope <? 0)%Z (Errorf ErrInvalidLedgerScope "limit must be non-negative");;
      validateLedgerResource (lsc_AccountID scope) (lsc_ProjectID scope) (lsc_Resource scope)
        ErrInvalidLedgerScope
  end.

(** ** JSON *)

Definition enc_ActorRef (a : ActorRef) : json := JObject
  (omit_string "kind" (act_Kind a) ++ omit_string "actor_id" (act_ActorID a)).

Definition enc_LedgerDataRef (r : LedgerDataRef) : json := JObject
  (field "kind" (JString (ldr_Kind r)) ++
   omit_string "uri" (ldr_URI r) ++
   omit_string "artifact_id" (ldr_ArtifactID r) ++
   omit_string "media_type" (ldr_MediaType r) ++
   omit_string "digest" (ldr_Digest r) ++
   omit_map "metadata" JString (ldr_Metadata r)).

(** The fields of the embedded spec, then the ones of the store. *)
Definition enc_LedgerEntry (e : LedgerEntry) : json :=
  let s := le_Spec e in JObject
  (field "entry_id" (JString (les_EntryID s)) ++
   field "idempotency_key" (JString (les_IdempotencyKey s)) ++
   field "account_id" (JString (les_AccountID s)) ++
   field "project_id" (JString (les_ProjectID s)) ++
   omit_string "process_id" (les_ProcessID s) ++
   omit (bool_decide (les_Resource s = zero_ResourceRef)) "resource" (enc_ResourceRef (les_Resource s)) ++
   field "kind" (JString (les_Kind s)) ++
   omit (bool_decide (les_Actor s = zero_ActorRef)) "actor" (enc_ActorRef (les_Actor s)) ++
   omit_time "occurred_at" (les_OccurredAt s) ++
   omit_string "summary" (les_Summary s) ++
   omit_string "rationale" (les_Rationale s) ++
   omit_list "data_refs" enc_LedgerDataRef (les_DataRefs s) ++
   omit_list "artifact_refs" enc_ArtifactRef (les_ArtifactRefs s) ++
   omit_map "metadata" JString (les_Metadata s) ++
   field "sequence" (JInt (le_Sequence e)) ++
   omit_time "created_at" (le_CreatedAt e)).

(** ** idempotency.go *)

Definition ValidateLedgerEntryIdempotency (existing requested : LedgerEntry) : result unit :=
  fail_if (les_EntryID (le_Spec existing) != les_EntryID (le_Spec requested))
    (Errorf ErrInvalidLedgerEntry "ledger idempotency key belongs to entry %q");;
  fail_if (le_Sequence existing != le_Sequence requested)
    (Errorf ErrInvalidLedgerEntry "ledger idempotency key belongs to sequence %d");;
  same_json ErrInvalidLedgerEntry "ledger entry" (enc_LedgerEntry existing) (enc_LedgerEntry requested)
    "ledger idempotency key was reused with a different entry".

(** ** memory_store.go *)

Record ledgerIdempotencyKey := LedgerKey {
  lik_AccountID : string;
  lik_ProjectID : string;
  lik_IdempotencyKey : string;
}.

#[global] Instance ledgerIdempotencyKey_eq_dec : EqDecision ledgerIdempotencyKey.
Proof. solve_decision. Defined.
#[global] Instance ledgerIdempotencyKey_countable : Countable ledgerIdempotencyKey.
Proof.
  refine (inj_countable' (λ k, (lik_AccountID k, lik_ProjectID k, lik_IdempotencyKey k))
    (λ '(a, p, k), LedgerKey a p k) _). by intros [].
Defined.

Record MemoryStore := {
  entries : list LedgerEntry;
  entryByID : gmap string LedgerEntry;
  keys : gmap ledgerIdempotencyKey LedgerEntry;
}.

Definition NewMemoryStore : MemoryStore := {| entries := []; entryByID := ∅; keys := ∅ |}.

Definition ledgerKeyFromSpec (spec : LedgerEntrySpec) : ledgerIdempotencyKey :=
  LedgerKey (les_AccountID spec) (les_ProjectID spec) (les_IdempotencyKey spec).

Definition prepareLedgerEntry (spec : LedgerEntrySpec) (sequence : Z) (createdAt : time) : LedgerEntry :=
  let spec := if time_is_zero (les_OccurredAt spec)
              then {| spec with les_OccurredAt := createdAt |} else spec in
  {| le_Spec := spec; le_Sequence := sequence; le_CreatedAt := createdAt |}.

Definition ledgerEntryMatchesScope (entry : LedgerEntry) (scope : LedgerScope) : bool :=
  let spec := le_Spec entry in
  if (les_AccountID spec != lsc_AccountID scope) || (les_ProjectID spec != lsc_ProjectID scope)
  then false
  else if (le_Sequence entry <=? lsc_AfterSequence scope)%Z then false
  else if (lsc_ProcessID scope != "") && (les_ProcessID spec != lsc_ProcessID scope) then false
  else if (lsc_Kind scope != "") && (les_Kind spec != lsc_Kind scope) then false
  else if (rr_Kind (lsc_Resource scope) != "") && (les_Resource spec != lsc_Resource scope) then false
  else true.

(** [now] is the clock when the call reads it. *)
Definition AppendLedgerEntry (now : time) (s : MemoryStore) (spec : option LedgerEntrySpec) :
    MemoryStore * result LedgerEntry :=
  match ValidateLedgerEntrySpec spec, spec with
  | Ok _, Some spec =>
      let key := ledgerKeyFromSpec spec in
      match keys s !! key with
      | Some existing =>
          let requested := prepareLedgerEntry spec (le_Sequence existing) (le_CreatedAt existing) in
          (s, ValidateLedgerEntryIdempotency existing requested;; Ok existing)
      | None =>
          match entryByID s !! les_EntryID spec with
          | Some _ =>
              (s, Err (Errorf ErrInvalidLedgerEntry
                         "ledger entry %q already exists with idempotency key %q"))
          | None =>
              let createdAt := if time_is_zero (les_OccurredAt spec) then now else les_OccurredAt spec in
              let entry := prepareLedgerEntry spec (Z.of_nat (length (entries s) + 1)) createdAt in
              ({| entries := entries s ++ [entry];
                  entryByID := <[les_EntryID spec := entry]> (entryByID s);
                  keys := <[key := entry]> (keys s) |}, Ok entry)
          end
      end
  | Err e, _ => (s, Err e)
  | Ok _, None => (s, Err (Errorf ErrInvalidLedgerEntry "ledger entry is required"))
  end.

Definition ledger_entry_le (x y : LedgerEntry) : Prop := (le_Sequence x ≤ le_Sequence y)%Z.

#[global] Instance ledger_entry_le_dec : RelDecision ledger_entry_le.
Proof. intros x y. unfold ledger_entry_le. apply _. Defined.

Definition ListLedgerEntries (s : MemoryStore) (scope : option LedgerScope) : result (list LedgerEntry) :=
  ValidateLedgerScope scope;;
  match scope with
  | None => Ok []
  | Some scope =>
      let filtered := filter (λ entry, ledgerEntryMatchesScope entry scope = true) (entries s) in
      Ok (limited (lsc_Limit scope) (merge_sort ledger_entry_le filtered))
  end.

(** ** runtime.go *)

Definition Runtime_AppendLedgerEntry (now : time) (s : MemoryStore) (spec : option LedgerEntrySpec) :
    MemoryStore * result LedgerEntry :=
  match ValidateLedgerEntrySpec spec with
  | Err e => (s, Err e)
  | Ok _ => AppendLedgerEntry now s spec
  end.

Definition Runtime_ListLedgerEntries (s : MemoryStore) (scope : option LedgerScope) :
    result (list LedgerEntry) :=
  ValidateLedgerScope scope;;
  ListLedgerEntries s scope.
End ledger.
