(* ===== verification/LedgerSpec.v ===== *)
(** * The ledger: records, retries and pages

    A ledger only grows, numbers its entries without gaps and finds each of them under its
    id and under its key; a repeated append is recognised whenever it is made; reading in
    pages gives what reading at once gives. *)

From S2P Require Import Prelude Types Graph Scope Json Idempotency Calls Process Ledger.
Import process ledger.

(** ** Histories *)

Definition ledger_step (s s' : MemoryStore) : Prop :=
  ∃ now spec, s' = (Runtime_AppendLedgerEntry now s spec).1.

Definition ledger_reachable : MemoryStore → Prop := rtc ledger_step NewMemoryStore.

Record ledger_ok (s : MemoryStore) : Prop := {
  lo_entry i e : entries s !! i = Some e →
    le_Sequence e = Z.of_nat (i + 1) ∧ ValidateLedgerEntrySpec (Some (le_Spec e)) = Ok tt;
  lo_id id e : entryByID s !! id = Some e ↔ e ∈ entries s ∧ les_EntryID (le_Spec e) = id;
  lo_key key e : keys s !! key = Some e ↔ e ∈ entries s ∧ ledgerKeyFromSpec (le_Spec e) = key;
}.

(** Stamping a spec keeps what identifies and validates it. *)
Lemma prepare_spec spec n t :
  let e := prepareLedgerEntry spec n t in
  les_EntryID (le_Spec e) = les_EntryID spec ∧ ledgerKeyFromSpec (le_Spec e) = ledgerKeyFromSpec spec ∧
  ValidateLedgerEntrySpec (Some (le_Spec e)) = ValidateLedgerEntrySpec (Some spec) ∧ le_Sequence e = n.
Proof. unfold prepareLedgerEntry. by case_match. Qed.

(** The two ways an append goes. *)
Lemma append_cases now s spec s' r :
  AppendLedgerEntry now s (Some spec) = (s', r) →
  (s' = s ∧ ∀ e, r = Ok e → is_Some (keys s !! ledgerKeyFromSpec spec)) ∨
  ∃ t, let e := prepareLedgerEntry spec (Z.of_nat (length (entries s) + 1)) t in
    ValidateLedgerEntrySpec (Some spec) = Ok tt ∧ r = Ok e ∧
    t = (if time_is_zero (les_OccurredAt spec) then now else les_OccurredAt spec) ∧
    keys s !! ledgerKeyFromSpec spec = None ∧ entryByID s !! les_EntryID spec = None ∧
    s' = {| entries := entries s ++ [e]; entryByID := <[les_EntryID spec := e]> (entryByID s);
            keys := <[ledgerKeyFromSpec spec := e]> (keys s) |}.
Proof.
  unfold AppendLedgerEntry. destruct (ValidateLedgerEntrySpec _) as [[]|]; [|intros [= <- <-]; by left].
  destruct (keys s !! _) eqn:Hk; [intros [= <- <-]; left; by eauto|].
  destruct (entryByID s !! _) eqn:Hid; [intros [= <- <-]; by left|].
  intros [= <- <-]. right. by eexists.
Qed.

Lemma append_ok now s spec : ledger_ok s → ledger_ok (AppendLedgerEntry now s (Some spec)).1.
Proof.
  intros Hok. destruct (AppendLedgerEntry now s (Some spec)) as [s' r] eqn:Ha.
  apply append_cases in Ha as [[-> _]|(t & Hv & _ & _ & Hk & Hid & ->)]; [done|]. cbn [fst].
  set (e := prepareLedgerEntry _ _ _). destruct (prepare_spec spec (Z.of_nat (length (entries s) + 1)) t)
    as (Heid & Hekey & Hev & Hseq). fold e in Heid, Hekey, Hev, Hseq. clearbody e. split; cbn -[ValidateLedgerEntrySpec].
  - intros i x [Hi|[Hlen Hi]]%lookup_app_Some; [by apply (lo_entry _ Hok)|].
    apply list_lookup_singleton_Some in Hi as [Hi <-]. rewrite Hev, Hseq. split; [lia|done].
  - intros id x. rewrite lookup_insert_Some, elem_of_app, list_elem_of_singleton, (lo_id _ Hok). split.
    + intros [[<- <-]|(_ & ? & ?)]; [by split; [right|]|by split; [left|]].
    + intros [[Hx| ->] <-]; [|by left]. right. split; [|done]. intros Heq.
      assert (entryByID s !! les_EntryID spec = Some x) as Hs by by apply (lo_id _ Hok). congruence.
  - intros key x. rewrite lookup_insert_Some, elem_of_app, list_elem_of_singleton, (lo_key _ Hok). split.
    + intros [[<- <-]|(_ & ? & ?)]; [by split; [right|]|by split; [left|]].
    + intros [[Hx| ->] <-]; [|by left]. right. split; [|done]. intros Heq.
      assert (keys s !! ledgerKeyFromSpec spec = Some x) as Hs by by apply (lo_key _ Hok). congruence.
Qed.

Lemma ledger_step_append s s' :
  ledger_step s s' → s' = s ∨ ∃ now spec, s' = (AppendLedgerEntry now s (Some spec)).1.
Proof.
  intros (now & [spec|] & ->); unfold Runtime_AppendLedgerEntry; [|by left].
  destruct (ValidateLedgerEntrySpec _); [right; by eexists _, _|by left].
Qed.

Lemma ledger_steps_ok s s' : ledger_ok s → rtc ledger_step s s' → ledger_ok s'.
Proof.
  intros Hok Hr. induction Hr as [|s1 s2 s3 Hs _ IH]; [done|]. apply IH.
  apply ledger_step_append in Hs as [->|(now & spec & ->)]; [done|]. by apply append_ok.
Qed.

Lemma ledger_reachable_ok s : ledger_reachable s → ledger_ok s.
Proof.
  apply ledger_steps_ok. split; cbn.
  - intros i e. by rewrite lookup_nil.
  - intros id e. rewrite lookup_empty. split; [done|]. by intros [?%not_elem_of_nil _].
  - intros key e. rewrite lookup_empty. split; [done|]. by intros [?%not_elem_of_nil _].
Qed.

(** Nothing is lost. *)
Lemma ledger_steps_prefix s s' : rtc ledger_step s s' → entries s `prefix_of` entries s'.
Proof.
  induction 1 as [|s1 s2 s3 Hs _ IH]; [done|]. etrans; [|done].
  apply ledger_step_append in Hs as [->|(now & spec & ->)]; [done|].
  destruct (AppendLedgerEntry now s1 (Some spec)) as [s' r] eqn:Ha.
  apply append_cases in Ha as [[-> _]|(t & _ & _ & _ & _ & _ & ->)]; [done|]. cbn. by eexists.
Qed.

(** ** Retries *)

(** The request that an entry came from. *)
Lemma prepare_again spec n t :
  let createdAt := if time_is_zero (les_OccurredAt spec) then t else les_OccurredAt spec in
  let e := prepareLedgerEntry spec n createdAt in
  prepareLedgerEntry spec (le_Sequence e) (le_CreatedAt e) = e.
Proof. unfold prepareLedgerEntry. by case_match. Qed.

Lemma ledger_idempotency_refl e :
  supported (enc_LedgerEntry e) = true → ValidateLedgerEntryIdempotency e e = Ok tt.
Proof.
  intros Hs. unfold ValidateLedgerEntryIdempotency. rewrite !bool_decide_eq_true_2 by done. cbn [negb fail_if].
  cbn -[same_json]. by apply same_json_Ok.
Qed.

(** An append that finds its own entry. *)
Lemma append_replays now s spec n t :
  let createdAt := if time_is_zero (les_OccurredAt spec) then t else les_OccurredAt spec in
  let e := prepareLedgerEntry spec n createdAt in
  ValidateLedgerEntrySpec (Some spec) = Ok tt → keys s !! ledgerKeyFromSpec spec = Some e →
  supported (enc_LedgerEntry e) = true → AppendLedgerEntry now s (Some spec) = (s, Ok e).
Proof.
  cbv zeta. intros Hv Hk Hs. unfold AppendLedgerEntry. rewrite Hv, Hk, prepare_again.
  by rewrite ledger_idempotency_refl.
Qed.

(** A known key decides the answer. *)
Lemma append_known now now' s s' spec x :
  keys s !! ledgerKeyFromSpec spec = Some x → keys s' !! ledgerKeyFromSpec spec = Some x →
  AppendLedgerEntry now' s' (Some spec) = (s', (AppendLedgerEntry now s (Some spec)).2).
Proof.
  intros Hk Hk'. unfold AppendLedgerEntry. rewrite Hk, Hk'. by destruct (ValidateLedgerEntrySpec _).
Qed.

Lemma keys_kept s s' key e :
  ledger_ok s → ledger_ok s' → entries s `prefix_of` entries s' → keys s !! key = Some e → keys s' !! key = Some e.
Proof.
  intros Hok Hok' [l Hl] [Hin Hkey]%(lo_key _ Hok). apply (lo_key _ Hok'). rewrite Hl. set_solver.
Qed.

(** ** Pages *)

#[local] Instance ledger_entry_le_total : Total ledger_entry_le.
Proof. intros x y. unfold ledger_entry_le. lia. Qed.
#[local] Instance ledger_entry_le_trans : Transitive ledger_entry_le.
Proof. intros x y z. unfold ledger_entry_le. lia. Qed.

Lemma entries_sorted s :
  ledger_ok s → StronglySorted (λ x y, (le_Sequence x < le_Sequence y)%Z) (entries s).
Proof.
  intros Hok. assert (∀ i x, entries s !! i = Some x → le_Sequence x = Z.of_nat (i + 1)) as Hi
    by (intros i x Hx; by apply (lo_entry _ Hok)).
  clear Hok. revert Hi. generalize 1. induction (entries s) as [|e l IH]; intros n Hi; constructor.
  - apply (IH (S n)). intros i x Hx. rewrite (Hi (S i) x Hx). lia.
  - apply Forall_lookup. intros i x Hx. rewrite (Hi 0 e eq_refl), (Hi (S i) x Hx). lia.
Qed.

Lemma StronglySorted_filter {A} (R : relation A) (P : A → Prop) `{!∀ x, Decision (P x)} l :
  StronglySorted R l → StronglySorted R (filter P l).
Proof.
  induction 1 as [|x l Hs IH Hx]; [constructor|]. rewrite filter_cons. case_decide; [|done].
  constructor; [done|]. apply Forall_forall. intros y [_ Hy]%list_elem_of_filter. by eapply Forall_forall in Hx.
Qed.

(** Sorting what is in order changes nothing. *)
Lemma sort_entries l :
  StronglySorted (λ x y, (le_Sequence x < le_Sequence y)%Z) l → merge_sort ledger_entry_le l = l.
Proof.
  intros Hs. apply (StronglySorted_unique_strong ledger_entry_le).
  - intros x y Hx Hy Hxy Hyx. rewrite merge_sort_Permutation in Hx. unfold ledger_entry_le in *.
    induction Hs as [|z l Hs IH Hz]; [by apply not_elem_of_nil in Hx|]. rewrite Forall_forall in Hz.
    apply elem_of_cons in Hx as [->|Hx]; apply elem_of_cons in Hy as [->|Hy]; [done| | |by apply IH].
    + specialize (Hz _ Hy). lia.
    + specialize (Hz _ Hx). lia.
  - apply StronglySorted_merge_sort; apply _.
  - induction Hs as [|z l Hs IH Hz]; constructor; [done|]. eapply Forall_impl; [exact Hz|].
    unfold ledger_entry_le. lia.
  - apply merge_sort_Permutation.
Qed.

Lemma limited_prefix {A} n (l : list A) : ∃ cut, l = limited n l ++ cut.
Proof.
  unfold limited. destruct (_ && _); [|exists []; by rewrite app_nil_r].
  exists (drop (Z.to_nat n) l). by rewrite take_drop.
Qed.

Lemma limited_none {A} (l : list A) : limited 0 l = l.
Proof. done. Qed.

(** The entries a scope selects. *)
Definition selected_by (scope : LedgerScope) (s : MemoryStore) : list LedgerEntry :=
  filter (λ e, ledgerEntryMatchesScope e scope = true) (entries s).

Lemma list_entries s scope :
  ledger_ok s → ValidateLedgerScope (Some scope) = Ok tt →
  ListLedgerEntries s (Some scope) = Ok (limited (lsc_Limit scope) (selected_by scope s)).
Proof.
  intros Hok Hv. unfold ListLedgerEntries. rewrite Hv. cbn -[limited merge_sort].
  rewrite sort_entries; [done|]. apply StronglySorted_filter. by apply entries_sorted.
Qed.

(** Moving the cursor forward. *)
Lemma matches_after entry scope n :
  (lsc_AfterSequence scope ≤ n)%Z →
  ledgerEntryMatchesScope entry {| scope with lsc_AfterSequence := n |} = true ↔
  (n < le_Sequence entry)%Z ∧ ledgerEntryMatchesScope entry scope = true.
Proof.
  intros Hn. unfold ledgerEntryMatchesScope. cbn. destruct (_ || _); [naive_solver|].
  destruct (Z.leb_spec (le_Sequence entry) n), (Z.leb_spec (le_Sequence entry) (lsc_AfterSequence scope));
    repeat (destruct (_ && _)); naive_solver lia.
Qed.

Lemma filter_in {A} (P : A → Prop) `{!∀ x, Decision (P x)} l : Forall P l → filter P l = l.
Proof. induction 1 as [|x l Hx _ IH]; [done|]. by rewrite filter_cons_True, IH. Qed.

Lemma filter_out {A} (P : A → Prop) `{!∀ x, Decision (P x)} l : Forall (λ x, ¬ P x) l → filter P l = [].
Proof. induction 1 as [|x l Hx _ IH]; [done|]. by rewrite filter_cons_False, IH. Qed.

Lemma selected_after s scope l1 e l2 :
  ledger_ok s → selected_by scope s = l1 ++ e :: l2 →
  selected_by {| scope with lsc_AfterSequence := le_Sequence e |} s = l2.
Proof.
  intros Hok Hsel.
  assert (lsc_AfterSequence scope ≤ le_Sequence e)%Z as Hle.
  { assert (e ∈ selected_by scope s) as [Hm _]%list_elem_of_filter by (rewrite Hsel; set_solver).
    unfold ledgerEntryMatchesScope in Hm. repeat case_match; try done. lia. }
  unfold selected_by.
  rewrite (list_filter_iff _ (λ x, (le_Sequence e < le_Sequence x)%Z ∧ ledgerEntryMatchesScope x scope = true))
    by (intros x; by apply matches_after).
  rewrite <- list_filter_filter. unfold selected_by in Hsel. rewrite Hsel.
  pose proof (StronglySorted_filter _ (λ x, ledgerEntryMatchesScope x scope = true) _ (entries_sorted s Hok)) as Hs.
  rewrite Hsel in Hs. apply StronglySorted_app in Hs as (Hcross & _ & Hs). apply StronglySorted_inv in Hs as [_ Hl2].
  rewrite filter_app, filter_cons_False by lia. rewrite filter_out, filter_in; [done| |].
  - eapply Forall_impl; [exact Hl2|]. done.
  - apply Forall_forall. intros x Hx. assert (e ∈ e :: l2) as He by left. specialize (Hcross x e Hx He). cbn in Hcross. lia.
Qed.

(** ** Theorems *)

(** The records of a ledger.  After any appends, accepted or refused: the entries are
    numbered 1, 2, 3, ... and valid; the entry stored under an id is the one entry with that
    id, the entry stored under a key of a tenant the one entry with that key. *)
Theorem ledger_records s :
  ledger_reachable s →
  (∀ i e, entries s !! i = Some e →
     le_Sequence e = Z.of_nat (i + 1) ∧ ValidateLedgerEntrySpec (Some (le_Spec e)) = Ok tt) ∧
  (∀ id e, entryByID s !! id = Some e ↔ e ∈ entries s ∧ les_EntryID (le_Spec e) = id) ∧
  (∀ key e, keys s !! key = Some e ↔ e ∈ entries s ∧ ledgerKeyFromSpec (le_Spec e) = key).
Proof. intros [? ? ?]%ledger_reachable_ok. by split_and!. Qed.

(** C33: ledger appends happen once.  An accepted append whose entry can be written as JSON is
    answered with the same entry, and changes nothing, whenever it is repeated: at any clock
    and after any other appends, which keep everything recorded before them. *)
Theorem ledger_append_once s now spec s1 e s2 now' :
  ledger_reachable s → AppendLedgerEntry now s (Some spec) = (s1, Ok e) →
  supported (enc_LedgerEntry e) = true → rtc ledger_step s1 s2 →
  AppendLedgerEntry now' s2 (Some spec) = (s2, Ok e) ∧ entries s1 `prefix_of` entries s2.
Proof.
  intros Hok%ledger_reachable_ok Ha Hs Hr. pose proof (ledger_steps_prefix _ _ Hr) as Hpre. split; [|done].
  pose proof (append_ok now s spec Hok) as Hok1. rewrite Ha in Hok1.
  pose proof (ledger_steps_ok _ _ Hok1 Hr) as Hok2.
  destruct (keys s !! ledgerKeyFromSpec spec) as [x|] eqn:Hk.
  - assert (s1 = s) as ->. { apply append_cases in Ha as [[? _]|(t & _ & _ & _ & Hn & _)]; [done|congruence]. }
    rewrite (append_known now now' s s2 spec x), Ha; [done|done|]. exact (keys_kept s s2 _ x Hok Hok2 Hpre Hk).
  - apply append_cases in Ha as [[_ Ha]|(t & Hv & [= ->] & -> & _ & _ & ->)].
    + destruct (Ha e eq_refl) as [x Hx]. congruence.
    + eapply append_replays; [done| |done]. eapply keys_kept; [exact Hok1|done..|]. apply lookup_insert_eq.
Qed.

(** Pages of a ledger.  A listing gives the matching entries of its tenant in the order
    of the ledger, up to its limit; a listing that continues after the last entry of a page
    gives what the page left out. *)
Theorem ledger_pages s scope page :
  ledger_reachable s → Runtime_ListLedgerEntries s (Some scope) = Ok page →
  page = limited (lsc_Limit scope) (selected_by scope s) ∧
  Forall (λ e, les_AccountID (le_Spec e) = lsc_AccountID scope ∧
               les_ProjectID (le_Spec e) = lsc_ProjectID scope) page ∧
  ∀ e, last page = Some e →
    let rest := {| scope with lsc_AfterSequence := le_Sequence e; lsc_Limit := 0%Z |} in
    ∃ more, Runtime_ListLedgerEntries s (Some rest) = Ok more ∧ page ++ more = selected_by scope s.
Proof.
  intros Hok%ledger_reachable_ok Hl. unfold Runtime_ListLedgerEntries in Hl.
  apply bind_Ok in Hl as ([] & Hv & Hl). rewrite list_entries in Hl by done. injection Hl as <-.
  destruct (limited_prefix (lsc_Limit scope) (selected_by scope s)) as [cut Hcut]. split_and!; [done| |].
  - apply Forall_forall. intros e He. assert (e ∈ selected_by scope s) as [Hm _]%list_elem_of_filter
      by (rewrite Hcut; set_solver).
    unfold ledgerEntryMatchesScope in Hm. destruct (_ || _) eqn:Ho; [done|].
    apply orb_false_iff in Ho as [?%negb_false_iff%bool_decide_eq_true ?%negb_false_iff%bool_decide_eq_true]. done.
  - intros e [l Hlast]%last_Some. rewrite Hlast in Hcut |- *. exists cut. split; [|done].
    unfold Runtime_ListLedgerEntries.
    assert (ValidateLedgerScope (Some {| scope with lsc_AfterSequence := le_Sequence e; lsc_Limit := 0%Z |}) = Ok tt)
      as Hv'.
    { revert Hv. cbn. repeat (destruct (bool_decide _); [done|]; cbn). by destruct (_ <? _)%Z. }
    rewrite Hv'. cbn -[ListLedgerEntries]. rewrite list_entries by done. f_equal.
    rewrite limited_none. apply (selected_after _ {| scope with lsc_Limit := 0%Z |} l); [done|].
    rewrite <- app_assoc in Hcut. exact Hcut.
Qed.


(** ** Witnesses *)

Module LedgerSample.
Definition entry (id key : string) : LedgerEntrySpec := {|
  les_EntryID := id; les_IdempotencyKey := key; les_AccountID := "acct"; les_ProjectID := "proj";
  les_ProcessID := "proc-1"; les_Resource := zero_ResourceRef; les_Kind := LedgerEntryDecision;
  les_Actor := zero_ActorRef; les_OccurredAt := zero_time; les_Summary := "approved"; les_Rationale := "";
  les_DataRefs := []; les_ArtifactRefs := []; les_Metadata := None |}.
Definition t1 : time := 7000000%Z.
Definition t2 : time := 8000000%Z.
Definition one : MemoryStore := (AppendLedgerEntry t1 NewMemoryStore (Some (entry "e1" "k1"))).1.
Definition two : MemoryStore := (AppendLedgerEntry t2 one (Some (entry "e2" "k2"))).1.
Definition scope : LedgerScope := {|
  lsc_AccountID := "acct"; lsc_ProjectID := "proj"; lsc_ProcessID := ""; lsc_Resource := zero_ResourceRef;
  lsc_Kind := ""; lsc_AfterSequence := 0; lsc_Limit := 1 |}.

Lemma one_two : rtc ledger_step one two.
Proof. apply rtc_once. exists t2, (Some (entry "e2" "k2")). vm_compute. reflexivity. Qed.

Lemma two_reachable : ledger_reachable two.
Proof.
  eapply rtc_l; [|exact one_two]. exists t1, (Some (entry "e1" "k1")). vm_compute. reflexivity.
Qed.
End LedgerSample.

Lemma ledger_records_witness :
  length (entries LedgerSample.two) = 2 ∧
  (∀ i e, entries LedgerSample.two !! i = Some e →
     le_Sequence e = Z.of_nat (i + 1) ∧ ValidateLedgerEntrySpec (Some (le_Spec e)) = Ok tt).
Proof.
  split; [vm_compute; reflexivity|].
  exact (proj1 (ledger_records LedgerSample.two LedgerSample.two_reachable)).
Defined.

Lemma ledger_append_once_witness :
  ∃ e, AppendLedgerEntry LedgerSample.t2 LedgerSample.two (Some (LedgerSample.entry "e1" "k1")) =
       (LedgerSample.two, Ok e).
Proof.
  eexists. eapply (ledger_append_once NewMemoryStore LedgerSample.t1 (LedgerSample.entry "e1" "k1") LedgerSample.one).
  - apply rtc_refl.
  - vm_compute. reflexivity.
  - vm_compute. reflexivity.
  - exact LedgerSample.one_two.
Defined.

Lemma ledger_pages_witness :
  ∃ e1 e2 more, Runtime_ListLedgerEntries LedgerSample.two (Some LedgerSample.scope) = Ok [e1] ∧
    [e1] ++ more = selected_by LedgerSample.scope LedgerSample.two ∧ more = [e2].
Proof.
  destruct (ledger_pages LedgerSample.two LedgerSample.scope _ LedgerSample.two_reachable eq_refl)
    as (_ & _ & Hnext).
  destruct (Hnext _ eq_refl) as (more & _ & Hall).
  eexists _, _, more. split; [vm_compute; reflexivity|]. split; [exact Hall|].
  vm_compute in Hall. injection Hall as ->. reflexivity.
Defined.
