(* ===== verification/Actions.v ===== *)
(** * Governed actions

    agentos/process/action.go (the data of an action and its validation) and
    internal/usecase/agentosaction (idempotency.go, memory_store.go, runtime.go): an action
    passes a dry run and an approval, where its request asks for them, before its execution
    is recorded.

    The runtime reads a status and writes the next one in two store calls, so its
    operations are programs of calls ([Calls]).  The copies that the store makes are equal
    to the originals here and left out; a nil and an empty slice are the same list. *)

From S2P Require Import Prelude Types Graph Scope Json Idempotency Calls Process Ledger.
Import process ledger.

Module action.

(** ** agentos/process/action.go *)

Record ActionRef := {
  arf_ActionID : string;
  arf_AccountID : string;
  arf_ProjectID : string;
}.

Definition ActionRiskLow : string := "low".
Definition ActionRiskMedium : string := "medium".
Definition ActionRiskHigh : string := "high".
Definition ActionRiskCritical : string := "critical".

Record ActionRiskAssessment := {
  risk_Level : string;
  risk_Reason : string;
  risk_EvidenceRefs : list LedgerDataRef;
  risk_AssessedAt : time;
}.

Record GovernedActionSpec := {
  asp_ActionID : string;
  asp_IdempotencyKey : string;
  asp_AccountID : string;
  asp_ProjectID : string;
  asp_ProcessID : string;
  asp_Resource : ResourceRef;
  asp_Kind : string;
  asp_Intent : string;
  asp_RequestedBy : ActorRef;
  asp_RequestedAt : time;
  asp_DryRunRequired : bool;
  asp_ApprovalRequired : bool;
  asp_Risk : ActionRiskAssessment;
  asp_InputRefs : list LedgerDataRef;
  asp_CompensationRef : option LedgerDataRef;
  asp_Metadata : go_map string;
}.

Record GovernedActionStatus := {
  ast_ActionID : string;
  ast_AccountID : string;
  ast_ProjectID : string;
  ast_ProcessID : string;
  ast_Resource : ResourceRef;
  ast_Kind : string;
  ast_LifecycleState : string;
  ast_DryRunState : string;
  ast_ApprovalState : string;
  ast_ExecutionState : string;
  ast_Risk : ActionRiskAssessment;
  ast_Reason : string;
  ast_UpdatedAt : time;
}.

Record ActionDryRunResult := {
  adr_IdempotencyKey : string;
  adr_Succeeded : bool;
  adr_Summary : string;
  adr_Risk : ActionRiskAssessment;
  adr_OutputRefs : list LedgerDataRef;
  adr_RecordedAt : time;
}.

Record ActionApprovalDecision := {
  aad_IdempotencyKey : string;
  aad_Approved : bool;
  aad_Actor : ActorRef;
  aad_Reason : string;
  aad_DecidedAt : time;
}.

Record ActionExecutionResult := {
  aer_IdempotencyKey : string;
  aer_Succeeded : bool;
  aer_Summary : string;
  aer_OutputRefs : list LedgerDataRef;
  aer_ArtifactRefs : list ArtifactRef;
  aer_RecordedAt : time;
}.

Record ActionCancelRequest := {
  acr_IdempotencyKey : string;
  acr_Actor : ActorRef;
  acr_Reason : string;
  acr_RequestedAt : time;
}.

Record ActionScope := {
  asc_AccountID : string;
  asc_ProjectID : string;
  asc_ProcessID : string;
  asc_Resource : ResourceRef;
  asc_Kind : string;
  asc_LifecycleState : string;
  asc_Limit : Z;
}.

Definition ActionRequested : string := "requested".
Definition ActionWaitingDryRun : string := "waiting_dry_run".
Definition ActionWaitingApproval : string := "waiting_approval".
Definition ActionReady : string := "ready".
Definition ActionExecuting : string := "executing".
Definition ActionExecuted : string := "executed".
Definition ActionFailed : string := "failed".
Definition ActionCanceled : string := "canceled".

Definition ActionDryRunPending : string := "pending".
Definition ActionDryRunSucceeded : string := "succeeded".
Definition ActionDryRunFailed : string := "failed".

Definition ActionApprovalPending : string := "pending".
Definition ActionApprovalApproved : string := "approved".
Definition ActionApprovalRejected : string := "rejected".

Definition ActionExecutionPending : string := "pending".
Definition ActionExecutionSucceeded : string := "succeeded".
Definition ActionExecutionFailed : string := "failed".

#[global] Instance ActionRiskAssessment_eq_dec : EqDecision ActionRiskAssessment.
Proof. solve_decision. Defined.

Definition zero_ActionRiskAssessment : ActionRiskAssessment := {|
  risk_Level := ""; risk_Reason := ""; risk_EvidenceRefs := []; risk_AssessedAt := zero_time |}.

Definition zero_GovernedActionSpec : GovernedActionSpec := {|
  asp_ActionID := ""; asp_IdempotencyKey := ""; asp_AccountID := ""; asp_ProjectID := "";
  asp_ProcessID := ""; asp_Resource := zero_ResourceRef; asp_Kind := ""; asp_Intent := "";
  asp_RequestedBy := zero_ActorRef; asp_RequestedAt := zero_time; asp_DryRunRequired := false;
  asp_ApprovalRequired := false; asp_Risk := zero_ActionRiskAssessment; asp_InputRefs := [];
  asp_CompensationRef := None; asp_Metadata := None |}.

Definition zero_GovernedActionStatus : GovernedActionStatus := {|
  ast_ActionID := ""; ast_AccountID := ""; ast_ProjectID := ""; ast_ProcessID := "";
  ast_Resource := zero_ResourceRef; ast_Kind := ""; ast_LifecycleState := ""; ast_DryRunState := "";
  ast_ApprovalState := ""; ast_ExecutionState := ""; ast_Risk := zero_ActionRiskAssessment;
  ast_Reason := ""; ast_UpdatedAt := zero_time |}.

Definition validateGovernedActionIdentity (spec : GovernedActionSpec) : result unit :=
  fail_if (asp_ActionID spec == "") (Errorf ErrInvalidGovernedAction "action id is required");;
  fail_if (asp_IdempotencyKey spec == "") (Errorf ErrInvalidGovernedAction "idempotency key is required");;
  fail_if (asp_AccountID spec == "") (Errorf ErrInvalidGovernedAction "account id is required");;
  fail_if (asp_ProjectID spec == "") (Errorf ErrInvalidGovernedAction "project id is required");;
  fail_if (asp_Kind spec == "") (Errorf ErrInvalidGovernedAction "kind is required").

Definition validateGovernedActionResource (accountID projectID : string) (resource : ResourceRef)
    (scopeErr : sentinel) : result unit :=
  validateTenantResource accountID projectID resource scopeErr "resource must be in action tenant scope".

Definition validateGovernedActionScope (accountID projectID processID : string) (resource : ResourceRef)
    (scopeErr : sentinel) : result unit :=
  fail_if ((processID == "") && (rr_Kind resource == ""))
    (Errorf scopeErr "process id or resource ref is required");;
  validateGovernedActionResource accountID projectID resource scopeErr.

Definition validateActionDataRef (ref : LedgerDataRef) : result unit :=
  fail_if (ldr_Kind ref == "") (Errorf ErrInvalidGovernedAction "data ref kind is required");;
  fail_if ((ldr_URI ref == "") && (ldr_ArtifactID ref == ""))
    (Errorf ErrInvalidGovernedAction "data ref uri or artifact id is required").

Definition validateActionDataRefs (refs : list LedgerDataRef) : result unit :=
  forM validateActionDataRef refs.

Definition validateActionRefs (refs : list LedgerDataRef) (optionalRef : option LedgerDataRef)
    (moreRefs : list LedgerDataRef) : result unit :=
  validateActionDataRefs refs;;
  match optionalRef with Some ref => validateActionDataRef ref | None => Ok tt end;;
  validateActionDataRefs moreRefs.

Definition ValidateGovernedActionSpec (spec : option GovernedActionSpec) : result unit :=
  match spec with
  | None => Err (Errorf ErrInvalidGovernedAction "governed action spec is required")
  | Some spec =>
      validateGovernedActionIdentity spec;;
      validateGovernedActionScope (asp_AccountID spec) (asp_ProjectID spec) (asp_ProcessID spec)
        (asp_Resource spec) ErrInvalidGovernedAction;;
      validateActionRefs (asp_InputRefs spec) (asp_CompensationRef spec)
        (risk_EvidenceRefs (asp_Risk spec))
  end.

Definition ValidateActionRef (ref : ActionRef) : result unit :=
  fail_if (arf_ActionID ref == "") (Errorf ErrInvalidGovernedActionScope "action id is required");;
  fail_if (arf_AccountID ref == "") (Errorf ErrInvalidGovernedActionScope "account id is required");;
  fail_if (arf_ProjectID ref == "") (Errorf ErrInvalidGovernedActionScope "project id is required").

Definition ValidateActionScope (scope : option ActionScope) : result unit :=
  match scope with
  | None => Err (Errorf ErrInvalidGovernedActionScope "action scope is required")
  | Some scope =>
      fail_if (asc_AccountID scope == "") (Errorf ErrInvalidGovernedActionScope "account id is required");;
      fail_if (asc_ProjectID scope == "") (Errorf ErrInvalidGovernedActionScope "project id is required");;
      fail_if (asc_Limit scope <? 0)%Z (Errorf ErrInvalidGovernedActionScope "limit must be non-negative");;
      validateGovernedActionResource (asc_AccountID scope) (asc_ProjectID scope) (asc_Resource scope)
        ErrInvalidGovernedActionScope
  end.

(** ** JSON *)

Definition enc_ActionRiskAssessment (r : ActionRiskAssessment) : json := JObject
  (omit_string "level" (risk_Level r) ++
   omit_string "reason" (risk_Reason r) ++
   omit_list "evidence_refs" enc_LedgerDataRef (risk_EvidenceRefs r) ++
   omit_time "assessed_at" (risk_AssessedAt r)).

Definition enc_GovernedActionSpec (s : GovernedActionSpec) : json := JObject
  (field "action_id" (JString (asp_ActionID s)) ++
   field "idempotency_key" (JString (asp_IdempotencyKey s)) ++
   field "account_id" (JString (asp_AccountID s)) ++
   field "project_id" (JString (asp_ProjectID s)) ++
   omit_string "process_id" (asp_ProcessID s) ++
   omit (bool_decide (asp_Resource s = zero_ResourceRef)) "resource" (enc_ResourceRef (asp_Resource s)) ++
   field "kind" (JString (asp_Kind s)) ++
   omit_string "intent" (asp_Intent s) ++
   omit (bool_decide (asp_RequestedBy s = zero_ActorRef)) "requested_by" (enc_ActorRef (asp_RequestedBy s)) ++
   omit_time "requested_at" (asp_RequestedAt s) ++
   omit_bool "dry_run_required" (asp_DryRunRequired s) ++
   omit_bool "approval_required" (asp_ApprovalRequired s) ++
   omit (bool_decide (asp_Risk s = zero_ActionRiskAssessment)) "risk" (enc_ActionRiskAssessment (asp_Risk s)) ++
   omit_list "input_refs" enc_LedgerDataRef (asp_InputRefs s) ++
   match asp_CompensationRef s with None => [] | Some r => field "compensation_ref" (enc_LedgerDataRef r) end ++
   omit_map "metadata" JString (asp_Metadata s)).

(** ** idempotency.go *)

Definition ValidateActionStartIdempotency (existing requested : GovernedActionSpec) : result unit :=
  fail_if (asp_ActionID existing != asp_ActionID requested)
    (Errorf ErrInvalidGovernedAction "action idempotency key belongs to action %q");;
  same_json ErrInvalidGovernedAction "action request" (enc_GovernedActionSpec existing)
    (enc_GovernedActionSpec requested) "action %q idempotency key was reused with a different request".

(** ** memory_store.go *)

Record actionStartKey := ActionStartKey {
  ask_AccountID : string;
  ask_ProjectID : string;
  ask_IdempotencyKey : string;
}.

Record actionStatusKey := ActionKey {
  atk_ActionID : string;
  atk_IdempotencyKey : string;
}.

#[global] Instance actionStartKey_eq_dec : EqDecision actionStartKey.
Proof. solve_decision. Defined.
#[global] Instance actionStartKey_countable : Countable actionStartKey.
Proof.
  refine (inj_countable' (λ k, (ask_AccountID k, ask_ProjectID k, ask_IdempotencyKey k))
    (λ '(a, p, k), ActionStartKey a p k) _). by intros [].
Defined.
#[global] Instance actionStatusKey_eq_dec : EqDecision actionStatusKey.
Proof. solve_decision. Defined.
#[global] Instance actionStatusKey_countable : Countable actionStatusKey.
Proof.
  refine (inj_countable' (λ k, (atk_ActionID k, atk_IdempotencyKey k)) (λ '(a, k), ActionKey a k) _).
  by intros [].
Defined.

Record MemoryStore := {
  specs : gmap string GovernedActionSpec;
  statuses : gmap string GovernedActionStatus;
  startKeys : gmap actionStartKey string;
  statusKeys : gmap actionStatusKey GovernedActionStatus;
}.

Definition NewMemoryStore : MemoryStore := {|
  specs := ∅; statuses := ∅; startKeys := ∅; statusKeys := ∅ |}.

Definition validateCreateActionInput (spec : option GovernedActionSpec)
    (status : option GovernedActionStatus) : result (GovernedActionSpec * GovernedActionStatus) :=
  ValidateGovernedActionSpec spec;;
  match spec, status with
  | Some spec, Some status => Ok (spec, status)
  | _, _ => Err (Errorf ErrInvalidGovernedAction "action status is required")
  end.

Definition validateUpdateActionStatusInput (status : option GovernedActionStatus) (idempotencyKey : string) :
    result GovernedActionStatus :=
  match status with
  | None => Err (Errorf ErrInvalidGovernedAction "action status is required")
  | Some status =>
      fail_if (idempotencyKey == "")
        (Errorf ErrInvalidGovernedAction "status idempotency key is required");;
      fail_if ((ast_ActionID status == "") || (ast_AccountID status == "") || (ast_ProjectID status == ""))
        (Errorf ErrInvalidGovernedAction "action status scope is required");;
      Ok status
  end.

Definition actionStartKeyFromSpec (spec : GovernedActionSpec) : actionStartKey :=
  ActionStartKey (asp_AccountID spec) (asp_ProjectID spec) (asp_IdempotencyKey spec).

Definition validateActionTenantAccess (ref : ActionRef) (spec : GovernedActionSpec) : result unit :=
  fail_if ((arf_AccountID ref != asp_AccountID spec) || (arf_ProjectID ref != asp_ProjectID spec))
    (Errorf ErrInvalidGovernedActionScope "action %q is outside tenant scope").

Definition validateActionStatusScope (status : GovernedActionStatus) (spec : GovernedActionSpec) :
    result unit :=
  fail_if ((ast_AccountID status != asp_AccountID spec) || (ast_ProjectID status != asp_ProjectID spec))
    (Errorf ErrInvalidGovernedActionScope "action %q status is outside tenant scope").

Definition normalizeActionStatus (spec : GovernedActionSpec) (status : GovernedActionStatus) :
    GovernedActionStatus :=
  {| status with
    ast_ActionID := asp_ActionID spec; ast_AccountID := asp_AccountID spec;
    ast_ProjectID := asp_ProjectID spec; ast_ProcessID := asp_ProcessID spec;
    ast_Resource := asp_Resource spec; ast_Kind := asp_Kind spec |}.

Definition lookupExistingActionStartLocked (s : MemoryStore) (key : actionStartKey)
    (spec : GovernedActionSpec) : result (option GovernedActionStatus) :=
  match startKeys s !! key with
  | None => Ok None
  | Some existingActionID =>
      ValidateActionStartIdempotency (default zero_GovernedActionSpec (specs s !! existingActionID)) spec;;
      Ok (Some (default zero_GovernedActionStatus (statuses s !! existingActionID)))
  end.

Definition lookupExistingActionIDLocked (s : MemoryStore) (spec : GovernedActionSpec) :
    result (option GovernedActionStatus) :=
  match specs s !! asp_ActionID spec with
  | None => Ok None
  | Some existingSpec =>
      ValidateActionStartIdempotency existingSpec spec;;
      Ok (Some (default zero_GovernedActionStatus (statuses s !! asp_ActionID spec)))
  end.

(** The status and whether this call created the action. *)
Definition CreateAction (s : MemoryStore) (spec : option GovernedActionSpec)
    (status : option GovernedActionStatus) : MemoryStore * result (GovernedActionStatus * bool) :=
  match validateCreateActionInput spec status with
  | Err e => (s, Err e)
  | Ok (spec, status) =>
      let key := actionStartKeyFromSpec spec in
      match lookupExistingActionStartLocked s key spec with
      | Err e => (s, Err e)
      | Ok (Some existing) => (s, Ok (existing, false))
      | Ok None =>
          match lookupExistingActionIDLocked s spec with
          | Err e => (s, Err e)
          | Ok (Some existing) => (s, Ok (existing, false))
          | Ok None =>
              let preparedStatus := normalizeActionStatus spec status in
              ({| s with
                  specs := <[asp_ActionID spec := spec]> (specs s);
                  statuses := <[asp_ActionID spec := preparedStatus]> (statuses s);
                  startKeys := <[key := asp_ActionID spec]> (startKeys s) |},
               Ok (preparedStatus, true))
          end
      end
  end.

Definition GetAction (s : MemoryStore) (ref : ActionRef) :
    result (option (GovernedActionSpec * GovernedActionStatus)) :=
  ValidateActionRef ref;;
  match specs s !! arf_ActionID ref with
  | None => Ok None
  | Some spec =>
      validateActionTenantAccess ref spec;;
      Ok (Some (spec, default zero_GovernedActionStatus (statuses s !! arf_ActionID ref)))
  end.

Definition actionStatusMatchesIdentityScope (status : GovernedActionStatus) (scope : ActionScope) : bool :=
  if (asc_ProcessID scope != "") && (ast_ProcessID status != asc_ProcessID scope) then false
  else if (asc_Kind scope != "") && (ast_Kind status != asc_Kind scope) then false
  else if (rr_Kind (asc_Resource scope) != "") && (ast_Resource status != asc_Resource scope) then false
  else true.

Definition actionStatusMatchesStateScope (status : GovernedActionStatus) (scope : ActionScope) : bool :=
  if (asc_LifecycleState scope != "") && (ast_LifecycleState status != asc_LifecycleState scope)
  then false else true.

Definition actionStatusMatchesScope (status : GovernedActionStatus) (scope : ActionScope) : bool :=
  if (ast_AccountID status != asc_AccountID scope) || (ast_ProjectID status != asc_ProjectID scope)
  then false
  else if negb (actionStatusMatchesIdentityScope status scope) then false
  else actionStatusMatchesStateScope status scope.

Definition action_le (x y : GovernedActionStatus) : Prop := String.le (ast_ActionID x) (ast_ActionID y).

#[global] Instance action_le_dec : RelDecision action_le.
Proof. intros x y. unfold action_le. apply _. Defined.

Definition ListActions (s : MemoryStore) (scope : option ActionScope) : result (list GovernedActionStatus) :=
  ValidateActionScope scope;;
  match scope with
  | None => Ok []
  | Some scope =>
      let matching := filter (λ status, actionStatusMatchesScope status scope = true)
                        (map_to_list (statuses s)).*2 in
      Ok (limited (asc_Limit scope) (merge_sort action_le matching))
  end.

Definition UpdateActionStatus (s : MemoryStore) (status : option GovernedActionStatus)
    (idempotencyKey : string) : MemoryStore * result GovernedActionStatus :=
  match validateUpdateActionStatusInput status idempotencyKey with
  | Err e => (s, Err e)
  | Ok status =>
      let key := ActionKey (ast_ActionID status) idempotencyKey in
      match statusKeys s !! key with
      | Some existing => (s, Ok existing)
      | None =>
          match specs s !! ast_ActionID status with
          | None => (s, Err (Errorf ErrInvalidGovernedActionScope "action %q not found"))
          | Some spec =>
              match validateActionStatusScope status spec with
              | Err e => (s, Err e)
              | Ok _ =>
                  let prepared := normalizeActionStatus spec status in
                  ({| s with
                      statuses := <[ast_ActionID status := prepared]> (statuses s);
                      statusKeys := <[key := prepared]> (statusKeys s) |}, Ok prepared)
              end
          end
      end
  end.

(** ** runtime.go *)

(** The calls of the runtime: the methods of Store and the clock. *)
Inductive action_op :=
  | ACreateAction (spec : option GovernedActionSpec) (status : option GovernedActionStatus)
  | AGetAction (ref : ActionRef)
  | AListActions (scope : option ActionScope)
  | AUpdateActionStatus (status : option GovernedActionStatus) (idempotencyKey : string)
  | ANow.

#[global] Instance action_calls : Calls action_op := {|
  reply o :=
    match o with
    | ACreateAction _ _ => result (GovernedActionStatus * bool)
    | AGetAction _ => result (option (GovernedActionSpec * GovernedActionStatus))
    | AListActions _ => result (list GovernedActionStatus)
    | AUpdateActionStatus _ _ => result GovernedActionStatus
    | ANow => time
    end |}.

Abbreviation aprog := (calls action_op) (only parsing).

Definition actionTimestamp (ts : time) : aprog time := if time_is_zero ts then ask ANow else mret ts.

Definition initialActionStatus (spec : GovernedActionSpec) : aprog GovernedActionStatus :=
  now ← actionTimestamp (asp_RequestedAt spec);
  let status := {|
    ast_ActionID := asp_ActionID spec; ast_AccountID := asp_AccountID spec;
    ast_ProjectID := asp_ProjectID spec; ast_ProcessID := asp_ProcessID spec;
    ast_Resource := asp_Resource spec; ast_Kind := asp_Kind spec; ast_LifecycleState := ActionReady;
    ast_DryRunState := ""; ast_ApprovalState := ""; ast_ExecutionState := ActionExecutionPending;
    ast_Risk := asp_Risk spec; ast_Reason := ""; ast_UpdatedAt := now |} in
  let status := if asp_DryRunRequired spec then
    {| status with ast_DryRunState := ActionDryRunPending; ast_LifecycleState := ActionWaitingDryRun |}
    else status in
  let status := if asp_ApprovalRequired spec then
    let status := {| status with ast_ApprovalState := ActionApprovalPending |} in
    if asp_DryRunRequired spec then status
    else {| status with ast_LifecycleState := ActionWaitingApproval |}
    else status in
  mret status.

Definition lifecycleAfterDryRun (spec : GovernedActionSpec) : string :=
  if asp_ApprovalRequired spec then ActionWaitingApproval else ActionReady.

Definition lifecycleAfterApproval (spec : GovernedActionSpec) (dryRunState : string) : string :=
  if asp_DryRunRequired spec && (dryRunState != ActionDryRunSucceeded) then ActionWaitingDryRun
  else ActionReady.

Definition actionReadyForExecution (status : GovernedActionStatus) : bool :=
  if (ast_LifecycleState status != ActionReady) && (ast_LifecycleState status != ActionExecuting) then false
  else if (ast_DryRunState status != "") && (ast_DryRunState status != ActionDryRunSucceeded) then false
  else if (ast_ApprovalState status != "") && (ast_ApprovalState status != ActionApprovalApproved) then false
  else true.

Definition validateDryRunResult (r : option ActionDryRunResult) : result ActionDryRunResult :=
  match r with
  | None => Err (Errorf ErrInvalidGovernedAction "dry-run result is required")
  | Some r =>
      fail_if (adr_IdempotencyKey r == "")
        (Errorf ErrInvalidGovernedAction "dry-run idempotency key is required");;
      Ok r
  end.

Definition validateApprovalDecision (d : option ActionApprovalDecision) : result ActionApprovalDecision :=
  match d with
  | None => Err (Errorf ErrInvalidGovernedAction "approval decision is required")
  | Some d =>
      fail_if (aad_IdempotencyKey d == "")
        (Errorf ErrInvalidGovernedAction "approval idempotency key is required");;
      Ok d
  end.

Definition validateExecutionResult (r : option ActionExecutionResult) : result ActionExecutionResult :=
  match r with
  | None => Err (Errorf ErrInvalidGovernedAction "execution result is required")
  | Some r =>
      fail_if (aer_IdempotencyKey r == "")
        (Errorf ErrInvalidGovernedAction "execution idempotency key is required");;
      Ok r
  end.

Definition validateCancelRequest (r : option ActionCancelRequest) : result ActionCancelRequest :=
  match r with
  | None => Err (Errorf ErrInvalidGovernedAction "cancel request is required")
  | Some r =>
      fail_if (acr_IdempotencyKey r == "")
        (Errorf ErrInvalidGovernedAction "cancel idempotency key is required");;
      Ok r
  end.

Definition err_action_not_found : go_error := Errorf ErrInvalidGovernedActionScope "action %q not found".

(** [return r.store.UpdateActionStatus(ctx, &next, key)] *)
Definition update_status (next : GovernedActionStatus) (key : string) : aprog (result GovernedActionStatus) :=
  ask (AUpdateActionStatus (Some next) key).

Definition RequestAction (spec : option GovernedActionSpec) : aprog (result GovernedActionStatus) :=
  _ ←! ValidateGovernedActionSpec spec;
  status ← initialActionStatus (default zero_GovernedActionSpec spec);
  created ←? ask (ACreateAction spec (Some status));
  mret (Ok created.1).

Definition StatusAction (ref : ActionRef) : aprog (result GovernedActionStatus) :=
  found ←? ask (AGetAction ref);
  mret (match found with None => Err err_action_not_found | Some (_, status) => Ok status end).

Definition Runtime_ListActions (scope : option ActionScope) : aprog (result (list GovernedActionStatus)) :=
  _ ←! ValidateActionScope scope;
  found ←? ask (AListActions scope);
  mret (Ok found).

Definition requireAction (ref : ActionRef) : aprog (result (GovernedActionSpec * GovernedActionStatus)) :=
  _ ←! ValidateActionRef ref;
  found ←? ask (AGetAction ref);
  mret (match found with None => Err err_action_not_found | Some found => Ok found end).

Definition RecordActionDryRun (ref : ActionRef) (dryRun : option ActionDryRunResult) :
    aprog (result GovernedActionStatus) :=
  found ←? requireAction ref;
  let '(spec, status) := found in
  dryRun ←! validateDryRunResult dryRun;
  _ ←! fail_if (ast_DryRunState status == "")
         (Errorf ErrInvalidGovernedAction "action %q does not require dry-run");
  updatedAt ← actionTimestamp (adr_RecordedAt dryRun);
  let next := {| status with
    ast_Risk := if risk_Level (adr_Risk dryRun) == "" then ast_Risk status else adr_Risk dryRun;
    ast_UpdatedAt := updatedAt |} in
  let next := if adr_Succeeded dryRun then
      {| next with ast_DryRunState := ActionDryRunSucceeded; ast_LifecycleState := lifecycleAfterDryRun spec |}
    else
      {| next with ast_DryRunState := ActionDryRunFailed; ast_LifecycleState := ActionFailed;
                   ast_ExecutionState := ActionExecutionFailed; ast_Reason := adr_Summary dryRun |} in
  update_status next (adr_IdempotencyKey dryRun).

Definition ResolveActionApproval (ref : ActionRef) (decision : option ActionApprovalDecision) :
    aprog (result GovernedActionStatus) :=
  found ←? requireAction ref;
  let '(spec, status) := found in
  decision ←! validateApprovalDecision decision;
  _ ←! fail_if (ast_ApprovalState status == "")
         (Errorf ErrInvalidGovernedAction "action %q does not require approval");
  updatedAt ← actionTimestamp (aad_DecidedAt decision);
  let next := {| status with ast_UpdatedAt := updatedAt |} in
  let next := if aad_Approved decision then
      {| next with ast_ApprovalState := ActionApprovalApproved;
                   ast_LifecycleState := lifecycleAfterApproval spec (ast_DryRunState next) |}
    else
      {| next with ast_ApprovalState := ActionApprovalRejected; ast_LifecycleState := ActionCanceled;
                   ast_Reason := aad_Reason decision |} in
  update_status next (aad_IdempotencyKey decision).

Definition CompleteAction (ref : ActionRef) (execution : option ActionExecutionResult) :
    aprog (result GovernedActionStatus) :=
  found ←? requireAction ref;
  let '(_, status) := found in
  execution ←! validateExecutionResult execution;
  _ ←! fail_if (negb (actionReadyForExecution status))
         (Errorf ErrInvalidGovernedAction "action %q is not ready for execution");
  updatedAt ← actionTimestamp (aer_RecordedAt execution);
  let next := {| status with ast_UpdatedAt := updatedAt |} in
  let next := if aer_Succeeded execution then
      {| next with ast_LifecycleState := ActionExecuted; ast_ExecutionState := ActionExecutionSucceeded |}
    else
      {| next with ast_LifecycleState := ActionFailed; ast_ExecutionState := ActionExecutionFailed;
                   ast_Reason := aer_Summary execution |} in
  update_status next (aer_IdempotencyKey execution).

Definition CancelAction (ref : ActionRef) (req : option ActionCancelRequest) :
    aprog (result GovernedActionStatus) :=
  found ←? requireAction ref;
  let '(_, status) := found in
  req ←! validateCancelRequest req;
  _ ←! fail_if (ast_LifecycleState status == ActionExecuted)
         (Errorf ErrInvalidGovernedAction "action %q is already executed");
  updatedAt ← actionTimestamp (acr_RequestedAt req);
  let next := {| status with ast_LifecycleState := ActionCanceled; ast_Reason := acr_Reason req;
                             ast_UpdatedAt := updatedAt |} in
  update_status next (acr_IdempotencyKey req).

(** ** What a call does *)

Definition action_does (o : action_op) (s : MemoryStore) : reply o → MemoryStore → Prop :=
  match o with
  | ACreateAction spec status => store_call (CreateAction s spec status) s
  | AGetAction ref => store_call (s, GetAction s ref) s
  | AListActions scope => store_call (s, ListActions s scope) s
  | AUpdateActionStatus status key => store_call (UpdateActionStatus s status key) s
  | ANow => λ _ s', s' = s
  end.

(** The calls while nothing fails and the clock shows [now]. *)
Definition action_handle (now : time) (o : action_op) (s : MemoryStore) : reply o * MemoryStore :=
  let answer {A} (effect : MemoryStore * A) := (effect.2, effect.1) in
  match o with
  | ACreateAction spec status => answer (CreateAction s spec status)
  | AGetAction ref => (GetAction s ref, s)
  | AListActions scope => (ListActions s scope, s)
  | AUpdateActionStatus status key => answer (UpdateActionStatus s status key)
  | ANow => (now, s)
  end.

(** A request to the runtime, its answer dropped. *)
Inductive action_request : aprog unit → Prop :=
  | request_action spec : action_request (RequestAction spec ≫= λ _, mret tt)
  | request_status ref : action_request (StatusAction ref ≫= λ _, mret tt)
  | request_list scope : action_request (Runtime_ListActions scope ≫= λ _, mret tt)
  | request_dry_run ref r : action_request (RecordActionDryRun ref r ≫= λ _, mret tt)
  | request_approval ref d : action_request (ResolveActionApproval ref d ≫= λ _, mret tt)
  | request_complete ref r : action_request (CompleteAction ref r ≫= λ _, mret tt)
  | request_cancel ref r : action_request (CancelAction ref r ≫= λ _, mret tt).

(** The stores that any number of requests, interleaved and cut short anywhere, lead to. *)
Definition action_reachable (s : MemoryStore) : Prop :=
  ∃ ps, rtc (thread_step action_does action_request) (Threads NewMemoryStore []) (Threads s ps).
End action.
