(* ===== verification/ActionsSpec.v ===== *)
(** * Governed actions: gates and decisions

    However requests interleave and fail, an action is ready or executed only after the dry
    run and the approval that its request asks for.  Repeated decisions are recognised,
    repeated completions are refused.  An approval reopens any action. *)

From S2P Require Import Prelude Types Graph Scope Json Idempotency Calls Process Ledger Actions.
Import process ledger action.

(** ** The invariant *)

(** The fields of a status that are its action's. *)
Definition status_for (spec : GovernedActionSpec) (status : GovernedActionStatus) : Prop :=
  ast_ActionID status = asp_ActionID spec ∧ ast_AccountID status = asp_AccountID spec ∧
  ast_ProjectID status = asp_ProjectID spec ∧ ast_ProcessID status = asp_ProcessID spec ∧
  ast_Resource status = asp_Resource spec ∧ ast_Kind status = asp_Kind spec.

(** The gates that the request asks for are passed. *)
Definition passed (spec : GovernedActionSpec) (status : GovernedActionStatus) : Prop :=
  (asp_DryRunRequired spec = true → ast_DryRunState status = ActionDryRunSucceeded) ∧
  (asp_ApprovalRequired spec = true → ast_ApprovalState status = ActionApprovalApproved).

(** An action without a gate has no state for it; one that is ready, running or done has
    passed its gates. *)
Definition gated (spec : GovernedActionSpec) (status : GovernedActionStatus) : Prop :=
  (ast_DryRunState status = "" ↔ asp_DryRunRequired spec = false) ∧
  (ast_ApprovalState status = "" ↔ asp_ApprovalRequired spec = false) ∧
  (ast_LifecycleState status ∈ [ActionReady; ActionExecuting; ActionExecuted] → passed spec status).

Record action_ok (s : MemoryStore) : Prop := {
  ao_spec id spec : specs s !! id = Some spec →
    asp_ActionID spec = id ∧ ValidateGovernedActionSpec (Some spec) = Ok tt;
  ao_status id : specs s !! id = None ↔ statuses s !! id = None;
  ao_current id spec status : specs s !! id = Some spec → statuses s !! id = Some status →
    status_for spec status ∧ gated spec status;
  ao_recorded key status : statusKeys s !! key = Some status →
    ∃ spec, specs s !! atk_ActionID key = Some spec ∧ status_for spec status ∧ gated spec status;
}.

(** What is never lost or rewritten. *)
Record action_grows (s s' : MemoryStore) : Prop := {
  ag_specs : specs s ⊆ specs s';
  ag_starts : startKeys s ⊆ startKeys s';
  ag_status_keys : statusKeys s ⊆ statusKeys s';
}.

#[global] Instance action_grows_preorder : PreOrder action_grows.
Proof. split; [by split|]. intros s1 s2 s3 [] []. split; etrans; eassumption. Qed.

Lemma action_ok_new : action_ok NewMemoryStore.
Proof. split; intros *; cbn; by rewrite ?lookup_empty. Qed.

(** ** Store operations *)

Lemma normalize_status_for spec status : status_for spec (normalizeActionStatus spec status).
Proof. done. Qed.

Lemma normalize_gated spec status : gated spec (normalizeActionStatus spec status) ↔ gated spec status.
Proof. done. Qed.

Lemma insert_action s spec status :
  action_ok s → ValidateGovernedActionSpec (Some spec) = Ok tt → specs s !! asp_ActionID spec = None →
  startKeys s !! actionStartKeyFromSpec spec = None → status_for spec status → gated spec status →
  let s' := {| s with
    specs := <[asp_ActionID spec := spec]> (specs s);
    statuses := <[asp_ActionID spec := status]> (statuses s);
    startKeys := <[actionStartKeyFromSpec spec := asp_ActionID spec]> (startKeys s) |} in
  action_ok s' ∧ action_grows s s'.
Proof.
  intros Hok Hv Hnew Hkey Hst Hg. cbv zeta. split; [|by split; [apply insert_subseteq..|]].
  split; cbn -[ValidateGovernedActionSpec].
  - intros id sp [[<- <-]|[_ ?]]%lookup_insert_Some; [done|by apply (ao_spec _ Hok)].
  - intros id. rewrite !lookup_insert_None. by rewrite (ao_status _ Hok).
  - intros id sp st. destruct (decide (asp_ActionID spec = id)) as [<-|Hne].
    + rewrite !lookup_insert_eq. by intros [= <-] [= <-].
    + rewrite !lookup_insert_ne by done. apply (ao_current _ Hok).
  - intros key st (sp & Hs & ?)%(ao_recorded _ Hok). exists sp. split; [|done].
    rewrite lookup_insert_ne; [done|]. congruence.
Qed.

Lemma CreateAction_ok s spec status :
  action_ok s → gated spec status →
  action_ok (CreateAction s (Some spec) (Some status)).1 ∧
  action_grows s (CreateAction s (Some spec) (Some status)).1.
Proof.
  intros Hok Hg. unfold CreateAction.
  destruct (validateCreateActionInput _ _) as [[spec' status']|] eqn:Hv; [|done].
  unfold validateCreateActionInput in Hv. apply bind_Ok in Hv as ([] & Hspec & [= <- <-]).
  destruct (lookupExistingActionStartLocked _ _ _) as [[existing|]|] eqn:H1; [done| |done].
  destruct (lookupExistingActionIDLocked _ _) as [[existing|]|] eqn:H2; [done| |done]. cbn [fst].
  unfold lookupExistingActionStartLocked in H1. destruct (startKeys s !! _) eqn:Hk; [by apply bind_Ok in H1 as (? & _ & ?)|].
  unfold lookupExistingActionIDLocked in H2. destruct (specs s !! _) eqn:Hs; [by apply bind_Ok in H2 as (? & _ & ?)|].
  by apply insert_action.
Qed.

Lemma UpdateActionStatus_ok s spec status key :
  action_ok s → specs s !! asp_ActionID spec = Some spec → status_for spec status → gated spec status →
  action_ok (UpdateActionStatus s (Some status) key).1 ∧
  action_grows s (UpdateActionStatus s (Some status) key).1.
Proof.
  intros Hok Hspec Hst Hg. unfold UpdateActionStatus.
  destruct (validateUpdateActionStatusInput _ _) as [status'|] eqn:Hv; [|done].
  assert (status' = status) as ->. { cbn in Hv. repeat (apply bind_Ok in Hv as ([] & _ & Hv)). by injection Hv. }
  destruct (statusKeys s !! _) eqn:Hk; [done|]. pose proof Hst as [-> _]. rewrite Hspec.
  destruct (validateActionStatusScope _ _); [|done]. cbn [fst].
  split; [|split; [done..|cbn]].
  2: { apply insert_subseteq. destruct Hst as [<- _]. exact Hk. }
  split; cbn -[ValidateGovernedActionSpec].
  - apply (ao_spec _ Hok).
  - intros id. rewrite lookup_insert_None, <- (ao_status _ Hok). split; [|by intros []].
    intros Hn. split; [done|]. intros <-. congruence.
  - intros id sp st Hs [[<- <-]|[_ ?]]%lookup_insert_Some; [|by eapply (ao_current _ Hok)].
    rewrite Hspec in Hs. by injection Hs as <-.
  - intros k st [[<- <-]|[_ ?]]%lookup_insert_Some; [|by apply (ao_recorded _ Hok)]. by exists spec.
Qed.

(** ** Lifecycle moves keep the gates *)

Lemma gated_dry_run spec status ok reason risk t :
  gated spec status → ast_DryRunState status ≠ "" →
  gated spec (let next := {| status with ast_Risk := risk; ast_UpdatedAt := t |} in
    if ok : bool then
      {| next with ast_DryRunState := ActionDryRunSucceeded; ast_LifecycleState := lifecycleAfterDryRun spec |}
    else {| next with ast_DryRunState := ActionDryRunFailed; ast_LifecycleState := ActionFailed;
                      ast_ExecutionState := ActionExecutionFailed; ast_Reason := reason |}).
Proof.
  intros (Hd & Ha & _) Hne. assert (asp_DryRunRequired spec = true) as Hr
    by (destruct (asp_DryRunRequired spec); [done|]; exfalso; by apply Hne, Hd).
  unfold gated, passed, lifecycleAfterDryRun. cbv zeta. rewrite Hr.
  destruct ok; cbn; (split; [done|]); (split; [done|]); [|set_solver].
  destruct (asp_ApprovalRequired spec); [set_solver|done].
Qed.

Lemma gated_approval spec status ok reason t :
  gated spec status → ast_ApprovalState status ≠ "" →
  gated spec (let next := {| status with ast_UpdatedAt := t |} in
    if ok : bool then
      {| next with ast_ApprovalState := ActionApprovalApproved;
                   ast_LifecycleState := lifecycleAfterApproval spec (ast_DryRunState next) |}
    else {| next with ast_ApprovalState := ActionApprovalRejected; ast_LifecycleState := ActionCanceled;
                      ast_Reason := reason |}).
Proof.
  intros (Hd & Ha & _) Hne. assert (asp_ApprovalRequired spec = true) as Hr
    by (destruct (asp_ApprovalRequired spec); [done|]; exfalso; by apply Hne, Ha).
  unfold gated, passed, lifecycleAfterApproval. cbv zeta. rewrite Hr.
  destruct ok; cbn; (split; [done|]); (split; [done|]); [|set_solver].
  destruct (asp_DryRunRequired spec); [|done]. case_bool_decide; cbn; [done|set_solver].
Qed.

Lemma gated_complete spec status ok reason t :
  gated spec status → actionReadyForExecution status = true →
  gated spec (let next := {| status with ast_UpdatedAt := t |} in
    if ok : bool then
      {| next with ast_LifecycleState := ActionExecuted; ast_ExecutionState := ActionExecutionSucceeded |}
    else {| next with ast_LifecycleState := ActionFailed; ast_ExecutionState := ActionExecutionFailed;
                      ast_Reason := reason |}).
Proof.
  intros (Hd & Ha & Hp) Hr. assert (passed spec status) as Hpass.
  { apply Hp. unfold actionReadyForExecution in Hr.
    destruct (_ && _) eqn:Hl; [done|]. apply andb_false_iff in Hl.
    rewrite !negb_false_iff, !bool_decide_eq_true in Hl. destruct Hl as [-> | ->]; set_solver. }
  unfold gated. cbv zeta. destruct ok; cbn; (split; [done|]); (split; [done|]); [by intros _|set_solver].
Qed.

Lemma gated_cancel spec status reason t :
  gated spec status →
  gated spec {| status with ast_LifecycleState := ActionCanceled; ast_Reason := reason; ast_UpdatedAt := t |}.
Proof. intros (Hd & Ha & _). unfold gated. cbn. split; [done|]. split; [done|]. set_solver. Qed.

(** ** Requests *)

Abbreviation asafe p := (safe action_does action_ok action_grows p) (only parsing).

Lemma action_safe_timestamp {A} t (k : time → aprog A) Q s :
  (∀ t s', action_grows s s' → asafe (k t) Q s') → asafe (t' ← actionTimestamp t; k t') Q s.
Proof.
  intros Hk. unfold actionTimestamp. destruct (time_is_zero t); [|by apply (Hk t)].
  apply safe_ask. intros s1 r s2 Hok Hg ->. split_and!; [done..|]. by apply (Hk r).
Qed.

Lemma GetAction_found s ref spec status :
  action_ok s → GetAction s ref = Ok (Some (spec, status)) →
  specs s !! asp_ActionID spec = Some spec ∧ asp_ActionID spec = arf_ActionID ref ∧
  statuses s !! asp_ActionID spec = Some status ∧ status_for spec status ∧ gated spec status ∧
  ValidateGovernedActionSpec (Some spec) = Ok tt.
Proof.
  intros Hok Hget. apply bind_Ok in Hget as ([] & _ & Hget).
  destruct (specs s !! _) as [spec0|] eqn:Hs; [|done]. apply bind_Ok in Hget as ([] & _ & [= <- <-]).
  destruct (ao_spec _ Hok _ _ Hs) as [Hid Hv]. rewrite Hid.
  destruct (statuses s !! _) as [st|] eqn:Hst; [|apply (ao_status _ Hok) in Hst; congruence].
  destruct (ao_current _ Hok _ _ _ Hs Hst). by split_and!.
Qed.

Lemma safe_require_action {A} ref (k : GovernedActionSpec * GovernedActionStatus → aprog (result A)) s :
  (∀ spec status s', action_grows s s' → specs s' !! asp_ActionID spec = Some spec →
     status_for spec status → gated spec status → asafe (k (spec, status)) (λ _ _, True) s') →
  asafe (found ←? requireAction ref; k found) (λ _ _, True) s.
Proof.
  intros Hk. unfold requireAction, ask_ok, check_ok. destruct (ValidateActionRef ref); [|done].
  apply (safe_ask _ _ _ (AGetAction ref)). intros s1 r s2 Hok Hg Hd.
  apply read_call in Hd as [-> Hr]. split_and!; [done..|].
  destruct r as [[[spec status]|]|]; [|done..]. specialize (Hr _ eq_refl).
  apply GetAction_found in Hr as (? & _ & _ & ? & ? & _); [|done]. by apply Hk.
Qed.

Lemma safe_update_status spec status key s :
  specs s !! asp_ActionID spec = Some spec → status_for spec status → gated spec status →
  asafe (update_status status key) (λ _ _, True) s.
Proof.
  intros Hspec Hst Hg. apply (safe_ask _ _ _ (AUpdateActionStatus (Some status) key)). intros s1 r s2 Hok Hgr Hd.
  destruct (UpdateActionStatus_ok s1 spec status key) as [? ?]; [done| |done..|].
  { eapply lookup_weaken; [done|apply Hgr]. }
  apply store_call_ok in Hd as [[->| ->] _]; by split_and!.
Qed.

Lemma action_safe_initial {A} spec (k : GovernedActionStatus → aprog (result A)) s :
  (∀ status s', action_grows s s' → gated spec status → asafe (k status) (λ _ _, True) s') →
  asafe (status ← initialActionStatus spec; k status) (λ _ _, True) s.
Proof.
  intros Hk. unfold initialActionStatus. apply safe_bind, action_safe_timestamp. intros t s1 Hg. cbn [safe mret].
  apply Hk; [done|]. unfold gated, passed.
  destruct (asp_DryRunRequired spec) eqn:Hd, (asp_ApprovalRequired spec) eqn:Ha; cbn;
    (split; [done|]); (split; [done|]); try done; set_solver.
Qed.

Lemma action_request_safe p s : action_request p → asafe p (λ _ _, True) s.
Proof.
  assert (∀ A (m : aprog A), asafe m (λ _ _, True) s → asafe (m ≫= λ _, mret tt) (λ _ _, True) s) as Hdrop
    by (intros A m Hm; apply safe_bind; eapply safe_mono; [exact Hm|done]).
  intros Hp. destruct Hp as [spec|ref|scope|ref r|ref d|ref r|ref r]; apply Hdrop.
  - unfold RequestAction, check_ok. destruct (ValidateGovernedActionSpec spec) eqn:Hv; [|done].
    destruct spec as [spec|]; [|done]. apply action_safe_initial. intros status s1 Hg1 Hgt. unfold ask_ok.
    apply safe_ask. intros s2 r s3 Hok Hg Hd. destruct (CreateAction_ok s2 spec status) as [? ?]; [done..|].
    apply (store_call_ok (CreateAction s2 (Some spec) (Some status))) in Hd as [[->| ->] _];
      (split_and!; [done..|]); by destruct r as [[]|].
  - unfold StatusAction, ask_ok. apply safe_ask. intros s1 r s2 Hok Hg [-> _]%read_call.
    split_and!; [done..|]. by destruct r as [[[]|]|].
  - unfold Runtime_ListActions, check_ok, ask_ok. destruct (ValidateActionScope scope); [|done].
    apply safe_ask. intros s1 r s2 Hok Hg [-> _]%read_call. split_and!; [done..|]. by destruct r.
  - unfold RecordActionDryRun. apply safe_require_action. intros spec status s1 Hg1 Hs Hst Hgt.
    destruct (validateDryRunResult r) as [dr|]; [|done]. unfold check_ok.
    destruct (fail_if _ _) eqn:Hne; [|done]. apply fail_if_Ok in Hne. simplify_bool.
    apply action_safe_timestamp. intros t s2 Hg2.
    apply (safe_update_status spec); [eapply lookup_weaken; [done|apply Hg2]| |].
    + by destruct (adr_Succeeded dr).
    + by apply gated_dry_run.
  - unfold ResolveActionApproval. apply safe_require_action. intros spec status s1 Hg1 Hs Hst Hgt.
    destruct (validateApprovalDecision d) as [dc|]; [|done]. unfold check_ok.
    destruct (fail_if _ _) eqn:Hne; [|done]. apply fail_if_Ok in Hne. simplify_bool.
    apply action_safe_timestamp. intros t s2 Hg2.
    apply (safe_update_status spec); [eapply lookup_weaken; [done|apply Hg2]| |].
    + by destruct (aad_Approved dc).
    + by apply gated_approval.
  - unfold CompleteAction. apply safe_require_action. intros spec status s1 Hg1 Hs Hst Hgt.
    destruct (validateExecutionResult r) as [er|]; [|done]. unfold check_ok.
    destruct (fail_if _ _) eqn:Hne; [|done]. apply fail_if_Ok, negb_false_iff in Hne.
    apply action_safe_timestamp. intros t s2 Hg2.
    apply (safe_update_status spec); [eapply lookup_weaken; [done|apply Hg2]| |].
    + by destruct (aer_Succeeded er).
    + by apply gated_complete.
  - unfold CancelAction. apply safe_require_action. intros spec status s1 Hg1 Hs Hst Hgt.
    destruct (validateCancelRequest r) as [cr|]; [|done]. unfold check_ok.
    destruct (fail_if _ _); [|done]. apply action_safe_timestamp. intros t s2 Hg2.
    apply (safe_update_status spec); [eapply lookup_weaken; [done|apply Hg2]|done|by apply gated_cancel].
Qed.

Lemma action_reachable_ok s : action_reachable s → action_ok s.
Proof.
  intros [ps Hr]. by eapply (threads_reach action_does action_request action_ok action_grows);
    [apply action_request_safe|apply action_ok_new|exact Hr].
Qed.

(** ** Undisturbed requests *)

Abbreviation arun now p s := (run_calls (action_handle now) p s) (only parsing).

Lemma run_require {A} now ref (k : _ → aprog (result A)) s :
  arun now (found ←? requireAction ref; k found) s =
  match GetAction s ref with
  | Ok (Some found) => arun now (k found) s
  | Ok None => (Err err_action_not_found, s)
  | Err e => (Err e, s)
  end.
Proof.
  unfold requireAction, ask_ok, check_ok. unfold GetAction at 1.
  destruct (ValidateActionRef ref) eqn:Hv; [|done]. cbn. unfold GetAction. rewrite Hv. cbn.
  destruct (specs s !! _); [|done]. by destruct (validateActionTenantAccess _ _).
Qed.

Lemma run_timestamp {A} now t (k : time → aprog A) s :
  arun now (t' ← actionTimestamp t; k t') s = arun now (k (if time_is_zero t then now else t)) s.
Proof. unfold actionTimestamp. by destruct (time_is_zero t). Qed.

Lemma run_update now next key s :
  arun now (update_status next key) s =
  ((UpdateActionStatus s (Some next) key).2, (UpdateActionStatus s (Some next) key).1).
Proof. done. Qed.

Lemma ValidateGovernedActionSpec_ids spec :
  ValidateGovernedActionSpec (Some spec) = Ok tt →
  asp_ActionID spec ≠ "" ∧ asp_AccountID spec ≠ "" ∧ asp_ProjectID spec ≠ "".
Proof.
  cbn -[validateActionRefs validateGovernedActionScope]. intros ([] & Hi & _)%bind_Ok.
  unfold validateGovernedActionIdentity in Hi.
  apply bind_Ok in Hi as ([] & ?%fail_if_Ok & Hi). apply bind_Ok in Hi as ([] & _ & Hi).
  apply bind_Ok in Hi as ([] & ?%fail_if_Ok & Hi). apply bind_Ok in Hi as ([] & ?%fail_if_Ok & _).
  by simplify_bool.
Qed.

Lemma action_normalize_id spec status : status_for spec status → normalizeActionStatus spec status = status.
Proof.
  unfold status_for, normalizeActionStatus. intros (<- & <- & <- & <- & <- & <-). by destruct status.
Qed.

(** An update of a stored action under a given key. *)
Lemma update_cases s spec next key :
  action_ok s → specs s !! asp_ActionID spec = Some spec → status_for spec next → key ≠ "" →
  UpdateActionStatus s (Some next) key =
  match statusKeys s !! ActionKey (asp_ActionID spec) key with
  | Some recorded => (s, Ok recorded)
  | None =>
      ({| s with statuses := <[asp_ActionID spec := next]> (statuses s);
                 statusKeys := <[ActionKey (asp_ActionID spec) key := next]> (statusKeys s) |}, Ok next)
  end.
Proof.
  intros Hok Hspec Hst Hkey. destruct (ao_spec _ Hok _ _ Hspec) as [_ Hv].
  apply ValidateGovernedActionSpec_ids in Hv as (Hn1 & Hn2 & Hn3). pose proof Hst as (H1 & H2 & H3 & _).
  unfold UpdateActionStatus, validateUpdateActionStatusInput, validateActionStatusScope. rewrite H1, H2, H3.
  repeat (rewrite bool_decide_eq_false_2 by done). cbn.
  rewrite H1. destruct (statusKeys s !! _); [done|]. rewrite Hspec, action_normalize_id, H2, H3 by done.
  repeat (rewrite bool_decide_eq_true_2 by done). done.
Qed.

(** What is stored after a successful request under a key. *)
Lemma update_recorded s ref spec status next key s1 st :
  action_ok s → GetAction s ref = Ok (Some (spec, status)) → status_for spec next → gated spec next → key ≠ "" →
  UpdateActionStatus s (Some next) key = (s1, Ok st) →
  action_ok s1 ∧ statusKeys s1 !! ActionKey (asp_ActionID spec) key = Some st ∧
  ∃ cur, GetAction s1 ref = Ok (Some (spec, cur)) ∧
    (s1 = s ∧ cur = status ∧ is_Some (statusKeys s !! ActionKey (asp_ActionID spec) key) ∨ cur = next ∧ st = next).
Proof.
  intros Hok Hget Hst Hgt Hkey Hu. pose proof Hget as (Hspec & Hid & Hcur & _)%GetAction_found; [|done].
  destruct (UpdateActionStatus_ok s spec next key) as [Hok1 _]; [done..|]. rewrite Hu in Hok1. split; [done|].
  rewrite (update_cases s spec) in Hu by done.
  destruct (statusKeys s !! _) as [recorded|] eqn:Hk; injection Hu as <- <-.
  - split; [done|]. exists status. split; [done|]. left. split_and!; [done..|by eexists].
  - cbn. split; [by rewrite lookup_insert_eq|]. exists next. split; [|by right].
    revert Hget. unfold GetAction. cbn. rewrite <- Hid, Hspec, Hcur, lookup_insert_eq.
    destruct (ValidateActionRef ref); [|done]. cbn. by destruct (validateActionTenantAccess _ _).
Qed.

(** A repeated decision finds its record. *)
Lemma known_update s ref spec cur next key st :
  action_ok s → GetAction s ref = Ok (Some (spec, cur)) → status_for spec next → key ≠ "" →
  statusKeys s !! ActionKey (asp_ActionID spec) key = Some st → UpdateActionStatus s (Some next) key = (s, Ok st).
Proof.
  intros Hok Hget Hst Hkey Hk. apply GetAction_found in Hget as (Hspec & _); [|done].
  by rewrite (update_cases s spec), Hk by done.
Qed.

Definition err_not_ready : go_error :=
  Errorf ErrInvalidGovernedAction "action %q is not ready for execution".

(** What the decisions have in common: a guard on the status that was read, and the next
    status under the key of the request. *)
Definition decision (ref : ActionRef) (key : string) (at_ : time) (guard : GovernedActionStatus → result unit)
    (next : GovernedActionSpec → GovernedActionStatus → time → GovernedActionStatus) :
    aprog (result GovernedActionStatus) :=
  found ←? requireAction ref;
  let '(spec, status) := found in
  _ ←! guard status;
  t ← actionTimestamp at_;
  update_status (next spec status t) key.

(** A move of the lifecycle. *)
Definition move (guard : GovernedActionStatus → result unit)
    (next : GovernedActionSpec → GovernedActionStatus → time → GovernedActionStatus) : Prop :=
  ∀ spec status t, status_for spec status → gated spec status → guard status = Ok tt →
    status_for spec (next spec status t) ∧ gated spec (next spec status t).

Lemma run_decision now ref key at_ guard next s :
  arun now (decision ref key at_ guard next) s =
  match GetAction s ref with
  | Ok (Some (spec, status)) =>
      match guard status with
      | Ok _ => let t := if time_is_zero at_ then now else at_ in
                let u := UpdateActionStatus s (Some (next spec status t)) key in (u.2, u.1)
      | Err e => (Err e, s)
      end
  | Ok None => (Err err_action_not_found, s)
  | Err e => (Err e, s)
  end.
Proof.
  unfold decision. rewrite run_require. destruct (GetAction s ref) as [[[spec status]|]|]; [|done..].
  destruct (guard status); [|done]. cbn [check_ok]. by rewrite run_timestamp.
Qed.

(** The state after a decision that was accepted. *)
Lemma decision_recorded now ref key at_ guard next s s1 st :
  action_ok s → key ≠ "" → move guard next → arun now (decision ref key at_ guard next) s = (Ok st, s1) →
  action_ok s1 ∧ ∃ spec status cur, GetAction s ref = Ok (Some (spec, status)) ∧ guard status = Ok tt ∧
    GetAction s1 ref = Ok (Some (spec, cur)) ∧ statusKeys s1 !! ActionKey (asp_ActionID spec) key = Some st ∧
    (s1 = s ∧ cur = status ∧ is_Some (statusKeys s !! ActionKey (asp_ActionID spec) key) ∨
     ∃ t, cur = next spec status t).
Proof.
  intros Hok Hkey Hmove. rewrite run_decision. destruct (GetAction s ref) as [[[spec status]|]|] eqn:Hget; [|done..].
  destruct (guard status) as [[]|] eqn:Hg; [|done]. cbv zeta. set (t := if time_is_zero at_ then now else at_).
  pose proof Hget as (_ & _ & _ & Hst & Hgt & _)%GetAction_found; [|done].
  destruct (Hmove spec status t Hst Hgt Hg) as [Hst' Hgt'].
  destruct (UpdateActionStatus s (Some _) _) as [s' r] eqn:Hu. cbn. intros [= -> ->].
  apply (update_recorded s ref spec status) in Hu as (Hok1 & Hk & cur & Hget1 & Hcur); [|done..]. split; [done|].
  exists spec, status, cur. split_and!; [done..|]. destruct Hcur as [?|[-> _]]; [by left|right; by eexists].
Qed.

(** A decision whose guard lets its own outcome pass is replayed. *)
Lemma decision_replays now now' ref key at_ guard next s s1 st :
  action_ok s → key ≠ "" → move guard next → (∀ spec status t, guard (next spec status t) = Ok tt) →
  arun now (decision ref key at_ guard next) s = (Ok st, s1) →
  arun now' (decision ref key at_ guard next) s1 = (Ok st, s1).
Proof.
  intros Hok Hkey Hmove Hagain Hrun.
  destruct (decision_recorded _ _ _ _ _ _ _ _ _ Hok Hkey Hmove Hrun) as (Hok1 & spec & status & cur & _ & Hg & Hget1 & Hk & Hcur).
  rewrite run_decision, Hget1. assert (guard cur = Ok tt) as Hg1 by (destruct Hcur as [(_ & -> & _)|[t ->]]; auto).
  rewrite Hg1. cbv zeta. pose proof Hget1 as (Hspec & _ & _ & Hst & Hgt & _)%GetAction_found; [|done].
  set (t := if time_is_zero at_ then now' else at_). destruct (Hmove spec cur t Hst Hgt Hg1) as [Hst' _].
  by rewrite (update_cases s1 spec), Hk by done.
Qed.

(** ** The requests as decisions *)

Definition dry_run_guard (status : GovernedActionStatus) : result unit :=
  fail_if (ast_DryRunState status == "") (Errorf ErrInvalidGovernedAction "action %q does not require dry-run").

Definition after_dry_run (r : ActionDryRunResult) (spec : GovernedActionSpec) (status : GovernedActionStatus)
    (t : time) : GovernedActionStatus :=
  let next := {| status with
    ast_Risk := if risk_Level (adr_Risk r) == "" then ast_Risk status else adr_Risk r; ast_UpdatedAt := t |} in
  if adr_Succeeded r then
    {| next with ast_DryRunState := ActionDryRunSucceeded; ast_LifecycleState := lifecycleAfterDryRun spec |}
  else {| next with ast_DryRunState := ActionDryRunFailed; ast_LifecycleState := ActionFailed;
                    ast_ExecutionState := ActionExecutionFailed; ast_Reason := adr_Summary r |}.

Definition approval_guard (status : GovernedActionStatus) : result unit :=
  fail_if (ast_ApprovalState status == "") (Errorf ErrInvalidGovernedAction "action %q does not require approval").

Definition after_approval (d : ActionApprovalDecision) (spec : GovernedActionSpec)
    (status : GovernedActionStatus) (t : time) : GovernedActionStatus :=
  let next := {| status with ast_UpdatedAt := t |} in
  if aad_Approved d then
    {| next with ast_ApprovalState := ActionApprovalApproved;
                 ast_LifecycleState := lifecycleAfterApproval spec (ast_DryRunState next) |}
  else {| next with ast_ApprovalState := ActionApprovalRejected; ast_LifecycleState := ActionCanceled;
                    ast_Reason := aad_Reason d |}.

Definition complete_guard (status : GovernedActionStatus) : result unit :=
  fail_if (negb (actionReadyForExecution status)) err_not_ready.

Definition after_completion (r : ActionExecutionResult) (spec : GovernedActionSpec)
    (status : GovernedActionStatus) (t : time) : GovernedActionStatus :=
  let next := {| status with ast_UpdatedAt := t |} in
  if aer_Succeeded r then
    {| next with ast_LifecycleState := ActionExecuted; ast_ExecutionState := ActionExecutionSucceeded |}
  else {| next with ast_LifecycleState := ActionFailed; ast_ExecutionState := ActionExecutionFailed;
                    ast_Reason := aer_Summary r |}.

Definition cancel_guard (status : GovernedActionStatus) : result unit :=
  fail_if (ast_LifecycleState status == ActionExecuted)
    (Errorf ErrInvalidGovernedAction "action %q is already executed").

Definition after_cancel (r : ActionCancelRequest) (spec : GovernedActionSpec)
    (status : GovernedActionStatus) (t : time) : GovernedActionStatus :=
  {| status with ast_LifecycleState := ActionCanceled; ast_Reason := acr_Reason r; ast_UpdatedAt := t |}.

(** With a valid request, the program is the decision. *)
Lemma run_dry_run now ref r s :
  adr_IdempotencyKey r ≠ "" →
  arun now (RecordActionDryRun ref (Some r)) s =
  arun now (decision ref (adr_IdempotencyKey r) (adr_RecordedAt r) dry_run_guard (after_dry_run r)) s.
Proof.
  intros Hk. unfold RecordActionDryRun, decision. rewrite !run_require.
  destruct (GetAction s ref) as [[[spec status]|]|]; [|done..].
  unfold validateDryRunResult. by rewrite bool_decide_eq_false_2.
Qed.

Lemma run_approval now ref d s :
  aad_IdempotencyKey d ≠ "" →
  arun now (ResolveActionApproval ref (Some d)) s =
  arun now (decision ref (aad_IdempotencyKey d) (aad_DecidedAt d) approval_guard (after_approval d)) s.
Proof.
  intros Hk. unfold ResolveActionApproval, decision. rewrite !run_require.
  destruct (GetAction s ref) as [[[spec status]|]|]; [|done..].
  unfold validateApprovalDecision. by rewrite bool_decide_eq_false_2.
Qed.

Lemma run_complete now ref r s :
  aer_IdempotencyKey r ≠ "" →
  arun now (CompleteAction ref (Some r)) s =
  arun now (decision ref (aer_IdempotencyKey r) (aer_RecordedAt r) complete_guard (after_completion r)) s.
Proof.
  intros Hk. unfold CompleteAction, decision. rewrite !run_require.
  destruct (GetAction s ref) as [[[spec status]|]|]; [|done..].
  unfold validateExecutionResult. by rewrite bool_decide_eq_false_2.
Qed.

Lemma run_cancel now ref r s :
  acr_IdempotencyKey r ≠ "" →
  arun now (CancelAction ref (Some r)) s =
  arun now (decision ref (acr_IdempotencyKey r) (acr_RequestedAt r) cancel_guard (after_cancel r)) s.
Proof.
  intros Hk. unfold CancelAction, decision. rewrite !run_require.
  destruct (GetAction s ref) as [[[spec status]|]|]; [|done..].
  unfold validateCancelRequest. by rewrite bool_decide_eq_false_2.
Qed.

Lemma move_dry_run r : move dry_run_guard (after_dry_run r).
Proof.
  intros spec status t Hst Hg Hne%fail_if_Ok. simplify_bool. unfold after_dry_run. split; [by destruct (adr_Succeeded r)|].
  by apply gated_dry_run.
Qed.

Lemma move_approval d : move approval_guard (after_approval d).
Proof.
  intros spec status t Hst Hg Hne%fail_if_Ok. simplify_bool. unfold after_approval. split; [by destruct (aad_Approved d)|].
  by apply gated_approval.
Qed.

Lemma move_completion r : move complete_guard (after_completion r).
Proof.
  intros spec status t Hst Hg Hne%fail_if_Ok%negb_false_iff. unfold after_completion.
  split; [by destruct (aer_Succeeded r)|]. by apply gated_complete.
Qed.

Lemma move_cancel r : move cancel_guard (after_cancel r).
Proof. intros spec status t Hst Hg _. split; [done|]. by apply gated_cancel. Qed.

(** The decisions that a client may repeat. *)
Inductive repeatable (ref : ActionRef) : aprog (result GovernedActionStatus) → Prop :=
  | repeat_dry_run r : repeatable ref (RecordActionDryRun ref r)
  | repeat_approval d : repeatable ref (ResolveActionApproval ref d)
  | repeat_cancel r : repeatable ref (CancelAction ref r).

(** A request without a body or without a key is refused. *)
Ltac refused Hrun :=
  revert Hrun; unfold RecordActionDryRun, ResolveActionApproval, CompleteAction, CancelAction,
    validateDryRunResult, validateApprovalDecision, validateExecutionResult, validateCancelRequest;
  rewrite run_require; destruct (GetAction _ _) as [[[]|]|]; [|done..];
  rewrite ?bool_decide_eq_true_2 by done; done.

Lemma repeatable_replays now now' ref p s s1 st :
  action_ok s → repeatable ref p → arun now p s = (Ok st, s1) → arun now' p s1 = (Ok st, s1).
Proof.
  intros Hok Hp Hrun. destruct Hp as [[r|]|[d|]|[r|]]; [|refused Hrun| |refused Hrun| |refused Hrun].
  - destruct (decide (adr_IdempotencyKey r = "")) as [Hk|Hk]; [refused Hrun|].
    rewrite run_dry_run in * by done. eapply decision_replays; [done..|apply move_dry_run| |done].
    intros. unfold after_dry_run. by destruct (adr_Succeeded r).
  - destruct (decide (aad_IdempotencyKey d = "")) as [Hk|Hk]; [refused Hrun|].
    rewrite run_approval in * by done. eapply decision_replays; [done..|apply move_approval| |done].
    intros. unfold after_approval. by destruct (aad_Approved d).
  - destruct (decide (acr_IdempotencyKey r = "")) as [Hk|Hk]; [refused Hrun|].
    rewrite run_cancel in * by done. by eapply decision_replays; [done..|apply move_cancel| |done].
Qed.

Lemma completion_not_ready r spec status t : actionReadyForExecution (after_completion r spec status t) = false.
Proof. unfold after_completion. by destruct (aer_Succeeded r). Qed.

Lemma completion_refused now now' ref r s s1 st :
  action_ok s → arun now (CompleteAction ref (Some r)) s = (Ok st, s1) →
  statusKeys s !! ActionKey (arf_ActionID ref) (aer_IdempotencyKey r) = None →
  arun now' (CompleteAction ref (Some r)) s1 = (Err err_not_ready, s1).
Proof.
  intros Hok Hrun Hnew. destruct (decide (aer_IdempotencyKey r = "")) as [Hk|Hk]; [refused Hrun|].
  rewrite run_complete in * by done.
  destruct (decision_recorded _ _ _ _ _ _ _ _ _ Hok Hk (move_completion r) Hrun)
    as (Hok1 & spec & status & cur & Hget & _ & Hget1 & _ & Hcur).
  apply GetAction_found in Hget as (_ & Hid & _); [|done]. rewrite Hid, Hnew in Hcur.
  destruct Hcur as [(_ & _ & [? [=]])|[t ->]]. rewrite run_decision, Hget1.
  unfold complete_guard. by rewrite completion_not_ready.
Qed.

(** ** Theorems *)

(** C31: the gates of actions.  Let any number of requests run at once, with any call failing
    before or after its effect and any request cut short.  Then every status an action has
    or ever had recorded is of its tenant, process, resource and kind, and if it says that
    the action is ready or executed, the dry run it asks for has succeeded and the approval
    it asks for was given. *)
Theorem action_gates s id status :
  action_reachable s →
  statuses s !! id = Some status ∨ (∃ key, statusKeys s !! ActionKey id key = Some status) →
  ∃ spec, specs s !! id = Some spec ∧ status_for spec status ∧
    (ast_LifecycleState status ∈ [ActionReady; ActionExecuting; ActionExecuted] →
     (asp_DryRunRequired spec = true → ast_DryRunState status = ActionDryRunSucceeded) ∧
     (asp_ApprovalRequired spec = true → ast_ApprovalState status = ActionApprovalApproved)).
Proof.
  intros Hok%action_reachable_ok [Hst|[key Hst]].
  - destruct (specs s !! id) as [spec|] eqn:Hs; [|apply (ao_status _ Hok) in Hs; congruence].
    destruct (ao_current _ Hok _ _ _ Hs Hst) as (? & _ & _ & ?). by exists spec.
  - apply (ao_recorded _ Hok) in Hst as (spec & ? & ? & _ & _ & ?). by exists spec.
Qed.

(** Repeated requests about an action.  An undisturbed dry run, approval or cancellation
    that was accepted is answered the same way when it is repeated at any clock, and changes
    nothing.  A completion that was recorded is not: its repetition is refused because the
    action is no longer ready. *)
Theorem action_retries s ref now now' s1 st :
  action_reachable s →
  (∀ p, repeatable ref p → run_calls (action_handle now) p s = (Ok st, s1) →
     run_calls (action_handle now') p s1 = (Ok st, s1)) ∧
  (∀ r, statusKeys s !! ActionKey (arf_ActionID ref) (aer_IdempotencyKey r) = None →
     run_calls (action_handle now) (CompleteAction ref (Some r)) s = (Ok st, s1) →
     run_calls (action_handle now') (CompleteAction ref (Some r)) s1 = (Err err_not_ready, s1)).
Proof.
  intros Hok%action_reachable_ok. split.
  - intros p Hp Hrun. by eapply repeatable_replays.
  - intros r Hnew Hrun. by eapply completion_refused.
Qed.

(** An approval opens an action whatever its state.  Where an action asks for an approval
    and its dry run, if it asks for one, has succeeded, an approval under a new key is
    accepted and makes the action ready for execution: also one that was rejected, canceled,
    that failed or that was executed before. *)
Theorem approval_reopens s ref spec status now d :
  action_reachable s → GetAction s ref = Ok (Some (spec, status)) → asp_ApprovalRequired spec = true →
  (asp_DryRunRequired spec = true → ast_DryRunState status = ActionDryRunSucceeded) →
  aad_Approved d = true → aad_IdempotencyKey d ≠ "" →
  statusKeys s !! ActionKey (arf_ActionID ref) (aad_IdempotencyKey d) = None →
  ∃ st s1, run_calls (action_handle now) (ResolveActionApproval ref (Some d)) s = (Ok st, s1) ∧
    statuses s1 !! arf_ActionID ref = Some st ∧ ast_LifecycleState st = ActionReady ∧
    actionReadyForExecution st = true.
Proof.
  intros Hok%action_reachable_ok Hget Ha Hd Happ Hk Hnew.
  pose proof Hget as (Hspec & Hid & _ & Hst & (Hgd & Hga & _) & _)%GetAction_found; [|done].
  rewrite run_approval, run_decision, Hget by done. unfold approval_guard.
  rewrite bool_decide_eq_false_2 by (rewrite Hga, Ha; done). cbn [fail_if]. cbv zeta.
  set (t := if time_is_zero _ then _ else _). unfold after_approval. rewrite Happ.
  rewrite (update_cases s spec), Hid, Hnew by done. cbn.
  eexists _, _. split; [done|]. cbn. rewrite lookup_insert_eq. split; [done|].
  assert (lifecycleAfterApproval spec (ast_DryRunState status) = ActionReady) as ->.
  { unfold lifecycleAfterApproval. destruct (asp_DryRunRequired spec); [|done].
    by rewrite Hd, bool_decide_eq_true_2. }
  split; [done|]. unfold actionReadyForExecution. cbn.
  destruct (asp_DryRunRequired spec) eqn:Hr.
  - by rewrite Hd.
  - assert (ast_DryRunState status = "") as -> by by apply Hgd. done.
Qed.

(** ** Witnesses *)

Lemma action_handle_does now o s : action_does o s (action_handle now o s).1 (action_handle now o s).2.
Proof. destruct o; cbn; first [done|apply store_call_refl|by left]. Qed.

Lemma action_reachable_run now p s :
  action_request p → action_reachable s → action_reachable (run_calls (action_handle now) p s).2.
Proof.
  intros Hp [ps Hr]. exists (ps ++ [Done (run_calls (action_handle now) p s).1]).
  etrans; [exact Hr|]. eapply rtc_l; [by apply thread_start|]. apply run_thread, action_handle_does.
Qed.

Module ActionSample.
Definition spec : GovernedActionSpec := {| zero_GovernedActionSpec with
  asp_ActionID := "act-1"; asp_IdempotencyKey := "start-1"; asp_AccountID := "acct"; asp_ProjectID := "proj";
  asp_ProcessID := "proc-1"; asp_Kind := "refund"; asp_ApprovalRequired := true |}.
Definition ref : ActionRef := {| arf_ActionID := "act-1"; arf_AccountID := "acct"; arf_ProjectID := "proj" |}.
Definition verdict (key : string) (approved : bool) : ActionApprovalDecision := {|
  aad_IdempotencyKey := key; aad_Approved := approved; aad_Actor := zero_ActorRef; aad_Reason := "";
  aad_DecidedAt := zero_time |}.
Definition outcome : ActionExecutionResult := {|
  aer_IdempotencyKey := "done"; aer_Succeeded := true; aer_Summary := ""; aer_OutputRefs := [];
  aer_ArtifactRefs := []; aer_RecordedAt := zero_time |}.
Definition t1 : time := 7000000%Z.
Definition t2 : time := 8000000%Z.
Definition after {A} (p : aprog A) (s : MemoryStore) : MemoryStore :=
  (run_calls (action_handle t1) (p ≫= λ _, mret tt) s).2.

(** Requested, rejected, approved after all, executed. *)
Definition requested : MemoryStore := after (RequestAction (Some spec)) NewMemoryStore.
Definition rejected : MemoryStore := after (ResolveActionApproval ref (Some (verdict "no" false))) requested.
Definition approved : MemoryStore := after (ResolveActionApproval ref (Some (verdict "yes" true))) rejected.
Definition executed : MemoryStore := after (CompleteAction ref (Some outcome)) approved.
Definition canceled : GovernedActionStatus := default zero_GovernedActionStatus (statuses rejected !! "act-1").

Lemma rejected_reachable : action_reachable rejected.
Proof. apply action_reachable_run; [constructor|]. apply action_reachable_run; [constructor|]. by exists []. Qed.

Lemma approved_reachable : action_reachable approved.
Proof. apply action_reachable_run; [constructor|]. apply rejected_reachable. Qed.

Lemma executed_reachable : action_reachable executed.
Proof. apply action_reachable_run; [constructor|]. apply approved_reachable. Qed.
End ActionSample.

Lemma action_gates_witness :
  ∃ status, statuses ActionSample.executed !! "act-1" = Some status ∧ ast_LifecycleState status = ActionExecuted ∧
    ast_ApprovalState status = ActionApprovalApproved.
Proof.
  eexists. split; [vm_compute; reflexivity|]. split; [reflexivity|].
  edestruct (action_gates ActionSample.executed "act-1") as (spec & Hs & _ & Hp);
    [exact ActionSample.executed_reachable|left; vm_compute; reflexivity|].
  assert (spec = ActionSample.spec) as -> by (vm_compute in Hs; injection Hs as <-; reflexivity).
  apply Hp; [|reflexivity]. vm_compute. do 2 right. left.
Defined.

Lemma action_retries_witness :
  ∃ st, run_calls (action_handle ActionSample.t2) (CompleteAction ActionSample.ref (Some ActionSample.outcome))
          ActionSample.executed = (Err err_not_ready, ActionSample.executed) ∧
    run_calls (action_handle ActionSample.t2)
      (ResolveActionApproval ActionSample.ref (Some (ActionSample.verdict "yes" true))) ActionSample.approved =
    (Ok st, ActionSample.approved).
Proof.
  eexists. split.
  - eapply (proj2 (action_retries ActionSample.approved ActionSample.ref ActionSample.t1 ActionSample.t2
      ActionSample.executed _ ActionSample.approved_reachable)); [vm_compute; reflexivity|].
    vm_compute. reflexivity.
  - eapply (proj1 (action_retries ActionSample.rejected ActionSample.ref ActionSample.t1 ActionSample.t2
      ActionSample.approved _ ActionSample.rejected_reachable)); [constructor|]. vm_compute. reflexivity.
Defined.

Lemma approval_reopens_witness :
  ∃ status st s1, statuses ActionSample.rejected !! "act-1" = Some status ∧
    ast_LifecycleState status = ActionCanceled ∧
    run_calls (action_handle ActionSample.t2)
      (ResolveActionApproval ActionSample.ref (Some (ActionSample.verdict "yes" true))) ActionSample.rejected = (Ok st, s1) ∧
    statuses s1 !! "act-1" = Some st ∧ ast_LifecycleState st = ActionReady.
Proof.
  destruct (approval_reopens ActionSample.rejected ActionSample.ref ActionSample.spec ActionSample.canceled ActionSample.t2
    (ActionSample.verdict "yes" true) ActionSample.rejected_reachable) as (st & s1 & Hrun & Hst & Hl & _);
    [vm_compute; reflexivity|reflexivity|discriminate|reflexivity|discriminate|vm_compute; reflexivity|].
  exists ActionSample.canceled, st, s1. split; [vm_compute; reflexivity|]. split; [vm_compute; reflexivity|].
  split; [exact Hrun|]. split; [exact Hst|exact Hl].
Defined.
