(* ===== verification/Batch.v ===== *)
(** * Batch worksets

    agentos/process/batch.go (the data of a workset and its validation) and
    internal/usecase/agentosbatch (idempotency.go, memory_store.go, runtime.go): a workset
    is split into chunks whose results add up to its progress.

    The runtime reads the progress and writes the next one in two store calls, so its
    operations are programs of calls ([Calls]).  The copies that the store makes are equal
    to the originals here and left out; a nil and an empty slice are the same list. *)

From S2P Require Import Prelude Types Graph Scope Json Idempotency Calls Process Ledger.
Import process ledger.

Module batch.

(** ** agentos/process/batch.go *)

Record WorksetRef := {
  wrf_WorksetID : string;
  wrf_AccountID : string;
  wrf_ProjectID : string;
}.

Record WorksetItemsRef := {
  wir_Kind : string;
  wir_URI : string;
  wir_ArtifactID : string;
  wir_MediaType : string;
  wir_Digest : string;
  wir_Count : Z;
  wir_Metadata : go_map string;
}.

Record WorksetChunkSpec := {
  wch_ChunkID : string;
  wch_ItemsRef : WorksetItemsRef;
  wch_ItemCount : Z;
  wch_Concurrency : Z;
}.

Record WorksetPolicy := {
  wpl_MaxItems : Z;
  wpl_MaxChunkSize : Z;
  wpl_MaxChunks : Z;
  wpl_MaxConcurrency : Z;
}.

Record WorksetSpec := {
  wsp_WorksetID : string;
  wsp_IdempotencyKey : string;
  wsp_AccountID : string;
  wsp_ProjectID : string;
  wsp_ProcessID : string;
  wsp_Resource : ResourceRef;
  wsp_Kind : string;
  wsp_RequestedBy : ActorRef;
  wsp_RequestedAt : time;
  wsp_ItemsRef : WorksetItemsRef;
  wsp_Chunks : list WorksetChunkSpec;
  wsp_Policy : WorksetPolicy;
  wsp_Metadata : go_map string;
}.

Record WorksetProgress := {
  wpr_TotalItems : Z;
  wpr_CompletedItems : Z;
  wpr_FailedItems : Z;
  wpr_TotalChunks : Z;
  wpr_CompletedChunks : Z;
  wpr_FailedChunks : Z;
}.

Record WorksetStatus := {
  wst_WorksetID : string;
  wst_AccountID : string;
  wst_ProjectID : string;
  wst_ProcessID : string;
  wst_Resource : ResourceRef;
  wst_Kind : string;
  wst_LifecycleState : string;
  wst_Progress : WorksetProgress;
  wst_Reason : string;
  wst_Metadata : go_map string;
  wst_UpdatedAt : time;
}.

Record WorksetChunkResult := {
  wcr_ChunkID : string;
  wcr_IdempotencyKey : string;
  wcr_CompletedItems : Z;
  wcr_FailedItems : Z;
  wcr_Succeeded : bool;
  wcr_Reason : string;
  wcr_OutputRefs : list LedgerDataRef;
  wcr_RecordedAt : time;
}.

Record WorksetScope := {
  wsc_AccountID : string;
  wsc_ProjectID : string;
  wsc_ProcessID : string;
  wsc_Resource : ResourceRef;
  wsc_Kind : string;
  wsc_LifecycleState : string;
  wsc_Limit : Z;
}.

Definition WorksetPending : string := "pending".
Definition WorksetRunning : string := "running".
Definition WorksetSucceeded : string := "succeeded".
Definition WorksetFailed : string := "failed".
Definition WorksetCanceled : string := "canceled".

#[global] Instance WorksetPolicy_eq_dec : EqDecision WorksetPolicy.
Proof. solve_decision. Defined.

Definition zero_WorksetItemsRef : WorksetItemsRef := {|
  wir_Kind := ""; wir_URI := ""; wir_ArtifactID := ""; wir_MediaType := ""; wir_Digest := "";
  wir_Count := 0; wir_Metadata := None |}.
Definition zero_WorksetPolicy : WorksetPolicy := {|
  wpl_MaxItems := 0; wpl_MaxChunkSize := 0; wpl_MaxChunks := 0; wpl_MaxConcurrency := 0 |}.
Definition zero_WorksetProgress : WorksetProgress := {|
  wpr_TotalItems := 0; wpr_CompletedItems := 0; wpr_FailedItems := 0; wpr_TotalChunks := 0;
  wpr_CompletedChunks := 0; wpr_FailedChunks := 0 |}.
Definition zero_WorksetSpec : WorksetSpec := {|
  wsp_WorksetID := ""; wsp_IdempotencyKey := ""; wsp_AccountID := ""; wsp_ProjectID := "";
  wsp_ProcessID := ""; wsp_Resource := zero_ResourceRef; wsp_Kind := ""; wsp_RequestedBy := zero_ActorRef;
  wsp_RequestedAt := zero_time; wsp_ItemsRef := zero_WorksetItemsRef; wsp_Chunks := [];
  wsp_Policy := zero_WorksetPolicy; wsp_Metadata := None |}.
Definition zero_WorksetStatus : WorksetStatus := {|
  wst_WorksetID := ""; wst_AccountID := ""; wst_ProjectID := ""; wst_ProcessID := "";
  wst_Resource := zero_ResourceRef; wst_Kind := ""; wst_LifecycleState := "";
  wst_Progress := zero_WorksetProgress; wst_Reason := ""; wst_Metadata := None; wst_UpdatedAt := zero_time |}.

Definition validateWorksetIdentity (spec : WorksetSpec) : result unit :=
  fail_if (wsp_WorksetID spec == "") (Errorf ErrInvalidWorkset "workset id is required");;
  fail_if (wsp_IdempotencyKey spec == "") (Errorf ErrInvalidWorkset "idempotency key is required");;
  fail_if (wsp_AccountID spec == "") (Errorf ErrInvalidWorkset "account id is required");;
  fail_if (wsp_ProjectID spec == "") (Errorf ErrInvalidWorkset "project id is required");;
  fail_if (wsp_Kind spec == "") (Errorf ErrInvalidWorkset "kind is required").

Definition validateWorksetResource (accountID projectID : string) (resource : ResourceRef)
    (scopeErr : sentinel) : result unit :=
  validateTenantResource accountID projectID resource scopeErr "resource must be in workset tenant scope".

Definition validateWorksetScope (accountID projectID processID : string) (resource : ResourceRef)
    (scopeErr : sentinel) : result unit :=
  fail_if ((processID == "") && (rr_Kind resource == ""))
    (Errorf scopeErr "process id or resource ref is required");;
  validateWorksetResource accountID projectID resource scopeErr.

Definition validateWorksetItemsRef (ref : WorksetItemsRef) : result unit :=
  fail_if (wir_Kind ref == "") (Errorf ErrInvalidWorkset "items ref kind is required");;
  fail_if ((wir_URI ref == "") && (wir_ArtifactID ref == ""))
    (Errorf ErrInvalidWorkset "items ref uri or artifact id is required");;
  fail_if (wir_Count ref <? 0)%Z (Errorf ErrInvalidWorkset "items ref count must be non-negative").

Definition validateWorksetChunk (policy : WorksetPolicy) (chunk : WorksetChunkSpec) : result unit :=
  fail_if (wch_ChunkID chunk == "") (Errorf ErrInvalidWorkset "chunk id is required");;
  fail_if (wch_ItemCount chunk <? 0)%Z (Errorf ErrInvalidWorkset "chunk item count must be non-negative");;
  fail_if ((0 <? wpl_MaxChunkSize policy) && (wpl_MaxChunkSize policy <? wch_ItemCount chunk))%Z
    (Errorf ErrInvalidWorkset "chunk item count exceeds policy");;
  fail_if ((0 <? wpl_MaxConcurrency policy) && (wpl_MaxConcurrency policy <? wch_Concurrency chunk))%Z
    (Errorf ErrInvalidWorkset "chunk concurrency exceeds policy");;
  validateWorksetItemsRef (wch_ItemsRef chunk).

Definition validateWorksetChunks (chunks : list WorksetChunkSpec) (policy : WorksetPolicy) : result unit :=
  fail_if (max_int32 <? Z.of_nat (length chunks))%Z
    (Errorf ErrInvalidWorkset "chunk count exceeds int32 limit");;
  fail_if ((0 <? wpl_MaxChunks policy) && (wpl_MaxChunks policy <? Z.of_nat (length chunks)))%Z
    (Errorf ErrInvalidWorkset "chunk count exceeds policy");;
  forM (validateWorksetChunk policy) chunks.

Definition ValidateWorksetSpec (spec : option WorksetSpec) : result unit :=
  match spec with
  | None => Err (Errorf ErrInvalidWorkset "workset spec is required")
  | Some spec =>
      validateWorksetIdentity spec;;
      validateWorksetScope (wsp_AccountID spec) (wsp_ProjectID spec) (wsp_ProcessID spec)
        (wsp_Resource spec) ErrInvalidWorkset;;
      validateWorksetItemsRef (wsp_ItemsRef spec);;
      validateWorksetChunks (wsp_Chunks spec) (wsp_Policy spec)
  end.

Definition ValidateWorksetRef (ref : WorksetRef) : result unit :=
  fail_if (wrf_WorksetID ref == "") (Errorf ErrInvalidWorksetScope "workset id is required");;
  fail_if (wrf_AccountID ref == "") (Errorf ErrInvalidWorksetScope "account id is required");;
  fail_if (wrf_ProjectID ref == "") (Errorf ErrInvalidWorksetScope "project id is required").

Definition ValidateWorksetScope (scope : option WorksetScope) : result unit :=
  match scope with
  | None => Err (Errorf ErrInvalidWorksetScope "workset scope is required")
  | Some scope =>
      fail_if (wsc_AccountID scope == "") (Errorf ErrInvalidWorksetScope "account id is required");;
      fail_if (wsc_ProjectID scope == "") (Errorf ErrInvalidWorksetScope "project id is required");;
      fail_if (wsc_Limit scope <? 0)%Z (Errorf ErrInvalidWorksetScope "limit must be non-negative");;
      validateWorksetResource (wsc_AccountID scope) (wsc_ProjectID scope) (wsc_Resource scope)
        ErrInvalidWorksetScope
  end.

(** ** JSON *)

Definition enc_WorksetItemsRef (r : WorksetItemsRef) : json := JObject
  (field "kind" (JString (wir_Kind r)) ++
   omit_string "uri" (wir_URI r) ++
   omit_string "artifact_id" (wir_ArtifactID r) ++
   omit_string "media_type" (wir_MediaType r) ++
   omit_string "digest" (wir_Digest r) ++
   omit_int "count" (wir_Count r) ++
   omit_map "metadata" JString (wir_Metadata r)).

Definition enc_WorksetChunkSpec (c : WorksetChunkSpec) : json := JObject
  (field "chunk_id" (JString (wch_ChunkID c)) ++
   field "items_ref" (enc_WorksetItemsRef (wch_ItemsRef c)) ++
   omit_int "item_count" (wch_ItemCount c) ++
   omit_int "concurrency" (wch_Concurrency c)).

Definition enc_WorksetPolicy (p : WorksetPolicy) : json := JObject
  (omit_int "max_items" (wpl_MaxItems p) ++
   omit_int "max_chunk_size" (wpl_MaxChunkSize p) ++
   omit_int "max_chunks" (wpl_MaxChunks p) ++
   omit_int "max_concurrency" (wpl_MaxConcurrency p)).

Definition enc_WorksetSpec (s : WorksetSpec) : json := JObject
  (field "workset_id" (JString (wsp_WorksetID s)) ++
   field "idempotency_key" (JString (wsp_IdempotencyKey s)) ++
   field "account_id" (JString (wsp_AccountID s)) ++
   field "project_id" (JString (wsp_ProjectID s)) ++
   omit_string "process_id" (wsp_ProcessID s) ++
   omit (bool_decide (wsp_Resource s = zero_ResourceRef)) "resource" (enc_ResourceRef (wsp_Resource s)) ++
   field "kind" (JString (wsp_Kind s)) ++
   omit (bool_decide (wsp_RequestedBy s = zero_ActorRef)) "requested_by" (enc_ActorRef (wsp_RequestedBy s)) ++
   omit_time "requested_at" (wsp_RequestedAt s) ++
   field "items_ref" (enc_WorksetItemsRef (wsp_ItemsRef s)) ++
   omit_list "chunks" enc_WorksetChunkSpec (wsp_Chunks s) ++
   omit (bool_decide (wsp_Policy s = zero_WorksetPolicy)) "policy" (enc_WorksetPolicy (wsp_Policy s)) ++
   omit_map "metadata" JString (wsp_Metadata s)).

(** ** idempotency.go *)

Definition ValidateWorksetStartIdempotency (existing requested : WorksetSpec) : result unit :=
  fail_if (wsp_WorksetID existing != wsp_WorksetID requested)
    (Errorf ErrInvalidWorkset "workset idempotency key belongs to workset %q");;
  same_json ErrInvalidWorkset "workset request" (enc_WorksetSpec existing) (enc_WorksetSpec requested)
    "workset %q idempotency key was reused with a different request".

(** ** memory_store.go *)

Record worksetStartKey := WorksetStartKey {
  wsk_AccountID : string;
  wsk_ProjectID : string;
  wsk_IdempotencyKey : string;
}.

Record worksetStatusKey := WorksetKey {
  wtk_WorksetID : string;
  wtk_IdempotencyKey : string;
}.

Record worksetChunkKey := ChunkKey {
  wck_WorksetID : string;
  wck_ChunkID : string;
  wck_IdempotencyKey : string;
}.

#[global] Instance worksetStartKey_eq_dec : EqDecision worksetStartKey.
Proof. solve_decision. Defined.
#[global] Instance worksetStartKey_countable : Countable worksetStartKey.
Proof.
  refine (inj_countable' (λ k, (wsk_AccountID k, wsk_ProjectID k, wsk_IdempotencyKey k))
    (λ '(a, p, k), WorksetStartKey a p k) _). by intros [].
Defined.
#[global] Instance worksetStatusKey_eq_dec : EqDecision worksetStatusKey.
Proof. solve_decision. Defined.
#[global] Instance worksetStatusKey_countable : Countable worksetStatusKey.
Proof.
  refine (inj_countable' (λ k, (wtk_WorksetID k, wtk_IdempotencyKey k)) (λ '(w, k), WorksetKey w k) _).
  by intros [].
Defined.
#[global] Instance worksetChunkKey_eq_dec : EqDecision worksetChunkKey.
Proof. solve_decision. Defined.
#[global] Instance worksetChunkKey_countable : Countable worksetChunkKey.
Proof.
  refine (inj_countable' (λ k, (wck_WorksetID k, wck_ChunkID k, wck_IdempotencyKey k))
    (λ '(w, c, k), ChunkKey w c k) _). by intros [].
Defined.

Record MemoryStore := {
  specs : gmap string WorksetSpec;
  statuses : gmap string WorksetStatus;
  startKeys : gmap worksetStartKey string;
  statusKeys : gmap worksetStatusKey WorksetStatus;
  chunkKeys : gmap worksetChunkKey WorksetStatus;
}.

Definition NewMemoryStore : MemoryStore := {|
  specs := ∅; statuses := ∅; startKeys := ∅; statusKeys := ∅; chunkKeys := ∅ |}.

(** runtime.go, which validates chunk results for the store too. *)
Definition validateChunkResult (r : option WorksetChunkResult) : result WorksetChunkResult :=
  match r with
  | None => Err (Errorf ErrInvalidWorkset "chunk result is required")
  | Some r =>
      fail_if (wcr_ChunkID r == "") (Errorf ErrInvalidWorkset "chunk id is required");;
      fail_if (wcr_IdempotencyKey r == "") (Errorf ErrInvalidWorkset "chunk idempotency key is required");;
      fail_if ((wcr_CompletedItems r <? 0) || (wcr_FailedItems r <? 0))%Z
        (Errorf ErrInvalidWorkset "chunk item counts must be non-negative");;
      Ok r
  end.

Definition validateCreateWorksetInput (spec : option WorksetSpec) (status : option WorksetStatus) :
    result (WorksetSpec * WorksetStatus) :=
  ValidateWorksetSpec spec;;
  match spec, status with
  | Some spec, Some status => Ok (spec, status)
  | _, _ => Err (Errorf ErrInvalidWorkset "workset status is required")
  end.

Definition validateUpdateWorksetStatusInput (status : option WorksetStatus) (idempotencyKey : string) :
    result WorksetStatus :=
  match status with
  | None => Err (Errorf ErrInvalidWorkset "workset status is required")
  | Some status =>
      fail_if (idempotencyKey == "") (Errorf ErrInvalidWorkset "status idempotency key is required");;
      fail_if ((wst_WorksetID status == "") || (wst_AccountID status == "") || (wst_ProjectID status == ""))
        (Errorf ErrInvalidWorkset "workset status scope is required");;
      Ok status
  end.

Definition validateApplyChunkInput (ref : WorksetRef) (r : option WorksetChunkResult)
    (status : option WorksetStatus) : result (WorksetChunkResult * WorksetStatus) :=
  ValidateWorksetRef ref;;
  r ← validateChunkResult r;
  status ← validateUpdateWorksetStatusInput status (wcr_IdempotencyKey r);
  Ok (r, status).

Definition worksetStartKeyFromSpec (spec : WorksetSpec) : worksetStartKey :=
  WorksetStartKey (wsp_AccountID spec) (wsp_ProjectID spec) (wsp_IdempotencyKey spec).

Definition validateWorksetTenantAccess (ref : WorksetRef) (spec : WorksetSpec) : result unit :=
  fail_if ((wrf_AccountID ref != wsp_AccountID spec) || (wrf_ProjectID ref != wsp_ProjectID spec))
    (Errorf ErrInvalidWorksetScope "workset %q is outside tenant scope").

Definition normalizeWorksetStatus (spec : WorksetSpec) (status : WorksetStatus) : WorksetStatus :=
  {| status with
    wst_WorksetID := wsp_WorksetID spec; wst_AccountID := wsp_AccountID spec;
    wst_ProjectID := wsp_ProjectID spec; wst_ProcessID := wsp_ProcessID spec;
    wst_Resource := wsp_Resource spec; wst_Kind := wsp_Kind spec |}.

Definition lookupExistingWorksetStartLocked (s : MemoryStore) (key : worksetStartKey) (spec : WorksetSpec) :
    result (option WorksetStatus) :=
  match startKeys s !! key with
  | None => Ok None
  | Some existingWorksetID =>
      ValidateWorksetStartIdempotency (default zero_WorksetSpec (specs s !! existingWorksetID)) spec;;
      Ok (Some (default zero_WorksetStatus (statuses s !! existingWorksetID)))
  end.

Definition lookupExistingWorksetIDLocked (s : MemoryStore) (spec : WorksetSpec) : result (option WorksetStatus) :=
  match specs s !! wsp_WorksetID spec with
  | None => Ok None
  | Some existingSpec =>
      ValidateWorksetStartIdempotency existingSpec spec;;
      Ok (Some (default zero_WorksetStatus (statuses s !! wsp_WorksetID spec)))
  end.

(** The status and whether this call created the workset. *)
Definition CreateWorkset (s : MemoryStore) (spec : option WorksetSpec) (status : option WorksetStatus) :
    MemoryStore * result (WorksetStatus * bool) :=
  match validateCreateWorksetInput spec status with
  | Err e => (s, Err e)
  | Ok (spec, status) =>
      let key := worksetStartKeyFromSpec spec in
      match lookupExistingWorksetStartLocked s key spec with
      | Err e => (s, Err e)
      | Ok (Some existing) => (s, Ok (existing, false))
      | Ok None =>
          match lookupExistingWorksetIDLocked s spec with
          | Err e => (s, Err e)
          | Ok (Some existing) => (s, Ok (existing, false))
          | Ok None =>
              let preparedStatus := normalizeWorksetStatus spec status in
              ({| s with
                  specs := <[wsp_WorksetID spec := spec]> (specs s);
                  statuses := <[wsp_WorksetID spec := preparedStatus]> (statuses s);
                  startKeys := <[key := wsp_WorksetID spec]> (startKeys s) |},
               Ok (preparedStatus, true))
          end
      end
  end.

Definition GetWorkset (s : MemoryStore) (ref : WorksetRef) : result (option (WorksetSpec * WorksetStatus)) :=
  ValidateWorksetRef ref;;
  match specs s !! wrf_WorksetID ref with
  | None => Ok None
  | Some spec =>
      validateWorksetTenantAccess ref spec;;
      Ok (Some (spec, default zero_WorksetStatus (statuses s !! wrf_WorksetID ref)))
  end.

Definition worksetStatusMatchesIdentityScope (status : WorksetStatus) (scope : WorksetScope) : bool :=
  if (wsc_ProcessID scope != "") && (wst_ProcessID status != wsc_ProcessID scope) then false
  else if (wsc_Kind scope != "") && (wst_Kind status != wsc_Kind scope) then false
  else if (rr_Kind (wsc_Resource scope) != "") && (wst_Resource status != wsc_Resource scope) then false
  else true.

Definition worksetStatusMatchesStateScope (status : WorksetStatus) (scope : WorksetScope) : bool :=
  if (wsc_LifecycleState scope != "") && (wst_LifecycleState status != wsc_LifecycleState scope)
  then false else true.

Definition worksetStatusMatchesScope (status : WorksetStatus) (scope : WorksetScope) : bool :=
  if (wst_AccountID status != wsc_AccountID scope) || (wst_ProjectID status != wsc_ProjectID scope)
  then false
  else if negb (worksetStatusMatchesIdentityScope status scope) then false
  else worksetStatusMatchesStateScope status scope.

Definition workset_le (x y : WorksetStatus) : Prop := String.le (wst_WorksetID x) (wst_WorksetID y).

#[global] Instance workset_le_dec : RelDecision workset_le.
Proof. intros x y. unfold workset_le. apply _. Defined.

Definition ListWorksets (s : MemoryStore) (scope : option WorksetScope) : result (list WorksetStatus) :=
  ValidateWorksetScope scope;;
  match scope with
  | None => Ok []
  | Some scope =>
      let matching := filter (λ status, worksetStatusMatchesScope status scope = true)
                        (map_to_list (statuses s)).*2 in
      Ok (limited (wsc_Limit scope) (merge_sort workset_le matching))
  end.

Definition err_workset_not_found : go_error := Errorf ErrInvalidWorksetScope "workset %q not found".

Definition ApplyChunkResult (s : MemoryStore) (ref : WorksetRef) (r : option WorksetChunkResult)
    (status : option WorksetStatus) : MemoryStore * result WorksetStatus :=
  match validateApplyChunkInput ref r status with
  | Err e => (s, Err e)
  | Ok (r, status) =>
      let key := ChunkKey (wrf_WorksetID ref) (wcr_ChunkID r) (wcr_IdempotencyKey r) in
      match chunkKeys s !! key with
      | Some existing => (s, Ok existing)
      | None =>
          match specs s !! wrf_WorksetID ref with
          | None => (s, Err err_workset_not_found)
          | Some spec =>
              match validateWorksetTenantAccess ref spec with
              | Err e => (s, Err e)
              | Ok _ =>
                  let prepared := normalizeWorksetStatus spec status in
                  ({| s with
                      statuses := <[wrf_WorksetID ref := prepared]> (statuses s);
                      chunkKeys := <[key := prepared]> (chunkKeys s) |}, Ok prepared)
              end
          end
      end
  end.

Definition UpdateWorksetStatus (s : MemoryStore) (status : option WorksetStatus) (idempotencyKey : string) :
    MemoryStore * result WorksetStatus :=
  match validateUpdateWorksetStatusInput status idempotencyKey with
  | Err e => (s, Err e)
  | Ok status =>
      let key := WorksetKey (wst_WorksetID status) idempotencyKey in
      match statusKeys s !! key with
      | Some existing => (s, Ok existing)
      | None =>
          match specs s !! wst_WorksetID status with
          | None => (s, Err err_workset_not_found)
          | Some spec =>
              let prepared := normalizeWorksetStatus spec status in
              ({| s with
                  statuses := <[wst_WorksetID status := prepared]> (statuses s);
                  statusKeys := <[key := prepared]> (statusKeys s) |}, Ok prepared)
          end
      end
  end.

(** ** runtime.go *)

(** The calls of the runtime: the methods of Store and the clock. *)
Inductive batch_op :=
  | BCreateWorkset (spec : option WorksetSpec) (status : option WorksetStatus)
  | BGetWorkset (ref : WorksetRef)
  | BListWorksets (scope : option WorksetScope)
  | BApplyChunkResult (ref : WorksetRef) (r : option WorksetChunkResult) (status : option WorksetStatus)
  | BUpdateWorksetStatus (status : option WorksetStatus) (idempotencyKey : string)
  | BNow.

#[global] Instance batch_calls : Calls batch_op := {|
  reply o :=
    match o with
    | BCreateWorkset _ _ => result (WorksetStatus * bool)
    | BGetWorkset _ => result (option (WorksetSpec * WorksetStatus))
    | BListWorksets _ => result (list WorksetStatus)
    | BApplyChunkResult _ _ _ => result WorksetStatus
    | BUpdateWorksetStatus _ _ => result WorksetStatus
    | BNow => time
    end |}.

Abbreviation bprog := (calls batch_op) (only parsing).

Definition worksetTimestamp (ts : time) : bprog time := if time_is_zero ts then ask BNow else mret ts.

Definition worksetChunkCount (chunks : list WorksetChunkSpec) : Z :=
  foldl (λ count _, int32 (count + 1)) 0%Z chunks.

Definition initialWorksetStatus (spec : WorksetSpec) : bprog WorksetStatus :=
  now ← worksetTimestamp (wsp_RequestedAt spec);
  let totalChunks := worksetChunkCount (wsp_Chunks spec) in
  let progress := {| zero_WorksetProgress with
    wpr_TotalItems := wir_Count (wsp_ItemsRef spec);
    wpr_TotalChunks := if totalChunks == 0%Z then 1%Z else totalChunks |} in
  mret {|
    wst_WorksetID := wsp_WorksetID spec; wst_AccountID := wsp_AccountID spec;
    wst_ProjectID := wsp_ProjectID spec; wst_ProcessID := wsp_ProcessID spec;
    wst_Resource := wsp_Resource spec; wst_Kind := wsp_Kind spec; wst_LifecycleState := WorksetRunning;
    wst_Progress := progress; wst_Reason := ""; wst_Metadata := cloneStringMap (wsp_Metadata spec);
    wst_UpdatedAt := now |}.

Definition worksetLifecycleAfterChunk (progress : WorksetProgress) : string :=
  if (0 <? wpr_FailedChunks progress)%Z then WorksetFailed
  else if ((0 <? wpr_TotalChunks progress) && (wpr_TotalChunks progress <=? wpr_CompletedChunks progress))%Z
  then WorksetSucceeded else WorksetRunning.

Definition worksetHasChunk (spec : WorksetSpec) (chunkID : string) : bool :=
  if bool_decide (length (wsp_Chunks spec) = 0) then chunkID == wsp_WorksetID spec
  else existsb (λ chunk, wch_ChunkID chunk == chunkID) (wsp_Chunks spec).

Definition validateCancelControl (control : option ControlRequest) : result ControlRequest :=
  ValidateControlRequest control;;
  let control := default zero_ControlRequest control in
  fail_if (ctl_Operation control != ControlCancel)
    (Errorf ErrInvalidControlOperation "workset only accepts cancel control");;
  fail_if (ctl_IdempotencyKey control == "")
    (Errorf ErrInvalidWorkset "cancel idempotency key is required");;
  Ok control.

Definition StartWorkset (spec : option WorksetSpec) : bprog (result WorksetStatus) :=
  _ ←! ValidateWorksetSpec spec;
  status ← initialWorksetStatus (default zero_WorksetSpec spec);
  created ←? ask (BCreateWorkset spec (Some status));
  mret (Ok created.1).

Definition StatusWorkset (ref : WorksetRef) : bprog (result WorksetStatus) :=
  found ←? ask (BGetWorkset ref);
  mret (match found with None => Err err_workset_not_found | Some (_, status) => Ok status end).

Definition Runtime_ListWorksets (scope : option WorksetScope) : bprog (result (list WorksetStatus)) :=
  _ ←! ValidateWorksetScope scope;
  found ←? ask (BListWorksets scope);
  mret (Ok found).

Definition requireWorkset (ref : WorksetRef) : bprog (result (WorksetSpec * WorksetStatus)) :=
  _ ←! ValidateWorksetRef ref;
  found ←? ask (BGetWorkset ref);
  mret (match found with None => Err err_workset_not_found | Some found => Ok found end).

(** The progress after one more chunk result. *)
Definition add_result (progress : WorksetProgress) (r : WorksetChunkResult) : WorksetProgress :=
  let progress := {| progress with wpr_CompletedChunks := int32 (wpr_CompletedChunks progress + 1) |} in
  if wcr_Succeeded r then
    {| progress with wpr_CompletedItems := int64 (wpr_CompletedItems progress + wcr_CompletedItems r) |}
  else
    {| progress with wpr_FailedChunks := int32 (wpr_FailedChunks progress + 1);
                     wpr_FailedItems := int64 (wpr_FailedItems progress + wcr_FailedItems r) |}.

Definition RecordWorksetChunk (ref : WorksetRef) (r : option WorksetChunkResult) :
    bprog (result WorksetStatus) :=
  found ←? requireWorkset ref;
  let '(spec, status) := found in
  r ←! validateChunkResult r;
  _ ←! fail_if (negb (worksetHasChunk spec (wcr_ChunkID r)))
         (Errorf ErrInvalidWorkset "chunk %q is not part of workset %q");
  updatedAt ← worksetTimestamp (wcr_RecordedAt r);
  let progress := add_result (wst_Progress status) r in
  let next := {| status with
    wst_UpdatedAt := updatedAt; wst_Progress := progress;
    wst_Reason := if wcr_Succeeded r then wst_Reason status else wcr_Reason r;
    wst_LifecycleState := worksetLifecycleAfterChunk progress |} in
  stored ←? ask (BApplyChunkResult ref (Some r) (Some next));
  mret (Ok stored).

Definition CancelWorkset (ref : WorksetRef) (control : option ControlRequest) : bprog (result WorksetStatus) :=
  found ←? requireWorkset ref;
  let '(_, status) := found in
  control ←! validateCancelControl control;
  updatedAt ← worksetTimestamp (ctl_RequestedAt control);
  let next := {| status with
    wst_LifecycleState := WorksetCanceled;
    wst_Reason := default "" (default ∅ (ctl_Metadata control) !! "reason");
    wst_UpdatedAt := updatedAt |} in
  stored ←? ask (BUpdateWorksetStatus (Some next) (ctl_IdempotencyKey control));
  mret (Ok stored).

(** ** What a call does *)

Definition batch_does (o : batch_op) (s : MemoryStore) : reply o → MemoryStore → Prop :=
  match o with
  | BCreateWorkset spec status => store_call (CreateWorkset s spec status) s
  | BGetWorkset ref => store_call (s, GetWorkset s ref) s
  | BListWorksets scope => store_call (s, ListWorksets s scope) s
  | BApplyChunkResult ref r status => store_call (ApplyChunkResult s ref r status) s
  | BUpdateWorksetStatus status key => store_call (UpdateWorksetStatus s status key) s
  | BNow => λ _ s', s' = s
  end.

(** The calls while nothing fails and the clock shows [now]. *)
Definition batch_handle (now : time) (o : batch_op) (s : MemoryStore) : reply o * MemoryStore :=
  let answer {A} (effect : MemoryStore * A) := (effect.2, effect.1) in
  match o with
  | BCreateWorkset spec status => answer (CreateWorkset s spec status)
  | BGetWorkset ref => (GetWorkset s ref, s)
  | BListWorksets scope => (ListWorksets s scope, s)
  | BApplyChunkResult ref r status => answer (ApplyChunkResult s ref r status)
  | BUpdateWorksetStatus status key => answer (UpdateWorksetStatus s status key)
  | BNow => (now, s)
  end.

(** A request to the runtime, its answer dropped. *)
Inductive batch_request : bprog unit → Prop :=
  | request_start spec : batch_request (StartWorkset spec ≫= λ _, mret tt)
  | request_status ref : batch_request (StatusWorkset ref ≫= λ _, mret tt)
  | request_list scope : batch_request (Runtime_ListWorksets scope ≫= λ _, mret tt)
  | request_chunk ref r : batch_request (RecordWorksetChunk ref r ≫= λ _, mret tt)
  | request_cancel ref control : batch_request (CancelWorkset ref control ≫= λ _, mret tt).

(** The stores that any number of requests, interleaved and cut short anywhere, lead to. *)
Definition batch_reachable (s : MemoryStore) : Prop :=
  ∃ ps, rtc (thread_step batch_does batch_request) (Threads NewMemoryStore []) (Threads s ps).
End batch.
