(* ===== verification/BatchSpec.v ===== *)
(** * Worksets: progress

    However requests interleave and fail, the progress of a workset never counts a result
    that was not recorded, nor one twice, and a workset that succeeded has at least as many
    recorded results as chunks.  A repeated result is recognised.  Results that are recorded
    at the same time can be lost from the progress, and a chunk that is reported under two
    keys counts twice. *)

From S2P Require Import Prelude Types Graph Scope Json Idempotency Calls Process Ledger Batch.
Import process ledger batch.

(** ** The invariant *)

(** The fields of a status that are its workset's. *)
Definition status_for (spec : WorksetSpec) (status : WorksetStatus) : Prop :=
  wst_WorksetID status = wsp_WorksetID spec ∧ wst_AccountID status = wsp_AccountID spec ∧
  wst_ProjectID status = wsp_ProjectID spec ∧ wst_ProcessID status = wsp_ProcessID spec ∧
  wst_Resource status = wsp_Resource spec ∧ wst_Kind status = wsp_Kind spec.

(** A workset without chunks is one chunk. *)
Definition chunk_total (spec : WorksetSpec) : nat := Nat.max 1 (length (wsp_Chunks spec)).

(** The progress fits the lifecycle. *)
Definition progress_fits (spec : WorksetSpec) (status : WorksetStatus) : Prop :=
  let p := wst_Progress status in
  wpr_TotalChunks p = Z.of_nat (chunk_total spec) ∧ wpr_TotalItems p = wir_Count (wsp_ItemsRef spec) ∧
  (wst_LifecycleState status = WorksetSucceeded →
   (wpr_FailedChunks p ≤ 0)%Z ∧ (wpr_TotalChunks p ≤ wpr_CompletedChunks p)%Z).

(** The counter stands for different recorded results of the workset. *)
Definition counted (s : MemoryStore) (id : string) (status : WorksetStatus) : Prop :=
  ∃ K : gset worksetChunkKey, K ⊆ dom (chunkKeys s) ∧ (∀ k, k ∈ K → wck_WorksetID k = id) ∧
    wpr_CompletedChunks (wst_Progress status) = int32 (Z.of_nat (size K)).

Definition status_ok (s : MemoryStore) (spec : WorksetSpec) (status : WorksetStatus) : Prop :=
  status_for spec status ∧ progress_fits spec status ∧ counted s (wsp_WorksetID spec) status.

Record batch_ok (s : MemoryStore) : Prop := {
  bo_spec id spec : specs s !! id = Some spec →
    wsp_WorksetID spec = id ∧ ValidateWorksetSpec (Some spec) = Ok tt;
  bo_status id : specs s !! id = None ↔ statuses s !! id = None;
  bo_current id spec status : specs s !! id = Some spec → statuses s !! id = Some status → status_ok s spec status;
  bo_recorded key status : statusKeys s !! key = Some status →
    ∃ spec, specs s !! wtk_WorksetID key = Some spec ∧ status_ok s spec status;
  bo_chunk key status : chunkKeys s !! key = Some status →
    ∃ spec, specs s !! wck_WorksetID key = Some spec ∧ worksetHasChunk spec (wck_ChunkID key) = true ∧
      status_ok s spec status;
}.

(** What is never lost or rewritten. *)
Record batch_grows (s s' : MemoryStore) : Prop := {
  bg_specs : specs s ⊆ specs s';
  bg_starts : startKeys s ⊆ startKeys s';
  bg_status_keys : statusKeys s ⊆ statusKeys s';
  bg_chunk_keys : chunkKeys s ⊆ chunkKeys s';
}.

#[global] Instance batch_grows_preorder : PreOrder batch_grows.
Proof. split; [by split|]. intros s1 s2 s3 [] []. split; etrans; eassumption. Qed.

Lemma batch_ok_new : batch_ok NewMemoryStore.
Proof. split; intros *; cbn; by rewrite ?lookup_empty. Qed.

Lemma counted_mono s s' id status : chunkKeys s ⊆ chunkKeys s' → counted s id status → counted s' id status.
Proof. intros Hg (K & HK & ?). exists K. split; [|done]. apply subseteq_dom in Hg. set_solver. Qed.

Lemma status_ok_mono s s' spec status : chunkKeys s ⊆ chunkKeys s' → status_ok s spec status → status_ok s' spec status.
Proof. intros Hg (? & ? & ?). split_and!; [done..|by eapply counted_mono]. Qed.
#[local] Hint Resolve status_ok_mono : core.

(** ** Counters *)

Lemma int32_succ z : int32 (int32 z + 1) = int32 (z + 1).
Proof.
  unfold int32, wrap. set (h := (2 ^ (32 - 1))%Z). set (m := (2 ^ 32)%Z).
  replace ((z + h) mod m - h + 1 + h)%Z with ((z + h) mod m + 1)%Z by lia.
  rewrite Z.add_mod_idemp_l by done. do 2 f_equal. lia.
Qed.

Lemma int32_le z : (0 ≤ z)%Z → (int32 z ≤ z)%Z.
Proof.
  intros Hz. unfold int32, wrap. pose proof (Z.mod_le (z + 2 ^ (32 - 1)) (2 ^ 32)) as Hle. lia.
Qed.

Lemma chunk_count chunks :
  (Z.of_nat (length chunks) ≤ max_int32)%Z → worksetChunkCount chunks = Z.of_nat (length chunks).
Proof.
  intros Hlen. unfold worksetChunkCount.
  assert (∀ n, (0 ≤ n)%Z → (n + Z.of_nat (length chunks) ≤ max_int32)%Z →
    foldl (λ count _, int32 (count + 1)) n chunks = (n + Z.of_nat (length chunks))%Z) as Hgen; [|apply Hgen; lia].
  clear Hlen. induction chunks as [|c chunks IH]; intros n Hn Hle; cbn [foldl length] in *; [lia|].
  rewrite int32_small by lia. rewrite IH; lia.
Qed.

Lemma ValidateWorksetSpec_ids spec :
  ValidateWorksetSpec (Some spec) = Ok tt →
  wsp_WorksetID spec ≠ "" ∧ wsp_AccountID spec ≠ "" ∧ wsp_ProjectID spec ≠ "" ∧
  (Z.of_nat (length (wsp_Chunks spec)) ≤ max_int32)%Z.
Proof.
  cbn -[validateWorksetScope validateWorksetItemsRef]. intros ([] & Hi & Hrest)%bind_Ok.
  apply bind_Ok in Hrest as ([] & _ & Hrest). apply bind_Ok in Hrest as ([] & _ & Hc).
  unfold validateWorksetChunks in Hc. apply bind_Ok in Hc as ([] & Hlen%fail_if_Ok & _).
  unfold validateWorksetIdentity in Hi.
  apply bind_Ok in Hi as ([] & ?%fail_if_Ok & Hi). apply bind_Ok in Hi as ([] & _ & Hi).
  apply bind_Ok in Hi as ([] & ?%fail_if_Ok & Hi). apply bind_Ok in Hi as ([] & ?%fail_if_Ok & _).
  simplify_bool. split_and!; [done..|lia].
Qed.

(** One more result, recorded under a new key. *)
Lemma counted_insert s id key status st progress :
  counted s id status → wck_WorksetID key = id → chunkKeys s !! key = None →
  wpr_CompletedChunks progress = int32 (wpr_CompletedChunks (wst_Progress status) + 1) →
  wst_Progress st = progress →
  ∀ s', chunkKeys s' = <[key := st]> (chunkKeys s) → counted s' id st.
Proof.
  intros (K & HK & Hid & Hn) Hkey Hnew Hp Hst s' Hs'. exists ({[key]} ∪ K). rewrite Hs', dom_insert.
  split; [set_solver|]. split; [set_solver|]. rewrite Hst, Hp, Hn, int32_succ.
  rewrite size_union; [rewrite size_singleton; f_equal; lia|].
  apply not_elem_of_dom in Hnew. set_solver.
Qed.

(** The lifecycle after a result fits the progress. *)
Lemma lifecycle_succeeded p :
  worksetLifecycleAfterChunk p = WorksetSucceeded →
  (wpr_FailedChunks p ≤ 0)%Z ∧ (wpr_TotalChunks p ≤ wpr_CompletedChunks p)%Z.
Proof.
  unfold worksetLifecycleAfterChunk. destruct (Z.ltb_spec 0 (wpr_FailedChunks p)); [done|].
  destruct (_ && _) eqn:Hc; [|done]. apply andb_true_iff in Hc as [_ ?%Z.leb_le]. done.
Qed.

Lemma add_result_keeps p r :
  wpr_TotalChunks (add_result p r) = wpr_TotalChunks p ∧ wpr_TotalItems (add_result p r) = wpr_TotalItems p ∧
  wpr_CompletedChunks (add_result p r) = int32 (wpr_CompletedChunks p + 1).
Proof. unfold add_result. by destruct (wcr_Succeeded r). Qed.

Lemma progress_after_result spec status r st :
  progress_fits spec status → wst_Progress st = add_result (wst_Progress status) r →
  wst_LifecycleState st = worksetLifecycleAfterChunk (wst_Progress st) → progress_fits spec st.
Proof.
  intros (Ht & Hi & _) Hp Hl. destruct (add_result_keeps (wst_Progress status) r) as (Ht' & Hi' & _).
  unfold progress_fits. rewrite Hl, Hp, Ht', Hi'. split_and!; [done..|]. rewrite <- Ht'. apply lifecycle_succeeded.
Qed.

(** ** Store operations *)

Lemma batch_normalize_id spec status : status_for spec status → normalizeWorksetStatus spec status = status.
Proof.
  unfold status_for, normalizeWorksetStatus. intros (<- & <- & <- & <- & <- & <-). by destruct status.
Qed.

Lemma CreateWorkset_ok s spec status :
  batch_ok s → status_for spec status → progress_fits spec status →
  wpr_CompletedChunks (wst_Progress status) = 0%Z →
  batch_ok (CreateWorkset s (Some spec) (Some status)).1 ∧
  batch_grows s (CreateWorkset s (Some spec) (Some status)).1.
Proof.
  intros Hok Hst Hp Hz. unfold CreateWorkset.
  destruct (validateCreateWorksetInput _ _) as [[spec' status']|] eqn:Hv; [|done].
  unfold validateCreateWorksetInput in Hv. apply bind_Ok in Hv as ([] & Hspec & [= <- <-]).
  destruct (lookupExistingWorksetStartLocked _ _ _) as [[existing|]|] eqn:H1; [done| |done].
  destruct (lookupExistingWorksetIDLocked _ _) as [[existing|]|] eqn:H2; [done| |done]. cbn [fst].
  unfold lookupExistingWorksetStartLocked in H1. destruct (startKeys s !! _) eqn:Hk; [by apply bind_Ok in H1 as (? & _ & ?)|].
  unfold lookupExistingWorksetIDLocked in H2. destruct (specs s !! _) eqn:Hs; [by apply bind_Ok in H2 as (? & _ & ?)|].
  rewrite batch_normalize_id by done. split; [|by split; [apply insert_subseteq..| |]].
  assert (status_ok s spec status) as Hst'.
  { split_and!; [done..|]. exists ∅. rewrite Hz. split_and!; [set_solver|set_solver|done]. }
  split; cbn -[ValidateWorksetSpec].
  - intros id sp [[<- <-]|[_ ?]]%lookup_insert_Some; [done|by apply (bo_spec _ Hok)].
  - intros id. rewrite !lookup_insert_None. by rewrite (bo_status _ Hok).
  - intros id sp st. destruct (decide (wsp_WorksetID spec = id)) as [<-|Hne].
    + rewrite !lookup_insert_eq. by intros [= <-] [= <-].
    + rewrite !lookup_insert_ne by done. apply (bo_current _ Hok).
  - intros key st (sp & Hsp & ?)%(bo_recorded _ Hok). exists sp. split; [|done].
    rewrite lookup_insert_ne; [done|congruence].
  - intros key st (sp & Hsp & ?)%(bo_chunk _ Hok). exists sp. split; [|done].
    rewrite lookup_insert_ne; [done|congruence].
Qed.

(** A store with one status replaced and, maybe, one key added. *)
Lemma replace_status_ok s s' spec status :
  batch_ok s → specs s !! wsp_WorksetID spec = Some spec → chunkKeys s ⊆ chunkKeys s' →
  status_ok s' spec status →
  specs s' = specs s → statuses s' = <[wsp_WorksetID spec := status]> (statuses s) →
  (∀ key st, statusKeys s' !! key = Some st → statusKeys s !! key = Some st ∨ wtk_WorksetID key = wsp_WorksetID spec ∧ st = status) →
  (∀ key st, chunkKeys s' !! key = Some st → chunkKeys s !! key = Some st ∨
     wck_WorksetID key = wsp_WorksetID spec ∧ worksetHasChunk spec (wck_ChunkID key) = true ∧ st = status) →
  batch_ok s'.
Proof.
  intros Hok Hspec Hmono Hst Hspecs Hstatuses Hkeys Hchunks. split.
  - rewrite Hspecs. apply (bo_spec _ Hok).
  - intros id. rewrite Hspecs, Hstatuses, lookup_insert_None, <- (bo_status _ Hok). split; [|by intros []].
    intros Hn. split; [done|]. intros <-. congruence.
  - intros id sp st. rewrite Hspecs, Hstatuses. intros Hs [[<- <-]|[_ ?]]%lookup_insert_Some.
    + rewrite Hspec in Hs. by injection Hs as <-.
    + eapply status_ok_mono; [done|]. by eapply (bo_current _ Hok).
  - intros key st [(sp & ? & ?)%(bo_recorded _ Hok)|[-> ->]]%Hkeys; rewrite Hspecs; [|by exists spec].
    exists sp. split; [done|]. by eapply status_ok_mono.
  - intros key st [(sp & ? & ? & ?)%(bo_chunk _ Hok)|(-> & ? & ->)]%Hchunks; rewrite Hspecs; [|by exists spec].
    exists sp. split_and!; [done..|]. by eapply status_ok_mono.
Qed.

Lemma UpdateWorksetStatus_ok s spec status key :
  batch_ok s → specs s !! wsp_WorksetID spec = Some spec → status_ok s spec status →
  batch_ok (UpdateWorksetStatus s (Some status) key).1 ∧
  batch_grows s (UpdateWorksetStatus s (Some status) key).1.
Proof.
  intros Hok Hspec Hst. unfold UpdateWorksetStatus.
  destruct (validateUpdateWorksetStatusInput _ _) as [status'|] eqn:Hv; [|done].
  assert (status' = status) as ->. { cbn in Hv. repeat (apply bind_Ok in Hv as ([] & _ & Hv)). by injection Hv. }
  destruct (statusKeys s !! _) eqn:Hk; [done|]. pose proof Hst as [Hfor _]. pose proof Hfor as [Hid _].
  rewrite Hid in Hk |- *. rewrite Hspec, batch_normalize_id by done. cbn [fst].
  split; [|split; cbn; [done..|by apply insert_subseteq|done]].
  eapply (replace_status_ok s); cbn; [done..| |].
  - intros k st [[<- <-]|[_ ?]]%lookup_insert_Some; [by right|by left].
  - intros k st ?. by left.
Qed.

Lemma ApplyChunkResult_ok s spec ref r status next :
  batch_ok s → specs s !! wsp_WorksetID spec = Some spec → wrf_WorksetID ref = wsp_WorksetID spec →
  worksetHasChunk spec (wcr_ChunkID r) = true → status_for spec next → progress_fits spec next →
  counted s (wsp_WorksetID spec) status →
  wpr_CompletedChunks (wst_Progress next) = int32 (wpr_CompletedChunks (wst_Progress status) + 1) →
  batch_ok (ApplyChunkResult s ref (Some r) (Some next)).1 ∧
  batch_grows s (ApplyChunkResult s ref (Some r) (Some next)).1.
Proof.
  intros Hok Hspec Href Hhas Hfor Hp Hc Hn. unfold ApplyChunkResult.
  destruct (validateApplyChunkInput _ _ _) as [[r' next']|] eqn:Hv; [|done].
  assert (r' = r ∧ next' = next) as [-> ->].
  { unfold validateApplyChunkInput in Hv. apply bind_Ok in Hv as ([] & _ & Hv).
    apply bind_Ok in Hv as (r0 & Hr & Hv). apply bind_Ok in Hv as (n0 & Hn0 & [= <- <-]).
    cbn in Hr, Hn0. repeat (apply bind_Ok in Hr as ([] & _ & Hr)). injection Hr as ->.
    repeat (apply bind_Ok in Hn0 as ([] & _ & Hn0)). by injection Hn0 as ->. }
  destruct (chunkKeys s !! _) eqn:Hk; [done|]. rewrite Href in Hk |- *. rewrite Hspec.
  destruct (validateWorksetTenantAccess _ _); [|done]. rewrite batch_normalize_id by done. cbn [fst].
  assert (chunkKeys s ⊆ <[ChunkKey (wsp_WorksetID spec) (wcr_ChunkID r) (wcr_IdempotencyKey r) := next]> (chunkKeys s))
    as Hsub by by apply insert_subseteq.
  split; [|by split].
  eapply (replace_status_ok s); cbn; [done|done|done| |done|done| |].
  - split_and!; [done..|].
    by apply (counted_insert s _ (ChunkKey (wsp_WorksetID spec) (wcr_ChunkID r) (wcr_IdempotencyKey r)) status next (wst_Progress next)).
  - intros k st ?. by left.
  - intros k st [[<- <-]|[_ ?]]%lookup_insert_Some; [by right|by left].
Qed.

(** ** Requests *)

Abbreviation bsafe p := (safe batch_does batch_ok batch_grows p) (only parsing).

Lemma batch_safe_timestamp {A} t (k : time → bprog A) Q s :
  (∀ t s', batch_grows s s' → bsafe (k t) Q s') → bsafe (t' ← worksetTimestamp t; k t') Q s.
Proof.
  intros Hk. unfold worksetTimestamp. destruct (time_is_zero t); [|by apply (Hk t)].
  apply safe_ask. intros s1 r s2 Hok Hg ->. split_and!; [done..|]. by apply (Hk r).
Qed.

Lemma GetWorkset_found s ref spec status :
  batch_ok s → GetWorkset s ref = Ok (Some (spec, status)) →
  specs s !! wsp_WorksetID spec = Some spec ∧ wsp_WorksetID spec = wrf_WorksetID ref ∧
  statuses s !! wsp_WorksetID spec = Some status ∧ status_ok s spec status ∧
  ValidateWorksetSpec (Some spec) = Ok tt.
Proof.
  intros Hok Hget. apply bind_Ok in Hget as ([] & _ & Hget).
  destruct (specs s !! _) as [spec0|] eqn:Hs; [|done]. apply bind_Ok in Hget as ([] & _ & [= <- <-]).
  destruct (bo_spec _ Hok _ _ Hs) as [Hid Hv]. rewrite Hid.
  destruct (statuses s !! _) as [st|] eqn:Hst; [|apply (bo_status _ Hok) in Hst; congruence].
  pose proof (bo_current _ Hok _ _ _ Hs Hst). by split_and!.
Qed.

Lemma safe_require_workset {A} ref (k : WorksetSpec * WorksetStatus → bprog (result A)) s :
  (∀ spec status s', batch_grows s s' → specs s' !! wsp_WorksetID spec = Some spec →
     wsp_WorksetID spec = wrf_WorksetID ref → status_ok s' spec status → bsafe (k (spec, status)) (λ _ _, True) s') →
  bsafe (found ←? requireWorkset ref; k found) (λ _ _, True) s.
Proof.
  intros Hk. unfold requireWorkset, ask_ok, check_ok. destruct (ValidateWorksetRef ref); [|done].
  apply (safe_ask _ _ _ (BGetWorkset ref)). intros s1 r s2 Hok Hg Hd.
  apply read_call in Hd as [-> Hr]. split_and!; [done..|].
  destruct r as [[[spec status]|]|]; [|done..]. specialize (Hr _ eq_refl).
  apply GetWorkset_found in Hr as (? & ? & _ & ? & _); [|done]. by apply Hk.
Qed.

Lemma initial_fits spec t :
  ValidateWorksetSpec (Some spec) = Ok tt →
  let status := (run_calls (batch_handle t) (initialWorksetStatus spec) NewMemoryStore).1 in
  status_for spec status ∧ progress_fits spec status ∧ wpr_CompletedChunks (wst_Progress status) = 0%Z.
Proof.
  intros (_ & _ & _ & Hlen)%ValidateWorksetSpec_ids. unfold initialWorksetStatus, worksetTimestamp.
  destruct (time_is_zero _); cbn; (split; [done|]); (split; [|done]); unfold progress_fits, chunk_total; cbn;
    rewrite chunk_count by done; (split_and!; [|done..]); case_bool_decide; lia.
Qed.

Lemma batch_safe_initial {A} spec (k : WorksetStatus → bprog (result A)) s :
  ValidateWorksetSpec (Some spec) = Ok tt →
  (∀ status s', status_for spec status → progress_fits spec status →
     wpr_CompletedChunks (wst_Progress status) = 0%Z → bsafe (k status) (λ _ _, True) s') →
  bsafe (status ← initialWorksetStatus spec; k status) (λ _ _, True) s.
Proof.
  intros Hv Hk. pose proof (λ t, initial_fits spec t Hv) as Hi. revert Hi.
  unfold initialWorksetStatus, worksetTimestamp. destruct (time_is_zero _); cbn; intros Hi.
  - intros s1 t s2 Hok Hg ->. split_and!; [done..|]. destruct (Hi t) as (? & ? & ?). by apply Hk.
  - destruct (Hi 0%Z) as (? & ? & ?). by apply Hk.
Qed.

Lemma batch_request_safe p s : batch_request p → bsafe p (λ _ _, True) s.
Proof.
  assert (∀ A (m : bprog A), bsafe m (λ _ _, True) s → bsafe (m ≫= λ _, mret tt) (λ _ _, True) s) as Hdrop
    by (intros A m Hm; apply safe_bind; eapply safe_mono; [exact Hm|done]).
  intros Hp. destruct Hp as [spec|ref|scope|ref r|ref control]; apply Hdrop.
  - unfold StartWorkset, check_ok. destruct (ValidateWorksetSpec spec) as [[]|] eqn:Hv; [|done].
    destruct spec as [spec|]; [|done]. apply batch_safe_initial; [done|]. intros status s1 Hst Hp Hz. unfold ask_ok.
    apply safe_ask. intros s2 r s3 Hok Hg Hd. destruct (CreateWorkset_ok s2 spec status) as [? ?]; [done..|].
    apply (store_call_ok (CreateWorkset s2 (Some spec) (Some status))) in Hd as [[->| ->] _];
      (split_and!; [done..|]); by destruct r as [[]|].
  - unfold StatusWorkset, ask_ok. apply safe_ask. intros s1 r s2 Hok Hg [-> _]%read_call.
    split_and!; [done..|]. by destruct r as [[[]|]|].
  - unfold Runtime_ListWorksets, check_ok, ask_ok. destruct (ValidateWorksetScope scope); [|done].
    apply safe_ask. intros s1 r s2 Hok Hg [-> _]%read_call. split_and!; [done..|]. by destruct r.
  - unfold RecordWorksetChunk. apply safe_require_workset. intros spec status s1 Hg1 Hs Hid Hst.
    destruct (validateChunkResult r) as [cr|]; [|done]. unfold check_ok.
    destruct (fail_if _ _) eqn:Hh; [|done]. apply fail_if_Ok, negb_false_iff in Hh.
    apply batch_safe_timestamp. intros t s2 Hg2. unfold ask_ok. set (next := Build_WorksetStatus _ _ _ _ _ _ _ _ _ _ _).
    apply safe_ask. intros s3 ans s4 Hok Hg Hd. destruct Hst as (Hfor & Hpf & Hc).
    destruct (ApplyChunkResult_ok s3 spec ref cr status next) as [? ?]; try done.
    + eapply lookup_weaken; [done|]. etrans; [apply Hg2|apply Hg].
    + by eapply progress_after_result.
    + eapply counted_mono; [|done]. etrans; [apply Hg2|apply Hg].
    + apply (add_result_keeps (wst_Progress status) cr).
    + apply (store_call_ok (ApplyChunkResult s3 ref (Some cr) (Some next))) in Hd as [[->| ->] _];
        (split_and!; [done..|]); by destruct ans.
  - unfold CancelWorkset. apply safe_require_workset. intros spec status s1 Hg1 Hs Hid Hst.
    destruct (validateCancelControl control) as [cr|]; [|done]. unfold check_ok.
    apply batch_safe_timestamp. intros t s2 Hg2. unfold ask_ok. set (next := Build_WorksetStatus _ _ _ _ _ _ _ _ _ _ _).
    apply safe_ask. intros s3 ans s4 Hok Hg Hd.
    destruct (UpdateWorksetStatus_ok s3 spec next (ctl_IdempotencyKey cr)) as [? ?]; [done| | |].
    + eapply lookup_weaken; [done|]. etrans; [apply Hg2|apply Hg].
    + destruct Hst as (Hfor & (? & ? & _) & Hc). split_and!; [done| |].
      * split_and!; done.
      * eapply (counted_mono s1); [|exact Hc]. etrans; [apply Hg2|apply Hg].
    + apply (store_call_ok (UpdateWorksetStatus s3 (Some next) _)) in Hd as [[->| ->] _];
        (split_and!; [done..|]); by destruct ans.
Qed.

Lemma batch_reachable_ok s : batch_reachable s → batch_ok s.
Proof.
  intros [ps Hr]. by eapply (threads_reach batch_does batch_request batch_ok batch_grows);
    [apply batch_request_safe|apply batch_ok_new|exact Hr].
Qed.

(** ** Undisturbed requests *)

Abbreviation brun now p s := (run_calls (batch_handle now) p s) (only parsing).

(** What an undisturbed chunk result comes to. *)
Definition after_result (r : WorksetChunkResult) (status : WorksetStatus) (t : time) : WorksetStatus :=
  let progress := add_result (wst_Progress status) r in
  {| status with
    wst_UpdatedAt := t; wst_Progress := progress;
    wst_Reason := if wcr_Succeeded r then wst_Reason status else wcr_Reason r;
    wst_LifecycleState := worksetLifecycleAfterChunk progress |}.

Lemma run_record now ref r s :
  brun now (RecordWorksetChunk ref r) s =
  match GetWorkset s ref with
  | Err e => (Err e, s)
  | Ok None => (Err err_workset_not_found, s)
  | Ok (Some (spec, status)) =>
      match validateChunkResult r with
      | Err e => (Err e, s)
      | Ok r =>
          if worksetHasChunk spec (wcr_ChunkID r) then
            let t := if time_is_zero (wcr_RecordedAt r) then now else wcr_RecordedAt r in
            let u := ApplyChunkResult s ref (Some r) (Some (after_result r status t)) in (u.2, u.1)
          else (Err (Errorf ErrInvalidWorkset "chunk %q is not part of workset %q"), s)
      end
  end.
Proof.
  unfold RecordWorksetChunk, requireWorkset, ask_ok, check_ok. unfold GetWorkset at 1.
  destruct (ValidateWorksetRef ref) eqn:Hv; [|done]. cbn. unfold GetWorkset. rewrite Hv. cbn.
  destruct (specs s !! _) as [spec|]; [|done]. destruct (validateWorksetTenantAccess _ _); [|done]. cbn.
  destruct (validateChunkResult r) as [cr|]; [|done]. destruct (worksetHasChunk _ _); [|done]. cbn.
  unfold worksetTimestamp. destruct (time_is_zero _); cbn; by destruct (ApplyChunkResult _ _ _ _) as [s' []].
Qed.

Lemma validateChunkResult_Ok r cr :
  validateChunkResult r = Ok cr →
  r = Some cr ∧ validateChunkResult (Some cr) = Ok cr ∧ wcr_IdempotencyKey cr ≠ "".
Proof.
  destruct r as [r|]; [|done]. intros Hv. assert (r = cr) as ->.
  { cbn in Hv. repeat (apply bind_Ok in Hv as ([] & _ & Hv)). by injection Hv. }
  split_and!; [done..|]. cbn in Hv. apply bind_Ok in Hv as ([] & _ & Hv).
  apply bind_Ok in Hv as ([] & Hk%fail_if_Ok & _). by simplify_bool.
Qed.

(** Applying a valid result of a stored workset. *)
Lemma apply_cases s ref spec status r next :
  batch_ok s → GetWorkset s ref = Ok (Some (spec, status)) → validateChunkResult (Some r) = Ok r →
  status_for spec next →
  ApplyChunkResult s ref (Some r) (Some next) =
  match chunkKeys s !! ChunkKey (wsp_WorksetID spec) (wcr_ChunkID r) (wcr_IdempotencyKey r) with
  | Some recorded => (s, Ok recorded)
  | None =>
      ({| s with
          statuses := <[wsp_WorksetID spec := next]> (statuses s);
          chunkKeys := <[ChunkKey (wsp_WorksetID spec) (wcr_ChunkID r) (wcr_IdempotencyKey r) := next]> (chunkKeys s) |},
       Ok next)
  end.
Proof.
  intros Hok Hget Hr Hst. pose proof Hget as (Hspec & Hid & _ & _ & Hv)%GetWorkset_found; [|done].
  apply ValidateWorksetSpec_ids in Hv as (Hn1 & Hn2 & Hn3 & _).
  apply validateChunkResult_Ok in Hr as (_ & Hr & Hkey).
  unfold GetWorkset in Hget. apply bind_Ok in Hget as ([] & Href & Hget). rewrite <- Hid, Hspec in Hget.
  apply bind_Ok in Hget as ([] & Hacc & _).
  unfold ApplyChunkResult, validateApplyChunkInput. rewrite Href, Hr. cbn -[validateUpdateWorksetStatusInput].
  unfold validateUpdateWorksetStatusInput. pose proof Hst as (H1 & H2 & H3 & _). rewrite H1, H2, H3.
  repeat (rewrite bool_decide_eq_false_2 by done). cbn. rewrite <- Hid.
  destruct (chunkKeys s !! _); [done|]. rewrite Hspec, Hacc. by rewrite batch_normalize_id.
Qed.

Lemma after_result_for r status spec t : status_for spec status → status_for spec (after_result r status t).
Proof. done. Qed.

(** ** Theorems *)

(** C32: the progress of worksets.  Let any number of requests run at once, with any call
    failing before or after its effect and any request cut short.  The completed chunks of
    every workset are the number, modulo the width of the counter, of some different results
    that are recorded for chunks of that workset: a result that was not recorded is not
    counted, and none is counted twice.  A workset says that it succeeded only when no chunk
    failed in its count and at least as many results are recorded as it has chunks. *)
Theorem workset_progress s id status :
  batch_reachable s → statuses s !! id = Some status →
  ∃ spec K, specs s !! id = Some spec ∧ status_for spec status ∧
    (∀ key, key ∈ K → is_Some (chunkKeys s !! key) ∧ wck_WorksetID key = id ∧
       worksetHasChunk spec (wck_ChunkID key) = true) ∧
    wpr_CompletedChunks (wst_Progress status) = int32 (Z.of_nat (size (K : gset worksetChunkKey))) ∧
    (wst_LifecycleState status = WorksetSucceeded →
     (wpr_FailedChunks (wst_Progress status) ≤ 0)%Z ∧ Nat.max 1 (length (wsp_Chunks spec)) ≤ size K).
Proof.
  intros Hok%batch_reachable_ok Hst.
  destruct (specs s !! id) as [spec|] eqn:Hs; [|apply (bo_status _ Hok) in Hs; congruence].
  destruct (bo_current _ Hok _ _ _ Hs Hst) as (Hfor & (Htot & _ & Hsucc) & K & HK & Hid & Hn).
  destruct (bo_spec _ Hok _ _ Hs) as [Heq _]. exists spec, K. split_and!; [done..| |done|].
  - intros key Hkey. assert (is_Some (chunkKeys s !! key)) as [st Hc] by (apply elem_of_dom; set_solver).
    pose proof Hc as (sp & Hsp & Hhas & _)%(bo_chunk _ Hok).
    assert (wck_WorksetID key = id) as Hk by (rewrite <- Heq; by apply Hid).
    split; [by eexists|]. split; [done|]. rewrite Hk, Hs in Hsp. by injection Hsp as ->.
  - intros Hl. destruct (Hsucc Hl) as [Hf Hge]. split; [done|]. rewrite Htot, Hn in Hge.
    pose proof (int32_le (Z.of_nat (size K))). unfold chunk_total in Hge. lia.
Qed.

(** Repeated chunk results.  An undisturbed result that was accepted adds one chunk and
    its items to the progress, unless its key is known; repeated at any clock, it is answered
    with the status it recorded and changes nothing. *)
Theorem chunk_once s ref r spec status now s1 st now' :
  batch_reachable s → GetWorkset s ref = Ok (Some (spec, status)) →
  run_calls (batch_handle now) (RecordWorksetChunk ref (Some r)) s = (Ok st, s1) →
  (chunkKeys s !! ChunkKey (wrf_WorksetID ref) (wcr_ChunkID r) (wcr_IdempotencyKey r) = None →
   wst_Progress st = add_result (wst_Progress status) r ∧ statuses s1 !! wrf_WorksetID ref = Some st) ∧
  run_calls (batch_handle now') (RecordWorksetChunk ref (Some r)) s1 = (Ok st, s1).
Proof.
  intros Hok%batch_reachable_ok Hget. rewrite !run_record, Hget.
  pose proof Hget as (Hspec & Hid & Hcur & (Hfor & Hpf & Hc) & Hv)%GetWorkset_found; [|done].
  destruct (validateChunkResult (Some r)) as [cr|] eqn:Hr; [|done].
  pose proof Hr as ([= <-] & Hr' & _)%validateChunkResult_Ok.
  destruct (worksetHasChunk spec _) eqn:Hh; [|done]. cbv zeta.
  set (t := if time_is_zero _ then now else _). set (next := after_result r status t).
  destruct (ApplyChunkResult_ok s spec ref r status next) as [Hok1 _]; [done..| | | |].
  { by eapply progress_after_result. }
  { done. }
  { apply (add_result_keeps (wst_Progress status) r). }
  rewrite (apply_cases s ref spec status) in Hok1 |- * by done. rewrite <- Hid.
  destruct (chunkKeys s !! _) as [recorded|] eqn:Hk; cbn [fst snd] in *; intros [= <- <-].
  - split; [done|]. rewrite Hget, Hh. by rewrite (apply_cases s ref spec status), Hk by done.
  - split; [intros _; split; [done|]; cbn; by rewrite lookup_insert_eq|].
    set (s1 := Build_MemoryStore _ _ _ _ _) in *.
    assert (GetWorkset s1 ref = Ok (Some (spec, next))) as Hget1.
    { revert Hget. unfold GetWorkset. cbn. rewrite <- Hid, Hspec, Hcur, lookup_insert_eq.
      destruct (ValidateWorksetRef ref); [|done]. cbn. by destruct (validateWorksetTenantAccess _ _). }
    rewrite Hget1, Hh. rewrite (apply_cases s1 ref spec next) by done. cbn. by rewrite lookup_insert_eq.
Qed.

(** ** Witnesses *)

Lemma batch_handle_does now o s : batch_does o s (batch_handle now o s).1 (batch_handle now o s).2.
Proof. destruct o; cbn; first [done|apply store_call_refl|by left]. Qed.

Lemma batch_reachable_run now p s :
  batch_request p → batch_reachable s → batch_reachable (run_calls (batch_handle now) p s).2.
Proof.
  intros Hp [ps Hr]. exists (ps ++ [Done (run_calls (batch_handle now) p s).1]).
  etrans; [exact Hr|]. eapply rtc_l; [by apply thread_start|]. apply run_thread, batch_handle_does.
Qed.

(** Requests that take turns on a store where nothing else runs. *)
Lemma batch_reachable_turns now schedule ps s :
  rtc (thread_step batch_does batch_request) (Threads NewMemoryStore []) (Threads s []) →
  Forall batch_request ps → batch_reachable (th_world (take_turns (batch_handle now) schedule s ps)).
Proof.
  intros Hr Hps. exists (th_progs (take_turns (batch_handle now) schedule s ps)).
  etrans; [exact Hr|]. etrans; [by apply (start_all _ _ s [])|].
  pose proof (take_turns_steps batch_does batch_request (batch_handle now) schedule s ps (batch_handle_does now)) as Ht.
  by destruct (take_turns _ _ _ _).
Qed.

Module BatchSample.
Definition items : WorksetItemsRef := {| zero_WorksetItemsRef with wir_Kind := "csv"; wir_URI := "s3://rows" |}.
Definition chunk (id : string) : WorksetChunkSpec := {|
  wch_ChunkID := id; wch_ItemsRef := items; wch_ItemCount := 0; wch_Concurrency := 0 |}.
Definition spec : WorksetSpec := {| zero_WorksetSpec with
  wsp_WorksetID := "ws-1"; wsp_IdempotencyKey := "start-1"; wsp_AccountID := "acct"; wsp_ProjectID := "proj";
  wsp_ProcessID := "proc-1"; wsp_Kind := "import"; wsp_ItemsRef := items; wsp_Chunks := [chunk "a"; chunk "b"] |}.
Definition ref : WorksetRef := {| wrf_WorksetID := "ws-1"; wrf_AccountID := "acct"; wrf_ProjectID := "proj" |}.
Definition t1 : time := 7000000%Z.
Definition t2 : time := 8000000%Z.
Definition report (chunk key : string) : WorksetChunkResult := {|
  wcr_ChunkID := chunk; wcr_IdempotencyKey := key; wcr_CompletedItems := 10; wcr_FailedItems := 0;
  wcr_Succeeded := true; wcr_Reason := ""; wcr_OutputRefs := []; wcr_RecordedAt := t1 |}.
Definition cancel : ControlRequest := {| zero_ControlRequest with
  ctl_Operation := ControlCancel; ctl_IdempotencyKey := "stop" |}.

Definition start : bprog unit := StartWorkset (Some spec) ≫= λ _, mret tt.
Definition record (chunk key : string) : bprog unit := RecordWorksetChunk ref (Some (report chunk key)) ≫= λ _, mret tt.
Definition stop : bprog unit := CancelWorkset ref (Some cancel) ≫= λ _, mret tt.
Definition after (p : bprog unit) (s : MemoryStore) : MemoryStore := (run_calls (batch_handle t1) p s).2.

Definition started : MemoryStore := after start NewMemoryStore.
(** The two chunks of the workset are reported at the same time. *)
Definition raced : MemoryStore :=
  th_world (take_turns (batch_handle t1) [0; 1; 0; 1] started [record "a" "k1"; record "b" "k2"]).
(** One chunk is reported twice. *)
Definition repeated : MemoryStore := after (record "a" "k2") (after (record "a" "k1") started).
(** A chunk is reported after the workset was canceled. *)
Definition revived : MemoryStore := after (record "a" "k1") (after stop started).

Lemma started_alone : rtc (thread_step batch_does batch_request) (Threads NewMemoryStore []) (Threads started []).
Proof.
  eapply rtc_l; [apply (thread_start _ _ _ [] start); constructor|].
  etrans; [apply (run_thread _ _ (batch_handle t1) start NewMemoryStore []), batch_handle_does|].
  apply rtc_once, (thread_stop _ _ _ [] _ []).
Qed.

Lemma raced_reachable : batch_reachable raced.
Proof. apply batch_reachable_turns; [apply started_alone|]. repeat constructor. Qed.

Lemma started_reachable : batch_reachable started.
Proof. exists []. apply started_alone. Qed.

Lemma repeated_reachable : batch_reachable repeated.
Proof. do 2 (apply batch_reachable_run; [constructor|]). apply started_reachable. Qed.

Lemma revived_reachable : batch_reachable revived.
Proof. do 2 (apply batch_reachable_run; [constructor|]). apply started_reachable. Qed.
End BatchSample.

(** Three ways a workset miscounts.  Two results that are recorded at the same time are
    both kept under their keys while the progress has only one of them, so that the workset
    stays open for good.  A chunk reported under two keys counts twice, so that a workset
    succeeds with a chunk nobody reported.  A result recorded after a cancellation makes the
    workset run again. *)
Theorem workset_miscounts :
  (∃ s status, batch_reachable s ∧ statuses s !! "ws-1" = Some status ∧
     is_Some (chunkKeys s !! ChunkKey "ws-1" "a" "k1") ∧ is_Some (chunkKeys s !! ChunkKey "ws-1" "b" "k2") ∧
     wpr_TotalChunks (wst_Progress status) = 2%Z ∧ wpr_CompletedChunks (wst_Progress status) = 1%Z ∧
     wst_LifecycleState status = WorksetRunning) ∧
  (∃ s spec status, batch_reachable s ∧ specs s !! "ws-1" = Some spec ∧ statuses s !! "ws-1" = Some status ∧
     wst_LifecycleState status = WorksetSucceeded ∧ worksetHasChunk spec "b" = true ∧
     ∀ key, chunkKeys s !! ChunkKey "ws-1" "b" key = None) ∧
  (∃ s status stopped, batch_reachable s ∧ statusKeys s !! WorksetKey "ws-1" "stop" = Some stopped ∧
     wst_LifecycleState stopped = WorksetCanceled ∧ statuses s !! "ws-1" = Some status ∧
     wst_LifecycleState status = WorksetRunning).
Proof.
  split_and!.
  - eexists BatchSample.raced, _. split; [apply BatchSample.raced_reachable|].
    split; [vm_compute; reflexivity|]. split; [vm_compute; by eexists|]. split; [vm_compute; by eexists|]. done.
  - eexists BatchSample.repeated, BatchSample.spec, _. split; [apply BatchSample.repeated_reachable|].
    split; [vm_compute; reflexivity|]. split; [vm_compute; reflexivity|]. split; [done|]. split; [done|].
    assert (Forall (λ kv, wck_ChunkID kv.1 = "a") (map_to_list (chunkKeys BatchSample.repeated))) as Ha
      by (vm_compute; repeat constructor).
    intros key. destruct (chunkKeys BatchSample.repeated !! _) as [st|] eqn:Hk; [|done].
    apply elem_of_map_to_list in Hk. by eapply Forall_forall in Ha; [|exact Hk].
  - eexists BatchSample.revived, _, _. split; [apply BatchSample.revived_reachable|].
    split; [vm_compute; reflexivity|]. split; [done|]. split; [vm_compute; reflexivity|]. done.
Qed.

Lemma workset_progress_witness :
  ∃ spec K, specs BatchSample.repeated !! "ws-1" = Some spec ∧
    (∀ key, key ∈ K → is_Some (chunkKeys BatchSample.repeated !! key)) ∧ 2 ≤ size (K : gset worksetChunkKey).
Proof.
  edestruct (workset_progress BatchSample.repeated "ws-1") as (spec & K & Hs & _ & HK & _ & Hsucc);
    [exact BatchSample.repeated_reachable|vm_compute; reflexivity|].
  assert (spec = BatchSample.spec) as -> by (vm_compute in Hs; injection Hs as <-; reflexivity).
  exists BatchSample.spec, K. split; [exact Hs|]. split; [intros key Hk; apply (HK key Hk)|].
  exact (proj2 (Hsucc eq_refl)).
Defined.

Lemma chunk_once_witness :
  let s1 := BatchSample.after (BatchSample.record "a" "k1") BatchSample.started in
  let st := default zero_WorksetStatus (statuses s1 !! "ws-1") in
  wpr_CompletedItems (wst_Progress st) = 10%Z ∧
  run_calls (batch_handle BatchSample.t2)
    (RecordWorksetChunk BatchSample.ref (Some (BatchSample.report "a" "k1"))) s1 = (Ok st, s1).
Proof.
  intros s1 st. split; [vm_compute; reflexivity|].
  apply (chunk_once BatchSample.started BatchSample.ref (BatchSample.report "a" "k1") BatchSample.spec
    (default zero_WorksetStatus (statuses BatchSample.started !! "ws-1")) BatchSample.t1 s1 st BatchSample.t2).
  - exact BatchSample.started_reachable.
  - vm_compute. reflexivity.
  - vm_compute. reflexivity.
Defined.
