(* ===== verification/GoStrings.v ===== *)
(** * strings.TrimSpace

    The function of Go's standard library that the request paths use to clean identifiers,
    on the bytes of a string. *)

From Stdlib Require Import Ascii.
From S2P Require Import Prelude Types Json.

(** The UTF-8 encodings of the runes that unicode.IsSpace accepts. *)
Definition space_runes : list (list ascii) :=
  map (map ascii_of_nat)
    ([[9]; [10]; [11]; [12]; [13]; [32]; [194; 133]; [194; 160]; [225; 154; 128]] ++
     map (λ n, [226; 128; n]) (seq 128 11) ++
     [[226; 128; 168]; [226; 128; 169]; [226; 128; 175]; [226; 129; 159]; [227; 128; 128]]).

(** [l] without the prefix [p]. *)
Fixpoint strip (p l : list ascii) : option (list ascii) :=
  match p, l with
  | [], _ => Some l
  | a :: p, b :: l => if a == b then strip p l else None
  | _ :: _, [] => None
  end.

Definition strip_space (runes : list (list ascii)) (l : list ascii) : option (list ascii) :=
  head (omap (λ p, strip p l) runes).

(** One unit of fuel for each byte is enough: every rune has one. *)
Fixpoint trim_left (runes : list (list ascii)) (fuel : nat) (l : list ascii) : list ascii :=
  match fuel with
  | 0 => l
  | S fuel =>
      match strip_space runes l with
      | Some rest => trim_left runes fuel rest
      | None => l
      end
  end.

Definition trim_all (runes : list (list ascii)) (l : list ascii) : list ascii :=
  trim_left runes (length l) l.

Definition TrimSpace (s : string) : string :=
  String.string_of_list_ascii
    (reverse (trim_all (reverse <$> space_runes)
       (reverse (trim_all space_runes (String.list_ascii_of_string s))))).

