(* ===== verification/ConversationDB.v ===== *)
(** * The tables of a conversation

    src/migrations/20261010000001_baseline.up.sql: the tables agentos_threads,
    agentos_conversation_runs, agentos_messages, agentos_conversation_events,
    agentos_conversation_event_outbox and agentos_conversation_deferred_projections with
    their keys, checks and references, and the transactions in which
    agentos/conversation uses them.

    A table is a map from its primary key to the other columns.  A statement either
    changes the tables and answers, or fails with an SQLSTATE; a failed statement makes
    every later one of the transaction fail until the transaction, or the savepoint it is
    in, is rolled back.  [jsonb] columns hold documents, [timestamptz] columns instants that
    went through the interface [PgTime] (Postgres keeps microseconds).  Text is taken to be
    free of NUL bytes. *)

From S2P Require Import Prelude Types Json.

(** The instant that is read back after [t] was stored. *)
Class PgTime := {
  pg_time : time → time;
  pg_time_idem : ∀ t, pg_time (pg_time t) = pg_time t;
}.

(** The driver cuts nanoseconds off. *)
#[global] Program Instance microsecond_time : PgTime := {| pg_time t := (t / microsecond * microsecond)%Z |}.
Next Obligation. intros t. cbv beta. by rewrite Z.div_mul. Qed.

(** The order of [text] columns, which the collation of the database decides. *)
Class Collation := {
  text_le : relation string;
  #[global] text_le_dec :: RelDecision text_le;
  #[global] text_le_total :: Total text_le;
  #[global] text_le_trans :: Transitive text_le;
}.

#[global] Instance bytewise : Collation := {| text_le := String.le |}.

Module conversationdb.

(** ** Rows *)

Record ThreadRow := {
  th_AccountID : string;
  th_ProjectID : string;
  th_NextSequence : Z;
  th_CreatedAt : time;
  th_UpdatedAt : time;
}.

Record RunRow := {
  rw_ThreadID : string;
  rw_ProcessID : string;
  rw_AccountID : string;
  rw_ProjectID : string;
  rw_Status : string;
  rw_Outcome : string;
  rw_Interrupt : option json;
  rw_ErrorCode : string;
  rw_ErrorMessage : string;
  rw_IdempotencyKey : string;
  rw_ResumeInterruptID : string;
  rw_Metadata : json;
  rw_LastSourceSequence : Z;
  rw_CreatedAt : time;
  rw_StartedAt : option time;
  rw_CompletedAt : option time;
  rw_LastActivityAt : time;
}.

Record MessageRow := {
  ms_ThreadID : string;
  ms_RunID : string;
  ms_ProcessID : string;
  ms_Role : string;
  ms_Content : string;
  ms_Status : string;
  ms_Attachments : json;
  ms_Metadata : json;
  ms_CreatedAt : time;
  ms_CompletedAt : option time;
}.

Record EventRow := {
  er_EventID : string;
  er_RunID : string;
  er_ProcessID : string;
  er_SourceEventID : string;
  er_SourceSequence : Z;
  er_EventType : string;
  er_OccurredAt : time;
  er_Payload : json;
}.

Record DeferredRow := {
  df_RunID : string;
  df_EventType : string;
  df_Attempts : Z;
}.

Record DB := {
  threads : gmap string ThreadRow;
  runs : gmap string RunRow;
  messages : gmap string MessageRow;
  events : gmap (string * Z) EventRow;
  outbox : gset (string * Z);
  deferred : gmap (string * Z) DeferredRow;
}.

Definition empty_DB : DB := {|
  threads := ∅; runs := ∅; messages := ∅; events := ∅; outbox := ∅; deferred := ∅ |}.

(** ** Statements *)

Inductive sqlstate :=
  | SerializationFailure | DeadlockDetected | UniqueViolation | CheckViolation
  | ForeignKeyViolation | NumericValueOutOfRange | InFailedSQLTransaction.

#[global] Instance sqlstate_eq_dec : EqDecision sqlstate.
Proof. solve_decision. Defined.

Abbreviation statement A := (DB → (DB * A) + sqlstate) (only parsing).

(** agentos_conversation_runs_status_check *)
Definition run_statuses : list string :=
  ["pending"; "running"; "completed"; "interrupted"; "cancelled"; "error"].

(** agentos_messages_role_check and agentos_messages_status_check *)
Definition message_roles : list string := ["user"; "assistant"; "system"; "tool"].
Definition message_statuses : list string := ["streaming"; "completed"; "error"].

(** idx_agentos_conversation_runs_running: a running run other than [id] on the thread. *)
Definition other_running (d : DB) (id thread : string) : bool :=
  bool_decide (map_Exists (λ id' r, id' ≠ id ∧ rw_ThreadID r = thread ∧ rw_Status r = "running") (runs d)).

(** The runs of a thread with a value under agentos_conversation_runs_thread_id_idempotency_key_key. *)
Definition run_with_key (d : DB) (thread key : string) : option (string * RunRow) :=
  head (filter (λ kr, rw_ThreadID kr.2 = thread ∧ rw_IdempotencyKey kr.2 = key) (map_to_list (runs d))).

Definition insert_thread (id : string) (row : ThreadRow) : statement unit := λ d,
  match threads d !! id with
  | Some _ => inr UniqueViolation
  | None => inl ({| d with threads := <[id := row]> (threads d) |}, tt)
  end.

(** [UPDATE agentos_threads SET next_sequence = next_sequence + 1, updated_at = ...
    RETURNING next_sequence]; no row when there is no such thread. *)
Definition allocate_sequence (id : string) (at_ : time) : statement (option Z) := λ d,
  match threads d !! id with
  | None => inl (d, None)
  | Some row =>
      if (max_int64 <=? th_NextSequence row)%Z then inr NumericValueOutOfRange
      else
        let next := (th_NextSequence row + 1)%Z in
        inl ({| d with threads := <[id := {| row with th_NextSequence := next; th_UpdatedAt := at_ |}]> (threads d) |},
             Some next)
  end.

(** The checks and indexes of a run row that is about to be written. *)
Definition check_run (d : DB) (id : string) (row : RunRow) : option sqlstate :=
  if negb (bool_decide (rw_Status row ∈ run_statuses)) then Some CheckViolation
  else if (rw_Status row == "running") && other_running d id (rw_ThreadID row) then Some UniqueViolation
  else None.

(** [INSERT ... ON CONFLICT (thread_id, idempotency_key) DO NOTHING]: the number of rows. *)
Definition insert_run (id : string) (row : RunRow) : statement Z := λ d,
  if negb (bool_decide (rw_Status row ∈ run_statuses)) then inr CheckViolation
  else match run_with_key d (rw_ThreadID row) (rw_IdempotencyKey row) with
  | Some _ => inl (d, 0%Z)
  | None =>
      match runs d !! id, check_run d id row, threads d !! rw_ThreadID row with
      | Some _, _, _ | _, Some _, _ => inr UniqueViolation
      | None, None, None => inr ForeignKeyViolation
      | None, None, Some _ => inl ({| d with runs := <[id := row]> (runs d) |}, 1%Z)
      end
  end.

(** [UPDATE agentos_conversation_runs SET ... WHERE run_id = id] *)
Definition update_run (id : string) (f : RunRow → RunRow) : statement unit := λ d,
  match runs d !! id with
  | None => inl (d, tt)
  | Some row =>
      match check_run d id (f row) with
      | Some code => inr code
      | None => inl ({| d with runs := <[id := f row]> (runs d) |}, tt)
      end
  end.

(** The checks and references of a message row. *)
Definition check_message (d : DB) (row : MessageRow) : option sqlstate :=
  if negb (bool_decide (ms_Role row ∈ message_roles) && bool_decide (ms_Status row ∈ message_statuses))
  then Some CheckViolation
  else match runs d !! ms_RunID row, threads d !! ms_ThreadID row with
       | Some _, Some _ => None
       | _, _ => Some ForeignKeyViolation
       end.

Definition insert_message (id : string) (row : MessageRow) : statement unit := λ d,
  match check_message d row, messages d !! id with
  | Some CheckViolation, _ => inr CheckViolation
  | _, Some _ => inr UniqueViolation
  | Some code, None => inr code
  | None, None => inl ({| d with messages := <[id := row]> (messages d) |}, tt)
  end.

(** [INSERT ... ON CONFLICT (message_id) DO NOTHING] *)
Definition insert_message_once (id : string) (row : MessageRow) : statement Z := λ d,
  match check_message d row, messages d !! id with
  | Some CheckViolation, _ => inr CheckViolation
  | _, Some _ => inl (d, 0%Z)
  | Some code, None => inr code
  | None, None => inl ({| d with messages := <[id := row]> (messages d) |}, 1%Z)
  end.

(** [UPDATE agentos_messages SET ... WHERE message_id = id AND ... AND status =
    'streaming'] with [mine] for the condition on the run, where there is one. *)
Definition update_message (id : string) (mine : MessageRow → bool) (f : MessageRow → MessageRow) :
    statement Z := λ d,
  match messages d !! id with
  | Some row =>
      if mine row && (ms_Status row == "streaming") then
        match check_message d (f row) with
        | Some code => inr code
        | None => inl ({| d with messages := <[id := f row]> (messages d) |}, 1%Z)
        end
      else inl (d, 0%Z)
  | None => inl (d, 0%Z)
  end.

(** The event with a source event id, which idx_agentos_conversation_events_source makes
    unique where it is not empty. *)
Definition event_with_source (d : DB) (thread source : string) : option (string * Z * EventRow) :=
  head (filter (λ kr, kr.1.1 = thread ∧ er_SourceEventID kr.2 = source) (map_to_list (events d))).

Definition event_id_taken (d : DB) (id : string) : bool :=
  bool_decide (map_Exists (λ _ e, er_EventID e = id) (events d)).

Definition insert_event (thread : string) (sequence : Z) (row : EventRow) : statement unit := λ d,
  if negb (0 <? sequence)%Z then inr CheckViolation
  else match events d !! (thread, sequence) with
  | Some _ => inr UniqueViolation
  | None =>
      if event_id_taken d (er_EventID row) ||
         ((er_SourceEventID row != "") && bool_decide (is_Some (event_with_source d thread (er_SourceEventID row))))
      then inr UniqueViolation
      else match threads d !! thread, runs d !! er_RunID row with
           | Some _, Some _ => inl ({| d with events := <[(thread, sequence) := row]> (events d) |}, tt)
           | _, _ => inr ForeignKeyViolation
           end
  end.

Definition insert_outbox (thread : string) (sequence : Z) : statement unit := λ d,
  if bool_decide ((thread, sequence) ∈ outbox d) then inr UniqueViolation
  else match events d !! (thread, sequence) with
       | Some _ => inl ({| d with outbox := {[(thread, sequence)]} ∪ outbox d |}, tt)
       | None => inr ForeignKeyViolation
       end.

(** [INSERT ... ON CONFLICT (thread_id, sequence) DO NOTHING] *)
Definition insert_deferred (thread : string) (sequence : Z) (row : DeferredRow) : statement unit := λ d,
  match deferred d !! (thread, sequence) with
  | Some _ => inl (d, tt)
  | None =>
      match threads d !! thread, runs d !! df_RunID row, events d !! (thread, sequence) with
      | Some _, Some _, Some _ =>
          inl ({| d with deferred := <[(thread, sequence) := row]> (deferred d) |}, tt)
      | _, _, _ => inr ForeignKeyViolation
      end
  end.

Definition update_deferred (thread : string) (sequence : Z) (f : DeferredRow → DeferredRow) :
    statement unit := λ d,
  inl ({| d with deferred := alter f (thread, sequence) (deferred d) |}, tt).

Definition delete_deferred (thread : string) (sequence : Z) : statement unit := λ d,
  inl ({| d with deferred := delete (thread, sequence) (deferred d) |}, tt).

End conversationdb.
