(* ===== verification/Conversation.v ===== *)
(** * Conversations

    agentos/conversation (store.go, runtime.go, sweeper.go) over the data of
    agentos/control/conversation.go and the tables of [ConversationDB]: runs are admitted on
    a thread, producers deliver their events, a projection of the events keeps the status of
    runs and the text of messages, and a sweeper abandons silent runs and starts the turns
    that had to wait.

    Code inside a transaction is of type [Tx]: it threads the tables, the mark of a failed
    statement and the readings of the clock and of uuid.NewString.  A request is a
    transaction that is replayed after failures; between two attempts other transactions
    may commit.  StartRun and IngestEvent ask for serializable transactions, so one
    transaction at a time is what they see.  The sweeper's transactions run at the default
    level, and are taken to run alone too: what another transaction could do between two
    statements of a sweep is outside the model.  Row locks are therefore left out. *)

From S2P Require Import Prelude Types Json Decode Calls ConversationDB GoStrings.
Import conversationdb.

Module conversation.

(** ** agentos/control/conversation.go *)

Definition ConversationSchemaVersion : string := "agentos.conversation.v1".
Definition ConversationEventRunStarted : string := "RUN_STARTED".
Definition ConversationEventTextMessageStart : string := "TEXT_MESSAGE_START".
Definition ConversationEventTextMessageContent : string := "TEXT_MESSAGE_CONTENT".
Definition ConversationEventTextMessageEnd : string := "TEXT_MESSAGE_END".
Definition ConversationEventRunFinished : string := "RUN_FINISHED".
Definition ConversationEventRunError : string := "RUN_ERROR".
Definition ConversationRunPending : string := "pending".
Definition ConversationRunRunning : string := "running".
Definition ConversationRunCompleted : string := "completed".
Definition ConversationRunInterrupted : string := "interrupted".
Definition ConversationRunCanceled : string := "canceled".
Definition ConversationRunError : string := "error".
Definition ConversationOutcomeNormal : string := "normal".
Definition ConversationOutcomeInterrupt : string := "interrupt".
Definition ConversationOutcomeCanceled : string := "canceled".
Definition ConversationOutcomeAbandoned : string := "abandoned".

Record Attachment := {
  att_FileID : string;
  att_Filename : string;
  att_Size : Z;
  att_MIMEType : string;
  att_Metadata : go_map any;
}.

Record ConversationMessage := {
  cm_MessageID : string;
  cm_ThreadID : string;
  cm_RunID : string;
  cm_ProcessID : string;
  cm_Role : string;
  cm_Content : string;
  cm_Status : string;
  cm_Attachments : list Attachment;
  cm_Metadata : go_map any;
  cm_CreatedAt : time;
  cm_CompletedAt : time;
}.

Record ConversationInterrupt := {
  ci_InterruptID : string;
  ci_Type : string;
  ci_Prompt : string;
  ci_InputSchema : go_map any;
  ci_Metadata : go_map any;
}.

Record ConversationResume := {
  rs_InterruptID : string;
  rs_Response : any;
}.

Record ConversationRun := {
  cr_RunID : string;
  cr_ThreadID : string;
  cr_ProcessID : string;
  cr_AccountID : string;
  cr_ProjectID : string;
  cr_Status : string;
  cr_Outcome : string;
  cr_Interrupt : option ConversationInterrupt;
  cr_ErrorCode : string;
  cr_Error : string;
  cr_CreatedAt : time;
  cr_StartedAt : time;
  cr_CompletedAt : time;
}.

Record StartConversationRunSpec := {
  ss_RunID : string;
  ss_ThreadID : string;
  ss_ProcessID : string;
  ss_AccountID : string;
  ss_ProjectID : string;
  ss_MessageID : string;
  ss_UserMessage : string;
  ss_Attachments : list Attachment;
  ss_MessageMetadata : go_map any;
  ss_RunMetadata : go_map any;
  ss_Resume : option ConversationResume;
  ss_IdempotencyKey : string;
  ss_RequestedAt : time;
}.

Record ExternalConversationEvent := {
  xe_ThreadID : string;
  xe_RunID : string;
  xe_ProcessID : string;
  xe_AccountID : string;
  xe_ProjectID : string;
  xe_SourceEventID : string;
  xe_SourceSequence : Z;
  xe_EventType : string;
  xe_OccurredAt : time;
  xe_Payload : go_map any;
}.

Record ConversationEvent := {
  ce_SchemaVersion : string;
  ce_EventID : string;
  ce_ThreadID : string;
  ce_RunID : string;
  ce_ProcessID : string;
  ce_Sequence : Z;
  ce_SourceEventID : string;
  ce_SourceSequence : Z;
  ce_EventType : string;
  ce_OccurredAt : time;
  ce_Payload : go_map any;
}.

Record ThreadScope := {
  ts_ThreadID : string;
  ts_AccountID : string;
  ts_ProjectID : string;
  ts_EventLimit : Z;
}.

Record ThreadStreamScope := {
  tss_ThreadID : string;
  tss_AccountID : string;
  tss_ProjectID : string;
  tss_AfterSequence : Z;
}.

Record ThreadSnapshot := {
  sn_SchemaVersion : string;
  sn_ThreadID : string;
  sn_AccountID : string;
  sn_ProjectID : string;
  sn_Messages : list ConversationMessage;
  sn_Runs : list ConversationRun;
  sn_Events : list ConversationEvent;
  sn_Cursor : Z;
  sn_UpdatedAt : time;
}.

(** ** Errors *)

Inductive conversation_error :=
  | ErrInvalidConversation | ErrThreadNotFound | ErrRunNotFound | ErrTenantMismatch
  | ErrRunAlreadyActive | ErrInterruptRequired | ErrInterruptMismatch
  | ErrOutOfOrderSourceEvent | ErrInvalidTransition.

(** An error with the format string of its text: one that wraps a sentinel of the package,
    one in which errors.As finds an error of Postgres, or another one. *)
Inductive error :=
  | Conv (s : conversation_error) (format : string)
  | Pg (code : sqlstate) (format : string)
  | Plain (format : string).

#[global] Instance conversation_error_eq_dec : EqDecision conversation_error.
Proof. solve_decision. Defined.
#[global] Instance error_eq_dec : EqDecision error.
Proof. solve_decision. Defined.

(** [errors.Is(err, ErrRunAlreadyActive)] *)
Definition is_conv (s : conversation_error) (e : error) : bool :=
  match e with Conv s' _ => s == s' | _ => false end.

Definition isUniqueViolation (e : error) : bool :=
  match e with Pg UniqueViolation _ => true | _ => false end.

Definition isRetryableTxFailure (e : error) : bool :=
  match e with
  | Pg (SerializationFailure | DeadlockDetected | UniqueViolation) _ => true
  | _ => false
  end.

Definition transitionError (status eventType : string) : error :=
  Conv ErrInvalidTransition "%s cannot accept %s".

(** ** Transactions *)

(** What the code reads from outside the tables: the clock, uuid.NewString, and the
    transaction's now() of the database. *)
Record Env := {
  env_now : nat → time;
  env_uuid : nat → string;
  env_dbnow : time;
}.

Record TxState := {
  tx_db : DB;
  tx_failed : bool;
  tx_reads : nat;
}.

Definition Tx (A : Type) : Type := Env → TxState → TxState * (A + error).

#[global] Instance Tx_ret : MRet Tx := λ A a _ s, (s, inl a).
#[global] Instance Tx_bind : MBind Tx := λ A B f m env s,
  match m env s with
  | (s, inl a) => f a env s
  | (s, inr e) => (s, inr e)
  end.

Definition throw {A} (e : error) : Tx A := λ _ s, (s, inr e).

(** The error of a call as a value. *)
Definition catch {A} (m : Tx A) : Tx (A + error) := λ env s,
  let '(s, r) := m env s in (s, inl r).

(** [if cond { return err }] *)
Definition guard_tx (c : bool) (e : error) : Tx unit := if c then throw e else mret tt.

(** A check outside the tables. *)
Definition lift {A} (r : A + error) : Tx A := λ _ s, (s, r).

Definition time_Now : Tx time := λ env s,
  ({| s with tx_reads := S (tx_reads s) |}, inl (env_now env (tx_reads s))).
Definition NewString : Tx string := λ env s,
  ({| s with tx_reads := S (tx_reads s) |}, inl (env_uuid env (tx_reads s))).

(** [tx.Exec] and [tx.QueryRow], with the text of the error that wraps a failure. *)
Definition exec {A} (format : string) (stmt : statement A) : Tx A := λ _ s,
  if tx_failed s then (s, inr (Pg InFailedSQLTransaction format))
  else match stmt (tx_db s) with
       | inl (d, a) => ({| s with tx_db := d |}, inl a)
       | inr code => ({| s with tx_failed := true |}, inr (Pg code format))
       end.

Definition query {A} (format : string) (f : DB → A) : Tx A := exec format (λ d, inl (d, f d)).

(** A loop over a slice whose body may fail; the body's results are counted. *)
Fixpoint count_loop {A} (f : A → Tx bool) (l : list A) (n : Z) : Tx Z :=
  match l with
  | [] => mret n
  | a :: l => counted ← f a; count_loop f l (if counted : bool then (n + 1)%Z else n)
  end.

Definition withConversationTx {A} (operation : Tx A) (env : Env) (d : DB) : DB * (A + error) :=
  match operation env {| tx_db := d; tx_failed := false; tx_reads := 2 |} with
  | (s, inl a) =>
      if tx_failed s then (d, inr (Plain "agentos conversation: commit transaction: %w"))
      else (tx_db s, inl a)
  | (_, inr e) => (d, inr e)
  end.

(** A transaction inside the transaction: a savepoint that an error rolls back to. *)
Definition savepoint (m : Tx unit) : Tx unit := λ env s,
  if tx_failed s then (s, inr (Pg InFailedSQLTransaction "agentos conversation: projection savepoint: %w"))
  else match m env s with
       | (s', inr e) => ({| s' with tx_db := tx_db s; tx_failed := false |}, inr e)
       | (s', inl _) =>
           if tx_failed s'
           then (s', inr (Pg InFailedSQLTransaction "agentos conversation: projection savepoint commit: %w"))
           else (s', inl tt)
       end.

(** ** Requests *)

Definition invalid (format : string) : error := Conv ErrInvalidConversation format.

Definition normalizeStartSpec (env : Env) (s : StartConversationRunSpec) : StartConversationRunSpec :=
  let or_uuid id n := if TrimSpace id == "" then env_uuid env n else TrimSpace id in
  {| ss_RunID := or_uuid (ss_RunID s) 0;
     ss_ThreadID := TrimSpace (ss_ThreadID s);
     ss_ProcessID := TrimSpace (ss_ProcessID s);
     ss_AccountID := TrimSpace (ss_AccountID s);
     ss_ProjectID := TrimSpace (ss_ProjectID s);
     ss_MessageID := or_uuid (ss_MessageID s) 1;
     ss_UserMessage := ss_UserMessage s;
     ss_Attachments := ss_Attachments s;
     ss_MessageMetadata := Some (default ∅ (ss_MessageMetadata s));
     ss_RunMetadata := Some (default ∅ (ss_RunMetadata s));
     ss_Resume := (λ r, {| r with rs_InterruptID := TrimSpace (rs_InterruptID r) |}) <$> ss_Resume s;
     ss_IdempotencyKey := TrimSpace (ss_IdempotencyKey s);
     ss_RequestedAt := if time_is_zero (ss_RequestedAt s) then env_now env 0 else ss_RequestedAt s |}.

Definition validateStartSpec (s : StartConversationRunSpec) : unit + error :=
  if (ss_ThreadID s == "") || (ss_AccountID s == "") || (ss_ProjectID s == "") || (ss_IdempotencyKey s == "")
  then inr (invalid "thread, tenant, and idempotency key are required")
  else if (TrimSpace (ss_UserMessage s) == "") && (length (ss_Attachments s) =? 0)
  then inr (invalid "user message or attachment is required")
  else match ss_Resume s with
       | Some r => if rs_InterruptID r == "" then inr (invalid "resume interrupt ID is required") else inl tt
       | None => inl tt
       end.

Definition prepareStartSpec (env : Env) (spec : option StartConversationRunSpec) :
    StartConversationRunSpec + error :=
  match spec with
  | None => inr (invalid "start spec is required")
  | Some spec =>
      let prepared := normalizeStartSpec env spec in
      match validateStartSpec prepared with
      | inr e => inr e
      | inl _ => inl prepared
      end
  end.

Definition validateExternalConversationEvent (e : ExternalConversationEvent) : unit + error :=
  if (xe_ThreadID e == "") || (xe_RunID e == "") || (xe_AccountID e == "") || (xe_ProjectID e == "") ||
     (xe_SourceEventID e == "") || (xe_EventType e == "")
  then inr (invalid "event identity, tenant, and type are required")
  else if (xe_SourceSequence e <=? 0)%Z then inr (invalid "source sequence must be positive")
  else inl tt.

Definition prepareExternalEvent (env : Env) (event : option ExternalConversationEvent) :
    ExternalConversationEvent + error :=
  match event with
  | None => inr (invalid "event is required")
  | Some e =>
      let prepared := {|
        xe_ThreadID := TrimSpace (xe_ThreadID e);
        xe_RunID := TrimSpace (xe_RunID e);
        xe_ProcessID := TrimSpace (xe_ProcessID e);
        xe_AccountID := TrimSpace (xe_AccountID e);
        xe_ProjectID := TrimSpace (xe_ProjectID e);
        xe_SourceEventID := TrimSpace (xe_SourceEventID e);
        xe_SourceSequence := xe_SourceSequence e;
        xe_EventType := TrimSpace (xe_EventType e);
        xe_OccurredAt := if time_is_zero (xe_OccurredAt e) then env_now env 0 else xe_OccurredAt e;
        xe_Payload := Some (default ∅ (xe_Payload e)) |} in
      match validateExternalConversationEvent prepared with
      | inr err => inr err
      | inl _ => inl prepared
      end
  end.

Definition validateScope (threadID accountID projectID : string) : unit + error :=
  if (TrimSpace threadID == "") || (TrimSpace accountID == "") || (TrimSpace projectID == "")
  then inr (invalid "thread and tenant scope are required")
  else inl tt.

(** ** Documents *)

Definition enc_Attachment (a : Attachment) : json := JObject
  (field "file_id" (JString (att_FileID a)) ++
   field "filename" (JString (att_Filename a)) ++
   omit_int "size" (att_Size a) ++
   omit_string "mime_type" (att_MIMEType a) ++
   omit_map "metadata" enc_any (att_Metadata a)).

Definition enc_ConversationInterrupt (i : ConversationInterrupt) : json := JObject
  (field "interrupt_id" (JString (ci_InterruptID i)) ++
   field "type" (JString (ci_Type i)) ++
   field "prompt" (JString (ci_Prompt i)) ++
   omit_map "input_schema" enc_any (ci_InputSchema i) ++
   omit_map "metadata" enc_any (ci_Metadata i)).

(** A [map[string]any]: a nil map is allocated, entries are added. *)
Definition dec_any_map : decoder (go_map any) := λ j old,
  match j with
  | JNull => Ok None
  | JObject _ => Ok (Some (default ∅ (decode_map j) ∪ default ∅ old))
  | _ => Err err_unmarshal
  end.

(** [marshalJSON] of a value that is not a nil interface. *)
Definition marshalJSON (j : json) : option json := if supported j then Some j else None.

(** [jsonb ->> key] for a member that is a string or missing. *)
Definition json_text (j : json) (key : string) : option string :=
  match j with
  | JObject fields => match lookup_name (λ k, k == key) fields with Some (JString s) => Some s | _ => None end
  | _ => None
  end.

Section operations.
Context `{!RFC3339, !PgTime, !Collation, !SliceSort}.

Definition dec_Attachment : decoder Attachment := dec_struct [
  ("file_id", part dec_string att_FileID (λ v x, {| x with att_FileID := v |}));
  ("filename", part dec_string att_Filename (λ v x, {| x with att_Filename := v |}));
  ("size", part dec_int att_Size (λ v x, {| x with att_Size := v |}));
  ("mime_type", part dec_string att_MIMEType (λ v x, {| x with att_MIMEType := v |}));
  ("metadata", part dec_any_map att_Metadata (λ v x, {| x with att_Metadata := v |}))].

Definition dec_ConversationInterrupt : decoder ConversationInterrupt := dec_struct [
  ("interrupt_id", part dec_string ci_InterruptID (λ v x, {| x with ci_InterruptID := v |}));
  ("type", part dec_string ci_Type (λ v x, {| x with ci_Type := v |}));
  ("prompt", part dec_string ci_Prompt (λ v x, {| x with ci_Prompt := v |}));
  ("input_schema", part dec_any_map ci_InputSchema (λ v x, {| x with ci_InputSchema := v |}));
  ("metadata", part dec_any_map ci_Metadata (λ v x, {| x with ci_Metadata := v |}))].

Definition zero_Attachment : Attachment := {|
  att_FileID := ""; att_Filename := ""; att_Size := 0; att_MIMEType := ""; att_Metadata := None |}.
Definition zero_ConversationInterrupt : ConversationInterrupt := {|
  ci_InterruptID := ""; ci_Type := ""; ci_Prompt := ""; ci_InputSchema := None; ci_Metadata := None |}.

Definition stringValue (value : option any) : string :=
  match value with
  | Some (AString s) => TrimSpace s
  | Some (AValue (VTimeText t)) => TrimSpace (format_time t)
  | _ => ""
  end.

Definition stringPayload (payload : go_map any) (key : string) : string := stringValue (map_get payload key).

Definition mapValue (value : option any) : go_map any :=
  match value with Some (AMap m) => Some m | _ => None end.

Definition mapPayload (payload : go_map any) (key : string) : go_map any := mapValue (map_get payload key).

(** [payload["content"].(string)] *)
Definition contentPayload (payload : go_map any) : option string :=
  match map_get payload "content" with
  | Some (AString s) => Some s
  | Some (AValue (VTimeText t)) => Some (format_time t)
  | _ => None
  end.

(** ** Reading rows *)

Definition finishRunScan (run : ConversationRun) (interrupt : option json) (startedAt completedAt : option time) :
    ConversationRun := {| run with
  cr_Interrupt :=
    match interrupt with
    | None | Some JNull => None
    | Some j =>
        match dec_ConversationInterrupt j zero_ConversationInterrupt with
        | Ok i => Some i
        | Err _ => None
        end
    end;
  cr_StartedAt := default zero_time startedAt;
  cr_CompletedAt := default zero_time completedAt |}.

Definition scanRun (id : string) (r : RunRow) : ConversationRun :=
  finishRunScan
    {| cr_RunID := id; cr_ThreadID := rw_ThreadID r; cr_ProcessID := rw_ProcessID r;
       cr_AccountID := rw_AccountID r; cr_ProjectID := rw_ProjectID r; cr_Status := rw_Status r;
       cr_Outcome := rw_Outcome r; cr_Interrupt := None; cr_ErrorCode := rw_ErrorCode r;
       cr_Error := rw_ErrorMessage r; cr_CreatedAt := rw_CreatedAt r;
       cr_StartedAt := zero_time; cr_CompletedAt := zero_time |}
    (rw_Interrupt r) (rw_StartedAt r) (rw_CompletedAt r).

Definition scanEvent (thread : string) (sequence : Z) (e : EventRow) : ConversationEvent := {|
  ce_SchemaVersion := ConversationSchemaVersion;
  ce_EventID := er_EventID e;
  ce_ThreadID := thread;
  ce_RunID := er_RunID e;
  ce_ProcessID := er_ProcessID e;
  ce_Sequence := sequence;
  ce_SourceEventID := er_SourceEventID e;
  ce_SourceSequence := er_SourceSequence e;
  ce_EventType := er_EventType e;
  ce_OccurredAt := er_OccurredAt e;
  ce_Payload := decode_map (er_Payload e) |}.

Definition getRunByIdempotency (threadID key : string) : Tx (option ConversationRun) :=
  query "agentos conversation: read idempotent run: %w" (λ d,
    (λ kr, scanRun kr.1 kr.2) <$> run_with_key d threadID key).

Definition lockRun (runID : string) : Tx (ConversationRun * Z) :=
  found ← query "agentos conversation: lock run: %w" (λ d, runs d !! runID);
  match found with
  | None => throw (Conv ErrRunNotFound "")
  | Some r => mret (scanRun runID r, rw_LastSourceSequence r)
  end.

Definition eventBySource (threadID sourceEventID : string) : Tx (option ConversationEvent) :=
  query "agentos conversation: read source event: %w" (λ d,
    (λ kr, scanEvent kr.1.1 kr.1.2 kr.2) <$> event_with_source d threadID sourceEventID).

(** ** Starting runs *)

Definition ensureThread (threadID accountID projectID : string) (now : time) : Tx unit :=
  stored ← query "agentos conversation: lock thread: %w" (λ d, threads d !! threadID);
  match stored with
  | None =>
      exec "agentos conversation: insert thread: %w" (insert_thread threadID {|
        th_AccountID := accountID; th_ProjectID := projectID; th_NextSequence := 0;
        th_CreatedAt := pg_time now; th_UpdatedAt := pg_time now |})
  | Some t =>
      guard_tx ((th_AccountID t != accountID) || (th_ProjectID t != projectID)) (Conv ErrTenantMismatch "")
  end.

(** [ORDER BY completed_at DESC, created_at DESC]; a missing value comes first. *)
Definition completed_first (x y : RunRow) : Prop :=
  match rw_CompletedAt x, rw_CompletedAt y with
  | None, Some _ => True
  | Some _, None => False
  | None, None => (rw_CreatedAt y ≤ rw_CreatedAt x)%Z
  | Some a, Some b => (b < a)%Z ∨ (a = b ∧ (rw_CreatedAt y ≤ rw_CreatedAt x)%Z)
  end.

#[global] Instance completed_first_dec : RelDecision completed_first.
Proof. intros x y. unfold completed_first. destruct (rw_CompletedAt x), (rw_CompletedAt y); apply _. Defined.

(** An interrupted run that no run of the thread resumes. *)
Definition unresolved (d : DB) (thread : string) (r : RunRow) : bool :=
  (rw_ThreadID r == thread) && (rw_Status r == "interrupted") &&
  negb (bool_decide (map_Exists (λ _ x, rw_ThreadID x = thread ∧
    Some (rw_ResumeInterruptID x) = rw_Interrupt r ≫= λ j, json_text j "interrupt_id") (runs d))).

Definition latest_interrupt (d : DB) (thread : string) : option RunRow :=
  head (sort_slice completed_first (filter (λ r, unresolved d thread r = true) (map_to_list (runs d)).*2)).

Definition validateResume (spec : StartConversationRunSpec) : Tx unit :=
  found ← query "agentos conversation: read interrupt: %w" (λ d, latest_interrupt d (ss_ThreadID spec));
  match found with
  | None => guard_tx (bool_decide (is_Some (ss_Resume spec))) (Conv ErrInterruptMismatch "")
  | Some r =>
      match dec_ConversationInterrupt (default JUnsupported (rw_Interrupt r)) zero_ConversationInterrupt with
      | Err _ => throw (Plain "agentos conversation: decode interrupt: %w")
      | Ok interrupt =>
          match ss_Resume spec with
          | None => throw (Conv ErrInterruptRequired "")
          | Some resume => guard_tx (ci_InterruptID interrupt != rs_InterruptID resume) (Conv ErrInterruptMismatch "")
          end
      end
  end.

Definition prepareNewRun (spec : StartConversationRunSpec) : Tx (option ConversationRun) :=
  ensureThread (ss_ThreadID spec) (ss_AccountID spec) (ss_ProjectID spec) (ss_RequestedAt spec);;
  existing ← getRunByIdempotency (ss_ThreadID spec) (ss_IdempotencyKey spec);
  match existing with
  | Some run => mret (Some run)
  | None => validateResume spec;; mret None
  end.

Definition env_db_now : Tx time := λ env s, (s, inl (env_dbnow env)).

Definition insertConversationRun (spec : StartConversationRunSpec) : Tx bool :=
  match marshalJSON (enc_map enc_any (ss_RunMetadata spec)) with
  | None => throw (invalid "run metadata: %w")
  | Some metadata =>
      dbnow ← env_db_now;
      rows ← exec "agentos conversation: insert run: %w" (insert_run (ss_RunID spec) {|
        rw_ThreadID := ss_ThreadID spec; rw_ProcessID := ss_ProcessID spec;
        rw_AccountID := ss_AccountID spec; rw_ProjectID := ss_ProjectID spec;
        rw_Status := ConversationRunPending; rw_Outcome := ""; rw_Interrupt := None;
        rw_ErrorCode := ""; rw_ErrorMessage := ""; rw_IdempotencyKey := ss_IdempotencyKey spec;
        rw_ResumeInterruptID := from_option rs_InterruptID "" (ss_Resume spec);
        rw_Metadata := metadata; rw_LastSourceSequence := 0;
        rw_CreatedAt := pg_time (ss_RequestedAt spec); rw_StartedAt := None; rw_CompletedAt := None;
        rw_LastActivityAt := pg_time dbnow |});
      mret (rows == 1%Z)
  end.

Definition insertUserMessage (spec : StartConversationRunSpec) : Tx unit :=
  match marshalJSON (JArray (enc_Attachment <$> ss_Attachments spec)),
        marshalJSON (enc_map enc_any (ss_MessageMetadata spec)) with
  | None, _ => throw (invalid "attachments: %w")
  | _, None => throw (invalid "message metadata: %w")
  | Some attachments, Some metadata =>
      exec "agentos conversation: insert user message: %w" (insert_message (ss_MessageID spec) {|
        ms_ThreadID := ss_ThreadID spec; ms_RunID := ss_RunID spec; ms_ProcessID := ss_ProcessID spec;
        ms_Role := "user"; ms_Content := ss_UserMessage spec; ms_Status := "completed";
        ms_Attachments := attachments; ms_Metadata := metadata;
        ms_CreatedAt := pg_time (ss_RequestedAt spec);
        ms_CompletedAt := Some (pg_time (ss_RequestedAt spec)) |})
  end.

(** ** Events *)

(** [eventOutbox] is the setting of the runtime. *)
Definition enqueueEventOutbox (eventOutbox : bool) (threadID : string) (sequence : Z) : Tx unit :=
  if eventOutbox then
    exec "agentos conversation: enqueue event outbox: %w" (insert_outbox threadID sequence)
  else mret tt.

Definition appendEvent (eventOutbox : bool) (threadID runID processID sourceEventID : string) (sourceSequence : Z)
    (eventType : string) (occurredAt : time) (payload : go_map any) : Tx ConversationEvent :=
  allocated ← exec "agentos conversation: allocate sequence: %w" (allocate_sequence threadID (pg_time occurredAt));
  match allocated with
  | None => throw (Plain "agentos conversation: allocate sequence: %w")
  | Some sequence =>
      eventID ← NewString;
      match marshalJSON (enc_map enc_any payload) with
      | None => throw (invalid "event payload: %w")
      | Some encoded =>
          exec "agentos conversation: insert event: %w" (insert_event threadID sequence {|
            er_EventID := eventID; er_RunID := runID; er_ProcessID := processID;
            er_SourceEventID := sourceEventID; er_SourceSequence := sourceSequence;
            er_EventType := eventType; er_OccurredAt := pg_time occurredAt; er_Payload := encoded |});;
          enqueueEventOutbox eventOutbox threadID sequence;;
          mret {|
            ce_SchemaVersion := ConversationSchemaVersion; ce_EventID := eventID; ce_ThreadID := threadID;
            ce_RunID := runID; ce_ProcessID := processID; ce_Sequence := sequence;
            ce_SourceEventID := sourceEventID; ce_SourceSequence := sourceSequence;
            ce_EventType := eventType; ce_OccurredAt := occurredAt;
            ce_Payload := Some (default ∅ payload) |}
      end
  end.

Definition user_message_events (spec : StartConversationRunSpec) : list (string * gmap string any) :=
  [(ConversationEventTextMessageStart,
    {["message_id" := AString (ss_MessageID spec); "role" := AString "user"]});
   (ConversationEventTextMessageContent,
    {["message_id" := AString (ss_MessageID spec); "delta" := AString (ss_UserMessage spec)]});
   (ConversationEventTextMessageEnd,
    {["message_id" := AString (ss_MessageID spec); "role" := AString "user";
      "content" := AString (ss_UserMessage spec)]})].

Fixpoint append_all (eventOutbox : bool) (spec : StartConversationRunSpec) (l : list (string * gmap string any)) :
    Tx unit :=
  match l with
  | [] => mret tt
  | (typeName, payload) :: l =>
      appendEvent eventOutbox (ss_ThreadID spec) (ss_RunID spec) (ss_ProcessID spec) "" 0 typeName
        (ss_RequestedAt spec) (Some payload);;
      append_all eventOutbox spec l
  end.

Definition appendUserMessageEvents (eventOutbox : bool) (spec : StartConversationRunSpec) : Tx unit :=
  append_all eventOutbox spec (user_message_events spec).

Definition persistStartRun (eventOutbox : bool) (spec : StartConversationRunSpec) : Tx ConversationRun :=
  existing ← prepareNewRun spec;
  match existing with
  | Some run => mret run
  | None =>
      inserted ← insertConversationRun spec;
      if inserted : bool then
        insertUserMessage spec;;
        appendUserMessageEvents eventOutbox spec;;
        mret {|
          cr_RunID := ss_RunID spec; cr_ThreadID := ss_ThreadID spec; cr_ProcessID := ss_ProcessID spec;
          cr_AccountID := ss_AccountID spec; cr_ProjectID := ss_ProjectID spec;
          cr_Status := ConversationRunPending; cr_Outcome := ""; cr_Interrupt := None;
          cr_ErrorCode := ""; cr_Error := ""; cr_CreatedAt := ss_RequestedAt spec;
          cr_StartedAt := zero_time; cr_CompletedAt := zero_time |}
      else
        existing ← getRunByIdempotency (ss_ThreadID spec) (ss_IdempotencyKey spec);
        match existing with
        | None => throw (invalid "run %q is neither inserted nor readable")
        | Some run => mret run
        end
  end.

(** ** The projection of events *)

Definition project : string := "agentos conversation: project event: %w".

(** The owner, the thread and the status of a message. *)
Definition lookupMessage (messageID : string) : Tx (option (string * string * string)) :=
  query "agentos conversation: read message: %w" (λ d,
    (λ m, (ms_RunID m, ms_ThreadID m, ms_Status m)) <$> messages d !! messageID).

Definition replayedMessage (run : ConversationRun) (messageID : string) : Tx (option string) :=
  found ← lookupMessage messageID;
  match found with
  | None => mret None
  | Some (ownerRunID, threadID, status) =>
      if (threadID != cr_ThreadID run) || (ownerRunID == cr_RunID run) then mret None
      else mret (Some status)
  end.

Definition startMessage (run : ConversationRun) (event : ExternalConversationEvent) : Tx unit :=
  let messageID := stringPayload (xe_Payload event) "message_id" in
  let role := stringPayload (xe_Payload event) "role" in
  if (messageID == "") || ((role != "assistant") && (role != "system") && (role != "tool")) then
    throw (invalid "message start requires ID and valid role")
  else match marshalJSON (enc_map enc_any (mapPayload (xe_Payload event) "metadata")) with
  | None => throw (invalid "message metadata")
  | Some metadata =>
      rows ← exec project (insert_message_once messageID {|
        ms_ThreadID := cr_ThreadID run; ms_RunID := cr_RunID run; ms_ProcessID := cr_ProcessID run;
        ms_Role := role; ms_Content := ""; ms_Status := "streaming"; ms_Attachments := JArray [];
        ms_Metadata := metadata; ms_CreatedAt := pg_time (xe_OccurredAt event); ms_CompletedAt := None |});
      if rows == 1%Z then mret tt
      else
        replayed ← replayedMessage run messageID;
        guard_tx (negb (bool_decide (is_Some replayed))) (Conv ErrInvalidTransition "duplicate message start")
  end.

Definition appendMessageContent (run : ConversationRun) (event : ExternalConversationEvent) : Tx unit :=
  let messageID := stringPayload (xe_Payload event) "message_id" in
  let delta := stringPayload (xe_Payload event) "delta" in
  if (messageID == "") || (delta == "") then
    throw (invalid "message content requires ID and delta")
  else
    rows ← exec project (update_message messageID (λ m, ms_RunID m == cr_RunID run)
             (λ m, {| m with ms_Content := ms_Content m +:+ delta |}));
    if rows == 1%Z then mret tt
    else
      replayed ← replayedMessage run messageID;
      guard_tx (negb (bool_decide (is_Some replayed)))
        (Conv ErrInvalidTransition "message content without active message").

(** The columns that closing a message sets. *)
Definition close_message (content : option string) (at_ : time) (m : MessageRow) : MessageRow :=
  {| m with ms_Content := default (ms_Content m) content; ms_Status := "completed";
            ms_CompletedAt := Some (pg_time at_) |}.

Definition completeReplayedMessage (event : ExternalConversationEvent) (messageID status : string) : Tx unit :=
  if status != "streaming" then mret tt
  else
    exec project (update_message messageID (λ _, true)
      (close_message (contentPayload (xe_Payload event)) (xe_OccurredAt event)));;
    mret tt.

Definition endMessage (run : ConversationRun) (event : ExternalConversationEvent) : Tx unit :=
  let messageID := stringPayload (xe_Payload event) "message_id" in
  if messageID == "" then throw (invalid "message end requires ID")
  else
    rows ← exec project (update_message messageID (λ m, ms_RunID m == cr_RunID run)
             (close_message (contentPayload (xe_Payload event)) (xe_OccurredAt event)));
    if rows == 1%Z then mret tt
    else
      replayed ← replayedMessage run messageID;
      match replayed with
      | Some status => completeReplayedMessage event messageID status
      | None => throw (Conv ErrInvalidTransition "message end without active message")
      end.

(** An assistant message of the run is complete. *)
Definition completed_assistant (d : DB) (runID : string) : bool :=
  bool_decide (map_Exists (λ _ m, ms_RunID m = runID ∧ ms_Role m = "assistant" ∧ ms_Status m = "completed")
                 (messages d)).

Definition prepareInterrupt (runID : string) (payload : go_map any) : Tx json :=
  let interruptMap := mapPayload payload "interrupt" in
  let interrupt := {|
    ci_InterruptID := stringValue (map_get interruptMap "interrupt_id");
    ci_Type := stringValue (map_get interruptMap "type");
    ci_Prompt := stringValue (map_get interruptMap "prompt");
    ci_InputSchema := mapValue (map_get interruptMap "input_schema");
    ci_Metadata := mapValue (map_get interruptMap "metadata") |} in
  if (ci_InterruptID interrupt == "") || (ci_Type interrupt == "") || (ci_Prompt interrupt == "") then
    throw (invalid "interrupt identity, type, and prompt are required")
  else
    completedAssistant ← query project (λ d, completed_assistant d runID);
    if negb completedAssistant then
      throw (Conv ErrInvalidTransition "interrupt requires a completed assistant message")
    else match marshalJSON (enc_ConversationInterrupt interrupt) with
         | None => throw (invalid "interrupt payload")
         | Some encoded => mret encoded
         end.

(** [UPDATE ... SET status, outcome, interrupt, completed_at, error_code, error_message] *)
Definition finish_row (status outcome : string) (interrupt : option json) (at_ : time)
    (errorCode errorMessage : string) (r : RunRow) : RunRow :=
  {| r with rw_Status := status; rw_Outcome := outcome; rw_Interrupt := interrupt;
            rw_CompletedAt := Some (pg_time at_); rw_ErrorCode := errorCode; rw_ErrorMessage := errorMessage |}.

Definition finishRun (run : ConversationRun) (event : ExternalConversationEvent) : Tx unit :=
  let outcome := stringPayload (xe_Payload event) "outcome" in
  let finish status interrupt errorCode errorMessage :=
    exec project (update_run (cr_RunID run)
      (finish_row status outcome interrupt (xe_OccurredAt event) errorCode errorMessage)) in
  if outcome == ConversationOutcomeNormal then finish ConversationRunCompleted None "" ""
  else if outcome == ConversationOutcomeCanceled then finish ConversationRunCanceled None "" ""
  else if outcome == ConversationOutcomeInterrupt then
    encoded ← prepareInterrupt (cr_RunID run) (xe_Payload event);
    finish ConversationRunInterrupted (Some encoded) "" ""
  else if outcome == ConversationOutcomeAbandoned then
    let reason := stringPayload (xe_Payload event) "termination_reason" in
    finish ConversationRunError None "lease_expired"
      (if reason == "" then "run abandoned: no activity within its lease" else reason)
  else throw (invalid "unsupported run outcome %q").

Definition requireRunStatus (run : ConversationRun) (event : ExternalConversationEvent) (status : string) : Tx unit :=
  guard_tx (cr_Status run != status) (transitionError (cr_Status run) (xe_EventType event)).

Definition start_row (at_ : time) (r : RunRow) : RunRow :=
  {| r with rw_Status := "running"; rw_StartedAt := Some (pg_time at_) |}.

Definition error_row (code message : string) (at_ : time) (r : RunRow) : RunRow :=
  {| r with rw_Status := "error"; rw_ErrorCode := code; rw_ErrorMessage := message;
            rw_CompletedAt := Some (pg_time at_) |}.

Definition applyEventProjection (run : ConversationRun) (event : ExternalConversationEvent) : Tx unit :=
  if xe_EventType event == ConversationEventRunStarted then
    requireRunStatus run event ConversationRunPending;;
    r ← catch (exec project (update_run (cr_RunID run) (start_row (xe_OccurredAt event))));
    match r with
    | inl _ => mret tt
    | inr e => throw (if isUniqueViolation e then Conv ErrRunAlreadyActive "" else e)
    end
  else if xe_EventType event == ConversationEventRunError then
    guard_tx ((cr_Status run != ConversationRunPending) && (cr_Status run != ConversationRunRunning))
      (transitionError (cr_Status run) (xe_EventType event));;
    exec project (update_run (cr_RunID run)
      (error_row (stringPayload (xe_Payload event) "code") (stringPayload (xe_Payload event) "message")
         (xe_OccurredAt event)))
  else
    let handler :=
      if xe_EventType event == ConversationEventTextMessageStart then Some startMessage
      else if xe_EventType event == ConversationEventTextMessageContent then Some appendMessageContent
      else if xe_EventType event == ConversationEventTextMessageEnd then Some endMessage
      else if xe_EventType event == ConversationEventRunFinished then Some finishRun
      else None in
    match handler with
    | None => mret tt
    | Some handler => requireRunStatus run event ConversationRunRunning;; handler run event
    end.

Definition applyEventProjectionIsolated (run : ConversationRun) (event : ExternalConversationEvent) : Tx unit :=
  savepoint (applyEventProjection run event).

(** ** Ingesting events *)

Definition validateEventRunScope (run : ConversationRun) (event : ExternalConversationEvent) : unit + error :=
  if (cr_ThreadID run != xe_ThreadID event) || (cr_AccountID run != xe_AccountID event) ||
     (cr_ProjectID run != xe_ProjectID event)
  then inr (Conv ErrTenantMismatch "")
  else if (xe_ProcessID event != "") && (cr_ProcessID run != "") && (xe_ProcessID event != cr_ProcessID run)
  then inr (invalid "process ID does not match")
  else inl tt.

(** The run of the event, and the stored event when the delivery is not new. *)
Definition admitEvent (event : ExternalConversationEvent) : Tx (ConversationRun * option ConversationEvent) :=
  '(run, lastSourceSequence) ← lockRun (xe_RunID event);
  lift (validateEventRunScope run event);;
  existing ← eventBySource (xe_ThreadID event) (xe_SourceEventID event);
  match existing with
  | Some stored => mret (run, Some stored)
  | None =>
      guard_tx (xe_SourceSequence event <=? lastSourceSequence)%Z
        (Conv ErrOutOfOrderSourceEvent "got %d after %d");;
      mret (run, None)
  end.

Definition projectionIsParked (event : ExternalConversationEvent) (projectionErr : error) : bool :=
  (xe_EventType event == ConversationEventRunStarted) && is_conv ErrRunAlreadyActive projectionErr.

Definition deferProjection (threadID : string) (sequence : Z) (runID eventType : string) : Tx unit :=
  exec "agentos conversation: defer projection: %w" (insert_deferred threadID sequence {|
    df_RunID := runID; df_EventType := eventType; df_Attempts := 0 |}).

Definition advance_row (event : ExternalConversationEvent) (r : RunRow) : RunRow :=
  {| r with rw_LastSourceSequence := xe_SourceSequence event;
            rw_LastActivityAt := pg_time (xe_OccurredAt event) |}.

Definition advanceRunCursor (event : ExternalConversationEvent) : Tx unit :=
  exec "agentos conversation: update source cursor: %w" (update_run (xe_RunID event) (advance_row event)).

(** What follows the guards for a new event. *)
Definition record_event (eventOutbox : bool) (run : ConversationRun) (event : ExternalConversationEvent) :
    Tx ConversationEvent :=
  projection ← catch (applyEventProjectionIsolated run event);
  let parked := match projection with inr e => projectionIsParked event e | inl _ => false end in
  match projection, parked with
  | inr e, false => throw e
  | _, _ =>
      stored ← appendEvent eventOutbox (xe_ThreadID event) (xe_RunID event) (cr_ProcessID run)
                 (xe_SourceEventID event) (xe_SourceSequence event) (xe_EventType event)
                 (xe_OccurredAt event) (xe_Payload event);
      (if parked then deferProjection (xe_ThreadID event) (ce_Sequence stored) (xe_RunID event) (xe_EventType event)
       else mret tt);;
      advanceRunCursor event;;
      mret stored
  end.

Definition persistEvent (eventOutbox : bool) (event : ExternalConversationEvent) : Tx ConversationEvent :=
  '(run, replayed) ← admitEvent event;
  match replayed with
  | Some stored => mret stored
  | None => record_event eventOutbox run event
  end.

(** ** Requests *)

(** What happens to one attempt of a transaction: it runs, Postgres aborts it, or the
    connection is lost before or after it commits. *)
Inductive fate :=
  | Runs
  | Aborts (code : sqlstate)
  | Loses (committed : bool).

Definition attempt_tx {A} (f : fate) (operation : Tx A) (env : Env) (d : DB) : DB * (A + error) :=
  match f with
  | Runs => withConversationTx operation env d
  | Aborts code => (d, inr (Pg code "agentos conversation: commit transaction: %w"))
  | Loses committed =>
      (if committed then (withConversationTx operation env d).1 else d,
       inr (Plain "agentos conversation: commit transaction: %w"))
  end.

(** The surroundings of a request: the readings and the fate of each attempt, what other
    transactions do before it, and whether the context ends in the pause after it. *)
Record Weather := {
  w_env : nat → Env;
  w_fate : nat → fate;
  w_others : nat → DB → DB;
  w_canceled : nat → bool;
}.

Definition conversationTxRetries : nat := 3.

(** The loop of [retrySerializable]: [more] replays are allowed after attempt [n]. *)
Fixpoint retry_from {A} (w : Weather) (operation : Tx A) (more n : nat) (d : DB) : DB * (A + error) :=
  match attempt_tx (w_fate w n) operation (w_env w n) (w_others w n d) with
  | (d, inl a) => (d, inl a)
  | (d, inr e) =>
      if negb (isRetryableTxFailure e) then (d, inr e)
      else match more with
           | 0 => (d, inr e)
           | S more => if w_canceled w n then (d, inr e) else retry_from w operation more (S n) d
           end
  end.

Definition persistConversationChange {A} (w : Weather) (operation : Tx A) (d : DB) : DB * (A + error) :=
  retry_from w operation conversationTxRetries 0 d.

Definition StartRun (eventOutbox : bool) (w : Weather) (spec : option StartConversationRunSpec) (d : DB) :
    DB * (ConversationRun + error) :=
  match prepareStartSpec (w_env w 0) spec with
  | inr e => (d, inr e)
  | inl prepared => persistConversationChange w (persistStartRun eventOutbox prepared) d
  end.

Definition IngestEvent (eventOutbox : bool) (w : Weather) (incoming : option ExternalConversationEvent) (d : DB) :
    DB * (ConversationEvent + error) :=
  match prepareExternalEvent (w_env w 0) incoming with
  | inr e => (d, inr e)
  | inl event => persistConversationChange w (persistEvent eventOutbox event) d
  end.

(** ** Snapshots *)

Definition message_le (x y : string * MessageRow) : Prop :=
  (ms_CreatedAt x.2 < ms_CreatedAt y.2)%Z ∨ (ms_CreatedAt x.2 = ms_CreatedAt y.2 ∧ text_le x.1 y.1).
Definition run_le (x y : string * RunRow) : Prop :=
  (rw_CreatedAt x.2 < rw_CreatedAt y.2)%Z ∨ (rw_CreatedAt x.2 = rw_CreatedAt y.2 ∧ text_le x.1 y.1).
Definition event_le (x y : Z * EventRow) : Prop := (x.1 ≤ y.1)%Z.

#[global] Instance message_le_dec : RelDecision message_le.
Proof. intros x y. unfold message_le. apply _. Defined.
#[global] Instance run_le_dec : RelDecision run_le.
Proof. intros x y. unfold run_le. apply _. Defined.
#[global] Instance event_le_dec : RelDecision event_le.
Proof. intros x y. unfold event_le. apply _. Defined.

(** The message of a row; an error when a document does not decode. *)
Definition scan_message (id : string) (m : MessageRow) : ConversationMessage + error :=
  match dec_slice zero_Attachment dec_Attachment (ms_Attachments m) [],
        dec_any_map (ms_Metadata m) None with
  | Err _, _ => inr (Plain "agentos conversation: decode message attachments: %w")
  | _, Err _ => inr (Plain "agentos conversation: decode message metadata: %w")
  | Ok attachments, Ok metadata => inl {|
      cm_MessageID := id; cm_ThreadID := ms_ThreadID m; cm_RunID := ms_RunID m; cm_ProcessID := ms_ProcessID m;
      cm_Role := ms_Role m; cm_Content := ms_Content m; cm_Status := ms_Status m;
      cm_Attachments := attachments; cm_Metadata := metadata; cm_CreatedAt := ms_CreatedAt m;
      cm_CompletedAt := default zero_time (ms_CompletedAt m) |}
  end.

Fixpoint scan_messages (l : list (string * MessageRow)) : list ConversationMessage + error :=
  match l with
  | [] => inl []
  | (id, m) :: l =>
      match scan_message id m, scan_messages l with
      | inr e, _ | _, inr e => inr e
      | inl x, inl xs => inl (x :: xs)
      end
  end.

Definition listMessages (threadID : string) : Tx (list ConversationMessage) :=
  rows ← query "agentos conversation: list messages: %w" (λ d,
    sort_slice message_le (filter (λ kr, ms_ThreadID kr.2 = threadID) (map_to_list (messages d))));
  lift (scan_messages rows).

Definition listRuns (threadID : string) : Tx (list ConversationRun) :=
  query "agentos conversation: list runs: %w" (λ d,
    (λ kr, scanRun kr.1 kr.2) <$>
      sort_slice run_le (filter (λ kr, rw_ThreadID kr.2 = threadID) (map_to_list (runs d)))).

(** The events of a thread in the order of their sequence. *)
Definition thread_events (d : DB) (thread : string) : list (Z * EventRow) :=
  sort_slice event_le
    ((λ kr, (kr.1.2, kr.2)) <$> filter (λ kr, kr.1.1 = thread) (map_to_list (events d))).

Definition scanEvents (thread : string) (l : list (Z * EventRow)) : list ConversationEvent :=
  (λ ke, scanEvent thread ke.1 ke.2) <$> l.

(** The last [limit] events, in ascending order. *)
Definition listRecentEvents (threadID : string) (limit : Z) : Tx (list ConversationEvent) :=
  query "agentos conversation: list events: %w" (λ d,
    scanEvents threadID (reverse (take (Z.to_nat limit) (reverse (thread_events d threadID))))).

Definition loadThreadSnapshot (scope : ThreadScope) : Tx ThreadSnapshot :=
  found ← query "agentos conversation: read thread: %w" (λ d, threads d !! ts_ThreadID scope);
  match found with
  | Some t =>
      if (th_AccountID t == ts_AccountID scope) && (th_ProjectID t == ts_ProjectID scope) then
        messages ← listMessages (ts_ThreadID scope);
        runs ← listRuns (ts_ThreadID scope);
        let limit := if ((ts_EventLimit scope <=? 0) || (1000 <? ts_EventLimit scope))%Z then 200%Z
                     else ts_EventLimit scope in
        events ← listRecentEvents (ts_ThreadID scope) limit;
        mret {|
          sn_SchemaVersion := ConversationSchemaVersion; sn_ThreadID := ts_ThreadID scope;
          sn_AccountID := ts_AccountID scope; sn_ProjectID := ts_ProjectID scope;
          sn_Messages := messages; sn_Runs := runs; sn_Events := events;
          sn_Cursor := th_NextSequence t; sn_UpdatedAt := th_UpdatedAt t |}
      else throw (Conv ErrThreadNotFound "")
  | None => throw (Conv ErrThreadNotFound "")
  end.

Definition GetThreadSnapshot (env : Env) (scope : ThreadScope) (d : DB) : ThreadSnapshot + error :=
  match validateScope (ts_ThreadID scope) (ts_AccountID scope) (ts_ProjectID scope) with
  | inr e => inr e
  | inl _ => (withConversationTx (loadThreadSnapshot scope) env d).2
  end.

(** ** Sweeps *)

Definition abandonedRunBatch : nat := 32.

Definition abandonedSourceEventID (runID : string) : string := "lease-expired:" +:+ runID.

Definition activity_le (x y : string * RunRow) : Prop := (rw_LastActivityAt x.2 ≤ rw_LastActivityAt y.2)%Z.

#[global] Instance activity_le_dec : RelDecision activity_le.
Proof. intros x y. unfold activity_le. apply _. Defined.

(** The columns of an expired run that the sweep selects. *)
Definition expired_run (kr : string * RunRow) : ConversationRun := {|
  cr_RunID := kr.1; cr_ThreadID := rw_ThreadID kr.2; cr_ProcessID := rw_ProcessID kr.2;
  cr_AccountID := rw_AccountID kr.2; cr_ProjectID := rw_ProjectID kr.2; cr_Status := ""; cr_Outcome := "";
  cr_Interrupt := None; cr_ErrorCode := ""; cr_Error := ""; cr_CreatedAt := zero_time;
  cr_StartedAt := zero_time; cr_CompletedAt := zero_time |}.

Definition expired_before (d : DB) (cutoff : time) : list (string * RunRow) :=
  sort_slice activity_le
    (filter (λ kr, rw_Status kr.2 = "running" ∧ (rw_LastActivityAt kr.2 < cutoff)%Z) (map_to_list (runs d))).

Definition expiredRunningRuns (lease : Z) (limit : nat) : Tx (list ConversationRun) :=
  now ← time_Now;
  query "agentos conversation: select expired runs: %w" (λ d,
    expired_run <$> take limit (expired_before d (pg_time (time_add now (- lease))))).

(** The fact that ends an abandoned run. *)
Definition abandonment (run : ConversationRun) (lastSourceSequence : Z) (now : time) : ExternalConversationEvent := {|
  xe_ThreadID := cr_ThreadID run; xe_RunID := cr_RunID run; xe_ProcessID := cr_ProcessID run;
  xe_AccountID := cr_AccountID run; xe_ProjectID := cr_ProjectID run;
  xe_SourceEventID := abandonedSourceEventID (cr_RunID run);
  xe_SourceSequence := int64 (lastSourceSequence + 1);
  xe_EventType := ConversationEventRunFinished; xe_OccurredAt := now;
  xe_Payload := Some {["outcome" := AString ConversationOutcomeAbandoned;
                       "termination_reason" := AString "lease_expired"]} |}.

Definition abandonRun (eventOutbox : bool) (run : ConversationRun) : Tx unit :=
  '(_, lastSourceSequence) ← lockRun (cr_RunID run);
  found ← query "agentos conversation: reread run status: %w" (λ d, rw_Status <$> runs d !! cr_RunID run);
  match found with
  | None => throw (Plain "agentos conversation: reread run status: %w")
  | Some status =>
      if status != ConversationRunRunning then mret tt
      else
        now ← time_Now;
        persistEvent eventOutbox (abandonment run lastSourceSequence now);;
        mret tt
  end.

Definition abandon_expired (eventOutbox : bool) (lease : Z) : Tx Z :=
  expired ← expiredRunningRuns lease abandonedRunBatch;
  count_loop (λ run, abandonRun eventOutbox run;; mret true) expired 0.

Definition abandonExpiredRuns (eventOutbox : bool) (lease : Z) (env : Env) (d : DB) : DB * (Z + error) :=
  withConversationTx (abandon_expired eventOutbox lease) env d.

Record deferredProjection := {
  dp_threadID : string;
  dp_sequence : Z;
  dp_runID : string;
  dp_eventType : string;
}.

Definition deferred_le (x y : deferredProjection) : Prop :=
  if decide (dp_threadID x = dp_threadID y) then (dp_sequence x ≤ dp_sequence y)%Z
  else text_le (dp_threadID x) (dp_threadID y).

#[global] Instance deferred_le_dec : RelDecision deferred_le.
Proof. intros x y. unfold deferred_le. destruct (decide _); apply _. Defined.

Definition thread_running (d : DB) (thread : string) : bool :=
  bool_decide (map_Exists (λ _ r, rw_ThreadID r = thread ∧ rw_Status r = "running") (runs d)).

Definition waiting_projections (d : DB) : list deferredProjection :=
  sort_slice deferred_le
    (omap (λ kr, if thread_running d kr.1.1 then None
                 else Some {| dp_threadID := kr.1.1; dp_sequence := kr.1.2; dp_runID := df_RunID kr.2;
                              dp_eventType := df_EventType kr.2 |})
       (map_to_list (deferred d))).

Definition nextDeferredProjections (limit : nat) : Tx (list deferredProjection) :=
  query "agentos conversation: select deferred projections: %w" (λ d, take limit (waiting_projections d)).

Definition storedEvent (threadID : string) (sequence : Z) : Tx (option ExternalConversationEvent) :=
  query "agentos conversation: load deferred event: %w" (λ d,
    (λ e, {|
       xe_ThreadID := threadID; xe_RunID := er_RunID e; xe_ProcessID := er_ProcessID e;
       xe_AccountID := ""; xe_ProjectID := ""; xe_SourceEventID := er_SourceEventID e;
       xe_SourceSequence := er_SourceSequence e; xe_EventType := er_EventType e;
       xe_OccurredAt := er_OccurredAt e; xe_Payload := decode_map (er_Payload e) |})
      <$> events d !! (threadID, sequence)).

Definition recordDeferredAttempt (entry : deferredProjection) : Tx unit :=
  exec "agentos conversation: record deferred attempt: %w"
    (update_deferred (dp_threadID entry) (dp_sequence entry)
       (λ r, {| r with df_Attempts := (df_Attempts r + 1)%Z |})).

Definition applyDeferredProjection (entry : deferredProjection) : Tx bool :=
  '(run, _) ← lockRun (dp_runID entry);
  found ← storedEvent (dp_threadID entry) (dp_sequence entry);
  match found with
  | None => mret false
  | Some event =>
      r ← catch (applyEventProjection run event);
      match r with
      | inr e => if is_conv ErrRunAlreadyActive e then recordDeferredAttempt entry;; mret false else throw e
      | inl _ =>
          exec "agentos conversation: clear deferred projection: %w"
            (delete_deferred (dp_threadID entry) (dp_sequence entry));;
          mret true
      end
  end.

Definition apply_deferred : Tx Z :=
  entries ← nextDeferredProjections abandonedRunBatch;
  count_loop applyDeferredProjection entries 0.

Definition applyDeferredProjections (env : Env) (d : DB) : DB * (Z + error) :=
  withConversationTx apply_deferred env d.

(** The abandoned runs, the applied projections and the error. *)
Definition sweepOnce (eventOutbox : bool) (lease : Z) (env1 env2 : Env) (d : DB) :
    DB * (Z * Z * option error) :=
  match abandonExpiredRuns eventOutbox lease env1 d with
  | (d, inr e) => (d, (0%Z, 0%Z, Some e))
  | (d, inl abandoned) =>
      match applyDeferredProjections env2 d with
      | (d, inr e) => (d, (abandoned, 0%Z, Some e))
      | (d, inl projected) => (d, (abandoned, projected, None))
      end
  end.

(** ** Subscriptions *)

Definition toCoreEvent (event : ConversationEvent) : Event := {|
  e_EventID := ce_EventID event; e_EventType := ce_EventType event; e_RunID := ce_RunID event;
  e_ProcessID := ce_ProcessID event; e_ThreadID := ce_ThreadID event; e_Sequence := ce_Sequence event;
  e_Timestamp := ce_OccurredAt event; e_Source := "agentos.conversation";
  e_Payload := Some
    (<["source_sequence" := ANum (pretty (ce_SourceSequence event))]>
    (<["source_event_id" := AString (ce_SourceEventID event)]>
    (<["schema_version" := AString (ce_SchemaVersion event)]> (default ∅ (ce_Payload event))))) |}.

(** The rows of a page: at most [limit] events after a sequence. *)
Definition events_after (d : DB) (thread : string) (after limit : Z) : list (Z * EventRow) :=
  take (Z.to_nat limit) (filter (λ ke, (after < ke.1)%Z) (thread_events d thread)).

Definition listEventsAfter (d : DB) (thread : string) (after limit : Z) : list ConversationEvent :=
  scanEvents thread (events_after d thread after limit).

Definition conversationEventBatch : Z := 256.

(** What the goroutine of a subscription meets: a listing or its failure, whether the
    context has ended, a send that is taken or not, and a tick or the end of the context. *)
Inductive stream_op :=
  | SList (after : Z)
  | SContextErr
  | SSend (event : Event)
  | SWait.

#[global] Instance stream_calls : Calls stream_op := {|
  reply o := match o with SList _ => option (list ConversationEvent) | _ => bool end |}.

(** [for i := range events]: the cursor, or [None] when the subscriber is gone. *)
Fixpoint send_events (cursor : Z) (l : list ConversationEvent) : calls stream_op (Z * bool) :=
  match l with
  | [] => mret (cursor, true)
  | event :: l =>
      if (ce_Sequence event <=? cursor)%Z then send_events cursor l
      else
        taken ← ask (SSend (toCoreEvent event));
        if taken : bool then send_events (ce_Sequence event) l else mret (cursor, false)
  end.

(** Pages are read until one is not full; the environment decides how many there are. *)
Fixpoint catchUpConversationEvents (fuel : nat) (cursor : Z) : calls stream_op (Z * bool) :=
  match fuel with
  | 0 => mret (cursor, false)
  | S fuel =>
      page ← ask (SList cursor);
      match page with
      | None => ended ← ask SContextErr; mret (cursor, negb ended)
      | Some events =>
          '(cursor, open) ← send_events cursor events;
          if negb open then mret (cursor, false)
          else if (Z.of_nat (length events) <? conversationEventBatch)%Z then mret (cursor, true)
          else catchUpConversationEvents fuel cursor
      end
  end.

(** The polling loop: [SWait] answers true for a tick. *)
Fixpoint poll_loop (fuel : nat) (cursor : Z) : calls stream_op Z :=
  match fuel with
  | 0 => mret cursor
  | S fuel =>
      tick ← ask SWait;
      if negb tick then mret cursor
      else
        '(cursor, open) ← catchUpConversationEvents fuel cursor;
        if negb open then mret cursor else poll_loop fuel cursor
  end.

Definition streamSubscription (fuel : nat) (scope : ThreadStreamScope) : calls stream_op Z :=
  '(cursor, open) ← catchUpConversationEvents fuel (tss_AfterSequence scope);
  if negb open then mret cursor else poll_loop fuel cursor.

(** The checks of [SubscribeThread]; the goroutine is [streamSubscription]. *)
Definition SubscribeThread (scope : ThreadStreamScope) (d : DB) : unit + error :=
  match validateScope (tss_ThreadID scope) (tss_AccountID scope) (tss_ProjectID scope) with
  | inr e => inr e
  | inl _ =>
      match threads d !! tss_ThreadID scope with
      | Some t =>
          if (th_AccountID t == tss_AccountID scope) && (th_ProjectID t == tss_ProjectID scope) then inl tt
          else inr (Conv ErrThreadNotFound "")
      | None => inr (Conv ErrThreadNotFound "")
      end
  end.
End operations.
End conversation.
