(* ===== verification/ConversationSpec.v ===== *)
(** * What the tables of a conversation say

    The invariant of the tables under all requests and sweeps, and the theorems on ingestion,
    admission and the life of runs.  [tri d m Q]: from tables [d], the transaction code [m]
    fails or ends without a failed statement, with a result and tables that satisfy [Q]. *)

From S2P Require Import Prelude Types Json Decode Calls ConversationDB GoStrings Conversation.
Import conversationdb conversation.

(** ** A logic for transactions *)

Definition tx_at (d : DB) (n : nat) : TxState := {| tx_db := d; tx_failed := false; tx_reads := n |}.

Definition tri {A} (d : DB) (m : Tx A) (Q : A → DB → Prop) : Prop :=
  ∀ env n, match m env (tx_at d n) with
           | (s, inl a) => tx_failed s = false ∧ Q a (tx_db s)
           | (_, inr _) => True
           end.

Section logic.
Context {A B : Type}.

Lemma tri_ret d (a : A) (Q : A → DB → Prop) : Q a d → tri d (mret a) Q.
Proof. by intros ? env n. Qed.

Lemma tri_throw d e (Q : A → DB → Prop) : tri d (throw e) Q.
Proof. by intros env n. Qed.

Lemma tri_mono d (m : Tx A) (Q R : A → DB → Prop) :
  tri d m Q → (∀ a d', Q a d' → R a d') → tri d m R.
Proof. intros Hm HQ env n. specialize (Hm env n). destruct (m env _) as [s [a|e]]; naive_solver. Qed.

Lemma tri_bind d (m : Tx A) (f : A → Tx B) Q :
  tri d m (λ a d', tri d' (f a) Q) → tri d (m ≫= f) Q.
Proof.
  intros Hm env n. unfold mbind, Tx_bind. specialize (Hm env n).
  destruct (m env _) as [[d' failed reads] [a|e]]; [|done]. destruct Hm as [Hf Hm]. cbn in *. subst.
  exact (Hm env reads).
Qed.

Lemma tri_exec d format (stmt : statement A) Q :
  (∀ d' a, stmt d = inl (d', a) → Q a d') → tri d (exec format stmt) Q.
Proof. intros HQ env n. unfold exec. cbn. destruct (stmt d) as [[d' a]|code] eqn:Hs; [|done]. auto. Qed.

Lemma tri_query d format (f : DB → A) Q : Q (f d) d → tri d (query format f) Q.
Proof. intros HQ. apply tri_exec. by intros d' a [= <- <-]. Qed.

Lemma tri_lift d (r : A + error) Q : (∀ a, r = inl a → Q a d) → tri d (lift r) Q.
Proof. intros HQ env n. unfold lift. destruct r; [|done]. auto. Qed.

Lemma tri_catch_savepoint d (m : Tx unit) (Q : unit + error → DB → Prop) :
  tri d m (λ u d', Q (inl u) d') → (∀ e, Q (inr e) d) → tri d (catch (savepoint m)) Q.
Proof.
  intros Hm He env n. unfold catch, savepoint. cbn. specialize (Hm env n).
  destruct (m env _) as [[d' failed reads] [[]|e]]; cbn in *; [|by auto].
  destruct Hm as [-> Hm]. cbn. auto.
Qed.
End logic.

Lemma tri_guard d c e Q : (c = false → Q tt d) → tri d (guard_tx c e) Q.
Proof. intros HQ. destruct c; [apply tri_throw|]. apply tri_ret. auto. Qed.

Lemma tri_now d Q : (∀ t, Q t d) → tri d time_Now Q.
Proof. by intros HQ env n. Qed.

Lemma tri_uuid d Q : (∀ u, Q u d) → tri d NewString Q.
Proof. by intros HQ env n. Qed.

Lemma tri_db_now d Q : (∀ t, Q t d) → tri d env_db_now Q.
Proof. by intros HQ env n. Qed.

(** A transaction commits what its code did, or changes nothing. *)
Lemma committed {A} (m : Tx A) env d Q :
  tri d m Q →
  match withConversationTx m env d with
  | (d', inl a) => Q a d'
  | (d', inr _) => d' = d
  end.
Proof.
  intros Hm. unfold withConversationTx. specialize (Hm env 2). unfold tx_at in Hm.
  destruct (m env _) as [s [a|e]]; [|done]. destruct Hm as [-> HQ]. done.
Qed.

(** One step of a proof about transaction code. *)
Ltac tx_step :=
  lazymatch goal with
  | |- tri _ (_ ≫= _) _ => apply tri_bind
  | |- tri _ (mret _) _ => apply tri_ret; cbv beta iota
  | |- tri _ (throw _) _ => apply tri_throw
  | |- tri _ (query _ _) _ => apply tri_query
  | |- tri _ (exec _ _) _ => apply tri_exec; intros ? ?
  | |- tri _ (guard_tx _ _) _ => apply tri_guard; intros ?
  | |- tri _ (lift _) _ => apply tri_lift; intros ? ?
  | |- tri _ NewString _ => apply tri_uuid; intros ?
  | |- tri _ time_Now _ => apply tri_now; intros ?
  | |- tri _ env_db_now _ => apply tri_db_now; intros ?
  | |- tri _ (match ?x with _ => _ end) _ => destruct x eqn:?
  end.
Ltac tx_steps := repeat (tx_step; cbn beta iota).

(** ** Finding rows *)

Lemma head_filter_None {A} (P : A → Prop) `{!∀ x, Decision (P x)} (l : list A) :
  head (filter P l) = None ↔ ∀ x, x ∈ l → ¬ P x.
Proof.
  split.
  - intros Hh x Hx HP. assert (x ∈ filter P l) as Hin by by apply list_elem_of_filter.
    destruct (filter P l); [by apply not_elem_of_nil in Hin|done].
  - intros Hn. destruct (filter P l) as [|y k] eqn:Hf; [done|].
    assert (y ∈ filter P l) as [HP Hy]%list_elem_of_filter by (rewrite Hf; left). by destruct (Hn y).
Qed.

Lemma head_filter_Some {A} (P : A → Prop) `{!∀ x, Decision (P x)} (l : list A) x :
  head (filter P l) = Some x → x ∈ l ∧ P x.
Proof.
  intros Hh. assert (x ∈ filter P l) as [? ?]%list_elem_of_filter; [|done].
  destruct (filter P l); [done|]. injection Hh as ->. left.
Qed.

Lemma event_with_source_None d t source :
  event_with_source d t source = None ↔
  ∀ seq e, events d !! (t, seq) = Some e → er_SourceEventID e ≠ source.
Proof.
  unfold event_with_source. rewrite head_filter_None. split.
  - intros Hn seq e He Heq. apply (Hn (t, seq, e)); [|done]. by apply elem_of_map_to_list.
  - intros Hn [[t' seq] e] He%elem_of_map_to_list [? Heq]. cbn in *. subst t'. by apply (Hn seq e).
Qed.

Lemma event_with_source_Some d t source k :
  event_with_source d t source = Some k →
  k.1.1 = t ∧ events d !! (t, k.1.2) = Some k.2 ∧ er_SourceEventID k.2 = source.
Proof.
  intros (Hin & Ht & Hs)%head_filter_Some. destruct k as [[t' seq] e]. cbn in *. subst t'.
  by apply elem_of_map_to_list in Hin.
Qed.

Lemma run_with_key_None d t key :
  run_with_key d t key = None ↔
  ∀ id r, runs d !! id = Some r → rw_ThreadID r = t → rw_IdempotencyKey r ≠ key.
Proof.
  unfold run_with_key. rewrite head_filter_None. split.
  - intros Hn id r Hr Ht Hk. apply (Hn (id, r)); [|done]. by apply elem_of_map_to_list.
  - intros Hn [id r] Hr%elem_of_map_to_list [? ?]. by apply (Hn id r).
Qed.

Lemma run_with_key_Some d t key k :
  run_with_key d t key = Some k →
  runs d !! k.1 = Some k.2 ∧ rw_ThreadID k.2 = t ∧ rw_IdempotencyKey k.2 = key.
Proof. intros (Hin & ? & ?)%head_filter_Some. destruct k. by apply elem_of_map_to_list in Hin. Qed.

Lemma other_running_false d id t :
  other_running d id t = false ↔
  ∀ id' r, runs d !! id' = Some r → id' ≠ id → rw_ThreadID r = t → rw_Status r ≠ "running".
Proof.
  unfold other_running. rewrite bool_decide_eq_false. split.
  - intros Hn id' r Hr Hid Ht Hs. apply Hn. by exists id', r.
  - intros Hn (id' & r & Hr & ? & ? & ?). by eapply Hn.
Qed.

(** ** What the operations do to the tables *)

(** The transitions of a run. *)
Inductive lifecycle : string → string → Prop :=
  | life_started : lifecycle "pending" "running"
  | life_refused : lifecycle "pending" "error"
  | life_completed : lifecycle "running" "completed"
  | life_interrupted : lifecycle "running" "interrupted"
  | life_failed : lifecycle "running" "error".

(** The columns of a run that no event changes. *)
Record same_run (r r' : RunRow) : Prop := {
  sr_thread : rw_ThreadID r' = rw_ThreadID r;
  sr_process : rw_ProcessID r' = rw_ProcessID r;
  sr_account : rw_AccountID r' = rw_AccountID r;
  sr_project : rw_ProjectID r' = rw_ProjectID r;
  sr_key : rw_IdempotencyKey r' = rw_IdempotencyKey r;
  sr_resume : rw_ResumeInterruptID r' = rw_ResumeInterruptID r;
  sr_created : rw_CreatedAt r' = rw_CreatedAt r;
}.

#[global] Instance same_run_preorder : PreOrder same_run.
Proof. split; [by intros r|]. intros r1 r2 r3 [] []. split; congruence. Qed.

(** An event at the end of a thread. *)
Definition with_event (ob : bool) (d : DB) (t : string) (th : ThreadRow) (e : EventRow) : DB :=
  let next := (th_NextSequence th + 1)%Z in
  {| d with
     threads := <[t := {| th with th_NextSequence := next; th_UpdatedAt := er_OccurredAt e |}]> (threads d);
     events := <[(t, next) := e]> (events d);
     outbox := if ob then {[(t, next)]} ∪ outbox d else outbox d |}.

Definition with_run (d : DB) (id : string) (r : RunRow) : DB := {| d with runs := <[id := r]> (runs d) |}.

(** The conditions under which the database takes an event. *)
Definition event_fresh (d : DB) (t : string) (th : ThreadRow) (e : EventRow) : Prop :=
  threads d !! t = Some th ∧ is_Some (runs d !! er_RunID e) ∧
  events d !! (t, th_NextSequence th + 1)%Z = None ∧ (th_NextSequence th < max_int64)%Z ∧
  event_id_taken d (er_EventID e) = false ∧
  (er_SourceEventID e ≠ "" → event_with_source d t (er_SourceEventID e) = None).

Section effects.
Context `{!RFC3339, !PgTime, !Collation, !SliceSort}.

(** The answer to the request that stored an event: its instant and payload are the
    ones of the request, not the stored ones. *)
Definition answered (t : string) (sequence : Z) (e : EventRow) (at_ : time) (payload : go_map any) :
    ConversationEvent :=
  let stored := scanEvent t sequence e in
  {| stored with ce_OccurredAt := at_; ce_Payload := Some (default ∅ payload) |}.

Lemma append_spec ob d t run process source sourceSequence ty at_ payload :
  tri d (appendEvent ob t run process source sourceSequence ty at_ payload) (λ ev d',
    ∃ th id, let e := {|
        er_EventID := id; er_RunID := run; er_ProcessID := process; er_SourceEventID := source;
        er_SourceSequence := sourceSequence; er_EventType := ty; er_OccurredAt := pg_time at_;
        er_Payload := enc_map enc_any payload |} in
      event_fresh d t th e ∧ d' = with_event ob d t th e ∧
      ev = answered t (th_NextSequence th + 1) e at_ payload).
Proof.
  unfold appendEvent. tx_step. tx_step. unfold allocate_sequence.
  destruct (threads d !! t) as [th|] eqn:Hth; [|by intros [= <- <-]; cbn; tx_steps].
  destruct (_ <=? _)%Z eqn:Hmax; [done|]. intros [= <- <-]. cbn. tx_step. tx_step.
  unfold marshalJSON. destruct (supported _); [|apply tri_throw]. tx_step. tx_step.
  unfold insert_event. cbn. destruct (negb _); [done|].
  destruct (events d !! _) eqn:Hev; [done|].
  destruct (event_id_taken _ _ || _) eqn:Htaken; [done|]. apply orb_false_iff in Htaken as [Hid Hsrc].
  rewrite lookup_insert_eq. destruct (runs d !! run) eqn:Hrun; [|done]. intros [= <- <-]. cbn.
  tx_step. apply (tri_mono _ _ (λ _ d', d' = with_event ob d t th {|
    er_EventID := u; er_RunID := run; er_ProcessID := process; er_SourceEventID := source;
    er_SourceSequence := sourceSequence; er_EventType := ty; er_OccurredAt := pg_time at_;
    er_Payload := enc_map enc_any payload |})).
  - unfold enqueueEventOutbox. destruct ob; [|by tx_step]. tx_step. unfold insert_outbox. cbn.
    match goal with |- context [bool_decide ?P] => destruct (bool_decide P) end; [discriminate|]. rewrite lookup_insert_eq. by intros [= <- <-].
  - intros [] d' ->. tx_step. exists th, u. split_and!; [|done|done].
    split_and!; [done|by eexists|done|lia|done|]. cbn. intros Hne.
    rewrite bool_decide_eq_false_2 in Hsrc by done. cbn in Hsrc. apply bool_decide_eq_false in Hsrc.
    by apply eq_None_not_Some.
Qed.

(** What a projection may do to the run: nothing, or one transition. *)
Definition moves (r r' : RunRow) : Prop :=
  r' = r ∨ (same_run r r' ∧ lifecycle (rw_Status r) (rw_Status r') ∧
            rw_LastSourceSequence r' = rw_LastSourceSequence r).

(** The check of the table spells the status of a canceled run with two l. *)
Lemma canceled_not_allowed : ConversationRunCanceled ∉ run_statuses.
Proof. apply (bool_decide_eq_false_1 (ConversationRunCanceled ∈ run_statuses)). reflexivity. Qed.

Lemma check_run_None d id r :
  check_run d id r = None ↔
  rw_Status r ∈ run_statuses ∧ (rw_Status r = "running" → other_running d id (rw_ThreadID r) = false).
Proof.
  unfold check_run. case_bool_decide; cbn; [|naive_solver].
  destruct (rw_Status r == "running") eqn:Hs; simplify_bool; cbn.
  - destruct (other_running _ _ _); naive_solver.
  - naive_solver.
Qed.

Lemma update_run_spec d id f d' u :
  update_run id f d = inl (d', u) →
  match runs d !! id with
  | None => d' = d
  | Some r => d' = with_run d id (f r) ∧ check_run d id (f r) = None
  end.
Proof.
  unfold update_run. destruct (runs d !! id) as [r|]; [|by intros [= <-]].
  destruct (check_run _ _ _) eqn:Hc; [done|]. by intros [= <-].
Qed.

(** ** The projection of an event *)

(** The part of a message that its events determine. *)
Record MessageView := {
  mv_RunID : string;
  mv_Role : string;
  mv_Content : string;
  mv_Status : string;
}.

Definition view (m : MessageRow) : MessageView := {|
  mv_RunID := ms_RunID m; mv_Role := ms_Role m; mv_Content := ms_Content m; mv_Status := ms_Status m |}.

(** The messages of a thread. *)
Definition thread_view (ms : gmap string MessageRow) (t : string) : gmap string MessageView :=
  omap (λ m, if ms_ThreadID m == t then Some (view m) else None) ms.

(** What an event of a run means for the messages of its thread. *)
Definition replay_event (ty run : string) (p : go_map any) (v : gmap string MessageView) :
    gmap string MessageView :=
  let id := stringPayload p "message_id" in
  if ty == ConversationEventTextMessageStart then
    match v !! id with
    | None => <[id := {| mv_RunID := run; mv_Role := stringPayload p "role"; mv_Content := "";
                         mv_Status := "streaming" |}]> v
    | Some _ => v
    end
  else if ty == ConversationEventTextMessageContent then
    match v !! id with
    | Some m =>
        if (mv_RunID m == run) && (mv_Status m == "streaming")
        then <[id := {| m with mv_Content := mv_Content m +:+ stringPayload p "delta" |}]> v else v
    | None => v
    end
  else if ty == ConversationEventTextMessageEnd then
    match v !! id with
    | Some m =>
        if mv_Status m == "streaming"
        then <[id := {| m with mv_Content := default (mv_Content m) (contentPayload p);
                               mv_Status := "completed" |}]> v else v
    | None => v
    end
  else v.

Lemma replay_start run p v :
  replay_event ConversationEventTextMessageStart run p v =
  match v !! stringPayload p "message_id" with
  | None => <[stringPayload p "message_id" := {| mv_RunID := run; mv_Role := stringPayload p "role";
                                                 mv_Content := ""; mv_Status := "streaming" |}]> v
  | Some _ => v
  end.
Proof. reflexivity. Qed.

Lemma replay_content run p v :
  replay_event ConversationEventTextMessageContent run p v =
  match v !! stringPayload p "message_id" with
  | Some m =>
      if (mv_RunID m == run) && (mv_Status m == "streaming")
      then <[stringPayload p "message_id" := {| m with mv_Content := mv_Content m +:+ stringPayload p "delta" |}]> v
      else v
  | None => v
  end.
Proof. reflexivity. Qed.

Lemma replay_end run p v :
  replay_event ConversationEventTextMessageEnd run p v =
  match v !! stringPayload p "message_id" with
  | Some m =>
      if mv_Status m == "streaming"
      then <[stringPayload p "message_id" := {| m with mv_Content := default (mv_Content m) (contentPayload p);
                                                       mv_Status := "completed" |}]> v
      else v
  | None => v
  end.
Proof. reflexivity. Qed.

Lemma lookup_thread_view ms t k :
  thread_view ms t !! k = ms !! k ≫= λ m, if ms_ThreadID m == t then Some (view m) else None.
Proof. apply lookup_omap. Qed.

Lemma thread_view_insert ms t k m :
  (∀ m0, ms !! k = Some m0 → ms_ThreadID m0 = ms_ThreadID m) →
  thread_view (<[k := m]> ms) t =
  if ms_ThreadID m == t then <[k := view m]> (thread_view ms t) else thread_view ms t.
Proof.
  intros Hsame. apply map_eq. intros k'. rewrite lookup_thread_view.
  destruct (decide (k' = k)) as [->|Hne].
  - rewrite lookup_insert_eq. cbn. case_bool_decide; [by rewrite lookup_insert_eq|].
    rewrite lookup_thread_view. destruct (ms !! k) as [m0|] eqn:Hk; [|done]. cbn.
    rewrite bool_decide_eq_false_2; [done|]. by rewrite (Hsame m0).
  - rewrite lookup_insert_ne by done. rewrite <- lookup_thread_view.
    case_bool_decide; [by rewrite lookup_insert_ne|done].
Qed.

(** How the messages of the tables follow an event of run [id] on thread [t]. *)
Definition messages_follow (d : DB) (id t ty : string) (p : go_map any) (ms : gmap string MessageRow) : Prop :=
  (∀ k m, ms !! k = Some m →
     (∃ m0, messages d !! k = Some m0 ∧ ms_RunID m = ms_RunID m0 ∧ ms_ThreadID m = ms_ThreadID m0) ∨
     (ms_RunID m = id ∧ ms_ThreadID m = t)) ∧
  (∀ t', thread_view ms t' =
     if t' == t then replay_event ty id p (thread_view (messages d) t') else thread_view (messages d) t').

Lemma follow_keep d id t ty p :
  replay_event ty id p (thread_view (messages d) t) = thread_view (messages d) t →
  messages_follow d id t ty p (messages d).
Proof.
  intros Hr. split; [by eauto 10|]. intros t'. case_bool_decide as Ht; [|done]. by subst t'; rewrite Hr.
Qed.

Lemma follow_insert d id t ty p k m :
  ms_ThreadID m = t →
  (∀ m0, messages d !! k = Some m0 → ms_RunID m = ms_RunID m0 ∧ ms_ThreadID m0 = t) →
  (messages d !! k = None → ms_RunID m = id) →
  replay_event ty id p (thread_view (messages d) t) = <[k := view m]> (thread_view (messages d) t) →
  messages_follow d id t ty p (<[k := m]> (messages d)).
Proof.
  intros Ht Hold Hnew Hr. split.
  - intros k' m' [[<- <-]|[? ?]]%lookup_insert_Some; [|by eauto 10].
    destruct (messages d !! k) as [m0|] eqn:Hk; [|by auto]. left. exists m0.
    destruct (Hold m0 eq_refl). split_and!; congruence.
  - intros t'. rewrite thread_view_insert by (intros m0 [? ?]%Hold; congruence). rewrite Ht.
    destruct (decide (t' = t)) as [->|Hne].
    + by rewrite !bool_decide_eq_true_2, Hr.
    + by rewrite !bool_decide_eq_false_2 by congruence.
Qed.

Section handlers.
Context (d : DB) (run : ConversationRun) (event : ExternalConversationEvent).
Let id := cr_RunID run.
Let t := cr_ThreadID run.
Let p := xe_Payload event.
Hypothesis owned : ∀ k m, messages d !! k = Some m → ms_RunID m = id → ms_ThreadID m = t.

(** The result of a message handler: messages that follow the event. *)
Definition follows (ty : string) (_ : unit) (d' : DB) : Prop :=
  ∃ ms, d' = {| d with messages := ms |} ∧ messages_follow d id t ty p ms.

Lemma follows_keep ty u :
  replay_event ty id p (thread_view (messages d) t) = thread_view (messages d) t → follows ty u d.
Proof. intros Hr. exists (messages d). split; [by destruct d|]. by apply follow_keep. Qed.

(** A message of the thread that another run owns. *)
Lemma replayed_spec k :
  tri d (replayedMessage run k) (λ res d', d' = d ∧
    ∀ st, res = Some st → ∃ m, messages d !! k = Some m ∧ ms_ThreadID m = t ∧ ms_RunID m ≠ id ∧ ms_Status m = st).
Proof.
  unfold replayedMessage, lookupMessage. tx_step. tx_step.
  destruct (messages d !! k) as [m|] eqn:Hk; cbn; [|by tx_step].
  destruct (_ || _) eqn:Hc; tx_step; [done|]. split; [done|]. intros st [= <-].
  apply orb_false_iff in Hc as [Ht Ho]. simplify_bool. exists m. by split_and!.
Qed.

Lemma thread_view_own k m :
  messages d !! k = Some m → ms_ThreadID m = t → thread_view (messages d) t !! k = Some (view m).
Proof. intros Hk Ht. rewrite lookup_thread_view, Hk. cbn. by rewrite bool_decide_eq_true_2. Qed.

Lemma start_message_spec :
  tri d (startMessage run event) (follows ConversationEventTextMessageStart).
Proof.
  unfold startMessage. fold p. set (k := stringPayload p "message_id"). set (role := stringPayload p "role").
  destruct (_ || _) eqn:Hbad; [apply tri_throw|]. destruct (marshalJSON _); [|apply tri_throw].
  tx_step. tx_step. unfold insert_message_once.
  destruct (check_message _ _) as [[]|] eqn:Hc; destruct (messages d !! k) as [m|] eqn:Hk; try done;
    intros [= <- <-]; cbn -[replayedMessage].
  all: try (apply tri_bind; eapply tri_mono; [apply replayed_spec|]; intros res d' [-> Hres];
    apply tri_guard; intros [st ->]%negb_false_iff%bool_decide_eq_true; destruct (Hres st eq_refl) as (m' & Hm' & Ht & _ & _);
    apply follows_keep; rewrite replay_start; fold k; cbn; by rewrite (thread_view_own k m')).
  change (1%Z == 1%Z) with true. apply tri_ret. eexists. split; [done|]. apply follow_insert; [done|congruence|done|].
  rewrite replay_start. fold k. cbn. rewrite lookup_thread_view, Hk. done.
Qed.

Lemma update_message_spec k mine f d' rows :
  update_message k mine f d = inl (d', rows) →
  (rows = 0%Z ∧ d' = d ∧ (∀ m, messages d !! k = Some m → mine m && (ms_Status m == "streaming") = false)) ∨
  (rows = 1%Z ∧ ∃ m, messages d !! k = Some m ∧ mine m = true ∧ ms_Status m = "streaming" ∧
     d' = {| d with messages := <[k := f m]> (messages d) |}).
Proof.
  unfold update_message. destruct (messages d !! k) as [m|] eqn:Hk.
  - destruct (mine m && _) eqn:Hm.
    + destruct (check_message _ _); [done|]. intros [= <- <-]. right.
      apply andb_true_iff in Hm as [? Hs]. apply bool_decide_eq_true in Hs. eauto 10.
    + intros [= <- <-]. left. split_and!; [done..|]. by intros m' [= <-].
  - intros [= <- <-]. left. split_and!; [done..|]. by intros.
Qed.

Lemma content_spec :
  tri d (appendMessageContent run event) (follows ConversationEventTextMessageContent).
Proof.
  unfold appendMessageContent. fold p. set (k := stringPayload p "message_id"). set (delta := stringPayload p "delta").
  destruct (_ || _); [apply tri_throw|]. tx_step. tx_step.
  intros [(-> & -> & _)|(-> & m & Hk & Hown & Hs & ->)]%update_message_spec; cbn -[replayedMessage].
  - apply tri_bind; eapply tri_mono; [apply replayed_spec|]. intros res d' [-> Hres].
    apply tri_guard. intros [st ->]%negb_false_iff%bool_decide_eq_true.
    destruct (Hres st eq_refl) as (m & Hm & Ht & Ho & _).
    apply follows_keep. rewrite replay_content. fold k. cbn. rewrite (thread_view_own k m) by done. cbn.
    by rewrite bool_decide_eq_false_2.
  - apply bool_decide_eq_true in Hown. change (1%Z == 1%Z) with true. apply tri_ret. eexists. split; [done|]. pose proof (owned _ _ Hk Hown) as Ht.
    apply follow_insert; cbn; [done| |congruence|].
    + intros m0 Hm0. rewrite Hk in Hm0. by injection Hm0 as <-.
    + rewrite replay_content. fold k. cbn. rewrite (thread_view_own k m) by done. cbn.
      by rewrite bool_decide_eq_true_2, Hs.
Qed.

(** Closing the message that an end event names. *)
Lemma close_follows k m u :
  k = stringPayload p "message_id" → messages d !! k = Some m → ms_ThreadID m = t → ms_Status m = "streaming" →
  follows ConversationEventTextMessageEnd u
    {| d with messages := <[k := close_message (contentPayload p) (xe_OccurredAt event) m]> (messages d) |}.
Proof.
  intros -> Hk Ht Hs. eexists. split; [done|]. apply follow_insert; cbn; [done| |congruence|].
  - intros m0 Hm0. rewrite Hk in Hm0. by injection Hm0 as <-.
  - rewrite replay_end. cbn. rewrite (thread_view_own _ m) by done. cbn. by rewrite Hs.
Qed.

Lemma end_spec :
  tri d (endMessage run event) (follows ConversationEventTextMessageEnd).
Proof.
  unfold endMessage. fold p. set (k := stringPayload p "message_id").
  destruct (k == ""); [apply tri_throw|]. tx_step. tx_step.
  intros [(-> & -> & _)|(-> & m & Hk & Hown & Hs & ->)]%update_message_spec; cbn -[replayedMessage].
  - apply tri_bind; eapply tri_mono; [apply replayed_spec|]. intros res d' [-> Hres].
    destruct res as [st|]; [|apply tri_throw]. destruct (Hres st eq_refl) as (m & Hm & Ht & Ho & Hst).
    unfold completeReplayedMessage. case_bool_decide as Hstream; cbn.
    + subst st. tx_step. tx_step. intros Hupd. tx_step. apply update_message_spec in Hupd as [(_ & _ & Hno)|(_ & m' & Hm' & _ & Hs & ->)].
      * specialize (Hno m Hm). rewrite Hstream in Hno. done.
      * rewrite Hm in Hm'. injection Hm' as <-. by apply close_follows.
    + tx_step. apply follows_keep. rewrite replay_end. fold k. cbn. rewrite (thread_view_own k m) by done. cbn.
      by rewrite Hst, bool_decide_eq_false_2.
  - apply bool_decide_eq_true in Hown. change (1%Z == 1%Z) with true. apply tri_ret. apply close_follows; [done..| |done]. by eapply owned.
Qed.
End handlers.

(** The status of a run before and after an event of a type. *)
Definition by_event (ty s s' : string) : Prop :=
  (ty = ConversationEventRunStarted ∧ s = "pending" ∧ s' = "running") ∨
  (ty = ConversationEventRunError ∧ s ∈ ["pending"; "running"] ∧ s' = "error") ∨
  (ty = ConversationEventRunFinished ∧ s = "running" ∧ s' ∈ ["completed"; "interrupted"; "error"]) ∨
  ((ty ∉ [ConversationEventRunStarted; ConversationEventRunError; ConversationEventRunFinished]) ∧ s' = s).

Lemma by_event_lifecycle ty s s' : by_event ty s s' → s' = s ∨ lifecycle s s'.
Proof.
  intros [(_ & -> & ->)|[(_ & Hs & ->)|[(_ & -> & Hs)|(_ & ->)]]]; [right; constructor| | |by left].
  - apply elem_of_cons in Hs as [->|[->|[]%not_elem_of_nil]%elem_of_cons]; right; constructor.
  - apply elem_of_cons in Hs as [->|[->|[->|[]%not_elem_of_nil]%elem_of_cons]%elem_of_cons]; right; constructor.
Qed.

(** The tables after the projection of an event of run [id], whose row is [r]. *)
Definition projects (d : DB) (id : string) (r : RunRow) (event : ExternalConversationEvent) (d' : DB) : Prop :=
  ∃ r' ms, d' = {| d with runs := <[id := r']> (runs d); messages := ms |} ∧
    same_run r r' ∧ rw_LastSourceSequence r' = rw_LastSourceSequence r ∧
    by_event (xe_EventType event) (rw_Status r) (rw_Status r') ∧ (rw_Status r' = rw_Status r → r' = r) ∧
    (r' = r ∨ check_run d id r' = None) ∧
    messages_follow d id (rw_ThreadID r) (xe_EventType event) (xe_Payload event) ms.

Section projection.
Context (d : DB) (id : string) (r : RunRow) (event : ExternalConversationEvent).
Hypothesis stored : runs d !! id = Some r.
Hypothesis owned : ∀ k m, messages d !! k = Some m → ms_RunID m = id → ms_ThreadID m = rw_ThreadID r.

Lemma projects_messages ms :
  xe_EventType event ∉ [ConversationEventRunStarted; ConversationEventRunError; ConversationEventRunFinished] →
  messages_follow d id (rw_ThreadID r) (xe_EventType event) (xe_Payload event) ms →
  projects d id r event {| d with messages := ms |}.
Proof.
  intros Hty Hms. exists r, ms. split_and!; [|done|done| |done|by left|done].
  - destruct d. cbn in *. by rewrite insert_id.
  - right; right; right. done.
Qed.

Lemma projects_run f d' u :
  update_run id f d = inl (d', u) → same_run r (f r) →
  rw_LastSourceSequence (f r) = rw_LastSourceSequence r →
  by_event (xe_EventType event) (rw_Status r) (rw_Status (f r)) →
  xe_EventType event ∈ [ConversationEventRunStarted; ConversationEventRunError; ConversationEventRunFinished] →
  projects d id r event d'.
Proof.
  intros Hu%update_run_spec Hsame Hlast Hby Hty. rewrite stored in Hu. destruct Hu as [-> Hc].
  exists (f r), (messages d). split_and!; try done; [|by right|].
  { intros Heq. rewrite Heq in Hby. exfalso. destruct Hby as [(_ & ? & ?)|[(_ & Hs & Hs')|[(_ & Hs' & Hs)|[? _]]]];
      [congruence|rewrite Hs' in Hs; set_solver..|done]. }
  apply follow_keep. unfold replay_event.
  by apply elem_of_cons in Hty as [->|[->|[->|[]%not_elem_of_nil]%elem_of_cons]%elem_of_cons].
Qed.

Lemma finish_spec :
  xe_EventType event = ConversationEventRunFinished → rw_Status r = "running" →
  tri d (finishRun (scanRun id r) event) (λ _, projects d id r event).
Proof.
  intros Hty Hs. unfold finishRun. cbv zeta. set (outcome := stringPayload _ "outcome").
  assert (∀ status i code message u d',
            update_run id (finish_row status outcome i (xe_OccurredAt event) code message) d = inl (d', u) →
            status ∈ ["completed"; "interrupted"; "error"] → projects d id r event d') as Hfin.
  { intros status i code message u d' Hu Hin. apply (projects_run _ _ _ Hu); try done.
    - right; right; left. done.
    - rewrite Hty. set_solver. }
  repeat case_match; tx_steps.
  - intros Hu. eapply Hfin; [done|set_solver].
  - intros Hu%update_run_spec. change (cr_RunID (scanRun id r)) with id in Hu. rewrite stored in Hu.
    destruct Hu as [_ [Hbad _]%check_run_None]. by apply canceled_not_allowed in Hbad.
  - apply (tri_mono _ _ (λ _ d', d' = d)).
    + unfold prepareInterrupt. cbv zeta. destruct (_ || _); [apply tri_throw|]. tx_steps; done.
    + intros doc d' ->. tx_step. intros Hu. eapply Hfin; [done|set_solver].
  - intros Hu. eapply Hfin; [done|set_solver].
  - intros Hu. eapply Hfin; [done|set_solver].
Qed.

Lemma projection_spec :
  tri d (applyEventProjection (scanRun id r) event) (λ _, projects d id r event).
Proof.
  unfold applyEventProjection, requireRunStatus.
  destruct (_ == ConversationEventRunStarted) eqn:E1; simplify_bool.
  { tx_step. tx_step. simplify_bool. intros env n. unfold mbind, Tx_bind, catch, exec. cbn [tx_failed tx_at].
    change (tx_db (tx_at d n)) with d. change (cr_RunID (scanRun id r)) with id.
    destruct (update_run _ _ d) as [[d' u]|code] eqn:Hu; [|by destruct code]. cbn. split; [done|].
    apply (projects_run _ _ _ Hu); try done; [by left|]. rewrite E1. set_solver. }
  destruct (_ == ConversationEventRunError) eqn:E2; simplify_bool.
  { tx_step. tx_step. tx_step. intros Hu. apply (projects_run _ _ _ Hu); try done; [|rewrite E2; set_solver].
    right; left. split; [done|]. split; [|done].
    match goal with H : _ && _ = false |- _ => apply andb_false_iff in H as [?|?]; simplify_bool end; set_solver. }
  destruct (xe_EventType event == ConversationEventTextMessageStart) eqn:E3; simplify_bool.
  { tx_step. tx_step. eapply tri_mono; [apply start_message_spec; done|]. intros [] d' (ms & -> & Hms).
    rewrite <- E3 in Hms. apply projects_messages; [|done]. rewrite E3. set_solver. }
  destruct (xe_EventType event == ConversationEventTextMessageContent) eqn:E4; simplify_bool.
  { tx_step. tx_step. eapply tri_mono; [apply content_spec; done|]. intros [] d' (ms & -> & Hms).
    rewrite <- E4 in Hms. apply projects_messages; [|done]. rewrite E4. set_solver. }
  destruct (xe_EventType event == ConversationEventTextMessageEnd) eqn:E5; simplify_bool.
  { tx_step. tx_step. eapply tri_mono; [apply end_spec; done|]. intros [] d' (ms & -> & Hms).
    rewrite <- E5 in Hms. apply projects_messages; [|done]. rewrite E5. set_solver. }
  destruct (xe_EventType event == ConversationEventRunFinished) eqn:E6; simplify_bool.
  { tx_step. tx_step. simplify_bool. by apply finish_spec. }
  tx_step. replace d with {| d with messages := messages d |} at 2 by by destruct d.
  apply projects_messages; [set_solver|]. apply follow_keep. unfold replay_event.
  by rewrite !bool_decide_eq_false_2.
Qed.
End projection.
End effects.

(** ** The invariant *)

(** The events that bring a run into a status. *)
Definition evidence (status : string) : list string :=
  if status == "running" then [ConversationEventRunStarted]
  else if status == "error" then [ConversationEventRunError; ConversationEventRunFinished]
  else [ConversationEventRunFinished].

Record conv_ok (d : DB) : Prop := {
  co_next : ∀ t th, threads d !! t = Some th → (0 ≤ th_NextSequence th)%Z;
  co_stream : ∀ t i, is_Some (events d !! (t, i)) ↔
    ∃ th, threads d !! t = Some th ∧ (1 ≤ i ≤ th_NextSequence th)%Z;
  co_run : ∀ id r, runs d !! id = Some r →
    (∃ th, threads d !! rw_ThreadID r = Some th ∧ th_AccountID th = rw_AccountID r ∧
           th_ProjectID th = rw_ProjectID r) ∧
    rw_Status r ∈ ["pending"; "running"; "completed"; "interrupted"; "error"] ∧
    (0 ≤ rw_LastSourceSequence r)%Z;
  co_running : ∀ id1 r1 id2 r2, runs d !! id1 = Some r1 → runs d !! id2 = Some r2 →
    rw_ThreadID r1 = rw_ThreadID r2 → rw_Status r1 = "running" → rw_Status r2 = "running" → id1 = id2;
  co_key : ∀ id1 r1 id2 r2, runs d !! id1 = Some r1 → runs d !! id2 = Some r2 →
    rw_ThreadID r1 = rw_ThreadID r2 → rw_IdempotencyKey r1 = rw_IdempotencyKey r2 → id1 = id2;
  co_event : ∀ t i e, events d !! (t, i) = Some e →
    ∃ r, runs d !! er_RunID e = Some r ∧ rw_ThreadID r = t ∧
      (er_SourceEventID e ≠ "" → (0 < er_SourceSequence e ≤ rw_LastSourceSequence r)%Z);
  co_order : ∀ t i j e1 e2, events d !! (t, i) = Some e1 → events d !! (t, j) = Some e2 → (i < j)%Z →
    er_RunID e1 = er_RunID e2 → er_SourceEventID e1 ≠ "" → er_SourceEventID e2 ≠ "" →
    (er_SourceSequence e1 < er_SourceSequence e2)%Z;
  co_source : ∀ t i j e1 e2, events d !! (t, i) = Some e1 → events d !! (t, j) = Some e2 →
    er_SourceEventID e1 = er_SourceEventID e2 → er_SourceEventID e1 ≠ "" → i = j;
  co_message : ∀ k m, messages d !! k = Some m →
    ∃ r, runs d !! ms_RunID m = Some r ∧ ms_ThreadID m = rw_ThreadID r;
  co_outbox : ∀ k, k ∈ outbox d → is_Some (events d !! k);
  co_deferred : ∀ t i x, deferred d !! (t, i) = Some x →
    df_EventType x = ConversationEventRunStarted ∧
    ∃ e, events d !! (t, i) = Some e ∧ er_EventType e = ConversationEventRunStarted ∧ er_RunID e = df_RunID x;
  co_started : ∀ t i e r, events d !! (t, i) = Some e → er_EventType e = ConversationEventRunStarted →
    runs d !! er_RunID e = Some r → rw_Status r = "pending" → is_Some (deferred d !! (t, i));
  co_evidence : ∀ id r, runs d !! id = Some r → rw_Status r ≠ "pending" →
    ∃ i e, events d !! (rw_ThreadID r, i) = Some e ∧ er_RunID e = id ∧ er_EventType e ∈ evidence (rw_Status r);
}.

Lemma conv_ok_empty : conv_ok empty_DB.
Proof.
  split; cbn; try (intros; by rewrite lookup_empty in *); try set_solver.
  intros t i. rewrite lookup_empty. split; [by intros []|]. intros (th & Hth & _). by rewrite lookup_empty in Hth.
Qed.

(** The tables after an event was recorded: its row, the run's row, messages and parked
    projections. *)
Definition recorded (ob : bool) (d : DB) (t : string) (th : ThreadRow) (e : EventRow) (r' : RunRow)
    (ms : gmap string MessageRow) (def : gmap (string * Z) DeferredRow) : DB :=
  let d' := with_event ob d t th e in
  {| d' with runs := <[er_RunID e := r']> (runs d); messages := ms; deferred := def |}.

Section recorded.
Context (ob : bool) (d : DB) (t : string) (th : ThreadRow) (e : EventRow) (r r' : RunRow)
        (ms : gmap string MessageRow) (def : gmap (string * Z) DeferredRow).
Let next := (th_NextSequence th + 1)%Z.
Hypothesis Hok : conv_ok d.
Hypothesis Hfresh : event_fresh d t th e.
Hypothesis Hrun : runs d !! er_RunID e = Some r.
Hypothesis Hthread : rw_ThreadID r = t.
Hypothesis Hsame : same_run r r'.
Hypothesis Hstatus : rw_Status r' = rw_Status r ∨
  rw_Status r' ∈ ["running"; "completed"; "interrupted"; "error"] ∧ er_EventType e ∈ evidence (rw_Status r').
Hypothesis Halone : rw_Status r' = "running" → rw_Status r = "running" ∨ other_running d (er_RunID e) t = false.
Hypothesis Hsource :
  (er_SourceEventID e = "" ∧ rw_LastSourceSequence r' = rw_LastSourceSequence r) ∨
  (er_SourceEventID e ≠ "" ∧ (rw_LastSourceSequence r < er_SourceSequence e)%Z ∧
   rw_LastSourceSequence r' = er_SourceSequence e).
Hypothesis Hms : ∀ k m, ms !! k = Some m →
  (∃ m0, messages d !! k = Some m0 ∧ ms_RunID m = ms_RunID m0 ∧ ms_ThreadID m = ms_ThreadID m0) ∨
  (ms_RunID m = er_RunID e ∧ ms_ThreadID m = t).
Hypothesis Hdef :
  def = deferred d ∨
  (∃ x, def = <[(t, next) := x]> (deferred d) ∧ df_EventType x = ConversationEventRunStarted ∧
     er_EventType e = ConversationEventRunStarted ∧ df_RunID x = er_RunID e).
Hypothesis Hstart : er_EventType e = ConversationEventRunStarted → rw_Status r' = "pending" →
  is_Some (def !! (t, next)).

Lemma recorded_status : rw_Status r' ∈ ["pending"; "running"; "completed"; "interrupted"; "error"] ∧
  (rw_Status r' = "pending" → rw_Status r = "pending").
Proof.
  destruct (co_run _ Hok _ _ Hrun) as (_ & Hin & _).
  destruct Hstatus as [->|[Hin' _]]; [done|]. split; [set_solver|]. intros Heq. rewrite Heq in Hin'. set_solver.
Qed.

(** A run of the new tables: another one, or the one of the event. *)
Lemma recorded_run id x :
  <[er_RunID e := r']> (runs d) !! id = Some x →
  (id = er_RunID e ∧ x = r') ∨ (id ≠ er_RunID e ∧ runs d !! id = Some x).
Proof. intros [[-> ->]|[? ?]]%lookup_insert_Some; auto. Qed.

(** An event of the new tables: an old one, or the new one. *)
Lemma recorded_event k x :
  <[(t, next) := e]> (events d) !! k = Some x →
  (k = (t, next) ∧ x = e) ∨ (k ≠ (t, next) ∧ events d !! k = Some x).
Proof. intros [[-> ->]|[? ?]]%lookup_insert_Some; auto. Qed.

Lemma old_event_bound t' i x : events d !! (t', i) = Some x → t' = t → (1 ≤ i < next)%Z.
Proof.
  intros Hx ->. destruct Hfresh as (Hth & _). destruct (proj1 (co_stream _ Hok t i)) as (th' & Hth' & Hi); [by eexists|].
  rewrite Hth in Hth'. injection Hth' as <-. unfold next. lia.
Qed.

Lemma recorded_thread t' x :
  <[t := {| th with th_NextSequence := next; th_UpdatedAt := er_OccurredAt e |}]> (threads d) !! t' = Some x →
  ∃ th0, threads d !! t' = Some th0 ∧ th_AccountID x = th_AccountID th0 ∧ th_ProjectID x = th_ProjectID th0 ∧
    th_NextSequence x = if bool_decide (t' = t) then next else th_NextSequence th0.
Proof.
  destruct Hfresh as (Hth & _). intros [[<- <-]|[Hne Hx]]%lookup_insert_Some.
  - exists th. by rewrite bool_decide_eq_true_2.
  - exists x. by rewrite bool_decide_eq_false_2 by done.
Qed.

Let d' := recorded ob d t th e r' ms def.

Lemma recorded_stream t' i :
  is_Some (events d' !! (t', i)) ↔ ∃ x, threads d' !! t' = Some x ∧ (1 ≤ i ≤ th_NextSequence x)%Z.
Proof.
  destruct Hfresh as (Hth & _). pose proof (co_next _ Hok _ _ Hth) as Hnext. cbn. fold next.
  destruct (decide (t' = t)) as [->|Hne].
  - rewrite lookup_insert_eq. split.
    + intros [x [[[= ->] _]|[_ Hx]]%recorded_event].
      * eexists. split; [done|]. cbn. unfold next. lia.
      * apply old_event_bound in Hx; [|done]. eexists. split; [done|]. cbn. lia.
    + intros (x & [= <-] & Hi). cbn in Hi. destruct (decide (i = next)) as [->|Hn]; [by rewrite lookup_insert_eq|].
      rewrite lookup_insert_ne by congruence. apply (co_stream _ Hok). exists th. split; [done|]. unfold next in *. lia.
  - rewrite !lookup_insert_ne by congruence. apply (co_stream _ Hok).
Qed.

Lemma recorded_sources : ∀ t' i j e1 e2, events d' !! (t', i) = Some e1 → events d' !! (t', j) = Some e2 →
  er_SourceEventID e1 ≠ "" → er_SourceEventID e2 ≠ "" →
  (er_SourceEventID e1 = er_SourceEventID e2 → i = j) ∧
  ((i < j)%Z → er_RunID e1 = er_RunID e2 → (er_SourceSequence e1 < er_SourceSequence e2)%Z).
Proof.
  destruct Hfresh as (_ & _ & _ & _ & _ & Hnew). cbn. fold next.
  assert (∀ i x, events d !! (t, i) = Some x → er_SourceEventID e ≠ "" → er_SourceEventID x ≠ er_SourceEventID e) as Hno.
  { intros i x Hx Hne. apply Hnew in Hne. rewrite event_with_source_None in Hne. by eapply Hne. }
  intros t' i j e1 e2 [[[= -> ->] ->]|[Hk1 He1]]%recorded_event [[Hk2 ->]|[Hk2 He2]]%recorded_event Hs1 Hs2.
  - injection Hk2 as <-. split; [done|]. intros. lia.
  - pose proof (old_event_bound _ _ _ He2 eq_refl). split; [|lia]. intros Heq. by destruct (Hno _ _ He2 Hs1).
  - injection Hk2 as -> ->. split; [intros Heq; by destruct (Hno _ _ He1 Hs2)|].
    intros _ Hr. destruct (co_event _ Hok _ _ _ He1) as (x & Hx & _ & Hb). rewrite Hr, Hrun in Hx.
    injection Hx as <-. destruct Hsource as [[? _]|(_ & ? & _)]; [done|]. specialize (Hb Hs1). lia.
  - split; intros; [by eapply (co_source _ Hok)|by eapply (co_order _ Hok)].
Qed.

Lemma recorded_runs id x :
  runs d' !! id = Some x →
  (∃ y, threads d' !! rw_ThreadID x = Some y ∧ th_AccountID y = rw_AccountID x ∧ th_ProjectID y = rw_ProjectID x) ∧
  rw_Status x ∈ ["pending"; "running"; "completed"; "interrupted"; "error"] ∧ (0 ≤ rw_LastSourceSequence x)%Z.
Proof.
  destruct Hfresh as (Hth & _). cbn. fold next.
  assert (∀ t' th0, threads d !! t' = Some th0 → ∃ y,
    <[t := {| th with th_NextSequence := next; th_UpdatedAt := er_OccurredAt e |}]> (threads d) !! t' = Some y ∧
    th_AccountID y = th_AccountID th0 ∧ th_ProjectID y = th_ProjectID th0) as Hy.
  { intros t' th0 Hth0. destruct (decide (t' = t)) as [->|?].
    - rewrite lookup_insert_eq. eexists. split; [done|]. rewrite Hth in Hth0. by injection Hth0 as <-.
    - rewrite lookup_insert_ne by done. eauto. }
  intros [[-> ->]|[_ Hx]]%recorded_run.
  - destruct (co_run _ Hok _ _ Hrun) as ((th0 & Hth0 & Ha & Hp) & _ & Hlast).
    destruct (Hy _ _ Hth0) as (y & Hy1 & Ha' & Hp'). destruct Hsame as [Et _ Ea Ep _ _ _].
    split; [|split; [apply recorded_status|]].
    + exists y. rewrite Et. split_and!; congruence.
    + destruct Hsource as [[_ ->]|(_ & ? & ->)]; lia.
  - destruct (co_run _ Hok _ _ Hx) as ((th0 & Hth0 & Ha & Hp) & ? & ?). split; [|done].
    destruct (Hy _ _ Hth0) as (y & ? & ? & ?). exists y. split_and!; congruence.
Qed.

Lemma recorded_keys id1 r1 id2 r2 :
  runs d' !! id1 = Some r1 → runs d' !! id2 = Some r2 → rw_ThreadID r1 = rw_ThreadID r2 →
  (rw_Status r1 = "running" → rw_Status r2 = "running" → id1 = id2) ∧
  (rw_IdempotencyKey r1 = rw_IdempotencyKey r2 → id1 = id2).
Proof.
  cbn. destruct Hsame as [Et _ _ _ Ek _ _]. 
  assert (∀ id x, runs d !! id = Some x → id ≠ er_RunID e → rw_ThreadID x = rw_ThreadID r →
            rw_Status r' = "running" → rw_Status x = "running" → False) as Hother.
  { intros id x Hx Hne Ht Hr' Hs. destruct (Halone Hr') as [Hr|Ho].
    - apply Hne. by eapply (co_running _ Hok).
    - rewrite other_running_false in Ho. apply (Ho id x); congruence. }
  intros [[-> ->]|[Hn1 H1]]%recorded_run [[-> ->]|[Hn2 H2]]%recorded_run Ht; split; intros; try done.
  - exfalso. eapply (Hother id2 r2); [done..|congruence|done|done].
  - eapply (co_key _ Hok); [exact Hrun|exact H2|congruence..].
  - exfalso. eapply (Hother id1 r1); [done..|congruence|done|done].
  - eapply (co_key _ Hok); [exact H1|exact Hrun|congruence..].
  - by eapply (co_running _ Hok).
  - by eapply (co_key _ Hok).
Qed.

Lemma recorded_events t' i x :
  events d' !! (t', i) = Some x →
  ∃ y, runs d' !! er_RunID x = Some y ∧ rw_ThreadID y = t' ∧
    (er_SourceEventID x ≠ "" → (0 < er_SourceSequence x ≤ rw_LastSourceSequence y)%Z).
Proof.
  destruct (co_run _ Hok _ _ Hrun) as (_ & _ & Hlast). pose proof (sr_thread _ _ Hsame). cbn. fold next.
  intros [[[= -> ->] ->]|[_ Hx]]%recorded_event.
  - exists r'. rewrite lookup_insert_eq. split_and!; [done|congruence|]. intros Hs.
    destruct Hsource as [[? _]|(_ & ? & ->)]; [done|lia].
  - destruct (co_event _ Hok _ _ _ Hx) as (y & Hy & Ht & Hb). destruct (decide (er_RunID x = er_RunID e)) as [Heq|Hne].
    + rewrite Heq, Hrun in Hy. injection Hy as <-. exists r'. rewrite Heq, lookup_insert_eq.
      split_and!; [done|congruence|]. intros Hs%Hb. destruct Hsource as [[_ ->]|(_ & ? & ->)]; lia.
    + exists y. by rewrite lookup_insert_ne.
Qed.

Lemma recorded_history id x :
  runs d' !! id = Some x → rw_Status x ≠ "pending" →
  ∃ i y, events d' !! (rw_ThreadID x, i) = Some y ∧ er_RunID y = id ∧ er_EventType y ∈ evidence (rw_Status x).
Proof.
  assert (∀ id0 r0, runs d !! id0 = Some r0 → rw_Status r0 ≠ "pending" → ∃ i y,
    events d' !! (rw_ThreadID r0, i) = Some y ∧ er_RunID y = id0 ∧ er_EventType y ∈ evidence (rw_Status r0)) as Hold.
  { intros id0 r0 Hr0 Hs. destruct (co_evidence _ Hok _ _ Hr0 Hs) as (i & y & Hy & ? & ?). exists i, y.
    split; [|done]. cbn. fold next. rewrite lookup_insert_ne; [done|]. intros [= Ht Hi].
    apply old_event_bound in Hy; [|done]. lia. }
  cbn [d' recorded runs]. intros [[-> ->]|[_ Hx]]%recorded_run Hs; [|by apply Hold].
  rewrite (sr_thread _ _ Hsame). destruct Hstatus as [Heq|[_ Hev]].
  - rewrite Heq in *. by apply Hold.
  - exists next, e. rewrite Hthread. cbn. fold next. by rewrite lookup_insert_eq.
Qed.

Lemma recorded_ok : conv_ok d'.
Proof.
  pose proof (sr_thread _ _ Hsame) as Ht'. destruct recorded_status as [_ Hpend]. split.
  - intros t' x (th0 & Hth0 & _ & _ & ->)%recorded_thread. pose proof (co_next _ Hok _ _ Hth0).
    destruct Hfresh as (Hth & _). pose proof (co_next _ Hok _ _ Hth). unfold next. case_bool_decide; lia.
  - apply recorded_stream.
  - apply recorded_runs.
  - intros id1 r1 id2 r2 H1 H2 Ht. by apply (recorded_keys id1 r1 id2 r2).
  - intros id1 r1 id2 r2 H1 H2 Ht. by apply (recorded_keys id1 r1 id2 r2).
  - apply recorded_events.
  - intros t' i j e1 e2 H1 H2 Hij Hr Hs1 Hs2. by apply (recorded_sources t' i j e1 e2).
  - intros t' i j e1 e2 H1 H2 Heq Hs. apply (recorded_sources t' i j e1 e2); [done..|congruence|done].
  - cbn. intros k m Hm. assert (∃ r0, runs d !! ms_RunID m = Some r0 ∧ ms_ThreadID m = rw_ThreadID r0) as (r0 & Hr0 & Hmt).
    { destruct (Hms k m Hm) as [(m0 & Hm0 & -> & ->)|[-> ->]]; [by apply (co_message _ Hok k)|by eauto]. }
    destruct (decide (ms_RunID m = er_RunID e)) as [Heq|Hne].
    + rewrite Heq, lookup_insert_eq. exists r'. split; [done|]. rewrite Heq, Hrun in Hr0. injection Hr0 as <-. congruence.
    + rewrite lookup_insert_ne by done. eauto.
  - intros k. cbn. fold next. intros Hk. assert (k = (t, next) ∨ k ∈ outbox d) as [->|Hk'].
    { destruct ob; [|by right]. set_solver. }
    { by rewrite lookup_insert_eq. }
    apply (co_outbox _ Hok) in Hk'. apply lookup_insert_is_Some'. by right.
  - cbn. fold next. intros t' i x Hx. destruct Hdef as [->|(y & -> & Hty & Hety & Hrid)].
    + destruct (co_deferred _ Hok _ _ _ Hx) as (? & y & Hy & ?). split; [done|]. exists y. split; [|done].
      rewrite lookup_insert_ne; [done|]. intros [= <- <-]. apply old_event_bound in Hy; [|done]. lia.
    + apply lookup_insert_Some in Hx as [[[= <- <-] <-]|[Hne Hx]]; [split; [done|]; exists e; by rewrite lookup_insert_eq|].
      destruct (co_deferred _ Hok _ _ _ Hx) as (? & z & Hz & ?). split; [done|]. exists z. by rewrite lookup_insert_ne.
  - cbn. fold next. intros t' i x y Hx Hty Hy Hs. apply recorded_event in Hx as [[[= -> ->] ->]|[Hk Hx]].
    + rewrite lookup_insert_eq in Hy. injection Hy as <-. by apply Hstart.
    + assert (is_Some (deferred d !! (t', i))) as Hd.
      { apply recorded_run in Hy as [[Hrid ->]|[_ Hy]]; [|by eapply (co_started _ Hok)].
        eapply (co_started _ Hok); [done..| |by apply Hpend]. by rewrite Hrid. }
      destruct Hdef as [->|(z & -> & _)]; [done|]. apply lookup_insert_is_Some'. by right.
  - apply recorded_history.
Qed.
End recorded.

(** ** Ingestion *)

Section ingestion.
Context `{!RFC3339, !PgTime, !Collation, !SliceSort}.

(** The row of an event. *)
Definition event_row (uuid process : string) (event : ExternalConversationEvent) : EventRow := {|
  er_EventID := uuid; er_RunID := xe_RunID event; er_ProcessID := process;
  er_SourceEventID := xe_SourceEventID event; er_SourceSequence := xe_SourceSequence event;
  er_EventType := xe_EventType event; er_OccurredAt := pg_time (xe_OccurredAt event);
  er_Payload := enc_map enc_any (xe_Payload event) |}.

Definition parked_row (event : ExternalConversationEvent) : DeferredRow := {|
  df_RunID := xe_RunID event; df_EventType := xe_EventType event; df_Attempts := 0 |}.

(** A new event: admitted, projected or parked, and recorded. *)
Record ingests (ob : bool) (d : DB) (event : ExternalConversationEvent) (stored : ConversationEvent) (d' : DB)
    (r r' : RunRow) (th : ThreadRow) (uuid : string) (ms : gmap string MessageRow)
    (def : gmap (string * Z) DeferredRow) : Prop := {
  in_run : runs d !! xe_RunID event = Some r;
  in_scope : validateEventRunScope (scanRun (xe_RunID event) r) event = inl tt;
  in_new : event_with_source d (xe_ThreadID event) (xe_SourceEventID event) = None;
  in_later : (rw_LastSourceSequence r < xe_SourceSequence event)%Z;
  in_fresh : event_fresh d (xe_ThreadID event) th (event_row uuid (rw_ProcessID r) event);
  in_result : d' = recorded ob d (xe_ThreadID event) th (event_row uuid (rw_ProcessID r) event)
                     (advance_row event r') ms def;
  in_stored : stored = answered (xe_ThreadID event) (th_NextSequence th + 1)
                         (event_row uuid (rw_ProcessID r) event) (xe_OccurredAt event) (xe_Payload event);
  in_projection :
    (projects d (xe_RunID event) r event
       {| d with runs := <[xe_RunID event := r']> (runs d); messages := ms |} ∧
     same_run r r' ∧ rw_LastSourceSequence r' = rw_LastSourceSequence r ∧
     by_event (xe_EventType event) (rw_Status r) (rw_Status r') ∧ (rw_Status r' = rw_Status r → r' = r) ∧
     (r' = r ∨ check_run d (xe_RunID event) r' = None) ∧
     messages_follow d (xe_RunID event) (rw_ThreadID r) (xe_EventType event) (xe_Payload event) ms ∧
     def = deferred d) ∨
    (xe_EventType event = ConversationEventRunStarted ∧ r' = r ∧ ms = messages d ∧
     def = <[(xe_ThreadID event, th_NextSequence th + 1)%Z := parked_row event]> (deferred d));
}.

Definition ingested (ob : bool) (d : DB) (event : ExternalConversationEvent) (stored : ConversationEvent) (d' : DB) : Prop :=
  (∃ r k, runs d !! xe_RunID event = Some r ∧
     validateEventRunScope (scanRun (xe_RunID event) r) event = inl tt ∧
     event_with_source d (xe_ThreadID event) (xe_SourceEventID event) = Some k ∧
     stored = scanEvent k.1.1 k.1.2 k.2 ∧ d' = d) ∨
  (∃ r r' th uuid ms def, ingests ob d event stored d' r r' th uuid ms def).

Lemma scope_thread id r event :
  validateEventRunScope (scanRun id r) event = inl tt →
  rw_ThreadID r = xe_ThreadID event ∧ rw_AccountID r = xe_AccountID event ∧ rw_ProjectID r = xe_ProjectID event.
Proof.
  unfold validateEventRunScope. cbn. destruct (_ || _ || _) eqn:Hc; [done|]. intros _.
  apply orb_false_iff in Hc as [[Ht Ha]%orb_false_iff Hp]. by simplify_bool.
Qed.

(** The recording of an event whose run and messages are settled. *)
Lemma record_tail ob d event r r' ms (parked : bool) :
  conv_ok d → runs d !! xe_RunID event = Some r →
  tri {| d with runs := <[xe_RunID event := r']> (runs d); messages := ms |}
    (stored ← appendEvent ob (xe_ThreadID event) (xe_RunID event) (rw_ProcessID r)
                 (xe_SourceEventID event) (xe_SourceSequence event) (xe_EventType event)
                 (xe_OccurredAt event) (xe_Payload event);
     (if parked
      then deferProjection (xe_ThreadID event) (ce_Sequence stored) (xe_RunID event) (xe_EventType event)
      else mret tt);;
     advanceRunCursor event;;
     mret stored)
    (λ stored d', ∃ th uuid, let e := event_row uuid (rw_ProcessID r) event in
       let def := if parked then <[(xe_ThreadID event, th_NextSequence th + 1)%Z := parked_row event]> (deferred d)
                  else deferred d in
       event_fresh d (xe_ThreadID event) th e ∧
       d' = recorded ob d (xe_ThreadID event) th e (advance_row event r') ms def ∧
       stored = answered (xe_ThreadID event) (th_NextSequence th + 1) e (xe_OccurredAt event) (xe_Payload event)).
Proof.
  intros Hok Hrun. set (d1 := Build_DB _ _ _ _ _ _). tx_step. eapply tri_mono; [apply append_spec|].
  intros stored d2 (th & uuid & Hfresh & -> & ->). set (e := event_row uuid (rw_ProcessID r) event) in *.
  assert (event_fresh d (xe_ThreadID event) th e) as Hfresh'.
  { destruct Hfresh as (? & _ & ?). split; [done|]. split; [by eexists|done]. }
  set (next := (th_NextSequence th + 1)%Z). set (t := xe_ThreadID event) in *.
  set (def := if parked then <[(t, next) := parked_row event]> (deferred d) else deferred d).
  set (d2 := with_event ob d1 t th e) in *.
  tx_step. apply (tri_mono _ _ (λ _ d', d' = {| d2 with deferred := def |})).
  - destruct parked; [|by tx_step]. unfold deferProjection. tx_step. unfold insert_deferred. cbn. fold next t.
    destruct (deferred d !! (t, next)) as [x|] eqn:Hx.
    { apply (co_deferred _ Hok) in Hx as (_ & y & Hy & _). destruct Hfresh' as (_ & _ & Hn & _). fold next in Hn. congruence. }
    rewrite !lookup_insert_eq. by intros [= <- _].
  - intros [] d' ->. tx_step. unfold advanceRunCursor. tx_step. intros Hu%update_run_spec. cbn in Hu.
    rewrite lookup_insert_eq in Hu. destruct Hu as [-> _]. tx_step. exists th, uuid. split_and!; [done| |done].
    unfold recorded, with_run. cbn. by rewrite insert_insert_eq.
Qed.

Lemma persist_spec ob d event :
  conv_ok d → tri d (persistEvent ob event) (ingested ob d event).
Proof.
  intros Hok. unfold persistEvent, admitEvent, lockRun. tx_step. tx_step. tx_step. tx_step.
  destruct (runs d !! xe_RunID event) as [r|] eqn:Hrun; [|apply tri_throw]. tx_step. tx_step.
  apply tri_lift. intros [] Hscope. unfold eventBySource. tx_step. tx_step.
  destruct (event_with_source d _ _) as [k|] eqn:Hk; cbn.
  { tx_step. cbn. tx_step. left. by exists r, k. }
  tx_step. tx_step. cbn. tx_step. unfold record_event. tx_step.
  assert (∀ k m, messages d !! k = Some m → ms_RunID m = xe_RunID event → ms_ThreadID m = rw_ThreadID r) as Hown.
  { intros x m Hm Heq. destruct (co_message _ Hok _ _ Hm) as (r0 & Hr0 & ->). congruence. }
  apply tri_catch_savepoint.
  - eapply tri_mono; [by apply projection_spec|].
    intros [] d1 (r' & ms & -> & Hsame & Hlast & Hby & Hkeep & Hcheck & Hms).
    eapply tri_mono; [by apply (record_tail ob d event r r' ms false)|].
    intros stored d' (th & uuid & Hfresh & -> & ->). right. exists r, r', th, uuid, ms, (deferred d).
    split; try done; [lia|]. left. split_and!; try done. by exists r', ms.
  - intros err. destruct (projectionIsParked event err) eqn:Hp; [|apply tri_throw].
    apply andb_true_iff in Hp as [Hp _]. apply bool_decide_eq_true in Hp.
    replace d with {| d with runs := <[xe_RunID event := r]> (runs d); messages := messages d |} at 1
      by (destruct d; cbn in *; by rewrite insert_id).
    eapply tri_mono; [by apply (record_tail ob d event r r (messages d) true)|].
    intros stored d' (th & uuid & Hfresh & -> & ->). right. eexists r, r, th, uuid, (messages d), _.
    split; try done; [lia|]. right. done.
Qed.

Lemma by_event_evidence ty s s' :
  by_event ty s s' → s' = s ∨ s' ∈ ["running"; "completed"; "interrupted"; "error"] ∧ ty ∈ evidence s'.
Proof.
  intros [(-> & _ & ->)|[(-> & _ & ->)|[(-> & _ & Hs)|(_ & ->)]]]; [| | |by left]; right.
  - split; [set_solver|]. cbn. set_solver.
  - split; [set_solver|]. cbn. set_solver.
  - split; [set_solver|]. apply elem_of_cons in Hs as [->|[->|[->|[]%not_elem_of_nil]%elem_of_cons]%elem_of_cons];
      cbn; set_solver.
Qed.

Lemma ingests_ok ob d event stored d' r r' th uuid ms def :
  conv_ok d → xe_SourceEventID event ≠ "" →
  ingests ob d event stored d' r r' th uuid ms def → conv_ok d'.
Proof.
  intros Hok Hsrc [Hrun (Ht & _ & _)%scope_thread Hnew Hlater Hfresh -> -> Hproj].
  destruct Hproj as [(_ & Hsame & Hlast & Hby & _ & Hcheck & [Hms _] & ->)|(Hty & -> & -> & ->)].
  - eapply recorded_ok; try done; cbn.
    + by destruct Hsame.
    + by apply by_event_evidence in Hby.
    + intros Hs. destruct Hcheck as [->|[_ Hc]%check_run_None]; [by left|]. right.
      rewrite <- Ht, <- (sr_thread _ _ Hsame). by apply Hc.
    + right. split_and!; [done|lia|done].
    + rewrite <- Ht. exact Hms.
    + by left.
    + intros Hty Hs. exfalso. rewrite Hty in Hby.
      destruct Hby as [(_ & _ & ?)|[(Hbad & _)|[(Hbad & _)|[Hno _]]]]; [congruence|discriminate Hbad..|set_solver].
  - eapply recorded_ok; try done; cbn.
    + by left.
    + intros Hs. by left.
    + right. split_and!; [done|lia|done].
    + intros k m Hm. left. by exists m.
    + right. eexists. by split_and!.
    + intros _ _. by rewrite lookup_insert_eq.
Qed.

Lemma ingested_ok ob d event stored d' :
  conv_ok d → xe_SourceEventID event ≠ "" → ingested ob d event stored d' → conv_ok d'.
Proof.
  intros Hok Hsrc [(r & k & _ & _ & _ & _ & ->)|(r & r' & th & uuid & ms & def & Hin)]; [done|].
  by eapply ingests_ok.
Qed.

(** ** Admission *)

Definition thread_row (spec : StartConversationRunSpec) : ThreadRow := {|
  th_AccountID := ss_AccountID spec; th_ProjectID := ss_ProjectID spec; th_NextSequence := 0;
  th_CreatedAt := pg_time (ss_RequestedAt spec); th_UpdatedAt := pg_time (ss_RequestedAt spec) |}.

Definition run_row (spec : StartConversationRunSpec) (dbnow : time) : RunRow := {|
  rw_ThreadID := ss_ThreadID spec; rw_ProcessID := ss_ProcessID spec;
  rw_AccountID := ss_AccountID spec; rw_ProjectID := ss_ProjectID spec;
  rw_Status := ConversationRunPending; rw_Outcome := ""; rw_Interrupt := None;
  rw_ErrorCode := ""; rw_ErrorMessage := ""; rw_IdempotencyKey := ss_IdempotencyKey spec;
  rw_ResumeInterruptID := from_option rs_InterruptID "" (ss_Resume spec);
  rw_Metadata := enc_map enc_any (ss_RunMetadata spec); rw_LastSourceSequence := 0;
  rw_CreatedAt := pg_time (ss_RequestedAt spec); rw_StartedAt := None; rw_CompletedAt := None;
  rw_LastActivityAt := pg_time dbnow |}.

Definition user_row (spec : StartConversationRunSpec) : MessageRow := {|
  ms_ThreadID := ss_ThreadID spec; ms_RunID := ss_RunID spec; ms_ProcessID := ss_ProcessID spec;
  ms_Role := "user"; ms_Content := ss_UserMessage spec; ms_Status := "completed";
  ms_Attachments := JArray (enc_Attachment <$> ss_Attachments spec);
  ms_Metadata := enc_map enc_any (ss_MessageMetadata spec);
  ms_CreatedAt := pg_time (ss_RequestedAt spec);
  ms_CompletedAt := Some (pg_time (ss_RequestedAt spec)) |}.

Definition user_event (uuid : string) (spec : StartConversationRunSpec) (x : string * gmap string any) : EventRow := {|
  er_EventID := uuid; er_RunID := ss_RunID spec; er_ProcessID := ss_ProcessID spec;
  er_SourceEventID := ""; er_SourceSequence := 0; er_EventType := x.1;
  er_OccurredAt := pg_time (ss_RequestedAt spec); er_Payload := enc_map enc_any (Some x.2) |}.

(** The tables after the events of a user message were appended. *)
Inductive appends (ob : bool) (spec : StartConversationRunSpec) : list (string * gmap string any) → DB → DB → Prop :=
  | appends_nil d : appends ob spec [] d d
  | appends_cons x l d th uuid d' :
      event_fresh d (ss_ThreadID spec) th (user_event uuid spec x) →
      appends ob spec l (with_event ob d (ss_ThreadID spec) th (user_event uuid spec x)) d' →
      appends ob spec (x :: l) d d'.

(** The thread of a request: the stored one, of the same tenant, or a new one. *)
Definition thread_for (d : DB) (spec : StartConversationRunSpec) (d0 : DB) : Prop :=
  (∃ th, threads d !! ss_ThreadID spec = Some th ∧ th_AccountID th = ss_AccountID spec ∧
     th_ProjectID th = ss_ProjectID spec ∧ d0 = d) ∨
  (threads d !! ss_ThreadID spec = None ∧
   d0 = {| d with threads := <[ss_ThreadID spec := thread_row spec]> (threads d) |}).

(** The run is known, or it is admitted with its message. *)
Definition started (ob : bool) (d : DB) (spec : StartConversationRunSpec) (run : ConversationRun) (d' : DB) : Prop :=
  ∃ d0, thread_for d spec d0 ∧
    ((∃ k, run_with_key d0 (ss_ThreadID spec) (ss_IdempotencyKey spec) = Some k ∧
        run = scanRun k.1 k.2 ∧ d' = d0) ∨
     (∃ dbnow, run_with_key d0 (ss_ThreadID spec) (ss_IdempotencyKey spec) = None ∧
        runs d !! ss_RunID spec = None ∧ messages d !! ss_MessageID spec = None ∧
        cr_RunID run = ss_RunID spec ∧ cr_Status run = ConversationRunPending ∧
        appends ob spec (user_message_events spec)
          {| d0 with runs := <[ss_RunID spec := run_row spec dbnow]> (runs d);
                     messages := <[ss_MessageID spec := user_row spec]> (messages d) |} d')).

Lemma append_all_spec ob d spec l :
  tri d (append_all ob spec l) (λ _ d', appends ob spec l d d').
Proof.
  revert d. induction l as [|[ty p] l IH]; intros d; cbn [append_all]; [tx_step; constructor|].
  tx_step. eapply tri_mono; [apply append_spec|]. intros ev d1 (th & uuid & Hfresh & -> & _).
  eapply tri_mono; [apply IH|]. intros [] d' Hl. by eapply (appends_cons _ _ (ty, p)).
Qed.

Lemma insert_run_spec id row d d' n :
  insert_run id row d = inl (d', n) →
  (n = 0%Z ∧ d' = d ∧ is_Some (run_with_key d (rw_ThreadID row) (rw_IdempotencyKey row))) ∨
  (n = 1%Z ∧ d' = with_run d id row ∧ runs d !! id = None ∧
   run_with_key d (rw_ThreadID row) (rw_IdempotencyKey row) = None).
Proof.
  unfold insert_run. destruct (negb _); [done|]. destruct (run_with_key _ _ _) as [k|] eqn:Hk.
  { intros [= <- <-]. left. by split_and!. }
  destruct (runs d !! id) eqn:Hr; [done|]. destruct (check_run _ _ _); [done|].
  destruct (threads d !! _); [|done]. intros [= <- <-]. by right.
Qed.

Lemma start_spec ob d spec : tri d (persistStartRun ob spec) (started ob d spec).
Proof.
  unfold persistStartRun, prepareNewRun, ensureThread. tx_step. tx_step.
  apply (tri_mono _ _ (λ _, thread_for d spec)).
  { tx_step. tx_step. destruct (threads d !! _) as [th|] eqn:Hth.
    - apply tri_guard. intros [Ha Hp]%orb_false_iff. simplify_bool. left. by exists th.
    - tx_step. unfold insert_thread. rewrite Hth. intros [= <- _]. by right. }
  intros [] d0 Hd0. assert (runs d0 = runs d ∧ messages d0 = messages d) as [Eruns Ems].
  { by destruct Hd0 as [(? & _ & _ & _ & ->)|[_ ->]]. }
  unfold getRunByIdempotency. tx_step. tx_step.
  destruct (run_with_key d0 _ _) as [k|] eqn:Hk; cbn.
  { tx_step. tx_step. exists d0. split; [done|]. left. by exists k. }
  tx_step. apply (tri_mono _ _ (λ _ d', d' = d0)).
  { unfold validateResume. tx_step. tx_step. tx_steps; done. }
  intros [] d1 ->. tx_step. unfold insertConversationRun, marshalJSON.
  destruct (supported (enc_map enc_any (ss_RunMetadata spec))); [|apply tri_bind, tri_throw].
  tx_step. tx_step. tx_step. tx_step. tx_step.
  intros [(_ & _ & [k Hk'])|(-> & -> & Hr & _)]%insert_run_spec; [by cbn in Hk'; rewrite Hk in Hk'|].
  tx_step. change (1%Z == 1%Z) with true. cbv iota. tx_step. unfold insertUserMessage, marshalJSON.
  destruct (supported (JArray _)); [|apply tri_throw].
  destruct (supported (enc_map enc_any (ss_MessageMetadata spec))); [|apply tri_throw]. tx_step. unfold insert_message.
  cbn [messages with_run].
  destruct (check_message _ _) as [[]|]; destruct (messages d0 !! ss_MessageID spec) eqn:Hm; try done.
  intros [= <- _]. tx_step. eapply tri_mono; [apply (append_all_spec ob _ spec (user_message_events spec))|]. intros [] d' Happ. tx_step.
  exists d0. split; [done|]. right. eexists. split_and!; try done; [congruence..|].
  unfold with_run in Happ. cbn in Happ. rewrite Eruns, Ems in Happ. exact Happ.
Qed.

(** The tables with a new thread. *)
Lemma thread_ok d spec d0 : conv_ok d → thread_for d spec d0 → conv_ok d0.
Proof.
  intros Hok [(th & _ & _ & _ & ->)|[Hnone ->]]; [done|]. destruct Hok. split; cbn; try done.
  - intros t th [[<- <-]|[_ ?]]%lookup_insert_Some; [done|by eauto].
  - intros t i. rewrite co_stream0. split; intros (th & Hth & Hi).
    + exists th. split; [|done]. rewrite lookup_insert_ne; [done|congruence].
    + apply lookup_insert_Some in Hth as [[<- <-]|[_ ?]]; [cbn in Hi; lia|by eauto].
  - intros id r Hr. destruct (co_run0 id r Hr) as ((th & Hth & ?) & ?). split; [|done].
    exists th. rewrite lookup_insert_ne; [done|congruence].
Qed.

(** The tables with a new run and its message. *)
Lemma admitted_ok d spec dbnow th :
  conv_ok d → threads d !! ss_ThreadID spec = Some th → th_AccountID th = ss_AccountID spec →
  th_ProjectID th = ss_ProjectID spec →
  run_with_key d (ss_ThreadID spec) (ss_IdempotencyKey spec) = None →
  runs d !! ss_RunID spec = None →
  conv_ok {| d with runs := <[ss_RunID spec := run_row spec dbnow]> (runs d);
                    messages := <[ss_MessageID spec := user_row spec]> (messages d) |}.
Proof.
  intros Hok Hth Ha Hp Hkey Hnew. rewrite run_with_key_None in Hkey. destruct Hok. split; cbn; try done.
  - intros id r [[<- <-]|[_ Hr]]%lookup_insert_Some; [|by apply (co_run0 id)].
    cbn. split_and!; [by exists th|set_solver|done].
  - intros id1 r1 id2 r2 [[<- <-]|[_ Hx1]]%lookup_insert_Some [[<- <-]|[_ Hx2]]%lookup_insert_Some; try done.
    by eapply co_running0.
  - intros id1 r1 id2 r2 [[<- <-]|[_ Hx1]]%lookup_insert_Some [[<- <-]|[_ Hx2]]%lookup_insert_Some; cbn; try done.
    + intros Ht Hk. by destruct (Hkey _ _ Hx2).
    + intros Ht Hk. by destruct (Hkey _ _ Hx1).
    + by eapply co_key0.
  - intros t i e He. destruct (co_event0 _ _ _ He) as (r & Hr & ?). exists r.
    rewrite lookup_insert_ne; [done|congruence].
  - intros k m [[<- <-]|[_ Hm]]%lookup_insert_Some; [exists (run_row spec dbnow); by rewrite lookup_insert_eq|].
    destruct (co_message0 _ _ Hm) as (r & Hr & ?). exists r. rewrite lookup_insert_ne; [done|congruence].
  - intros t i e r He Hty Hr Hs. destruct (co_event0 _ _ _ He) as (r0 & Hr0 & _).
    rewrite lookup_insert_ne in Hr by congruence. exact (co_started0 _ _ _ _ He Hty Hr Hs).
  - intros id r [[<- <-]|[_ Hr]]%lookup_insert_Some Hs; [done|by eapply co_evidence0].
Qed.

Lemma appends_ok ob spec l d d' :
  appends ob spec l d d' → Forall (λ x, x.1 ≠ ConversationEventRunStarted) l →
  conv_ok d → (∃ r, runs d !! ss_RunID spec = Some r ∧ rw_ThreadID r = ss_ThreadID spec) → conv_ok d'.
Proof.
  induction 1 as [|x l d th uuid d' Hfresh _ IH]; [done|].
  intros [Hx Hl]%Forall_cons Hok (r & Hr & Ht). apply IH; [done| |by exists r].
  replace (with_event ob d _ th _) with
    (recorded ob d (ss_ThreadID spec) th (user_event uuid spec x) r (messages d) (deferred d))
    by (unfold recorded; cbn; rewrite (insert_id (runs d)) by done; done).
  eapply recorded_ok; try done; cbn; try by left.
  intros k m Hm. left. by exists m.
Qed.

Lemma started_ok ob d spec run d' : conv_ok d → started ob d spec run d' → conv_ok d'.
Proof.
  intros Hok (d0 & Hd0 & Hrest). pose proof (thread_ok _ _ _ Hok Hd0) as Hok0.
  destruct Hrest as [(k & _ & _ & ->)|(dbnow & Hkey & Hnew & Hm & _ & _ & Happ)]; [done|].
  assert (∃ th, threads d0 !! ss_ThreadID spec = Some th ∧ th_AccountID th = ss_AccountID spec ∧
            th_ProjectID th = ss_ProjectID spec) as (th & Hth & Ha & Hp).
  { destruct Hd0 as [(th & ? & ? & ? & ->)|[_ ->]]; [by exists th|].
    exists (thread_row spec). cbn. by rewrite lookup_insert_eq. }
  assert (runs d0 = runs d ∧ messages d0 = messages d) as [Eruns Ems].
  { by destruct Hd0 as [(? & _ & _ & _ & ->)|[_ ->]]. }
  eapply (appends_ok _ _ _ _ _ Happ); [by repeat constructor| |].
  - rewrite <- Eruns, <- Ems. eapply admitted_ok; try done. by rewrite Eruns.
  - exists (run_row spec dbnow). cbn. by rewrite lookup_insert_eq.
Qed.

(** ** Sweeps *)

Lemma count_loop_tri {A} (I : DB → Prop) (f : A → Tx bool) l n d :
  (∀ a d, a ∈ l → I d → tri d (f a) (λ _ d', I d')) → I d → tri d (count_loop f l n) (λ _ d', I d').
Proof.
  revert n d. induction l as [|a l IH]; intros n d Hf Hd; cbn [count_loop]; [by tx_step|].
  tx_step. eapply tri_mono; [apply Hf; [left|done]|]. intros b d' Hd'. apply IH; [|done].
  intros a' d'' Ha. apply Hf. by right.
Qed.

(** The event of a parked projection. *)
Definition stored_event (t : string) (e : EventRow) : ExternalConversationEvent := {|
  xe_ThreadID := t; xe_RunID := er_RunID e; xe_ProcessID := er_ProcessID e;
  xe_AccountID := ""; xe_ProjectID := ""; xe_SourceEventID := er_SourceEventID e;
  xe_SourceSequence := er_SourceSequence e; xe_EventType := er_EventType e;
  xe_OccurredAt := er_OccurredAt e; xe_Payload := decode_map (er_Payload e) |}.

(** The tables after a parked start was applied. *)
Definition unparked (d : DB) (t : string) (i : Z) (id : string) (r' : RunRow) (ms : gmap string MessageRow) : DB :=
  {| d with runs := <[id := r']> (runs d); messages := ms; deferred := delete (t, i) (deferred d) |}.

Lemma unparked_ok d t i e r r' ms :
  conv_ok d → events d !! (t, i) = Some e → er_EventType e = ConversationEventRunStarted →
  runs d !! er_RunID e = Some r → same_run r r' → rw_LastSourceSequence r' = rw_LastSourceSequence r →
  rw_Status r' = "running" → check_run d (er_RunID e) r' = None →
  messages_follow d (er_RunID e) (rw_ThreadID r) ConversationEventRunStarted (decode_map (er_Payload e)) ms →
  conv_ok (unparked d t i (er_RunID e) r' ms).
Proof.
  intros Hok He Hty Hr [Et _ Ea Ep Ek _ _] Hlast Hs [_ Hother]%check_run_None [Hms _].
  specialize (Hother Hs). rewrite other_running_false, Et in Hother.
  assert (t = rw_ThreadID r) as ->.
  { destruct (co_event _ Hok _ _ _ He) as (r0 & Hr0 & <- & _). congruence. }
  pose proof Hok as []. split; cbn; try done.
  - intros id x [[<- <-]|[_ Hx]]%lookup_insert_Some; [|by apply (co_run0 id)].
    destruct (co_run0 _ _ Hr) as (Hth & _ & ?). rewrite Et, Ea, Ep, Hs, Hlast. split_and!; [done|set_solver|done].
  - intros id1 r1 id2 r2 [[<- <-]|[Hn1 Hx1]]%lookup_insert_Some [[<- <-]|[Hn2 Hx2]]%lookup_insert_Some; try done.
    + intros Ht _ Hs2. rewrite Et in Ht. by destruct (Hother _ _ Hx2).
    + intros Ht Hs1 _. rewrite Et in Ht. by destruct (Hother _ _ Hx1).
    + by eapply co_running0.
  - intros id1 r1 id2 r2 [[<- <-]|[Hn1 Hx1]]%lookup_insert_Some [[<- <-]|[Hn2 Hx2]]%lookup_insert_Some; try done;
      rewrite ?Et, ?Ek; by eapply co_key0.
  - intros t' j x Hx. destruct (co_event0 _ _ _ Hx) as (y & Hy & Ht & Hb).
    destruct (decide (er_RunID x = er_RunID e)) as [Heq|Hne].
    + rewrite Heq, Hr in Hy. injection Hy as <-. exists r'. rewrite Heq, lookup_insert_eq, Et, Hlast. done.
    + exists y. by rewrite lookup_insert_ne.
  - intros k m Hm. assert (∃ r0, runs d !! ms_RunID m = Some r0 ∧ ms_ThreadID m = rw_ThreadID r0) as (r0 & Hr0 & Hmt).
    { destruct (Hms k m Hm) as [(m0 & Hm0 & -> & ->)|[-> ->]]; [by apply (co_message0 k)|by eauto]. }
    destruct (decide (ms_RunID m = er_RunID e)) as [Heq|Hne].
    + rewrite Heq, lookup_insert_eq. exists r'. split; [done|]. rewrite Heq, Hr in Hr0. injection Hr0 as <-. congruence.
    + rewrite lookup_insert_ne by done. eauto.
  - intros t' j x [_ Hx]%lookup_delete_Some. by apply co_deferred0.
  - intros t' j x y Hx Hty' Hy Hs'. apply lookup_insert_Some in Hy as [[_ <-]|[Hn Hy]]; [congruence|].
    rewrite lookup_delete_ne; [exact (co_started0 _ _ _ _ Hx Hty' Hy Hs')|]. intros [= <- <-].
    rewrite He in Hx. by injection Hx as <-.
  - intros id x [[<- <-]|[_ Hx]]%lookup_insert_Some Hnp; [|by apply co_evidence0].
    exists i, e. rewrite Et, Hs, Hty. split_and!; [done..|]. cbn. set_solver.
Qed.

(** Applying a parked start: the start is projected and its row removed. *)
Lemma apply_deferred_spec d entry e :
  conv_ok d → events d !! (dp_threadID entry, dp_sequence entry) = Some e →
  er_EventType e = ConversationEventRunStarted → er_RunID e = dp_runID entry →
  tri d (applyDeferredProjection entry) (λ done d', done = true ∧ ∃ r r' ms,
    runs d !! er_RunID e = Some r ∧ d' = unparked d (dp_threadID entry) (dp_sequence entry) (er_RunID e) r' ms ∧
    same_run r r' ∧ rw_LastSourceSequence r' = rw_LastSourceSequence r ∧
    by_event ConversationEventRunStarted (rw_Status r) (rw_Status r') ∧ check_run d (er_RunID e) r' = None ∧
    messages_follow d (er_RunID e) (rw_ThreadID r) ConversationEventRunStarted (decode_map (er_Payload e)) ms).
Proof.
  intros Hok He Hty Hrid. unfold applyDeferredProjection, lockRun. tx_step. tx_step. tx_step.
  rewrite <- Hrid. destruct (runs d !! er_RunID e) as [r|] eqn:Hr; [|apply tri_throw]. tx_step.
  unfold storedEvent. tx_step. tx_step. rewrite He. cbn -[applyEventProjection catch mbind].
  fold (stored_event (dp_threadID entry) e). intros env n. unfold mbind, Tx_bind, catch.
  assert (∀ k m, messages d !! k = Some m → ms_RunID m = er_RunID e → ms_ThreadID m = rw_ThreadID r) as Hown.
  { intros x m Hm Heq. destruct (co_message _ Hok _ _ Hm) as (r0 & Hr0 & ->). congruence. }
  pose proof (projection_spec d (er_RunID e) r (stored_event (dp_threadID entry) e) Hr Hown env n) as Hproj.
  destruct (applyEventProjection _ _ env (tx_at d n)) as [s [u|err]] eqn:Happ.
  - destruct Hproj as [Hf (r' & ms & Hd & Hsame & Hlast & Hby & _ & Hcheck & Hms)]. destruct s as [d1 f n1].
    cbn in *. subst f d1. cbn. split; [done|]. split; [done|]. rewrite Hty in *. exists r, r', ms. split_and!; try done.
    destruct Hcheck as [->|?]; [|done]. exfalso.
    destruct Hby as [(_ & ? & ?)|[(Hbad & _)|[(Hbad & _)|[Hno _]]]]; [congruence|discriminate Hbad..|set_solver].
  - destruct (is_conv _ err) eqn:Hconv; [|done]. enough (tx_failed s = true) as Hfail.
    { unfold recordDeferredAttempt, exec. by rewrite Hfail. }
    revert Happ. unfold applyEventProjection. cbn -[update_run requireRunStatus]. rewrite Hty.
    rewrite bool_decide_eq_true_2 by done. unfold requireRunStatus, guard_tx, mbind, Tx_bind, catch, exec.
    destruct (cr_Status _ != ConversationRunPending); cbn -[update_run]; [by intros [= <- <-]|].
    destruct (update_run _ _ d) as [[d1 u]|code]; cbn; [done|]. by intros [= <- _].
Qed.

Lemma waiting_entry d entry :
  conv_ok d → entry ∈ waiting_projections d →
  ∃ e, events d !! (dp_threadID entry, dp_sequence entry) = Some e ∧
    er_EventType e = ConversationEventRunStarted ∧ er_RunID e = dp_runID entry.
Proof.
  intros Hok. unfold waiting_projections. rewrite elem_of_sort_slice, list_elem_of_omap.
  intros ([[t i] x] & Hin%elem_of_map_to_list & Hx). cbn in Hx. destruct (thread_running d t); [done|].
  injection Hx as <-. cbn. by apply (co_deferred _ Hok) in Hin as [_ ?].
Qed.

(** ** The system *)

(** The requests that a statement is about. *)
Record requests := {
  admits_start : StartConversationRunSpec → Prop;
  admits_event : ExternalConversationEvent → Prop;
}.

Definition all_requests : requests := {| admits_start _ := True; admits_event _ := True |}.

(** One transaction: a request, a sweep, or the drainer taking an event off the outbox. *)
Inductive conv_step (ob : bool) (q : requests) (d : DB) : DB → Prop :=
  | step_start env0 env s spec :
      prepareStartSpec env0 s = inl spec → admits_start q spec →
      conv_step ob q d (withConversationTx (persistStartRun ob spec) env d).1
  | step_ingest env0 env x event :
      prepareExternalEvent env0 x = inl event → admits_event q event →
      conv_step ob q d (withConversationTx (persistEvent ob event) env d).1
  | step_abandon lease env : conv_step ob q d (abandonExpiredRuns ob lease env d).1
  | step_deferred env : conv_step ob q d (applyDeferredProjections env d).1
  | step_published k : conv_step ob q d {| d with outbox := outbox d ∖ {[k]} |}.

Definition conv_reachable (ob : bool) (q : requests) : DB → Prop := rtc (conv_step ob q) empty_DB.

(** What one part of a transaction does, and, where [pub] allows it, the drainer. *)
Inductive micro (ob : bool) (q : requests) (pub : bool) (d : DB) : DB → Prop :=
  | micro_start spec run d' : admits_start q spec → started ob d spec run d' → micro ob q pub d d'
  | micro_ingest event stored d' :
      admits_event q event ∨ (∃ run n now, event = abandonment run n now) →
      xe_SourceEventID event ≠ "" → ingested ob d event stored d' → micro ob q pub d d'
  | micro_unpark t i e r r' ms :
      events d !! (t, i) = Some e → er_EventType e = ConversationEventRunStarted →
      runs d !! er_RunID e = Some r → same_run r r' → rw_LastSourceSequence r' = rw_LastSourceSequence r →
      by_event ConversationEventRunStarted (rw_Status r) (rw_Status r') → check_run d (er_RunID e) r' = None →
      messages_follow d (er_RunID e) (rw_ThreadID r) ConversationEventRunStarted (decode_map (er_Payload e)) ms →
      micro ob q pub d (unparked d t i (er_RunID e) r' ms)
  | micro_published k : pub = true → micro ob q pub d {| d with outbox := outbox d ∖ {[k]} |}.

Lemma by_started s s' : by_event ConversationEventRunStarted s s' → s = "pending" ∧ s' = "running".
Proof.
  intros [(_ & ? & ?)|[(Hbad & _)|[(Hbad & _)|[Hno _]]]]; [done|discriminate Hbad..|set_solver].
Qed.

Lemma micro_ok ob q pub d d' : conv_ok d → micro ob q pub d d' → conv_ok d'.
Proof.
  intros Hok [spec run d1 _ Hs|event stored d1 _ Hsrc Hin|t i e r r' ms He Hty Hr Hsame Hlast [_ Hby]%by_started Hc Hms|k _].
  - by eapply started_ok.
  - by eapply ingested_ok.
  - by eapply unparked_ok.
  - destruct Hok. split; cbn; try done. intros k' [Hk _]%elem_of_difference. by apply co_outbox0.
Qed.

Lemma micros_ok ob q pub d d' : conv_ok d → rtc (micro ob q pub) d d' → conv_ok d'.
Proof. intros Hok. induction 1 as [|d d1 d2 Hs _ IH]; [done|]. apply IH. by eapply micro_ok. Qed.

Section loops.
Context (ob : bool) (q : requests) (pub : bool) (d : DB).
Hypothesis Hok : conv_ok d.
Let inv (d' : DB) : Prop := rtc (micro ob q pub) d d'.

Lemma abandon_run_micro run d1 : inv d1 → tri d1 (abandonRun ob run) (λ _, inv).
Proof.
  intros Hd1. pose proof (micros_ok _ _ _ _ _ Hok Hd1) as Hok1. unfold abandonRun, lockRun. tx_step. tx_step. tx_step.
  destruct (runs d1 !! _) as [r|]; [|apply tri_throw]. tx_step. tx_step. tx_step.
  case_match; [|apply tri_throw]. case_match; [by tx_step|]. tx_step. tx_step. tx_step.
  eapply tri_mono; [by apply persist_spec|]. intros stored d2 Hin. tx_step. eapply rtc_r; [exact Hd1|].
  eapply micro_ingest; [right; by eauto|done|exact Hin].
Qed.

Lemma abandon_micro lease : tri d (abandon_expired ob lease) (λ _, inv).
Proof.
  unfold abandon_expired, expiredRunningRuns. tx_step. tx_step. tx_step. tx_step.
  apply count_loop_tri; [|by apply rtc_refl]. intros run d' _ Hd'. tx_step.
  eapply tri_mono; [by apply abandon_run_micro|]. intros [] d'' Hd''. by tx_step.
Qed.

Lemma apply_all_micro : tri d apply_deferred (λ _, inv).
Proof.
  unfold apply_deferred, nextDeferredProjections. tx_step. tx_step.
  eapply tri_mono; [apply (count_loop_tri (λ d', inv d' ∧ events d' = events d)); [|split; [apply rtc_refl|done]]|by intros n d' []].
  intros entry d1 Hin [Hd1 Hev]. apply subseteq_take in Hin.
  apply waiting_entry in Hin as (e & He & Hty & Hrid); [|done].
  rewrite <- Hev in He. eapply tri_mono; [apply apply_deferred_spec; [by eapply micros_ok|done..]|].
  intros b d2 (_ & r & r' & ms & Hr & -> & Hsame & Hlast & Hby & Hcheck & Hms). split; [|done].
  eapply rtc_r; [exact Hd1|]. by eapply micro_unpark.
Qed.
End loops.

Lemma prepared_source env x event :
  prepareExternalEvent env x = inl event →
  xe_SourceEventID event ≠ "" ∧ (0 < xe_SourceSequence event)%Z.
Proof.
  unfold prepareExternalEvent. destruct x as [x|]; [|done].
  match goal with |- context [validateExternalConversationEvent ?p] => set (e := p) end.
  destruct (validateExternalConversationEvent e) eqn:Hv; [|done]. intros [= <-]. revert Hv.
  unfold validateExternalConversationEvent.
  destruct (_ || _ || _ || _ || _ || _) eqn:Hc; [done|]. destruct (_ <=? 0)%Z eqn:Hs; [done|]. intros _.
  repeat (apply orb_false_iff in Hc as [Hc ?]). simplify_bool. split; [done|lia].
Qed.

Lemma step_micro ob q d d' :
  conv_ok d → conv_step ob q d d' →
  rtc (micro ob q false) d d' ∨ ∃ k, d' = {| d with outbox := outbox d ∖ {[k]} |}.
Proof.
  intros Hok [env0 env s spec Hp Hq|env0 env x event Hp Hq|lease env|env|k]; [left..|right; by exists k].
  - pose proof (committed _ env d _ (start_spec ob d spec)) as Hc.
    destruct (withConversationTx _ _ _) as [d1 [a|e]]; [|by subst]. apply rtc_once. by eapply micro_start.
  - apply prepared_source in Hp as [Hsrc _]. pose proof (committed _ env d _ (persist_spec ob d event Hok)) as Hc.
    destruct (withConversationTx _ _ _) as [d1 [a|e]]; [|by subst]. apply rtc_once.
    eapply micro_ingest; [by left|exact Hsrc|exact Hc].
  - pose proof (committed _ env d _ (abandon_micro ob q false d Hok lease)) as Hc. unfold abandonExpiredRuns.
    destruct (withConversationTx _ _ _) as [d1 [a|e]]; [done|by subst].
  - pose proof (committed _ env d _ (apply_all_micro ob q false d Hok)) as Hc. unfold applyDeferredProjections.
    destruct (withConversationTx _ _ _) as [d1 [a|e]]; [done|by subst].
Qed.

Lemma micro_weaken ob q d d' : micro ob q false d d' → micro ob q true d d'.
Proof. intros []; [by eapply micro_start|by eapply micro_ingest|by eapply micro_unpark|done]. Qed.

(** Everything a step can do is a sequence of parts, and keeps the invariant. *)
Lemma steps_micro ob q d d' : conv_ok d → rtc (conv_step ob q) d d' → rtc (micro ob q true) d d'.
Proof.
  intros Hok Hr. revert Hok. induction Hr as [|d d1 d2 Hs _ IH]; intros Hok; [done|].
  assert (rtc (micro ob q true) d d1) as Hm.
  { apply step_micro in Hs as [Hm|[k ->]]; [|apply rtc_once; by constructor|done].
    eapply rtc_subrel; [|exact Hm]. apply micro_weaken. }
  etrans; [exact Hm|]. apply IH. by eapply micros_ok.
Qed.

Lemma steps_ok ob q d d' : conv_ok d → rtc (conv_step ob q) d d' → conv_ok d'.
Proof. intros Hok Hr. eapply micros_ok; [done|]. by apply steps_micro. Qed.

Lemma conv_reachable_ok ob q d : conv_reachable ob q d → conv_ok d.
Proof. apply steps_ok, conv_ok_empty. Qed.
End ingestion.
