(* ===== verification/ConversationSample.v ===== *)
(** * A sample conversation

    Concrete requests and the tables after them, for evaluating the statements of the files
    on conversations: two runs on one thread, a message that is streamed in two pieces, the
    turn of the second run that is parked behind the first. *)

From S2P Require Import Prelude Types Json Decode Calls ConversationDB GoStrings Conversation ConversationSpec.
Import conversationdb conversation.

Module conversationsample.
#[local] Open Scope Z_scope.

#[export] Instance text : RFC3339 := {| format_time _ := "2026-01-01T00:00:00Z"; parse_time _ := None |}.

(** The clock and the fresh ids of the [n]th transaction. *)
Definition env (n : nat) : Env := {|
  env_now _ := Z.of_nat n * second;
  env_uuid i := "id-" +:+ pretty n +:+ "-" +:+ pretty i;
  env_dbnow := Z.of_nat n * second |}.

(** Transactions that are not disturbed. *)
Definition calm (n : nat) : Weather := {|
  w_env _ := env n; w_fate _ := Runs; w_others _ d := d; w_canceled _ := false |}.

Inductive request :=
  | Start (spec : StartConversationRunSpec)
  | Ingest (event : ExternalConversationEvent)
  | Abandon (lease : Z)
  | ApplyParked.

Definition perform (n : nat) (r : request) (d : DB) : DB :=
  match r with
  | Start spec => (StartRun true (calm n) (Some spec) d).1
  | Ingest event => (IngestEvent true (calm n) (Some event) d).1
  | Abandon lease => (abandonExpiredRuns true lease (env n) d).1
  | ApplyParked => (applyDeferredProjections (env n) d).1
  end.

Fixpoint performs (n : nat) (l : list request) (d : DB) : DB :=
  match l with
  | [] => d
  | r :: l => performs (S n) l (perform n r d)
  end.

Definition allowed (q : requests) (n : nat) (r : request) : Prop :=
  match r with
  | Start spec => ∀ p, prepareStartSpec (env n) (Some spec) = inl p → admits_start q p
  | Ingest event => ∀ p, prepareExternalEvent (env n) (Some event) = inl p → admits_event q p
  | _ => True
  end.

Fixpoint all_allowed (q : requests) (n : nat) (l : list request) : Prop :=
  match l with
  | [] => True
  | r :: l => allowed q n r ∧ all_allowed q (S n) l
  end.

Lemma failed_unchanged {A} (m : Tx A) env d d' e : withConversationTx m env d = (d', inr e) → d' = d.
Proof. unfold withConversationTx. destruct (m _ _) as [s [a|]]; [destruct (tx_failed s)|]; by intros [= <-]. Qed.

Lemma undisturbed_from {A} (m : Tx A) n d more k :
  (retry_from (calm n) m more k d).1 = (withConversationTx m (env n) d).1.
Proof.
  revert k. induction more as [|more IH]; intros k; cbn [retry_from]; unfold attempt_tx; cbn [calm w_env w_fate w_others];
    destruct (withConversationTx m (env n) d) as [d' [a|e]] eqn:Hm; try done.
  - by destruct (negb _).
  - pose proof (failed_unchanged _ _ _ _ _ Hm) as ->. destruct (negb _); [done|]. exact (IH (S k)).
Qed.

Lemma undisturbed {A} (m : Tx A) n d : (persistConversationChange (calm n) m d).1 = (withConversationTx m (env n) d).1.
Proof. apply undisturbed_from. Qed.

Lemma perform_step q n r d : allowed q n r → rtc (conv_step true q) d (perform n r d).
Proof.
  intros Ha. destruct r as [spec|event|lease|]; cbn [perform].
  - unfold StartRun. cbn [calm w_env]. destruct (prepareStartSpec (env n) (Some spec)) as [p|] eqn:Hp; [|done].
    rewrite undisturbed. apply rtc_once. eapply step_start; [exact Hp|by apply Ha].
  - unfold IngestEvent. cbn [calm w_env]. destruct (prepareExternalEvent (env n) (Some event)) as [p|] eqn:Hp; [|done].
    rewrite undisturbed. apply rtc_once. eapply step_ingest; [exact Hp|by apply Ha].
  - apply rtc_once, step_abandon.
  - apply rtc_once, step_deferred.
Qed.

Lemma performs_steps q n l d : all_allowed q n l → rtc (conv_step true q) d (performs n l d).
Proof.
  revert n d. induction l as [|r l IH]; intros n d; [done|]. intros [Hr Hl].
  etrans; [by apply perform_step|]. by apply IH.
Qed.

Lemma performs_reachable q n l : all_allowed q n l → conv_reachable true q (performs n l empty_DB).
Proof. apply performs_steps. Qed.

(** ** The requests *)

Definition spec (run key : string) : StartConversationRunSpec := {|
  ss_RunID := run; ss_ThreadID := "thread"; ss_ProcessID := ""; ss_AccountID := "account"; ss_ProjectID := "project";
  ss_MessageID := "message-" +:+ run; ss_UserMessage := "hi"; ss_Attachments := []; ss_MessageMetadata := None;
  ss_RunMetadata := None; ss_Resume := None; ss_IdempotencyKey := key; ss_RequestedAt := zero_time |}.

Definition event (run : string) (sequence : Z) (type : string) (payload : gmap string any) : ExternalConversationEvent := {|
  xe_ThreadID := "thread"; xe_RunID := run; xe_ProcessID := ""; xe_AccountID := "account"; xe_ProjectID := "project";
  xe_SourceEventID := run +:+ "-" +:+ pretty sequence; xe_SourceSequence := sequence; xe_EventType := type;
  xe_OccurredAt := zero_time; xe_Payload := Some payload |}.

Definition delta (sequence : Z) (s : string) : request :=
  Ingest (event "run-1" sequence ConversationEventTextMessageContent
    {["message_id" := AString "answer"; "delta" := AString s]}).

Definition opening : list request := [
  Start (spec "run-1" "key-1"); Start (spec "run-2" "key-2");
  Ingest (event "run-1" 1 ConversationEventRunStarted ∅)].

Definition answering : list request := opening ++ [
  Ingest (event "run-2" 1 ConversationEventRunStarted ∅);
  Ingest (event "run-1" 2 ConversationEventTextMessageStart
    {["message_id" := AString "answer"; "role" := AString "assistant"]});
  delta 3 "Hello"; delta 4 " world"].

Definition finished : list request := answering ++ [
  Ingest (event "run-1" 5 ConversationEventRunFinished {["outcome" := AString "normal"]})].

Definition at_opening : DB := performs 1 opening empty_DB.
Definition at_answering : DB := performs 1 answering empty_DB.
Definition at_finished : DB := performs 1 finished empty_DB.

Lemma opening_reachable : conv_reachable true all_requests at_opening.
Proof. apply performs_reachable. by repeat split. Qed.
Lemma answering_reachable : conv_reachable true all_requests at_answering.
Proof. apply performs_reachable. by repeat split. Qed.
Lemma finished_reachable : conv_reachable true all_requests at_finished.
Proof. apply performs_reachable. by repeat split. Qed.

Lemma finished_allowed q : all_allowed q 1 finished → conv_reachable true q at_finished.
Proof. apply performs_reachable. Qed.

(** What follows the opening. *)
Lemma finished_later : rtc (conv_step true all_requests) at_opening at_finished.
Proof.
  assert (at_finished = performs 4 (drop 3 finished) at_opening) as -> by (vm_compute; reflexivity).
  apply performs_steps. by repeat split.
Qed.

Lemma env_uuid_inj n j k : env_uuid (env n) j = env_uuid (env n) k → j = k.
Proof. cbn. intros Heq. by simplify_eq. Qed.

Lemma later_ids k : event_id_taken at_answering (env_uuid (env 20) k) = false.
Proof.
  apply bool_decide_eq_false_2. intros (key & e & He & Hid).
  assert (er_EventID e ∈ (λ x, er_EventID x.2) <$> map_to_list (events at_answering)) as Hin.
  { apply list_elem_of_fmap. exists (key, e). split; [done|]. by apply elem_of_map_to_list. }
  rewrite Hid in Hin. clear -Hin. revert Hin.
  assert ((λ x, er_EventID x.2) <$> map_to_list (events at_answering) =
    ["id-3-2"; "id-7-2"; "id-1-4"; "id-2-3"; "id-5-2"; "id-1-2"; "id-2-4"; "id-6-2"; "id-1-3"; "id-2-2"; "id-4-2"]) as ->
    by (vm_compute; reflexivity).
  change (env_uuid (env 20) k) with ("id-20-" +:+ pretty k).
  repeat (intros [Hbad|Hin]%elem_of_cons; [discriminate Hbad|revert Hin]). apply not_elem_of_nil.
Qed.

#[global] Opaque at_opening at_answering at_finished.

(** The second turn is parked while the first runs. *)
Example second_turn_parked :
  (rw_Status <$> runs at_finished !! "run-1", rw_Status <$> runs at_finished !! "run-2",
   length (map_to_list (deferred at_finished))) = (Some "completed", Some "pending", 1%nat).
Proof. vm_compute. reflexivity. Qed.
End conversationsample.
