(* ===== verification/ConversationHistory.v ===== *)
(** * The history of a conversation

    What a conversation keeps while it goes on ([conv_extends]): recorded events stay, runs
    move along their lifecycle and end once.  From this follow the theorems on streams, on
    repeated deliveries and admissions, and on cancellation. *)

From S2P Require Import Prelude Types Json Decode Calls ConversationDB GoStrings Conversation ConversationSpec.
From S2P Require Import ConversationSample.
Import conversationdb conversation.

(** The columns that say how a run went. *)
Definition results (r : RunRow) :=
  (rw_Status r, rw_Outcome r, rw_Interrupt r, rw_ErrorCode r, rw_ErrorMessage r, rw_StartedAt r, rw_CompletedAt r).

Definition ended (r : RunRow) : Prop := rw_Status r ∈ ["completed"; "interrupted"; "error"].

Record run_moves (r r' : RunRow) : Prop := {
  rm_same : same_run r r';
  rm_status : rtc lifecycle (rw_Status r) (rw_Status r');
  rm_ended : ended r → results r' = results r;
}.

#[global] Instance run_moves_preorder : PreOrder run_moves.
Proof.
  split.
  - by intros r.
  - intros r1 r2 r3 [H12 S12 E12] [H23 S23 E23]. split; [by etrans..|]. intros He. rewrite <- E12 by done.
    apply E23. unfold ended. by specialize (E12 He) as [= -> _ _ _ _ _ _].
Qed.

Record conv_extends (d d' : DB) : Prop := {
  cx_events : ∀ k e, events d !! k = Some e → events d' !! k = Some e;
  cx_runs : ∀ id r, runs d !! id = Some r → ∃ r', runs d' !! id = Some r' ∧ run_moves r r';
  cx_threads : ∀ t th, threads d !! t = Some th → ∃ th', threads d' !! t = Some th' ∧
    th_AccountID th' = th_AccountID th ∧ th_ProjectID th' = th_ProjectID th ∧
    (th_NextSequence th ≤ th_NextSequence th')%Z;
}.

#[global] Instance conv_extends_preorder : PreOrder conv_extends.
Proof.
  split.
  - intros d. split; [done| |]; [intros id r Hr; by exists r|intros t th Hth; by exists th].
  - intros d1 d2 d3 [E12 R12 T12] [E23 R23 T23]. split; [by auto| |].
    + intros id r (r2 & Hr2 & ?)%R12. destruct (R23 _ _ Hr2) as (r3 & ? & ?). exists r3. split; [done|by etrans].
    + intros t th (th2 & Hth2 & ? & ? & ?)%T12. destruct (T23 _ _ Hth2) as (th3 & ? & ? & ? & ?). exists th3.
      split_and!; [done|congruence..|lia].
Qed.

(** A run row that is replaced by a later one of the same run. *)
Lemma extends_run d d' id r r' :
  runs d !! id = Some r → run_moves r r' → runs d' = <[id := r']> (runs d) →
  (∀ k e, events d !! k = Some e → events d' !! k = Some e) →
  (∀ t th, threads d !! t = Some th → ∃ th', threads d' !! t = Some th' ∧
     th_AccountID th' = th_AccountID th ∧ th_ProjectID th' = th_ProjectID th ∧
     (th_NextSequence th ≤ th_NextSequence th')%Z) →
  conv_extends d d'.
Proof.
  intros Hr Hm Hruns He Ht. split; [done| |done]. intros id0 r0 Hr0. rewrite Hruns.
  destruct (decide (id0 = id)) as [->|Hne]; [rewrite lookup_insert_eq|rewrite lookup_insert_ne by done].
  - exists r'. split; [done|]. rewrite Hr in Hr0. by injection Hr0 as <-.
  - by exists r0.
Qed.

Lemma with_event_extends ob d t th e :
  event_fresh d t th e →
  (∀ k x, events d !! k = Some x → events (with_event ob d t th e) !! k = Some x) ∧
  (∀ t' x, threads d !! t' = Some x → ∃ x', threads (with_event ob d t th e) !! t' = Some x' ∧
     th_AccountID x' = th_AccountID x ∧ th_ProjectID x' = th_ProjectID x ∧
     (th_NextSequence x ≤ th_NextSequence x')%Z).
Proof.
  intros (Hth & _ & Hnone & _). split.
  - intros k x Hx. cbn. rewrite lookup_insert_ne; [done|]. intros <-. congruence.
  - intros t' x Hx. cbn. destruct (decide (t' = t)) as [->|Hne].
    + rewrite lookup_insert_eq. eexists. split; [done|]. rewrite Hth in Hx. injection Hx as <-. cbn.
      split_and!; [done..|lia].
    + rewrite lookup_insert_ne by done. by exists x.
Qed.

Section history.
Context `{!RFC3339, !PgTime, !Collation, !SliceSort}.

Lemma moves_by_event ty r r' :
  same_run r r' → by_event ty (rw_Status r) (rw_Status r') → (rw_Status r' = rw_Status r → r' = r) → run_moves r r'.
Proof.
  intros Hsame Hby Hkeep. split; [done| |].
  - apply by_event_lifecycle in Hby as [->|Hl]; [done|by apply rtc_once].
  - intros He. rewrite Hkeep; [done|]. unfold ended in He.
    destruct Hby as [(_ & Hs & _)|[(_ & Hs & _)|[(_ & Hs & _)|(_ & Hs)]]]; [..|done].
    + rewrite Hs in He. set_solver.
    + exfalso. set_unfold in Hs. destruct Hs as [Hs|[Hs|[]]]; rewrite Hs in He; set_solver.
    + rewrite Hs in He. set_solver.
Qed.

Lemma ingests_extends ob d event stored d' r r' th uuid ms def :
  ingests ob d event stored d' r r' th uuid ms def → conv_extends d d'.
Proof.
  intros [Hrun _ _ _ Hfresh -> _ Hproj]. destruct (with_event_extends ob _ _ _ _ Hfresh) as [He Ht].
  apply (extends_run _ _ (xe_RunID event) r (advance_row event r')); [done| |done|done|done].
  enough (run_moves r r') as [[] ? ?] by (split; [by split|done..]).
  destruct Hproj as [(_ & Hsame & _ & Hby & Hkeep & _)|(_ & -> & _)]; [by eapply moves_by_event|done].
Qed.

Lemma appends_extends ob spec l d d' : appends ob spec l d d' → conv_extends d d'.
Proof.
  induction 1 as [|x l d th uuid d' Hfresh _ IH]; [done|]. etrans; [|exact IH].
  destruct (with_event_extends ob _ _ _ _ Hfresh) as [He Ht]. split; [done| |done]. intros id r Hr. by exists r.
Qed.

Lemma started_extends ob d spec run d' : started ob d spec run d' → conv_extends d d'.
Proof.
  intros (d0 & Hd0 & Hrest). assert (conv_extends d d0) as Hx0.
  { destruct Hd0 as [(th & _ & _ & _ & ->)|[Hnone ->]]; [done|]. split; cbn; [done| |].
    - intros id r Hr. by exists r.
    - intros t th Hth. exists th. rewrite lookup_insert_ne by congruence. done. }
  assert (runs d0 = runs d) as Eruns by by destruct Hd0 as [(? & _ & _ & _ & ->)|[_ ->]].
  etrans; [exact Hx0|]. destruct Hrest as [(k & _ & _ & ->)|(dbnow & _ & Hnew & _ & _ & _ & Happ)]; [done|].
  set (d1 := Build_DB _ _ _ _ _ _) in Happ. trans d1.
  { split; cbn; [done| |].
    - intros id r Hr. exists r. rewrite lookup_insert_ne by congruence. by rewrite <- Eruns.
    - intros t th Hth. by exists th. }
  by eapply appends_extends.
Qed.

Lemma micro_extends ob q pub d d' : micro ob q pub d d' → conv_extends d d'.
Proof.
  intros [spec run d1 _ Hs|event stored d1 _ _ Hin|t i e r r' ms He Hty Hr Hsame Hlast Hby Hc Hms|k _].
  - by eapply started_extends.
  - destruct Hin as [(r & k & _ & _ & _ & _ & ->)|(r & r' & th & uuid & ms & def & Hin)]; [done|].
    by eapply ingests_extends.
  - eapply (extends_run _ _ (er_RunID e) r r'); [done| |done|done|by intros t' th Hth; exists th].
    eapply moves_by_event; [done..|]. apply by_started in Hby as [-> ->]. done.
  - split; cbn; [done| |]; [intros id r Hr; by exists r|intros t th Hth; by exists th].
Qed.

Lemma tables_extend ob q d d' : conv_ok d → rtc (conv_step ob q) d d' → conv_extends d d'.
Proof.
  intros Hok Hr%steps_micro; [|done]. induction Hr as [|d d1 d2 Hs _ IH]; [done|].
  etrans; [by eapply micro_extends|]. apply IH. by eapply micro_ok.
Qed.

(** ** Requests *)

(** A request runs against the tables that other transactions leave; a request that
    answers took effect once, one that fails took effect at most once, and not at all
    unless the connection was lost at the commit. *)
Lemma retry_from_cases {A} ob q w (op : Tx A) more n d :
  (∀ n d, rtc (conv_step ob q) d (w_others w n d)) →
  ∃ d0 env, rtc (conv_step ob q) d d0 ∧
    match retry_from w op more n d with
    | (d1, inl a) => withConversationTx op env d0 = (d1, inl a)
    | (d1, inr e) => d1 = d0 ∨ (∃ m, w_fate w m = Loses true ∧ d1 = (withConversationTx op env d0).1)
    end.
Proof.
  intros Ho. revert n d. induction more as [|more IH]; intros n d; cbn [retry_from];
    set (d0 := w_others w n d);
    (assert (rtc (conv_step ob q) d d0) as Hd0 by apply Ho);
    (assert (∀ d1 e, withConversationTx op (w_env w n) d0 = (d1, inr e) → d1 = d0) as Hfail
      by (intros d1 e; unfold withConversationTx; by destruct (op _ _) as [s [a|e']]; [destruct (tx_failed s)|]; intros [= <- _])).
  - exists d0, (w_env w n). split; [done|]. unfold attempt_tx.
    destruct (w_fate w n) as [|code|[]] eqn:Hf.
    + destruct (withConversationTx op (w_env w n) d0) as [d1 [a|e]] eqn:Hrun; [done|].
      destruct (negb _); left; by eapply Hfail.
    + destruct (negb _); by left.
    + right. by exists n.
    + by left.
  - assert (∀ e, retry_from w op more (S n) d0 = retry_from w op more (S n) d0 → ∃ d2 env, rtc (conv_step ob q) d d2 ∧
      match (if negb (isRetryableTxFailure e) then (d0, inr e)
             else if w_canceled w n then (d0, inr e) else retry_from w op more (S n) d0) with
      | (d1, inl a) => withConversationTx op env d2 = (d1, inl a)
      | (d1, inr _) => d1 = d2 ∨ (∃ m, w_fate w m = Loses true ∧ d1 = (withConversationTx op env d2).1)
      end) as Hnext.
    { intros e _. destruct (negb _); [exists d0, (w_env w n); by auto|].
      destruct (w_canceled w n); [exists d0, (w_env w n); by auto|].
      destruct (IH (S n) d0) as (d2 & env & Hd2 & Hr). exists d2, env. split; [by etrans|done]. }
    unfold attempt_tx. destruct (w_fate w n) as [|code|[]] eqn:Hf.
    + destruct (withConversationTx op (w_env w n) d0) as [d1 [a|e]] eqn:Hrun; [by exists d0, (w_env w n)|].
      rewrite (Hfail d1 e eq_refl). by apply Hnext.
    + by apply Hnext.
    + exists d0, (w_env w n). split; [done|]. right. by exists n.
    + exists d0, (w_env w n). split; [done|]. by left.
Qed.

(** ** Replays *)

Lemma scope_same id r r' event :
  same_run r r' → validateEventRunScope (scanRun id r') event = validateEventRunScope (scanRun id r) event.
Proof. intros [Et Ep Ea Epr _ _ _]. unfold validateEventRunScope. cbn. by rewrite Et, Ep, Ea, Epr. Qed.

(** A delivery that is known is answered with the stored event. *)
Lemma known_delivery ob d event r k env :
  runs d !! xe_RunID event = Some r → validateEventRunScope (scanRun (xe_RunID event) r) event = inl tt →
  event_with_source d (xe_ThreadID event) (xe_SourceEventID event) = Some k →
  withConversationTx (persistEvent ob event) env d = (d, inl (scanEvent k.1.1 k.1.2 k.2)).
Proof.
  intros Hr Hs Hk. unfold withConversationTx, persistEvent, admitEvent, lockRun, eventBySource, query, exec,
    lift, mbind, Tx_bind. cbn. rewrite Hr. cbn. rewrite Hs. cbn. by rewrite Hk.
Qed.

(** Where an event with its source id is. *)
Lemma source_found d t i e :
  conv_ok d → events d !! (t, i) = Some e → er_SourceEventID e ≠ "" →
  event_with_source d t (er_SourceEventID e) = Some (t, i, e).
Proof.
  intros Hok He Hne. destruct (event_with_source d t (er_SourceEventID e)) as [[[t' j] e']|] eqn:Hk.
  - apply event_with_source_Some in Hk as (Ht & He' & Heq). cbn in *. subst t'.
    assert (i = j) as -> by by eapply (co_source _ Hok). by simplify_eq.
  - rewrite event_with_source_None in Hk. by destruct (Hk _ _ He).
Qed.

(** What an accepted delivery leaves: its event, under the answered id and sequence. *)
Lemma ingested_found ob d event stored d' :
  conv_ok d → xe_SourceEventID event ≠ "" → ingested ob d event stored d' →
  ∃ r e, runs d' !! xe_RunID event = Some r ∧
    validateEventRunScope (scanRun (xe_RunID event) r) event = inl tt ∧
    events d' !! (xe_ThreadID event, ce_Sequence stored) = Some e ∧
    er_SourceEventID e = xe_SourceEventID event ∧ ce_ThreadID stored = xe_ThreadID event ∧
    ce_EventID stored = er_EventID e ∧ ce_RunID stored = er_RunID e ∧ ce_EventType stored = er_EventType e.
Proof.
  intros Hok Hsrc [(r & [[t i] e] & Hr & Hs & Hk & -> & ->)|(r & r' & th & uuid & ms & def & Hin)].
  - apply event_with_source_Some in Hk as (Ht & He & Heq). cbn in *. subst t. by exists r, e.
  - pose proof (ingests_extends _ _ _ _ _ _ _ _ _ _ _ Hin) as Hx. destruct Hin as [Hr Hs _ _ _ -> -> _].
    destruct (cx_runs _ _ Hx _ _ Hr) as (r2 & Hr2 & [Hsame _ _]). eexists r2, _. split; [done|].
    rewrite (scope_same _ _ _ _ Hsame). split; [done|]. cbn. rewrite lookup_insert_eq. by split_and!.
Qed.

Lemma prepared_same env env' x event event' :
  prepareExternalEvent env x = inl event → prepareExternalEvent env' x = inl event' →
  xe_ThreadID event' = xe_ThreadID event ∧ xe_RunID event' = xe_RunID event ∧
  xe_SourceEventID event' = xe_SourceEventID event ∧
  (∀ run, validateEventRunScope run event' = validateEventRunScope run event).
Proof.
  unfold prepareExternalEvent. destruct x as [x|]; [|done].
  match goal with |- context [validateExternalConversationEvent ?p] => destruct (validateExternalConversationEvent p) end; [|done].
  match goal with |- context [validateExternalConversationEvent ?p] => destruct (validateExternalConversationEvent p) end; [|done].
  by intros [= <-] [= <-].
Qed.

Lemma prepared_again env env' x event :
  prepareExternalEvent env x = inl event → ∃ event', prepareExternalEvent env' x = inl event'.
Proof.
  unfold prepareExternalEvent. destruct x as [x|]; [|done]. unfold validateExternalConversationEvent. cbn.
  destruct (_ || _ || _ || _ || _ || _); [done|]. destruct (_ <=? 0)%Z; [done|]. by eauto.
Qed.

(** A delivery that is new and in order goes on to be recorded. *)
Lemma admitted_event ob d event r env n :
  runs d !! xe_RunID event = Some r → validateEventRunScope (scanRun (xe_RunID event) r) event = inl tt →
  event_with_source d (xe_ThreadID event) (xe_SourceEventID event) = None →
  (rw_LastSourceSequence r < xe_SourceSequence event)%Z →
  persistEvent ob event env (tx_at d n) = record_event ob (scanRun (xe_RunID event) r) event env (tx_at d n).
Proof.
  intros Hr Hs Hk Hlast. unfold persistEvent, admitEvent, lockRun, eventBySource, query, exec,
    lift, guard_tx, mbind, Tx_bind. cbn -[record_event]. rewrite Hr. cbn -[record_event]. rewrite Hs.
  cbn -[record_event]. rewrite Hk. cbn -[record_event].
  by rewrite (proj2 (Z.leb_gt _ _) Hlast).
Qed.

(** A request under a known key is answered with the run of the key. *)
Lemma known_run ob d spec th k env :
  threads d !! ss_ThreadID spec = Some th → th_AccountID th = ss_AccountID spec →
  th_ProjectID th = ss_ProjectID spec →
  run_with_key d (ss_ThreadID spec) (ss_IdempotencyKey spec) = Some k →
  withConversationTx (persistStartRun ob spec) env d = (d, inl (scanRun k.1 k.2)).
Proof.
  intros Hth Ha Hp Hk. unfold withConversationTx, persistStartRun, prepareNewRun, ensureThread, getRunByIdempotency,
    query, exec, guard_tx, mbind, Tx_bind. cbn. rewrite Hth. cbn. rewrite Ha, Hp, !bool_decide_eq_true_2 by done. cbn.
  by rewrite Hk.
Qed.

Lemma started_found ob d spec run d' :
  conv_ok d → started ob d spec run d' →
  ∃ th r, threads d' !! ss_ThreadID spec = Some th ∧ th_AccountID th = ss_AccountID spec ∧
    th_ProjectID th = ss_ProjectID spec ∧ runs d' !! cr_RunID run = Some r ∧
    rw_ThreadID r = ss_ThreadID spec ∧ rw_IdempotencyKey r = ss_IdempotencyKey spec.
Proof.
  intros Hok (d0 & Hd0 & Hrest).
  assert (∃ th, threads d0 !! ss_ThreadID spec = Some th ∧ th_AccountID th = ss_AccountID spec ∧
            th_ProjectID th = ss_ProjectID spec) as (th & Hth & Ha & Hp).
  { destruct Hd0 as [(th & ? & ? & ? & ->)|[_ ->]]; [by exists th|].
    exists (thread_row spec). cbn. by rewrite lookup_insert_eq. }
  destruct Hrest as [(k & Hk & -> & ->)|(dbnow & _ & _ & _ & Hid & _ & Happ%appends_extends)].
  - apply run_with_key_Some in Hk as (? & ? & ?). by exists th, k.2.
  - destruct (cx_threads _ _ Happ _ _ Hth) as (th' & ? & ? & ? & _).
    destruct (cx_runs _ _ Happ (ss_RunID spec) (run_row spec dbnow)) as (r & ? & [[] _ _]);
      [cbn; by rewrite lookup_insert_eq|].
    exists th', r. rewrite Hid. cbn in *. split_and!; congruence.
Qed.

Lemma key_found d t key id r :
  conv_ok d → runs d !! id = Some r → rw_ThreadID r = t → rw_IdempotencyKey r = key →
  run_with_key d t key = Some (id, r).
Proof.
  intros Hok Hr Ht Hk. destruct (run_with_key d t key) as [[id' r']|] eqn:Hkey.
  - apply run_with_key_Some in Hkey as (Hr' & Ht' & Hk'). cbn in *.
    assert (id' = id) as -> by (eapply (co_key _ Hok); [exact Hr'|exact Hr|congruence..]). by simplify_eq.
  - rewrite run_with_key_None in Hkey. by destruct (Hkey _ _ Hr).
Qed.

Lemma prepared_start_same env env' s spec spec' :
  prepareStartSpec env s = inl spec → prepareStartSpec env' s = inl spec' →
  ss_ThreadID spec' = ss_ThreadID spec ∧ ss_AccountID spec' = ss_AccountID spec ∧
  ss_ProjectID spec' = ss_ProjectID spec ∧ ss_IdempotencyKey spec' = ss_IdempotencyKey spec.
Proof.
  unfold prepareStartSpec. destruct s as [s|]; [|done].
  destruct (validateStartSpec (normalizeStartSpec env s)); [|done].
  destruct (validateStartSpec (normalizeStartSpec env' s)); [|done]. by intros [= <-] [= <-].
Qed.

Lemma prepared_start_again env env' s spec :
  prepareStartSpec env s = inl spec → ∃ spec', prepareStartSpec env' s = inl spec'.
Proof.
  unfold prepareStartSpec. destruct s as [s|]; [|done]. unfold validateStartSpec. cbn.
  destruct (_ || _ || _ || _); [done|]. destruct (_ && _); [done|].
  destruct (ss_Resume s) as [r|]; cbn; [|by eauto]. destruct (_ == ""); [done|]. by eauto.
Qed.

Lemma finished_projection run event :
  xe_EventType event = ConversationEventRunFinished →
  applyEventProjection run event = (requireRunStatus run event ConversationRunRunning;; finishRun run event).
Proof. intros Hty. unfold applyEventProjection. rewrite Hty. reflexivity. Qed.

Lemma canceled_finish run event :
  stringPayload (xe_Payload event) "outcome" = ConversationOutcomeCanceled →
  finishRun run event = exec project (update_run (cr_RunID run)
    (finish_row ConversationRunCanceled ConversationOutcomeCanceled None (xe_OccurredAt event) "" "")).
Proof. intros Hout. unfold finishRun. rewrite Hout. reflexivity. Qed.
End history.

(** ** The outbox *)

(** The outbox of the later tables has what the earlier one had, and the new events. *)
Definition outbox_follows (d d' : DB) : Prop :=
  ∀ k, k ∈ outbox d' ↔ k ∈ outbox d ∨ (is_Some (events d' !! k) ∧ events d !! k = None).

Lemma outbox_same d d' : outbox d' = outbox d → events d' = events d → outbox_follows d d'.
Proof.
  intros Ho He k. rewrite Ho, He. split; [by left|]. intros [?|[[x Hx] Hn]]; [done|congruence].
Qed.

Lemma outbox_trans d d1 d2 : conv_extends d d1 → conv_extends d1 d2 →
  outbox_follows d d1 → outbox_follows d1 d2 → outbox_follows d d2.
Proof.
  intros E1 E2 H1 H2 k. rewrite (H2 k), (H1 k). split.
  - intros [[?|[[x Hx] ?]]|[? Hn]]; [by left| |].
    + right. split; [|done]. exists x. by apply (cx_events _ _ E2).
    + right. split; [done|]. destruct (events d !! k) as [x|] eqn:Hx; [|done].
      apply (cx_events _ _ E1) in Hx. congruence.
  - intros [?|[? Hn]]; [by left; left|]. destruct (events d1 !! k) as [x|] eqn:Hx; [|by right]. left. right. by eauto.
Qed.

Lemma with_event_outbox d t th e : event_fresh d t th e → outbox_follows d (with_event true d t th e).
Proof.
  intros (_ & _ & Hn & _) k. cbn. rewrite elem_of_union, elem_of_singleton. split.
  - intros [->|?]; [right; rewrite lookup_insert_eq; by eauto|by left].
  - intros [?|[[x Hx] Hk]]; [by right|]. apply lookup_insert_Some in Hx as [[<- _]|[_ Hx]]; [by left|congruence].
Qed.

Section outbox.
Context `{!RFC3339, !PgTime, !Collation, !SliceSort}.

Lemma appends_outbox spec l d d' : appends true spec l d d' → outbox_follows d d'.
Proof.
  induction 1 as [|x l d th uuid d' Hfresh Happ IH]; [by apply outbox_same|].
  eapply outbox_trans; [|by eapply appends_extends|by eapply with_event_outbox|exact IH].
  destruct (with_event_extends true _ _ _ _ Hfresh) as [He Ht]. split; [done| |done]. intros id r Hr. by exists r.
Qed.

Lemma micro_outbox q d d' : micro true q false d d' → outbox_follows d d'.
Proof.
  intros [spec run d1 _ (d0 & Hd0 & Hrest)|event stored d1 _ _ Hin|t i e r r' ms _ _ _ _ _ _ _ _|k ?]; [| |by apply outbox_same|done].
  - assert (events d0 = events d ∧ outbox d0 = outbox d) as [Ee Eo].
    { by destruct Hd0 as [(? & _ & _ & _ & ->)|[_ ->]]. }
    destruct Hrest as [(k & _ & _ & ->)|(dbnow & _ & _ & _ & _ & _ & Happ%appends_outbox)]; [by apply outbox_same|].
    intros k. rewrite (Happ k). cbn. by rewrite Ee, Eo.
  - destruct Hin as [(r & k & _ & _ & _ & _ & ->)|(r & r' & th & uuid & ms & def & [_ _ _ _ Hfresh -> _ _])];
      [by apply outbox_same|]. exact (with_event_outbox _ _ _ _ Hfresh).
Qed.

Lemma micros_outbox q d d' : rtc (micro true q false) d d' → outbox_follows d d'.
Proof.
  induction 1 as [|d d1 d2 Hs Hr IH]; [by apply outbox_same|].
  eapply outbox_trans; [by eapply micro_extends| |by eapply micro_outbox|exact IH].
  clear -Hr. induction Hr as [|d1 d2 d3 Hs _ IH]; [done|]. etrans; [by eapply micro_extends|exact IH].
Qed.
End outbox.

(** ** Theorems *)

Section theorems.
Context `{!RFC3339, !PgTime, !Collation, !SliceSort}.

(** C16: the tables of conversations.  Whatever requests and sweeps come: the events of a
    thread are numbered 1, 2, 3, ... up to its counter; an event belongs to a run of its
    thread, which is of the thread's tenant; the events that a producer delivered for a run
    are in its own order and none is there twice; a thread has at most one running run, and
    a run that left pending has the event that moved it. *)
Theorem conversation_tables ob q d :
  conv_reachable ob q d →
  (∀ t i, is_Some (events d !! (t, i)) ↔ ∃ th, threads d !! t = Some th ∧ (1 ≤ i ≤ th_NextSequence th)%Z) ∧
  (∀ t i e, events d !! (t, i) = Some e → ∃ r th, runs d !! er_RunID e = Some r ∧ rw_ThreadID r = t ∧
     threads d !! t = Some th ∧ th_AccountID th = rw_AccountID r ∧ th_ProjectID th = rw_ProjectID r) ∧
  (∀ t i j e1 e2, events d !! (t, i) = Some e1 → events d !! (t, j) = Some e2 →
     er_SourceEventID e1 ≠ "" → er_SourceEventID e2 ≠ "" →
     (er_SourceEventID e1 = er_SourceEventID e2 → i = j) ∧
     ((i < j)%Z → er_RunID e1 = er_RunID e2 → (er_SourceSequence e1 < er_SourceSequence e2)%Z)) ∧
  (∀ id1 r1 id2 r2, runs d !! id1 = Some r1 → runs d !! id2 = Some r2 → rw_ThreadID r1 = rw_ThreadID r2 →
     rw_Status r1 = "running" → rw_Status r2 = "running" → id1 = id2) ∧
  (∀ id r, runs d !! id = Some r → rw_Status r ≠ "pending" →
     ∃ i e, events d !! (rw_ThreadID r, i) = Some e ∧ er_RunID e = id ∧ er_EventType e ∈ evidence (rw_Status r)).
Proof.
  intros Hok%conv_reachable_ok. split_and!; [apply Hok| |..].
  - intros t i e He. destruct (co_event _ Hok _ _ _ He) as (r & Hr & <- & _).
    destruct (co_run _ Hok _ _ Hr) as ((th & ? & ? & ?) & _). by exists r, th.
  - intros t i j e1 e2 He1 He2 Hs1 Hs2. split; intros; [by eapply (co_source _ Hok)|by eapply (co_order _ Hok)].
  - apply (co_running _ Hok).
  - apply (co_evidence _ Hok).
Qed.

(** C17: deliveries happen once.  Let a delivery be answered, whatever its transaction went
    through, and let any requests and sweeps follow.  The same delivery, at any clock, is
    answered again with the event of the same id, sequence, run and type, and changes
    nothing. *)
Theorem delivery_once ob d w x d1 stored d2 w' :
  conv_reachable ob all_requests d → (∀ n d, rtc (conv_step ob all_requests) d (w_others w n d)) →
  IngestEvent ob w x d = (d1, inl stored) → rtc (conv_step ob all_requests) d1 d2 →
  w_fate w' 0 = Runs → w_others w' 0 d2 = d2 →
  ∃ again, IngestEvent ob w' x d2 = (d2, inl again) ∧
    ce_EventID again = ce_EventID stored ∧ ce_Sequence again = ce_Sequence stored ∧
    ce_ThreadID again = ce_ThreadID stored ∧ ce_RunID again = ce_RunID stored ∧
    ce_EventType again = ce_EventType stored.
Proof.
  intros Hreach Ho Hrun Hsteps Hf Hw'. pose proof (conv_reachable_ok _ _ _ Hreach) as Hok. unfold IngestEvent in *.
  destruct (prepareExternalEvent (w_env w 0) x) as [event|] eqn:Hp; [|done].
  destruct (retry_from_cases ob _ w (persistEvent ob event) conversationTxRetries 0 d Ho) as (d0 & env & Hd0 & Hr).
  unfold persistConversationChange in Hrun. rewrite Hrun in Hr.
  pose proof (steps_ok _ _ _ _ Hok Hd0) as Hok0. destruct (prepared_source _ _ _ Hp) as [Hsrc _].
  pose proof (committed _ env d0 _ (persist_spec ob d0 event Hok0)) as Hc. rewrite Hr in Hc.
  pose proof (ingested_ok _ _ _ _ _ Hok0 Hsrc Hc) as Hok1.
  destruct (ingested_found _ _ _ _ _ Hok0 Hsrc Hc) as (r & e & Hr1 & Hs & He & Hse & Ht & Hid & Hrid & Hty).
  pose proof (steps_ok _ _ _ _ Hok1 Hsteps) as Hok2. pose proof (tables_extend _ _ _ _ Hok1 Hsteps) as [Ex Rx _].
  destruct (Rx _ _ Hr1) as (r2 & Hr2 & [Hsame _ _]). apply Ex in He.
  destruct (prepared_again (w_env w 0) (w_env w' 0) x event Hp) as [event' Hp'].
  destruct (prepared_same _ _ _ _ _ Hp Hp') as (Et & Er & Es & Escope). rewrite Hp'.
  unfold persistConversationChange. cbn [retry_from conversationTxRetries]. rewrite Hw'. unfold attempt_tx. rewrite Hf.
  rewrite (known_delivery ob d2 event' r2 (xe_ThreadID event, ce_Sequence stored, e)).
  - eexists. split; [done|]. cbn. by split_and!.
  - by rewrite Er.
  - by rewrite Escope, Er, (scope_same _ _ _ _ Hsame).
  - rewrite Et, Es, <- Hse. apply source_found; [done..|congruence].
Qed.

(** C20: admissions happen once.  A start request that was answered is answered again with
    the same run when it is repeated, at any clock, with the ids it generates anew, and
    after any other requests and sweeps; the repetition changes nothing. *)
Theorem admission_once ob d w s d1 run d2 w' :
  conv_reachable ob all_requests d → (∀ n d, rtc (conv_step ob all_requests) d (w_others w n d)) →
  StartRun ob w s d = (d1, inl run) → rtc (conv_step ob all_requests) d1 d2 →
  w_fate w' 0 = Runs → w_others w' 0 d2 = d2 →
  ∃ again, StartRun ob w' s d2 = (d2, inl again) ∧ cr_RunID again = cr_RunID run.
Proof.
  intros Hreach Ho Hrun Hsteps Hf Hw'. pose proof (conv_reachable_ok _ _ _ Hreach) as Hok. unfold StartRun in *.
  destruct (prepareStartSpec (w_env w 0) s) as [spec|] eqn:Hp; [|done].
  destruct (retry_from_cases ob _ w (persistStartRun ob spec) conversationTxRetries 0 d Ho) as (d0 & env & Hd0 & Hr).
  unfold persistConversationChange in Hrun. rewrite Hrun in Hr.
  pose proof (steps_ok _ _ _ _ Hok Hd0) as Hok0.
  pose proof (committed _ env d0 _ (start_spec ob d0 spec)) as Hc. rewrite Hr in Hc.
  pose proof (started_ok _ _ _ _ _ Hok0 Hc) as Hok1.
  destruct (started_found _ _ _ _ _ Hok0 Hc) as (th & r & Hth & Ha & Hpr & Hr1 & Ht & Hk).
  pose proof (steps_ok _ _ _ _ Hok1 Hsteps) as Hok2. pose proof (tables_extend _ _ _ _ Hok1 Hsteps) as [_ Rx Tx].
  destruct (Rx _ _ Hr1) as (r2 & Hr2 & [[] _ _]). destruct (Tx _ _ Hth) as (th2 & Hth2 & ? & ? & _).
  destruct (prepared_start_again (w_env w 0) (w_env w' 0) s spec Hp) as [spec' Hp'].
  destruct (prepared_start_same _ _ _ _ _ Hp Hp') as (Et & Ea & Epr & Ek). rewrite Hp'.
  unfold persistConversationChange. cbn [retry_from conversationTxRetries]. rewrite Hw'. unfold attempt_tx. rewrite Hf.
  rewrite (known_run ob d2 spec' th2 (cr_RunID run, r2)); [|congruence..|].
  - by eexists.
  - rewrite Et, Ek. apply key_found; [done..|congruence|congruence].
Qed.

(** The life of a run.  A run stays on its thread with its tenant and key, moves only
    along its lifecycle, and keeps its status, outcome, error and times once it has ended. *)
Theorem run_history ob q d d' id r :
  conv_reachable ob q d → rtc (conv_step ob q) d d' → runs d !! id = Some r →
  ∃ r', runs d' !! id = Some r' ∧ same_run r r' ∧ rtc lifecycle (rw_Status r) (rw_Status r') ∧
    (ended r → results r' = results r).
Proof.
  intros Hok%conv_reachable_ok Hs Hr. destruct (tables_extend _ _ _ _ Hok Hs) as [_ Rx _].
  destruct (Rx _ _ Hr) as (r' & ? & []). by exists r'.
Qed.

(** The outbox.  A transaction either takes nothing off the outbox and puts on it
    exactly the events that it records, or is the drainer's and records nothing. *)
Theorem outbox_exact q d d' :
  conv_reachable true q d → conv_step true q d d' →
  outbox_follows d d' ∨ (events d' = events d ∧ ∃ k, outbox d' = outbox d ∖ {[k]}).
Proof.
  intros Hok%conv_reachable_ok [Hm|[k ->]]%step_micro; [left; by eapply micros_outbox|right; by eauto|done].
Qed.

(** C23: a cancellation is refused.  The database does not know the status that the code
    gives a canceled run: the end of a running run with outcome canceled fails with a check
    violation and changes nothing, and no run is ever canceled. *)
Theorem cancellation_refused ob q d :
  conv_reachable ob q d →
  (∀ id r, runs d !! id = Some r → rw_Status r ≠ ConversationRunCanceled) ∧
  (∀ event r env, runs d !! xe_RunID event = Some r → rw_Status r = "running" →
     validateEventRunScope (scanRun (xe_RunID event) r) event = inl tt →
     event_with_source d (xe_ThreadID event) (xe_SourceEventID event) = None →
     (rw_LastSourceSequence r < xe_SourceSequence event)%Z →
     xe_EventType event = ConversationEventRunFinished →
     stringPayload (xe_Payload event) "outcome" = ConversationOutcomeCanceled →
     withConversationTx (persistEvent ob event) env d = (d, inr (Pg CheckViolation project))).
Proof.
  intros Hok%conv_reachable_ok. split.
  - intros id r Hr Hs. destruct (co_run _ Hok _ _ Hr) as (_ & Hin & _). rewrite Hs in Hin.
    unfold ConversationRunCanceled in Hin. set_solver.
  - intros event r env Hr Hs Hscope Hnew Hlast Hty Hout. unfold withConversationTx. fold (tx_at d 2).
    rewrite (admitted_event ob d event r env 2) by done.
    unfold record_event, catch, applyEventProjectionIsolated, savepoint, mbind, Tx_bind. cbn [tx_failed tx_at].
    rewrite finished_projection, canceled_finish by done. unfold requireRunStatus, guard_tx, mbind, Tx_bind, exec.
    cbn [cr_Status scanRun finishRunScan]. rewrite Hs.
    change ("running" != ConversationRunRunning) with false. cbn -[update_run]. unfold update_run. rewrite Hr.
    unfold projectionIsParked. by rewrite Hty.
Qed.
End theorems.

(** ** Witnesses *)

Import conversationsample.

(** The first run has ended: its last event says so. *)
Lemma conversation_tables_witness :
  ∃ i e, events at_finished !! ("thread", i) = Some e ∧ er_RunID e = "run-1" ∧ er_EventType e ∈ evidence "completed".
Proof.
  destruct (conversation_tables true all_requests at_finished finished_reachable) as (_ & _ & _ & _ & Hev).
  destruct (runs at_finished !! "run-1") as [r|] eqn:Hr; [|vm_compute in Hr; discriminate].
  assert (rw_Status r = "completed" ∧ rw_ThreadID r = "thread") as [Hs Ht].
  { vm_compute in Hr. injection Hr as <-. done. }
  destruct (Hev _ _ Hr) as (i & e & He & Hid & Hty); [by rewrite Hs|].
  exists i, e. rewrite Ht in He. rewrite Hs in Hty. split_and!; [exact He|exact Hid|exact Hty].
Defined.

(** A delta of the answer, delivered again after the run has ended. *)
Lemma delivery_once_witness :
  let x := event "run-1" 3 ConversationEventTextMessageContent {["message_id" := AString "answer"; "delta" := AString "Hello"]} in
  ∃ again, IngestEvent true (calm 9) (Some x) at_finished = (at_finished, inl again) ∧ ce_EventID again = "id-6-2".
Proof.
  intros x. set (d := performs 1 (take 5 finished) empty_DB).
  destruct (IngestEvent true (calm 6) (Some x) d) as [d1 [stored|e]] eqn:Hin; [|vm_compute in Hin; discriminate].
  assert (at_finished = performs 7 (drop 6 finished) d1) as Hlater.
  { assert (d1 = (IngestEvent true (calm 6) (Some x) d).1) as -> by by rewrite Hin. vm_compute. reflexivity. }
  assert (inl stored = (IngestEvent true (calm 6) (Some x) d).2) as Hst by by rewrite Hin.
  destruct (delivery_once true d (calm 6) (Some x) d1 stored at_finished (calm 9)) as (again & Hrun & Hid & _).
  - apply performs_reachable. by repeat split.
  - intros n d0. apply rtc_refl.
  - exact Hin.
  - rewrite Hlater. apply performs_steps. by repeat split.
  - reflexivity.
  - reflexivity.
  - exists again. split; [exact Hrun|]. rewrite Hid. clear -Hst. vm_compute in Hst. injection Hst as ->. reflexivity.
Defined.

(** The start of the second run, repeated after the first has ended. *)
Lemma admission_once_witness :
  ∃ again, StartRun true (calm 9) (Some (spec "run-2" "key-2")) at_finished = (at_finished, inl again) ∧
    cr_RunID again = "run-2".
Proof.
  set (d := performs 1 (take 1 finished) empty_DB).
  destruct (StartRun true (calm 2) (Some (spec "run-2" "key-2")) d) as [d1 [run|e]] eqn:Hin; [|vm_compute in Hin; discriminate].
  assert (at_finished = performs 3 (drop 2 finished) d1) as Hlater.
  { assert (d1 = (StartRun true (calm 2) (Some (spec "run-2" "key-2")) d).1) as -> by by rewrite Hin. vm_compute. reflexivity. }
  assert (inl run = (StartRun true (calm 2) (Some (spec "run-2" "key-2")) d).2) as Hst by by rewrite Hin.
  destruct (admission_once true d (calm 2) (Some (spec "run-2" "key-2")) d1 run at_finished (calm 9)) as (again & Hrun & Hid).
  - apply performs_reachable. by repeat split.
  - intros n d0. apply rtc_refl.
  - exact Hin.
  - rewrite Hlater. apply performs_steps. by repeat split.
  - reflexivity.
  - reflexivity.
  - exists again. split; [exact Hrun|]. rewrite Hid. clear -Hst. vm_compute in Hst. injection Hst as ->. reflexivity.
Defined.

(** The first run, from its admission to its end. *)
Lemma run_history_witness :
  ∃ r', runs at_finished !! "run-1" = Some r' ∧ rtc lifecycle "pending" (rw_Status r').
Proof.
  set (d := performs 1 (take 2 finished) empty_DB).
  destruct (runs d !! "run-1") as [r|] eqn:Hr; [|vm_compute in Hr; discriminate].
  destruct (run_history true all_requests d at_finished "run-1" r) as (r' & Hr' & _ & Hl & _).
  - apply performs_reachable. by repeat split.
  - assert (at_finished = performs 3 (drop 2 finished) d) as -> by (vm_compute; reflexivity).
    apply performs_steps. by repeat split.
  - exact Hr.
  - exists r'. split; [exact Hr'|]. assert (rw_Status r = "pending") as Hs; [|by rewrite <- Hs].
    vm_compute in Hr. by injection Hr as <-.
Defined.

(** The drainer takes an event off the outbox. *)
Lemma outbox_exact_witness :
  let d' := {| at_finished with outbox := outbox at_finished ∖ {[("thread", 1%Z)]} |} in
  outbox_follows at_finished d' ∨ (events d' = events at_finished ∧ ∃ k, outbox d' = outbox at_finished ∖ {[k]}).
Proof. intros d'. apply (outbox_exact all_requests); [exact finished_reachable|apply step_published]. Defined.

(** The end of the first run with outcome canceled. *)
Lemma cancellation_refused_witness :
  let x := event "run-1" 5 ConversationEventRunFinished {["outcome" := AString "canceled"]} in
  withConversationTx (persistEvent true x) (env 9) at_answering = (at_answering, inr (Pg CheckViolation project)).
Proof.
  intros x. destruct (cancellation_refused true all_requests at_answering answering_reachable) as [_ Hc].
  destruct (runs at_answering !! "run-1") as [r|] eqn:Hr; [|vm_compute in Hr; discriminate].
  apply (Hc x r (env 9)); [exact Hr|..]; try (vm_compute; reflexivity);
    vm_compute in Hr; injection Hr as <-; vm_compute; reflexivity.
Defined.
