(* ===== verification/ConversationReplay.v ===== *)
(** * Messages as a function of events

    An abstract specification of the message table: the messages of a thread are the replay
    of its event log, for requests whose payloads are decoded documents.  [thread_events]
    lists the log; [replay_log] folds [replay_event] over it. *)

From S2P Require Import Prelude Types Json Decode Calls ConversationDB GoStrings Conversation ConversationSpec.
From S2P Require Import ConversationSample.
From S2P Require Import ConversationHistory.
Import conversationdb conversation.

(** ** The log of a thread *)

#[local] Instance event_le_trans : Transitive event_le.
Proof. intros x y z. unfold event_le. lia. Qed.
#[local] Instance event_le_total : Total event_le.
Proof. intros x y. unfold event_le. lia. Qed.

Section log.
Context `{!RFC3339, !PgTime, !Collation, !SliceSort}.

Lemma elem_of_thread_events d t i e : (i, e) ∈ thread_events d t ↔ events d !! (t, i) = Some e.
Proof.
  unfold thread_events. rewrite elem_of_sort_slice, list_elem_of_fmap. split.
  - intros ([[t' j] x] & [= -> ->] & Hin). apply list_elem_of_filter in Hin as [Ht Hx]. cbn in Ht. subst t'.
    by apply elem_of_map_to_list in Hx.
  - intros He. exists (t, i, e). split; [done|]. apply list_elem_of_filter. split; [done|]. by apply elem_of_map_to_list.
Qed.

Lemma thread_events_NoDup d t : NoDup (thread_events d t).
Proof.
  unfold thread_events. rewrite sort_slice_perm. apply NoDup_fmap_2_strong.
  - intros [[t1 i1] e1] [[t2 i2] e2] [Ht1 _]%list_elem_of_filter [Ht2 _]%list_elem_of_filter. cbn in *. congruence.
  - apply NoDup_filter, NoDup_map_to_list.
Qed.

(** A sorted list of the events of a thread is the listing. *)
Lemma thread_events_unique d t l :
  StronglySorted event_le l → NoDup l → (∀ i e, (i, e) ∈ l ↔ events d !! (t, i) = Some e) → thread_events d t = l.
Proof.
  intros Hs Hn Hl. apply (StronglySorted_unique_strong event_le).
  - intros [i1 e1] [i2 e2] He1%elem_of_thread_events He2%Hl Hle Hge. unfold event_le in *. cbn in *.
    assert (i1 = i2) as -> by lia. congruence.
  - apply Sorted_StronglySorted; [apply _|]. apply sort_slice_sorted. apply _.
  - done.
  - apply NoDup_Permutation; [apply thread_events_NoDup|done|]. intros [i e]. by rewrite elem_of_thread_events, Hl.
Qed.

Lemma thread_events_sorted d t : StronglySorted event_le (thread_events d t).
Proof. apply Sorted_StronglySorted; [apply _|]. apply sort_slice_sorted. apply _. Qed.

Lemma thread_events_same d d' t :
  (∀ i, events d' !! (t, i) = events d !! (t, i)) → thread_events d' t = thread_events d t.
Proof.
  intros He. apply thread_events_unique; [apply thread_events_sorted|apply thread_events_NoDup|].
  intros i e. by rewrite elem_of_thread_events, He.
Qed.

Lemma thread_events_append ob d t th e t' :
  conv_ok d → event_fresh d t th e →
  thread_events (with_event ob d t th e) t' =
  if t' == t then thread_events d t ++ [((th_NextSequence th + 1)%Z, e)] else thread_events d t'.
Proof.
  intros Hok Hfresh. case_bool_decide as Ht.
  - subst t'. assert (∀ i x, events d !! (t, i) = Some x → (i < th_NextSequence th + 1)%Z) as Hlt.
    { intros i x Hx. by apply (old_event_bound d t th e Hok Hfresh) in Hx as [_ ?]. }
    apply thread_events_unique.
    + apply StronglySorted_app. split_and!; [|apply thread_events_sorted|by repeat constructor].
      intros [i x] y Hx%elem_of_thread_events Hy%list_elem_of_singleton. subst y. apply Hlt in Hx.
      unfold event_le. cbn. lia.
    + apply NoDup_app. split_and!; [apply thread_events_NoDup| |apply NoDup_singleton].
      intros [i x] Hx%elem_of_thread_events [= -> ->]%list_elem_of_singleton. apply Hlt in Hx. lia.
    + intros i x. rewrite elem_of_app, list_elem_of_singleton, elem_of_thread_events. cbn. split.
      * intros [Hx|[= -> ->]]; [|by rewrite lookup_insert_eq]. rewrite lookup_insert_ne; [done|].
        intros [= <-]. apply Hlt in Hx. lia.
      * intros [[[= <-] <-]|[_ ?]]%lookup_insert_Some; auto.
  - apply thread_events_same. intros i. cbn. by rewrite lookup_insert_ne by congruence.
Qed.

(** ** Replaying *)

Definition event_log (d : DB) (t : string) : list EventRow := (thread_events d t).*2.

Definition replay_row (v : gmap string MessageView) (e : EventRow) : gmap string MessageView :=
  replay_event (er_EventType e) (er_RunID e) (decode_map (er_Payload e)) v.

Definition replay_log (l : list EventRow) : gmap string MessageView := foldl replay_row ∅ l.

Lemma replay_snoc l e : replay_log (l ++ [e]) = replay_row (replay_log l) e.
Proof. apply foldl_snoc. Qed.

Lemma event_log_append ob d t th e t' :
  conv_ok d → event_fresh d t th e →
  event_log (with_event ob d t th e) t' = if t' == t then event_log d t ++ [e] else event_log d t'.
Proof.
  intros Hok Hfresh. unfold event_log. rewrite (thread_events_append ob d t th e t') by done.
  case_bool_decide; [|done]. by rewrite fmap_app.
Qed.

Definition view_ok (d : DB) : Prop := ∀ t, thread_view (messages d) t = replay_log (event_log d t).

(** Requests as they arrive over the wire: the payload of an event is a decoded document,
    and the id of a message is trimmed. *)
Definition wire : requests := {|
  admits_start spec := TrimSpace (ss_MessageID spec) = ss_MessageID spec;
  admits_event event := decode_map (enc_map enc_any (xe_Payload event)) = xe_Payload event;
|}.

(** A map of strings survives its encoding. *)
Lemma decode_strings (m : gmap string any) :
  map_Forall (λ _ v, ∃ s, v = AString s) m → decode_map (enc_map enc_any (Some m)) = Some m.
Proof.
  intros Hm. unfold decode_map. cbn [enc_map]. rewrite decode_enc_object. f_equal. apply map_eq. intros k.
  rewrite lookup_fmap. destruct (m !! k) as [v|] eqn:Hk; [|done]. by destruct (Hm _ _ Hk) as [s ->].
Qed.

Lemma decode_abandonment run n now :
  decode_map (enc_map enc_any (xe_Payload (abandonment run n now))) = xe_Payload (abandonment run n now).
Proof.
  apply decode_strings. apply map_Forall_insert_2; [by eexists|]. apply map_Forall_singleton. by eexists.
Qed.

Lemma replay_start_event p run v : replay_event ConversationEventRunStarted run p v = v.
Proof. reflexivity. Qed.

Lemma view_same d d' :
  messages d' = messages d → events d' = events d → view_ok d → view_ok d'.
Proof.
  intros Hm He Hv t. rewrite Hm, (Hv t). unfold event_log. f_equal. f_equal. apply thread_events_same.
  intros i. by rewrite He.
Qed.

(** What the events of a user message add to the logs. *)
Lemma appends_log ob spec l d d' t' :
  appends ob spec l d d' → Forall (λ x, x.1 ≠ ConversationEventRunStarted) l → conv_ok d →
  (∃ r, runs d !! ss_RunID spec = Some r ∧ rw_ThreadID r = ss_ThreadID spec) →
  messages d' = messages d ∧ ∃ uuids, length uuids = length l ∧
    event_log d' t' = if t' == ss_ThreadID spec
                      then event_log d t' ++ zip_with (λ u x, user_event u spec x) uuids l
                      else event_log d t'.
Proof.
  induction 1 as [d|x l d th uuid d' Hfresh Happ IH].
  { intros _ _ _. split; [done|]. exists []. split; [done|]. case_bool_decide; [by rewrite app_nil_r|done]. }
  intros Hx Hok Hr. pose proof Hx as [_ Hl]%Forall_cons.
  destruct IH as [Hm (uuids & Hlen & Hlog)]; [done| |done|].
  { eapply (appends_ok ob spec [x]); [econstructor; [exact Hfresh|constructor]| |done|done].
    apply Forall_singleton. by apply Forall_cons in Hx as [? _]. }
  split; [done|]. exists (uuid :: uuids). split; [cbn; by rewrite Hlen|]. rewrite Hlog.
  rewrite (event_log_append ob d _ th _ t') by done. case_bool_decide as Ht; [|done].
  subst t'. cbn. by rewrite <- (assoc_L (++)).
Qed.

(** The events of a user message, replayed. *)
Lemma replay_user spec u1 u2 u3 v :
  TrimSpace (ss_MessageID spec) = ss_MessageID spec → v !! ss_MessageID spec = None →
  foldl replay_row v (zip_with (λ u x, user_event u spec x) [u1; u2; u3] (user_message_events spec)) =
  <[ss_MessageID spec := view (user_row spec)]> v.
Proof.
  intros Htrim Hv. cbn [zip_with user_message_events foldl].
  unfold replay_row, user_event. cbn [er_EventType er_RunID er_Payload fst snd].
  rewrite !decode_strings by (repeat (apply map_Forall_insert_2; [by eexists|]); apply map_Forall_empty).
  rewrite replay_start, replay_content, replay_end.
  unfold stringPayload, contentPayload, map_get. cbn [mbind option_bind].
  repeat (rewrite lookup_insert_eq || (rewrite lookup_insert_ne by done)). cbn [stringValue]. rewrite Htrim, Hv.
  rewrite lookup_insert_eq. cbn [mv_RunID mv_Status]. rewrite !bool_decide_eq_true_2 by done. cbn [andb].
  rewrite lookup_insert_eq. cbn [mv_Status]. rewrite bool_decide_eq_true_2 by done.
  rewrite !insert_insert_eq. done.
Qed.

Lemma started_view ob d spec run d' :
  conv_ok d → view_ok d → TrimSpace (ss_MessageID spec) = ss_MessageID spec →
  started ob d spec run d' → view_ok d'.
Proof.
  intros Hok Hv Htrim Hs. pose proof Hs as (d0 & Hd0 & Hrest). pose proof (thread_ok _ _ _ Hok Hd0) as Hok0.
  assert (view_ok d0 ∧ runs d0 = runs d ∧ messages d0 = messages d) as (Hv0 & Eruns & Ems).
  { destruct Hd0 as [(? & _ & _ & _ & ->)|[_ ->]]; [done|]. split_and!; [|done..]. by apply (view_same d). }
  destruct Hrest as [(k & _ & _ & ->)|(dbnow & Hkey & Hnew & Hm & _ & _ & Happ)]; [done|].
  set (d1 := Build_DB _ _ _ _ _ _) in Happ.
  assert (conv_ok d1) as Hok1.
  { assert (∃ th, threads d0 !! ss_ThreadID spec = Some th ∧ th_AccountID th = ss_AccountID spec ∧
              th_ProjectID th = ss_ProjectID spec) as (th & Hth & Ha & Hp).
    { destruct Hd0 as [(th & ? & ? & ? & ->)|[_ ->]]; [by exists th|].
      exists (thread_row spec). cbn. by rewrite lookup_insert_eq. }
    unfold d1. rewrite <- Eruns, <- Ems. eapply admitted_ok; try done. by rewrite Eruns. }
  intros t'. destruct (appends_log _ _ _ _ _ t' Happ) as [Hms (uuids & Hlen & ->)]; [by repeat constructor|done| |].
  { exists (run_row spec dbnow). cbn. by rewrite lookup_insert_eq. }
  assert (event_log d1 t' = event_log d0 t') as Hl0.
  { done. }
  rewrite Hms, Hl0. cbn [messages d1]. rewrite <- Ems in Hm |- *.
  rewrite thread_view_insert by (intros m0; congruence). cbn [ms_ThreadID user_row].
  assert (bool_decide (t' = ss_ThreadID spec) = bool_decide (ss_ThreadID spec = t')) as -> by by apply bool_decide_ext.
  case_bool_decide as Ht; [|by apply Hv0]. rewrite (Hv0 t').
  destruct uuids as [|u1 [|u2 [|u3 [|]]]]; try done.
  unfold replay_log at 2. rewrite foldl_app. fold (replay_log (event_log d0 t')).
  rewrite replay_user; [done..|]. by rewrite <- (Hv0 t'), lookup_thread_view, Hm.
Qed.

Lemma ingested_view ob d event stored d' :
  conv_ok d → view_ok d → decode_map (enc_map enc_any (xe_Payload event)) = xe_Payload event →
  ingested ob d event stored d' → view_ok d'.
Proof.
  intros Hok Hv Hdoc [(r & k & _ & _ & _ & _ & ->)|(r & r' & th & uuid & ms & def & [Hr Hs _ _ Hfresh -> _ Hproj])]; [done|].
  apply scope_thread in Hs as (Ht & _). intros t'.
  set (e := event_row uuid (rw_ProcessID r) event) in *.
  change (event_log (recorded ob d (xe_ThreadID event) th e (advance_row event r') ms def) t')
    with (event_log (with_event ob d (xe_ThreadID event) th e) t').
  rewrite (event_log_append ob d _ th e t') by done. cbn [messages recorded].
  assert (∀ v, replay_row v e = replay_event (xe_EventType event) (xe_RunID event) (xe_Payload event) v) as He.
  { intros v. unfold replay_row. cbn [er_EventType er_RunID er_Payload e event_row]. by rewrite Hdoc. }
  destruct Hproj as [(_ & _ & _ & _ & _ & _ & [_ Hms] & _)|(Hty & _ & -> & _)].
  - rewrite Hms, Ht. case_bool_decide; [|by apply Hv]. by rewrite replay_snoc, He, (Hv t'); subst.
  - case_bool_decide; [|by apply Hv]. subst t'. by rewrite replay_snoc, He, Hty, replay_start_event, (Hv (xe_ThreadID event)).
Qed.

Lemma micro_view ob d d' : conv_ok d → view_ok d → micro ob wire true d d' → view_ok d'.
Proof.
  intros Hok Hv [spec run d1 Hq Hs|event stored d1 Hq _ Hin|t i e r r' ms He Hty Hr _ _ _ _ [_ Hms]|k _].
  - exact (started_view _ _ _ _ _ Hok Hv Hq Hs).
  - eapply ingested_view; [done..| |exact Hin]. destruct Hq as [?|(run & n & now & ->)]; [done|]. apply decode_abandonment.
  - intros t'. cbn [messages unparked]. rewrite Hms. rewrite replay_start_event.
    assert (event_log (unparked d t i (er_RunID e) r' ms) t' = event_log d t') as ->.
    { done. }
    case_bool_decide; apply Hv.
  - by apply (view_same d).
Qed.

(** C18: messages are what the events say.  Where payloads are decoded documents and message
    ids are trimmed, the messages of every thread (owner, role, text and status) are the
    replay of the thread's events in their order, whatever requests and sweeps came. *)
Theorem messages_replay ob d t :
  conv_reachable ob wire d → thread_view (messages d) t = replay_log (event_log d t).
Proof.
  intros Hr. apply steps_micro in Hr; [|apply conv_ok_empty]. revert t. change (view_ok d).
  assert (conv_ok empty_DB ∧ view_ok empty_DB) as [Hok Hv].
  { split; [apply conv_ok_empty|]. intros t. unfold event_log. rewrite (thread_events_unique _ t []); [done|constructor..|].
    intros i e. cbn. rewrite lookup_empty. by rewrite elem_of_nil. }
  revert Hok Hv. induction Hr as [|d d1 d2 Hs _ IH]; intros Hok Hv; [done|].
  apply IH; [by eapply micro_ok|by eapply micro_view].
Qed.
End log.

(** ** Witness *)

Import conversationsample.

Lemma finished_wire : conv_reachable true wire at_finished.
Proof.
  apply finished_allowed. repeat split; intros p Hp; vm_compute in Hp; injection Hp as <-; vm_compute; reflexivity.
Qed.

(** The answer of the first run is the replay of its two deltas, which arrived as "Hello"
    and " world": a delta loses the space around it. *)
Lemma messages_replay_witness :
  thread_view (messages at_finished) "thread" = replay_log (event_log at_finished "thread") ∧
  mv_Content <$> replay_log (event_log at_finished "thread") !! "answer" = Some "Helloworld".
Proof. split; [exact (messages_replay true at_finished "thread" finished_wire)|vm_compute; reflexivity]. Defined.
