(* ===== verification/ConversationSweep.v ===== *)
(** * Parked starts and abandoned runs

    What a sweep does to turns that wait for their thread: one waiting turn per thread is
    started; two waiting turns of one thread block the sweep for good.  A run that is silent
    for longer than its lease is ended. *)

From S2P Require Import Prelude Types Json Decode Calls ConversationDB GoStrings Conversation ConversationSpec.
From S2P Require Import ConversationSample.
From S2P Require Import ConversationHistory.
Import conversationdb conversation.

Section sweep.
Context `{!RFC3339, !PgTime, !Collation, !SliceSort}.

(** ** Loops *)

(** A loop keeps a relation to the elements it has gone through. *)
Lemma count_loop_prefix {A} (I : list A → DB → Prop) (f : A → Tx bool) l n d :
  (∀ l1 a l2 d, l = l1 ++ a :: l2 → I l1 d → tri d (f a) (λ _ d', I (l1 ++ [a]) d')) →
  I [] d → tri d (count_loop f l n) (λ _ d', I l d').
Proof.
  intros Hf. cut (∀ l2 l1 n d, l = l1 ++ l2 → I l1 d → tri d (count_loop f l2 n) (λ _ d', I l d')).
  { intros Hcut Hd. by apply (Hcut l []). }
  clear n d. induction l2 as [|a l2 IH]; intros l1 n d Hl Hd; cbn [count_loop].
  - rewrite app_nil_r in Hl. subst l1. by tx_step.
  - tx_step. eapply tri_mono; [by eapply Hf|]. intros b d' Hd'. eapply (IH (l1 ++ [a])); [|done].
    by rewrite <- (assoc_L (++)).
Qed.

(** A run that a parked start set running. *)
Definition turn_taken (d : DB) (entry : deferredProjection) : Prop :=
  ∃ r, runs d !! dp_runID entry = Some r ∧ rw_ThreadID r = dp_threadID entry ∧ rw_Status r = "running".

(** A parked start of a run that is still pending. *)
Definition pending_in (d : DB) (entry : deferredProjection) : Prop :=
  ∃ r, runs d !! dp_runID entry = Some r ∧ rw_Status r = "pending".

Lemma lifecycle_to_pending s : rtc lifecycle s "pending" → s = "pending".
Proof. intros Hl. apply rtc_inv_r in Hl as [->|(s' & _ & Hl)]; [done|]. inversion Hl. Qed.

(** A sweep that goes through has started turns of different threads. *)
Lemma applied_threads d l n :
  conv_ok d → (∀ entry, entry ∈ l → entry ∈ waiting_projections d) →
  tri d (count_loop applyDeferredProjection l n) (λ _ d', NoDup (dp_threadID <$> l) ∧ Forall (pending_in d) l).
Proof.
  intros Hok Hl.
  eapply tri_mono; [apply (count_loop_prefix (λ l1 d', (conv_ok d' ∧ events d' = events d ∧ conv_extends d d' ∧
    Forall (turn_taken d') l1) ∧ NoDup (dp_threadID <$> l1) ∧ Forall (pending_in d) l1))|by intros m d' [_ ?]].
  2: { split_and!; [done..|constructor|constructor|constructor]. }
  intros l1 entry l2 d1 Heq ((Hok1 & Hev & Hext & Htaken) & Hnd & Hpd).
  assert (entry ∈ waiting_projections d) as (e & He & Hty & Hrid)%waiting_entry by (apply Hl; set_solver); [|done].
  rewrite <- Hev in He. eapply tri_mono; [by apply apply_deferred_spec|].
  intros b d2 (_ & r & r' & ms & Hr & -> & Hsame & Hlast & [Hpend Hrun]%by_started & Hcheck & Hms).
  pose proof Hcheck as [_ Halone]%check_run_None. specialize (Halone Hrun). rewrite other_running_false in Halone.
  rewrite (sr_thread _ _ Hsame) in Halone.
  assert (rw_ThreadID r = dp_threadID entry) as Hthread.
  { destruct (co_event _ Hok1 _ _ _ He) as (r0 & Hr0 & <- & _). congruence. }
  assert (∀ x, x ∈ l1 → ∃ rx, runs d1 !! dp_runID x = Some rx ∧ dp_runID x ≠ er_RunID e ∧
            rw_ThreadID rx = dp_threadID x ∧ rw_Status rx = "running" ∧ dp_threadID x ≠ dp_threadID entry) as Hold.
  { intros x Hx. rewrite Forall_forall in Htaken. destruct (Htaken x Hx) as (rx & Hrx & Htx & Hsx).
    assert (dp_runID x ≠ er_RunID e) as Hne by congruence. exists rx. split_and!; [done..|].
    intros Heq'. apply (Halone _ _ Hrx Hne); congruence. }
  split_and!; [by eapply unparked_ok|done| | | |].
  - etrans; [exact Hext|]. apply (micro_extends true all_requests true). eapply micro_unpark; try done.
    rewrite Hpend, Hrun. by left.
  - apply Forall_app. split; [|apply Forall_singleton].
    + apply Forall_forall. intros x (rx & Hrx & Hne & ? & ? & _)%Hold. exists rx. cbn.
      by rewrite lookup_insert_ne by done.
    + exists r'. cbn. rewrite <- Hrid, lookup_insert_eq, (sr_thread _ _ Hsame). done.
  - rewrite fmap_app. apply NoDup_app. split_and!; [done| |apply NoDup_singleton].
    intros t (x & -> & Hx)%list_elem_of_fmap Ht%list_elem_of_singleton. by destruct (Hold x Hx) as (? & _ & _ & _ & _ & ?).
  - apply Forall_app. split; [done|]. apply Forall_singleton. unfold pending_in. rewrite <- Hrid.
    destruct (co_event _ Hok _ _ _ ltac:(rewrite <- Hev; exact He)) as (r0 & Hr0 & _).
    exists r0. split; [done|]. destruct (cx_runs _ _ Hext _ _ Hr0) as (r1 & Hr1 & [_ Hst _]).
    rewrite Hr in Hr1. injection Hr1 as <-. rewrite Hpend in Hst. by apply lifecycle_to_pending in Hst.
Qed.

(** Applying a parked start whose run is pending and whose thread is free. *)
Lemma apply_deferred_runs d entry e r env n :
  events d !! (dp_threadID entry, dp_sequence entry) = Some e →
  er_EventType e = ConversationEventRunStarted → er_RunID e = dp_runID entry →
  runs d !! er_RunID e = Some r → rw_Status r = "pending" →
  other_running d (er_RunID e) (rw_ThreadID r) = false →
  applyDeferredProjection entry env (tx_at d n) =
  (tx_at (unparked d (dp_threadID entry) (dp_sequence entry) (er_RunID e)
            (start_row (er_OccurredAt e) r) (messages d)) n, inl true).
Proof.
  intros He Hty Hrid Hr Hs Halone. unfold applyDeferredProjection, lockRun, storedEvent, query, exec, mbind, Tx_bind.
  cbn -[applyEventProjection catch]. rewrite <- Hrid, Hr. cbn -[applyEventProjection catch]. rewrite He.
  cbn -[applyEventProjection catch]. fold (stored_event (dp_threadID entry) e). unfold catch, applyEventProjection.
  cbn [xe_EventType stored_event]. rewrite Hty. rewrite bool_decide_eq_true_2 by done.
  unfold requireRunStatus, guard_tx, mbind, Tx_bind, catch, exec. cbn [cr_Status scanRun finishRunScan]. rewrite Hs.
  change ("pending" != ConversationRunPending) with false. cbn -[update_run]. unfold update_run. rewrite Hr.
  unfold check_run. cbn -[other_running]. rewrite Halone. done.
Qed.

(** A parked start that can be applied. *)
Record startable (d : DB) (entry : deferredProjection) (e : EventRow) (r : RunRow) : Prop := {
  st_event : events d !! (dp_threadID entry, dp_sequence entry) = Some e;
  st_type : er_EventType e = ConversationEventRunStarted;
  st_run : er_RunID e = dp_runID entry;
  st_row : runs d !! er_RunID e = Some r;
  st_pending : rw_Status r = "pending";
  st_thread : rw_ThreadID r = dp_threadID entry;
  st_free : ∀ id x, runs d !! id = Some x → rw_ThreadID x = dp_threadID entry → rw_Status x ≠ "running";
}.

Lemma all_applied l : ∀ d m env n,
  NoDup (dp_threadID <$> l) → Forall (λ entry, ∃ e r, startable d entry e r) l →
  ∃ d', count_loop applyDeferredProjection l m env (tx_at d n) = (tx_at d' n, inl (m + Z.of_nat (length l))%Z) ∧
    Forall (λ entry, turn_taken d' entry ∧ deferred d' !! (dp_threadID entry, dp_sequence entry) = None) l ∧
    (∀ id, id ∉ dp_runID <$> l → runs d' !! id = runs d !! id) ∧
    (∀ k, deferred d !! k = None → deferred d' !! k = None).
Proof.
  induction l as [|entry l IH]; intros d m env n Hnd Hall.
  { exists d. cbn. rewrite Z.add_0_r. split_and!; [done|constructor|done|done]. }
  rewrite fmap_cons in Hnd. apply NoDup_cons in Hnd as [Hni Hnd].
  apply Forall_cons in Hall as [(e & r & [He Hty Hrid Hr Hs Ht Hfree]) Hall].
  set (d1 := unparked d (dp_threadID entry) (dp_sequence entry) (er_RunID e) (start_row (er_OccurredAt e) r) (messages d)).
  assert (∀ x, x ∈ l → dp_threadID x ≠ dp_threadID entry) as Hother.
  { intros x Hx Heq. apply Hni. rewrite <- Heq. by apply list_elem_of_fmap_2. }
  destruct (IH d1 (m + 1)%Z env n Hnd) as (d' & Hrun & Hl & Hruns & Hdef).
  { apply Forall_forall. intros x Hx. rewrite Forall_forall in Hall. destruct (Hall x Hx) as (ex & rx & [Hex ? Hridx Hrx ? Htx Hfx]).
    assert (er_RunID ex ≠ er_RunID e) as Hne by (intros Heq; rewrite Heq, Hr in Hrx; injection Hrx as <-; apply (Hother x Hx); congruence).
    exists ex, rx. split; try done; cbn; [by rewrite lookup_insert_ne|].
    intros id y [[_ <-]|[_ Hy]]%lookup_insert_Some; [|by apply (Hfx id)]. cbn. intros Heq. exfalso.
    apply (Hother x Hx). congruence. }
  exists d'. split.
  - cbn [count_loop]. unfold mbind, Tx_bind.
    rewrite (apply_deferred_runs d entry e r env n) by (done || (apply other_running_false; intros; eapply Hfree; [done|congruence])).
    fold d1. change (if true then (m + 1)%Z else m) with (m + 1)%Z. rewrite Hrun. do 2 f_equal. cbn. lia.
  - assert (dp_runID entry ∉ dp_runID <$> l) as Hrun_ni.
    { intros (x & Heq & Hx)%list_elem_of_fmap. rewrite Forall_forall in Hall.
      destruct (Hall x Hx) as (ex & rx & [_ _ Hridx Hrx _ Htx _]). apply (Hother x Hx).
      rewrite Hridx, <- Heq, <- Hrid, Hr in Hrx. injection Hrx as <-. congruence. }
    split_and!.
    + apply Forall_cons. split; [|done]. split.
      * exists (start_row (er_OccurredAt e) r). rewrite Hruns by done. cbn. rewrite <- Hrid, lookup_insert_eq. by split_and!.
      * apply Hdef. cbn. apply lookup_delete_eq.
    + intros id Hid. rewrite fmap_cons in Hid. apply not_elem_of_cons in Hid as [Hid1 Hid2]. rewrite Hruns by done.
      cbn. rewrite lookup_insert_ne; [done|congruence].
    + intros k Hk. apply Hdef. cbn. apply lookup_delete_None. by right.
Qed.

Lemma waiting_startable d entry :
  conv_ok d → entry ∈ waiting_projections d → pending_in d entry → ∃ e r, startable d entry e r.
Proof.
  intros Hok Hin (r & Hr & Hs). destruct (waiting_entry d entry Hok Hin) as (e & He & Hty & Hrid).
  exists e, r. destruct (co_event _ Hok _ _ _ He) as (r0 & Hr0 & Ht & _). rewrite Hrid, Hr in Hr0. injection Hr0 as <-.
  split; try done; [by rewrite Hrid|].
  unfold waiting_projections in Hin. rewrite elem_of_sort_slice, list_elem_of_omap in Hin.
  destruct Hin as ([[t i] x] & _ & Hx). cbn in Hx. destruct (thread_running d t) eqn:Hfree; [done|].
  injection Hx as <-. cbn in *. intros id y Hy Hty' Hsy. apply bool_decide_eq_false in Hfree. apply Hfree. by exists id, y.
Qed.

(** ** Abandoning runs *)

(** An append that the database has no reason to refuse. *)
Lemma append_runs ob d t th run process source sourceSequence ty at_ payload env n :
  threads d !! t = Some th → (0 ≤ th_NextSequence th < max_int64)%Z → is_Some (runs d !! run) →
  events d !! (t, th_NextSequence th + 1)%Z = None → (t, th_NextSequence th + 1)%Z ∉ outbox d →
  supported (enc_map enc_any payload) = true → event_id_taken d (env_uuid env n) = false →
  (source ≠ "" → event_with_source d t source = None) →
  let e := {|
    er_EventID := env_uuid env n; er_RunID := run; er_ProcessID := process; er_SourceEventID := source;
    er_SourceSequence := sourceSequence; er_EventType := ty; er_OccurredAt := pg_time at_;
    er_Payload := enc_map enc_any payload |} in
  appendEvent ob t run process source sourceSequence ty at_ payload env (tx_at d n) =
  (tx_at (with_event ob d t th e) (S n), inl (answered t (th_NextSequence th + 1) e at_ payload)).
Proof.
  intros Hth [Hnext Hmax] [r Hr] Hnone Hout Hdoc Hid Hsrc e.
  unfold appendEvent, exec, NewString, mbind, Tx_bind. cbn -[insert_event enqueueEventOutbox allocate_sequence].
  unfold allocate_sequence. rewrite Hth, (proj2 (Z.leb_gt _ _) Hmax). cbn -[insert_event enqueueEventOutbox].
  unfold marshalJSON. rewrite Hdoc. cbn -[insert_event enqueueEventOutbox]. unfold insert_event.
  cbn -[enqueueEventOutbox event_id_taken event_with_source].
  rewrite (proj2 (Z.ltb_lt 0 _)) by lia. cbn -[enqueueEventOutbox event_id_taken event_with_source]. rewrite Hnone.
  change (event_id_taken _ (env_uuid env n)) with (event_id_taken d (env_uuid env n)).
  change (event_with_source _ t source) with (event_with_source d t source). rewrite Hid.
  assert ((source != "") && bool_decide (is_Some (event_with_source d t source)) = false) as ->.
  { case_bool_decide as Hs; [done|]. rewrite (Hsrc Hs). done. }
  cbn -[enqueueEventOutbox]. rewrite lookup_insert_eq, Hr. unfold enqueueEventOutbox, exec. destruct ob; [|done].
  cbn. unfold insert_outbox. cbn. rewrite bool_decide_eq_false_2 by done. by rewrite lookup_insert_eq.
Qed.

(** The end of a stream is free. *)
Lemma stream_end d t th :
  conv_ok d → threads d !! t = Some th →
  events d !! (t, th_NextSequence th + 1)%Z = None ∧ (t, th_NextSequence th + 1)%Z ∉ outbox d.
Proof.
  intros Hok Hth. assert (events d !! (t, th_NextSequence th + 1)%Z = None) as Hnone.
  { apply eq_None_not_Some. intros (th' & Hth' & Hi)%(co_stream _ Hok). rewrite Hth in Hth'. injection Hth' as <-. lia. }
  split; [done|]. intros [x Hx]%(co_outbox _ Hok). congruence.
Qed.

Lemma finish_abandoned run run' n now :
  finishRun run (abandonment run' n now) = exec project (update_run (cr_RunID run)
    (finish_row ConversationRunError ConversationOutcomeAbandoned None now "lease_expired" "lease_expired")).
Proof. reflexivity. Qed.

(** A selected run that can be abandoned. *)
Record abandonable (d : DB) (id : string) (r : RunRow) (th : ThreadRow) : Prop := {
  ab_row : runs d !! id = Some r;
  ab_running : rw_Status r = "running";
  ab_thread : threads d !! rw_ThreadID r = Some th;
  ab_room : (th_NextSequence th < max_int64)%Z;
  ab_last : (rw_LastSourceSequence r < max_int64)%Z;
  ab_new : event_with_source d (rw_ThreadID r) (abandonedSourceEventID id) = None;
}.

(** The row of an abandoned run. *)
Definition abandoned_row (run : ConversationRun) (last : Z) (now : time) (r : RunRow) : RunRow :=
  advance_row (abandonment run last now)
    (finish_row ConversationRunError ConversationOutcomeAbandoned None now "lease_expired" "lease_expired" r).

Definition abandonment_row (uuid : string) (id : string) (r : RunRow) (now : time) : EventRow :=
  event_row uuid (rw_ProcessID r) (abandonment (expired_run (id, r)) (rw_LastSourceSequence r) now).

Lemma abandon_runs ob d id r th env n :
  conv_ok d → abandonable d id r th → event_id_taken d (env_uuid env (S n)) = false →
  let run := expired_run (id, r) in
  let now := env_now env n in
  let e := abandonment_row (env_uuid env (S n)) id r now in
  abandonRun ob run env (tx_at d n) =
  (tx_at (recorded ob d (rw_ThreadID r) th e (abandoned_row run (rw_LastSourceSequence r) now r)
            (messages d) (deferred d)) (S (S n)), inl tt).
Proof.
  intros Hok [Hr Hs Hth Hroom Hlast Hnew] Hid run now e.
  assert (0 ≤ rw_LastSourceSequence r)%Z as Hge by apply (co_run _ Hok _ _ Hr).
  assert (xe_SourceSequence (abandonment run (rw_LastSourceSequence r) now) = rw_LastSourceSequence r + 1)%Z as Hseq
    by (cbn; apply int64_small; unfold max_int64 in *; lia).
  unfold abandonRun, lockRun, query, exec, time_Now, mbind at 1, Tx_bind at 1.
  unfold mbind, Tx_bind. cbn -[persistEvent]. rewrite Hr. cbn -[persistEvent]. rewrite Hr. cbn -[persistEvent]. rewrite Hs.
  change ("running" != ConversationRunRunning) with false. cbn -[persistEvent].
  fold run. change (env_now env n) with now. set (event := abandonment run (rw_LastSourceSequence r) now) in *.
  match goal with |- context [persistEvent ob event env ?s] => change s with (tx_at d (S n)) end.
  rewrite (admitted_event ob d event r env (S n)).
  - unfold record_event, catch, applyEventProjectionIsolated, savepoint, mbind, Tx_bind. cbn [tx_failed tx_at].
    rewrite finished_projection by done. unfold requireRunStatus, guard_tx, mbind, Tx_bind.
    cbn [cr_Status scanRun finishRunScan]. rewrite Hs. change ("running" != ConversationRunRunning) with false.
    change (xe_RunID event) with id. assert (finishRun (scanRun id r) event = exec project (update_run id
      (finish_row ConversationRunError ConversationOutcomeAbandoned None now "lease_expired" "lease_expired"))) as ->
      by apply finish_abandoned.
    unfold exec at 1. cbn [tx_failed tx_db tx_at mret Tx_ret]. unfold update_run at 1. rewrite Hr.
    set (r1 := finish_row _ _ _ _ _ _ r). change (check_run d id r1) with (@None sqlstate).
    destruct (stream_end _ _ _ Hok Hth) as [Hnone Hout]. set (d1 := Build_DB _ _ _ _ _ _).
    change (tx_reads (tx_at d (S n))) with (S n). fold (tx_at d1 (S n)). cbv beta iota.
    change (tx_failed (tx_at d1 (S n))) with false. cbv beta iota.
    rewrite (append_runs ob d1 (xe_ThreadID event) th id (rw_ProcessID r)); cycle 1.
    + exact Hth.
    + split; [by eapply (co_next _ Hok)|done].
    + cbn. rewrite lookup_insert_eq. by eexists.
    + exact Hnone.
    + exact Hout.
    + reflexivity.
    + exact Hid.
    + intros _. exact Hnew.
    + cbv beta iota. unfold advanceRunCursor, exec. cbn -[update_run advance_row].
      unfold update_run. cbn -[advance_row check_run]. rewrite lookup_insert_eq.
      change (check_run _ id (advance_row event r1)) with (@None sqlstate). cbv beta iota. cbn -[advance_row].
      unfold tx_at, recorded, with_event. cbn -[advance_row]. rewrite insert_insert_eq. done.
  - exact Hr.
  - unfold validateEventRunScope. cbn. rewrite !bool_decide_eq_true_2 by done. cbn.
    destruct (rw_ProcessID r == ""); [done|]. cbn. by rewrite bool_decide_eq_true_2.
  - exact Hnew.
  - rewrite Hseq. lia.
Qed.


(** What the code does otherwise.  When two turns wait on one thread, or a waiting run has ended,
    the failed statement aborts the transaction: the sweep fails and changes nothing, and the same
    happens at every later sweep. *)
Theorem parked_sweep_stuck ob q d env :
  conv_reachable ob q d →
  let l := take abandonedRunBatch (waiting_projections d) in
  ¬ (NoDup (dp_threadID <$> l) ∧ Forall (pending_in d) l) → ∃ e, applyDeferredProjections env d = (d, inr e).
Proof.
  intros Hok%conv_reachable_ok l Hno. assert (tri d apply_deferred (λ _ _, False)) as Hfalse.
  { unfold apply_deferred, nextDeferredProjections. apply tri_bind, tri_query. fold l.
    eapply tri_mono; [apply applied_threads; [done|]|by intros m d' ?%Hno]. intros entry Hin. by apply subseteq_take in Hin. }
  pose proof (committed _ env d _ Hfalse) as Hc. unfold applyDeferredProjections.
  destruct (withConversationTx _ env d) as [d' [a|e]]; [done|]. subst d'. by exists e.
Qed.

(** A run that was abandoned, and the event that says so. *)
Definition abandoned_in (d : DB) (id : string) (r : RunRow) : Prop :=
  ∃ r' i e, runs d !! id = Some r' ∧ rw_Status r' = "error" ∧ rw_Outcome r' = ConversationOutcomeAbandoned ∧
    rw_ErrorCode r' = "lease_expired" ∧
    events d !! (rw_ThreadID r, i) = Some e ∧ er_RunID e = id ∧ er_EventType e = ConversationEventRunFinished.

Lemma abandonable_later d d1 id r th id0 r0 e th0 row ob ms def :
  conv_ok d → abandonable d id r th → abandonable d id0 r0 th0 → id0 ≠ id → er_RunID e = id →
  d1 = recorded ob d (rw_ThreadID r) th e row ms def → abandonable d1 id0 r0 th0.
Proof.
  intros Hok [Hr Hs Hth _ _ _] [Hr0 Hs0 Hth0 ? ? Hnew0] Hne He ->.
  assert (rw_ThreadID r0 ≠ rw_ThreadID r) as Ht by (intros Heq; apply Hne; by eapply (co_running _ Hok)).
  split; try done; cbn.
  - by rewrite He, lookup_insert_ne.
  - by rewrite lookup_insert_ne.
  - apply event_with_source_None. cbn. intros i x. rewrite lookup_insert_ne by congruence.
    rewrite event_with_source_None in Hnew0. by apply Hnew0.
Qed.

Lemma event_id_later ob d t th e row ms def id :
  event_id_taken d id = false → er_EventID e ≠ id → event_id_taken (recorded ob d t th e row ms def) id = false.
Proof.
  unfold event_id_taken. rewrite !bool_decide_eq_false. cbn. intros Hno Hne (k & x & Hx & Hid).
  apply lookup_insert_Some in Hx as [[_ <-]|[_ Hx]]; [done|]. apply Hno. by exists k, x.
Qed.

Section abandoning.
Context (ob : bool) (env : Env).
Hypothesis uuids : ∀ j k, env_uuid env j = env_uuid env k → j = k.

Lemma all_abandoned l : ∀ d m n,
  conv_ok d → NoDup l.*1 → (∀ k, n < k → event_id_taken d (env_uuid env k) = false) →
  Forall (λ kr, ∃ th, abandonable d kr.1 kr.2 th) l →
  ∃ d' n', count_loop (λ run, abandonRun ob run;; mret true) (expired_run <$> l) m env (tx_at d n) =
      (tx_at d' n', inl (m + Z.of_nat (length l))%Z) ∧
    Forall (λ kr, abandoned_in d' kr.1 kr.2) l ∧ conv_extends d d' ∧
    (∀ id, id ∉ l.*1 → runs d' !! id = runs d !! id).
Proof.
  induction l as [|[id r] l IH]; intros d m n Hok Hnd Hids Hall.
  { exists d, n. cbn. rewrite Z.add_0_r. by split_and!. }
  rewrite fmap_cons in Hnd. apply NoDup_cons in Hnd as [Hni Hnd]. apply Forall_cons in Hall as [[th Hab] Hall].
  pose proof (abandon_runs ob d id r th env n Hok Hab (Hids (S n) ltac:(lia))) as Hrun. cbv zeta in Hrun.
  set (now := env_now env n) in *. set (e := abandonment_row (env_uuid env (S n)) id r now) in *.
  set (d1 := recorded _ _ _ _ _ _ _ _) in Hrun.
  assert (rtc (micro ob all_requests false) d d1) as Hmicro.
  { pose proof (abandon_run_micro ob all_requests false d Hok (expired_run (id, r)) d (rtc_refl _ _) env n) as Hm.
    rewrite Hrun in Hm. by destruct Hm as [_ ?]. }
  assert (conv_extends d d1) as Hx.
  { clear -Hmicro. induction Hmicro as [|a b c Hs _ IHm]; [done|]. etrans; [by eapply micro_extends|done]. }
  destruct (IH d1 (m + 1)%Z (S (S n))) as (d' & n' & Hloop & Hl & Hx' & Hruns); [by eapply micros_ok|done| | |].
  - intros k Hk. apply event_id_later; [apply Hids; lia|]. cbn. intros ?%uuids. lia.
  - apply Forall_forall. intros [id0 r0] Hin. rewrite Forall_forall in Hall. destruct (Hall _ Hin) as [th0 Hab0].
    exists th0. apply (abandonable_later d d1 id r th id0 r0 e th0 (abandoned_row (expired_run (id, r)) (rw_LastSourceSequence r) now r) ob (messages d) (deferred d) Hok Hab Hab0); [|done..].
    intros ->. apply Hni. by apply (list_elem_of_fmap_2 fst _ (id, r0)).
  - exists d', n'. split.
    + set (f := λ run, abandonRun ob run;; mret true) in *.
      assert (f (expired_run (id, r)) env (tx_at d n) = (tx_at d1 (S (S n)), inl true)) as Hf.
      { unfold f, mbind, Tx_bind. by rewrite Hrun. }
      clearbody f. cbn [fmap list_fmap count_loop]. unfold mbind, Tx_bind. rewrite Hf.
      change (if true then (m + 1)%Z else m) with (m + 1)%Z. rewrite Hloop.
      do 2 f_equal. cbn. lia.
    + split_and!; [|by etrans|].
      * apply Forall_cons. split; [|done]. cbn [fst snd].
        eexists _, (th_NextSequence th + 1)%Z, e. split_and!; [rewrite Hruns by done; cbn; by rewrite lookup_insert_eq|done..| |done|done].
        apply (cx_events _ _ Hx'). cbn. by rewrite lookup_insert_eq.
      * intros id0 Hid0. rewrite fmap_cons in Hid0. apply not_elem_of_cons in Hid0 as [? ?]. rewrite Hruns by done.
        cbn. by rewrite lookup_insert_ne by done.
Qed.
End abandoning.

(** The runs that a sweep at an instant finds silent for longer than the lease. *)
Definition selected_runs (d : DB) (lease : Z) (now : time) : list (string * RunRow) :=
  take abandonedRunBatch (expired_before d (pg_time (time_add now (- lease)))).

Lemma elem_of_selected d lease now id r :
  (id, r) ∈ selected_runs d lease now → runs d !! id = Some r ∧ rw_Status r = "running".
Proof.
  intros Hin%subseteq_take. unfold expired_before in Hin. rewrite elem_of_sort_slice in Hin.
  apply list_elem_of_filter in Hin as [[? _] Hin]. by apply elem_of_map_to_list in Hin.
Qed.

Lemma selected_NoDup d lease now : NoDup (selected_runs d lease now).*1.
Proof.
  apply NoDup_fmap_2_strong.
  - intros [id1 r1] [id2 r2] [Hr1 _]%elem_of_selected [Hr2 _]%elem_of_selected Heq. cbn in Heq. congruence.
  - unfold selected_runs. eapply sublist_NoDup; [|apply sublist_take]. unfold expired_before.
    rewrite sort_slice_perm. apply NoDup_filter, NoDup_map_to_list.
Qed.

(** The runs that have been silent for longer than the lease. *)
Definition silent (d : DB) (lease : Z) (now : time) (id : string) (r : RunRow) : Prop :=
  runs d !! id = Some r ∧ rw_Status r = "running" ∧ (rw_LastActivityAt r < pg_time (time_add now (- lease)))%Z.

Lemma elem_of_expired d lease now id r :
  (id, r) ∈ expired_before d (pg_time (time_add now (- lease))) ↔ silent d lease now id r.
Proof.
  unfold expired_before, silent. rewrite elem_of_sort_slice, list_elem_of_filter, elem_of_map_to_list. cbn. tauto.
Qed.

(** The selected runs are the ones that have been silent for longest. *)
Lemma selected_longest d lease now id r id' r' :
  (id, r) ∈ selected_runs d lease now → silent d lease now id' r' →
  (rw_LastActivityAt r' < rw_LastActivityAt r)%Z → (id', r') ∈ selected_runs d lease now.
Proof.
  unfold selected_runs. rewrite <- elem_of_expired. set (l := expired_before _ _). intros Hin Hin' Hlt.
  rewrite <- (take_drop abandonedRunBatch l) in Hin'. apply elem_of_app in Hin' as [?|Hin']; [done|]. exfalso.
  assert (StronglySorted activity_le (take abandonedRunBatch l ++ drop abandonedRunBatch l)) as Hs.
  { rewrite take_drop. apply Sorted_StronglySorted; [intros x y z; unfold activity_le; lia|].
    apply sort_slice_sorted. intros x y. unfold activity_le. lia. }
  pose proof (StronglySorted_app_1_elem_of _ _ _ (id, r) (id', r') Hs Hin Hin') as Hle. unfold activity_le in Hle.
  cbn in Hle. lia.
Qed.

End sweep.

(** ** Witnesses *)

Import conversationsample.


