(* ===== verification/ConversationStream.v ===== *)
(** * Subscriptions and snapshots of a thread

    What a subscriber receives, and how a snapshot and a subscription fit together.  The
    goroutine of a subscription is a program of listings, sends and waits; its listings are
    answered from tables that go on changing. *)

From S2P Require Import Prelude Types Json Decode Calls ConversationDB GoStrings Conversation ConversationSpec.
From S2P Require Import ConversationSample.
From S2P Require Import ConversationHistory ConversationReplay.
Import conversationdb conversation.

(** ** Consecutive events *)

(** Events with the sequences after [c], without gaps. *)
Definition consecutive (c : Z) (l : list (Z * EventRow)) : Prop :=
  ∀ k x, l !! k = Some x → x.1 = (c + 1 + Z.of_nat k)%Z.

Lemma consecutive_app c l1 l2 :
  consecutive c (l1 ++ l2) ↔ consecutive c l1 ∧ consecutive (c + Z.of_nat (length l1)) l2.
Proof.
  unfold consecutive. split.
  - intros Hc. split; intros k x Hx.
    + apply Hc. by apply lookup_app_l_Some.
    + rewrite (Hc (length l1 + k) x); [lia|]. rewrite lookup_app_r by lia. by replace (length l1 + k - length l1) with k by lia.
  - intros [Hc1 Hc2] k x [Hx|[Hk Hx]]%lookup_app_Some; [by apply Hc1|]. rewrite (Hc2 _ _ Hx). lia.
Qed.

Lemma consecutive_take c n l : consecutive c l → consecutive c (take n l).
Proof. intros Hc. rewrite <- (take_drop n l) in Hc. by apply consecutive_app in Hc as [? _]. Qed.

Lemma consecutive_cons c x l : consecutive c (x :: l) ↔ x.1 = (c + 1)%Z ∧ consecutive (c + 1) l.
Proof.
  rewrite (consecutive_app c [x] l). cbn. split; intros [Hx Hl]; (split; [|exact Hl]).
  - rewrite (Hx 0 x eq_refl). lia.
  - intros [|k] y; [|done]. intros [= <-]. rewrite Hx. lia.
Qed.

Lemma consecutive_above c l x : consecutive c l → x ∈ l → (c < x.1 ≤ c + Z.of_nat (length l))%Z.
Proof. intros Hc [k Hx]%list_elem_of_lookup. rewrite (Hc _ _ Hx). apply lookup_lt_Some in Hx. lia. Qed.

Lemma consecutive_sorted c l : consecutive c l → StronglySorted event_le l ∧ NoDup l.
Proof.
  revert c. induction l as [|x l IH]; intros c; [by split; constructor|].
  intros [Hx Hl]%consecutive_cons. destruct (IH _ Hl) as [Hs Hn]. split; constructor; [done| | |done].
  - apply Forall_forall. intros y Hy. apply (consecutive_above _ _ _ Hl) in Hy. unfold event_le. lia.
  - intros Hin. apply (consecutive_above _ _ _ Hl) in Hin. lia.
Qed.

Lemma filter_keep {A} (P : A → Prop) `{!∀ x, Decision (P x)} l : Forall P l → filter P l = l.
Proof. induction 1 as [|x l Hx _ IH]; [done|]. by rewrite filter_cons_True, IH. Qed.

Lemma filter_drop {A} (P : A → Prop) `{!∀ x, Decision (P x)} l : Forall (λ x, ¬ P x) l → filter P l = [].
Proof. induction 1 as [|x l Hx _ IH]; [done|]. by rewrite filter_cons_False. Qed.

(** The events after a sequence are the rest of the list. *)
Lemma filter_consecutive l a :
  consecutive 0 l → (0 ≤ a)%Z → filter (λ ke, (a < ke.1)%Z) l = drop (Z.to_nat a) l.
Proof.
  intros Hc Ha. rewrite <- (take_drop (Z.to_nat a) l) at 1. rewrite filter_app.
  rewrite (filter_drop _ (take _ l)), (filter_keep _ (drop _ l)); [done|..]; apply Forall_forall.
  - intros x [k Hx]%list_elem_of_lookup. rewrite lookup_drop in Hx. rewrite (Hc _ _ Hx). lia.
  - intros x (k & Hx & Hk)%elem_of_take. rewrite (Hc _ _ Hx). lia.
Qed.

(** Of two runs from the same sequence, one that is contained in the other is its beginning. *)
Lemma consecutive_prefix c l l' :
  consecutive c l → consecutive c l' → (∀ x, x ∈ l → x ∈ l') → l `prefix_of` l'.
Proof.
  revert c l'. induction l as [|x l IH]; intros c l' Hl Hl' Hin; [by apply prefix_nil|].
  apply consecutive_cons in Hl as [Hx Hl]. destruct l' as [|y l'].
  { assert (x ∈ []) as Hno by (apply Hin; left). by apply not_elem_of_nil in Hno. }
  apply consecutive_cons in Hl' as [Hy Hl'].
  assert (x = y) as <-.
  { assert (x ∈ y :: l') as [->|Hx']%elem_of_cons by (apply Hin; left); [done|].
    apply (consecutive_above _ _ _ Hl') in Hx'. lia. }
  apply prefix_cons, (IH (c + 1)%Z); [done..|]. intros z Hz.
  assert (z ∈ x :: l') as [->|?]%elem_of_cons by (apply Hin; by right); [|done].
  apply (consecutive_above _ _ _ Hl) in Hz. lia.
Qed.

Section stream.
Context `{!RFC3339, !PgTime, !Collation, !SliceSort}.

Lemma thread_events_consecutive d t : conv_ok d → consecutive 0 (thread_events d t).
Proof.
  intros Hok. destruct (threads d !! t) as [th|] eqn:Hth; cycle 1.
  { intros k [i e] Hx. apply list_elem_of_lookup_2, elem_of_thread_events in Hx.
    destruct (proj1 (co_stream _ Hok t i)) as (th & ? & _); [by eexists|congruence]. }
  set (dummy := {| er_EventID := ""; er_RunID := ""; er_ProcessID := ""; er_SourceEventID := "";
    er_SourceSequence := 0; er_EventType := ""; er_OccurredAt := 0; er_Payload := JNull |}%Z).
  set (l := (λ i, (i, default dummy (events d !! (t, i)))) <$> seqZ 1 (th_NextSequence th)).
  assert (consecutive 0 l) as Hl.
  { intros k x Hx. unfold l in Hx. rewrite list_lookup_fmap in Hx. apply fmap_Some in Hx as (i & Hi & ->).
    apply lookup_seqZ in Hi as [-> _]. cbn. lia. }
  destruct (consecutive_sorted _ _ Hl) as [Hs Hn]. rewrite (thread_events_unique d t l); [done..|].
  intros i e. unfold l. rewrite list_elem_of_fmap. split.
  - intros (j & [= -> ->] & Hj%elem_of_seqZ). destruct (proj2 (co_stream _ Hok t j)) as [x ->]; [|done].
    exists th. split; [done|lia].
  - intros He. exists i. rewrite He. split; [done|]. apply elem_of_seqZ.
    destruct (proj1 (co_stream _ Hok t i)) as (th' & Hth' & ?); [by eexists|]. rewrite Hth in Hth'. injection Hth' as <-. lia.
Qed.

(** A page: the next events, and all of them when it is not full. *)
Lemma page_spec d t c n :
  conv_ok d → (0 ≤ c)%Z →
  let page := events_after d t c n in
  consecutive c page ∧ (∀ i e, (i, e) ∈ page → events d !! (t, i) = Some e) ∧
  ((Z.of_nat (length page) < n)%Z → ∀ i e, events d !! (t, i) = Some e → (i ≤ c + Z.of_nat (length page))%Z).
Proof.
  intros Hok Hc page. pose proof (thread_events_consecutive d t Hok) as Hall.
  assert (page = take (Z.to_nat n) (drop (Z.to_nat c) (thread_events d t))) as Hpage.
  { unfold page, events_after. by rewrite filter_consecutive. }
  set (l := thread_events d t) in *. split_and!.
  - rewrite Hpage. apply consecutive_take. intros k x Hx. rewrite lookup_drop in Hx. rewrite (Hall _ _ Hx). lia.
  - intros i e Hin. rewrite Hpage in Hin. apply elem_of_thread_events.
    apply subseteq_take in Hin. apply list_elem_of_lookup in Hin as [k Hk]. rewrite lookup_drop in Hk.
    by eapply list_elem_of_lookup_2.
  - intros Hshort i e He%elem_of_thread_events. apply (consecutive_above _ _ _ Hall) in He. cbn in He.
    rewrite Hpage in Hshort |- *. rewrite length_take, length_drop in *. lia.
Qed.

(** A thread only grows at its end. *)
Lemma thread_events_grow ob q d d' t :
  conv_ok d → rtc (conv_step ob q) d d' → thread_events d t `prefix_of` thread_events d' t.
Proof.
  intros Hok Hs. pose proof (steps_ok _ _ _ _ Hok Hs) as Hok'.
  destruct (tables_extend _ _ _ _ Hok Hs) as [Ex _ _].
  eapply consecutive_prefix; [by apply thread_events_consecutive..|].
  intros [i e]. rewrite !elem_of_thread_events. apply Ex.
Qed.

(** ** What a subscriber gets *)

(** The event that went into the channel of the subscriber. *)
Definition event_taken (x : exchange stream_op) : option Event :=
  match x_op x as o return reply o → option Event with
  | SSend event => λ taken, if taken : bool then Some event else None
  | _ => λ _, None
  end (x_reply x).

(** The listings of a log are answered, or fail, from tables that requests and sweeps go on
    changing; the subscriber and the clock answer the other calls at will. *)
Fixpoint served (ob : bool) (q : requests) (thread : string) (d : DB) (log : list (exchange stream_op)) (d' : DB) :
    Prop :=
  match log with
  | [] => rtc (conv_step ob q) d d'
  | x :: log =>
      match x_op x as o return reply o → Prop with
      | SList after => λ answer, ∃ d1, rtc (conv_step ob q) d d1 ∧
          (answer = None ∨ answer = Some (listEventsAfter d1 thread after conversationEventBatch)) ∧
          served ob q thread d1 log d'
      | _ => λ _, served ob q thread d log d'
      end (x_reply x)
  end.

Lemma served_app ob q thread d log1 log2 d' :
  served ob q thread d (log1 ++ log2) d' →
  ∃ d1, served ob q thread d log1 d1 ∧ served ob q thread d1 log2 d'.
Proof.
  revert d. induction log1 as [|[[] r] log1 IH]; intros d; cbn; [by exists d| |apply IH..].
  intros (d1 & Hs & Ha & (d2 & ? & ?)%IH). exists d2. split; [by exists d1|done].
Qed.

Lemma served_steps ob q thread d log d' : served ob q thread d log d' → rtc (conv_step ob q) d d'.
Proof.
  revert d. induction log as [|[[] r] log IH]; intros d; cbn; [done| |apply IH..].
  intros (d1 & Hs & _ & Hrest%IH). by etrans.
Qed.

(** From cursor [c] to [c'], the subscriber took the events between them. *)
Definition delivered (d' : DB) (thread : string) (log : list (exchange stream_op)) (c c' : Z) : Prop :=
  ∃ l, omap event_taken log = toCoreEvent <$> scanEvents thread l ∧
       l `prefix_of` drop (Z.to_nat c) (thread_events d' thread) ∧ c' = (c + Z.of_nat (length l))%Z.

Lemma delivered_nothing d' thread log c : omap event_taken log = [] → delivered d' thread log c c.
Proof. intros Hl. exists []. split_and!; [done|apply prefix_nil|cbn; lia]. Qed.

Lemma delivered_app d1 d2 thread log1 log2 c c1 c2 :
  (0 ≤ c)%Z → thread_events d1 thread `prefix_of` thread_events d2 thread →
  delivered d1 thread log1 c c1 → delivered d2 thread log2 c1 c2 →
  delivered d2 thread (log1 ++ log2) c c2.
Proof.
  intros Hc [more Hmore] (l1 & Hs1 & [k1 Hp1] & ->) (l2 & Hs2 & [k2 Hp2] & ->).
  exists (l1 ++ l2). split_and!.
  - rewrite omap_app, Hs1, Hs2. unfold scanEvents. by rewrite !fmap_app.
  - assert (drop (Z.to_nat c) (thread_events d2 thread) = l1 ++ drop (Z.to_nat (c + Z.of_nat (length l1))) (thread_events d2 thread)) as ->.
    { assert (l1 `prefix_of` drop (Z.to_nat c) (thread_events d2 thread)) as [k Hk].
      { rewrite Hmore, drop_app, Hp1, <- app_assoc. by eexists. }
      replace (Z.to_nat (c + Z.of_nat (length l1))) with (Z.to_nat c + length l1) by lia.
      rewrite <- drop_drop, Hk, drop_app_length. done. }
    rewrite Hp2. exists k2. by rewrite app_assoc.
  - rewrite length_app. lia.
Qed.

(** Sending a page. *)
Lemma sends thread l c log c' open :
  consecutive c l → traced (send_events c (scanEvents thread l)) log (c', open) →
  ∃ l1 l2, l = l1 ++ l2 ∧ omap event_taken log = toCoreEvent <$> scanEvents thread l1 ∧
    c' = (c + Z.of_nat (length l1))%Z ∧ (open = true → l2 = []).
Proof.
  revert c log. induction l as [|[i e] l IH]; intros c log; cbn -[toCoreEvent].
  { intros _ [-> [= -> ->]]. exists [], []. split_and!; [done..|cbn; lia|done]. }
  intros [Hi Hl]%consecutive_cons Ht. cbn in Hi. subst i.
  destruct (_ <=? _)%Z eqn:Hle; [lia|]. apply traced_call in Ht as ([] & log' & -> & Ht).
  - destruct (IH _ _ Hl Ht) as (l1 & l2 & -> & Hlog & -> & Hopen). exists ((c + 1, e)%Z :: l1), l2.
    split_and!; [done| |cbn; lia|done]. cbn -[toCoreEvent]. by rewrite Hlog.
  - destruct Ht as [-> [= -> ->]]. exists [], ((c + 1, e)%Z :: l). split_and!; [done..|cbn; lia|done].
Qed.

(** A page that was sent, read at [d]. *)
Lemma page_delivered d thread c l1 l2 log :
  conv_ok d → (0 ≤ c)%Z → events_after d thread c conversationEventBatch = l1 ++ l2 →
  omap event_taken log = toCoreEvent <$> scanEvents thread l1 →
  delivered d thread log c (c + Z.of_nat (length l1)).
Proof.
  intros Hok Hc Hpage Hlog. exists l1. split_and!; [done| |done].
  unfold events_after in Hpage. rewrite filter_consecutive in Hpage by (done || by apply thread_events_consecutive).
  exists (l2 ++ drop (Z.to_nat conversationEventBatch) (drop (Z.to_nat c) (thread_events d thread))).
  by rewrite app_assoc, <- Hpage, take_drop.
Qed.

Lemma catches_up ob q fuel thread d log d' c c' open :
  conv_ok d → (0 ≤ c)%Z → served ob q thread d log d' →
  traced (catchUpConversationEvents fuel c) log (c', open) →
  delivered d' thread log c c' ∧ (0 ≤ c')%Z.
Proof.
  revert d log c. induction fuel as [|fuel IH]; intros d log c Hok Hc Hserved.
  { intros [-> [= -> ->]]. split; [by apply delivered_nothing|done]. }
  intros (page & log1 & -> & Ht)%traced_call. cbn in Hserved. destruct Hserved as (d1 & Hs & [->| ->] & Hserved).
  { cbn -[delivered] in Ht. destruct Ht as (ended & log2 & -> & -> & [= -> ->]). split; [by apply delivered_nothing|done]. }
  assert (conv_ok d1) as Hok1 by by eapply steps_ok.
  apply traced_bind in Ht as ([c1 open1] & log2 & log3 & -> & Hsend & Ht).
  apply sends in Hsend as (l1 & l2 & Hpage & Hlog & -> & Hopen); [|by apply page_spec].
  pose proof (page_delivered _ _ _ _ _ _ Hok1 Hc Hpage Hlog) as Hsent.
  apply served_app in Hserved as (d2 & Hs2%served_steps & Hserved).
  assert (conv_ok d2) as Hok2 by by eapply steps_ok.
  pose proof (served_steps _ _ _ _ _ _ Hserved) as Hs3.
  assert (thread_events d1 thread `prefix_of` thread_events d' thread) as Hgrow by by (eapply thread_events_grow; [|etrans]).
  assert (∀ log', delivered d' thread log' (c + Z.of_nat (length l1)) c' →
    delivered d' thread (Exchange (SList c) (Some (listEventsAfter d1 thread c conversationEventBatch)) :: log2 ++ log') c c')
    as Hjoin by (intros log'; exact (delivered_app _ _ _ _ _ _ _ _ Hc Hgrow Hsent)).
  destruct open1; cbn -[delivered] in Ht; cycle 1.
  { destruct Ht as [-> [= -> ->]]. split; [by apply Hjoin, delivered_nothing|lia]. }
  destruct (_ <? _)%Z.
  { destruct Ht as [-> [= -> ->]]. split; [by apply Hjoin, delivered_nothing|lia]. }
  destruct (IH d2 log3 (c + Z.of_nat (length l1))%Z) as [Hrest ?]; [done|lia|done..|]. split; [by apply Hjoin|done].
Qed.

Lemma polls ob q fuel thread d log d' c c' :
  conv_ok d → (0 ≤ c)%Z → served ob q thread d log d' →
  traced (poll_loop fuel c) log c' → delivered d' thread log c c'.
Proof.
  revert d log c. induction fuel as [|fuel IH]; intros d log c Hok Hc Hserved.
  { intros [-> ->]. by apply delivered_nothing. }
  intros (tick & log1 & -> & Ht)%traced_call. cbn in Hserved. destruct (negb tick); cbn -[delivered catchUpConversationEvents poll_loop] in Ht.
  { destruct Ht as [-> ->]. by apply delivered_nothing. }
  apply traced_bind in Ht as ([c1 open1] & log2 & log3 & -> & Hcatch & Ht).
  apply served_app in Hserved as (d1 & Hserved1 & Hserved).
  pose proof (served_steps _ _ _ _ _ _ Hserved1) as Hs1. pose proof (served_steps _ _ _ _ _ _ Hserved) as Hs2.
  assert (conv_ok d1) as Hok1 by by eapply steps_ok.
  destruct (catches_up _ _ _ _ _ _ _ _ _ _ Hok Hc Hserved1 Hcatch) as [Hsent Hc1].
  assert (∀ log', delivered d' thread log' c1 c' → delivered d' thread (Exchange SWait tick :: log2 ++ log') c c') as Hjoin.
  { intros log'. apply (delivered_app d1 d' thread (Exchange SWait tick :: log2)); [done| |exact Hsent].
    by eapply thread_events_grow. }
  destruct open1; cbn -[delivered] in Ht.
  - by eapply Hjoin, IH.
  - destruct Ht as [-> ->]. by apply Hjoin, delivered_nothing.
Qed.

Lemma subscribes ob q fuel scope d log d' c :
  conv_ok d → (0 ≤ tss_AfterSequence scope)%Z →
  served ob q (tss_ThreadID scope) d log d' → traced (streamSubscription fuel scope) log c →
  delivered d' (tss_ThreadID scope) log (tss_AfterSequence scope) c.
Proof.
  intros Hok Hc Hserved Ht. apply traced_bind in Ht as ([c1 open1] & log1 & log2 & -> & Hcatch & Ht).
  apply served_app in Hserved as (d1 & Hserved1 & Hserved).
  pose proof (served_steps _ _ _ _ _ _ Hserved1) as Hs1. pose proof (served_steps _ _ _ _ _ _ Hserved) as Hs2.
  assert (conv_ok d1) as Hok1 by by eapply steps_ok.
  destruct (catches_up _ _ _ _ _ _ _ _ _ _ Hok Hc Hserved1 Hcatch) as [Hsent Hc1].
  eapply (delivered_app d1); [done|by eapply thread_events_grow|exact Hsent|].
  destruct open1; cbn [negb] in Ht.
  - by eapply polls.
  - destruct Ht as [-> ->]. by apply delivered_nothing.
Qed.

(** ** Snapshots *)

Lemma thread_events_length d t th :
  conv_ok d → threads d !! t = Some th → th_NextSequence th = Z.of_nat (length (thread_events d t)).
Proof.
  intros Hok Hth. pose proof (thread_events_consecutive d t Hok) as Hl.
  pose proof (co_next _ Hok _ _ Hth). apply Z.le_antisymm.
  - destruct (decide (th_NextSequence th = 0))%Z; [lia|].
    destruct (proj2 (co_stream _ Hok t (th_NextSequence th))) as [e He]; [exists th; split; [done|lia]|].
    apply elem_of_thread_events, (consecutive_above _ _ _ Hl) in He. cbn in He. lia.
  - destruct (length (thread_events d t)) as [|n] eqn:Hn; [lia|].
    destruct (lookup_lt_is_Some_2 (thread_events d t) n) as [[i e] Hx]; [lia|].
    pose proof (Hl _ _ Hx) as Hi. apply list_elem_of_lookup_2, elem_of_thread_events in Hx.
    destruct (proj1 (co_stream _ Hok t i)) as (th' & Hth' & ?); [by eexists|]. rewrite Hth in Hth'. injection Hth' as <-.
    cbn in Hi. lia.
Qed.

(** How many events a snapshot shows: what the caller asks for, 200 when that is not in 1..1000. *)
Definition snapshot_limit (scope : ThreadScope) : nat :=
  if decide (1 ≤ ts_EventLimit scope ≤ 1000)%Z then Z.to_nat (ts_EventLimit scope) else 200.

Lemma last_taken {A} n (l : list A) : reverse (take n (reverse l)) = drop (length l - n) l.
Proof. by rewrite take_reverse, reverse_involutive. Qed.

Lemma snapshot_spec env scope d sn :
  conv_ok d → GetThreadSnapshot env scope d = inl sn →
  let l := thread_events d (ts_ThreadID scope) in
  sn_Cursor sn = Z.of_nat (length l) ∧
  sn_Events sn = scanEvents (ts_ThreadID scope) (drop (length l - snapshot_limit scope) l).
Proof.
  intros Hok. unfold GetThreadSnapshot. destruct (validateScope _ _ _); [|done].
  pose proof (committed (loadThreadSnapshot scope) env d (λ sn _,
    let l := thread_events d (ts_ThreadID scope) in
    sn_Cursor sn = Z.of_nat (length l) ∧
    sn_Events sn = scanEvents (ts_ThreadID scope) (drop (length l - snapshot_limit scope) l))) as Hc.
  destruct (withConversationTx _ _ _) as [d' [sn'|e]]; [|done]. cbn. intros [= ->]. apply Hc.
  unfold loadThreadSnapshot, listMessages, listRuns, listRecentEvents. tx_step. tx_step.
  destruct (threads d !! _) as [th|] eqn:Hth; [|apply tri_throw]. tx_step; [|tx_step].
  tx_steps. cbn [sn_Cursor sn_Events]. split; [by apply thread_events_length|].
  rewrite last_taken. do 3 f_equal. unfold snapshot_limit.
  destruct (Z.leb_spec (ts_EventLimit scope) 0), (Z.ltb_spec 1000 (ts_EventLimit scope)); cbn;
    destruct (decide (1 ≤ ts_EventLimit scope ≤ 1000)%Z); first [done|lia].
Qed.

(** ** The theorems *)

(** C19: subscriptions have no gaps.  While requests and sweeps go on, and whatever listings
    fail, the events that a subscriber takes are the events of the thread from the sequence
    it asked for on, in their order, each once; the cursor counts them. *)
Theorem thread_subscription ob q fuel scope d log d' c :
  conv_reachable ob q d → (0 ≤ tss_AfterSequence scope)%Z →
  served ob q (tss_ThreadID scope) d log d' → traced (streamSubscription fuel scope) log c →
  ∃ l, omap event_taken log = toCoreEvent <$> scanEvents (tss_ThreadID scope) l ∧
    l `prefix_of` drop (Z.to_nat (tss_AfterSequence scope)) (thread_events d' (tss_ThreadID scope)) ∧
    c = (tss_AfterSequence scope + Z.of_nat (length l))%Z.
Proof. intros Hok%conv_reachable_ok Hc Hs Ht. by eapply subscribes. Qed.

(** C24: a snapshot and the subscription from its cursor fit together.  The snapshot has the
    last events of its thread, as many as its limit allows (all of them when the thread has no
    more), and the cursor of the last one.  Its events followed by those that the subscriber
    takes are, without a gap or a duplicate, the events of the thread from the first one of
    the snapshot on, up to the cursor of the subscription. *)
Theorem snapshot_then_stream ob q fuel env scope d sn log d' c :
  conv_reachable ob q d → GetThreadSnapshot env scope d = inl sn →
  served ob q (ts_ThreadID scope) d log d' →
  traced (streamSubscription fuel {| tss_ThreadID := ts_ThreadID scope; tss_AccountID := ts_AccountID scope;
    tss_ProjectID := ts_ProjectID scope; tss_AfterSequence := sn_Cursor sn |}) log c →
  let shown := length (thread_events d (ts_ThreadID scope)) - snapshot_limit scope in
  sn_Events sn = scanEvents (ts_ThreadID scope) (drop shown (thread_events d (ts_ThreadID scope))) ∧
  sn_Cursor sn = Z.of_nat (length (thread_events d (ts_ThreadID scope))) ∧
  (sn_Cursor sn ≤ c ≤ Z.of_nat (length (thread_events d' (ts_ThreadID scope))))%Z ∧
  (toCoreEvent <$> sn_Events sn) ++ omap event_taken log =
    toCoreEvent <$> scanEvents (ts_ThreadID scope)
      (drop shown (take (Z.to_nat c) (thread_events d' (ts_ThreadID scope)))).
Proof.
  intros Hok%conv_reachable_ok Hsn Hs Ht. destruct (snapshot_spec _ _ _ _ Hok Hsn) as [Hcur Hev].
  destruct (subscribes ob q fuel _ d log d' c Hok (ltac:(cbn; lia) : (0 ≤ tss_AfterSequence {| tss_ThreadID := ts_ThreadID scope;
    tss_AccountID := ts_AccountID scope; tss_ProjectID := ts_ProjectID scope; tss_AfterSequence := sn_Cursor sn |})%Z) Hs Ht)
    as (l & Hlog & Hl & Hcl). cbn in Hlog, Hl, Hcl. cbv zeta. rewrite Hlog, Hev.
  set (old := thread_events d (ts_ThreadID scope)) in *.
  destruct (thread_events_grow _ _ _ _ (ts_ThreadID scope) Hok (served_steps _ _ _ _ _ _ Hs)) as [k Hk].
  fold old in Hk. rewrite Hk in *. rewrite Hcur, Nat2Z.id, drop_app_length in Hl. destruct Hl as [k' ->].
  rewrite Hcur in Hcl. rewrite !length_app, Hcur, Hcl. split_and!; [done|done|lia|lia|].
  replace (Z.to_nat (Z.of_nat (length old) + Z.of_nat (length l))) with (length (old ++ l)) by (rewrite length_app; lia).
  rewrite app_assoc, take_app_length, drop_app_le by lia. unfold scanEvents. by rewrite !fmap_app.
Qed.

(** An undisturbed subscription: every listing is answered from [d] and every event taken. *)
Definition serve (d : DB) (thread : string) (o : stream_op) (u : unit) : reply o * unit :=
  match o return reply o * unit with
  | SList after => (Some (listEventsAfter d thread after conversationEventBatch), u)
  | SContextErr => (false, u)
  | _ => (true, u)
  end.

Lemma run_log_bind {A B} d thread (m : calls stream_op A) (f : A → calls stream_op B) u :
  run_log (serve d thread) (m ≫= f) u =
  run_log (serve d thread) m u ++ run_log (serve d thread) (f (run_calls (serve d thread) m u).1) (run_calls (serve d thread) m u).2.
Proof.
  unfold mbind. revert u. induction m as [a|o k IH]; intros u; [done|]. cbn.
  destruct (serve d thread o u) as [r u']. by rewrite IH.
Qed.

Lemma sends_all d thread l c u :
  consecutive c l →
  run_calls (serve d thread) (send_events c (scanEvents thread l)) u = ((c + Z.of_nat (length l), true)%Z, u) ∧
  omap event_taken (run_log (serve d thread) (send_events c (scanEvents thread l)) u) = toCoreEvent <$> scanEvents thread l.
Proof.
  unfold scanEvents. revert c. induction l as [|[i e] l IH]; intros c; cbn -[toCoreEvent].
  { intros _. split; [|done]. do 2 f_equal. lia. }
  intros [Hi Hl]%consecutive_cons. cbn in Hi. subst i. destruct (_ <=? _)%Z eqn:Hle; [lia|].
  destruct (IH _ Hl) as [Hrun Hlog]. cbn -[toCoreEvent]. rewrite Hrun, Hlog. split; [|done]. do 2 f_equal. lia.
Qed.

(** C25: catching up ends and reaches the end of the thread: undisturbed, it takes one page
    for every 256 events and a last one, and the subscriber gets every event. *)
Theorem catch_up_complete ob q d thread c fuel :
  conv_reachable ob q d → (0 ≤ c ≤ Z.of_nat (length (thread_events d thread)))%Z →
  (Z.of_nat (length (thread_events d thread)) - c < conversationEventBatch * Z.of_nat fuel)%Z →
  (run_calls (serve d thread) (catchUpConversationEvents fuel c) tt).1 =
    (Z.of_nat (length (thread_events d thread)), true) ∧
  omap event_taken (run_log (serve d thread) (catchUpConversationEvents fuel c) tt) =
    toCoreEvent <$> scanEvents thread (drop (Z.to_nat c) (thread_events d thread)).
Proof.
  intros Hok%conv_reachable_ok. pose proof (thread_events_consecutive d thread Hok) as Hall.
  revert c. induction fuel as [|fuel IH]; intros c Hc Hfuel; [lia|].
  set (l := thread_events d thread) in *. set (page := events_after d thread c conversationEventBatch).
  assert (page = take 256 (drop (Z.to_nat c) l)) as Hpage.
  { unfold page, events_after. fold l. rewrite filter_consecutive by (done || lia). done. }
  assert (consecutive c page) as Hcons by (apply page_spec; [done|lia]).
  destruct (sends_all d thread page c tt Hcons) as [Hrun Hlog].
  assert (Z.of_nat (length page) = Z.min 256 (Z.of_nat (length l) - c)) as Hlen.
  { rewrite Hpage, length_take, length_drop. lia. }
  assert (∀ (k : option (list ConversationEvent) → calls stream_op (Z * bool)),
    run_calls (serve d thread) (ask (SList c) ≫= k) tt = run_calls (serve d thread) (k (Some (scanEvents thread page))) tt ∧
    omap event_taken (run_log (serve d thread) (ask (SList c) ≫= k) tt) =
      omap event_taken (run_log (serve d thread) (k (Some (scanEvents thread page))) tt)) as Hask by done.
  cbn [catchUpConversationEvents].
  rewrite (proj1 (Hask _)), (proj2 (Hask _)), run_bind, run_log_bind, Hrun. cbn [fst snd negb].
  rewrite omap_app, Hlog. unfold scanEvents at 1 3. rewrite length_fmap.
  assert (drop (Z.to_nat c) l = page ++ drop 256 (drop (Z.to_nat c) l)) as Hsplit by by rewrite Hpage, take_drop.
  destruct (_ <? _)%Z eqn:Hfull; unfold conversationEventBatch in *.
  - cbn. assert (drop 256 (drop (Z.to_nat c) l) = []) as Hnil.
    { apply length_zero_iff_nil. rewrite !length_drop. lia. }
    rewrite app_nil_r. split; [f_equal; lia|]. by rewrite Hsplit, Hnil, app_nil_r.
  - destruct (IH (c + Z.of_nat (length page))%Z) as [-> ->]; [lia..|]. split; [done|].
    rewrite Hsplit. unfold scanEvents. rewrite !fmap_app. f_equal. rewrite drop_drop. repeat f_equal. lia.
Qed.
End stream.

(** ** Witnesses *)

Import conversationsample.

Lemma served_later ob q d d' thread A (p : calls stream_op A) u :
  rtc (conv_step ob q) d d' → served ob q thread d (run_log (serve d' thread) p u) d'.
Proof.
  revert d u. induction p as [a|o k IH]; intros d u Hs; [done|].
  destruct o; cbn; [|by apply IH..]. exists d'. split_and!; [done|by right|by apply IH].
Qed.

Definition from_start (after : Z) : ThreadStreamScope := {|
  tss_ThreadID := "thread"; tss_AccountID := "account"; tss_ProjectID := "project"; tss_AfterSequence := after |}.

(** A subscription from sequence 2 of the finished conversation. *)
Lemma thread_subscription_witness :
  let p := streamSubscription 3 (from_start 2) in
  let log := run_log (serve at_finished "thread") p tt in
  e_EventID <$> omap event_taken log ≠ [] ∧
  ∃ l, omap event_taken log = toCoreEvent <$> scanEvents "thread" l ∧
    l `prefix_of` drop 2 (thread_events at_finished "thread").
Proof.
  intros p log. split; [vm_compute; discriminate|].
  destruct (thread_subscription true all_requests 3 (from_start 2) at_finished log at_finished
    (run_calls (serve at_finished "thread") p tt).1 finished_reachable) as (l & Hlog & Hl & _).
  - done.
  - exact (served_later true all_requests at_finished at_finished "thread" _ p tt (rtc_refl _ _)).
  - apply traced_run.
  - exists l. split; [exact Hlog|exact Hl].
Defined.

(** A snapshot of the opening, and a subscription that reads the finished conversation: the last
    two events of the opening and the five that follow. *)
Lemma snapshot_then_stream_witness :
  let scope := {| ts_ThreadID := "thread"; ts_AccountID := "account"; ts_ProjectID := "project"; ts_EventLimit := 2 |} in
  ∃ sn log c, GetThreadSnapshot (env 9) scope at_opening = inl sn ∧ length (sn_Events sn) = 2 ∧
    length (omap event_taken log) = 5 ∧
    (toCoreEvent <$> sn_Events sn) ++ omap event_taken log =
      toCoreEvent <$> scanEvents "thread" (drop 5 (take (Z.to_nat c) (thread_events at_finished "thread"))).
Proof.
  intros scope. destruct (GetThreadSnapshot (env 9) scope at_opening) as [sn|] eqn:Hsn; [|vm_compute in Hsn; discriminate].
  assert (sn_Cursor sn = 7%Z ∧ length (sn_Events sn) = 2) as [Hcur Hlen].
  { clear -Hsn. vm_compute in Hsn. injection Hsn as <-. by split. }
  set (p := streamSubscription 3 (from_start (sn_Cursor sn))). set (log := run_log (serve at_finished "thread") p tt).
  set (c := (run_calls (serve at_finished "thread") p tt).1).
  destruct (snapshot_then_stream true all_requests 3 (env 9) scope at_opening sn log at_finished c
    opening_reachable Hsn) as (_ & _ & _ & Hboth).
  - apply (served_later true all_requests at_opening at_finished "thread" _ p tt finished_later).
  - apply traced_run.
  - exists sn, log, c. split_and!; [reflexivity|exact Hlen| |].
    + unfold log, p. rewrite Hcur. vm_compute. reflexivity.
    + assert (length (thread_events at_opening (ts_ThreadID scope)) - snapshot_limit scope = 5) as Hshown
        by (vm_compute; reflexivity).
      rewrite Hshown in Hboth. exact Hboth.
Defined.

(** From sequence 4 to the end. *)
Lemma catch_up_complete_witness :
  (run_calls (serve at_finished "thread") (catchUpConversationEvents 1 4) tt).1 = (12%Z, true).
Proof.
  assert (length (thread_events at_finished "thread") = 12) as Hlen by (vm_compute; reflexivity).
  destruct (catch_up_complete true all_requests at_finished "thread" 4 1 finished_reachable) as [Hrun _].
  - rewrite Hlen. by split.
  - by rewrite Hlen.
  - by rewrite Hlen in Hrun.
Defined.
