(* ===== verification/Router.v ===== *)
(** * The run router

    internal/usecase/agentosruntime (router.go, run_backend_index.go, registry.go) over the
    index of internal/repo/persistent/run_backend_index_postgres.go: a run is claimed in the
    index for the backend that the request names or a selector picks, started there and
    bound to the status it reported; signals, controls and queries go to the backend that
    the index has for the run.

    The index issues one statement at a time, so a request is a program of statements and
    calls of backends ([Calls]) that interleaves with others.  The selector is an interface
    of the source, a function here; the registry is the set of the registered references.
    The copies that cloneRunSpec, cloneSignal and cloneControlRequest make are equal to the
    originals here. *)

From S2P Require Import Prelude Types Scope Json Temporal Calls GoStrings.

#[global] Instance BackendRef_eq_dec : EqDecision BackendRef.
Proof. solve_decision. Defined.
#[global] Instance BackendRef_countable : Countable BackendRef.
Proof.
  refine (inj_countable' (λ b, (backend_Kind b, backend_Name b))
    (λ '(k, n), {| backend_Kind := k; backend_Name := n |}) _). by intros [].
Defined.

Module router.

(** ** Data *)

(** internal/entity: RunBackendIndexRecord, also the row of the table. *)
Record RunBackendIndexRecord := {
  rec_RunID : string;
  rec_PlanID : string;
  rec_NodeID : string;
  rec_ThreadID : string;
  rec_AccountID : string;
  rec_ProjectID : string;
  rec_BackendKind : string;
  rec_BackendName : string;
  rec_IdempotencyKey : string;
  rec_LifecycleState : string;
  rec_CreatedAt : time;
  rec_UpdatedAt : time;
}.

(** agentos/control: the public view of a row. *)
Record RunBackendOwnership := {
  own_RunID : string;
  own_PlanID : string;
  own_NodeID : string;
  own_ThreadID : string;
  own_AccountID : string;
  own_ProjectID : string;
  own_Backend : BackendRef;
  own_IdempotencyKey : string;
  own_LifecycleState : string;
  own_CreatedAt : time;
  own_UpdatedAt : time;
}.

Record StreamScope := { ss_RunID : string; ss_ThreadID : string; ss_AfterSequence : Z }.

Record planNodeRoute := { pnr_planID : string; pnr_nodeID : string }.

Record planNodeOwner := {
  pno_accountID : string;
  pno_projectID : string;
  pno_nodeID : option string;
  pno_runID : option string;
}.

Record Registry := { backends : gset BackendRef }.

Record Router := {
  registry : Registry;
  backendSelector : option (RunSpec → result BackendRef);
}.

Definition RunBackendLifecycleClaiming : string := "claiming".
Definition RunBackendLifecycleCreated : string := "created".

Definition zero_RunStatus : RunStatus := {|
  rs_RunID := ""; rs_LifecycleState := ""; rs_Progress := None; rs_Artifacts := [];
  rs_BudgetUsage := {| usage_SpentCents := 0 |}; rs_Reason := ""; rs_UpdatedAt := zero_time |}.

(** ** run_backend_index.go *)

Definition NormalizeRunBackendIndexRecord (r : RunBackendIndexRecord) : RunBackendIndexRecord :=
  if rec_LifecycleState r == "" then {| r with rec_LifecycleState := RunBackendLifecycleCreated |} else r.

(** The record of a run of [spec], standalone (without a route) or of a plan node. *)
Definition record_of (route : option planNodeRoute) (spec : RunSpec) (status : RunStatus) : RunBackendIndexRecord :=
  NormalizeRunBackendIndexRecord {|
    rec_RunID := if rs_RunID status == "" then run_RunID spec else rs_RunID status;
    rec_PlanID := from_option pnr_planID "" route; rec_NodeID := from_option pnr_nodeID "" route;
    rec_ThreadID := run_ThreadID spec; rec_AccountID := run_AccountID spec; rec_ProjectID := run_ProjectID spec;
    rec_BackendKind := backend_Kind (run_Backend spec); rec_BackendName := backend_Name (run_Backend spec);
    rec_IdempotencyKey := run_IdempotencyKey spec;
    rec_LifecycleState := if rs_LifecycleState status == "" then RunBackendLifecycleCreated else rs_LifecycleState status;
    rec_CreatedAt := zero_time; rec_UpdatedAt := zero_time |}.

Definition RunBackendIndexRecordFromRunSpec (spec : RunSpec) (status : RunStatus) : RunBackendIndexRecord :=
  record_of None spec status.

Definition RunBackendIndexRecordFromPlanNode (planID nodeID : string) (spec : RunSpec) (status : RunStatus) :
    RunBackendIndexRecord :=
  record_of (Some {| pnr_planID := planID; pnr_nodeID := nodeID |}) spec status.

Definition RunBackendIndexRecordFromOwnership (o : RunBackendOwnership) : RunBackendIndexRecord :=
  NormalizeRunBackendIndexRecord {|
    rec_RunID := own_RunID o; rec_PlanID := own_PlanID o; rec_NodeID := own_NodeID o; rec_ThreadID := own_ThreadID o;
    rec_AccountID := own_AccountID o; rec_ProjectID := own_ProjectID o;
    rec_BackendKind := backend_Kind (own_Backend o); rec_BackendName := backend_Name (own_Backend o);
    rec_IdempotencyKey := own_IdempotencyKey o; rec_LifecycleState := own_LifecycleState o;
    rec_CreatedAt := own_CreatedAt o; rec_UpdatedAt := own_UpdatedAt o |}.

Definition RunBackendOwnershipFromRecord (r : RunBackendIndexRecord) : RunBackendOwnership :=
  let n := NormalizeRunBackendIndexRecord r in {|
    own_RunID := rec_RunID n; own_PlanID := rec_PlanID n; own_NodeID := rec_NodeID n; own_ThreadID := rec_ThreadID n;
    own_AccountID := rec_AccountID n; own_ProjectID := rec_ProjectID n;
    own_Backend := {| backend_Kind := rec_BackendKind n; backend_Name := rec_BackendName n |};
    own_IdempotencyKey := rec_IdempotencyKey n; own_LifecycleState := rec_LifecycleState n;
    own_CreatedAt := rec_CreatedAt n; own_UpdatedAt := rec_UpdatedAt n |}.

Definition ValidateRunBackendIndexRecord (r : RunBackendIndexRecord) (requireIdempotencyKey : bool) : result unit :=
  fail_if (rec_RunID r == "") (Errorf ErrInvalidRunSpec "run id is required");;
  fail_if (rec_AccountID r == "") (Errorf ErrInvalidRunSpec "account id is required");;
  fail_if (rec_ProjectID r == "") (Errorf ErrInvalidRunSpec "project id is required");;
  fail_if ((rec_BackendKind r == "") || (rec_BackendName r == ""))
    (Errorf ErrInvalidBackendRef "kind and name are required");;
  fail_if (requireIdempotencyKey && (rec_IdempotencyKey r == ""))
    (Errorf ErrInvalidRunSpec "run backend idempotency key is required").

Definition validateRunBackendIndexPlanNode (existing requested : RunBackendIndexRecord) : result unit :=
  fail_if ((rec_PlanID existing != rec_PlanID requested) || (rec_NodeID existing != rec_NodeID requested))
    (Errorf ErrInvalidRunPlan "run %q idempotency key was reused for a different plan node").

Definition validateRunBackendIndexScope (existing requested : RunBackendIndexRecord) : result unit :=
  fail_if ((rec_ThreadID existing != rec_ThreadID requested) || (rec_AccountID existing != rec_AccountID requested) ||
           (rec_ProjectID existing != rec_ProjectID requested))
    (Errorf ErrInvalidRunSpec "run %q idempotency key was reused for a different scope").

Definition validateRunBackendIndexBackend (existing requested : RunBackendIndexRecord) : result unit :=
  fail_if ((rec_BackendKind existing != rec_BackendKind requested) ||
           (rec_BackendName existing != rec_BackendName requested))
    (Errorf ErrInvalidBackendRef "run %q idempotency key was reused for a different backend").

Definition ValidateRunBackendIndexIdempotency (existing requested : RunBackendIndexRecord) : result unit :=
  fail_if (rec_RunID existing != rec_RunID requested)
    (Errorf ErrInvalidRunSpec "run backend idempotency key belongs to run %q");;
  validateRunBackendIndexPlanNode existing requested;;
  validateRunBackendIndexScope existing requested;;
  validateRunBackendIndexBackend existing requested;;
  fail_if ((rec_IdempotencyKey existing != "") && (rec_IdempotencyKey requested != "") &&
           (rec_IdempotencyKey existing != rec_IdempotencyKey requested))
    (Errorf ErrInvalidRunSpec "run %q was already bound with a different idempotency key").

(** ** registry.go *)

Definition validateBackendRef (ref : BackendRef) : result unit :=
  fail_if (backend_Kind ref == "") (Errorf ErrInvalidBackendRef "kind is required");;
  fail_if (backend_Name ref == "") (Errorf ErrInvalidBackendRef "name is required").

(** A backend that is not nil. *)
Definition Register (r : Registry) (ref : BackendRef) : Registry * result unit :=
  match validateBackendRef ref with
  | Err e => (r, Err e)
  | Ok _ => ({| backends := {[ref]} ∪ backends r |}, Ok tt)
  end.

Definition Registry_Get (r : Registry) (ref : BackendRef) : result BackendRef :=
  validateBackendRef ref;;
  fail_if (negb (bool_decide (ref ∈ backends r))) (Errorf ErrBackendNotFound "%s/%s");;
  Ok ref.

(** ** Calls *)

(** The answer of the insertion: the number of rows, a violated unique index or another failure. *)
Inductive insert_answer :=
  | Inserted (rows : Z)
  | InsertUnique
  | InsertFailed (e : go_error).

(** The statements of the index and the methods of a backend. *)
Inductive router_op :=
  | QGetRun (runID : string)
  | QGetByKey (accountID projectID idempotencyKey : string)
  | QInsert (r : RunBackendIndexRecord)
  | QUpdateLifecycle (runID lifecycle : string)
  | QPlanNodeOwner (planID nodeID : string)
  | BStart (backend : BackendRef) (spec : RunSpec)
  | BSignal (backend : BackendRef) (runID : string) (signal : Signal)
  | BControl (backend : BackendRef) (runID : string) (control : ControlRequest)
  | BStatus (backend : BackendRef) (runID : string)
  | BSubscribe (backend : BackendRef) (scope : StreamScope).

#[global] Instance router_calls : Calls router_op := {|
  reply o :=
    match o with
    | QGetRun _ | QGetByKey _ _ _ => result (option RunBackendIndexRecord)
    | QInsert _ => insert_answer
    | QPlanNodeOwner _ _ => result (option planNodeOwner)
    | BStart _ _ | BStatus _ _ => result RunStatus
    | _ => result unit
    end |}.

Abbreviation rprog := (calls router_op) (only parsing).

(** [fmt.Errorf("...: %w", err)] around a call. *)
Definition ask_wrapped {A} (format : string) (m : rprog (result A)) : rprog (result A) :=
  r ← m; mret (map_err (wrap_error format) r).

(** ** run_backend_index_postgres.go *)

Definition Get (runID : string) : rprog (result (option RunBackendIndexRecord)) :=
  ask_wrapped "RunBackendIndexRepo - Get - query: %w" (ask (QGetRun runID)).

Definition GetRunBackend (runID : string) : rprog (result (option RunBackendOwnership)) :=
  record ←? Get runID;
  mret (Ok (RunBackendOwnershipFromRecord <$> record)).

Definition Resolve (runID : string) : rprog (result BackendRef) :=
  record ←? Get runID;
  mret match record with
       | None => Err (Errorf ErrRunRouteNotFound "%s")
       | Some record => Ok {| backend_Kind := rec_BackendKind record; backend_Name := rec_BackendName record |}
       end.

Definition runByIdempotencyKey (record : RunBackendIndexRecord) : rprog (result (option RunBackendIndexRecord)) :=
  if rec_IdempotencyKey record == "" then
    mret (Err (Errorf ErrInvalidRunSpec "run backend idempotency key is required"))
  else
    ask_wrapped "RunBackendIndexRepo - runByIdempotencyKey - query: %w"
      (ask (QGetByKey (rec_AccountID record) (rec_ProjectID record) (rec_IdempotencyKey record))).

Definition updateLifecycle (existing requested : RunBackendIndexRecord) : rprog (result unit) :=
  let lifecycle := rec_LifecycleState requested in
  if (lifecycle == RunBackendLifecycleClaiming) && (rec_LifecycleState existing != RunBackendLifecycleClaiming) then
    mret (Ok tt)
  else if lifecycle == rec_LifecycleState existing then mret (Ok tt)
  else ask_wrapped "RunBackendIndexRepo - updateLifecycle - exec: %w"
         (ask (QUpdateLifecycle (rec_RunID existing) lifecycle)).

Definition upsertByIdempotencyKey (record : RunBackendIndexRecord) : rprog (result unit) :=
  if rec_IdempotencyKey record == "" then mret (Ok tt)
  else
    existing ←? runByIdempotencyKey record;
    match existing with
    | None => mret (Ok tt)
    | Some existing =>
        _ ←! ValidateRunBackendIndexIdempotency existing record;
        updateLifecycle existing record
    end.

Definition handleUpsertExecError (execErr : go_error) (unique : bool) (record : RunBackendIndexRecord) :
    rprog (result unit) :=
  let failed := Err (wrap_error "RunBackendIndexRepo - upsert - exec: %w" execErr) in
  if negb unique || (rec_IdempotencyKey record == "") then mret failed
  else
    existing ←? runByIdempotencyKey record;
    mret match existing with
         | Some existing => ValidateRunBackendIndexIdempotency existing record
         | None => failed
         end.

Definition handleUpsertConflict (record : RunBackendIndexRecord) : rprog (result unit) :=
  existing ←? Get (rec_RunID record);
  match existing with
  | None => mret (Err (Errorf ErrRunRouteNotFound "run %q conflict did not leave an ownership record"))
  | Some existing =>
      _ ←! ValidateRunBackendIndexIdempotency existing record;
      updateLifecycle existing record
  end.

Definition upsert (record : RunBackendIndexRecord) (requireIdempotencyKey : bool) : rprog (result unit) :=
  let record := NormalizeRunBackendIndexRecord record in
  _ ←! ValidateRunBackendIndexRecord record requireIdempotencyKey;
  _ ←? upsertByIdempotencyKey record;
  inserted ← ask (QInsert record);
  match inserted with
  | InsertUnique => handleUpsertExecError (Errorf ErrOther "unique violation") true record
  | InsertFailed e => handleUpsertExecError e false record
  | Inserted rows => if rows == 0%Z then handleUpsertConflict record else mret (Ok tt)
  end.

Definition validatePlanNodeOwnershipRecord (record : RunBackendIndexRecord) : result unit :=
  ValidateRunBackendIndexRecord record true;;
  fail_if (rec_PlanID record == "") (Errorf ErrInvalidRunPlan "plan id is required");;
  fail_if (rec_NodeID record == "") (Errorf ErrInvalidRunPlan "node id is required").

Definition planNodeOwner_of (planID nodeID : string) : rprog (result planNodeOwner) :=
  row ←? ask_wrapped "RunBackendIndexRepo - validatePlanNodeOwnership - query: %w" (ask (QPlanNodeOwner planID nodeID));
  mret match row with
       | None => Err (Errorf ErrPlanRouteNotFound "%s")
       | Some owner => Ok owner
       end.

(** [owner.validate]: a NULL column is [None]. *)
Definition validate (o : planNodeOwner) (record : RunBackendIndexRecord) : result unit :=
  fail_if ((pno_accountID o != rec_AccountID record) || (pno_projectID o != rec_ProjectID record))
    (Errorf ErrPlanRouteNotFound "%s");;
  fail_if (default "" (pno_nodeID o) == "") (Errorf ErrInvalidRunPlan "plan node %q is not durable");;
  fail_if ((default "" (pno_runID o) != "") && (default "" (pno_runID o) != rec_RunID record))
    (Errorf ErrInvalidRunSpec "plan node %q has durable run id %q, got %q").

Definition validatePlanNodeOwnership (record : RunBackendIndexRecord) : rprog (result unit) :=
  let record := NormalizeRunBackendIndexRecord record in
  _ ←! validatePlanNodeOwnershipRecord record;
  owner ←? planNodeOwner_of (rec_PlanID record) (rec_NodeID record);
  mret (validate owner record).

Definition Bind (spec : RunSpec) (status : RunStatus) : rprog (result unit) :=
  upsert (RunBackendIndexRecordFromRunSpec spec status) true.

Definition BindPlanNode (planID nodeID : string) (spec : RunSpec) (status : RunStatus) : rprog (result unit) :=
  let record := RunBackendIndexRecordFromPlanNode planID nodeID spec status in
  _ ←? validatePlanNodeOwnership record;
  upsert record true.

(** ** router.go *)

Definition validatePlanNodeRoute (planID nodeID : string) : result unit :=
  fail_if (planID == "") (Errorf ErrInvalidRunPlan "plan id is required");;
  fail_if (nodeID == "") (Errorf ErrInvalidRunPlan "node id is required").

Definition validateRunSpecScope (spec : RunSpec) : result unit :=
  fail_if (run_AccountID spec == "") (Errorf ErrInvalidRunSpec "account id is required");;
  fail_if (run_ProjectID spec == "") (Errorf ErrInvalidRunSpec "project id is required").

Definition normalizeOwnedRunStatus (runID : string) (status : RunStatus) : result RunStatus :=
  let status := if rs_RunID status == "" then {| status with rs_RunID := runID |} else status in
  fail_if (rs_RunID status != runID) (Errorf ErrInvalidRunSpec "backend returned run id %q for requested run %q");;
  Ok status.

Definition selectBackend (r : Router) (spec : RunSpec) : result BackendRef :=
  if (backend_Kind (run_Backend spec) != "") || (backend_Name (run_Backend spec) != "") then
    validateBackendRef (run_Backend spec);; Ok (run_Backend spec)
  else match backendSelector r with
       | None => Err (Errorf ErrInvalidBackendRef "backend is required")
       | Some select =>
           ref ← select spec;
           validateBackendRef ref;; Ok ref
       end.

(** The request with its backend. *)
Definition prepareRunStart (r : Router) (spec : option RunSpec) : result RunSpec :=
  match spec with
  | None => Err (Errorf ErrInvalidRunSpec "run spec is required")
  | Some spec =>
      fail_if (run_RunID spec == "") (Errorf ErrInvalidRunSpec "run id is required");;
      fail_if (run_IdempotencyKey spec == "") (Errorf ErrInvalidRunSpec "run idempotency key is required");;
      validateRunSpecScope spec;;
      selectedBackend ← selectBackend r spec;
      let prepared := {| spec with run_Backend := selectedBackend |} in
      backend ← Registry_Get (registry r) (run_Backend prepared);
      Ok prepared
  end.

Definition claim_status (spec : RunSpec) : RunStatus :=
  {| zero_RunStatus with rs_RunID := run_RunID spec; rs_LifecycleState := RunBackendLifecycleClaiming |}.

(** What follows the comparison in [resolveExistingRunStart] and [resolveExistingPlanNodeStart]:
    the status, or [None] where the run is (still) to be started. *)
Definition resolve_existing (spec : RunSpec) (requested : RunBackendIndexRecord) (existing : RunBackendOwnership) :
    rprog (result (option RunStatus)) :=
  _ ←! ValidateRunBackendIndexIdempotency (RunBackendIndexRecordFromOwnership existing) requested;
  if own_LifecycleState existing == RunBackendLifecycleClaiming then mret (Ok None)
  else
    status ←? ask (BStatus (run_Backend spec) (run_RunID spec));
    normalized ←! normalizeOwnedRunStatus (run_RunID spec) status;
    mret (Ok (Some normalized)).

Definition resolveExistingRunStart (spec : RunSpec) (claimStatus : RunStatus) (existing : RunBackendOwnership) :
    rprog (result (option RunStatus)) :=
  resolve_existing spec (RunBackendIndexRecordFromRunSpec spec claimStatus) existing.

Definition resolveExistingPlanNodeStart (route : planNodeRoute) (spec : RunSpec) (claimStatus : RunStatus)
    (existing : RunBackendOwnership) : rprog (result (option RunStatus)) :=
  resolve_existing spec (RunBackendIndexRecordFromPlanNode (pnr_planID route) (pnr_nodeID route) spec claimStatus)
    existing.

Definition claimRunStart (spec : RunSpec) : rprog (result (option RunStatus)) :=
  let claimStatus := claim_status spec in
  existing ←? GetRunBackend (run_RunID spec);
  match existing with
  | Some existing => resolveExistingRunStart spec claimStatus existing
  | None =>
      _ ←? Bind spec claimStatus;
      mret (Ok None)
  end.

Definition claimPlanNodeStart (route : planNodeRoute) (spec : RunSpec) : rprog (result (option RunStatus)) :=
  let claimStatus := claim_status spec in
  existing ←? GetRunBackend (run_RunID spec);
  match existing with
  | Some existing => resolveExistingPlanNodeStart route spec claimStatus existing
  | None =>
      _ ←? BindPlanNode (pnr_planID route) (pnr_nodeID route) spec claimStatus;
      mret (Ok None)
  end.

Definition startClaimedRun (spec : RunSpec) (planNode : option planNodeRoute) : rprog (result RunStatus) :=
  started ←? ask (BStart (run_Backend spec) spec);
  status ←! normalizeOwnedRunStatus (run_RunID spec) started;
  _ ←? match planNode with
       | Some route => BindPlanNode (pnr_planID route) (pnr_nodeID route) spec status
       | None => Bind spec status
       end;
  mret (Ok status).

Definition Start (r : Router) (spec : option RunSpec) : rprog (result RunStatus) :=
  prepared ←! prepareRunStart r spec;
  status ←? claimRunStart prepared;
  match status with
  | Some status => mret (Ok status)
  | None => startClaimedRun prepared None
  end.

Definition StartPlanNode (r : Router) (planID nodeID : string) (spec : option RunSpec) : rprog (result RunStatus) :=
  _ ←! validatePlanNodeRoute planID nodeID;
  prepared ←! prepareRunStart r spec;
  let planNode := {| pnr_planID := planID; pnr_nodeID := nodeID |} in
  status ←? claimPlanNodeStart planNode prepared;
  match status with
  | Some status => mret (Ok status)
  | None => startClaimedRun prepared (Some planNode)
  end.

(** agentos/control/runtime.go: [RunRef.Validate] and [RunRef.Matches] *)
Definition RunRef_Validate (ref : RunRef) : result unit :=
  fail_if (TrimSpace (rref_RunID ref) == "") (Errorf ErrInvalidRunSpec "run id is required").

Definition Matches (ref : RunRef) (ownership : RunBackendOwnership) : bool :=
  let accountID := TrimSpace (rref_AccountID ref) in
  let projectID := TrimSpace (rref_ProjectID ref) in
  if (accountID != "") && (accountID != TrimSpace (own_AccountID ownership)) then false
  else if (projectID != "") && (projectID != TrimSpace (own_ProjectID ownership)) then false
  else true.

Definition backendForRun (r : Router) (ref : RunRef) : rprog (result BackendRef) :=
  _ ←! RunRef_Validate ref;
  _ ←? (if TrimSpace (rref_AccountID ref) != "" then
          ownership ←? GetRunBackend (rref_RunID ref);
          mret match ownership with
               | Some ownership =>
                   if Matches ref ownership then Ok tt else Err (Errorf ErrRunRouteNotFound "%s")
               | None => Err (Errorf ErrRunRouteNotFound "%s")
               end
        else mret (Ok tt));
  backendRef ←? Resolve (rref_RunID ref);
  mret (Registry_Get (registry r) backendRef).

Definition Router_Signal (r : Router) (ref : RunRef) (signal : option Signal) : rprog (result unit) :=
  match signal with
  | None => mret (Err (Errorf ErrInvalidSignal "signal is required"))
  | Some signal =>
      backend ←? backendForRun r ref;
      ask (BSignal backend (rref_RunID ref) signal)
  end.

Definition Router_Control (r : Router) (ref : RunRef) (control : option ControlRequest) : rprog (result unit) :=
  _ ←! ValidateControlRequest control;
  match control with
  | None => mret (Ok tt)
  | Some control =>
      backend ←? backendForRun r ref;
      ask (BControl backend (rref_RunID ref) control)
  end.

Definition Router_Status (r : Router) (ref : RunRef) : rprog (result RunStatus) :=
  backend ←? backendForRun r ref;
  status ←? ask (BStatus backend (rref_RunID ref));
  mret (normalizeOwnedRunStatus (rref_RunID ref) status).

Definition refForScope (scope : StreamScope) : rprog (result BackendRef) :=
  if ss_RunID scope == "" then
    mret (Err (Errorf ErrInvalidStreamScope "run id is required for backend routing"))
  else Resolve (ss_RunID scope).

Definition Router_Subscribe (r : Router) (scope : StreamScope) : rprog (result unit) :=
  ref ←? refForScope scope;
  backend ←! Registry_Get (registry r) ref;
  ask (BSubscribe backend scope).

(** ** What a call does *)

(** The rows of the table, and what backends were told to start and to act on.  A trigger of
    the table (protect_run_backend_ownership) refuses deletions and other owners. *)
Record World := {
  rows : gmap string RunBackendIndexRecord;
  starts : list (BackendRef * RunSpec);
  messages : list (BackendRef * string);
}.

Definition empty_World : World := {| rows := ∅; starts := []; messages := [] |}.

(** The unique index on (account_id, project_id, idempotency_key). *)
Definition with_key (w : World) (accountID projectID idempotencyKey : string) : option RunBackendIndexRecord :=
  snd <$> head (filter (λ kr : string * RunBackendIndexRecord,
    rec_AccountID kr.2 = accountID ∧ rec_ProjectID kr.2 = projectID ∧ rec_IdempotencyKey kr.2 = idempotencyKey)
    (map_to_list (rows w))).

(** The checks of the table. *)
Definition row_checks (r : RunBackendIndexRecord) : bool :=
  (rec_AccountID r != "") && (rec_BackendKind r != "") && (rec_BackendName r != "") &&
  (rec_IdempotencyKey r != "") && (rec_LifecycleState r != "") && (rec_ProjectID r != "") &&
  (rec_RunID r != "") && ((rec_PlanID r == "") == (rec_NodeID r == "")).

(** [INSERT ... ON CONFLICT (run_id) DO NOTHING] when nothing but the checks and the unique
    indexes stops it (a missing plan node does: [InsertFailed] in [router_does]). *)
Definition insert_row (now : time) (r : RunBackendIndexRecord) (w : World) : World * insert_answer :=
  if negb (row_checks r) then (w, InsertFailed (Errorf ErrOther "check violation"))
  else match rows w !! rec_RunID r with
  | Some _ => (w, Inserted 0)
  | None =>
      match with_key w (rec_AccountID r) (rec_ProjectID r) (rec_IdempotencyKey r) with
      | Some _ => (w, InsertUnique)
      | None => ({| w with rows := <[rec_RunID r := {| r with rec_CreatedAt := now; rec_UpdatedAt := now |}]> (rows w) |},
                 Inserted 1)
      end
  end.

Definition update_lifecycle (now : time) (runID lifecycle : string) (w : World) : World :=
  {| w with rows := alter (λ r, {| r with rec_LifecycleState := lifecycle; rec_UpdatedAt := now |}) runID (rows w) |}.

Section world.
(** The statuses that backends may report. *)
Variable reports : RunStatus → Prop.

(** A statement takes effect and answers, or fails before or after its effect; an insertion
    that races with another one may also meet the unique index where the run id conflicts.
    A backend may do what it is told although the call fails. *)
Definition router_does (o : router_op) (w : World) : reply o → World → Prop :=
  match o with
  | QGetRun runID => store_call (w, Ok (rows w !! runID)) w
  | QGetByKey a p k => store_call (w, Ok (with_key w a p k)) w
  | QInsert r => λ answer w',
      (∃ now, (w', answer) = insert_row now r w ∨
              (∃ e, answer = InsertFailed e ∧ (w' = w ∨ w' = (insert_row now r w).1))) ∨
      (answer = InsertUnique ∧ w' = w ∧ is_Some (with_key w (rec_AccountID r) (rec_ProjectID r) (rec_IdempotencyKey r)))
  | QUpdateLifecycle runID lifecycle => λ answer w',
      ∃ now, store_call (update_lifecycle now runID lifecycle w, Ok tt) w answer w'
  | QPlanNodeOwner _ _ => λ _ w', w' = w
  | BStart b spec => λ answer w',
      let told := {| w with starts := starts w ++ [(b, spec)] |} in
      (∀ status, answer = Ok status → reports status) ∧ (w' = told ∨ (w' = w ∧ ∃ e, answer = Err e))
  | BSignal b runID _ | BControl b runID _ => λ answer w',
      let told := {| w with messages := messages w ++ [(b, runID)] |} in
      w' = told ∨ (w' = w ∧ ∃ e, answer = Err e)
  | BStatus _ _ => λ answer w', w' = w
  | BSubscribe _ _ => λ _ w', w' = w
  end.

(** The calls while nothing fails: the database shows [now], backends start every run as
    [started] and answer queries with [status], plan nodes are owned as [owner] says. *)
Definition router_handle (now : time) (owner : string → string → option planNodeOwner)
    (started status : RunStatus) (o : router_op) (w : World) : reply o * World :=
  match o with
  | QGetRun runID => (Ok (rows w !! runID), w)
  | QGetByKey a p k => (Ok (with_key w a p k), w)
  | QInsert r => let '(w', answer) := insert_row now r w in (answer, w')
  | QUpdateLifecycle runID lifecycle => (Ok tt, update_lifecycle now runID lifecycle w)
  | QPlanNodeOwner planID nodeID => (Ok (owner planID nodeID), w)
  | BStart b spec => (Ok started, {| w with starts := starts w ++ [(b, spec)] |})
  | BSignal b runID _ | BControl b runID _ => (Ok tt, {| w with messages := messages w ++ [(b, runID)] |})
  | BStatus _ _ => (Ok status, w)
  | BSubscribe _ _ => (Ok tt, w)
  end.

(** A request to the router, its answer dropped. *)
Inductive router_request (r : Router) : rprog unit → Prop :=
  | request_start spec : router_request r (Start r spec ≫= λ _, mret tt)
  | request_plan_node planID nodeID spec : router_request r (StartPlanNode r planID nodeID spec ≫= λ _, mret tt)
  | request_signal ref signal : router_request r (Router_Signal r ref signal ≫= λ _, mret tt)
  | request_control ref control : router_request r (Router_Control r ref control ≫= λ _, mret tt)
  | request_status ref : router_request r (Router_Status r ref ≫= λ _, mret tt)
  | request_subscribe scope : router_request r (Router_Subscribe r scope ≫= λ _, mret tt).

(** Any number of requests, interleaved and cut short anywhere. *)
Definition router_step (r : Router) : relation (threads (Op:=router_op) (W:=World) (A:=unit)) :=
  thread_step router_does (router_request r).

Definition router_reachable (r : Router) (s : threads) : Prop := rtc (router_step r) (Threads empty_World []) s.
End world.
End router.
