(* ===== verification/RouterSpec.v ===== *)
(** * The run router: who owns a run

    Any number of requests of the router interleave, fail and die.  The index never changes
    its mind about the owner of a run; everything a backend is told to do for a run comes
    from requests that found this backend in the index. *)

From S2P Require Import Prelude Types Scope Json Temporal Calls GoStrings Router.
Import router.

(** ** Rows *)

(** Two records of the same run with the same owner. *)
Record same_owner (r r' : RunBackendIndexRecord) : Prop := {
  so_run : rec_RunID r' = rec_RunID r;
  so_plan : rec_PlanID r' = rec_PlanID r;
  so_node : rec_NodeID r' = rec_NodeID r;
  so_thread : rec_ThreadID r' = rec_ThreadID r;
  so_account : rec_AccountID r' = rec_AccountID r;
  so_project : rec_ProjectID r' = rec_ProjectID r;
  so_kind : rec_BackendKind r' = rec_BackendKind r;
  so_name : rec_BackendName r' = rec_BackendName r;
  so_key : rec_IdempotencyKey r' = rec_IdempotencyKey r;
}.

#[global] Instance same_owner_equivalence : Equivalence same_owner.
Proof.
  split; [by intros r|by intros r r' []|]. intros r1 r2 r3 [] []. split; congruence.
Qed.

Definition backend_of (r : RunBackendIndexRecord) : BackendRef :=
  {| backend_Kind := rec_BackendKind r; backend_Name := rec_BackendName r |}.

(** The row of the run of [R] has the owner of [R]. *)
Definition bound (R : RunBackendIndexRecord) (w : World) : Prop :=
  ∃ row, rows w !! rec_RunID R = Some row ∧ same_owner R row.

(** The claim of a run of [spec] by [route]. *)
Definition claim_record (route : option planNodeRoute) (spec : RunSpec) : RunBackendIndexRecord :=
  record_of route spec (claim_status spec).

(** The run was claimed; the run has been reported as started. *)
Definition claimed (route : option planNodeRoute) (spec : RunSpec) (w : World) : Prop := bound (claim_record route spec) w.
Definition started (route : option planNodeRoute) (spec : RunSpec) (w : World) : Prop :=
  ∃ row, rows w !! run_RunID spec = Some row ∧ same_owner (claim_record route spec) row ∧
         rec_LifecycleState row ≠ RunBackendLifecycleClaiming.

Record index_ok (w : World) : Prop := {
  io_row : ∀ id row, rows w !! id = Some row → rec_RunID row = id ∧ row_checks row = true;
  io_key : ∀ id1 r1 id2 r2, rows w !! id1 = Some r1 → rows w !! id2 = Some r2 →
    rec_AccountID r1 = rec_AccountID r2 → rec_ProjectID r1 = rec_ProjectID r2 →
    rec_IdempotencyKey r1 = rec_IdempotencyKey r2 → id1 = id2;
  io_start : ∀ b spec, (b, spec) ∈ starts w → b = run_Backend spec ∧ ∃ route, claimed route spec w;
  io_message : ∀ b id, (b, id) ∈ messages w → ∃ row, rows w !! id = Some row ∧ backend_of row = b;
}.

(** What may happen to a row: the owner stays, and a run that has left claiming does not go back. *)
Definition row_after (row row' : RunBackendIndexRecord) : Prop :=
  same_owner row row' ∧
  (rec_LifecycleState row ≠ RunBackendLifecycleClaiming → rec_LifecycleState row' ≠ RunBackendLifecycleClaiming).

Record index_extends (w w' : World) : Prop := {
  ie_row : ∀ id row, rows w !! id = Some row → ∃ row', rows w' !! id = Some row' ∧ row_after row row';
  ie_starts : starts w `prefix_of` starts w';
  ie_messages : messages w `prefix_of` messages w';
}.

#[global] Instance row_after_preorder : PreOrder row_after.
Proof.
  split; [by intros r; split|]. intros r1 r2 r3 [] []. split; [by etrans|auto].
Qed.

#[global] Instance index_extends_preorder : PreOrder index_extends.
Proof.
  split; [intros w; split; [by intros id row ?; exists row|done..]|].
  intros w1 w2 w3 [R1 S1 M1] [R2 S2 M2]. split; [|by etrans..].
  intros id row Hrow. destruct (R1 _ _ Hrow) as (row2 & Hrow2 & ?). destruct (R2 _ _ Hrow2) as (row3 & ? & ?).
  exists row3. split; [done|by etrans].
Qed.

Lemma bound_extends R w w' : bound R w → index_extends w w' → bound R w'.
Proof.
  intros (row & Hrow & Ho) [Hx _ _]. destruct (Hx _ _ Hrow) as (row' & ? & [? _]). exists row'. split; [done|by etrans].
Qed.

Lemma run_started_extends route spec w w' : started route spec w → index_extends w w' → started route spec w'.
Proof.
  intros (row & Hrow & Ho & Hl) [Hx _ _]. destruct (Hx _ _ Hrow) as (row' & ? & [? Hl']). exists row'.
  split_and!; [done|by etrans|auto].
Qed.

Lemma with_key_Some w a p k row :
  index_ok w → with_key w a p k = Some row →
  rows w !! rec_RunID row = Some row ∧ rec_AccountID row = a ∧ rec_ProjectID row = p ∧ rec_IdempotencyKey row = k.
Proof.
  intros Hok. unfold with_key. destruct (head _) as [[id r]|] eqn:Hh; [|done]. intros [= ->].
  assert ((id, row) ∈ filter (λ kr : string * RunBackendIndexRecord, rec_AccountID kr.2 = a ∧ rec_ProjectID kr.2 = p ∧
    rec_IdempotencyKey kr.2 = k) (map_to_list (rows w))) as Hin.
  { destruct (filter _ _); [done|]. injection Hh as ->. left. }
  apply list_elem_of_filter in Hin as [(? & ? & ?) Hin%elem_of_map_to_list]. destruct (io_row _ Hok _ _ Hin) as [-> _]. done.
Qed.

Lemma with_key_None w a p k id row :
  with_key w a p k = None → rows w !! id = Some row →
  rec_AccountID row = a → rec_ProjectID row = p → rec_IdempotencyKey row = k → False.
Proof.
  unfold with_key. intros Hn Hrow ? ? ?.
  assert ((id, row) ∈ filter (λ kr : string * RunBackendIndexRecord, rec_AccountID kr.2 = a ∧ rec_ProjectID kr.2 = p ∧
    rec_IdempotencyKey kr.2 = k) (map_to_list (rows w))) as Hin.
  { apply list_elem_of_filter. split; [done|]. by apply elem_of_map_to_list. }
  destruct (filter _ _); [by apply not_elem_of_nil in Hin|done].
Qed.

(** ** What statements do *)

Lemma insert_row_ok now r w : index_ok w → index_ok (insert_row now r w).1 ∧ index_extends w (insert_row now r w).1.
Proof.
  intros Hok. unfold insert_row. destruct (row_checks r) eqn:Hc; cbn; [|done].
  destruct (rows w !! rec_RunID r) as [old|] eqn:Hold; [done|].
  destruct (with_key w _ _ _) eqn:Hk; [done|]. cbn.
  assert (∀ id row, rows w !! id = Some row → id ≠ rec_RunID r) as Hne by (intros id row ? ->; congruence).
  assert (index_extends w {| w with rows := <[rec_RunID r := {| r with rec_CreatedAt := now; rec_UpdatedAt := now |}]> (rows w) |}) as Hx.
  { split; cbn; [|done..]. intros id row Hrow. exists row. rewrite lookup_insert_ne by (by apply not_eq_sym, (Hne _ row)). done. }
  split; [|exact Hx]. destruct Hok. split; cbn.
  - intros id row [[<- <-]|[_ ?]]%lookup_insert_Some; [by split|by apply io_row0].
  - intros id1 r1 id2 r2 [[<- <-]|[_ H1]]%lookup_insert_Some [[<- <-]|[_ H2]]%lookup_insert_Some; cbn; [done| | |by eauto].
    + intros. by destruct (with_key_None _ _ _ _ _ _ Hk H2).
    + intros. by destruct (with_key_None _ _ _ _ _ _ Hk H1).
  - intros b spec Hin. destruct (io_start0 b spec Hin) as (? & route & Hcl). split; [done|]. exists route.
    by eapply bound_extends.
  - intros b id Hin. destruct (io_message0 b id Hin) as (row & Hrow & ?). exists row.
    rewrite lookup_insert_ne by (by apply not_eq_sym, (Hne _ row)). done.
Qed.

Lemma update_lifecycle_ok now id lifecycle w :
  index_ok w → lifecycle ≠ "" → lifecycle ≠ RunBackendLifecycleClaiming →
  index_ok (update_lifecycle now id lifecycle w) ∧ index_extends w (update_lifecycle now id lifecycle w).
Proof.
  intros Hok Hne Hcl. unfold update_lifecycle.
  assert (index_extends w {| w with rows := alter (λ r, {| r with rec_LifecycleState := lifecycle; rec_UpdatedAt := now |}) id (rows w) |}) as Hx.
  { split; cbn; [|done..]. intros id' row Hrow. destruct (decide (id' = id)) as [->|Hn].
    - eexists. rewrite lookup_alter_eq, Hrow. split; [done|]. by split.
    - exists row. by rewrite lookup_alter_ne. }
  split; [|exact Hx]. destruct Hok.
  assert (∀ id' row', alter (λ r, {| r with rec_LifecycleState := lifecycle; rec_UpdatedAt := now |}) id (rows w) !! id' = Some row' →
    ∃ row, rows w !! id' = Some row ∧ same_owner row row' ∧ (row_checks row = true → row_checks row' = true)) as Hold.
  { intros id' row' [(<- & row & Hrow & ->)|[Hn Hrow]]%lookup_alter_Some; [|by exists row'].
    exists row. split_and!; [done|by split|]. unfold row_checks. cbn. rewrite !andb_true_iff, (bool_decide_eq_false_2 (lifecycle = "")) by done. naive_solver. }
  split; cbn.
  - intros id' row' (row & Hrow & [] & Hc)%Hold. destruct (io_row0 _ _ Hrow). split; [congruence|auto].
  - intros id1 r1 id2 r2 (x1 & H1 & [] & _)%Hold (x2 & H2 & [] & _)%Hold ? ? ?. eapply io_key0; [done..|congruence|congruence|congruence].
  - intros b spec Hin. destruct (io_start0 b spec Hin) as (? & route & Hc). split; [done|]. exists route. by eapply bound_extends.
  - intros b id' Hin. destruct (io_message0 b id' Hin) as (row & Hrow & <-). destruct (ie_row _ _ Hx _ _ Hrow) as (row' & ? & [[] _]).
    exists row'. split; [done|]. unfold backend_of. congruence.
Qed.

(** ** Programs *)

Section programs.
Variable reports : RunStatus → Prop.

Abbreviation igets := (gets (router_does reports) index_ok index_extends).

(** The row of a run. *)
Lemma gets_Get id w : igets (Get id) (λ o w', o = rows w' !! id) w.
Proof.
  unfold Get, ask_wrapped. gets_apply gets_call. intros w1 r w2 HI HG Hd.
  apply read_call in Hd as [-> Hr]. split_and!; [done..|]. gets_apply gets_ret. intros _ o Ho.
  destruct r as [o'|e]; [|done]. injection Ho as <-. by injection (Hr _ eq_refl) as ->.
Qed.

(** The row with the key of a record. *)
Lemma gets_byKey R w :
  igets (runByIdempotencyKey R) (λ o w', rec_IdempotencyKey R ≠ "" ∧
    o = with_key w' (rec_AccountID R) (rec_ProjectID R) (rec_IdempotencyKey R)) w.
Proof.
  unfold runByIdempotencyKey, ask_wrapped. case_bool_decide as Hk; [by gets_apply gets_ret|].
  gets_apply gets_call. intros w1 r w2 HI HG Hd. apply read_call in Hd as [-> Hr]. split_and!; [done..|].
  gets_apply gets_ret. intros _ o Ho. destruct r as [o'|e]; [|done]. injection Ho as <-. by injection (Hr _ eq_refl) as ->.
Qed.

(** A row that was read, as it is by now. *)
Definition since (row : RunBackendIndexRecord) (w : World) : Prop :=
  ∃ row', rows w !! rec_RunID row = Some row' ∧ row_after row row'.

Lemma since_extends row w w' : since row w → index_extends w w' → since row w'.
Proof.
  intros (row1 & Hrow1 & Ha) [Hx _ _]. destruct (Hx _ _ Hrow1) as (row2 & ? & ?). exists row2. split; [done|by etrans].
Qed.

Lemma since_read id row w : index_ok w → rows w !! id = Some row → since row w.
Proof. intros Hok Hrow. destruct (io_row _ Hok _ _ Hrow) as [<- _]. by exists row. Qed.

Lemma validated_owner existing R :
  ValidateRunBackendIndexIdempotency existing R = Ok tt → rec_IdempotencyKey existing ≠ "" → rec_IdempotencyKey R ≠ "" →
  same_owner R existing.
Proof.
  unfold ValidateRunBackendIndexIdempotency, validateRunBackendIndexPlanNode, validateRunBackendIndexScope,
    validateRunBackendIndexBackend, fail_if.
  intros Hv Hk1 Hk2. repeat case_bool_decide; cbn in Hv; try done; by split.
Qed.

Lemma row_key id row w : index_ok w → rows w !! id = Some row → rec_IdempotencyKey row ≠ "".
Proof.
  intros Hok Hrow. destruct (io_row _ Hok _ _ Hrow) as [_ Hc]. unfold row_checks in Hc. by simplify_bool.
Qed.

(** The row of the run of [R] has the owner and, unless [R] is a claim, has left claiming. *)
Definition settled (R : RunBackendIndexRecord) (w : World) : Prop :=
  ∃ row, rows w !! rec_RunID R = Some row ∧ same_owner R row ∧
    (rec_LifecycleState R ≠ RunBackendLifecycleClaiming → rec_LifecycleState row ≠ RunBackendLifecycleClaiming).

Lemma settled_extends R w w' : settled R w → index_extends w w' → settled R w'.
Proof.
  intros (row & Hrow & Ho & Hl) [Hx _ _]. destruct (Hx _ _ Hrow) as (row' & ? & [? Hl']). exists row'.
  split_and!; [done|by etrans|auto].
Qed.

Lemma gets_update existing R w :
  since existing w → same_owner R existing → rec_LifecycleState R ≠ "" →
  igets (updateLifecycle existing R) (λ _ w', settled R w') w.
Proof.
  intros Hs Ho Hne. pose proof Hs as (row & Hrow & [Hso Hl]). rewrite (so_run _ _ Ho) in Hrow.
  unfold updateLifecycle, ask_wrapped. destruct (_ && _) eqn:Hc.
  { gets_apply gets_ret. intros _ _ _. exists row. simplify_bool. split_and!; [done|by etrans|done]. }
  destruct (decide (rec_LifecycleState R = rec_LifecycleState existing)) as [Heq|Hneq].
  { rewrite bool_decide_eq_true_2 by done. gets_apply gets_ret. intros _ _ _. exists row.
    split_and!; [done|by etrans|]. rewrite Heq. exact Hl. }
  rewrite bool_decide_eq_false_2 by done.
  assert (rec_LifecycleState R ≠ RunBackendLifecycleClaiming) as Hclaim.
  { intros Hr. apply andb_false_iff in Hc as [Hc|Hc]; simplify_bool; congruence. }
  gets_apply gets_call. intros w1 r w2 HI HG (now & Hd). apply store_call_ok in Hd as [Hw2 Hr]. cbn in Hw2, Hr.
  destruct (update_lifecycle_ok now (rec_RunID existing) (rec_LifecycleState R) w1 HI Hne Hclaim) as [HI2 HG2].
  split_and!; [by destruct Hw2 as [->| ->]..|]. gets_apply gets_ret. intros _ u Hu.
  destruct r as [u'|e]; [|done]. destruct (Hr u' eq_refl) as [-> _].
  destruct (since_extends _ _ _ Hs HG) as (row1 & Hrow1 & [Hso1 _]).
  eexists. cbn. rewrite <- (so_run _ _ Ho). split; [by rewrite lookup_alter_eq, Hrow1|].
  split; [|done]. etrans; [exact Ho|]. etrans; [exact Hso1|]. by split.
Qed.

Lemma gets_byKey_update R w :
  rec_LifecycleState R ≠ "" →
  igets (upsertByIdempotencyKey R) (λ _ w', bound R w → settled R w') w.
Proof.
  intros Hne. unfold upsertByIdempotencyKey. case_bool_decide as Hk.
  { gets_apply gets_ret. intros HI _ _ (row & Hrow & Ho). destruct (row_key _ _ _ HI Hrow). by rewrite (so_key _ _ Ho). }
  gets_apply gets_bind; [apply gets_byKey|]. intros o w1 HI HG [_ ->].
  destruct (with_key w1 _ _ _) as [existing|] eqn:Hw.
  - apply (with_key_Some _ _ _ _ _ HI) in Hw as (Hrow & Ha & Hp & Hkey). gets_apply gets_check. intros [] Hv.
    gets_apply gets_mono; [apply gets_update; [by eapply since_read|by apply validated_owner; [|rewrite Hkey|]|done]|by auto].
  - gets_apply gets_ret. intros _ _ _ Hb. destruct (bound_extends _ _ _ Hb HG) as (row & Hrow & []).
    by destruct (with_key_None _ _ _ _ _ _ Hw Hrow).
Qed.

Lemma normalize_nonempty r : rec_LifecycleState (NormalizeRunBackendIndexRecord r) ≠ "".
Proof. unfold NormalizeRunBackendIndexRecord. by case_bool_decide. Qed.

Lemma normalize_normal r : rec_LifecycleState r ≠ "" → NormalizeRunBackendIndexRecord r = r.
Proof. intros Hr. unfold NormalizeRunBackendIndexRecord. by rewrite bool_decide_eq_false_2. Qed.

(** Binding a record: the row of the run has its owner, and has left claiming when the run was
    known and the record is not a claim. *)
Lemma gets_upsert R w :
  rec_LifecycleState R ≠ "" →
  igets (upsert R true) (λ _ w', bound R w' ∧ (bound R w → settled R w')) w.
Proof.
  intros Hne. unfold upsert. rewrite normalize_normal by done. gets_apply gets_check. intros [] Hvalid.
  assert (rec_IdempotencyKey R ≠ "") as Hk.
  { intros Hk. unfold ValidateRunBackendIndexRecord, fail_if in Hvalid. rewrite Hk in Hvalid.
    repeat case_bool_decide; done. }
  gets_apply gets_bind; [by apply gets_byKey_update|]. intros [] w1 HI HG Hknown.
  gets_apply gets_call. intros w2 answer w3 HI2 HG2 Hd.
  assert (index_ok w3 ∧ index_extends w2 w3 ∧ ∀ n, answer = Inserted n → n ≠ 0%Z → bound R w3) as (HI3 & HG3 & Hin).
  { destruct Hd as [(now & Hd)|(-> & -> & _)]; [|by split_and!].
    destruct (insert_row_ok now R w2 HI2) as [Hi1 Hi2].
    destruct Hd as [Hd|(e & -> & [->| ->])]; [|by split_and!..].
    revert Hi1 Hi2 Hd. unfold insert_row. destruct (row_checks R); [|by intros ? ? [= -> ->]; split_and!].
    destruct (rows w2 !! _); [by intros ? ? [= -> ->]; split_and!; naive_solver|].
    destruct (with_key _ _ _ _); [by intros ? ? [= -> ->]; split_and!|]. cbn.
    intros ? ? [= -> ->]. split_and!; [done..|]. intros _ _ _. eexists. cbn. rewrite lookup_insert_eq. by split. }
  split_and!; [done..|].
  assert (∀ w4, index_extends w3 w4 → bound R w → settled R w4) as Hsettled.
  { intros w4 HG4 Hb. eapply settled_extends; [by apply Hknown|]. etrans; [exact HG2|]. by etrans. }
  destruct answer as [n| |e]; unfold handleUpsertExecError; cbn [negb orb].
  - case_bool_decide as Hn.
    + unfold handleUpsertConflict. gets_apply gets_bind; [apply gets_Get|]. intros o w4 HI4 HG4 ->.
      destruct (rows w4 !! rec_RunID R) as [existing|] eqn:Hex; [|by gets_apply gets_ret]. gets_apply gets_check. intros [] Hv.
      assert (same_owner R existing) as Ho by (apply validated_owner; [done|by eapply row_key|done]).
      gets_apply gets_mono; [apply gets_update; [by eapply since_read|done..]|]. cbn. intros _ w5 _ HG5 Hs. split.
      * destruct Hs as (row & ? & ? & _). by exists row.
      * intros Hb. apply Hsettled; [by etrans|done].
    + gets_apply gets_ret. intros _ _ _. split; [by eapply Hin|]. by apply Hsettled.
  - rewrite (bool_decide_eq_false_2 (rec_IdempotencyKey R = "")) by done. gets_apply gets_bind; [apply gets_byKey|]. intros o w4 HI4 HG4 [_ ->].
    destruct (with_key w4 _ _ _) as [existing|] eqn:Hw; [|by gets_apply gets_ret].
    apply (with_key_Some _ _ _ _ _ HI4) in Hw as (Hrow & Ha & Hp & Hkey).
    gets_apply gets_ret. intros _ [] Hv. assert (same_owner R existing) as Ho by (apply validated_owner; [done|by rewrite Hkey|done]).
    split; [|by apply Hsettled]. exists existing. by rewrite <- (so_run _ _ Ho).
  - by gets_apply gets_ret.
Qed.

(** ** Claims and starts *)

(** The two kinds of start requests, as one. *)
Definition bind_run (route : option planNodeRoute) (spec : RunSpec) (status : RunStatus) : rprog (result unit) :=
  match route with
  | Some route => BindPlanNode (pnr_planID route) (pnr_nodeID route) spec status
  | None => Bind spec status
  end.

Definition claim_run (route : option planNodeRoute) (spec : RunSpec) : rprog (result (option RunStatus)) :=
  match route with Some route => claimPlanNodeStart route spec | None => claimRunStart spec end.

Definition start_run (r : Router) (route : option planNodeRoute) (spec : option RunSpec) : rprog (result RunStatus) :=
  match route with
  | Some route => StartPlanNode r (pnr_planID route) (pnr_nodeID route) spec
  | None => Start r spec
  end.

Lemma claim_run_eq route spec :
  claim_run route spec =
  (existing ←? GetRunBackend (run_RunID spec);
   match existing with
   | Some existing => resolve_existing spec (claim_record route spec) existing
   | None => _ ←? bind_run route spec (claim_status spec); mret (Ok None)
   end).
Proof. by destruct route as [[]|]. Qed.

Lemma gets_owner R w : igets (validatePlanNodeOwnership R) (λ _ _, True) w.
Proof.
  unfold validatePlanNodeOwnership. gets_apply gets_check. intros [] _. unfold planNodeOwner_of, ask_wrapped.
  gets_apply (gets_bind _ _ _ _ _ (λ _ _, True)).
  - gets_apply (gets_bind _ _ _ _ _ (λ _ _, True)); [|by intros; gets_apply gets_ret].
    gets_apply gets_call. intros w1 r w2 HI HG ->. split_and!; [done..|]. by gets_apply gets_ret.
  - intros. by gets_apply gets_ret.
Qed.

Lemma gets_bind_run route spec status w :
  let R := record_of route spec status in
  igets (bind_run route spec status) (λ _ w', bound R w' ∧ (bound R w → settled R w')) w.
Proof.
  intros R. assert (rec_LifecycleState R ≠ "") as Hne by apply normalize_nonempty.
  destruct route as [route|]; [|by apply gets_upsert]. cbn [bind_run]. unfold BindPlanNode.
  assert (RunBackendIndexRecordFromPlanNode (pnr_planID route) (pnr_nodeID route) spec status = R) as ->
    by by destruct route.
  gets_apply gets_bind; [apply gets_owner|]. intros [] w1 HI HG _.
  gets_apply gets_mono; [by apply gets_upsert|]. cbn. intros _ w2 _ _ [Hb Hs]. split; [done|].
  intros Hbw. apply Hs. by eapply bound_extends.
Qed.

Lemma normalize_owner r : same_owner r (NormalizeRunBackendIndexRecord r).
Proof. unfold NormalizeRunBackendIndexRecord. destruct (_ == _); by split. Qed.

(** The records of a request have the same owner. *)
Lemma record_owner route spec status1 status2 :
  rs_RunID status1 = run_RunID spec → rs_RunID status2 = run_RunID spec →
  same_owner (record_of route spec status1) (record_of route spec status2).
Proof.
  intros Hs1 Hs2. unfold record_of. rewrite Hs1, Hs2. etrans; [symmetry; apply normalize_owner|].
  etrans; [|apply normalize_owner]. by split.
Qed.

Lemma record_run route spec status :
  rs_RunID status = run_RunID spec → rec_RunID (record_of route spec status) = run_RunID spec.
Proof.
  intros Hs. unfold record_of. rewrite (so_run _ _ (normalize_owner _)). cbn. rewrite Hs. by destruct (_ == _).
Qed.

Lemma record_key route spec status : rec_IdempotencyKey (record_of route spec status) = run_IdempotencyKey spec.
Proof. unfold record_of. by rewrite (so_key _ _ (normalize_owner _)). Qed.

Lemma bound_same R R' w : same_owner R R' → bound R w → bound R' w.
Proof.
  intros Ho (row & Hrow & Hr). exists row. rewrite (so_run _ _ Ho). split; [done|]. etrans; [|exact Hr]. by symmetry.
Qed.

Lemma owner_read row : same_owner row (RunBackendIndexRecordFromOwnership (RunBackendOwnershipFromRecord row)).
Proof.
  unfold RunBackendIndexRecordFromOwnership, RunBackendOwnershipFromRecord.
  etrans; [|apply normalize_owner]. etrans; [apply normalize_owner|]. by split.
Qed.

Lemma lifecycle_read row w id :
  index_ok w → rows w !! id = Some row → own_LifecycleState (RunBackendOwnershipFromRecord row) = rec_LifecycleState row.
Proof.
  intros Hok Hrow. destruct (io_row _ Hok _ _ Hrow) as [_ Hc]. unfold row_checks in Hc.
  unfold RunBackendOwnershipFromRecord. rewrite normalize_normal; [done|]. by simplify_bool.
Qed.

(** What the claim of a run finds or makes. *)
Lemma gets_claim route spec w :
  run_RunID spec ≠ "" → run_IdempotencyKey spec ≠ "" →
  igets (claim_run route spec) (λ status w', claimed route spec w' ∧ (status ≠ None → started route spec w')) w.
Proof.
  intros Hid Hkey. rewrite claim_run_eq. unfold GetRunBackend.
  gets_apply (gets_bind _ _ _ _ _ (λ o w', o = RunBackendOwnershipFromRecord <$> rows w' !! run_RunID spec)).
  { gets_apply gets_bind; [apply gets_Get|]. intros o w1 _ _ ->. by gets_apply gets_ret; intros _ o [= <-]. }
  intros o w1 HI HG ->. destruct (rows w1 !! run_RunID spec) as [row|] eqn:Hrow; cbn [fmap option_fmap option_map].
  - unfold resolve_existing. gets_apply gets_check. intros [] Hv.
    assert (same_owner (claim_record route spec) row) as Ho.
    { etrans; [|symmetry; apply owner_read]. apply validated_owner; [done| |].
      - rewrite (so_key _ _ (owner_read row)). by eapply row_key.
      - unfold claim_record. by rewrite record_key. }
    assert (rec_RunID (claim_record route spec) = run_RunID spec) as Hrun by by apply record_run.
    rewrite (lifecycle_read _ _ _ HI Hrow). destruct (decide (rec_LifecycleState row = RunBackendLifecycleClaiming)) as [Hl|Hl].
    + rewrite bool_decide_eq_true_2 by done. gets_apply gets_ret. intros _ o [= <-]. split; [|done].
      exists row. by rewrite Hrun.
    + rewrite bool_decide_eq_false_2 by done.
      gets_apply (gets_bind _ _ _ _ _ (λ _ w', w' = w1 ∨ index_extends w1 w')).
      { intros HI1. intros w2 r w3 HI2 HG2 ->.
        split_and!; [done..|]. cbn. split_and!; [done..|]. intros _ _. by right. }
      intros status w2 _ HG2 _. gets_apply gets_check. intros normalized _. gets_apply gets_ret. intros _ o [= <-].
      assert (started route spec w2) as Hs by (eapply run_started_extends; [by exists row|done]). split; [|done].
      destruct Hs as (row' & ? & ? & _). exists row'. by rewrite Hrun.
  - gets_apply gets_bind; [apply gets_bind_run|]. intros [] w2 _ _ [Hb _]. gets_apply gets_ret.
    intros _ o [= <-]. by split.
Qed.

Lemma normalized_run runID status status' :
  normalizeOwnedRunStatus runID status = Ok status' →
  rs_RunID status' = runID ∧ rs_LifecycleState status' = rs_LifecycleState status.
Proof.
  unfold normalizeOwnedRunStatus, fail_if. destruct (_ != _) eqn:Hc; [done|]. cbn. intros [= <-]. simplify_bool.
  split; [done|]. by case_bool_decide.
Qed.

(** No backend reports a run as claiming. *)
Definition honest : Prop := ∀ status, reports status → rs_LifecycleState status ≠ RunBackendLifecycleClaiming.

Lemma gets_start_claimed route spec w :
  run_RunID spec ≠ "" → claimed route spec w →
  igets (startClaimedRun spec route) (λ _ w', honest → started route spec w') w.
Proof.
  intros Hid Hcl. unfold startClaimedRun.
  gets_apply (gets_bind _ _ _ _ _ (λ status w', reports status ∧ claimed route spec w')).
  { intros HI0. intros w1 r w2 HI1 HG1 [Hrep Hd].
    assert (index_ok w2 ∧ index_extends w1 w2) as [HI2 HG2].
    { destruct Hd as [->|[-> _]]; [|done].
      assert (index_extends w1 {| w1 with starts := starts w1 ++ [(run_Backend spec, spec)] |}) as Hx.
      { split; cbn; [by intros id row ?; exists row|by eexists|done]. }
      split; [|exact Hx]. destruct HI1. split; cbn; [done..| |done].
      intros b sp [Hin|[= -> ->]%list_elem_of_singleton]%elem_of_app.
      - destruct (io_start0 _ _ Hin) as (? & rt & ?). split; [done|]. exists rt. by eapply bound_extends.
      - split; [done|]. exists route. eapply bound_extends; [exact Hcl|]. by etrans. }
    split_and!; [done..|]. cbn. split_and!; [done|by etrans|]. intros status ->. split; [by apply Hrep|].
    eapply bound_extends; [exact Hcl|]. by etrans. }
  intros status w1 HI1 HG1 [Hrep Hcl1]. gets_apply gets_check. intros status' [Hrun Hlife]%normalized_run.
  gets_apply gets_bind; [exact (gets_bind_run route spec status' w1)|].
  intros [] w2 HI2 HG2 [_ Hs]. gets_apply gets_ret. intros _ _ _ Hh.
  assert (bound (record_of route spec status') w1) as Hb.
  { eapply bound_same; [|exact Hcl1]. by apply record_owner. }
  destruct (Hs Hb) as (row & Hrow & Ho & Hl). exists row. rewrite (record_run _ _ _ Hrun) in Hrow. split_and!; [done| |].
  - etrans; [|exact Ho]. by apply record_owner.
  - apply Hl. unfold record_of, NormalizeRunBackendIndexRecord. cbn. rewrite Hlife. specialize (Hh _ Hrep).
    repeat case_bool_decide; done.
Qed.

(** The checks of a start request. *)
Definition prepare_start (r : Router) (route : option planNodeRoute) (spec : option RunSpec) : result RunSpec :=
  match route with
  | Some route => validatePlanNodeRoute (pnr_planID route) (pnr_nodeID route);; prepareRunStart r spec
  | None => prepareRunStart r spec
  end.

Lemma start_run_eq r route spec :
  start_run r route spec =
  (prepared ←! prepare_start r route spec;
   status ←? claim_run route prepared;
   match status with Some status => mret (Ok status) | None => startClaimedRun prepared route end).
Proof. destruct route as [[]|]; [|done]. cbn. unfold StartPlanNode. by destruct (validatePlanNodeRoute _ _). Qed.

Lemma prepared_run r route spec prepared :
  prepare_start r route spec = Ok prepared → run_RunID prepared ≠ "" ∧ run_IdempotencyKey prepared ≠ "".
Proof.
  unfold prepare_start, prepareRunStart. intros Hp.
  assert (prepareRunStart r spec = Ok prepared) as Hrun by (destruct route; [by go_inv Hp|done]).
  clear Hp. unfold prepareRunStart in Hrun. destruct spec as [spec|]; [|done]. go_inv Hrun. by split.
Qed.

Lemma gets_start r route spec w :
  igets (start_run r route spec)
    (λ _ w', ∃ prepared, prepare_start r route spec = Ok prepared ∧ claimed route prepared w' ∧ (honest → started route prepared w')) w.
Proof.
  rewrite start_run_eq. gets_apply gets_check. intros prepared Hp. destruct (prepared_run _ _ _ _ Hp) as [Hid Hkey].
  gets_apply gets_bind; [by apply gets_claim|]. intros [status|] w1 HI HG [Hcl Hst].
  - gets_apply gets_ret. intros _ _ _. exists prepared. split_and!; [done..|]. intros _. by apply Hst.
  - gets_apply gets_mono; [by apply gets_start_claimed|]. cbn. intros _ w2 _ HG2 Hs. exists prepared.
    split_and!; [done| |done]. by eapply bound_extends.
Qed.

(** ** Routing *)

Lemma gets_backend r ref w :
  igets (backendForRun r ref) (λ b w', ∃ row, rows w' !! rref_RunID ref = Some row ∧ backend_of row = b) w.
Proof.
  unfold backendForRun. gets_apply gets_check. intros [] _.
  gets_apply (gets_bind _ _ _ _ _ (λ _ _, True)).
  { destruct (_ != _); [|by gets_apply gets_ret]. gets_apply (gets_bind _ _ _ _ _ (λ _ _, True)).
    - unfold GetRunBackend. gets_apply gets_bind; [apply gets_Get|]. intros. by gets_apply gets_ret.
    - intros. by gets_apply gets_ret. }
  intros [] w1 _ _ _. gets_apply (gets_bind _ _ _ _ _ (λ b w', ∃ row, rows w' !! rref_RunID ref = Some row ∧ backend_of row = b)).
  - unfold Resolve. gets_apply gets_bind; [apply gets_Get|]. intros o w2 _ _ ->. gets_apply gets_ret. intros _ b.
    destruct (rows w2 !! _) as [row|] eqn:Hrow; [|done]. intros [= <-]. by exists row.
  - intros b w2 _ _ Hrow. gets_apply gets_ret. intros _ b'. unfold Registry_Get, fail_if. intros Hb. go_inv Hb. exact Hrow.
Qed.

(** A message to the backend that the index has for the run. *)
Lemma gets_message b id w (o : router_op) (k : reply o → rprog (result unit)) :
  (∀ w1 r w2, router_does reports o w1 r w2 →
     w2 = {| w1 with messages := messages w1 ++ [(b, id)] |} ∨ w2 = w1) →
  (∀ r w', igets (k r) (λ _ _, True) w') →
  (∃ row, rows w !! id = Some row ∧ backend_of row = b) →
  igets (r ← ask o; k r) (λ _ _, True) w.
Proof.
  intros Hdoes Hk (row & Hrow & Hb). gets_apply gets_call. intros w1 r w2 HI HG Hd.
  destruct (Hdoes _ _ _ Hd) as [->| ->]; [|by split_and!; [..|apply Hk]].
  split_and!; [| |apply Hk].
  - destruct HI. split; cbn; [done..|]. intros b' id' [Hin|[= -> ->]%list_elem_of_singleton]%elem_of_app; [by apply io_message0|].
    destruct (ie_row _ _ HG _ _ Hrow) as (row' & ? & [[] _]). exists row'. split; [done|]. rewrite <- Hb. unfold backend_of. congruence.
  - split; cbn; [by intros id' row' ?; exists row'|done|by eexists].
Qed.

Lemma router_request_safe r p w :
  router_request r p → index_ok w → safe (router_does reports) index_ok index_extends p (λ _ _, True) w.
Proof.
  intros Hp HI.
  assert (∀ {A} (m : rprog (result A)) P, igets m P w →
    safe (router_does reports) index_ok index_extends (m ≫= λ _, mret tt) (λ _ _, True) w) as Hdrop.
  { intros A m P Hm. apply safe_bind. eapply safe_mono; [by apply Hm|]. done. }
  destruct Hp as [spec|planID nodeID spec|ref signal|ref control|ref|scope]; apply (Hdrop _ _ (λ _ _, True)).
  - gets_apply gets_mono; [apply (gets_start r None)|done].
  - gets_apply gets_mono; [apply (gets_start r (Some {| pnr_planID := planID; pnr_nodeID := nodeID |}))|done].
  - unfold Router_Signal. destruct signal as [signal|]; [|by gets_apply gets_ret].
    gets_apply gets_bind; [apply gets_backend|]. intros b w1 _ _ Hrow.
    apply (gets_message b (rref_RunID ref) w1 (BSignal b (rref_RunID ref) signal) Done); [|by intros; gets_apply gets_ret|done].
    cbn. naive_solver.
  - unfold Router_Control. gets_apply gets_check. intros [] _. destruct control as [control|]; [|by gets_apply gets_ret].
    gets_apply gets_bind; [apply gets_backend|]. intros b w1 _ _ Hrow.
    apply (gets_message b (rref_RunID ref) w1 (BControl b (rref_RunID ref) control) Done); [|by intros; gets_apply gets_ret|done].
    cbn. naive_solver.
  - unfold Router_Status. gets_apply gets_bind; [apply gets_backend|]. intros b w1 _ _ _.
    gets_apply (gets_bind _ _ _ _ _ (λ _ _, True)); [|by intros; gets_apply gets_ret].
    intros HI1 w2 x w3 HI2 HG2 ->. by split_and!.
  - unfold Router_Subscribe. gets_apply (gets_bind _ _ _ _ _ (λ _ _, True)).
    + unfold refForScope. destruct (_ == _); [by gets_apply gets_ret|]. unfold Resolve.
      gets_apply gets_bind; [apply gets_Get|]. intros. by gets_apply gets_ret.
    + intros b w1 _ _ _. gets_apply gets_check. intros b' _ HI1 w2 x w3 HI2 HG2 ->. by split_and!.
Qed.

Lemma index_ok_empty : index_ok empty_World.
Proof. split; cbn; try (intros *; rewrite lookup_empty; done); set_solver. Qed.

Lemma router_steps_ok r s s' :
  index_ok (th_world s) →
  Forall (λ p, safe (router_does reports) index_ok index_extends p (λ _ _, True) (th_world s)) (th_progs s) →
  rtc (router_step reports r) s s' →
  index_ok (th_world s') ∧ index_extends (th_world s) (th_world s') ∧
  Forall (λ p, safe (router_does reports) index_ok index_extends p (λ _ _, True) (th_world s')) (th_progs s').
Proof.
  intros HI Hall Hs. apply (threads_safe (router_does reports) (router_request r) index_ok index_extends s s'); [|done..].
  intros p w Hp Hw. by eapply router_request_safe.
Qed.

Lemma router_reachable_ok r s :
  router_reachable reports r s →
  index_ok (th_world s) ∧
  Forall (λ p, safe (router_does reports) index_ok index_extends p (λ _ _, True) (th_world s)) (th_progs s).
Proof.
  intros Hs. destruct (router_steps_ok r (Threads empty_World []) s) as (? & _ & ?); [apply index_ok_empty|constructor|done|done].
Qed.
End programs.
