(* ===== verification/RouterOwner.v ===== *)
(** * The run router: promises

    What holds in every interleaving of requests ([RouterSpec]) for the backends: a run is
    started and addressed at its owner only, the owner is fixed for good, a run that has been
    reported as started is not started again; a caller that names its tenant reaches no run of
    another tenant. *)

From S2P Require Import Prelude Types Scope Json Temporal Calls GoStrings Router RouterSpec.
Import router.

(** The owner in the record of a request. *)
Lemma record_of_owner route spec status :
  let R := record_of route spec status in
  backend_of R = run_Backend spec ∧ rec_ThreadID R = run_ThreadID spec ∧ rec_AccountID R = run_AccountID spec ∧
  rec_ProjectID R = run_ProjectID spec ∧ rec_IdempotencyKey R = run_IdempotencyKey spec.
Proof.
  cbn zeta. unfold record_of. rewrite normalize_normal by (cbn; by case_bool_decide).
  split_and!; [|done..]. unfold backend_of. cbn. by destruct (run_Backend spec).
Qed.

(** A row is the one of the run that [spec] asks for. *)
Record owned_by (b : BackendRef) (spec : RunSpec) (row : RunBackendIndexRecord) : Prop := {
  ob_backend : backend_of row = b;
  ob_thread : rec_ThreadID row = run_ThreadID spec;
  ob_account : rec_AccountID row = run_AccountID spec;
  ob_project : rec_ProjectID row = run_ProjectID spec;
  ob_key : rec_IdempotencyKey row = run_IdempotencyKey spec;
}.

Lemma claimed_row route spec w :
  claimed route spec w → ∃ row, rows w !! run_RunID spec = Some row ∧ owned_by (run_Backend spec) spec row.
Proof.
  intros (row & Hrow & Ho). unfold claim_record in Hrow, Ho. rewrite record_run in Hrow by done.
  exists row. split; [done|]. destruct (record_of_owner route spec (claim_status spec)) as (Hb & ? & ? & ? & ?).
  destruct Ho. split; [|congruence..]. rewrite <- Hb. unfold backend_of. congruence.
Qed.

(** ** Runs without interference *)

Section undisturbed.
Variables (now : time) (owner : string → string → option planNodeOwner) (st st' : RunStatus).

Abbreviation irun := (run_calls (router_handle now owner st st')).

Lemma run_ok {A B} (m : rprog (result A)) (f : A → rprog (result B)) w a w' :
  irun m w = (Ok a, w') → irun (x ←? m; f x) w = irun (f a) w'.
Proof. intros Hm. unfold ask_ok. by rewrite run_bind, Hm. Qed.

Lemma run_read_row id w : irun (Get id) w = (Ok (rows w !! id), w).
Proof. done. Qed.

Lemma run_read_key R w :
  rec_IdempotencyKey R ≠ "" →
  irun (runByIdempotencyKey R) w = (Ok (with_key w (rec_AccountID R) (rec_ProjectID R) (rec_IdempotencyKey R)), w).
Proof. intros Hk. unfold runByIdempotencyKey. by rewrite bool_decide_eq_false_2. Qed.

Lemma validate_same R row : same_owner R row → ValidateRunBackendIndexIdempotency row R = Ok tt.
Proof.
  intros []. unfold ValidateRunBackendIndexIdempotency, validateRunBackendIndexPlanNode, validateRunBackendIndexScope,
    validateRunBackendIndexBackend, fail_if.
  repeat rewrite bool_decide_eq_true_2 by congruence. cbn. by repeat case_bool_decide.
Qed.

Lemma checks_valid R : row_checks R = true → ValidateRunBackendIndexRecord R true = Ok tt.
Proof.
  unfold row_checks, ValidateRunBackendIndexRecord, fail_if. intros Hc. simplify_bool.
  repeat rewrite bool_decide_eq_false_2 by done. done.
Qed.

(** The row of a new record. *)
Definition stamped (R : RunBackendIndexRecord) : RunBackendIndexRecord :=
  {| R with rec_CreatedAt := now; rec_UpdatedAt := now |}.

Lemma run_upsert_fresh R w :
  row_checks R = true → rows w !! rec_RunID R = None →
  with_key w (rec_AccountID R) (rec_ProjectID R) (rec_IdempotencyKey R) = None →
  irun (upsert R true) w = (Ok tt, {| w with rows := <[rec_RunID R := stamped R]> (rows w) |}).
Proof.
  intros Hc Hrow Hkey. unfold upsert.
  assert (rec_LifecycleState R ≠ "" ∧ rec_IdempotencyKey R ≠ "") as [Hl Hk] by (unfold row_checks in Hc; by simplify_bool).
  rewrite normalize_normal by done. rewrite checks_valid by done. cbn [check_ok].
  assert (irun (upsertByIdempotencyKey R) w = (Ok tt, w)) as Hby.
  { unfold upsertByIdempotencyKey. rewrite bool_decide_eq_false_2 by done. erewrite run_ok by by apply run_read_key.
    by rewrite Hkey. }
  erewrite run_ok by exact Hby. unfold ask, mbind. cbn. unfold insert_row. by rewrite Hc, Hrow, Hkey.
Qed.

Lemma run_updateLifecycle existing R w :
  rec_LifecycleState existing = RunBackendLifecycleClaiming →
  irun (updateLifecycle existing R) w =
  (Ok tt, if rec_LifecycleState R == RunBackendLifecycleClaiming then w
          else update_lifecycle now (rec_RunID existing) (rec_LifecycleState R) w).
Proof.
  intros Hl. unfold updateLifecycle. rewrite Hl. rewrite andb_false_r.
  by destruct (_ == _).
Qed.

Lemma run_upsert_known R row w :
  row_checks R = true → rows w !! rec_RunID R = Some row → same_owner R row →
  rec_LifecycleState row = RunBackendLifecycleClaiming →
  with_key w (rec_AccountID R) (rec_ProjectID R) (rec_IdempotencyKey R) = Some row →
  irun (upsert R true) w =
  (Ok tt, if rec_LifecycleState R == RunBackendLifecycleClaiming then w
          else update_lifecycle now (rec_RunID R) (rec_LifecycleState R) w).
Proof.
  intros Hc Hrow Ho Hclaim Hkey. unfold upsert.
  assert (rec_LifecycleState R ≠ "" ∧ rec_IdempotencyKey R ≠ "") as [Hl Hk] by (unfold row_checks in Hc; by simplify_bool).
  rewrite normalize_normal by done. rewrite checks_valid by done. cbn [check_ok].
  set (w1 := if _ == _ then _ else _).
  assert (irun (upsertByIdempotencyKey R) w = (Ok tt, w1)) as Hby.
  { unfold upsertByIdempotencyKey. rewrite bool_decide_eq_false_2 by done. erewrite run_ok by by apply run_read_key.
    rewrite Hkey. cbn [check_ok]. rewrite validate_same by done. cbn [check_ok]. rewrite run_updateLifecycle by done.
    by rewrite (so_run _ _ Ho). }
  erewrite run_ok by exact Hby.
  assert (∃ row1, rows w1 !! rec_RunID R = Some row1 ∧ same_owner R row1 ∧ rec_LifecycleState row1 = rec_LifecycleState R)
    as (row1 & Hrow1 & Ho1 & Hl1).
  { subst w1. case_bool_decide as Hr; [exists row; by rewrite Hclaim, Hr|].
    eexists. cbn. rewrite lookup_alter_eq, Hrow. split; [done|]. split; [|done]. etrans; [exact Ho|]. by split. }
  rewrite run_bind.
  assert (run_calls (A := insert_answer) (router_handle now owner st st') (ask (QInsert R)) w1 = (Inserted 0, w1)) as ->
    by (cbn; unfold insert_row; by rewrite Hc, Hrow1).
  cbv beta iota. rewrite bool_decide_eq_true_2 by done. unfold handleUpsertConflict.
  rewrite (run_ok _ _ _ _ _ (run_read_row _ _)), Hrow1, validate_same by done. cbn [check_ok].
  unfold updateLifecycle. rewrite Hl1. destruct (_ && _) eqn:Hb; [done|]. by rewrite bool_decide_eq_true_2.
Qed.

Lemma with_key_insert w w' id row :
  rows w' = <[id := row]> (rows w) → rows w !! id = None →
  with_key w (rec_AccountID row) (rec_ProjectID row) (rec_IdempotencyKey row) = None →
  with_key w' (rec_AccountID row) (rec_ProjectID row) (rec_IdempotencyKey row) = Some row.
Proof.
  intros Hw Hid. unfold with_key. rewrite Hw.
  set (P := λ kr : string * RunBackendIndexRecord, rec_AccountID kr.2 = rec_AccountID row ∧
    rec_ProjectID kr.2 = rec_ProjectID row ∧ rec_IdempotencyKey kr.2 = rec_IdempotencyKey row).
  pose proof (filter_Permutation P _ _ (map_to_list_insert (rows w) id row Hid)) as Hp.
  rewrite filter_cons_True in Hp by done. destruct (filter P (map_to_list (rows w))); [|done]. intros _.
  by apply Permutation_singleton_r in Hp as ->.
Qed.

(** What a prepared request has. *)
Lemma prepared_fields r route spec prepared :
  prepare_start r route spec = Ok prepared →
  (run_RunID prepared ≠ "" ∧ run_IdempotencyKey prepared ≠ "" ∧ run_AccountID prepared ≠ "" ∧ run_ProjectID prepared ≠ "") ∧
  (backend_Kind (run_Backend prepared) ≠ "" ∧ backend_Name (run_Backend prepared) ≠ "" ∧
   run_Backend prepared ∈ backends (registry r)) ∧
  (∀ p, route = Some p → pnr_planID p ≠ "" ∧ pnr_nodeID p ≠ "").
Proof.
  intros Hp.
  assert (prepareRunStart r spec = Ok prepared ∧ (∀ p, route = Some p → pnr_planID p ≠ "" ∧ pnr_nodeID p ≠ "")) as [Hrun Hroute].
  { unfold prepare_start, validatePlanNodeRoute, fail_if in Hp. destruct route as [p|]; [|by split].
    go_inv Hp. split; [done|]. by intros _ [= <-]. }
  unfold prepareRunStart, validateRunSpecScope, Registry_Get, validateBackendRef, fail_if in Hrun.
  destruct spec as [spec|]; [|done]. go_inv Hrun. cbn in *. by split_and!.
Qed.

Lemma record_of_checks route spec status :
  row_checks (record_of route spec status) =
  (run_AccountID spec != "") && (backend_Kind (run_Backend spec) != "") && (backend_Name (run_Backend spec) != "") &&
  (run_IdempotencyKey spec != "") && (run_ProjectID spec != "") &&
  ((if rs_RunID status == "" then run_RunID spec else rs_RunID status) != "") &&
  ((from_option pnr_planID "" route == "") == (from_option pnr_nodeID "" route == "")).
Proof.
  unfold record_of. rewrite normalize_normal by (cbn; by case_bool_decide). unfold row_checks. cbn.
  rewrite (bool_decide_eq_false_2 ((if rs_LifecycleState status == "" then _ else _) = "")) by by case_bool_decide.
  cbn. by rewrite andb_true_r.
Qed.

Lemma prepared_checks r route spec prepared status :
  prepare_start r route spec = Ok prepared → rs_RunID status = run_RunID prepared →
  row_checks (record_of route prepared status) = true.
Proof.
  intros ((? & ? & ? & ?) & (? & ? & _) & Hroute)%prepared_fields Hs. rewrite record_of_checks, Hs.
  rewrite (bool_decide_eq_false_2 (run_RunID prepared = "")) by done.
  repeat rewrite bool_decide_eq_false_2 by done. cbn. apply bool_decide_eq_true_2.
  destruct route as [p|]; [|done]. destruct (Hroute p eq_refl). cbn. by rewrite !bool_decide_eq_false_2.
Qed.

(** The plan has the node of the request, for its tenant and its run. *)
Definition owned (route : option planNodeRoute) (spec : RunSpec) : Prop :=
  ∀ p, route = Some p → ∃ o, owner (pnr_planID p) (pnr_nodeID p) = Some o ∧ validate o (claim_record route spec) = Ok tt.

Lemma run_owned r p spec prepared status w :
  prepare_start r (Some p) spec = Ok prepared → rs_RunID status = run_RunID prepared → owned (Some p) prepared →
  irun (validatePlanNodeOwnership (record_of (Some p) prepared status)) w = (Ok tt, w).
Proof.
  intros Hp Hs Ho. set (R := record_of (Some p) prepared status).
  destruct (Ho p eq_refl) as (o & Howner & Hvalid). pose proof (prepared_fields _ _ _ _ Hp) as (_ & _ & Hroute).
  destruct (Hroute p eq_refl) as [Hplan Hnode].
  assert (same_owner (claim_record (Some p) prepared) R) as Hsame by by apply record_owner.
  assert (rec_PlanID R = pnr_planID p ∧ rec_NodeID R = pnr_nodeID p) as [HRp HRn].
  { unfold R, record_of. by rewrite (so_plan _ _ (normalize_owner _)), (so_node _ _ (normalize_owner _)). }
  unfold validatePlanNodeOwnership. rewrite (normalize_normal R) by apply normalize_nonempty.
  unfold validatePlanNodeOwnershipRecord, fail_if. rewrite checks_valid by by eapply prepared_checks.
  rewrite HRp, HRn, !bool_decide_eq_false_2 by done. cbn [negb mbind check_ok].
  cbn. rewrite Howner. cbn. do 2 f_equal. rewrite <- Hvalid. unfold validate. by destruct Hsame as [-> _ _ _ -> -> _ _ _].
Qed.

Lemma run_bind_run r route spec prepared status w :
  prepare_start r route spec = Ok prepared → rs_RunID status = run_RunID prepared → owned route prepared →
  irun (bind_run route prepared status) w = irun (upsert (record_of route prepared status) true) w.
Proof.
  intros Hp Hs Ho. destruct route as [p|]; [|done]. cbn [bind_run]. unfold BindPlanNode.
  assert (RunBackendIndexRecordFromPlanNode (pnr_planID p) (pnr_nodeID p) prepared status =
    record_of (Some p) prepared status) as -> by by destruct p.
  by erewrite run_ok by by eapply run_owned.
Qed.

Lemma stamped_same R row :
  same_owner R row → rec_LifecycleState row = rec_LifecycleState R → rec_CreatedAt row = now → rec_UpdatedAt row = now →
  row = stamped R.
Proof. destruct R, row. intros [] ? ? ?. cbn in *. unfold stamped. cbn. congruence. Qed.

(** The world after the insertion of a record. *)
Definition inserted (R : RunBackendIndexRecord) (w : World) : World :=
  {| w with rows := <[rec_RunID R := stamped R]> (rows w) |}.

Lemma run_claim_fresh r route spec prepared w :
  prepare_start r route spec = Ok prepared → owned route prepared →
  rows w !! run_RunID prepared = None →
  with_key w (run_AccountID prepared) (run_ProjectID prepared) (run_IdempotencyKey prepared) = None →
  irun (claim_run route prepared) w = (Ok None, inserted (claim_record route prepared) w).
Proof.
  intros Hp Ho Hrow Hkey. rewrite claim_run_eq. unfold GetRunBackend.
  erewrite (run_ok _ _ w) by (erewrite run_ok by apply run_read_row; reflexivity). rewrite Hrow. cbn [fmap option_fmap option_map].
  assert (rec_RunID (claim_record route prepared) = run_RunID prepared) as Hid by by apply record_run.
  assert (irun (bind_run route prepared (claim_status prepared)) w = (Ok tt, inserted (claim_record route prepared) w)) as Hb.
  { erewrite run_bind_run by done. apply run_upsert_fresh; [by eapply prepared_checks| |].
    - fold (claim_record route prepared). by rewrite Hid.
    - by destruct (record_of_owner route prepared (claim_status prepared)) as (_ & _ & -> & -> & ->). }
  by erewrite run_ok by exact Hb.
Qed.

Lemma run_start_fresh r route spec prepared status w :
  prepare_start r route spec = Ok prepared → owned route prepared →
  normalizeOwnedRunStatus (run_RunID prepared) st = Ok status →
  rows w !! run_RunID prepared = None →
  with_key w (run_AccountID prepared) (run_ProjectID prepared) (run_IdempotencyKey prepared) = None →
  irun (start_run r route spec) w =
  (Ok status, {| rows := <[run_RunID prepared := stamped (record_of route prepared status)]> (rows w);
                 starts := starts w ++ [(run_Backend prepared, prepared)]; messages := messages w |}).
Proof.
  intros Hp Ho Hstatus Hrow Hkey. rewrite start_run_eq, Hp. cbn [check_ok].
  erewrite run_ok by by eapply run_claim_fresh.
  pose proof (normalized_run _ _ _ Hstatus) as [Hid _].
  set (C := claim_record route prepared). set (R := record_of route prepared status).
  set (w2 := {| (inserted C w) with starts := starts w ++ [(run_Backend prepared, prepared)] |}).
  assert (rec_RunID C = run_RunID prepared ∧ rec_RunID R = run_RunID prepared) as [HC HR]
    by (split; by apply record_run).
  assert (same_owner R (stamped C)) as Hso by (etrans; [by apply (record_owner _ _ _ (claim_status prepared))|by split]).
  unfold startClaimedRun.
  assert (irun (ask (BStart (run_Backend prepared) prepared)) (inserted C w) = (Ok st, w2)) as Hstart by done.
  erewrite (run_ok (ask (BStart _ _))) by exact Hstart. rewrite Hstatus. cbn [check_ok].
  assert (irun (bind_run route prepared status) w2 =
    (Ok tt, if rec_LifecycleState R == RunBackendLifecycleClaiming then w2
            else update_lifecycle now (rec_RunID R) (rec_LifecycleState R) w2)) as Hb.
  { erewrite run_bind_run by done. apply (run_upsert_known R (stamped C)); [by eapply prepared_checks| |done|done|].
    - cbn. by rewrite HR, HC, lookup_insert_eq.
    - rewrite <- (so_account _ _ Hso), <- (so_project _ _ Hso), <- (so_key _ _ Hso).
      apply (with_key_insert w _ (rec_RunID C)); [done|by rewrite HC|].
      destruct (record_of_owner route prepared (claim_status prepared)) as (_ & _ & Ha & Hproj & Hk).
      unfold C, claim_record. cbn. by rewrite Ha, Hproj, Hk. }
  change (match route with Some route0 => _ | None => _ end) with (bind_run route prepared status).
  erewrite run_ok by exact Hb.
  assert ((if rec_LifecycleState R == RunBackendLifecycleClaiming then w2
           else update_lifecycle now (rec_RunID R) (rec_LifecycleState R) w2) =
    {| rows := <[run_RunID prepared := stamped R]> (rows w);
       starts := starts w ++ [(run_Backend prepared, prepared)]; messages := messages w |}) as ->; [|done].
  rewrite HR. unfold w2, inserted, update_lifecycle. cbn. rewrite HC, alter_insert_eq.
  case_bool_decide as Hl; do 2 f_equal; apply stamped_same; try done; by destruct Hso.
Qed.

(** The log of a request, call by call. *)

Lemma run_log_app {A B} (m : rprog A) (f : A → rprog B) w :
  run_log (router_handle now owner st st') (m ≫= f) w =
  run_log (router_handle now owner st st') m w ++ run_log (router_handle now owner st st') (f (irun m w).1) (irun m w).2.
Proof.
  unfold mbind. revert w. induction m as [a|o k IH]; intros w; [done|]. cbn.
  destruct (router_handle now owner st st' o w) as [answer w']. by rewrite IH.
Qed.

Lemma run_log_ok {A B} (m : rprog (result A)) (f : A → rprog (result B)) w a w' :
  irun m w = (Ok a, w') →
  run_log (router_handle now owner st st') (x ←? m; f x) w =
  run_log (router_handle now owner st st') m w ++ run_log (router_handle now owner st st') (f a) w'.
Proof. intros Hm. unfold ask_ok. by rewrite run_log_app, Hm. Qed.

(** Programs that start no run. *)
Definition starts_run (o : router_op) : bool := match o with BStart _ _ => true | _ => false end.

Fixpoint startless {A} (p : rprog A) : Prop :=
  match p with
  | Done _ => True
  | Ask o k => starts_run o = false ∧ ∀ answer, startless (k answer)
  end.

Lemma startless_bind {A B} (m : rprog A) (f : A → rprog B) : startless m → (∀ a, startless (f a)) → startless (m ≫= f).
Proof. unfold mbind. intros Hm Hf. induction m as [a|o k IH]; [apply Hf|]. destruct Hm. split; [done|]. auto. Qed.

Lemma startless_ok {A B} (m : rprog (result A)) (f : A → rprog (result B)) :
  startless m → (∀ a, startless (f a)) → startless (x ←? m; f x).
Proof. intros Hm Hf. apply startless_bind; [done|]. intros [a|e]; [apply Hf|done]. Qed.

Lemma startless_check {A B} (r : result A) (f : A → rprog (result B)) :
  (∀ a, startless (f a)) → startless (x ←! r; f x).
Proof. intros Hf. destruct r; [apply Hf|done]. Qed.

Lemma startless_log {A} (p : rprog A) w :
  startless p → Forall (λ x, starts_run (x_op x) = false) (run_log (router_handle now owner st st') p w).
Proof.
  revert w. induction p as [a|o k IH]; intros w Hp; [constructor|]. destruct Hp as [Ho Hk]. cbn.
  destruct (router_handle _ _ _ _ o w). constructor; [done|]. apply IH, Hk.
Qed.

Lemma startless_upsert R : startless (upsert R true).
Proof.
  assert (∀ existing requested, startless (updateLifecycle existing requested)) as Hup.
  { intros. unfold updateLifecycle. destruct (_ && _); [done|]. by destruct (_ == _). }
  assert (startless (runByIdempotencyKey (NormalizeRunBackendIndexRecord R))) as Hkey.
  { unfold runByIdempotencyKey. by destruct (_ == _). }
  unfold upsert. apply startless_check. intros _. apply startless_ok.
  { unfold upsertByIdempotencyKey. destruct (_ == _); [done|]. apply startless_ok; [done|].
    intros [existing|]; [|done]. by apply startless_check. }
  intros _. apply startless_bind; [done|]. intros [rows| |e]; cbv beta iota.
  - destruct (_ == _); [|done]. unfold handleUpsertConflict. apply startless_ok; [done|].
    intros [existing|]; [|done]. by apply startless_check.
  - unfold handleUpsertExecError. destruct (negb true || _); [done|]. by apply startless_ok.
  - done.
Qed.

Lemma startless_bind_run route spec status : startless (bind_run route spec status).
Proof.
  destruct route as [p|]; [|apply startless_upsert]. unfold bind_run, BindPlanNode. apply startless_ok.
  - unfold validatePlanNodeOwnership, planNodeOwner_of. apply startless_check. intros _. apply startless_ok; [|done].
    apply startless_ok; [|done]. apply startless_bind; [done|]. by intros [].
  - intros _. apply startless_upsert.
Qed.

Lemma startless_claim route spec : startless (claim_run route spec).
Proof.
  rewrite claim_run_eq. unfold GetRunBackend. apply startless_ok; [by apply startless_ok|]. intros [existing|].
  - unfold resolve_existing. apply startless_check. intros _. destruct (_ == _); [done|].
    apply startless_ok; [done|]. intros status. by apply startless_check.
  - apply startless_ok; [apply startless_bind_run|done].
Qed.

(** The claim is in the log of a fresh start. *)
Lemma claim_logged r route spec prepared w :
  prepare_start r route spec = Ok prepared → owned route prepared →
  rows w !! run_RunID prepared = None →
  with_key w (run_AccountID prepared) (run_ProjectID prepared) (run_IdempotencyKey prepared) = None →
  Exchange (QInsert (claim_record route prepared)) (Inserted 1) ∈
    run_log (router_handle now owner st st') (claim_run route prepared) w.
Proof.
  intros Hp Ho Hrow Hkey. set (R := claim_record route prepared).
  assert (rec_RunID R = run_RunID prepared) as Hid by by apply record_run.
  assert (row_checks R = true) as Hc by by eapply prepared_checks.
  assert (rec_LifecycleState R ≠ "" ∧ rec_IdempotencyKey R ≠ "") as [Hl Hk] by (unfold row_checks in Hc; by simplify_bool).
  assert (with_key w (rec_AccountID R) (rec_ProjectID R) (rec_IdempotencyKey R) = None) as Hkey'.
  { destruct (record_of_owner route prepared (claim_status prepared)) as (_ & _ & Ha & Hproj & Hik).
    unfold R, claim_record. by rewrite Ha, Hproj, Hik. }
  assert (Exchange (QInsert R) (Inserted 1) ∈ run_log (router_handle now owner st st') (upsert R true) w) as Hin.
  { unfold upsert. rewrite normalize_normal by done. rewrite checks_valid by done. cbn [check_ok].
    assert (irun (upsertByIdempotencyKey R) w = (Ok tt, w)) as Hby.
    { unfold upsertByIdempotencyKey. rewrite bool_decide_eq_false_2 by done. erewrite run_ok by by apply run_read_key.
      by rewrite Hkey'. }
    erewrite run_log_ok by exact Hby. apply elem_of_app. right. unfold ask, mbind. cbn.
    unfold insert_row. rewrite Hc, Hid, Hrow, Hkey'. cbn. left. }
  rewrite claim_run_eq. unfold GetRunBackend.
  erewrite (run_log_ok _ _ w) by (erewrite run_ok by apply run_read_row; reflexivity).
  rewrite Hrow. cbn [fmap option_fmap option_map]. apply elem_of_app. right.
  unfold ask_ok at 1. rewrite run_log_app. apply elem_of_app. left.
  destruct route as [p|]; [|exact Hin]. cbn [bind_run]. unfold BindPlanNode.
  assert (RunBackendIndexRecordFromPlanNode (pnr_planID p) (pnr_nodeID p) prepared (claim_status prepared) = R) as ->
    by by destruct p.
  unfold ask_ok at 1. rewrite run_log_app. apply elem_of_app. right.
  pose proof (run_owned r p spec prepared (claim_status prepared) w Hp eq_refl Ho) as Hown.
  fold (claim_record (Some p) prepared) R in Hown. rewrite Hown. exact Hin.
Qed.

(** C29: A run that is new to the index, under a key that is new to its tenant, is claimed, then
    started, then bound.  The undisturbed request inserts the claim of the run for its backend
    before it asks that backend to start the run, and asks this of no backend at any other
    moment; it answers what the backend reported, leaves a row with the owner and the lifecycle
    of that report, and changes no other row.  A run of a plan node is started so when the plan
    has the node for this tenant and this run. *)
Theorem fresh_start r route spec prepared status w :
  prepare_start r route spec = Ok prepared → owned route prepared →
  normalizeOwnedRunStatus (run_RunID prepared) st = Ok status →
  rows w !! run_RunID prepared = None →
  with_key w (run_AccountID prepared) (run_ProjectID prepared) (run_IdempotencyKey prepared) = None →
  irun (start_run r route spec) w =
  (Ok status, {| rows := <[run_RunID prepared := stamped (record_of route prepared status)]> (rows w);
                 starts := starts w ++ [(run_Backend prepared, prepared)]; messages := messages w |}) ∧
  ∃ before after,
    run_log (router_handle now owner st st') (start_run r route spec) w =
      before ++ Exchange (BStart (run_Backend prepared) prepared) (Ok st) :: after ∧
    Exchange (QInsert (claim_record route prepared)) (Inserted 1) ∈ before ∧
    Forall (λ x, starts_run (x_op x) = false) (before ++ after).
Proof.
  intros Hp Ho Hstatus Hrow Hkey. split; [by eapply run_start_fresh|].
  pose proof (run_claim_fresh _ _ _ _ _ Hp Ho Hrow Hkey) as Hclaim.
  pose proof (startless_log _ w (startless_claim route prepared)) as Hbefore.
  pose proof (claim_logged _ _ _ _ _ Hp Ho Hrow Hkey) as Hin.
  set (before := run_log _ _ _) in Hbefore, Hin. rewrite start_run_eq, Hp. cbn [check_ok].
  rewrite (run_log_ok _ _ _ _ _ Hclaim). cbv beta iota. unfold startClaimedRun.
  set (w1 := inserted _ _).
  assert (irun (ask (BStart (run_Backend prepared) prepared)) w1 =
    (Ok st, {| w1 with starts := starts w1 ++ [(run_Backend prepared, prepared)] |})) as Hstart by done.
  rewrite (run_log_ok _ _ _ _ _ Hstart), Hstatus. cbn [check_ok].
  change (match route with Some route0 => _ | None => _ end) with (bind_run route prepared status).
  eexists before, _. split; [reflexivity|]. split; [exact Hin|].
  apply Forall_app. split; [exact Hbefore|]. apply startless_log, startless_ok; [apply startless_bind_run|done].
Qed.

Lemma run_start_again r route spec prepared w :
  prepare_start r route spec = Ok prepared → index_ok w → started route prepared w →
  irun (start_run r route spec) w = (normalizeOwnedRunStatus (run_RunID prepared) st', w).
Proof.
  intros Hp HI (row & Hrow & Ho & Hl). rewrite start_run_eq, Hp. cbn [check_ok].
  set (answer := match normalizeOwnedRunStatus (run_RunID prepared) st' with
                 | Ok status => Ok (Some status) | Err e => Err e end).
  assert (irun (claim_run route prepared) w = (answer, w)) as Hclaim.
  { rewrite claim_run_eq. unfold GetRunBackend.
    erewrite (run_ok _ _ w) by (erewrite run_ok by apply run_read_row; reflexivity). rewrite Hrow. cbn [fmap option_fmap option_map].
    unfold resolve_existing. rewrite validate_same by (etrans; [exact Ho|apply owner_read]). cbn [check_ok].
    rewrite (lifecycle_read _ _ _ HI Hrow), bool_decide_eq_false_2 by done. cbn.
    unfold answer. by destruct (normalizeOwnedRunStatus _ _). }
  unfold ask_ok. rewrite run_bind, Hclaim. unfold answer. by destruct (normalizeOwnedRunStatus _ _).
Qed.
End undisturbed.

(** ** Promises *)

(** C26: What a run is and where it lives is one thing for every request, however requests to the
    router interleave, fail and die: whatever a backend was told to start is owned by this backend
    in the index, for the thread, tenant and idempotency key of the request; every signal and
    control request went to the backend that the index has for the run; two starts of one run
    went to the same backend for the same tenant, thread and key. *)
Theorem runs_on_owner reports r s :
  router_reachable reports r s →
  (∀ b spec, (b, spec) ∈ starts (th_world s) →
     ∃ row, rows (th_world s) !! run_RunID spec = Some row ∧ owned_by b spec row) ∧
  (∀ b id, (b, id) ∈ messages (th_world s) → ∃ row, rows (th_world s) !! id = Some row ∧ backend_of row = b) ∧
  (∀ b1 spec1 b2 spec2, (b1, spec1) ∈ starts (th_world s) → (b2, spec2) ∈ starts (th_world s) →
     run_RunID spec1 = run_RunID spec2 →
     b1 = b2 ∧ run_ThreadID spec1 = run_ThreadID spec2 ∧ run_AccountID spec1 = run_AccountID spec2 ∧
     run_ProjectID spec1 = run_ProjectID spec2 ∧ run_IdempotencyKey spec1 = run_IdempotencyKey spec2).
Proof.
  intros [HI _]%router_reachable_ok.
  assert (∀ b spec, (b, spec) ∈ starts (th_world s) →
    ∃ row, rows (th_world s) !! run_RunID spec = Some row ∧ owned_by b spec row) as Hstart.
  { intros b spec Hin. destruct (io_start _ HI _ _ Hin) as (-> & route & Hcl). by eapply claimed_row. }
  split_and!; [exact Hstart|apply (io_message _ HI)|].
  intros b1 spec1 b2 spec2 (row1 & Hrow1 & [])%Hstart (row2 & Hrow2 & [])%Hstart Hid.
  rewrite Hid, Hrow2 in Hrow1. injection Hrow1 as ->. split_and!; congruence.
Qed.

(** C30: The owner of a run is fixed for good.  After any further requests every row of the index
    is still there, with the same plan node, thread, tenant, backend and idempotency key, and a
    run that has left claiming is not claimed again; at any time one key of a tenant names at
    most one run. *)
Theorem ownership_permanent reports r s s' :
  router_reachable reports r s → rtc (router_step reports r) s s' →
  (∀ id row, rows (th_world s) !! id = Some row →
     rec_RunID row = id ∧ ∃ row', rows (th_world s') !! id = Some row' ∧ row_after row row') ∧
  (∀ id1 row1 id2 row2, rows (th_world s') !! id1 = Some row1 → rows (th_world s') !! id2 = Some row2 →
     rec_AccountID row1 = rec_AccountID row2 → rec_ProjectID row1 = rec_ProjectID row2 →
     rec_IdempotencyKey row1 = rec_IdempotencyKey row2 → id1 = id2).
Proof.
  intros [HI Hall]%router_reachable_ok Hs. destruct (router_steps_ok _ _ _ _ HI Hall Hs) as (HI' & HG & _).
  split; [|apply (io_key _ HI')]. intros id row Hrow. split; [by apply (io_row _ HI)|by apply (ie_row _ _ HG)].
Qed.

(** C27: A start that was answered is not done twice.  When a start request has ended well beside
    any others, and no backend reports a run as claiming, then the same request at any later time
    starts nothing and changes nothing: it asks the backend of the run for its status. *)
Theorem start_once reports now owner st st' r route spec s status s1 s2 :
  honest reports → router_reachable reports r s →
  beside (router_does reports) (router_request r) (start_run r route spec) s (Ok status) s1 →
  rtc (router_step reports r) s1 s2 →
  ∃ prepared, prepare_start r route spec = Ok prepared ∧
    run_calls (router_handle now owner st st') (start_run r route spec) (th_world s2) =
    (normalizeOwnedRunStatus (run_RunID prepared) st', th_world s2).
Proof.
  intros Hh [HI Hall]%router_reachable_ok Hb Hs.
  destruct (safe_beside (router_does reports) (router_request r) index_ok index_extends (start_run r route spec)
    (λ o w, ∀ b, o = Ok b → ∃ prepared, prepare_start r route spec = Ok prepared ∧ started route prepared w)
    s (Ok status) s1) as (HI1 & _ & Hst & Hall1); [..|done|].
  - intros p w Hp Hw. by eapply router_request_safe.
  - intros o w1 w2 Hst HG b Hb'. destruct (Hst b Hb') as (prepared & ? & ?). exists prepared. split; [done|].
    by eapply run_started_extends.
  - done.
  - done.
  - eapply safe_mono; [by apply gets_start|]. intros o w (_ & _ & Hst) b Hb'.
    destruct (Hst b Hb') as (prepared & ? & _ & Hstarted). exists prepared. split; [done|by apply Hstarted].
  - destruct (Hst status eq_refl) as (prepared & Hp & Hstarted). exists prepared. split; [done|].
    destruct (router_steps_ok _ _ _ _ HI1 Hall1 Hs) as (HI2 & HG2 & _).
    apply run_start_again; [done..|]. by eapply run_started_extends.
Qed.

(** ** Tenants *)

(** The backend that a call reaches. *)
Definition op_backend (o : router_op) : option BackendRef :=
  match o with
  | BStart b _ | BSignal b _ _ | BControl b _ _ | BStatus b _ | BSubscribe b _ => Some b
  | _ => None
  end.

(** The requests that address a run. *)
Inductive addresses (r : Router) (ref : RunRef) : rprog unit → Prop :=
  | addresses_signal signal : addresses r ref (Router_Signal r ref signal ≫= λ _, mret tt)
  | addresses_control control : addresses r ref (Router_Control r ref control ≫= λ _, mret tt)
  | addresses_status : addresses r ref (Router_Status r ref ≫= λ _, mret tt).

(** The row is of the tenant that the caller names. *)
Definition same_tenant (ref : RunRef) (row : RunBackendIndexRecord) : Prop :=
  TrimSpace (rec_AccountID row) = TrimSpace (rref_AccountID ref) ∧
  (TrimSpace (rref_ProjectID ref) = "" ∨ TrimSpace (rec_ProjectID row) = TrimSpace (rref_ProjectID ref)).

Lemma traced_ok {A B} (m : rprog (result A)) (f : A → rprog (result B)) l b :
  traced (x ←? m; f x) l b →
  (∃ e, traced m l (Err e) ∧ b = Err e) ∨
  (∃ a l1 l2, l = l1 ++ l2 ∧ traced m l1 (Ok a) ∧ traced (f a) l2 b).
Proof.
  intros ([a|e] & l1 & l2 & -> & Hm & Hf)%traced_bind; [right; by exists a, l1, l2|].
  destruct Hf as [-> ->]. left. exists e. by rewrite app_nil_r.
Qed.

(** A query for a row that is only looked at. *)
Lemma traced_read {B} id (g : option RunBackendIndexRecord → result B) l o :
  traced (record ←? Get id; mret (g record)) l o →
  ∃ answer, l = [Exchange (QGetRun id) answer] ∧
    ∀ b, o = Ok b → ∃ record, answer = Ok record ∧ g record = Ok b.
Proof.
  intros (r & l1 & l2 & -> & (answer & l' & -> & [-> ->]) & Hg)%traced_bind. exists answer.
  destruct answer as [record|e]; destruct Hg as [-> ->]; (split; [done|]); [|done]. by exists record.
Qed.

Lemma matches_tenant ref row :
  TrimSpace (rref_AccountID ref) ≠ "" → Matches ref (RunBackendOwnershipFromRecord row) = true → same_tenant ref row.
Proof.
  intros Ha. unfold Matches, RunBackendOwnershipFromRecord. cbn.
  rewrite (so_account _ _ (normalize_owner row)), (so_project _ _ (normalize_owner row)). intros Hm.
  rewrite (bool_decide_eq_false_2 (TrimSpace (rref_AccountID ref) = "")) in Hm by done. cbn in Hm.
  repeat case_bool_decide; cbn in Hm; try done; split; auto.
Qed.

(** The check of the tenant. *)
Lemma traced_gate ref l o :
  traced (ownership ←? GetRunBackend (rref_RunID ref);
          mret match ownership with
               | Some ownership => if Matches ref ownership then Ok tt else Err (Errorf ErrRunRouteNotFound "%s")
               | None => Err (Errorf ErrRunRouteNotFound "%s")
               end) l o →
  ∃ answer, l = [Exchange (QGetRun (rref_RunID ref)) answer] ∧
    ∀ u, o = Ok u → ∃ row, answer = Ok (Some row) ∧ Matches ref (RunBackendOwnershipFromRecord row) = true.
Proof.
  unfold GetRunBackend. intros [(e & Hread & ->)|(ownership & l1 & l2 & -> & Hread & [-> ->])]%traced_ok;
    apply traced_read in Hread as (answer & -> & Hr); exists answer; (split; [done|]); [done|].
  destruct (Hr _ eq_refl) as (record & -> & [= <-]). destruct record as [row|]; [|done]. intros u Hu. exists row. split; [done|].
  cbn in Hu. by destruct (Matches _ _).
Qed.

(** What the routing of a run reads. *)
Lemma traced_backend r ref l o :
  TrimSpace (rref_AccountID ref) ≠ "" → traced (backendForRun r ref) l o →
  (∀ x, x ∈ l → op_backend (x_op x) = None) ∧
  (∀ backend, o = Ok backend → backend ∈ backends (registry r) ∧
     ∃ row row', l = [Exchange (QGetRun (rref_RunID ref)) (Ok (Some row)); Exchange (QGetRun (rref_RunID ref)) (Ok (Some row'))] ∧
       same_tenant ref row ∧ backend_of row' = backend).
Proof.
  intros Ha. unfold backendForRun. destruct (RunRef_Validate ref) as [[]|e]; cbn [check_ok]; [|intros [-> ->]; split; [set_solver|done]].
  rewrite (bool_decide_eq_false_2 (TrimSpace (rref_AccountID ref) = "")) by done. cbn [negb].
  intros [(e & Hgate & ->)|([] & l1 & l2 & -> & Hgate & Hroute)]%traced_ok.
  { split; [|done]. apply traced_gate in Hgate as (answer & -> & _). intros x [->|[]%elem_of_nil]%elem_of_cons. done. }
  apply traced_gate in Hgate as (answer & -> & Hgate). destruct (Hgate _ eq_refl) as (row & -> & Hm).
  apply traced_ok in Hroute as [(e & Hread & ->)|(b & l1 & l3 & -> & Hread & [-> ->])];
    apply traced_read in Hread as (answer & -> & Hr).
  { split; [|done]. by intros x [->|[->|[]%elem_of_nil]%elem_of_cons]%elem_of_cons. }
  destruct (Hr b eq_refl) as ([row'|] & -> & [= <-]). split.
  { by intros x [->|[->|[]%elem_of_nil]%elem_of_cons]%elem_of_cons. }
  unfold Registry_Get, fail_if. intros backend Hb. go_inv Hb. split; [done|]. exists row, row'.
  split_and!; [done|by apply matches_tenant|done].
Qed.

(** The calls that follow the routing reach only the backend of the run. *)
Lemma traced_routed {B} r ref (k : BackendRef → rprog (result B)) l o :
  TrimSpace (rref_AccountID ref) ≠ "" →
  (∀ backend l' o', traced (k backend) l' o' → ∀ x b, x ∈ l' → op_backend (x_op x) = Some b → b = backend) →
  traced (backend ←? backendForRun r ref; k backend) l o →
  ∀ x b, x ∈ l → op_backend (x_op x) = Some b →
  b ∈ backends (registry r) ∧ ∃ row row' l',
    l = Exchange (QGetRun (rref_RunID ref)) (Ok (Some row)) :: Exchange (QGetRun (rref_RunID ref)) (Ok (Some row')) :: l' ∧
    x ∈ l' ∧ same_tenant ref row ∧ backend_of row' = b.
Proof.
  intros Ha Hk Ht x b Hx Hb.
  apply traced_ok in Ht as [(e & Hroute & ->)|(backend & l1 & l2 & -> & Hroute & Hrest)];
    apply traced_backend in Hroute as [Hnone Hroute]; try done.
  { specialize (Hnone _ Hx). congruence. }
  apply elem_of_app in Hx as [Hx|Hx]; [specialize (Hnone _ Hx); congruence|].
  destruct (Hroute _ eq_refl) as (Hreg & row & row' & -> & Hten & Hback).
  rewrite (Hk _ _ _ Hrest _ _ Hx Hb). split; [done|]. by exists row, row', l2.
Qed.

(** C28: A caller that names its account reaches no run of another tenant.  Whenever a signal,
    control or status request with an account reaches a backend, the request has read the row of
    the run before, twice: the first one had the account and, if the caller names one, the
    project of the caller, and the second one is the registered backend that is reached. *)
Theorem tenant_gate r ref p l :
  addresses r ref p → TrimSpace (rref_AccountID ref) ≠ "" → traced p l tt →
  ∀ x b, x ∈ l → op_backend (x_op x) = Some b →
  b ∈ backends (registry r) ∧ ∃ row row' l',
    l = Exchange (QGetRun (rref_RunID ref)) (Ok (Some row)) :: Exchange (QGetRun (rref_RunID ref)) (Ok (Some row')) :: l' ∧
    x ∈ l' ∧ same_tenant ref row ∧ backend_of row' = b.
Proof.
  intros Hp Ha Ht.
  assert (∀ o l' (o' : reply o), traced (ask o) l' o' → ∀ x b, x ∈ l' → op_backend (x_op x) = Some b → op_backend o = Some b) as Hask.
  { intros o l' o' (answer & l2 & -> & [-> ->]) x b [->|[]%elem_of_nil]%elem_of_cons. done. }
  destruct Hp as [signal|control|]; apply traced_bind in Ht as (o & l1 & l2 & -> & Ht & [-> _]); rewrite app_nil_r.
  - unfold Router_Signal in Ht. destruct signal as [signal|]; [|destruct Ht as [-> _]; by intros x b ?%elem_of_nil].
    eapply traced_routed; [done| |exact Ht]. intros backend l' o' Hk x b Hx Hb. by injection (Hask _ _ _ Hk x b Hx Hb).
  - unfold Router_Control in Ht. destruct (ValidateControlRequest control); [|destruct Ht as [-> _]; by intros x b ?%elem_of_nil].
    cbn [check_ok] in Ht. destruct control as [control|]; [|destruct Ht as [-> _]; by intros x b ?%elem_of_nil].
    eapply traced_routed; [done| |exact Ht]. intros backend l' o' Hk x b Hx Hb. by injection (Hask _ _ _ Hk x b Hx Hb).
  - eapply traced_routed; [done| |exact Ht]. intros backend l' o' Hk x b Hx Hb.
    apply traced_bind in Hk as (st & l2 & l3 & -> & Hk & Hend).
    assert (l3 = []) as -> by by destruct st; destruct Hend. rewrite app_nil_r in Hx.
    by injection (Hask _ _ _ Hk x b Hx Hb).
Qed.

(** ** Samples *)

Module RouterSample.
Definition temporal : BackendRef := {| backend_Kind := "temporal"; backend_Name := "main" |}.
Definition local : BackendRef := {| backend_Kind := "local"; backend_Name := "dev" |}.
Definition backends_of : Registry := (Register (Register {| backends := ∅ |} temporal).1 local).1.
(** The selector sends coding runs to the local backend. *)
Definition select (spec : RunSpec) : result BackendRef :=
  Ok (if run_AgentID spec == "coder" then local else temporal).
Definition router : Router := {| registry := backends_of; backendSelector := Some select |}.
Definition spec : RunSpec := {| zero_RunSpec with
  run_RunID := "run-1"; run_ThreadID := "thread-1"; run_AccountID := "acct"; run_ProjectID := "proj";
  run_IdempotencyKey := "key-1" |}.
(** The same run for another agent, and so for another backend. *)
Definition stolen : RunSpec := {| spec with run_AgentID := "coder" |}.
Definition prepared : RunSpec := {| spec with run_Backend := temporal |}.
Definition ref : RunRef := {| rref_RunID := "run-1"; rref_AccountID := "acct"; rref_ProjectID := "proj" |}.
Definition stranger : RunRef := {| rref_RunID := "run-1"; rref_AccountID := "other"; rref_ProjectID := "" |}.
Definition route : planNodeRoute := {| pnr_planID := "plan-1"; pnr_nodeID := "node-1" |}.
Definition node_owner (planID nodeID : string) : option planNodeOwner :=
  Some {| pno_accountID := "acct"; pno_projectID := "proj"; pno_nodeID := Some nodeID; pno_runID := None |}.
Definition running : RunStatus := {| zero_RunStatus with rs_LifecycleState := "running" |}.
Definition now : time := 5000000%Z.
Definition cancel : ControlRequest := {|
  ctl_Operation := ControlCancel; ctl_IdempotencyKey := "stop"; ctl_RequestedAt := now; ctl_ActorID := "";
  ctl_Metadata := None |}.

Definition reported (status : RunStatus) : Prop := status = running.
Definition handle := router_handle now node_owner running running.
Definition start (spec : RunSpec) : rprog unit := Start router (Some spec) ≫= λ _, mret tt.
Definition control (ref : RunRef) : rprog unit := Router_Control router ref (Some cancel) ≫= λ _, mret tt.

(** A request starts the run, one for the other backend and one to cancel the run interleave. *)
Definition requests : list (rprog unit) := [start spec; start stolen; control ref].
Definition schedule : list nat := [0; 1; 0; 0; 1; 1; 0; 2; 2; 2; 0; 0; 0; 0; 0; 0].
Definition raced : threads (A := unit) := take_turns handle schedule empty_World requests.
Definition alone : threads (A := unit) := Threads (run_calls handle (start_run router None (Some spec)) empty_World).2 [].

Lemma handle_does o w : router_does reported o w (handle o w).1 (handle o w).2.
Proof.
  destruct o; cbn; try apply store_call_refl; try done; try (by left); [| |].
  - left. exists now. left. by destruct (insert_row _ _ _).
  - exists now. apply store_call_refl.
  - split; [by intros status [= <-]|by left].
Qed.

Lemma honest_reported : honest reported.
Proof. by intros status ->. Qed.

Lemma race_reachable : router_reachable reported router raced.
Proof.
  unfold router_reachable, router_step. etrans; [apply (start_all _ _ _ [] requests); repeat constructor|]. apply take_turns_steps, handle_does.
Qed.

Lemma run_beside {A B} (p : rprog B) w (ps : list (rprog A)) requests :
  beside (router_does reported) requests p (Threads w ps) (run_calls handle p w).1 (Threads (run_calls handle p w).2 ps).
Proof.
  revert w. induction p as [b|o k IH]; intros w; [by split|]. cbn.
  pose proof (handle_does o w) as Hd. destruct (handle o w) as [answer w'] eqn:Ho.
  exists (Threads w ps), answer, w'. split_and!; [done..|]. apply IH.
Qed.

Lemma alone_beside :
  beside (router_does reported) (router_request router) (start_run router None (Some spec)) (Threads empty_World [])
    (Ok {| running with rs_RunID := "run-1" |}) alone.
Proof. exact (run_beside (start_run router None (Some spec)) empty_World [] (router_request router)). Qed.
End RouterSample.

Lemma runs_on_owner_witness :
  let w := th_world RouterSample.raced in
  (RouterSample.temporal, RouterSample.prepared) ∈ starts w ∧ (RouterSample.temporal, "run-1") ∈ messages w ∧
  ∃ row, rows w !! "run-1" = Some row ∧ owned_by RouterSample.temporal RouterSample.prepared row.
Proof.
  intros w. assert (starts w = [(RouterSample.temporal, RouterSample.prepared)]) as Hstarts by (vm_compute; reflexivity).
  assert (messages w = [(RouterSample.temporal, "run-1")]) as Hmessages by (vm_compute; reflexivity).
  rewrite Hstarts, Hmessages. split; [left|]. split; [left|].
  apply (proj1 (runs_on_owner RouterSample.reported RouterSample.router RouterSample.raced RouterSample.race_reachable)
    RouterSample.temporal RouterSample.prepared).
  unfold w in Hstarts. rewrite Hstarts. left.
Defined.

Lemma ownership_permanent_witness :
  ∃ row row', rows (th_world RouterSample.raced) !! "run-1" = Some row ∧
    rec_LifecycleState row = "running" ∧
    rows (th_world (take_turns RouterSample.handle [0; 0; 0; 0; 0] (th_world RouterSample.raced) [RouterSample.start RouterSample.stolen]))
      !! "run-1" = Some row' ∧ row_after row row'.
Proof.
  destruct (rows (th_world RouterSample.raced) !! "run-1") as [row|] eqn:Hrow; [|vm_compute in Hrow; discriminate Hrow].
  destruct (ownership_permanent RouterSample.reported RouterSample.router RouterSample.raced
    (take_turns RouterSample.handle [3; 3; 3; 3; 3] (th_world RouterSample.raced)
       (th_progs RouterSample.raced ++ [RouterSample.start RouterSample.stolen]))) as [Hstay _].
  - exact RouterSample.race_reachable.
  - unfold router_step. etrans; [|apply take_turns_steps, RouterSample.handle_does].
    apply rtc_once. destruct RouterSample.raced. apply thread_start. constructor.
  - destruct (Hstay _ _ Hrow) as (_ & row' & Hrow' & Ha). exists row, row'.
    split; [reflexivity|]. split; [clear -Hrow; vm_compute in Hrow; injection Hrow as <-; reflexivity|].
    split; [exact Hrow'|exact Ha].
Defined.

Lemma fresh_start_witness :
  let start := start_run RouterSample.router (Some RouterSample.route) (Some RouterSample.spec) in
  run_calls RouterSample.handle start empty_World =
  (Ok {| RouterSample.running with rs_RunID := "run-1" |},
   {| rows := {[ "run-1" := stamped RouterSample.now (record_of (Some RouterSample.route) RouterSample.prepared
        {| RouterSample.running with rs_RunID := "run-1" |}) ]};
      starts := [(RouterSample.temporal, RouterSample.prepared)]; messages := [] |}) ∧
  ∃ before after,
    run_log RouterSample.handle start empty_World =
      before ++ Exchange (BStart RouterSample.temporal RouterSample.prepared) (Ok RouterSample.running) :: after ∧
    Exchange (QInsert (claim_record (Some RouterSample.route) RouterSample.prepared)) (Inserted 1) ∈ before ∧
    Forall (λ x, starts_run (x_op x) = false) (before ++ after).
Proof.
  apply (fresh_start RouterSample.now RouterSample.node_owner RouterSample.running RouterSample.running RouterSample.router
    (Some RouterSample.route) (Some RouterSample.spec) RouterSample.prepared
    {| RouterSample.running with rs_RunID := "run-1" |} empty_World).
  - vm_compute. reflexivity.
  - intros p [= <-]. eexists. split; [reflexivity|]. vm_compute. reflexivity.
  - vm_compute. reflexivity.
  - vm_compute. reflexivity.
  - vm_compute. reflexivity.
Defined.

Lemma start_once_witness :
  let w := th_world RouterSample.alone in
  starts w = [(RouterSample.temporal, RouterSample.prepared)] ∧
  run_calls RouterSample.handle (start_run RouterSample.router None (Some RouterSample.spec)) w =
  (Ok {| RouterSample.running with rs_RunID := "run-1" |}, w).
Proof.
  intros w. split; [vm_compute; reflexivity|].
  destruct (start_once RouterSample.reported RouterSample.now RouterSample.node_owner RouterSample.running RouterSample.running
    RouterSample.router None (Some RouterSample.spec) (Threads empty_World [])
    {| RouterSample.running with rs_RunID := "run-1" |} RouterSample.alone RouterSample.alone) as (prepared & Hp & Hrun).
  - exact RouterSample.honest_reported.
  - apply rtc_refl.
  - exact RouterSample.alone_beside.
  - apply rtc_refl.
  - assert (prepared = RouterSample.prepared) as -> by (clear -Hp; vm_compute in Hp; injection Hp as <-; reflexivity).
    exact Hrun.
Defined.

Lemma tenant_gate_witness :
  let w := th_world RouterSample.alone in
  let l := run_log RouterSample.handle (RouterSample.control RouterSample.ref) w in
  Exchange (BControl RouterSample.temporal "run-1" RouterSample.cancel) (Ok tt) ∈ l ∧
  (∃ row row' l', l = Exchange (QGetRun "run-1") (Ok (Some row)) :: Exchange (QGetRun "run-1") (Ok (Some row')) :: l' ∧
     same_tenant RouterSample.ref row ∧ backend_of row' = RouterSample.temporal) ∧
  Forall (λ x, op_backend (x_op x) = None) (run_log RouterSample.handle (RouterSample.control RouterSample.stranger) w).
Proof.
  intros w l. assert (Exchange (BControl RouterSample.temporal "run-1" RouterSample.cancel) (Ok tt) ∈ l) as Hin.
  { unfold l, w. vm_compute. right. right. left. }
  split; [exact Hin|]. split.
  - assert (traced (RouterSample.control RouterSample.ref) l tt) as Htraced.
    { pose proof (traced_run RouterSample.handle (RouterSample.control RouterSample.ref) w) as Ht.
      destruct (run_calls _ _ w).1. exact Ht. }
    destruct (tenant_gate RouterSample.router RouterSample.ref (RouterSample.control RouterSample.ref) l
      (addresses_control _ _ _) (λ Hblank, ltac:(vm_compute in Hblank; discriminate Hblank)) Htraced _ RouterSample.temporal
      Hin eq_refl) as (_ & row & row' & l' & Hl & _ & Hten & Hb).
    exists row, row', l'. split; [exact Hl|]. split; [exact Hten|exact Hb].
  - apply (bool_decide_unpack _). vm_compute. exact I.
Defined.
